(* ===== verification/_CoqProject ===== *)
-Q . S2P
Prelude.v
Keys.v
Layout.v
NodePath.v
Bitops.v
SmState.v
FreeSegmap.v
Sit.v
DirtySeg.v
Victim.v
Curseg.v
SegMgr.v
Alloc.v
Discard.v
SitFlush.v
SitSync.v
Durable.v
Remount.v
Store.v
InoEntry.v
Ckpt.v
CkptRound.v
CkptSelect.v
Nat.v
FreeNid.v
NidLists.v
NatFlush.v
NatSync.v
NidScan.v
NatTable.v
Rps.v
Extent.v
ExtentTree.v
ExtentInv.v
ExtentCache.v
ExtentUpdate.v
ExtentOps.v
ExtentSpec.v
Hash.v
Dentry.v
DentryOps.v
Dir.v
DirInv.v
DirOps.v
DirSpec.v
DirList.v
NodeTree.v
NodeTreeInv.v
NodeTreeOps.v
NodeTrunc.v
FileTrunc.v
FileMap.v
ReadAhead.v
Collapse.v
Recovery.v
RecoverData.v
RecoverLog.v
Recover.v
