(* ===== verification/Prelude.v ===== *)
(** * A verification of the Max file system

    Max (src/Max) is a log-structured kernel file system derived from F2FS that scales
    over the cores of a machine.  It writes blocks to several sets of logs ("mlogs"),
    keeps node addresses, free node ids and inode entries per core ("file cells"), and
    takes its checkpoint lock through a reader pass-through semaphore.  The build the
    model follows defines MLOG, FILE_CELL, RPS, PER_CORE_COUNTERS and PER_CORE_NID_LIST.

    ** The parts and how they interact

    - The segment manager (segment.c, segment.h) divides the main area into segments of
      512 blocks.  A write asks [allocate_data_block] for the next block of a log; the
      SIT records which blocks of a segment are valid now and in the last checkpoint; the
      free map and the dirty lists say which segments can be opened or recycled; victim
      selection (gc.c) chooses the segment to recycle.
    - The node manager (node.c, node.h) maps a file block to a path of node blocks, node
      ids to block addresses (the NAT) and hands out free node ids.
    - A checkpoint (checkpoint.c) flushes the NAT and the SIT, to the journals in two
      logs' summaries or to the copy of their blocks the last checkpoint does not use,
      writes the orphan inodes and the summaries of the logs into one of two packs, and
      then releases the prefree segments.  A mount reads all of it back.
    - The blocks of a file hang on a tree of node pages below its inode (node.c, data.c,
      file.c): a lookup walks the tree, a write adds nodes and blocks to it, a truncation
      takes them away and hands them to the two managers.
    - After a crash a mount replays the node blocks that fsync has written since the last
      checkpoint into the files (recovery.c).
    - The extent cache (data.c) remembers runs of file blocks at consecutive addresses.
    - Directories (dir.c, hash.c) keep their entries in blocks of the directory's file, in
      hash buckets on a growing number of levels.
    - The semaphore (rps.c) lets the operations of the file system run beside each other
      and excludes them while a checkpoint is taken.

    ** The files and the code they model

    - [Prelude]: machine integers, arrays, loops, and the generic lemmas and tactics.
      [Keys]: sorted keys of a map and the gang lookups of radix trees.
    - [Layout] (max_fs.h): constants and on-disk records.  [Bitops] (f2fs.h, segment.c):
      bitmaps and their searches.
    - [NodePath] (node.c, node.h, gc.c, super.c): the geometry of the node tree.
    - [SmState]: [f2fs_sb_info] with what the segment manager uses of it, and the address
      arithmetic.  [FreeSegmap], [Sit], [DirtySeg], [Victim], [Curseg] and [Discard]: one
      component of segment.c, segment.h and gc.c each, a C function per definition.
      [SegMgr]: the invariant over all of them; [Alloc]: what allocation guarantees.
      [SitFlush], [SitSync]: the flush of the SIT; [Durable]: nothing else touches the
      SIT on disk; [Remount]: the flush followed by a mount; [Store]: the segment manager
      refines an abstract block store.
    - [InoEntry] (checkpoint.c): inode entries, orphan reservation and orphan blocks.
    - [Ckpt], [CkptRound], [CkptSelect] (checkpoint.c, segment.c): the checkpoint pack and
      the logs, and which of the two packs a mount uses.
    - [Nat], [NatFlush], [NatSync] (node.c): the NAT cache, journal, blocks and flush;
      [FreeNid], [NidLists], [NidScan]: the free ids; [NatTable]: both refine an abstract
      table with a current and a checkpointed version.
    - [Extent] (data.c): the one extent cached in an inode; [ExtentTree]: the extent trees
      and the global list of their nodes, with the rb-tree functions of the kernel as a
      class; [ExtentInv], [ExtentCache], [ExtentUpdate], [ExtentOps]: their invariant and
      that each operation keeps it; [ExtentSpec]: what the cache promises to its callers.
    - [Hash] (hash.c): the hash of a name.  [Dentry], [DentryOps] (dir.c): one block of
      entries; [Dir]: the directory and its operations; [DirInv], [DirOps]: its invariant
      and that each operation keeps it; [DirSpec]: the directory refines a map from names
      to inodes; [DirList]: readdir.
    - [NodeTree] (node.c, data.c, file.c): lookup, allocation, page writes, truncation and
      hole punching on the node pages of one file; [NodeTreeInv]: which tree represents
      which block map; [NodeTreeOps], [NodeTrunc], [FileTrunc]: each operation on it;
      [FileMap]: the file refines a map from indexes to addresses.  [ReadAhead] (node.c):
      lookups with read-ahead.  [Collapse] (file.c): removing a range from a file.
    - [Recovery] (recovery.c, inline.c, node.c): both passes of roll-forward recovery over
      the node log and a set of files; [RecoverData]: the replay of one node;
      [RecoverLog]: the chain of nodes and the list of inodes; [Recover]: what recovery
      restores and what it does not.
    - [Rps] (rps.c): the semaphore as a transition system over any number of threads.

    ** How state and operations correspond to the code

    A C struct is a record with the fields the modelled code uses, under their names; an
    operation takes the record and returns the new one, with the value it returns.
    Integers are [Z] with the width's wrap written where the code computes ([u32], [s32]);
    arrays are lists read with [l.[i]] and written with [l.[i <- x]]; linked lists are
    lists in order; radix trees are [gmap]s.  [f2fs_bug_on] raises an alarm flag
    ([s_flag], [nm_bug], [ino_bug]) that theorems show to stay down.  The disk is a map
    from block addresses to their decoded contents.  [on-disk] byte order is the identity
    on values.  What a function of one file's tree asks of the rest of the system (whether
    a page can be read or allocated, the node ids it gets, the cell of an id) is the record
    [tworld], and theorems hold for all of its answers.

    ** What the theorems show

    - Refinement: [Store.block_store_refinement], [NatTable.node_table_refinement]: along
      every sequence of operations, checkpoints and crashes the two managers behave like
      small specifications; [DirSpec.directory_refinement]: a directory is a map from names
      to inodes; [FileMap.file_map_refinement]: a file is a map from indexes to addresses,
      under errors at any point.
    - Round trips: checkpoint and mount for the SIT ([Remount]), the logs ([CkptRound])
      and the orphan inodes ([InoEntry]); raw entries, block addresses, node paths.
    - Recovery: the blocks of fsynced nodes are in the files again
      ([Recover.fsync_blocks_recovered]), and when the search of the log ends.
    - Safety: a block handed out is in neither the current state nor the last checkpoint;
      a flush leaves the blocks of the last checkpoint alone; a discard never covers a
      valid block; the extent cache keeps its structure and agrees with the file's block
      map, except in the case [ExtentSpec.extent_update_agrees_iff] describes; mutual
      exclusion of the semaphore.
    - Invariants of every component and their preservation by each operation.
    - Termination and progress: the victim search, the free-id allocator, the absence of
      deadlocks and lost wake-ups in the semaphore.
    - Error behaviour and defects: where the code does not do what it means to, a theorem
      states what it does ([FreeSegmap.zone_check_last_mlog],
      [CkptRound.extra_log_mode_lost], [NatTable.alloc_nid_starves],
      [FileMap.truncate_bug_iff], [ReadAhead.readahead_returns_sibling],
      [Recover.fsync_lost_in_other_mlog], [Recover.fsync_hole_not_recovered],
      [DirList.readdir_skips_after_freed_block] and others).

    ** Fuel and bounds

    A [for] loop is [for_range], or [for_ok] when an error leaves it; neither needs fuel.
    A [while] loop takes fuel one above the number of rounds the data allows: the segments
    of the main area for the loops over segment bitmaps, two passes over them for the
    victim search, the entries of a NAT block for the scans, the five node ids of an inode
    for the loop of [truncate_inode_blocks], three turns for the retries of
    [get_node_page_ra], whose id changes at most once, and the blocks of the main area for
    the chain of the node log.  The theorems show the loops to end before the fuel does.
    [alloc_nid], on a damaged block [find_target_dentry], and on a chain that returns to
    itself [find_fsync_dnodes] may not end; their theorems say when.  In the
    directory, file and recovery code a call returns an [outcome], which tells a result
    from [BUG()] and from a loop that is still running.  Thread counts stay below 2^31, so
    that the counters of the semaphore do not wrap.

    ** Not modelled

    Bio submission, the write-back and locking of pages, the remaining VFS glue (file.c,
    namei.c, super.c, inode.c, xattr.c, acl.c), encryption, statistics and tracing call the
    kernel on every line and keep no state of their own that the properties here depend on.
    Moving the blocks of a victim section (gc.c) goes through the page and inode caches of
    the kernel; only the choice of the victim is modelled.  Of recovery, the attributes of
    the inode and its directory entry are left out; of the node pages, those of extended
    attributes and the removal of the inode page.  Locks other than
    the semaphore are taken around whole operations, which the model runs one after the
    other.  Memory allocation succeeds, except where the source handles failure and the
    model says so.  The user-space tools and the benchmark suite are vendored copies of
    other projects. *)

From Stdlib Require Export ZArith Lia Bool.
From stdpp Require Export base numbers list gmap.

#[global] Open Scope Z_scope.

(** * Machine integers

    A C unsigned integer of width [w] is a [Z] in [0 .. 2^w - 1]; every
    operation of the source that can leave this range is wrapped explicitly. *)

Definition u8 (x : Z) : Z := x mod 2 ^ 8.

Definition u16 (x : Z) : Z := x mod 2 ^ 16.

Definition u32 (x : Z) : Z := x mod 2 ^ 32.

Definition u64 (x : Z) : Z := x mod 2 ^ 64.

(** The value of a 32-bit pattern read as a C [int]. *)
Definition s32 (x : Z) : Z :=
  let y := u32 x in if y <? 2 ^ 31 then y else y - 2 ^ 32.

(** C's truth values. *)
Definition b2z (b : bool) : Z := if b then 1 else 0.

(** * Arrays

    A C array is a list.  [aget] reads and [aset] writes by a [Z] index; outside
    the array a read gives the type's default and a write is dropped, and the
    theorems that depend on an access carry the bound that rules this out. *)

Definition aget {A} `{Inhabited A} (l : list A) (i : Z) : A :=
  if 0 <=? i then l !!! Z.to_nat i else inhabitant.

Definition aset {A} (l : list A) (i : Z) (x : A) : list A :=
  if 0 <=? i then <[Z.to_nat i := x]> l else l.

Definition zlen {A} (l : list A) : Z := Z.of_nat (length l).

Declare Scope max_scope.
Delimit Scope max_scope with max.
Notation "l .[ i ]" := (aget l i)
  (at level 1, left associativity, format "l .[ i ]") : max_scope.
Notation "l .[ i <- x ]" := (aset l i x)
  (at level 1, left associativity, format "l .[ i  <-  x ]") : max_scope.
#[global] Open Scope max_scope.

#[export] Instance inhabited_Z : Inhabited Z := populate 0.

(** * Loops

    [zseq lo n] is the index range of [for (i = lo; i < lo + n; i++)] and
    [for_range lo hi f s] is that loop, threading the state [s]. *)

Fixpoint zseq (lo : Z) (n : nat) : list Z :=
  match n with
  | O => []
  | S m => lo :: zseq (lo + 1) m
  end.

Definition for_range {S} (lo hi : Z) (f : Z -> S -> S) (s : S) : S :=
  fold_left (fun s i => f i s) (zseq lo (Z.to_nat (hi - lo))) s.

(** [for_ok lo hi f s] is a [for] loop whose body returns a C error code and is left at the
    first negative one; a body that runs to the end gives [0]. *)
Fixpoint for_ok_from {S} (n : nat) (i : Z) (f : Z -> S -> Z * S) (s : S) : Z * S :=
  match n with
  | O => (0, s)
  | S n => let '(err, s) := f i s in if err <? 0 then (err, s) else for_ok_from n (i + 1) f s
  end.

Definition for_ok {S} (lo hi : Z) (f : Z -> S -> Z * S) (s : S) : Z * S :=
  for_ok_from (Z.to_nat (hi - lo)) lo f s.

(** * Outcomes

    What a call can do: return, hit [BUG()], or still run when the fuel of one of its
    loops is used up. *)
Inductive outcome (A : Type) :=
| Done (a : A)
| Bug
| Spins.
Arguments Done {A} a.
Arguments Bug {A}.
Arguments Spins {A}.

#[global] Instance outcome_ret : MRet outcome := fun A a => Done a.
#[global] Instance outcome_bind : MBind outcome := fun A B f m =>
  match m with Done a => f a | Bug => Bug | Spins => Spins end.

(** * Sums and counts over an index range *)

Fixpoint sumn (f : Z -> Z) (n : nat) : Z :=
  match n with
  | O => 0
  | S m => sumn f m + f (Z.of_nat m)
  end.

Definition sum_below (f : Z -> Z) (n : Z) : Z := sumn f (Z.to_nat n).

Definition count_below (p : Z -> bool) (n : Z) : Z :=
  sum_below (fun i => b2z (p i)) n.

(** * Kernel bitmaps

    The bitmaps the kernel's [test_bit], [set_bit], [clear_bit],
    [find_next_bit] and [find_next_zero_bit] work on are non-negative integers
    whose bit [n] is the bitmap's bit [n]. *)

Definition test_bit (n m : Z) : bool := Z.testbit m n.

Definition set_bit (n m : Z) : Z := Z.setbit m n.

Definition clear_bit (n m : Z) : Z := Z.clearbit m n.

Definition test_and_set_bit (n m : Z) : bool * Z := (test_bit n m, set_bit n m).

Definition test_and_clear_bit (n m : Z) : bool * Z :=
  (test_bit n m, clear_bit n m).

(** The first index at or after [i] that satisfies [p], at most [fuel] steps on. *)
Fixpoint scan (p : Z -> bool) (fuel : nat) (i : Z) : Z :=
  match fuel with
  | O => i
  | S f => if p i then i else scan p f (i + 1)
  end.

Definition find_next (p : Z -> bool) (size off : Z) : Z :=
  if size <=? off then size else scan p (Z.to_nat (size - off)) off.

Definition find_next_bit (m size off : Z) : Z :=
  find_next (fun i => test_bit i m) size off.

Definition find_next_zero_bit (m size off : Z) : Z :=
  find_next (fun i => negb (test_bit i m)) size off.

#[global] Arguments test_bit : simpl never.
#[global] Arguments set_bit : simpl never.
#[global] Arguments clear_bit : simpl never.
#[global] Arguments find_next : simpl never.
#[global] Arguments find_next_bit : simpl never.
#[global] Arguments find_next_zero_bit : simpl never.
#[global] Arguments u8 : simpl never.
#[global] Arguments u16 : simpl never.
#[global] Arguments u32 : simpl never.
#[global] Arguments u64 : simpl never.
#[global] Arguments count_below : simpl never.
#[global] Arguments sum_below : simpl never.
#[global] Arguments for_range : simpl never.
#[global] Arguments aget : simpl never.
#[global] Arguments aset : simpl never.
#[global] Arguments zlen : simpl never.

(** * Proof automation *)

Create HintDb maxdb.
Create Rewrite HintDb maxrw.

(** Case analysis on the boolean tests of a goal or of the context. *)
Ltac bool_cases :=
  repeat match goal with
  | H : (_ && _)%bool = true |- _ => apply andb_prop in H; destruct H
  | H : (_ || _)%bool = false |- _ => apply orb_false_elim in H; destruct H
  | H : negb _ = true |- _ => apply negb_true_iff in H
  | H : negb _ = false |- _ => apply negb_false_iff in H
  | H : (_ <? _) = true |- _ => apply Z.ltb_lt in H
  | H : (_ <? _) = false |- _ => apply Z.ltb_ge in H
  | H : (_ <=? _) = true |- _ => apply Z.leb_le in H
  | H : (_ <=? _) = false |- _ => apply Z.leb_gt in H
  | H : (_ =? _) = true |- _ => apply Z.eqb_eq in H
  | H : (_ =? _) = false |- _ => apply Z.eqb_neq in H
  end.

Ltac case_ifs :=
  repeat match goal with
  | |- context [if ?b then _ else _] => destruct b eqn:?
  end; bool_cases.

(** Evaluate array reads at numeral indices. *)
Ltac aget_const :=
  unfold aget;
  repeat match goal with
  | |- context [Z.to_nat ?n] =>
      is_ground n; let v := eval vm_compute in (Z.to_nat n) in
      change (Z.to_nat n) with v
  end;
  cbn [Z.leb Z.compare lookup_total list_lookup_total Pos.compare Pos.compare_cont].

(** * Lemmas on machine integers *)

Lemma u32_small x : 0 <= x < 2 ^ 32 -> u32 x = x.
Proof. intros; unfold u32; apply Z.mod_small; lia. Qed.

(** Remove the wrap-arounds whose argument [lia] shows to be in range, innermost
    first. *)
Ltac u32_simpl :=
  repeat match goal with
  | |- context [u32 ?e] =>
      lazymatch e with context [u32 _] => fail | _ => rewrite (u32_small e) by lia end
  | H : context [u32 ?e] |- _ =>
      lazymatch e with context [u32 _] => fail | _ => rewrite (u32_small e) in H by lia end
  end.

Lemma u16_small x : 0 <= x < 2 ^ 16 -> u16 x = x.
Proof. intros; unfold u16; apply Z.mod_small; lia. Qed.

Lemma u64_small x : 0 <= x < 2 ^ 64 -> u64 x = x.
Proof. intros; unfold u64; apply Z.mod_small; lia. Qed.

Ltac u64_simpl :=
  repeat match goal with
  | |- context [u64 ?e] =>
      lazymatch e with context [u64 _] => fail | _ => rewrite (u64_small e) by lia end
  | H : context [u64 ?e] |- _ =>
      lazymatch e with context [u64 _] => fail | _ => rewrite (u64_small e) in H by lia end
  end.

Lemma u32_range x : 0 <= u32 x < 2 ^ 32.
Proof. unfold u32; apply Z.mod_pos_bound; lia. Qed.

Lemma b2z_range b : 0 <= b2z b <= 1.
Proof. destruct b; simpl; lia. Qed.

(** * Lemmas on arrays *)

Section Arrays.
Context {A : Type} `{Inhabited A}.
Implicit Types (l : list A) (i j : Z).

Lemma zlen_nonneg l : 0 <= zlen l.
Proof. unfold zlen; lia. Qed.

Lemma zlen_aset l i x : zlen (l.[i <- x]) = zlen l.
Proof. unfold zlen, aset; case_ifs; rewrite ?length_insert; reflexivity. Qed.

Lemma length_aset l i x : length (l.[i <- x]) = length l.
Proof. unfold aset; case_ifs; rewrite ?length_insert; reflexivity. Qed.

Lemma aget_aset_eq l i x : 0 <= i < zlen l -> l.[i <- x].[i] = x.
Proof.
  unfold zlen, aget, aset; intros; case_ifs; [|lia].
  apply list_lookup_total_insert_eq; lia.
Qed.

Lemma aget_aset_ne l i j x : i <> j -> l.[i <- x].[j] = l.[j].
Proof.
  unfold aget, aset; intros; case_ifs; try reflexivity.
  apply list_lookup_total_insert_ne; lia.
Qed.

Lemma aget_out l i : ~ (0 <= i < zlen l) -> l.[i] = inhabitant.
Proof.
  unfold zlen, aget; intros; case_ifs; [|reflexivity].
  rewrite list_lookup_total_alt, lookup_ge_None_2 by lia; reflexivity.
Qed.

Lemma aset_out l i x : ~ (0 <= i < zlen l) -> l.[i <- x] = l.
Proof.
  unfold zlen, aset; intros; case_ifs; [|reflexivity].
  apply list_insert_ge; lia.
Qed.

Lemma aset_aget l i : l.[i <- l.[i]] = l.
Proof.
  unfold aset, aget; destruct (Z.leb_spec 0 i); [|reflexivity].
  apply list_eq; intros j; destruct (decide (Z.to_nat i = j)) as [<-|]; [|apply list_lookup_insert_ne; assumption].
  destruct (decide (Z.to_nat i < length l)%nat) as [Hl|Hl].
  - rewrite list_lookup_insert_eq by exact Hl; symmetry; apply list_lookup_lookup_total_lt; exact Hl.
  - rewrite list_insert_ge by lia; reflexivity.
Qed.

Lemma aget_aset l i j x :
  0 <= i < zlen l -> l.[i <- x].[j] = if i =? j then x else l.[j].
Proof.
  intros; case_ifs; subst; auto using aget_aset_eq, aget_aset_ne.
Qed.

Lemma aget_replicate n (x : A) i :
  0 <= i < Z.of_nat n -> (replicate n x).[i] = x.
Proof.
  unfold aget; intros; case_ifs; [|lia].
  apply lookup_total_replicate_2; lia.
Qed.

Lemma aget_app_l l k i : 0 <= i < zlen l -> (l ++ k).[i] = l.[i].
Proof.
  unfold zlen, aget; intros; case_ifs; [|lia].
  rewrite lookup_total_app_l by lia; reflexivity.
Qed.

Lemma aget_app_r l k i : zlen l <= i -> (l ++ k).[i] = k.[i - zlen l].
Proof.
  unfold zlen, aget; intros; case_ifs; try lia.
  rewrite lookup_total_app_r by lia; f_equal; lia.
Qed.

Lemma aget_ext l k :
  zlen l = zlen k -> (forall i, 0 <= i < zlen l -> l.[i] = k.[i]) -> l = k.
Proof.
  unfold zlen; intros Hl He; apply list_eq_same_length with (n := length l); [lia|lia|].
  intros i x y Hi Hx Hy; specialize (He (Z.of_nat i) ltac:(lia)).
  unfold aget in He; rewrite Zle_imp_le_bool in He by lia; rewrite Nat2Z.id in He.
  apply list_lookup_total_correct in Hx, Hy; congruence.
Qed.

Lemma aget_Forall (P : A -> Prop) l i :
  Forall P l -> 0 <= i < zlen l -> P (l.[i]).
Proof.
  unfold zlen, aget; intros HF Hi; case_ifs; [|lia].
  rewrite Forall_lookup in HF; apply (HF (Z.to_nat i)).
  apply list_lookup_lookup_total_lt; lia.
Qed.

Lemma Forall_aset (P : A -> Prop) l i x :
  Forall P l -> P x -> Forall P (l.[i <- x]).
Proof. unfold aset; intros; case_ifs; auto using Forall_insert. Qed.
End Arrays.

#[export] Hint Rewrite @zlen_aset @length_aset : maxrw.
#[export] Hint Resolve Forall_aset : maxdb.

(** * Lemmas on loops *)

Lemma zseq_length lo n : length (zseq lo n) = n.
Proof. revert lo; induction n; simpl; congruence. Qed.

Lemma zseq_snoc lo n : zseq lo (S n) = zseq lo n ++ [lo + Z.of_nat n].
Proof.
  revert lo; induction n; intros lo.
  - simpl; do 2 f_equal; lia.
  - change (zseq lo (S (S n))) with (lo :: zseq (lo + 1) (S n)).
    rewrite IHn; simpl; do 3 f_equal; lia.
Qed.

Lemma elem_of_zseq lo n i : i ∈ zseq lo n <-> lo <= i < lo + Z.of_nat n.
Proof.
  revert lo; induction n; intros lo; simpl.
  - rewrite elem_of_nil; lia.
  - rewrite elem_of_cons, IHn; lia.
Qed.

Lemma aget_zip_with {A1 A2 A3} `{Inhabited A1, Inhabited A2, Inhabited A3} (f : A1 -> A2 -> A3) l1 l2 i :
  zlen l1 = zlen l2 -> 0 <= i < zlen l1 -> (zip_with f l1 l2).[i] = f (l1.[i]) (l2.[i]).
Proof.
  unfold aget, zlen; intros Hl Hi; rewrite (proj2 (Z.leb_le 0 i)) by lia.
  rewrite !list_lookup_total_alt, lookup_zip_with.
  destruct (lookup_lt_is_Some_2 l1 (Z.to_nat i)) as [x ->]; [lia|].
  destruct (lookup_lt_is_Some_2 l2 (Z.to_nat i)) as [y ->]; [lia|].
  reflexivity.
Qed.

Lemma zlen_zip_with {A1 A2 A3} (f : A1 -> A2 -> A3) l1 l2 :
  zlen l1 = zlen l2 -> zlen (zip_with f l1 l2) = zlen l1.
Proof. unfold zlen; rewrite length_zip_with; lia. Qed.

Lemma for_range_nil {S} lo hi (f : Z -> S -> S) s :
  hi <= lo -> for_range lo hi f s = s.
Proof. intros; unfold for_range; replace (Z.to_nat (hi - lo)) with O by lia; reflexivity. Qed.

Lemma for_range_first {S} lo hi (f : Z -> S -> S) s :
  lo < hi -> for_range lo hi f s = for_range (lo + 1) hi f (f lo s).
Proof.
  intros; unfold for_range.
  replace (Z.to_nat (hi - lo)) with (Datatypes.S (Z.to_nat (hi - (lo + 1)))) by lia.
  reflexivity.
Qed.

Lemma for_range_last {S} lo hi (f : Z -> S -> S) s :
  lo <= hi -> for_range lo (hi + 1) f s = f hi (for_range lo hi f s).
Proof.
  intros; unfold for_range.
  replace (Z.to_nat (hi + 1 - lo)) with (Datatypes.S (Z.to_nat (hi - lo))) by lia.
  rewrite zseq_snoc, fold_left_app; simpl; f_equal; lia.
Qed.

(** The loop rule: an invariant indexed by the loop counter. *)
Lemma for_range_ind {S} (I : Z -> S -> Prop) lo hi (f : Z -> S -> S) s :
  lo <= hi -> I lo s ->
  (forall i t, lo <= i < hi -> I i t -> I (i + 1) (f i t)) ->
  I hi (for_range lo hi f s).
Proof.
  intros Hle H0 Hstep.
  cut (forall n : nat, lo + Z.of_nat n <= hi ->
         I (lo + Z.of_nat n) (for_range lo (lo + Z.of_nat n) f s)).
  { intros Hc; specialize (Hc (Z.to_nat (hi - lo)) ltac:(lia)).
    replace (lo + Z.of_nat (Z.to_nat (hi - lo))) with hi in Hc by lia; exact Hc. }
  induction n; intros.
  - rewrite for_range_nil by lia; replace (lo + Z.of_nat 0) with lo by lia; exact H0.
  - replace (lo + Z.of_nat (Datatypes.S n)) with (lo + Z.of_nat n + 1) by lia.
    rewrite for_range_last by lia; apply Hstep; [lia|apply IHn; lia].
Qed.

Lemma for_range_inv {S} (I : S -> Prop) lo hi (f : Z -> S -> S) s :
  I s -> (forall i t, lo <= i < hi -> I t -> I (f i t)) -> I (for_range lo hi f s).
Proof.
  intros H0 Hstep; destruct (Z_le_gt_dec lo hi).
  - apply (for_range_ind (fun _ => I)); auto.
  - rewrite for_range_nil by lia; exact H0.
Qed.

(** The loop rule for [for_ok]: [I i] before round [i], [E] when a round fails. *)
Lemma for_ok_ind {S} (I : Z -> S -> Prop) (E : Z -> S -> Prop) lo hi (f : Z -> S -> Z * S) s :
  lo <= hi -> I lo s ->
  (forall i t, lo <= i < hi -> I i t ->
    let '(err, t') := f i t in (0 <= err /\ I (i + 1) t') \/ (err < 0 /\ E err t')) ->
  let '(err, t) := for_ok lo hi f s in (err = 0 /\ I hi t) \/ (err < 0 /\ E err t).
Proof.
  intros Hle H0 Hstep; unfold for_ok; remember (Z.to_nat (hi - lo)) as n eqn:En.
  revert lo s Hle H0 Hstep En; induction n as [|n IH]; intros lo s Hle H0 Hstep En; cbn [for_ok_from].
  - left; split; [reflexivity | replace hi with lo by lia; exact H0].
  - specialize (Hstep lo s ltac:(lia) H0) as Hs; destruct (f lo s) as [err t].
    destruct Hs as [[He Ht] | [He Ht]]; destruct (Z.ltb_spec err 0); try lia; [|right; auto].
    apply IH; [lia | exact Ht | intros i u Hi; apply Hstep; lia | lia].
Qed.

(** * Lemmas on sums and counts *)

Lemma sum_below_0 f n : n <= 0 -> sum_below f n = 0.
Proof. intros; unfold sum_below; replace (Z.to_nat n) with O by lia; reflexivity. Qed.

Lemma sum_below_succ f n : 0 <= n -> sum_below f (n + 1) = sum_below f n + f n.
Proof.
  intros; unfold sum_below; replace (Z.to_nat (n + 1)) with (S (Z.to_nat n)) by lia.
  simpl; rewrite Z2Nat.id by lia; reflexivity.
Qed.

(** Induction on the bound of a sum. *)
Lemma below_ind (P : Z -> Prop) :
  P 0 -> (forall n, 0 <= n -> P n -> P (n + 1)) -> forall n, 0 <= n -> P n.
Proof. intros; apply natlike_ind; auto. Qed.

Ltac below_induction n :=
  match goal with Hn : 0 <= n |- _ =>
    pattern n; apply below_ind; [ | | exact Hn]; clear n Hn; cbv beta
  end.

Lemma sum_below_ext f g n :
  (forall i, 0 <= i < n -> f i = g i) -> sum_below f n = sum_below g n.
Proof.
  destruct (Z_le_gt_dec 0 n) as [Hn|]; [|rewrite !sum_below_0 by lia; reflexivity].
  below_induction n.
  - rewrite !sum_below_0 by lia; reflexivity.
  - intros n Hn IH He; rewrite !sum_below_succ by lia.
    rewrite (He n), IH; [reflexivity| |lia]; intros; apply He; lia.
Qed.

Lemma sum_below_split f a n :
  0 <= a <= n -> sum_below f n = sum_below f a + sum_below (fun i => f (a + i)) (n - a).
Proof.
  intros Ha; remember (n - a) as k eqn:Hk; replace n with (a + k) by lia.
  assert (Hk0 : 0 <= k) by lia; clear Hk.
  assert (Ha0 : 0 <= a) by lia; clear Ha; below_induction k.
  - rewrite Z.add_0_r, (sum_below_0 (fun i => f (a + i)) 0); lia.
  - intros k Hk IH; rewrite Z.add_assoc, !sum_below_succ, IH by lia; lia.
Qed.

(** Changing a function at one index changes its sum by the difference there. *)
Lemma sum_below_upd f g n k :
  0 <= k < n -> (forall i, 0 <= i < n -> i <> k -> g i = f i) ->
  sum_below g n = sum_below f n - f k + g k.
Proof.
  intros Hk He.
  rewrite (sum_below_split g (k + 1)), (sum_below_split f (k + 1)) by lia.
  rewrite !sum_below_succ by lia.
  rewrite (sum_below_ext g f k) by (intros; apply He; lia).
  rewrite (sum_below_ext (fun i => g (k + 1 + i)) (fun i => f (k + 1 + i)))
    by (intros; apply He; lia).
  lia.
Qed.

Lemma sum_below_le f g n :
  (forall i, 0 <= i < n -> f i <= g i) -> sum_below f n <= sum_below g n.
Proof.
  destruct (Z_le_gt_dec 0 n) as [Hn|]; [|rewrite !sum_below_0 by lia; lia].
  below_induction n.
  - rewrite !sum_below_0 by lia; lia.
  - intros n Hn IH He; rewrite !sum_below_succ by lia.
    pose proof (IH ltac:(intros; apply He; lia)); pose proof (He n ltac:(lia)); lia.
Qed.

Lemma sum_below_const c n : 0 <= n -> sum_below (fun _ => c) n = c * n.
Proof.
  intros Hn; below_induction n.
  - rewrite sum_below_0; lia.
  - intros; rewrite sum_below_succ by lia; lia.
Qed.

Lemma sum_below_add f g n :
  sum_below (fun i => f i + g i) n = sum_below f n + sum_below g n.
Proof.
  destruct (Z_le_gt_dec 0 n) as [Hn|]; [|rewrite !sum_below_0 by lia; lia].
  below_induction n.
  - rewrite !sum_below_0; lia.
  - intros; rewrite !sum_below_succ by lia; lia.
Qed.

Lemma sum_below_nonneg f n : (forall i, 0 <= i < n -> 0 <= f i) -> 0 <= sum_below f n.
Proof.
  intros; destruct (Z_le_gt_dec 0 n); [|rewrite sum_below_0; lia].
  etransitivity; [|apply (sum_below_le (fun _ => 0)); assumption].
  rewrite sum_below_const; lia.
Qed.

Lemma sum_below_ge_term f n k :
  0 <= k < n -> (forall i, 0 <= i < n -> 0 <= f i) -> f k <= sum_below f n.
Proof.
  intros Hk Hf; set (h := fun i => if i =? k then 0 else f i).
  pose proof (sum_below_upd f h n k Hk) as Hu; unfold h in Hu at 1 3; rewrite Z.eqb_refl in Hu.
  enough (0 <= sum_below h n) by
    (rewrite Hu in H by (intros i _ Hne; unfold h; rewrite (proj2 (Z.eqb_neq i k) Hne); reflexivity); lia).
  apply sum_below_nonneg; intros i Hi; unfold h; case_ifs; [lia|auto].
Qed.

Lemma count_below_range p n : 0 <= n -> 0 <= count_below p n <= n.
Proof.
  intros; unfold count_below; split.
  - etransitivity; [|apply (sum_below_le (fun _ => 0)); intros; apply b2z_range].
    rewrite sum_below_const; lia.
  - etransitivity; [apply (sum_below_le _ (fun _ => 1)); intros; apply b2z_range|].
    rewrite sum_below_const; lia.
Qed.

Lemma count_below_ext p q n :
  (forall i, 0 <= i < n -> p i = q i) -> count_below p n = count_below q n.
Proof. intros; apply sum_below_ext; intros; f_equal; auto. Qed.

Lemma count_below_upd p q n k :
  0 <= k < n -> (forall i, 0 <= i < n -> i <> k -> q i = p i) ->
  count_below q n = count_below p n - b2z (p k) + b2z (q k).
Proof.
  intros; apply (sum_below_upd (fun i => b2z (p i)) (fun i => b2z (q i))); [lia|].
  intros; f_equal; auto.
Qed.

Lemma count_below_le p q n :
  (forall i, 0 <= i < n -> p i = true -> q i = true) -> count_below p n <= count_below q n.
Proof.
  intros Hi; apply sum_below_le; intros i Hr; specialize (Hi i Hr).
  destruct (p i), (q i); simpl; try lia; discriminate Hi; reflexivity.
Qed.

Lemma count_below_negb p n :
  0 <= n -> count_below (fun i => negb (p i)) n = n - count_below p n.
Proof.
  intros; unfold count_below.
  rewrite (sum_below_ext _ (fun i => 1 + (-1) * b2z (p i)))
    by (intros; destruct (p i); reflexivity).
  rewrite sum_below_add, sum_below_const by lia.
  enough (sum_below (fun i => -1 * b2z (p i)) n = - sum_below (fun i => b2z (p i)) n) by lia.
  below_induction n; [rewrite !sum_below_0; lia|].
  intros; rewrite !sum_below_succ by lia; lia.
Qed.

Lemma count_below_pos p n k : 0 <= k < n -> p k = true -> 0 < count_below p n.
Proof.
  intros Hk Hp.
  assert (count_below (fun i => if i =? k then false else p i) n
          = count_below p n - b2z (p k) + b2z false) as He.
  { rewrite (count_below_upd p _ n k) by
      (lia || (intros; case_ifs; (lia || reflexivity))).
    rewrite Z.eqb_refl; reflexivity. }
  pose proof (count_below_range (fun i => if i =? k then false else p i) n ltac:(lia)).
  rewrite Hp in He; simpl in He; lia.
Qed.

Lemma count_below_succ p n : 0 <= n -> count_below p (n + 1) = count_below p n + b2z (p n).
Proof. intros; unfold count_below; rewrite sum_below_succ by lia; reflexivity. Qed.

Lemma count_below_mono p a b : 0 <= a <= b -> count_below p a <= count_below p b.
Proof.
  intros; unfold count_below; rewrite (sum_below_split _ a b) by lia.
  enough (0 <= sum_below (fun i => b2z (p (a + i))) (b - a)) by lia.
  apply sum_below_nonneg; intros; apply b2z_range.
Qed.

(** A satisfying index between two bounds separates their counts. *)
Lemma count_below_lt p a k b :
  0 <= a <= k -> k < b -> p k = true -> count_below p a < count_below p b.
Proof.
  intros; pose proof (count_below_mono p a k ltac:(lia)).
  pose proof (count_below_mono p (k + 1) b ltac:(lia)).
  pose proof (count_below_succ p k ltac:(lia)) as Hs; rewrite H1 in Hs; simpl in Hs; lia.
Qed.

Lemma count_below_none p n :
  (forall i, 0 <= i < n -> p i = false) -> count_below p n = 0.
Proof.
  intros; destruct (Z_le_gt_dec 0 n); [|apply sum_below_0; lia].
  rewrite (count_below_ext p (fun _ => false)) by auto.
  unfold count_below; rewrite sum_below_const; simpl; lia.
Qed.

Lemma count_below_0_inv p n i : count_below p n = 0 -> 0 <= i < n -> p i = false.
Proof.
  intros H0 Hi; destruct (p i) eqn:Hp; [|reflexivity].
  pose proof (count_below_pos p n i Hi Hp); lia.
Qed.

Lemma count_below_all p n :
  0 <= n -> (forall i, 0 <= i < n -> p i = true) -> count_below p n = n.
Proof.
  intros; rewrite (count_below_ext p (fun _ => true)) by auto.
  unfold count_below; rewrite sum_below_const; simpl; lia.
Qed.

Lemma count_below_exists p n : 0 < count_below p n -> exists i, 0 <= i < n /\ p i = true.
Proof.
  destruct (Z_le_gt_dec 0 n) as [Hn|]; [|unfold count_below; rewrite sum_below_0; lia].
  below_induction n.
  - unfold count_below; rewrite sum_below_0; lia.
  - intros n Hn IH Hc; unfold count_below in *; rewrite sum_below_succ in Hc by lia.
    destruct (p n) eqn:Hp; [exists n; auto with lia|].
    destruct IH as (i & Hi & Hpi); [simpl in Hc; lia|]; exists i; auto with lia.
Qed.

(** * Lemmas on scans and kernel bitmaps *)

Lemma scan_spec p fuel i :
  let r := scan p fuel i in
  i <= r <= i + Z.of_nat fuel /\
  (r < i + Z.of_nat fuel -> p r = true) /\
  (forall j, i <= j < r -> p j = false).
Proof.
  revert i; induction fuel; intros i; simpl.
  - repeat split; intros; lia.
  - destruct (p i) eqn:Hp.
    + repeat split; intros; try lia; exact Hp.
    + destruct (IHfuel (i + 1)) as (Hr & Ht & Hf); repeat split; try lia.
      * intros; apply Ht; lia.
      * intros j Hj; destruct (Z.eq_dec j i) as [->|]; [exact Hp|apply Hf; lia].
Qed.

Lemma find_next_spec p size off :
  0 <= off <= size ->
  let r := find_next p size off in
  off <= r <= size /\ (r < size -> p r = true) /\ (forall j, off <= j < r -> p j = false).
Proof.
  intros H; cbv zeta; unfold find_next; case_ifs; [repeat split; intros; lia|].
  destruct (scan_spec p (Z.to_nat (size - off)) off) as (Hr & Ht & Hf).
  repeat split; intros; try apply Ht; try apply Hf; lia.
Qed.

Lemma find_next_ge p size off : size <= off -> find_next p size off = size.
Proof. intros; unfold find_next; case_ifs; lia. Qed.

(** A satisfying index bounds the result of the search. *)
Lemma find_next_le p size off k :
  0 <= off <= k -> k < size -> p k = true -> find_next p size off <= k.
Proof.
  intros Ho Hk Hp; destruct (find_next_spec p size off) as (Hr & Ht & Hf); [lia|].
  destruct (Z_le_gt_dec (find_next p size off) k); [assumption|].
  rewrite Hf in Hp by lia; discriminate.
Qed.

Lemma find_next_unique p size off r :
  0 <= off <= r -> r <= size -> (r < size -> p r = true) ->
  (forall j, off <= j < r -> p j = false) -> find_next p size off = r.
Proof.
  intros Ho Hr Hp Hf; destruct (find_next_spec p size off) as (Hr' & Ht & Hf'); [lia|].
  destruct (Ztrichotomy (find_next p size off) r) as [Hlt|[->|Hgt]]; [|reflexivity|].
  - rewrite Hf in Ht by lia; specialize (Ht ltac:(lia)); discriminate.
  - specialize (Hf' r ltac:(lia)); rewrite Hp in Hf' by lia; discriminate.
Qed.

Lemma find_next_ext p q size off :
  (forall i, off <= i < size -> p i = q i) -> find_next p size off = find_next q size off.
Proof.
  intros He; unfold find_next; case_ifs; [reflexivity|].
  assert (Hn : off + Z.of_nat (Z.to_nat (size - off)) <= size) by lia.
  clear Heqb; revert Hn He; generalize (Z.to_nat (size - off)) as n; intros n; revert off.
  induction n; intros off Hn He; simpl; [reflexivity|].
  rewrite He by lia; case_ifs; [reflexivity|].
  apply IHn; [|intros; apply He]; lia.
Qed.

Lemma test_bit_set n m i :
  0 <= n -> test_bit i (set_bit n m) = (i =? n) || test_bit i m.
Proof.
  intros; unfold test_bit, set_bit; rewrite Z.setbit_eqb by lia; rewrite Z.eqb_sym; reflexivity.
Qed.

Lemma test_bit_clear n m i :
  0 <= n -> test_bit i (clear_bit n m) = negb (i =? n) && test_bit i m.
Proof.
  intros; unfold test_bit, clear_bit; rewrite Z.clearbit_eqb, Z.eqb_sym; apply andb_comm.
Qed.

Lemma test_bit_set_eq n m : 0 <= n -> test_bit n (set_bit n m) = true.
Proof. intros; rewrite test_bit_set, Z.eqb_refl by lia; reflexivity. Qed.

Lemma test_bit_clear_eq n m : 0 <= n -> test_bit n (clear_bit n m) = false.
Proof. intros; rewrite test_bit_clear, Z.eqb_refl by lia; reflexivity. Qed.

Lemma test_bit_set_ne n m i : 0 <= n -> i <> n -> test_bit i (set_bit n m) = test_bit i m.
Proof. intros; rewrite test_bit_set by lia; case_ifs; destruct (i =? n) eqn:?; bool_cases; [lia|reflexivity]. Qed.

Lemma test_bit_clear_ne n m i : 0 <= n -> i <> n -> test_bit i (clear_bit n m) = test_bit i m.
Proof. intros; rewrite test_bit_clear by lia; destruct (i =? n) eqn:?; bool_cases; [lia|reflexivity]. Qed.

(** Setting a clear bit (clearing a set one) changes the population by one. *)
Lemma count_set_bit n m size :
  0 <= n < size ->
  count_below (fun i => test_bit i (set_bit n m)) size
  = count_below (fun i => test_bit i m) size + (1 - b2z (test_bit n m)).
Proof.
  intros; rewrite (count_below_upd (fun i => test_bit i m) _ size n)
    by (lia || (intros; apply test_bit_set_ne; lia)).
  rewrite test_bit_set_eq by lia; simpl; lia.
Qed.

Lemma count_clear_bit n m size :
  0 <= n < size ->
  count_below (fun i => test_bit i (clear_bit n m)) size
  = count_below (fun i => test_bit i m) size - b2z (test_bit n m).
Proof.
  intros; rewrite (count_below_upd (fun i => test_bit i m) _ size n)
    by (lia || (intros; apply test_bit_clear_ne; lia)).
  rewrite test_bit_clear_eq by lia; simpl; lia.
Qed.
