(* ===== verification/Keys.v ===== *)
(** The keys of a kernel radix tree in ascending order, and lookups of several of them at
    a time ([radix_tree_gang_lookup]): a loop that goes on behind the last key it got
    meets every key once. *)

From Stdlib Require Import ZArith Lia Bool.
From stdpp Require Import base numbers list gmap sorting.
From S2P Require Import Prelude.

#[local] Open Scope Z_scope.

Section Keys.
Context {A : Type}.
Implicit Types m : gmap Z A.

Definition sorted_keys m : list Z := merge_sort Z.le (elements (dom m)).

(** Up to [nr] keys from [start] on. *)
Definition gang_lookup m (start : Z) (nr : nat) : list Z := take nr (filter (fun k => start <= k) (sorted_keys m)).

Lemma sorted_keys_elem m k : k ∈ sorted_keys m <-> is_Some (m !! k).
Proof. unfold sorted_keys; rewrite merge_sort_Permutation, elem_of_elements, elem_of_dom; reflexivity. Qed.

Lemma sorted_keys_nodup m : NoDup (sorted_keys m).
Proof. unfold sorted_keys; rewrite merge_sort_Permutation; apply NoDup_elements. Qed.

Lemma sorted_keys_sorted m : StronglySorted Z.lt (sorted_keys m).
Proof.
  assert (Hs : StronglySorted Z.le (sorted_keys m)) by (apply StronglySorted_merge_sort; [apply _|intros x y; lia]).
  pose proof (sorted_keys_nodup m) as Hd; induction Hs as [|x l Hs IH Hx]; [constructor|].
  apply NoDup_cons in Hd; destruct Hd as [Hn Hd]; constructor; [apply IH; exact Hd|].
  apply Forall_forall; intros y Hy; pose proof (proj1 (Forall_forall _ _) Hx y Hy); destruct (Z.eq_dec x y) as [->|]; [contradiction|lia].
Qed.

Lemma sorted_keys_size m : length (sorted_keys m) = size m.
Proof. unfold sorted_keys; rewrite merge_sort_Permutation; rewrite <- size_dom; reflexivity. Qed.

Lemma filter_sorted_split (P : Z -> Prop) `{!forall x, Decision (P x)} l1 l2 :
  (forall x, x ∈ l1 -> ~ P x) -> (forall x, x ∈ l2 -> P x) -> filter P (l1 ++ l2) = l2.
Proof.
  intros H1 H2; rewrite filter_app; replace (filter P l1) with (@nil Z).
  - cbn; induction l2 as [|x l IH]; [reflexivity|]; rewrite filter_cons, decide_True by (apply H2; left).
    f_equal; apply IH; intros y Hy; apply H2; right; exact Hy.
  - symmetry; induction l1 as [|x l IH]; [reflexivity|]; rewrite filter_cons, decide_False by (apply H1; left).
    apply IH; intros y Hy; apply H1; right; exact Hy.
Qed.

Lemma sorted_app_lt (l1 l2 : list Z) : StronglySorted Z.lt (l1 ++ l2) ->
  (forall x y, x ∈ l1 -> y ∈ l2 -> x < y) /\ (forall x y, x ∈ l1 -> last l1 = Some y -> x <= y).
Proof.
  induction l1 as [|a l1 IH]; intros Hs; [split; [intros x y H; inversion H|intros x y H; inversion H]|].
  cbn in Hs; apply StronglySorted_inv in Hs; destruct Hs as [Hs Ha]; destruct (IH Hs) as [I1 I2].
  assert (Ha' : forall y, y ∈ l1 ++ l2 -> a < y) by (intros y Hy; exact (proj1 (Forall_forall _ _) Ha y Hy)).
  split.
  - intros x y Hx Hy; apply elem_of_cons in Hx; destruct Hx as [->|Hx]; [apply Ha', elem_of_app; right; exact Hy|apply I1; assumption].
  - intros x y Hx Hm; destruct l1 as [|b l1].
    + cbn in Hm; injection Hm as <-; apply list_elem_of_singleton in Hx; lia.
    + rewrite last_cons_cons in Hm; apply elem_of_cons in Hx; destruct Hx as [->|Hx]; [|apply I2; assumption].
      pose proof (I2 b y ltac:(left) Hm); specialize (Ha' b ltac:(left)); lia.
Qed.

(** After a lookup that got keys, the keys behind the last one are those it did not get. *)
Lemma gang_rest m s nr l : last (gang_lookup m s nr) = Some l ->
  filter (fun k => s <= k) (sorted_keys m) = gang_lookup m s nr ++ filter (fun k => l + 1 <= k) (sorted_keys m) /\
  Nat.lt (length (filter (fun k => l + 1 <= k) (sorted_keys m))) (length (filter (fun k => s <= k) (sorted_keys m))).
Proof.
  unfold gang_lookup; set (F := filter (fun k => s <= k) (sorted_keys m)) in *; intros El.
  assert (HsF : StronglySorted Z.lt F).
  { unfold F; clear; pose proof (sorted_keys_sorted m) as H; induction H as [|x l H IH Hx]; [constructor|].
    rewrite filter_cons; destruct (decide (s <= x)); [|exact IH]; constructor; [exact IH|].
    apply Forall_forall; intros y Hy; apply list_elem_of_filter in Hy; apply (proj1 (Forall_forall _ _) Hx y); tauto. }
  pose proof (take_drop nr F) as Htd; destruct (sorted_app_lt (take nr F) (drop nr F)) as [S1 S2]; [rewrite Htd; exact HsF|].
  assert (Hl : l ∈ take nr F) by (apply last_Some in El; destruct El as [l' ->]; apply elem_of_app; right; left).
  assert (Hsl : s <= l).
  { assert (H : l ∈ F) by (rewrite <- Htd; apply elem_of_app; left; exact Hl); apply list_elem_of_filter in H; tauto. }
  assert (Er : filter (fun k => l + 1 <= k) (sorted_keys m) = drop nr F).
  { transitivity (filter (fun k => l + 1 <= k) F).
    - unfold F; rewrite list_filter_filter_l; [reflexivity|]; intros x; lia.
    - rewrite <- Htd at 1; apply filter_sorted_split.
      + intros x Hx; specialize (S2 x l Hx El); lia.
      + intros x Hx; specialize (S1 l x Hl Hx); lia. }
  rewrite Er; split; [symmetry; exact Htd|]; rewrite length_drop.
  assert (0 < length (take nr F))%nat by (destruct (take nr F); [inversion Hl|cbn; lia]); rewrite length_take in *; lia.
Qed.

Lemma gang_none m s nr : (0 < nr)%nat -> last (gang_lookup m s nr) = None -> filter (fun k => s <= k) (sorted_keys m) = [].
Proof. unfold gang_lookup; intros Hn H; apply last_None in H; destruct (filter _ _) as [|x F]; [reflexivity|]; destruct nr; [lia|discriminate]. Qed.

End Keys.
