(* ===== verification/Layout.v ===== *)
(** The on-disk format of the file system (src/Max/max_fs.h): constants, sizes
    and the records of the SIT, NAT, summary and node blocks.  Little-endian
    conversions are the identity on values, so a field of type [__le32] holds the
    number it encodes. *)

From S2P Require Import Prelude.

(** * Block addresses *)

Definition F2FS_BLKSIZE : Z := 4096.
Definition F2FS_BLKSIZE_BITS : Z := 12.
Definition PAGE_CACHE_SIZE : Z := 4096.
Definition NULL_ADDR : Z := 0.
Definition NEW_ADDR : Z := u32 (-1).

(** * Node geometry *)

Definition F2FS_INLINE_XATTR_ADDRS : Z := 50.
Definition DEF_ADDRS_PER_INODE : Z := 923.
Definition ADDRS_PER_BLOCK : Z := 1018.
Definition NIDS_PER_BLOCK : Z := 1018.
Definition NODE_DIR1_BLOCK : Z := DEF_ADDRS_PER_INODE + 1.
Definition NODE_DIR2_BLOCK : Z := DEF_ADDRS_PER_INODE + 2.
Definition NODE_IND1_BLOCK : Z := DEF_ADDRS_PER_INODE + 3.
Definition NODE_IND2_BLOCK : Z := DEF_ADDRS_PER_INODE + 4.
Definition NODE_DIND_BLOCK : Z := DEF_ADDRS_PER_INODE + 5.
Definition COLD_BIT_SHIFT : Z := 0.
Definition FSYNC_BIT_SHIFT : Z := 1.
Definition DENT_BIT_SHIFT : Z := 2.
Definition OFFSET_BIT_SHIFT : Z := 3.
Definition OFFSET_BIT_MASK : Z := 7.

Record node_footer := mk_footer {
  ft_nid : Z;
  ft_ino : Z;
  ft_flag : Z;
  ft_cp_ver : Z;
  ft_next_blkaddr : Z;
}.

(** * Logs and checkpoints *)

Definition MAX_EXTEND_LOGS : Z := 63.
Definition F2FS_CP_PACKS : Z := 2.
Definition CP_FASTBOOT_FLAG : Z := 32.
Definition CP_FSCK_FLAG : Z := 16.
Definition CP_COMPACT_SUM_FLAG : Z := 4.
Definition CP_ORPHAN_PRESENT_FLAG : Z := 2.
Definition CP_UMOUNT_FLAG : Z := 1.
Definition F2FS_ORPHANS_PER_BLOCK : Z := 1020.

Definition GET_ORPHAN_BLOCKS (n : Z) : Z :=
  (n + F2FS_ORPHANS_PER_BLOCK - 1) / F2FS_ORPHANS_PER_BLOCK.

(** * NAT *)

Record f2fs_nat_entry := mk_nat_entry {
  ne_version : Z;
  ne_ino : Z;
  ne_block_addr : Z;
}.

Definition sizeof_f2fs_nat_entry : Z := 9.
Definition NAT_ENTRY_PER_BLOCK : Z := PAGE_CACHE_SIZE / sizeof_f2fs_nat_entry.

(** * SIT *)

Record f2fs_sit_entry := mk_raw_sit {
  rs_vblocks : Z;
  rs_valid_map : list Z;
  rs_mtime : Z;
}.

Definition sizeof_f2fs_sit_entry : Z := 2 + 64 + 8.
Definition SIT_ENTRY_PER_BLOCK : Z := PAGE_CACHE_SIZE / sizeof_f2fs_sit_entry.
Definition SIT_VBLOCKS_SHIFT : Z := 10.
Definition SIT_VBLOCKS_MASK : Z := Z.shiftl 1 SIT_VBLOCKS_SHIFT - 1.

Definition GET_SIT_VBLOCKS (raw_sit : f2fs_sit_entry) : Z :=
  Z.land (rs_vblocks raw_sit) SIT_VBLOCKS_MASK.

Definition GET_SIT_TYPE (raw_sit : f2fs_sit_entry) : Z :=
  Z.shiftr (Z.land (rs_vblocks raw_sit) (Z.lnot SIT_VBLOCKS_MASK)) SIT_VBLOCKS_SHIFT.

(** * Segment summaries *)

Definition SUMMARY_SIZE : Z := 7.
Definition SUM_FOOTER_SIZE : Z := 5.
Definition SUM_ENTRY_SIZE : Z := SUMMARY_SIZE * 512.
Definition SUM_TYPE_NODE : Z := 1.
Definition SUM_TYPE_DATA : Z := 0.
Definition SUM_JOURNAL_SIZE : Z := F2FS_BLKSIZE - SUM_FOOTER_SIZE - SUM_ENTRY_SIZE.
Definition sizeof_nat_journal_entry : Z := 4 + sizeof_f2fs_nat_entry.
Definition sizeof_sit_journal_entry : Z := 4 + sizeof_f2fs_sit_entry.
Definition NAT_JOURNAL_ENTRIES : Z := (SUM_JOURNAL_SIZE - 2) / sizeof_nat_journal_entry.
Definition SIT_JOURNAL_ENTRIES : Z := (SUM_JOURNAL_SIZE - 2) / sizeof_sit_journal_entry.

Record f2fs_summary := mk_summary {
  sm_nid : Z;
  sm_version : Z;
  sm_ofs_in_node : Z;
}.

Record nat_journal_entry := mk_nat_jnl {
  nj_nid : Z;
  nj_ne : f2fs_nat_entry;
}.

Record sit_journal_entry := mk_sit_jnl {
  sj_segno : Z;
  sj_se : f2fs_sit_entry;
}.

(** The two journals share their storage in the source, with one counter; a block
    uses the NAT journal (hot data log) or the SIT journal (cold data log). *)
Record f2fs_summary_block := mk_sum_block {
  sb_entries : list f2fs_summary;
  sb_n_jnl : Z;
  sb_nat_j : list nat_journal_entry;
  sb_sit_j : list sit_journal_entry;
  sb_entry_type : Z;
}.

#[export] Instance inhabited_footer : Inhabited node_footer :=
  populate (mk_footer 0 0 0 0 0).
#[export] Instance inhabited_nat_entry : Inhabited f2fs_nat_entry :=
  populate (mk_nat_entry 0 0 0).
#[export] Instance inhabited_sit_entry : Inhabited f2fs_sit_entry :=
  populate (mk_raw_sit 0 (replicate 64 0) 0).
#[export] Instance inhabited_summary : Inhabited f2fs_summary :=
  populate (mk_summary 0 0 0).
#[export] Instance inhabited_nat_jnl : Inhabited nat_journal_entry :=
  populate (mk_nat_jnl 0 inhabitant).
#[export] Instance inhabited_sit_jnl : Inhabited sit_journal_entry :=
  populate (mk_sit_jnl 0 inhabitant).
#[export] Instance inhabited_sum_block : Inhabited f2fs_summary_block :=
  populate (mk_sum_block (replicate 512 inhabitant) 0 (replicate 38 inhabitant)
                         (replicate 6 inhabitant) 0).

(** Kernel constants: the size of a page and error numbers. *)
Definition PAGE_CACHE_SHIFT : Z := 12.
Definition EPERM : Z := 1.
Definition ENOENT : Z := 2.
Definition ENOMEM : Z := 12.
Definition EINVAL : Z := 22.
Definition ENOSPC : Z := 28.
