(* ===== verification/NodePath.v ===== *)
(** The shape of a file's node tree: from a file block index to the node that
    maps it and back (get_node_path of src/Max/node.c, start_bidx_of_node of
    src/Max/gc.c, IS_DNODE and the node footer of src/Max/node.h,
    PGOFS_OF_NEXT_DNODE of src/Max/f2fs.h, max_file_size of src/Max/super.c). *)

From S2P Require Import Prelude Layout.

#[local] Ltac Zify.zify_post_hook ::= Z.to_euclidean_division_equations.

(** * Definitions *)

(** [ADDRS_PER_INODE(fi)]; the flag tells whether the inode has an inline xattr. *)
Definition addrs_per_inode (inline_xattr : bool) : Z :=
  if inline_xattr then DEF_ADDRS_PER_INODE - F2FS_INLINE_XATTR_ADDRS
  else DEF_ADDRS_PER_INODE.

(** The level and the filled prefixes of [offset] and [noffset]. *)
Record node_path := mk_path {
  np_level : Z;
  np_offset : list Z;
  np_noffset : list Z;
}.

(** [None] is the [BUG()] of a block index past the double indirect tree. *)
Definition get_node_path (inline_xattr : bool) (block : Z) : option node_path :=
  let direct_index := addrs_per_inode inline_xattr in
  let direct_blks := ADDRS_PER_BLOCK in
  let dptrs_per_blk := NIDS_PER_BLOCK in
  let indirect_blks := ADDRS_PER_BLOCK * NIDS_PER_BLOCK in
  let dindirect_blks := indirect_blks * NIDS_PER_BLOCK in
  if block <? direct_index then Some (mk_path 0 [block] [0]) else
  let block := block - direct_index in
  if block <? direct_blks then
    Some (mk_path 1 [NODE_DIR1_BLOCK; block] [0; 1]) else
  let block := block - direct_blks in
  if block <? direct_blks then
    Some (mk_path 1 [NODE_DIR2_BLOCK; block] [0; 2]) else
  let block := block - direct_blks in
  if block <? indirect_blks then
    let o1 := block / direct_blks in
    Some (mk_path 2 [NODE_IND1_BLOCK; o1; block mod direct_blks] [0; 3; 4 + o1]) else
  let block := block - indirect_blks in
  if block <? indirect_blks then
    let o1 := block / direct_blks in
    Some (mk_path 2 [NODE_IND2_BLOCK; o1; block mod direct_blks]
                    [0; 4 + dptrs_per_blk; 5 + dptrs_per_blk + o1]) else
  let block := block - indirect_blks in
  if block <? dindirect_blks then
    let o1 := block / indirect_blks in
    let o2 := (block / direct_blks) mod dptrs_per_blk in
    Some (mk_path 3 [NODE_DIND_BLOCK; o1; o2; block mod direct_blks]
            [0; 5 + dptrs_per_blk * 2;
             6 + dptrs_per_blk * 2 + o1 * (dptrs_per_blk + 1);
             7 + dptrs_per_blk * 2 + o1 * (dptrs_per_blk + 1) + o2])
  else None.

(** [unsigned int] and [block_t] arithmetic, hence the wrap-around of each step. *)
Definition start_bidx_of_node (node_ofs : Z) (inline_xattr : bool) : Z :=
  let indirect_blks := 2 * NIDS_PER_BLOCK + 4 in
  if node_ofs =? 0 then 0 else
  let bidx :=
    if node_ofs <=? 2 then u32 (node_ofs - 1)
    else if node_ofs <=? indirect_blks then
      let dec := u32 (node_ofs - 4) / (NIDS_PER_BLOCK + 1) in
      u32 (node_ofs - 2 - dec)
    else
      let dec := u32 (node_ofs - indirect_blks - 3) / (NIDS_PER_BLOCK + 1) in
      u32 (node_ofs - 5 - dec) in
  u32 (bidx * ADDRS_PER_BLOCK + addrs_per_inode inline_xattr).

Definition XATTR_NODE_OFFSET : Z :=
  Z.shiftr (u32 (Z.shiftl (u32 (-1)) OFFSET_BIT_SHIFT)) OFFSET_BIT_SHIFT.

Definition f2fs_has_xattr_block (ofs : Z) : bool := ofs =? XATTR_NODE_OFFSET.

Definition ofs_of_node (f : node_footer) : Z := Z.shiftr (ft_flag f) OFFSET_BIT_SHIFT.

Definition IS_DNODE (f : node_footer) : bool :=
  let ofs := ofs_of_node f in
  if f2fs_has_xattr_block ofs then false
  else if (ofs =? 3) || (ofs =? 4 + NIDS_PER_BLOCK) || (ofs =? 5 + 2 * NIDS_PER_BLOCK)
  then false
  else if (6 + 2 * NIDS_PER_BLOCK <=? ofs)
          && ((ofs - (6 + 2 * NIDS_PER_BLOCK)) mod (NIDS_PER_BLOCK + 1) =? 0)
  then false
  else true.

Definition PGOFS_OF_NEXT_DNODE (pgofs : Z) (inline_xattr : bool) : Z :=
  let n := addrs_per_inode inline_xattr in
  if pgofs <? n then n
  else (pgofs - n + ADDRS_PER_BLOCK) / ADDRS_PER_BLOCK * ADDRS_PER_BLOCK + n.

(** [max_file_size], in bytes, for a block size of [2^bits]. *)
Definition max_file_size (bits : Z) : Z :=
  let result := DEF_ADDRS_PER_INODE - F2FS_INLINE_XATTR_ADDRS in
  let leaf_count := ADDRS_PER_BLOCK in
  let result := result + leaf_count * 2 in
  let leaf_count := leaf_count * NIDS_PER_BLOCK in
  let result := result + leaf_count * 2 in
  let leaf_count := leaf_count * NIDS_PER_BLOCK in
  let result := result + leaf_count in
  Z.shiftl result bits.

(** ** The node footer *)

(** [fill_node_footer]; [reset] clears the whole block first. *)
Definition fill_node_footer (f : node_footer) (nid ino ofs : Z) (reset : bool) : node_footer :=
  let f0 := if reset then mk_footer 0 0 0 0 0 else f in
  let old_flag := if reset then 0 else ft_flag f in
  mk_footer nid ino
    (Z.lor (u32 (Z.shiftl ofs OFFSET_BIT_SHIFT)) (Z.land old_flag OFFSET_BIT_MASK))
    (ft_cp_ver f0) (ft_next_blkaddr f0).

Definition copy_node_footer (dst src : node_footer) : node_footer := src.

Definition fill_node_footer_blkaddr (f : node_footer) (checkpoint_ver blkaddr : Z) : node_footer :=
  mk_footer (ft_nid f) (ft_ino f) (ft_flag f) checkpoint_ver blkaddr.

Definition ino_of_node (f : node_footer) : Z := ft_ino f.
Definition nid_of_node (f : node_footer) : Z := ft_nid f.
Definition cpver_of_node (f : node_footer) : Z := ft_cp_ver f.
Definition next_blkaddr_of_node (f : node_footer) : Z := ft_next_blkaddr f.

Definition is_node (f : node_footer) (type : Z) : bool :=
  negb (Z.land (ft_flag f) (Z.shiftl 1 type) =? 0).

Definition set_flag_bit (f : node_footer) (on : bool) (type : Z) : node_footer :=
  mk_footer (ft_nid f) (ft_ino f)
    (if on then Z.lor (ft_flag f) (Z.shiftl 1 type)
     else Z.land (ft_flag f) (u32 (Z.lnot (Z.shiftl 1 type))))
    (ft_cp_ver f) (ft_next_blkaddr f).

Definition set_cold_node (is_dir : bool) (f : node_footer) : node_footer :=
  set_flag_bit f (negb is_dir) COLD_BIT_SHIFT.

Definition set_mark (f : node_footer) (mark : bool) (type : Z) : node_footer :=
  set_flag_bit f mark type.

(** * The tree *)

(** The number of blocks the tree can map. *)
Definition max_blocks (inline_xattr : bool) : Z :=
  addrs_per_inode inline_xattr + 2 * ADDRS_PER_BLOCK
  + 2 * (ADDRS_PER_BLOCK * NIDS_PER_BLOCK)
  + ADDRS_PER_BLOCK * NIDS_PER_BLOCK * NIDS_PER_BLOCK.

(** The node offset of the direct node (or the inode) that maps a block. *)
Definition dnode_of (p : node_path) : Z := (np_noffset p).[np_level p].
Definition ofs_in_dnode (p : node_path) : Z := (np_offset p).[np_level p].

#[local] Ltac unfold_geometry :=
  unfold addrs_per_inode, ADDRS_PER_BLOCK, NIDS_PER_BLOCK, DEF_ADDRS_PER_INODE,
    F2FS_INLINE_XATTR_ADDRS, NODE_DIR1_BLOCK, NODE_DIR2_BLOCK, NODE_IND1_BLOCK,
    NODE_IND2_BLOCK, NODE_DIND_BLOCK in *.

Lemma addrs_per_inode_cases x : addrs_per_inode x = 873 \/ addrs_per_inode x = 923.
Proof. destruct x; auto. Qed.

(** The six ways a block index is resolved, with the index of the direct node
    among all direct nodes written out: [block = n + k * ADDRS_PER_BLOCK + o]. *)
Lemma get_node_path_cases x b :
  0 <= b < max_blocks x ->
  let n := addrs_per_inode x in
  (b < n /\ get_node_path x b = Some (mk_path 0 [b] [0])) \/
  exists k o, 0 <= o < 1018 /\ b = n + k * 1018 + o /\
   ((k = 0 /\ get_node_path x b = Some (mk_path 1 [924; o] [0; 1])) \/
    (k = 1 /\ get_node_path x b = Some (mk_path 1 [925; o] [0; 2])) \/
    (exists i, 0 <= i < 1018 /\ k = 2 + i /\
       get_node_path x b = Some (mk_path 2 [926; i; o] [0; 3; 4 + i])) \/
    (exists i, 0 <= i < 1018 /\ k = 1020 + i /\
       get_node_path x b = Some (mk_path 2 [927; i; o] [0; 1022; 1023 + i])) \/
    (exists i j, 0 <= i < 1018 /\ 0 <= j < 1018 /\ k = 2038 + i * 1018 + j /\
       get_node_path x b =
         Some (mk_path 3 [928; i; j; o]
                 [0; 2041; 2042 + i * 1019; 2043 + i * 1019 + j]))).
Proof.
  intros Hb n; unfold get_node_path, max_blocks in *; fold n in Hb |- *.
  unfold_geometry; assert (Hn : n = 873 \/ n = 923) by (destruct x; auto).
  destruct (b <? n) eqn:H0; bool_cases; [left; auto|right].
  destruct (b - n <? 1018) eqn:H1; bool_cases.
  { exists 0, (b - n); split; [lia|]; split; [lia|]; left; auto. }
  destruct (b - n - 1018 <? 1018) eqn:H2; bool_cases.
  { exists 1, (b - n - 1018); split; [lia|]; split; [lia|]; right; left; auto. }
  destruct (b - n - 1018 - 1018 <? 1018 * 1018) eqn:H3; bool_cases.
  { set (c := b - n - 1018 - 1018) in *.
    exists (2 + c / 1018), (c mod 1018); split; [lia|]; split; [lia|].
    right; right; left; exists (c / 1018); repeat split; lia. }
  destruct (b - n - 1018 - 1018 - 1018 * 1018 <? 1018 * 1018) eqn:H4; bool_cases.
  { set (c := b - n - 1018 - 1018 - 1018 * 1018) in *.
    exists (1020 + c / 1018), (c mod 1018); split; [lia|]; split; [lia|].
    right; right; right; left; exists (c / 1018); repeat split; lia. }
  destruct (_ <? 1018 * 1018 * 1018) eqn:H5; bool_cases; [|lia].
  set (c := b - n - 1018 - 1018 - 1018 * 1018 - 1018 * 1018) in *.
  exists (2038 + c / 1018), (c mod 1018); split; [lia|]; split; [lia|].
  right; right; right; right.
  exists (c / (1018 * 1018)), ((c / 1018) mod 1018).
  rewrite <- (Z.div_div c 1018 1018) by lia.
  pose proof (Z.div_mod c 1018 ltac:(lia)); set (d := c / 1018) in *.
  split; [lia|]; split; [lia|]; split; [lia|].
  repeat f_equal; lia.
Qed.

(** The tree maps the blocks below [max_blocks] and no others. *)
Lemma get_node_path_None x b : 0 <= b -> get_node_path x b = None <-> max_blocks x <= b.
Proof.
  intros Hb; split; intros H.
  - destruct (Z.lt_ge_cases b (max_blocks x)) as [Hlt | Hge]; [|exact Hge].
    destruct (get_node_path_cases x b ltac:(lia)) as [[_ E] | (k & o & _ & _ & E)]; [congruence|].
    destruct E as [[_ E] | [[_ E] | [(i & _ & _ & E) | [(i & _ & _ & E) | (i & j & _ & _ & _ & E)]]]]; congruence.
  - unfold get_node_path, max_blocks in *; set (n := addrs_per_inode x) in *; unfold_geometry.
    assert (Hn : n = 873 \/ n = 923) by apply addrs_per_inode_cases.
    repeat (rewrite (proj2 (Z.ltb_ge _ _)) by lia); reflexivity.
Qed.

(** [start_bidx_of_node] at the offsets of direct nodes. *)
Lemma start_bidx_dir1 x : start_bidx_of_node 1 x = addrs_per_inode x.
Proof. destruct x; reflexivity. Qed.

Lemma start_bidx_dir2 x : start_bidx_of_node 2 x = 1018 + addrs_per_inode x.
Proof. destruct x; reflexivity. Qed.

Lemma start_bidx_ind1 x i :
  0 <= i < 1018 -> start_bidx_of_node (4 + i) x = (2 + i) * 1018 + addrs_per_inode x.
Proof.
  intros; unfold start_bidx_of_node; unfold_geometry; case_ifs; try lia;
    u32_simpl; lia.
Qed.

Lemma start_bidx_ind2 x i :
  0 <= i < 1018 -> start_bidx_of_node (1023 + i) x = (1020 + i) * 1018 + addrs_per_inode x.
Proof.
  intros; unfold start_bidx_of_node; unfold_geometry; case_ifs; try lia;
    u32_simpl; lia.
Qed.

Lemma start_bidx_dind x i j :
  0 <= i < 1018 -> 0 <= j < 1018 ->
  start_bidx_of_node (2043 + i * 1019 + j) x
  = (2038 + i * 1018 + j) * 1018 + addrs_per_inode x.
Proof.
  intros; unfold start_bidx_of_node; unfold_geometry; case_ifs; try lia;
    u32_simpl; lia.
Qed.

(** Everything a path says about its direct node, in one statement. *)
Lemma get_node_path_dnode x b :
  0 <= b < max_blocks x ->
  exists p, get_node_path x b = Some p /\
    start_bidx_of_node (dnode_of p) x + ofs_in_dnode p = b /\
    0 <= ofs_in_dnode p < (if np_level p =? 0 then addrs_per_inode x else ADDRS_PER_BLOCK) /\
    0 <= dnode_of p < 2043 + 1018 * 1019.
Proof.
  intros Hb; destruct (get_node_path_cases x b Hb) as
    [[Hn ->]|(k & o & Ho & -> & Hk)]; cbv zeta in *.
  - eexists; split; [reflexivity|]; unfold dnode_of, ofs_in_dnode.
    change ((np_noffset _).[_]) with 0; change ((np_offset _).[_]) with b.
    change (start_bidx_of_node 0 x) with 0; cbn; lia.
  - destruct Hk as [[-> ->]|[[-> ->]|[(i & Hi & -> & ->)|[(i & Hi & -> & ->)|
      (i & j & Hi & Hj & -> & ->)]]]];
    (eexists; split; [reflexivity|]); unfold dnode_of, ofs_in_dnode, ADDRS_PER_BLOCK;
      cbn [np_level np_noffset np_offset Z.eqb Pos.eqb]; aget_const.
    + rewrite start_bidx_dir1; lia.
    + rewrite start_bidx_dir2; lia.
    + rewrite start_bidx_ind1; lia.
    + rewrite start_bidx_ind2; lia.
    + rewrite start_bidx_dind; lia.
Qed.

(** Resolving a file block index and then computing the first index its
    direct node maps gives the block back: the offset inside the direct node is
    in bounds, the direct node's own offset fits the 29 bits of the footer, and
    the start index returned by [start_bidx_of_node] plus the offset is the
    block index, for every block a file can have. *)
Theorem node_path_round_trip (inline_xattr : bool) (block : Z)
  (Hb : 0 <= block < max_blocks inline_xattr) :
  exists p, get_node_path inline_xattr block = Some p /\
    start_bidx_of_node (dnode_of p) inline_xattr + ofs_in_dnode p = block /\
    0 <= ofs_in_dnode p < (if np_level p =? 0 then addrs_per_inode inline_xattr
                           else ADDRS_PER_BLOCK) /\
    0 <= dnode_of p < 2 ^ 29.
Proof.
  destruct (get_node_path_dnode inline_xattr block Hb) as (p & Hp & Hs & Ho & Hd).
  exists p; repeat split; try assumption; lia.
Qed.

(** Footers *)

Lemma land_ones_testbit a n i :
  0 <= n -> Z.testbit (Z.land a (Z.ones n)) i = (i <? n) && Z.testbit a i.
Proof.
  intros; rewrite Z.land_spec; destruct (Z_lt_ge_dec i 0).
  - rewrite !Z.testbit_neg_r by lia; destruct (i <? n); reflexivity.
  - rewrite Z.testbit_ones_nonneg by lia; apply andb_comm.
Qed.

Lemma footer_offset f nid ino ofs reset :
  0 <= ofs < 2 ^ 29 ->
  ofs_of_node (fill_node_footer f nid ino ofs reset) = ofs.
Proof.
  intros Ho; unfold ofs_of_node, fill_node_footer, OFFSET_BIT_SHIFT, OFFSET_BIT_MASK; cbn [ft_flag].
  rewrite Z.shiftr_lor; change 7 with (Z.ones 3); rewrite Z.shiftr_land.
  replace (Z.shiftr (Z.ones 3) 3) with 0 by reflexivity; rewrite Z.land_0_r, Z.lor_0_r.
  rewrite u32_small by (rewrite Z.shiftl_mul_pow2; lia).
  rewrite Z.shiftr_shiftl_l by lia; apply Z.shiftl_0_r.
Qed.

(** Every node on the path of a block is classified correctly from its footer:
    once [fill_node_footer] has stored the path's node offset, [IS_DNODE] holds
    of the node that maps the block, and fails for the indirect nodes above it. *)
Theorem node_path_IS_DNODE (inline_xattr : bool) (block : Z) (p : node_path)
  (f : node_footer) (nid ino : Z) (reset : bool) (i : Z)
  (Hb : 0 <= block < max_blocks inline_xattr)
  (Hp : get_node_path inline_xattr block = Some p)
  (Hi : 0 <= i <= np_level p) :
  IS_DNODE (fill_node_footer f nid ino ((np_noffset p).[i]) reset)
  = (i =? 0) || (i =? np_level p).
Proof.
  destruct (get_node_path_cases inline_xattr block Hb) as
    [[Hn He]|(k & o & Ho & -> & Hk)]; cbv zeta in *;
    [|destruct Hk as [[-> He]|[[-> He]|[(a & Ha & -> & He)|[(a & Ha & -> & He)|
      (a & c & Ha & Hc & -> & He)]]]]];
  rewrite He in Hp; injection Hp as <-; cbn [np_level np_noffset] in *.
  all: assert (i = 0 \/ i = 1 \/ i = 2 \/ i = 3) as Hc4 by lia;
    destruct Hc4 as [-> |[-> |[-> | ->]]]; try lia;
    aget_const; unfold IS_DNODE; rewrite footer_offset by lia;
    unfold f2fs_has_xattr_block; change XATTR_NODE_OFFSET with 536870911;
    unfold NIDS_PER_BLOCK; case_ifs; reflexivity || lia.
Qed.

(** A path exists for every block of a file no longer than [max_file_size]. *)
Lemma max_file_size_blocks bits :
  0 <= bits -> max_file_size bits = max_blocks true * 2 ^ bits.
Proof. intros; unfold max_file_size; rewrite Z.shiftl_mul_pow2 by lia; reflexivity. Qed.

(** The limit put on file sizes is safe: for a position below
    [max_file_size], the block that holds it has a node path, whether or not the
    inode gives up address slots to inline xattrs ([get_node_path] never reaches
    its [BUG()]), and with inline xattrs the limit is exact. *)
Theorem max_file_size_mapped (bits pos : Z) (inline_xattr : bool)
  (Hbits : 0 <= bits) (Hpos : 0 <= pos < max_file_size bits) :
  is_Some (get_node_path inline_xattr (pos / 2 ^ bits)) /\
  get_node_path true (max_file_size bits / 2 ^ bits) = None.
Proof.
  rewrite max_file_size_blocks in * by lia; split.
  - assert (Hlt : 0 <= pos / 2 ^ bits < max_blocks inline_xattr).
    { split; [apply Z.div_pos; lia|].
      apply Z.lt_le_trans with (max_blocks true); [|destruct inline_xattr; vm_compute; congruence].
      apply Z.div_lt_upper_bound; lia. }
    destruct (get_node_path_dnode _ _ Hlt) as (p & -> & _); eauto.
  - rewrite Z.div_mul by lia; reflexivity.
Qed.

(** The offset of the [k]-th direct node in the tree's numbering. *)
Definition dnode_num (k : Z) : Z :=
  if k <? 2 then k + 1 else if k <? 1020 then k + 2
  else if k <? 2038 then k + 3 else k + 5 + (k - 2038) / 1018.

Lemma dnode_of_block x b p :
  0 <= b < max_blocks x -> get_node_path x b = Some p ->
  dnode_of p = if b <? addrs_per_inode x then 0
               else dnode_num ((b - addrs_per_inode x) / 1018).
Proof.
  intros Hc Hq; destruct (get_node_path_cases x b Hc) as
    [[Hn He]|(k & o & Ho & Ec & Hk)]; cbv zeta in *; set (n := addrs_per_inode x) in *.
  - rewrite He in Hq; injection Hq as <-; case_ifs; [reflexivity|lia].
  - replace ((b - n) / 1018) with k by lia.
    assert (Hk0 : 0 <= k) by
      (destruct Hk as [[-> _]|[[-> _]|[(? & ? & -> & _)|[(? & ? & -> & _)|(? & ? & ? & ? & -> & _)]]]]; lia).
    destruct (b <? n) eqn:Hb; bool_cases; [lia|clear Ec].
    destruct Hk as [[-> He]|[[-> He]|[(i & Hi & -> & He)|[(i & Hi & -> & He)|
      (i & j & Hi & Hj & -> & He)]]]]; rewrite He in Hq; injection Hq as <-;
      unfold dnode_of, dnode_num; cbn [np_level np_noffset]; aget_const;
      case_ifs; lia.
Qed.

Lemma dnode_num_inj k k' : 0 <= k -> 0 <= k' -> dnode_num k = dnode_num k' -> k = k'.
Proof. unfold dnode_num; case_ifs; lia. Qed.

Lemma dnode_num_pos k : 0 <= k -> 0 < dnode_num k.
Proof. unfold dnode_num; case_ifs; lia. Qed.

(** [PGOFS_OF_NEXT_DNODE] skips exactly one direct node: it moves forward,
    every block it skips is mapped by the same direct node as the starting
    block, and the block it returns, if the tree has it, is not. *)
Theorem next_dnode_boundary (inline_xattr : bool) (b b' : Z) (p p' : node_path)
  (Hb : 0 <= b < max_blocks inline_xattr) (Hb' : b <= b' < max_blocks inline_xattr)
  (Hp : get_node_path inline_xattr b = Some p)
  (Hp' : get_node_path inline_xattr b' = Some p') :
  b < PGOFS_OF_NEXT_DNODE b inline_xattr /\
  (dnode_of p = dnode_of p' <-> b' < PGOFS_OF_NEXT_DNODE b inline_xattr).
Proof.
  assert (Hb2 : 0 <= b' < max_blocks inline_xattr) by lia.
  rewrite (dnode_of_block _ _ _ Hb Hp), (dnode_of_block _ _ _ Hb2 Hp').
  unfold PGOFS_OF_NEXT_DNODE, ADDRS_PER_BLOCK; set (n := addrs_per_inode inline_xattr) in *.
  destruct (b <? n) eqn:H1, (b' <? n) eqn:H2; bool_cases; try lia.
  - pose proof (dnode_num_pos ((b' - n) / 1018) ltac:(lia)); lia.
  - split; [lia|split; intros He].
    + apply dnode_num_inj in He; lia.
    + f_equal; lia.
Qed.

Lemma next_dnode_boundary_witness :
  1000 < PGOFS_OF_NEXT_DNODE 1000 false /\
  (dnode_of (mk_path 1 [924; 77] [0; 1]) = dnode_of (mk_path 1 [925; 0] [0; 2]) <->
   1941 < PGOFS_OF_NEXT_DNODE 1000 false).
Proof.
  apply (next_dnode_boundary false 1000 1941); vm_compute; try split; congruence.
Defined.

(** ** Footer fields *)

Lemma testbit_u32 a i : Z.testbit (u32 a) i = (i <? 32) && Z.testbit a i.
Proof.
  unfold u32; rewrite <- Z.land_ones by lia; apply land_ones_testbit; lia.
Qed.

Lemma is_node_testbit f t : 0 <= t -> is_node f t = Z.testbit (ft_flag f) t.
Proof.
  intros Ht; unfold is_node; rewrite Z.shiftl_1_l.
  destruct (Z.testbit (ft_flag f) t) eqn:E.
  - apply negb_true_iff, Z.eqb_neq; intros H0.
    assert (Z.testbit (Z.land (ft_flag f) (2 ^ t)) t = false) as Hf by (rewrite H0; apply Z.bits_0).
    rewrite Z.land_spec, E, Z.pow2_bits_true in Hf by lia; discriminate.
  - apply negb_false_iff, Z.eqb_eq, Z.bits_inj'; intros i Hi.
    rewrite Z.land_spec, Z.bits_0, Z.pow2_bits_eqb by lia.
    destruct (Z.eqb_spec t i); subst; rewrite ?E; auto using andb_false_r.
Qed.

Lemma set_flag_bit_testbit f on t i :
  0 <= t < 32 -> 0 <= i < 32 ->
  Z.testbit (ft_flag (set_flag_bit f on t)) i
  = if i =? t then on else Z.testbit (ft_flag f) i.
Proof.
  intros Ht Hi; unfold set_flag_bit; cbn [ft_flag]; rewrite Z.shiftl_1_l.
  destruct on.
  - rewrite Z.lor_spec, Z.pow2_bits_eqb by lia; rewrite Z.eqb_sym.
    destruct (i =? t); auto using orb_true_r, orb_false_r.
  - rewrite Z.land_spec, testbit_u32, Z.lnot_spec, Z.pow2_bits_eqb by lia.
    rewrite (proj2 (Z.ltb_lt i 32)) by lia; rewrite Z.eqb_sym.
    destruct (i =? t); simpl; auto using andb_false_r, andb_true_r.
Qed.

Lemma testbit_high a i : 0 <= a < 2 ^ 32 -> 32 <= i -> Z.testbit a i = false.
Proof.
  intros Ha Hi; rewrite <- (u32_small a Ha), testbit_u32.
  rewrite (proj2 (Z.ltb_ge i 32)) by lia; reflexivity.
Qed.

Lemma set_flag_bit_high f on t i :
  0 <= ft_flag f < 2 ^ 32 -> 0 <= t < 32 -> 32 <= i ->
  Z.testbit (ft_flag (set_flag_bit f on t)) i = false.
Proof.
  intros Hf Ht Hi; unfold set_flag_bit; cbn [ft_flag]; rewrite Z.shiftl_1_l; destruct on.
  - rewrite Z.lor_spec, testbit_high, Z.pow2_bits_false by lia; reflexivity.
  - rewrite Z.land_spec, testbit_high by lia; reflexivity.
Qed.

(** The footer's flag word keeps its fields apart: storing the node offset
    keeps the cold, fsync and dentry marks (when the block is not reset), and
    setting or clearing one mark ([set_mark], [set_cold_node]) changes neither
    the other marks nor the node offset. *)
Theorem footer_fields (f : node_footer) (nid ino ofs type type' : Z) (mark : bool)
  (Hf : 0 <= ft_flag f < 2 ^ 32) (Hofs : 0 <= ofs < 2 ^ 29)
  (Ht : 0 <= type < OFFSET_BIT_SHIFT) (Ht' : 0 <= type' < OFFSET_BIT_SHIFT) :
  ofs_of_node (fill_node_footer f nid ino ofs false) = ofs /\
  is_node (fill_node_footer f nid ino ofs false) type = is_node f type /\
  is_node (fill_node_footer f nid ino ofs true) type = false /\
  ofs_of_node (set_mark f mark type) = ofs_of_node f /\
  is_node (set_mark f mark type) type' = (if type' =? type then mark else is_node f type').
Proof.
  unfold OFFSET_BIT_SHIFT in *.
  assert (Hlow : forall a, Z.testbit (u32 (Z.shiftl ofs 3)) type = false /\
            Z.testbit (Z.land a 7) type = Z.testbit a type).
  { intros a; split.
    - rewrite testbit_u32, Z.shiftl_spec_low by lia; apply andb_false_r.
    - change 7 with (Z.ones 3); rewrite land_ones_testbit by lia.
      rewrite (proj2 (Z.ltb_lt type 3)) by lia; reflexivity. }
  repeat split.
  - apply footer_offset; lia.
  - rewrite !is_node_testbit by lia; unfold fill_node_footer, OFFSET_BIT_SHIFT, OFFSET_BIT_MASK; cbn [ft_flag].
    rewrite Z.lor_spec; destruct (Hlow (ft_flag f)) as [-> ->]; reflexivity.
  - rewrite !is_node_testbit by lia; unfold fill_node_footer, OFFSET_BIT_SHIFT, OFFSET_BIT_MASK; cbn [ft_flag].
    rewrite Z.lor_spec; destruct (Hlow 0) as [-> ->]; apply Z.bits_0.
  - unfold ofs_of_node; apply Z.bits_inj'; intros i Hi; rewrite !Z.shiftr_spec by lia.
    unfold OFFSET_BIT_SHIFT, set_mark; destruct (Z_lt_ge_dec (i + 3) 32).
    + rewrite set_flag_bit_testbit by lia; case_ifs; [lia|reflexivity].
    + rewrite set_flag_bit_high, (testbit_high (ft_flag f)) by lia; reflexivity.
  - rewrite !is_node_testbit by lia; unfold set_mark; apply set_flag_bit_testbit; lia.
Qed.

Lemma footer_fields_witness :
  let f := mk_footer 9 9 5 0 0 in
  ofs_of_node (fill_node_footer f 4 2 77 false) = 77 /\
  is_node (fill_node_footer f 4 2 77 false) FSYNC_BIT_SHIFT = is_node f FSYNC_BIT_SHIFT /\
  is_node (fill_node_footer f 4 2 77 true) FSYNC_BIT_SHIFT = false /\
  ofs_of_node (set_mark f true FSYNC_BIT_SHIFT) = ofs_of_node f /\
  is_node (set_mark f true FSYNC_BIT_SHIFT) DENT_BIT_SHIFT
  = (if DENT_BIT_SHIFT =? FSYNC_BIT_SHIFT then true else is_node f DENT_BIT_SHIFT).
Proof.
  intros f; apply (footer_fields f 4 2 77 FSYNC_BIT_SHIFT DENT_BIT_SHIFT true);
    vm_compute; split; congruence.
Defined.
