(* ===== verification/Bitops.v ===== *)
(** The bitmaps f2fs keeps in byte arrays, most significant bit first in each
    byte (f2fs_test_bit and its siblings in src/Max/f2fs.h), and the searches
    over them (src/Max/segment.c).  A bitmap is the list of its bytes. *)

From S2P Require Import Prelude.

#[local] Ltac Zify.zify_post_hook ::= Z.to_euclidean_division_equations.

(** * Definitions *)

(** [mask = 1 << (7 - (nr & 0x07))] *)
Definition f2fs_mask (nr : Z) : Z := Z.shiftl 1 (7 - Z.land nr 7).

Definition f2fs_test_bit (nr : Z) (addr : list Z) : bool :=
  negb (Z.land (f2fs_mask nr) (addr.[Z.shiftr nr 3]) =? 0).

Definition f2fs_set_bit (nr : Z) (addr : list Z) : list Z :=
  addr.[Z.shiftr nr 3 <- u8 (Z.lor (addr.[Z.shiftr nr 3]) (f2fs_mask nr))].

Definition f2fs_clear_bit (nr : Z) (addr : list Z) : list Z :=
  addr.[Z.shiftr nr 3 <- u8 (Z.land (addr.[Z.shiftr nr 3]) (Z.lnot (f2fs_mask nr)))].

Definition f2fs_test_and_set_bit (nr : Z) (addr : list Z) : bool * list Z :=
  (f2fs_test_bit nr addr, f2fs_set_bit nr addr).

Definition f2fs_test_and_clear_bit (nr : Z) (addr : list Z) : bool * list Z :=
  (f2fs_test_bit nr addr, f2fs_clear_bit nr addr).

Definition f2fs_change_bit (nr : Z) (addr : list Z) : list Z :=
  addr.[Z.shiftr nr 3 <- u8 (Z.lxor (addr.[Z.shiftr nr 3]) (f2fs_mask nr))].

(** The loops of [__find_rev_next_bit] and [__find_rev_next_zero_bit] have no
    bound: they read on through the memory that follows the bitmap, here the
    bytes [tail], until a bit of the wanted value turns up, and only then
    compare with [size].  A run that reaches the end of [tail] is past [size]
    already, where every continuation that returns gives [size]. *)
Definition __find_rev_next_bit (tail addr : list Z) (size offset : Z) : Z :=
  let mem := addr ++ tail in
  let offset := scan (fun i => f2fs_test_bit i mem)
                     (Z.to_nat (8 * zlen mem - offset)) offset in
  if size <? offset then size else offset.

Definition __find_rev_next_zero_bit (tail addr : list Z) (size offset : Z) : Z :=
  let mem := addr ++ tail in
  let offset := scan (fun i => negb (f2fs_test_bit i mem))
                     (Z.to_nat (8 * zlen mem - offset)) offset in
  if size <? offset then size else offset.

(** The same loops with every read checked against the bitmap's length: [None]
    when the loop reads a byte that is not the bitmap's. *)
Fixpoint checked_scan (want : bool) (addr : list Z) (fuel : nat) (offset : Z) : option Z :=
  if Z.shiftr offset 3 <? zlen addr then
    if Bool.eqb (f2fs_test_bit offset addr) want then Some offset
    else match fuel with O => None | S f => checked_scan want addr f (offset + 1) end
  else None.

#[global] Arguments f2fs_test_bit : simpl never.
#[global] Arguments f2fs_set_bit : simpl never.
#[global] Arguments f2fs_clear_bit : simpl never.
#[global] Arguments f2fs_change_bit : simpl never.

(** * Bits of a byte array *)

Definition bytes_wf (l : list Z) : Prop := Forall (fun b => 0 <= b < 256) l.

(** The number of set bits of a byte array. *)
Definition popcount (l : list Z) : Z :=
  count_below (fun i => f2fs_test_bit i l) (8 * zlen l).

Lemma land7 nr : Z.land nr 7 = nr mod 8.
Proof. change 7 with (Z.ones 3); apply Z.land_ones; lia. Qed.

Lemma shr3 nr : Z.shiftr nr 3 = nr / 8.
Proof. apply Z.shiftr_div_pow2; lia. Qed.

Lemma f2fs_mask_pow nr : f2fs_mask nr = 2 ^ (7 - nr mod 8).
Proof. unfold f2fs_mask; rewrite land7, Z.shiftl_1_l; reflexivity. Qed.

Lemma f2fs_test_bit_testbit nr addr :
  f2fs_test_bit nr addr = Z.testbit (addr.[nr / 8]) (7 - nr mod 8).
Proof.
  unfold f2fs_test_bit; rewrite f2fs_mask_pow, shr3; set (b := addr.[nr / 8]).
  set (k := 7 - nr mod 8); assert (0 <= k) by lia.
  destruct (Z.testbit b k) eqn:E.
  - apply negb_true_iff, Z.eqb_neq; intros H0.
    assert (Z.testbit (Z.land (2 ^ k) b) k = false) as Hf by (rewrite H0; apply Z.bits_0).
    rewrite Z.land_spec, E, Z.pow2_bits_true in Hf by lia; discriminate.
  - apply negb_false_iff, Z.eqb_eq, Z.bits_inj'; intros i Hi.
    rewrite Z.land_spec, Z.bits_0, Z.pow2_bits_eqb by lia.
    destruct (Z.eqb_spec k i); subst; rewrite ?E; auto using andb_false_r.
Qed.

Lemma testbit_u8 a i : 0 <= i < 8 -> Z.testbit (u8 a) i = Z.testbit a i.
Proof. intros; unfold u8; apply Z.mod_pow2_bits_low; lia. Qed.

Lemma u8_range a : 0 <= u8 a < 256.
Proof. unfold u8; lia. Qed.

(** Two bit numbers in the same byte differ in their position there. *)
Lemma bit_position_eqb nr i :
  0 <= nr -> 0 <= i -> nr / 8 = i / 8 -> (7 - nr mod 8 =? 7 - i mod 8) = (i =? nr).
Proof. intros; destruct (Z.eqb_spec i nr), (Z.eqb_spec (7 - nr mod 8) (7 - i mod 8)); lia. Qed.

Section Update.
Variables (nr : Z) (addr : list Z).
Hypothesis Hnr : 0 <= nr < 8 * zlen addr.

(** The three updates change exactly the bit they name. *)
Lemma f2fs_test_bit_upd (v i : Z) :
  0 <= i ->
  f2fs_test_bit i (addr.[nr / 8 <- u8 v]) =
  if nr / 8 =? i / 8 then Z.testbit v (7 - i mod 8) else f2fs_test_bit i addr.
Proof.
  intros Hi; rewrite !f2fs_test_bit_testbit, aget_aset by lia.
  case_ifs; [apply testbit_u8; lia|reflexivity].
Qed.

Lemma f2fs_test_bit_set i :
  0 <= i -> f2fs_test_bit i (f2fs_set_bit nr addr) = (i =? nr) || f2fs_test_bit i addr.
Proof.
  intros Hi; unfold f2fs_set_bit; rewrite shr3, f2fs_test_bit_upd, f2fs_mask_pow by lia.
  case_ifs.
  - rewrite Z.lor_spec, Z.pow2_bits_eqb, bit_position_eqb, f2fs_test_bit_testbit by lia.
    rewrite Heqb; apply orb_comm.
  - destruct (Z.eqb_spec i nr); [subst; lia|reflexivity].
Qed.

Lemma f2fs_test_bit_clear i :
  0 <= i -> f2fs_test_bit i (f2fs_clear_bit nr addr) = negb (i =? nr) && f2fs_test_bit i addr.
Proof.
  intros Hi; unfold f2fs_clear_bit; rewrite shr3, f2fs_test_bit_upd, f2fs_mask_pow by lia.
  case_ifs.
  - rewrite Z.land_spec, Z.lnot_spec, Z.pow2_bits_eqb, bit_position_eqb, f2fs_test_bit_testbit by lia.
    rewrite Heqb; apply andb_comm.
  - destruct (Z.eqb_spec i nr); [subst; lia|reflexivity].
Qed.

Lemma f2fs_test_bit_change i :
  0 <= i -> f2fs_test_bit i (f2fs_change_bit nr addr) = xorb (i =? nr) (f2fs_test_bit i addr).
Proof.
  intros Hi; unfold f2fs_change_bit; rewrite shr3, f2fs_test_bit_upd, f2fs_mask_pow by lia.
  case_ifs.
  - rewrite Z.lxor_spec, Z.pow2_bits_eqb, bit_position_eqb, f2fs_test_bit_testbit by lia.
    rewrite Heqb; apply xorb_comm.
  - destruct (Z.eqb_spec i nr); [subst; lia|]; destruct (f2fs_test_bit i addr); reflexivity.
Qed.

Lemma popcount_set :
  popcount (f2fs_set_bit nr addr) = popcount addr + (1 - b2z (f2fs_test_bit nr addr)).
Proof.
  unfold popcount, f2fs_set_bit; rewrite zlen_aset; fold (f2fs_set_bit nr addr).
  rewrite (count_below_upd (fun i => f2fs_test_bit i addr) _ _ nr) by
    (lia || (intros; rewrite f2fs_test_bit_set by lia;
             rewrite (proj2 (Z.eqb_neq _ _)) by lia; reflexivity)).
  rewrite f2fs_test_bit_set, Z.eqb_refl by lia; simpl; lia.
Qed.

Lemma popcount_clear :
  popcount (f2fs_clear_bit nr addr) = popcount addr - b2z (f2fs_test_bit nr addr).
Proof.
  unfold popcount, f2fs_clear_bit; rewrite zlen_aset; fold (f2fs_clear_bit nr addr).
  rewrite (count_below_upd (fun i => f2fs_test_bit i addr) _ _ nr) by
    (lia || (intros; rewrite f2fs_test_bit_clear by lia;
             rewrite (proj2 (Z.eqb_neq _ _)) by lia; reflexivity)).
  rewrite f2fs_test_bit_clear, Z.eqb_refl by lia; simpl; lia.
Qed.
End Update.

Lemma f2fs_test_bit_out nr addr : 8 * zlen addr <= nr -> f2fs_test_bit nr addr = false.
Proof.
  intros; pose proof (zlen_nonneg addr).
  rewrite f2fs_test_bit_testbit, aget_out by lia; apply Z.bits_0.
Qed.

Lemma zlen_f2fs_set nr addr : zlen (f2fs_set_bit nr addr) = zlen addr.
Proof. apply zlen_aset. Qed.

Lemma zlen_f2fs_clear nr addr : zlen (f2fs_clear_bit nr addr) = zlen addr.
Proof. apply zlen_aset. Qed.

Lemma zlen_f2fs_change nr addr : zlen (f2fs_change_bit nr addr) = zlen addr.
Proof. apply zlen_aset. Qed.

Lemma bytes_wf_upd nr v addr : bytes_wf addr -> bytes_wf (addr.[nr <- u8 v]).
Proof. intros; apply Forall_aset; [assumption|apply u8_range]. Qed.

Lemma bytes_wf_set nr addr : bytes_wf addr -> bytes_wf (f2fs_set_bit nr addr).
Proof. apply bytes_wf_upd. Qed.

Lemma bytes_wf_clear nr addr : bytes_wf addr -> bytes_wf (f2fs_clear_bit nr addr).
Proof. apply bytes_wf_upd. Qed.

#[export] Hint Rewrite zlen_f2fs_set zlen_f2fs_clear zlen_f2fs_change : maxrw.
#[export] Hint Resolve bytes_wf_set bytes_wf_clear : maxdb.

Lemma popcount_range l : 0 <= popcount l <= 8 * zlen l.
Proof. apply count_below_range; pose proof (zlen_nonneg l); lia. Qed.

(** * Searches *)

(** An unbounded scan clamped to [size] is the bounded search. *)
Lemma clamped_scan p q size fuel off :
  0 <= off <= size -> size <= off + Z.of_nat fuel ->
  (forall i, off <= i < size -> p i = q i) ->
  (if size <? scan p fuel off then size else scan p fuel off) = find_next q size off.
Proof.
  intros Ho Hs He; destruct (scan_spec p fuel off) as (Hr & Ht & Hf); symmetry.
  apply find_next_unique; case_ifs; intros; try lia; try discriminate.
  all: rewrite <- He by lia; (apply Ht || apply Hf); lia.
Qed.

Lemma f2fs_test_bit_app addr tail i :
  0 <= i < 8 * zlen addr -> f2fs_test_bit i (addr ++ tail) = f2fs_test_bit i addr.
Proof. intros; rewrite !f2fs_test_bit_testbit, aget_app_l by lia; reflexivity. Qed.

Lemma zlen_app {A} (l k : list A) : zlen (l ++ k) = zlen l + zlen k.
Proof. unfold zlen; rewrite length_app; lia. Qed.

Lemma find_rev_next_zero_bit_eq tail addr size offset :
  0 <= offset <= size -> size <= 8 * zlen addr ->
  __find_rev_next_zero_bit tail addr size offset
  = find_next (fun i => negb (f2fs_test_bit i addr)) size offset.
Proof.
  intros; unfold __find_rev_next_zero_bit; cbv zeta; pose proof (zlen_nonneg tail).
  apply clamped_scan; [lia|rewrite zlen_app; lia|].
  intros; rewrite f2fs_test_bit_app by lia; reflexivity.
Qed.

Lemma find_rev_next_bit_eq tail addr size offset :
  0 <= offset <= size -> size <= 8 * zlen addr ->
  __find_rev_next_bit tail addr size offset
  = find_next (fun i => f2fs_test_bit i addr) size offset.
Proof.
  intros; unfold __find_rev_next_bit; cbv zeta; pose proof (zlen_nonneg tail).
  apply clamped_scan; [lia|rewrite zlen_app; lia|].
  intros; rewrite f2fs_test_bit_app by lia; reflexivity.
Qed.

(** Whatever bytes follow the bitmap in memory, the two unbounded searches
    return what a bounded search of the bitmap returns: the first bit of the
    wanted value in [offset .. size - 1], and [size] when there is none. *)
Theorem find_rev_next_equiv (tail addr : list Z) (size offset : Z)
  (Ho : 0 <= offset <= size) (Hs : size <= 8 * zlen addr) :
  __find_rev_next_zero_bit tail addr size offset
    = find_next (fun i => negb (f2fs_test_bit i addr)) size offset /\
  __find_rev_next_bit tail addr size offset
    = find_next (fun i => f2fs_test_bit i addr) size offset.
Proof. auto using find_rev_next_zero_bit_eq, find_rev_next_bit_eq. Qed.


