(* ===== verification/SmState.v ===== *)
(** The state of the segment manager (struct f2fs_sm_info and the fields of
    struct f2fs_sb_info it uses, src/Max/f2fs.h and src/Max/segment.h) and the
    address arithmetic over it.  The superblock info is the record [f2fs_sb_info];
    each operation of the other files takes it, or the part of it the C function
    touches, and returns the updated value. *)

From S2P Require Import Prelude Layout Bitops.

#[local] Ltac Zify.zify_post_hook ::= Z.to_euclidean_division_equations.

(** * Constants *)

Definition NULL_SEGNO : Z := u32 (-1).

Definition NR_CURSEG_DATA_TYPE : Z := 3.
Definition NR_CURSEG_NODE_TYPE : Z := 3.
Definition NR_CURSEG_TYPE : Z := NR_CURSEG_DATA_TYPE + NR_CURSEG_NODE_TYPE.

Definition CURSEG_HOT_DATA : Z := 0.
Definition CURSEG_WARM_DATA : Z := 1.
Definition CURSEG_COLD_DATA : Z := 2.
Definition CURSEG_HOT_NODE : Z := 3.
Definition CURSEG_WARM_NODE : Z := 4.
Definition CURSEG_COLD_NODE : Z := 5.
Definition CURSEG_DIRECT_IO : Z := 7.

Definition IS_DATASEG (t : Z) : bool := t <=? CURSEG_COLD_DATA.
Definition IS_NODESEG (t : Z) : bool := CURSEG_HOT_NODE <=? t.

Definition ALLOC_RIGHT : Z := 0.
Definition ALLOC_LEFT : Z := 1.
Definition LFS : Z := 0.
Definition SSR : Z := 1.
Definition GC_CB : Z := 0.
Definition GC_GREEDY : Z := 1.
Definition BG_GC : Z := 0.
Definition FG_GC : Z := 1.

(** enum dirty_type; the first six are the CURSEG types. *)
Definition DIRTY : Z := 6.
Definition PRE : Z := 7.
Definition NR_DIRTY_TYPE : Z := 8.

Definition F2FS_MOUNT_DISCARD : Z := 0x4.
Definition F2FS_MOUNT_NOHEAP : Z := 0x8.

Definition SBI_NEED_FSCK : Z := 2.
Definition SBI_POR_DOING : Z := 3.

(** * The fixed geometry of the volume *)

Record geometry := mk_geo {
  log_blocks_per_seg : Z;
  segs_per_sec : Z;
  secs_per_zone : Z;
  seg0_blkaddr : Z;
  main_blkaddr : Z;
  ssa_blkaddr : Z;
  segment_count : Z;
  main_segments : Z;
  total_sections : Z;
  start_segno : Z;
  reserved_segments : Z;
  ovp_segments : Z;
  nr_mlog : Z;
}.

(** * The SIT cache *)

Record seg_entry := mk_seg_entry {
  valid_blocks : Z;
  cur_valid_map : list Z;
  ckpt_valid_blocks : Z;
  ckpt_valid_map : list Z;
  discard_map : list Z;
  se_type : Z;
  se_mtime : Z;
}.

Definition with_valid_blocks (v : Z) (x : seg_entry) : seg_entry :=
  mk_seg_entry v (cur_valid_map x) (ckpt_valid_blocks x) (ckpt_valid_map x) (discard_map x)
    (se_type x) (se_mtime x).

Definition with_cur_valid_map (v : list Z) (x : seg_entry) : seg_entry :=
  mk_seg_entry (valid_blocks x) v (ckpt_valid_blocks x) (ckpt_valid_map x) (discard_map x)
    (se_type x) (se_mtime x).

Definition with_ckpt_valid_blocks (v : Z) (x : seg_entry) : seg_entry :=
  mk_seg_entry (valid_blocks x) (cur_valid_map x) v (ckpt_valid_map x) (discard_map x)
    (se_type x) (se_mtime x).

Definition with_ckpt_valid_map (v : list Z) (x : seg_entry) : seg_entry :=
  mk_seg_entry (valid_blocks x) (cur_valid_map x) (ckpt_valid_blocks x) v (discard_map x)
    (se_type x) (se_mtime x).

Definition with_discard_map (v : list Z) (x : seg_entry) : seg_entry :=
  mk_seg_entry (valid_blocks x) (cur_valid_map x) (ckpt_valid_blocks x) (ckpt_valid_map x) v
    (se_type x) (se_mtime x).

Definition with_se_type (v : Z) (x : seg_entry) : seg_entry :=
  mk_seg_entry (valid_blocks x) (cur_valid_map x) (ckpt_valid_blocks x) (ckpt_valid_map x)
    (discard_map x) v (se_mtime x).

Definition with_se_mtime (v : Z) (x : seg_entry) : seg_entry :=
  mk_seg_entry (valid_blocks x) (cur_valid_map x) (ckpt_valid_blocks x) (ckpt_valid_map x)
    (discard_map x) (se_type x) v.

Record sit_info := mk_sit_info {
  sit_base_addr : Z;
  sit_blocks : Z;
  written_valid_blocks : Z;
  sit_bitmap : list Z;
  dirty_sentries_bitmap : Z;
  dirty_sentries : Z;
  sentries : list seg_entry;
  sec_entries : list Z;
  elapsed_time : Z;
  mounted_time : Z;
  min_mtime : Z;
  max_mtime : Z;
}.

Definition with_sit_base_addr (v : Z) (x : sit_info) : sit_info :=
  mk_sit_info v (sit_blocks x) (written_valid_blocks x) (sit_bitmap x)
    (dirty_sentries_bitmap x) (dirty_sentries x) (sentries x) (sec_entries x)
    (elapsed_time x) (mounted_time x) (min_mtime x) (max_mtime x).

Definition with_sit_blocks (v : Z) (x : sit_info) : sit_info :=
  mk_sit_info (sit_base_addr x) v (written_valid_blocks x) (sit_bitmap x)
    (dirty_sentries_bitmap x) (dirty_sentries x) (sentries x) (sec_entries x)
    (elapsed_time x) (mounted_time x) (min_mtime x) (max_mtime x).

Definition with_written_valid_blocks (v : Z) (x : sit_info) : sit_info :=
  mk_sit_info (sit_base_addr x) (sit_blocks x) v (sit_bitmap x) (dirty_sentries_bitmap x)
    (dirty_sentries x) (sentries x) (sec_entries x) (elapsed_time x)
    (mounted_time x) (min_mtime x) (max_mtime x).

Definition with_sit_bitmap (v : list Z) (x : sit_info) : sit_info :=
  mk_sit_info (sit_base_addr x) (sit_blocks x) (written_valid_blocks x) v
    (dirty_sentries_bitmap x) (dirty_sentries x) (sentries x) (sec_entries x)
    (elapsed_time x) (mounted_time x) (min_mtime x) (max_mtime x).

Definition with_dirty_sentries_bitmap (v : Z) (x : sit_info) : sit_info :=
  mk_sit_info (sit_base_addr x) (sit_blocks x) (written_valid_blocks x) (sit_bitmap x) v
    (dirty_sentries x) (sentries x) (sec_entries x) (elapsed_time x)
    (mounted_time x) (min_mtime x) (max_mtime x).

Definition with_dirty_sentries (v : Z) (x : sit_info) : sit_info :=
  mk_sit_info (sit_base_addr x) (sit_blocks x) (written_valid_blocks x) (sit_bitmap x)
    (dirty_sentries_bitmap x) v (sentries x) (sec_entries x) (elapsed_time x)
    (mounted_time x) (min_mtime x) (max_mtime x).

Definition with_sentries (v : list seg_entry) (x : sit_info) : sit_info :=
  mk_sit_info (sit_base_addr x) (sit_blocks x) (written_valid_blocks x) (sit_bitmap x)
    (dirty_sentries_bitmap x) (dirty_sentries x) v (sec_entries x)
    (elapsed_time x) (mounted_time x) (min_mtime x) (max_mtime x).

Definition with_sec_entries (v : list Z) (x : sit_info) : sit_info :=
  mk_sit_info (sit_base_addr x) (sit_blocks x) (written_valid_blocks x) (sit_bitmap x)
    (dirty_sentries_bitmap x) (dirty_sentries x) (sentries x) v (elapsed_time x)
    (mounted_time x) (min_mtime x) (max_mtime x).

Definition with_elapsed_time (v : Z) (x : sit_info) : sit_info :=
  mk_sit_info (sit_base_addr x) (sit_blocks x) (written_valid_blocks x) (sit_bitmap x)
    (dirty_sentries_bitmap x) (dirty_sentries x) (sentries x) (sec_entries x) v
    (mounted_time x) (min_mtime x) (max_mtime x).

Definition with_mounted_time (v : Z) (x : sit_info) : sit_info :=
  mk_sit_info (sit_base_addr x) (sit_blocks x) (written_valid_blocks x) (sit_bitmap x)
    (dirty_sentries_bitmap x) (dirty_sentries x) (sentries x) (sec_entries x)
    (elapsed_time x) v (min_mtime x) (max_mtime x).

Definition with_min_mtime (v : Z) (x : sit_info) : sit_info :=
  mk_sit_info (sit_base_addr x) (sit_blocks x) (written_valid_blocks x) (sit_bitmap x)
    (dirty_sentries_bitmap x) (dirty_sentries x) (sentries x) (sec_entries x)
    (elapsed_time x) (mounted_time x) v (max_mtime x).

Definition with_max_mtime (v : Z) (x : sit_info) : sit_info :=
  mk_sit_info (sit_base_addr x) (sit_blocks x) (written_valid_blocks x) (sit_bitmap x)
    (dirty_sentries_bitmap x) (dirty_sentries x) (sentries x) (sec_entries x)
    (elapsed_time x) (mounted_time x) (min_mtime x) v.

(** * Free segments, dirty segments, current segments *)

Record free_segmap_info := mk_free_i {
  fr_segments : Z;
  fr_sections : Z;
  free_segmap : Z;
  free_secmap : Z;
}.

Definition with_fr_segments (v : Z) (x : free_segmap_info) : free_segmap_info :=
  mk_free_i v (fr_sections x) (free_segmap x) (free_secmap x).

Definition with_fr_sections (v : Z) (x : free_segmap_info) : free_segmap_info :=
  mk_free_i (fr_segments x) v (free_segmap x) (free_secmap x).

Definition with_free_segmap (v : Z) (x : free_segmap_info) : free_segmap_info :=
  mk_free_i (fr_segments x) (fr_sections x) v (free_secmap x).

Definition with_free_secmap (v : Z) (x : free_segmap_info) : free_segmap_info :=
  mk_free_i (fr_segments x) (fr_sections x) (free_segmap x) v.

Record dirty_seglist_info := mk_dirty_i {
  dirty_segmap : list Z;
  nr_dirty : list Z;
  victim_secmap : Z;
}.

Definition with_dirty_segmap (v : list Z) (x : dirty_seglist_info) : dirty_seglist_info :=
  mk_dirty_i v (nr_dirty x) (victim_secmap x).

Definition with_nr_dirty (v : list Z) (x : dirty_seglist_info) : dirty_seglist_info :=
  mk_dirty_i (dirty_segmap x) v (victim_secmap x).

Definition with_victim_secmap (v : Z) (x : dirty_seglist_info) : dirty_seglist_info :=
  mk_dirty_i (dirty_segmap x) (nr_dirty x) v.

Record curseg_info := mk_curseg {
  sum_blk : f2fs_summary_block;
  alloc_type : Z;
  cs_segno : Z;
  next_blkoff : Z;
  cs_zone : Z;
  next_segno : Z;
}.

Definition with_sum_blk (v : f2fs_summary_block) (x : curseg_info) : curseg_info :=
  mk_curseg v (alloc_type x) (cs_segno x) (next_blkoff x) (cs_zone x) (next_segno x).

Definition with_alloc_type (v : Z) (x : curseg_info) : curseg_info :=
  mk_curseg (sum_blk x) v (cs_segno x) (next_blkoff x) (cs_zone x) (next_segno x).

Definition with_cs_segno (v : Z) (x : curseg_info) : curseg_info :=
  mk_curseg (sum_blk x) (alloc_type x) v (next_blkoff x) (cs_zone x) (next_segno x).

Definition with_next_blkoff (v : Z) (x : curseg_info) : curseg_info :=
  mk_curseg (sum_blk x) (alloc_type x) (cs_segno x) v (cs_zone x) (next_segno x).

Definition with_cs_zone (v : Z) (x : curseg_info) : curseg_info :=
  mk_curseg (sum_blk x) (alloc_type x) (cs_segno x) (next_blkoff x) v (next_segno x).

Definition with_next_segno (v : Z) (x : curseg_info) : curseg_info :=
  mk_curseg (sum_blk x) (alloc_type x) (cs_segno x) (next_blkoff x) (cs_zone x) v.

#[export] Instance inhabited_seg_entry : Inhabited seg_entry :=
  populate (mk_seg_entry 0 (replicate 64 0) 0 (replicate 64 0) (replicate 64 0) 0 0).
#[export] Instance inhabited_curseg : Inhabited curseg_info :=
  populate (mk_curseg inhabitant 0 0 0 0 0).

(** * The superblock info

    [now] is the clock read by [CURRENT_TIME_SEC]; [ssa] and [sit_pages] hold the
    summary and SIT blocks by block address, as the meta inode's page cache does;
    [discard_list] holds the address and length of each small discard; [gc_idle]
    is the field of the GC thread, [None] when there is no thread; [next_mlog] is
    the counter that spreads allocations over the multi-logs. *)

Record f2fs_sb_info := mk_sbi {
  geo : geometry;
  mount_opt : Z;
  s_flag : Z;
  now : Z;
  discard_blks : Z;
  sit_i : sit_info;
  free_i : free_segmap_info;
  dirty_i : dirty_seglist_info;
  curseg_array : list curseg_info;
  ssa : gmap Z f2fs_summary_block;
  nr_dirty_nodes : Z;
  nr_dirty_dents : Z;
  sit_pages : gmap Z (list f2fs_sit_entry);
  discard_list : list (Z * Z);
  nr_discards : Z;
  max_discards : Z;
  cur_victim_sec : Z;
  last_victim : list Z;
  max_victim_search : Z;
  gc_idle : option Z;
  next_mlog : Z;
}.

Definition with_geo (v : geometry) (x : f2fs_sb_info) : f2fs_sb_info :=
  mk_sbi v (mount_opt x) (s_flag x) (now x) (discard_blks x) (sit_i x) (free_i x)
    (dirty_i x) (curseg_array x) (ssa x) (nr_dirty_nodes x) (nr_dirty_dents x)
    (sit_pages x) (discard_list x) (nr_discards x) (max_discards x)
    (cur_victim_sec x) (last_victim x) (max_victim_search x) (gc_idle x)
    (next_mlog x).

Definition with_mount_opt (v : Z) (x : f2fs_sb_info) : f2fs_sb_info :=
  mk_sbi (geo x) v (s_flag x) (now x) (discard_blks x) (sit_i x) (free_i x)
    (dirty_i x) (curseg_array x) (ssa x) (nr_dirty_nodes x) (nr_dirty_dents x)
    (sit_pages x) (discard_list x) (nr_discards x) (max_discards x)
    (cur_victim_sec x) (last_victim x) (max_victim_search x) (gc_idle x)
    (next_mlog x).

Definition with_s_flag (v : Z) (x : f2fs_sb_info) : f2fs_sb_info :=
  mk_sbi (geo x) (mount_opt x) v (now x) (discard_blks x) (sit_i x) (free_i x)
    (dirty_i x) (curseg_array x) (ssa x) (nr_dirty_nodes x) (nr_dirty_dents x)
    (sit_pages x) (discard_list x) (nr_discards x) (max_discards x)
    (cur_victim_sec x) (last_victim x) (max_victim_search x) (gc_idle x)
    (next_mlog x).

Definition with_now (v : Z) (x : f2fs_sb_info) : f2fs_sb_info :=
  mk_sbi (geo x) (mount_opt x) (s_flag x) v (discard_blks x) (sit_i x) (free_i x)
    (dirty_i x) (curseg_array x) (ssa x) (nr_dirty_nodes x) (nr_dirty_dents x)
    (sit_pages x) (discard_list x) (nr_discards x) (max_discards x)
    (cur_victim_sec x) (last_victim x) (max_victim_search x) (gc_idle x)
    (next_mlog x).

Definition with_discard_blks (v : Z) (x : f2fs_sb_info) : f2fs_sb_info :=
  mk_sbi (geo x) (mount_opt x) (s_flag x) (now x) v (sit_i x) (free_i x) (dirty_i x)
    (curseg_array x) (ssa x) (nr_dirty_nodes x) (nr_dirty_dents x) (sit_pages x)
    (discard_list x) (nr_discards x) (max_discards x) (cur_victim_sec x)
    (last_victim x) (max_victim_search x) (gc_idle x) (next_mlog x).

Definition with_sit_i (v : sit_info) (x : f2fs_sb_info) : f2fs_sb_info :=
  mk_sbi (geo x) (mount_opt x) (s_flag x) (now x) (discard_blks x) v (free_i x)
    (dirty_i x) (curseg_array x) (ssa x) (nr_dirty_nodes x) (nr_dirty_dents x)
    (sit_pages x) (discard_list x) (nr_discards x) (max_discards x)
    (cur_victim_sec x) (last_victim x) (max_victim_search x) (gc_idle x)
    (next_mlog x).

Definition with_free_i (v : free_segmap_info) (x : f2fs_sb_info) : f2fs_sb_info :=
  mk_sbi (geo x) (mount_opt x) (s_flag x) (now x) (discard_blks x) (sit_i x) v
    (dirty_i x) (curseg_array x) (ssa x) (nr_dirty_nodes x) (nr_dirty_dents x)
    (sit_pages x) (discard_list x) (nr_discards x) (max_discards x)
    (cur_victim_sec x) (last_victim x) (max_victim_search x) (gc_idle x)
    (next_mlog x).

Definition with_dirty_i (v : dirty_seglist_info) (x : f2fs_sb_info) : f2fs_sb_info :=
  mk_sbi (geo x) (mount_opt x) (s_flag x) (now x) (discard_blks x) (sit_i x)
    (free_i x) v (curseg_array x) (ssa x) (nr_dirty_nodes x) (nr_dirty_dents x)
    (sit_pages x) (discard_list x) (nr_discards x) (max_discards x)
    (cur_victim_sec x) (last_victim x) (max_victim_search x) (gc_idle x)
    (next_mlog x).

Definition with_curseg_array (v : list curseg_info) (x : f2fs_sb_info) : f2fs_sb_info :=
  mk_sbi (geo x) (mount_opt x) (s_flag x) (now x) (discard_blks x) (sit_i x)
    (free_i x) (dirty_i x) v (ssa x) (nr_dirty_nodes x) (nr_dirty_dents x)
    (sit_pages x) (discard_list x) (nr_discards x) (max_discards x)
    (cur_victim_sec x) (last_victim x) (max_victim_search x) (gc_idle x)
    (next_mlog x).

Definition with_ssa (v : gmap Z f2fs_summary_block) (x : f2fs_sb_info) : f2fs_sb_info :=
  mk_sbi (geo x) (mount_opt x) (s_flag x) (now x) (discard_blks x) (sit_i x)
    (free_i x) (dirty_i x) (curseg_array x) v (nr_dirty_nodes x)
    (nr_dirty_dents x) (sit_pages x) (discard_list x) (nr_discards x)
    (max_discards x) (cur_victim_sec x) (last_victim x) (max_victim_search x)
    (gc_idle x) (next_mlog x).

Definition with_nr_dirty_nodes (v : Z) (x : f2fs_sb_info) : f2fs_sb_info :=
  mk_sbi (geo x) (mount_opt x) (s_flag x) (now x) (discard_blks x) (sit_i x)
    (free_i x) (dirty_i x) (curseg_array x) (ssa x) v (nr_dirty_dents x)
    (sit_pages x) (discard_list x) (nr_discards x) (max_discards x)
    (cur_victim_sec x) (last_victim x) (max_victim_search x) (gc_idle x)
    (next_mlog x).

Definition with_nr_dirty_dents (v : Z) (x : f2fs_sb_info) : f2fs_sb_info :=
  mk_sbi (geo x) (mount_opt x) (s_flag x) (now x) (discard_blks x) (sit_i x)
    (free_i x) (dirty_i x) (curseg_array x) (ssa x) (nr_dirty_nodes x) v
    (sit_pages x) (discard_list x) (nr_discards x) (max_discards x)
    (cur_victim_sec x) (last_victim x) (max_victim_search x) (gc_idle x)
    (next_mlog x).

Definition with_sit_pages (v : gmap Z (list f2fs_sit_entry)) (x : f2fs_sb_info) : f2fs_sb_info :=
  mk_sbi (geo x) (mount_opt x) (s_flag x) (now x) (discard_blks x) (sit_i x)
    (free_i x) (dirty_i x) (curseg_array x) (ssa x) (nr_dirty_nodes x)
    (nr_dirty_dents x) v (discard_list x) (nr_discards x) (max_discards x)
    (cur_victim_sec x) (last_victim x) (max_victim_search x) (gc_idle x)
    (next_mlog x).

Definition with_discard_list (v : list (Z * Z)) (x : f2fs_sb_info) : f2fs_sb_info :=
  mk_sbi (geo x) (mount_opt x) (s_flag x) (now x) (discard_blks x) (sit_i x)
    (free_i x) (dirty_i x) (curseg_array x) (ssa x) (nr_dirty_nodes x)
    (nr_dirty_dents x) (sit_pages x) v (nr_discards x) (max_discards x)
    (cur_victim_sec x) (last_victim x) (max_victim_search x) (gc_idle x)
    (next_mlog x).

Definition with_nr_discards (v : Z) (x : f2fs_sb_info) : f2fs_sb_info :=
  mk_sbi (geo x) (mount_opt x) (s_flag x) (now x) (discard_blks x) (sit_i x)
    (free_i x) (dirty_i x) (curseg_array x) (ssa x) (nr_dirty_nodes x)
    (nr_dirty_dents x) (sit_pages x) (discard_list x) v (max_discards x)
    (cur_victim_sec x) (last_victim x) (max_victim_search x) (gc_idle x)
    (next_mlog x).

Definition with_max_discards (v : Z) (x : f2fs_sb_info) : f2fs_sb_info :=
  mk_sbi (geo x) (mount_opt x) (s_flag x) (now x) (discard_blks x) (sit_i x)
    (free_i x) (dirty_i x) (curseg_array x) (ssa x) (nr_dirty_nodes x)
    (nr_dirty_dents x) (sit_pages x) (discard_list x) (nr_discards x) v
    (cur_victim_sec x) (last_victim x) (max_victim_search x) (gc_idle x)
    (next_mlog x).

Definition with_cur_victim_sec (v : Z) (x : f2fs_sb_info) : f2fs_sb_info :=
  mk_sbi (geo x) (mount_opt x) (s_flag x) (now x) (discard_blks x) (sit_i x)
    (free_i x) (dirty_i x) (curseg_array x) (ssa x) (nr_dirty_nodes x)
    (nr_dirty_dents x) (sit_pages x) (discard_list x) (nr_discards x)
    (max_discards x) v (last_victim x) (max_victim_search x) (gc_idle x)
    (next_mlog x).

Definition with_last_victim (v : list Z) (x : f2fs_sb_info) : f2fs_sb_info :=
  mk_sbi (geo x) (mount_opt x) (s_flag x) (now x) (discard_blks x) (sit_i x)
    (free_i x) (dirty_i x) (curseg_array x) (ssa x) (nr_dirty_nodes x)
    (nr_dirty_dents x) (sit_pages x) (discard_list x) (nr_discards x)
    (max_discards x) (cur_victim_sec x) v (max_victim_search x) (gc_idle x)
    (next_mlog x).

Definition with_max_victim_search (v : Z) (x : f2fs_sb_info) : f2fs_sb_info :=
  mk_sbi (geo x) (mount_opt x) (s_flag x) (now x) (discard_blks x) (sit_i x)
    (free_i x) (dirty_i x) (curseg_array x) (ssa x) (nr_dirty_nodes x)
    (nr_dirty_dents x) (sit_pages x) (discard_list x) (nr_discards x)
    (max_discards x) (cur_victim_sec x) (last_victim x) v (gc_idle x)
    (next_mlog x).

Definition with_gc_idle (v : option Z) (x : f2fs_sb_info) : f2fs_sb_info :=
  mk_sbi (geo x) (mount_opt x) (s_flag x) (now x) (discard_blks x) (sit_i x)
    (free_i x) (dirty_i x) (curseg_array x) (ssa x) (nr_dirty_nodes x)
    (nr_dirty_dents x) (sit_pages x) (discard_list x) (nr_discards x)
    (max_discards x) (cur_victim_sec x) (last_victim x) (max_victim_search x) v
    (next_mlog x).

Definition with_next_mlog (v : Z) (x : f2fs_sb_info) : f2fs_sb_info :=
  mk_sbi (geo x) (mount_opt x) (s_flag x) (now x) (discard_blks x) (sit_i x)
    (free_i x) (dirty_i x) (curseg_array x) (ssa x) (nr_dirty_nodes x)
    (nr_dirty_dents x) (sit_pages x) (discard_list x) (nr_discards x)
    (max_discards x) (cur_victim_sec x) (last_victim x) (max_victim_search x)
    (gc_idle x) v.

(** * Flags and options *)

Definition test_opt (sbi : f2fs_sb_info) (option : Z) : bool :=
  negb (Z.land (mount_opt sbi) option =? 0).

Definition is_sbi_flag_set (sbi : f2fs_sb_info) (type : Z) : bool :=
  negb (Z.land (s_flag sbi) (Z.shiftl 1 type) =? 0).

Definition set_sbi_flag (sbi : f2fs_sb_info) (type : Z) : f2fs_sb_info :=
  with_s_flag (Z.lor (s_flag sbi) (Z.shiftl 1 type)) sbi.

(** Without CONFIG_F2FS_CHECK_FS the macro warns, asks for fsck and goes on. *)
Definition f2fs_bug_on (condition : bool) (sbi : f2fs_sb_info) : f2fs_sb_info :=
  if condition then set_sbi_flag sbi SBI_NEED_FSCK else sbi.

(** * Addresses

    All of it is [unsigned int] arithmetic. *)

Section Addresses.
Variable g : geometry.

Definition blocks_per_seg : Z := Z.shiftl 1 (log_blocks_per_seg g).
Definition MAIN_BLKADDR : Z := main_blkaddr g.
Definition SEG0_BLKADDR : Z := seg0_blkaddr g.
Definition MAIN_SEGS : Z := main_segments g.
Definition MAIN_SECS : Z := total_sections g.
Definition TOTAL_SEGS : Z := segment_count g.
Definition MAX_BLKADDR : Z := u32 (SEG0_BLKADDR + u32 (Z.shiftl TOTAL_SEGS (log_blocks_per_seg g))).
Definition GET_L2R_SEGNO (segno : Z) : Z := u32 (segno - start_segno g).
Definition GET_R2L_SEGNO (segno : Z) : Z := u32 (segno + start_segno g).

Definition START_BLOCK (segno : Z) : Z :=
  u32 (SEG0_BLKADDR + u32 (Z.shiftl (GET_R2L_SEGNO segno) (log_blocks_per_seg g))).

Definition NEXT_FREE_BLKADDR (curseg : curseg_info) : Z :=
  u32 (START_BLOCK (cs_segno curseg) + next_blkoff curseg).

Definition GET_SEGOFF_FROM_SEG0 (blk_addr : Z) : Z := u32 (blk_addr - SEG0_BLKADDR).

Definition GET_SEGNO_FROM_SEG0 (blk_addr : Z) : Z :=
  Z.shiftr (GET_SEGOFF_FROM_SEG0 blk_addr) (log_blocks_per_seg g).

Definition GET_BLKOFF_FROM_SEG0 (blk_addr : Z) : Z :=
  Z.land (GET_SEGOFF_FROM_SEG0 blk_addr) (blocks_per_seg - 1).

Definition GET_SEGNO (blk_addr : Z) : Z :=
  if (blk_addr =? NULL_ADDR) || (blk_addr =? NEW_ADDR) then NULL_SEGNO
  else GET_L2R_SEGNO (GET_SEGNO_FROM_SEG0 blk_addr).

Definition GET_SECNO (segno : Z) : Z := segno / segs_per_sec g.

Definition GET_ZONENO_FROM_SEGNO (segno : Z) : Z :=
  segno / segs_per_sec g / secs_per_zone g.

Definition GET_SUM_BLOCK (segno : Z) : Z := u32 (ssa_blkaddr g + segno).
End Addresses.

Definition SIT_BLOCK_OFFSET (segno : Z) : Z := segno / SIT_ENTRY_PER_BLOCK.
Definition START_SEGNO (segno : Z) : Z := SIT_BLOCK_OFFSET segno * SIT_ENTRY_PER_BLOCK.
Definition SIT_ENTRY_OFFSET (segno : Z) : Z := segno mod SIT_ENTRY_PER_BLOCK.
Definition SIT_BLK_CNT (g : geometry) : Z :=
  (MAIN_SEGS g + SIT_ENTRY_PER_BLOCK - 1) / SIT_ENTRY_PER_BLOCK.

(** * Accessors *)

Definition CURSEG_I (sbi : f2fs_sb_info) (type : Z) : curseg_info :=
  (curseg_array sbi).[type].

Definition set_curseg (type : Z) (c : curseg_info) (sbi : f2fs_sb_info) : f2fs_sb_info :=
  with_curseg_array ((curseg_array sbi).[type <- c]) sbi.

Definition curseg_segno (sbi : f2fs_sb_info) (type : Z) : Z := cs_segno (CURSEG_I sbi type).
Definition curseg_alloc_type (sbi : f2fs_sb_info) (type : Z) : Z := alloc_type (CURSEG_I sbi type).
Definition curseg_blkoff (sbi : f2fs_sb_info) (type : Z) : Z := next_blkoff (CURSEG_I sbi type).

(** The two nested loops with their early return. *)
Definition IS_CURSEG (g : geometry) (cs : list curseg_info) (seg : Z) : bool :=
  existsb (fun i =>
    existsb (fun j => seg =? cs_segno (cs.[j + i * NR_CURSEG_TYPE]))
            (zseq 0 (Z.to_nat NR_CURSEG_TYPE)))
    (zseq 0 (Z.to_nat (nr_mlog g))).

Definition IS_CURSEC (g : geometry) (cs : list curseg_info) (secno : Z) : bool :=
  existsb (fun i =>
    existsb (fun j => secno =? cs_segno (cs.[j + i * NR_CURSEG_TYPE]) / segs_per_sec g)
            (zseq 0 (Z.to_nat NR_CURSEG_TYPE)))
    (zseq 0 (Z.to_nat (nr_mlog g))).

Definition get_seg_entry (si : sit_info) (segno : Z) : seg_entry := (sentries si).[segno].

Definition get_sec_entry (g : geometry) (si : sit_info) (segno : Z) : Z :=
  (sec_entries si).[GET_SECNO g segno].

Definition get_valid_blocks (g : geometry) (si : sit_info) (segno section : Z) : Z :=
  if 1 <? section then get_sec_entry g si segno
  else valid_blocks (get_seg_entry si segno).

Definition get_mtime (sbi : f2fs_sb_info) : Z :=
  u64 (elapsed_time (sit_i sbi) + now sbi - mounted_time (sit_i sbi)).

Definition set_summary (nid ofs_in_node version : Z) : f2fs_summary :=
  mk_summary nid (u8 version) (u16 ofs_in_node).

Definition sec_usage_check (sbi : f2fs_sb_info) (secno : Z) : bool :=
  IS_CURSEC (geo sbi) (curseg_array sbi) secno || (cur_victim_sec sbi =? secno).

(** * Counters *)

Definition free_segments (sbi : f2fs_sb_info) : Z := fr_segments (free_i sbi).
Definition free_sections (sbi : f2fs_sb_info) : Z := fr_sections (free_i sbi).

Definition reserved_sections (sbi : f2fs_sb_info) : Z :=
  reserved_segments (geo sbi) / segs_per_sec (geo sbi).

(** The sections the [pages] dirty pages of one kind will fill. *)
Definition get_blocktype_secs (g : geometry) (pages : Z) : Z :=
  let pages_per_sec := u32 (segs_per_sec g * Z.shiftl 1 (log_blocks_per_seg g)) in
  Z.shiftr (u32 (pages + pages_per_sec - 1)) (log_blocks_per_seg g) / segs_per_sec g.

Definition need_SSR (sbi : f2fs_sb_info) : bool :=
  let node_secs := get_blocktype_secs (geo sbi) (nr_dirty_nodes sbi) in
  let dent_secs := get_blocktype_secs (geo sbi) (nr_dirty_dents sbi) in
  free_sections sbi <=? u32 (node_secs + 2 * dent_secs + reserved_sections sbi + 1).

Definition has_not_enough_free_secs (sbi : f2fs_sb_info) (freed : Z) : bool :=
  if is_sbi_flag_set sbi SBI_POR_DOING then false else
  let node_secs := get_blocktype_secs (geo sbi) (nr_dirty_nodes sbi) in
  let dent_secs := get_blocktype_secs (geo sbi) (nr_dirty_dents sbi) in
  u32 (free_sections sbi + freed) <=?
    u32 (node_secs + 2 * dent_secs + reserved_sections sbi).

(** * The range checks *)

Definition check_seg_range (segno : Z) (sbi : f2fs_sb_info) : f2fs_sb_info :=
  if u32 (TOTAL_SEGS (geo sbi) - 1) <? segno then set_sbi_flag sbi SBI_NEED_FSCK else sbi.

(** [segno] is an [int] compared as unsigned. *)
Definition check_block_count (segno : Z) (raw_sit : f2fs_sit_entry) (sbi : f2fs_sb_info) :
  f2fs_sb_info :=
  let sbi := if blocks_per_seg (geo sbi) <? GET_SIT_VBLOCKS raw_sit
             then set_sbi_flag sbi SBI_NEED_FSCK else sbi in
  if u32 (TOTAL_SEGS (geo sbi) - 1) <? u32 segno
  then set_sbi_flag sbi SBI_NEED_FSCK else sbi.

(** * Well-formed geometry

    What [build_segment_manager] reads from a valid superblock: 512 blocks per
    segment (the size of a SIT bitmap, which the format fixes), sections that
    tile the main area, and addresses below [NEW_ADDR]. *)

Record geo_wf (g : geometry) : Prop := {
  gw_log : log_blocks_per_seg g = 9;
  gw_segs : 0 < segs_per_sec g;
  gw_secs : 0 < secs_per_zone g;
  gw_main : main_segments g = total_sections g * segs_per_sec g;
  gw_pos : 0 < total_sections g;
  gw_start : 0 <= start_segno g;
  gw_seg0 : 0 < seg0_blkaddr g;
  gw_base : main_blkaddr g = seg0_blkaddr g + start_segno g * 512;
  gw_top : main_blkaddr g + main_segments g * 512 < 2 ^ 32 - 1;
  gw_total : segment_count g = start_segno g + main_segments g;
  gw_mlog : 0 < nr_mlog g <= MAX_EXTEND_LOGS + 1;
}.

(** A block address inside the main area. *)
Definition in_main (g : geometry) (a : Z) : Prop :=
  main_blkaddr g <= a < main_blkaddr g + main_segments g * 512.

Lemma blocks_per_seg_512 g : geo_wf g -> blocks_per_seg g = 512.
Proof. intros []; unfold blocks_per_seg; rewrite gw_log0; reflexivity. Qed.

Lemma shiftl9 x : Z.shiftl x 9 = x * 512.
Proof. rewrite Z.shiftl_mul_pow2 by lia; reflexivity. Qed.

Lemma shiftr9 x : Z.shiftr x 9 = x / 512.
Proof. rewrite Z.shiftr_div_pow2 by lia; reflexivity. Qed.

Lemma START_BLOCK_val g segno :
  geo_wf g -> 0 <= segno < main_segments g ->
  START_BLOCK g segno = main_blkaddr g + segno * 512.
Proof.
  intros [] Hs; unfold START_BLOCK, SEG0_BLKADDR, GET_R2L_SEGNO.
  rewrite gw_log0, shiftl9; u32_simpl; lia.
Qed.

Lemma GET_SEGNO_val g a :
  geo_wf g -> in_main g a -> GET_SEGNO g a = (a - main_blkaddr g) / 512.
Proof.
  intros [] [Ha Hb]; unfold GET_SEGNO, GET_L2R_SEGNO, GET_SEGNO_FROM_SEG0,
    GET_SEGOFF_FROM_SEG0, SEG0_BLKADDR, NULL_ADDR, NEW_ADDR.
  rewrite gw_log0, shiftr9; change (u32 (-1)) with (2 ^ 32 - 1).
  rewrite (proj2 (Z.eqb_neq a 0)), (proj2 (Z.eqb_neq a _)) by lia; cbn [orb].
  u32_simpl; lia.
Qed.

Lemma GET_BLKOFF_val g a :
  geo_wf g -> in_main g a -> GET_BLKOFF_FROM_SEG0 g a = (a - main_blkaddr g) mod 512.
Proof.
  intros Hg [Ha Hb]; unfold GET_BLKOFF_FROM_SEG0, GET_SEGOFF_FROM_SEG0, SEG0_BLKADDR.
  rewrite blocks_per_seg_512 by assumption; destruct Hg.
  change (512 - 1) with (Z.ones 9); rewrite Z.land_ones by lia; u32_simpl; lia.
Qed.

Lemma GET_SEGNO_range g a :
  geo_wf g -> in_main g a -> 0 <= GET_SEGNO g a < main_segments g.
Proof. intros Hg Ha; rewrite GET_SEGNO_val by assumption; destruct Ha; lia. Qed.

Lemma GET_BLKOFF_range g a :
  geo_wf g -> in_main g a -> 0 <= GET_BLKOFF_FROM_SEG0 g a < 512.
Proof. intros Hg Ha; rewrite GET_BLKOFF_val by assumption; lia. Qed.

Lemma NULL_SEGNO_out g segno :
  geo_wf g -> 0 <= segno < main_segments g -> segno <> NULL_SEGNO.
Proof. intros []; unfold NULL_SEGNO; change (u32 (-1)) with (2 ^ 32 - 1); lia. Qed.

#[export] Hint Resolve GET_SEGNO_range GET_BLKOFF_range : maxdb.

(** ** Sections *)

Section Sections.
Variable g : geometry.
Hypothesis Hg : geo_wf g.

Lemma main_segments_bound : 0 < main_segments g < 2 ^ 32 /\ total_sections g <= main_segments g.
Proof. destruct Hg; nia. Qed.

Lemma secno_bounds segno :
  0 <= segno < main_segments g ->
  let s := segno / segs_per_sec g in
  0 <= s < total_sections g /\
  s * segs_per_sec g <= segno < (s + 1) * segs_per_sec g /\
  (s + 1) * segs_per_sec g <= main_segments g.
Proof.
  destruct Hg; intros Hs s.
  pose proof (Z.div_mod segno (segs_per_sec g) ltac:(lia)).
  pose proof (Z.mod_pos_bound segno (segs_per_sec g) ltac:(lia)).
  assert (0 <= s) by (apply Z.div_pos; lia).
  assert (s < total_sections g) by (apply Z.div_lt_upper_bound; [lia|nia]).
  fold s in H; nia.
Qed.

Lemma secno_unique secno i :
  0 <= secno -> secno * segs_per_sec g <= i < (secno + 1) * segs_per_sec g ->
  i / segs_per_sec g = secno.
Proof. destruct Hg; intros; symmetry; apply Z.div_unique with (i - secno * segs_per_sec g); nia. Qed.
End Sections.

(** ** Current segments *)

Lemma existsb_zseq p n :
  existsb p (zseq 0 n) = true <-> exists i, 0 <= i < Z.of_nat n /\ p i = true.
Proof.
  rewrite existsb_exists; split; intros (i & Hi & Hp); exists i.
  - rewrite <- list_elem_of_In, elem_of_zseq in Hi; split; [lia|assumption].
  - rewrite <- list_elem_of_In, elem_of_zseq; split; [lia|assumption].
Qed.

(** The double loop over the logs, as one range. *)
Lemma existsb_logs g p :
  existsb (fun i => existsb (fun j => p (j + i * NR_CURSEG_TYPE)) (zseq 0 (Z.to_nat NR_CURSEG_TYPE)))
    (zseq 0 (Z.to_nat (nr_mlog g))) = true <->
  exists k, 0 <= k < nr_mlog g * 6 /\ p k = true.
Proof.
  change NR_CURSEG_TYPE with 6; rewrite existsb_zseq; split.
  - intros (i & Hi & Hp); rewrite existsb_zseq in Hp; destruct Hp as (j & Hj & Hp).
    exists (j + i * 6); split; [lia|assumption].
  - intros (k & Hk & Hp); exists (k / 6); split; [lia|].
    rewrite existsb_zseq; exists (k mod 6); split; [lia|].
    replace (k mod 6 + k / 6 * 6) with k by lia; assumption.
Qed.

Lemma IS_CURSEG_spec g cs seg :
  IS_CURSEG g cs seg = true <-> exists k, 0 <= k < nr_mlog g * 6 /\ seg = cs_segno (cs.[k]).
Proof.
  unfold IS_CURSEG; rewrite (existsb_logs g (fun k => seg =? cs_segno (cs.[k]))).
  split; intros (k & Hk & He); exists k; (split; [assumption|]); apply Z.eqb_eq; assumption.
Qed.

Lemma IS_CURSEC_spec g cs sec :
  IS_CURSEC g cs sec = true <->
  exists k, 0 <= k < nr_mlog g * 6 /\ sec = cs_segno (cs.[k]) / segs_per_sec g.
Proof.
  unfold IS_CURSEC; rewrite (existsb_logs g (fun k => sec =? cs_segno (cs.[k]) / segs_per_sec g)).
  split; intros (k & Hk & He); exists k; (split; [assumption|]); apply Z.eqb_eq; assumption.
Qed.

(** Block addresses and (segment, offset) pairs of the main area correspond
    one to one: [GET_SEGNO] and [GET_BLKOFF_FROM_SEG0] invert
    [START_BLOCK(segno) + offset] and conversely, with no wrap-around, and no
    main-area address is mistaken for [NULL_ADDR] or [NEW_ADDR]. *)
Theorem block_address_round_trip (g : geometry) (segno off a : Z)
  (Hg : geo_wf g) (Hs : 0 <= segno < main_segments g) (Ho : 0 <= off < 512)
  (Ha : in_main g a) :
  in_main g (u32 (START_BLOCK g segno + off)) /\
  GET_SEGNO g (u32 (START_BLOCK g segno + off)) = segno /\
  GET_BLKOFF_FROM_SEG0 g (u32 (START_BLOCK g segno + off)) = off /\
  u32 (START_BLOCK g (GET_SEGNO g a) + GET_BLKOFF_FROM_SEG0 g a) = a /\
  GET_SEGNO g a <> NULL_SEGNO.
Proof.
  pose proof (GET_SEGNO_range g a Hg Ha) as Hsr.
  pose proof (GET_SEGNO_val g a Hg Ha) as Hsv; pose proof (GET_BLKOFF_val g a Hg Ha) as Hbv.
  rewrite !START_BLOCK_val by assumption; destruct (Hg) as [].
  destruct (Ha) as [Ha1 Ha2]; rewrite Hbv, Hsv.
  rewrite (u32_small (main_blkaddr g + segno * 512 + off)) by lia.
  assert (Hin : in_main g (main_blkaddr g + segno * 512 + off)) by (split; lia).
  rewrite GET_SEGNO_val, GET_BLKOFF_val by assumption.
  repeat split; try lia; [u32_simpl; lia|rewrite <- Hsv; eauto using NULL_SEGNO_out].
Qed.

(** A small volume, used by the examples of the other files: 32 segments in 16
    sections of 2, two sections per zone, and two multi-logs. *)
Definition geo_ex : geometry :=
  mk_geo 9 2 2 512 1536 1024 34 32 16 2 4 4 2.

Lemma geo_ex_wf : geo_wf geo_ex.
Proof. constructor; vm_compute; try split; congruence. Qed.

(** The twelve logs of the example volume, each at the start of its own segment. *)
Definition cs_ex : list curseg_info :=
  map (fun i => mk_curseg inhabitant LFS (2 * i) 0 (i / 2) NULL_SEGNO) (zseq 0 12).

Definition sit_ex : sit_info :=
  mk_sit_info 100 4 0 [0; 0] 0 0 (replicate 32 inhabitant) (replicate 16 0) 0 0 0 0.
