(* ===== verification/FreeSegmap.v ===== *)
(** The free segment map (src/Max/segment.h, __set_free and its siblings;
    src/Max/segment.c, get_new_segment and the construction at mount): a bit per
    segment and per section, set when in use, and the two counters. *)

From S2P Require Import Prelude Layout Bitops SmState.

#[local] Ltac Zify.zify_post_hook ::= Z.to_euclidean_division_equations.

(** * Definitions *)

Definition find_next_inuse (fi : free_segmap_info) (max segno : Z) : Z :=
  find_next_bit (free_segmap fi) max segno.

Definition __set_free (g : geometry) (segno : Z) (fi : free_segmap_info) : free_segmap_info :=
  let secno := segno / segs_per_sec g in
  let start := u32 (secno * segs_per_sec g) in
  let fi := with_free_segmap (clear_bit segno (free_segmap fi)) fi in
  let fi := with_fr_segments (u32 (fr_segments fi + 1)) fi in
  let next := find_next_bit (free_segmap fi) (u32 (start + segs_per_sec g)) start in
  if u32 (start + segs_per_sec g) <=? next then
    let fi := with_free_secmap (clear_bit secno (free_secmap fi)) fi in
    with_fr_sections (u32 (fr_sections fi + 1)) fi
  else fi.

Definition __set_inuse (g : geometry) (segno : Z) (fi : free_segmap_info) : free_segmap_info :=
  let secno := segno / segs_per_sec g in
  let fi := with_free_segmap (set_bit segno (free_segmap fi)) fi in
  let fi := with_fr_segments (u32 (fr_segments fi - 1)) fi in
  let '(old, secmap) := test_and_set_bit secno (free_secmap fi) in
  let fi := with_free_secmap secmap fi in
  if negb old then with_fr_sections (u32 (fr_sections fi - 1)) fi else fi.

Definition __set_test_and_free (g : geometry) (segno : Z) (fi : free_segmap_info) :
  free_segmap_info :=
  let secno := segno / segs_per_sec g in
  let start := u32 (secno * segs_per_sec g) in
  let '(old, segmap) := test_and_clear_bit segno (free_segmap fi) in
  let fi := with_free_segmap segmap fi in
  if old then
    let fi := with_fr_segments (u32 (fr_segments fi + 1)) fi in
    let next := find_next_bit (free_segmap fi) (u32 (start + segs_per_sec g)) start in
    if u32 (start + segs_per_sec g) <=? next then
      let '(olds, secmap) := test_and_clear_bit secno (free_secmap fi) in
      let fi := with_free_secmap secmap fi in
      if olds then with_fr_sections (u32 (fr_sections fi + 1)) fi else fi
    else fi
  else fi.

Definition __set_test_and_inuse (g : geometry) (segno : Z) (fi : free_segmap_info) :
  free_segmap_info :=
  let secno := segno / segs_per_sec g in
  let '(old, segmap) := test_and_set_bit segno (free_segmap fi) in
  let fi := with_free_segmap segmap fi in
  if negb old then
    let fi := with_fr_segments (u32 (fr_segments fi - 1)) fi in
    let '(olds, secmap) := test_and_set_bit secno (free_secmap fi) in
    let fi := with_free_secmap secmap fi in
    if negb olds then with_fr_sections (u32 (fr_sections fi - 1)) fi else fi
  else fi.

(** [is_next_segment_free(sbi, type, mlog)] for the log's current segment. *)
Definition is_next_segment_free (g : geometry) (fi : free_segmap_info) (cur : Z) : bool :=
  let segno := u32 (cur + 1) in
  if (segno <? MAIN_SEGS g) && negb (segno mod segs_per_sec g =? 0)
  then negb (test_bit segno (free_segmap fi)) else false.

(** ** Finding a new segment *)

(** The [while (test_bit(left_start, free_secmap))] loop. The second component
    tells whether its [f2fs_bug_on] fired. *)
Fixpoint left_loop (g : geometry) (secmap : Z) (left_start : nat) : Z * bool :=
  if test_bit (Z.of_nat left_start) secmap then
    match left_start with
    | S m => left_loop g secmap m
    | O => let r := find_next_zero_bit secmap (MAIN_SECS g) 0 in (r, MAIN_SECS g <=? r)
    end
  else (Z.of_nat left_start, false).

Record sec_search := mk_search {
  ss_secno : Z;
  ss_go_left : bool;
  ss_left_start : Z;
  ss_bug : bool;
}.

(** From the label [find_other_zone] to [skip_left]. *)
Definition find_other_zone (g : geometry) (secmap dir hint : Z) (go_left : bool)
  (left_start : Z) : sec_search :=
  let secno := find_next_zero_bit secmap (MAIN_SECS g) hint in
  let '(secno, go_left, left_start, bug) :=
    if MAIN_SECS g <=? secno then
      if dir =? ALLOC_RIGHT then
        let secno := find_next_zero_bit secmap (MAIN_SECS g) 0 in
        (secno, go_left, left_start, MAIN_SECS g <=? secno)
      else (secno, true, u32 (hint - 1), false)
    else (secno, go_left, left_start, false) in
  if go_left then
    let '(r, bug') := left_loop g secmap (Z.to_nat left_start) in
    mk_search r go_left r (bug || bug')
  else mk_search secno go_left left_start bug.

(** The value of [i] after the nested loops over the logs: the [break] leaves the
    inner loop only, so [i] is what the scan of the last multi-log left. *)
Definition zone_loop (g : geometry) (cs : list curseg_info) (zoneno : Z) : Z :=
  for_range 0 (nr_mlog g)
    (fun j _ => scan (fun i => cs_zone (cs.[i + j * NR_CURSEG_TYPE]) =? zoneno)
                     (Z.to_nat NR_CURSEG_TYPE) 0) 0.

(** The section [get_new_segment] settles on when it looks for a new one. *)
Definition find_new_section (g : geometry) (cs : list curseg_info) (secmap newseg dir : Z) :
  Z * bool :=
  let total_zones := MAIN_SECS g / secs_per_zone g in
  let hint := newseg / segs_per_sec g in
  let old_zoneno := GET_ZONENO_FROM_SEGNO g newseg in
  let r := find_other_zone g secmap dir hint false hint in
  let zoneno := ss_secno r / secs_per_zone g in
  if secs_per_zone g =? 1 then (ss_secno r, ss_bug r)
  else if zoneno =? old_zoneno then (ss_secno r, ss_bug r)
  else if (dir =? ALLOC_LEFT) &&
          ((negb (ss_go_left r) && (total_zones <=? u32 (zoneno + 1)))
           || (ss_go_left r && (zoneno =? 0))) then (ss_secno r, ss_bug r)
  else if zone_loop g cs zoneno <? NR_CURSEG_TYPE then
    let hint :=
      if ss_go_left r then u32 (zoneno * secs_per_zone g - 1)
      else if total_zones <=? u32 (zoneno + 1) then 0
      else u32 ((zoneno + 1) * secs_per_zone g) in
    let r' := find_other_zone g secmap dir hint (ss_go_left r) (ss_left_start r) in
    (ss_secno r', ss_bug r || ss_bug r')
  else (ss_secno r, ss_bug r).

(** The segment chosen, and whether an [f2fs_bug_on] before [got_it] fired. *)
Definition choose_segment (g : geometry) (cs : list curseg_info) (fi : free_segmap_info)
  (newseg : Z) (new_sec : bool) (dir : Z) : Z * bool :=
  let near := find_next_zero_bit (free_segmap fi) (MAIN_SEGS g) (u32 (newseg + 1)) in
  if negb new_sec && negb (u32 (newseg + 1) mod segs_per_sec g =? 0)
     && (u32 (near - newseg) <? u32 (segs_per_sec g - newseg mod segs_per_sec g))
  then (near, false)
  else let '(secno, bug) := find_new_section g cs (free_secmap fi) newseg dir in
       (u32 (secno * segs_per_sec g), bug).

(** The new segment number, the new map, and whether an [f2fs_bug_on] fired. *)
Definition get_new_segment (g : geometry) (cs : list curseg_info) (newseg : Z)
  (new_sec : bool) (dir : Z) (fi : free_segmap_info) : Z * free_segmap_info * bool :=
  let '(segno, bug) := choose_segment g cs fi newseg new_sec dir in
  (segno, __set_inuse g segno fi, bug || test_bit segno (free_segmap fi)).

(** ** Construction at mount *)

Definition f2fs_bitmap_size (nr : Z) : Z := (nr + 63) / 64 * 8.

Definition build_free_segmap (g : geometry) : free_segmap_info :=
  mk_free_i 0 0 (Z.ones (8 * f2fs_bitmap_size (MAIN_SEGS g)))
                (Z.ones (8 * f2fs_bitmap_size (MAIN_SECS g))).

Definition init_free_segmap (g : geometry) (si : sit_info) (cs : list curseg_info)
  (fi : free_segmap_info) : free_segmap_info :=
  let fi := for_range 0 (MAIN_SEGS g) (fun start fi =>
    if valid_blocks (get_seg_entry si start) =? 0 then __set_free g start fi else fi) fi in
  for_range 0 (nr_mlog g) (fun i fi =>
    for_range CURSEG_HOT_DATA (CURSEG_COLD_NODE + 1) (fun type fi =>
      __set_test_and_inuse g (cs_segno (cs.[type + i * NR_CURSEG_TYPE])) fi) fi) fi.

(** * The invariant *)

Definition seg_used (fi : free_segmap_info) (segno : Z) : bool := test_bit segno (free_segmap fi).
Definition sec_used (fi : free_segmap_info) (secno : Z) : bool := test_bit secno (free_secmap fi).

(** A segment of section [secno] is in use. *)
Definition sec_busy (g : geometry) (segmap secno : Z) : Prop :=
  exists i, secno * segs_per_sec g <= i < (secno + 1) * segs_per_sec g /\ test_bit i segmap = true.

Record free_wf (g : geometry) (fi : free_segmap_info) : Prop := {
  fw_segs : fr_segments fi = main_segments g - count_below (seg_used fi) (main_segments g);
  fw_secs : fr_sections fi = total_sections g - count_below (sec_used fi) (total_sections g);
  fw_map : forall secno, 0 <= secno < total_sections g ->
    sec_used fi secno = true <-> sec_busy g (free_segmap fi) secno;
}.

(** * Sections *)

Section FreeMap.
Variable g : geometry.
Hypothesis Hg : geo_wf g.
Implicit Types (fi : free_segmap_info) (m segno secno : Z).

(** The test after clearing a bit decides whether the section is idle. *)
Lemma section_scan m segno :
  0 <= segno < main_segments g ->
  let start := u32 (segno / segs_per_sec g * segs_per_sec g) in
  let top := u32 (start + segs_per_sec g) in
  (top <=? find_next_bit m top start) = true <-> ~ sec_busy g m (segno / segs_per_sec g).
Proof.
  intros Hs; destruct (secno_bounds g Hg segno Hs) as (Hb & Hr & Hm); cbv zeta.
  pose proof (main_segments_bound g Hg); pose proof (gw_segs g Hg).
  set (s := segno / segs_per_sec g) in *.
  assert (Hs0 : 0 <= s * segs_per_sec g) by nia.
  rewrite (u32_small (s * segs_per_sec g)), (u32_small (_ + _)) by nia.
  destruct (find_next_spec (fun i => test_bit i m) (s * segs_per_sec g + segs_per_sec g)
              (s * segs_per_sec g) ltac:(lia)) as (Hn & Ht & Hf).
  unfold find_next_bit; set (r := find_next _ _ _) in *; rewrite Z.leb_le; split.
  - intros Hle (i & Hi & Hbit); rewrite Hf in Hbit by lia; discriminate.
  - intros Hnb; destruct (Z_lt_ge_dec r (s * segs_per_sec g + segs_per_sec g)); [|lia].
    exfalso; apply Hnb; exists r; split; [lia|apply Ht; assumption].
Qed.

Lemma sec_busy_dec m secno : sec_busy g m secno \/ ~ sec_busy g m secno.
Proof.
  pose proof (gw_segs g Hg).
  set (p := fun i => test_bit (secno * segs_per_sec g + i) m).
  destruct (Z_lt_le_dec 0 (count_below p (segs_per_sec g))) as [Hp|Hz]; [left|right].
  - apply count_below_exists in Hp; destruct Hp as (i & Hi & Hbit).
    exists (secno * segs_per_sec g + i); split; [lia|exact Hbit].
  - intros (i & Hi & Hbit).
    pose proof (count_below_pos p (segs_per_sec g) (i - secno * segs_per_sec g) ltac:(lia)) as Hp.
    unfold p in Hp at 1; rewrite Zplus_minus in Hp; specialize (Hp Hbit); lia.
Qed.

(** Changing one segment's bit leaves the other sections as they were. *)
Lemma sec_busy_other m m' segno secno :
  0 <= secno -> secno <> segno / segs_per_sec g ->
  (forall i, i <> segno -> test_bit i m' = test_bit i m) ->
  sec_busy g m' secno <-> sec_busy g m secno.
Proof.
  intros Hp Hne Hsame; unfold sec_busy.
  split; intros (i & Hi & Hb); exists i; (split; [exact Hi|]);
    pose proof (secno_unique g Hg secno i Hp Hi); rewrite Hsame in * by congruence; exact Hb.
Qed.

Lemma sec_busy_set m segno :
  0 <= segno < main_segments g -> sec_busy g (set_bit segno m) (segno / segs_per_sec g).
Proof.
  intros Hs; destruct (secno_bounds g Hg segno Hs) as (_ & Hr & _).
  exists segno; split; [lia|apply test_bit_set_eq; lia].
Qed.

Ltac other_bits := intros; first [apply test_bit_set_ne | apply test_bit_clear_ne]; lia.

(** * The operations preserve the invariant *)

Lemma set_inuse_segmap segno fi :
  free_segmap (__set_inuse g segno fi) = set_bit segno (free_segmap fi).
Proof. unfold __set_inuse, test_and_set_bit; simpl; case_ifs; reflexivity. Qed.

Lemma set_inuse_secmap segno fi :
  free_secmap (__set_inuse g segno fi) = set_bit (segno / segs_per_sec g) (free_secmap fi).
Proof. unfold __set_inuse, test_and_set_bit; simpl; case_ifs; reflexivity. Qed.

Lemma set_inuse_fw_map segno fi :
  0 <= segno < main_segments g -> free_wf g fi ->
  forall secno, 0 <= secno < total_sections g ->
  test_bit secno (set_bit (segno / segs_per_sec g) (free_secmap fi)) = true <->
  sec_busy g (set_bit segno (free_segmap fi)) secno.
Proof.
  intros Hs Hw secno Hsec; destruct (secno_bounds g Hg segno Hs) as (Hb & _).
  rewrite test_bit_set by lia; destruct (Z.eqb_spec secno (segno / segs_per_sec g)) as [->|Hne].
  - split; intros _; [apply sec_busy_set; assumption|reflexivity].
  - rewrite (sec_busy_other (free_segmap fi) _ segno secno) by (lia || other_bits).
    apply (fw_map g fi Hw); assumption.
Qed.

Lemma set_inuse_wf segno fi :
  0 <= segno < main_segments g -> free_wf g fi -> seg_used fi segno = false ->
  free_wf g (__set_inuse g segno fi).
Proof.
  intros Hs Hw Hf; destruct (secno_bounds g Hg segno Hs) as (Hb & _).
  pose proof (main_segments_bound g Hg) as HM.
  pose proof (count_set_bit segno (free_segmap fi) (main_segments g) Hs) as Hc.
  pose proof (count_set_bit (segno / segs_per_sec g) (free_secmap fi) (total_sections g) Hb) as Hc2.
  pose proof (count_below_range (fun i => test_bit i (set_bit segno (free_segmap fi))) (main_segments g) ltac:(lia)).
  pose proof (count_below_range (fun i => test_bit i (set_bit (segno / segs_per_sec g) (free_secmap fi))) (total_sections g) ltac:(lia)).
  destruct (Hw) as [Hw1 Hw2 _]; unfold seg_used, sec_used in *; rewrite Hf in Hc; cbn [b2z] in Hc.
  constructor; unfold seg_used, sec_used; rewrite ?set_inuse_segmap, ?set_inuse_secmap;
    [| |apply set_inuse_fw_map; assumption];
    unfold __set_inuse, test_and_set_bit; simpl; rewrite ?Hw1, ?Hw2.
  - rewrite Hc in *; case_ifs; simpl; rewrite u32_small; lia.
  - destruct (test_bit (segno / segs_per_sec g) (free_secmap fi)); cbn [b2z negb] in *; simpl;
      rewrite ?u32_small; lia.
Qed.

Lemma set_test_and_inuse_eq segno fi :
  __set_test_and_inuse g segno fi =
  if seg_used fi segno then with_free_segmap (set_bit segno (free_segmap fi)) fi
  else __set_inuse g segno fi.
Proof.
  unfold __set_test_and_inuse, __set_inuse, test_and_set_bit, seg_used; simpl.
  destruct (test_bit segno (free_segmap fi)); reflexivity.
Qed.

Lemma set_bit_same n m : 0 <= n -> test_bit n m = true -> set_bit n m = m.
Proof.
  intros Hn Ht; apply Z.bits_inj'; intros i Hi.
  change (test_bit i (set_bit n m) = test_bit i m); rewrite test_bit_set by lia.
  destruct (Z.eqb_spec i n); subst; rewrite ?Ht; reflexivity.
Qed.

Lemma clear_bit_same n m : 0 <= n -> test_bit n m = false -> clear_bit n m = m.
Proof.
  intros Hn Ht; apply Z.bits_inj'; intros i Hi.
  change (test_bit i (clear_bit n m) = test_bit i m); rewrite test_bit_clear by lia.
  destruct (Z.eqb_spec i n); subst; rewrite ?Ht; reflexivity.
Qed.

Lemma set_test_and_inuse_wf segno fi :
  0 <= segno < main_segments g -> free_wf g fi -> free_wf g (__set_test_and_inuse g segno fi).
Proof.
  intros Hs Hw; rewrite set_test_and_inuse_eq; case_ifs; [|apply set_inuse_wf; assumption].
  rewrite set_bit_same by (exact Heqb || lia); destruct fi; exact Hw.
Qed.

Lemma set_test_and_inuse_segmap segno fi :
  free_segmap (__set_test_and_inuse g segno fi) = set_bit segno (free_segmap fi).
Proof. rewrite set_test_and_inuse_eq; case_ifs; [reflexivity|apply set_inuse_segmap]. Qed.

Lemma set_free_segmap segno fi :
  free_segmap (__set_free g segno fi) = clear_bit segno (free_segmap fi).
Proof. unfold __set_free; cbv zeta; case_ifs; reflexivity. Qed.

(** Freeing an in-use segment: the section's bit follows when it was the last. *)
Lemma set_free_wf segno fi :
  0 <= segno < main_segments g -> free_wf g fi -> seg_used fi segno = true ->
  free_wf g (__set_free g segno fi).
Proof.
  intros Hs Hw Hu; destruct (secno_bounds g Hg segno Hs) as (Hb & Hr & _).
  pose proof (main_segments_bound g Hg) as HM.
  set (sec := segno / segs_per_sec g) in *.
  assert (Husec : sec_used fi sec = true) by
    (apply (fw_map g fi Hw); [assumption|exists segno; split; [lia|exact Hu]]).
  pose proof (count_clear_bit segno (free_segmap fi) (main_segments g) Hs) as Hc.
  pose proof (count_clear_bit sec (free_secmap fi) (total_sections g) Hb) as Hc2.
  pose proof (count_below_range (fun i => test_bit i (clear_bit segno (free_segmap fi))) (main_segments g) ltac:(lia)).
  pose proof (count_below_range (fun i => test_bit i (clear_bit sec (free_secmap fi))) (total_sections g) ltac:(lia)).
  pose proof (section_scan (clear_bit segno (free_segmap fi)) segno Hs) as Hscan; cbv zeta in Hscan.
  destruct (Hw) as [Hw1 Hw2 Hw3]; unfold seg_used, sec_used in *.
  rewrite Hu in Hc; rewrite Husec in Hc2; cbn [b2z] in Hc, Hc2.
  assert (Hother : forall secno, 0 <= secno < total_sections g -> secno <> sec ->
     test_bit secno (free_secmap fi) = true <-> sec_busy g (clear_bit segno (free_segmap fi)) secno).
  { intros secno Hsec Hne; rewrite (sec_busy_other (free_segmap fi) _ segno secno) by (lia || other_bits).
    apply Hw3; assumption. }
  unfold __set_free; cbn [free_segmap with_free_segmap with_fr_segments].
  fold sec in Hscan; fold sec.
  destruct (_ <=? find_next_bit _ _ _) eqn:E; constructor; unfold seg_used, sec_used; simpl;
    try (rewrite ?Hw1, ?Hw2; u32_simpl; lia).
  - assert (Hnb := proj1 Hscan eq_refl); intros secno Hsec.
    destruct (Z.eq_dec secno sec) as [->|Hne].
    + rewrite test_bit_clear_eq by lia; split; [discriminate|contradiction].
    + rewrite test_bit_clear_ne by lia; auto.
  - intros secno Hsec; destruct (Z.eq_dec secno sec) as [->|Hne]; [|auto].
    rewrite Husec; split; [intros _|reflexivity].
    destruct (sec_busy_dec (clear_bit segno (free_segmap fi)) sec) as [|Hnb]; [assumption|].
    apply Hscan in Hnb; discriminate.
Qed.

Lemma set_test_and_free_eq segno fi :
  0 <= segno < main_segments g -> free_wf g fi ->
  __set_test_and_free g segno fi = if seg_used fi segno then __set_free g segno fi else fi.
Proof.
  intros Hs Hw; destruct (secno_bounds g Hg segno Hs) as (Hb & Hr & _).
  unfold __set_test_and_free, __set_free, test_and_clear_bit, seg_used; cbv zeta; simpl.
  destruct (test_bit segno (free_segmap fi)) eqn:E.
  - assert (Hu : test_bit (segno / segs_per_sec g) (free_secmap fi) = true)
      by (apply (fw_map g fi Hw); [assumption|exists segno; split; [lia|exact E]]).
    rewrite Hu; reflexivity.
  - rewrite clear_bit_same by (exact E || lia); destruct fi; reflexivity.
Qed.

Lemma set_test_and_free_wf segno fi :
  0 <= segno < main_segments g -> free_wf g fi -> free_wf g (__set_test_and_free g segno fi).
Proof.
  intros; rewrite set_test_and_free_eq by assumption; case_ifs; [apply set_free_wf|]; assumption.
Qed.

Lemma set_test_and_free_segmap segno fi :
  0 <= segno < main_segments g -> free_wf g fi ->
  free_segmap (__set_test_and_free g segno fi) = clear_bit segno (free_segmap fi).
Proof.
  intros Hs Hw; rewrite set_test_and_free_eq by assumption; case_ifs.
  - apply set_free_segmap.
  - symmetry; apply clear_bit_same; [lia|exact Heqb].
Qed.

(** * Finding a new segment *)

Definition free_sec (secmap secno : Z) : Prop :=
  0 <= secno < total_sections g /\ test_bit secno secmap = false.

Lemma find_zero_free secmap hint f :
  0 <= hint <= f -> free_sec secmap f ->
  free_sec secmap (find_next_zero_bit secmap (MAIN_SECS g) hint) /\
  hint <= find_next_zero_bit secmap (MAIN_SECS g) hint <= f.
Proof.
  unfold MAIN_SECS, find_next_zero_bit; intros Hh [Hf Hb].
  pose proof (find_next_le (fun i => negb (test_bit i secmap)) (total_sections g) hint f
                ltac:(lia) ltac:(lia) ltac:(cbv beta; rewrite Hb; reflexivity)).
  destruct (find_next_spec (fun i => negb (test_bit i secmap)) (total_sections g) hint) as (Hr & Ht & _);
    [lia|].
  split; [|lia]; split; [lia|apply negb_true_iff, Ht; lia].
Qed.

Lemma left_loop_free secmap f n :
  free_sec secmap f -> Z.of_nat n < total_sections g ->
  free_sec secmap (fst (left_loop g secmap n)) /\ snd (left_loop g secmap n) = false.
Proof.
  intros Hf; induction n as [|n IH]; intros Hn; simpl left_loop.
  - destruct (test_bit (Z.of_nat 0) secmap) eqn:E; simpl; [|split; [split; [lia|exact E]|reflexivity]].
    destruct (find_zero_free secmap 0 f) as [Hfree Hle]; [destruct Hf; lia|assumption|].
    split; [exact Hfree|]; apply Z.leb_gt; destruct Hfree as [[_ Hlt] _]; exact Hlt.
  - destruct (test_bit (Z.of_nat (S n)) secmap) eqn:E; [apply IH; lia|].
    simpl; split; [split; [lia|exact E]|reflexivity].
Qed.

Lemma left_loop_stop secmap n :
  test_bit (Z.of_nat n) secmap = false -> left_loop g secmap n = (Z.of_nat n, false).
Proof. intros E; destruct n; simpl left_loop; rewrite E; reflexivity. Qed.

Lemma find_other_zone_free secmap dir hint go_left left_start f :
  free_sec secmap f -> 0 <= hint <= total_sections g ->
  (go_left = true -> free_sec secmap left_start) ->
  let r := find_other_zone g secmap dir hint go_left left_start in
  free_sec secmap (ss_secno r) /\ ss_bug r = false /\
  (ss_go_left r = true -> ss_left_start r = ss_secno r) /\
  (ss_go_left r = true -> go_left = true \/ dir <> ALLOC_RIGHT).
Proof.
  intros Hf Hh Hl; unfold find_other_zone; pose proof (main_segments_bound g Hg).
  set (s := find_next_zero_bit secmap (MAIN_SECS g) hint).
  assert (Hleft : forall ls (P : Prop), 0 <= ls < total_sections g -> P ->
    let r := let '(r, bug') := left_loop g secmap (Z.to_nat ls) in mk_search r true r (false || bug') in
    free_sec secmap (ss_secno r) /\ ss_bug r = false /\
    (ss_go_left r = true -> ss_left_start r = ss_secno r) /\ (ss_go_left r = true -> P)).
  { intros ls P Hls HP; pose proof (left_loop_free secmap f (Z.to_nat ls) Hf ltac:(lia)) as [Ha Hb].
    destruct (left_loop g secmap (Z.to_nat ls)) as [r b]; cbn in *; subst; auto. }
  destruct (MAIN_SECS g <=? s) eqn:E; [destruct (dir =? ALLOC_RIGHT) eqn:Ed|].
  - destruct (find_zero_free secmap 0 f) as [Hz Hle]; [destruct Hf; lia|assumption|].
    assert (Hlt : (MAIN_SECS g <=? find_next_zero_bit secmap (MAIN_SECS g) 0) = false)
      by (apply Z.leb_gt; destruct Hz as [[_ Hz] _]; exact Hz).
    rewrite Hlt; destruct go_left; [apply Hleft; [destruct (Hl eq_refl); lia|auto]|].
    cbn; split; [exact Hz|repeat split; discriminate].
  - assert (Hhf : f < hint).
    { destruct (Z_lt_le_dec f hint); [assumption|].
      destruct (find_zero_free secmap hint f) as [_ Hle]; [lia|assumption|].
      fold s in Hle; unfold MAIN_SECS in E; bool_cases; destruct Hf; lia. }
    bool_cases; destruct Hf as [Hf0 Hfb]; rewrite u32_small by lia; apply Hleft; [lia|auto].
  - bool_cases; destruct go_left; [apply Hleft; [destruct (Hl eq_refl); lia|auto]|].
    cbn; split; [|repeat split; discriminate].
    destruct (find_next_spec (fun i => negb (test_bit i secmap)) (total_sections g) hint) as (Hr & Ht & _);
      [lia|]; unfold s, find_next_zero_bit, MAIN_SECS in *.
    split; [lia|apply negb_true_iff, Ht; lia].
Qed.

(** The hint of the second pass is a section number. *)
Lemma second_hint_range secno (go_left : bool) :
  0 <= secno < total_sections g ->
  let z := secno / secs_per_zone g in
  (go_left = true -> z <> 0) ->
  0 <= (if go_left then u32 (z * secs_per_zone g - 1)
        else if MAIN_SECS g / secs_per_zone g <=? u32 (z + 1) then 0
        else u32 ((z + 1) * secs_per_zone g)) <= total_sections g /\
  (go_left = true -> u32 (z * secs_per_zone g - 1) < secno).
Proof.
  intros Hs z Hz; pose proof (gw_secs g Hg); pose proof (main_segments_bound g Hg).
  assert (Hzz : z * secs_per_zone g <= secno) by
    (unfold z; rewrite Z.mul_comm; apply Z.mul_div_le; lia).
  assert (Hz0 : 0 <= z) by (apply Z.div_pos; lia).
  assert (Hzs : z <= secno) by nia.
  rewrite (u32_small (z + 1)) by lia; unfold MAIN_SECS.
  destruct go_left; [specialize (Hz eq_refl); rewrite u32_small by nia; nia|].
  split; [|discriminate]; destruct (_ <=? z + 1) eqn:E; bool_cases; [lia|].
  assert ((z + 1) * secs_per_zone g <= total_sections g).
  { apply Z.le_trans with (total_sections g / secs_per_zone g * secs_per_zone g); [nia|].
    rewrite Z.mul_comm; apply Z.mul_div_le; lia. }
  rewrite u32_small; nia.
Qed.

Lemma find_new_section_free cs secmap newseg dir f :
  0 <= newseg < main_segments g -> dir = ALLOC_RIGHT \/ dir = ALLOC_LEFT -> free_sec secmap f ->
  free_sec secmap (fst (find_new_section g cs secmap newseg dir)) /\
  snd (find_new_section g cs secmap newseg dir) = false.
Proof.
  intros Hn Hd Hf; destruct (secno_bounds g Hg newseg Hn) as (Hb & _).
  unfold find_new_section; cbv zeta.
  destruct (find_other_zone_free secmap dir (newseg / segs_per_sec g) false (newseg / segs_per_sec g) f)
    as (Hfree & Hbug & Hls & Hdir); [assumption|lia|discriminate|].
  set (r := find_other_zone g secmap dir _ false _) in *.
  destruct (secs_per_zone g =? 1); [auto|].
  destruct (_ =? GET_ZONENO_FROM_SEGNO g newseg); [auto|].
  destruct (_ && _) eqn:Eleft; [auto|].
  destruct (zone_loop _ _ _ <? _); [|auto]; cbn [fst snd]; rewrite Hbug; cbn [orb].
  edestruct (find_other_zone_free secmap dir) as (Hfree' & Hbug' & _);
    [exact Hf| | |split; [exact Hfree'|exact Hbug']].
  - apply second_hint_range; [destruct Hfree; assumption|].
    intros Hgl Hz0; rewrite Hgl, Hz0 in Eleft.
    destruct (Hdir Hgl) as [|]; [discriminate|destruct Hd as [->| ->]; [congruence|]].
    cbn in Eleft; discriminate.
  - intros Hgl; rewrite (Hls Hgl); exact Hfree.
Qed.

Lemma choose_segment_free cs fi newseg new_sec dir :
  free_wf g fi -> 0 < fr_sections fi ->
  0 <= newseg < main_segments g -> dir = ALLOC_RIGHT \/ dir = ALLOC_LEFT ->
  let '(segno, bug) := choose_segment g cs fi newseg new_sec dir in
  0 <= segno < main_segments g /\ seg_used fi segno = false /\ bug = false.
Proof.
  intros Hw Hfree Hn Hd; unfold choose_segment; pose proof (main_segments_bound g Hg).
  destruct (secno_bounds g Hg newseg Hn) as (Hb & Hr & Hm); pose proof (gw_segs g Hg).
  rewrite (u32_small (newseg + 1)) by lia.
  set (near := find_next_zero_bit _ _ _).
  destruct (_ && (u32 (near - newseg) <? _)) eqn:E.
  - bool_cases; destruct (find_next_spec (fun i => negb (test_bit i (free_segmap fi)))
      (MAIN_SEGS g) (newseg + 1)) as (Hnr & Ht & _); [unfold MAIN_SEGS; lia|].
    fold (find_next_zero_bit (free_segmap fi) (MAIN_SEGS g) (newseg + 1)) in Hnr, Ht.
    fold near in Hnr, Ht; unfold MAIN_SEGS in *.
    pose proof (Z.div_mod newseg (segs_per_sec g) ltac:(lia)).
    pose proof (Z.mod_pos_bound newseg (segs_per_sec g) ltac:(lia)).
    assert (near < main_segments g) by (u32_simpl; nia).
    split; [lia|split; [apply negb_true_iff, Ht; assumption|reflexivity]].
  - rewrite (fw_secs g fi Hw) in Hfree.
    assert (Hex : exists f, free_sec (free_secmap fi) f).
    { pose proof (count_below_negb (sec_used fi) (total_sections g) ltac:(destruct Hg; lia)).
      destruct (count_below_exists (fun i => negb (sec_used fi i)) (total_sections g)) as (f & Hf & Hbit);
        [lia|]; exists f; split; [assumption|apply negb_true_iff; exact Hbit]. }
    destruct Hex as [f Hf].
    destruct (find_new_section_free cs (free_secmap fi) newseg dir f Hn Hd Hf) as [[Hs Hsb] Hbug].
    destruct (find_new_section g cs (free_secmap fi) newseg dir) as [secno bug]; cbn [fst snd] in *.
    assert ((secno + 1) * segs_per_sec g <= main_segments g) by (destruct Hg; nia).
    rewrite u32_small by nia; split; [nia|split; [|assumption]].
    apply not_true_is_false; intros Hu.
    assert (sec_used fi secno = true) by
      (apply (fw_map g fi Hw); [assumption|exists (secno * segs_per_sec g); split; [nia|exact Hu]]).
    unfold sec_used in *; congruence.
Qed.

(** * Construction at mount *)

Lemma build_free_segmap_wf : free_wf g (build_free_segmap g).
Proof.
  pose proof (main_segments_bound g Hg); pose proof (gw_segs g Hg).
  assert (Hones : forall n i, 0 <= i < n -> test_bit i (Z.ones (8 * f2fs_bitmap_size n)) = true).
  { intros n i Hi; unfold f2fs_bitmap_size, test_bit; rewrite Z.testbit_ones_nonneg by lia.
    apply Z.ltb_lt; lia. }
  unfold build_free_segmap; constructor; unfold seg_used, sec_used, MAIN_SEGS, MAIN_SECS; simpl.
  - rewrite count_below_all; auto with lia.
  - rewrite count_below_all; auto; destruct Hg; lia.
  - intros s Hs; split; intros _; [|apply Hones; assumption].
    exists (s * segs_per_sec g); split; [nia|apply Hones; destruct Hg; nia].
Qed.

(** The first loop: exactly the segments without valid blocks become free. *)
Lemma init_free_loop si fi :
  free_wf g fi -> (forall i, 0 <= i < main_segments g -> seg_used fi i = true) ->
  let fi' := for_range 0 (MAIN_SEGS g) (fun start fi =>
    if valid_blocks (get_seg_entry si start) =? 0 then __set_free g start fi else fi) fi in
  free_wf g fi' /\ forall i, 0 <= i < main_segments g ->
    seg_used fi' i = negb (valid_blocks (get_seg_entry si i) =? 0).
Proof.
  intros Hw Hall; pose proof (main_segments_bound g Hg).
  pose proof (for_range_ind (fun n fi' => free_wf g fi' /\ forall i, 0 <= i < main_segments g ->
    seg_used fi' i = (n <=? i) || negb (valid_blocks (get_seg_entry si i) =? 0)) 0 (MAIN_SEGS g)
    (fun start fi => if valid_blocks (get_seg_entry si start) =? 0 then __set_free g start fi else fi)
    fi) as Hind; unfold MAIN_SEGS in *; cbv zeta.
  destruct Hind as [Hw' Hb']; [lia| | |].
  - split; [exact Hw|]; intros i Hi; rewrite Hall, (proj2 (Z.leb_le 0 i)) by lia; reflexivity.
  - intros n t Hn [Ht Hb]; pose proof (Hb n Hn) as Hbn; rewrite Z.leb_refl in Hbn; cbn [orb] in Hbn.
    destruct (valid_blocks (get_seg_entry si n) =? 0) eqn:E.
    + split; [apply set_free_wf; assumption|]; intros i Hi; unfold seg_used.
      rewrite set_free_segmap, test_bit_clear by lia; fold (seg_used t i); rewrite Hb by assumption.
      destruct (Z.eqb_spec i n) as [->|Hne]; [rewrite E, (proj2 (Z.leb_gt (n + 1) n)) by lia; reflexivity|].
      cbn [negb andb]; f_equal; destruct (Z.leb_spec n i), (Z.leb_spec (n + 1) i); lia.
    + split; [exact Ht|]; intros i Hi; rewrite Hb by assumption.
      destruct (Z.eq_dec i n) as [->|Hne]; [rewrite E; cbn; rewrite !orb_true_r; reflexivity|].
      f_equal; destruct (Z.leb_spec n i), (Z.leb_spec (n + 1) i); lia.
  - split; [exact Hw'|]; intros i Hi; rewrite Hb', (proj2 (Z.leb_gt (main_segments g) i)) by lia.
    reflexivity.
Qed.

(** The second loop: the current segments are put in use. *)
Lemma init_inuse_loop cs fi :
  free_wf g fi ->
  (forall k, 0 <= k < nr_mlog g * 6 -> 0 <= cs_segno (cs.[k]) < main_segments g) ->
  let fi' := for_range 0 (nr_mlog g) (fun i fi =>
    for_range CURSEG_HOT_DATA (CURSEG_COLD_NODE + 1) (fun type fi =>
      __set_test_and_inuse g (cs_segno (cs.[type + i * NR_CURSEG_TYPE])) fi) fi) fi in
  free_wf g fi' /\ forall i, seg_used fi' i = true <->
    seg_used fi i = true \/ exists k, 0 <= k < nr_mlog g * 6 /\ cs_segno (cs.[k]) = i.
Proof.
  intros Hw Hcs; cbv zeta; change NR_CURSEG_TYPE with 6; change (CURSEG_COLD_NODE + 1) with 6;
    change CURSEG_HOT_DATA with 0.
  set (I := fun n fi' => free_wf g fi' /\ forall i, seg_used fi' i = true <->
    seg_used fi i = true \/ exists k, 0 <= k < n /\ cs_segno (cs.[k]) = i).
  apply (for_range_ind (fun n => I (n * 6))); [destruct Hg; lia| |].
  - split; [exact Hw|]; intros i; split; [auto|intros [|(k & Hk & _)]; [assumption|lia]].
  - intros a t Ha Ht; replace ((a + 1) * 6) with (a * 6 + 6) by lia.
    apply (for_range_ind (fun n => I (a * 6 + n))); [lia|rewrite Z.add_0_r; exact Ht|].
    intros b u Hb [Hu1 Hu2]; specialize (Hcs (b + a * 6) ltac:(lia)).
    split; [apply set_test_and_inuse_wf; assumption|]; intros i; unfold seg_used at 1.
    rewrite set_test_and_inuse_segmap, test_bit_set by lia; fold (seg_used u i).
    rewrite orb_true_iff, Hu2, Z.eqb_eq; split.
    + intros [->|[|(k & Hk & Hke)]]; [right|auto|right].
      * exists (b + a * 6); split; [lia|reflexivity].
      * exists k; split; [lia|exact Hke].
    + intros [|(k & Hk & Hke)]; [auto|].
      destruct (Z.eq_dec k (b + a * 6)) as [->|]; [auto|].
      right; right; exists k; split; [lia|exact Hke].
Qed.
End FreeMap.

Lemma init_free_segmap_ok (g : geometry) (si : sit_info) (cs : list curseg_info)
  (Hg : geo_wf g)
  (Hcs : forall k, 0 <= k < nr_mlog g * 6 -> 0 <= cs_segno (cs.[k]) < main_segments g) :
  let fi := init_free_segmap g si cs (build_free_segmap g) in
  free_wf g fi /\
  forall i, 0 <= i < main_segments g ->
    seg_used fi i = true <->
    valid_blocks (get_seg_entry si i) <> 0 \/
    exists k, 0 <= k < nr_mlog g * 6 /\ cs_segno (cs.[k]) = i.
Proof.
  assert (Hall : forall i, 0 <= i < main_segments g -> seg_used (build_free_segmap g) i = true).
  { intros i Hi; unfold seg_used, build_free_segmap, f2fs_bitmap_size, test_bit, MAIN_SEGS; simpl.
    rewrite Z.testbit_ones_nonneg by lia; apply Z.ltb_lt; lia. }
  destruct (init_free_loop g Hg si _ (build_free_segmap_wf g Hg) Hall) as [Hw1 Hb1].
  destruct (init_inuse_loop g Hg cs _ Hw1 Hcs) as [Hw2 Hb2].
  split; [exact Hw2|]; intros i Hi; unfold init_free_segmap.
  rewrite Hb2, Hb1, negb_true_iff, Z.eqb_neq by assumption; reflexivity.
Qed.

(** The example volume's logs lie in the main area, and its free map. *)
Lemma cs_ex_range k :
  0 <= k < nr_mlog geo_ex * 6 -> 0 <= cs_segno (cs_ex.[k]) < main_segments geo_ex.
Proof.
  intros Hk; change (0 <= k < 12) in Hk.
  assert (Hin : forallb (fun k => (0 <=? cs_segno (cs_ex.[k])) && (cs_segno (cs_ex.[k]) <? 32)) (zseq 0 12) = true)
    by reflexivity.
  rewrite forallb_forall in Hin; specialize (Hin k).
  rewrite <- list_elem_of_In, elem_of_zseq in Hin; specialize (Hin ltac:(lia)).
  bool_cases; change (main_segments geo_ex) with 32; lia.
Qed.

Definition fi_ex : free_segmap_info :=
  init_free_segmap geo_ex sit_ex cs_ex (build_free_segmap geo_ex).

Lemma fi_ex_wf : free_wf geo_ex fi_ex.
Proof. apply init_free_segmap_ok; [exact geo_ex_wf|exact cs_ex_range]. Qed.

(** * Theorems *)

(** Every update of the free map keeps the invariant of the component (the
    two counters count the clear bits, and a section is marked used exactly when
    one of its segments is), and changes exactly the bit of its segment:
    [__set_inuse] on a free segment, [__set_free] on a used one, and the
    test-and variants on any segment. *)
Theorem free_segmap_ops_wf (g : geometry) (fi : free_segmap_info) (segno : Z)
  (Hg : geo_wf g) (Hs : 0 <= segno < main_segments g) (Hw : free_wf g fi) :
  (seg_used fi segno = false -> free_wf g (__set_inuse g segno fi)) /\
  (seg_used fi segno = true -> free_wf g (__set_free g segno fi)) /\
  free_wf g (__set_test_and_inuse g segno fi) /\
  free_wf g (__set_test_and_free g segno fi) /\
  free_segmap (__set_test_and_inuse g segno fi) = set_bit segno (free_segmap fi) /\
  free_segmap (__set_test_and_free g segno fi) = clear_bit segno (free_segmap fi).
Proof.
  split; [|split; [|split; [|split; [|split]]]]; intros.
  - apply set_inuse_wf; assumption.
  - apply set_free_wf; assumption.
  - apply set_test_and_inuse_wf; assumption.
  - apply set_test_and_free_wf; assumption.
  - apply set_test_and_inuse_segmap.
  - apply set_test_and_free_segmap; assumption.
Qed.

(** The free map built at mount satisfies the invariant and marks in use
    exactly the segments that hold valid blocks and the current segments of all
    the multi-logs. *)
Theorem init_free_segmap_sound (g : geometry) (si : sit_info) (cs : list curseg_info)
  (Hg : geo_wf g)
  (Hcs : forall k, 0 <= k < nr_mlog g * 6 -> 0 <= cs_segno (cs.[k]) < main_segments g) :
  let fi := init_free_segmap g si cs (build_free_segmap g) in
  free_wf g fi /\
  forall i, 0 <= i < main_segments g ->
    seg_used fi i = true <->
    valid_blocks (get_seg_entry si i) <> 0 \/
    exists k, 0 <= k < nr_mlog g * 6 /\ cs_segno (cs.[k]) = i.
Proof. apply init_free_segmap_ok; assumption. Qed.

(** As long as a free section is left, [get_new_segment] succeeds whatever the
    allocation direction: none of its consistency checks fires, the segment it
    returns was free and is now marked in use, no other segment's bit changes,
    and the map's invariant is kept. *)
Theorem get_new_segment_sound (g : geometry) (cs : list curseg_info) (newseg dir : Z)
  (new_sec : bool) (fi : free_segmap_info)
  (Hg : geo_wf g) (Hw : free_wf g fi) (Hfree : 0 < fr_sections fi)
  (Hn : 0 <= newseg < main_segments g) (Hd : dir = ALLOC_RIGHT \/ dir = ALLOC_LEFT) :
  let '(segno, fi', bug) := get_new_segment g cs newseg new_sec dir fi in
  bug = false /\ 0 <= segno < main_segments g /\ seg_used fi segno = false /\
  free_segmap fi' = set_bit segno (free_segmap fi) /\ free_wf g fi'.
Proof.
  unfold get_new_segment.
  pose proof (choose_segment_free g Hg cs fi newseg new_sec dir Hw Hfree Hn Hd) as Hc.
  destruct (choose_segment g cs fi newseg new_sec dir) as [segno bug]; destruct Hc as (Hs & Hu & ->).
  split; [cbn [orb]; exact Hu|split; [exact Hs|split; [exact Hu|split]]].
  - apply set_inuse_segmap.
  - apply set_inuse_wf; assumption.
Qed.

(** The check for a zone already used by a log looks at the last multi-log
    only: after the nested loops [i < NR_CURSEG_TYPE] holds exactly when a log of
    the last multi-log is in the zone, since the [break] leaves the inner loop. *)
Theorem zone_check_last_mlog (g : geometry) (cs : list curseg_info) (zoneno : Z)
  (Hg : geo_wf g) :
  zone_loop g cs zoneno < NR_CURSEG_TYPE <->
  exists i, 0 <= i < NR_CURSEG_TYPE /\
    cs_zone (cs.[i + (nr_mlog g - 1) * NR_CURSEG_TYPE]) = zoneno.
Proof.
  unfold zone_loop; pose proof (gw_mlog g Hg).
  replace (nr_mlog g) with (nr_mlog g - 1 + 1) at 1 by lia; rewrite for_range_last by lia.
  set (p := fun i => _ =? zoneno); change (Z.to_nat NR_CURSEG_TYPE) with 6%nat.
  destruct (scan_spec p 6 0) as (Hr & Ht & Hf); change NR_CURSEG_TYPE with 6 in *; split.
  - intros Hlt; exists (scan p 6 0); split; [lia|apply Z.eqb_eq, Ht; lia].
  - intros (i & Hi & He); destruct (Z_lt_ge_dec (scan p 6 0) 6); [assumption|].
    assert (p i = true) as Hp by (apply Z.eqb_eq; exact He).
    rewrite Hf in Hp by lia; discriminate.
Qed.

(** When the search runs off the end of the volume and turns left, the attempt
    to move on to another zone changes nothing: the section found first is free
    and lies above the new hint, so the second search never resets [left_start]
    and returns the same section, used zone or not. *)
Theorem left_zone_retry_is_noop (g : geometry) (cs : list curseg_info) (secmap newseg f : Z)
  (Hg : geo_wf g) (Hn : 0 <= newseg < main_segments g) (Hf : free_sec g secmap f)
  (Hleft : ss_go_left (find_other_zone g secmap ALLOC_LEFT (newseg / segs_per_sec g) false
                         (newseg / segs_per_sec g)) = true) :
  find_new_section g cs secmap newseg ALLOC_LEFT =
  (ss_secno (find_other_zone g secmap ALLOC_LEFT (newseg / segs_per_sec g) false
               (newseg / segs_per_sec g)), false).
Proof.
  destruct (secno_bounds g Hg newseg Hn) as (Hb & _).
  destruct (find_other_zone_free g Hg secmap ALLOC_LEFT (newseg / segs_per_sec g) false
     (newseg / segs_per_sec g) f) as (Hfree & Hbug & Hls & _); [assumption|lia|discriminate|].
  unfold find_new_section; cbv zeta.
  set (r := find_other_zone g secmap ALLOC_LEFT _ false _) in *; rewrite Hbug.
  destruct (secs_per_zone g =? 1); [reflexivity|].
  destruct (_ =? GET_ZONENO_FROM_SEGNO g newseg); [reflexivity|].
  destruct (_ && _) eqn:Eleft; [reflexivity|].
  destruct (zone_loop _ _ _ <? _); [|reflexivity].
  rewrite Hleft in *; specialize (Hls eq_refl); cbn in Eleft; apply Z.eqb_neq in Eleft.
  destruct (second_hint_range g Hg (ss_secno r) true) as [Hh Hlt]; [apply Hfree|auto|].
  specialize (Hlt eq_refl); cbn [orb].
  destruct (find_zero_free g secmap _ (ss_secno r) ltac:(split; [apply Hh|apply Z.lt_le_incl, Hlt]) Hfree)
    as [[[_ Hz] _] _].
  unfold find_other_zone at 1 2.
  rewrite (proj2 (Z.leb_gt (MAIN_SECS g) _)) by exact Hz.
  destruct Hfree as [Hfr Hfb]; rewrite Hls, left_loop_stop by (rewrite Z2Nat.id by lia; exact Hfb).
  cbn; f_equal; lia.
Qed.

