(* ===== verification/Sit.v ===== *)
(** The SIT cache: segment entries, their on-disk form, and the accounting of
    valid blocks (src/Max/segment.h, src/Max/segment.c: update_sit_entry and the
    functions around it). *)

From S2P Require Import Prelude Layout Bitops SmState FreeSegmap.

#[local] Ltac Zify.zify_post_hook ::= Z.to_euclidean_division_equations.

(** * Definitions *)

(** ** Segment entries and their raw form *)

Definition seg_info_from_raw_sit (se : seg_entry) (rs : f2fs_sit_entry) : seg_entry :=
  mk_seg_entry (GET_SIT_VBLOCKS rs) (rs_valid_map rs) (GET_SIT_VBLOCKS rs) (rs_valid_map rs)
    (discard_map se) (u8 (GET_SIT_TYPE rs)) (rs_mtime rs).

(** Returns the entry, whose checkpointed fields follow, and the raw entry. *)
Definition seg_info_to_raw_sit (se : seg_entry) : seg_entry * f2fs_sit_entry :=
  let raw_vblocks := u16 (Z.lor (Z.shiftl (se_type se) SIT_VBLOCKS_SHIFT) (valid_blocks se)) in
  let rs := mk_raw_sit raw_vblocks (cur_valid_map se) (se_mtime se) in
  (with_ckpt_valid_blocks (valid_blocks se) (with_ckpt_valid_map (rs_valid_map rs) se), rs).

(** ** Marking and updating *)

Definition __mark_sit_entry_dirty (segno : Z) (si : sit_info) : bool * sit_info :=
  let '(old, m) := test_and_set_bit segno (dirty_sentries_bitmap si) in
  let si := with_dirty_sentries_bitmap m si in
  if negb old then (false, with_dirty_sentries (u32 (dirty_sentries si + 1)) si)
  else (true, si).

Definition set_seg_entry (segno : Z) (se : seg_entry) (si : sit_info) : sit_info :=
  with_sentries ((sentries si).[segno <- se]) si.

Definition __set_sit_entry_type (type segno : Z) (modified : bool) (si : sit_info) : sit_info :=
  let si := set_seg_entry segno (with_se_type (u8 type) (get_seg_entry si segno)) si in
  if modified then snd (__mark_sit_entry_dirty segno si) else si.

(** The part of [update_sit_entry] that works on the entry: the new entry, the
    change of [discard_blks], and whether the bitmap was inconsistent. *)
Definition flip_block (offset del : Z) (se : seg_entry) : seg_entry * Z * bool :=
  if 0 <? del then
    let '(old, m) := f2fs_test_and_set_bit offset (cur_valid_map se) in
    let se := with_cur_valid_map m se in
    let '(oldd, d) := f2fs_test_and_set_bit offset (discard_map se) in
    (with_discard_map d se, if negb oldd then -1 else 0, old)
  else
    let '(old, m) := f2fs_test_and_clear_bit offset (cur_valid_map se) in
    let se := with_cur_valid_map m se in
    let '(oldd, d) := f2fs_test_and_clear_bit offset (discard_map se) in
    (with_discard_map d se, if oldd then 1 else 0, negb old).

Definition update_sit_entry (blkaddr del : Z) (sbi : f2fs_sb_info) : f2fs_sb_info :=
  let g := geo sbi in
  let segno := GET_SEGNO g blkaddr in
  let se := get_seg_entry (sit_i sbi) segno in
  let new_vblocks := valid_blocks se + del in
  let offset := GET_BLKOFF_FROM_SEG0 g blkaddr in
  let sbi := f2fs_bug_on (negb (Z.shiftr new_vblocks 16 =? 0)
                          || (blocks_per_seg g <? new_vblocks)) sbi in
  let se := with_se_mtime (get_mtime sbi) (with_valid_blocks (u16 new_vblocks) se) in
  let sbi := with_sit_i (with_max_mtime (se_mtime se) (sit_i sbi)) sbi in
  let '(se, ddiscard, bad) := flip_block offset del se in
  let sbi := f2fs_bug_on bad sbi in
  let sbi := with_discard_blks (u32 (discard_blks sbi + ddiscard)) sbi in
  let se := if negb (f2fs_test_bit offset (ckpt_valid_map se))
            then with_ckpt_valid_blocks (u16 (ckpt_valid_blocks se + del)) se else se in
  let si := set_seg_entry segno se (sit_i sbi) in
  let si := snd (__mark_sit_entry_dirty segno si) in
  let si := with_written_valid_blocks (u32 (written_valid_blocks si + del)) si in
  let si := if 1 <? segs_per_sec g
            then with_sec_entries
                   ((sec_entries si).[GET_SECNO g segno <-
                      u32 ((sec_entries si).[GET_SECNO g segno] + del)]) si
            else si in
  with_sit_i si sbi.

(** ** The ping-pong SIT blocks *)

(** [current_sit_addr]; the range check it makes sets a flag, see [check_seg_range]. *)
Definition current_sit_addr (si : sit_info) (start : Z) : Z :=
  let offset := SIT_BLOCK_OFFSET start in
  let blk_addr := u32 (sit_base_addr si + offset) in
  if f2fs_test_bit offset (sit_bitmap si) then u32 (blk_addr + sit_blocks si) else blk_addr.

Definition next_sit_addr (si : sit_info) (block_addr : Z) : Z :=
  let block_addr := u64 (block_addr - sit_base_addr si) in
  let block_addr := if block_addr <? sit_blocks si then u64 (block_addr + sit_blocks si)
                    else u64 (block_addr - sit_blocks si) in
  u64 (block_addr + sit_base_addr si).

Definition set_to_next_sit (si : sit_info) (start : Z) : sit_info :=
  with_sit_bitmap (f2fs_change_bit (SIT_BLOCK_OFFSET start) (sit_bitmap si)) si.

#[global] Arguments __mark_sit_entry_dirty : simpl never.
#[global] Arguments flip_block : simpl never.

(** * The invariant of an entry *)

Definition cur_valid (se : seg_entry) (off : Z) : bool := f2fs_test_bit off (cur_valid_map se).
Definition ckpt_valid (se : seg_entry) (off : Z) : bool := f2fs_test_bit off (ckpt_valid_map se).

(** A block that the current state or the last checkpoint refers to. *)
Definition pinned (se : seg_entry) (off : Z) : bool := cur_valid se off || ckpt_valid se off.

Record seg_wf (se : seg_entry) : Prop := {
  sw_cur_len : zlen (cur_valid_map se) = 64;
  sw_ckpt_len : zlen (ckpt_valid_map se) = 64;
  sw_discard_len : zlen (discard_map se) = 64;
  sw_cur_bytes : bytes_wf (cur_valid_map se);
  sw_ckpt_bytes : bytes_wf (ckpt_valid_map se);
  sw_valid : valid_blocks se = count_below (cur_valid se) 512;
  sw_ckpt : ckpt_valid_blocks se = count_below (pinned se) 512;
  sw_discard : forall off, 0 <= off < 512 -> cur_valid se off = true ->
    f2fs_test_bit off (discard_map se) = true;
}.

Lemma seg_wf_valid_range se : seg_wf se -> 0 <= valid_blocks se <= 512.
Proof. intros []; rewrite sw_valid0; apply count_below_range; lia. Qed.

Lemma seg_wf_ckpt_range se : seg_wf se -> valid_blocks se <= ckpt_valid_blocks se <= 512.
Proof.
  intros []; rewrite sw_valid0, sw_ckpt0; split; [|apply count_below_range; lia].
  apply count_below_le; unfold pinned; intros i _ ->; reflexivity.
Qed.

(** The entry written back by [update_sit_entry], for a block that changes state. *)
Definition updated_entry (mtime off del : Z) (se : seg_entry) : seg_entry :=
  let se := with_se_mtime mtime (with_valid_blocks (u16 (valid_blocks se + del)) se) in
  let '(se, _, _) := flip_block off del se in
  if negb (f2fs_test_bit off (ckpt_valid_map se))
  then with_ckpt_valid_blocks (u16 (ckpt_valid_blocks se + del)) se else se.

Lemma updated_ckpt_map mtime off del se :
  ckpt_valid_map (updated_entry mtime off del se) = ckpt_valid_map se.
Proof.
  unfold updated_entry, flip_block; destruct (0 <? del); cbn; destruct (f2fs_test_bit _ _); reflexivity.
Qed.

Lemma updated_cur_valid mtime off del se i :
  0 <= off < 512 -> zlen (cur_valid_map se) = 64 -> 0 <= i ->
  cur_valid (updated_entry mtime off del se) i
  = if i =? off then 0 <? del else cur_valid se i.
Proof.
  intros Ho Hl Hi; unfold updated_entry, flip_block, cur_valid.
  destruct (0 <? del) eqn:E; cbn; (destruct (f2fs_test_bit off (ckpt_valid_map se)); cbn);
    rewrite ?f2fs_test_bit_set, ?f2fs_test_bit_clear by lia; destruct (i =? off); reflexivity.
Qed.

Lemma updated_discard mtime off del se i :
  0 <= off < 512 -> zlen (discard_map se) = 64 -> 0 <= i ->
  f2fs_test_bit i (discard_map (updated_entry mtime off del se))
  = if i =? off then 0 <? del else f2fs_test_bit i (discard_map se).
Proof.
  intros Ho Hl Hi; unfold updated_entry, flip_block.
  destruct (0 <? del) eqn:E; cbn; (destruct (f2fs_test_bit off (ckpt_valid_map se)); cbn);
    rewrite ?f2fs_test_bit_set, ?f2fs_test_bit_clear by lia; destruct (i =? off); reflexivity.
Qed.

(** A block turning valid (invalid) keeps the entry's invariant when it was
    invalid (valid). *)
Lemma updated_entry_wf mtime off del se :
  seg_wf se -> 0 <= off < 512 -> del = 1 \/ del = -1 ->
  cur_valid se off = (del <? 0) -> seg_wf (updated_entry mtime off del se).
Proof.
  intros Hw Ho Hd Hc; pose proof (seg_wf_valid_range se Hw); pose proof (seg_wf_ckpt_range se Hw).
  assert (Hcur : forall i, 0 <= i -> cur_valid (updated_entry mtime off del se) i
     = if i =? off then 0 <? del else cur_valid se i) by
    (intros; apply updated_cur_valid; [|apply Hw|]; assumption).
  assert (Hpin : forall i, 0 <= i -> pinned (updated_entry mtime off del se) i
     = if i =? off then (0 <? del) || ckpt_valid se i else pinned se i).
  { intros; unfold pinned; rewrite Hcur by assumption; unfold ckpt_valid.
    rewrite updated_ckpt_map; destruct (i =? off); reflexivity. }
  assert (Hn1 := count_below_upd (cur_valid se) (cur_valid (updated_entry mtime off del se)) 512 off Ho
    ltac:(intros; rewrite Hcur, (proj2 (Z.eqb_neq _ _)) by lia; reflexivity)).
  assert (Hn2 := count_below_upd (pinned se) (pinned (updated_entry mtime off del se)) 512 off Ho
    ltac:(intros; rewrite Hpin, (proj2 (Z.eqb_neq _ _)) by lia; reflexivity)).
  rewrite Hcur, Z.eqb_refl, Hc in Hn1 by lia; rewrite Hpin, Z.eqb_refl in Hn2 by lia.
  unfold pinned at 3 in Hn2; rewrite Hc in Hn2.
  pose proof (count_below_range (cur_valid (updated_entry mtime off del se)) 512 ltac:(lia)).
  pose proof (count_below_range (pinned (updated_entry mtime off del se)) 512 ltac:(lia)).
  destruct (Hw) as [L1 L2 L3 B1 B2 V C D].
  constructor.
  5: rewrite updated_ckpt_map; assumption.
  7: { intros i Hi; rewrite updated_discard by (assumption || lia); rewrite Hcur by lia.
       destruct (i =? off); [auto|apply D; assumption]. }
  5: rewrite Hn1, <- V.
  6: rewrite Hn2, <- C; unfold ckpt_valid.
  all: unfold updated_entry, flip_block; destruct Hd as [-> | ->]; cbn;
    destruct (f2fs_test_bit off (ckpt_valid_map se)) eqn:E; cbn in *;
    autorewrite with maxrw; auto with maxdb; rewrite ?u16_small; lia.
Qed.

(** * The invariant of the cache *)

Definition discardable (se : seg_entry) : Z := 512 - popcount (discard_map se).

Record sit_wf (g : geometry) (si : sit_info) : Prop := {
  tw_len : zlen (sentries si) = main_segments g;
  tw_seg : forall i, 0 <= i < main_segments g -> seg_wf (get_seg_entry si i);
  tw_seclen : zlen (sec_entries si) = total_sections g;
  tw_sec : 1 < segs_per_sec g -> forall s, 0 <= s < total_sections g ->
    (sec_entries si).[s] =
    sum_below (fun i => valid_blocks (get_seg_entry si (s * segs_per_sec g + i))) (segs_per_sec g);
  tw_dirty : dirty_sentries si =
    count_below (fun i => test_bit i (dirty_sentries_bitmap si)) (main_segments g);
}.

Definition discard_wf (sbi : f2fs_sb_info) : Prop :=
  discard_blks sbi =
  sum_below (fun i => discardable (get_seg_entry (sit_i sbi) i)) (main_segments (geo sbi)).

(** Validity of a block address, now and in the last checkpoint. *)
Definition block_valid (sbi : f2fs_sb_info) (a : Z) : bool :=
  cur_valid (get_seg_entry (sit_i sbi) (GET_SEGNO (geo sbi) a)) (GET_BLKOFF_FROM_SEG0 (geo sbi) a).

Definition block_in_ckpt (sbi : f2fs_sb_info) (a : Z) : bool :=
  ckpt_valid (get_seg_entry (sit_i sbi) (GET_SEGNO (geo sbi) a)) (GET_BLKOFF_FROM_SEG0 (geo sbi) a).

(** * Marking an entry dirty *)

Lemma mark_dirty_sentries segno si :
  sentries (snd (__mark_sit_entry_dirty segno si)) = sentries si.
Proof. unfold __mark_sit_entry_dirty, test_and_set_bit; destruct (test_bit _ _); reflexivity. Qed.

Lemma mark_dirty_bitmap segno si :
  dirty_sentries_bitmap (snd (__mark_sit_entry_dirty segno si))
  = set_bit segno (dirty_sentries_bitmap si).
Proof. unfold __mark_sit_entry_dirty, test_and_set_bit; destruct (test_bit _ _); reflexivity. Qed.

Lemma mark_dirty_sec segno si :
  sec_entries (snd (__mark_sit_entry_dirty segno si)) = sec_entries si.
Proof. unfold __mark_sit_entry_dirty, test_and_set_bit; destruct (test_bit _ _); reflexivity. Qed.

Lemma mark_dirty_count g segno si :
  geo_wf g -> 0 <= segno < main_segments g -> main_segments g < 2 ^ 32 ->
  dirty_sentries si = count_below (fun i => test_bit i (dirty_sentries_bitmap si)) (main_segments g) ->
  dirty_sentries (snd (__mark_sit_entry_dirty segno si))
  = count_below (fun i => test_bit i (set_bit segno (dirty_sentries_bitmap si))) (main_segments g).
Proof.
  intros Hg Hs Hm Hd; rewrite count_set_bit by assumption.
  pose proof (count_below_range (fun i => test_bit i (set_bit segno (dirty_sentries_bitmap si)))
                (main_segments g) ltac:(lia)) as Hr; rewrite count_set_bit in Hr by assumption.
  unfold __mark_sit_entry_dirty, test_and_set_bit.
  destruct (test_bit segno (dirty_sentries_bitmap si)); cbn in *; rewrite ?u32_small; lia.
Qed.

Lemma mark_dirty_wf g segno si :
  geo_wf g -> 0 <= segno < main_segments g -> sit_wf g si ->
  sit_wf g (snd (__mark_sit_entry_dirty segno si)).
Proof.
  intros Hg Hs [T1 T2 T3 T4 T5].
  assert (main_segments g < 2 ^ 32) by (destruct Hg; lia).
  constructor; unfold get_seg_entry in *; rewrite ?mark_dirty_sentries, ?mark_dirty_sec; auto.
  rewrite mark_dirty_bitmap; apply mark_dirty_count; assumption.
Qed.

(** * Writing one entry *)

Lemma get_set_seg_entry g si segno se i :
  zlen (sentries si) = main_segments g -> 0 <= segno < main_segments g ->
  get_seg_entry (set_seg_entry segno se si) i = if segno =? i then se else get_seg_entry si i.
Proof. intros Hl Hs; unfold get_seg_entry, set_seg_entry; cbn; apply aget_aset; lia. Qed.

(** A type change keeps the invariant. *)
Lemma set_type_wf g type segno modified si :
  geo_wf g -> 0 <= segno < main_segments g -> sit_wf g si ->
  sit_wf g (__set_sit_entry_type type segno modified si).
Proof.
  intros Hg Hs Hw; unfold __set_sit_entry_type.
  set (si' := set_seg_entry _ _ si).
  assert (Hw' : sit_wf g si').
  { destruct (Hw) as [T1 T2 T3 T4 T5].
    assert (Hget := fun i => get_set_seg_entry g si segno (with_se_type (u8 type) (get_seg_entry si segno)) i T1 Hs).
    fold si' in Hget; constructor; try assumption.
    - cbn; rewrite zlen_aset; assumption.
    - intros i Hi; rewrite Hget; case_ifs; [destruct (T2 segno Hs); constructor; assumption|auto].
    - intros Hsec s Hr; cbn [sec_entries si' set_seg_entry with_sentries]; rewrite T4 by assumption.
      apply sum_below_ext; intros i Hi; rewrite Hget; case_ifs; [rewrite <- Heqb|]; reflexivity. }
  destruct modified; [apply mark_dirty_wf; assumption|assumption].
Qed.

(** * Updating the state of one block *)

Lemma flip_block_discard off del se :
  0 <= off < 512 -> zlen (discard_map se) = 64 ->
  let '(se', dd, _) := flip_block off del se in discardable se' = discardable se + dd.
Proof.
  intros Ho Hl; unfold flip_block, discardable; destruct (0 <? del); cbn.
  - rewrite popcount_set by lia; destruct (f2fs_test_bit off (discard_map se)); cbn; lia.
  - rewrite popcount_clear by lia; destruct (f2fs_test_bit off (discard_map se)); cbn; lia.
Qed.

Lemma flip_block_dd off del se : let '(_, dd, _) := flip_block off del se in -1 <= dd <= 1.
Proof. unfold flip_block; cbn; case_ifs; lia. Qed.

Lemma discardable_range se : zlen (discard_map se) = 64 -> 0 <= discardable se <= 512.
Proof. intros Hl; unfold discardable; pose proof (popcount_range (discard_map se)); lia. Qed.

Section Update.
Variables (sbi : f2fs_sb_info) (a del : Z).
Let g := geo sbi.
Let segno := GET_SEGNO g a.
Let off := GET_BLKOFF_FROM_SEG0 g a.
Let sbi' := update_sit_entry a del sbi.
Let se := get_seg_entry (sit_i sbi) segno.

(** The parts of the state an update does not touch. *)
Lemma update_frame :
  geo sbi' = geo sbi /\ mount_opt sbi' = mount_opt sbi /\ now sbi' = now sbi /\
  free_i sbi' = free_i sbi /\ dirty_i sbi' = dirty_i sbi /\
  curseg_array sbi' = curseg_array sbi /\ ssa sbi' = ssa sbi /\
  cur_victim_sec sbi' = cur_victim_sec sbi /\ last_victim sbi' = last_victim sbi.
Proof.
  unfold sbi', update_sit_entry, f2fs_bug_on; cbv zeta.
  destruct (negb _ || _); destruct (flip_block _ _ _) as [[? ?] []]; repeat split.
Qed.

Lemma update_sentries :
  sentries (sit_i sbi') = (sentries (sit_i sbi)).[segno <- updated_entry (get_mtime sbi) off del se].
Proof.
  unfold sbi', update_sit_entry, updated_entry, f2fs_bug_on; cbv zeta; fold g segno off se.
  assert (Hm : forall b : bool, get_mtime (if b then set_sbi_flag sbi SBI_NEED_FSCK else sbi) = get_mtime sbi)
    by (intros []; reflexivity); rewrite Hm.
  destruct (negb _ || _), (flip_block _ _ _) as [[s d] []]; cbn;
    destruct (1 <? segs_per_sec g); cbn; rewrite mark_dirty_sentries; reflexivity.
Qed.

Lemma update_sec_entries :
  sec_entries (sit_i sbi') =
  if 1 <? segs_per_sec g
  then (sec_entries (sit_i sbi)).[GET_SECNO g segno <-
         u32 ((sec_entries (sit_i sbi)).[GET_SECNO g segno] + del)]
  else sec_entries (sit_i sbi).
Proof.
  unfold sbi', update_sit_entry, f2fs_bug_on; cbv zeta; fold g segno off se.
  destruct (negb _ || _), (flip_block _ _ _) as [[s d] []]; cbn;
    destruct (1 <? segs_per_sec g); cbn; rewrite !mark_dirty_sec; reflexivity.
Qed.

Lemma update_dirty_bitmap :
  dirty_sentries_bitmap (sit_i sbi') = set_bit segno (dirty_sentries_bitmap (sit_i sbi)).
Proof.
  unfold sbi', update_sit_entry, f2fs_bug_on; cbv zeta; fold g segno off se.
  destruct (negb _ || _), (flip_block _ _ _) as [[s d] []]; cbn;
    destruct (1 <? segs_per_sec g); cbn; rewrite !mark_dirty_bitmap; reflexivity.
Qed.

Lemma update_dirty_count :
  dirty_sentries (sit_i sbi') = dirty_sentries (snd (__mark_sit_entry_dirty segno (sit_i sbi))).
Proof.
  unfold sbi', update_sit_entry, f2fs_bug_on, __mark_sit_entry_dirty, test_and_set_bit; cbv zeta.
  fold g segno off se.
  destruct (negb _ || _), (flip_block _ _ _) as [[s d] []]; cbn;
    destruct (1 <? segs_per_sec g), (test_bit segno (dirty_sentries_bitmap (sit_i sbi))); reflexivity.
Qed.

Lemma update_written :
  written_valid_blocks (sit_i sbi') = u32 (written_valid_blocks (sit_i sbi) + del).
Proof.
  unfold sbi', update_sit_entry, f2fs_bug_on, __mark_sit_entry_dirty, test_and_set_bit; cbv zeta.
  fold g segno off se.
  destruct (negb _ || _), (flip_block _ _ _) as [[s d] []]; cbn;
    destruct (1 <? segs_per_sec g), (test_bit segno (dirty_sentries_bitmap (sit_i sbi))); reflexivity.
Qed.

Hypothesis Hg : geo_wf g.
Hypothesis Hw : sit_wf g (sit_i sbi).
Hypothesis Ha : in_main g a.
Hypothesis Hdel : del = 1 \/ del = -1.
Hypothesis Hc : block_valid sbi a = (del <? 0).

Lemma update_segno_range : 0 <= segno < main_segments g.
Proof. apply GET_SEGNO_range; assumption. Qed.

Lemma update_off_range : 0 <= off < 512.
Proof. apply GET_BLKOFF_range; assumption. Qed.

Lemma update_se_wf : seg_wf se.
Proof. apply Hw, update_segno_range. Qed.

Lemma update_get i :
  get_seg_entry (sit_i sbi') i
  = if segno =? i then updated_entry (get_mtime sbi) off del se else get_seg_entry (sit_i sbi) i.
Proof.
  unfold get_seg_entry at 1; rewrite update_sentries; apply aget_aset.
  rewrite (tw_len g _ Hw); apply update_segno_range.
Qed.

Lemma update_entry_wf : seg_wf (updated_entry (get_mtime sbi) off del se).
Proof. apply updated_entry_wf; auto using update_se_wf, update_off_range. Qed.

Lemma updated_valid_blocks mtime :
  valid_blocks (updated_entry mtime off del se) = valid_blocks se + del.
Proof.
  pose proof (seg_wf_valid_range se update_se_wf) as Hr.
  pose proof (seg_wf_valid_range _ update_entry_wf) as Hr'; unfold updated_entry, flip_block in *.
  assert (Hv : 0 <= valid_blocks se + del).
  { destruct Hdel as [-> | ->]; [lia|].
    pose proof (sw_valid se update_se_wf) as Hv; unfold block_valid in Hc; fold g segno off se in Hc.
    pose proof (count_below_pos (cur_valid se) 512 off update_off_range Hc); lia. }
  destruct Hdel as [-> | ->]; cbn; destruct (f2fs_test_bit _ _); cbn; apply u16_small; lia.
Qed.

(** A consistent update raises no alarm. *)
Lemma update_s_flag : s_flag sbi' = s_flag sbi.
Proof.
  pose proof (updated_valid_blocks 0) as Hv.
  pose proof (seg_wf_valid_range _ update_entry_wf) as Hr.
  rewrite updated_valid_blocks in Hr.
  unfold sbi', update_sit_entry, f2fs_bug_on; cbv zeta; fold g segno off se.
  rewrite blocks_per_seg_512 by assumption.
  assert (Hsh : Z.shiftr (valid_blocks se + del) 16 = 0)
    by (rewrite Z.shiftr_div_pow2 by lia; apply Z.div_small; lia).
  rewrite Hsh, (proj2 (Z.ltb_ge _ _)) by lia; cbn [negb Z.eqb orb].
  unfold block_valid in Hc; fold g segno off se in Hc; unfold cur_valid in Hc.
  unfold flip_block; destruct Hdel as [-> | ->]; cbn in *; rewrite Hc; reflexivity.
Qed.

Lemma update_sec_sum :
  1 < segs_per_sec g -> forall s, 0 <= s < total_sections g ->
  (sec_entries (sit_i sbi')).[s] =
  sum_below (fun i => valid_blocks (get_seg_entry (sit_i sbi') (s * segs_per_sec g + i))) (segs_per_sec g).
Proof.
  intros Hsp s Hs; pose proof update_segno_range as Hsr; destruct (Hw) as [T1 T2 T3 T4 T5].
  destruct (secno_bounds g Hg segno Hsr) as (Hb & Hr & Hm).
  rewrite update_sec_entries, (proj2 (Z.ltb_lt _ _)) by assumption; unfold GET_SECNO.
  set (f := fun i => valid_blocks (get_seg_entry (sit_i sbi) (s * segs_per_sec g + i))).
  destruct (Z.eq_dec s (segno / segs_per_sec g)) as [->|Hne].
  - rewrite aget_aset_eq by lia; rewrite T4 by assumption.
    set (s := segno / segs_per_sec g) in *.
    rewrite (sum_below_upd f (fun i => valid_blocks (get_seg_entry (sit_i sbi') (s * segs_per_sec g + i)))
               (segs_per_sec g) (segno - s * segs_per_sec g)).
    + unfold f; rewrite update_get, Zplus_minus, Z.eqb_refl, updated_valid_blocks; fold se.
      assert (Hub : sum_below f (segs_per_sec g) <= 512 * segs_per_sec g).
      { rewrite <- sum_below_const by lia; apply sum_below_le; intros i Hi.
        apply seg_wf_valid_range, T2; nia. }
      assert (Hlb : valid_blocks se <= sum_below f (segs_per_sec g)).
      { pose proof (sum_below_ge_term f (segs_per_sec g) (segno - s * segs_per_sec g) ltac:(lia)) as Hge.
        unfold f in Hge at 2; rewrite Zplus_minus in Hge; fold se in Hge.
        apply Hge; intros i Hi; apply seg_wf_valid_range, T2; nia. }
      pose proof (seg_wf_valid_range _ update_entry_wf) as Hv; rewrite updated_valid_blocks in Hv.
      fold f; rewrite u32_small; [lia|].
      destruct Hg; nia.
    + lia.
    + intros i Hi Hd; unfold f; rewrite update_get; case_ifs; [lia|reflexivity].
  - rewrite aget_aset_ne by lia; rewrite T4 by assumption; apply sum_below_ext.
    intros i Hi; rewrite update_get; case_ifs; [|reflexivity].
    exfalso; apply Hne; symmetry; apply secno_unique; [assumption|lia|lia].
Qed.

Lemma update_wf : sit_wf g (sit_i sbi').
Proof.
  pose proof update_segno_range as Hsr; destruct (Hw) as [T1 T2 T3 T4 T5]; constructor.
  - rewrite update_sentries, zlen_aset; exact T1.
  - intros i Hi; rewrite update_get; case_ifs; [apply update_entry_wf|auto].
  - rewrite update_sec_entries; case_ifs; rewrite ?zlen_aset; exact T3.
  - exact update_sec_sum.
  - rewrite update_dirty_count, update_dirty_bitmap; apply mark_dirty_count; try assumption.
    destruct Hg; lia.
Qed.

Lemma updated_discardable mtime :
  let '(_, dd, _) := flip_block off del (with_se_mtime mtime (with_valid_blocks (u16 (valid_blocks se + del)) se)) in
  discardable (updated_entry mtime off del se) = discardable se + dd.
Proof.
  unfold updated_entry; set (s0 := with_se_mtime _ _).
  pose proof (flip_block_discard off del s0 update_off_range (sw_discard_len _ update_se_wf)) as Hf.
  destruct (flip_block off del s0) as [[s1 dd] bad]; change (discardable se) with (discardable s0).
  rewrite <- Hf; destruct (negb _); reflexivity.
Qed.

Lemma update_discard : discard_wf sbi -> discard_wf sbi'.
Proof.
  unfold discard_wf; intros Hd; destruct update_frame as (-> & _); fold g in Hd |- *.
  pose proof update_segno_range as Hsr; destruct (Hw) as [T1 T2 T3 T4 T5].
  rewrite (sum_below_upd (fun i => discardable (get_seg_entry (sit_i sbi) i)) _ (main_segments g) segno Hsr)
    by (intros; rewrite update_get; case_ifs; [lia|reflexivity]).
  rewrite update_get, Z.eqb_refl; fold se.
  assert (Hr1 := discardable_range _ (sw_discard_len _ update_entry_wf)).
  assert (Hge := sum_below_ge_term (fun i => discardable (get_seg_entry (sit_i sbi) i)) (main_segments g)
    segno Hsr ltac:(intros; apply discardable_range, T2; assumption)); cbv beta in Hge; fold se in Hge.
  assert (Hub : sum_below (fun i => discardable (get_seg_entry (sit_i sbi) i)) (main_segments g)
     <= 512 * main_segments g).
  { rewrite <- sum_below_const by lia; apply sum_below_le; intros; apply discardable_range, T2; assumption. }
  pose proof (updated_discardable (get_mtime sbi)) as Hud.
  unfold sbi', update_sit_entry, f2fs_bug_on; cbv zeta; fold g segno off se.
  assert (Hm : forall b : bool, get_mtime (if b then set_sbi_flag sbi SBI_NEED_FSCK else sbi) = get_mtime sbi)
    by (intros []; reflexivity); rewrite Hm.
  set (se0 := with_se_mtime _ _) in *; pose proof (flip_block_dd off del se0).
  destruct (flip_block off del se0) as [[s1 dd] bad]; rewrite Hud in *.
  pose proof (discardable_range se (sw_discard_len _ update_se_wf)).
  destruct Hg; destruct (negb _ || _), bad; cbn; rewrite Hd, u32_small; lia.
Qed.

Lemma update_block_valid b :
  in_main g b -> block_valid sbi' b = if b =? a then 0 <? del else block_valid sbi b.
Proof.
  intros Hb; unfold block_valid; destruct update_frame as (-> & _); fold g.
  rewrite update_get; case_ifs; [| | |reflexivity].
  - subst; rewrite updated_cur_valid; fold off; [|apply update_off_range|apply update_se_wf|apply update_off_range].
    rewrite Z.eqb_refl; reflexivity.
  - rewrite updated_cur_valid; [|apply update_off_range|apply update_se_wf|apply GET_BLKOFF_range; assumption].
    rewrite (proj2 (Z.eqb_neq _ _)); [unfold se; rewrite <- Heqb0; reflexivity|].
    intros He; apply Heqb1.
    unfold segno, off in *; rewrite !GET_SEGNO_val in Heqb0 by assumption.
    rewrite !GET_BLKOFF_val in He by assumption; lia.
  - subst; unfold segno in *; congruence.
Qed.

Lemma update_block_in_ckpt b : block_in_ckpt sbi' b = block_in_ckpt sbi b.
Proof.
  unfold block_in_ckpt; destruct update_frame as (-> & _); fold g; rewrite update_get; case_ifs; [|reflexivity].
  unfold ckpt_valid; rewrite updated_ckpt_map; unfold se; rewrite Heqb0; reflexivity.
Qed.
End Update.

(** * The example volume *)

Definition dirty_ex : dirty_seglist_info := mk_dirty_i (replicate 8 0) (replicate 8 0) 0.

Definition sbi_ex : f2fs_sb_info :=
  mk_sbi geo_ex 0 0 1000 (32 * 512) sit_ex fi_ex dirty_ex cs_ex ∅ 0 0 ∅ [] 0 0 (u32 (-1)) [0; 0] 4096 None 0.

Lemma empty_entry_wf : seg_wf inhabitant.
Proof.
  constructor; try reflexivity.
  - apply Forall_replicate; lia.
  - apply Forall_replicate; lia.
  - intros off Ho; unfold cur_valid; rewrite f2fs_test_bit_testbit.
    change (cur_valid_map inhabitant) with (replicate 64 0); rewrite aget_replicate by lia; rewrite Z.bits_0; discriminate.
Qed.

Lemma sit_ex_entry i : get_seg_entry sit_ex i = inhabitant.
Proof.
  unfold get_seg_entry, sit_ex; cbn [sentries].
  destruct (Z_le_gt_dec 0 i), (Z_lt_ge_dec i 32);
    try (apply aget_out; change (~ (0 <= i < 32)); lia).
  apply aget_replicate; lia.
Qed.

Lemma sit_ex_wf : sit_wf geo_ex sit_ex.
Proof.
  constructor; try reflexivity.
  - intros i _; rewrite sit_ex_entry; exact empty_entry_wf.
  - intros _ s Hs; rewrite (sum_below_ext _ (fun _ => 0)) by (intros; rewrite sit_ex_entry; reflexivity).
    cbn [sec_entries sit_ex]; rewrite aget_replicate by exact Hs; reflexivity.
Qed.

Lemma discard_ex_wf : discard_wf sbi_ex.
Proof.
  unfold discard_wf; cbn [sit_i sbi_ex geo].
  rewrite (sum_below_ext _ (fun _ => 512)) by (intros; rewrite sit_ex_entry; reflexivity).
  reflexivity.
Qed.

(** * Theorems *)

(** Marking a block valid that was not, or invalid that was, keeps the SIT
    cache consistent: in every segment [valid_blocks] counts the current bitmap
    and [ckpt_valid_blocks] the blocks pinned by the current state or by the last
    checkpoint, sections sum their segments, the dirty counter and the count of
    discardable blocks are exact; no consistency check fires; the total moves by
    one; and no other block's state, nor the checkpointed bitmap, changes. *)
Theorem update_sit_entry_sound (sbi : f2fs_sb_info) (a del : Z)
  (Hg : geo_wf (geo sbi)) (Hw : sit_wf (geo sbi) (sit_i sbi)) (Hd : discard_wf sbi)
  (Ha : in_main (geo sbi) a) (Hdel : del = 1 \/ del = -1)
  (Hc : block_valid sbi a = (del <? 0)) :
  let sbi' := update_sit_entry a del sbi in
  sit_wf (geo sbi) (sit_i sbi') /\ discard_wf sbi' /\ s_flag sbi' = s_flag sbi /\
  written_valid_blocks (sit_i sbi') = u32 (written_valid_blocks (sit_i sbi) + del) /\
  forall b, in_main (geo sbi) b ->
    block_valid sbi' b = (if b =? a then 0 <? del else block_valid sbi b) /\
    block_in_ckpt sbi' b = block_in_ckpt sbi b.
Proof.
  cbv zeta; split; [apply update_wf; assumption|].
  split; [apply update_discard; assumption|].
  split; [apply update_s_flag; assumption|].
  split; [apply update_written|].
  intros b Hb; split; [apply update_block_valid; assumption|].
  apply update_block_in_ckpt; assumption.
Qed.

(** ** The raw form *)

Lemma raw_vblocks_split t v :
  0 <= t < 64 -> 0 <= v < 1024 ->
  let w := u16 (Z.lor (Z.shiftl t SIT_VBLOCKS_SHIFT) v) in
  Z.land w SIT_VBLOCKS_MASK = v /\
  Z.shiftr (Z.land w (Z.lnot SIT_VBLOCKS_MASK)) SIT_VBLOCKS_SHIFT = t.
Proof.
  intros Ht Hv; change SIT_VBLOCKS_SHIFT with 10; change SIT_VBLOCKS_MASK with (Z.ones 10).
  assert (Hor : Z.lor (Z.shiftl t 10) v = t * 1024 + v).
  { rewrite Z.shiftl_mul_pow2 by lia; pose proof (Z.add_lor_land (t * 2 ^ 10) v).
    enough (Z.land (t * 2 ^ 10) v = 0) by lia.
    apply Z.bits_inj'; intros i Hi; rewrite Z.land_spec, Z.bits_0.
    destruct (Z_lt_ge_dec i 10).
    - rewrite Z.mul_pow2_bits_low by lia; reflexivity.
    - rewrite <- (Z.mod_small v (2 ^ 10)) by lia; rewrite Z.mod_pow2_bits_high by lia.
      apply andb_false_r. }
  cbv zeta; rewrite Hor, u16_small by lia; rewrite Z.land_ones by lia.
  split; [lia|].
  rewrite <- Z.ldiff_land, Z.ldiff_ones_r by lia.
  rewrite Z.shiftr_shiftl_l by lia; rewrite Z.shiftl_0_r, Z.shiftr_div_pow2; lia.
Qed.

Lemma raw_sit_ok (se se0 : seg_entry)
  (Hw : seg_wf se) (Ht : 0 <= se_type se < 64) :
  let '(se', rs) := seg_info_to_raw_sit se in
  seg_info_from_raw_sit se0 rs = with_discard_map (discard_map se0) se' /\
  seg_wf se' /\ ckpt_valid_blocks se' = valid_blocks se /\
  forall off, pinned se' off = cur_valid se off.
Proof.
  pose proof (seg_wf_valid_range se Hw) as Hv.
  destruct (raw_vblocks_split (se_type se) (valid_blocks se) ltac:(lia) ltac:(lia)) as [E1 E2].
  unfold seg_info_to_raw_sit; cbv zeta in *.
  assert (Hpin : forall off, pinned (with_ckpt_valid_blocks (valid_blocks se)
     (with_ckpt_valid_map (cur_valid_map se) se)) off = cur_valid se off)
    by (intros; unfold pinned, cur_valid, ckpt_valid; cbn; apply orb_diag).
  split; [|split; [|split; [reflexivity|exact Hpin]]].
  - unfold seg_info_from_raw_sit, GET_SIT_VBLOCKS, GET_SIT_TYPE; cbn [rs_vblocks rs_valid_map rs_mtime].
    rewrite E1, E2; unfold u8; rewrite Z.mod_small by lia; reflexivity.
  - destruct Hw as [L1 L2 L3 B1 B2 V C D].
    constructor; [exact L1|exact L1|exact L3|exact B1|exact B1|exact V| |exact D].
    cbn; rewrite V; apply count_below_ext; intros; symmetry; apply Hpin.
Qed.

(** Writing a segment entry to its on-disk form and reading it back gives the
    entry: the count, the type (at most 6 bits), the bitmap and the time; and
    writing makes the checkpointed fields of the cached entry equal to the current
    ones, so that the invariant still holds. *)
Theorem sit_entry_round_trip (se se0 : seg_entry)
  (Hw : seg_wf se) (Ht : 0 <= se_type se < 64) :
  let '(se', rs) := seg_info_to_raw_sit se in
  seg_info_from_raw_sit se0 rs = with_discard_map (discard_map se0) se' /\
  seg_wf se' /\ ckpt_valid_blocks se' = valid_blocks se /\
  forall off, pinned se' off = cur_valid se off.
Proof. exact (raw_sit_ok se se0 Hw Ht). Qed.

(** ** The two copies of each SIT block *)

Record sit_area_wf (g : geometry) (si : sit_info) : Prop := {
  sa_base : 0 <= sit_base_addr si;
  sa_blocks : SIT_BLK_CNT g <= sit_blocks si;
  sa_top : sit_base_addr si + 2 * sit_blocks si < 2 ^ 32;
  sa_bitmap : sit_blocks si <= 8 * zlen (sit_bitmap si);
}.

Lemma sit_block_offset_range g si segno :
  geo_wf g -> sit_area_wf g si -> 0 <= segno < main_segments g ->
  0 <= SIT_BLOCK_OFFSET segno < sit_blocks si.
Proof.
  intros [] [] Hs; unfold SIT_BLK_CNT, SIT_BLOCK_OFFSET, MAIN_SEGS in *.
  change SIT_ENTRY_PER_BLOCK with 55 in *; lia.
Qed.

Lemma current_sit_addr_val g si segno :
  geo_wf g -> sit_area_wf g si -> 0 <= segno < main_segments g ->
  current_sit_addr si segno =
  sit_base_addr si + SIT_BLOCK_OFFSET segno +
  (if f2fs_test_bit (SIT_BLOCK_OFFSET segno) (sit_bitmap si) then sit_blocks si else 0).
Proof.
  intros Hg Ha Hs; pose proof (sit_block_offset_range g si segno Hg Ha Hs); destruct Ha.
  unfold current_sit_addr; case_ifs; u32_simpl; lia.
Qed.

Lemma sit_copies (g : geometry) (si : sit_info) (s t : Z)
  (Hg : geo_wf g) (Ha : sit_area_wf g si)
  (Hs : 0 <= s < main_segments g) (Ht : 0 <= t < main_segments g)
  (Hst : SIT_BLOCK_OFFSET s <> SIT_BLOCK_OFFSET t) :
  let cur := current_sit_addr si s in
  let si' := set_to_next_sit si s in
  current_sit_addr si' s = next_sit_addr si cur /\
  next_sit_addr si (next_sit_addr si cur) = cur /\
  next_sit_addr si cur <> cur /\
  current_sit_addr si' t = current_sit_addr si t /\
  next_sit_addr si cur <> current_sit_addr si t.
Proof.
  cbv zeta; set (si' := set_to_next_sit si s).
  assert (Ha' : sit_area_wf g si') by
    (destruct Ha; constructor; cbn; autorewrite with maxrw; assumption).
  pose proof (sit_block_offset_range g si s Hg Ha Hs) as Hos.
  pose proof (sit_block_offset_range g si t Hg Ha Ht) as Hot.
  assert (Hbit : forall o, 0 <= o -> f2fs_test_bit o (sit_bitmap si')
    = xorb (o =? SIT_BLOCK_OFFSET s) (f2fs_test_bit o (sit_bitmap si)))
    by (intros; destruct Ha; apply f2fs_test_bit_change; lia).
  rewrite !(current_sit_addr_val g si'), !(current_sit_addr_val g si) by assumption.
  rewrite !Hbit, Z.eqb_refl, (proj2 (Z.eqb_neq (SIT_BLOCK_OFFSET t) _)) by (auto || lia).
  change (sit_base_addr si') with (sit_base_addr si); change (sit_blocks si') with (sit_blocks si).
  unfold next_sit_addr; destruct Ha.
  set (os := SIT_BLOCK_OFFSET s) in *; set (ot := SIT_BLOCK_OFFSET t) in *.
  rewrite xorb_false_l.
  destruct (f2fs_test_bit os (sit_bitmap si)), (f2fs_test_bit ot (sit_bitmap si)); cbn [xorb negb];
    repeat split; repeat (u64_simpl; case_ifs; try lia); lia.
Qed.

(** The two copies of a SIT block alternate safely: after
    [set_to_next_sit] the current address of the block is the address that
    [next_sit_addr] gave before it, a different one; [next_sit_addr] is its own
    inverse; and the copies of other blocks are neither moved nor overwritten. *)
Theorem sit_ping_pong (g : geometry) (si : sit_info) (s t : Z)
  (Hg : geo_wf g) (Ha : sit_area_wf g si)
  (Hs : 0 <= s < main_segments g) (Ht : 0 <= t < main_segments g)
  (Hst : SIT_BLOCK_OFFSET s <> SIT_BLOCK_OFFSET t) :
  let cur := current_sit_addr si s in
  let si' := set_to_next_sit si s in
  current_sit_addr si' s = next_sit_addr si cur /\
  next_sit_addr si (next_sit_addr si cur) = cur /\
  next_sit_addr si cur <> cur /\
  current_sit_addr si' t = current_sit_addr si t /\
  next_sit_addr si cur <> current_sit_addr si t.
Proof. apply (sit_copies g); assumption. Qed.

