(* ===== verification/DirtySeg.v ===== *)
(** The lists of dirty segments (src/Max/segment.c: __locate_dirty_segment,
    __remove_dirty_segment, locate_dirty_segment, refresh_sit_entry,
    invalidate_blocks, init_dirty_segmap): per type the segments with both valid
    and obsolete blocks, and the prefree segments, which hold none any more. *)

From S2P Require Import Prelude Layout Bitops SmState FreeSegmap Sit.

#[local] Ltac Zify.zify_post_hook ::= Z.to_euclidean_division_equations.

(** * Definitions *)

(** [if (!test_and_set_bit(segno, dirty_segmap[t])) nr_dirty[t]++] *)
Definition dirty_add (segno t : Z) (di : dirty_seglist_info) : dirty_seglist_info :=
  let '(old, m) := test_and_set_bit segno ((dirty_segmap di).[t]) in
  let di := with_dirty_segmap ((dirty_segmap di).[t <- m]) di in
  if negb old then with_nr_dirty ((nr_dirty di).[t <- (nr_dirty di).[t] + 1]) di else di.

(** [if (test_and_clear_bit(segno, dirty_segmap[t])) nr_dirty[t]--] *)
Definition dirty_del (segno t : Z) (di : dirty_seglist_info) : dirty_seglist_info :=
  let '(old, m) := test_and_clear_bit segno ((dirty_segmap di).[t]) in
  let di := with_dirty_segmap ((dirty_segmap di).[t <- m]) di in
  if old then with_nr_dirty ((nr_dirty di).[t <- (nr_dirty di).[t] - 1]) di else di.

Definition __locate_dirty_segment (segno dirty_type : Z) (sbi : f2fs_sb_info) : f2fs_sb_info :=
  if IS_CURSEG (geo sbi) (curseg_array sbi) segno then sbi else
  let sbi := with_dirty_i (dirty_add segno dirty_type (dirty_i sbi)) sbi in
  if dirty_type =? DIRTY then
    let t := se_type (get_seg_entry (sit_i sbi) segno) in
    if DIRTY <=? t then f2fs_bug_on true sbi
    else with_dirty_i (dirty_add segno t (dirty_i sbi)) sbi
  else sbi.

Definition __remove_dirty_segment (segno dirty_type : Z) (sbi : f2fs_sb_info) : f2fs_sb_info :=
  let sbi := with_dirty_i (dirty_del segno dirty_type (dirty_i sbi)) sbi in
  if dirty_type =? DIRTY then
    let t := se_type (get_seg_entry (sit_i sbi) segno) in
    let sbi := with_dirty_i (dirty_del segno t (dirty_i sbi)) sbi in
    if get_valid_blocks (geo sbi) (sit_i sbi) segno (segs_per_sec (geo sbi)) =? 0
    then with_dirty_i (with_victim_secmap
           (clear_bit (GET_SECNO (geo sbi) segno) (victim_secmap (dirty_i sbi))) (dirty_i sbi)) sbi
    else sbi
  else sbi.

Definition locate_dirty_segment (segno : Z) (sbi : f2fs_sb_info) : f2fs_sb_info :=
  if (segno =? NULL_SEGNO) || IS_CURSEG (geo sbi) (curseg_array sbi) segno then sbi else
  let valid_blocks := u16 (get_valid_blocks (geo sbi) (sit_i sbi) segno 0) in
  if valid_blocks =? 0 then
    __remove_dirty_segment segno DIRTY (__locate_dirty_segment segno PRE sbi)
  else if valid_blocks <? blocks_per_seg (geo sbi) then
    __locate_dirty_segment segno DIRTY sbi
  else __remove_dirty_segment segno DIRTY sbi.

Definition refresh_sit_entry (old new : Z) (sbi : f2fs_sb_info) : f2fs_sb_info :=
  let sbi := update_sit_entry new 1 sbi in
  let sbi := if negb (GET_SEGNO (geo sbi) old =? NULL_SEGNO)
             then update_sit_entry old (-1) sbi else sbi in
  let sbi := locate_dirty_segment (GET_SEGNO (geo sbi) old) sbi in
  locate_dirty_segment (GET_SEGNO (geo sbi) new) sbi.

Definition invalidate_blocks (addr : Z) (sbi : f2fs_sb_info) : f2fs_sb_info :=
  let segno := GET_SEGNO (geo sbi) addr in
  let sbi := f2fs_bug_on (addr =? NULL_ADDR) sbi in
  if addr =? NEW_ADDR then sbi else
  let sbi := update_sit_entry addr (-1) sbi in
  locate_dirty_segment segno sbi.

(** [while (1)] over the segments in use; each round moves [offset] past the
    segment it found, so [MAIN_SEGS] rounds are enough. *)
Fixpoint init_dirty_loop (fuel : nat) (offset : Z) (sbi : f2fs_sb_info) : f2fs_sb_info :=
  match fuel with
  | O => sbi
  | S fuel =>
      let segno := find_next_inuse (free_i sbi) (MAIN_SEGS (geo sbi)) offset in
      if MAIN_SEGS (geo sbi) <=? segno then sbi else
      let offset := segno + 1 in
      let valid_blocks := u16 (get_valid_blocks (geo sbi) (sit_i sbi) segno 0) in
      if (valid_blocks =? blocks_per_seg (geo sbi)) || (valid_blocks =? 0)
      then init_dirty_loop fuel offset sbi
      else if blocks_per_seg (geo sbi) <? valid_blocks
      then init_dirty_loop fuel offset (f2fs_bug_on true sbi)
      else init_dirty_loop fuel offset (__locate_dirty_segment segno DIRTY sbi)
  end.

Definition init_dirty_segmap (sbi : f2fs_sb_info) : f2fs_sb_info :=
  init_dirty_loop (S (Z.to_nat (MAIN_SEGS (geo sbi)))) 0 sbi.

(** [build_dirty_segmap], with the victim map of [init_victim_secmap]. *)
Definition build_dirty_segmap (sbi : f2fs_sb_info) : f2fs_sb_info :=
  init_dirty_segmap (with_dirty_i (mk_dirty_i (replicate 8 0) (replicate 8 0) 0) sbi).

(** * Membership *)

Definition in_list (di : dirty_seglist_info) (t segno : Z) : bool :=
  test_bit segno ((dirty_segmap di).[t]).

(** The lists have the eight types and exact counters. *)
Record dirty_cnt_wf (g : geometry) (di : dirty_seglist_info) : Prop := {
  dc_maps : zlen (dirty_segmap di) = NR_DIRTY_TYPE;
  dc_nr : zlen (nr_dirty di) = NR_DIRTY_TYPE;
  dc_cnt : forall t, 0 <= t < NR_DIRTY_TYPE ->
    (nr_dirty di).[t] = count_below (in_list di t) (main_segments g);
}.

Section Lists.
Variables (g : geometry) (di : dirty_seglist_info).
Hypothesis Hd : dirty_cnt_wf g di.

Lemma dirty_add_in segno t u i :
  0 <= t < 8 -> 0 <= segno ->
  in_list (dirty_add segno t di) u i = ((u =? t) && (i =? segno)) || in_list di u i.
Proof.
  intros Ht Hs; unfold dirty_add, test_and_set_bit, in_list; pose proof (dc_maps g di Hd) as Hl.
  change NR_DIRTY_TYPE with 8 in Hl.
  destruct (test_bit segno ((dirty_segmap di).[t])); cbn; rewrite aget_aset by lia;
    rewrite (Z.eqb_sym t u); destruct (Z.eqb_spec u t); subst; rewrite ?test_bit_set by lia; reflexivity.
Qed.

Lemma dirty_del_in segno t u i :
  0 <= t < 8 -> 0 <= segno ->
  in_list (dirty_del segno t di) u i = negb ((u =? t) && (i =? segno)) && in_list di u i.
Proof.
  intros Ht Hs; unfold dirty_del, test_and_clear_bit, in_list; pose proof (dc_maps g di Hd) as Hl.
  change NR_DIRTY_TYPE with 8 in Hl.
  destruct (test_bit segno ((dirty_segmap di).[t])); cbn; rewrite aget_aset by lia;
    rewrite (Z.eqb_sym t u); destruct (Z.eqb_spec u t); subst; rewrite ?test_bit_clear by lia; reflexivity.
Qed.

Lemma dirty_add_nr segno t :
  nr_dirty (dirty_add segno t di) =
  if in_list di t segno then nr_dirty di else (nr_dirty di).[t <- (nr_dirty di).[t] + 1].
Proof. unfold dirty_add, test_and_set_bit, in_list; destruct (test_bit _ _); reflexivity. Qed.

Lemma dirty_del_nr segno t :
  nr_dirty (dirty_del segno t di) =
  if in_list di t segno then (nr_dirty di).[t <- (nr_dirty di).[t] - 1] else nr_dirty di.
Proof. unfold dirty_del, test_and_clear_bit, in_list; destruct (test_bit _ _); reflexivity. Qed.

Lemma dirty_add_maps segno t : zlen (dirty_segmap (dirty_add segno t di)) = zlen (dirty_segmap di).
Proof. unfold dirty_add, test_and_set_bit; destruct (test_bit _ _); cbn; apply zlen_aset. Qed.

Lemma dirty_del_maps segno t : zlen (dirty_segmap (dirty_del segno t di)) = zlen (dirty_segmap di).
Proof. unfold dirty_del, test_and_clear_bit; destruct (test_bit _ _); cbn; apply zlen_aset. Qed.

(** Membership of one segment in one list changes by [d], and so does the counter. *)
Lemma list_change_wf di' segno t d :
  0 <= t < 8 -> 0 <= segno < main_segments g ->
  zlen (dirty_segmap di') = zlen (dirty_segmap di) ->
  (forall u i, 0 <= u < 8 -> 0 <= i -> (u =? t) && (i =? segno) = false -> in_list di' u i = in_list di u i) ->
  d = b2z (in_list di' t segno) - b2z (in_list di t segno) ->
  nr_dirty di' = (if d =? 0 then nr_dirty di else (nr_dirty di).[t <- (nr_dirty di).[t] + d]) ->
  dirty_cnt_wf g di'.
Proof.
  intros Ht Hs Hm Hsame Hdd Hnr; destruct (Hd) as [L1 L2 C]; change NR_DIRTY_TYPE with 8 in *.
  constructor; change NR_DIRTY_TYPE with 8; rewrite ?Hm, ?Hnr; [assumption| |].
  - case_ifs; autorewrite with maxrw; assumption.
  - intros u Hu; destruct (Z.eq_dec u t) as [->|Hne].
    + rewrite (count_below_upd (in_list di t) (in_list di' t) (main_segments g) segno Hs)
        by (intros i Hi Hne; apply Hsame; [assumption|lia|
            rewrite Z.eqb_refl, (proj2 (Z.eqb_neq i segno)) by lia; reflexivity]).
      rewrite <- C by assumption; case_ifs; [lia|rewrite aget_aset_eq; lia].
    + rewrite (count_below_ext (in_list di' u) (in_list di u))
        by (intros i Hi; apply Hsame; [assumption|lia|rewrite (proj2 (Z.eqb_neq u t) Hne); reflexivity]).
      case_ifs; rewrite ?aget_aset_ne by auto; apply C; assumption.
Qed.

Lemma dirty_add_wf segno t :
  0 <= t < 8 -> 0 <= segno < main_segments g -> dirty_cnt_wf g (dirty_add segno t di).
Proof.
  intros Ht Hs.
  apply (list_change_wf _ segno t (1 - b2z (in_list di t segno))); auto using dirty_add_maps.
  - intros u i Hu Hi Hf; rewrite dirty_add_in, Hf by lia; reflexivity.
  - rewrite dirty_add_in, !Z.eqb_refl by lia; reflexivity.
  - rewrite dirty_add_nr; destruct (in_list di t segno); reflexivity.
Qed.

Lemma dirty_del_wf segno t :
  0 <= t < 8 -> 0 <= segno < main_segments g -> dirty_cnt_wf g (dirty_del segno t di).
Proof.
  intros Ht Hs.
  apply (list_change_wf _ segno t (- b2z (in_list di t segno))); auto using dirty_del_maps.
  - intros u i Hu Hi Hf; rewrite dirty_del_in, Hf by lia; reflexivity.
  - rewrite dirty_del_in, !Z.eqb_refl by lia; reflexivity.
  - rewrite dirty_del_nr; destruct (in_list di t segno); reflexivity.
Qed.
End Lists.

(** * Classification of a segment *)

Definition is_cur (sbi : f2fs_sb_info) (segno : Z) : bool :=
  IS_CURSEG (geo sbi) (curseg_array sbi) segno.

Definition seg_valid (sbi : f2fs_sb_info) (segno : Z) : Z :=
  valid_blocks (get_seg_entry (sit_i sbi) segno).

Definition seg_type (sbi : f2fs_sb_info) (segno : Z) : Z :=
  se_type (get_seg_entry (sit_i sbi) segno).

(** Partly valid, not being written: a candidate for cleaning and for reuse. *)
Definition should_be_dirty (sbi : f2fs_sb_info) (segno : Z) : bool :=
  negb (is_cur sbi segno) && (0 <? seg_valid sbi segno) && (seg_valid sbi segno <? 512).

(** In use without a valid block, not being written: free after a checkpoint. *)
Definition should_be_prefree (sbi : f2fs_sb_info) (segno : Z) : bool :=
  negb (is_cur sbi segno) && (seg_valid sbi segno =? 0) && seg_used (free_i sbi) segno.

Record classified (sbi : f2fs_sb_info) (segno : Z) : Prop := {
  cl_dirty : in_list (dirty_i sbi) DIRTY segno = should_be_dirty sbi segno;
  cl_pre : in_list (dirty_i sbi) PRE segno = should_be_prefree sbi segno;
  cl_type : forall t, 0 <= t < 6 ->
    in_list (dirty_i sbi) t segno = should_be_dirty sbi segno && (seg_type sbi segno =? t);
}.

(** What [locate_dirty_segment] needs of the lists: the type lists split the dirty
    list, and a segment listed as prefree has no valid block. *)
Record locatable (sbi : f2fs_sb_info) (segno : Z) : Prop := {
  lo_type : forall t, 0 <= t < 6 ->
    in_list (dirty_i sbi) t segno = in_list (dirty_i sbi) DIRTY segno && (seg_type sbi segno =? t);
  lo_pre : in_list (dirty_i sbi) PRE segno = true -> seg_valid sbi segno = 0;
}.

Lemma classified_locatable sbi segno : classified sbi segno -> locatable sbi segno.
Proof.
  intros [D P T]; constructor.
  - intros t Ht; rewrite T, D by assumption; reflexivity.
  - rewrite P; unfold should_be_prefree; intros H; bool_cases; assumption.
Qed.

Section Locate.
Variables (sbi : f2fs_sb_info) (segno : Z).
Let g := geo sbi.
Hypothesis Hg : geo_wf g.
Hypothesis Hw : sit_wf g (sit_i sbi).
Hypothesis Hd : dirty_cnt_wf g (dirty_i sbi).
Hypothesis Hs : 0 <= segno < main_segments g.
Hypothesis Ht : 0 <= seg_type sbi segno < 6.

(** The list [u] after the call, at [segno], as a function of what it was. *)
Definition located (v t u : Z) (b : bool) : bool :=
  if v =? 0 then (u =? PRE) || (negb (u =? DIRTY) && negb (u =? t) && b)
  else if v <? 512 then (u =? DIRTY) || (u =? t) || b
  else negb (u =? DIRTY) && negb (u =? t) && b.

Lemma remove_dirty_shape :
  exists di', __remove_dirty_segment segno DIRTY sbi = with_dirty_i di' sbi /\
    dirty_cnt_wf g di' /\
    forall u i, 0 <= u < 8 -> 0 <= i ->
      in_list di' u i = negb (((u =? DIRTY) || (u =? seg_type sbi segno)) && (i =? segno))
                        && in_list (dirty_i sbi) u i.
Proof.
  unfold __remove_dirty_segment; change (DIRTY =? DIRTY) with true; cbv iota zeta.
  fold (seg_type sbi segno); set (t := seg_type sbi segno) in *.
  cbn [dirty_i with_dirty_i geo sit_i]; fold g; fold (seg_type sbi segno); fold t.
  assert (Hd1 := dirty_del_wf g (dirty_i sbi) Hd segno DIRTY ltac:(unfold DIRTY; lia) Hs).
  assert (Hd2 := dirty_del_wf g _ Hd1 segno t ltac:(lia) Hs).
  assert (Hin : forall u i, 0 <= u < 8 -> 0 <= i ->
     in_list (dirty_del segno t (dirty_del segno DIRTY (dirty_i sbi))) u i
     = negb (((u =? DIRTY) || (u =? t)) && (i =? segno)) && in_list (dirty_i sbi) u i).
  { intros u i Hu Hi; rewrite (dirty_del_in g) by (assumption || lia).
    rewrite (dirty_del_in g) by (assumption || (unfold DIRTY; lia)).
    destruct (u =? DIRTY), (u =? t), (i =? segno); reflexivity. }
  case_ifs; (eexists; split; [reflexivity|split; [|exact Hin]]); [|exact Hd2].
  destruct Hd2; constructor; assumption.
Qed.

Lemma locate_dirty_shape :
  is_cur sbi segno = false ->
  exists di', __locate_dirty_segment segno DIRTY sbi = with_dirty_i di' sbi /\
    dirty_cnt_wf g di' /\
    forall u i, 0 <= u < 8 -> 0 <= i ->
      in_list di' u i = (((u =? DIRTY) || (u =? seg_type sbi segno)) && (i =? segno))
                        || in_list (dirty_i sbi) u i.
Proof.
  unfold is_cur; intros Hc; unfold __locate_dirty_segment; rewrite Hc.
  change (DIRTY =? DIRTY) with true; cbv iota zeta.
  cbn [dirty_i with_dirty_i geo sit_i]; fold (seg_type sbi segno); set (t := seg_type sbi segno) in *.
  rewrite (proj2 (Z.leb_gt DIRTY t)) by (unfold DIRTY; lia).
  assert (Hd1 := dirty_add_wf g (dirty_i sbi) Hd segno DIRTY ltac:(unfold DIRTY; lia) Hs).
  eexists; split; [reflexivity|split; [apply dirty_add_wf; [exact Hd1|lia|exact Hs]|]].
  intros u i Hu Hi; rewrite (dirty_add_in g) by (assumption || lia).
  rewrite (dirty_add_in g) by (assumption || (unfold DIRTY; lia)).
  destruct (u =? DIRTY), (u =? t), (i =? segno); reflexivity.
Qed.

Lemma locate_pre_shape :
  is_cur sbi segno = false ->
  exists di', __locate_dirty_segment segno PRE sbi = with_dirty_i di' sbi /\
    dirty_cnt_wf g di' /\
    forall u i, 0 <= u < 8 -> 0 <= i ->
      in_list di' u i = ((u =? PRE) && (i =? segno)) || in_list (dirty_i sbi) u i.
Proof.
  unfold is_cur; intros Hc; unfold __locate_dirty_segment; rewrite Hc.
  change (PRE =? DIRTY) with false; cbv iota zeta.
  eexists; split; [reflexivity|split; [apply dirty_add_wf; [exact Hd|unfold PRE; lia|exact Hs]|]].
  intros u i Hu Hi; rewrite (dirty_add_in g) by (assumption || (unfold PRE; lia)); reflexivity.
Qed.
End Locate.

Lemma with_dirty_i_same sbi : with_dirty_i (dirty_i sbi) sbi = sbi.
Proof. destruct sbi; reflexivity. Qed.

Section LocateAll.
Variables (sbi : f2fs_sb_info) (segno : Z).
Let g := geo sbi.
Hypothesis Hg : geo_wf g.
Hypothesis Hw : sit_wf g (sit_i sbi).
Hypothesis Hd : dirty_cnt_wf g (dirty_i sbi).
Hypothesis Hs : 0 <= segno < main_segments g.
Hypothesis Ht : 0 <= seg_type sbi segno < 6.

(** The call changes the lists only, and those at [segno] only. *)
Lemma locate_shape :
  exists di', locate_dirty_segment segno sbi = with_dirty_i di' sbi /\
    dirty_cnt_wf g di' /\
    forall u i, 0 <= u < 8 -> 0 <= i ->
      in_list di' u i =
      if (i =? segno) && negb (is_cur sbi segno)
      then located (seg_valid sbi segno) (seg_type sbi segno) u (in_list (dirty_i sbi) u i)
      else in_list (dirty_i sbi) u i.
Proof.
  unfold locate_dirty_segment; fold (is_cur sbi segno); fold g.
  rewrite (proj2 (Z.eqb_neq segno NULL_SEGNO)) by (apply (NULL_SEGNO_out g); assumption); cbn [orb].
  destruct (is_cur sbi segno) eqn:Hc.
  { exists (dirty_i sbi); rewrite with_dirty_i_same; split; [reflexivity|split; [assumption|]].
    intros u i _ _; rewrite andb_false_r; reflexivity. }
  pose proof (seg_wf_valid_range _ (tw_seg g _ Hw segno Hs)) as Hv.
  unfold get_valid_blocks; change (1 <? 0) with false; cbv iota; fold (seg_valid sbi segno) in *.
  rewrite u16_small by lia; rewrite blocks_per_seg_512 by assumption.
  unfold located; set (v := seg_valid sbi segno) in *.
  destruct (v =? 0) eqn:E0; [|destruct (v <? 512) eqn:E1].
  - destruct (locate_pre_shape sbi segno Hd Hs Ht Hc) as (d1 & -> & Hd1 & Hin1).
    destruct (remove_dirty_shape (with_dirty_i d1 sbi) segno Hd1 Hs Ht) as (d2 & E2 & Hd2 & Hin2).
    exists d2; split; [exact E2|split; [exact Hd2|]]; intros u i Hu Hi.
    rewrite Hin2 by assumption; cbn [dirty_i with_dirty_i]; rewrite Hin1 by assumption.
    change (seg_type (with_dirty_i d1 sbi) segno) with (seg_type sbi segno).
    destruct (Z.eqb_spec u PRE), (Z.eqb_spec u DIRTY), (Z.eqb_spec u (seg_type sbi segno)), (i =? segno);
      unfold PRE, DIRTY in *; try lia; reflexivity.
  - destruct (locate_dirty_shape sbi segno Hd Hs Ht Hc) as (d1 & E & Hd1 & Hin1).
    exists d1; split; [exact E|split; [exact Hd1|]]; intros u i Hu Hi.
    rewrite Hin1 by assumption.
    destruct (i =? segno), (u =? DIRTY), (u =? seg_type sbi segno); reflexivity.
  - destruct (remove_dirty_shape sbi segno Hd Hs Ht) as (d1 & E & Hd1 & Hin1).
    exists d1; split; [exact E|split; [exact Hd1|]]; intros u i Hu Hi.
    rewrite Hin1 by assumption.
    destruct (i =? segno), (u =? DIRTY), (u =? seg_type sbi segno); reflexivity.
Qed.

(** The call puts the segment where it belongs. *)
Lemma locate_classified :
  locatable sbi segno -> is_cur sbi segno = false -> seg_used (free_i sbi) segno = true ->
  classified (locate_dirty_segment segno sbi) segno.
Proof.
  intros [LT LP] Hc Hu; destruct locate_shape as (di' & -> & _ & Hin).
  pose proof (seg_wf_valid_range _ (tw_seg g _ Hw segno Hs)) as Hv; fold (seg_valid sbi segno) in Hv.
  assert (Hin' : forall u, 0 <= u < 8 -> in_list di' u segno
     = located (seg_valid sbi segno) (seg_type sbi segno) u (in_list (dirty_i sbi) u segno))
    by (intros u Hu'; rewrite Hin, Z.eqb_refl, Hc by lia; reflexivity).
  assert (HD : should_be_dirty (with_dirty_i di' sbi) segno
     = (0 <? seg_valid sbi segno) && (seg_valid sbi segno <? 512))
    by (unfold should_be_dirty; change (is_cur (with_dirty_i di' sbi) segno) with (is_cur sbi segno);
        rewrite Hc; reflexivity).
  assert (HP : should_be_prefree (with_dirty_i di' sbi) segno = (seg_valid sbi segno =? 0))
    by (unfold should_be_prefree; change (is_cur (with_dirty_i di' sbi) segno) with (is_cur sbi segno);
        rewrite Hc; cbn; rewrite Hu, andb_true_r; reflexivity).
  constructor; cbn [dirty_i with_dirty_i]; rewrite ?HD, ?HP;
    change (seg_type (with_dirty_i di' sbi) segno) with (seg_type sbi segno).
  all: set (v := seg_valid sbi segno) in *; clear HD HP Hin.
  - rewrite Hin' by (unfold DIRTY; lia); unfold located; change (DIRTY =? DIRTY) with true.
    change (DIRTY =? PRE) with false.
    destruct (Z.eqb_spec v 0), (Z.ltb_spec v 512), (Z.ltb_spec 0 v); try lia; reflexivity.
  - rewrite Hin' by (unfold PRE; lia); unfold located; change (PRE =? DIRTY) with false.
    change (PRE =? PRE) with true; rewrite (proj2 (Z.eqb_neq PRE (seg_type sbi segno))) by (unfold PRE; lia).
    destruct (Z.eqb_spec v 0) as [|Hv0]; [reflexivity|].
    assert (Hp : in_list (dirty_i sbi) PRE segno = false) by (apply not_true_is_false; auto).
    rewrite Hp; destruct (v <? 512); reflexivity.
  - intros t Htt; rewrite Hin' by lia; unfold located; rewrite LT by assumption.
    rewrite (proj2 (Z.eqb_neq t PRE)), (proj2 (Z.eqb_neq t DIRTY)) by (unfold PRE, DIRTY; lia).
    rewrite (Z.eqb_sym t (seg_type sbi segno)).
    destruct (Z.eqb_spec v 0), (Z.ltb_spec v 512), (Z.ltb_spec 0 v), (seg_type sbi segno =? t);
      try lia; cbn; rewrite ?andb_false_r; reflexivity.
Qed.

(** Other segments keep their classification. *)
Lemma locate_other i :
  i <> segno -> 0 <= i -> classified sbi i -> classified (locate_dirty_segment segno sbi) i.
Proof.
  intros Hne Hi [D P T]; destruct locate_shape as (di' & -> & _ & Hin).
  assert (Hin' : forall u, 0 <= u < 8 -> in_list di' u i = in_list (dirty_i sbi) u i)
    by (intros u Hu; rewrite Hin, (proj2 (Z.eqb_neq i segno)) by lia; reflexivity).
  constructor; cbn [dirty_i with_dirty_i].
  - rewrite Hin' by (unfold DIRTY; lia); exact D.
  - rewrite Hin' by (unfold PRE; lia); exact P.
  - intros t Htt; rewrite Hin' by lia; apply T; assumption.
Qed.

Lemma locate_cur :
  is_cur sbi segno = true -> locate_dirty_segment segno sbi = sbi.
Proof.
  unfold is_cur, locate_dirty_segment; intros ->; rewrite orb_true_r; reflexivity.
Qed.
End LocateAll.

(** * Theorems *)

(** The segments of all the lists are in the main area and their types are logs'. *)
Record dirty_wf (sbi : f2fs_sb_info) : Prop := {
  dw_cnt : dirty_cnt_wf (geo sbi) (dirty_i sbi);
  dw_types : forall i, 0 <= i < main_segments (geo sbi) -> 0 <= seg_type sbi i < 6;
  dw_class : forall i, 0 <= i < main_segments (geo sbi) -> classified sbi i;
}.

(** [locate_dirty_segment] restores the classification of a segment whose count
    of valid blocks has changed: afterwards it is in the prefree list exactly when
    it holds no valid block, in the dirty list and in its type's list exactly when
    it is partly valid, and in no list when it is full; the counters stay exact and
    every other segment and every other part of the state stays as it was. *)
Theorem locate_dirty_segment_sound (sbi : f2fs_sb_info) (segno i : Z)
  (Hg : geo_wf (geo sbi)) (Hw : sit_wf (geo sbi) (sit_i sbi))
  (Hd : dirty_cnt_wf (geo sbi) (dirty_i sbi))
  (Hs : 0 <= segno < main_segments (geo sbi)) (Ht : 0 <= seg_type sbi segno < 6)
  (Hl : locatable sbi segno) (Hc : is_cur sbi segno = false)
  (Hu : seg_used (free_i sbi) segno = true)
  (Hi : 0 <= i) (Hne : i <> segno) (Hci : classified sbi i) :
  let sbi' := locate_dirty_segment segno sbi in
  classified sbi' segno /\ classified sbi' i /\
  dirty_cnt_wf (geo sbi) (dirty_i sbi') /\ sbi' = with_dirty_i (dirty_i sbi') sbi.
Proof.
  split; [apply locate_classified; assumption|].
  split; [apply locate_other; assumption|].
  destruct (locate_shape sbi segno Hg Hw Hd Hs Ht) as (di' & -> & Hd' & _).
  split; [exact Hd'|reflexivity].
Qed.

(** The example volume with one block written in segment 1. *)
Definition sbi_one : f2fs_sb_info :=
  update_sit_entry 2048 1
    (with_free_i (__set_test_and_inuse geo_ex 1 fi_ex) sbi_ex).

Lemma dirty_ex_wf : dirty_cnt_wf geo_ex dirty_ex.
Proof.
  constructor; try reflexivity; intros t Ht; cbn [nr_dirty dirty_segmap dirty_ex].
  rewrite aget_replicate by exact Ht; symmetry; apply count_below_none; intros i _.
  unfold in_list, dirty_ex; cbn [dirty_segmap]; rewrite aget_replicate by exact Ht; apply Z.bits_0.
Qed.

Lemma dirty_ex_empty t i : 0 <= t < 8 -> in_list dirty_ex t i = false.
Proof.
  intros Ht; unfold in_list, dirty_ex; cbn [dirty_segmap].
  rewrite aget_replicate by exact Ht; apply Z.bits_0.
Qed.

Lemma sbi_one_wf : sit_wf geo_ex (sit_i sbi_one).
Proof.
  apply (update_wf (with_free_i (__set_test_and_inuse geo_ex 1 fi_ex) sbi_ex) 2048 1);
    [exact geo_ex_wf|exact sit_ex_wf|vm_compute; split; congruence|left; reflexivity|vm_compute; reflexivity].
Qed.

(** ** Construction at mount *)

(** The list [u] a segment belongs to when nothing is prefree. *)
Definition mount_class (sbi : f2fs_sb_info) (u i : Z) : bool :=
  should_be_dirty sbi i && ((u =? DIRTY) || (u =? seg_type sbi i)).

Section Mount.
Variable sbi : f2fs_sb_info.
Let g := geo sbi.
Hypothesis Hg : geo_wf g.
Hypothesis Hw : sit_wf g (sit_i sbi).
Hypothesis Hty : forall i, 0 <= i < main_segments g -> 0 <= seg_type sbi i < 6.
Hypothesis Hfree : forall i, 0 <= i < main_segments g ->
  seg_used (free_i sbi) i = true <-> seg_valid sbi i <> 0 \/ is_cur sbi i = true.

Lemma mount_class_unused i u :
  0 <= i < main_segments g -> seg_used (free_i sbi) i = false -> mount_class sbi u i = false.
Proof.
  intros Hi Hu; unfold mount_class, should_be_dirty.
  assert (seg_valid sbi i = 0) as ->; [|rewrite andb_false_r; reflexivity].
  destruct (Z.eq_dec (seg_valid sbi i) 0); [assumption|].
  rewrite (proj2 (Hfree i Hi)) in Hu by auto; discriminate.
Qed.

Lemma init_dirty_loop_ok fuel offset di :
  0 <= offset <= main_segments g -> main_segments g - offset < Z.of_nat fuel ->
  dirty_cnt_wf g di ->
  (forall u i, 0 <= u < 8 -> 0 <= i < main_segments g ->
     in_list di u i = (i <? offset) && mount_class sbi u i) ->
  exists di', init_dirty_loop fuel offset (with_dirty_i di sbi) = with_dirty_i di' sbi /\
    dirty_cnt_wf g di' /\
    forall u i, 0 <= u < 8 -> 0 <= i < main_segments g -> in_list di' u i = mount_class sbi u i.
Proof.
  revert offset di; induction fuel as [|fuel IH]; intros offset di Ho Hf Hd Hin; [lia|].
  cbn [init_dirty_loop]; cbn [free_i geo sit_i with_dirty_i]; fold g; unfold MAIN_SEGS, find_next_inuse.
  destruct (find_next_spec (fun i => test_bit i (free_segmap (free_i sbi))) (main_segments g) offset Ho)
    as (Hr & Ht & Hff); fold (find_next_bit (free_segmap (free_i sbi)) (main_segments g) offset) in *.
  set (s := find_next_bit _ _ _) in *.
  assert (Hskip : forall u i, 0 <= i < main_segments g -> offset <= i < s -> mount_class sbi u i = false)
    by (intros u i Hi Hos; apply mount_class_unused; [assumption|apply Hff; assumption]).
  destruct (main_segments g <=? s) eqn:E; bool_cases.
  { exists di; split; [reflexivity|split; [assumption|]]; intros u i Hu Hi; rewrite Hin by assumption.
    destruct (Z.ltb_spec i offset); [reflexivity|rewrite Hskip by lia; reflexivity]. }
  pose proof (seg_wf_valid_range _ (tw_seg g _ Hw s ltac:(lia))) as Hv.
  unfold get_valid_blocks; change (1 <? 0) with false; cbv iota; fold (seg_valid sbi s) in *.
  rewrite u16_small, blocks_per_seg_512 by (assumption || lia).
  assert (Hstep : forall u i, 0 <= u < 8 -> 0 <= i < main_segments g -> i <> s ->
     in_list di u i = (i <? s + 1) && mount_class sbi u i).
  { intros u i Hu Hi Hne; rewrite Hin by assumption.
    destruct (Z.ltb_spec i offset), (Z.ltb_spec i (s + 1)); try lia; try reflexivity.
    rewrite Hskip by lia; reflexivity. }
  assert (Hs0 : forall u, 0 <= u < 8 -> in_list di u s = false)
    by (intros u Hu; rewrite Hin, (proj2 (Z.ltb_ge s offset)) by lia; reflexivity).
  destruct ((seg_valid sbi s =? 512) || (seg_valid sbi s =? 0)) eqn:Efull.
  { apply IH; [lia|lia|assumption|]; intros u i Hu Hi; destruct (Z.eq_dec i s) as [->|]; [|auto].
    rewrite Hs0 by assumption; unfold mount_class, should_be_dirty; apply orb_true_iff in Efull.
    destruct Efull as [Ef|Ef]; apply Z.eqb_eq in Ef; rewrite Ef; cbn; rewrite ?andb_false_r; reflexivity. }
  rewrite (proj2 (Z.ltb_ge 512 (seg_valid sbi s))) by lia; bool_cases.
  destruct (is_cur sbi s) eqn:Ec.
  { unfold __locate_dirty_segment; cbn [geo curseg_array with_dirty_i].
    fold (is_cur sbi s); rewrite Ec.
    apply IH; [lia|lia|assumption|]; intros u i Hu Hi; destruct (Z.eq_dec i s) as [->|]; [|auto].
    rewrite Hs0 by assumption; unfold mount_class, should_be_dirty; rewrite Ec; cbn; rewrite andb_false_r.
    reflexivity. }
  destruct (locate_dirty_shape (with_dirty_i di sbi) s Hd ltac:(split; [lia|assumption]) (Hty s ltac:(lia)) Ec)
    as (d1 & E1 & Hd1 & Hin1); rewrite E1.
  change (with_dirty_i d1 (with_dirty_i di sbi)) with (with_dirty_i d1 sbi).
  apply IH; [lia|lia|exact Hd1|]; intros u i Hu Hi; rewrite Hin1 by lia.
  change (seg_type (with_dirty_i di sbi) s) with (seg_type sbi s); cbn [dirty_i with_dirty_i].
  destruct (Z.eqb_spec i s) as [->|Hne]; [|rewrite andb_false_r; cbn; auto].
  rewrite Hs0, (proj2 (Z.ltb_lt s (s + 1))) by lia.
  assert (Hsd : should_be_dirty sbi s = true) by
    (unfold should_be_dirty; rewrite Ec, (proj2 (Z.ltb_lt 0 _)), (proj2 (Z.ltb_lt _ 512)) by lia; reflexivity).
  unfold mount_class; rewrite Hsd, andb_true_r, orb_false_r; reflexivity.
Qed.

Lemma build_dirty_segmap_ok :
  exists di', build_dirty_segmap sbi = with_dirty_i di' sbi /\ dirty_wf (build_dirty_segmap sbi).
Proof.
  unfold build_dirty_segmap, init_dirty_segmap; cbn [geo with_dirty_i]; fold g.
  set (di0 := mk_dirty_i _ _ _).
  assert (He : forall u i, 0 <= u < 8 -> in_list di0 u i = false)
    by (intros u i Hu; unfold in_list, di0; cbn [dirty_segmap]; rewrite aget_replicate by exact Hu; apply Z.bits_0).
  assert (Hd0 : dirty_cnt_wf g di0).
  { constructor; try reflexivity; intros t Ht; unfold di0; cbn [nr_dirty]; rewrite aget_replicate by exact Ht.
    symmetry; apply count_below_none; intros; apply He; exact Ht. }
  pose proof (main_segments_bound g Hg) as HM.
  destruct (init_dirty_loop_ok (S (Z.to_nat (MAIN_SEGS g))) 0 di0) as (di' & E & Hd' & Hin);
    [lia|unfold MAIN_SEGS; lia|exact Hd0| |].
  { intros u i Hu Hi; rewrite He, (proj2 (Z.ltb_ge i 0)) by lia; reflexivity. }
  rewrite E; exists di'; split; [reflexivity|].
  constructor; [exact Hd'|exact Hty|]; cbn [geo with_dirty_i]; fold g; intros i Hi.
  constructor; cbn [dirty_i with_dirty_i].
  - rewrite Hin by (unfold DIRTY; lia); unfold mount_class; change (DIRTY =? DIRTY) with true.
    apply andb_true_r.
  - rewrite Hin by (unfold PRE; lia); unfold mount_class, should_be_prefree.
    change (PRE =? DIRTY) with false.
    rewrite (proj2 (Z.eqb_neq PRE (seg_type sbi i))) by (unfold PRE; pose proof (Hty i Hi); lia).
    rewrite andb_false_r; cbn [free_i with_dirty_i].
    change (is_cur (with_dirty_i di' sbi) i) with (is_cur sbi i).
    change (seg_valid (with_dirty_i di' sbi) i) with (seg_valid sbi i).
    destruct (is_cur sbi i) eqn:Ec, (Z.eqb_spec (seg_valid sbi i) 0), (seg_used (free_i sbi) i) eqn:Eu;
      try reflexivity; exfalso.
    apply (Hfree i Hi) in Eu; destruct Eu; [contradiction|congruence].
  - intros t Ht; rewrite Hin by lia; unfold mount_class.
    rewrite (proj2 (Z.eqb_neq t DIRTY)) by (unfold DIRTY; lia); rewrite (Z.eqb_sym t); reflexivity.
Qed.
End Mount.

(** At mount, with the free map built from the SIT, [build_dirty_segmap]
    classifies every segment of the main area: the partly valid ones that no log
    is writing are in the dirty list and in the list of their type, no segment is
    prefree, and all counters are exact; the loop over the free map terminates
    having seen every segment. *)
Theorem build_dirty_segmap_sound (sbi : f2fs_sb_info)
  (Hg : geo_wf (geo sbi)) (Hw : sit_wf (geo sbi) (sit_i sbi))
  (Hty : forall i, 0 <= i < main_segments (geo sbi) -> 0 <= seg_type sbi i < 6)
  (Hfree : forall i, 0 <= i < main_segments (geo sbi) ->
     seg_used (free_i sbi) i = true <-> seg_valid sbi i <> 0 \/ is_cur sbi i = true) :
  dirty_wf (build_dirty_segmap sbi) /\
  build_dirty_segmap sbi = with_dirty_i (dirty_i (build_dirty_segmap sbi)) sbi.
Proof.
  destruct (build_dirty_segmap_ok sbi Hg Hw Hty Hfree) as (di' & E & Hd).
  split; [exact Hd|rewrite E; reflexivity].
Qed.

Lemma mount_ex_free i :
  0 <= i < main_segments geo_ex ->
  seg_used fi_ex i = true <->
  seg_valid sbi_ex i <> 0 \/ exists k, 0 <= k < nr_mlog geo_ex * 6 /\ i = cs_segno (cs_ex.[k]).
Proof.
  destruct (init_free_segmap_ok geo_ex sit_ex cs_ex geo_ex_wf cs_ex_range) as [_ Hb].
  intros Hi; unfold fi_ex; rewrite (Hb i Hi); unfold seg_valid; cbn [sit_i sbi_ex].
  split; (intros [|(k & Hk & He)]; [auto|right; exists k; auto]).
Qed.

