(* ===== verification/Victim.v ===== *)
(** Victim selection (src/Max/gc.c): the policy, the cost of a segment, and the
    search shared by garbage collection and by the reuse of dirty segments (SSR). *)

From S2P Require Import Prelude Layout Bitops SmState FreeSegmap Sit DirtySeg.

#[local] Ltac Zify.zify_post_hook ::= Z.to_euclidean_division_equations.

(** * Definitions *)

Record victim_sel_policy := mk_policy {
  p_alloc_mode : Z;
  p_gc_mode : Z;
  p_dirty_segmap : Z;
  p_max_search : Z;
  p_offset : Z;
  p_ofs_unit : Z;
  p_min_cost : Z;
  p_min_segno : Z;
}.

Definition with_p_offset (v : Z) (p : victim_sel_policy) : victim_sel_policy :=
  mk_policy (p_alloc_mode p) (p_gc_mode p) (p_dirty_segmap p) (p_max_search p) v
    (p_ofs_unit p) (p_min_cost p) (p_min_segno p).

Definition with_p_min (cost segno : Z) (p : victim_sel_policy) : victim_sel_policy :=
  mk_policy (p_alloc_mode p) (p_gc_mode p) (p_dirty_segmap p) (p_max_search p) (p_offset p)
    (p_ofs_unit p) cost segno.

Definition UINT_MAX : Z := 2 ^ 32 - 1.

Definition select_gc_type (gc_idle : option Z) (gc_type : Z) : Z :=
  let gc_mode := if gc_type =? BG_GC then GC_CB else GC_GREEDY in
  match gc_idle with
  | Some 1 => GC_CB
  | Some 2 => GC_GREEDY
  | _ => gc_mode
  end.

(** [min_cost] and [min_segno] are set by the caller. *)
Definition select_policy (sbi : f2fs_sb_info) (gc_type type alloc_mode : Z) : victim_sel_policy :=
  let di := dirty_i sbi in
  let '(gc_mode, map, search, unit) :=
    if alloc_mode =? SSR
    then (GC_GREEDY, (dirty_segmap di).[type], (nr_dirty di).[type], 1)
    else (select_gc_type (gc_idle sbi) gc_type, (dirty_segmap di).[DIRTY],
          (nr_dirty di).[DIRTY], segs_per_sec (geo sbi)) in
  let search := u32 search in
  let search := if max_victim_search sbi <? search then max_victim_search sbi else search in
  mk_policy alloc_mode gc_mode map search ((last_victim sbi).[gc_mode]) unit 0 NULL_SEGNO.

Definition get_max_cost (g : geometry) (p : victim_sel_policy) : Z :=
  if p_alloc_mode p =? SSR then Z.shiftl 1 (log_blocks_per_seg g)
  else if p_gc_mode p =? GC_GREEDY
  then u32 (Z.shiftl 1 (log_blocks_per_seg g) * p_ofs_unit p)
  else if p_gc_mode p =? GC_CB then UINT_MAX
  else 0.

(** The [for_each_set_bit] loop over the background victims: the first usable
    section, from [from] on. *)
Definition check_bg_victims (sbi : f2fs_sb_info) : Z * f2fs_sb_info :=
  let m := victim_secmap (dirty_i sbi) in
  let secno := find_next (fun s => test_bit s m && negb (sec_usage_check sbi s))
                         (MAIN_SECS (geo sbi)) 0 in
  if secno <? MAIN_SECS (geo sbi)
  then (u32 (secno * segs_per_sec (geo sbi)),
        with_dirty_i (with_victim_secmap (clear_bit secno m) (dirty_i sbi)) sbi)
  else (NULL_SEGNO, sbi).

(** The cost, and the cache with its bounds on the modification times. *)
Definition get_cb_cost (g : geometry) (si : sit_info) (segno : Z) : Z * sit_info :=
  let secno := GET_SECNO g segno in
  let start := u32 (secno * segs_per_sec g) in
  let mtime := for_range 0 (segs_per_sec g)
                 (fun i t => u64 (t + se_mtime (get_seg_entry si (u32 (start + i))))) 0 in
  let vblocks := get_valid_blocks g si segno (segs_per_sec g) in
  let mtime := mtime / segs_per_sec g in
  let vblocks := vblocks / segs_per_sec g in
  let u := u8 (Z.shiftr (u32 (vblocks * 100)) (log_blocks_per_seg g)) in
  let si := if mtime <? min_mtime si then with_min_mtime mtime si else si in
  let si := if max_mtime si <? mtime then with_max_mtime mtime si else si in
  let age := if max_mtime si =? min_mtime si then 0
             else u8 (100 - u64 (100 * (mtime - min_mtime si)) / (max_mtime si - min_mtime si)) in
  (u32 (UINT_MAX - (100 * (100 - u) * age) / (100 + u)), si).

Definition get_gc_cost (g : geometry) (si : sit_info) (segno : Z) (p : victim_sel_policy) :
  Z * sit_info :=
  if p_alloc_mode p =? SSR then (ckpt_valid_blocks (get_seg_entry si segno), si)
  else if p_gc_mode p =? GC_GREEDY then (get_valid_blocks g si segno (segs_per_sec g), si)
  else get_cb_cost g si segno.

Definition set_last_victim (mode v : Z) (sbi : f2fs_sb_info) : f2fs_sb_info :=
  with_last_victim ((last_victim sbi).[mode <- v]) sbi.

(** One round of the [while (1)] loop: the new state, and whether it goes on. *)
Definition victim_round (gc_type max_cost : Z) (p : victim_sel_policy) (nsearched : Z)
  (sbi : f2fs_sb_info) : victim_sel_policy * Z * f2fs_sb_info * bool :=
  let g := geo sbi in
  let segno := find_next_bit (p_dirty_segmap p) (MAIN_SEGS g) (p_offset p) in
  if MAIN_SEGS g <=? segno then
    if negb ((last_victim sbi).[p_gc_mode p] =? 0)
    then (with_p_offset 0 p, nsearched, set_last_victim (p_gc_mode p) 0 sbi, true)
    else (p, nsearched, sbi, false)
  else
  let offset := u32 (segno + p_ofs_unit p) in
  let offset := if 1 <? p_ofs_unit p then u32 (offset - segno mod p_ofs_unit p) else offset in
  let p := with_p_offset offset p in
  let secno := GET_SECNO g segno in
  if sec_usage_check sbi secno then (p, nsearched, sbi, true)
  else if (gc_type =? BG_GC) && test_bit secno (victim_secmap (dirty_i sbi))
  then (p, nsearched, sbi, true)
  else
  let '(cost, si) := get_gc_cost g (sit_i sbi) segno p in
  let sbi := with_sit_i si sbi in
  if negb (cost <? p_min_cost p) && (cost =? max_cost) then (p, nsearched, sbi, true)
  else
  let p := if cost <? p_min_cost p then with_p_min cost segno p else p in
  if p_max_search p <=? nsearched
  then (p, nsearched + 1, set_last_victim (p_gc_mode p) segno sbi, false)
  else (p, nsearched + 1, sbi, true).

(** The loop; [None] when [fuel] rounds were not enough. *)
Fixpoint victim_loop (fuel : nat) (gc_type max_cost : Z) (p : victim_sel_policy)
  (nsearched : Z) (sbi : f2fs_sb_info) : option (victim_sel_policy * f2fs_sb_info) :=
  match fuel with
  | O => None
  | S fuel =>
      let '(p, nsearched, sbi, more) := victim_round gc_type max_cost p nsearched sbi in
      if more then victim_loop fuel gc_type max_cost p nsearched sbi else Some (p, sbi)
  end.

(** The two sweeps over the segments bound the rounds. *)
Definition victim_fuel (g : geometry) : nat := S (S (Z.to_nat (2 * MAIN_SEGS g))).

(** From the label [got_it]: the result segment when there is one. *)
Definition victim_got_it (gc_type : Z) (p : victim_sel_policy) (sbi : f2fs_sb_info) :
  option Z * f2fs_sb_info :=
  if p_min_segno p =? NULL_SEGNO then (None, sbi) else
  let sbi :=
    if p_alloc_mode p =? LFS then
      let secno := GET_SECNO (geo sbi) (p_min_segno p) in
      if gc_type =? FG_GC then with_cur_victim_sec secno sbi
      else with_dirty_i (with_victim_secmap
             (set_bit secno (victim_secmap (dirty_i sbi))) (dirty_i sbi)) sbi
    else sbi in
  (Some (p_min_segno p / p_ofs_unit p * p_ofs_unit p), sbi).

(** [Some] is a return value of 1 with [*result] set, [None] is 0. *)
Definition get_victim_by_default (gc_type type alloc_mode : Z) (sbi : f2fs_sb_info) :
  option Z * f2fs_sb_info :=
  let p := select_policy sbi gc_type type alloc_mode in
  let max_cost := get_max_cost (geo sbi) p in
  let p := with_p_min max_cost NULL_SEGNO p in
  let search :=
    match victim_loop (victim_fuel (geo sbi)) gc_type max_cost p 0 sbi with
    | Some (p, sbi) => victim_got_it gc_type p sbi
    | None => (None, sbi)
    end in
  if (alloc_mode =? LFS) && (gc_type =? FG_GC) then
    let '(segno, sbi) := check_bg_victims sbi in
    if negb (segno =? NULL_SEGNO)
    then victim_got_it gc_type (with_p_min max_cost segno p) sbi
    else search
  else search.

(** * Termination *)

Section Termination.
Variables (gc_type max_cost : Z).

Definition victim_measure (p : victim_sel_policy) (sbi : f2fs_sb_info) : Z :=
  (if (last_victim sbi).[p_gc_mode p] =? 0 then 0 else MAIN_SEGS (geo sbi) + 1)
  + Z.max 0 (MAIN_SEGS (geo sbi) - p_offset p).

Record round_ok (p : victim_sel_policy) (sbi : f2fs_sb_info) : Prop := {
  ro_geo : geo_wf (geo sbi);
  ro_mode : 0 <= p_gc_mode p < zlen (last_victim sbi);
  ro_unit : p_ofs_unit p = 1 \/ p_ofs_unit p = segs_per_sec (geo sbi);
  ro_off : 0 <= p_offset p;
}.

(** The next offset is past the segment just looked at and inside the area. *)
Lemma next_offset g segno unit :
  geo_wf g -> 0 <= segno < main_segments g -> unit = 1 \/ unit = segs_per_sec g ->
  segno < (if 1 <? unit then u32 (u32 (segno + unit) - segno mod unit) else u32 (segno + unit))
        <= main_segments g.
Proof.
  intros Hg Hs Hu; pose proof (main_segments_bound g Hg).
  destruct (secno_bounds g Hg segno Hs) as (Hb & Hr & Hm); pose proof (gw_segs g Hg).
  destruct Hu as [-> | ->]; [change (1 <? 1) with false; cbv iota; rewrite u32_small; lia|].
  pose proof (Z.div_mod segno (segs_per_sec g) ltac:(lia)).
  pose proof (Z.mod_pos_bound segno (segs_per_sec g) ltac:(lia)).
  destruct (1 <? segs_per_sec g) eqn:E; bool_cases.
  - assert (segs_per_sec g <= main_segments g) by nia.
    unfold u32; rewrite Zminus_mod_idemp_l, Z.mod_small; nia.
  - rewrite u32_small; nia.
Qed.

Lemma victim_round_progress p n sbi p' n' sbi' :
  round_ok p sbi -> victim_round gc_type max_cost p n sbi = (p', n', sbi', true) ->
  round_ok p' sbi' /\ victim_measure p' sbi' < victim_measure p sbi.
Proof.
  intros [Hg Hm Hu Ho]; unfold victim_round; cbv zeta; set (g := geo sbi) in *.
  set (s := find_next_bit (p_dirty_segmap p) (MAIN_SEGS g) (p_offset p)).
  destruct (MAIN_SEGS g <=? s) eqn:E; bool_cases.
  - destruct (negb _) eqn:Elv; [|discriminate]; intros H; injection H as <- <- <-; bool_cases.
    unfold victim_measure, set_last_victim; cbn; fold g; split.
    + constructor; cbn; rewrite ?zlen_aset; assumption || lia.
    + rewrite aget_aset_eq by assumption.
      rewrite (proj2 (Z.eqb_neq ((last_victim sbi).[p_gc_mode p]) 0)) by assumption.
      cbn; unfold MAIN_SEGS; destruct Hg; lia.
  - assert (Hoff : p_offset p <= s /\ 0 <= s < main_segments g).
    { unfold s, find_next_bit in *; destruct (Z_le_gt_dec (p_offset p) (MAIN_SEGS g)).
      - destruct (find_next_spec (fun i => test_bit i (p_dirty_segmap p)) (MAIN_SEGS g) (p_offset p));
          [lia|]; unfold MAIN_SEGS in *; lia.
      - rewrite find_next_ge in E by lia; lia. }
    pose proof (next_offset g s (p_ofs_unit p) Hg ltac:(lia) Hu) as Hnext.
    set (o := if 1 <? p_ofs_unit p then _ else _) in *.
    assert (Hstep : forall q si, p_offset q = o -> p_gc_mode q = p_gc_mode p -> p_ofs_unit q = p_ofs_unit p ->
      round_ok q (with_sit_i si sbi) /\ victim_measure q (with_sit_i si sbi) < victim_measure p sbi).
    { intros q si E1 E2 E3; unfold victim_measure; cbn; fold g; rewrite E1, E2; split.
      - constructor; cbn; rewrite ?E1, ?E2, ?E3; assumption || lia.
      - unfold MAIN_SEGS in *; lia. }
    assert (Heta : with_sit_i (sit_i sbi) sbi = sbi) by (destruct sbi; reflexivity).
    destruct (sec_usage_check sbi _); [|destruct (_ && _)].
    1,2: intros H; injection H as <- <- <-; rewrite <- Heta at 1 2; apply Hstep; reflexivity.
    destruct (get_gc_cost g (sit_i sbi) s (with_p_offset o p)) as [cost si].
    destruct (_ && _); [intros H; injection H as <- <- <-; apply Hstep; reflexivity|].
    destruct (_ <=? n); intros H; [discriminate|]; injection H as <- <- <-.
    apply Hstep; destruct (cost <? _); reflexivity.
Qed.

Lemma victim_loop_total fuel p n sbi :
  round_ok p sbi -> victim_measure p sbi < Z.of_nat fuel ->
  is_Some (victim_loop fuel gc_type max_cost p n sbi).
Proof.
  revert p n sbi; induction fuel as [|fuel IH]; intros p n sbi Hok Hf.
  - unfold victim_measure in Hf; destruct (Hok) as [Hg _ _ _].
    pose proof (main_segments_bound (geo sbi) Hg); unfold MAIN_SEGS in *; destruct (_ =? 0); lia.
  - cbn [victim_loop]; destruct (victim_round _ _ _ _ _) as [[[p' n'] sbi'] more] eqn:E.
    destruct more; [|eauto].
    destruct (victim_round_progress p n sbi p' n' sbi' Hok E) as [Hok' Hlt]; apply IH; [assumption|lia].
Qed.
End Termination.

(** C38: the search for a victim terminates: started from any policy that
    [select_policy] builds, the loop stops within two sweeps over the segments. *)
Theorem victim_search_terminates (sbi : f2fs_sb_info) (gc_type type alloc_mode max_cost cost : Z)
  (Hg : geo_wf (geo sbi)) (Hl : zlen (last_victim sbi) = 2)
  (Hlv : forall m, 0 <= (last_victim sbi).[m])
  (Hm : alloc_mode = LFS \/ alloc_mode = SSR) :
  is_Some (victim_loop (victim_fuel (geo sbi)) gc_type max_cost
             (with_p_min cost NULL_SEGNO (select_policy sbi gc_type type alloc_mode)) 0 sbi).
Proof.
  assert (Hmode : 0 <= p_gc_mode (select_policy sbi gc_type type alloc_mode) < 2).
  { unfold select_policy, select_gc_type; destruct Hm as [-> | ->]; cbn.
    - destruct (gc_idle sbi) as [[|[[]|[]|]|]|]; destruct (gc_type =? BG_GC); cbn; unfold GC_CB, GC_GREEDY; lia.
    - unfold GC_GREEDY; lia. }
  apply victim_loop_total.
  - constructor; cbn; [assumption|rewrite Hl; exact Hmode| |].
    + unfold select_policy; destruct Hm as [-> | ->]; cbn; auto.
    + unfold select_policy; destruct Hm as [-> | ->]; cbn; apply Hlv.
  - unfold victim_measure, victim_fuel; pose proof (main_segments_bound (geo sbi) Hg).
    assert (0 <= p_offset (with_p_min cost NULL_SEGNO (select_policy sbi gc_type type alloc_mode)))
      by (unfold select_policy; destruct Hm as [-> | ->]; cbn; apply Hlv).
    unfold MAIN_SEGS in *; destruct (_ =? 0); lia.
Qed.

Lemma victim_search_terminates_witness :
  is_Some (victim_loop (victim_fuel (geo sbi_ex)) BG_GC UINT_MAX
             (with_p_min UINT_MAX NULL_SEGNO (select_policy sbi_ex BG_GC 0 LFS)) 0 sbi_ex).
Proof.
  apply (victim_search_terminates sbi_ex BG_GC 0 LFS UINT_MAX UINT_MAX geo_ex_wf);
    [reflexivity| |left; reflexivity].
  intros m; unfold aget; cbn [last_victim sbi_ex]; case_ifs; [|reflexivity].
  destruct (Z.to_nat m) as [|[|]]; vm_compute; congruence.
Defined.

(** * The segment found for reuse (SSR) *)

Lemma NULL_SEGNO_pos g : geo_wf g -> main_segments g < NULL_SEGNO.
Proof. intros []; unfold NULL_SEGNO; change (u32 (-1)) with (2 ^ 32 - 1); lia. Qed.

Section Ssr.
Variables (sbi0 : f2fs_sb_info) (gc_type type : Z).
Let g := geo sbi0.
Let map := (dirty_segmap (dirty_i sbi0)).[type].
Let lv0 := (last_victim sbi0).[GC_GREEDY].

(** The segments the search may return, and their cost. *)
Definition ssr_candidate (s : Z) : bool :=
  test_bit s map && negb (sec_usage_check sbi0 (GET_SECNO g s))
  && negb ((gc_type =? BG_GC) && test_bit (GET_SECNO g s) (victim_secmap (dirty_i sbi0))).

Definition ssr_cost (s : Z) : Z := ckpt_valid_blocks (get_seg_entry (sit_i sbi0) s).

Definition ssr_in (s : Z) : bool := (s <? main_segments g) && ssr_candidate s.

Hypothesis Hg : geo_wf g.
Hypothesis Hw : sit_wf g (sit_i sbi0).
Hypothesis Hlv : 0 <= lv0.

Definition ssr_policy (search o mc ms : Z) : victim_sel_policy :=
  mk_policy SSR GC_GREEDY map search o 1 mc ms.

Lemma ssr_round search o mc ms n L :
  0 <= o ->
  let s := find_next_bit map (main_segments g) o in
  victim_round gc_type 512 (ssr_policy search o mc ms) n (with_last_victim L sbi0) =
  if main_segments g <=? s then
    if negb (L.[GC_GREEDY] =? 0)
    then (ssr_policy search 0 mc ms, n, with_last_victim (L.[GC_GREEDY <- 0]) sbi0, true)
    else (ssr_policy search o mc ms, n, with_last_victim L sbi0, false)
  else if negb (ssr_candidate s) || (negb (ssr_cost s <? mc) && (ssr_cost s =? 512))
  then (ssr_policy search (s + 1) mc ms, n, with_last_victim L sbi0, true)
  else
    let p := if ssr_cost s <? mc then ssr_policy search (s + 1) (ssr_cost s) s
             else ssr_policy search (s + 1) mc ms in
    if search <=? n
    then (p, n + 1, with_last_victim (L.[GC_GREEDY <- s]) sbi0, false)
    else (p, n + 1, with_last_victim L sbi0, true).
Proof.
  intros Ho s; unfold victim_round, ssr_policy; cbn [geo with_last_victim p_dirty_segmap p_offset
    p_gc_mode p_ofs_unit last_victim]; fold g; unfold MAIN_SEGS; fold s.
  destruct (main_segments g <=? s) eqn:E; bool_cases; [reflexivity|].
  assert (Hs : test_bit s map = true /\ 0 <= s < main_segments g).
  { unfold s, find_next_bit in *; destruct (Z_le_gt_dec o (main_segments g)).
    - destruct (find_next_spec (fun i => test_bit i map) (main_segments g) o) as (Hr & Ht & _); [lia|].
      split; [apply Ht; lia|lia].
    - rewrite find_next_ge in E by lia; lia. }
  pose proof (main_segments_bound g Hg).
  change (1 <? 1) with false; cbv iota; rewrite u32_small by lia.
  unfold ssr_candidate; rewrite (proj1 Hs); cbn [andb].
  change (sec_usage_check (with_last_victim L sbi0)) with (sec_usage_check sbi0).
  destruct (sec_usage_check sbi0 (GET_SECNO g s)); [reflexivity|].
  cbn [dirty_i with_last_victim negb].
  destruct ((gc_type =? BG_GC) && test_bit (GET_SECNO g s) (victim_secmap (dirty_i sbi0))); [reflexivity|].
  cbn [negb orb andb]; unfold get_gc_cost; change (p_alloc_mode _ =? SSR) with true; cbv iota.
  cbn [sit_i with_last_victim p_min_cost with_p_offset]; fold (ssr_cost s).
  replace (with_sit_i (sit_i sbi0) (with_last_victim L sbi0)) with (with_last_victim L sbi0)
    by (destruct sbi0; reflexivity).
  destruct (_ && _); [reflexivity|].
  destruct (ssr_cost s <? mc); reflexivity.
Qed.

(** The best candidate so far. *)
Definition ssr_best (mc ms : Z) : Prop :=
  (ms = NULL_SEGNO /\ mc = 512) \/
  (0 <= ms < main_segments g /\ ssr_candidate ms = true /\ mc = ssr_cost ms /\ mc < 512).

Definition ssr_opt (mc : Z) (seen : Z -> Prop) : Prop :=
  forall x, 0 <= x < main_segments g -> seen x -> ssr_candidate x = true -> mc <= ssr_cost x.

(** First sweep from [lv0], then (when [lv0] is not 0) one from the start. *)
Inductive ssr_inv (o mc ms n : Z) (L : list Z) : Prop :=
| ssr_first :
    zlen L = 2 -> L.[GC_GREEDY] = lv0 -> lv0 <= o -> ssr_best mc ms ->
    ssr_opt mc (fun x => lv0 <= x < o) ->
    n <= count_below ssr_in o - count_below ssr_in lv0 -> ssr_inv o mc ms n L
| ssr_second :
    zlen L = 2 -> L.[GC_GREEDY] = 0 -> lv0 <> 0 -> 0 <= o -> ssr_best mc ms ->
    ssr_opt mc (fun x => lv0 <= x \/ x < o) ->
    n <= count_below ssr_in (main_segments g) - count_below ssr_in lv0 + count_below ssr_in o ->
    ssr_inv o mc ms n L.

Lemma ssr_cost_le s : 0 <= s < main_segments g -> ssr_cost s <= 512.
Proof. intros Hs; apply seg_wf_ckpt_range, Hw; assumption. Qed.

Lemma no_candidate_before o s x :
  0 <= o -> s = find_next_bit map (main_segments g) o -> o <= x < s -> ssr_candidate x = false.
Proof.
  intros Ho -> Hx; unfold find_next_bit in *; destruct (Z_le_gt_dec o (main_segments g)).
  - destruct (find_next_spec (fun i => test_bit i map) (main_segments g) o) as (_ & _ & Hf); [lia|].
    unfold ssr_candidate; rewrite Hf by assumption; reflexivity.
  - rewrite find_next_ge in Hx by lia; lia.
Qed.

Lemma ssr_advance o mc ms n L s mc' ms' n' :
  0 <= o -> s = find_next_bit map (main_segments g) o -> o <= s < main_segments g ->
  ssr_inv o mc ms n L -> ssr_best mc' ms' -> mc' <= mc ->
  (ssr_candidate s = true -> mc' <= ssr_cost s) -> n' <= n + b2z (ssr_candidate s) ->
  ssr_inv (s + 1) mc' ms' n' L.
Proof.
  intros Ho Es Hs Hinv Hbest Hle Hc Hn.
  assert (Hseen : forall P, (forall x, P x -> x < o \/ o <= x <= s \/ lv0 <= x /\ P x) -> True) by auto.
  assert (Hcase : forall x, o <= x <= s -> ssr_candidate x = true -> mc' <= ssr_cost x).
  { intros x Hx Hcx; destruct (Z.eq_dec x s) as [->|]; [auto|].
    rewrite (no_candidate_before o s x) in Hcx by (assumption || lia); discriminate. }
  assert (Hcnt : count_below ssr_in o + b2z (ssr_candidate s) <= count_below ssr_in (s + 1)).
  { rewrite count_below_succ by lia; unfold ssr_in at 3; rewrite (proj2 (Z.ltb_lt s _)) by lia.
    cbn [andb]; pose proof (count_below_mono ssr_in o s ltac:(lia)); lia. }
  destruct Hinv as [HL H1 H2 _ Hopt Hnn|HL H1 H2 H3 _ Hopt Hnn]; [apply ssr_first|apply ssr_second];
    try assumption; try lia.
  - intros x Hx Hseenx Hcx; destruct (Z_lt_le_dec x o); [|apply Hcase; [lia|assumption]].
    etransitivity; [exact Hle|apply Hopt; [assumption|lia|assumption]].
  - intros x Hx Hseenx Hcx; destruct (Z_lt_le_dec x o).
    + etransitivity; [exact Hle|apply Hopt; [assumption|lia|assumption]].
    + destruct (Z_le_gt_dec x s); [apply Hcase; [lia|assumption]|].
      etransitivity; [exact Hle|apply Hopt; [assumption|lia|assumption]].
Qed.

(** What is known when the search stops: the best segment is a candidate, and if
    the search limit covers all of them it is the cheapest one. *)
Definition ssr_done (search : Z) (r : victim_sel_policy * f2fs_sb_info) : Prop :=
  exists o mc ms L, r = (ssr_policy search o mc ms, with_last_victim L sbi0) /\ zlen L = 2 /\
    ssr_best mc ms /\
    (count_below ssr_in (main_segments g) <= search -> ssr_opt mc (fun _ => True)).

Lemma ssr_exhausted o mc ms n L search :
  0 <= o -> ssr_inv o mc ms n L -> main_segments g <= find_next_bit map (main_segments g) o ->
  L.[GC_GREEDY] = 0 -> ssr_done search (ssr_policy search o mc ms, with_last_victim L sbi0).
Proof.
  intros Ho Hinv Hs HL0; exists o, mc, ms, L.
  assert (Hafter : forall x, 0 <= x < main_segments g -> o <= x -> ssr_candidate x = true -> False).
  { intros x Hx Hox Hcx; rewrite (no_candidate_before o _ x Ho eq_refl) in Hcx by lia; discriminate. }
  destruct Hinv as [HL H1 H2 Hb Hopt Hn|HL H1 H2 H3 Hb Hopt Hn];
    (split; [reflexivity|split; [assumption|split; [assumption|intros _ x Hx _ Hcx]]]).
  - destruct (Z_lt_le_dec x o); [apply Hopt; [assumption|lia|assumption]|destruct (Hafter x); assumption].
  - destruct (Z_lt_le_dec x o); [apply Hopt; [assumption|lia|assumption]|destruct (Hafter x); assumption].
Qed.

(** Hitting the limit means that every candidate has been looked at. *)
Lemma ssr_limit o mc ms n L s mc' ms' search :
  0 <= o -> s = find_next_bit map (main_segments g) o -> o <= s < main_segments g ->
  ssr_inv o mc ms n L -> ssr_best mc' ms' -> mc' <= mc ->
  ssr_candidate s = true -> mc' <= ssr_cost s -> search <= n ->
  ssr_done search (ssr_policy search (s + 1) mc' ms', with_last_victim (L.[GC_GREEDY <- s]) sbi0).
Proof.
  intros Ho Es Hs Hinv Hbest Hle Hc Hcost Hn; exists (s + 1), mc', ms', (L.[GC_GREEDY <- s]).
  split; [reflexivity|split; [|split; [assumption|]]].
  { rewrite zlen_aset; destruct Hinv; assumption. }
  intros Hall.
  assert (Hin : ssr_in s = true) by (unfold ssr_in; rewrite (proj2 (Z.ltb_lt s _)) by lia; assumption).
  pose proof (ssr_advance o mc ms n L s mc' ms' n Ho Es Hs Hinv Hbest Hle ltac:(auto)
                ltac:(pose proof (b2z_range (ssr_candidate s)); lia)) as Hadv.
  destruct Hinv as [HL H1 H2 _ Hopt Hnn|HL H1 H2 H3 _ Hopt Hnn].
  - exfalso; pose proof (count_below_lt ssr_in o s (main_segments g) ltac:(lia) ltac:(lia) Hin).
    pose proof (count_below_range ssr_in lv0 Hlv); lia.
  - assert (Hsl : lv0 <= s).
    { destruct (Z_le_gt_dec lv0 s); [assumption|exfalso].
      pose proof (count_below_lt ssr_in o s lv0 ltac:(lia) ltac:(lia) Hin); lia. }
    destruct Hadv as [_ A1 _ _ _ _|_ _ _ _ _ Aopt _]; [congruence|].
    intros x Hx _ Hcx; apply Aopt; [assumption|lia|assumption].
Qed.

Lemma ssr_count_le o : 0 <= o -> count_below ssr_in o <= count_below ssr_in (main_segments g).
Proof.
  intros Ho; pose proof (main_segments_bound g Hg); destruct (Z_le_gt_dec o (main_segments g)).
  - apply count_below_mono; lia.
  - unfold count_below; rewrite (sum_below_split _ (main_segments g) o) by lia.
    rewrite (sum_below_ext (fun i => b2z (ssr_in (main_segments g + i))) (fun _ => 0)).
    + rewrite sum_below_const; lia.
    + intros i Hi; unfold ssr_in; rewrite (proj2 (Z.ltb_ge _ _)) by lia; reflexivity.
Qed.

Lemma ssr_wrap o mc ms n L :
  0 <= o -> ssr_inv o mc ms n L -> L.[GC_GREEDY] <> 0 ->
  main_segments g <= find_next_bit map (main_segments g) o ->
  ssr_inv 0 mc ms n (L.[GC_GREEDY <- 0]).
Proof.
  intros Ho [HL H1 H2 Hb Hopt Hn|HL H1 H2 H3 Hb Hopt Hn] Hne Hs; [|congruence].
  pose proof (ssr_count_le o Ho); pose proof (count_below_range ssr_in 0 ltac:(lia)).
  apply ssr_second; rewrite ?zlen_aset, ?aget_aset_eq by (unfold GC_GREEDY; lia);
    try assumption; try congruence; try lia.
  intros x Hx [Hl|Hl] Hcx; [|lia].
  destruct (Z_lt_le_dec x o); [apply Hopt; [assumption|lia|assumption]|].
  rewrite (no_candidate_before o _ x Ho eq_refl) in Hcx by lia; discriminate.
Qed.

Lemma ssr_loop_spec fuel o mc ms n L search r :
  0 <= o -> ssr_inv o mc ms n L ->
  victim_loop fuel gc_type 512 (ssr_policy search o mc ms) n (with_last_victim L sbi0) = Some r ->
  ssr_done search r.
Proof.
  revert o mc ms n L; induction fuel as [|fuel IH]; intros o mc ms n L Ho Hinv; [discriminate|].
  cbn [victim_loop]; rewrite ssr_round by assumption; cbv zeta.
  set (s := find_next_bit map (main_segments g) o).
  destruct (main_segments g <=? s) eqn:E; bool_cases.
  - destruct (negb _) eqn:El; bool_cases.
    + apply IH; [lia|apply (ssr_wrap o); assumption].
    + intros H; injection H as <-; apply (ssr_exhausted o mc ms n L); assumption.
  - assert (Hs : o <= s < main_segments g).
    { unfold s, find_next_bit in *; destruct (Z_le_gt_dec o (main_segments g)).
      - destruct (find_next_spec (fun i => test_bit i map) (main_segments g) o); lia.
      - rewrite find_next_ge in E by lia; lia. }
    assert (Hbest : ssr_best mc ms) by (destruct Hinv; assumption).
    destruct (ssr_candidate s) eqn:Ec; cbn [negb orb].
    2: { apply IH; [lia|apply (ssr_advance o mc ms n); auto with lia; try (rewrite Ec; cbn; lia)];
         intros; congruence. }
    pose proof (ssr_cost_le s ltac:(lia)) as Hc512.
    assert (Hmc : mc <= 512) by (destruct Hbest as [[_ ->]|(_ & _ & _ & ?)]; lia).
    destruct (ssr_cost s <? mc) eqn:Elt; cbn [negb andb]; bool_cases.
    + assert (Hbest' : ssr_best (ssr_cost s) s) by (right; repeat split; auto; lia).
      destruct (search <=? n) eqn:En; bool_cases.
      * intros H; injection H as <-; apply (ssr_limit o mc ms n L s); auto with lia.
      * apply IH; [lia|apply (ssr_advance o mc ms n); auto with lia; rewrite Ec; cbn; lia].
    + destruct (ssr_cost s =? 512).
      * apply IH; [lia|apply (ssr_advance o mc ms n); auto with lia; rewrite Ec; cbn; lia].
      * destruct (search <=? n) eqn:En; bool_cases.
        -- intros H; injection H as <-; apply (ssr_limit o mc ms n L s); auto with lia.
        -- apply IH; [lia|apply (ssr_advance o mc ms n); auto with lia; rewrite Ec; cbn; lia].
Qed.
End Ssr.

(** ** The whole search *)

Definition lv_wf (sbi : f2fs_sb_info) : Prop :=
  zlen (last_victim sbi) = 2 /\ Forall (fun v => 0 <= v) (last_victim sbi).

Lemma lv_nonneg sbi m : lv_wf sbi -> 0 <= (last_victim sbi).[m].
Proof.
  intros [Hl Hf]; destruct (Z_le_gt_dec 0 m), (Z_lt_ge_dec m 2);
    try (rewrite aget_out by lia; cbn; lia).
  apply (aget_Forall (fun v => 0 <= v)); [assumption|lia].
Qed.

Lemma find_next_bit_nonneg m size off : 0 <= off -> 0 <= size -> 0 <= find_next_bit m size off.
Proof.
  intros; unfold find_next_bit; destruct (Z_le_gt_dec off size).
  - destruct (find_next_spec (fun i => test_bit i m) size off); lia.
  - rewrite find_next_ge; lia.
Qed.

Lemma victim_round_lv gc_type max_cost p n sbi p' n' sbi' more :
  geo_wf (geo sbi) -> 0 <= p_offset p -> lv_wf sbi ->
  victim_round gc_type max_cost p n sbi = (p', n', sbi', more) -> lv_wf sbi'.
Proof.
  intros Hg Ho [Hl Hf]; unfold victim_round, lv_wf; cbv zeta; pose proof (main_segments_bound _ Hg).
  pose proof (find_next_bit_nonneg (p_dirty_segmap p) (MAIN_SEGS (geo sbi)) (p_offset p) Ho
    ltac:(unfold MAIN_SEGS; lia)) as Hs; set (s := find_next_bit _ _ _) in *.
  destruct (get_gc_cost _ _ _ _) as [cost si].
  case_ifs; intros E; injection E as <- <- <- <-; unfold set_last_victim; cbn; rewrite ?zlen_aset;
    split; auto with maxdb lia.
Qed.

Lemma victim_loop_lv fuel gc_type max_cost p n sbi r :
  round_ok p sbi -> lv_wf sbi ->
  victim_loop fuel gc_type max_cost p n sbi = Some r -> lv_wf (snd r).
Proof.
  revert p n sbi; induction fuel as [|fuel IH]; intros p n sbi Hok Hl; [discriminate|].
  cbn [victim_loop]; destruct (victim_round _ _ _ _ _) as [[[p' n'] sbi'] more] eqn:E.
  pose proof (victim_round_lv _ _ _ _ _ _ _ _ _ (ro_geo _ _ Hok) (ro_off _ _ Hok) Hl E) as Hl'.
  destruct more; [|intros H; injection H as <-; exact Hl'].
  destruct (victim_round_progress _ _ _ _ _ _ _ _ Hok E) as [Hok' _]; apply IH; assumption.
Qed.

Definition ssr_search_limit (sbi : f2fs_sb_info) (type : Z) : Z :=
  let n := u32 ((nr_dirty (dirty_i sbi)).[type]) in
  if max_victim_search sbi <? n then max_victim_search sbi else n.

Lemma get_victim_ssr sbi gc_type type :
  geo_wf (geo sbi) -> sit_wf (geo sbi) (sit_i sbi) -> lv_wf sbi ->
  let '(r, sbi') := get_victim_by_default gc_type type SSR sbi in
  (exists L, sbi' = with_last_victim L sbi /\ lv_wf (with_last_victim L sbi)) /\
  match r with
  | Some s =>
      0 <= s < main_segments (geo sbi) /\ ssr_candidate sbi gc_type type s = true /\
      ssr_cost sbi s < 512 /\
      (count_below (ssr_in sbi gc_type type) (main_segments (geo sbi)) <= ssr_search_limit sbi type ->
       forall x, 0 <= x < main_segments (geo sbi) -> ssr_candidate sbi gc_type type x = true ->
         ssr_cost sbi s <= ssr_cost sbi x)
  | None =>
      count_below (ssr_in sbi gc_type type) (main_segments (geo sbi)) <= ssr_search_limit sbi type ->
      forall x, 0 <= x < main_segments (geo sbi) -> ssr_candidate sbi gc_type type x = true ->
        ssr_cost sbi x = 512
  end.
Proof.
  intros Hg Hw Hlv; unfold get_victim_by_default; change (SSR =? LFS) with false; cbn [andb].
  set (lv0 := (last_victim sbi).[GC_GREEDY]).
  set (search := ssr_search_limit sbi type).
  assert (Hp : with_p_min (get_max_cost (geo sbi) (select_policy sbi gc_type type SSR)) NULL_SEGNO
                 (select_policy sbi gc_type type SSR) = ssr_policy sbi type search lv0 512 NULL_SEGNO).
  { unfold get_max_cost, select_policy; cbn; rewrite (gw_log _ Hg); reflexivity. }
  assert (Hmc : get_max_cost (geo sbi) (select_policy sbi gc_type type SSR) = 512)
    by (unfold get_max_cost, select_policy; cbn; rewrite (gw_log _ Hg); reflexivity).
  cbv zeta; rewrite Hp, Hmc.
  assert (Hlv0 : 0 <= lv0) by (apply lv_nonneg; assumption).
  assert (Hsame : with_last_victim (last_victim sbi) sbi = sbi) by (destruct sbi; reflexivity).
  assert (Hok : round_ok (ssr_policy sbi type search lv0 512 NULL_SEGNO) sbi).
  { constructor; cbn; [assumption|destruct Hlv as [-> _]; unfold GC_GREEDY; lia|auto|assumption]. }
  destruct (victim_loop_total gc_type 512 (victim_fuel (geo sbi)) (ssr_policy sbi type search lv0 512 NULL_SEGNO)
              0 sbi Hok) as [r Er].
  { unfold victim_measure, victim_fuel, MAIN_SEGS; cbn; pose proof (main_segments_bound _ Hg).
    destruct (_ =? 0); lia. }
  rewrite Er.
  pose proof (victim_loop_lv _ _ _ _ _ _ _ Hok Hlv Er) as Hlv'.
  assert (Hinv : ssr_inv sbi gc_type type lv0 512 NULL_SEGNO 0 (last_victim sbi)).
  { apply ssr_first; [destruct Hlv; assumption|reflexivity|fold lv0; lia|left; auto| |fold lv0; lia].
    intros x _ Hx; fold lv0 in Hx; lia. }
  assert (Er' : victim_loop (victim_fuel (geo sbi)) gc_type 512
    (ssr_policy sbi type search lv0 512 NULL_SEGNO) 0 (with_last_victim (last_victim sbi) sbi) = Some r)
    by (rewrite Hsame; exact Er).
  destruct (ssr_loop_spec sbi gc_type type Hg Hw Hlv0 _ _ _ _ _ _ _ _ Hlv0 Hinv Er')
    as (o & mc & ms & L & -> & HL & Hbest & Hopt); cbn [snd] in Hlv'.
  unfold victim_got_it, ssr_policy; cbn [p_min_segno p_alloc_mode p_ofs_unit].
  change (SSR =? LFS) with false; cbv iota.
  destruct Hbest as [[-> ->]|(Hms & Hc & -> & Hlt)].
  - rewrite Z.eqb_refl; split; [exists L; auto|intros Hall x Hx Hcx].
    pose proof (Hopt Hall x Hx I Hcx); pose proof (ssr_cost_le sbi Hw x Hx); lia.
  - pose proof (NULL_SEGNO_pos _ Hg); rewrite (proj2 (Z.eqb_neq ms NULL_SEGNO)) by lia.
    rewrite Z.div_1_r, Z.mul_1_r; split; [exists L; auto|].
    split; [exact Hms|split; [exact Hc|split; [exact Hlt|intros Hall x Hx Hcx; apply Hopt; auto]]].
Qed.

(** When a log needs a segment to reuse, the search returns the cheapest one:
    whenever the dirty list of the type is not longer than the search limit, the
    segment returned is in that list, its section is used by no log and no
    collection, some of its blocks are pinned neither by the current state nor by
    the last checkpoint, and no other eligible segment has fewer pinned blocks; and
    when nothing is returned no eligible segment has room. *)
Theorem ssr_victim_optimal (sbi : f2fs_sb_info) (gc_type type : Z)
  (Hg : geo_wf (geo sbi)) (Hw : sit_wf (geo sbi) (sit_i sbi)) (Hlv : lv_wf sbi)
  (Hd : dirty_cnt_wf (geo sbi) (dirty_i sbi)) (Ht : 0 <= type < 6)
  (Hlim : (nr_dirty (dirty_i sbi)).[type] <= max_victim_search sbi) :
  match fst (get_victim_by_default gc_type type SSR sbi) with
  | Some s =>
      0 <= s < main_segments (geo sbi) /\ ssr_candidate sbi gc_type type s = true /\
      ckpt_valid_blocks (get_seg_entry (sit_i sbi) s) < 512 /\
      forall x, 0 <= x < main_segments (geo sbi) -> ssr_candidate sbi gc_type type x = true ->
        ckpt_valid_blocks (get_seg_entry (sit_i sbi) s) <= ckpt_valid_blocks (get_seg_entry (sit_i sbi) x)
  | None =>
      forall x, 0 <= x < main_segments (geo sbi) -> ssr_candidate sbi gc_type type x = true ->
        ckpt_valid_blocks (get_seg_entry (sit_i sbi) x) = 512
  end.
Proof.
  pose proof (main_segments_bound _ Hg) as HM.
  assert (Hall : count_below (ssr_in sbi gc_type type) (main_segments (geo sbi)) <= ssr_search_limit sbi type).
  { pose proof (dc_cnt _ _ Hd type ltac:(unfold NR_DIRTY_TYPE; lia)) as Hn.
    pose proof (count_below_range (in_list (dirty_i sbi) type) (main_segments (geo sbi)) ltac:(lia)).
    assert (count_below (ssr_in sbi gc_type type) (main_segments (geo sbi))
            <= count_below (in_list (dirty_i sbi) type) (main_segments (geo sbi))).
    { apply count_below_le; unfold ssr_in, ssr_candidate; intros i _ Hb; bool_cases; assumption. }
    unfold ssr_search_limit; rewrite u32_small by lia; case_ifs; lia. }
  pose proof (get_victim_ssr sbi gc_type type Hg Hw Hlv) as H.
  destruct (get_victim_by_default gc_type type SSR sbi) as [[s|] sbi']; cbn [fst].
  - destruct H as (_ & H1 & H2 & H3 & H4).
    split; [exact H1|split; [exact H2|split; [exact H3|exact (H4 Hall)]]].
  - destruct H as (_ & H1); exact (H1 Hall).
Qed.

(** The example volume after segment 1 has become a dirty segment. *)
Definition sbi_dirty : f2fs_sb_info := locate_dirty_segment 1 sbi_one.

Lemma sbi_one_frame : geo sbi_one = geo_ex /\ dirty_i sbi_one = dirty_ex /\ last_victim sbi_one = [0; 0].
Proof.
  destruct (update_frame (with_free_i (__set_test_and_inuse geo_ex 1 fi_ex) sbi_ex) 2048 1)
    as (H1 & _ & _ & _ & H2 & _ & _ & _ & H3); unfold sbi_one; rewrite H1, H2, H3; clear.
  split; [reflexivity|split; reflexivity].
Qed.

(** What the search needs of the state. *)
Definition search_wf (sbi : f2fs_sb_info) : Prop :=
  geo_wf (geo sbi) /\ sit_wf (geo sbi) (sit_i sbi) /\ lv_wf sbi /\
  dirty_cnt_wf (geo sbi) (dirty_i sbi).

Lemma locate_search_wf sbi segno :
  search_wf sbi -> 0 <= segno < main_segments (geo sbi) -> 0 <= seg_type sbi segno < 6 ->
  search_wf (locate_dirty_segment segno sbi).
Proof.
  intros (H1 & H2 & H3 & H4) Hs Ht.
  destruct (locate_shape sbi segno H1 H2 H4 Hs Ht) as (di' & -> & Hd & _).
  split; [exact H1|split; [exact H2|split; [exact H3|exact Hd]]].
Qed.

Lemma sbi_one_search_wf : search_wf sbi_one.
Proof.
  destruct sbi_one_frame as (F1 & F2 & F3); unfold search_wf, lv_wf; rewrite F1, F2, F3.
  split; [exact geo_ex_wf|split; [exact sbi_one_wf|split; [|exact dirty_ex_wf]]].
  split; [reflexivity|repeat constructor; lia].
Qed.

Lemma sbi_dirty_wf : search_wf sbi_dirty.
Proof.
  apply locate_search_wf; [exact sbi_one_search_wf| |vm_compute; split; congruence].
  rewrite (proj1 sbi_one_frame); vm_compute; split; congruence.
Qed.

