(* ===== verification/Curseg.v ===== *)
(** The logs and the allocation of blocks from them (src/Max/segment.c:
    reset_curseg_mlog, new_curseg, change_curseg, get_ssr_segment,
    allocate_segment_by_default, __get_segment_type, allocate_data_block,
    __f2fs_replace_block). *)

From S2P Require Import Prelude Layout NodePath Bitops SmState FreeSegmap Sit DirtySeg Victim.

#[local] Ltac Zify.zify_post_hook ::= Z.to_euclidean_division_equations.

(** * Definitions *)

(** The index of a log: six types per multi-log. *)
Definition log_of (type mlog : Z) : Z := type + mlog * NR_CURSEG_TYPE.

(** [write_sum_page], [get_sum_page]: through the meta inode's page cache. *)
Definition write_sum_page (sum : f2fs_summary_block) (blk_addr : Z) (sbi : f2fs_sb_info) :
  f2fs_sb_info := with_ssa (<[blk_addr := sum]> (ssa sbi)) sbi.

Definition get_sum_page (sbi : f2fs_sb_info) (segno : Z) : f2fs_summary_block :=
  default inhabitant (ssa sbi !! GET_SUM_BLOCK (geo sbi) segno).

Definition with_sb_entries (v : list f2fs_summary) (b : f2fs_summary_block) : f2fs_summary_block :=
  mk_sum_block v (sb_n_jnl b) (sb_nat_j b) (sb_sit_j b) (sb_entry_type b).

Definition with_sb_entry_type (v : Z) (b : f2fs_summary_block) : f2fs_summary_block :=
  mk_sum_block (sb_entries b) (sb_n_jnl b) (sb_nat_j b) (sb_sit_j b) v.

Definition __add_sum_entry (type mlog : Z) (sum : f2fs_summary) (sbi : f2fs_sb_info) : f2fs_sb_info :=
  let c := CURSEG_I sbi (log_of type mlog) in
  set_curseg (log_of type mlog)
    (with_sum_blk (with_sb_entries ((sb_entries (sum_blk c)).[next_blkoff c <- sum]) (sum_blk c)) c) sbi.

Definition reset_footer (type : Z) (b : f2fs_summary_block) : f2fs_summary_block :=
  let b := with_sb_entry_type 0 b in
  let b := if IS_DATASEG type then with_sb_entry_type SUM_TYPE_DATA b else b in
  if IS_NODESEG type then with_sb_entry_type SUM_TYPE_NODE b else b.

Definition reset_curseg_mlog (type mlog : Z) (modified : bool) (sbi : f2fs_sb_info) : f2fs_sb_info :=
  let c := CURSEG_I sbi (log_of type mlog) in
  let segno := next_segno c in
  let c := mk_curseg (reset_footer type (sum_blk c)) (alloc_type c) segno 0
             (GET_ZONENO_FROM_SEGNO (geo sbi) segno) NULL_SEGNO in
  let sbi := set_curseg (log_of type mlog) c sbi in
  with_sit_i (__set_sit_entry_type type segno modified (sit_i sbi)) sbi.

Definition new_curseg (type mlog : Z) (new_sec : bool) (sbi : f2fs_sb_info) : f2fs_sb_info :=
  let k := log_of type mlog in
  let c := CURSEG_I sbi k in
  let sbi := write_sum_page (sum_blk c) (GET_SUM_BLOCK (geo sbi) (cs_segno c)) sbi in
  let dir := if (type =? CURSEG_WARM_DATA) || (type =? CURSEG_COLD_DATA) then ALLOC_RIGHT
             else ALLOC_LEFT in
  let dir := if test_opt sbi F2FS_MOUNT_NOHEAP then ALLOC_RIGHT else dir in
  let '(segno, fi, bug) :=
    get_new_segment (geo sbi) (curseg_array sbi) (cs_segno c) new_sec dir (free_i sbi) in
  let sbi := f2fs_bug_on bug (with_free_i fi sbi) in
  let sbi := set_curseg k (with_next_segno segno (CURSEG_I sbi k)) sbi in
  let sbi := reset_curseg_mlog type mlog true sbi in
  set_curseg k (with_alloc_type LFS (CURSEG_I sbi k)) sbi.

(** The word-wise union of the two bitmaps. *)
Definition target_map (se : seg_entry) : list Z :=
  zip_with Z.lor (ckpt_valid_map se) (cur_valid_map se).

(** [next_blkoff] is an [unsigned short]. *)
Definition __next_free_blkoff (g : geometry) (se : seg_entry) (start : Z) : Z :=
  u16 (__find_rev_next_zero_bit [] (target_map se) (blocks_per_seg g) start).

Definition __refresh_next_blkoff (g : geometry) (si : sit_info) (c : curseg_info) : curseg_info :=
  if alloc_type c =? SSR
  then with_next_blkoff (__next_free_blkoff g (get_seg_entry si (cs_segno c)) (next_blkoff c + 1)) c
  else with_next_blkoff (u16 (next_blkoff c + 1)) c.

Definition change_curseg (type mlog : Z) (reuse : bool) (sbi : f2fs_sb_info) : f2fs_sb_info :=
  let k := log_of type mlog in
  let c := CURSEG_I sbi k in
  let new_segno := next_segno c in
  let sbi := write_sum_page (sum_blk c) (GET_SUM_BLOCK (geo sbi) (cs_segno c)) sbi in
  let sbi := with_free_i (__set_test_and_inuse (geo sbi) new_segno (free_i sbi)) sbi in
  let sbi := __remove_dirty_segment new_segno PRE sbi in
  let sbi := __remove_dirty_segment new_segno DIRTY sbi in
  let sbi := reset_curseg_mlog type mlog true sbi in
  let c := with_alloc_type SSR (CURSEG_I sbi k) in
  let c := with_next_blkoff
             (__next_free_blkoff (geo sbi) (get_seg_entry (sit_i sbi) (cs_segno c)) 0) c in
  let c := if reuse
           then with_sum_blk (with_sb_entries (sb_entries (get_sum_page sbi new_segno)) (sum_blk c)) c
           else c in
  set_curseg k c sbi.

(** One victim search for the log [k], which records the result. *)
Definition ssr_victim (k type : Z) (sbi : f2fs_sb_info) : bool * f2fs_sb_info :=
  match get_victim_by_default BG_GC type SSR sbi with
  | (Some segno, sbi) => (true, set_curseg k (with_next_segno segno (CURSEG_I sbi k)) sbi)
  | (None, sbi) => (false, sbi)
  end.

(** [for (; type >= CURSEG_HOT_DATA; type--)], with [n] types to go. *)
Fixpoint ssr_down (n : nat) (k : Z) (sbi : f2fs_sb_info) : bool * f2fs_sb_info :=
  match n with
  | O => (false, sbi)
  | S n =>
      let '(found, sbi) := ssr_victim k (CURSEG_HOT_DATA + Z.of_nat n) sbi in
      if found then (true, sbi) else ssr_down n k sbi
  end.

Definition get_ssr_segment (type mlog : Z) (sbi : f2fs_sb_info) : bool * f2fs_sb_info :=
  if IS_NODESEG type || negb (has_not_enough_free_secs sbi 0)
  then ssr_victim (log_of type mlog) type sbi
  else ssr_down (Z.to_nat (type - CURSEG_HOT_DATA + 1)) (log_of type mlog) sbi.

Definition allocate_segment_by_default (type mlog : Z) (force : bool) (sbi : f2fs_sb_info) :
  f2fs_sb_info :=
  let c := CURSEG_I sbi (log_of type mlog) in
  if force then new_curseg type mlog true sbi
  else if type =? CURSEG_WARM_NODE then new_curseg type mlog false sbi
  else if (alloc_type c =? LFS) && is_next_segment_free (geo sbi) (free_i sbi) (cs_segno c)
  then new_curseg type mlog false sbi
  else if need_SSR sbi then
    let '(found, sbi) := get_ssr_segment type mlog sbi in
    if found then change_curseg type mlog true sbi else new_curseg type mlog false sbi
  else new_curseg type mlog false sbi.

Definition __allocate_new_segments (type mlog : Z) (sbi : f2fs_sb_info) : f2fs_sb_info :=
  let old_segno := cs_segno (CURSEG_I sbi (log_of type mlog)) in
  locate_dirty_segment old_segno (allocate_segment_by_default type mlog true sbi).

Definition allocate_new_segments (sbi : f2fs_sb_info) : f2fs_sb_info :=
  for_range CURSEG_HOT_DATA (CURSEG_COLD_DATA + 1) (fun i sbi => __allocate_new_segments i 0 sbi) sbi.

Definition __has_curseg_space (type mlog : Z) (sbi : f2fs_sb_info) : bool :=
  next_blkoff (CURSEG_I sbi (log_of type mlog)) <? blocks_per_seg (geo sbi).

(** ** The log of a page *)

(** What the choice looks at: whether the page holds data, the mode and the advice
    of its inode, the page's checked flag, and its node footer. *)
Record page_info := mk_page {
  p_data : bool;
  p_dir : bool;
  p_file_cold : bool;
  p_checked : bool;
  p_footer : node_footer;
}.

Definition __get_segment_type_2 (p : page_info) : Z :=
  if p_data p then CURSEG_HOT_DATA else CURSEG_HOT_NODE.

Definition __get_segment_type_4 (p : page_info) : Z :=
  if p_data p then if p_dir p then CURSEG_HOT_DATA else CURSEG_COLD_DATA
  else if IS_DNODE (p_footer p) && is_node (p_footer p) COLD_BIT_SHIFT
  then CURSEG_WARM_NODE else CURSEG_COLD_NODE.

Definition __get_segment_type_6 (p : page_info) : Z :=
  if p_data p then
    if p_dir p then CURSEG_HOT_DATA
    else if p_checked p || p_file_cold p then CURSEG_COLD_DATA else CURSEG_WARM_DATA
  else if IS_DNODE (p_footer p)
  then if is_node (p_footer p) COLD_BIT_SHIFT then CURSEG_WARM_NODE else CURSEG_HOT_NODE
  else CURSEG_COLD_NODE.

(** The type, and whether the [f2fs_bug_on] fires. *)
Definition __get_segment_type (active_logs : Z) (p : page_info) : Z * bool :=
  if active_logs =? 2 then (__get_segment_type_2 p, false)
  else if active_logs =? 4 then (__get_segment_type_4 p, false)
  else (__get_segment_type_6 p, negb (active_logs =? NR_CURSEG_TYPE)).

(** ** Block allocation *)

(** The new address and the state; the address of the next free block of the log,
    which a node page gets in its footer, is read off the new state. *)
Definition allocate_data_block (old_blkaddr : Z) (sum : f2fs_summary) (type : Z)
  (sbi : f2fs_sb_info) : Z * Z * f2fs_sb_info :=
  let direct_io := type =? CURSEG_DIRECT_IO in
  let type := if direct_io then CURSEG_WARM_DATA else type in
  let sbi := with_next_mlog (s32 (next_mlog sbi + 1)) sbi in
  let mlog := u32 (next_mlog sbi) mod nr_mlog (geo sbi) in
  let k := log_of type mlog in
  let sbi := if direct_io && negb (next_blkoff (CURSEG_I sbi k) =? 0)
             then __allocate_new_segments type mlog sbi else sbi in
  let new_blkaddr := NEXT_FREE_BLKADDR (geo sbi) (CURSEG_I sbi k) in
  let sbi := __add_sum_entry type mlog sum sbi in
  let sbi := set_curseg k (__refresh_next_blkoff (geo sbi) (sit_i sbi) (CURSEG_I sbi k)) sbi in
  let sbi := if negb (__has_curseg_space type mlog sbi)
             then allocate_segment_by_default type mlog false sbi else sbi in
  let sbi := refresh_sit_entry old_blkaddr new_blkaddr sbi in
  (new_blkaddr, NEXT_FREE_BLKADDR (geo sbi) (CURSEG_I sbi k), sbi).

(** [do_write_page] up to the submission of the bio: the address written to and
    the node page's footer. *)
Definition do_write_page (active_logs cp_ver : Z) (sum : f2fs_summary) (p : page_info)
  (blk_addr : Z) (sbi : f2fs_sb_info) : Z * node_footer * f2fs_sb_info :=
  let '(type, bug) := __get_segment_type active_logs p in
  let '(new_blkaddr, next, sbi) := allocate_data_block blk_addr sum type (f2fs_bug_on bug sbi) in
  (new_blkaddr,
   if IS_NODESEG type then fill_node_footer_blkaddr (p_footer p) cp_ver next else p_footer p, sbi).

Definition write_node_page (active_logs cp_ver nid : Z) (p : page_info) (blk_addr : Z)
  (sbi : f2fs_sb_info) : Z * node_footer * f2fs_sb_info :=
  do_write_page active_logs cp_ver (set_summary nid 0 0) p blk_addr sbi.

(** [dn] is given by its node, offset and data address; [version] by the NAT. *)
Definition write_data_page (active_logs cp_ver nid ofs_in_node version data_blkaddr : Z)
  (p : page_info) (blk_addr : Z) (sbi : f2fs_sb_info) : Z * node_footer * f2fs_sb_info :=
  do_write_page active_logs cp_ver (set_summary nid ofs_in_node version) p blk_addr
    (f2fs_bug_on (data_blkaddr =? NULL_ADDR) sbi).

Definition replace_type (old_blkaddr segno : Z) (recover_curseg : bool) (sbi : f2fs_sb_info) : Z :=
  let se := get_seg_entry (sit_i sbi) segno in
  let cur := IS_CURSEG (geo sbi) (curseg_array sbi) segno in
  if negb recover_curseg then
    if (valid_blocks se =? 0) && negb cur
    then if old_blkaddr =? NULL_ADDR then CURSEG_COLD_DATA else CURSEG_WARM_DATA
    else se_type se
  else if negb cur then CURSEG_WARM_DATA else se_type se.

Definition __f2fs_replace_block (sum : f2fs_summary) (old_blkaddr new_blkaddr : Z)
  (recover_curseg : bool) (sbi : f2fs_sb_info) : f2fs_sb_info :=
  let segno := GET_SEGNO (geo sbi) new_blkaddr in
  let type := replace_type old_blkaddr segno recover_curseg sbi in
  let c := CURSEG_I sbi type in
  let old_cursegno := cs_segno c in
  let old_blkoff := next_blkoff c in
  let sbi := if negb (segno =? cs_segno c)
             then change_curseg type 0 true (set_curseg type (with_next_segno segno c) sbi)
             else sbi in
  let sbi := set_curseg type
    (with_next_blkoff (GET_BLKOFF_FROM_SEG0 (geo sbi) new_blkaddr) (CURSEG_I sbi type)) sbi in
  let sbi := __add_sum_entry type 0 sum sbi in
  let sbi := refresh_sit_entry old_blkaddr new_blkaddr sbi in
  let sbi := locate_dirty_segment old_cursegno sbi in
  if recover_curseg then
    let c := CURSEG_I sbi type in
    let sbi := if negb (old_cursegno =? cs_segno c)
               then change_curseg type 0 true (set_curseg type (with_next_segno old_cursegno c) sbi)
               else sbi in
    set_curseg type (with_next_blkoff old_blkoff (CURSEG_I sbi type)) sbi
  else sbi.
