(* ===== verification/SegMgr.v ===== *)
(** The segment manager as a whole: the invariant that ties the SIT, the free map,
    the lists of dirty segments and the logs together, its preservation by the
    allocation and invalidation of blocks, and the safety of allocation: a block
    handed out is referred to neither by the current state nor by the last
    checkpoint (src/Max/segment.c). *)

From S2P Require Import Prelude Layout NodePath Bitops SmState FreeSegmap Sit DirtySeg Victim Curseg.

#[local] Ltac Zify.zify_post_hook ::= Z.to_euclidean_division_equations.

#[local] Arguments __set_sit_entry_type : simpl never.
#[local] Arguments __set_test_and_inuse : simpl never.
#[local] Arguments __set_inuse : simpl never.
#[local] Arguments locate_dirty_segment : simpl never.
#[local] Arguments update_sit_entry : simpl never.

(** * The invariant *)

Definition nr_logs (sbi : f2fs_sb_info) : Z := nr_mlog (geo sbi) * 6.

Definition entry_of (sbi : f2fs_sb_info) (segno : Z) : seg_entry := get_seg_entry (sit_i sbi) segno.

(** A log writes to a segment in use; the log is in one of the two modes. *)
Record log_wf (g : geometry) (fi : free_segmap_info) (c : curseg_info) : Prop := {
  lg_seg : 0 <= cs_segno c < main_segments g;
  lg_used : seg_used fi (cs_segno c) = true;
  lg_mode : alloc_type c = LFS \/ alloc_type c = SSR;
}.

(** The next block of a log is writable; in LFS mode, and so are all behind it. *)
Record cursor_wf (c : curseg_info) (se : seg_entry) : Prop := {
  cu_off : 0 <= next_blkoff c < 512;
  cu_room : pinned se (next_blkoff c) = false;
  cu_lfs : alloc_type c = LFS -> forall off, next_blkoff c <= off < 512 -> pinned se off = false;
}.

(** The logs [full] have no writable block left, and the segments [exc] have yet to
    be put in the right list: the states between the steps of an allocation. *)
Record sm_inv (full exc : list Z) (sbi : f2fs_sb_info) : Prop := {
  si_geo : geo_wf (geo sbi);
  si_sit : sit_wf (geo sbi) (sit_i sbi);
  si_discard : discard_wf sbi;
  si_free : free_wf (geo sbi) (free_i sbi);
  si_lv : lv_wf sbi;
  si_len : zlen (curseg_array sbi) = nr_logs sbi;
  si_log : forall k, 0 <= k < nr_logs sbi -> log_wf (geo sbi) (free_i sbi) (CURSEG_I sbi k);
  si_cursor : forall k, 0 <= k < nr_logs sbi -> k ∉ full ->
    cursor_wf (CURSEG_I sbi k) (entry_of sbi (curseg_segno sbi k));
  si_inj : forall j k, 0 <= j < nr_logs sbi -> 0 <= k < nr_logs sbi ->
    curseg_segno sbi j = curseg_segno sbi k -> j = k;
  si_cnt : dirty_cnt_wf (geo sbi) (dirty_i sbi);
  si_types : forall i, 0 <= i < main_segments (geo sbi) -> 0 <= seg_type sbi i < 6;
  si_class : forall i, 0 <= i < main_segments (geo sbi) -> i ∉ exc -> classified sbi i;
  si_loc : forall i, 0 <= i < main_segments (geo sbi) -> i ∈ exc ->
    locatable sbi i /\ (is_cur sbi i = true -> classified sbi i) /\
    seg_used (free_i sbi) i = true;
  si_empty : forall i, 0 <= i < main_segments (geo sbi) -> seg_used (free_i sbi) i = false ->
    ckpt_valid_blocks (entry_of sbi i) = 0;
}.

Definition sm_wf (sbi : f2fs_sb_info) : Prop := sm_inv [] [] sbi.

(** * Transport *)

Lemma is_cur_iff sbi i :
  is_cur sbi i = true <-> exists k, 0 <= k < nr_logs sbi /\ i = curseg_segno sbi k.
Proof. apply IS_CURSEG_spec. Qed.

(** The classification looks at these parts of the state only. *)
Lemma classified_ext sbi sbi' i :
  is_cur sbi' i = is_cur sbi i -> seg_valid sbi' i = seg_valid sbi i ->
  seg_type sbi' i = seg_type sbi i -> seg_used (free_i sbi') i = seg_used (free_i sbi) i ->
  (forall t, 0 <= t < 8 -> in_list (dirty_i sbi') t i = in_list (dirty_i sbi) t i) ->
  classified sbi i -> classified sbi' i.
Proof.
  intros Hc Hv Ht Hu Hl [D P T].
  constructor; unfold should_be_dirty, should_be_prefree; rewrite Hc, Hv, ?Ht, ?Hu.
  - rewrite Hl by (unfold DIRTY; lia); exact D.
  - rewrite Hl by (unfold PRE; lia); exact P.
  - intros t Hr; rewrite Hl by lia; apply T; assumption.
Qed.

Lemma locatable_ext sbi sbi' i :
  seg_valid sbi' i = seg_valid sbi i -> seg_type sbi' i = seg_type sbi i ->
  (forall t, 0 <= t < 8 -> in_list (dirty_i sbi') t i = in_list (dirty_i sbi) t i) ->
  locatable sbi i -> locatable sbi' i.
Proof.
  intros Hv Ht Hl [T P]; constructor.
  - intros t Hr; rewrite !Hl, Ht by (unfold DIRTY; lia); apply T; assumption.
  - rewrite Hl, Hv by (unfold PRE; lia); exact P.
Qed.

(** A segment being written is in no list. *)
Lemma classified_cur sbi i :
  is_cur sbi i = true ->
  classified sbi i <-> forall t, 0 <= t < 8 -> in_list (dirty_i sbi) t i = false.
Proof.
  intros Hc; split.
  - intros [D P T] t Ht; unfold should_be_dirty, should_be_prefree in *; rewrite Hc in *; cbn in *.
    destruct (Z.eq_dec t 6) as [->|]; [exact D|destruct (Z.eq_dec t 7) as [->|]; [exact P|]].
    apply T; lia.
  - intros Hl; constructor; unfold should_be_dirty, should_be_prefree; rewrite ?Hc; cbn.
    + apply Hl; unfold DIRTY; lia.
    + apply Hl; unfold PRE; lia.
    + intros; apply Hl; lia.
Qed.

Lemma unlisted_locatable sbi i :
  (forall t, 0 <= t < 8 -> in_list (dirty_i sbi) t i = false) -> locatable sbi i.
Proof.
  intros Hl; constructor; [intros t Ht|]; rewrite !Hl by (unfold DIRTY, PRE; lia); [reflexivity|discriminate].
Qed.

(** An unused segment is empty and in no list. *)
Lemma unused_facts full exc sbi i :
  sm_inv full exc sbi -> 0 <= i < main_segments (geo sbi) -> seg_used (free_i sbi) i = false ->
  (forall off, 0 <= off < 512 -> pinned (entry_of sbi i) off = false) /\
  seg_valid sbi i = 0 /\ is_cur sbi i = false /\
  (forall t, 0 <= t < 8 -> in_list (dirty_i sbi) t i = false).
Proof.
  intros Hi Hr Hu; pose proof (si_empty _ _ _ Hi i Hr Hu) as H0.
  pose proof (tw_seg _ _ (si_sit _ _ _ Hi) i Hr) as Hse; fold (entry_of sbi i) in Hse.
  pose proof (seg_wf_ckpt_range _ Hse); pose proof (seg_wf_valid_range _ Hse).
  assert (Hv : seg_valid sbi i = 0) by (unfold seg_valid; fold (entry_of sbi i); lia).
  split.
  { rewrite (sw_ckpt _ Hse) in H0; intros off Ho.
    apply (count_below_0_inv (pinned (entry_of sbi i)) 512); assumption. }
  assert (Hc : is_cur sbi i = false).
  { apply not_true_is_false; rewrite is_cur_iff; intros (k & Hk & ->).
    pose proof (lg_used _ _ _ (si_log _ _ _ Hi k Hk)) as Hu'; unfold curseg_segno in Hu; congruence. }
  split; [exact Hv|split; [exact Hc|]].
  assert (Hne : i ∉ exc) by (intros He; destruct (si_loc _ _ _ Hi i Hr He) as (_ & _ & Hu'); congruence).
  destruct (si_class _ _ _ Hi i Hr Hne) as [D P T]; unfold should_be_dirty, should_be_prefree in *.
  rewrite Hv, Hu, Hc in *; cbn in *; intros t Ht.
  destruct (Z.eq_dec t 6) as [->|]; [exact D|destruct (Z.eq_dec t 7) as [->|]; [exact P|]].
  apply T; lia.
Qed.

(** * The steps *)

(** ** A block changes state in the SIT *)

Lemma updated_se_type mtime off del se : se_type (updated_entry mtime off del se) = se_type se.
Proof.
  unfold updated_entry, flip_block; destruct (0 <? del); cbn; destruct (f2fs_test_bit _ _); reflexivity.
Qed.

Lemma updated_pinned mtime off del se i :
  seg_wf se -> 0 <= off < 512 -> 0 <= i ->
  pinned (updated_entry mtime off del se) i
  = if i =? off then (0 <? del) || ckpt_valid se i else pinned se i.
Proof.
  intros Hw Ho Hi; unfold pinned; rewrite updated_cur_valid by (try apply Hw; assumption).
  unfold ckpt_valid; rewrite updated_ckpt_map; destruct (i =? off); reflexivity.
Qed.

Section UpdateInv.
Variables (exc : list Z) (sbi : f2fs_sb_info) (a del : Z).
Let s := GET_SEGNO (geo sbi) a.
Let o := GET_BLKOFF_FROM_SEG0 (geo sbi) a.
Let sbi' := update_sit_entry a del sbi.
Hypothesis Hi : sm_inv [] exc sbi.
Hypothesis Ha : in_main (geo sbi) a.
Hypothesis Hdel : del = 1 \/ del = -1.
Hypothesis Hc : block_valid sbi a = (del <? 0).
(** A block that becomes valid lies behind the cursor of its log, if any, in a
    segment in use that is not on the way to be freed. *)
Hypothesis Hnew : 0 < del ->
  seg_used (free_i sbi) s = true /\ in_list (dirty_i sbi) PRE s = false /\
  forall k, 0 <= k < nr_logs sbi -> curseg_segno sbi k = s -> o < curseg_blkoff sbi k.

Lemma upd_same : geo sbi' = geo sbi /\ free_i sbi' = free_i sbi /\ dirty_i sbi' = dirty_i sbi /\
  curseg_array sbi' = curseg_array sbi /\ last_victim sbi' = last_victim sbi.
Proof. destruct (update_frame sbi a del) as (H1 & _ & _ & H2 & H3 & H4 & _ & _ & H5); auto. Qed.

Lemma upd_entry i : entry_of sbi' i = if s =? i then updated_entry (get_mtime sbi) o del (entry_of sbi s)
                                      else entry_of sbi i.
Proof. apply update_get; [apply Hi|apply Hi|exact Ha]. Qed.

Lemma upd_s_range : 0 <= s < main_segments (geo sbi).
Proof. apply GET_SEGNO_range; [apply Hi|exact Ha]. Qed.

Lemma upd_o_range : 0 <= o < 512.
Proof. apply GET_BLKOFF_range; [apply Hi|exact Ha]. Qed.

Lemma upd_se_wf : seg_wf (entry_of sbi s).
Proof. apply (tw_seg _ _ (si_sit _ _ _ Hi)), upd_s_range. Qed.

Lemma upd_type i : seg_type sbi' i = seg_type sbi i.
Proof.
  unfold seg_type; fold (entry_of sbi' i) (entry_of sbi i); rewrite upd_entry; case_ifs; [|reflexivity].
  rewrite updated_se_type, Heqb; reflexivity.
Qed.

Lemma upd_valid_other i : i <> s -> seg_valid sbi' i = seg_valid sbi i.
Proof.
  intros Hne; unfold seg_valid; fold (entry_of sbi' i) (entry_of sbi i); rewrite upd_entry.
  rewrite (proj2 (Z.eqb_neq s i)) by auto; reflexivity.
Qed.

Lemma upd_is_cur i : is_cur sbi' i = is_cur sbi i.
Proof. unfold is_cur; destruct upd_same as (-> & _ & _ & -> & _); reflexivity. Qed.

(** The segment of a block that becomes invalid held a valid block. *)
Lemma upd_old_valid : del = -1 -> 0 < seg_valid sbi s.
Proof.
  intros Hd; unfold seg_valid; fold (entry_of sbi s); rewrite (sw_valid _ upd_se_wf).
  apply (count_below_pos _ 512 o); [apply upd_o_range|].
  assert (He := Hc); rewrite Hd in He; exact He.
Qed.

Lemma upd_used : seg_used (free_i sbi) s = true.
Proof.
  destruct Hdel as [Hd|Hd]; [apply Hnew; lia|].
  destruct (seg_used (free_i sbi) s) eqn:E; [reflexivity|].
  destruct (unused_facts _ _ _ s Hi upd_s_range E) as (_ & Hv & _).
  pose proof (upd_old_valid Hd); lia.
Qed.

Lemma upd_not_pre : in_list (dirty_i sbi) PRE s = false.
Proof.
  destruct Hdel as [Hd|Hd]; [apply Hnew; lia|].
  apply not_true_is_false; intros Hp; pose proof (upd_old_valid Hd).
  assert (locatable sbi s) as [_ Hv]; [|specialize (Hv Hp); lia].
  destruct (decide (s ∈ exc)) as [He|He].
  - apply (si_loc _ _ _ Hi s upd_s_range He).
  - apply classified_locatable, (si_class _ _ _ Hi s upd_s_range He).
Qed.

Lemma upd_loc_s :
  locatable sbi' s /\ (is_cur sbi' s = true -> classified sbi' s) /\ seg_used (free_i sbi) s = true.
Proof.
  assert (Hold : locatable sbi s /\ (is_cur sbi s = true -> classified sbi s)).
  { destruct (decide (s ∈ exc)) as [He|He].
    - destruct (si_loc _ _ _ Hi s upd_s_range He) as (H1 & H2 & _); auto.
    - pose proof (si_class _ _ _ Hi s upd_s_range He); auto using classified_locatable. }
  destruct Hold as [[LT LP] LC]; destruct upd_same as (_ & _ & Hd & _).
  split; [|split; [|apply upd_used]].
  - constructor; rewrite ?Hd; [intros t Ht; rewrite upd_type; auto|].
    rewrite upd_not_pre; discriminate.
  - rewrite upd_is_cur; intros Hcur; apply classified_cur; [rewrite upd_is_cur; exact Hcur|].
    rewrite Hd; apply classified_cur; auto.
Qed.

Lemma upd_pinned i off :
  0 <= off -> pinned (entry_of sbi' i) off = true ->
  pinned (entry_of sbi i) off = true \/ (0 < del /\ i = s /\ off = o).
Proof.
  intros Hoff; rewrite upd_entry; case_ifs; [|auto]; subst i.
  rewrite updated_pinned by (apply upd_se_wf || apply upd_o_range || assumption).
  case_ifs; [|auto]; subst off; destruct Hdel as [-> | ->]; cbn.
  - right; lia.
  - intros Hk; left; unfold pinned; rewrite Hk; apply orb_true_r.
Qed.

Lemma upd_cursor k :
  0 <= k < nr_logs sbi ->
  cursor_wf (CURSEG_I sbi k) (entry_of sbi (curseg_segno sbi k)) ->
  cursor_wf (CURSEG_I sbi k) (entry_of sbi' (curseg_segno sbi k)).
Proof.
  intros Hk [O R L].
  assert (Hfree : forall off, next_blkoff (CURSEG_I sbi k) <= off < 512 ->
    pinned (entry_of sbi (curseg_segno sbi k)) off = false ->
    pinned (entry_of sbi' (curseg_segno sbi k)) off = false).
  { intros off Hoff Hp; apply not_true_is_false; intros Ht.
    apply upd_pinned in Ht; [|lia]; destruct Ht as [Ht|(Hd & Hs & ->)]; [congruence|].
    destruct (Hnew Hd) as (_ & _ & Hcur); specialize (Hcur k Hk Hs); unfold curseg_blkoff in Hcur; lia. }
  constructor; [exact O|apply Hfree; [lia|exact R]|].
  intros Hl off Hoff; apply Hfree; auto.
Qed.

Lemma update_inv : sm_inv [] (s :: exc) sbi'.
Proof.
  destruct upd_same as (Eg & Ef & Ed & Ec & El).
  assert (En : nr_logs sbi' = nr_logs sbi) by (unfold nr_logs; rewrite Eg; reflexivity).
  assert (Ek : forall k, CURSEG_I sbi' k = CURSEG_I sbi k) by (intros; unfold CURSEG_I; rewrite Ec; reflexivity).
  assert (Es : forall k, curseg_segno sbi' k = curseg_segno sbi k)
    by (intros; unfold curseg_segno; rewrite Ek; reflexivity).
  assert (Hext : forall i, i <> s -> classified sbi i -> classified sbi' i).
  { intros i Hne; apply classified_ext; rewrite ?Ef, ?Ed; auto using upd_is_cur, upd_valid_other, upd_type. }
  constructor; rewrite ?En.
  - rewrite Eg; apply Hi.
  - rewrite Eg; apply update_wf; auto; apply Hi.
  - apply update_discard; auto; apply Hi.
  - rewrite Eg, Ef; apply Hi.
  - unfold lv_wf; rewrite El; apply (si_lv _ _ _ Hi).
  - rewrite Ec; apply (si_len _ _ _ Hi).
  - intros k Hk; rewrite Eg, Ef, Ek; apply (si_log _ _ _ Hi k Hk).
  - intros k Hk Hf; rewrite Ek, Es; apply upd_cursor; [exact Hk|apply (si_cursor _ _ _ Hi); assumption].
  - intros j k Hj Hk; rewrite !Es; apply (si_inj _ _ _ Hi); assumption.
  - rewrite Eg, Ed; apply Hi.
  - rewrite Eg; intros i Hr; rewrite upd_type; apply (si_types _ _ _ Hi); exact Hr.
  - rewrite Eg; intros i Hr Hne; apply not_elem_of_cons in Hne; destruct Hne as [Hne He].
    apply Hext; [exact Hne|apply (si_class _ _ _ Hi); assumption].
  - rewrite Eg, Ef; intros i Hr He.
    destruct (Z.eq_dec i s) as [->|Hne]; [exact upd_loc_s|].
    apply elem_of_cons in He; destruct He as [|He]; [contradiction|].
    destruct (si_loc _ _ _ Hi i Hr He) as (H1 & H2 & H3); split; [|split; [|exact H3]].
    + revert H1; apply locatable_ext; rewrite ?Ed; auto using upd_valid_other, upd_type.
    + rewrite upd_is_cur; auto.
  - rewrite Eg, Ef; intros i Hr Hu; rewrite upd_entry; case_ifs; [|apply (si_empty _ _ _ Hi); assumption].
    subst i; rewrite upd_used in Hu; discriminate.
Qed.
End UpdateInv.

(** ** A segment is put in its list *)

Lemma locate_inv full s exc sbi :
  sm_inv full (s :: exc) sbi -> 0 <= s < main_segments (geo sbi) ->
  exists di, locate_dirty_segment s sbi = with_dirty_i di sbi /\
             sm_inv full exc (with_dirty_i di sbi).
Proof.
  intros Hi Hs.
  destruct (locate_shape sbi s (si_geo _ _ _ Hi) (si_sit _ _ _ Hi) (si_cnt _ _ _ Hi) Hs
              (si_types _ _ _ Hi s Hs)) as (di & E & Hd & Hin).
  exists di; split; [exact E|].
  destruct (si_loc _ _ _ Hi s Hs ltac:(left)) as (Ls & Cs & Us).
  assert (Hcs : classified (with_dirty_i di sbi) s).
  { destruct (is_cur sbi s) eqn:Ec.
    - rewrite <- E, locate_cur by exact Ec; auto.
    - rewrite <- E; apply locate_classified; auto; apply Hi; exact Hs. }
  assert (Ho : forall i t, i <> s -> 0 <= i -> 0 <= t < 8 ->
     in_list (dirty_i (with_dirty_i di sbi)) t i = in_list (dirty_i sbi) t i)
    by (intros i t Hne Hr Ht; cbn [dirty_i with_dirty_i]; rewrite Hin, (proj2 (Z.eqb_neq i s)) by lia; reflexivity).
  assert (Hoc : forall i, i <> s -> 0 <= i -> classified sbi i -> classified (with_dirty_i di sbi) i)
    by (intros i Hne Hr; apply classified_ext; auto).
  constructor; try apply Hi; [exact Hd| |].
  - intros i Hr He; destruct (Z.eq_dec i s) as [->|Hne]; [exact Hcs|].
    apply Hoc; [exact Hne|apply Hr|apply (si_class _ _ _ Hi); [exact Hr|]].
    apply not_elem_of_cons; auto.
  - intros i Hr He; destruct (Z.eq_dec i s) as [->|Hne].
    + split; [apply classified_locatable; exact Hcs|split; [auto|exact Us]].
    + destruct (si_loc _ _ _ Hi i Hr ltac:(right; exact He)) as (H1 & H2 & H3).
      split; [|split; [intros Hc; apply Hoc; [exact Hne|apply Hr|apply H2; exact Hc]|exact H3]].
      revert H1; apply locatable_ext; auto; intros; apply Ho; auto; lia.
Qed.

(** ** The logs change in parts the invariant does not see *)

Lemma curseg_get sbi j k c :
  0 <= k < zlen (curseg_array sbi) ->
  CURSEG_I (set_curseg k c sbi) j = if k =? j then c else CURSEG_I sbi j.
Proof. intros Hk; unfold CURSEG_I, set_curseg; cbn; apply aget_aset; exact Hk. Qed.

(** Replacing a log's record by one for the same segment. *)
Lemma set_log_inv full full' exc sbi k c :
  sm_inv full exc sbi -> 0 <= k < nr_logs sbi ->
  cs_segno c = curseg_segno sbi k -> alloc_type c = LFS \/ alloc_type c = SSR ->
  (forall j, j ∈ full -> j = k \/ j ∈ full') ->
  (k ∉ full' -> cursor_wf c (entry_of sbi (curseg_segno sbi k))) ->
  sm_inv full' exc (set_curseg k c sbi).
Proof.
  intros Hi Hk E1 E2 Hf' Hcw; pose proof (si_len _ _ _ Hi) as Hl.
  assert (Hg : forall j, CURSEG_I (set_curseg k c sbi) j = if k =? j then c else CURSEG_I sbi j)
    by (intros; apply curseg_get; lia).
  assert (Hs : forall j, curseg_segno (set_curseg k c sbi) j = curseg_segno sbi j)
    by (intros j; unfold curseg_segno in *; rewrite Hg; case_ifs; [subst j|]; auto).
  assert (Hcur : forall i, is_cur (set_curseg k c sbi) i = is_cur sbi i).
  { intros i; apply eq_true_iff_eq; rewrite !is_cur_iff; change (nr_logs (set_curseg k c sbi)) with (nr_logs sbi).
    split; intros (j & Hj & ->); exists j; rewrite Hs; auto. }
  constructor; [apply Hi|apply Hi|apply Hi|apply Hi|apply Hi| | | | |apply Hi|apply (si_types _ _ _ Hi)
    | | |apply (si_empty _ _ _ Hi)]; change (nr_logs (set_curseg k c sbi)) with (nr_logs sbi).
  - cbn; rewrite zlen_aset; exact Hl.
  - intros j Hj; rewrite Hg; destruct (si_log _ _ _ Hi j Hj); case_ifs; [subst j|constructor; assumption].
    unfold curseg_segno in *; constructor; cbn; rewrite ?E1; assumption.
  - intros j Hj Hf; rewrite Hs, Hg; destruct (Z.eqb_spec k j) as [->|Hne]; [auto|].
    apply (si_cursor _ _ _ Hi j Hj); intros He; destruct (Hf' j He); [lia|contradiction].
  - intros i j Ha Hb; rewrite !Hs; apply (si_inj _ _ _ Hi); auto.
  - intros i Hr He; apply (classified_ext sbi); auto; apply (si_class _ _ _ Hi); auto.
  - intros i Hr He; destruct (si_loc _ _ _ Hi i Hr He) as (H1 & H2 & H3).
    split; [revert H1; apply locatable_ext; auto|split; [|exact H3]].
    rewrite Hcur; intros Hc; apply (classified_ext sbi); auto.
Qed.

(** ... with the same mode and cursor. *)
Lemma set_curseg_inv full exc sbi k c :
  sm_inv full exc sbi -> 0 <= k < nr_logs sbi ->
  cs_segno c = curseg_segno sbi k -> alloc_type c = curseg_alloc_type sbi k ->
  next_blkoff c = curseg_blkoff sbi k ->
  sm_inv full exc (set_curseg k c sbi).
Proof.
  intros Hi Hk E1 E2 E3; apply (set_log_inv full full); auto.
  - rewrite E2; apply (si_log _ _ _ Hi k Hk).
  - intros Hf; destruct (si_cursor _ _ _ Hi k Hk Hf).
    unfold curseg_blkoff, curseg_alloc_type in *; constructor; rewrite ?E2, ?E3; assumption.
Qed.

(** ** Moving the cursor *)

Lemma target_map_bit se off :
  seg_wf se -> 0 <= off < 512 -> f2fs_test_bit off (target_map se) = pinned se off.
Proof.
  intros [] Ho; unfold pinned, cur_valid, ckpt_valid; rewrite !f2fs_test_bit_testbit.
  unfold target_map; rewrite aget_zip_with by lia.
  rewrite Z.lor_spec; apply orb_comm.
Qed.

Lemma target_map_len se : seg_wf se -> zlen (target_map se) = 64.
Proof. intros []; unfold target_map; rewrite zlen_zip_with; lia. Qed.

(** The search finds the first writable block, or the end of the segment. *)
Lemma next_free_spec g se start :
  geo_wf g -> seg_wf se -> 0 <= start <= 512 ->
  let p := __next_free_blkoff g se start in
  start <= p <= 512 /\ (p < 512 -> pinned se p = false) /\
  (forall i, start <= i < p -> pinned se i = true).
Proof.
  intros Hg Hw Hs; unfold __next_free_blkoff; rewrite blocks_per_seg_512 by exact Hg.
  rewrite find_rev_next_zero_bit_eq by (rewrite ?target_map_len by exact Hw; lia).
  destruct (find_next_spec (fun i => negb (f2fs_test_bit i (target_map se))) 512 start Hs) as (Hr & Ht & Hf).
  set (p := find_next _ _ _) in *; rewrite u16_small by lia.
  split; [exact Hr|split].
  - intros Hp; specialize (Ht Hp); cbv beta in Ht; rewrite target_map_bit in Ht by (assumption || lia).
    apply negb_true_iff; exact Ht.
  - intros i Hi; specialize (Hf i Hi); cbv beta in Hf; rewrite target_map_bit in Hf by (assumption || lia).
    apply negb_false_iff; exact Hf.
Qed.

(** The cursor moves past the block just used, to a writable one if there is one. *)
Lemma refresh_inv exc sbi k :
  sm_inv [] exc sbi -> 0 <= k < nr_logs sbi ->
  let c := __refresh_next_blkoff (geo sbi) (sit_i sbi) (CURSEG_I sbi k) in
  curseg_blkoff sbi k < next_blkoff c <= 512 /\ cs_segno c = curseg_segno sbi k /\
  sm_inv (if next_blkoff c <? 512 then [] else [k]) exc (set_curseg k c sbi).
Proof.
  intros Hi Hk c; destruct (si_log _ _ _ Hi k Hk) as [S U M].
  destruct (si_cursor _ _ _ Hi k Hk ltac:(apply not_elem_of_nil)) as [O R L].
  pose proof (tw_seg _ _ (si_sit _ _ _ Hi) _ S) as Hse.
  assert (Hc : cs_segno c = curseg_segno sbi k /\ alloc_type c = alloc_type (CURSEG_I sbi k))
    by (unfold c, __refresh_next_blkoff; destruct (_ =? SSR); auto).
  destruct Hc as [E1 E2].
  assert (Hr : curseg_blkoff sbi k < next_blkoff c <= 512 /\
    (next_blkoff c < 512 -> cursor_wf c (entry_of sbi (curseg_segno sbi k)))).
  { unfold c, __refresh_next_blkoff in *; destruct (Z.eqb_spec (alloc_type (CURSEG_I sbi k)) SSR) as [Em|Em].
    - destruct (next_free_spec (geo sbi) _ (next_blkoff (CURSEG_I sbi k) + 1) (si_geo _ _ _ Hi) Hse
        ltac:(lia)) as (Hr & Hp & _).
      split; [unfold curseg_blkoff; cbn; lia|]; intros Hlt; constructor; cbn in *; [lia|exact (Hp Hlt)|].
      rewrite Em; discriminate.
    - destruct M as [M|M]; [|contradiction]; cbn; rewrite u16_small by lia.
      split; [unfold curseg_blkoff; lia|]; intros Hlt; constructor; cbn; rewrite ?u16_small by lia; [lia| |].
      + apply L; [exact M|lia].
      + intros _ off Ho; apply L; [exact M|lia]. }
  destruct Hr as [Hr Hcw]; split; [exact Hr|split; [exact E1|]].
  apply (set_log_inv [] _); auto; [rewrite E2; exact M|intros j Hj; inversion Hj|].
  destruct (Z.ltb_spec (next_blkoff c) 512); [auto|intros Hf; contradict Hf; left].
Qed.

(** ** A log moves to another segment *)

Lemma set_type_entry g type s m si i :
  sit_wf g si -> 0 <= s < main_segments g -> 0 <= type < 6 ->
  get_seg_entry (__set_sit_entry_type type s m si) i
  = if s =? i then with_se_type type (get_seg_entry si s) else get_seg_entry si i.
Proof.
  intros Hw Hs Ht; rewrite <- (get_set_seg_entry g si s _ i (tw_len _ _ Hw) Hs).
  unfold __set_sit_entry_type; replace (u8 type) with type by (unfold u8; lia).
  destruct m; [unfold get_seg_entry at 1; rewrite mark_dirty_sentries|]; reflexivity.
Qed.

Section Move.
Variables (full exc : list Z) (sbi sbi' : f2fs_sb_info) (type k s : Z) (c : curseg_info).
Let x := curseg_segno sbi k.
Hypothesis Hi : sm_inv full exc sbi.
Hypothesis Hk : 0 <= k < nr_logs sbi.
Hypothesis Hfull : forall j, j ∈ full -> j = k.
Hypothesis Ht : 0 <= type < 6.
Hypothesis Hs : 0 <= s < main_segments (geo sbi).
Hypothesis Hcur : is_cur sbi s = false.
Hypothesis Eg : geo sbi' = geo sbi.
Hypothesis Esit : sit_i sbi' = __set_sit_entry_type type s true (sit_i sbi).
Hypothesis Ecs : curseg_array sbi' = (curseg_array sbi).[k <- c].
Hypothesis Elv : last_victim sbi' = last_victim sbi.
Hypothesis Edb : discard_blks sbi' = discard_blks sbi.
Hypothesis Hfw : free_wf (geo sbi) (free_i sbi').
Hypothesis Hfu : forall i, 0 <= i -> seg_used (free_i sbi') i = (i =? s) || seg_used (free_i sbi) i.
Hypothesis Hdw : dirty_cnt_wf (geo sbi) (dirty_i sbi').
Hypothesis Hdl : forall t i, 0 <= t < 8 -> 0 <= i ->
  in_list (dirty_i sbi') t i = negb (i =? s) && in_list (dirty_i sbi) t i.
Hypothesis Hcseg : cs_segno c = s.
Hypothesis Hcmode : alloc_type c = LFS \/ alloc_type c = SSR.
Hypothesis Hcw : cursor_wf c (entry_of sbi s).

Lemma move_log j : CURSEG_I sbi' j = if k =? j then c else CURSEG_I sbi j.
Proof.
  unfold CURSEG_I; rewrite Ecs; apply aget_aset; rewrite (si_len _ _ _ Hi); exact Hk.
Qed.

Lemma move_seg j : curseg_segno sbi' j = if k =? j then s else curseg_segno sbi j.
Proof. unfold curseg_segno; rewrite move_log; destruct (k =? j); auto. Qed.

Lemma move_entry i : entry_of sbi' i = if s =? i then with_se_type type (entry_of sbi s) else entry_of sbi i.
Proof. unfold entry_of; rewrite Esit; apply (set_type_entry (geo sbi)); auto; apply Hi. Qed.

Lemma move_x_cur : is_cur sbi x = true.
Proof. apply is_cur_iff; exists k; auto. Qed.

Lemma move_x_ne : x <> s.
Proof. intros E; pose proof move_x_cur as H; rewrite E in H; congruence. Qed.

Lemma move_is_cur i : is_cur sbi' i = (i =? s) || (negb (i =? x) && is_cur sbi i).
Proof.
  assert (En : nr_logs sbi' = nr_logs sbi) by (unfold nr_logs; rewrite Eg; reflexivity).
  apply eq_true_iff_eq; rewrite orb_true_iff, andb_true_iff, negb_true_iff, Z.eqb_eq, Z.eqb_neq, !is_cur_iff, En.
  split.
  - intros (j & Hj & ->); rewrite move_seg; case_ifs; [auto|right]; split; [|exists j; auto].
    intros E; apply (si_inj _ _ _ Hi) in E; auto.
  - intros [->|(Hne & j & Hj & ->)].
    + exists k; rewrite move_seg, Z.eqb_refl; auto.
    + exists j; rewrite move_seg; case_ifs; [subst j; contradiction|auto].
Qed.

Lemma move_valid i : seg_valid sbi' i = seg_valid sbi i.
Proof.
  unfold seg_valid; fold (entry_of sbi' i) (entry_of sbi i); rewrite move_entry; case_ifs; [subst i|]; reflexivity.
Qed.

Lemma move_type i : i <> s -> seg_type sbi' i = seg_type sbi i.
Proof.
  intros Hne; unfold seg_type; fold (entry_of sbi' i) (entry_of sbi i); rewrite move_entry.
  rewrite (proj2 (Z.eqb_neq s i)) by auto; reflexivity.
Qed.

Lemma move_pinned i off : pinned (entry_of sbi' i) off = pinned (entry_of sbi i) off.
Proof. rewrite move_entry; case_ifs; [subst i|]; reflexivity. Qed.

Lemma move_class_other i :
  i <> s -> i <> x -> 0 <= i -> classified sbi i -> classified sbi' i.
Proof.
  intros Hs' Hx Hr; apply classified_ext; auto using move_valid, move_type.
  - rewrite move_is_cur, (proj2 (Z.eqb_neq i s)), (proj2 (Z.eqb_neq i x)) by auto; reflexivity.
  - rewrite Hfu, (proj2 (Z.eqb_neq i s)) by auto; reflexivity.
  - intros t Ht'; rewrite Hdl, (proj2 (Z.eqb_neq i s)) by auto; reflexivity.
Qed.

Lemma move_loc_x :
  locatable sbi' x /\ (is_cur sbi' x = true -> classified sbi' x) /\ seg_used (free_i sbi') x = true.
Proof.
  destruct (si_log _ _ _ Hi k Hk) as [Sx Ux _]; fold (curseg_segno sbi k) in Sx, Ux; fold x in Sx, Ux.
  assert (Hcx : classified sbi x).
  { destruct (decide (x ∈ exc)) as [He|He]; [apply (si_loc _ _ _ Hi x Sx He), move_x_cur|].
    apply (si_class _ _ _ Hi); assumption. }
  rewrite classified_cur in Hcx by exact move_x_cur.
  split; [|split].
  - apply unlisted_locatable; intros t Ht'; rewrite Hdl, Hcx by lia; apply andb_false_r.
  - rewrite move_is_cur, Z.eqb_refl, (proj2 (Z.eqb_neq x s) move_x_ne); discriminate.
  - rewrite Hfu by lia; rewrite Ux; apply orb_true_r.
Qed.

Lemma move_class_s : classified sbi' s.
Proof.
  apply classified_cur; [rewrite move_is_cur, Z.eqb_refl; reflexivity|].
  intros t Ht'; rewrite Hdl, Z.eqb_refl by lia; reflexivity.
Qed.

Lemma move_discard : discard_wf sbi'.
Proof.
  unfold discard_wf; rewrite Edb, Eg, (si_discard _ _ _ Hi); apply sum_below_ext; intros i Hr.
  fold (entry_of sbi i) (entry_of sbi' i); rewrite move_entry; case_ifs; [subst i|]; reflexivity.
Qed.

Lemma move_cursor j :
  0 <= j < nr_logs sbi -> cursor_wf (CURSEG_I sbi' j) (entry_of sbi' (curseg_segno sbi' j)).
Proof.
  intros Hj; rewrite move_log, move_seg.
  assert (H : cursor_wf (if k =? j then c else CURSEG_I sbi j)
                (entry_of sbi (if k =? j then s else curseg_segno sbi j))).
  { destruct (Z.eqb_spec k j); [exact Hcw|]; apply (si_cursor _ _ _ Hi j Hj); intros He; apply Hfull in He; lia. }
  destruct H as [O R L]; constructor; [exact O|rewrite move_pinned; exact R|].
  intros Hm off Ho; rewrite move_pinned; auto.
Qed.

Lemma move_inv : sm_inv [] (x :: exc) sbi'.
Proof.
  assert (En : nr_logs sbi' = nr_logs sbi) by (unfold nr_logs; rewrite Eg; reflexivity).
  constructor; rewrite ?En, ?Eg; try assumption.
  - apply Hi.
  - rewrite Esit; apply set_type_wf; auto; apply Hi.
  - exact move_discard.
  - unfold lv_wf; rewrite Elv; apply (si_lv _ _ _ Hi).
  - rewrite Ecs, zlen_aset; apply (si_len _ _ _ Hi).
  - intros j Hj; rewrite move_log; case_ifs.
    + constructor; rewrite ?Hcseg; [exact Hs|rewrite Hfu, Z.eqb_refl by lia; reflexivity|exact Hcmode].
    + destruct (si_log _ _ _ Hi j Hj); constructor; auto; rewrite Hfu by lia; rewrite lg_used0; apply orb_true_r.
  - intros j Hj _; apply move_cursor; exact Hj.
  - intros i j Hri Hrj; rewrite !move_seg; case_ifs; intros E; try lia.
    + assert (is_cur sbi s = true) by (apply is_cur_iff; exists j; auto); congruence.
    + assert (is_cur sbi s = true) by (apply is_cur_iff; exists i; auto); congruence.
    + apply (si_inj _ _ _ Hi); assumption.
  - intros i Hr; destruct (Z.eq_dec i s) as [->|Hne]; [|rewrite move_type by exact Hne; apply (si_types _ _ _ Hi i Hr)].
    unfold seg_type; fold (entry_of sbi' s); rewrite move_entry, Z.eqb_refl; exact Ht.
  - intros i Hr Hne; apply not_elem_of_cons in Hne; destruct Hne as [Hx He].
    destruct (Z.eq_dec i s) as [->|Hns]; [exact move_class_s|].
    apply move_class_other; auto; [lia|]; apply (si_class _ _ _ Hi); assumption.
  - intros i Hr He; destruct (Z.eq_dec i s) as [->|Hns].
    { split; [apply classified_locatable; exact move_class_s|split; [intros; exact move_class_s|]].
      rewrite Hfu, Z.eqb_refl by lia; reflexivity. }
    destruct (Z.eq_dec i x) as [->|Hx]; [exact move_loc_x|].
    apply elem_of_cons in He; destruct He as [|He]; [contradiction|].
    destruct (si_loc _ _ _ Hi i Hr He) as (H1 & H2 & H3); split; [|split].
    + revert H1; apply locatable_ext; auto using move_valid, move_type.
      intros t Ht'; rewrite Hdl, (proj2 (Z.eqb_neq i s)) by lia; reflexivity.
    + rewrite move_is_cur, (proj2 (Z.eqb_neq i s)), (proj2 (Z.eqb_neq i x)) by auto; cbn.
      intros Hc; apply move_class_other; auto; lia.
    + rewrite Hfu by lia; rewrite H3; apply orb_true_r.
  - intros i Hr; rewrite Hfu by lia; intros Hu; apply orb_false_iff in Hu; destruct Hu as [Hne Hu].
    rewrite move_entry, Z.eqb_sym, Hne; apply (si_empty _ _ _ Hi); assumption.
Qed.
End Move.

(** ** The two ways to get another segment *)

(** No block changes state, and no alarm is raised. *)
Definition same_blocks (sbi sbi' : f2fs_sb_info) : Prop :=
  geo sbi' = geo sbi /\ s_flag sbi' = s_flag sbi /\
  forall i off, cur_valid (entry_of sbi' i) off = cur_valid (entry_of sbi i) off /\
                ckpt_valid (entry_of sbi' i) off = ckpt_valid (entry_of sbi i) off.

Lemma same_blocks_refl sbi : same_blocks sbi sbi.
Proof. split; auto. Qed.

Lemma same_blocks_trans s1 s2 s3 : same_blocks s1 s2 -> same_blocks s2 s3 -> same_blocks s1 s3.
Proof.
  intros (A1 & A2 & A3) (B1 & B2 & B3); split; [congruence|split; [congruence|]].
  intros i off; destruct (A3 i off), (B3 i off); split; congruence.
Qed.

Definition unlisted (sbi : f2fs_sb_info) (s : Z) : Prop :=
  forall t, 0 <= t < 8 -> in_list (dirty_i sbi) t s = false.

Lemma cur_unlisted full exc sbi k :
  sm_inv full exc sbi -> 0 <= k < nr_logs sbi -> unlisted sbi (curseg_segno sbi k).
Proof.
  intros Hi Hk; set (x := curseg_segno sbi k).
  assert (Hc : is_cur sbi x = true) by (apply is_cur_iff; exists k; auto).
  assert (Hr : 0 <= x < main_segments (geo sbi)) by apply (lg_seg _ _ _ (si_log _ _ _ Hi k Hk)).
  unfold unlisted; apply classified_cur; [exact Hc|].
  destruct (decide (x ∈ exc)) as [He|He]; [apply (si_loc _ _ _ Hi x Hr He), Hc|].
  apply (si_class _ _ _ Hi); assumption.
Qed.

(** The result of moving a full log [k] to another segment, before its old segment
    has been put in a list. *)
Definition moved_log (sbi sbi' : f2fs_sb_info) (k : Z) (exc : list Z) : Prop :=
  sm_inv [] (curseg_segno sbi k :: exc) sbi' /\ same_blocks sbi sbi' /\
  is_cur sbi' (curseg_segno sbi k) = false /\ unlisted sbi' (curseg_segno sbi k).

(** A log at the start of a segment opened in LFS mode. *)
Definition fresh_log (sbi : f2fs_sb_info) (k : Z) : Prop :=
  curseg_blkoff sbi k = 0 /\ curseg_alloc_type sbi k = LFS.

Lemma set_type_same g type s m si i off :
  sit_wf g si -> 0 <= s < main_segments g -> 0 <= type < 6 ->
  cur_valid (get_seg_entry (__set_sit_entry_type type s m si) i) off = cur_valid (get_seg_entry si i) off /\
  ckpt_valid (get_seg_entry (__set_sit_entry_type type s m si) i) off = ckpt_valid (get_seg_entry si i) off.
Proof.
  intros Hw Hs Ht; rewrite (set_type_entry g) by assumption; destruct (Z.eqb_spec s i); [subst i|]; auto.
Qed.

Lemma aset_aset {A} (l : list A) i x y : l.[i <- x].[i <- y] = l.[i <- y].
Proof. unfold aset; destruct (0 <=? i); [apply list_insert_insert_eq|reflexivity]. Qed.

Lemma log_of_range sbi type mlog :
  0 <= type < 6 -> 0 <= mlog < nr_mlog (geo sbi) -> 0 <= log_of type mlog < nr_logs sbi.
Proof. unfold log_of, nr_logs, NR_CURSEG_TYPE, NR_CURSEG_DATA_TYPE, NR_CURSEG_NODE_TYPE; lia. Qed.

(** The record of log [k] once it writes to segment [s]. *)
Definition log_at (sbi : f2fs_sb_info) (type k s mode : Z) : curseg_info :=
  mk_curseg (reset_footer type (sum_blk (CURSEG_I sbi k))) mode s 0
    (GET_ZONENO_FROM_SEGNO (geo sbi) s) NULL_SEGNO.

Definition new_dir (sbi : f2fs_sb_info) (type : Z) : Z :=
  if test_opt sbi F2FS_MOUNT_NOHEAP then ALLOC_RIGHT
  else if (type =? CURSEG_WARM_DATA) || (type =? CURSEG_COLD_DATA) then ALLOC_RIGHT else ALLOC_LEFT.

Lemma new_curseg_shape sbi type mlog new_sec s fi :
  let k := log_of type mlog in
  let c := CURSEG_I sbi k in
  0 <= k < zlen (curseg_array sbi) ->
  get_new_segment (geo sbi) (curseg_array sbi) (cs_segno c) new_sec (new_dir sbi type) (free_i sbi)
    = (s, fi, false) ->
  new_curseg type mlog new_sec sbi =
  with_ssa (<[GET_SUM_BLOCK (geo sbi) (cs_segno c) := sum_blk c]> (ssa sbi))
    (with_curseg_array ((curseg_array sbi).[k <- log_at sbi type k s LFS])
       (with_sit_i (__set_sit_entry_type type s true (sit_i sbi)) (with_free_i fi sbi))).
Proof.
  intros k c Hk Hget; unfold new_curseg; fold k; fold c.
  change (test_opt (write_sum_page _ _ sbi) F2FS_MOUNT_NOHEAP) with (test_opt sbi F2FS_MOUNT_NOHEAP).
  cbn [geo write_sum_page with_ssa curseg_array free_i]; fold (new_dir sbi type); rewrite Hget.
  unfold reset_curseg_mlog, CURSEG_I, set_curseg, log_at; fold k; cbn.
  rewrite !aget_aset_eq by (rewrite ?zlen_aset; exact Hk); cbn; rewrite !aset_aset; reflexivity.
Qed.

Section NewSegment.
Variables (full exc : list Z) (sbi : f2fs_sb_info) (type mlog : Z).
Let k := log_of type mlog.
Hypothesis Hi : sm_inv full exc sbi.
Hypothesis Ht : 0 <= type < 6.
Hypothesis Hm : 0 <= mlog < nr_mlog (geo sbi).
Hypothesis Hfull : forall j, j ∈ full -> j = k.

Lemma new_segment_k : 0 <= k < nr_logs sbi.
Proof. apply log_of_range; assumption. Qed.

Lemma new_segment_kz : 0 <= k < zlen (curseg_array sbi).
Proof. rewrite (si_len _ _ _ Hi); apply new_segment_k. Qed.

Lemma new_curseg_moved (new_sec : bool) :
  0 < free_sections sbi ->
  moved_log sbi (new_curseg type mlog new_sec sbi) k exc /\
  fresh_log (new_curseg type mlog new_sec sbi) k.
Proof.
  intros Hfree; pose proof new_segment_kz as Hk.
  destruct (si_log _ _ _ Hi k new_segment_k) as [Sx Ux _].
  assert (Hdir : new_dir sbi type = ALLOC_RIGHT \/ new_dir sbi type = ALLOC_LEFT)
    by (unfold new_dir; case_ifs; auto).
  pose proof (choose_segment_free (geo sbi) (si_geo _ _ _ Hi) (curseg_array sbi) (free_i sbi)
    (cs_segno (CURSEG_I sbi k)) new_sec (new_dir sbi type) (si_free _ _ _ Hi) Hfree Sx Hdir) as Hc.
  pose proof (new_curseg_shape sbi type mlog new_sec) as Hsh; cbv zeta in Hsh; fold k in Hsh.
  unfold get_new_segment in Hsh.
  destruct (choose_segment _ _ _ _ _ _) as [s bug]; destruct Hc as (Hs & Hu & ->).
  unfold seg_used in Hu; rewrite Hu in Hsh; cbn [orb] in Hsh.
  rewrite (Hsh s _ Hk eq_refl); clear Hsh.
  destruct (unused_facts _ _ _ s Hi Hs Hu) as (Hpin & Hv & Hcur & Hun).
  set (sbi' := with_ssa _ _).
  assert (Hx : curseg_segno sbi k <> s).
  { intros E; assert (is_cur sbi s = true) by (apply is_cur_iff; exists k; auto using new_segment_k); congruence. }
  assert (Hget : CURSEG_I sbi' k = log_at sbi type k s LFS) by (apply aget_aset_eq; exact Hk).
  split; [split; [|split; [|split]]|].
  - apply (move_inv full exc sbi sbi' type k s (log_at sbi type k s LFS)); auto using new_segment_k.
    + apply set_inuse_wf; auto; apply Hi.
    + intros i Hr; cbn [free_i sbi' with_ssa with_curseg_array with_sit_i with_free_i].
      unfold seg_used; rewrite set_inuse_segmap; apply test_bit_set; lia.
    + apply Hi.
    + intros t i Htt Hr; cbn [dirty_i sbi' with_ssa with_curseg_array with_sit_i with_free_i].
      destruct (Z.eqb_spec i s); [subst i; apply Hun; exact Htt|reflexivity].
    + constructor; cbn; [lia|apply Hpin; lia|intros _; exact Hpin].
  - split; [reflexivity|split; [reflexivity|]].
    intros i off; apply (set_type_same (geo sbi)); auto; apply Hi.
  - rewrite (move_is_cur full exc sbi sbi' k s (log_at sbi type k s LFS)) by (auto using new_segment_k).
    rewrite Z.eqb_refl, (proj2 (Z.eqb_neq _ s)) by exact Hx; reflexivity.
  - exact (cur_unlisted _ _ _ k Hi new_segment_k).
  - unfold fresh_log, curseg_blkoff, curseg_alloc_type; rewrite Hget; auto.
Qed.

(** The lists after [change_curseg] has taken the new segment out of them. *)
Lemma change_lists s :
  0 <= s < main_segments (geo sbi) -> locatable sbi s ->
  forall sm fi, exists di,
    __remove_dirty_segment s DIRTY (__remove_dirty_segment s PRE (with_free_i fi (with_ssa sm sbi)))
    = with_dirty_i di (with_free_i fi (with_ssa sm sbi)) /\
    dirty_cnt_wf (geo sbi) di /\
    forall t i, 0 <= t < 8 -> 0 <= i -> in_list di t i = negb (i =? s) && in_list (dirty_i sbi) t i.
Proof.
  intros Hs Hlo sm fi; pose proof (si_cnt _ _ _ Hi) as Hd.
  unfold __remove_dirty_segment at 2; change (PRE =? DIRTY) with false; cbv iota zeta.
  cbn [dirty_i with_free_i with_ssa].
  set (d1 := dirty_del s PRE (dirty_i sbi)).
  assert (Hd1 : dirty_cnt_wf (geo sbi) d1) by (apply dirty_del_wf; auto; unfold PRE; lia).
  destruct (remove_dirty_shape (with_dirty_i d1 (with_free_i fi (with_ssa sm sbi))) s Hd1 Hs
    (si_types _ _ _ Hi s Hs)) as (d2 & -> & Hd2 & Hin).
  exists d2; split; [reflexivity|split; [exact Hd2|]]; intros t i Htt Hr.
  rewrite Hin by assumption; cbn [dirty_i with_dirty_i].
  change (seg_type (with_dirty_i _ _) s) with (seg_type sbi s).
  unfold d1; rewrite (dirty_del_in (geo sbi)) by (auto; unfold PRE; lia).
  destruct (Z.eqb_spec i s) as [->|]; [|rewrite !andb_false_r; reflexivity].
  rewrite !andb_true_r; cbn [negb andb].
  destruct (Z.eqb_spec t DIRTY) as [->|Hnd]; [reflexivity|]; cbn [orb].
  destruct (Z.eqb_spec t PRE) as [->|Hnp]; [apply andb_false_r|]; cbn [negb andb].
  rewrite (lo_type _ _ Hlo) by (unfold DIRTY, PRE in *; lia).
  rewrite (Z.eqb_sym t); destruct (seg_type sbi s =? t); [reflexivity|apply andb_false_r].
Qed.

Lemma change_curseg_shape (reuse : bool) :
  let s := next_segno (CURSEG_I sbi k) in
  0 <= s < main_segments (geo sbi) -> locatable sbi s ->
  exists sm di c,
    change_curseg type mlog reuse sbi =
      with_curseg_array ((curseg_array sbi).[k <- c])
        (with_sit_i (__set_sit_entry_type type s true (sit_i sbi))
          (with_dirty_i di (with_free_i (__set_test_and_inuse (geo sbi) s (free_i sbi)) (with_ssa sm sbi)))) /\
    cs_segno c = s /\ alloc_type c = SSR /\
    next_blkoff c = __next_free_blkoff (geo sbi) (entry_of sbi s) 0 /\
    dirty_cnt_wf (geo sbi) di /\
    forall t i, 0 <= t < 8 -> 0 <= i -> in_list di t i = negb (i =? s) && in_list (dirty_i sbi) t i.
Proof.
  intros s Hs Hlo; pose proof new_segment_kz as Hk.
  unfold change_curseg; fold k s; cbv zeta.
  set (sm := <[GET_SUM_BLOCK (geo sbi) (cs_segno (CURSEG_I sbi k)) := sum_blk (CURSEG_I sbi k)]> (ssa sbi)).
  change (write_sum_page _ _ sbi) with (with_ssa sm sbi).
  change (geo (with_ssa sm sbi)) with (geo sbi); change (free_i (with_ssa sm sbi)) with (free_i sbi).
  set (fi := __set_test_and_inuse _ _ _).
  destruct (change_lists s Hs Hlo sm fi) as (di & -> & Hdw & Hdl); exists sm, di.
  unfold reset_curseg_mlog; fold k; cbv zeta; unfold set_curseg, CURSEG_I; cbn.
  change (next_segno ((curseg_array sbi).[k])) with s.
  rewrite !aget_aset_eq by exact Hk; rewrite aset_aset; cbn.
  rewrite (set_type_entry (geo sbi) type s true (sit_i sbi) s (si_sit _ _ _ Hi) Hs Ht), Z.eqb_refl.
  eexists; split; [reflexivity|].
  split; [|split; [|split; [|split; [exact Hdw|exact Hdl]]]]; destruct reuse; reflexivity.
Qed.

Lemma change_curseg_moved (reuse : bool) :
  let s := next_segno (CURSEG_I sbi k) in
  0 <= s < main_segments (geo sbi) -> is_cur sbi s = false -> locatable sbi s ->
  ckpt_valid_blocks (entry_of sbi s) < 512 ->
  moved_log sbi (change_curseg type mlog reuse sbi) k exc.
Proof.
  intros s Hs Hcur Hlo Hroom; pose proof new_segment_kz as Hk.
  pose proof (tw_seg _ _ (si_sit _ _ _ Hi) s Hs) as Hse; fold (entry_of sbi s) in Hse.
  destruct (change_curseg_shape reuse Hs Hlo) as (sm & di & c & -> & E1 & E2 & E3 & Hdw & Hdl); fold s in E1, E3, Hdl |- *.
  set (sbi' := with_curseg_array _ _).
  assert (Hget : CURSEG_I sbi' k = c) by (apply aget_aset_eq; exact Hk).
  assert (Hx : curseg_segno sbi k <> s).
  { intros E; assert (is_cur sbi s = true) by (apply is_cur_iff; exists k; auto using new_segment_k); congruence. }
  split; [|split; [|split]].
  - apply (move_inv full exc sbi sbi' type k s c); auto using new_segment_k.
    + apply set_test_and_inuse_wf; auto; apply Hi.
    + intros i Hr; cbn [free_i sbi' with_dirty_i with_ssa with_curseg_array with_sit_i with_free_i].
      unfold seg_used; rewrite set_test_and_inuse_segmap; apply test_bit_set; lia.
    + destruct (next_free_spec (geo sbi) (entry_of sbi s) 0 (si_geo _ _ _ Hi) Hse ltac:(lia)) as (Hr & Hp & Hall).
      assert (Hlt : next_blkoff c < 512).
      { rewrite E3; destruct (Z.eq_dec (__next_free_blkoff (geo sbi) (entry_of sbi s) 0) 512) as [Ef|]; [|lia].
        rewrite Ef in Hall; rewrite (sw_ckpt _ Hse), (count_below_all (pinned (entry_of sbi s)) 512) in Hroom; [lia|lia|exact Hall]. }
      constructor; [rewrite E3; lia|rewrite E3 in *; auto|rewrite E2; discriminate].
  - split; [reflexivity|split; [reflexivity|]].
    intros i off; apply (set_type_same (geo sbi)); auto; apply Hi.
  - rewrite (move_is_cur full exc sbi sbi' k s c) by (auto using new_segment_k).
    rewrite Z.eqb_refl, (proj2 (Z.eqb_neq _ s)) by exact Hx; reflexivity.
  - intros t Htt; change (dirty_i sbi') with di; rewrite Hdl; [|exact Htt|].
    + rewrite (cur_unlisted _ _ _ k Hi new_segment_k t Htt); apply andb_false_r.
    + apply (lg_seg _ _ _ (si_log _ _ _ Hi k new_segment_k)).
Qed.
End NewSegment.

(** ** The choice between the two *)

(** The parts of the state the invariant looks at. *)
Lemma frame_inv full exc sbi sbi' :
  sm_inv full exc sbi -> geo sbi' = geo sbi -> sit_i sbi' = sit_i sbi ->
  discard_blks sbi' = discard_blks sbi -> free_i sbi' = free_i sbi -> dirty_i sbi' = dirty_i sbi ->
  curseg_array sbi' = curseg_array sbi -> lv_wf sbi' -> sm_inv full exc sbi'.
Proof.
  intros Hi Eg Es Edb Ef Ed Ec Hl.
  assert (Hcl : forall i, classified sbi i -> classified sbi' i).
  { intros i; apply classified_ext; unfold is_cur, seg_valid, seg_type; rewrite ?Eg, ?Es, ?Ef, ?Ed, ?Ec; auto. }
  constructor; unfold discard_wf, nr_logs, curseg_segno, CURSEG_I, entry_of, seg_type, is_cur;
    rewrite ?Eg, ?Es, ?Ef, ?Ed, ?Ec, ?Edb.
  - apply Hi.
  - apply Hi.
  - apply (si_discard _ _ _ Hi).
  - apply Hi.
  - exact Hl.
  - apply (si_len _ _ _ Hi).
  - apply (si_log _ _ _ Hi).
  - apply (si_cursor _ _ _ Hi).
  - apply (si_inj _ _ _ Hi).
  - apply Hi.
  - apply (si_types _ _ _ Hi).
  - intros i Hr He; apply Hcl, (si_class _ _ _ Hi); assumption.
  - intros i Hr He; destruct (si_loc _ _ _ Hi i Hr He) as (H1 & H2 & H3); split; [|split; [|exact H3]].
    + revert H1; apply locatable_ext; unfold seg_valid, seg_type; rewrite ?Es, ?Ed; auto.
    + intros Hc; apply Hcl, H2; exact Hc.
  - apply (si_empty _ _ _ Hi).
Qed.

(** What a victim search for log [k] leaves: the state as it was but for the
    search position and, when it succeeds, the segment recorded in the log. *)
Definition searched (full : list Z) (k : Z) (sbi : f2fs_sb_info) (r : bool * f2fs_sb_info) : Prop :=
  let '(found, sbi') := r in
  sm_inv full [] sbi' /\ same_blocks sbi sbi' /\ free_i sbi' = free_i sbi /\
  curseg_segno sbi' k = curseg_segno sbi k /\
  (found = true ->
   let s := next_segno (CURSEG_I sbi' k) in
   0 <= s < main_segments (geo sbi) /\ is_cur sbi' s = false /\
   ckpt_valid_blocks (entry_of sbi' s) < 512).

Lemma ssr_victim_ok full k type sbi :
  sm_inv full [] sbi -> 0 <= k < nr_logs sbi -> searched full k sbi (ssr_victim k type sbi).
Proof.
  intros Hi Hk; unfold ssr_victim, searched.
  pose proof (get_victim_ssr sbi BG_GC type (si_geo _ _ _ Hi) (si_sit _ _ _ Hi) (si_lv _ _ _ Hi)) as Hv.
  destruct (get_victim_by_default BG_GC type SSR sbi) as [r sbi1].
  destruct Hv as ((L & -> & HL) & Hr); assert (Hi1 : sm_inv full [] (with_last_victim L sbi)) by (apply (frame_inv _ _ sbi); auto).
  destruct r as [s|].
  - destruct Hr as (Hs & Hcand & Hcost & _).
    set (sbi1 := with_last_victim L sbi) in *; set (c := with_next_segno s (CURSEG_I sbi1 k)).
    assert (Hg : CURSEG_I (set_curseg k c sbi1) k = c)
      by (rewrite curseg_get, Z.eqb_refl; [reflexivity|]; rewrite (si_len _ _ _ Hi1); exact Hk).
    assert (Hi2 : sm_inv full [] (set_curseg k c sbi1)) by (apply set_curseg_inv; auto).
    split; [exact Hi2|split; [repeat split; reflexivity|split; [reflexivity|split]]].
    + unfold curseg_segno; rewrite Hg; reflexivity.
    + intros _; rewrite Hg; split; [exact Hs|split; [|exact Hcost]].
      unfold ssr_candidate, sec_usage_check in Hcand; bool_cases.
      apply not_true_is_false; rewrite is_cur_iff; intros (j & Hj & E).
      assert (Hsec : IS_CURSEC (geo sbi) (curseg_array sbi) (GET_SECNO (geo sbi) s) = true); [|congruence].
      apply IS_CURSEC_spec; exists j; split; [exact Hj|].
      unfold curseg_segno in E; rewrite curseg_get in E by (rewrite (si_len _ _ _ Hi1); exact Hk).
      unfold GET_SECNO; change (s = cs_segno (if k =? j then c else CURSEG_I sbi1 j)) in E; rewrite E.
      destruct (Z.eqb_spec k j) as [->|]; reflexivity.
  - split; [exact Hi1|split; [repeat split; reflexivity|split; [reflexivity|split; [reflexivity|discriminate]]]].
Qed.

Lemma searched_trans full k s1 s2 r :
  same_blocks s1 s2 -> free_i s2 = free_i s1 -> curseg_segno s2 k = curseg_segno s1 k ->
  searched full k s2 r -> searched full k s1 r.
Proof.
  intros H1 H2 H3; destruct r as [found s3]; intros (A & B & C & D & F).
  split; [exact A|split; [eauto using same_blocks_trans|split; [congruence|split; [congruence|]]]].
  destruct H1 as (Eg & _); rewrite <- Eg; exact F.
Qed.

Lemma ssr_down_ok full k n sbi :
  sm_inv full [] sbi -> 0 <= k < nr_logs sbi -> searched full k sbi (ssr_down n k sbi).
Proof.
  revert sbi; induction n as [|n IH]; intros sbi Hi Hk; cbn [ssr_down].
  - split; [exact Hi|split; [apply same_blocks_refl|split; [reflexivity|split; [reflexivity|discriminate]]]].
  - pose proof (ssr_victim_ok full k (CURSEG_HOT_DATA + Z.of_nat n) sbi Hi Hk) as Hv.
    destruct (ssr_victim _ _ sbi) as [found sbi1]; destruct Hv as (A & B & C & D & F).
    destruct found.
    + split; [exact A|split; [exact B|split; [exact C|split; [exact D|exact F]]]].
    + apply (searched_trans full k sbi sbi1); auto; apply IH; [exact A|].
      destruct B as (Eg & _); unfold nr_logs; rewrite Eg; exact Hk.
Qed.

Lemma get_ssr_segment_ok full type mlog sbi :
  sm_inv full [] sbi -> 0 <= type < 6 -> 0 <= mlog < nr_mlog (geo sbi) ->
  searched full (log_of type mlog) sbi (get_ssr_segment type mlog sbi).
Proof.
  intros Hi Ht Hm; pose proof (log_of_range sbi type mlog Ht Hm); unfold get_ssr_segment.
  destruct (_ || _); [apply ssr_victim_ok|apply ssr_down_ok]; assumption.
Qed.

Lemma moved_after_search k sbi sbi1 sbi2 exc :
  same_blocks sbi sbi1 -> curseg_segno sbi1 k = curseg_segno sbi k ->
  moved_log sbi1 sbi2 k exc -> moved_log sbi sbi2 k exc.
Proof.
  intros Hb Es (A & B & C & D); unfold moved_log; rewrite <- Es.
  split; [exact A|split; [eauto using same_blocks_trans|split; [exact C|exact D]]].
Qed.

(** Whatever the mode, a log that needs another segment gets one. *)
Lemma allocate_segment_moved full sbi type mlog force :
  let k := log_of type mlog in
  sm_inv full [] sbi -> 0 <= type < 6 -> 0 <= mlog < nr_mlog (geo sbi) ->
  (forall j, j ∈ full -> j = k) -> 0 < free_sections sbi ->
  moved_log sbi (allocate_segment_by_default type mlog force sbi) k [] /\
  (force = true -> fresh_log (allocate_segment_by_default type mlog force sbi) k).
Proof.
  intros k Hi Ht Hm Hf Hfree.
  assert (Hnew : forall b, moved_log sbi (new_curseg type mlog b sbi) k [] /\
    fresh_log (new_curseg type mlog b sbi) k)
    by (intros b; apply (new_curseg_moved full); assumption).
  unfold allocate_segment_by_default; destruct force; [destruct (Hnew true); auto|].
  split; [|discriminate].
  case_ifs; try apply Hnew; cbv zeta.
  pose proof (get_ssr_segment_ok full type mlog sbi Hi Ht Hm) as Hs.
  destruct (get_ssr_segment type mlog sbi) as [found sbi1]; destruct Hs as (A & B & C & D & F).
  assert (Eg : geo sbi1 = geo sbi) by apply B.
  destruct found.
  - destruct (F eq_refl) as (F1 & F2 & F3).
    apply (moved_after_search k sbi sbi1); [exact B|exact D|].
    apply (change_curseg_moved full); rewrite ?Eg; auto.
    apply classified_locatable, (si_class _ _ _ A); [rewrite Eg; exact F1|apply not_elem_of_nil].
  - apply (moved_after_search k sbi sbi1); [exact B|exact D|].
    apply (new_curseg_moved full); rewrite ?Eg; auto; unfold free_sections; rewrite C; exact Hfree.
Qed.

(** * Whole operations *)

Lemma dirty_same_blocks di sbi : same_blocks sbi (with_dirty_i di sbi).
Proof. repeat split. Qed.

(** [__allocate_new_segments] opens an empty segment for a log. *)
Lemma allocate_new_inv sbi type mlog :
  let k := log_of type mlog in
  let sbi' := __allocate_new_segments type mlog sbi in
  sm_wf sbi -> 0 <= type < 6 -> 0 <= mlog < nr_mlog (geo sbi) -> 0 < free_sections sbi ->
  sm_wf sbi' /\ same_blocks sbi sbi' /\ fresh_log sbi' k.
Proof.
  intros k sbi' Hi Ht Hm Hfree.
  destruct (allocate_segment_moved [] sbi type mlog true Hi Ht Hm ltac:(intros j Hj; inversion Hj) Hfree)
    as ((A & B & _ & _) & C); specialize (C eq_refl); fold k in A, B, C.
  pose proof (log_of_range sbi type mlog Ht Hm) as Hk; fold k in Hk.
  pose proof (lg_seg _ _ _ (si_log _ _ _ Hi k Hk)) as Hs; destruct (B) as (Eg & _).
  destruct (locate_inv [] (curseg_segno sbi k) [] _ A) as (di & E & HD); [rewrite Eg; exact Hs|].
  unfold sbi', __allocate_new_segments; fold k (curseg_segno sbi k).
  rewrite E; split; [exact HD|split; [|exact C]].
  eapply same_blocks_trans; [exact B|apply dirty_same_blocks].
Qed.

Lemma NULL_segno g : GET_SEGNO g NULL_ADDR = NULL_SEGNO.
Proof. reflexivity. Qed.

Lemma NEW_segno g : GET_SEGNO g NEW_ADDR = NULL_SEGNO.
Proof. reflexivity. Qed.

Lemma locate_null sbi : locate_dirty_segment NULL_SEGNO sbi = sbi.
Proof. unfold locate_dirty_segment; rewrite Z.eqb_refl; reflexivity. Qed.

Lemma in_main_real g b : geo_wf g -> in_main g b -> b <> NULL_ADDR /\ b <> NEW_ADDR.
Proof. intros []; unfold in_main, NULL_ADDR, NEW_ADDR; change (u32 (-1)) with (2 ^ 32 - 1); lia. Qed.

(** The old address of a block that is written again: none yet, or a valid block. *)
Definition old_ok (sbi : f2fs_sb_info) (old : Z) : Prop :=
  old = NULL_ADDR \/ old = NEW_ADDR \/ (in_main (geo sbi) old /\ block_valid sbi old = true).

Section Refresh.
Variables (exc : list Z) (sbi : f2fs_sb_info) (old new : Z).
Let s := GET_SEGNO (geo sbi) new.
Let sbi' := refresh_sit_entry old new sbi.
Hypothesis Hi : sm_inv [] exc sbi.
Hypothesis Hexc : forall i, i ∈ exc -> i = s.
Hypothesis Hn : in_main (geo sbi) new.
Hypothesis Hnv : block_valid sbi new = false.
Hypothesis Hused : seg_used (free_i sbi) s = true.
Hypothesis Hpre : in_list (dirty_i sbi) PRE s = false.
Hypothesis Hcur : forall k, 0 <= k < nr_logs sbi -> curseg_segno sbi k = s ->
  GET_BLKOFF_FROM_SEG0 (geo sbi) new < curseg_blkoff sbi k.
Hypothesis Hold : old_ok sbi old.

Lemma exc_ext full e e' st :
  (forall i, i ∈ e <-> i ∈ e') -> sm_inv full e st -> sm_inv full e' st.
Proof.
  intros He []; constructor; try assumption.
  - intros i Hr Hne; apply si_class0; [exact Hr|]; rewrite He; exact Hne.
  - intros i Hr Hin; apply si_loc0; [exact Hr|]; rewrite He; exact Hin.
Qed.

Lemma refresh_first :
  sm_inv [] [s] (update_sit_entry new 1 sbi) /\ s_flag (update_sit_entry new 1 sbi) = s_flag sbi /\
  (forall b, in_main (geo sbi) b ->
     block_valid (update_sit_entry new 1 sbi) b = (b =? new) || block_valid sbi b).
Proof.
  assert (H1 := Hi); destruct H1 as [Hg Hw _ _ _ _ _ _ _ _ _ _ _ _].
  split; [|split].
  - apply (exc_ext [] (s :: exc)).
    { intros i; rewrite elem_of_cons, list_elem_of_singleton; split; [|auto].
      intros [|He]; [assumption|apply Hexc; exact He]. }
    apply update_inv; auto.
  - apply update_s_flag; auto.
  - intros b Hb; rewrite update_block_valid by auto; destruct (b =? new); reflexivity.
Qed.

(** The block [new] becomes valid, [old] becomes invalid, and both segments are
    listed where they belong. *)
Definition refreshed (st : f2fs_sb_info) : Prop :=
  sm_wf st /\ s_flag st = s_flag sbi /\ geo st = geo sbi /\ curseg_array st = curseg_array sbi /\
  (forall b, in_main (geo sbi) b ->
     block_valid st b = (b =? new) || (negb (b =? old) && block_valid sbi b)) /\
  (forall b, block_in_ckpt st b = block_in_ckpt sbi b).

Lemma refresh_no_old :
  old = NULL_ADDR \/ old = NEW_ADDR -> refreshed sbi'.
Proof.
  intros Ho; destruct refresh_first as (A & F & V); destruct (upd_same sbi new 1) as (Eg & _ & _ & Ec & _).
  assert (Hon : GET_SEGNO (geo sbi) old = NULL_SEGNO) by (destruct Ho as [-> | ->]; reflexivity).
  unfold sbi', refresh_sit_entry; set (s1 := update_sit_entry new 1 sbi) in *.
  assert (Hs : 0 <= s < main_segments (geo s1))
    by (rewrite Eg; apply GET_SEGNO_range; [apply Hi|exact Hn]).
  rewrite Eg, Hon, Z.eqb_refl; cbn [negb]; rewrite Eg, Hon, locate_null, Eg.
  destruct (locate_inv [] s [] s1 A Hs) as (di & El & HD); fold s; rewrite El.
  split; [exact HD|split; [exact F|split; [exact Eg|split; [exact Ec|split]]]].
  - intros b Hb; change (block_valid (with_dirty_i di s1) b) with (block_valid s1 b); rewrite V by exact Hb.
    rewrite (proj2 (Z.eqb_neq b old)); [reflexivity|].
    destruct (in_main_real _ b (si_geo _ _ _ Hi) Hb); destruct Ho as [-> | ->]; assumption.
  - intros b; apply (update_block_in_ckpt sbi new 1); auto; apply Hi.
Qed.

Lemma refresh_old :
  in_main (geo sbi) old -> block_valid sbi old = true -> refreshed sbi'.
Proof.
  intros Ho Hov; destruct refresh_first as (A & F & V); destruct (upd_same sbi new 1) as (Eg & _ & _ & Ec & _).
  pose proof (GET_SEGNO_range _ _ (si_geo _ _ _ Hi) Hn) as Hs; fold s in Hs.
  pose proof (GET_SEGNO_range _ _ (si_geo _ _ _ Hi) Ho) as Hso.
  unfold sbi', refresh_sit_entry; set (s1 := update_sit_entry new 1 sbi) in *; rewrite Eg.
  rewrite (proj2 (Z.eqb_neq _ NULL_SEGNO)) by (apply (NULL_SEGNO_out (geo sbi)); [apply Hi|exact Hso]); cbn [negb].
  assert (Hv1 : block_valid s1 old = true) by (rewrite V, Hov by exact Ho; apply orb_true_r).
  assert (Ho1 : in_main (geo s1) old) by (rewrite Eg; exact Ho).
  pose proof (update_inv [s] s1 old (-1) A Ho1 (or_intror eq_refl) Hv1 ltac:(lia)) as B.
  destruct (upd_same s1 old (-1)) as (Eg2 & _ & _ & Ec2 & _).
  assert (F2 : s_flag (update_sit_entry old (-1) s1) = s_flag s1) by (apply update_s_flag; auto; apply A).
  assert (V2 : forall b, in_main (geo s1) b -> block_valid (update_sit_entry old (-1) s1) b
     = if b =? old then false else block_valid s1 b)
    by (intros b Hb; rewrite update_block_valid by (auto; apply A); reflexivity).
  assert (K2 : forall b, block_in_ckpt (update_sit_entry old (-1) s1) b = block_in_ckpt s1 b)
    by (intros b; apply update_block_in_ckpt; auto; apply A).
  rewrite Eg in B, V2; set (s2 := update_sit_entry old (-1) s1) in *; rewrite Eg2, Eg.
  destruct (locate_inv [] _ [s] s2 B ltac:(rewrite Eg2, Eg; exact Hso)) as (d1 & -> & C).
  change (geo (with_dirty_i d1 s2)) with (geo s2); rewrite Eg2, Eg; fold s.
  destruct (locate_inv [] s [] _ C) as (d2 & -> & D); [cbn [geo with_dirty_i]; rewrite Eg2, Eg; exact Hs|].
  split; [exact D|split; [cbn; congruence|split; [cbn; congruence|split; [cbn; congruence|split]]]].
  - intros b Hb; change (block_valid s2 b = (b =? new) || negb (b =? old) && block_valid sbi b).
    rewrite V2, V by exact Hb; destruct (Z.eqb_spec b old) as [->|]; [|reflexivity].
    destruct (Z.eqb_spec old new) as [E|]; [congruence|reflexivity].
  - intros b; change (block_in_ckpt s2 b = block_in_ckpt sbi b); rewrite K2.
    apply (update_block_in_ckpt sbi new 1); auto; apply Hi.
Qed.

Lemma refresh_ok : refreshed sbi'.
Proof. destruct Hold as [E|[E|[Ho Hv]]]; [apply refresh_no_old; auto|apply refresh_no_old; auto|apply refresh_old; auto]. Qed.
End Refresh.
