(* ===== verification/Alloc.v ===== *)
(** The guarantees of block allocation: [allocate_data_block] and
    [invalidate_blocks] keep the invariant of the segment manager, and a block
    handed out is free in the current state and in the last checkpoint
    (src/Max/segment.c). *)

From S2P Require Import Prelude Layout NodePath Bitops SmState FreeSegmap Sit DirtySeg Victim Curseg SegMgr.

#[local] Ltac Zify.zify_post_hook ::= Z.to_euclidean_division_equations.

#[local] Arguments locate_dirty_segment : simpl never.
#[local] Arguments update_sit_entry : simpl never.
#[local] Arguments refresh_sit_entry : simpl never.
#[local] Arguments allocate_segment_by_default : simpl never.
#[local] Arguments __allocate_new_segments : simpl never.

(** * The address of a log's next block *)

Lemma block_at g s o :
  geo_wf g -> 0 <= s < main_segments g -> 0 <= o < 512 ->
  let a := u32 (START_BLOCK g s + o) in
  in_main g a /\ GET_SEGNO g a = s /\ GET_BLKOFF_FROM_SEG0 g a = o.
Proof.
  intros Hg Hs Ho; cbv zeta; rewrite START_BLOCK_val by assumption.
  rewrite u32_small by (destruct Hg; lia).
  assert (Hin : in_main g (main_blkaddr g + s * 512 + o)) by (unfold in_main; lia).
  rewrite GET_SEGNO_val, GET_BLKOFF_val by assumption; split; [exact Hin|lia].
Qed.

(** The next block of a log is writable. *)
Lemma next_free_ok full exc sbi k :
  sm_inv full exc sbi -> 0 <= k < nr_logs sbi -> k ∉ full ->
  let a := NEXT_FREE_BLKADDR (geo sbi) (CURSEG_I sbi k) in
  in_main (geo sbi) a /\ GET_SEGNO (geo sbi) a = curseg_segno sbi k /\
  GET_BLKOFF_FROM_SEG0 (geo sbi) a = curseg_blkoff sbi k /\
  block_valid sbi a = false /\ block_in_ckpt sbi a = false.
Proof.
  intros Hi Hk Hf a; destruct (si_log _ _ _ Hi k Hk) as [Hs _ _].
  destruct (si_cursor _ _ _ Hi k Hk Hf) as [Ho Hp _].
  destruct (block_at (geo sbi) _ _ (si_geo _ _ _ Hi) Hs Ho) as (A & B & C); fold (NEXT_FREE_BLKADDR (geo sbi) (CURSEG_I sbi k)) in A, B, C.
  fold a in A, B, C; split; [exact A|split; [exact B|split; [exact C|]]].
  unfold block_valid, block_in_ckpt; rewrite B, C; apply orb_false_iff; exact Hp.
Qed.

Lemma same_blocks_valid sbi sbi' b :
  same_blocks sbi sbi' -> block_valid sbi' b = block_valid sbi b /\ block_in_ckpt sbi' b = block_in_ckpt sbi b.
Proof.
  intros (Eg & _ & Hb); unfold block_valid, block_in_ckpt; rewrite Eg.
  exact (Hb (GET_SEGNO (geo sbi) b) (GET_BLKOFF_FROM_SEG0 (geo sbi) b)).
Qed.

(** * One allocation, after the choice of the log *)

Section Allocate.
Variables (sbi : f2fs_sb_info) (type mlog old : Z) (sum : f2fs_summary).
Let k := log_of type mlog.
Let new := NEXT_FREE_BLKADDR (geo sbi) (CURSEG_I sbi k).
Hypothesis Hi : sm_wf sbi.
Hypothesis Ht : 0 <= type < 6.
Hypothesis Hm : 0 <= mlog < nr_mlog (geo sbi).
Hypothesis Hfree : 0 < free_sections sbi \/ fresh_log sbi k.
Hypothesis Hold : old_ok sbi old.

Let sbi1 := __add_sum_entry type mlog sum sbi.
Let c := __refresh_next_blkoff (geo sbi1) (sit_i sbi1) (CURSEG_I sbi1 k).
Let sbi2 := set_curseg k c sbi1.
Let sbi3 := if negb (__has_curseg_space type mlog sbi2)
            then allocate_segment_by_default type mlog false sbi2 else sbi2.

Lemma alloc_k : 0 <= k < nr_logs sbi.
Proof. apply log_of_range; assumption. Qed.

Lemma alloc_sum_inv : sm_wf sbi1.
Proof. apply set_curseg_inv; auto using alloc_k. Qed.

Lemma alloc_k1 : 0 <= k < zlen (curseg_array sbi1).
Proof. rewrite (si_len _ _ _ alloc_sum_inv); exact alloc_k. Qed.

Lemma alloc_log1 : exists b, CURSEG_I sbi1 k = with_sum_blk b (CURSEG_I sbi k).
Proof.
  unfold sbi1, __add_sum_entry; fold k; rewrite curseg_get, Z.eqb_refl; [eexists; reflexivity|].
  rewrite (si_len _ _ _ Hi); exact alloc_k.
Qed.

(** After the cursor has moved: the log keeps its segment, behind the new block. *)
Lemma alloc_refresh :
  curseg_blkoff sbi k < next_blkoff c <= 512 /\ cs_segno c = curseg_segno sbi k /\
  sm_inv (if next_blkoff c <? 512 then [] else [k]) [] sbi2 /\
  (fresh_log sbi k -> next_blkoff c = 1).
Proof.
  destruct (refresh_inv [] sbi1 k alloc_sum_inv alloc_k) as (A & B & C).
  fold c in A, B, C; fold sbi2 in C; destruct alloc_log1 as (b & E).
  assert (Eo : curseg_blkoff sbi1 k = curseg_blkoff sbi k /\ curseg_segno sbi1 k = curseg_segno sbi k)
    by (unfold curseg_blkoff, curseg_segno; rewrite E; auto).
  destruct Eo as [Eo Es]; rewrite Eo in A; rewrite Es in B.
  split; [exact A|split; [exact B|split; [exact C|]]].
  unfold fresh_log, curseg_blkoff, curseg_alloc_type; intros [E0 El].
  unfold c, __refresh_next_blkoff; rewrite E; cbn; rewrite E0, El; reflexivity.
Qed.

Lemma alloc_log2 : CURSEG_I sbi2 k = c.
Proof. unfold sbi2; rewrite curseg_get, Z.eqb_refl; [reflexivity|exact alloc_k1]. Qed.

(** What the SIT update needs, whether or not the log moved on. *)
Lemma alloc_segment :
  exists exc, sm_inv [] exc sbi3 /\ same_blocks sbi sbi3 /\
    (forall i, i ∈ exc -> i = curseg_segno sbi k) /\
    unlisted sbi3 (curseg_segno sbi k) /\
    (forall j, 0 <= j < nr_logs sbi -> curseg_segno sbi3 j = curseg_segno sbi k ->
       curseg_blkoff sbi k < curseg_blkoff sbi3 j) /\
    seg_used (free_i sbi3) (curseg_segno sbi k) = true.
Proof.
  destruct alloc_refresh as (A & B & C & D); unfold sbi3.
  assert (Es : curseg_segno sbi2 k = curseg_segno sbi k) by (unfold curseg_segno; rewrite alloc_log2; exact B).
  assert (Hb : same_blocks sbi sbi2) by (repeat split).
  unfold __has_curseg_space; fold k; rewrite alloc_log2, blocks_per_seg_512 by apply Hi.
  destruct (Z.ltb_spec (next_blkoff c) 512) as [Hlt|Hge]; cbn [negb].
  - exists []; split; [exact C|split; [exact Hb|split; [intros i Hin; inversion Hin|split; [|split]]]].
    + rewrite <- Es; apply (cur_unlisted _ _ _ k C alloc_k).
    + intros j Hj E; rewrite <- Es in E; apply (si_inj _ _ _ C) in E; [|exact Hj|exact alloc_k].
      subst j; unfold curseg_blkoff at 2; rewrite alloc_log2; lia.
    + rewrite <- Es; apply (si_log _ _ _ C k alloc_k).
  - assert (Hf2 : 0 < free_sections sbi2) by (destruct Hfree as [|Hf]; [assumption|specialize (D Hf); lia]).
    destruct (allocate_segment_moved [k] sbi2 type mlog false C Ht Hm) as ((M1 & M2 & M3 & M4) & _);
      [intros j Hj; apply list_elem_of_singleton; exact Hj|exact Hf2|]; fold k in M1, M3, M4; rewrite Es in *.
    set (sbi4 := allocate_segment_by_default _ _ _ _) in *.
    exists [curseg_segno sbi k]; split; [exact M1|split; [eauto using same_blocks_trans|split; [|split; [exact M4|split]]]].
    + intros i Hin; apply list_elem_of_singleton; exact Hin.
    + intros j Hj E; exfalso; assert (Hc : is_cur sbi4 (curseg_segno sbi k) = true); [|congruence].
      apply is_cur_iff; exists j; split; [|auto]; unfold nr_logs; destruct M2 as (-> & _); exact Hj.
    + apply (si_loc _ _ _ M1); [|left]; destruct M2 as (-> & _); apply (si_log _ _ _ Hi k alloc_k).
Qed.

Lemma alloc_old_ok : same_blocks sbi sbi3 -> old_ok sbi3 old.
Proof.
  intros Hb; destruct Hold as [E|[E|[Ho Hv]]]; [left; exact E|right; left; exact E|right; right].
  destruct (same_blocks_valid _ _ old Hb) as [-> _]; destruct Hb as (-> & _); auto.
Qed.

Lemma alloc_ok :
  let sbi4 := refresh_sit_entry old new sbi3 in
  sm_wf sbi4 /\ s_flag sbi4 = s_flag sbi /\ geo sbi4 = geo sbi /\
  in_main (geo sbi) new /\ block_valid sbi new = false /\ block_in_ckpt sbi new = false /\
  (forall b, in_main (geo sbi) b ->
     block_valid sbi4 b = (b =? new) || (negb (b =? old) && block_valid sbi b)) /\
  (forall b, block_in_ckpt sbi4 b = block_in_ckpt sbi b).
Proof.
  intros sbi4; destruct alloc_segment as (exc & A & B & Hexc & Hun & Hcur & Hu).
  destruct (next_free_ok [] [] sbi k Hi alloc_k ltac:(apply not_elem_of_nil)) as (N1 & N2 & N3 & N4 & N5).
  fold new in N1, N2, N3, N4, N5; destruct (B) as (Eg & Ef & _).
  assert (En : nr_logs sbi3 = nr_logs sbi) by (unfold nr_logs; rewrite Eg; reflexivity).
  assert (R : refreshed sbi3 old new sbi4).
  { apply (refresh_ok exc); rewrite ?Eg, ?En, ?N2, ?N3; auto.
    - destruct (same_blocks_valid _ _ new B) as [-> _]; exact N4.
    - apply Hun; unfold PRE; lia.
    - apply alloc_old_ok; exact B. }
  destruct R as (R1 & R2 & R3 & R4 & R5 & R6); rewrite Eg in R5.
  split; [exact R1|split; [congruence|split; [congruence|]]].
  split; [exact N1|split; [exact N4|split; [exact N5|split]]].
  - intros b Hb; rewrite R5 by exact Hb; destruct (same_blocks_valid _ _ b B) as [-> _]; reflexivity.
  - intros b; rewrite R6; apply (same_blocks_valid _ _ b B).
Qed.
End Allocate.

(** * Theorems *)

Definition type_ok (type : Z) : Prop := 0 <= type < 6 \/ type = CURSEG_DIRECT_IO.

Lemma next_mlog_wf v sbi : sm_wf sbi -> sm_wf (with_next_mlog v sbi).
Proof. intros Hi; apply (frame_inv _ _ sbi); auto; apply (si_lv _ _ _ Hi). Qed.

Lemma allocate_ok (sbi : f2fs_sb_info) (old type : Z) (sum : f2fs_summary)
  (Hi : sm_wf sbi) (Ht : type_ok type) (Hfree : 0 < free_sections sbi) (Hold : old_ok sbi old) :
  let '(new, next, sbi') := allocate_data_block old sum type sbi in
  geo sbi' = geo sbi /\ sm_wf sbi' /\ s_flag sbi' = s_flag sbi /\
  (in_main (geo sbi) new /\ block_valid sbi new = false /\ block_in_ckpt sbi new = false) /\
  (forall b, in_main (geo sbi) b ->
     block_valid sbi' b = (b =? new) || (negb (b =? old) && block_valid sbi b)) /\
  (forall b, block_in_ckpt sbi' b = block_in_ckpt sbi b) /\
  (in_main (geo sbi) next /\ block_valid sbi' next = false /\ block_in_ckpt sbi' next = false).
Proof.
  unfold allocate_data_block; set (ty := if type =? CURSEG_DIRECT_IO then CURSEG_WARM_DATA else type).
  set (sbi0 := with_next_mlog _ sbi); set (m := u32 (next_mlog sbi0) mod nr_mlog (geo sbi0)).
  assert (Hty : 0 <= ty < 6)
    by (unfold ty; destruct (Z.eqb_spec type CURSEG_DIRECT_IO); [vm_compute; split; congruence|];
        destruct Ht; [assumption|contradiction]).
  assert (Hm : 0 <= m < nr_mlog (geo sbi)) by (apply Z.mod_pos_bound, (gw_mlog _ (si_geo _ _ _ Hi))).
  pose proof (next_mlog_wf (s32 (next_mlog sbi + 1)) sbi Hi) as Hi0; fold sbi0 in Hi0.
  set (k := log_of ty m); set (d := _ && _).
  set (sbi1 := if d then _ else sbi0).
  assert (H1 : sm_wf sbi1 /\ same_blocks sbi0 sbi1 /\ (0 < free_sections sbi1 \/ fresh_log sbi1 k)).
  { unfold sbi1; destruct d; [|split; [exact Hi0|split; [apply same_blocks_refl|left; exact Hfree]]].
    destruct (allocate_new_inv sbi0 ty m Hi0 Hty Hm Hfree) as (A & B & C); auto. }
  destruct H1 as (Hi1 & Hb & Hf1); destruct (Hb) as (Eg & Ef & _).
  assert (Ho1 : old_ok sbi1 old).
  { destruct Hold as [E|[E|[Ho Hv]]]; [left; exact E|right; left; exact E|right; right].
    destruct (same_blocks_valid _ _ old Hb) as [-> _]; rewrite Eg; auto. }
  assert (Hm1 : 0 <= m < nr_mlog (geo sbi1)) by (rewrite Eg; exact Hm).
  destruct (alloc_ok sbi1 ty m old sum Hi1 Hty Hm1 Hf1 Ho1) as (A1 & A2 & A3 & A4 & A5 & A6 & A7 & A8).
  fold k in A1, A2, A3, A4, A5, A6, A7, A8 |- *.
  set (sbi4 := refresh_sit_entry _ _ _) in *; set (new := NEXT_FREE_BLKADDR (geo sbi1) (CURSEG_I sbi1 k)) in *.
  assert (Hv : forall b, block_valid sbi1 b = block_valid sbi b /\ block_in_ckpt sbi1 b = block_in_ckpt sbi b)
    by (intros b; apply (same_blocks_valid sbi0 sbi1 b Hb)).
  change (geo sbi0) with (geo sbi) in Eg; rewrite Eg in *.
  split; [exact A3|split; [exact A1|split; [rewrite A2; exact Ef|split; [|split; [|split]]]]].
  - split; [exact A4|]; destruct (Hv new) as [<- <-]; auto.
  - intros b Hb'; rewrite A7 by exact Hb'; destruct (Hv b) as [-> _]; reflexivity.
  - intros b; rewrite A8; apply Hv.
  - assert (Hk : 0 <= k < nr_logs sbi4) by (unfold nr_logs; rewrite A3; apply (log_of_range sbi); assumption).
    destruct (next_free_ok [] [] sbi4 k A1 Hk ltac:(apply not_elem_of_nil)) as (N1 & _ & _ & N4 & N5).
    rewrite A3 in *; auto.
Qed.

(** C16: allocation is safe.  From a state that satisfies the invariant, with a free
    section left, [allocate_data_block] for any of the six logs or for direct I/O
    returns a block of the main area that neither the current state nor the last
    checkpoint uses; afterwards exactly that block has become valid and the old
    one invalid, the checkpointed state is untouched, no consistency alarm was
    raised, the invariant holds again, and the address put in a node's footer is
    again a writable block. *)
Theorem allocate_data_block_safe (sbi : f2fs_sb_info) (old type : Z) (sum : f2fs_summary)
  (Hi : sm_wf sbi) (Ht : type_ok type) (Hfree : 0 < free_sections sbi) (Hold : old_ok sbi old) :
  let '(new, next, sbi') := allocate_data_block old sum type sbi in
  sm_wf sbi' /\ s_flag sbi' = s_flag sbi /\
  (in_main (geo sbi) new /\ block_valid sbi new = false /\ block_in_ckpt sbi new = false) /\
  (forall b, in_main (geo sbi) b ->
     block_valid sbi' b = (b =? new) || (negb (b =? old) && block_valid sbi b)) /\
  (forall b, block_in_ckpt sbi' b = block_in_ckpt sbi b) /\
  (in_main (geo sbi) next /\ block_valid sbi' next = false /\ block_in_ckpt sbi' next = false).
Proof.
  pose proof (allocate_ok sbi old type sum Hi Ht Hfree Hold) as H.
  destruct (allocate_data_block old sum type sbi) as [[new next] sbi']; apply H.
Qed.

(** ** Mount *)

(** The free map and the dirty lists are built last, from the SIT and the logs, as
    in [build_segment_manager]. *)
Definition build_maps (sbi : f2fs_sb_info) : f2fs_sb_info :=
  build_dirty_segmap
    (with_free_i (init_free_segmap (geo sbi) (sit_i sbi) (curseg_array sbi) (build_free_segmap (geo sbi))) sbi).

(** What the checkpoint provides: a consistent SIT whose entries are those of the
    checkpoint, and logs on distinct segments with a writable next block. *)
Record mount_ok (sbi : f2fs_sb_info) : Prop := {
  mo_geo : geo_wf (geo sbi);
  mo_sit : sit_wf (geo sbi) (sit_i sbi);
  mo_discard : discard_wf sbi;
  mo_lv : lv_wf sbi;
  mo_len : zlen (curseg_array sbi) = nr_logs sbi;
  mo_seg : forall k, 0 <= k < nr_logs sbi -> 0 <= curseg_segno sbi k < main_segments (geo sbi);
  mo_mode : forall k, 0 <= k < nr_logs sbi ->
    curseg_alloc_type sbi k = LFS \/ curseg_alloc_type sbi k = SSR;
  mo_cursor : forall k, 0 <= k < nr_logs sbi ->
    cursor_wf (CURSEG_I sbi k) (entry_of sbi (curseg_segno sbi k));
  mo_inj : forall j k, 0 <= j < nr_logs sbi -> 0 <= k < nr_logs sbi ->
    curseg_segno sbi j = curseg_segno sbi k -> j = k;
  mo_types : forall i, 0 <= i < main_segments (geo sbi) -> 0 <= seg_type sbi i < 6;
  mo_ckpt : forall i, 0 <= i < main_segments (geo sbi) ->
    ckpt_valid_map (entry_of sbi i) = cur_valid_map (entry_of sbi i);
}.

Lemma ckpt_count se :
  seg_wf se -> ckpt_valid_map se = cur_valid_map se -> ckpt_valid_blocks se = valid_blocks se.
Proof.
  intros Hw E; rewrite (sw_valid _ Hw), (sw_ckpt _ Hw); apply count_below_ext; intros i _.
  unfold pinned, ckpt_valid, cur_valid; rewrite E; apply orb_diag.
Qed.

Lemma mount_wf sbi : mount_ok sbi -> sm_wf (build_maps sbi).
Proof.
  intros []; unfold build_maps.
  destruct (init_free_segmap_ok (geo sbi) (sit_i sbi) (curseg_array sbi) mo_geo0 mo_seg0) as [Hfw Hfu].
  set (fi := init_free_segmap _ _ _ _) in *; set (sbi1 := with_free_i fi sbi).
  assert (Hfree : forall i, 0 <= i < main_segments (geo sbi) ->
    seg_used fi i = true <-> seg_valid sbi1 i <> 0 \/ is_cur sbi1 i = true).
  { intros i Hr; rewrite (Hfu i Hr), is_cur_iff; split; (intros [|(k & Hk & E)]; [auto|right; exists k; auto]). }
  destruct (build_dirty_segmap_ok sbi1 mo_geo0 mo_sit0 mo_types0 Hfree) as (di & E & Hd).
  rewrite E in *; destruct Hd as [D1 D2 D3].
  constructor; try assumption.
  - intros k Hk; constructor; [apply mo_seg0; exact Hk| |apply mo_mode0; exact Hk].
    apply (Hfree _ (mo_seg0 k Hk)); right; apply is_cur_iff; exists k; auto.
  - intros k Hk _; apply mo_cursor0; exact Hk.
  - intros i Hr _; apply D3; exact Hr.
  - intros i _ Hin; inversion Hin.
  - intros i Hr Hu; change (ckpt_valid_blocks (entry_of sbi i) = 0).
    rewrite ckpt_count by (try apply mo_ckpt0; try apply mo_sit0; assumption).
    destruct (Z.eq_dec (seg_valid sbi i) 0); [assumption|].
    change (seg_used fi i = false) in Hu; rewrite (proj2 (Hfree i Hr)) in Hu; [discriminate|left; assumption].
Qed.

Lemma build_maps_shape sbi : mount_ok sbi -> exists di fi, build_maps sbi = with_dirty_i di (with_free_i fi sbi).
Proof.
  intros []; unfold build_maps.
  destruct (init_free_segmap_ok (geo sbi) (sit_i sbi) (curseg_array sbi) mo_geo0 mo_seg0) as [_ Hfu].
  set (fi := init_free_segmap _ _ _ _) in *; set (sbi1 := with_free_i fi sbi).
  destruct (build_dirty_segmap_ok sbi1 mo_geo0 mo_sit0 mo_types0) as (di & -> & _); [|exists di, fi; reflexivity].
  intros i Hr; unfold sbi1 at 1; cbn [free_i with_free_i]; rewrite (Hfu i Hr), is_cur_iff.
  split; (intros [|(k & Hk & E)]; [auto|right; exists k; auto]).
Qed.

(** C26: mounting establishes the invariant: from a consistent SIT and logs restored
    from a checkpoint, the free map and the dirty lists that
    [init_free_segmap] and [build_dirty_segmap] construct satisfy, together with
    the rest of the state, everything the allocator relies on. *)
Theorem mount_establishes_invariant (sbi : f2fs_sb_info) (H : mount_ok sbi) :
  sm_wf (build_maps sbi) /\ same_blocks sbi (build_maps sbi).
Proof.
  split; [apply mount_wf; exact H|destruct (build_maps_shape sbi H) as (di & fi & ->); repeat split].
Qed.

Lemma cs_ex_get k : 0 <= k < 12 -> cs_ex.[k] = mk_curseg inhabitant LFS (2 * k) 0 (k / 2) NULL_SEGNO.
Proof.
  intros Hk; assert (Hc : forall n, (n < 12)%nat -> cs_ex.[Z.of_nat n]
    = mk_curseg inhabitant LFS (2 * Z.of_nat n) 0 (Z.of_nat n / 2) NULL_SEGNO)
    by (intros n Hn; do 12 (destruct n as [|n]; [reflexivity|]); lia).
  specialize (Hc (Z.to_nat k) ltac:(lia)); rewrite Z2Nat.id in Hc by lia; exact Hc.
Qed.

Lemma empty_pinned off : 0 <= off < 512 -> pinned inhabitant off = false.
Proof.
  intros Ho; apply (count_below_0_inv (pinned inhabitant) 512); [|exact Ho].
  rewrite <- (sw_ckpt _ empty_entry_wf); reflexivity.
Qed.

Lemma sbi_ex_mount : mount_ok sbi_ex.
Proof.
  constructor.
  - exact geo_ex_wf.
  - exact sit_ex_wf.
  - exact discard_ex_wf.
  - split; [reflexivity|repeat constructor; lia].
  - reflexivity.
  - exact cs_ex_range.
  - intros k Hk; change (0 <= k < 12) in Hk; left; unfold curseg_alloc_type, CURSEG_I; cbn [curseg_array sbi_ex].
    rewrite cs_ex_get by exact Hk; reflexivity.
  - intros k Hk; change (0 <= k < 12) in Hk; unfold curseg_segno, CURSEG_I, entry_of; cbn [curseg_array sbi_ex sit_i].
    rewrite cs_ex_get, sit_ex_entry by exact Hk; constructor; cbn [next_blkoff alloc_type]; [lia| |].
    + apply empty_pinned; lia.
    + intros _; exact empty_pinned.
  - intros j k Hj Hk; change (0 <= j < 12) in Hj; change (0 <= k < 12) in Hk.
    unfold curseg_segno, CURSEG_I; cbn [curseg_array sbi_ex]; rewrite !cs_ex_get by assumption; cbn; lia.
  - intros i _; unfold seg_type; cbn [sit_i sbi_ex]; rewrite sit_ex_entry; vm_compute; split; congruence.
  - intros i _; unfold entry_of; cbn [sit_i sbi_ex]; rewrite sit_ex_entry; reflexivity.
Qed.

Lemma mount_establishes_invariant_witness :
  sm_wf (build_maps sbi_ex) /\ same_blocks sbi_ex (build_maps sbi_ex).
Proof. exact (mount_establishes_invariant sbi_ex sbi_ex_mount). Defined.

(** The mounted example volume. *)
Definition sbi_mnt : f2fs_sb_info := build_maps sbi_ex.

Lemma sbi_mnt_wf : sm_wf sbi_mnt.
Proof. exact (mount_wf sbi_ex sbi_ex_mount). Qed.

Lemma allocate_data_block_safe_witness :
  let sum := mk_summary 7 0 3 in
  let '(new, next, sbi') := allocate_data_block NULL_ADDR sum CURSEG_WARM_DATA sbi_mnt in
  sm_wf sbi' /\ s_flag sbi' = s_flag sbi_mnt /\
  (in_main (geo sbi_mnt) new /\ block_valid sbi_mnt new = false /\ block_in_ckpt sbi_mnt new = false) /\
  (forall b, in_main (geo sbi_mnt) b ->
     block_valid sbi' b = (b =? new) || (negb (b =? NULL_ADDR) && block_valid sbi_mnt b)) /\
  (forall b, block_in_ckpt sbi' b = block_in_ckpt sbi_mnt b) /\
  (in_main (geo sbi_mnt) next /\ block_valid sbi' next = false /\ block_in_ckpt sbi' next = false).
Proof.
  intros sum; apply (allocate_data_block_safe sbi_mnt NULL_ADDR CURSEG_WARM_DATA sum sbi_mnt_wf).
  - left; vm_compute; split; congruence.
  - vm_compute; reflexivity.
  - left; reflexivity.
Defined.

(** ** Invalidation *)

Lemma invalidate_ok sbi a :
  sm_wf sbi -> in_main (geo sbi) a -> block_valid sbi a = true ->
  let sbi' := invalidate_blocks a sbi in
  sm_wf sbi' /\ s_flag sbi' = s_flag sbi /\ geo sbi' = geo sbi /\
  (forall b, in_main (geo sbi) b -> block_valid sbi' b = negb (b =? a) && block_valid sbi b) /\
  (forall b, block_in_ckpt sbi' b = block_in_ckpt sbi b).
Proof.
  intros Hi Ha Hv; destruct (in_main_real _ a (si_geo _ _ _ Hi) Ha) as [Hn1 Hn2]; unfold invalidate_blocks.
  rewrite (proj2 (Z.eqb_neq a NULL_ADDR) Hn1), (proj2 (Z.eqb_neq a NEW_ADDR) Hn2); cbn [f2fs_bug_on].
  pose proof (update_inv [] sbi a (-1) Hi Ha (or_intror eq_refl) Hv ltac:(lia)) as B.
  destruct (upd_same sbi a (-1)) as (Eg & _).
  assert (F : s_flag (update_sit_entry a (-1) sbi) = s_flag sbi) by (apply update_s_flag; auto; apply Hi).
  assert (V : forall b, in_main (geo sbi) b -> block_valid (update_sit_entry a (-1) sbi) b
     = if b =? a then false else block_valid sbi b)
    by (intros b Hb; rewrite update_block_valid by (auto; apply Hi); reflexivity).
  assert (K : forall b, block_in_ckpt (update_sit_entry a (-1) sbi) b = block_in_ckpt sbi b)
    by (intros b; apply update_block_in_ckpt; auto; apply Hi).
  set (s1 := update_sit_entry a (-1) sbi) in *.
  pose proof (GET_SEGNO_range _ _ (si_geo _ _ _ Hi) Ha) as Hs.
  destruct (locate_inv [] _ [] s1 B ltac:(rewrite Eg; exact Hs)) as (d1 & -> & C).
  split; [exact C|split; [exact F|split; [exact Eg|split; [|exact K]]]].
  intros b Hb; change (block_valid s1 b = negb (b =? a) && block_valid sbi b); rewrite V by exact Hb.
  destruct (b =? a); reflexivity.
Qed.

(** [invalidate_blocks] of a valid block frees exactly that block in the current
    state and nothing in the checkpointed one, so the block stays out of reach of
    the allocator until a checkpoint has been written; the invariant is kept and
    no alarm raised. *)
Theorem invalidate_blocks_safe (sbi : f2fs_sb_info) (a : Z)
  (Hi : sm_wf sbi) (Ha : in_main (geo sbi) a) (Hv : block_valid sbi a = true) :
  let sbi' := invalidate_blocks a sbi in
  sm_wf sbi' /\ s_flag sbi' = s_flag sbi /\
  (forall b, in_main (geo sbi) b -> block_valid sbi' b = negb (b =? a) && block_valid sbi b) /\
  (forall b, block_in_ckpt sbi' b = block_in_ckpt sbi b).
Proof. destruct (invalidate_ok sbi a Hi Ha Hv) as (A & B & _ & C & D); auto. Qed.

(** The mounted example volume after one write. *)
Definition sum_ex : f2fs_summary := mk_summary 7 0 3.
Definition sbi_written : f2fs_sb_info := snd (allocate_data_block NULL_ADDR sum_ex CURSEG_WARM_DATA sbi_mnt).
Definition blk_written : Z := fst (fst (allocate_data_block NULL_ADDR sum_ex CURSEG_WARM_DATA sbi_mnt)).

(** ** Runs *)

(** One operation on the allocator; the list holds the blocks it hands out for
    writing. *)
Inductive sm_step (sbi : f2fs_sb_info) : list Z -> f2fs_sb_info -> Prop :=
| step_allocate old sum type new next sbi' :
    type_ok type -> 0 < free_sections sbi -> old_ok sbi old ->
    allocate_data_block old sum type sbi = (new, next, sbi') ->
    sm_step sbi [new] sbi'
| step_invalidate a :
    in_main (geo sbi) a -> block_valid sbi a = true ->
    sm_step sbi [] (invalidate_blocks a sbi)
| step_new_segment type mlog :
    0 <= type < 6 -> 0 <= mlog < nr_mlog (geo sbi) -> 0 < free_sections sbi ->
    sm_step sbi [] (__allocate_new_segments type mlog sbi).

Inductive sm_run (sbi : f2fs_sb_info) : list Z -> f2fs_sb_info -> Prop :=
| run_refl : sm_run sbi [] sbi
| run_step ws sbi1 w sbi2 : sm_run sbi ws sbi1 -> sm_step sbi1 w sbi2 -> sm_run sbi (ws ++ w) sbi2.

Lemma step_ok sbi w sbi' :
  sm_step sbi w sbi' -> sm_wf sbi ->
  geo sbi' = geo sbi /\ sm_wf sbi' /\ s_flag sbi' = s_flag sbi /\
  (forall b, b ∈ w -> in_main (geo sbi) b /\ block_valid sbi b = false /\ block_in_ckpt sbi b = false) /\
  (forall b, block_in_ckpt sbi' b = block_in_ckpt sbi b).
Proof.
  intros Hst Hi; destruct Hst as [old sum type new next sbi' Ht Hf Ho E|a Ha Hv|type mlog Ht Hm Hf].
  - pose proof (allocate_ok sbi old type sum Hi Ht Hf Ho) as H; rewrite E in H.
    destruct H as (A & B & C & D & _ & F & _).
    split; [exact A|split; [exact B|split; [exact C|split; [|exact F]]]].
    intros b Hb; apply list_elem_of_singleton in Hb; subst b; exact D.
  - destruct (invalidate_ok sbi a Hi Ha Hv) as (A & B & C & D & F).
    split; [exact C|split; [exact A|split; [exact B|split; [|exact F]]]]; intros b Hb; inversion Hb.
  - destruct (allocate_new_inv sbi type mlog Hi Ht Hm Hf) as (A & B & _); destruct (B) as (B1 & B2 & _).
    split; [exact B1|split; [exact A|split; [exact B2|split]]]; [intros b Hb; inversion Hb|].
    intros b; apply (same_blocks_valid _ _ b B).
Qed.

(** Between two checkpoints the blocks of the last checkpoint are never
    overwritten: along any sequence of allocations, invalidations and openings of
    segments, no block handed out for writing belongs to the checkpoint the run
    started from, the set of checkpointed blocks stays as it was, and the invariant
    holds at the end with no alarm raised.  So a crash at any point finds the data
    of the last checkpoint intact. *)
Theorem checkpoint_never_overwritten (sbi sbi' : f2fs_sb_info) (ws : list Z)
  (Hi : sm_wf sbi) (Hrun : sm_run sbi ws sbi') :
  sm_wf sbi' /\ s_flag sbi' = s_flag sbi /\
  (forall b, b ∈ ws -> in_main (geo sbi) b /\ block_in_ckpt sbi b = false) /\
  (forall b, block_in_ckpt sbi' b = block_in_ckpt sbi b).
Proof.
  assert (H : geo sbi' = geo sbi /\ sm_wf sbi' /\ s_flag sbi' = s_flag sbi /\
    (forall b, b ∈ ws -> in_main (geo sbi) b /\ block_in_ckpt sbi b = false) /\
    (forall b, block_in_ckpt sbi' b = block_in_ckpt sbi b)); [|apply H].
  induction Hrun as [|ws sbi1 w sbi2 _ (G & A & B & C & D) Hst].
  - split; [reflexivity|split; [exact Hi|split; [reflexivity|split; [|auto]]]]; intros b Hb; inversion Hb.
  - destruct (step_ok _ _ _ Hst A) as (G' & A' & B' & C' & D').
    split; [congruence|split; [exact A'|split; [congruence|split; [|intros b; rewrite D'; apply D]]]].
    intros b Hb; apply elem_of_app in Hb; destruct Hb as [Hb|Hb]; [auto|].
    destruct (C' b Hb) as (M & _ & K); rewrite G in M; rewrite D in K; auto.
Qed.


Lemma step_alloc_snd sbi old sum type :
  type_ok type -> 0 < free_sections sbi -> old_ok sbi old ->
  sm_step sbi [fst (fst (allocate_data_block old sum type sbi))] (snd (allocate_data_block old sum type sbi)).
Proof.
  intros Ht Hf Ho; destruct (allocate_data_block old sum type sbi) as [[new next] sbi'] eqn:E.
  exact (step_allocate sbi old sum type new next sbi' Ht Hf Ho E).
Qed.

Lemma step_written : sm_step sbi_mnt [blk_written] sbi_written.
Proof.
  apply step_alloc_snd; [left; vm_compute; split; congruence|vm_compute; reflexivity|left; reflexivity].
Qed.

Lemma blk_written_facts : in_main (geo sbi_written) blk_written /\ block_valid sbi_written blk_written = true.
Proof. split; [vm_compute; split; congruence|vm_compute; reflexivity]. Qed.

Lemma sbi_written_wf : sm_wf sbi_written.
Proof. apply (step_ok _ _ _ step_written sbi_mnt_wf). Qed.

Lemma run_ex : sm_run sbi_mnt (([] ++ [blk_written]) ++ []) (invalidate_blocks blk_written sbi_written).
Proof.
  apply (run_step _ _ sbi_written); [|apply step_invalidate; apply blk_written_facts].
  apply (run_step _ _ sbi_mnt); [apply run_refl|exact step_written].
Qed.

Lemma checkpoint_never_overwritten_witness :
  let sbi' := invalidate_blocks blk_written sbi_written in
  sm_wf sbi' /\ s_flag sbi' = s_flag sbi_mnt /\
  (forall b, b ∈ ([] ++ [blk_written]) ++ [] -> in_main (geo sbi_mnt) b /\ block_in_ckpt sbi_mnt b = false) /\
  (forall b, block_in_ckpt sbi' b = block_in_ckpt sbi_mnt b).
Proof. exact (checkpoint_never_overwritten sbi_mnt _ _ sbi_mnt_wf run_ex). Defined.
