(* ===== verification/Discard.v ===== *)
(** Discards and the release of prefree segments (src/Max/segment.c:
    f2fs_issue_discard, __add_discard_entry, add_discard_addrs,
    set_prefree_as_free_segments, clear_prefree_segments). *)

From S2P Require Import Prelude Layout Bitops SmState FreeSegmap Sit DirtySeg.

#[local] Ltac Zify.zify_post_hook ::= Z.to_euclidean_division_equations.

(** * Definitions *)

Definition CP_UMOUNT : Z := 0.
Definition CP_FASTBOOT : Z := 1.
Definition CP_SYNC : Z := 2.
Definition CP_DISCARD : Z := 4.

Record cp_control := mk_cpc {
  cp_reason : Z;
  trim_start : Z;
  trim_end : Z;
  trim_minlen : Z;
  trimmed : Z;
}.

Definition with_trim_start (v : Z) (c : cp_control) : cp_control :=
  mk_cpc (cp_reason c) v (trim_end c) (trim_minlen c) (trimmed c).

Definition with_trimmed (v : Z) (c : cp_control) : cp_control :=
  mk_cpc (cp_reason c) (trim_start c) (trim_end c) (trim_minlen c) v.

(** One block of a discard: it is counted as discarded. *)
Definition discard_block (i : Z) (sbi : f2fs_sb_info) : f2fs_sb_info :=
  let segno := GET_SEGNO (geo sbi) i in
  let se := get_seg_entry (sit_i sbi) segno in
  let offset := GET_BLKOFF_FROM_SEG0 (geo sbi) i in
  let '(old, d) := f2fs_test_and_set_bit offset (discard_map se) in
  let sbi := with_sit_i (set_seg_entry segno (with_discard_map d se) (sit_i sbi)) sbi in
  if negb old then with_discard_blks (u32 (discard_blks sbi - 1)) sbi else sbi.

(** The state, with the request sent to the device added to the list [cmds]. *)
Definition f2fs_issue_discard (blkstart blklen : Z) (st : f2fs_sb_info * list (Z * Z)) :
  f2fs_sb_info * list (Z * Z) :=
  let '(sbi, cmds) := st in
  (for_range blkstart (blkstart + blklen) discard_block sbi, cmds ++ [(blkstart, blklen)]).

(** ** Small discards *)

Definition __add_discard_entry (segno start fin : Z) (sbi : f2fs_sb_info) : f2fs_sb_info :=
  let blkaddr := u32 (START_BLOCK (geo sbi) segno + start) in
  let l :=
    match last (discard_list sbi) with
    | Some (b, n) =>
        if blkaddr =? u32 (b + n)
        then removelast (discard_list sbi) ++ [(b, n + (fin - start))]
        else discard_list sbi ++ [(blkaddr, fin - start)]
    | None => discard_list sbi ++ [(blkaddr, fin - start)]
    end in
  with_nr_discards (nr_discards sbi + (fin - start)) (with_discard_list l sbi).

(** The candidates of a segment: for a trim, the blocks that are neither in use at
    the checkpoint nor discarded yet; otherwise the blocks the checkpoint frees. *)
Definition discard_candidates (force : bool) (se : seg_entry) : list Z :=
  if force
  then zip_with (fun c d => u8 (Z.land (Z.lnot c) (Z.lnot d))) (ckpt_valid_map se) (discard_map se)
  else zip_with (fun c k => Z.land (Z.lxor c k) k) (cur_valid_map se) (ckpt_valid_map se).

(** [while (force || nr_discards <= max_discards)]; [pos] is [end + 1].  Each round
    moves [pos] past a run, so [max_blocks + 1] rounds are enough. *)
Fixpoint discard_loop (fuel : nat) (force : bool) (dmap : list Z) (segno max_blocks pos : Z)
  (sbi : f2fs_sb_info) : f2fs_sb_info :=
  match fuel with
  | O => sbi
  | S fuel =>
      if force || (nr_discards sbi <=? max_discards sbi) then
        let start := __find_rev_next_bit [] dmap max_blocks pos in
        if max_blocks <=? start then sbi else
        let fin := __find_rev_next_zero_bit [] dmap max_blocks (start + 1) in
        discard_loop fuel force dmap segno max_blocks (fin + 1) (__add_discard_entry segno start fin sbi)
      else sbi
  end.

Definition add_discard_addrs (cpc : cp_control) (sbi : f2fs_sb_info) : f2fs_sb_info :=
  let max_blocks := blocks_per_seg (geo sbi) in
  let se := get_seg_entry (sit_i sbi) (trim_start cpc) in
  let force := cp_reason cpc =? CP_DISCARD in
  if valid_blocks se =? max_blocks then sbi
  else if negb force &&
          (negb (test_opt sbi F2FS_MOUNT_DISCARD) || (valid_blocks se =? 0)
           || (max_discards sbi <=? nr_discards sbi))
  then sbi
  else discard_loop (S (Z.to_nat max_blocks)) force (discard_candidates force se)
         (trim_start cpc) max_blocks 0 sbi.

(** ** Prefree segments *)

(** [for_each_set_bit]: the bit is tested when the loop reaches it. *)
Definition for_each_set_bit {S} (lo hi : Z) (m : S -> Z) (f : Z -> S -> S) (s : S) : S :=
  for_range lo hi (fun i s => if test_bit i (m s) then f i s else s) s.

Definition set_prefree_as_free_segments (sbi : f2fs_sb_info) : f2fs_sb_info :=
  for_each_set_bit 0 (MAIN_SEGS (geo sbi)) (fun sbi => (dirty_segmap (dirty_i sbi)).[PRE])
    (fun segno sbi => with_free_i (__set_test_and_free (geo sbi) segno (free_i sbi)) sbi) sbi.

Definition clear_pre_run (start fin : Z) (di : dirty_seglist_info) : dirty_seglist_info :=
  let m := for_range start fin clear_bit ((dirty_segmap di).[PRE]) in
  let di := with_dirty_segmap ((dirty_segmap di).[PRE <- m]) di in
  with_nr_dirty ((nr_dirty di).[PRE <- (nr_dirty di).[PRE] - (fin - start)]) di.

(** The loop over the runs of prefree segments. *)
Fixpoint prefree_loop (fuel : nat) (pos : Z) (st : f2fs_sb_info * list (Z * Z)) :
  f2fs_sb_info * list (Z * Z) :=
  match fuel with
  | O => st
  | S fuel =>
      let '(sbi, cmds) := st in
      let m := (dirty_segmap (dirty_i sbi)).[PRE] in
      let start := find_next_bit m (MAIN_SEGS (geo sbi)) pos in
      if MAIN_SEGS (geo sbi) <=? start then st else
      let fin := find_next_zero_bit m (MAIN_SEGS (geo sbi)) (start + 1) in
      let sbi := with_dirty_i (clear_pre_run start fin (dirty_i sbi)) sbi in
      let st := if negb (test_opt sbi F2FS_MOUNT_DISCARD) then (sbi, cmds)
                else f2fs_issue_discard (START_BLOCK (geo sbi) start)
                       (Z.shiftl (fin - start) (log_blocks_per_seg (geo sbi))) (sbi, cmds) in
      prefree_loop fuel (fin + 1) st
  end.

(** One entry of the list of small discards. *)
Definition send_small (st : f2fs_sb_info * list (Z * Z) * cp_control) (e : Z * Z) :
  f2fs_sb_info * list (Z * Z) * cp_control :=
  let '(sbi, cmds, cpc) := st in
  let '(blkaddr, len) := e in
  let '(sbi, cmds, cpc) :=
    if (cp_reason cpc =? CP_DISCARD) && (len <? trim_minlen cpc) then (sbi, cmds, cpc)
    else let '(sbi, cmds) := f2fs_issue_discard blkaddr len (sbi, cmds) in
         (sbi, cmds, with_trimmed (u64 (trimmed cpc + len)) cpc) in
  (with_nr_discards (nr_discards sbi - len) sbi, cmds, cpc).

Definition clear_prefree_segments (cpc : cp_control) (sbi : f2fs_sb_info) :
  f2fs_sb_info * list (Z * Z) * cp_control :=
  let '(sbi, cmds) := prefree_loop (S (Z.to_nat (MAIN_SEGS (geo sbi)))) 0 (sbi, []) in
  let '(sbi, cmds, cpc) := fold_left send_small (discard_list sbi) (sbi, cmds, cpc) in
  (with_discard_list [] sbi, cmds, cpc).

Definition release_discard_addrs (sbi : f2fs_sb_info) : f2fs_sb_info := with_discard_list [] sbi.

(** * Issuing discards *)

(** Only the record of what has been discarded changes, and it grows. *)
Record discarded (sbi sbi' : f2fs_sb_info) : Prop := {
  dd_shape : exists v L, sbi' = with_discard_blks v (with_sit_i (with_sentries L (sit_i sbi)) sbi);
  dd_entry : forall i, exists d,
    get_seg_entry (sit_i sbi') i = with_discard_map d (get_seg_entry (sit_i sbi) i);
  dd_sit : sit_wf (geo sbi) (sit_i sbi');
  dd_wf : discard_wf sbi -> discard_wf sbi';
}.

Lemma discarded_refl sbi : sit_wf (geo sbi) (sit_i sbi) -> discarded sbi sbi.
Proof.
  intros Hw; constructor; auto.
  - exists (discard_blks sbi), (sentries (sit_i sbi)); destruct sbi as [? ? ? ? ? []]; reflexivity.
  - intros i; exists (discard_map (get_seg_entry (sit_i sbi) i)); destruct (get_seg_entry _ _); reflexivity.
Qed.

Lemma discarded_geo sbi sbi' : discarded sbi sbi' -> geo sbi' = geo sbi.
Proof. intros [(v & L & ->) _ _ _]; reflexivity. Qed.

Lemma discarded_trans s1 s2 s3 : discarded s1 s2 -> discarded s2 s3 -> discarded s1 s3.
Proof.
  intros H1 H2; pose proof (discarded_geo _ _ H1) as Eg.
  destruct H1 as [(v & L & ->) D1 S1 W1], H2 as [(v' & L' & ->) D2 S2 W2]; constructor; auto.
  - exists v', L'; reflexivity.
  - intros i; destruct (D1 i) as [d1 E1], (D2 i) as [d2 E2]; exists d2; rewrite E2, E1; reflexivity.
Qed.

Section Issue.
Variables (sbi : f2fs_sb_info) (a : Z).
Let g := geo sbi.
Let s := GET_SEGNO g a.
Let o := GET_BLKOFF_FROM_SEG0 g a.
Let se := get_seg_entry (sit_i sbi) s.
Hypothesis Hg : geo_wf g.
Hypothesis Hw : sit_wf g (sit_i sbi).
Hypothesis Ha : in_main g a.

Let se' := with_discard_map (f2fs_set_bit o (discard_map se)) se.
Let si' := set_seg_entry s se' (sit_i sbi).

Lemma issue_s : 0 <= s < main_segments g.
Proof. apply GET_SEGNO_range; assumption. Qed.

Lemma issue_o : 0 <= o < 512.
Proof. apply GET_BLKOFF_range; assumption. Qed.

Lemma issue_get i : get_seg_entry si' i = if s =? i then se' else get_seg_entry (sit_i sbi) i.
Proof. apply (get_set_seg_entry g); [apply Hw|exact issue_s]. Qed.

Lemma issue_se_wf : seg_wf se'.
Proof.
  pose proof issue_o; destruct (tw_seg _ _ Hw s issue_s) as [L1 L2 L3 B1 B2 V C D].
  constructor; try assumption.
  - cbn; autorewrite with maxrw; exact L3.
  - intros off Ho Hc; cbn; rewrite f2fs_test_bit_set by (fold se in L3; lia).
    fold se in D; rewrite (D off Ho Hc); apply orb_true_r.
Qed.

Lemma issue_sit : sit_wf g si'.
Proof.
  destruct (Hw) as [T1 T2 T3 T4 T5]; constructor; try assumption.
  - cbn; rewrite zlen_aset; exact T1.
  - intros i Hi; rewrite issue_get; case_ifs; [apply issue_se_wf|auto].
  - intros Hs j Hj; cbn [sec_entries si' set_seg_entry with_sentries]; rewrite T4 by assumption.
    apply sum_below_ext; intros i Hi; rewrite issue_get; case_ifs; [rewrite <- Heqb|]; reflexivity.
Qed.

Lemma discard_block_eq :
  discard_block a sbi =
  with_discard_blks (if f2fs_test_bit o (discard_map se) then discard_blks sbi
                     else u32 (discard_blks sbi - 1)) (with_sit_i si' sbi).
Proof.
  unfold discard_block, f2fs_test_and_set_bit; fold g s o se; fold si'.
  destruct (f2fs_test_bit o (discard_map se)); cbn; [destruct sbi|]; reflexivity.
Qed.

Lemma issue_discardable :
  discardable se' = discardable se - b2z (negb (f2fs_test_bit o (discard_map se))).
Proof.
  pose proof issue_o; pose proof (sw_discard_len _ (tw_seg _ _ Hw s issue_s)) as Hl; fold se in Hl.
  unfold discardable; cbn [discard_map se' with_discard_map]; rewrite popcount_set by lia.
  destruct (f2fs_test_bit o (discard_map se)); cbn; lia.
Qed.

Lemma discard_block_ok : discarded sbi (discard_block a sbi).
Proof.
  rewrite discard_block_eq; constructor.
  - eexists _, _; unfold si', set_seg_entry; reflexivity.
  - intros i; change (sit_i (with_discard_blks _ (with_sit_i si' sbi))) with si'; rewrite issue_get.
    case_ifs; [subst i; eexists; reflexivity|].
    exists (discard_map (get_seg_entry (sit_i sbi) i)); destruct (get_seg_entry (sit_i sbi) i); reflexivity.
  - exact issue_sit.
  - unfold discard_wf; intros Hd; cbn [geo with_discard_blks with_sit_i sit_i discard_blks]; fold g in Hd |- *.
    pose proof issue_s as Hs; destruct (Hw) as [T1 T2 _ _ _].
    rewrite (sum_below_upd (fun i => discardable (get_seg_entry (sit_i sbi) i)) _ (main_segments g) s Hs)
      by (intros; rewrite issue_get; case_ifs; [lia|reflexivity]).
    rewrite issue_get, Z.eqb_refl, issue_discardable; fold se; rewrite <- Hd.
    assert (Hge := sum_below_ge_term (fun i => discardable (get_seg_entry (sit_i sbi) i)) (main_segments g)
      s Hs ltac:(intros; apply discardable_range, T2; assumption)); cbv beta in Hge; fold se in Hge.
    assert (Hub : sum_below (fun i => discardable (get_seg_entry (sit_i sbi) i)) (main_segments g)
       <= 512 * main_segments g).
    { rewrite <- sum_below_const by lia; apply sum_below_le; intros; apply discardable_range, T2; assumption. }
    pose proof issue_discardable as He; pose proof (discardable_range _ (sw_discard_len _ issue_se_wf)).
    destruct Hg; destruct (f2fs_test_bit o (discard_map se)); cbn in *; [lia|rewrite u32_small; lia].
Qed.
End Issue.

(** A run of blocks of the main area. *)
Definition run_in_main (g : geometry) (b n : Z) : Prop :=
  0 <= n /\ main_blkaddr g <= b /\ b + n <= main_blkaddr g + main_segments g * 512.

Lemma issue_ok sbi b n cmds :
  geo_wf (geo sbi) -> sit_wf (geo sbi) (sit_i sbi) -> run_in_main (geo sbi) b n ->
  exists sbi', f2fs_issue_discard b n (sbi, cmds) = (sbi', cmds ++ [(b, n)]) /\ discarded sbi sbi'.
Proof.
  intros Hg Hw (Hn & Hb & Ht); eexists; split; [reflexivity|].
  apply (for_range_inv (discarded sbi)); [apply discarded_refl; exact Hw|].
  intros i t Hi Hd; pose proof (discarded_geo _ _ Hd) as Eg.
  eapply discarded_trans; [exact Hd|].
  apply discard_block_ok; rewrite ?Eg; [exact Hg|apply Hd|unfold in_main; lia].
Qed.

(** * Collecting small discards *)

Definition in_run (a : Z) (e : Z * Z) : Prop := fst e <= a < fst e + snd e.

(** The blocks of a list of discards, and their number. *)
Definition in_discard (l : list (Z * Z)) (a : Z) : Prop := Exists (in_run a) l.

Definition total_len (l : list (Z * Z)) : Z := fold_right (fun e n => snd e + n) 0 l.

Definition runs_in_main (g : geometry) (l : list (Z * Z)) : Prop :=
  Forall (fun e => run_in_main g (fst e) (snd e)) l.

Lemma in_discard_app l k a : in_discard (l ++ k) a <-> in_discard l a \/ in_discard k a.
Proof. apply Exists_app. Qed.

Lemma in_discard_one b n a : in_discard [(b, n)] a <-> b <= a < b + n.
Proof. unfold in_discard; rewrite Exists_cons, Exists_nil; unfold in_run; cbn; tauto. Qed.

Lemma total_len_app l k : total_len (l ++ k) = total_len l + total_len k.
Proof. unfold total_len; induction l; cbn; [reflexivity|rewrite IHl; lia]. Qed.

Lemma last_split {A} (l : list A) x : last l = Some x -> l = removelast l ++ [x].
Proof.
  induction l as [|y l IH]; [discriminate|]; destruct l as [|z l]; cbn in *.
  - intros [= ->]; reflexivity.
  - intros H; rewrite <- IH by exact H; reflexivity.
Qed.

Lemma add_entry_ok segno start fin sbi :
  geo_wf (geo sbi) -> 0 <= segno < main_segments (geo sbi) -> 0 <= start <= fin -> fin <= 512 ->
  runs_in_main (geo sbi) (discard_list sbi) ->
  exists l, __add_discard_entry segno start fin sbi
            = with_nr_discards (nr_discards sbi + (fin - start)) (with_discard_list l sbi) /\
    runs_in_main (geo sbi) l /\ total_len l = total_len (discard_list sbi) + (fin - start) /\
    forall a, in_discard l a <-> in_discard (discard_list sbi) a \/
      START_BLOCK (geo sbi) segno + start <= a < START_BLOCK (geo sbi) segno + fin.
Proof.
  intros Hg Hs Hr Hf Hl; unfold __add_discard_entry.
  rewrite START_BLOCK_val by assumption; set (base := main_blkaddr (geo sbi) + segno * 512).
  rewrite (u32_small (base + start)) by (unfold base; destruct Hg; lia).
  assert (Hrun : run_in_main (geo sbi) (base + start) (fin - start))
    by (unfold run_in_main, base; destruct Hg; nia).
  assert (Hnew : exists l, l = discard_list sbi ++ [(base + start, fin - start)] /\
    runs_in_main (geo sbi) l /\ total_len l = total_len (discard_list sbi) + (fin - start) /\
    forall a, in_discard l a <-> in_discard (discard_list sbi) a \/ base + start <= a < base + fin).
  { eexists; split; [reflexivity|split; [|split]].
    - apply Forall_app; split; [exact Hl|constructor; [exact Hrun|constructor]].
    - rewrite total_len_app; cbn; lia.
    - intros a; rewrite in_discard_app, in_discard_one; replace (base + start + (fin - start)) with (base + fin) by lia.
      reflexivity. }
  destruct Hnew as (ln & En & Hn1 & Hn2 & Hn3); rewrite <- En.
  destruct (last (discard_list sbi)) as [[b n]|] eqn:El; [|exists ln; auto].
  apply last_split in El; set (r := removelast (discard_list sbi)) in *.
  assert (Hb : run_in_main (geo sbi) b n)
    by (unfold runs_in_main in Hl; rewrite El, Forall_app, Forall_singleton in Hl; apply Hl).
  destruct (Z.eqb_spec (base + start) (u32 (b + n))) as [E|E]; [|exists ln; auto].
  rewrite u32_small in E by (unfold run_in_main in Hb; destruct Hg; lia).
  eexists; split; [reflexivity|split; [|split]].
  - unfold runs_in_main in *; rewrite El in Hl; rewrite Forall_app, Forall_singleton in Hl |- *.
    split; [apply Hl|unfold run_in_main in *; cbn; lia].
  - rewrite El; rewrite !total_len_app; cbn; lia.
  - intros a; rewrite El; rewrite !in_discard_app, !in_discard_one.
    unfold run_in_main in *; assert (Hx : (b <= a < b + (n + (fin - start))) <-> (b <= a < b + n \/ base + start <= a < base + fin)) by lia.
    rewrite Hx; tauto.
Qed.

Lemma rev_next_bit_any addr size offset :
  0 <= offset -> 0 <= size <= 8 * zlen addr ->
  __find_rev_next_bit [] addr size offset = find_next (fun i => f2fs_test_bit i addr) size offset.
Proof.
  intros Ho Hs; destruct (Z_le_gt_dec offset size).
  - apply find_rev_next_bit_eq; lia.
  - unfold __find_rev_next_bit, find_next; cbv zeta.
    rewrite (proj2 (Z.leb_le size offset)) by lia.
    match goal with |- context [scan ?p ?f ?o] => destruct (scan_spec p f o) as (Hr & _) end.
    rewrite (proj2 (Z.ltb_lt _ _)) by lia; reflexivity.
Qed.

Section Collect.
Variables (force : bool) (dmap : list Z) (segno : Z).
Let dm (off : Z) : bool := f2fs_test_bit off dmap.
Hypothesis Hlen : zlen dmap = 64.

(** The run the loop collects next. *)
Lemma next_run pos :
  0 <= pos ->
  let start := __find_rev_next_bit [] dmap 512 pos in
  let fin := __find_rev_next_zero_bit [] dmap 512 (start + 1) in
  0 <= start <= 512 /\ (forall i, pos <= i < start -> dm i = false) /\
  (start < 512 -> pos <= start /\ start + 1 <= fin <= 512 /\
     (forall i, start <= i < fin -> dm i = true) /\ (fin < 512 -> dm fin = false)).
Proof.
  intros Hp start fin.
  assert (Es : start = find_next dm 512 pos) by (apply rev_next_bit_any; lia).
  destruct (Z_le_gt_dec pos 512) as [Hle|Hgt].
  - destruct (find_next_spec dm 512 pos ltac:(lia)) as (Hr & Ht & Hf); rewrite <- Es in Hr, Ht, Hf.
    split; [lia|split; [exact Hf|]]; intros Hlt.
    assert (Ef : fin = find_next (fun i => negb (dm i)) 512 (start + 1))
      by (apply find_rev_next_zero_bit_eq; lia).
    destruct (find_next_spec (fun i => negb (dm i)) 512 (start + 1) ltac:(lia)) as (Hr2 & Ht2 & Hf2).
    rewrite <- Ef in Hr2, Ht2, Hf2.
    split; [lia|split; [lia|split]].
    + intros i Hi; destruct (Z.eq_dec i start) as [->|]; [apply Ht; lia|].
      apply negb_false_iff, Hf2; lia.
    + intros Hl; apply negb_true_iff, Ht2; exact Hl.
  - assert (start = 512) by (rewrite Es; unfold find_next; rewrite (proj2 (Z.leb_le 512 pos)) by lia; reflexivity).
    split; [lia|split; [intros; lia|lia]].
Qed.

(** The loop adds runs of candidates; all of them, unless the limit is reached. *)
Lemma discard_loop_ok fuel pos sbi :
  let g := geo sbi in
  geo_wf g -> 0 <= segno < main_segments g -> runs_in_main g (discard_list sbi) ->
  0 <= pos -> 512 - pos < Z.of_nat fuel ->
  exists l n, discard_loop fuel force dmap segno 512 pos sbi
              = with_nr_discards n (with_discard_list l sbi) /\
    runs_in_main g l /\ n - total_len l = nr_discards sbi - total_len (discard_list sbi) /\
    (forall a, in_discard l a -> in_discard (discard_list sbi) a \/
       exists off, pos <= off < 512 /\ dm off = true /\ a = START_BLOCK g segno + off) /\
    (forall a, in_discard (discard_list sbi) a -> in_discard l a) /\
    ((force = false /\ max_discards sbi < n) \/
     forall off, pos <= off < 512 -> dm off = true -> in_discard l (START_BLOCK g segno + off)).
Proof.
  cbv zeta; revert pos sbi; induction fuel as [|fuel IH]; intros pos sbi Hg Hs Hl Hp Hf.
  { exists (discard_list sbi), (nr_discards sbi); split; [destruct sbi; reflexivity|].
    split; [exact Hl|split; [lia|split; [auto|split; [auto|right; intros; lia]]]]. }
  cbn [discard_loop]; destruct (next_run pos Hp) as (Hst & Hff & Hrun).
  set (start := __find_rev_next_bit [] dmap 512 pos) in *.
  set (fin := __find_rev_next_zero_bit [] dmap 512 (start + 1)) in *.
  destruct (force || (nr_discards sbi <=? max_discards sbi)) eqn:Egd.
  2:{ apply orb_false_iff in Egd; destruct Egd as [E1 E2]; apply Z.leb_gt in E2.
      exists (discard_list sbi), (nr_discards sbi); split; [destruct sbi; reflexivity|].
      split; [exact Hl|split; [lia|split; [auto|split; [auto|left; auto]]]]. }
  destruct (Z.leb_spec 512 start) as [Hge|Hlt].
  { exists (discard_list sbi), (nr_discards sbi); split; [destruct sbi; reflexivity|].
    split; [exact Hl|split; [lia|split; [auto|split; [auto|right]]]].
    intros off Ho Hd; rewrite Hff in Hd by lia; discriminate. }
  destruct (Hrun Hlt) as (H1 & H2 & H3 & H4); clear Hrun.
  destruct (add_entry_ok segno start fin sbi Hg Hs ltac:(lia) ltac:(lia) Hl) as (l1 & -> & L1 & L2 & L3).
  set (sbi1 := with_nr_discards _ _).
  destruct (IH (fin + 1) sbi1 Hg Hs L1 ltac:(lia) ltac:(lia)) as (l & n & -> & M1 & M2 & M3 & M4 & M5).
  cbn [nr_discards discard_list sbi1 with_nr_discards with_discard_list max_discards geo] in *.
  exists l, n; split; [reflexivity|split; [exact M1|split; [lia|split; [|split]]]].
  - intros a Ha; destruct (M3 a Ha) as [Ha'|(off & Ho & Hd & ->)]; [|right; exists off; split; [lia|auto]].
    apply L3 in Ha'; destruct Ha' as [|Hr]; [auto|right].
    exists (a - START_BLOCK (geo sbi) segno); split; [lia|split; [apply H3; lia|lia]].
  - intros a Ha; apply M4, L3; auto.
  - destruct M5 as [|M5]; [auto|right]; intros off Ho Hd.
    destruct (Z_lt_ge_dec off start); [rewrite Hff in Hd by lia; discriminate|].
    destruct (Z_lt_ge_dec off fin); [apply M4, L3; right; lia|].
    destruct (Z.eq_dec off fin) as [->|]; [rewrite H4 in Hd by lia; discriminate|].
    apply M5; [lia|exact Hd].
Qed.
End Collect.

Lemma candidates_len force se : seg_wf se -> zlen (discard_candidates force se) = 64.
Proof. intros []; unfold discard_candidates; destruct force; rewrite zlen_zip_with; lia. Qed.

Lemma u8_testbit x i : 0 <= i < 8 -> Z.testbit (u8 x) i = Z.testbit x i.
Proof. intros Hi; unfold u8; change 256 with (2 ^ 8); rewrite Z.mod_pow2_bits_low by lia; reflexivity. Qed.

Lemma candidates_bit force se off :
  seg_wf se -> 0 <= off < 512 ->
  f2fs_test_bit off (discard_candidates force se) =
  if force then negb (ckpt_valid se off) && negb (f2fs_test_bit off (discard_map se))
  else ckpt_valid se off && negb (cur_valid se off).
Proof.
  intros [] Ho; unfold discard_candidates, ckpt_valid, cur_valid; destruct force; rewrite !f2fs_test_bit_testbit;
    rewrite aget_zip_with by lia; set (j := 7 - off mod 8); assert (0 <= j < 8) by (unfold j; lia).
  - rewrite u8_testbit, Z.land_spec, !Z.lnot_spec by lia; reflexivity.
  - rewrite Z.land_spec, Z.lxor_spec.
    destruct (Z.testbit ((cur_valid_map se).[off / 8]) j), (Z.testbit ((ckpt_valid_map se).[off / 8]) j); reflexivity.
Qed.

Lemma block_at_seg g s o :
  geo_wf g -> 0 <= s < main_segments g -> 0 <= o < 512 ->
  let a := START_BLOCK g s + o in
  in_main g a /\ GET_SEGNO g a = s /\ GET_BLKOFF_FROM_SEG0 g a = o.
Proof.
  intros Hg Hs Ho; cbv zeta; rewrite START_BLOCK_val by assumption.
  assert (Hin : in_main g (main_blkaddr g + s * 512 + o)) by (unfold in_main; lia).
  rewrite GET_SEGNO_val, GET_BLKOFF_val by assumption; split; [exact Hin|lia].
Qed.

Lemma add_discard_ok cpc sbi :
  let g := geo sbi in
  let s := trim_start cpc in
  let force := cp_reason cpc =? CP_DISCARD in
  geo_wf g -> sit_wf g (sit_i sbi) -> 0 <= s < main_segments g -> runs_in_main g (discard_list sbi) ->
  exists l n, add_discard_addrs cpc sbi = with_nr_discards n (with_discard_list l sbi) /\
    runs_in_main g l /\ n - total_len l = nr_discards sbi - total_len (discard_list sbi) /\
    (forall a, in_discard l a -> in_discard (discard_list sbi) a \/
       (in_main g a /\ GET_SEGNO g a = s /\ block_valid sbi a = false /\
        block_in_ckpt sbi a = negb force)) /\
    (forall a, in_discard (discard_list sbi) a -> in_discard l a) /\
    (force = true -> forall off, 0 <= off < 512 ->
       ckpt_valid (get_seg_entry (sit_i sbi) s) off = false ->
       f2fs_test_bit off (discard_map (get_seg_entry (sit_i sbi) s)) = false ->
       in_discard l (START_BLOCK g s + off)).
Proof.
  cbv zeta; intros Hg Hw Hs Hl; unfold add_discard_addrs; rewrite blocks_per_seg_512 by exact Hg.
  set (s := trim_start cpc) in *; set (se := get_seg_entry (sit_i sbi) s).
  pose proof (tw_seg _ _ Hw s Hs) as Hse; fold se in Hse.
  set (force := cp_reason cpc =? CP_DISCARD).
  assert (Hnone : valid_blocks se = 512 \/ force = false ->
    exists l n, sbi = with_nr_discards n (with_discard_list l sbi) /\
    runs_in_main (geo sbi) l /\ n - total_len l = nr_discards sbi - total_len (discard_list sbi) /\
    (forall a, in_discard l a -> in_discard (discard_list sbi) a \/
       (in_main (geo sbi) a /\ GET_SEGNO (geo sbi) a = s /\ block_valid sbi a = false /\
        block_in_ckpt sbi a = negb force)) /\
    (forall a, in_discard (discard_list sbi) a -> in_discard l a) /\
    (force = true -> forall off, 0 <= off < 512 -> ckpt_valid se off = false ->
       f2fs_test_bit off (discard_map se) = false -> in_discard l (START_BLOCK (geo sbi) s + off))).
  { intros Hn; exists (discard_list sbi), (nr_discards sbi); split; [destruct sbi; reflexivity|].
    split; [exact Hl|split; [lia|split; [auto|split; [auto|]]]]; intros Hf off Ho _ Hd.
    destruct Hn as [Hn|]; [|congruence]; exfalso.
    assert (Hc : cur_valid se off = true); [|rewrite (sw_discard _ Hse off Ho Hc) in Hd; discriminate].
    destruct (cur_valid se off) eqn:E; [reflexivity|].
    pose proof (sw_valid _ Hse) as Hv; rewrite Hn in Hv.
    pose proof (count_below_negb (cur_valid se) 512 ltac:(lia)).
    pose proof (count_below_pos (fun i => negb (cur_valid se i)) 512 off Ho ltac:(cbv beta; rewrite E; reflexivity)); lia. }
  destruct (Z.eqb_spec (valid_blocks se) 512) as [Ev|Ev]; [apply Hnone; auto|].
  destruct (negb force && _) eqn:Eq; [apply andb_true_iff in Eq; destruct Eq as [Eq _]; apply negb_true_iff in Eq; auto|].
  destruct (discard_loop_ok force (discard_candidates force se) s (candidates_len force se Hse)
    (S (Z.to_nat 512)) 0 sbi Hg Hs Hl ltac:(lia) ltac:(lia)) as (l & n & E & M1 & M2 & M3 & M4 & M5).
  exists l, n; split; [exact E|split; [exact M1|split; [exact M2|split; [|split; [exact M4|]]]]].
  - intros a Ha; destruct (M3 a Ha) as [|(off & Ho & Hd & ->)]; [auto|right].
    destruct (block_at_seg (geo sbi) s off Hg Hs Ho) as (A & B & C).
    split; [exact A|split; [exact B|]]; unfold block_valid, block_in_ckpt; rewrite B, C; fold se.
    rewrite candidates_bit in Hd by assumption; destruct force; bool_cases; [|auto].
    split; [|assumption]; apply not_true_is_false; intros Hc.
    rewrite (sw_discard _ Hse off Ho Hc) in *; discriminate.
  - intros Hf off Ho Hk Hd; destruct M5 as [[Hn _]|M5]; [congruence|].
    apply M5; [exact Ho|]; rewrite candidates_bit, Hf, Hk, Hd by assumption; reflexivity.
Qed.

(** * Releasing prefree segments *)

Lemma ltb_succ i n : i <> n -> (i <? n + 1) = (i <? n).
Proof. intros; destruct (Z.ltb_spec i n), (Z.ltb_spec i (n + 1)); lia || reflexivity. Qed.

Lemma set_prefree_ok sbi :
  let g := geo sbi in
  geo_wf g -> free_wf g (free_i sbi) ->
  exists fi, set_prefree_as_free_segments sbi = with_free_i fi sbi /\ free_wf g fi /\
    forall i, 0 <= i < main_segments g ->
      seg_used fi i = seg_used (free_i sbi) i && negb (in_list (dirty_i sbi) PRE i).
Proof.
  cbv zeta; intros Hg Hw; unfold set_prefree_as_free_segments, for_each_set_bit, MAIN_SEGS.
  pose proof (main_segments_bound _ Hg).
  destruct (for_range_ind (fun n t => exists fi, t = with_free_i fi sbi /\ free_wf (geo sbi) fi /\
    forall i, 0 <= i < main_segments (geo sbi) ->
      seg_used fi i = seg_used (free_i sbi) i && negb ((i <? n) && in_list (dirty_i sbi) PRE i))
    0 (main_segments (geo sbi))
    (fun i s => if test_bit i ((dirty_segmap (dirty_i s)).[PRE])
                then with_free_i (__set_test_and_free (geo s) i (free_i s)) s else s) sbi)
    as (fi & -> & Hfw & Hin); [lia| | |].
  - exists (free_i sbi); split; [destruct sbi; reflexivity|split; [exact Hw|]].
    intros i Hi; rewrite (proj2 (Z.ltb_ge i 0)) by lia; rewrite andb_true_r; reflexivity.
  - intros n t Hn (fi & -> & Hfw & Hin); cbn [dirty_i with_free_i geo free_i].
    change (test_bit n ((dirty_segmap (dirty_i sbi)).[PRE])) with (in_list (dirty_i sbi) PRE n).
    destruct (in_list (dirty_i sbi) PRE n) eqn:En.
    + eexists; split; [reflexivity|split; [apply set_test_and_free_wf; assumption|]].
      intros i Hi; unfold seg_used at 1; rewrite set_test_and_free_segmap by assumption; rewrite test_bit_clear by lia.
      fold (seg_used fi i); rewrite Hin by exact Hi.
      destruct (Z.eqb_spec i n) as [->|].
      * rewrite En, (proj2 (Z.ltb_lt n (n + 1))) by lia; cbn; rewrite andb_false_r; reflexivity.
      * rewrite ltb_succ by assumption.
        reflexivity.
    + exists fi; split; [reflexivity|split; [exact Hfw|]]; intros i Hi; rewrite Hin by exact Hi.
      destruct (Z.eq_dec i n) as [->|]; [rewrite En, !andb_false_r; reflexivity|].
      rewrite ltb_succ by assumption.
      reflexivity.
  - exists fi; split; [reflexivity|split; [exact Hfw|]]; intros i Hi; rewrite Hin by exact Hi.
    rewrite (proj2 (Z.ltb_lt i (main_segments (geo sbi)))) by lia; reflexivity.
Qed.

Lemma clear_range_bit lo hi m i :
  0 <= lo <= hi -> 0 <= i ->
  test_bit i (for_range lo hi clear_bit m) = negb ((lo <=? i) && (i <? hi)) && test_bit i m.
Proof.
  intros Hr Hi.
  apply (for_range_ind (fun n t => test_bit i t = negb ((lo <=? i) && (i <? n)) && test_bit i m)); [lia| |].
  - destruct (Z.leb_spec lo i), (Z.ltb_spec i lo); try lia; reflexivity.
  - intros n t Hn IH; rewrite test_bit_clear, IH by lia.
    destruct (Z.eqb_spec i n) as [->|Hne].
    + rewrite (proj2 (Z.leb_le lo n)), (proj2 (Z.ltb_lt n (n + 1))) by lia; reflexivity.
    + rewrite ltb_succ by assumption.
      reflexivity.
Qed.

Lemma count_interval lo hi n :
  0 <= n -> 0 <= lo -> count_below (fun i => (lo <=? i) && (i <? hi)) n = Z.max 0 (Z.min hi n - lo).
Proof.
  intros Hn Hlo; revert n Hn; apply natlike_ind; [unfold count_below; rewrite sum_below_0; lia|].
  intros n Hn IH; unfold Z.succ; rewrite count_below_succ, IH by lia.
  destruct (Z.leb_spec lo n), (Z.ltb_spec n hi); cbn; lia.
Qed.

Lemma count_below_add p q r n :
  (forall i, 0 <= i < n -> b2z (p i) = b2z (q i) + b2z (r i)) ->
  count_below p n = count_below q n + count_below r n.
Proof. intros H; unfold count_below; rewrite <- sum_below_add; apply sum_below_ext; exact H. Qed.

Lemma clear_pre_run_ok g di lo hi :
  dirty_cnt_wf g di -> 0 <= lo <= hi -> hi <= main_segments g ->
  (forall i, lo <= i < hi -> in_list di PRE i = true) ->
  dirty_cnt_wf g (clear_pre_run lo hi di) /\
  forall t i, 0 <= t < 8 -> 0 <= i ->
    in_list (clear_pre_run lo hi di) t i
    = negb ((t =? PRE) && (lo <=? i) && (i <? hi)) && in_list di t i.
Proof.
  intros [L1 L2 C] Hr Hh Hset; change NR_DIRTY_TYPE with 8 in *.
  assert (Hin : forall t i, 0 <= t < 8 -> 0 <= i ->
    in_list (clear_pre_run lo hi di) t i
    = negb ((t =? PRE) && (lo <=? i) && (i <? hi)) && in_list di t i).
  { intros t i Ht Hi; unfold in_list, clear_pre_run; cbn [dirty_segmap with_nr_dirty with_dirty_segmap].
    rewrite aget_aset by (unfold PRE; lia); rewrite (Z.eqb_sym t).
    destruct (Z.eqb_spec PRE t) as [<-|]; [rewrite clear_range_bit by lia|]; reflexivity. }
  split; [|exact Hin].
  constructor; change NR_DIRTY_TYPE with 8.
  - unfold clear_pre_run; cbn; rewrite zlen_aset; exact L1.
  - unfold clear_pre_run; cbn; rewrite zlen_aset; exact L2.
  - intros t Ht; unfold clear_pre_run at 1; cbn [nr_dirty with_nr_dirty with_dirty_segmap].
    rewrite aget_aset by (unfold PRE; lia); destruct (Z.eqb_spec PRE t) as [<-|Hne].
    + rewrite C by (unfold PRE; lia).
      rewrite (count_below_add (in_list di PRE) (in_list (clear_pre_run lo hi di) PRE)
                 (fun i => (lo <=? i) && (i <? hi))).
      * rewrite count_interval by lia; lia.
      * intros i Hi; rewrite Hin by (unfold PRE; lia); rewrite Z.eqb_refl; cbn [andb].
        destruct (Z.leb_spec lo i), (Z.ltb_spec i hi); cbn; try lia; rewrite Hset by lia; reflexivity.
    + rewrite C by exact Ht; apply count_below_ext; intros i Hi; rewrite Hin by lia.
      rewrite (proj2 (Z.eqb_neq t PRE)) by auto; reflexivity.
Qed.

Lemma discarded_dirty d sbi sbi' :
  discarded sbi sbi' -> discarded (with_dirty_i d sbi) (with_dirty_i d sbi').
Proof. intros [(v & L & ->) D S W]; constructor; auto; exists v, L; reflexivity. Qed.

Section Prefree.
Variable sbi0 : f2fs_sb_info.
Let g := geo sbi0.
Hypothesis Hg : geo_wf g.
Hypothesis Hw : sit_wf g (sit_i sbi0).
Hypothesis Hd : dirty_cnt_wf g (dirty_i sbi0).
Let pre (i : Z) : bool := in_list (dirty_i sbi0) PRE i.

(** The state when the segments below [pos] have been released. *)
Record released (pos : Z) (st : f2fs_sb_info * list (Z * Z)) : Prop := {
  re_dirty : exists di, discarded (with_dirty_i di sbi0) (fst st) /\ dirty_cnt_wf g di /\
    forall t i, 0 <= t < 8 -> 0 <= i < main_segments g ->
      in_list di t i = negb ((t =? PRE) && (i <? pos)) && in_list (dirty_i sbi0) t i;
  re_runs : runs_in_main g (snd st);
  re_safe : forall a, in_discard (snd st) a -> in_main g a /\ pre (GET_SEGNO g a) = true;
  re_all : test_opt sbi0 F2FS_MOUNT_DISCARD = true -> forall a, in_main g a -> GET_SEGNO g a < pos ->
    pre (GET_SEGNO g a) = true -> in_discard (snd st) a;
}.

Lemma run_blocks lo hi a :
  0 <= lo <= hi -> hi <= main_segments g ->
  (START_BLOCK g lo <= a < START_BLOCK g lo + Z.shiftl (hi - lo) (log_blocks_per_seg g)) <->
  in_main g a /\ lo <= GET_SEGNO g a < hi.
Proof.
  intros Hr Hh; rewrite (gw_log _ Hg), shiftl9.
  destruct (Z.eq_dec lo hi) as [->|Hne]; [replace ((hi - hi) * 512) with 0 by lia; split; lia|].
  rewrite START_BLOCK_val by (assumption || lia); split.
  - intros Ha; assert (Hin : in_main g a) by (unfold in_main; destruct Hg; nia).
    split; [exact Hin|rewrite GET_SEGNO_val by assumption; lia].
  - intros [Hin Hs]; rewrite GET_SEGNO_val in Hs by assumption; unfold in_main in Hin; lia.
Qed.

Lemma released_skip pos pos' st :
  released pos st -> 0 <= pos -> (forall i, pos <= i < pos' -> i < main_segments g -> pre i = false) ->
  pos <= pos' -> released pos' st.
Proof.
  intros [(di & D1 & D2 & D3) R S A] Hp Hz Hle; constructor; auto.
  - exists di; split; [exact D1|split; [exact D2|]]; intros t i Ht Hi; rewrite D3 by assumption.
    destruct (Z.eqb_spec t PRE) as [->|]; [|reflexivity].
    destruct (Z.ltb_spec i pos), (Z.ltb_spec i pos'); try lia; try reflexivity; cbn.
    apply Hz; lia.
  - intros Hdis a Ha Hs Hpr; apply A; auto.
    destruct (Z_lt_ge_dec (GET_SEGNO g a) pos); [assumption|].
    rewrite Hz in Hpr; [discriminate|lia|apply GET_SEGNO_range; assumption].
Qed.

(** One run of prefree segments is released. *)
Lemma released_run lo hi sbi cmds :
  released lo (sbi, cmds) -> 0 <= lo <= hi -> hi <= main_segments g ->
  (forall i, lo <= i < hi -> pre i = true) ->
  released hi
    (let sbi := with_dirty_i (clear_pre_run lo hi (dirty_i sbi)) sbi in
     if negb (test_opt sbi F2FS_MOUNT_DISCARD) then (sbi, cmds)
     else f2fs_issue_discard (START_BLOCK (geo sbi) lo)
            (Z.shiftl (hi - lo) (log_blocks_per_seg (geo sbi))) (sbi, cmds)).
Proof.
  intros [(di & D1 & D2 & D3) R S A] Hr Hh Hset; cbn [fst snd] in *.
  assert (Ed : dirty_i sbi = di /\ geo sbi = g /\ mount_opt sbi = mount_opt sbi0)
    by (destruct D1 as [(v & L & ->) _ _ _]; auto).
  destruct Ed as (Ed & Eg & Em); rewrite Ed.
  destruct (clear_pre_run_ok g di lo hi D2 Hr Hh) as [C1 C2].
  { intros i Hi; rewrite D3 by (unfold PRE; lia); rewrite (proj2 (Z.ltb_ge i lo)), andb_false_r by lia.
    apply Hset; exact Hi. }
  set (di1 := clear_pre_run lo hi di) in *; cbv zeta.
  pose proof (discarded_dirty di1 _ _ D1) as D1'.
  change (with_dirty_i di1 (with_dirty_i di sbi0)) with (with_dirty_i di1 sbi0) in D1'.
  assert (C3 : forall t i, 0 <= t < 8 -> 0 <= i < main_segments g ->
      in_list di1 t i = negb ((t =? PRE) && (i <? hi)) && in_list (dirty_i sbi0) t i).
  { intros t i Ht Hi; rewrite C2, D3 by lia.
    destruct (t =? PRE), (Z.leb_spec lo i), (Z.ltb_spec i hi), (Z.ltb_spec i lo); try lia; reflexivity. }
  change (test_opt (with_dirty_i di1 sbi) F2FS_MOUNT_DISCARD) with (negb (Z.land (mount_opt sbi) F2FS_MOUNT_DISCARD =? 0)).
  rewrite Em; fold (test_opt sbi0 F2FS_MOUNT_DISCARD).
  destruct (test_opt sbi0 F2FS_MOUNT_DISCARD) eqn:Eo; cbn [negb].
  - change (geo (with_dirty_i di1 sbi)) with (geo sbi); rewrite Eg.
    set (b := START_BLOCK g lo); set (n := Z.shiftl (hi - lo) (log_blocks_per_seg g)).
    assert (Hrun : run_in_main g b n).
    { unfold run_in_main, b, n; rewrite (gw_log _ Hg), shiftl9.
      destruct (Z.eq_dec lo (main_segments g)) as [->|]; [replace hi with (main_segments g) by lia|rewrite START_BLOCK_val by (assumption || lia); lia].
      assert (START_BLOCK g (main_segments g) = main_blkaddr g + main_segments g * 512); [|lia].
      destruct Hg; unfold START_BLOCK, SEG0_BLKADDR, GET_R2L_SEGNO; rewrite gw_log, shiftl9; u32_simpl; lia. }
    destruct (issue_ok (with_dirty_i di1 sbi) b n cmds) as (sbi2 & -> & Hi2);
      [cbn; rewrite Eg; exact Hg|cbn; rewrite Eg; apply D1|cbn; rewrite Eg; exact Hrun|].
    constructor; cbn [fst snd].
    + exists di1; split; [eapply discarded_trans; [exact D1'|exact Hi2]|split; [exact C1|exact C3]].
    + apply Forall_app; split; [exact R|constructor; [exact Hrun|constructor]].
    + intros a Ha; apply in_discard_app in Ha; destruct Ha as [Ha|Ha]; [auto|].
      apply in_discard_one, run_blocks in Ha; [|assumption|assumption].
      destruct Ha as [H1 H2]; split; [exact H1|apply Hset; exact H2].
    + intros _ a Ha Hs Hp; apply in_discard_app.
      destruct (Z_lt_ge_dec (GET_SEGNO g a) lo); [left; apply A; auto|right].
      apply in_discard_one, run_blocks; [assumption|assumption|split; [exact Ha|lia]].
  - constructor; cbn [fst snd]; [|exact R|exact S|congruence].
    exists di1; split; [exact D1'|split; [exact C1|exact C3]].
Qed.

Lemma released_past pos st :
  released pos st -> main_segments g <= pos -> released (main_segments g) st.
Proof.
  intros [(di & D1 & D2 & D3) R S A] Hp; constructor; auto.
  - exists di; split; [exact D1|split; [exact D2|]]; intros t i Ht Hi; rewrite D3 by assumption.
    rewrite (proj2 (Z.ltb_lt i pos)), (proj2 (Z.ltb_lt i (main_segments g))) by lia; reflexivity.
  - intros Hdis a Ha Hs Hpr; apply A; auto; lia.
Qed.

Lemma prefree_loop_ok fuel pos sbi cmds :
  released pos (sbi, cmds) -> 0 <= pos -> main_segments g - pos < Z.of_nat fuel ->
  released (main_segments g) (prefree_loop fuel pos (sbi, cmds)).
Proof.
  revert pos sbi cmds; induction fuel as [|fuel IH]; intros pos sbi cmds Hrel Hp Hf.
  { apply (released_past pos); [exact Hrel|lia]. }
  cbn [prefree_loop].
  destruct (re_dirty _ _ Hrel) as (di & D1 & D2 & D3); cbn [fst] in D1.
  assert (Ed : dirty_i sbi = di /\ geo sbi = g) by (destruct D1 as [(v & L & ->) _ _ _]; auto).
  destruct Ed as (Ed & Eg); rewrite Ed, Eg; unfold MAIN_SEGS.
  destruct (Z_lt_ge_dec (main_segments g) pos) as [Hgt|Hle].
  { unfold find_next_bit, find_next; rewrite (proj2 (Z.leb_le (main_segments g) pos)) by lia.
    rewrite Z.leb_refl; apply (released_past pos); [exact Hrel|lia]. }
  destruct (find_next_spec (fun i => test_bit i ((dirty_segmap di).[PRE])) (main_segments g) pos ltac:(lia))
    as (Hr & Ht & Hff).
  fold (find_next_bit ((dirty_segmap di).[PRE]) (main_segments g) pos) in Hr, Ht, Hff.
  set (start := find_next_bit _ _ _) in *.
  assert (Hpre : forall i, pos <= i < main_segments g -> test_bit i ((dirty_segmap di).[PRE]) = pre i).
  { intros i Hi; change (in_list di PRE i = pre i); rewrite D3 by (unfold PRE; lia).
    rewrite (proj2 (Z.ltb_ge i pos)), andb_false_r by lia; reflexivity. }
  assert (Hskip : released start (sbi, cmds)).
  { apply (released_skip pos); auto; [|lia]; intros i Hi Hm; rewrite <- Hpre by lia; apply Hff; exact Hi. }
  destruct (Z.leb_spec (main_segments g) start) as [Hge|Hlt].
  { replace (main_segments g) with start by lia; exact Hskip. }
  destruct (find_next_spec (fun i => negb (test_bit i ((dirty_segmap di).[PRE]))) (main_segments g) (start + 1)
    ltac:(lia)) as (Hr2 & Ht2 & Hff2).
  fold (find_next_zero_bit ((dirty_segmap di).[PRE]) (main_segments g) (start + 1)) in Hr2, Ht2, Hff2.
  set (fin := find_next_zero_bit _ _ _) in *.
  assert (Hrun := released_run start fin sbi cmds Hskip ltac:(lia) ltac:(lia)).
  rewrite Ed in Hrun; cbv zeta in Hrun |- *; change (geo (with_dirty_i _ sbi)) with (geo sbi) in *; rewrite Eg in *.
  match type of Hrun with _ -> released _ ?x => set (st := x) in * end.
  assert (Hst : released fin st).
  { apply Hrun; intros i Hi; rewrite <- Hpre by lia; destruct (Z.eq_dec i start) as [->|]; [apply Ht; lia|].
    apply negb_false_iff, Hff2; lia. }
  destruct st as [sbi2 cmds2]; apply IH; [|lia|lia].
  apply (released_skip fin); auto; [lia| |lia].
  intros i Hi Hm; replace i with fin by lia; rewrite <- Hpre by lia; apply negb_true_iff, Ht2; lia.
Qed.

Lemma prefree_done :
  released (main_segments g) (prefree_loop (S (Z.to_nat (MAIN_SEGS g))) 0 (sbi0, [])).
Proof.
  pose proof (main_segments_bound g Hg).
  apply prefree_loop_ok; [|lia|unfold MAIN_SEGS; lia].
  constructor; cbn [fst snd].
  - exists (dirty_i sbi0); rewrite with_dirty_i_same; split; [apply discarded_refl; exact Hw|split; [exact Hd|]].
    intros t i Ht Hi; rewrite (proj2 (Z.ltb_ge i 0)), andb_false_r by lia; reflexivity.
  - constructor.
  - intros a Ha; inversion Ha.
  - intros _ a Ha Hs; pose proof (GET_SEGNO_range g a Hg Ha); lia.
Qed.
End Prefree.

Lemma discarded_nr n sbi sbi' :
  discarded sbi sbi' -> discarded (with_nr_discards n sbi) (with_nr_discards n sbi').
Proof. intros [(v & L & ->) D S W]; constructor; auto; exists v, L; reflexivity. Qed.

Lemma run_in_discard g l a : runs_in_main g l -> in_discard l a -> in_main g a.
Proof.
  unfold runs_in_main, in_discard; intros Hl He; apply Exists_exists in He; destruct He as ([b n] & Hin & Hr).
  rewrite Forall_forall in Hl; specialize (Hl _ Hin); unfold in_run, run_in_main, in_main in *; cbn in *; lia.
Qed.

Lemma send_small_ok l sbi cmds cpc :
  geo_wf (geo sbi) -> sit_wf (geo sbi) (sit_i sbi) -> runs_in_main (geo sbi) l ->
  exists sbi1 cmds' cpc',
    fold_left send_small l (sbi, cmds, cpc)
      = (with_nr_discards (nr_discards sbi - total_len l) sbi1, cmds', cpc') /\
    discarded sbi sbi1 /\
    (forall a, in_discard cmds' a -> in_discard cmds a \/ in_discard l a) /\
    (forall a, in_discard cmds a -> in_discard cmds' a) /\
    (cp_reason cpc <> CP_DISCARD -> forall a, in_discard l a -> in_discard cmds' a).
Proof.
  revert sbi cmds cpc; induction l as [|[b n] l IH]; intros sbi cmds cpc Hg Hw Hl.
  { exists sbi, cmds, cpc; cbn; rewrite Z.sub_0_r; split; [destruct sbi; reflexivity|].
    split; [apply discarded_refl; exact Hw|split; [auto|split; [auto|]]]; intros _ a Ha; inversion Ha. }
  apply Forall_cons in Hl; destruct Hl as [Hb Hl]; cbn [fst snd] in Hb; cbn [fold_left].
  assert (Hstep : exists sbi1 cmds1 cpc1,
    send_small (sbi, cmds, cpc) (b, n) = (with_nr_discards (nr_discards sbi - n) sbi1, cmds1, cpc1) /\
    nr_discards sbi1 = nr_discards sbi /\ discarded sbi sbi1 /\ cp_reason cpc1 = cp_reason cpc /\
    (forall a, in_discard cmds1 a -> in_discard cmds a \/ b <= a < b + n) /\
    (forall a, in_discard cmds a -> in_discard cmds1 a) /\
    (cp_reason cpc <> CP_DISCARD -> forall a, b <= a < b + n -> in_discard cmds1 a)).
  { unfold send_small.
    destruct ((cp_reason cpc =? CP_DISCARD) && (n <? trim_minlen cpc)) eqn:E.
    - exists sbi, cmds, cpc; split; [reflexivity|split; [reflexivity|split; [apply discarded_refl; exact Hw|]]].
      split; [reflexivity|split; [auto|split; [auto|]]].
      apply andb_true_iff in E; destruct E as [E _]; apply Z.eqb_eq in E; contradiction.
    - destruct (issue_ok sbi b n cmds Hg Hw Hb) as (sbi1 & -> & D).
      assert (En : nr_discards sbi1 = nr_discards sbi) by (destruct D as [(v & L & ->) _ _ _]; reflexivity).
      exists sbi1, (cmds ++ [(b, n)]), (with_trimmed (u64 (trimmed cpc + n)) cpc).
      rewrite En; split; [reflexivity|split; [reflexivity|split; [exact D|split; [reflexivity|]]]].
      split; [|split].
      + intros a Ha; apply in_discard_app in Ha; rewrite in_discard_one in Ha; exact Ha.
      + intros a Ha; apply in_discard_app; auto.
      + intros _ a Ha; apply in_discard_app; right; apply in_discard_one; exact Ha. }
  destruct Hstep as (sbi1 & cmds1 & cpc1 & -> & En & D & Er & H1 & H2 & H3).
  pose proof (discarded_geo _ _ D) as Eg.
  destruct (IH (with_nr_discards (nr_discards sbi - n) sbi1) cmds1 cpc1)
    as (sbi2 & cmds2 & cpc2 & E2 & D2 & M1 & M2 & M3); cbn [geo sit_i with_nr_discards]; rewrite ?Eg; auto; [apply D|].
  assert (Hs2 : exists sbi3, sbi2 = with_nr_discards (nr_discards sbi - n) sbi3 /\ discarded sbi sbi3).
  { exists (with_nr_discards (nr_discards sbi) sbi2); split.
    - destruct D2 as [(v & L & ->) _ _ _]; reflexivity.
    - pose proof (discarded_nr (nr_discards sbi) _ _ D2) as D3.
      eapply discarded_trans; [exact D|].
      replace sbi1 with (with_nr_discards (nr_discards sbi) (with_nr_discards (nr_discards sbi - n) sbi1));
        [exact D3|rewrite <- En; destruct sbi1; reflexivity]. }
  destruct Hs2 as (sbi3 & -> & D3).
  exists sbi3, cmds2, cpc2; rewrite E2; cbn [nr_discards with_nr_discards total_len fold_right snd].
  replace (nr_discards sbi - n - total_len l) with (nr_discards sbi - (n + total_len l)) by lia.
  split; [reflexivity|split; [exact D3|split; [|split]]].
  - intros a Ha; destruct (M1 a Ha) as [Hc|Hc]; [|right; right; exact Hc].
    destruct (H1 a Hc) as [|Hr]; [auto|right; left; exact Hr].
  - auto.
  - intros Hn a Ha; rewrite Er in M3; apply Exists_cons in Ha; destruct Ha as [Ha|Ha]; [|auto].
    apply M2, H3; [exact Hn|exact Ha].
Qed.

Lemma clear_prefree_ok cpc sbi :
  let g := geo sbi in
  geo_wf g -> sit_wf g (sit_i sbi) -> dirty_cnt_wf g (dirty_i sbi) -> runs_in_main g (discard_list sbi) ->
  exists di sbi1 cmds cpc',
    clear_prefree_segments cpc sbi
      = (with_discard_list [] (with_nr_discards (nr_discards sbi - total_len (discard_list sbi)) sbi1), cmds, cpc') /\
    discarded (with_dirty_i di sbi) sbi1 /\ dirty_cnt_wf g di /\
    (forall t i, 0 <= t < 8 -> 0 <= i < main_segments g ->
       in_list di t i = negb (t =? PRE) && in_list (dirty_i sbi) t i) /\
    (forall a, in_discard cmds a -> in_main g a /\
       (in_list (dirty_i sbi) PRE (GET_SEGNO g a) = true \/ in_discard (discard_list sbi) a)) /\
    (test_opt sbi F2FS_MOUNT_DISCARD = true -> forall a, in_main g a ->
       in_list (dirty_i sbi) PRE (GET_SEGNO g a) = true -> in_discard cmds a).
Proof.
  cbv zeta; intros Hg Hw Hd Hl; unfold clear_prefree_segments.
  destruct (prefree_done sbi Hg Hw Hd) as [(di & D1 & D2 & D3) R S A].
  destruct (prefree_loop _ _ _) as [sbi1 cmds1]; cbn [fst snd] in *.
  assert (E : geo sbi1 = geo sbi /\ discard_list sbi1 = discard_list sbi /\ nr_discards sbi1 = nr_discards sbi)
    by (destruct D1 as [(v & L & ->) _ _ _]; auto).
  destruct E as (Eg & El & En); rewrite El.
  destruct (send_small_ok (discard_list sbi) sbi1 cmds1 cpc) as (sbi2 & cmds2 & cpc2 & -> & E1 & M1 & M2 & M3);
    rewrite ?Eg; auto; [apply D1|]; rewrite En.
  exists di, sbi2, cmds2, cpc2; split; [reflexivity|].
  split; [eapply discarded_trans; [exact D1|exact E1]|split; [exact D2|split; [|split]]].
  - intros t i Ht Hi; rewrite D3 by assumption; rewrite (proj2 (Z.ltb_lt i (main_segments (geo sbi)))) by lia.
    rewrite andb_true_r; reflexivity.
  - intros a Ha; destruct (M1 a Ha) as [Hc|Hc]; [destruct (S a Hc); auto|].
    split; [apply (run_in_discard _ (discard_list sbi)); assumption|auto].
  - intros Ho a Ha Hp; apply M2, A; auto; apply GET_SEGNO_range; assumption.
Qed.

(** * Theorems *)

(** C39: [add_discard_addrs] collects only blocks that may be discarded: each block
    it adds lies in the segment it was called for and is not valid; for a trim it
    is in no checkpoint either, otherwise it is one the checkpoint in progress
    frees.  A trim collects every such block that was not discarded yet.  The
    count of pending discards stays the total length of the list, whether a run is
    appended or merged into the last entry, and nothing else changes. *)
Theorem add_discard_addrs_sound (cpc : cp_control) (sbi : f2fs_sb_info)
  (Hg : geo_wf (geo sbi)) (Hw : sit_wf (geo sbi) (sit_i sbi))
  (Hs : 0 <= trim_start cpc < main_segments (geo sbi))
  (Hl : runs_in_main (geo sbi) (discard_list sbi))
  (Hn : nr_discards sbi = total_len (discard_list sbi)) :
  let s := trim_start cpc in
  let force := cp_reason cpc =? CP_DISCARD in
  let sbi' := add_discard_addrs cpc sbi in
  (forall a, in_discard (discard_list sbi') a -> in_discard (discard_list sbi) a \/
     (in_main (geo sbi) a /\ GET_SEGNO (geo sbi) a = s /\ block_valid sbi a = false /\
      block_in_ckpt sbi a = negb force)) /\
  (force = true -> forall a, in_main (geo sbi) a -> GET_SEGNO (geo sbi) a = s ->
     block_in_ckpt sbi a = false ->
     f2fs_test_bit (GET_BLKOFF_FROM_SEG0 (geo sbi) a) (discard_map (get_seg_entry (sit_i sbi) s)) = false ->
     in_discard (discard_list sbi') a) /\
  nr_discards sbi' = total_len (discard_list sbi') /\
  sbi' = with_nr_discards (nr_discards sbi') (with_discard_list (discard_list sbi') sbi).
Proof.
  cbv zeta; destruct (add_discard_ok cpc sbi Hg Hw Hs Hl) as (l & n & -> & M1 & M2 & M3 & M4 & M5).
  cbn [discard_list nr_discards with_nr_discards with_discard_list].
  split; [exact M3|split; [|split; [lia|reflexivity]]].
  intros Hf a Ha Es Hk Hd; unfold block_in_ckpt in Hk; rewrite Es in Hk.
  specialize (M5 Hf _ (GET_BLKOFF_range _ _ Hg Ha) Hk Hd).
  replace a with (START_BLOCK (geo sbi) (trim_start cpc) + GET_BLKOFF_FROM_SEG0 (geo sbi) a); [exact M5|].
  rewrite <- Es, START_BLOCK_val by auto with maxdb; rewrite GET_SEGNO_val, GET_BLKOFF_val by assumption; lia.
Qed.

Lemma add_discard_addrs_sound_witness :
  let cpc := mk_cpc CP_DISCARD 3 3 1 0 in
  let sbi' := add_discard_addrs cpc sbi_ex in
  (forall a, in_discard (discard_list sbi') a -> in_discard (discard_list sbi_ex) a \/
     (in_main (geo sbi_ex) a /\ GET_SEGNO (geo sbi_ex) a = 3 /\ block_valid sbi_ex a = false /\
      block_in_ckpt sbi_ex a = false)) /\
  (true = true -> forall a, in_main (geo sbi_ex) a -> GET_SEGNO (geo sbi_ex) a = 3 ->
     block_in_ckpt sbi_ex a = false ->
     f2fs_test_bit (GET_BLKOFF_FROM_SEG0 (geo sbi_ex) a) (discard_map (get_seg_entry (sit_i sbi_ex) 3)) = false ->
     in_discard (discard_list sbi') a) /\
  nr_discards sbi' = total_len (discard_list sbi') /\
  sbi' = with_nr_discards (nr_discards sbi') (with_discard_list (discard_list sbi') sbi_ex).
Proof.
  intros cpc; apply (add_discard_addrs_sound cpc sbi_ex geo_ex_wf sit_ex_wf);
    [vm_compute; split; congruence|constructor|reflexivity].
Defined.
