(* ===== verification/SitFlush.v ===== *)
(** Writing the SIT back at a checkpoint and reading it at mount
    (src/Max/segment.c: lookup_journal_in_cursum, get_next_sit_page,
    add_sit_entry, remove_sits_in_journal, flush_sit_entries,
    build_sit_entries; src/Max/f2fs.h: the journal helpers). *)

From S2P Require Import Prelude Layout Bitops SmState FreeSegmap Sit DirtySeg Discard.

#[local] Ltac Zify.zify_post_hook ::= Z.to_euclidean_division_equations.

(** * Definitions *)

(** ** The journals of a summary block *)

Definition NAT_JOURNAL : Z := 0.
Definition SIT_JOURNAL : Z := 1.

(** [n_nats] and [n_sits] are the same field. *)
Definition nats_in_cursum (sum : f2fs_summary_block) : Z := sb_n_jnl sum.
Definition sits_in_cursum (sum : f2fs_summary_block) : Z := sb_n_jnl sum.

Definition with_n_jnl (v : Z) (b : f2fs_summary_block) : f2fs_summary_block :=
  mk_sum_block (sb_entries b) v (sb_nat_j b) (sb_sit_j b) (sb_entry_type b).

Definition with_sit_j (v : list sit_journal_entry) (b : f2fs_summary_block) : f2fs_summary_block :=
  mk_sum_block (sb_entries b) (sb_n_jnl b) (sb_nat_j b) v (sb_entry_type b).

Definition update_nats_in_cursum (rs : f2fs_summary_block) (i : Z) : Z * f2fs_summary_block :=
  let before := nats_in_cursum rs in (before, with_n_jnl (u16 (before + i)) rs).

Definition update_sits_in_cursum (rs : f2fs_summary_block) (i : Z) : Z * f2fs_summary_block :=
  let before := sits_in_cursum rs in (before, with_n_jnl (u16 (before + i)) rs).

Definition MAX_NAT_JENTRIES (sum : f2fs_summary_block) : Z := NAT_JOURNAL_ENTRIES - nats_in_cursum sum.
Definition MAX_SIT_JENTRIES (sum : f2fs_summary_block) : Z := SIT_JOURNAL_ENTRIES - sits_in_cursum sum.

Definition __has_cursum_space (sum : f2fs_summary_block) (size type : Z) : bool :=
  if type =? NAT_JOURNAL then size <=? MAX_NAT_JENTRIES sum else size <=? MAX_SIT_JENTRIES sum.

(** The first entry for [val], or -1; with [alloc], a new one. *)
Definition lookup_journal_in_cursum (sum : f2fs_summary_block) (type val : Z) (alloc : bool) :
  Z * f2fs_summary_block :=
  if type =? NAT_JOURNAL then
    let n := nats_in_cursum sum in
    let i := find_next (fun i => nj_nid ((sb_nat_j sum).[i]) =? val) n 0 in
    if i <? n then (i, sum)
    else if alloc && (n <? NAT_JOURNAL_ENTRIES) then update_nats_in_cursum sum 1 else (-1, sum)
  else if type =? SIT_JOURNAL then
    let n := sits_in_cursum sum in
    let i := find_next (fun i => sj_segno ((sb_sit_j sum).[i]) =? val) n 0 in
    if i <? n then (i, sum)
    else if alloc && (n <? SIT_JOURNAL_ENTRIES) then update_sits_in_cursum sum 1 else (-1, sum)
  else (-1, sum).

(** ** SIT blocks *)

Definition sit_page (sbi : f2fs_sb_info) (addr : Z) : list f2fs_sit_entry :=
  default [] (sit_pages sbi !! addr).

(** The address of the copy of the block, and the state with the copy made. *)
Definition get_next_sit_page (start : Z) (sbi : f2fs_sb_info) : Z * f2fs_sb_info :=
  let src_off := current_sit_addr (sit_i sbi) start in
  let dst_off := next_sit_addr (sit_i sbi) src_off in
  let sbi := with_sit_pages (<[dst_off := sit_page sbi src_off]> (sit_pages sbi)) sbi in
  (dst_off, with_sit_i (set_to_next_sit (sit_i sbi) start) sbi).

(** ** Sets of dirty entries, one per SIT block, in order of size *)

Record sit_entry_set := mk_ses {
  ses_start : Z;
  ses_cnt : Z;
}.

(** [adjust_sit_entry_set] on a set in front of [next]: move it before the first set
    that is not smaller. *)
Fixpoint adjust_sit_entry_set (ses : sit_entry_set) (next : list sit_entry_set) : list sit_entry_set :=
  match next with
  | [] => [ses]
  | x :: r => if ses_cnt ses <=? ses_cnt x then ses :: x :: r else x :: adjust_sit_entry_set ses r
  end.

(** The loop of [add_sit_entry]: [None] when no set starts at [start]. *)
Fixpoint bump_set (start : Z) (head : list sit_entry_set) : option (list sit_entry_set) :=
  match head with
  | [] => None
  | x :: r =>
      if ses_start x =? start
      then Some (adjust_sit_entry_set (mk_ses start (u32 (ses_cnt x + 1))) r)
      else option_map (cons x) (bump_set start r)
  end.

Definition add_sit_entry (segno : Z) (head : list sit_entry_set) : list sit_entry_set :=
  match bump_set (START_SEGNO segno) head with
  | Some l => l
  | None => mk_ses (START_SEGNO segno) 1 :: head
  end.

Definition add_sits_in_set (sbi : f2fs_sb_info) (head : list sit_entry_set) : list sit_entry_set :=
  for_each_set_bit 0 (MAIN_SEGS (geo sbi)) (fun _ => dirty_sentries_bitmap (sit_i sbi)) add_sit_entry head.

(** One journal entry is turned into a dirty entry. *)
Definition unjournal (sum : f2fs_summary_block) (i : Z) (st : f2fs_sb_info * list sit_entry_set) :
  f2fs_sb_info * list sit_entry_set :=
  let '(sbi, head) := st in
  let segno := sj_segno ((sb_sit_j sum).[i]) in
  let '(dirtied, si) := __mark_sit_entry_dirty segno (sit_i sbi) in
  (with_sit_i si sbi, if negb dirtied then add_sit_entry segno head else head).

(** [for (i = n - 1; i >= 0; i--)], as the ascending loop on [n - 1 - i]. *)
Definition remove_sits_in_journal (sum : f2fs_summary_block) (sbi : f2fs_sb_info)
  (head : list sit_entry_set) : f2fs_sb_info * list sit_entry_set * f2fs_summary_block :=
  let n := sits_in_cursum sum in
  let '(sbi, head) := for_range 0 n (fun j => unjournal sum (n - 1 - j)) (sbi, head) in
  (sbi, head, snd (update_sits_in_cursum sum (- n))).

(** ** The flush *)

(** The state of the loop over the sets: the superblock info, the cold data log's
    summary block, whether entries go to its journal, and the entries left in the
    current set. *)
Record flush_state := mk_flush {
  fl_sbi : f2fs_sb_info;
  fl_sum : f2fs_summary_block;
  fl_journal : bool;
  fl_cnt : Z;
}.

(** One dirty entry; [dst] is the page when it does not go to the journal. *)
Definition flush_entry (cpc : cp_control) (dst segno : Z) (st : flush_state) : flush_state :=
  let sbi := fl_sbi st in
  let sbi := if negb (cp_reason cpc =? CP_DISCARD)
             then add_discard_addrs (with_trim_start segno cpc) sbi else sbi in
  let '(se, rs) := seg_info_to_raw_sit (get_seg_entry (sit_i sbi) segno) in
  let '(sbi, sum) :=
    if fl_journal st then
      let '(offset, sum) := lookup_journal_in_cursum (fl_sum st) SIT_JOURNAL segno true in
      (f2fs_bug_on (offset <? 0) sbi,
       with_sit_j ((sb_sit_j sum).[offset <- mk_sit_jnl segno rs]) sum)
    else
      (with_sit_pages (<[dst := (sit_page sbi dst).[SIT_ENTRY_OFFSET segno <- rs]]> (sit_pages sbi)) sbi,
       fl_sum st) in
  let si := set_seg_entry segno se (sit_i sbi) in
  let si := with_dirty_sentries (u32 (dirty_sentries si - 1))
              (with_dirty_sentries_bitmap (clear_bit segno (dirty_sentries_bitmap si)) si) in
  mk_flush (with_sit_i si sbi) sum (fl_journal st) (u32 (fl_cnt st - 1)).

(** One set; the alarm fires when its count was wrong. *)
Definition flush_set (cpc : cp_control) (st : flush_state) (ses : sit_entry_set) : flush_state :=
  let start := ses_start ses in
  let fin := Z.min (start + SIT_ENTRY_PER_BLOCK) (MAIN_SEGS (geo (fl_sbi st))) in
  let journal := fl_journal st && __has_cursum_space (fl_sum st) (ses_cnt ses) SIT_JOURNAL in
  let '(dst, sbi) := if negb journal then get_next_sit_page start (fl_sbi st) else (0, fl_sbi st) in
  let st := for_each_set_bit start fin (fun st => dirty_sentries_bitmap (sit_i (fl_sbi st)))
              (flush_entry cpc dst) (mk_flush sbi (fl_sum st) journal (ses_cnt ses)) in
  mk_flush (f2fs_bug_on (negb (fl_cnt st =? 0)) (fl_sbi st)) (fl_sum st) (fl_journal st) (fl_cnt st).

(** Everything up to [out:], under the locks. *)
Definition flush_dirty (cpc : cp_control) (sbi : f2fs_sb_info) : f2fs_sb_info :=
  let c := CURSEG_I sbi CURSEG_COLD_DATA in
  let sum := sum_blk c in
  let head := add_sits_in_set sbi [] in
  let '(sbi, head, sum) :=
    if negb (__has_cursum_space sum (dirty_sentries (sit_i sbi)) SIT_JOURNAL)
    then remove_sits_in_journal sum sbi head else (sbi, head, sum) in
  let st := fold_left (flush_set cpc) head (mk_flush sbi sum true 0) in
  let sbi := set_curseg CURSEG_COLD_DATA (with_sum_blk (fl_sum st) c) (fl_sbi st) in
  f2fs_bug_on (negb (dirty_sentries (sit_i sbi) =? 0)) sbi.

Definition flush_sit_entries (cpc : cp_control) (sbi : f2fs_sb_info) : f2fs_sb_info :=
  let sbi := if negb (dirty_sentries (sit_i sbi) =? 0) then flush_dirty cpc sbi else sbi in
  let sbi := if cp_reason cpc =? CP_DISCARD
             then for_range (trim_start cpc) (trim_end cpc + 1)
                    (fun s => add_discard_addrs (with_trim_start s cpc)) sbi
             else sbi in
  set_prefree_as_free_segments sbi.

(** ** Mount *)

(** The entry [build_sit_entries] finds for a segment: the journal's, or the one of
    the current SIT block. *)
Definition read_sit (sbi : f2fs_sb_info) (start : Z) : f2fs_sit_entry :=
  let sum := sum_blk (CURSEG_I sbi CURSEG_COLD_DATA) in
  let n := sits_in_cursum sum in
  let i := find_next (fun i => sj_segno ((sb_sit_j sum).[i]) =? start) n 0 in
  if i <? n then sj_se ((sb_sit_j sum).[i])
  else (sit_page sbi (current_sit_addr (sit_i sbi) start)).[SIT_ENTRY_OFFSET start].

Definition build_sit_entry (start : Z) (sbi : f2fs_sb_info) : f2fs_sb_info :=
  let sit := read_sit sbi start in
  let sbi := check_block_count start sit sbi in
  let se := seg_info_from_raw_sit (get_seg_entry (sit_i sbi) start) sit in
  let se := with_discard_map (cur_valid_map se) se in
  let sbi := with_sit_i (set_seg_entry start se (sit_i sbi)) sbi in
  let sbi := with_discard_blks
    (u32 (discard_blks sbi + blocks_per_seg (geo sbi) - valid_blocks se)) sbi in
  if 1 <? segs_per_sec (geo sbi) then
    let si := sit_i sbi in
    with_sit_i (with_sec_entries ((sec_entries si).[GET_SECNO (geo sbi) start <-
       u32 ((sec_entries si).[GET_SECNO (geo sbi) start] + valid_blocks se)]) si) sbi
  else sbi.

(** The read-ahead only splits the loop over the segments into batches. *)
Definition build_sit_entries (sbi : f2fs_sb_info) : f2fs_sb_info :=
  for_range 0 (MAIN_SEGS (geo sbi)) build_sit_entry sbi.

(** * The sets *)

Definition PER : Z := SIT_ENTRY_PER_BLOCK.

Definition total_cnt (l : list sit_entry_set) : Z := fold_right (fun x n => ses_cnt x + n) 0 l.

Lemma total_cnt_perm l k : l ≡ₚ k -> total_cnt l = total_cnt k.
Proof. intros H; induction H; unfold total_cnt in *; cbn; lia. Qed.

Lemma adjust_perm x l : adjust_sit_entry_set x l ≡ₚ x :: l.
Proof.
  induction l as [|y l IH]; cbn; [reflexivity|]; case_ifs; [reflexivity|].
  rewrite IH; constructor.
Qed.

(** Incrementing the set of a block, up to order. *)
Lemma bump_spec start head :
  match bump_set start head with
  | Some l => exists x r, head ≡ₚ x :: r /\ ses_start x = start /\
                l ≡ₚ mk_ses start (u32 (ses_cnt x + 1)) :: r
  | None => start ∉ map ses_start head
  end.
Proof.
  induction head as [|x r IH]; cbn; [apply not_elem_of_nil|].
  destruct (Z.eqb_spec (ses_start x) start) as [E|E].
  - exists x, r; split; [reflexivity|split; [exact E|apply adjust_perm]].
  - destruct (bump_set start r) as [l|]; cbn.
    + destruct IH as (y & k & H1 & H2 & H3); exists y, (x :: k); split; [|split; [exact H2|]].
      * rewrite H1; constructor.
      * rewrite H3; constructor.
    + apply not_elem_of_cons; auto.
Qed.

Section Sets.
Variable g : geometry.
Hypothesis Hg : geo_wf g.

(** The segments of [p] in the SIT block that starts at [start]. *)
Definition count_in (p : Z -> bool) (start : Z) : Z :=
  count_below (fun i => p (start + i) && (start + i <? main_segments g)) PER.

(** One set per SIT block with segments of [p], with their number. *)
Record sets_for (p : Z -> bool) (l : list sit_entry_set) : Prop := {
  sf_nodup : NoDup (map ses_start l);
  sf_start : forall x, x ∈ l -> 0 <= ses_start x < main_segments g /\ START_SEGNO (ses_start x) = ses_start x;
  sf_cnt : forall x, x ∈ l -> ses_cnt x = count_in p (ses_start x);
  sf_all : forall i, 0 <= i < main_segments g -> p i = true -> START_SEGNO i ∈ map ses_start l;
}.

Lemma START_SEGNO_bounds i :
  0 <= i -> 0 <= START_SEGNO i <= i /\ i < START_SEGNO i + PER /\ START_SEGNO (START_SEGNO i) = START_SEGNO i.
Proof.
  unfold START_SEGNO, SIT_BLOCK_OFFSET, PER; change SIT_ENTRY_PER_BLOCK with 55; lia.
Qed.

Lemma START_SEGNO_in start i :
  START_SEGNO start = start -> start <= i < start + PER -> 0 <= start -> START_SEGNO i = start.
Proof. unfold START_SEGNO, SIT_BLOCK_OFFSET, PER; change SIT_ENTRY_PER_BLOCK with 55; lia. Qed.

Lemma count_in_range p start : 0 <= count_in p start <= PER.
Proof. apply count_below_range; vm_compute; congruence. Qed.

(** Adding one segment to [p] adds one to its block's count. *)
Lemma count_in_add p q s start :
  0 <= s < main_segments g -> p s = false -> q s = true ->
  (forall i, 0 <= i -> i <> s -> q i = p i) -> 0 <= start -> START_SEGNO start = start ->
  count_in q start = count_in p start + b2z (start =? START_SEGNO s).
Proof.
  intros Hs Hp Hq He H0 Hst; unfold count_in; destruct (Z.eqb_spec start (START_SEGNO s)) as [->|Hne]; cbn [b2z].
  - destruct (START_SEGNO_bounds s ltac:(lia)) as (B1 & B2 & _); set (b := START_SEGNO s) in *.
    rewrite (count_below_upd (fun i => p (b + i) && (b + i <? main_segments g))
               (fun i => q (b + i) && (b + i <? main_segments g)) PER (s - b)); [|lia|].
    + cbv beta; replace (b + (s - b)) with s by lia; rewrite Hp, Hq, (proj2 (Z.ltb_lt s _)) by lia; cbn; lia.
    + intros i Hi Hn; cbv beta; rewrite He by lia; reflexivity.
  - rewrite Z.add_0_r; apply count_below_ext; intros i Hi; cbv beta; rewrite He; [reflexivity|lia|].
    intros E; apply Hne; symmetry; rewrite <- E; apply START_SEGNO_in; [exact Hst|lia|exact H0].
Qed.

Lemma sets_perm p l k : l ≡ₚ k -> sets_for p l -> sets_for p k.
Proof.
  intros Hp [N S C A]; constructor.
  - rewrite <- Hp; exact N.
  - intros x Hx; apply S; rewrite Hp; exact Hx.
  - intros x Hx; apply C; rewrite Hp; exact Hx.
  - intros i Hi H; rewrite <- Hp; auto.
Qed.

Lemma add_entry_sets p q s l :
  sets_for p l -> 0 <= s < main_segments g -> p s = false -> q s = true ->
  (forall i, 0 <= i -> i <> s -> q i = p i) ->
  sets_for q (add_sit_entry s l) /\ total_cnt (add_sit_entry s l) = total_cnt l + 1.
Proof.
  intros Hsf Hs Hp Hq He; unfold add_sit_entry; destruct (START_SEGNO_bounds s ltac:(lia)) as (B1 & B2 & B3).
  pose proof (bump_spec (START_SEGNO s) l) as Hb; destruct (bump_set (START_SEGNO s) l) as [l'|].
  - destruct Hb as (x & r & H1 & H2 & H3).
    pose proof (sets_perm p _ _ H1 Hsf) as [N S C A]; cbn in N; apply NoDup_cons in N; destruct N as [N1 N2].
    pose proof (C x ltac:(left)) as Cx; pose proof (count_in_range p (ses_start x)) as Rx.
    assert (Hu : u32 (ses_cnt x + 1) = ses_cnt x + 1) by (apply u32_small; unfold PER in Rx; change SIT_ENTRY_PER_BLOCK with 55 in Rx; lia).
    rewrite Hu in H3; split; [|rewrite (total_cnt_perm _ _ H3), (total_cnt_perm _ _ H1); cbn; lia].
    apply (sets_perm q (mk_ses (START_SEGNO s) (ses_cnt x + 1) :: r)); [symmetry; exact H3|].
    constructor.
    + cbn; rewrite <- H2; apply NoDup_cons; auto.
    + intros y Hy; apply elem_of_cons in Hy; destruct Hy as [->|Hy]; [cbn; split; [lia|exact B3]|apply S; right; exact Hy].
    + intros y Hy; apply elem_of_cons in Hy; destruct Hy as [->|Hy].
      * cbn [ses_cnt ses_start]; rewrite (count_in_add p q s) by (auto; lia); rewrite Z.eqb_refl, Cx, H2; reflexivity.
      * destruct (S y ltac:(right; exact Hy)) as [Sy1 Sy2].
        rewrite (C y ltac:(right; exact Hy)), (count_in_add p q s) by (auto; lia).
        rewrite (proj2 (Z.eqb_neq _ _)); [cbn; lia|]; intros E; apply N1; rewrite H2, <- E.
        apply list_elem_of_fmap; exists y; auto.
    + intros i Hi Hqi; cbn; destruct (Z.eq_dec i s) as [->|Hne]; [left|].
      rewrite He in Hqi by (auto; lia); specialize (A i Hi Hqi); cbn in A; rewrite H2 in A; exact A.
  - destruct Hsf as [N S C A]; split; [|unfold total_cnt; cbn [fold_right ses_cnt]; lia]; constructor.
    + cbn; apply NoDup_cons; auto.
    + intros y Hy; apply elem_of_cons in Hy; destruct Hy as [->|Hy]; [cbn; split; [lia|exact B3]|auto].
    + intros y Hy; apply elem_of_cons in Hy; destruct Hy as [->|Hy].
      * cbn [ses_cnt ses_start]; rewrite (count_in_add p q s) by (auto; lia); rewrite Z.eqb_refl.
        replace (count_in p (START_SEGNO s)) with 0; [reflexivity|symmetry; apply count_below_none; intros i Hi].
        destruct (Z.ltb_spec (START_SEGNO s + i) (main_segments g)); [|apply andb_false_r].
        destruct (p (START_SEGNO s + i)) eqn:Ep; [|reflexivity]; exfalso; apply Hb.
        rewrite <- (START_SEGNO_in (START_SEGNO s) (START_SEGNO s + i)) by (auto; lia); apply A; [lia|exact Ep].
      * destruct (S y Hy) as [Sy1 Sy2]; rewrite (C y Hy), (count_in_add p q s) by (auto; lia).
        rewrite (proj2 (Z.eqb_neq _ _)); [cbn; lia|]; intros E; apply Hb; rewrite <- E.
        apply list_elem_of_fmap; exists y; auto.
    + intros i Hi Hqi; cbn; destruct (Z.eq_dec i s) as [->|Hne]; [left|right].
      apply A; [exact Hi|rewrite <- He by (auto; lia); exact Hqi].
Qed.

Lemma sets_ext p q l :
  (forall i, 0 <= i < main_segments g -> p i = q i) -> sets_for p l -> sets_for q l.
Proof.
  intros He [N S C A]; constructor; [exact N|exact S| |intros i Hi Hq; apply A; [exact Hi|rewrite He; assumption]].
  intros x Hx; rewrite (C x Hx); destruct (S x Hx); apply count_below_ext; intros i Hi.
  destruct (Z.ltb_spec (ses_start x + i) (main_segments g)); [|rewrite !andb_false_r; reflexivity].
  rewrite He by lia; reflexivity.
Qed.

(** Removing a segment from the first set. *)
Lemma sets_remove p q s b c r :
  sets_for q (mk_ses b c :: r) -> 0 <= s < main_segments g -> q s = true -> p s = false ->
  (forall i, 0 <= i -> i <> s -> q i = p i) -> START_SEGNO s = b ->
  sets_for p (mk_ses b (c - 1) :: r) /\ 1 <= c <= PER.
Proof.
  intros [N S C A] Hs Hq Hp He Hb; cbn in N; apply NoDup_cons in N; destruct N as [N1 N2].
  pose proof (S _ ltac:(left)) as [S1 S2]; pose proof (C _ ltac:(left)) as C1; cbn in S1, S2, C1.
  assert (Hadd : forall st, 0 <= st -> START_SEGNO st = st -> count_in q st = count_in p st + b2z (st =? b))
    by (intros st H1 H2; rewrite <- Hb; apply count_in_add; auto).
  rewrite Hadd in C1 by lia; rewrite Z.eqb_refl in C1; cbn in C1.
  pose proof (count_in_range p b); pose proof (count_in_range q b) as Rq; rewrite Hadd in Rq by lia.
  rewrite Z.eqb_refl in Rq; cbn in Rq.
  split; [|lia]; constructor.
  - cbn; apply NoDup_cons; auto.
  - intros y Hy; apply elem_of_cons in Hy; destruct Hy as [->|Hy]; [auto|apply S; right; exact Hy].
  - intros y Hy; apply elem_of_cons in Hy; destruct Hy as [->|Hy]; [cbn; lia|].
    destruct (S y ltac:(right; exact Hy)) as [Y1 Y2]; rewrite (C y ltac:(right; exact Hy)), Hadd by lia.
    rewrite (proj2 (Z.eqb_neq _ _)); [cbn; lia|]; intros E; apply N1; rewrite <- E.
    apply list_elem_of_fmap; exists y; auto.
  - intros i Hi Hpi; apply A; [exact Hi|]; destruct (Z.eq_dec i s) as [->|]; [congruence|].
    rewrite He by (auto; lia); exact Hpi.
Qed.

(** A set whose segments are all gone can be dropped. *)
Lemma sets_drop p b c r :
  sets_for p (mk_ses b c :: r) ->
  (forall i, b <= i < Z.min (b + PER) (main_segments g) -> p i = false) -> sets_for p r /\ c = 0.
Proof.
  intros [N S C A] Hcl; cbn in N; apply NoDup_cons in N; destruct N as [N1 N2].
  pose proof (S _ ltac:(left)) as [S1 S2]; pose proof (C _ ltac:(left)) as C1; cbn in S1, S2, C1.
  split; [constructor; auto|].
  - intros y Hy; apply S; right; exact Hy.
  - intros y Hy; apply C; right; exact Hy.
  - intros i Hi Hp; specialize (A i Hi Hp); cbn in A; apply elem_of_cons in A; destruct A as [E|]; [|assumption].
    destruct (START_SEGNO_bounds i ltac:(lia)) as (B1 & B2 & _); rewrite Hcl in Hp; [discriminate|lia].
  - rewrite C1; apply count_below_none; intros i Hi.
    destruct (Z.ltb_spec (b + i) (main_segments g)); [|apply andb_false_r].
    rewrite Hcl by lia; reflexivity.
Qed.

Lemma sets_total_nonneg p x l : sets_for p (x :: l) -> 0 <= total_cnt l.
Proof.
  intros Hs; assert (Hc : forall y, y ∈ l -> 0 <= ses_cnt y)
    by (intros y Hy; rewrite (sf_cnt _ _ Hs y ltac:(right; exact Hy)); apply count_in_range).
  clear Hs; induction l as [|y l IH]; unfold total_cnt in *; cbn; [lia|].
  pose proof (Hc y ltac:(left)); specialize (IH (fun z Hz => Hc z ltac:(right; exact Hz))); lia.
Qed.
End Sets.

(** * The journal *)

Definition j_at (sum : f2fs_summary_block) (t : Z) : Z :=
  find_next (fun i => sj_segno ((sb_sit_j sum).[i]) =? t) (sits_in_cursum sum) 0.

(** The journal's entry for a segment. *)
Definition jview (sum : f2fs_summary_block) (t : Z) : option f2fs_sit_entry :=
  if j_at sum t <? sits_in_cursum sum then Some (sj_se ((sb_sit_j sum).[j_at sum t])) else None.

Record journal_wf (g : geometry) (sum : f2fs_summary_block) : Prop := {
  jw_n : 0 <= sits_in_cursum sum <= SIT_JOURNAL_ENTRIES;
  jw_len : zlen (sb_sit_j sum) = SIT_JOURNAL_ENTRIES;
  jw_seg : forall j, 0 <= j < sits_in_cursum sum -> 0 <= sj_segno ((sb_sit_j sum).[j]) < main_segments g;
}.

Lemma j_at_spec sum t :
  0 <= sits_in_cursum sum ->
  0 <= j_at sum t <= sits_in_cursum sum /\
  (j_at sum t < sits_in_cursum sum -> sj_segno ((sb_sit_j sum).[j_at sum t]) = t) /\
  (forall j, 0 <= j < j_at sum t -> sj_segno ((sb_sit_j sum).[j]) <> t).
Proof.
  intros Hn; unfold j_at.
  destruct (find_next_spec (fun i => sj_segno ((sb_sit_j sum).[i]) =? t) (sits_in_cursum sum) 0 ltac:(lia))
    as (Hr & Ht & Hf).
  split; [exact Hr|split; [intros H; apply Z.eqb_eq, Ht, H|intros j Hj; apply Z.eqb_neq, Hf, Hj]].
Qed.

Lemma jview_none sum t :
  0 <= sits_in_cursum sum ->
  (forall j, 0 <= j < sits_in_cursum sum -> sj_segno ((sb_sit_j sum).[j]) <> t) -> jview sum t = None.
Proof.
  intros Hn Hno; destruct (j_at_spec sum t Hn) as (Hr & Ht & _); unfold jview.
  destruct (Z.ltb_spec (j_at sum t) (sits_in_cursum sum)) as [H|]; [|reflexivity].
  exfalso; exact (Hno _ (conj (proj1 Hr) H) (Ht H)).
Qed.

(** The index of a segment's entry is determined by the first match. *)
Lemma j_at_unique sum t k :
  0 <= k < sits_in_cursum sum -> sj_segno ((sb_sit_j sum).[k]) = t ->
  (forall j, 0 <= j < k -> sj_segno ((sb_sit_j sum).[j]) <> t) -> j_at sum t = k.
Proof.
  intros Hk He Hb; destruct (j_at_spec sum t ltac:(lia)) as (Hr & Ht & Hf).
  destruct (Z.lt_trichotomy (j_at sum t) k) as [H|[H|H]]; [|exact H|].
  - exfalso; apply (Hb (j_at sum t)); [lia|apply Ht; lia].
  - exfalso; apply (Hf k); [lia|exact He].
Qed.

Lemma j_at_end sum t :
  0 <= sits_in_cursum sum ->
  (forall j, 0 <= j < sits_in_cursum sum -> sj_segno ((sb_sit_j sum).[j]) <> t) ->
  j_at sum t = sits_in_cursum sum.
Proof.
  intros Hn Hno; destruct (j_at_spec sum t Hn) as (Hr & Ht & _).
  destruct (Z.eq_dec (j_at sum t) (sits_in_cursum sum)); [assumption|].
  exfalso; apply (Hno (j_at sum t)); [lia|apply Ht; lia].
Qed.

(** [sum2] is the journal [sum] with [rs] stored as the entry of [segno]. *)
Definition stored (g : geometry) (sum : f2fs_summary_block) (segno : Z) (rs : f2fs_sit_entry) (sum2 : f2fs_summary_block) : Prop :=
  journal_wf g sum2 /\ sits_in_cursum sum2 <= sits_in_cursum sum + 1 /\
  (forall t, jview sum2 t = if t =? segno then Some rs else jview sum t) /\
  (forall j, 0 <= j < sits_in_cursum sum2 -> sj_segno ((sb_sit_j sum2).[j]) = segno \/
     exists i, 0 <= i < sits_in_cursum sum /\ sj_segno ((sb_sit_j sum2).[j]) = sj_segno ((sb_sit_j sum).[i])) /\
  sb_entries sum2 = sb_entries sum /\ sb_nat_j sum2 = sb_nat_j sum /\ sb_entry_type sum2 = sb_entry_type sum.

(** The segment has an entry. *)
Lemma journal_overwrite g sum segno rs :
  journal_wf g sum -> j_at sum segno < sits_in_cursum sum ->
  stored g sum segno rs (with_sit_j ((sb_sit_j sum).[j_at sum segno <- mk_sit_jnl segno rs]) sum).
Proof.
  intros [Hn Hl Hsg] Hlt; change SIT_JOURNAL_ENTRIES with 6 in *; set (sum2 := with_sit_j _ _).
  destruct (j_at_spec sum segno ltac:(lia)) as (Hr & Ht & _); set (k := j_at sum segno) in *; set (n := sits_in_cursum sum) in *.
  assert (Hget : forall j, (sb_sit_j sum2).[j] = if k =? j then mk_sit_jnl segno rs else (sb_sit_j sum).[j])
    by (intros j; apply aget_aset; lia).
  assert (Hseg : forall j, sj_segno ((sb_sit_j sum2).[j]) = sj_segno ((sb_sit_j sum).[j])).
  { intros j; rewrite Hget; destruct (Z.eqb_spec k j) as [<-|]; [cbn; symmetry; apply Ht; lia|reflexivity]. }
  assert (Hj : forall t, j_at sum2 t = j_at sum t).
  { intros t; unfold j_at; apply find_next_ext; intros j Hj; rewrite Hseg; reflexivity. }
  split; [|split; [change (sits_in_cursum sum2) with n; lia|split; [|split; [|auto]]]].
  + constructor; cbn [sb_n_jnl sum2 with_sit_j sits_in_cursum]; [exact Hn|cbn; rewrite zlen_aset; exact Hl|].
    intros j Hjn; rewrite Hseg; apply Hsg; exact Hjn.
  + intros t; unfold jview; rewrite Hj, Hget; change (sits_in_cursum sum2) with n; fold n.
    destruct (Z.eqb_spec t segno) as [->|Hne].
    * fold k; rewrite (proj2 (Z.ltb_lt k n)), Z.eqb_refl by lia; reflexivity.
    * destruct (Z.ltb_spec (j_at sum t) n) as [H|]; [|reflexivity].
      destruct (Z.eqb_spec k (j_at sum t)) as [E|]; [|reflexivity].
      exfalso; apply Hne; destruct (j_at_spec sum t ltac:(lia)) as (_ & Ht2 & _).
      rewrite <- (Ht2 H), <- E; apply Ht; lia.
  + intros j Hjn; right; exists j; split; [exact Hjn|apply Hseg].
Qed.

(** The segment has none. *)
Lemma journal_append g sum segno rs (n := sits_in_cursum sum) :
  journal_wf g sum -> 0 <= segno < main_segments g -> n < SIT_JOURNAL_ENTRIES ->
  (forall j, 0 <= j < n -> sj_segno ((sb_sit_j sum).[j]) <> segno) ->
  stored g sum segno rs (with_sit_j ((sb_sit_j sum).[n <- mk_sit_jnl segno rs]) (with_n_jnl (n + 1) sum)).
Proof.
  intros [Hn Hl Hsg] Hs Hroom Hno; fold n in Hn, Hsg; change SIT_JOURNAL_ENTRIES with 6 in *; set (sum2 := with_sit_j _ _).
  assert (Hget : forall j, (sb_sit_j sum2).[j] = if n =? j then mk_sit_jnl segno rs else (sb_sit_j sum).[j])
    by (intros j; apply aget_aset; lia).
  assert (Hn2 : sits_in_cursum sum2 = n + 1) by reflexivity.
  assert (Hlow : forall j, j < n -> sj_segno ((sb_sit_j sum2).[j]) = sj_segno ((sb_sit_j sum).[j]))
    by (intros j Hj; rewrite Hget, (proj2 (Z.eqb_neq n j)) by lia; reflexivity).
  assert (Hlast : (sb_sit_j sum2).[n] = mk_sit_jnl segno rs) by (rewrite Hget, Z.eqb_refl; reflexivity).
  split; [|split; [lia|split; [|split; [|auto]]]].
  + constructor; [rewrite Hn2; change SIT_JOURNAL_ENTRIES with 6; lia|cbn; rewrite zlen_aset; exact Hl|].
    rewrite Hn2; intros j Hjn; destruct (Z.eq_dec j n) as [->|]; [rewrite Hlast; exact Hs|].
    rewrite Hlow by lia; apply Hsg; fold n; lia.
  + intros t; unfold jview; rewrite Hn2; fold n; destruct (Z.eqb_spec t segno) as [->|Hne].
    * rewrite (j_at_unique sum2 segno n); [|lia|rewrite Hlast; reflexivity|intros; rewrite Hlow by lia; auto].
      rewrite (proj2 (Z.ltb_lt n (n + 1))), Hlast by lia; reflexivity.
    * destruct (j_at_spec sum t ltac:(lia)) as (Hr2 & Ht2 & Hf2); fold n in Hr2, Ht2.
      destruct (Z.ltb_spec (j_at sum t) n) as [H|H].
      -- rewrite (j_at_unique sum2 t (j_at sum t)); [|lia|rewrite Hlow by lia; auto|intros; rewrite Hlow by lia; auto].
         rewrite (proj2 (Z.ltb_lt _ (n + 1))) by lia; rewrite Hget, (proj2 (Z.eqb_neq n _)) by lia; reflexivity.
      -- rewrite (j_at_end sum2 t); [rewrite Hn2, Z.ltb_irrefl; reflexivity|lia|].
         rewrite Hn2; intros j Hj; destruct (Z.eq_dec j n) as [->|]; [rewrite Hlast; cbn; auto|].
         rewrite Hlow by lia; apply Hf2; lia.
  + rewrite Hn2; intros j Hj; destruct (Z.eq_dec j n) as [->|]; [left; rewrite Hlast; reflexivity|].
    right; exists j; split; [fold n; lia|apply Hlow; lia].
Qed.

(** Storing an entry in the journal when there is room for a new one. *)
Lemma journal_store g sum segno rs :
  journal_wf g sum -> 0 <= segno < main_segments g -> sits_in_cursum sum < SIT_JOURNAL_ENTRIES ->
  let '(off, sum1) := lookup_journal_in_cursum sum SIT_JOURNAL segno true in
  0 <= off /\ stored g sum segno rs (with_sit_j ((sb_sit_j sum1).[off <- mk_sit_jnl segno rs]) sum1).
Proof.
  intros Hj Hs Hroom; pose proof Hj as [Hn Hl Hsg]; change SIT_JOURNAL_ENTRIES with 6 in *.
  unfold lookup_journal_in_cursum; change (SIT_JOURNAL =? NAT_JOURNAL) with false.
  change (SIT_JOURNAL =? SIT_JOURNAL) with true; cbv iota zeta; fold (j_at sum segno).
  destruct (j_at_spec sum segno ltac:(lia)) as (Hr & Ht & Hf).
  destruct (Z.ltb_spec (j_at sum segno) (sits_in_cursum sum)) as [Hlt|Hge].
  - split; [lia|apply journal_overwrite; assumption].
  - change SIT_JOURNAL_ENTRIES with 6; rewrite (proj2 (Z.ltb_lt (sits_in_cursum sum) 6)) by lia; cbn [andb update_sits_in_cursum].
    rewrite u16_small by lia; split; [lia|]; apply (journal_append g sum segno rs Hj Hs Hroom); intros j Hjn; apply Hf; lia.
Qed.

(** * What the disk holds *)

Definition synced (se : seg_entry) : seg_entry := fst (seg_info_to_raw_sit se).
Definition raw_of (se : seg_entry) : f2fs_sit_entry := snd (seg_info_to_raw_sit se).

(** The entry a mount would read. *)
Definition view (sbi : f2fs_sb_info) (sum : f2fs_summary_block) (i : Z) : f2fs_sit_entry :=
  default ((sit_page sbi (current_sit_addr (sit_i sbi) i)).[SIT_ENTRY_OFFSET i]) (jview sum i).

Lemma read_sit_view sbi i : read_sit sbi i = view sbi (sum_blk (CURSEG_I sbi CURSEG_COLD_DATA)) i.
Proof. unfold read_sit, view, jview, j_at; destruct (_ <? _); reflexivity. Qed.

Lemma synced_wf se : seg_wf se -> seg_wf (synced se).
Proof.
  intros [L1 L2 L3 B1 B2 V C D].
  constructor; [exact L1|exact L1|exact L3|exact B1|exact B1|exact V| |exact D].
  change (valid_blocks se = count_below (pinned (synced se)) 512); rewrite V; apply count_below_ext.
  intros; unfold pinned, cur_valid, ckpt_valid; cbn; symmetry; apply orb_diag.
Qed.

Lemma raw_synced se : raw_of (synced se) = raw_of se.
Proof. reflexivity. Qed.

(** An entry whose checkpointed fields equal the current ones. *)
Lemma synced_id se : seg_wf se -> ckpt_valid_map se = cur_valid_map se -> synced se = se.
Proof.
  intros [L1 L2 L3 B1 B2 V C D] E.
  assert (Hc : ckpt_valid_blocks se = valid_blocks se).
  { rewrite V, C; apply count_below_ext; intros; unfold pinned, ckpt_valid, cur_valid; rewrite E; apply orb_diag. }
  destruct se; unfold synced, seg_info_to_raw_sit, with_ckpt_valid_blocks; cbn in *.
  rewrite Hc, E; reflexivity.
Qed.

(** ** Addresses of SIT blocks *)

Lemma block_start s t : START_SEGNO s = START_SEGNO t <-> SIT_BLOCK_OFFSET s = SIT_BLOCK_OFFSET t.
Proof. unfold START_SEGNO; change SIT_ENTRY_PER_BLOCK with 55; lia. Qed.

Lemma current_same_block si s t :
  SIT_BLOCK_OFFSET s = SIT_BLOCK_OFFSET t -> current_sit_addr si s = current_sit_addr si t.
Proof. unfold current_sit_addr; intros ->; reflexivity. Qed.

Lemma current_other_block g si s t :
  geo_wf g -> sit_area_wf g si -> 0 <= s < main_segments g -> 0 <= t < main_segments g ->
  SIT_BLOCK_OFFSET s <> SIT_BLOCK_OFFSET t -> current_sit_addr si s <> current_sit_addr si t.
Proof.
  intros Hg Ha Hs Ht Hne.
  pose proof (sit_block_offset_range g si s Hg Ha Hs); pose proof (sit_block_offset_range g si t Hg Ha Ht).
  rewrite !(current_sit_addr_val g) by assumption; destruct Ha; case_ifs; lia.
Qed.

(** Flipping one block, as seen from any segment. *)
Lemma flip_current g si s t :
  geo_wf g -> sit_area_wf g si -> 0 <= s < main_segments g -> 0 <= t < main_segments g ->
  current_sit_addr (set_to_next_sit si s) t
    = (if SIT_BLOCK_OFFSET t =? SIT_BLOCK_OFFSET s then next_sit_addr si (current_sit_addr si s)
       else current_sit_addr si t) /\
  next_sit_addr si (current_sit_addr si s) <> current_sit_addr si t /\
  sit_area_wf g (set_to_next_sit si s).
Proof.
  intros Hg Ha Hs Ht; set (si' := set_to_next_sit si s).
  assert (Ha' : sit_area_wf g si') by (destruct Ha; constructor; cbn; autorewrite with maxrw; assumption).
  pose proof (sit_block_offset_range g si s Hg Ha Hs) as Hos.
  pose proof (sit_block_offset_range g si t Hg Ha Ht) as Hot.
  split; [|split; [|exact Ha']].
  - rewrite (current_sit_addr_val g si' t), !(current_sit_addr_val g si) by assumption.
    assert (Hbit : f2fs_test_bit (SIT_BLOCK_OFFSET t) (sit_bitmap si')
      = xorb (SIT_BLOCK_OFFSET t =? SIT_BLOCK_OFFSET s) (f2fs_test_bit (SIT_BLOCK_OFFSET t) (sit_bitmap si)))
      by (destruct Ha; apply f2fs_test_bit_change; lia).
    rewrite Hbit; change (sit_base_addr si') with (sit_base_addr si); change (sit_blocks si') with (sit_blocks si).
    unfold next_sit_addr; destruct Ha; destruct (Z.eqb_spec (SIT_BLOCK_OFFSET t) (SIT_BLOCK_OFFSET s)) as [->|];
      [|rewrite xorb_false_l; reflexivity].
    destruct (f2fs_test_bit (SIT_BLOCK_OFFSET s) (sit_bitmap si)); cbn [xorb negb];
      repeat (u64_simpl; case_ifs; try lia); lia.
  - rewrite !(current_sit_addr_val g si) by assumption; unfold next_sit_addr; destruct Ha.
    destruct (Z.eq_dec (SIT_BLOCK_OFFSET t) (SIT_BLOCK_OFFSET s)) as [->|Hne];
    [destruct (f2fs_test_bit (SIT_BLOCK_OFFSET s) (sit_bitmap si))|
     destruct (f2fs_test_bit (SIT_BLOCK_OFFSET s) (sit_bitmap si)), (f2fs_test_bit (SIT_BLOCK_OFFSET t) (sit_bitmap si))];
      repeat (u64_simpl; case_ifs; try lia); lia.
Qed.

Lemma entry_offset_ne s t :
  SIT_BLOCK_OFFSET s = SIT_BLOCK_OFFSET t -> s <> t -> SIT_ENTRY_OFFSET s <> SIT_ENTRY_OFFSET t.
Proof. unfold SIT_BLOCK_OFFSET, SIT_ENTRY_OFFSET; change SIT_ENTRY_PER_BLOCK with 55; lia. Qed.

Lemma entry_offset_range s : 0 <= SIT_ENTRY_OFFSET s < PER.
Proof. unfold SIT_ENTRY_OFFSET, PER; change SIT_ENTRY_PER_BLOCK with 55; lia. Qed.

(** The on-disk SIT agrees with the cached entries of the segments that are not dirty. *)
Record sit_disk_ok (sbi : f2fs_sb_info) (sum : f2fs_summary_block) : Prop := {
  dk_area : sit_area_wf (geo sbi) (sit_i sbi);
  dk_page : forall i, 0 <= i < main_segments (geo sbi) ->
    zlen (sit_page sbi (current_sit_addr (sit_i sbi) i)) = PER;
  dk_journal : journal_wf (geo sbi) sum;
  dk_clean : forall i, 0 <= i < main_segments (geo sbi) ->
    test_bit i (dirty_sentries_bitmap (sit_i sbi)) = false ->
    view sbi sum i = raw_of (get_seg_entry (sit_i sbi) i) /\
    ckpt_valid_map (get_seg_entry (sit_i sbi) i) = cur_valid_map (get_seg_entry (sit_i sbi) i);
}.

(** ** The sets of a flush *)

Lemma add_sits_ok sbi :
  let g := geo sbi in
  let p i := test_bit i (dirty_sentries_bitmap (sit_i sbi)) in
  geo_wf g -> sit_wf g (sit_i sbi) ->
  sets_for g p (add_sits_in_set sbi []) /\ total_cnt (add_sits_in_set sbi []) = dirty_sentries (sit_i sbi).
Proof.
  cbv zeta; intros Hg Hw; rewrite (tw_dirty _ _ Hw); set (p i := test_bit i (dirty_sentries_bitmap (sit_i sbi))).
  unfold add_sits_in_set, for_each_set_bit, MAIN_SEGS; set (M := main_segments (geo sbi)).
  pose proof (main_segments_bound _ Hg).
  assert (Hall : sets_for (geo sbi) (fun i => p i && (i <? M))
    (for_range 0 M (fun i l => if test_bit i (dirty_sentries_bitmap (sit_i sbi)) then add_sit_entry i l else l) []) /\
    total_cnt (for_range 0 M (fun i l => if test_bit i (dirty_sentries_bitmap (sit_i sbi)) then add_sit_entry i l else l) [])
      = count_below p M).
  { apply (for_range_ind (fun n l => sets_for (geo sbi) (fun i => p i && (i <? n)) l /\ total_cnt l = count_below p n));
      [lia| |].
    - split; [|reflexivity]; constructor; [constructor|intros x Hx; inversion Hx|intros x Hx; inversion Hx|].
      intros i Hi Hp; rewrite (proj2 (Z.ltb_ge i 0)), andb_false_r in Hp by lia; discriminate.
    - intros n l Hn [H1 H2]; rewrite count_below_succ by lia; fold (p n); destruct (p n) eqn:Ep.
      + destruct (add_entry_sets (geo sbi) (fun i => p i && (i <? n)) (fun i => p i && (i <? n + 1)) n l H1) as [A1 A2];
          [lia|rewrite Z.ltb_irrefl; apply andb_false_r|rewrite Ep, (proj2 (Z.ltb_lt n (n + 1))) by lia; reflexivity| |].
        * intros i Hi Hne; f_equal; apply eq_true_iff_eq; rewrite !Z.ltb_lt; lia.
        * split; [exact A1|cbn; lia].
      + split; [|cbn; lia]; apply (sets_ext (geo sbi) (fun i => p i && (i <? n))); [|exact H1].
        intros i Hi; destruct (Z.eq_dec i n) as [->|]; [rewrite Ep; reflexivity|].
        f_equal; apply eq_true_iff_eq; rewrite !Z.ltb_lt; lia. }
  destruct Hall as [A1 A2]; split; [|exact A2]; apply (sets_ext (geo sbi) (fun i => p i && (i <? M))); [|exact A1].
  intros i Hi; rewrite (proj2 (Z.ltb_lt i M)) by (unfold M; lia); apply andb_true_r.
Qed.

(** ** Emptying the journal *)

Definition dirtied_sit (db dn : Z) (sbi : f2fs_sb_info) : f2fs_sb_info :=
  with_sit_i (with_dirty_sentries_bitmap db (with_dirty_sentries dn (sit_i sbi))) sbi.

(** The entries of the journal from [n - k] on are marked, with those that were dirty. *)
Definition unjournaled (sbi : f2fs_sb_info) (sum : f2fs_summary_block) (k : Z) (t : f2fs_sb_info * list sit_entry_set) : Prop :=
  exists db dn l, t = (dirtied_sit db dn sbi, l) /\
    (forall i, 0 <= i -> test_bit i (dirty_sentries_bitmap (sit_i sbi)) = true -> test_bit i db = true) /\
    (forall j, sits_in_cursum sum - 1 - k < j < sits_in_cursum sum -> test_bit (sj_segno ((sb_sit_j sum).[j])) db = true) /\
    dn = count_below (fun i => test_bit i db) (main_segments (geo sbi)) /\
    sets_for (geo sbi) (fun i => test_bit i db) l.

Lemma unjournal_step sbi sum k t (n := sits_in_cursum sum) :
  geo_wf (geo sbi) -> journal_wf (geo sbi) sum -> 0 <= k < n ->
  unjournaled sbi sum k t -> unjournaled sbi sum (k + 1) (unjournal sum (n - 1 - k) t).
Proof.
  intros Hg [J1 J2 J3] Hk (db & dn & l & -> & I1 & I2 & I3 & I4); unfold unjournaled, unjournal; fold n in I2, J1, J3 |- *.
  change SIT_JOURNAL_ENTRIES with 6 in *; pose proof (main_segments_bound _ Hg) as HM.
  set (s := sj_segno ((sb_sit_j sum).[n - 1 - k])).
  assert (Hsr : 0 <= s < main_segments (geo sbi)) by (apply J3; lia).
  unfold __mark_sit_entry_dirty, test_and_set_bit; cbn [dirtied_sit sit_i with_sit_i dirty_sentries_bitmap
    with_dirty_sentries_bitmap dirty_sentries with_dirty_sentries].
  assert (Hset : forall i, 0 <= i -> test_bit i (set_bit s db) = (i =? s) || test_bit i db)
    by (intros i Hi; apply test_bit_set; lia).
  assert (Hmono : forall i, 0 <= i -> test_bit i db = true -> test_bit i (set_bit s db) = true)
    by (intros i Hi E; rewrite Hset, E by lia; apply orb_true_r).
  assert (Hj : forall j, n - 1 - (k + 1) < j < n -> test_bit (sj_segno ((sb_sit_j sum).[j])) (set_bit s db) = true).
  { intros j Hj; destruct (Z.eq_dec j (n - 1 - k)) as [->|]; [fold s; rewrite Hset, Z.eqb_refl by lia; reflexivity|].
    apply Hmono; [apply J3; lia|apply I2; lia]. }
  destruct (test_bit s db) eqn:Es; cbn [negb].
  + assert (Hsame : forall i, 0 <= i -> test_bit i (set_bit s db) = test_bit i db)
      by (intros i Hi; rewrite Hset by lia; destruct (Z.eqb_spec i s) as [->|]; [rewrite Es; reflexivity|reflexivity]).
    exists (set_bit s db), dn, l; split; [reflexivity|split; [auto|split; [exact Hj|split]]].
    * rewrite I3; apply count_below_ext; intros i Hi; symmetry; apply Hsame; lia.
    * apply (sets_ext (geo sbi) (fun i => test_bit i db)); [|exact I4]; intros i Hi; symmetry; apply Hsame; lia.
  + exists (set_bit s db), (u32 (dn + 1)), (add_sit_entry s l).
    split; [reflexivity|split; [auto|split; [exact Hj|split]]].
    * rewrite (count_below_upd (fun i => test_bit i db) _ _ s Hsr);
        [rewrite Hset, Es, Z.eqb_refl, <- I3 by lia; cbn|].
      -- pose proof (count_below_range (fun i => test_bit i db) (main_segments (geo sbi)) ltac:(lia)) as Hr.
         pose proof (count_below_negb (fun i => test_bit i db) (main_segments (geo sbi)) ltac:(lia)) as Hn.
         pose proof (count_below_pos (fun i => negb (test_bit i db)) _ s Hsr ltac:(cbv beta; rewrite Es; reflexivity)).
         rewrite <- I3 in Hr, Hn; rewrite u32_small; lia.
      -- intros i Hi Hne; rewrite Hset, (proj2 (Z.eqb_neq i s)) by lia; reflexivity.
    * apply (add_entry_sets (geo sbi) (fun i => test_bit i db)); auto.
      -- rewrite Hset, Z.eqb_refl by lia; reflexivity.
      -- intros i Hi Hne; rewrite Hset, (proj2 (Z.eqb_neq i s)) by lia; reflexivity.
Qed.

Lemma unjournal_ok sbi sum head :
  let g := geo sbi in
  let p i := test_bit i (dirty_sentries_bitmap (sit_i sbi)) in
  geo_wf g -> sit_wf g (sit_i sbi) -> journal_wf g sum -> sets_for g p head ->
  exists db dn l sum',
    remove_sits_in_journal sum sbi head = (dirtied_sit db dn sbi, l, sum') /\
    sum' = with_n_jnl 0 sum /\
    (forall i, 0 <= i -> p i = true -> test_bit i db = true) /\
    (forall j, 0 <= j < sits_in_cursum sum -> test_bit (sj_segno ((sb_sit_j sum).[j])) db = true) /\
    dn = count_below (fun i => test_bit i db) (main_segments g) /\
    sets_for g (fun i => test_bit i db) l.
Proof.
  cbv zeta; intros Hg Hw HJ Hs; unfold remove_sits_in_journal; pose proof (jw_n _ _ HJ) as J1.
  assert (Hinv : unjournaled sbi sum (sits_in_cursum sum)
    (for_range 0 (sits_in_cursum sum) (fun j => unjournal sum (sits_in_cursum sum - 1 - j)) (sbi, head))).
  { apply (for_range_ind (unjournaled sbi sum)); [lia| |intros; apply unjournal_step; auto].
    exists (dirty_sentries_bitmap (sit_i sbi)), (dirty_sentries (sit_i sbi)), head.
    split; [f_equal; unfold dirtied_sit; destruct sbi as []; cbn; destruct sit_i; reflexivity|].
    split; [auto|split; [intros; lia|split; [apply (tw_dirty _ _ Hw)|exact Hs]]]. }
  destruct Hinv as (db & dn & l & -> & I1 & I2 & I3 & I4).
  exists db, dn, l, (with_n_jnl 0 sum); split; [|split; [reflexivity|split; [exact I1|split; [|split; assumption]]]].
  - unfold update_sits_in_cursum; cbn [snd]; rewrite Z.add_opp_diag_r; reflexivity.
  - intros j Hj; apply I2; lia.
Qed.

(** * The invariant of the flush *)

Section Flush.
Variables (sbi0 : f2fs_sb_info) (sum0 : f2fs_summary_block) (cpc : cp_control).
Let g := geo sbi0.
Let si0 := sit_i sbi0.
Let e0 (i : Z) : seg_entry := get_seg_entry si0 i.
Hypothesis Hg : geo_wf g.
Hypothesis Hw : sit_wf g si0.
Hypothesis Harea : sit_area_wf g si0.

Definition fl_dirty (st : flush_state) (i : Z) : bool :=
  test_bit i (dirty_sentries_bitmap (sit_i (fl_sbi st))).

(** The parts of the state the flush changes. *)
Definition fl_shape (sbi : f2fs_sb_info) : Prop :=
  exists L bm db dn dl nd pages,
    sbi = with_sit_pages pages (with_nr_discards nd (with_discard_list dl (with_sit_i
      (with_sentries L (with_sit_bitmap bm (with_dirty_sentries_bitmap db (with_dirty_sentries dn si0)))) sbi0))).

Record core (st : flush_state) : Prop := {
  co_shape : fl_shape (fl_sbi st);
  co_len : zlen (sentries (sit_i (fl_sbi st))) = main_segments g;
  co_entry : forall i, 0 <= i < main_segments g ->
    get_seg_entry (sit_i (fl_sbi st)) i = if fl_dirty st i then e0 i else synced (e0 i);
  co_count : dirty_sentries (sit_i (fl_sbi st)) = count_below (fl_dirty st) (main_segments g);
  co_view : forall i, 0 <= i < main_segments g -> fl_dirty st i = false ->
    view (fl_sbi st) (fl_sum st) i = raw_of (e0 i);
  co_j : journal_wf g (fl_sum st);
  co_area : sit_area_wf g (sit_i (fl_sbi st));
  co_page : forall i, 0 <= i < main_segments g ->
    zlen (sit_page (fl_sbi st) (current_sit_addr (sit_i (fl_sbi st)) i)) = PER;
  co_old : forall i, 0 <= i < main_segments g ->
    sit_pages (fl_sbi st) !! current_sit_addr si0 i = sit_pages sbi0 !! current_sit_addr si0 i;
  co_runs : runs_in_main g (discard_list (fl_sbi st));
  co_total : nr_discards (fl_sbi st) - total_len (discard_list (fl_sbi st))
             = nr_discards sbi0 - total_len (discard_list sbi0);
  co_safe : forall a, in_discard (discard_list (fl_sbi st)) a -> in_discard (discard_list sbi0) a \/
    (in_main g a /\ block_valid sbi0 a = false);
  co_entries : sb_entries (fl_sum st) = sb_entries sum0;
}.

Lemma core_geo st : core st -> geo (fl_sbi st) = g.
Proof. intros [(L & bm & db & dn & dl & nd & pages & ->) _ _ _ _ _ _ _ _ _ _ _ _]; reflexivity. Qed.

Lemma core_base st : core st ->
  sit_base_addr (sit_i (fl_sbi st)) = sit_base_addr si0 /\ sit_blocks (sit_i (fl_sbi st)) = sit_blocks si0.
Proof. intros [(L & bm & db & dn & dl & nd & pages & ->) _ _ _ _ _ _ _ _ _ _ _ _]; auto. Qed.

Lemma core_valid st i : core st -> 0 <= i < main_segments g ->
  cur_valid_map (get_seg_entry (sit_i (fl_sbi st)) i) = cur_valid_map (e0 i) /\
  valid_blocks (get_seg_entry (sit_i (fl_sbi st)) i) = valid_blocks (e0 i).
Proof. intros Hc Hi; rewrite (co_entry _ Hc) by exact Hi; destruct (fl_dirty st i); auto. Qed.

Lemma core_sit_wf st : core st -> sit_wf g (sit_i (fl_sbi st)).
Proof.
  intros Hc; pose proof (co_shape _ Hc) as (L & bm & db & dn & dl & nd & pages & E).
  assert (Es : sec_entries (sit_i (fl_sbi st)) = sec_entries si0) by (rewrite E; reflexivity).
  destruct (Hw) as [T1 T2 T3 T4 T5]; constructor.
  - apply (co_len _ Hc).
  - intros i Hi; rewrite (co_entry _ Hc) by exact Hi; destruct (fl_dirty st i); auto using synced_wf.
  - rewrite Es; exact T3.
  - intros Hs s Hr; rewrite Es, T4 by assumption; apply sum_below_ext; intros i Hi.
    symmetry; apply core_valid; [exact Hc|destruct Hg; nia].
  - apply (co_count _ Hc).
Qed.

Lemma core_block_valid st a : core st -> in_main g a -> block_valid (fl_sbi st) a = block_valid sbi0 a.
Proof.
  intros Hc Ha; unfold block_valid, cur_valid; rewrite (core_geo _ Hc).
  destruct (core_valid st (GET_SEGNO g a) Hc ltac:(apply GET_SEGNO_range; assumption)) as [-> _]; reflexivity.
Qed.

(** One entry leaves the set of dirty entries. *)
Definition entry_done (segno : Z) (st st' : flush_state) : Prop :=
  core st' /\ (forall i, 0 <= i -> fl_dirty st' i = negb (i =? segno) && fl_dirty st i) /\
  fl_journal st' = fl_journal st /\ fl_cnt st' = u32 (fl_cnt st - 1) /\
  (forall i, current_sit_addr (sit_i (fl_sbi st')) i = current_sit_addr (sit_i (fl_sbi st)) i) /\
  (if fl_journal st
   then sits_in_cursum (fl_sum st') <= sits_in_cursum (fl_sum st) + 1 /\
        forall j, 0 <= j < sits_in_cursum (fl_sum st') -> sj_segno ((sb_sit_j (fl_sum st')).[j]) = segno \/
          exists i, 0 <= i < sits_in_cursum (fl_sum st) /\
            sj_segno ((sb_sit_j (fl_sum st')).[j]) = sj_segno ((sb_sit_j (fl_sum st)).[i])
   else fl_sum st' = fl_sum st).

Lemma shape_finish segno se sbi :
  fl_shape sbi ->
  fl_shape (with_sit_i (with_dirty_sentries (u32 (dirty_sentries (set_seg_entry segno se (sit_i sbi)) - 1))
    (with_dirty_sentries_bitmap (clear_bit segno (dirty_sentries_bitmap (set_seg_entry segno se (sit_i sbi))))
       (set_seg_entry segno se (sit_i sbi)))) sbi).
Proof.
  intros (L & bm & db & dn & dl & nd & pages & ->).
  exists (L.[segno <- se]), bm, (clear_bit segno db), (u32 (dn - 1)), dl, nd, pages; reflexivity.
Qed.

(** What is common to the two destinations: the state [sbi1], which has the new raw
    entry on disk, is cleaned up. *)
Lemma entry_finish st st1 segno :
  core st -> 0 <= segno < main_segments g -> fl_dirty st segno = true ->
  fl_shape (fl_sbi st1) ->
  sit_i (fl_sbi st1) = sit_i (fl_sbi st) -> journal_wf g (fl_sum st1) ->
  sb_entries (fl_sum st1) = sb_entries sum0 ->
  (forall i, 0 <= i < main_segments g -> i = segno \/ fl_dirty st i = false ->
     view (fl_sbi st1) (fl_sum st1) i = if i =? segno then raw_of (e0 i) else view (fl_sbi st) (fl_sum st) i) ->
  (forall i, 0 <= i < main_segments g ->
     zlen (sit_page (fl_sbi st1) (current_sit_addr (sit_i (fl_sbi st)) i)) = PER) ->
  (forall i, 0 <= i < main_segments g ->
     sit_pages (fl_sbi st1) !! current_sit_addr si0 i = sit_pages sbi0 !! current_sit_addr si0 i) ->
  runs_in_main g (discard_list (fl_sbi st1)) ->
  nr_discards (fl_sbi st1) - total_len (discard_list (fl_sbi st1))
    = nr_discards sbi0 - total_len (discard_list sbi0) ->
  (forall a, in_discard (discard_list (fl_sbi st1)) a -> in_discard (discard_list sbi0) a \/
    (in_main g a /\ block_valid sbi0 a = false)) ->
  let si := set_seg_entry segno (synced (e0 segno)) (sit_i (fl_sbi st1)) in
  let si := with_dirty_sentries (u32 (dirty_sentries si - 1))
              (with_dirty_sentries_bitmap (clear_bit segno (dirty_sentries_bitmap si)) si) in
  let st' := mk_flush (with_sit_i si (fl_sbi st1)) (fl_sum st1) (fl_journal st1) (fl_cnt st1) in
  core st' /\ (forall i, 0 <= i -> fl_dirty st' i = negb (i =? segno) && fl_dirty st i).
Proof.
  intros Hc Hs Hd Hsh Esi Hj Hent Hv Hp Ho Hr Ht Hsafe si1 si2 st'; set (sbi1 := fl_sbi st1) in *.
  assert (Hdirty : forall i, 0 <= i -> fl_dirty st' i = negb (i =? segno) && fl_dirty st i).
  { intros i Hi; unfold fl_dirty, st'; cbn; rewrite test_bit_clear by lia; rewrite Esi; reflexivity. }
  split; [|exact Hdirty].
  pose proof (co_count _ Hc) as Hcnt; pose proof (main_segments_bound g Hg) as HM.
  constructor; cbn [fl_sbi fl_sum st'].
  - apply shape_finish; exact Hsh.
  - cbn; rewrite zlen_aset, Esi; apply (co_len _ Hc).
  - intros i Hi; rewrite Hdirty by lia.
    change (get_seg_entry (sit_i (with_sit_i si2 sbi1)) i) with (get_seg_entry si1 i); unfold si1.
    rewrite (get_set_seg_entry g) by (rewrite ?Esi; try apply (co_len _ Hc); assumption).
    rewrite Z.eqb_sym; destruct (Z.eqb_spec i segno) as [->|]; [reflexivity|].
    rewrite Esi, (co_entry _ Hc) by exact Hi; reflexivity.
  - cbn; rewrite Esi, Hcnt.
    rewrite (count_below_upd (fl_dirty st) (fl_dirty st') (main_segments g) segno Hs)
      by (intros i Hi Hne; rewrite Hdirty, (proj2 (Z.eqb_neq i segno)) by lia; reflexivity).
    rewrite Hdirty, Z.eqb_refl, Hd by lia; cbn.
    pose proof (count_below_pos (fl_dirty st) (main_segments g) segno Hs Hd).
    pose proof (count_below_range (fl_dirty st) (main_segments g) ltac:(lia)).
    rewrite u32_small; lia.
  - intros i Hi; rewrite Hdirty by lia; intros Hcl.
    change (view (with_sit_i si2 sbi1) (fl_sum st1) i) with (view sbi1 (fl_sum st1) i).
    + destruct (Z.eqb_spec i segno) as [->|Hne].
      * rewrite Hv, Z.eqb_refl by auto; reflexivity.
      * cbn in Hcl; rewrite Hv by auto; rewrite (proj2 (Z.eqb_neq i segno) Hne); apply (co_view _ Hc); assumption.
  - exact Hj.
  - pose proof (co_area _ Hc) as [A1 A2 A3 A4]; constructor; cbn; rewrite Esi; assumption.
  - intros i Hi; unfold si2, si1; cbn [sit_i with_sit_i]; specialize (Hp i Hi); rewrite <- Esi in Hp; exact Hp.
  - exact Ho.
  - exact Hr.
  - exact Ht.
  - exact Hsafe.
  - exact Hent.
Qed.

Lemma entry_discard st segno :
  core st -> 0 <= segno < main_segments g ->
  exists l n,
    (if negb (cp_reason cpc =? CP_DISCARD) then add_discard_addrs (with_trim_start segno cpc) (fl_sbi st)
     else fl_sbi st) = with_nr_discards n (with_discard_list l (fl_sbi st)) /\
    runs_in_main g l /\ n - total_len l = nr_discards sbi0 - total_len (discard_list sbi0) /\
    (forall a, in_discard l a -> in_discard (discard_list sbi0) a \/ (in_main g a /\ block_valid sbi0 a = false)).
Proof.
  intros Hc Hs; pose proof (core_geo _ Hc) as Eg; destruct (cp_reason cpc =? CP_DISCARD) eqn:Er; cbn [negb].
  { exists (discard_list (fl_sbi st)), (nr_discards (fl_sbi st)); split; [destruct (fl_sbi st); reflexivity|].
    split; [apply (co_runs _ Hc)|split; [apply (co_total _ Hc)|apply (co_safe _ Hc)]]. }
  destruct (add_discard_ok (with_trim_start segno cpc) (fl_sbi st)) as (l & n & E & M1 & M2 & M3 & _ & _);
    cbn [trim_start with_trim_start]; rewrite ?Eg; auto using core_sit_wf; [apply (co_runs _ Hc)|].
  rewrite Eg in M1, M3; exists l, n; split; [exact E|split; [exact M1|split; [rewrite M2; apply (co_total _ Hc)|]]].
  intros a Ha; destruct (M3 a Ha) as [Hb|(H1 & _ & H2 & _)]; [apply (co_safe _ Hc); exact Hb|right].
  split; [exact H1|rewrite <- (core_block_valid st) by assumption; exact H2].
Qed.

Lemma shape_disc l n sbi : fl_shape sbi -> fl_shape (with_nr_discards n (with_discard_list l sbi)).
Proof.
  intros (L & bm & db & dn & dl & nd & pages & ->); exists L, bm, db, dn, l, n, pages; reflexivity.
Qed.

Lemma shape_pages p sbi : fl_shape sbi -> fl_shape (with_sit_pages p sbi).
Proof.
  intros (L & bm & db & dn & dl & nd & pages & ->); exists L, bm, db, dn, dl, nd, p; reflexivity.
Qed.

(** The raw entry goes to the journal. *)
Lemma flush_entry_journal dst segno st :
  core st -> 0 <= segno < main_segments g -> fl_dirty st segno = true -> fl_journal st = true ->
  sits_in_cursum (fl_sum st) < SIT_JOURNAL_ENTRIES ->
  entry_done segno st (flush_entry cpc dst segno st).
Proof.
  intros Hc Hs Hd Hj Hroom; unfold entry_done; rewrite Hj; unfold flush_entry; rewrite Hj; cbv zeta.
  destruct (entry_discard st segno Hc Hs) as (l & n & -> & D1 & D2 & D3).
  cbn [sit_i with_nr_discards with_discard_list]; rewrite (co_entry _ Hc), Hd by exact Hs.
  change (seg_info_to_raw_sit (e0 segno)) with (synced (e0 segno), raw_of (e0 segno)); cbv iota beta.
  pose proof (journal_store g (fl_sum st) segno (raw_of (e0 segno)) (co_j _ Hc) Hs Hroom) as J.
  destruct (lookup_journal_in_cursum (fl_sum st) SIT_JOURNAL segno true) as [off sum1]; cbv zeta in J.
  destruct J as (J1 & J2 & J3 & J4 & J5 & J6 & _); rewrite (proj2 (Z.ltb_ge off 0)) by lia; cbn [f2fs_bug_on].
  set (sum2 := with_sit_j _ _) in *.
  set (st1 := mk_flush (with_nr_discards n (with_discard_list l (fl_sbi st))) sum2 true (u32 (fl_cnt st - 1))).
  destruct (entry_finish st st1 segno Hc Hs Hd) as [C1 C2]; auto.
  - apply shape_disc, (co_shape _ Hc).
  - change (sb_entries sum2 = sb_entries sum0); rewrite J6; apply (co_entries _ Hc).
  - intros i Hi Hor; unfold view; cbn [fl_sbi fl_sum st1]; rewrite J4.
    destruct (Z.eqb_spec i segno) as [->|]; reflexivity.
  - apply (co_page _ Hc).
  - apply (co_old _ Hc).
  - split; [exact C1|split; [exact C2|split; [reflexivity|split; [reflexivity|split; [reflexivity|]]]]].
    split; [exact J3|exact J5].
Qed.

(** The raw entry goes to the copy of its SIT block. *)
Lemma flush_entry_page dst segno st :
  core st -> 0 <= segno < main_segments g -> fl_dirty st segno = true -> fl_journal st = false ->
  dst = current_sit_addr (sit_i (fl_sbi st)) segno -> jview (fl_sum st) segno = None ->
  (forall i, 0 <= i < main_segments g -> dst <> current_sit_addr si0 i) ->
  entry_done segno st (flush_entry cpc dst segno st).
Proof.
  intros Hc Hs Hd Hj Ed Hn Hold; unfold entry_done; rewrite Hj; unfold flush_entry; rewrite Hj; cbv zeta.
  destruct (entry_discard st segno Hc Hs) as (l & n & -> & D1 & D2 & D3).
  cbn [sit_i with_nr_discards with_discard_list]; rewrite (co_entry _ Hc), Hd by exact Hs.
  change (seg_info_to_raw_sit (e0 segno)) with (synced (e0 segno), raw_of (e0 segno)); cbv iota beta.
  cbn [sit_pages with_nr_discards with_discard_list].
  change (sit_page (with_nr_discards n (with_discard_list l (fl_sbi st))) dst) with (sit_page (fl_sbi st) dst).
  set (pg := (sit_page (fl_sbi st) dst).[SIT_ENTRY_OFFSET segno <- raw_of (e0 segno)]).
  set (st1 := mk_flush (with_sit_pages (<[dst := pg]> (sit_pages (fl_sbi st)))
    (with_nr_discards n (with_discard_list l (fl_sbi st)))) (fl_sum st) false (u32 (fl_cnt st - 1))).
  assert (Hpage : forall a, sit_page (fl_sbi st1) a = if a =? dst then pg else sit_page (fl_sbi st) a).
  { intros a; unfold sit_page; cbn; destruct (Z.eqb_spec a dst) as [->|Hne];
      [rewrite lookup_insert_eq|rewrite lookup_insert_ne by auto]; reflexivity. }
  assert (Hpl : zlen (sit_page (fl_sbi st) dst) = PER) by (rewrite Ed; apply (co_page _ Hc); exact Hs).
  assert (Hbl : forall i, 0 <= i < main_segments g ->
    current_sit_addr (sit_i (fl_sbi st)) i = dst <-> SIT_BLOCK_OFFSET i = SIT_BLOCK_OFFSET segno).
  { intros i Hi; rewrite Ed; split; [|apply current_same_block].
    intros E; destruct (Z.eq_dec (SIT_BLOCK_OFFSET i) (SIT_BLOCK_OFFSET segno)); [assumption|].
    exfalso; revert E; apply (current_other_block g); auto; apply (co_area _ Hc). }
  destruct (entry_finish st st1 segno Hc Hs Hd) as [C1 C2]; auto.
  - apply shape_pages, shape_disc, (co_shape _ Hc).
  - apply (co_j _ Hc).
  - apply (co_entries _ Hc).
  - intros i Hi Hor; unfold view; rewrite Hpage.
    change (sit_i (fl_sbi st1)) with (sit_i (fl_sbi st)); change (fl_sum st1) with (fl_sum st).
    destruct (Z.eqb_spec i segno) as [->|Hne].
    + rewrite <- Ed, Z.eqb_refl, Hn; cbn [default]; unfold pg.
      apply aget_aset_eq; rewrite Hpl; apply entry_offset_range.
    + destruct (Z.eqb_spec (current_sit_addr (sit_i (fl_sbi st)) i) dst) as [E|E]; [|reflexivity].
      rewrite E; f_equal; unfold pg; apply aget_aset_ne.
      apply Hbl in E; [|exact Hi]; intros E2; exact (entry_offset_ne segno i (eq_sym E) (not_eq_sym Hne) E2).
  - intros i Hi; rewrite Hpage; destruct (_ =? dst); [unfold pg; rewrite zlen_aset; exact Hpl|apply (co_page _ Hc); exact Hi].
  - intros i Hi; cbn; rewrite lookup_insert_ne by (apply Hold; exact Hi); apply (co_old _ Hc); exact Hi.
  - split; [exact C1|split; [exact C2|split; [reflexivity|split; [reflexivity|split; [reflexivity|reflexivity]]]]].
Qed.

(** ** One set *)

Definition j_starts (sum : f2fs_summary_block) (P : Z -> Prop) : Prop :=
  forall j, 0 <= j < sits_in_cursum sum -> P (START_SEGNO (sj_segno ((sb_sit_j sum).[j]))).

Record outer (rest : list sit_entry_set) (st : flush_state) : Prop := {
  ou_core : core st;
  ou_sets : sets_for g (fl_dirty st) rest;
  ou_mode : (fl_journal st = true /\ sits_in_cursum (fl_sum st) + total_cnt rest <= SIT_JOURNAL_ENTRIES) \/
            j_starts (fl_sum st) (fun b => b ∉ map ses_start rest);
  ou_cur : forall i, 0 <= i < main_segments g -> START_SEGNO i ∈ map ses_start rest ->
    current_sit_addr (sit_i (fl_sbi st)) i = current_sit_addr si0 i;
}.

(** The state inside a set, once the segments below [pos] are done. *)
Record inner (b dst pos : Z) (r : list sit_entry_set) (jr : bool) (st : flush_state) : Prop := {
  in_core : core st;
  in_sets : sets_for g (fl_dirty st) (mk_ses b (fl_cnt st) :: r);
  in_clean : forall i, b <= i < pos -> fl_dirty st i = false;
  in_jr : fl_journal st = jr;
  in_mode : (jr = true /\ sits_in_cursum (fl_sum st) + fl_cnt st + total_cnt r <= SIT_JOURNAL_ENTRIES) \/
            j_starts (fl_sum st) (fun c => c ∉ map ses_start r);
  in_room : jr = true -> sits_in_cursum (fl_sum st) + fl_cnt st <= SIT_JOURNAL_ENTRIES;
  in_page : jr = false -> j_starts (fl_sum st) (fun c => c <> b) /\
    current_sit_addr (sit_i (fl_sbi st)) b = dst /\
    forall i, 0 <= i < main_segments g -> dst <> current_sit_addr si0 i;
  in_cur : forall i, 0 <= i < main_segments g -> START_SEGNO i ∈ map ses_start r ->
    current_sit_addr (sit_i (fl_sbi st)) i = current_sit_addr si0 i;
}.

Lemma inner_step b dst pos r jr st :
  inner b dst pos r jr st -> 0 <= b -> START_SEGNO b = b -> b <= pos < Z.min (b + PER) (main_segments g) ->
  inner b dst (pos + 1) r jr
    (if test_bit pos (dirty_sentries_bitmap (sit_i (fl_sbi st))) then flush_entry cpc dst pos st else st).
Proof.
  intros Hin Hb0 Hb Hpos; fold (fl_dirty st pos).
  assert (Hp : 0 <= pos < main_segments g) by lia.
  assert (Hbp : START_SEGNO pos = b) by (apply START_SEGNO_in; auto; lia).
  destruct (fl_dirty st pos) eqn:Ed.
  2:{ destruct Hin; constructor; auto; intros i Hi; destruct (Z.eq_dec i pos) as [->|]; [exact Ed|apply in_clean0; lia]. }
  pose proof (in_core _ _ _ _ _ _ Hin) as Hc.
  assert (Hdone : entry_done pos st (flush_entry cpc dst pos st)).
  { destruct jr eqn:Ejr.
    - apply flush_entry_journal; auto; [apply Hin|].
      pose proof (in_room _ _ _ _ _ _ Hin eq_refl) as Hr.
      destruct (sets_remove g (fun i => negb (i =? pos) && fl_dirty st i) (fl_dirty st) pos b (fl_cnt st) r)
        as [_ Hcnt]; auto; [apply Hin|rewrite Z.eqb_refl; reflexivity| |lia].
      intros i _ Hne; rewrite (proj2 (Z.eqb_neq i pos) Hne); reflexivity.
    - destruct (in_page _ _ _ _ _ _ Hin eq_refl) as (P1 & P2 & P3).
      apply flush_entry_page; auto; [apply Hin| |].
      + rewrite <- P2; apply current_same_block, block_start; rewrite Hbp, Hb; reflexivity.
      + apply jview_none; [apply (co_j _ Hc)|]; intros j Hj E; apply (P1 j Hj); rewrite E; exact Hbp. }
  set (st' := flush_entry cpc dst pos st) in *; destruct Hdone as (D1 & D2 & D3 & D4 & D5 & D6).
  destruct (sets_remove g (fl_dirty st') (fl_dirty st) pos b (fl_cnt st) r) as [Hsets Hcnt]; auto;
    [apply Hin|rewrite D2, Z.eqb_refl by lia; reflexivity| |].
  { intros i Hi Hne; rewrite D2, (proj2 (Z.eqb_neq i pos) Hne) by lia; reflexivity. }
  assert (Ec : fl_cnt st' = fl_cnt st - 1).
  { rewrite D4; apply u32_small; unfold PER in Hcnt; change SIT_ENTRY_PER_BLOCK with 55 in Hcnt; lia. }
  pose proof (in_jr _ _ _ _ _ _ Hin) as Ej; rewrite Ej in D6.
  assert (Hbr : b ∉ map ses_start r) by (pose proof (sf_nodup _ _ _ Hsets) as N; cbn in N; apply NoDup_cons in N; apply N).
  constructor.
  - exact D1.
  - rewrite Ec; exact Hsets.
  - intros i Hi; rewrite D2 by lia; destruct (Z.eqb_spec i pos); [reflexivity|].
    rewrite (in_clean _ _ _ _ _ _ Hin) by lia; apply andb_false_r.
  - congruence.
  - destruct (in_mode _ _ _ _ _ _ Hin) as [[M1 M2]|M]; [left; split; [exact M1|rewrite M1 in D6; lia]|right].
    destruct jr; [|rewrite D6; exact M]; destruct D6 as [_ D6]; intros j Hj.
    destruct (D6 j Hj) as [E|(i & Hi & E)]; rewrite E; [rewrite Hbp; exact Hbr|apply M; exact Hi].
  - intros Ht; pose proof (in_room _ _ _ _ _ _ Hin Ht); rewrite Ht in D6; lia.
  - intros Hf; destruct (in_page _ _ _ _ _ _ Hin Hf) as (P1 & P2 & P3); rewrite Hf in D6.
    rewrite D6, D5; auto.
  - intros i Hr Hi; rewrite D5; apply (in_cur _ _ _ _ _ _ Hin); assumption.
Qed.

Lemma shape_sit_bitmap bm sbi :
  fl_shape sbi -> fl_shape (with_sit_i (with_sit_bitmap bm (sit_i sbi)) sbi).
Proof.
  intros (L & bm0 & db & dn & dl & nd & pages & ->); exists L, bm, db, dn, dl, nd, pages; reflexivity.
Qed.

(** A SIT block is moved to its other copy. *)
Lemma get_next_ok b st jr c :
  core st -> 0 <= b < main_segments g -> START_SEGNO b = b ->
  j_starts (fl_sum st) (fun d => d <> b) -> current_sit_addr (sit_i (fl_sbi st)) b = current_sit_addr si0 b ->
  let '(dst, sbi) := get_next_sit_page b (fl_sbi st) in
  let st' := mk_flush sbi (fl_sum st) jr c in
  core st' /\ fl_dirty st' = fl_dirty st /\ current_sit_addr (sit_i sbi) b = dst /\
  (forall i, 0 <= i < main_segments g -> dst <> current_sit_addr si0 i) /\
  (forall i, 0 <= i < main_segments g -> START_SEGNO i <> b ->
     current_sit_addr (sit_i sbi) i = current_sit_addr (sit_i (fl_sbi st)) i).
Proof.
  intros Hc Hb Eb Hj Hcur; unfold get_next_sit_page; cbv zeta; cbn [sit_i with_sit_pages].
  pose proof (co_area _ Hc) as Ha; set (si := sit_i (fl_sbi st)) in *.
  set (src := current_sit_addr si b) in *; set (dst := next_sit_addr si src) in *.
  assert (Hflip : forall i, 0 <= i < main_segments g ->
    current_sit_addr (set_to_next_sit si b) i = if START_SEGNO i =? b then dst else current_sit_addr si i).
  { intros i Hi; destruct (flip_current g si b i Hg Ha Hb Hi) as [-> _].
    destruct (Z.eqb_spec (START_SEGNO i) b) as [E|E]; destruct (Z.eqb_spec (SIT_BLOCK_OFFSET i) (SIT_BLOCK_OFFSET b)) as [E2|E2];
      try reflexivity; exfalso; rewrite <- block_start, Eb in E2; auto. }
  assert (Hne : forall i, 0 <= i < main_segments g -> dst <> current_sit_addr si i)
    by (intros i Hi; apply (flip_current g si b i Hg Ha Hb Hi)).
  assert (Hold : forall i, 0 <= i < main_segments g -> dst <> current_sit_addr si0 i).
  { intros i Hi; destruct (core_base _ Hc) as [B1 B2]; fold si in B1, B2.
    assert (E : dst = next_sit_addr si0 (current_sit_addr si0 b))
      by (unfold dst, next_sit_addr; rewrite B1, B2, Hcur; reflexivity).
    rewrite E; apply (flip_current g si0 b i Hg Harea Hb Hi). }
  set (pages := <[dst := sit_page (fl_sbi st) src]> (sit_pages (fl_sbi st))).
  set (sbi := with_sit_i (set_to_next_sit si b) (with_sit_pages pages (fl_sbi st))).
  assert (Hpg : forall i, 0 <= i < main_segments g ->
    sit_page sbi (current_sit_addr (set_to_next_sit si b) i) = sit_page (fl_sbi st) (current_sit_addr si i)).
  { intros i Hi; rewrite Hflip by exact Hi; unfold sit_page, sbi, pages; cbn [sit_pages with_sit_pages with_sit_i].
    destruct (Z.eqb_spec (START_SEGNO i) b) as [E|E].
    - rewrite lookup_insert_eq, (current_same_block si i b); [reflexivity|apply block_start; congruence].
    - rewrite lookup_insert_ne by (apply Hne; exact Hi); reflexivity. }
  assert (Hview : forall i, 0 <= i < main_segments g -> view sbi (fl_sum st) i = view (fl_sbi st) (fl_sum st) i).
  { intros i Hi; unfold view; change (sit_i sbi) with (set_to_next_sit si b); rewrite Hpg by exact Hi; reflexivity. }
  split; [|split; [reflexivity|split; [|split; [exact Hold|]]]].
  - destruct Hc; constructor; cbn [fl_sbi fl_sum]; auto.
    + apply (shape_sit_bitmap _ (with_sit_pages pages (fl_sbi st))), shape_pages; assumption.
    + intros i Hi Hd; rewrite Hview by exact Hi; apply co_view0; assumption.
    + apply (flip_current g si b b Hg Ha Hb Hb).
    + intros i Hi; change (sit_i sbi) with (set_to_next_sit si b); rewrite Hpg by exact Hi; apply co_page0; exact Hi.
    + intros i Hi; unfold sbi, pages; cbn; rewrite lookup_insert_ne by (apply Hold; exact Hi); apply co_old0; exact Hi.
  - cbn; rewrite Hflip, Eb, Z.eqb_refl by exact Hb; reflexivity.
  - intros i Hi E; cbn; rewrite Hflip, (proj2 (Z.eqb_neq _ _) E) by exact Hi; reflexivity.
Qed.

(** Entering a set. *)
Lemma set_entered b c r st :
  outer (mk_ses b c :: r) st ->
  let journal := fl_journal st && __has_cursum_space (fl_sum st) c SIT_JOURNAL in
  let '(dst, sbi) := if negb journal then get_next_sit_page b (fl_sbi st) else (0, fl_sbi st) in
  inner b dst b r journal (mk_flush sbi (fl_sum st) journal c).
Proof.
  intros [Hc Hs Hm Hcur] jr.
  destruct (sf_start _ _ _ Hs _ ltac:(left)) as [Hb Eb]; cbn [ses_start] in Hb, Eb.
  pose proof (sets_total_nonneg _ _ _ _ Hs) as Htot; cbn in Hm.
  assert (Hbr : b ∉ map ses_start r) by (pose proof (sf_nodup _ _ _ Hs) as N; cbn in N; apply NoDup_cons in N; apply N).
  assert (Hsp : __has_cursum_space (fl_sum st) c SIT_JOURNAL = (sits_in_cursum (fl_sum st) + c <=? SIT_JOURNAL_ENTRIES)).
  { unfold __has_cursum_space; change (SIT_JOURNAL =? NAT_JOURNAL) with false; unfold MAX_SIT_JENTRIES; cbv iota.
    apply eq_true_iff_eq; rewrite !Z.leb_le; lia. }
  assert (Hcr : forall i, 0 <= i < main_segments g -> START_SEGNO i ∈ map ses_start r ->
    current_sit_addr (sit_i (fl_sbi st)) i = current_sit_addr si0 i)
    by (intros i Hi Hin; apply Hcur; [exact Hi|right; exact Hin]).
  destruct jr eqn:Ej; unfold jr in Ej; cbn [negb].
  - apply andb_true_iff in Ej; destruct Ej as [Ej Er]; rewrite Hsp, Z.leb_le in Er.
    assert (core (mk_flush (fl_sbi st) (fl_sum st) true c)) by (destruct Hc; constructor; auto).
    constructor; cbn [fl_sbi fl_sum fl_journal fl_cnt]; auto; [intros; lia| |discriminate].
    destruct Hm as [[M1 M2]|M]; [left; split; [reflexivity|unfold total_cnt in *; cbn in M2; lia]|right].
    intros j Hj Hin; apply (M j Hj); right; exact Hin.
  - assert (M : j_starts (fl_sum st) (fun d => d ∉ b :: map ses_start r)).
    { destruct Hm as [[M1 M2]|M]; [exfalso|exact M]; rewrite M1, Hsp in Ej; cbn in Ej.
      apply Z.leb_gt in Ej; unfold total_cnt in *; cbn in M2; lia. }
    assert (Mb : j_starts (fl_sum st) (fun d => d <> b)) by (intros j Hj E; apply (M j Hj); rewrite E; left).
    pose proof (get_next_ok b st false c Hc Hb Eb Mb ltac:(apply Hcur; [exact Hb|cbn; rewrite Eb; left])) as G.
    destruct (get_next_sit_page b (fl_sbi st)) as [dst sbi]; cbv zeta in G; destruct G as (G1 & G2 & G3 & G4 & G5).
    constructor; cbn [fl_sbi fl_sum fl_journal fl_cnt]; auto.
    + rewrite G2; exact Hs.
    + intros; lia.
    + right; intros j Hj Hin; apply (M j Hj); right; exact Hin.
    + discriminate.
    + intros i Hi Hin; rewrite G5; auto; intros E; apply Hbr; rewrite <- E; exact Hin.
Qed.

Lemma flush_set_ok x r st : outer (x :: r) st -> outer r (flush_set cpc st x).
Proof.
  intros Ho; destruct x as [b c]; unfold flush_set; cbn [ses_start ses_cnt].
  destruct (sf_start _ _ _ (ou_sets _ _ Ho) _ ltac:(left)) as [Hb Eb]; cbn [ses_start] in Hb, Eb.
  pose proof (set_entered b c r st Ho) as Hin; cbv zeta in Hin.
  set (jr := fl_journal st && __has_cursum_space (fl_sum st) c SIT_JOURNAL) in *.
  destruct (if negb jr then get_next_sit_page b (fl_sbi st) else (0, fl_sbi st)) as [dst sbi].
  rewrite (core_geo _ (ou_core _ _ Ho)); change (MAIN_SEGS g) with (main_segments g).
  set (fin := Z.min (b + SIT_ENTRY_PER_BLOCK) (main_segments g)).
  match goal with |- context [for_each_set_bit b fin ?m ?f ?s0] => set (st1 := for_each_set_bit b fin m f s0) end.
  assert (H1 : inner b dst fin r jr st1).
  { apply (for_range_ind (fun pos => inner b dst pos r jr)); [unfold fin; change SIT_ENTRY_PER_BLOCK with 55; lia|exact Hin|].
    intros i t Hi Ht; apply inner_step; auto; lia. }
  destruct (sets_drop g (fl_dirty st1) b (fl_cnt st1) r) as [Hr E0]; [apply H1|apply (in_clean _ _ _ _ _ _ H1)|].
  rewrite E0; cbn [Z.eqb negb f2fs_bug_on]; rewrite <- E0.
  replace (mk_flush _ _ _ _) with st1 by (destruct st1; reflexivity).
  destruct H1 as [I1 _ _ I4 I5 _ _ I8]; constructor; auto.
  destruct I5 as [[J1 J2]|J]; [left|right; exact J]; split; [congruence|lia].
Qed.

Lemma flush_sets_ok l st : outer l st -> outer [] (fold_left (flush_set cpc) l st).
Proof. revert st; induction l as [|x l IH]; intros st Ho; cbn; [exact Ho|apply IH, flush_set_ok; exact Ho]. Qed.

(** ** The start of the flush *)

Hypothesis Hdisk : sit_disk_ok sbi0 sum0.
Hypothesis Hruns : runs_in_main g (discard_list sbi0).

(** Marking more entries dirty, with a journal that covers no clean entry it did not
    cover before, gives a state the flush can start from. *)
Lemma core_start db dn sum c :
  (forall i, 0 <= i < main_segments g -> test_bit i (dirty_sentries_bitmap si0) = true -> test_bit i db = true) ->
  dn = count_below (fun i => test_bit i db) (main_segments g) ->
  journal_wf g sum -> sb_entries sum = sb_entries sum0 ->
  (forall i, 0 <= i < main_segments g -> test_bit i db = false -> jview sum i = jview sum0 i) ->
  core (mk_flush (dirtied_sit db dn sbi0) sum true c).
Proof.
  intros Hdb Hdn Hj He Hv; destruct Hdisk as [K1 K2 K3 K4].
  constructor; cbn [fl_sbi fl_sum]; auto; try (unfold fl_dirty; cbn; exact Hdn).
  - exists (sentries si0), (sit_bitmap si0), db, dn, (discard_list sbi0), (nr_discards sbi0), (sit_pages sbi0).
    unfold dirtied_sit, si0; destruct sbi0 as []; cbn; destruct sit_i; reflexivity.
  - apply (tw_len _ _ Hw).
  - intros i Hi; unfold fl_dirty; cbn; fold (e0 i); destruct (test_bit i db) eqn:E; [reflexivity|].
    destruct (test_bit i (dirty_sentries_bitmap si0)) eqn:E0; [rewrite Hdb in E by assumption; discriminate|].
    symmetry; apply synced_id; [apply (tw_seg _ _ Hw i Hi)|apply K4; assumption].
  - intros i Hi; unfold fl_dirty; cbn; intros E.
    destruct (test_bit i (dirty_sentries_bitmap si0)) eqn:E0; [rewrite Hdb in E by assumption; discriminate|].
    destruct (K4 i Hi E0) as [E1 _]; transitivity (view sbi0 sum0 i); [|exact E1]; unfold view.
    rewrite Hv by assumption; reflexivity.
  - destruct K1; constructor; assumption.
Qed.

(** The state after the loop over the sets. *)
Definition flushed : flush_state :=
  let head := add_sits_in_set sbi0 [] in
  let '(sbi, head, sum) :=
    if negb (__has_cursum_space sum0 (dirty_sentries si0) SIT_JOURNAL)
    then remove_sits_in_journal sum0 sbi0 head else (sbi0, head, sum0) in
  fold_left (flush_set cpc) head (mk_flush sbi sum true 0).

Lemma flushed_ok :
  core flushed /\ (forall i, 0 <= i < main_segments g -> fl_dirty flushed i = false) /\
  dirty_sentries (sit_i (fl_sbi flushed)) = 0.
Proof.
  assert (Ho : outer [] flushed).
  { unfold flushed; destruct (add_sits_ok sbi0 Hg Hw) as [A1 A2]; pose proof (dk_journal _ _ Hdisk) as Hj.
    unfold __has_cursum_space; change (SIT_JOURNAL =? NAT_JOURNAL) with false; cbv iota zeta; unfold MAX_SIT_JENTRIES.
    destruct (Z.leb_spec (dirty_sentries si0) (SIT_JOURNAL_ENTRIES - sits_in_cursum sum0)) as [Hle|Hgt]; cbn [negb].
    - apply flush_sets_ok.
      assert (E : sbi0 = dirtied_sit (dirty_sentries_bitmap si0) (dirty_sentries si0) sbi0)
        by (unfold dirtied_sit, si0; destruct sbi0 as []; cbn; destruct sit_i; reflexivity).
      constructor.
      + replace (mk_flush sbi0 sum0 true 0)
          with (mk_flush (dirtied_sit (dirty_sentries_bitmap si0) (dirty_sentries si0) sbi0) sum0 true 0)
          by (rewrite <- E; reflexivity).
        apply core_start; auto; apply (tw_dirty _ _ Hw).
      + exact A1.
      + left; cbn [fl_journal fl_sum]; split; [reflexivity|]; rewrite A2; unfold si0 in Hle; lia.
      + intros i Hi _; reflexivity.
    - destruct (unjournal_ok sbi0 sum0 (add_sits_in_set sbi0 []) Hg Hw Hj A1)
        as (db & dn & l & sum' & -> & -> & U1 & U2 & U3 & U4).
      assert (Hno : forall t, jview (with_n_jnl 0 sum0) t = None)
        by (intros t; apply jview_none; [cbn; lia|intros j Hj2; cbn in Hj2; lia]).
      apply flush_sets_ok; constructor.
      + apply core_start; auto; [intros i Hi; apply U1; lia| |intros i Hi Hc].
        * destruct Hj as [J1 J2 J3]; constructor; [cbn; change SIT_JOURNAL_ENTRIES with 6; lia|exact J2|cbn; intros; lia].
        * rewrite Hno; symmetry; apply jview_none; [apply Hj|].
          intros j Hj2 E; rewrite <- E, U2 in Hc by exact Hj2; discriminate.
      + exact U4.
      + right; intros j Hj2; cbn in Hj2; lia.
      + intros i Hi _; reflexivity. }
  destruct Ho as [Hc Hs _ _].
  assert (Hcl : forall i, 0 <= i < main_segments g -> fl_dirty flushed i = false).
  { intros i Hi; destruct (fl_dirty flushed i) eqn:E; [|reflexivity].
    pose proof (sf_all _ _ _ Hs i Hi E) as Hx; inversion Hx. }
  split; [exact Hc|split; [exact Hcl|]].
  rewrite (co_count _ Hc); apply count_below_none; exact Hcl.
Qed.
End Flush.
