(* ===== verification/SitSync.v ===== *)
(** The SIT flush as a whole (src/Max/segment.c, [flush_sit_entries]) and what it
    guarantees: every cached entry is on disk where a mount looks for it, the blocks of
    the previous checkpoint are untouched, and the released segments are free. *)

From Stdlib Require Import ZArith Lia Bool.
From stdpp Require Import base numbers list gmap.
From S2P Require Import Prelude Layout Bitops SmState FreeSegmap Sit DirtySeg Victim Curseg SegMgr Alloc Discard SitFlush.

#[local] Open Scope Z_scope.
#[local] Ltac Zify.zify_post_hook ::= Z.to_euclidean_division_equations.

Definition cold_sum (sbi : f2fs_sb_info) : f2fs_summary_block := sum_blk (CURSEG_I sbi CURSEG_COLD_DATA).

(** The parts of the state [flush_sit_entries] changes. *)
Definition flush_shape (fi : free_segmap_info) (sbi sbi' : f2fs_sb_info) : Prop :=
  exists L bm db dn dl nd pages sum,
    sbi' = with_free_i fi (set_curseg CURSEG_COLD_DATA (with_sum_blk sum (CURSEG_I sbi CURSEG_COLD_DATA))
      (with_sit_pages pages (with_nr_discards nd (with_discard_list dl (with_sit_i
        (with_sentries L (with_sit_bitmap bm (with_dirty_sentries_bitmap db
          (with_dirty_sentries dn (sit_i sbi))))) sbi))))).

Record sit_synced (fi : free_segmap_info) (sbi sbi' : f2fs_sb_info) : Prop := {
  ss_shape : flush_shape fi sbi sbi';
  ss_entry : forall i, 0 <= i < main_segments (geo sbi) ->
    get_seg_entry (sit_i sbi') i = synced (get_seg_entry (sit_i sbi) i);
  ss_clean : forall i, 0 <= i < main_segments (geo sbi) ->
    test_bit i (dirty_sentries_bitmap (sit_i sbi')) = false;
  ss_wf : sit_wf (geo sbi) (sit_i sbi');
  ss_disk : sit_disk_ok sbi' (cold_sum sbi');
  ss_old : forall i, 0 <= i < main_segments (geo sbi) ->
    sit_pages sbi' !! current_sit_addr (sit_i sbi) i = sit_pages sbi !! current_sit_addr (sit_i sbi) i;
  ss_runs : runs_in_main (geo sbi) (discard_list sbi');
  ss_total : nr_discards sbi' - total_len (discard_list sbi') = nr_discards sbi - total_len (discard_list sbi);
  ss_safe : forall a, in_discard (discard_list sbi') a -> in_discard (discard_list sbi) a \/
    (in_main (geo sbi) a /\ block_valid sbi a = false);
  ss_entries : sb_entries (cold_sum sbi') = sb_entries (cold_sum sbi);
}.

(** Resolving the cold data log after the flush. *)
Lemma cold_get sbi c : CURSEG_COLD_DATA < zlen (curseg_array sbi) ->
  CURSEG_I (set_curseg CURSEG_COLD_DATA c sbi) CURSEG_COLD_DATA = c.
Proof. intros H; rewrite curseg_get, Z.eqb_refl; [reflexivity|split; [unfold CURSEG_COLD_DATA; lia|exact H]]. Qed.

Section Synced.
Variables (sbi : f2fs_sb_info) (cpc : cp_control).
Hypothesis Hg : geo_wf (geo sbi).
Hypothesis Hw : sit_wf (geo sbi) (sit_i sbi).
Hypothesis Hdisk : sit_disk_ok sbi (cold_sum sbi).
Hypothesis Hruns : runs_in_main (geo sbi) (discard_list sbi).
Hypothesis Hlogs : CURSEG_COLD_DATA < zlen (curseg_array sbi).

Lemma flush_dirty_eq :
  let st := flushed sbi (cold_sum sbi) cpc in
  flush_dirty cpc sbi = f2fs_bug_on (negb (dirty_sentries (sit_i (fl_sbi st)) =? 0))
    (set_curseg CURSEG_COLD_DATA (with_sum_blk (fl_sum st) (CURSEG_I sbi CURSEG_COLD_DATA)) (fl_sbi st)).
Proof.
  cbv zeta; unfold flush_dirty, flushed, cold_sum; cbv zeta.
  destruct (if negb _ then _ else _) as [[sbi1 head] sum1]; reflexivity.
Qed.

Lemma flush_dirty_synced : sit_synced (free_i sbi) sbi (flush_dirty cpc sbi).
Proof.
  rewrite flush_dirty_eq; set (st := flushed sbi (cold_sum sbi) cpc).
  destruct (flushed_ok sbi (cold_sum sbi) cpc Hg Hw (dk_area _ _ Hdisk) Hdisk Hruns) as (Hc & Hcl & E0).
  fold st in Hc, Hcl, E0; rewrite E0; cbn [Z.eqb negb f2fs_bug_on].
  set (sbi' := set_curseg _ _ _); destruct (co_shape _ _ _ Hc) as (L & bm & db & dn & dl & nd & pages & Es).
  assert (Esum : cold_sum sbi' = fl_sum st).
  { unfold cold_sum, sbi'; rewrite cold_get; [reflexivity|]; rewrite Es; exact Hlogs. }
  assert (Eg : geo sbi' = geo sbi) by exact (core_geo _ _ _ Hc).
  constructor.
  - exists L, bm, db, dn, dl, nd, pages, (fl_sum st); unfold sbi'; rewrite Es; destruct sbi; reflexivity.
  - intros i Hi; change (sit_i sbi') with (sit_i (fl_sbi st)); rewrite (co_entry _ _ _ Hc), Hcl by exact Hi; reflexivity.
  - exact Hcl.
  - exact (core_sit_wf _ _ Hg Hw _ Hc).
  - rewrite Esum; constructor; rewrite ?Eg.
    + apply (co_area _ _ _ Hc).
    + apply (co_page _ _ _ Hc).
    + apply (co_j _ _ _ Hc).
    + intros i Hi Hd; change (sit_i sbi') with (sit_i (fl_sbi st)); rewrite (co_entry _ _ _ Hc) by exact Hi.
      rewrite (Hcl i Hi); split; [|reflexivity].
      change (view sbi' (fl_sum st) i) with (view (fl_sbi st) (fl_sum st) i); rewrite (co_view _ _ _ Hc) by auto; reflexivity.
  - exact (co_old _ _ _ Hc).
  - exact (co_runs _ _ _ Hc).
  - exact (co_total _ _ _ Hc).
  - exact (co_safe _ _ _ Hc).
  - rewrite Esum; exact (co_entries _ _ _ Hc).
Qed.

(** Nothing dirty: the state is already synced. *)
Lemma clean_synced : dirty_sentries (sit_i sbi) = 0 -> sit_synced (free_i sbi) sbi sbi.
Proof.
  intros H0; rewrite (tw_dirty _ _ Hw) in H0.
  assert (Hcl : forall i, 0 <= i < main_segments (geo sbi) -> test_bit i (dirty_sentries_bitmap (sit_i sbi)) = false)
    by (intros i Hi; exact (count_below_0_inv _ _ i H0 Hi)).
  constructor; auto; [|intros i Hi].
  - exists (sentries (sit_i sbi)), (sit_bitmap (sit_i sbi)), (dirty_sentries_bitmap (sit_i sbi)),
      (dirty_sentries (sit_i sbi)), (discard_list sbi), (nr_discards sbi), (sit_pages sbi), (cold_sum sbi).
    assert (E : (curseg_array sbi).[CURSEG_COLD_DATA <- with_sum_blk (cold_sum sbi) (CURSEG_I sbi CURSEG_COLD_DATA)]
      = curseg_array sbi).
    { replace (with_sum_blk _ _) with (CURSEG_I sbi CURSEG_COLD_DATA)
        by (unfold cold_sum; destruct (CURSEG_I sbi CURSEG_COLD_DATA); reflexivity).
      apply aset_aget. }
    unfold set_curseg; cbn; rewrite E; destruct sbi as []; cbn; destruct sit_i; reflexivity.
  - symmetry; apply synced_id; [apply (tw_seg _ _ Hw i Hi)|apply (dk_clean _ _ Hdisk i Hi), Hcl; exact Hi].
Qed.
End Synced.

(** ** The whole function *)

Lemma synced_geo fi sbi t : sit_synced fi sbi t -> geo t = geo sbi.
Proof. intros [(L & bm & db & dn & dl & nd & pages & sum & ->) _ _ _ _ _ _ _ _ _]; reflexivity. Qed.

Lemma synced_block_valid fi sbi t a :
  sit_synced fi sbi t -> geo_wf (geo sbi) -> in_main (geo sbi) a -> block_valid t a = block_valid sbi a.
Proof.
  intros Hs Hg Ha; unfold block_valid, cur_valid; rewrite (synced_geo _ _ _ Hs).
  rewrite (ss_entry _ _ _ Hs) by (apply GET_SEGNO_range; assumption); reflexivity.
Qed.

Lemma synced_discards fi sbi t l n :
  sit_synced fi sbi t -> runs_in_main (geo sbi) l ->
  n - total_len l = nr_discards sbi - total_len (discard_list sbi) ->
  (forall a, in_discard l a -> in_discard (discard_list sbi) a \/ (in_main (geo sbi) a /\ block_valid sbi a = false)) ->
  sit_synced fi sbi (with_nr_discards n (with_discard_list l t)).
Proof.
  intros Hs R N S; destruct Hs; constructor; auto.
  - destruct ss_shape0 as (L & bm & db & dn & dl & nd & pages & sum & ->).
    exists L, bm, db, dn, l, n, pages, sum; reflexivity.
  - destruct ss_disk0; constructor; auto.
Qed.

Lemma synced_free fi0 fi sbi t : sit_synced fi0 sbi t -> sit_synced fi sbi (with_free_i fi t).
Proof.
  intros Hs; destruct Hs; constructor; auto.
  - destruct ss_shape0 as (L & bm & db & dn & dl & nd & pages & sum & ->).
    exists L, bm, db, dn, dl, nd, pages, sum; reflexivity.
  - destruct ss_disk0; constructor; auto.
Qed.

Lemma trim_loop_synced fi sbi t cpc lo hi :
  geo_wf (geo sbi) -> sit_synced fi sbi t -> 0 <= lo -> hi <= main_segments (geo sbi) ->
  sit_synced fi sbi (for_range lo hi (fun s => add_discard_addrs (with_trim_start s cpc)) t).
Proof.
  intros Hg Hs Hlo Hhi; apply for_range_inv; [exact Hs|]; intros s u Hsr Hu.
  pose proof (synced_geo _ _ _ Hu) as Eg.
  destruct (add_discard_ok (with_trim_start s cpc) u) as (l & n & -> & M1 & M2 & M3 & _);
    cbn [trim_start with_trim_start]; rewrite ?Eg; [exact Hg|apply Hu|lia|apply Hu|].
  rewrite Eg in M1, M3; apply synced_discards; auto; [rewrite M2; apply Hu|].
  intros a Ha; destruct (M3 a Ha) as [Hb|(H1 & _ & H2 & _)]; [apply (ss_safe _ _ _ Hu); exact Hb|right].
  split; [exact H1|rewrite <- (synced_block_valid fi sbi u) by assumption; exact H2].
Qed.

Definition trim_ok (sbi : f2fs_sb_info) (cpc : cp_control) : Prop :=
  cp_reason cpc = CP_DISCARD -> 0 <= trim_start cpc /\ trim_end cpc < main_segments (geo sbi).

Lemma flush_sit_entries_ok sbi cpc :
  geo_wf (geo sbi) -> sit_wf (geo sbi) (sit_i sbi) -> free_wf (geo sbi) (free_i sbi) ->
  sit_disk_ok sbi (cold_sum sbi) -> runs_in_main (geo sbi) (discard_list sbi) ->
  CURSEG_COLD_DATA < zlen (curseg_array sbi) -> trim_ok sbi cpc ->
  let sbi' := flush_sit_entries cpc sbi in
  sit_synced (free_i sbi') sbi sbi' /\ free_wf (geo sbi) (free_i sbi') /\
  (forall i, 0 <= i < main_segments (geo sbi) ->
     seg_used (free_i sbi') i = seg_used (free_i sbi) i && negb (in_list (dirty_i sbi) PRE i)).
Proof.
  intros Hg Hw Hf Hd Hr Hl Ht; cbv zeta; unfold flush_sit_entries; cbv zeta.
  set (t := if negb (dirty_sentries (sit_i sbi) =? 0) then flush_dirty cpc sbi else sbi).
  assert (Hs : sit_synced (free_i sbi) sbi t).
  { unfold t; destruct (Z.eqb_spec (dirty_sentries (sit_i sbi)) 0) as [E|]; cbn [negb];
      [apply clean_synced|apply flush_dirty_synced]; assumption. }
  set (u := if cp_reason cpc =? CP_DISCARD then _ else t).
  assert (Hu : sit_synced (free_i sbi) sbi u).
  { unfold u; destruct (Z.eqb_spec (cp_reason cpc) CP_DISCARD) as [E|]; [|exact Hs].
    destruct (Ht E); apply trim_loop_synced; auto; lia. }
  assert (Fu : free_i u = free_i sbi /\ dirty_i u = dirty_i sbi).
  { destruct (ss_shape _ _ _ Hu) as (L & bm & db & dn & dl & nd & pages & sum & ->); auto. }
  destruct Fu as [Ef Ed]; pose proof (synced_geo _ _ _ Hu) as Eg.
  destruct (set_prefree_ok u) as (fi & -> & F1 & F2); rewrite ?Eg, ?Ef; auto.
  rewrite Eg in F1, F2; rewrite Ef, Ed in F2.
  split; [apply (synced_free (free_i sbi)); exact Hu|split; [exact F1|exact F2]].
Qed.

(** ** The segment manager across a checkpoint *)

(** The segment manager's part of [write_checkpoint]: the flush, and after the
    checkpoint pack is committed, the release of the prefree segments. *)
Definition checkpoint_segments (cpc : cp_control) (sbi : f2fs_sb_info) :
  f2fs_sb_info * list (Z * Z) * cp_control :=
  clear_prefree_segments cpc (flush_sit_entries cpc sbi).

Lemma pinned_synced d se off : pinned (with_discard_map d (synced se)) off = cur_valid se off.
Proof. unfold pinned, ckpt_valid, cur_valid; cbn; apply orb_diag. Qed.

Lemma pinned_cur se off : pinned se off = false -> cur_valid se off = false.
Proof. unfold pinned; intros H; apply orb_false_iff in H; apply H. Qed.

(** The invariant after the checkpoint, from what it changes. *)
Lemma checkpoint_inv s1 s2 :
  sm_wf s1 -> geo s2 = geo s1 -> curseg_array s2 = curseg_array s1 -> last_victim s2 = last_victim s1 ->
  sit_wf (geo s1) (sit_i s2) -> discard_wf s2 -> free_wf (geo s1) (free_i s2) -> dirty_cnt_wf (geo s1) (dirty_i s2) ->
  (forall i, 0 <= i < main_segments (geo s1) -> exists d, entry_of s2 i = with_discard_map d (synced (entry_of s1 i))) ->
  (forall i, 0 <= i < main_segments (geo s1) ->
     seg_used (free_i s2) i = seg_used (free_i s1) i && negb (in_list (dirty_i s1) PRE i)) ->
  (forall t i, 0 <= t < 8 -> 0 <= i < main_segments (geo s1) ->
     in_list (dirty_i s2) t i = negb (t =? PRE) && in_list (dirty_i s1) t i) ->
  sm_wf s2.
Proof.
  intros Hi Eg Ec El Hw Hd Hf Hc He Hu Hl.
  assert (Ecur : forall k, CURSEG_I s2 k = CURSEG_I s1 k) by (intros; unfold CURSEG_I; rewrite Ec; reflexivity).
  assert (Eseg : forall k, curseg_segno s2 k = curseg_segno s1 k) by (intros; unfold curseg_segno; rewrite Ecur; reflexivity).
  assert (Eis : forall i, is_cur s2 i = is_cur s1 i) by (intros; unfold is_cur; rewrite Eg, Ec; reflexivity).
  assert (En : nr_logs s2 = nr_logs s1) by (unfold nr_logs; rewrite Eg; reflexivity).
  assert (Ev : forall i, 0 <= i < main_segments (geo s1) ->
    seg_valid s2 i = seg_valid s1 i /\ seg_type s2 i = seg_type s1 i).
  { intros i Hr; destruct (He i Hr) as [d E]; unfold seg_valid, seg_type; unfold entry_of in E; rewrite E; auto. }
  assert (Hpre : forall i, 0 <= i < main_segments (geo s1) -> in_list (dirty_i s1) PRE i = true ->
    is_cur s1 i = false /\ seg_valid s1 i = 0).
  { intros i Hr Hp; destruct (si_class _ _ _ Hi i Hr ltac:(apply not_elem_of_nil)) as [_ P _]; rewrite P in Hp.
    unfold should_be_prefree in Hp; rewrite !andb_true_iff, negb_true_iff, Z.eqb_eq in Hp; tauto. }
  constructor; rewrite ?Eg, ?En.
  - apply Hi.
  - exact Hw.
  - exact Hd.
  - exact Hf.
  - unfold lv_wf; rewrite El; apply (si_lv _ _ _ Hi).
  - rewrite Ec; apply (si_len _ _ _ Hi).
  - intros k Hk; rewrite Ecur; destruct (si_log _ _ _ Hi k Hk) as [L1 L2 L3]; constructor; auto.
    rewrite Hu, L2 by exact L1; destruct (in_list (dirty_i s1) PRE _) eqn:E; [exfalso|reflexivity].
    destruct (Hpre _ L1 E) as [Hn _]; rewrite <- not_true_iff_false, is_cur_iff in Hn; apply Hn; exists k; auto.
  - intros k Hk Hfl; rewrite Ecur, Eseg; destruct (si_cursor _ _ _ Hi k Hk Hfl) as [C1 C2 C3].
    destruct (He (curseg_segno s1 k) ltac:(apply (si_log _ _ _ Hi k Hk))) as [d ->].
    constructor; [exact C1|rewrite pinned_synced; apply pinned_cur; exact C2|].
    intros E off Ho; rewrite pinned_synced; apply pinned_cur, C3; assumption.
  - intros j k Hj Hk; rewrite !Eseg; apply (si_inj _ _ _ Hi); assumption.
  - exact Hc.
  - intros i Hr; rewrite (proj2 (Ev i Hr)); apply (si_types _ _ _ Hi i Hr).
  - intros i Hr Hx; destruct (si_class _ _ _ Hi i Hr Hx) as [D P T]; destruct (Ev i Hr) as [E1 E2].
    constructor; unfold should_be_dirty, should_be_prefree in *; rewrite ?Eis, ?E1, ?E2.
    + rewrite Hl by (unfold DIRTY; lia); exact D.
    + rewrite Hl by (unfold PRE; lia); cbn; rewrite Hu by exact Hr.
      rewrite P; destruct (is_cur s1 i), (seg_valid s1 i =? 0), (seg_used (free_i s1) i); reflexivity.
    + intros t Ht; rewrite Hl by lia; rewrite (proj2 (Z.eqb_neq t PRE)) by (unfold PRE; lia); apply T; exact Ht.
  - intros i Hr Hx; apply elem_of_nil in Hx; destruct Hx.
  - intros i Hr Hun; destruct (He i Hr) as [d ->]; cbn; rewrite Hu in Hun by exact Hr.
    destruct (in_list (dirty_i s1) PRE i) eqn:E; [apply (Hpre i Hr E)|].
    rewrite andb_true_r in Hun; apply (unused_facts _ _ s1 i Hi Hr Hun).
Qed.

(** What the segment manager keeps on disk and in memory between checkpoints. *)
Record durable_wf (sbi : f2fs_sb_info) : Prop := {
  du_sm : sm_wf sbi;
  du_disk : sit_disk_ok sbi (cold_sum sbi);
  du_list : discard_list sbi = [] /\ nr_discards sbi = 0;
  du_ckpt : forall i, 0 <= i < main_segments (geo sbi) -> exists se,
    read_sit sbi i = raw_of se /\ seg_wf se /\ 0 <= se_type se < 6 /\
    cur_valid_map se = ckpt_valid_map (entry_of sbi i);
}.

Lemma durable_cold sbi : sm_wf sbi -> CURSEG_COLD_DATA < zlen (curseg_array sbi).
Proof.
  intros Hi; rewrite (si_len _ _ _ Hi); unfold nr_logs, CURSEG_COLD_DATA.
  destruct (si_geo _ _ _ Hi); change NR_CURSEG_TYPE with 6; nia.
Qed.

Lemma discardable_synced se : discardable (synced se) = discardable se.
Proof. reflexivity. Qed.

(** The flush leaves the invariant but for the prefree segments, now both free and
    listed. *)
Lemma flush_discard_wf fi sbi sbi' : sit_synced fi sbi sbi' -> discard_wf sbi -> discard_wf sbi'.
Proof.
  intros Hs Hd; unfold discard_wf in *; rewrite (synced_geo _ _ _ Hs).
  assert (E : discard_blks sbi' = discard_blks sbi)
    by (destruct (ss_shape _ _ _ Hs) as (L & bm & db & dn & dl & nd & pages & sum & ->); reflexivity).
  rewrite E, Hd; apply sum_below_ext; intros i Hi; rewrite (ss_entry _ _ _ Hs) by exact Hi; reflexivity.
Qed.

Lemma valid_zero_bits se off : seg_wf se -> valid_blocks se = 0 -> 0 <= off < 512 -> cur_valid se off = false.
Proof. intros Hw H0 Ho; rewrite (sw_valid _ Hw) in H0; exact (count_below_0_inv _ _ off H0 Ho). Qed.

(** The blocks of a prefree segment hold nothing. *)
Lemma prefree_blocks sbi a :
  sm_wf sbi -> in_main (geo sbi) a -> in_list (dirty_i sbi) PRE (GET_SEGNO (geo sbi) a) = true ->
  block_valid sbi a = false.
Proof.
  intros Hi Ha Hp; pose proof (si_geo _ _ _ Hi) as Hg; pose proof (GET_SEGNO_range _ _ Hg Ha) as Hr.
  destruct (si_class _ _ _ Hi _ Hr ltac:(apply not_elem_of_nil)) as [_ P _]; rewrite P in Hp.
  unfold should_be_prefree in Hp; rewrite !andb_true_iff, Z.eqb_eq in Hp.
  apply valid_zero_bits; [apply (tw_seg _ _ (si_sit _ _ _ Hi)); exact Hr|apply Hp|apply GET_BLKOFF_range; assumption].
Qed.

Lemma flush_frame fi sbi u :
  sit_synced fi sbi u -> CURSEG_COLD_DATA < zlen (curseg_array sbi) ->
  dirty_i u = dirty_i sbi /\ last_victim u = last_victim sbi /\ s_flag u = s_flag sbi /\
  curseg_array u = (curseg_array sbi).[CURSEG_COLD_DATA <- with_sum_blk (cold_sum u) (CURSEG_I sbi CURSEG_COLD_DATA)].
Proof.
  intros Hs Hl; unfold cold_sum.
  destruct (ss_shape _ _ _ Hs) as (L & bm & db & dn & dl & nd & pages & sum & ->); repeat split.
  cbn; unfold CURSEG_I at 2; cbn; rewrite aget_aset_eq by (unfold CURSEG_COLD_DATA in *; lia); reflexivity.
Qed.

(** [sbi'] is the flushed state [u] in which the discard maps and the dirty lists have
    changed, as the release of the prefree segments leaves it. *)
Section Cleared.
Variables (fi : free_segmap_info) (sbi u sbi' : f2fs_sb_info).
Hypotheses (Hi : sm_wf sbi) (Hs : sit_synced fi sbi u).
Hypotheses (Hgeo : geo sbi' = geo sbi) (Hcur : curseg_array sbi' = curseg_array u) (Hpages : sit_pages sbi' = sit_pages u).
Hypothesis Hsit : exists L, sit_i sbi' = with_sentries L (sit_i u).
Hypothesis Hent : forall i, exists d, entry_of sbi' i = with_discard_map d (entry_of u i).

Lemma cleared_entry i : 0 <= i < main_segments (geo sbi) -> exists d, entry_of sbi' i = with_discard_map d (synced (entry_of sbi i)).
Proof.
  intros Hri; destruct (Hent i) as [d E]; exists d; rewrite E; unfold entry_of; rewrite (ss_entry _ _ _ Hs) by exact Hri; reflexivity.
Qed.

Lemma cleared_blocks a : in_main (geo sbi) a ->
  block_valid sbi' a = block_valid sbi a /\ block_in_ckpt sbi' a = block_valid sbi a.
Proof.
  intros Ha; unfold block_valid, block_in_ckpt, cur_valid, ckpt_valid; rewrite Hgeo.
  destruct (cleared_entry (GET_SEGNO (geo sbi) a)) as [d E]; [apply GET_SEGNO_range; [exact (si_geo _ _ _ Hi)|exact Ha]|].
  unfold entry_of in E; rewrite E; split; reflexivity.
Qed.

Lemma cleared_sum : cold_sum sbi' = cold_sum u.
Proof. unfold cold_sum, CURSEG_I; rewrite Hcur; reflexivity. Qed.

Lemma cleared_view i : 0 <= i < main_segments (geo sbi) -> view sbi' (cold_sum sbi') i = raw_of (entry_of sbi i).
Proof.
  intros Hri; destruct Hsit as [L EL]; destruct (dk_clean _ _ (ss_disk _ _ _ Hs) i) as [E _];
    [rewrite (synced_geo _ _ _ Hs); exact Hri|apply (ss_clean _ _ _ Hs); exact Hri|].
  rewrite (ss_entry _ _ _ Hs) in E by exact Hri; etransitivity; [|exact E].
  rewrite cleared_sum; unfold view, sit_page, current_sit_addr; rewrite Hpages, EL; reflexivity.
Qed.

Lemma cleared_disk : sit_disk_ok sbi' (cold_sum sbi').
Proof.
  destruct Hsit as [L EL]; pose proof (synced_geo _ _ _ Hs) as Eg; constructor; rewrite ?Hgeo.
  - destruct (dk_area _ _ (ss_disk _ _ _ Hs)) as [A1 A2 A3 A4]; rewrite Eg in *; constructor; rewrite EL; assumption.
  - intros i Hri; unfold sit_page; rewrite Hpages, EL; apply (dk_page _ _ (ss_disk _ _ _ Hs)); rewrite Eg; exact Hri.
  - rewrite cleared_sum, <- Eg; apply (dk_journal _ _ (ss_disk _ _ _ Hs)).
  - intros i Hri _; rewrite cleared_view by exact Hri; destruct (cleared_entry i Hri) as [d E]; unfold entry_of in E.
    rewrite E; split; reflexivity.
Qed.

(** What a mount would read now is what was current. *)
Lemma cleared_read i : 0 <= i < main_segments (geo sbi) -> read_sit sbi' i = raw_of (entry_of sbi i).
Proof. intros Hri; rewrite read_sit_view; fold (cold_sum sbi'); apply cleared_view; exact Hri. Qed.
End Cleared.

Lemma checkpoint_ok cpc sbi :
  durable_wf sbi -> trim_ok sbi cpc ->
  let '(sbi', cmds, _) := checkpoint_segments cpc sbi in
  durable_wf sbi' /\ geo sbi' = geo sbi /\ s_flag sbi' = s_flag sbi /\
  (forall a, in_main (geo sbi) a ->
     block_valid sbi' a = block_valid sbi a /\ block_in_ckpt sbi' a = block_valid sbi a) /\
  (forall i, 0 <= i < main_segments (geo sbi) -> read_sit sbi' i = raw_of (entry_of sbi i)) /\
  (forall i, 0 <= i < main_segments (geo sbi) ->
     seg_used (free_i sbi') i = seg_used (free_i sbi) i && negb (in_list (dirty_i sbi) PRE i)) /\
  (forall a, in_discard cmds a -> in_main (geo sbi) a /\ block_valid sbi a = false) /\
  (forall i, 0 <= i < main_segments (geo sbi) ->
     sit_pages sbi' !! current_sit_addr (sit_i sbi) i = sit_pages sbi !! current_sit_addr (sit_i sbi) i) /\
  (forall i, 0 <= i < main_segments (geo sbi) ->
     exists d, entry_of sbi' i = with_discard_map d (synced (entry_of sbi i))) /\
  discard_list sbi' = [].
Proof.
  intros [Hi Hk [El0 En0] _] Ht; unfold checkpoint_segments;
  assert (Hr : runs_in_main (geo sbi) (discard_list sbi)) by (rewrite El0; constructor).
  set (u := flush_sit_entries cpc sbi).
  pose proof (si_geo _ _ _ Hi) as Hg; pose proof (si_sit _ _ _ Hi) as Hw.
  destruct (flush_sit_entries_ok sbi cpc Hg Hw (si_free _ _ _ Hi) Hk Hr (durable_cold _ Hi) Ht) as (Hs & Hf & Hu);
    fold u in Hs, Hf, Hu.
  pose proof (synced_geo _ _ _ Hs) as Eg.
  destruct (flush_frame _ _ _ Hs (durable_cold _ Hi)) as (Ed & Elv & Efl & Eca).
  destruct (clear_prefree_ok cpc u) as (di & sbi1 & cmds & cpc' & -> & D1 & D2 & D3 & D4 & _);
    rewrite ?Eg, ?Ed; auto; [apply Hs|apply Hi|apply Hs|].
  rewrite Eg, Ed in *; set (sbi' := with_discard_list _ _).
  destruct (dd_shape _ _ D1) as (v & L & E1).
  assert (E2 : geo sbi' = geo sbi /\ curseg_array sbi' = curseg_array u /\ last_victim sbi' = last_victim sbi /\
    s_flag sbi' = s_flag sbi /\ sit_pages sbi' = sit_pages u /\ free_i sbi' = free_i u /\ dirty_i sbi' = di /\
    sit_i sbi' = with_sentries L (sit_i u)).
  { unfold sbi'; rewrite E1; rewrite <- Eg, <- Elv, <- Efl; repeat split. }
  destruct E2 as (G1 & G2 & G3 & G4 & G5 & G6 & G7 & G8).
  assert (Hen := cleared_entry _ sbi u sbi' Hs (dd_entry _ _ D1)).
  assert (Hrd := cleared_read _ sbi u sbi' Hs G2 G5 (ex_intro _ L G8)).
  split; [constructor|].
  - apply (checkpoint_inv (set_curseg CURSEG_COLD_DATA (with_sum_blk (cold_sum u) (CURSEG_I sbi CURSEG_COLD_DATA)) sbi)); auto; rewrite ?G6, ?G7; auto.
    + apply set_curseg_inv; auto; pose proof (durable_cold _ Hi) as Hl; rewrite (si_len _ _ _ Hi) in Hl; unfold CURSEG_COLD_DATA in *; lia.
    + rewrite G2; exact Eca.
    + change (sit_wf (geo sbi) (sit_i sbi1)); rewrite <- Eg; exact (dd_sit _ _ D1).
    + apply (dd_wf _ _ D1), (flush_discard_wf (free_i u) sbi u Hs), Hi.
  - exact (cleared_disk _ sbi u sbi' Hs G1 G2 G5 (ex_intro _ L G8) (dd_entry _ _ D1)).
  - split; [reflexivity|]; cbn; pose proof (ss_total _ _ _ Hs) as Hto; rewrite El0, En0 in Hto; cbn in Hto; lia.
  - intros i Hri; rewrite G1 in Hri; exists (entry_of sbi i); split; [exact (Hrd i Hri)|split; [apply (tw_seg _ _ Hw); exact Hri|split]].
    + apply (si_types _ _ _ Hi i Hri).
    + destruct (Hen i Hri) as [d E]; rewrite E; reflexivity.
  - split; [exact G1|split; [exact G4|split; [|split; [exact Hrd|split; [|split; [|split; [|split; [exact Hen|reflexivity]]]]]]]].
    + exact (cleared_blocks _ sbi u sbi' Hi Hs G1 (dd_entry _ _ D1)).
    + intros i Hri; rewrite G6; apply Hu; exact Hri.
    + intros a Ha; destruct (D4 a Ha) as [M1 [M2|M2]]; [split; [exact M1|apply prefree_blocks; auto]|].
      destruct (ss_safe _ _ _ Hs a M2) as [Hb|Hb]; [rewrite El0 in Hb; inversion Hb|exact Hb].
    + intros i Hri; rewrite G5; apply (ss_old _ _ _ Hs); exact Hri.
Qed.
