(* ===== verification/Durable.v ===== *)
(** Between checkpoints the segment manager leaves the on-disk segment information
    table and the journal alone: every operation of [Curseg] keeps the tables in step with
    the cached entries that are not marked dirty. *)

From Stdlib Require Import ZArith Lia Bool.
From stdpp Require Import base numbers list gmap.
From S2P Require Import Prelude Layout Bitops SmState FreeSegmap Sit DirtySeg Victim Curseg SegMgr Alloc Discard SitFlush SitSync.

#[local] Open Scope Z_scope.
#[local] Ltac Zify.zify_post_hook ::= Z.to_euclidean_division_equations.

(** * The frame *)

Record disk_frame (s t : f2fs_sb_info) : Prop := {
  fr_geo : geo t = geo s;
  fr_pages : sit_pages t = sit_pages s;
  fr_base : sit_base_addr (sit_i t) = sit_base_addr (sit_i s);
  fr_blocks : sit_blocks (sit_i t) = sit_blocks (sit_i s);
  fr_bitmap : sit_bitmap (sit_i t) = sit_bitmap (sit_i s);
  fr_list : discard_list t = discard_list s;
  fr_nr : nr_discards t = nr_discards s;
  fr_njnl : sb_n_jnl (cold_sum t) = sb_n_jnl (cold_sum s);
  fr_sitj : sb_sit_j (cold_sum t) = sb_sit_j (cold_sum s);
  fr_clean : forall i, 0 <= i -> test_bit i (dirty_sentries_bitmap (sit_i t)) = false ->
    test_bit i (dirty_sentries_bitmap (sit_i s)) = false /\ entry_of t i = entry_of s i;
  fr_ckpt : forall i, 0 <= i -> ckpt_valid_map (entry_of t i) = ckpt_valid_map (entry_of s i);
}.

Lemma frame_refl s : disk_frame s s.
Proof. constructor; auto. Qed.

Lemma frame_trans s t u : disk_frame s t -> disk_frame t u -> disk_frame s u.
Proof.
  intros H K; destruct H, K; constructor; try congruence.
  - intros i Hi Hc; destruct (fr_clean1 i Hi Hc) as [H1 ->]; auto.
  - intros i Hi; rewrite fr_ckpt1; auto.
Qed.

Instance disk_frame_preorder : PreOrder disk_frame.
Proof. split; [exact frame_refl|exact frame_trans]. Qed.

(** Changes outside the tables. *)
Lemma frame_same s t :
  geo t = geo s -> sit_pages t = sit_pages s -> sit_i t = sit_i s -> discard_list t = discard_list s ->
  nr_discards t = nr_discards s -> curseg_array t = curseg_array s -> disk_frame s t.
Proof.
  intros E1 E2 E3 E4 E5 E6; constructor; unfold cold_sum, CURSEG_I, entry_of; rewrite ?E3, ?E6; auto.
Qed.

Lemma frame_bug b s : disk_frame s (f2fs_bug_on b s).
Proof. destruct b; [apply frame_same|apply frame_refl]; reflexivity. Qed.

(** A log's record may change but for the journal. *)
Lemma frame_curseg k c s :
  sb_n_jnl (sum_blk c) = sb_n_jnl (sum_blk (CURSEG_I s k)) ->
  sb_sit_j (sum_blk c) = sb_sit_j (sum_blk (CURSEG_I s k)) -> disk_frame s (set_curseg k c s).
Proof.
  intros E1 E2.
  assert (H : sb_n_jnl (cold_sum (set_curseg k c s)) = sb_n_jnl (cold_sum s) /\
              sb_sit_j (cold_sum (set_curseg k c s)) = sb_sit_j (cold_sum s)).
  { unfold cold_sum, CURSEG_I, set_curseg in *; cbn [curseg_array with_curseg_array].
    destruct (Z.eq_dec k CURSEG_COLD_DATA) as [->|Hne]; [|rewrite aget_aset_ne by exact Hne; auto].
    destruct (Z_lt_ge_dec CURSEG_COLD_DATA (zlen (curseg_array s))) as [Hl|Hl].
    - rewrite aget_aset_eq by (unfold CURSEG_COLD_DATA in *; lia); auto.
    - rewrite aset_out by lia; auto. }
  destruct H; constructor; auto.
Qed.

(** ** Entries *)

Lemma set_bit_false i n m : 0 <= i -> test_bit i (set_bit n m) = false -> test_bit i m = false /\ i <> n.
Proof.
  intros Hi H; destruct (Z_lt_ge_dec n 0) as [Hn|Hn].
  - split; [|lia]; revert H; unfold test_bit, set_bit, Z.setbit; rewrite Z.lor_spec, orb_false_iff; tauto.
  - rewrite test_bit_set in H by lia; apply orb_false_iff in H; destruct H as [H1 H2].
    apply Z.eqb_neq in H1; auto.
Qed.

(** An entry is replaced and marked dirty. *)
Lemma frame_entry n se si s :
  si = snd (__mark_sit_entry_dirty n (set_seg_entry n se (sit_i s))) ->
  ckpt_valid_map se = ckpt_valid_map (entry_of s n) -> disk_frame s (with_sit_i si s).
Proof.
  intros -> Hk; unfold __mark_sit_entry_dirty, test_and_set_bit.
  set (m := set_bit n _).
  assert (Hd : forall i, 0 <= i -> test_bit i m = false ->
    test_bit i (dirty_sentries_bitmap (sit_i s)) = false /\ (sentries (sit_i s)).[n <- se].[i] = (sentries (sit_i s)).[i]).
  { intros i Hi Hf; destruct (set_bit_false i n _ Hi Hf) as [H1 H2]; split; [exact H1|apply aget_aset_ne; auto]. }
  assert (Hc : forall i, 0 <= i -> ckpt_valid_map ((sentries (sit_i s)).[n <- se].[i]) = ckpt_valid_map ((sentries (sit_i s)).[i])).
  { intros i Hi; destruct (Z.eq_dec n i) as [->|Hne]; [|rewrite aget_aset_ne by exact Hne; reflexivity].
    destruct (Z_lt_ge_dec i (zlen (sentries (sit_i s)))); [rewrite aget_aset_eq by lia; exact Hk|].
    rewrite aset_out by lia; reflexivity. }
  destruct (test_bit n _); constructor; auto.
Qed.

Lemma frame_sit_i si s :
  sit_base_addr si = sit_base_addr (sit_i s) -> sit_blocks si = sit_blocks (sit_i s) ->
  sit_bitmap si = sit_bitmap (sit_i s) -> sentries si = sentries (sit_i s) ->
  dirty_sentries_bitmap si = dirty_sentries_bitmap (sit_i s) -> disk_frame s (with_sit_i si s).
Proof.
  intros E1 E2 E3 E4 E5; constructor; auto; unfold entry_of, get_seg_entry; cbn; rewrite ?E4, ?E5; auto.
Qed.

(** * The operations *)

Lemma frame_update a del s : disk_frame s (update_sit_entry a del s).
Proof.
  unfold update_sit_entry; cbv zeta.
  set (s1 := f2fs_bug_on _ s); transitivity s1; [apply frame_bug|].
  set (se := with_se_mtime _ _); set (s2 := with_sit_i (with_max_mtime _ _) s1).
  transitivity s2; [apply frame_sit_i; reflexivity|].
  assert (Hse : ckpt_valid_map se = ckpt_valid_map (entry_of s2 (GET_SEGNO (geo s) a)))
    by (unfold s2, s1, f2fs_bug_on; destruct (_ || _); reflexivity).
  assert (Hf : ckpt_valid_map (fst (fst (flip_block (GET_BLKOFF_FROM_SEG0 (geo s) a) del se))) = ckpt_valid_map se)
    by (unfold flip_block; destruct (0 <? del); reflexivity).
  destruct (flip_block _ del se) as [[se1 dd] bad]; cbn [fst] in Hf.
  set (s3 := f2fs_bug_on bad s2); transitivity s3; [apply frame_bug|].
  set (s4 := with_discard_blks _ s3); transitivity s4; [apply frame_same; reflexivity|].
  set (se2 := if negb _ then _ else se1).
  assert (H2 : ckpt_valid_map se2 = ckpt_valid_map (entry_of s4 (GET_SEGNO (geo s) a))).
  { transitivity (ckpt_valid_map se1); [unfold se2; destruct (f2fs_test_bit _ _); reflexivity|rewrite Hf, Hse].
    unfold s4, s3, f2fs_bug_on; destruct bad; reflexivity. }
  set (si := snd (__mark_sit_entry_dirty _ _)).
  transitivity (with_sit_i si s4); [eapply frame_entry; [reflexivity|exact H2]|].
  match goal with |- disk_frame _ (with_sit_i ?x s4) => change (with_sit_i x s4) with (with_sit_i x (with_sit_i si s4)) end.
  apply frame_sit_i; destruct (1 <? _); reflexivity.
Qed.

Lemma frame_dirty di s : disk_frame s (with_dirty_i di s).
Proof. apply frame_same; reflexivity. Qed.

Lemma frame_locate1 n t s : disk_frame s (__locate_dirty_segment n t s).
Proof.
  unfold __locate_dirty_segment; case_ifs; try apply frame_refl; try apply frame_dirty.
  - etransitivity; [apply frame_dirty|apply frame_bug].
  - apply frame_same; reflexivity.
Qed.

Lemma frame_remove n t s : disk_frame s (__remove_dirty_segment n t s).
Proof. unfold __remove_dirty_segment; case_ifs; apply frame_same; reflexivity. Qed.

Lemma frame_locate n s : disk_frame s (locate_dirty_segment n s).
Proof.
  unfold locate_dirty_segment; case_ifs; try apply frame_refl; try apply frame_locate1; try apply frame_remove.
  etransitivity; [apply frame_locate1|apply frame_remove].
Qed.

Lemma frame_refresh old new s : disk_frame s (refresh_sit_entry old new s).
Proof.
  unfold refresh_sit_entry; cbv zeta; etransitivity; [apply (frame_update new 1)|].
  set (s1 := update_sit_entry new 1 s).
  set (s2 := if negb _ then _ else s1); transitivity s2; [unfold s2; destruct (negb _); [apply frame_update|apply frame_refl]|].
  etransitivity; [apply frame_locate|apply frame_locate].
Qed.

Lemma frame_invalidate a s : disk_frame s (invalidate_blocks a s).
Proof.
  unfold invalidate_blocks; etransitivity; [apply frame_bug|]; case_ifs; [apply frame_refl|].
  etransitivity; [apply frame_update|apply frame_locate].
Qed.

(** ** Logs *)

Lemma frame_set_type type n s : disk_frame s (with_sit_i (__set_sit_entry_type type n true (sit_i s)) s).
Proof. eapply frame_entry; reflexivity. Qed.

Lemma frame_reset type mlog s : disk_frame s (reset_curseg_mlog type mlog true s).
Proof.
  unfold reset_curseg_mlog; cbv zeta; etransitivity; [apply frame_curseg|apply frame_set_type];
    unfold reset_footer; destruct (IS_DATASEG type), (IS_NODESEG type); reflexivity.
Qed.

Lemma frame_new type mlog b s : disk_frame s (new_curseg type mlog b s).
Proof.
  unfold new_curseg; cbv zeta.
  destruct (get_new_segment _ _ _ _ _ _) as [[n fi] bug].
  match goal with |- disk_frame s (set_curseg _ _ (reset_curseg_mlog _ _ _ (set_curseg _ _ (f2fs_bug_on _ ?x)))) =>
    transitivity x; [apply frame_same; reflexivity|] end.
  etransitivity; [apply (frame_bug bug)|]; etransitivity; [|apply frame_curseg; reflexivity].
  etransitivity; [|apply frame_reset]; apply frame_curseg; reflexivity.
Qed.

Lemma frame_change type mlog b s : disk_frame s (change_curseg type mlog b s).
Proof.
  unfold change_curseg; cbv zeta.
  etransitivity; [|apply frame_curseg; destruct b; reflexivity].
  etransitivity; [|apply frame_reset]; etransitivity; [|apply frame_remove]; etransitivity; [|apply frame_remove].
  apply frame_same; reflexivity.
Qed.

(** ** The victim search and allocation *)

Lemma frame_round gc mc p n s : disk_frame s (snd (fst (victim_round gc mc p n s))).
Proof.
  assert (Hcost : forall seg q, disk_frame s (with_sit_i (snd (get_gc_cost (geo s) (sit_i s) seg q)) s)).
  { intros seg q; apply frame_sit_i; unfold get_gc_cost, get_cb_cost; cbv zeta; case_ifs; reflexivity. }
  unfold victim_round; cbv zeta; case_ifs; cbn [fst snd]; try apply frame_refl; try (apply frame_same; reflexivity);
    match goal with |- context [get_gc_cost ?g ?si ?n ?q] =>
      specialize (Hcost n q); destruct (get_gc_cost g si n q) as [cost si1]; cbn [snd] in Hcost end;
    case_ifs; cbn [fst snd]; auto; (etransitivity; [exact Hcost|apply frame_same; reflexivity]).
Qed.

Lemma frame_victim_loop fuel gc mc p n s p' s' :
  victim_loop fuel gc mc p n s = Some (p', s') -> disk_frame s s'.
Proof.
  revert p n s; induction fuel as [|fuel IH]; intros p n s E; cbn in E; [discriminate|].
  pose proof (frame_round gc mc p n s) as Hf; destruct (victim_round gc mc p n s) as [[[p1 n1] s1] more].
  cbn [fst snd] in Hf; destruct more; [etransitivity; [exact Hf|exact (IH _ _ _ E)]|congruence].
Qed.

Lemma frame_got_it gc p s : disk_frame s (snd (victim_got_it gc p s)).
Proof. unfold victim_got_it; case_ifs; cbn; try apply frame_refl; apply frame_same; reflexivity. Qed.

Lemma frame_victim gc t m s : disk_frame s (snd (get_victim_by_default gc t m s)).
Proof.
  assert (Hs : forall p n, disk_frame s (snd (match victim_loop (victim_fuel (geo s)) gc n p 0 s with
    | Some (p, s1) => victim_got_it gc p s1 | None => (None, s) end))).
  { intros p n; destruct (victim_loop _ _ _ _ _ _) as [[p1 s1]|] eqn:E; [|apply frame_refl].
    etransitivity; [exact (frame_victim_loop _ _ _ _ _ _ _ _ E)|apply frame_got_it]. }
  unfold get_victim_by_default; cbv zeta; destruct (_ && _); [|apply Hs].
  assert (Hb : disk_frame s (snd (check_bg_victims s)))
    by (unfold check_bg_victims; cbv zeta; case_ifs; [apply frame_dirty|apply frame_refl]).
  destruct (check_bg_victims s) as [seg s1]; cbn [snd] in Hb; destruct (negb _); [|apply Hs].
  etransitivity; [exact Hb|apply frame_got_it].
Qed.

Lemma frame_ssr_victim k t s : disk_frame s (snd (ssr_victim k t s)).
Proof.
  unfold ssr_victim; pose proof (frame_victim BG_GC t SSR s) as H.
  destruct (get_victim_by_default BG_GC t SSR s) as [[seg|] s1]; cbn [snd] in *; [|exact H].
  etransitivity; [exact H|apply frame_curseg; reflexivity].
Qed.

Lemma frame_ssr_down n k s : disk_frame s (snd (ssr_down n k s)).
Proof.
  revert s; induction n as [|n IH]; intros s; cbn; [apply frame_refl|].
  pose proof (frame_ssr_victim k (CURSEG_HOT_DATA + Z.of_nat n) s) as H.
  destruct (ssr_victim _ _ s) as [b s1]; cbn [snd] in H; destruct b; [exact H|etransitivity; [exact H|apply IH]].
Qed.

Lemma frame_alloc_segment type mlog b s : disk_frame s (allocate_segment_by_default type mlog b s).
Proof.
  unfold allocate_segment_by_default; cbv zeta; case_ifs; try apply frame_new.
  assert (H : disk_frame s (snd (get_ssr_segment type mlog s)))
    by (unfold get_ssr_segment; case_ifs; [apply frame_ssr_victim|apply frame_ssr_down]).
  destruct (get_ssr_segment type mlog s) as [b1 s1]; cbn [snd] in H; destruct b1;
    (etransitivity; [exact H|]); [apply frame_change|apply frame_new].
Qed.

Lemma frame_alloc_new type mlog s : disk_frame s (__allocate_new_segments type mlog s).
Proof. unfold __allocate_new_segments; etransitivity; [apply frame_alloc_segment|apply frame_locate]. Qed.

Lemma frame_allocate old sum type s : disk_frame s (snd (allocate_data_block old sum type s)).
Proof.
  unfold allocate_data_block; cbv zeta; cbn [snd].
  set (s1 := with_next_mlog _ s); set (mlog := u32 _ mod _); set (ty := if type =? CURSEG_DIRECT_IO then _ else _).
  transitivity s1; [apply frame_same; reflexivity|].
  set (s2 := if _ && _ then _ else s1); transitivity s2.
  { unfold s2; destruct (_ && _); [apply frame_alloc_new|apply frame_refl]. }
  set (s3 := __add_sum_entry ty mlog sum s2).
  transitivity s3; [unfold s3, __add_sum_entry; apply frame_curseg; reflexivity|].
  set (s4 := set_curseg _ _ s3).
  transitivity s4; [apply frame_curseg; unfold __refresh_next_blkoff; destruct (_ =? SSR); reflexivity|].
  etransitivity; [|apply frame_refresh]; destruct (negb (__has_curseg_space _ _ _)); [apply frame_alloc_segment|apply frame_refl].
Qed.

Lemma frame_sm_step s w t : sm_step s w t -> disk_frame s t.
Proof.
  intros [old sum type new next t' _ _ _ E|a _ _|type mlog _ _ _].
  - pose proof (frame_allocate old sum type s) as H; rewrite E in H; exact H.
  - apply frame_invalidate.
  - apply frame_alloc_new.
Qed.

(** * Durability across a step *)

Lemma frame_read s t i : disk_frame s t -> read_sit t i = read_sit s i.
Proof.
  intros [F1 F2 F3 F4 F5 F6 F7 F8 F9 F10]; unfold read_sit, sit_page, current_sit_addr, sits_in_cursum.
  fold (cold_sum t) (cold_sum s); rewrite F2, F3, F4, F5, F8, F9; reflexivity.
Qed.

Lemma frame_durable s t : disk_frame s t -> sm_wf t -> durable_wf s -> durable_wf t.
Proof.
  intros HF Ht [Hs Hk Hl Hc]; pose proof HF as [F1 F2 F3 F4 F5 F6 F7 F8 F9 F10 F11]; constructor.
  - exact Ht.
  - destruct Hk as [[A1 A2 A3 A4] K2 [J1 J2 J3] K4]; constructor; rewrite ?F1.
    + constructor; rewrite ?F3, ?F4, ?F5; assumption.
    + intros i Hi; unfold sit_page, current_sit_addr in *; rewrite F2, F3, F4, F5; apply K2; exact Hi.
    + unfold sits_in_cursum in *; constructor; unfold sits_in_cursum; rewrite ?F8, ?F9; assumption.
    + intros i Hi Hd; destruct (F10 i ltac:(lia) Hd) as [E1 E2].
      fold (entry_of t i); rewrite E2; destruct (K4 i Hi E1) as [E3 E4]; split; [|exact E4].
      unfold cold_sum; rewrite <- read_sit_view, (frame_read s t i HF), read_sit_view; exact E3.
  - rewrite F6, F7; exact Hl.
  - intros i Hi; rewrite F1 in Hi; destruct (Hc i Hi) as (se & E1 & E2 & E3 & E4).
    exists se; rewrite (frame_read s t i HF), F11 by lia; auto.
Qed.

Lemma durable_step s w t : sm_step s w t -> durable_wf s -> durable_wf t.
Proof.
  intros Hst Hs; apply (frame_durable s t (frame_sm_step s w t Hst)); [|exact Hs].
  apply (step_ok s w t Hst), Hs.
Qed.
