(* ===== verification/Remount.v ===== *)
(** Reading the segment information table at mount (src/Max/segment.c,
    [build_sit_entries]) and its composition with the flush: a checkpoint followed by a
    mount gives back the entries, hence the valid blocks, of the checkpoint. *)

From Stdlib Require Import ZArith Lia Bool.
From stdpp Require Import base numbers list gmap.
From S2P Require Import Prelude Layout Bitops SmState FreeSegmap Sit DirtySeg Victim Curseg SegMgr Alloc Discard SitFlush SitSync Durable.

#[local] Open Scope Z_scope.
#[local] Ltac Zify.zify_post_hook ::= Z.to_euclidean_division_equations.

(** The entry a mount builds from the on-disk form of [se]. *)
Definition built (se : seg_entry) : seg_entry := with_discard_map (cur_valid_map se) (synced se).

Lemma built_from_raw se se0 :
  seg_wf se -> 0 <= se_type se < 64 ->
  let se1 := seg_info_from_raw_sit se0 (raw_of se) in
  with_discard_map (cur_valid_map se1) se1 = built se /\ GET_SIT_VBLOCKS (raw_of se) = valid_blocks se.
Proof.
  intros Hw Ht; pose proof (raw_sit_ok se se0 Hw Ht) as H; cbv zeta.
  change (seg_info_to_raw_sit se) with (synced se, raw_of se) in H; destruct H as (-> & _); split; [reflexivity|].
  pose proof (seg_wf_valid_range se Hw).
  destruct (raw_vblocks_split (se_type se) (valid_blocks se) Ht ltac:(lia)) as [E _]; exact E.
Qed.

Lemma built_wf se : seg_wf se -> seg_wf (built se).
Proof.
  intros Hw; destruct (synced_wf se Hw) as [L1 L2 L3 B1 B2 V C D]; constructor; auto.
Qed.

(** The state [build_sit_info] prepares: empty entries over the tables of the disk
    [sbi] was flushed to. *)
Record mounting (sbi m : f2fs_sb_info) : Prop := {
  mn_geo : geo m = geo sbi;
  mn_pages : sit_pages m = sit_pages sbi;
  mn_area : sit_base_addr (sit_i m) = sit_base_addr (sit_i sbi) /\ sit_blocks (sit_i m) = sit_blocks (sit_i sbi) /\
            sit_bitmap (sit_i m) = sit_bitmap (sit_i sbi);
  mn_sum : sits_in_cursum (cold_sum m) = sits_in_cursum (cold_sum sbi) /\
           sb_sit_j (cold_sum m) = sb_sit_j (cold_sum sbi);
  mn_len : zlen (sentries (sit_i m)) = main_segments (geo sbi);
  mn_secs : sec_entries (sit_i m) = replicate (Z.to_nat (total_sections (geo sbi))) 0;
  mn_dirty : dirty_sentries (sit_i m) = 0 /\ dirty_sentries_bitmap (sit_i m) = 0;
  mn_discard : discard_blks m = 0;
  mn_list : discard_list m = [] /\ nr_discards m = 0;
}.

Section Build.
Variables (sbi m : f2fs_sb_info) (E : Z -> seg_entry).
Let g := geo sbi.
Hypothesis Hg : geo_wf g.
Hypothesis Hwf : forall i, 0 <= i < main_segments g -> seg_wf (E i).
Hypothesis Ht : forall i, 0 <= i < main_segments g -> 0 <= se_type (E i) < 64.
Hypothesis Hread : forall i, 0 <= i < main_segments g -> read_sit sbi i = raw_of (E i).
Hypothesis Hm : mounting sbi m.

Definition part_valid (n s : Z) : Z :=
  sum_below (fun i => if s * segs_per_sec g + i <? n then valid_blocks (E (s * segs_per_sec g + i)) else 0)
    (segs_per_sec g).

Definition built_to (n : Z) (t : f2fs_sb_info) : Prop :=
  exists L S,
    t = with_discard_blks (sum_below (fun i => discardable (built (E i))) n)
          (with_sit_i (with_sec_entries S (with_sentries L (sit_i m))) m) /\
    zlen L = main_segments g /\ zlen S = total_sections g /\
    (forall i, 0 <= i < n -> L.[i] = built (E i)) /\
    (1 < segs_per_sec g -> forall s, 0 <= s < total_sections g -> S.[s] = part_valid n s).

Lemma part_valid_bound n s : 0 <= s < total_sections g -> 0 <= part_valid n s <= 512 * segs_per_sec g.
Proof.
  intros Hs; assert (Hr : forall i, 0 <= i < segs_per_sec g ->
    0 <= (if s * segs_per_sec g + i <? n then valid_blocks (E (s * segs_per_sec g + i)) else 0) <= 512).
  { intros i Hi; case_ifs; [|lia]; apply seg_wf_valid_range, Hwf; destruct Hg; nia. }
  split; [apply sum_below_nonneg; intros i Hi; apply Hr; exact Hi|].
  rewrite <- sum_below_const by (destruct Hg; lia); apply sum_below_le; intros i Hi; apply Hr; exact Hi.
Qed.

(** Adding segment [n] to its section. *)
Lemma part_valid_step n s :
  0 <= n < main_segments g -> 0 <= s < total_sections g ->
  part_valid (n + 1) s = part_valid n s + (if s =? GET_SECNO g n then valid_blocks (E n) else 0).
Proof.
  intros Hn Hs; unfold part_valid, GET_SECNO; pose proof (gw_segs _ Hg) as Hp.
  destruct (Z.eqb_spec s (n / segs_per_sec g)) as [->|Hne].
  - set (k := n mod segs_per_sec g).
    assert (Hk : n / segs_per_sec g * segs_per_sec g + k = n) by (unfold k; rewrite Z.mul_comm; symmetry; apply Z.div_mod; lia).
    assert (Hkr : 0 <= k < segs_per_sec g) by (apply Z.mod_pos_bound; lia).
    rewrite (sum_below_upd (fun i => if n / segs_per_sec g * segs_per_sec g + i <? n
      then valid_blocks (E (n / segs_per_sec g * segs_per_sec g + i)) else 0) _ _ k Hkr).
    + rewrite Hk, Z.ltb_irrefl, (proj2 (Z.ltb_lt n (n + 1))) by lia; lia.
    + intros i Hi Hne; rewrite <- Hk at 3 6; case_ifs; try reflexivity; lia.
  - rewrite Z.add_0_r; apply sum_below_ext; intros i Hi.
    assert (s * segs_per_sec g + i <> n) by (intros En; apply Hne; rewrite <- En; apply Z.div_unique_pos with i; lia).
    case_ifs; try reflexivity; lia.
Qed.

Lemma read_sit_mount n t i :
  built_to n t -> 0 <= i < main_segments g -> read_sit t i = raw_of (E i).
Proof.
  intros (L & S & -> & _) Hi; rewrite <- Hread by exact Hi.
  destruct Hm as [_ M2 (M3 & M4 & M5) M6 _ _ _ _ _]; unfold read_sit, sit_page, current_sit_addr.
  cbn [sit_i with_sit_i with_discard_blks with_sec_entries with_sentries sit_pages sit_base_addr sit_blocks sit_bitmap].
  change (sum_blk (CURSEG_I (with_discard_blks _ _) CURSEG_COLD_DATA)) with (cold_sum m).
  change (sum_blk (CURSEG_I sbi CURSEG_COLD_DATA)) with (cold_sum sbi).
  destruct M6 as [M6 M6']; rewrite M2, M3, M4, M5, M6, M6'; reflexivity.
Qed.

Lemma check_block_count_ok n t raw :
  geo t = g -> 0 <= n < main_segments g -> GET_SIT_VBLOCKS raw <= 512 -> check_block_count n raw t = t.
Proof.
  intros Eg Hn Hr; unfold check_block_count; rewrite Eg, (blocks_per_seg_512 g Hg).
  rewrite (proj2 (Z.ltb_ge 512 _)) by exact Hr; cbv zeta; rewrite Eg; unfold TOTAL_SEGS.
  destruct Hg; rewrite gw_total; u32_simpl; [|lia..].
  rewrite (proj2 (Z.ltb_ge _ n)) by lia; reflexivity.
Qed.

Lemma discardable_built se : seg_wf se -> discardable (built se) = 512 - valid_blocks se.
Proof.
  intros Hs; unfold discardable, built; cbn [discard_map with_discard_map].
  rewrite (sw_valid _ Hs); unfold popcount; rewrite (sw_cur_len _ Hs); reflexivity.
Qed.

Lemma build_step n t : 0 <= n < main_segments g -> built_to n t -> built_to (n + 1) (build_sit_entry n t).
Proof.
  intros Hn Hb; pose proof (read_sit_mount n t n Hb Hn) as Er; destruct Hb as (L & S & -> & HL & HS & He & Hs).
  pose proof (Hwf n Hn) as Hwn.
  destruct (built_from_raw (E n) L.[n] Hwn (Ht n Hn)) as [B1 B2]; cbv zeta in B1.
  pose proof (seg_wf_valid_range _ Hwn) as Hv; pose proof (mn_geo _ _ Hm) as Eg; fold g in Eg.
  set (t := with_discard_blks _ _) in Er |- *.
  unfold build_sit_entry; rewrite Er; cbv zeta.
  rewrite check_block_count_ok; [|exact Eg|exact Hn|rewrite B2; lia].
  set (se := seg_info_from_raw_sit _ _).
  assert (Ese : with_discard_map (cur_valid_map se) se = built (E n)) by exact B1.
  rewrite !Ese; cbn [geo with_sit_i with_discard_blks]; change (geo t) with (geo m); rewrite Eg.
  rewrite blocks_per_seg_512 by exact Hg; change (valid_blocks (built (E n))) with (valid_blocks (E n)).
  set (D := sum_below (fun i => discardable (built (E i)))).
  assert (HD : u32 (D n + 512 - valid_blocks (E n)) = D (n + 1)).
  { unfold D; rewrite sum_below_succ, discardable_built by (auto; lia); rewrite u32_small; [lia|].
    assert (Hb : forall i, 0 <= i < n -> 0 <= discardable (built (E i)) <= 512).
    { intros i Hi; assert (Hwi : seg_wf (E i)) by (apply Hwf; lia).
      rewrite discardable_built by exact Hwi; pose proof (seg_wf_valid_range _ Hwi); lia. }
    pose proof (sum_below_nonneg (fun i => discardable (built (E i))) n ltac:(intros i Hi; apply Hb; lia)).
    pose proof (sum_below_le (fun i => discardable (built (E i))) (fun _ => 512) n ltac:(intros i Hi; apply Hb; lia)) as Hle.
    rewrite sum_below_const in Hle by lia; destruct Hg; lia. }
  change (discard_blks (with_sit_i _ t)) with (D n); rewrite HD.
  assert (Hsec : 0 <= GET_SECNO g n < total_sections g) by (apply secno_bounds; assumption).
  assert (HL1 : forall i, 0 <= i < n + 1 -> L.[n <- built (E n)].[i] = built (E i)).
  { intros i Hi; rewrite aget_aset by (rewrite HL; exact Hn); destruct (Z.eqb_spec n i) as [<-|]; [reflexivity|apply He; lia]. }
  destruct (Z.ltb_spec 1 (segs_per_sec g)) as [H1|H1].
  - set (S1 := S.[GET_SECNO g n <- u32 (S.[GET_SECNO g n] + valid_blocks (E n))]).
    exists (L.[n <- built (E n)]), S1; split; [reflexivity|].
    split; [rewrite zlen_aset; exact HL|split; [unfold S1; rewrite zlen_aset; exact HS|split; [exact HL1|]]].
    intros _ s Hsr; rewrite part_valid_step by assumption; unfold S1; rewrite aget_aset by (rewrite HS; exact Hsec).
    rewrite Z.eqb_sym; destruct (Z.eqb_spec s (GET_SECNO g n)) as [->|]; [|rewrite Hs by assumption; lia].
    rewrite Hs by assumption; apply u32_small; pose proof (part_valid_bound (n + 1) (GET_SECNO g n) Hsec) as Hpb.
    rewrite part_valid_step, Z.eqb_refl in Hpb by assumption.
    assert (segs_per_sec g <= main_segments g) by (destruct Hg; nia); destruct Hg; lia.
  - exists (L.[n <- built (E n)]), S; split; [reflexivity|].
    split; [rewrite zlen_aset; exact HL|split; [exact HS|split; [exact HL1|intros; lia]]].
Qed.

(** The state after the loop. *)
Lemma build_ok :
  let m' := build_sit_entries m in
  sit_wf g (sit_i m') /\ discard_wf m' /\ geo m' = g /\ s_flag m' = s_flag m /\
  (forall i, 0 <= i < main_segments g -> entry_of m' i = built (E i)) /\
  exists L S v, m' = with_discard_blks v (with_sit_i (with_sec_entries S (with_sentries L (sit_i m))) m).
Proof.
  assert (Hb : built_to (main_segments g) (build_sit_entries m)).
  { unfold build_sit_entries, MAIN_SEGS; rewrite (mn_geo _ _ Hm); fold g.
    apply (for_range_ind built_to); [pose proof (main_segments_bound _ Hg); lia| |intros; apply build_step; assumption].
    destruct Hm as [M1 M2 M3 M4 M5 M6 M7 M8 _].
    exists (sentries (sit_i m)), (sec_entries (sit_i m)); split.
    - rewrite sum_below_0, <- M8 by lia; destruct m as []; cbn; destruct sit_i; reflexivity.
    - split; [exact M5|split; [rewrite M6; unfold zlen; rewrite length_replicate; fold g; destruct Hg; lia|split; [intros; lia|]]].
      intros _ s Hs; rewrite M6, aget_replicate by (fold g; lia); unfold part_valid; symmetry.
      rewrite (sum_below_ext _ (fun _ => 0)), sum_below_const by (destruct Hg; (lia || (intros; case_ifs; [nia|reflexivity]))).
      lia. }
  cbv zeta; destruct Hb as (L & S & -> & HL & HS & He & Hs); pose proof (mn_geo _ _ Hm) as Eg; fold g in Eg.
  split; [|split; [|split; [exact Eg|split; [reflexivity|split; [exact He|eauto]]]]].
  - constructor.
    + exact HL.
    + intros i Hi; change (seg_wf L.[i]); rewrite He by exact Hi; apply built_wf, Hwf; exact Hi.
    + exact HS.
    + intros H1 s Hsr; change (S.[s] = sum_below (fun i => valid_blocks L.[s * segs_per_sec g + i]) (segs_per_sec g)).
      rewrite Hs by assumption; apply sum_below_ext; intros i Hi.
      assert (Hr : 0 <= s * segs_per_sec g + i < main_segments g) by (destruct Hg; nia).
      rewrite (proj2 (Z.ltb_lt _ _)), He by apply Hr || exact Hr; reflexivity.
    + destruct (mn_dirty _ _ Hm) as [E1 E2]; cbn; rewrite E1, E2; symmetry; apply count_below_none.
      intros i Hi; unfold test_bit; apply Z.bits_0.
  - unfold discard_wf; change (geo _) with (geo m) at 1; rewrite Eg; cbn; apply sum_below_ext; intros i Hi.
    change (discardable (built (E i)) = discardable L.[i]); rewrite He by exact Hi; reflexivity.
Qed.
End Build.

(** * The theorems *)

(** C24: a checkpoint of the segment manager ([flush_sit_entries], then
    [clear_prefree_segments]) keeps the invariant of the segment manager and of its
    on-disk tables, raises no alarm, records exactly the valid blocks as the
    checkpointed ones, turns exactly the prefree segments into free ones, and issues
    discards for blocks of the main area that hold no data only. *)
Theorem checkpoint_keeps_segments (cpc : cp_control) (sbi : f2fs_sb_info)
  (H : durable_wf sbi) (Ht : trim_ok sbi cpc) :
  let '(sbi', cmds, _) := checkpoint_segments cpc sbi in
  durable_wf sbi' /\ s_flag sbi' = s_flag sbi /\
  (forall a, in_main (geo sbi) a ->
     block_valid sbi' a = block_valid sbi a /\ block_in_ckpt sbi' a = block_valid sbi a) /\
  (forall i, 0 <= i < main_segments (geo sbi) ->
     seg_used (free_i sbi') i = seg_used (free_i sbi) i && negb (in_list (dirty_i sbi) PRE i)) /\
  (forall a, in_discard cmds a -> in_main (geo sbi) a /\ block_valid sbi a = false).
Proof.
  pose proof (checkpoint_ok cpc sbi H Ht) as K; destruct (checkpoint_segments cpc sbi) as [[sbi' cmds] cpc'].
  destruct K as (K1 & _ & K3 & K4 & _ & K6 & K7 & _); auto.
Qed.

(** C25: the flush is crash safe: a mount that still uses the previous checkpoint, that is
    the version bitmap and the journal from before the flush, reads from the flushed disk
    the same entry for every segment as it would have read before. *)
Theorem flush_keeps_old_sit (cpc : cp_control) (sbi : f2fs_sb_info) (i : Z)
  (H : durable_wf sbi) (Ht : trim_ok sbi cpc) (Hi : 0 <= i < main_segments (geo sbi)) :
  read_sit (with_sit_pages (sit_pages (flush_sit_entries cpc sbi)) sbi) i = read_sit sbi i.
Proof.
  destruct H as [Hs Hk [El _] _].
  assert (Hr : runs_in_main (geo sbi) (discard_list sbi)) by (rewrite El; constructor).
  destruct (flush_sit_entries_ok sbi cpc (si_geo _ _ _ Hs) (si_sit _ _ _ Hs) (si_free _ _ _ Hs) Hk Hr
    (durable_cold _ Hs) Ht) as (S & _).
  unfold read_sit, sit_page; cbn [sit_i with_sit_pages sit_pages].
  rewrite (ss_old _ _ _ S) by exact Hi; reflexivity.
Qed.

(** C3: a checkpoint followed by a mount restores the segment manager: from the flushed
    tables [build_sit_entries] rebuilds for every segment the entry that was cached (with
    its bitmap as checkpoint and discard bitmap), so that the valid blocks after the mount
    are the valid blocks at the checkpoint; the tables are consistent and no alarm is
    raised. *)
Theorem checkpoint_remount_round_trip (cpc : cp_control) (sbi m : f2fs_sb_info)
  (H : durable_wf sbi) (Ht : trim_ok sbi cpc) (Hm : mounting (fst (fst (checkpoint_segments cpc sbi))) m) :
  let m' := build_sit_entries m in
  (forall i, 0 <= i < main_segments (geo sbi) -> entry_of m' i = built (entry_of sbi i)) /\
  (forall a, in_main (geo sbi) a -> block_valid m' a = block_valid sbi a /\ block_in_ckpt m' a = block_valid sbi a) /\
  sit_wf (geo sbi) (sit_i m') /\ discard_wf m' /\ s_flag m' = s_flag m.
Proof.
  pose proof (checkpoint_ok cpc sbi H Ht) as K; destruct (checkpoint_segments cpc sbi) as [[sbi' cmds] cpc'].
  cbn [fst] in Hm; destruct K as (K1 & K2 & _ & _ & K5 & _ & _ & _ & K9 & _).
  destruct H as [Hs _ _ _]; destruct K1 as [Hs' _ _ _].
  destruct (build_ok sbi' m (entry_of sbi)) as (B1 & B2 & B3 & B4 & B5 & _); auto; rewrite ?K2 in *.
  - apply Hs.
  - apply (tw_seg _ _ (si_sit _ _ _ Hs)).
  - intros i Hi; pose proof (si_types _ _ _ Hs i Hi) as Hty; unfold seg_type, entry_of in *; lia.
  - exact K5.
  - split; [exact B5|split; [|auto]]; intros a Ha; unfold block_valid, block_in_ckpt; rewrite B3.
    specialize (B5 (GET_SEGNO (geo sbi) a) ltac:(apply GET_SEGNO_range; [apply Hs|exact Ha])).
    unfold entry_of in B5; rewrite B5; split; reflexivity.
Qed.

(** ** A state with dirty entries *)

#[export] Instance f2fs_sit_entry_eq_dec : EqDecision f2fs_sit_entry.
Proof. solve_decision. Defined.

(** The mounted example with its SIT block on disk, after one block was written. *)
Definition sbi_disk : f2fs_sb_info :=
  with_sit_pages {[ 100 := replicate 55 (raw_of inhabitant) ]} sbi_mnt.

Lemma sm_wf_pages p sbi : sm_wf sbi -> sm_wf (with_sit_pages p sbi).
Proof. intros H; apply (frame_inv [] [] sbi); try reflexivity; [exact H|apply (si_lv _ _ _ H)]. Qed.

Lemma sbi_disk_wf : sm_wf sbi_disk.
Proof. apply sm_wf_pages; exact sbi_mnt_wf. Qed.

Definition sbi_dirty : f2fs_sb_info := snd (allocate_data_block NULL_ADDR sum_ex CURSEG_WARM_DATA sbi_disk).

Definition disk_okb (sbi : f2fs_sb_info) (sum : f2fs_summary_block) (i : Z) : bool :=
  test_bit i (dirty_sentries_bitmap (sit_i sbi)) ||
  (bool_decide (view sbi sum i = raw_of (get_seg_entry (sit_i sbi) i)) &&
   bool_decide (ckpt_valid_map (get_seg_entry (sit_i sbi) i) = cur_valid_map (get_seg_entry (sit_i sbi) i))).

Lemma disk_okb_all sbi sum n :
  forallb (disk_okb sbi sum) (zseq 0 (Z.to_nat n)) = true ->
  forall i, 0 <= i < n -> test_bit i (dirty_sentries_bitmap (sit_i sbi)) = false ->
  view sbi sum i = raw_of (get_seg_entry (sit_i sbi) i) /\
  ckpt_valid_map (get_seg_entry (sit_i sbi) i) = cur_valid_map (get_seg_entry (sit_i sbi) i).
Proof.
  intros Ha i Hi Hd; rewrite forallb_forall in Ha; specialize (Ha i ltac:(apply list_elem_of_In, elem_of_zseq; lia)).
  unfold disk_okb in Ha; rewrite Hd in Ha; cbn [orb] in Ha; apply andb_true_iff in Ha; destruct Ha as [H1 H2].
  apply bool_decide_eq_true in H1, H2; auto.
Qed.

Lemma sbi_disk_facts :
  geo sbi_disk = geo_ex /\ discard_list sbi_disk = [] /\ nr_discards sbi_disk = 0 /\
  sits_in_cursum (cold_sum sbi_disk) = 0 /\
  sit_base_addr (sit_i sbi_disk) = 100 /\ sit_blocks (sit_i sbi_disk) = 4 /\ sit_bitmap (sit_i sbi_disk) = [0; 0] /\
  zlen (sit_page sbi_disk 100) = PER /\ zlen (sb_sit_j (cold_sum sbi_disk)) = SIT_JOURNAL_ENTRIES /\
  dirty_sentries_bitmap (sit_i sbi_disk) = 0 /\
  forallb (disk_okb sbi_disk (cold_sum sbi_disk)) (zseq 0 32) = true.
Proof. vm_compute; repeat split. Qed.

Lemma sbi_disk_durable : durable_wf sbi_disk.
Proof.
  destruct sbi_disk_facts as (E1 & E2 & E3 & E4 & E6 & E7 & E8 & E9 & E10 & Edb & E11).
  pose proof sbi_disk_wf as Hs; pose proof (disk_okb_all sbi_disk (cold_sum sbi_disk) 32 E11) as Hcl.
  constructor; [exact Hs| |auto|].
  - constructor; rewrite ?E1.
    + constructor; rewrite ?E6, ?E7, ?E8; vm_compute; congruence.
    + intros i Hi; assert (E : SIT_BLOCK_OFFSET i = 0).
      { change (main_segments geo_ex) with 32 in Hi; unfold SIT_BLOCK_OFFSET; change SIT_ENTRY_PER_BLOCK with 55; lia. }
      unfold current_sit_addr; rewrite E, E6, E7, E8; exact E9.
    + constructor; [rewrite E4; vm_compute; split; congruence|exact E10|rewrite E4; intros; lia].
    + exact Hcl.
  - intros i Hi; exists (entry_of sbi_disk i); rewrite read_sit_view; fold (cold_sum sbi_disk).
    destruct (Hcl i) as [C1 C2]; [rewrite E1 in Hi; exact Hi|rewrite Edb; unfold test_bit; apply Z.bits_0|].
    split; [exact C1|split; [apply (tw_seg _ _ (si_sit _ _ _ Hs)); exact Hi|split; [|symmetry; exact C2]]].
    apply (si_types _ _ _ Hs i Hi).
Qed.

Lemma step_dirty : sm_step sbi_disk [fst (fst (allocate_data_block NULL_ADDR sum_ex CURSEG_WARM_DATA sbi_disk))] sbi_dirty.
Proof. apply step_alloc_snd; [left; vm_compute; split; congruence|vm_compute; reflexivity|left; reflexivity]. Qed.

Lemma sbi_dirty_durable : durable_wf sbi_dirty.
Proof. exact (durable_step _ _ _ step_dirty sbi_disk_durable). Qed.

(** The flush has work to do. *)
Lemma sbi_dirty_facts : geo sbi_dirty = geo_ex /\ dirty_sentries (sit_i sbi_dirty) = 1.
Proof. vm_compute; auto. Qed.

Definition cpc_sync : cp_control := mk_cpc CP_SYNC 0 0 0 0.

Lemma cpc_sync_ok sbi : trim_ok sbi cpc_sync.
Proof. intros E; discriminate E. Qed.

Lemma checkpoint_keeps_segments_witness :
  let '(sbi', cmds, _) := checkpoint_segments cpc_sync sbi_dirty in
  durable_wf sbi' /\ s_flag sbi' = s_flag sbi_dirty /\
  (forall a, in_main (geo sbi_dirty) a ->
     block_valid sbi' a = block_valid sbi_dirty a /\ block_in_ckpt sbi' a = block_valid sbi_dirty a) /\
  (forall i, 0 <= i < main_segments (geo sbi_dirty) ->
     seg_used (free_i sbi') i = seg_used (free_i sbi_dirty) i && negb (in_list (dirty_i sbi_dirty) PRE i)) /\
  (forall a, in_discard cmds a -> in_main (geo sbi_dirty) a /\ block_valid sbi_dirty a = false).
Proof. exact (checkpoint_keeps_segments cpc_sync sbi_dirty sbi_dirty_durable (cpc_sync_ok sbi_dirty)). Defined.

Lemma flush_keeps_old_sit_witness :
  read_sit (with_sit_pages (sit_pages (flush_sit_entries cpc_sync sbi_dirty)) sbi_dirty) 3 = read_sit sbi_dirty 3.
Proof.
  apply (flush_keeps_old_sit cpc_sync sbi_dirty 3 sbi_dirty_durable (cpc_sync_ok sbi_dirty)).
  rewrite (proj1 sbi_dirty_facts); vm_compute; split; congruence.
Defined.

(** The state [build_sit_info] makes of the disk of [sbi]. *)
Definition mount_of (sbi : f2fs_sb_info) : f2fs_sb_info :=
  with_nr_discards 0 (with_discard_list [] (with_discard_blks 0 (with_sit_i
    (with_dirty_sentries 0 (with_dirty_sentries_bitmap 0
      (with_sec_entries (replicate (Z.to_nat (total_sections (geo sbi))) 0)
        (with_sentries (replicate (Z.to_nat (main_segments (geo sbi))) inhabitant) (sit_i sbi))))) sbi))).

Lemma mount_of_mounting sbi : geo_wf (geo sbi) -> mounting sbi (mount_of sbi).
Proof.
  intros Hg; constructor; try reflexivity; auto.
  cbn; unfold zlen; rewrite length_replicate; pose proof (main_segments_bound _ Hg); lia.
Qed.

Lemma checkpoint_remount_round_trip_witness :
  let m := mount_of (fst (fst (checkpoint_segments cpc_sync sbi_dirty))) in
  let m' := build_sit_entries m in
  (forall i, 0 <= i < main_segments (geo sbi_dirty) -> entry_of m' i = built (entry_of sbi_dirty i)) /\
  (forall a, in_main (geo sbi_dirty) a ->
     block_valid m' a = block_valid sbi_dirty a /\ block_in_ckpt m' a = block_valid sbi_dirty a) /\
  sit_wf (geo sbi_dirty) (sit_i m') /\ discard_wf m' /\ s_flag m' = s_flag m.
Proof.
  intros m; apply (checkpoint_remount_round_trip cpc_sync sbi_dirty m sbi_dirty_durable (cpc_sync_ok sbi_dirty)).
  apply mount_of_mounting; pose proof (checkpoint_ok cpc_sync sbi_dirty sbi_dirty_durable (cpc_sync_ok sbi_dirty)) as K.
  destruct (checkpoint_segments cpc_sync sbi_dirty) as [[sbi' cmds] c]; destruct K as (_ & E & _).
  cbn [fst]; rewrite E, (proj1 sbi_dirty_facts); exact geo_ex_wf.
Defined.
