(* ===== verification/Store.v ===== *)
(** The segment manager as a block store: an abstract specification with two sets of
    blocks, the live ones and those of the last checkpoint, and the proof that
    allocation, invalidation, checkpoints, crashes and mounts (src/Max/segment.c) refine
    it. *)

From Stdlib Require Import ZArith Lia Bool.
From stdpp Require Import base numbers list gmap.
From S2P Require Import Prelude Layout Bitops SmState FreeSegmap Sit DirtySeg Victim Curseg SegMgr Alloc Discard SitFlush SitSync Durable Remount.

#[local] Open Scope Z_scope.
#[local] Ltac Zify.zify_post_hook ::= Z.to_euclidean_division_equations.

(** * The specification *)

(** The blocks with current data, and those the last checkpoint refers to. *)
Record store := mk_store {
  live : Z -> bool;
  stable : Z -> bool;
}.

Inductive store_op :=
| OpWrite (old new : Z)
| OpFree (a : Z)
| OpQuiet
| OpCheckpoint
| OpCrash.

(** Writing takes a block that neither the current state nor the checkpoint uses; a
    checkpoint makes the live blocks stable, and a crash brings the stable ones back. *)
Definition store_step (g : geometry) (o : store_op) (s t : store) : Prop :=
  match o with
  | OpWrite old new =>
      in_main g new /\ live s new = false /\ stable s new = false /\
      forall a, in_main g a -> live t a = (a =? new) || (negb (a =? old) && live s a) /\ stable t a = stable s a
  | OpFree b =>
      in_main g b /\ live s b = true /\
      forall a, in_main g a -> live t a = negb (a =? b) && live s a /\ stable t a = stable s a
  | OpQuiet => forall a, in_main g a -> live t a = live s a /\ stable t a = stable s a
  | OpCheckpoint => forall a, in_main g a -> live t a = live s a /\ stable t a = live s a
  | OpCrash => forall a, in_main g a -> live t a = stable s a /\ stable t a = stable s a
  end.

Inductive store_run (g : geometry) (s : store) : list store_op -> store -> Prop :=
| srun_nil : store_run g s [] s
| srun_snoc os o t u : store_run g s os t -> store_step g o t u -> store_run g s (os ++ [o]) u.

(** * The implementation *)

(** The logs a mount restores ([build_curseg]): distinct segments, writable next
    blocks. *)
Record logs_ok (sbi : f2fs_sb_info) : Prop := {
  lk_lv : lv_wf sbi;
  lk_len : zlen (curseg_array sbi) = nr_logs sbi;
  lk_seg : forall k, 0 <= k < nr_logs sbi -> 0 <= curseg_segno sbi k < main_segments (geo sbi);
  lk_mode : forall k, 0 <= k < nr_logs sbi -> curseg_alloc_type sbi k = LFS \/ curseg_alloc_type sbi k = SSR;
  lk_cursor : forall k, 0 <= k < nr_logs sbi -> cursor_wf (CURSEG_I sbi k) (entry_of sbi (curseg_segno sbi k));
  lk_inj : forall j k, 0 <= j < nr_logs sbi -> 0 <= k < nr_logs sbi ->
    curseg_segno sbi j = curseg_segno sbi k -> j = k;
}.

Inductive fs_step (sbi : f2fs_sb_info) : store_op -> f2fs_sb_info -> Prop :=
| fs_write old sum type new next sbi' :
    type_ok type -> 0 < free_sections sbi -> old_ok sbi old ->
    allocate_data_block old sum type sbi = (new, next, sbi') ->
    fs_step sbi (OpWrite old new) sbi'
| fs_free a :
    in_main (geo sbi) a -> block_valid sbi a = true -> fs_step sbi (OpFree a) (invalidate_blocks a sbi)
| fs_segment type mlog :
    0 <= type < 6 -> 0 <= mlog < nr_mlog (geo sbi) -> 0 < free_sections sbi ->
    fs_step sbi OpQuiet (__allocate_new_segments type mlog sbi)
| fs_checkpoint cpc :
    trim_ok sbi cpc -> fs_step sbi OpCheckpoint (fst (fst (checkpoint_segments cpc sbi)))
| fs_mount m :
    mounting sbi m -> logs_ok (build_sit_entries m) -> s_flag m = s_flag sbi ->
    fs_step sbi OpCrash (build_maps (build_sit_entries m)).

Inductive fs_run (sbi : f2fs_sb_info) : list store_op -> f2fs_sb_info -> Prop :=
| frun_nil : fs_run sbi [] sbi
| frun_snoc os o t u : fs_run sbi os t -> fs_step t o u -> fs_run sbi (os ++ [o]) u.

Definition store_of (sbi : f2fs_sb_info) : store := mk_store (block_valid sbi) (block_in_ckpt sbi).

(** * Mounting after a crash *)

Section Mount.
Variables (sbi m : f2fs_sb_info).
Hypothesis Hd : durable_wf sbi.
Hypothesis Hm : mounting sbi m.

(** The entry on disk. *)
Definition stable_entry (i : Z) : seg_entry :=
  let se := seg_info_from_raw_sit inhabitant (read_sit sbi i) in with_discard_map (cur_valid_map se) se.

Lemma stable_entry_ok i :
  0 <= i < main_segments (geo sbi) ->
  seg_wf (stable_entry i) /\ 0 <= se_type (stable_entry i) < 6 /\ read_sit sbi i = raw_of (stable_entry i) /\
  cur_valid_map (stable_entry i) = ckpt_valid_map (entry_of sbi i).
Proof.
  intros Hi; destruct (du_ckpt _ Hd i Hi) as (se & E1 & E2 & E3 & E4); unfold stable_entry; rewrite E1.
  destruct (built_from_raw se inhabitant E2 ltac:(lia)) as [-> _].
  split; [apply built_wf; exact E2|split; [exact E3|split; [reflexivity|exact E4]]].
Qed.

Let t := build_sit_entries m.

Lemma mount_built :
  sit_wf (geo sbi) (sit_i t) /\ discard_wf t /\ geo t = geo sbi /\ s_flag t = s_flag m /\
  (forall i, 0 <= i < main_segments (geo sbi) -> entry_of t i = built (stable_entry i)) /\
  exists L S v, t = with_discard_blks v (with_sit_i (with_sec_entries S (with_sentries L (sit_i m))) m).
Proof.
  destruct Hd as [Hs _ _ _]; apply build_ok; auto; [apply Hs| | |]; intros i Hi; destruct (stable_entry_ok i Hi) as (A & B & C & _);
    auto; lia.
Qed.

Lemma mount_durable :
  logs_ok t ->
  let u := build_maps t in
  durable_wf u /\ s_flag u = s_flag m /\ geo u = geo sbi /\
  forall a, in_main (geo sbi) a -> block_valid u a = block_in_ckpt sbi a /\ block_in_ckpt u a = block_in_ckpt sbi a.
Proof.
  intros [L1 L2 L3 L4 L5 L6] u; destruct mount_built as (B1 & B2 & B3 & B4 & B5 & (L & S & v & B6)).
  assert (Hok : mount_ok t).
  { constructor; auto; rewrite ?B3; auto; [apply Hd| |].
    - intros i Hi; unfold seg_type; fold (entry_of t i); rewrite B5 by exact Hi; apply (stable_entry_ok i Hi).
    - intros i Hi; rewrite B5 by exact Hi; reflexivity. }
  destruct (build_maps_shape t Hok) as (di & fi & Eu); fold u in Eu.
  assert (Hu : sm_wf u) by (apply mount_wf; exact Hok).
  assert (Ee : forall i, 0 <= i < main_segments (geo sbi) -> entry_of u i = built (stable_entry i))
    by (intros i Hi; rewrite Eu; apply B5; exact Hi).
  assert (Eg : geo u = geo sbi) by (rewrite Eu; exact B3).
  assert (Et : sit_pages u = sit_pages sbi /\ sit_base_addr (sit_i u) = sit_base_addr (sit_i sbi) /\
    sit_blocks (sit_i u) = sit_blocks (sit_i sbi) /\ sit_bitmap (sit_i u) = sit_bitmap (sit_i sbi) /\
    sits_in_cursum (cold_sum u) = sits_in_cursum (cold_sum sbi) /\ sb_sit_j (cold_sum u) = sb_sit_j (cold_sum sbi)).
  { rewrite Eu, B6; destruct Hm as [_ M2 (M3 & M4 & M5) (M6 & M7) _ _ _ _ _]; repeat split; assumption. }
  destruct Et as (M2 & M3 & M4 & M5 & M6 & M7).
  assert (Er : forall i, read_sit u i = read_sit sbi i).
  { intros i; unfold read_sit, sit_page, current_sit_addr; fold (cold_sum sbi) (cold_sum u).
    rewrite M2, M3, M4, M5, M6, M7; reflexivity. }
  split; [constructor|split; [rewrite Eu; exact B4|split; [exact Eg|]]].
  - exact Hu.
  - destruct (du_disk _ Hd) as [[A1 A2 A3 A4] K2 [J1 J2 J3] _]; constructor; rewrite ?Eg.
    + constructor; rewrite ?M3, ?M4, ?M5; assumption.
    + intros i Hi; unfold sit_page, current_sit_addr in *; rewrite M2, M3, M4, M5; apply K2; exact Hi.
    + constructor; rewrite ?M6, ?M7; assumption.
    + intros i Hi _; unfold cold_sum; rewrite <- read_sit_view, Er; fold (entry_of u i).
      rewrite Ee by exact Hi; split; [apply (stable_entry_ok i Hi)|reflexivity].
  - rewrite Eu, B6; exact (mn_list _ _ Hm).
  - intros i Hi; rewrite Eg in Hi; exists (stable_entry i); rewrite Er, Ee by exact Hi.
    destruct (stable_entry_ok i Hi) as (C1 & C2 & C3 & C4); auto.
  - intros a Ha; pose proof (GET_SEGNO_range _ _ (si_geo _ _ _ (du_sm _ Hd)) Ha) as Hr.
    unfold block_valid, block_in_ckpt, cur_valid, ckpt_valid; rewrite Eg; fold (entry_of u (GET_SEGNO (geo sbi) a)).
    rewrite Ee by exact Hr; destruct (stable_entry_ok _ Hr) as (_ & _ & _ & C4).
    fold (entry_of sbi (GET_SEGNO (geo sbi) a)); rewrite <- C4; split; reflexivity.
Qed.
End Mount.

(** * Refinement *)

Lemma fs_step_refines sbi o sbi' :
  fs_step sbi o sbi' -> durable_wf sbi ->
  durable_wf sbi' /\ geo sbi' = geo sbi /\ s_flag sbi' = s_flag sbi /\
  store_step (geo sbi) o (store_of sbi) (store_of sbi').
Proof.
  intros Hst Hd; pose proof (du_sm _ Hd) as Hi; destruct Hst as [old sum type new next sbi' Ht Hf Ho E|a Ha Hv|type mlog Ht Hm Hf|cpc Ht|m Hm Hl Hfl].
  - pose proof (allocate_ok sbi old type sum Hi Ht Hf Ho) as H; rewrite E in H.
    destruct H as (A & B & C & (D1 & D2 & D3) & F & G & _).
    split; [|split; [exact A|split; [exact C|split; [exact D1|split; [exact D2|split; [exact D3|]]]]]].
    + apply (durable_step sbi [new] sbi'); [eapply step_allocate; eassumption|exact Hd].
    + intros b Hb; split; [apply F; exact Hb|apply G].
  - destruct (invalidate_ok sbi a Hi Ha Hv) as (A & B & C & D & F).
    split; [apply (durable_step sbi []); [apply step_invalidate; assumption|exact Hd]|].
    split; [exact C|split; [exact B|split; [exact Ha|split; [exact Hv|]]]].
    intros b Hb; split; [apply D; exact Hb|apply F].
  - destruct (allocate_new_inv sbi type mlog Hi Ht Hm Hf) as (A & B & _); destruct (B) as (B1 & B2 & _).
    split; [apply (durable_step sbi []); [apply step_new_segment; assumption|exact Hd]|].
    split; [exact B1|split; [exact B2|]]; intros b Hb; split; apply (same_blocks_valid _ _ b B).
  - pose proof (checkpoint_ok cpc sbi Hd Ht) as K; destruct (checkpoint_segments cpc sbi) as [[t cmds] c].
    destruct K as (K1 & K2 & K3 & K4 & _); auto.
  - destruct (mount_durable sbi m Hd Hm Hl) as (A & B & C & D).
    split; [exact A|split; [exact C|split; [congruence|exact D]]].
Qed.

Lemma fs_run_refines sbi os sbi' :
  fs_run sbi os sbi' -> durable_wf sbi ->
  durable_wf sbi' /\ geo sbi' = geo sbi /\ s_flag sbi' = s_flag sbi /\
  store_run (geo sbi) (store_of sbi) os (store_of sbi').
Proof.
  intros Hr Hd; induction Hr as [|os o t u Hr IH Hs]; [split; [exact Hd|split; [reflexivity|split; [reflexivity|constructor]]]|].
  destruct IH as (A & B & C & D); destruct (fs_step_refines t o u Hs A) as (A1 & B1 & C1 & D1).
  rewrite B in B1, D1; split; [exact A1|split; [exact B1|split; [congruence|]]].
  econstructor; eassumption.
Qed.


(** ** A run with a write, a checkpoint, a crash and a mount *)

(** A mount that finds the logs where they were. *)
Lemma mount_of_logs sbi : durable_wf sbi -> logs_ok (build_sit_entries (mount_of sbi)).
Proof.
  intros Hd; pose proof (du_sm _ Hd) as Hi; pose proof (si_geo _ _ _ Hi) as Hg.
  destruct (mount_built sbi (mount_of sbi) Hd (mount_of_mounting sbi Hg)) as (B1 & B2 & B3 & B4 & B5 & (L & S & v & B6)).
  set (t := build_sit_entries (mount_of sbi)) in *.
  assert (Ec : forall k, CURSEG_I t k = CURSEG_I sbi k) by (intros; rewrite B6; reflexivity).
  assert (En : nr_logs t = nr_logs sbi) by (unfold nr_logs; rewrite B3; reflexivity).
  constructor; unfold curseg_segno, curseg_alloc_type; rewrite ?En, ?B3.
  - rewrite B6; exact (si_lv _ _ _ Hi).
  - rewrite B6; exact (si_len _ _ _ Hi).
  - intros k Hk; rewrite Ec; apply (si_log _ _ _ Hi k Hk).
  - intros k Hk; rewrite Ec; apply (si_log _ _ _ Hi k Hk).
  - intros k Hk; rewrite Ec; destruct (si_cursor _ _ _ Hi k Hk ltac:(apply not_elem_of_nil)) as [C1 C2 C3].
    pose proof (lg_seg _ _ _ (si_log _ _ _ Hi k Hk)) as Hr; rewrite B5 by exact Hr.
    destruct (stable_entry_ok sbi Hd _ Hr) as (_ & _ & _ & E).
    assert (Hp : forall off, pinned (entry_of sbi (curseg_segno sbi k)) off = false ->
      pinned (built (stable_entry sbi (cs_segno (CURSEG_I sbi k)))) off = false).
    { intros off Ho; unfold built; rewrite pinned_synced; unfold cur_valid; rewrite E.
      unfold pinned in Ho; apply orb_false_iff in Ho; apply Ho. }
    constructor; [exact C1|apply Hp; exact C2|intros Hl off Ho; apply Hp, C3; assumption].
  - intros j k Hj Hk; rewrite !Ec; apply (si_inj _ _ _ Hi); assumption.
Qed.

Definition blk_dirty : Z := fst (fst (allocate_data_block NULL_ADDR sum_ex CURSEG_WARM_DATA sbi_disk)).
Definition sbi_synced : f2fs_sb_info := fst (fst (checkpoint_segments cpc_sync sbi_dirty)).

Lemma fs_write_snd old sum type sbi :
  type_ok type -> 0 < free_sections sbi -> old_ok sbi old ->
  fs_step sbi (OpWrite old (fst (fst (allocate_data_block old sum type sbi)))) (snd (allocate_data_block old sum type sbi)).
Proof.
  intros Ht Hf Ho; destruct (allocate_data_block old sum type sbi) as [[new next] sbi'] eqn:E.
  exact (fs_write sbi old sum type new next sbi' Ht Hf Ho E).
Qed.

Lemma checkpoint_fst cpc sbi : durable_wf sbi -> trim_ok sbi cpc -> durable_wf (fst (fst (checkpoint_segments cpc sbi))).
Proof.
  intros Hd Ht; pose proof (checkpoint_ok cpc sbi Hd Ht) as K; destruct (checkpoint_segments cpc sbi) as [[t c] p]; apply K.
Qed.

Lemma sbi_synced_durable : durable_wf sbi_synced.
Proof. exact (checkpoint_fst cpc_sync sbi_dirty sbi_dirty_durable (cpc_sync_ok sbi_dirty)). Qed.

Lemma crash_step sbi : durable_wf sbi -> fs_step sbi OpCrash (build_maps (build_sit_entries (mount_of sbi))).
Proof.
  intros Hd; apply fs_mount; [apply mount_of_mounting, Hd|apply mount_of_logs; exact Hd|reflexivity].
Qed.

Lemma store_run_ex : fs_run sbi_disk [OpWrite NULL_ADDR blk_dirty; OpCheckpoint; OpCrash]
  (build_maps (build_sit_entries (mount_of sbi_synced))).
Proof.
  apply (frun_snoc sbi_disk [OpWrite NULL_ADDR blk_dirty; OpCheckpoint] OpCrash sbi_synced);
    [|exact (crash_step sbi_synced sbi_synced_durable)].
  apply (frun_snoc sbi_disk [OpWrite NULL_ADDR blk_dirty] OpCheckpoint sbi_dirty);
    [|exact (fs_checkpoint sbi_dirty cpc_sync (cpc_sync_ok sbi_dirty))].
  apply (frun_snoc sbi_disk [] (OpWrite NULL_ADDR blk_dirty) sbi_disk); [apply frun_nil|].
  apply (fs_write_snd NULL_ADDR sum_ex CURSEG_WARM_DATA sbi_disk);
    [left; vm_compute; split; congruence|vm_compute; reflexivity|left; reflexivity].
Qed.

