(* ===== verification/InoEntry.v ===== *)
(** Inode entries of the checkpoint (src/Max/checkpoint.c): the per-cell sets of inodes
    that were appended to, updated or orphaned, the reservation of orphan slots, and the
    orphan blocks of a checkpoint pack, written by [write_orphan_inodes] and read back by
    [recover_orphan_inodes]. *)

From Stdlib Require Import ZArith Lia Bool.
From stdpp Require Import base numbers list gmap.
From S2P Require Import Prelude Layout SmState.

#[local] Open Scope Z_scope.
#[local] Ltac Zify.zify_post_hook ::= Z.to_euclidean_division_equations.

(** * State *)

Definition ORPHAN_INO : Z := 0.
Definition APPEND_INO : Z := 1.
Definition UPDATE_INO : Z := 2.
Definition MAX_INO_ENTRY : Z := 3.

(** The radix tree, by its keys, and the list of the entries. *)
Record inode_management := mk_im {
  ino_root : gset Z;
  ino_list : list Z;
}.

#[export] Instance inode_management_inhabited : Inhabited inode_management := populate (mk_im ∅ []).

(** [sbi->im], one row per file cell; the counters per kind; whether a [f2fs_bug_on]
    fired. The lock of a row is held across each operation. *)
Record ino_info := mk_ino_info {
  im : list (list inode_management);
  ino_mangement_num : list Z;
  inode_cache_count : Z;
  max_orphans : Z;
  ino_bug : bool;
}.

Definition with_im v i := mk_ino_info v (ino_mangement_num i) (inode_cache_count i) (max_orphans i) (ino_bug i).
Definition with_num v i := mk_ino_info (im i) v (inode_cache_count i) (max_orphans i) (ino_bug i).
Definition with_ino_bug v i := mk_ino_info (im i) (ino_mangement_num i) (inode_cache_count i) (max_orphans i) v.

(** * Operations *)

(** The row of an inode; the remainder is taken unsigned. *)
Definition cell_of (i : ino_info) (ino : Z) : Z := ino mod inode_cache_count i.

Definition get_im (i : ino_info) (c type : Z) : inode_management := (im i).[c].[type].

Definition set_im (c type : Z) (m : inode_management) (i : ino_info) : ino_info :=
  with_im ((im i).[c <- (im i).[c].[type <- m]]) i.

Definition percpu_counter_add (type d : Z) (i : ino_info) : ino_info :=
  with_num ((ino_mangement_num i).[type <- (ino_mangement_num i).[type] + d]) i.

(** The retries are for memory only. *)
Definition __add_ino_entry (ino type : Z) (i : ino_info) : ino_info :=
  let c := cell_of i ino in
  let m := get_im i c type in
  if bool_decide (ino ∈ ino_root m) then i
  else
    let i := set_im c type (mk_im ({[ino]} ∪ ino_root m) (ino_list m ++ [ino])) i in
    if negb (type =? ORPHAN_INO) then percpu_counter_add type 1 i else i.

Definition __remove_ino_entry (ino type : Z) (i : ino_info) : ino_info :=
  let c := cell_of i ino in
  let m := get_im i c type in
  if bool_decide (ino ∈ ino_root m) then
    percpu_counter_add type (-1)
      (set_im c type (mk_im (ino_root m ∖ {[ino]}) (filter (fun x => x <> ino) (ino_list m))) i)
  else i.

Definition add_dirty_inode (ino type : Z) (i : ino_info) : ino_info := __add_ino_entry ino type i.
Definition remove_dirty_inode (ino type : Z) (i : ino_info) : ino_info := __remove_ino_entry ino type i.

Definition exist_written_data (i : ino_info) (ino mode : Z) : bool :=
  bool_decide (ino ∈ ino_root (get_im i (cell_of i ino) mode)).

(** The loop over the entries of one list empties it. *)
Definition release_im (c type : Z) (i : ino_info) : ino_info :=
  fold_left (fun i e =>
    let m := get_im i c type in
    percpu_counter_add type (-1)
      (set_im c type (mk_im (ino_root m ∖ {[e]}) (filter (fun x => x <> e) (ino_list m))) i))
    (ino_list (get_im i c type)) i.

Definition release_dirty_inode (i : ino_info) : ino_info :=
  for_range 0 (inode_cache_count i) (fun j i =>
    for_range APPEND_INO (UPDATE_INO + 1) (fun t i => release_im j t i) i) i.

(** ** Orphans *)

Definition acquire_orphan_inode (i : ino_info) : Z * ino_info :=
  if max_orphans i <=? (ino_mangement_num i).[ORPHAN_INO] then (- ENOSPC, i)
  else (0, percpu_counter_add ORPHAN_INO 1 i).

Definition release_orphan_inode (i : ino_info) : ino_info :=
  let i := if (ino_mangement_num i).[ORPHAN_INO] =? 0 then with_ino_bug true i else i in
  percpu_counter_add ORPHAN_INO (-1) i.

Definition add_orphan_inode (ino : Z) (i : ino_info) : ino_info := __add_ino_entry ino ORPHAN_INO i.
Definition remove_orphan_inode (ino : Z) (i : ino_info) : ino_info := __remove_ino_entry ino ORPHAN_INO i.

(** [blocks_per_seg] and the payload are unsigned, the rest are small constants. *)
Definition init_ino_entry_info (nr_file_cell num_online_cpus blocks_per_seg cp_payload : Z) : ino_info :=
  let count := if 0 <? nr_file_cell then nr_file_cell else num_online_cpus in
  mk_ino_info (replicate (Z.to_nat count) (replicate (Z.to_nat MAX_INO_ENTRY) (mk_im ∅ [])))
    (replicate (Z.to_nat MAX_INO_ENTRY) 0) count
    (u32 (u32 (blocks_per_seg - F2FS_CP_PACKS - NR_CURSEG_TYPE - cp_payload) * F2FS_ORPHANS_PER_BLOCK)) false.

(** ** The orphan blocks *)

Record f2fs_orphan_block := mk_orphan_block {
  ob_ino : list Z;
  ob_blk_addr : Z;
  ob_blk_count : Z;
  ob_entry_count : Z;
}.

Definition zero_orphan_block : f2fs_orphan_block :=
  mk_orphan_block (replicate (Z.to_nat F2FS_ORPHANS_PER_BLOCK) 0) 0 0 0.

#[export] Instance f2fs_orphan_block_inhabited : Inhabited f2fs_orphan_block := populate zero_orphan_block.

(** The variables of [write_orphan_inodes]: the meta pages, the address of the next
    page and of the current one, the entries in it, its index, and whether a page was
    missing from the cache. *)
Record orphan_writer := mk_ow {
  ow_meta : gmap Z f2fs_orphan_block;
  ow_start : Z;
  ow_page : option Z;
  ow_nentries : Z;
  ow_index : Z;
  ow_bug : bool;
}.

(** The header of the page [p], when it is full or at the end. *)
Definition seal_orphan_block (orphan_blocks p : Z) (w : orphan_writer) : gmap Z f2fs_orphan_block :=
  let b := default inhabitant (ow_meta w !! p) in
  <[p := mk_orphan_block (ob_ino b) (u16 (ow_index w)) orphan_blocks (ow_nentries w)]> (ow_meta w).

Definition write_orphan (orphan_blocks : Z) (w : orphan_writer) (ino : Z) : orphan_writer :=
  let w := match ow_page w with
           | Some _ => w
           | None =>
               mk_ow (<[ow_start w := zero_orphan_block]> (ow_meta w)) (u32 (ow_start w + 1)) (Some (ow_start w))
                 (ow_nentries w) (ow_index w)
                 (ow_bug w || negb (bool_decide (is_Some (ow_meta w !! ow_start w))))
           end in
  match ow_page w with
  | None => w
  | Some p =>
      let b := default inhabitant (ow_meta w !! p) in
      let b := mk_orphan_block ((ob_ino b).[ow_nentries w <- ino]) (ob_blk_addr b) (ob_blk_count b) (ob_entry_count b) in
      let w := mk_ow (<[p := b]> (ow_meta w)) (ow_start w) (Some p) (u32 (ow_nentries w + 1)) (ow_index w) (ow_bug w) in
      if ow_nentries w =? F2FS_ORPHANS_PER_BLOCK
      then mk_ow (seal_orphan_block orphan_blocks p w) (ow_start w) None 0 (u16 (ow_index w + 1)) (ow_bug w)
      else w
  end.

(** [grab_meta_page] brings a page with arbitrary contents [junk] into the cache. *)
Definition grab_orphan_pages (junk : Z -> f2fs_orphan_block) (start_blk n : Z)
  (meta : gmap Z f2fs_orphan_block) : gmap Z f2fs_orphan_block :=
  for_range 0 n (fun k m => <[u32 (start_blk + k) := junk k]> m) meta.

Definition write_orphan_inodes (junk : Z -> f2fs_orphan_block) (start_blk : Z) (i : ino_info)
  (meta : gmap Z f2fs_orphan_block) : bool * gmap Z f2fs_orphan_block :=
  let total := Z.max 0 ((ino_mangement_num i).[ORPHAN_INO]) in
  let orphan_blocks := u16 (GET_ORPHAN_BLOCKS total) in
  let meta := grab_orphan_pages junk start_blk orphan_blocks meta in
  let w := for_range 0 (inode_cache_count i)
             (fun c w => fold_left (write_orphan orphan_blocks) (ino_list (get_im i c ORPHAN_INO)) w)
             (mk_ow meta start_blk None 0 1 false) in
  match ow_page w with
  | Some p => (ow_bug w, seal_orphan_block orphan_blocks p w)
  | None => (ow_bug w, ow_meta w)
  end.

(** The inodes [recover_orphan_inode] is called for, in order; [None] when the
    checkpoint has no orphans. *)
Definition recover_orphan_inodes (present : bool) (start_blk orphan_blocks : Z)
  (meta : gmap Z f2fs_orphan_block) : list Z :=
  if negb present then []
  else for_range 0 orphan_blocks (fun k acc =>
         let b := default inhabitant (meta !! u32 (start_blk + k)) in
         for_range 0 (ob_entry_count b) (fun j acc => acc ++ [(ob_ino b).[j]]) acc) [].

(** * Inode entries *)

Definition total_inos (i : ino_info) (t : Z) : Z :=
  sum_below (fun c => zlen (ino_list (get_im i c t))) (inode_cache_count i).

Definition is_member (i : ino_info) (t x : Z) : bool := bool_decide (x ∈ ino_root (get_im i (cell_of i x) t)).

Record ino_wf (i : ino_info) : Prop := {
  iw_count : 0 < inode_cache_count i;
  iw_rows : zlen (im i) = inode_cache_count i;
  iw_row : forall c, 0 <= c < inode_cache_count i -> zlen ((im i).[c]) = MAX_INO_ENTRY;
  iw_num : zlen (ino_mangement_num i) = MAX_INO_ENTRY;
  iw_nodup : forall c t, 0 <= c < inode_cache_count i -> 0 <= t < MAX_INO_ENTRY -> NoDup (ino_list (get_im i c t));
  iw_sync : forall c t x, 0 <= c < inode_cache_count i -> 0 <= t < MAX_INO_ENTRY ->
    x ∈ ino_root (get_im i c t) <-> x ∈ ino_list (get_im i c t);
  iw_cell : forall c t x, 0 <= c < inode_cache_count i -> 0 <= t < MAX_INO_ENTRY ->
    x ∈ ino_list (get_im i c t) -> cell_of i x = c;
  iw_dirty : forall t, t = APPEND_INO \/ t = UPDATE_INO -> (ino_mangement_num i).[t] = total_inos i t;
}.

Lemma get_set_im i c t m c' t' :
  ino_wf i -> 0 <= c < inode_cache_count i -> 0 <= t < MAX_INO_ENTRY -> 
  get_im (set_im c t m i) c' t' = if (c =? c') && (t =? t') then m else get_im i c' t'.
Proof.
  intros Hw Hc Ht; unfold get_im, set_im; cbn [im with_im].
  rewrite aget_aset by (rewrite (iw_rows _ Hw); exact Hc); destruct (Z.eqb_spec c c') as [<-|]; cbn [andb]; [|reflexivity].
  apply aget_aset; rewrite (iw_row _ Hw) by exact Hc; exact Ht.
Qed.

Lemma cell_range i x : ino_wf i -> 0 <= cell_of i x < inode_cache_count i.
Proof. intros Hw; apply Z.mod_pos_bound, (iw_count _ Hw). Qed.

(** Replacing one list, with the counters adjusted. *)
Lemma set_im_wf i c t m n :
  ino_wf i -> 0 <= c < inode_cache_count i -> 0 <= t < MAX_INO_ENTRY ->
  NoDup (ino_list m) -> (forall x, x ∈ ino_root m <-> x ∈ ino_list m) ->
  (forall x, x ∈ ino_list m -> cell_of i x = c) ->
  zlen n = MAX_INO_ENTRY ->
  (forall t', t' = APPEND_INO \/ t' = UPDATE_INO -> n.[t'] = (ino_mangement_num i).[t'] +
     (if t' =? t then zlen (ino_list m) - zlen (ino_list (get_im i c t)) else 0)) ->
  let i' := with_num n (set_im c t m i) in
  ino_wf i' /\ (forall t', total_inos i' t' =
     total_inos i t' + (if t' =? t then zlen (ino_list m) - zlen (ino_list (get_im i c t)) else 0)).
Proof.
  intros Hw Hc Ht H1 H2 H3 H4 H5 i'.
  assert (Hg : forall c' t', get_im i' c' t' = if (c =? c') && (t =? t') then m else get_im i c' t')
    by (intros; apply get_set_im; assumption).
  assert (Htot : forall t', total_inos i' t' =
    total_inos i t' + (if t' =? t then zlen (ino_list m) - zlen (ino_list (get_im i c t)) else 0)).
  { intros t'; unfold total_inos; change (inode_cache_count i') with (inode_cache_count i).
    destruct (Z.eqb_spec t' t) as [->|Hne].
    - rewrite (sum_below_upd (fun k => zlen (ino_list (get_im i k t))) (fun k => zlen (ino_list (get_im i' k t))) _ c Hc).
      + rewrite Hg, !Z.eqb_refl; cbn; lia.
      + intros k Hk Hne; rewrite Hg, (proj2 (Z.eqb_neq c k)) by auto; reflexivity.
    - rewrite Z.add_0_r; apply sum_below_ext; intros k Hk; rewrite Hg, (proj2 (Z.eqb_neq t t')), andb_false_r by auto; reflexivity. }
  split; [|exact Htot]; destruct (Hw) as [W1 W2 W3 W4 W5 W6 W7 W8]; constructor; auto.
  - cbn; rewrite zlen_aset; exact W2.
  - intros k Hk; cbn; rewrite aget_aset by (rewrite W2; exact Hc); destruct (Z.eqb_spec c k) as [<-|]; [|apply W3; exact Hk].
    rewrite zlen_aset; apply W3; exact Hc.
  - intros k s Hk Hs; rewrite Hg; destruct ((c =? k) && (t =? s)); auto.
  - intros k s x Hk Hs; rewrite Hg; destruct ((c =? k) && (t =? s)); auto.
  - intros k s x Hk Hs; rewrite Hg; change (cell_of i' x) with (cell_of i x).
    destruct (Z.eqb_spec c k) as [<-|]; cbn [andb]; [destruct (t =? s)|]; [apply H3|apply W7; assumption..].
  - intros s Hs; rewrite Htot, <- W8, <- H5 by exact Hs; reflexivity.
Qed.

(** ** Adding and removing *)

Lemma member_list i t x : ino_wf i -> 0 <= t < MAX_INO_ENTRY ->
  is_member i t x = true <-> x ∈ ino_list (get_im i (cell_of i x) t).
Proof.
  intros Hw Ht; unfold is_member; rewrite bool_decide_eq_true; apply (iw_sync _ Hw); [apply cell_range; exact Hw|exact Ht].
Qed.

Lemma add_ino_ok i ino t :
  ino_wf i -> 0 <= t < MAX_INO_ENTRY ->
  let i' := __add_ino_entry ino t i in
  ino_wf i' /\ (forall s x, 0 <= s < MAX_INO_ENTRY -> is_member i' s x = is_member i s x || ((s =? t) && (x =? ino))) /\
  (forall s, total_inos i' s = total_inos i s + (if s =? t then b2z (negb (is_member i t ino)) else 0)) /\
  (ino_mangement_num i').[ORPHAN_INO] = (ino_mangement_num i).[ORPHAN_INO] /\
  max_orphans i' = max_orphans i /\ ino_bug i' = ino_bug i /\ inode_cache_count i' = inode_cache_count i.
Proof.
  intros Hw Ht i'; unfold i', __add_ino_entry; pose proof (cell_range i ino Hw) as Hc; set (c := cell_of i ino) in *.
  pose proof (member_list i t ino Hw Ht) as Hml; unfold is_member in *; fold c in Hml |- *.
  destruct (bool_decide (ino ∈ ino_root (get_im i c t))) eqn:Em; cbn [negb b2z].
  - split; [exact Hw|split; [|split; [|auto]]].
    + intros s x Hs; destruct (Z.eqb_spec s t) as [->|]; [|rewrite orb_false_r; reflexivity].
      destruct (Z.eqb_spec x ino) as [->|]; cbn; rewrite ?orb_false_r; [|reflexivity].
      fold c; rewrite Em; reflexivity.
    + intros s; destruct (s =? t); lia.
  - assert (Hnin : ino ∉ ino_list (get_im i c t)) by (rewrite <- Hml; discriminate).
    set (m := mk_im _ _); set (n := if negb (t =? ORPHAN_INO)
      then (ino_mangement_num i).[t <- (ino_mangement_num i).[t] + 1] else ino_mangement_num i).
    assert (Ei : (if negb (t =? ORPHAN_INO) then percpu_counter_add t 1 (set_im c t m i) else set_im c t m i)
      = with_num n (set_im c t m i)) by (unfold n; destruct (negb _); reflexivity).
    rewrite Ei; clear Ei.
    assert (Hlen : zlen (ino_list m) - zlen (ino_list (get_im i c t)) = 1) by (cbn; unfold zlen; rewrite length_app; cbn; lia).
    assert (Hn : forall s, n.[s] = (ino_mangement_num i).[s] + (if (s =? t) && negb (t =? ORPHAN_INO) then 1 else 0)).
    { intros s; unfold n; destruct (negb (t =? ORPHAN_INO)); [|rewrite andb_false_r; lia]; rewrite andb_true_r.
      rewrite aget_aset by (rewrite (iw_num _ Hw); exact Ht); rewrite Z.eqb_sym; destruct (Z.eqb_spec s t) as [->|]; lia. }
    destruct (set_im_wf i c t m n Hw Hc Ht) as [Hw' Htot].
    + cbn; apply NoDup_app; split; [apply (iw_nodup _ Hw); assumption|split; [|apply NoDup_singleton]].
      intros x Hx Hx2; apply list_elem_of_singleton in Hx2; subst x; contradiction.
    + intros x; cbn; rewrite elem_of_union, elem_of_singleton, elem_of_app, list_elem_of_singleton, (iw_sync _ Hw) by assumption; tauto.
    + intros x; cbn; rewrite elem_of_app, list_elem_of_singleton; intros [Hx|Hx]; [exact (iw_cell _ Hw c t x Hc Ht Hx)|subst x; reflexivity].
    + unfold n; destruct (negb _); rewrite ?zlen_aset; apply (iw_num _ Hw).
    + intros s Hs; rewrite Hn, Hlen; destruct (Z.eqb_spec s t) as [->|]; [|reflexivity].
      destruct Hs as [-> | ->]; reflexivity.
    + split; [exact Hw'|split; [|split; [|split; [|auto]]]].
      * intros s x Hs; change (cell_of (with_num _ _) x) with (cell_of i x).
        change (get_im (with_num n ?a) ?b ?d) with (get_im a b d); rewrite get_set_im by assumption.
        destruct (Z.eqb_spec t s) as [<-|Hne].
        -- rewrite Z.eqb_refl, andb_true_r; cbn [andb]; destruct (Z.eqb_spec c (cell_of i x)) as [E|E].
           ++ rewrite <- E; cbn; apply eq_true_iff_eq; rewrite orb_true_iff, !bool_decide_eq_true, Z.eqb_eq, elem_of_union, elem_of_singleton; tauto.
           ++ destruct (Z.eqb_spec x ino) as [->|]; [contradiction|rewrite orb_false_r; reflexivity].
        -- rewrite andb_false_r, (proj2 (Z.eqb_neq s t)) by auto; cbn; rewrite orb_false_r; reflexivity.
      * intros s; rewrite Htot, Hlen; reflexivity.
      * cbn [ino_mangement_num with_num]; rewrite Hn; destruct (Z.eqb_spec ORPHAN_INO t) as [<-|]; cbn; lia.
Qed.

Lemma filter_keep (l : list Z) x : x ∉ l -> filter (fun y => y <> x) l = l.
Proof.
  intros Hx; induction l as [|y l IH]; [reflexivity|]; apply not_elem_of_cons in Hx; destruct Hx as [H1 H2].
  rewrite filter_cons; destruct (decide (y <> x)) as [|He]; [f_equal; apply IH; exact H2|].
  exfalso; apply He; auto.
Qed.

Lemma filter_remove (l : list Z) x : NoDup l -> x ∈ l -> zlen (filter (fun y => y <> x) l) = zlen l - 1.
Proof.
  intros Hn Hx; induction l as [|y l IH]; [inversion Hx|]; apply NoDup_cons in Hn; destruct Hn as [Hy Hn].
  rewrite filter_cons; destruct (decide (y <> x)) as [Hne|He].
  - apply elem_of_cons in Hx; destruct Hx as [->|Hx]; [contradiction|].
    specialize (IH Hn Hx); unfold zlen in *; cbn [length]; lia.
  - assert (y = x) by (destruct (Z.eq_dec y x); [assumption|contradiction]); subst y.
    rewrite filter_keep by exact Hy; unfold zlen; cbn; lia.
Qed.

(** Taking one entry out of its list. *)
Definition drop_ino (c t e : Z) (i : ino_info) : ino_info :=
  let m := get_im i c t in
  percpu_counter_add t (-1)
    (set_im c t (mk_im (ino_root m ∖ {[e]}) (filter (fun x => x <> e) (ino_list m))) i).

Lemma drop_ino_ok i c t e :
  ino_wf i -> 0 <= c < inode_cache_count i -> 0 <= t < MAX_INO_ENTRY -> e ∈ ino_list (get_im i c t) ->
  let i' := drop_ino c t e i in
  ino_wf i' /\ (forall s x, 0 <= s < MAX_INO_ENTRY -> is_member i' s x = is_member i s x && negb ((s =? t) && (x =? e))) /\
  (forall s, total_inos i' s = total_inos i s - (if s =? t then 1 else 0)) /\
  (forall s, (ino_mangement_num i').[s] = (ino_mangement_num i).[s] - (if s =? t then 1 else 0)) /\
  (forall k s, ino_list (get_im i' k s) =
     if (c =? k) && (t =? s) then filter (fun x => x <> e) (ino_list (get_im i c t)) else ino_list (get_im i k s)) /\
  max_orphans i' = max_orphans i /\ ino_bug i' = ino_bug i /\ inode_cache_count i' = inode_cache_count i.
Proof.
  intros Hw Hc Ht He i'; unfold i', drop_ino, percpu_counter_add; cbn [ino_mangement_num set_im with_im].
  set (m := mk_im _ _); set (n := (ino_mangement_num i).[t <- _]).
  change (with_im _ i) with (set_im c t m i).
  assert (Hlen : zlen (ino_list m) - zlen (ino_list (get_im i c t)) = -1).
  { unfold m; cbn [ino_list]; rewrite filter_remove; [lia|apply (iw_nodup _ Hw); assumption|exact He]. }
  assert (Hn : forall s, n.[s] = (ino_mangement_num i).[s] - (if s =? t then 1 else 0)).
  { intros s; unfold n; rewrite aget_aset by (rewrite (iw_num _ Hw); exact Ht).
    rewrite Z.eqb_sym; destruct (Z.eqb_spec s t) as [->|]; lia. }
  assert (Hin : forall x, x ∈ ino_list m <-> x ∈ ino_list (get_im i c t) /\ x <> e).
  { intros x; unfold m; cbn [ino_list]; rewrite list_elem_of_filter; tauto. }
  destruct (set_im_wf i c t m n Hw Hc Ht) as [Hw' Htot].
  + apply NoDup_filter, (iw_nodup _ Hw); assumption.
  + intros x; rewrite Hin; cbn; rewrite elem_of_difference, elem_of_singleton, (iw_sync _ Hw) by assumption; tauto.
  + intros x Hx; apply Hin in Hx; apply (iw_cell _ Hw c t x Hc Ht), Hx.
  + unfold n; rewrite zlen_aset; apply (iw_num _ Hw).
  + intros s Hs; rewrite Hn, Hlen; destruct (s =? t); lia.
  + assert (Hce : cell_of i e = c) by exact (iw_cell _ Hw c t e Hc Ht He).
    split; [exact Hw'|split; [|split; [|split; [exact Hn|split; [|auto]]]]].
    * intros s x Hs; unfold is_member; change (cell_of (with_num _ _) x) with (cell_of i x).
      change (get_im (with_num n ?a) ?b ?d) with (get_im a b d); rewrite get_set_im by assumption.
      destruct (Z.eqb_spec t s) as [<-|Hne].
      -- rewrite Z.eqb_refl, andb_true_r; cbn [andb]; destruct (Z.eqb_spec c (cell_of i x)) as [E|E].
         ++ rewrite <- E; cbn; apply eq_true_iff_eq.
            rewrite andb_true_iff, negb_true_iff, !bool_decide_eq_true, Z.eqb_neq, elem_of_difference, elem_of_singleton; tauto.
         ++ destruct (Z.eqb_spec x e) as [->|]; [congruence|rewrite andb_true_r; reflexivity].
      -- rewrite andb_false_r, (proj2 (Z.eqb_neq s t)) by auto; cbn; rewrite andb_true_r; reflexivity.
    * intros s; rewrite Htot, Hlen; destruct (s =? t); lia.
    * intros k s; change (get_im (with_num n ?a) ?b ?d) with (get_im a b d); rewrite get_set_im by assumption.
      destruct (_ && _); reflexivity.
Qed.

Lemma remove_ino_eq i ino t :
  __remove_ino_entry ino t i = if is_member i t ino then drop_ino (cell_of i ino) t ino i else i.
Proof. reflexivity. Qed.

(** What an operation on the lists of kind [t] leaves alone. *)
Record ino_frame (P : Z -> Z -> bool) (i i' : ino_info) : Prop := {
  if_list : forall k s, 0 <= k < inode_cache_count i -> 0 <= s < MAX_INO_ENTRY -> P k s = false ->
    ino_list (get_im i' k s) = ino_list (get_im i k s);
  if_gone : forall k s, 0 <= k < inode_cache_count i -> 0 <= s < MAX_INO_ENTRY -> P k s = true ->
    ino_list (get_im i' k s) = [];
  if_orphan : (ino_mangement_num i').[ORPHAN_INO] = (ino_mangement_num i).[ORPHAN_INO];
  if_count : inode_cache_count i' = inode_cache_count i;
  if_rest : max_orphans i' = max_orphans i /\ ino_bug i' = ino_bug i;
}.

Lemma release_im_ok i c t :
  ino_wf i -> 0 <= c < inode_cache_count i -> t = APPEND_INO \/ t = UPDATE_INO ->
  ino_wf (release_im c t i) /\ ino_frame (fun k s => (c =? k) && (t =? s)) i (release_im c t i).
Proof.
  intros Hw Hc Ht; assert (Htr : 0 <= t < MAX_INO_ENTRY) by (unfold APPEND_INO, UPDATE_INO, MAX_INO_ENTRY in *; lia).
  unfold release_im; change (fun i e => percpu_counter_add t (-1) _) with (fun i e => drop_ino c t e i).
  remember (ino_list (get_im i c t)) as l eqn:El; revert i Hw Hc El; induction l as [|e l IH]; intros i Hw Hc El; cbn [fold_left].
  - split; [exact Hw|]; constructor; auto; intros k s Hk Hs HP.
    apply andb_true_iff in HP; rewrite !Z.eqb_eq in HP; destruct HP as [<- <-]; symmetry; exact El.
  - pose proof (iw_nodup _ Hw c t Hc Htr) as Hn; rewrite <- El in Hn; apply NoDup_cons in Hn; destruct Hn as [He Hn].
    destruct (drop_ino_ok i c t e Hw Hc Htr) as (D1 & _ & _ & D4 & D5 & D6 & D7 & D8); [rewrite <- El; left|].
    set (i1 := drop_ino c t e i) in *.
    assert (El1 : l = ino_list (get_im i1 c t)).
    { rewrite D5, !Z.eqb_refl, <- El; cbn [andb]; rewrite filter_cons; destruct (decide (e <> e)); [contradiction|].
      symmetry; apply filter_keep; exact He. }
    destruct (IH i1 D1 ltac:(rewrite D8; exact Hc) El1) as [R1 [R2 R3 R4 R5 R6]]; split; [exact R1|].
    rewrite D8 in *; constructor.
    + intros k s Hk Hs HP; rewrite R2 by assumption; rewrite D5, HP; reflexivity.
    + exact R3.
    + rewrite R4, D4; destruct Ht as [-> | ->]; cbn; lia.
    + exact R5.
    + destruct R6; split; congruence.
Qed.

Lemma release_dirty_ok i :
  ino_wf i ->
  ino_wf (release_dirty_inode i) /\ ino_frame (fun _ s => negb (s =? ORPHAN_INO)) i (release_dirty_inode i).
Proof.
  intros Hw; unfold release_dirty_inode; pose proof (iw_count _ Hw).
  assert (Hrow : forall j t, ino_wf t -> 0 <= j < inode_cache_count t ->
    let t' := for_range APPEND_INO (UPDATE_INO + 1) (fun s i => release_im j s i) t in
    ino_wf t' /\ ino_frame (fun k s => (j =? k) && negb (s =? ORPHAN_INO)) t t').
  { intros j t Ht Hj; cbv zeta; change (for_range APPEND_INO (UPDATE_INO + 1) (fun s i => release_im j s i) t)
      with (release_im j UPDATE_INO (release_im j APPEND_INO t)).
    destruct (release_im_ok t j APPEND_INO Ht Hj (or_introl eq_refl)) as [A1 [A2 A3 A4 A5 A6]].
    destruct (release_im_ok (release_im j APPEND_INO t) j UPDATE_INO A1 ltac:(rewrite A5; exact Hj) (or_intror eq_refl))
      as [B1 [B2 B3 B4 B5 B6]]; split; [exact B1|].
    rewrite A5 in *; constructor; [| |congruence|congruence|destruct A6, B6; split; congruence].
    - intros k s Hk Hs HP; destruct (Z.eqb_spec j k) as [<-|Hne]; cbn [andb] in HP.
      + apply negb_false_iff, Z.eqb_eq in HP; subst s; rewrite B2, A2 by (auto; rewrite Z.eqb_refl; reflexivity); reflexivity.
      + rewrite B2, A2 by (auto; rewrite (proj2 (Z.eqb_neq j k) Hne); reflexivity); reflexivity.
    - intros k s Hk Hs HP; apply andb_true_iff in HP; destruct HP as [HP1 HP2]; apply Z.eqb_eq in HP1; subst k.
      destruct (Z.eqb_spec s UPDATE_INO) as [->|Hne].
      + apply B3; auto; rewrite Z.eqb_refl; reflexivity.
      + rewrite B2 by (auto; rewrite Z.eqb_refl, Z.eqb_sym, (proj2 (Z.eqb_neq s _) Hne); reflexivity).
        apply A3; auto; rewrite Z.eqb_refl; cbn [andb]; apply Z.eqb_eq.
        apply negb_true_iff, Z.eqb_neq in HP2; unfold APPEND_INO, UPDATE_INO, ORPHAN_INO, MAX_INO_ENTRY in *; lia. }
  cut (ino_wf (for_range 0 (inode_cache_count i) (fun j i => for_range APPEND_INO (UPDATE_INO + 1) (fun t i => release_im j t i) i) i) /\
    ino_frame (fun k s => (k <? inode_cache_count i) && negb (s =? ORPHAN_INO)) i
     (for_range 0 (inode_cache_count i) (fun j i => for_range APPEND_INO (UPDATE_INO + 1) (fun t i => release_im j t i) i) i)).
  { intros [A1 [A2 A3 A4 A5 A6]]; split; [exact A1|]; constructor; auto.
    - intros k s Hk Hs HP; apply A2; auto; rewrite HP; apply andb_false_r.
    - intros k s Hk Hs HP; apply A3; auto; rewrite HP, (proj2 (Z.ltb_lt k _)) by lia; reflexivity. }
  apply (for_range_ind (fun n t => ino_wf t /\ ino_frame (fun k s => (k <? n) && negb (s =? ORPHAN_INO)) i t)); [lia| |].
  - split; [exact Hw|]; constructor; auto; intros k s Hk Hs HP.
    rewrite (proj2 (Z.ltb_ge k 0)) in HP by lia; discriminate.
  - intros n t Hn [A1 [A2 A3 A4 A5 A6]].
    destruct (Hrow n t A1 ltac:(rewrite A5; lia)) as [B1 [B2 B3 B4 B5 B6]]; split; [exact B1|].
    rewrite A5 in *; constructor; [| |congruence|congruence|destruct A6, B6; split; congruence].
    + intros k s Hk Hs HP; rewrite B2, A2; auto.
      * destruct (Z.ltb_spec k (n + 1)), (Z.ltb_spec k n); cbn [andb] in *; auto; lia.
      * destruct (Z.eqb_spec n k) as [<-|]; [|reflexivity].
        rewrite (proj2 (Z.ltb_lt n (n + 1))) in HP by lia; exact HP.
    + intros k s Hk Hs HP; apply andb_true_iff in HP; destruct HP as [HP1 HP2]; apply Z.ltb_lt in HP1.
      destruct (Z.eqb_spec n k) as [<-|Hne]; [apply B3; auto; rewrite Z.eqb_refl; exact HP2|].
      rewrite B2 by (auto; rewrite (proj2 (Z.eqb_neq n k) Hne); reflexivity).
      apply A3; auto; rewrite (proj2 (Z.ltb_lt k n)), HP2 by lia; reflexivity.
Qed.

(** ** Reservations *)

(** The operations on the entries; the second component counts the slots acquired and
    neither used nor given back. *)
Inductive ino_step : ino_info * Z -> ino_info * Z -> Prop :=
| is_acquire i p i' : acquire_orphan_inode i = (0, i') -> ino_step (i, p) (i', p + 1)
| is_full i p i' : acquire_orphan_inode i = (- ENOSPC, i') -> ino_step (i, p) (i', p)
| is_release i p : 0 < p -> ino_step (i, p) (release_orphan_inode i, p - 1)
| is_add i p ino : 0 < p -> is_member i ORPHAN_INO ino = false -> ino_step (i, p) (add_orphan_inode ino i, p - 1)
| is_remove i p ino : ino_step (i, p) (remove_orphan_inode ino i, p)
| is_add_dirty i p ino t : t = APPEND_INO \/ t = UPDATE_INO -> ino_step (i, p) (add_dirty_inode ino t i, p)
| is_remove_dirty i p ino t : t = APPEND_INO \/ t = UPDATE_INO -> ino_step (i, p) (remove_dirty_inode ino t i, p)
| is_release_dirty i p : ino_step (i, p) (release_dirty_inode i, p).

Inductive ino_run (s : ino_info * Z) : ino_info * Z -> Prop :=
| irun_refl : ino_run s s
| irun_step t u : ino_run s t -> ino_step t u -> ino_run s u.

Record orphan_inv (s : ino_info * Z) : Prop := {
  oi_wf : ino_wf (fst s);
  oi_pending : 0 <= snd s;
  oi_num : (ino_mangement_num (fst s)).[ORPHAN_INO] = total_inos (fst s) ORPHAN_INO + snd s;
  oi_max : (ino_mangement_num (fst s)).[ORPHAN_INO] <= max_orphans (fst s);
  oi_bug : ino_bug (fst s) = false;
}.

Lemma total_nonneg i t : 0 <= total_inos i t.
Proof. apply sum_below_nonneg; intros; unfold zlen; lia. Qed.

Lemma orphan_num_add d i :
  ino_wf i -> let i' := percpu_counter_add ORPHAN_INO d i in
  ino_wf i' /\ (ino_mangement_num i').[ORPHAN_INO] = (ino_mangement_num i).[ORPHAN_INO] + d /\
  (forall t, total_inos i' t = total_inos i t).
Proof.
  intros Hw; cbv zeta; destruct (Hw) as [W1 W2 W3 W4 W5 W6 W7 W8]; split; [|split; [|reflexivity]].
  - constructor; auto; [cbn; rewrite zlen_aset; exact W4|].
    intros t Ht; cbn; rewrite aget_aset_ne by (unfold APPEND_INO, UPDATE_INO, ORPHAN_INO in *; lia); apply W8; exact Ht.
  - cbn; rewrite aget_aset_eq by (rewrite W4; unfold ORPHAN_INO, MAX_INO_ENTRY; lia); reflexivity.
Qed.

Lemma ino_step_inv s t : ino_step s t -> orphan_inv s -> orphan_inv t.
Proof.
  assert (Htr : forall k, k = APPEND_INO \/ k = UPDATE_INO -> 0 <= k < MAX_INO_ENTRY /\ k <> ORPHAN_INO)
    by (unfold APPEND_INO, UPDATE_INO, ORPHAN_INO, MAX_INO_ENTRY; lia).
  assert (H0 : 0 <= ORPHAN_INO < MAX_INO_ENTRY) by (unfold ORPHAN_INO, MAX_INO_ENTRY; lia).
  intros Hst [W P N M B]; destruct Hst as [i p i' E|i p i' E|i p Hp|i p ino Hp Hm|i p ino|i p ino k Hk|i p ino k Hk|i p]; cbn [fst snd] in *.
  - unfold acquire_orphan_inode in E; destruct (Z.leb_spec (max_orphans i) ((ino_mangement_num i).[ORPHAN_INO])) as [|Hlt];
      [discriminate|injection E as <-].
    destruct (orphan_num_add 1 i W) as (A1 & A2 & A3); constructor; cbn [fst snd]; auto; try lia; rewrite A2; [rewrite A3; lia|].
    change (max_orphans (percpu_counter_add _ _ i)) with (max_orphans i); lia.
  - unfold acquire_orphan_inode in E; destruct (_ <=? _); [injection E as <-; constructor; auto|discriminate].
  - unfold release_orphan_inode; pose proof (total_nonneg i ORPHAN_INO) as Hn.
    rewrite (proj2 (Z.eqb_neq _ 0)) by lia; destruct (orphan_num_add (-1) i W) as (A1 & A2 & A3).
    constructor; cbn [fst snd]; auto; try lia; rewrite A2; [rewrite A3; lia|].
    change (max_orphans (percpu_counter_add _ _ i)) with (max_orphans i); lia.
  - destruct (add_ino_ok i ino ORPHAN_INO W H0) as (A1 & _ & A3 & A4 & A5 & A6 & _); fold (add_orphan_inode ino i) in *.
    constructor; cbn [fst snd]; auto; [lia| |lia|congruence]; rewrite A4, A3, Hm; cbn; lia.
  - unfold remove_orphan_inode; rewrite remove_ino_eq; destruct (is_member i ORPHAN_INO ino) eqn:Em; [|constructor; auto].
    apply member_list in Em; [|exact W|exact H0].
    destruct (drop_ino_ok i (cell_of i ino) ORPHAN_INO ino W (cell_range i ino W) H0 Em) as (A1 & _ & A3 & A4 & _ & A6 & A7 & _).
    constructor; cbn [fst snd]; auto; rewrite ?A3, ?A4, ?A6, ?A7, ?Z.eqb_refl; auto; lia.
  - destruct (Htr k Hk) as [Hr Hne]; destruct (add_ino_ok i ino k W Hr) as (A1 & _ & A3 & A4 & A5 & A6 & _); fold (add_dirty_inode ino k i) in *.
    constructor; cbn [fst snd]; auto; [|lia|congruence]; rewrite A4, A3, (proj2 (Z.eqb_neq ORPHAN_INO k)) by auto; lia.
  - destruct (Htr k Hk) as [Hr Hne]; unfold remove_dirty_inode; rewrite remove_ino_eq.
    destruct (is_member i k ino) eqn:Em; [|constructor; auto].
    apply member_list in Em; [|exact W|exact Hr].
    destruct (drop_ino_ok i (cell_of i ino) k ino W (cell_range i ino W) Hr Em) as (A1 & _ & A3 & A4 & _ & A6 & A7 & _).
    constructor; cbn [fst snd]; auto; rewrite ?A3, ?A4, ?A6, ?A7, ?(proj2 (Z.eqb_neq ORPHAN_INO k)) by auto; auto; lia.
  - destruct (release_dirty_ok i W) as [A1 [A2 A3 A4 A5 [A6 A7]]]; constructor; cbn [fst snd]; auto; [|lia|congruence].
    rewrite A4; unfold total_inos in *; rewrite A5, N; f_equal; apply sum_below_ext; intros c Hc.
    rewrite A2 by auto; reflexivity.
Qed.

Lemma ino_run_inv s t : ino_run s t -> orphan_inv s -> orphan_inv t.
Proof. intros Hr Hs; induction Hr; eauto using ino_step_inv. Qed.


(** * Orphan blocks: what is written is what is recovered *)

(** All the orphans, cell by cell. *)
Definition orphans (i : ino_info) : list Z :=
  concat (map (fun c => ino_list (get_im i c ORPHAN_INO)) (zseq 0 (Z.to_nat (inode_cache_count i)))).

Lemma orphans_total i : zlen (orphans i) = total_inos i ORPHAN_INO.
Proof.
  unfold orphans, total_inos, sum_below; generalize (Z.to_nat (inode_cache_count i)) as n; intros n.
  induction n as [|n IH]; [reflexivity|]; rewrite zseq_snoc, map_app, concat_app; cbn [map concat].
  unfold zlen in *; rewrite app_nil_r, length_app, Nat2Z.inj_add, IH; cbn; reflexivity.
Qed.

Lemma for_range_concat {A} (f : A -> Z -> A) (l : Z -> list Z) n w :
  for_range 0 n (fun c w => fold_left f (l c) w) w = fold_left f (concat (map l (zseq 0 (Z.to_nat n)))) w.
Proof.
  unfold for_range; rewrite Z.sub_0_r; generalize (zseq 0 (Z.to_nat n)) as k; intros k; revert w.
  induction k as [|c k IH]; intros w; cbn; [reflexivity|rewrite fold_left_app; apply IH].
Qed.

Section Blocks.
Variables (L : list Z) (s0 B : Z).
Hypothesis Hs0 : 0 <= s0.
Hypothesis HB : B = GET_ORPHAN_BLOCKS (zlen L).
Hypothesis Htop : s0 + B < 2 ^ 32.
Hypothesis H16 : B + 1 < 2 ^ 16.

Definition blk (m : gmap Z f2fs_orphan_block) (j : Z) : f2fs_orphan_block := default inhabitant (m !! (s0 + j)).

(** Block [j] holds the entries of [L] from [1020 * j] on, [n] of them. *)
Definition holds (m : gmap Z f2fs_orphan_block) (j n : Z) : Prop :=
  zlen (ob_ino (blk m j)) = F2FS_ORPHANS_PER_BLOCK /\
  forall q, 0 <= q < n -> (ob_ino (blk m j)).[q] = L.[F2FS_ORPHANS_PER_BLOCK * j + q].

Record ow_inv (pos : Z) (w : orphan_writer) : Prop := {
  wi_index : 1 <= ow_index w;
  wi_n : 0 <= ow_nentries w < F2FS_ORPHANS_PER_BLOCK;
  wi_pos : pos = F2FS_ORPHANS_PER_BLOCK * (ow_index w - 1) + ow_nentries w;
  wi_page : if ow_nentries w =? 0 then ow_page w = None /\ ow_start w = s0 + (ow_index w - 1)
            else ow_page w = Some (s0 + (ow_index w - 1)) /\ ow_start w = s0 + ow_index w /\
                 holds (ow_meta w) (ow_index w - 1) (ow_nentries w);
  wi_full : forall j, 0 <= j < ow_index w - 1 -> holds (ow_meta w) j F2FS_ORPHANS_PER_BLOCK /\
    ob_entry_count (blk (ow_meta w) j) = F2FS_ORPHANS_PER_BLOCK;
  wi_grabbed : forall j, 0 <= j < B -> is_Some (ow_meta w !! (s0 + j));
  wi_bug : ow_bug w = false;
}.

Lemma blk_insert m j k b : blk (<[s0 + j := b]> m) k = if k =? j then b else blk m k.
Proof.
  unfold blk; destruct (Z.eqb_spec k j) as [->|]; [rewrite lookup_insert_eq; reflexivity|].
  rewrite lookup_insert_ne by lia; reflexivity.
Qed.

(** The page [write_orphan] stores into: the current one, or the next block of the pack. *)
Definition with_page (w : orphan_writer) : orphan_writer :=
  match ow_page w with
  | Some _ => w
  | None => mk_ow (<[ow_start w := zero_orphan_block]> (ow_meta w)) (u32 (ow_start w + 1)) (Some (ow_start w))
      (ow_nentries w) (ow_index w) (ow_bug w || negb (bool_decide (is_Some (ow_meta w !! ow_start w))))
  end.

Lemma with_page_ok pos w :
  ow_inv pos w -> pos < zlen L ->
  let k := ow_index w - 1 in
  let w1 := with_page w in
  ow_page w1 = Some (s0 + k) /\ ow_start w1 = s0 + k + 1 /\ ow_nentries w1 = ow_nentries w /\ ow_index w1 = k + 1 /\
  ow_bug w1 = false /\ holds (ow_meta w1) k (ow_nentries w) /\
  (forall j, 0 <= j < k -> holds (ow_meta w1) j 1020 /\ ob_entry_count (blk (ow_meta w1) j) = 1020) /\
  (forall j, 0 <= j < B -> is_Some (ow_meta w1 !! (s0 + j))).
Proof.
  intros [I1 I2 I3 I4 I5 I6 I7] Hpos; unfold GET_ORPHAN_BLOCKS, F2FS_ORPHANS_PER_BLOCK in *.
  unfold with_page; cbv zeta; set (k := ow_index w - 1) in *; set (n := ow_nentries w) in *.
  assert (Hk : 0 <= k < B) by lia.
  destruct (Z.eqb_spec n 0) as [En|En].
  - destruct I4 as [-> E2]; rewrite E2; cbn [ow_page ow_start ow_nentries ow_index ow_bug ow_meta].
    split; [reflexivity|split; [rewrite u32_small; lia|split; [reflexivity|split; [unfold k; lia|split; [|split; [|split]]]]]].
    + rewrite I7, bool_decide_true by (apply I6; lia); reflexivity.
    + split; [rewrite blk_insert, Z.eqb_refl; reflexivity|intros; lia].
    + intros j Hj; unfold holds; rewrite blk_insert, (proj2 (Z.eqb_neq j k)) by lia; apply I5; exact Hj.
    + intros j Hj; destruct (Z.eq_dec j k) as [->|]; [rewrite lookup_insert_eq; eauto|rewrite lookup_insert_ne by lia; auto].
  - destruct I4 as (E1 & E2 & E3); rewrite E1.
    split; [exact E1|split; [rewrite E2; unfold k; lia|split; [reflexivity|split; [unfold k; lia|auto 10]]]].
Qed.

Lemma write_orphan_ok pos w :
  ow_inv pos w -> pos < zlen L -> ow_inv (pos + 1) (write_orphan B w (L.[pos])).
Proof.
  intros HI Hpos; pose proof (with_page_ok pos w HI Hpos) as HP; destruct HI as [I1 I2 I3 _ _ _ _]; cbv zeta in HP.
  unfold GET_ORPHAN_BLOCKS, F2FS_ORPHANS_PER_BLOCK in *; set (k := ow_index w - 1) in *; set (n := ow_nentries w) in *.
  assert (Hk : 0 <= k < B) by lia.
  unfold write_orphan; fold (with_page w); set (w1 := with_page w) in *; destruct HP as (W1 & W2 & W3 & W4 & W5 & [W6 W6'] & W7 & W8).
  rewrite W1, W3, W4, W5; cbv zeta; fold (blk (ow_meta w1) k).
  set (b := mk_orphan_block _ _ _ _); set (m := <[s0 + k := b]> (ow_meta w1)).
  assert (Hb : blk m k = b) by (unfold m; rewrite blk_insert, Z.eqb_refl; reflexivity).
  assert (Hob : zlen (ob_ino b) = 1020) by (unfold b; cbn; rewrite zlen_aset; exact W6).
  assert (Hh : forall q, 0 <= q < n + 1 -> (ob_ino b).[q] = L.[1020 * k + q]).
  { intros q Hq; unfold b; cbn [ob_ino]; rewrite aget_aset by (rewrite W6; unfold F2FS_ORPHANS_PER_BLOCK; lia).
    destruct (Z.eqb_spec n q) as [<-|]; [f_equal; lia|apply W6'; lia]. }
  assert (Ho : forall j, j <> k -> blk m j = blk (ow_meta w1) j)
    by (intros j Hj; unfold m; rewrite blk_insert, (proj2 (Z.eqb_neq j k) Hj); reflexivity).
  assert (Hg : forall j, 0 <= j < B -> is_Some (m !! (s0 + j)))
    by (intros j Hj; unfold m; destruct (Z.eq_dec j k) as [->|]; [rewrite lookup_insert_eq; eauto|rewrite lookup_insert_ne by lia; auto]).
  cbn [ow_nentries]; rewrite u32_small by lia; change F2FS_ORPHANS_PER_BLOCK with 1020.
  destruct (Z.eqb_spec (n + 1) 1020) as [En|En].
  - unfold seal_orphan_block; cbn [ow_meta ow_index ow_nentries]; fold m; fold (blk m k); rewrite Hb.
    constructor; cbn [ow_index ow_nentries ow_page ow_start ow_meta ow_bug]; rewrite ?(u16_small (k + 1 + 1)) by lia;
      unfold F2FS_ORPHANS_PER_BLOCK; auto; try lia.
    + cbn; split; [reflexivity|lia].
    + intros j Hj; unfold holds; rewrite !blk_insert; destruct (Z.eqb_spec j k) as [->|Hne]; cbn [ob_ino ob_entry_count].
      * split; [split; [exact Hob|intros q Hq; apply Hh; lia]|lia].
      * rewrite Ho by exact Hne; apply W7; lia.
    + intros j Hj; destruct (Z.eq_dec j k) as [->|]; [rewrite lookup_insert_eq; eauto|rewrite lookup_insert_ne by lia; auto].
  - constructor; cbn [ow_index ow_nentries ow_page ow_start ow_meta ow_bug]; unfold F2FS_ORPHANS_PER_BLOCK; auto; try lia.
    + rewrite (proj2 (Z.eqb_neq (n + 1) 0)) by lia; replace (k + 1 - 1) with k by lia.
      split; [reflexivity|split; [lia|]]; unfold holds; rewrite Hb; split; [exact Hob|exact Hh].
    + replace (k + 1 - 1) with k by lia; intros j Hj; unfold holds; rewrite Ho by lia; apply W7; exact Hj.
Qed.

Lemma write_orphans_ok w0 :
  ow_inv 0 w0 -> ow_inv (zlen L) (fold_left (write_orphan B) L w0).
Proof.
  intros H0; cut (forall n : nat, (n <= length L)%nat -> ow_inv (Z.of_nat n) (fold_left (write_orphan B) (take n L) w0)).
  { intros H; specialize (H (length L) ltac:(lia)); rewrite firstn_all in H; exact H. }
  induction n as [|n IH]; intros Hn; [exact H0|].
  assert (E : take (S n) L = take n L ++ [L.[Z.of_nat n]]).
  { destruct (lookup_lt_is_Some_2 L n ltac:(lia)) as [x Hx]; rewrite (take_S_r L n x Hx); do 2 f_equal.
    unfold aget; rewrite (proj2 (Z.leb_le 0 _)), Nat2Z.id by lia; symmetry; apply list_lookup_total_correct; exact Hx. }
  rewrite E, fold_left_app; cbn [fold_left]; replace (Z.of_nat (S n)) with (Z.of_nat n + 1) by lia.
  apply write_orphan_ok; [apply IH; lia|unfold zlen; lia].
Qed.

(** The blocks as they are on disk. *)
Definition orphans_written (m : gmap Z f2fs_orphan_block) : Prop :=
  forall j, 0 <= j < B ->
    let n := Z.min F2FS_ORPHANS_PER_BLOCK (zlen L - F2FS_ORPHANS_PER_BLOCK * j) in
    ob_entry_count (blk m j) = n /\ holds m j n.

Lemma sealed_ok w :
  ow_inv (zlen L) w ->
  ow_bug w = false /\
  orphans_written (match ow_page w with Some p => seal_orphan_block B p w | None => ow_meta w end).
Proof.
  intros [I1 I2 I3 I4 I5 I6 I7]; split; [exact I7|].
  unfold orphans_written, GET_ORPHAN_BLOCKS, F2FS_ORPHANS_PER_BLOCK in *.
  destruct (Z.eqb_spec (ow_nentries w) 0) as [En|En].
  - destruct I4 as [-> _]; intros j Hj; destruct (I5 j ltac:(lia)) as [H1 H2]; cbv zeta.
    rewrite Z.min_l by lia; auto.
  - destruct I4 as (-> & _ & [H1 H2]); set (k := ow_index w - 1) in *; unfold seal_orphan_block; fold (blk (ow_meta w) k).
    intros j Hj; cbv zeta; unfold holds; rewrite !blk_insert; destruct (Z.eqb_spec j k) as [->|Hne]; cbn [ob_entry_count ob_ino].
    + rewrite Z.min_r by lia; split; [lia|split; [exact H1|intros q Hq; apply H2; lia]].
    + assert (Hj2 : 0 <= j < k) by (unfold k in *; lia); destruct (I5 j Hj2) as [H3 H4]; rewrite Z.min_l by lia; auto.
Qed.

Lemma take_snoc_aget (l : list Z) n : 0 <= n < zlen l -> take (Z.to_nat (n + 1)) l = take (Z.to_nat n) l ++ [l.[n]].
Proof.
  unfold zlen; intros Hn; replace (Z.to_nat (n + 1)) with (S (Z.to_nat n)) by lia.
  destruct (lookup_lt_is_Some_2 l (Z.to_nat n) ltac:(lia)) as [x Hx]; rewrite (take_S_r l _ x Hx); do 2 f_equal.
  unfold aget; rewrite (proj2 (Z.leb_le 0 n)) by lia; symmetry; apply list_lookup_total_correct; exact Hx.
Qed.

Lemma recover_ok m : orphans_written m -> recover_orphan_inodes true s0 B m = L.
Proof.
  intros Hm; unfold recover_orphan_inodes; cbn [negb]; unfold orphans_written, GET_ORPHAN_BLOCKS, F2FS_ORPHANS_PER_BLOCK in *.
  assert (Hlen : 0 <= zlen L) by (unfold zlen; lia).
  match goal with |- for_range 0 B ?f [] = L =>
    assert (H : for_range 0 B f [] = take (Z.to_nat (Z.min (zlen L) (1020 * B))) L) end.
  - apply (for_range_ind (fun k acc => acc = take (Z.to_nat (Z.min (zlen L) (1020 * k))) L)); [lia|rewrite Z.min_r by lia; reflexivity|].
    intros k acc Hk ->; rewrite u32_small by lia; fold (blk m k); destruct (Hm k Hk) as [Hc [_ Hh]].
    rewrite Hc; replace (Z.min (zlen L) (1020 * k)) with (1020 * k) by lia.
    set (n := Z.min 1020 (zlen L - 1020 * k)) in *; assert (Hn : 0 <= n <= zlen L - 1020 * k) by lia.
    replace (Z.min (zlen L) (1020 * (k + 1))) with (1020 * k + n) by lia.
    apply (for_range_ind (fun j acc => acc = take (Z.to_nat (1020 * k + j)) L)); [lia|f_equal; f_equal; lia|].
    intros j acc Hj ->; rewrite Hh by exact Hj; replace (1020 * k + (j + 1)) with (1020 * k + j + 1) by lia.
    symmetry; apply (take_snoc_aget L (1020 * k + j)); lia.
  - rewrite H, Z.min_l by lia; unfold zlen; rewrite Nat2Z.id; apply firstn_all.
Qed.
End Blocks.

Lemma grab_ok junk s0 n m :
  0 <= s0 -> 0 <= n -> s0 + n < 2 ^ 32 -> forall j, 0 <= j < n -> is_Some (grab_orphan_pages junk s0 n m !! (s0 + j)).
Proof.
  intros Hs Hn Ht; unfold grab_orphan_pages.
  apply (for_range_ind (fun k m => forall j, 0 <= j < k -> is_Some (m !! (s0 + j)))); [lia|intros; lia|].
  intros k m' Hk IH j Hj; rewrite u32_small by lia; destruct (Z.eq_dec j k) as [->|]; [rewrite lookup_insert_eq; eauto|].
  rewrite lookup_insert_ne by lia; apply IH; lia.
Qed.

(** C33: the orphan blocks of a checkpoint round-trip: after [write_orphan_inodes] the
    orphan blocks hold exactly the orphaned inodes, so that [recover_orphan_inodes] at the
    next mount processes each of them once, in order, for any number of orphans and any
    previous contents of the pages; the writer never runs out of the pages it grabbed. *)
Theorem orphan_blocks_round_trip (junk : Z -> f2fs_orphan_block) (start_blk : Z) (i : ino_info)
  (meta : gmap Z f2fs_orphan_block) (Hw : ino_wf i)
  (Hn : (ino_mangement_num i).[ORPHAN_INO] = total_inos i ORPHAN_INO)
  (Hs : 0 <= start_blk) (Ht : start_blk + GET_ORPHAN_BLOCKS (total_inos i ORPHAN_INO) < 2 ^ 32)
  (Hc : GET_ORPHAN_BLOCKS (total_inos i ORPHAN_INO) + 1 < 2 ^ 16) :
  let '(bug, meta') := write_orphan_inodes junk start_blk i meta in
  bug = false /\
  recover_orphan_inodes true start_blk (GET_ORPHAN_BLOCKS (total_inos i ORPHAN_INO)) meta' = orphans i.
Proof.
  unfold write_orphan_inodes; rewrite Hn; pose proof (total_nonneg i ORPHAN_INO) as Hp; rewrite Z.max_r by exact Hp.
  assert (HB : GET_ORPHAN_BLOCKS (total_inos i ORPHAN_INO) = GET_ORPHAN_BLOCKS (zlen (orphans i)))
    by (rewrite orphans_total; reflexivity).
  assert (HBr : 0 <= GET_ORPHAN_BLOCKS (total_inos i ORPHAN_INO)) by (unfold GET_ORPHAN_BLOCKS, F2FS_ORPHANS_PER_BLOCK; lia).
  set (B := GET_ORPHAN_BLOCKS (total_inos i ORPHAN_INO)) in *; rewrite u16_small by lia; cbv zeta.
  rewrite for_range_concat; fold (orphans i).
  set (w0 := mk_ow _ _ _ _ _ _).
  assert (H0 : ow_inv (orphans i) start_blk B 0 w0).
  { constructor; cbn; unfold F2FS_ORPHANS_PER_BLOCK; try lia; auto; [split; [reflexivity|lia]|exact (grab_ok _ _ _ _ Hs HBr Ht)]. }
  assert (H1 : ow_inv (orphans i) start_blk B (zlen (orphans i)) (fold_left (write_orphan B) (orphans i) w0))
    by (apply write_orphans_ok; assumption).
  apply sealed_ok in H1; [|assumption..]; destruct H1 as [E1 E2].
  destruct (ow_page _) as [p|]; (split; [exact E1|]); apply recover_ok; assumption.
Qed.

(** ** The initial state, and examples *)

Lemma init_get nc cpus bps pay c t :
  let i := init_ino_entry_info nc cpus bps pay in
  0 <= c < inode_cache_count i -> 0 <= t < MAX_INO_ENTRY -> get_im i c t = mk_im ∅ [].
Proof.
  intros i Hc Ht; unfold get_im, i, init_ino_entry_info in *; cbn [im inode_cache_count] in *.
  rewrite (aget_replicate _ (replicate (Z.to_nat MAX_INO_ENTRY) (mk_im ∅ [])) c) by lia; apply aget_replicate; lia.
Qed.

Lemma init_ino_wf nc cpus bps pay :
  0 < nc \/ 0 < cpus -> let i := init_ino_entry_info nc cpus bps pay in
  ino_wf i /\ (forall t, 0 <= t < MAX_INO_ENTRY -> total_inos i t = 0) /\ (ino_mangement_num i).[ORPHAN_INO] = 0.
Proof.
  intros Hp i; assert (Hcount : 0 < inode_cache_count i) by (unfold i; cbn; destruct (Z.ltb_spec 0 nc); lia).
  assert (Htot : forall t, 0 <= t < MAX_INO_ENTRY -> total_inos i t = 0).
  { intros t Ht; unfold total_inos; rewrite (sum_below_ext _ (fun _ => 0)), sum_below_const; try lia.
    intros c Hc; unfold i in *; rewrite init_get by assumption; reflexivity. }
  split; [|split; [exact Htot|reflexivity]]; constructor; auto.
  - unfold i; cbn; unfold zlen; rewrite length_replicate; unfold i in Hcount; cbn in Hcount; lia.
  - intros c Hc; unfold i; cbn [im init_ino_entry_info]; rewrite aget_replicate by (unfold i in Hc; cbn in Hc; lia); reflexivity.
  - intros c t Hc Ht; unfold i in *; rewrite init_get by assumption; constructor.
  - intros c t x Hc Ht; unfold i in *; rewrite init_get by assumption; cbn; rewrite elem_of_empty, elem_of_nil; tauto.
  - intros c t x Hc Ht; unfold i in *; rewrite init_get by assumption; cbn; intros Hx; inversion Hx.
  - intros t Ht; rewrite Htot by (unfold APPEND_INO, UPDATE_INO, MAX_INO_ENTRY in *; lia).
    destruct Ht as [-> | ->]; reflexivity.
Qed.

Definition ino_ex0 : ino_info := init_ino_entry_info 2 4 512 0.
Definition ino_ex1 : ino_info := snd (acquire_orphan_inode (snd (acquire_orphan_inode ino_ex0))).
Definition ino_ex : ino_info := add_orphan_inode 8 (add_orphan_inode 7 ino_ex1).

Lemma ino_ex_run : ino_run (ino_ex0, 0) (ino_ex, 0).
Proof.
  apply (irun_step _ (add_orphan_inode 7 ino_ex1, 1)); [|apply (is_add (add_orphan_inode 7 ino_ex1) 1 8); [lia|vm_compute; reflexivity]].
  apply (irun_step _ (ino_ex1, 2)); [|apply (is_add ino_ex1 2 7); [lia|vm_compute; reflexivity]].
  apply (irun_step _ (snd (acquire_orphan_inode ino_ex0), 1));
    [|apply (is_acquire (snd (acquire_orphan_inode ino_ex0)) 1); vm_compute; reflexivity].
  apply (irun_step _ (ino_ex0, 0)); [apply irun_refl|apply (is_acquire ino_ex0 0); vm_compute; reflexivity].
Qed.


Lemma ino_ex_facts : ino_wf ino_ex /\ (ino_mangement_num ino_ex).[ORPHAN_INO] = total_inos ino_ex ORPHAN_INO.
Proof.
  destruct (ino_run_inv _ _ ino_ex_run) as [W _ N _ _].
  - constructor; cbn [fst snd]; [apply (init_ino_wf 2 4 512 0); lia|lia|vm_compute; reflexivity|vm_compute; congruence|reflexivity].
  - cbn [fst snd] in *; split; [exact W|lia].
Qed.

Lemma orphan_blocks_round_trip_witness :
  let '(bug, meta') := write_orphan_inodes (fun _ => zero_orphan_block) 513 ino_ex ∅ in
  bug = false /\
  recover_orphan_inodes true 513 (GET_ORPHAN_BLOCKS (total_inos ino_ex ORPHAN_INO)) meta' = orphans ino_ex.
Proof.
  apply (orphan_blocks_round_trip (fun _ => zero_orphan_block) 513 ino_ex ∅ (proj1 ino_ex_facts) (proj2 ino_ex_facts));
    vm_compute; congruence.
Defined.
