(* ===== verification/Ckpt.v ===== *)
(** The checkpoint pack (src/Max/checkpoint.c [do_checkpoint], src/Max/segment.c
    summaries): how the logs' positions, the journals and the segment summaries are
    written, and how [restore_curseg_summaries] finds them again at mount. *)

From Stdlib Require Import ZArith Lia Bool.
From stdpp Require Import base numbers list gmap.
From S2P Require Import Prelude Layout Bitops SmState FreeSegmap Sit DirtySeg Victim Curseg Discard SitFlush InoEntry.

#[local] Open Scope Z_scope.
#[local] Ltac Zify.zify_post_hook ::= Z.to_euclidean_division_equations.

(** * The checkpoint block *)

Record f2fs_checkpoint := mk_ckpt {
  checkpoint_ver : Z;
  ck_valid_block_count : Z;
  ck_free_segment_count : Z;
  cur_node_segno : list Z;
  cur_node_blkoff : list Z;
  cur_data_segno : list Z;
  cur_data_blkoff : list Z;
  ckpt_flags : Z;
  cp_pack_total_block_count : Z;
  cp_pack_start_sum : Z;
  ck_valid_node_count : Z;
  ck_valid_inode_count : Z;
  ck_next_free_nid : Z;
  ck_elapsed_time : Z;
  ck_alloc_type : list Z;
  ck_sit_bitmap : list Z;
  ck_nat_bitmap : list Z;
}.

Definition with_ckpt_flags (f : Z) (c : f2fs_checkpoint) : f2fs_checkpoint :=
  mk_ckpt (checkpoint_ver c) (ck_valid_block_count c) (ck_free_segment_count c) (cur_node_segno c)
    (cur_node_blkoff c) (cur_data_segno c) (cur_data_blkoff c) f (cp_pack_total_block_count c)
    (cp_pack_start_sum c) (ck_valid_node_count c) (ck_valid_inode_count c) (ck_next_free_nid c)
    (ck_elapsed_time c) (ck_alloc_type c) (ck_sit_bitmap c) (ck_nat_bitmap c).

Definition with_node_logs (segnos blkoffs types : list Z) (c : f2fs_checkpoint) : f2fs_checkpoint :=
  mk_ckpt (checkpoint_ver c) (ck_valid_block_count c) (ck_free_segment_count c) segnos blkoffs
    (cur_data_segno c) (cur_data_blkoff c) (ckpt_flags c) (cp_pack_total_block_count c)
    (cp_pack_start_sum c) (ck_valid_node_count c) (ck_valid_inode_count c) (ck_next_free_nid c)
    (ck_elapsed_time c) types (ck_sit_bitmap c) (ck_nat_bitmap c).

Definition with_data_logs (segnos blkoffs types : list Z) (c : f2fs_checkpoint) : f2fs_checkpoint :=
  mk_ckpt (checkpoint_ver c) (ck_valid_block_count c) (ck_free_segment_count c) (cur_node_segno c)
    (cur_node_blkoff c) segnos blkoffs (ckpt_flags c) (cp_pack_total_block_count c)
    (cp_pack_start_sum c) (ck_valid_node_count c) (ck_valid_inode_count c) (ck_next_free_nid c)
    (ck_elapsed_time c) types (ck_sit_bitmap c) (ck_nat_bitmap c).

Definition with_counts (elapsed valid free : Z) (c : f2fs_checkpoint) : f2fs_checkpoint :=
  mk_ckpt (checkpoint_ver c) valid free (cur_node_segno c)
    (cur_node_blkoff c) (cur_data_segno c) (cur_data_blkoff c) (ckpt_flags c) (cp_pack_total_block_count c)
    (cp_pack_start_sum c) (ck_valid_node_count c) (ck_valid_inode_count c) (ck_next_free_nid c)
    elapsed (ck_alloc_type c) (ck_sit_bitmap c) (ck_nat_bitmap c).

Definition with_nodes (nodes inodes next : Z) (c : f2fs_checkpoint) : f2fs_checkpoint :=
  mk_ckpt (checkpoint_ver c) (ck_valid_block_count c) (ck_free_segment_count c) (cur_node_segno c)
    (cur_node_blkoff c) (cur_data_segno c) (cur_data_blkoff c) (ckpt_flags c) (cp_pack_total_block_count c)
    (cp_pack_start_sum c) nodes inodes next (ck_elapsed_time c) (ck_alloc_type c) (ck_sit_bitmap c) (ck_nat_bitmap c).

Definition with_layout (total start_sum : Z) (c : f2fs_checkpoint) : f2fs_checkpoint :=
  mk_ckpt (checkpoint_ver c) (ck_valid_block_count c) (ck_free_segment_count c) (cur_node_segno c)
    (cur_node_blkoff c) (cur_data_segno c) (cur_data_blkoff c) (ckpt_flags c) total
    start_sum (ck_valid_node_count c) (ck_valid_inode_count c) (ck_next_free_nid c)
    (ck_elapsed_time c) (ck_alloc_type c) (ck_sit_bitmap c) (ck_nat_bitmap c).

Definition with_bitmaps (sit nat : list Z) (c : f2fs_checkpoint) : f2fs_checkpoint :=
  mk_ckpt (checkpoint_ver c) (ck_valid_block_count c) (ck_free_segment_count c) (cur_node_segno c)
    (cur_node_blkoff c) (cur_data_segno c) (cur_data_blkoff c) (ckpt_flags c) (cp_pack_total_block_count c)
    (cp_pack_start_sum c) (ck_valid_node_count c) (ck_valid_inode_count c) (ck_next_free_nid c)
    (ck_elapsed_time c) (ck_alloc_type c) sit nat.

Definition with_version (v : Z) (c : f2fs_checkpoint) : f2fs_checkpoint :=
  mk_ckpt v (ck_valid_block_count c) (ck_free_segment_count c) (cur_node_segno c)
    (cur_node_blkoff c) (cur_data_segno c) (cur_data_blkoff c) (ckpt_flags c) (cp_pack_total_block_count c)
    (cp_pack_start_sum c) (ck_valid_node_count c) (ck_valid_inode_count c) (ck_next_free_nid c)
    (ck_elapsed_time c) (ck_alloc_type c) (ck_sit_bitmap c) (ck_nat_bitmap c).

Definition is_set_ckpt_flags (c : f2fs_checkpoint) (f : Z) : bool := negb (Z.land (ckpt_flags c) f =? 0).
Definition set_ckpt_flags (c : f2fs_checkpoint) (f : Z) : f2fs_checkpoint := with_ckpt_flags (Z.lor (ckpt_flags c) f) c.
Definition clear_ckpt_flags (c : f2fs_checkpoint) (f : Z) : f2fs_checkpoint :=
  with_ckpt_flags (Z.ldiff (ckpt_flags c) f) c.

Definition cur_cp_version (c : f2fs_checkpoint) : Z := checkpoint_ver c.

Definition __remain_node_summaries (reason : Z) : bool := (reason =? CP_UMOUNT) || (reason =? CP_FASTBOOT).

Definition __exist_node_summaries (c : f2fs_checkpoint) : bool :=
  is_set_ckpt_flags c CP_UMOUNT_FLAG || is_set_ckpt_flags c CP_FASTBOOT_FLAG.

(** The raw superblock's fields. *)
Record raw_super := mk_super {
  cp_blkaddr : Z;
  cp_payload : Z;
}.

Definition __cp_payload (rs : raw_super) : Z := cp_payload rs.

(** Odd versions at the first CP segment, even ones at the second. *)
Definition __start_cp_addr (g : geometry) (rs : raw_super) (c : f2fs_checkpoint) : Z :=
  if Z.land (cur_cp_version c) 1 =? 0 then u32 (cp_blkaddr rs + blocks_per_seg g) else cp_blkaddr rs.

Definition start_sum_block (g : geometry) (rs : raw_super) (c : f2fs_checkpoint) (blk_off : Z) : Z :=
  u32 (__start_cp_addr g rs c + cp_pack_start_sum c + blk_off).

Definition sum_blk_addr (g : geometry) (rs : raw_super) (c : f2fs_checkpoint) (base type : Z) : Z :=
  u32 (__start_cp_addr g rs c + cp_pack_total_block_count c - (base + 1) + type).

(** * Meta pages *)

(** The journal area of a summary block: the counter and the two views of the union. *)
Record sum_journal := mk_journal {
  jr_n : Z;
  jr_nat : list nat_journal_entry;
  jr_sit : list sit_journal_entry;
}.

Definition journal_of (s : f2fs_summary_block) : sum_journal := mk_journal (sb_n_jnl s) (sb_nat_j s) (sb_sit_j s).

Definition with_journal (j : sum_journal) (s : f2fs_summary_block) : f2fs_summary_block :=
  mk_sum_block (sb_entries s) (jr_n j) (jr_nat j) (jr_sit j) (sb_entry_type s).

#[export] Instance sum_journal_inhabited : Inhabited sum_journal := populate (mk_journal 0 [] []).

(** A page of compacted summaries: the journals at offsets 0 and [SUM_JOURNAL_SIZE] of the
    first page, and summary entries by their byte offset. *)
Record compact_page := mk_compact {
  cp_nat : sum_journal;
  cp_sit : sum_journal;
  cp_sums : gmap Z f2fs_summary;
}.

#[export] Instance compact_page_inhabited : Inhabited compact_page :=
  populate (mk_compact inhabitant inhabitant ∅).

(** The contents of the pages of a checkpoint pack. *)
Inductive meta_block :=
| MCkpt (c : f2fs_checkpoint)
| MPayload (c : f2fs_checkpoint) (i : Z)
| MOrphan (b : f2fs_orphan_block)
| MSum (s : f2fs_summary_block)
| MCompact (p : compact_page).

Abbreviation meta := (gmap Z meta_block).

Definition get_sum (m : meta) (a : Z) : f2fs_summary_block :=
  match m !! a with Some (MSum s) => s | _ => inhabitant end.

Definition get_compact (m : meta) (a : Z) : compact_page :=
  match m !! a with Some (MCompact p) => p | _ => inhabitant end.

Definition update_meta_page (b : meta_block) (a : Z) (m : meta) : meta := <[a := b]> m.

(** * Writing summaries *)

Definition npages_for_summary_flush (sbi : f2fs_sb_info) (c : f2fs_checkpoint) (for_ra : bool) : Z :=
  let valid_sum_count :=
    for_range CURSEG_HOT_DATA (CURSEG_COLD_DATA + 1) (fun i n =>
      if (ck_alloc_type c).[i] =? SSR then n + blocks_per_seg (geo sbi)
      else n + (if for_ra then (cur_data_blkoff c).[i] else curseg_blkoff sbi i)) 0 in
  let sum_in_page := (PAGE_CACHE_SIZE - 2 * SUM_JOURNAL_SIZE - SUM_FOOTER_SIZE) / SUMMARY_SIZE in
  if valid_sum_count <=? sum_in_page then 1
  else if valid_sum_count - sum_in_page <=? (PAGE_CACHE_SIZE - SUM_FOOTER_SIZE) / SUMMARY_SIZE then 2
  else 3.

(** The variables of [write_compacted_summaries]. *)
Record compact_writer := mk_cw {
  cw_meta : meta;
  cw_blkaddr : Z;
  cw_page : option Z;
  cw_written : Z;
}.

Definition put_summary (a off : Z) (s : f2fs_summary) (m : meta) : meta :=
  let p := get_compact m a in
  <[a := MCompact (mk_compact (cp_nat p) (cp_sit p) (<[off := s]> (cp_sums p)))]> m.

Definition write_compact_entry (s : f2fs_summary) (w : compact_writer) : compact_writer :=
  let w := match cw_page w with
           | Some _ => w
           | None => mk_cw (cw_meta w) (u32 (cw_blkaddr w + 1)) (Some (cw_blkaddr w)) 0
           end in
  match cw_page w with
  | None => w
  | Some p =>
      let m := put_summary p (cw_written w) s (cw_meta w) in
      let written := cw_written w + SUMMARY_SIZE in
      mk_cw m (cw_blkaddr w)
        (if written + SUMMARY_SIZE <=? PAGE_CACHE_SIZE - SUM_FOOTER_SIZE then Some p else None) written
  end.

(** The entries of log [i] that are written. *)
Definition compact_blkoff (sbi : f2fs_sb_info) (c : f2fs_checkpoint) (i : Z) : Z :=
  if (ck_alloc_type c).[i] =? SSR then blocks_per_seg (geo sbi) else curseg_blkoff sbi i.

Definition write_compacted_summaries (sbi : f2fs_sb_info) (c : f2fs_checkpoint) (blkaddr : Z) (m : meta) : meta :=
  let p := get_compact m blkaddr in
  let nat := journal_of (sum_blk (CURSEG_I sbi CURSEG_HOT_DATA)) in
  let sit := journal_of (sum_blk (CURSEG_I sbi CURSEG_COLD_DATA)) in
  let m := <[blkaddr := MCompact (mk_compact nat sit (cp_sums p))]> m in
  cw_meta (for_range CURSEG_HOT_DATA (CURSEG_COLD_DATA + 1) (fun i w =>
    for_range 0 (compact_blkoff sbi c i) (fun j w =>
      write_compact_entry ((sb_entries (sum_blk (CURSEG_I sbi i))).[j]) w) w)
    (mk_cw m (u32 (blkaddr + 1)) (Some blkaddr) (2 * SUM_JOURNAL_SIZE))).

(** [mlog] is 0 in [write_normal_summaries]. *)
Definition write_normal_summaries_mlog (sbi : f2fs_sb_info) (blkaddr type mlog : Z) (m : meta) : meta :=
  let fin := if IS_DATASEG type then type + NR_CURSEG_DATA_TYPE else type + NR_CURSEG_NODE_TYPE in
  for_range type fin (fun i m =>
    update_meta_page (MSum (sum_blk (CURSEG_I sbi (log_of i mlog)))) (u32 (blkaddr + (i - type))) m) m.

Definition write_normal_summaries (sbi : f2fs_sb_info) (blkaddr type : Z) (m : meta) : meta :=
  write_normal_summaries_mlog sbi blkaddr type 0 m.

Definition write_data_summaries (sbi : f2fs_sb_info) (c : f2fs_checkpoint) (start_blk : Z) (m : meta) : meta :=
  if is_set_ckpt_flags c CP_COMPACT_SUM_FLAG then write_compacted_summaries sbi c start_blk m
  else write_normal_summaries sbi start_blk CURSEG_HOT_DATA m.

Definition write_node_summaries (sbi : f2fs_sb_info) (start_blk : Z) (m : meta) : meta :=
  write_normal_summaries sbi start_blk CURSEG_HOT_NODE m.

(** * Writing the pack *)

(** The positions of the logs. *)
Definition save_node_log (sbi : f2fs_sb_info) (i j : Z) (c : f2fs_checkpoint) : f2fs_checkpoint :=
  let k := i + CURSEG_HOT_NODE + j * NR_CURSEG_TYPE in
  let x := i + j * NR_CURSEG_NODE_TYPE in
  with_node_logs ((cur_node_segno c).[x <- curseg_segno sbi k]) ((cur_node_blkoff c).[x <- curseg_blkoff sbi k])
    ((ck_alloc_type c).[k <- u8 (curseg_alloc_type sbi k)]) c.

Definition save_data_log (sbi : f2fs_sb_info) (i j : Z) (c : f2fs_checkpoint) : f2fs_checkpoint :=
  let k := i + CURSEG_HOT_DATA + j * NR_CURSEG_TYPE in
  let x := i + j * NR_CURSEG_DATA_TYPE in
  with_data_logs ((cur_data_segno c).[x <- curseg_segno sbi k]) ((cur_data_blkoff c).[x <- curseg_blkoff sbi k])
    ((ck_alloc_type c).[k <- u8 (curseg_alloc_type sbi k)]) c.

Definition save_logs (sbi : f2fs_sb_info) (c : f2fs_checkpoint) : f2fs_checkpoint :=
  let n := nr_mlog (geo sbi) in
  let c := for_range 0 NR_CURSEG_NODE_TYPE (fun i c => for_range 0 n (save_node_log sbi i) c) c in
  for_range 0 NR_CURSEG_DATA_TYPE (fun i c => for_range 0 n (save_data_log sbi i) c) c.

Definition set_flag_if (b : bool) (f : Z) (c : f2fs_checkpoint) : f2fs_checkpoint :=
  if b then set_ckpt_flags c f else clear_ckpt_flags c f.

(** What [do_checkpoint] reads from the other parts of the file system. *)
Record cp_inputs := mk_cpi {
  in_mtime : Z;
  in_valid_blocks : Z;
  in_valid_nodes : Z;
  in_valid_inodes : Z;
  in_next_nid : Z;
  in_nat_bitmap : list Z;
  in_ino : ino_info;
}.

Definition orphan_num (x : cp_inputs) : Z := Z.max 0 ((ino_mangement_num (in_ino x)).[ORPHAN_INO]).

(** The checkpoint block, up to the checksum. *)
Definition fill_checkpoint (rs : raw_super) (sbi : f2fs_sb_info) (x : cp_inputs) (reason : Z)
  (c : f2fs_checkpoint) : f2fs_checkpoint :=
  let c := with_counts (in_mtime x) (in_valid_blocks x) (free_segments sbi) c in
  let c := save_logs sbi c in
  let c := with_nodes (in_valid_nodes x) (in_valid_inodes x) (in_next_nid x) c in
  let data_sum_blocks := npages_for_summary_flush sbi c false in
  let c := set_flag_if (data_sum_blocks <? NR_CURSEG_DATA_TYPE) CP_COMPACT_SUM_FLAG c in
  let orphan_blocks := u32 (GET_ORPHAN_BLOCKS (orphan_num x)) in
  let extra := if __remain_node_summaries reason
               then NR_CURSEG_NODE_TYPE + NR_CURSEG_TYPE * (nr_mlog (geo sbi) - 1)
               else NR_CURSEG_DATA_TYPE * (nr_mlog (geo sbi) - 1) in
  let c := with_layout (u32 (F2FS_CP_PACKS + __cp_payload rs + data_sum_blocks + orphan_blocks + extra))
             (u32 (1 + __cp_payload rs + orphan_blocks)) c in
  let c := set_flag_if (reason =? CP_UMOUNT) CP_UMOUNT_FLAG c in
  let c := set_flag_if (reason =? CP_FASTBOOT) CP_FASTBOOT_FLAG c in
  let c := set_flag_if (negb (orphan_num x =? 0)) CP_ORPHAN_PRESENT_FLAG c in
  let c := if is_sbi_flag_set sbi SBI_NEED_FSCK then set_ckpt_flags c CP_FSCK_FLAG else c in
  with_bitmaps (sit_bitmap (sit_i sbi)) (in_nat_bitmap x) c.

(** The pages of the pack, from [__start_cp_addr] on; the result is the address of the
    closing checkpoint block. *)
Definition write_pack (rs : raw_super) (sbi : f2fs_sb_info) (x : cp_inputs) (reason : Z)
  (c : f2fs_checkpoint) (m : meta) : Z * meta :=
  let orphan_blocks := u32 (GET_ORPHAN_BLOCKS (orphan_num x)) in
  let data_sum_blocks := npages_for_summary_flush sbi c false in
  let start_blk := __start_cp_addr (geo sbi) rs c in
  let m := update_meta_page (MCkpt c) start_blk m in
  let start_blk := u32 (start_blk + 1) in
  let '(start_blk, m) :=
    for_range 1 (1 + __cp_payload rs) (fun i '(a, m) => (u32 (a + 1), update_meta_page (MPayload c i) a m)) (start_blk, m) in
  let '(start_blk, m) :=
    if negb (orphan_num x =? 0)
    then (u32 (start_blk + orphan_blocks),
          (MOrphan <$> snd (write_orphan_inodes (fun _ => zero_orphan_block) start_blk (in_ino x) ∅)) ∪ m)
    else (start_blk, m) in
  let m := write_data_summaries sbi c start_blk m in
  let start_blk := u32 (start_blk + data_sum_blocks) in
  let remain := __remain_node_summaries reason in
  let '(start_blk, m) :=
    if remain then (u32 (start_blk + NR_CURSEG_NODE_TYPE), write_node_summaries sbi start_blk m) else (start_blk, m) in
  let '(start_blk, m) :=
    for_range 1 (nr_mlog (geo sbi)) (fun i '(a, m) =>
      let m := write_normal_summaries_mlog sbi a CURSEG_HOT_DATA i m in
      let a := u32 (a + NR_CURSEG_DATA_TYPE) in
      if remain then (u32 (a + NR_CURSEG_NODE_TYPE), write_normal_summaries_mlog sbi a CURSEG_HOT_NODE i m)
      else (a, m)) (start_blk, m) in
  (start_blk, update_meta_page (MCkpt c) start_blk m).

(** * Reading summaries back *)

(** [node_nid a] is the node id in the footer of the node block at [a]. *)
Definition restore_node_summary (node_nid : Z -> Z) (g : geometry) (segno : Z) (sum : f2fs_summary_block) :
  f2fs_summary_block :=
  let addr := START_BLOCK g segno in
  with_sb_entries (for_range 0 (blocks_per_seg g)
    (fun i l => l.[i <- mk_summary (node_nid (u32 (addr + i))) 0 0]) (sb_entries sum)) sum.

(** The variables of [read_compacted_summaries]. *)
Record compact_reader := mk_cr {
  cr_sbi : f2fs_sb_info;
  cr_page : Z;
  cr_start : Z;
  cr_offset : Z;
}.

Definition read_compact_entry (m : meta) (i j : Z) (r : compact_reader) : compact_reader :=
  let s := default inhabitant (cp_sums (get_compact m (cr_page r)) !! cr_offset r) in
  let sbi := cr_sbi r in
  let seg_i := CURSEG_I sbi i in
  let sbi := set_curseg i (with_sum_blk
    (with_sb_entries ((sb_entries (sum_blk seg_i)).[j <- s]) (sum_blk seg_i)) seg_i) sbi in
  let offset := cr_offset r + SUMMARY_SIZE in
  if offset + SUMMARY_SIZE <=? PAGE_CACHE_SIZE - SUM_FOOTER_SIZE then mk_cr sbi (cr_page r) (cr_start r) offset
  else mk_cr sbi (cr_start r) (u32 (cr_start r + 1)) 0.

Definition set_journal (k : Z) (j : sum_journal) (sbi : f2fs_sb_info) : f2fs_sb_info :=
  let seg_i := CURSEG_I sbi k in
  set_curseg k (with_sum_blk (with_journal j (sum_blk seg_i)) seg_i) sbi.

(** One log: its position, then its entries. *)
Definition read_compact_log (m : meta) (c : f2fs_checkpoint) (i : Z) (r : compact_reader) : compact_reader :=
  let segno := (cur_data_segno c).[i] in
  let blk_off := (cur_data_blkoff c).[i] in
  let sbi := cr_sbi r in
  let sbi := set_curseg i (with_next_segno segno (CURSEG_I sbi i)) sbi in
  let sbi := reset_curseg_mlog i 0 false sbi in
  let sbi := set_curseg i (with_next_blkoff blk_off (with_alloc_type ((ck_alloc_type c).[i]) (CURSEG_I sbi i))) sbi in
  let blk_off := if (ck_alloc_type c).[i] =? SSR then blocks_per_seg (geo sbi) else blk_off in
  for_range 0 blk_off (read_compact_entry m i) (mk_cr sbi (cr_page r) (cr_start r) (cr_offset r)).

Definition read_compacted_summaries (rs : raw_super) (c : f2fs_checkpoint) (m : meta) (sbi : f2fs_sb_info) :
  f2fs_sb_info :=
  let start := start_sum_block (geo sbi) rs c 0 in
  let p := get_compact m start in
  let sbi := set_journal CURSEG_HOT_DATA (cp_nat p) sbi in
  let sbi := set_journal CURSEG_COLD_DATA (cp_sit p) sbi in
  cr_sbi (for_range CURSEG_HOT_DATA (CURSEG_COLD_DATA + 1) (read_compact_log m c)
            (mk_cr sbi start (u32 (start + 1)) (2 * SUM_JOURNAL_SIZE))).

Definition clear_node_entries (g : geometry) (sum : f2fs_summary_block) : f2fs_summary_block :=
  with_sb_entries (for_range 0 (blocks_per_seg g)
    (fun i l => l.[i <- mk_summary (sm_nid (l.[i])) 0 0]) (sb_entries sum)) sum.

Definition read_normal_summaries (node_nid : Z -> Z) (rs : raw_super) (c : f2fs_checkpoint) (m : meta)
  (type mlog : Z) (sbi : f2fs_sb_info) : f2fs_sb_info :=
  let g := geo sbi in
  let n := nr_mlog g in
  let exist := __exist_node_summaries c in
  let '(segno, blk_off, sum) :=
    if IS_DATASEG type then
      let x := NR_CURSEG_DATA_TYPE * mlog + type in
      ((cur_data_segno c).[x], (cur_data_blkoff c).[x],
       get_sum m (if exist then sum_blk_addr g rs c (NR_CURSEG_TYPE * (n - mlog)) type
                  else sum_blk_addr g rs c (NR_CURSEG_DATA_TYPE * (n - mlog)) type))
    else
      let x := NR_CURSEG_NODE_TYPE * mlog + type - CURSEG_HOT_NODE in
      let segno := (cur_node_segno c).[x] in
      (segno, (cur_node_blkoff c).[x],
       if exist then get_sum m (sum_blk_addr g rs c (NR_CURSEG_NODE_TYPE + NR_CURSEG_TYPE * (n - mlog - 1))
                                             (type - CURSEG_HOT_NODE))
       else get_sum_page sbi segno) in
  let sum := if IS_NODESEG type
             then if exist then clear_node_entries g sum else restore_node_summary node_nid g segno sum
             else sum in
  let k := log_of type mlog in
  let sbi := set_curseg k (with_next_segno segno (with_sum_blk sum (CURSEG_I sbi k))) sbi in
  let sbi := reset_curseg_mlog type mlog false sbi in
  set_curseg k (with_next_blkoff blk_off (with_alloc_type ((ck_alloc_type c).[type]) (CURSEG_I sbi k))) sbi.

Definition restore_curseg_summaries (node_nid : Z -> Z) (rs : raw_super) (c : f2fs_checkpoint) (m : meta)
  (sbi : f2fs_sb_info) : f2fs_sb_info :=
  let compact := is_set_ckpt_flags c CP_COMPACT_SUM_FLAG in
  let sbi := if compact then read_compacted_summaries rs c m sbi else sbi in
  let type := if compact then CURSEG_HOT_NODE else CURSEG_HOT_DATA in
  let sbi := for_range type (CURSEG_COLD_NODE + 1) (fun t => read_normal_summaries node_nid rs c m t 0) sbi in
  for_range 1 (nr_mlog (geo sbi)) (fun i sbi =>
    for_range CURSEG_HOT_DATA (CURSEG_COLD_NODE + 1) (fun t => read_normal_summaries node_nid rs c m t i) sbi) sbi.

(** The array of logs; a failed allocation is not modelled. *)
Definition build_curseg (node_nid : Z -> Z) (rs : raw_super) (c : f2fs_checkpoint) (m : meta)
  (sbi : f2fs_sb_info) : f2fs_sb_info :=
  let array := replicate (Z.to_nat (NR_CURSEG_TYPE * nr_mlog (geo sbi)))
                 (mk_curseg inhabitant 0 NULL_SEGNO 0 0 0) in
  restore_curseg_summaries node_nid rs c m (with_curseg_array array sbi).
