(* ===== verification/CkptRound.v ===== *)
(** The checkpoint pack round-trips: what [do_checkpoint] stores of the logs is what
    [build_curseg] restores (src/Max/checkpoint.c, src/Max/segment.c). *)

From Stdlib Require Import ZArith Lia Bool.
From stdpp Require Import base numbers list gmap.
From S2P Require Import Prelude Layout Bitops SmState FreeSegmap Sit DirtySeg Victim Curseg SegMgr Alloc Discard SitFlush InoEntry Ckpt.

#[local] Open Scope Z_scope.
#[local] Ltac Zify.zify_post_hook ::= Z.to_euclidean_division_equations.

(** * The positions of the logs *)

(** The arrays of the checkpoint block have their declared sizes. *)
Record ckpt_wf (c : f2fs_checkpoint) : Prop := {
  kw_nseg : zlen (cur_node_segno c) = 8 + MAX_EXTEND_LOGS * 3;
  kw_nblk : zlen (cur_node_blkoff c) = 8 + MAX_EXTEND_LOGS * 3;
  kw_dseg : zlen (cur_data_segno c) = 8 + MAX_EXTEND_LOGS * 3;
  kw_dblk : zlen (cur_data_blkoff c) = 8 + MAX_EXTEND_LOGS * 3;
  kw_type : zlen (ck_alloc_type c) = 16 + MAX_EXTEND_LOGS * 6;
}.

(** Two nested loops that store [v i j] at [x i j]. *)
Lemma nested_store (l : list Z) (x v : Z -> Z -> Z) a n :
  0 <= a -> 0 <= n ->
  (forall i j, 0 <= i < a -> 0 <= j < n -> 0 <= x i j < zlen l) ->
  (forall i j i' j', 0 <= i < a -> 0 <= j < n -> 0 <= i' < a -> 0 <= j' < n -> x i j = x i' j' -> i = i' /\ j = j') ->
  let l' := for_range 0 a (fun i l => for_range 0 n (fun j l => l.[x i j <- v i j]) l) l in
  zlen l' = zlen l /\
  (forall i j, 0 <= i < a -> 0 <= j < n -> l'.[x i j] = v i j) /\
  (forall k, (forall i j, 0 <= i < a -> 0 <= j < n -> x i j <> k) -> l'.[k] = l.[k]).
Proof.
  intros Ha Hn Hr Hinj; cbv zeta.
  assert (Hin : forall i t, 0 <= i < a -> zlen t = zlen l ->
    let t' := for_range 0 n (fun j l => l.[x i j <- v i j]) t in
    zlen t' = zlen l /\ (forall j, 0 <= j < n -> t'.[x i j] = v i j) /\
    (forall k, (forall j, 0 <= j < n -> x i j <> k) -> t'.[k] = t.[k])).
  { intros i t Hi Ht; cbv zeta; cut (zlen (for_range 0 n (fun j l => l.[x i j <- v i j]) t) = zlen l /\
      (forall j, 0 <= j < n -> (for_range 0 n (fun j l => l.[x i j <- v i j]) t).[x i j] = v i j) /\
      (forall k, (forall j, 0 <= j < n -> x i j <> k) -> (for_range 0 n (fun j l => l.[x i j <- v i j]) t).[k] = t.[k]));
      [auto|].
    apply (for_range_ind (fun m u => zlen u = zlen l /\ (forall j, 0 <= j < m -> u.[x i j] = v i j) /\
      (forall k, (forall j, 0 <= j < m -> x i j <> k) -> u.[k] = t.[k]))); [lia|split; [exact Ht|split; [intros; lia|auto]]|].
    intros m u Hm (U1 & U2 & U3); split; [rewrite zlen_aset; exact U1|split].
    - intros j Hj; rewrite aget_aset by (rewrite U1; apply Hr; lia).
      destruct (Z.eqb_spec (x i m) (x i j)) as [E|E].
      + destruct (Hinj i m i j) as [_ ->]; auto; lia.
      + apply U2; destruct (Z.eq_dec j m) as [->|]; [congruence|lia].
    - intros k Hk; rewrite aget_aset_ne by (apply Hk; lia); apply U3; intros j Hj; apply Hk; lia. }
  apply (for_range_ind (fun b t => zlen t = zlen l /\
    (forall i j, 0 <= i < b -> 0 <= j < n -> t.[x i j] = v i j) /\
    (forall k, (forall i j, 0 <= i < b -> 0 <= j < n -> x i j <> k) -> t.[k] = l.[k]))); [lia|split; [reflexivity|split; [intros; lia|auto]]|].
  intros b t Hb (T1 & T2 & T3); destruct (Hin b t Hb T1) as (U1 & U2 & U3); split; [exact U1|split].
  - intros i j Hi Hj; destruct (Z.eq_dec i b) as [->|Hne]; [apply U2; exact Hj|].
    rewrite U3, T2; auto; [lia|]; intros j' Hj' E; destruct (Hinj b j' i j) as [E2 _]; auto; lia.
  - intros k Hk; rewrite U3 by (intros j Hj; apply Hk; lia); apply T3; intros i j Hi Hj; apply Hk; lia.
Qed.

Lemma for_range_hom {S T} (h : T -> S) (f : Z -> S -> S) (f' : Z -> T -> T) lo hi t :
  (forall i u, f i (h u) = h (f' i u)) -> for_range lo hi f (h t) = h (for_range lo hi f' t).
Proof.
  intros H; unfold for_range; generalize (zseq lo (Z.to_nat (hi - lo))) as l; intros l; revert t.
  induction l as [|i l IH]; intros t; cbn; [reflexivity|rewrite H; apply IH].
Qed.

Lemma for_range_triple {A B C} (fa : Z -> A -> A) (fb : Z -> B -> B) (fc : Z -> C -> C) lo hi a b c :
  for_range lo hi (fun i '(a, b, c) => (fa i a, fb i b, fc i c)) (a, b, c)
  = (for_range lo hi fa a, for_range lo hi fb b, for_range lo hi fc c).
Proof.
  unfold for_range; generalize (zseq lo (Z.to_nat (hi - lo))) as l; intros l; revert a b c.
  induction l as [|i l IH]; intros a b c; cbn; [reflexivity|apply IH].
Qed.

(** The three arrays a kind of log is stored in. *)
Definition store_logs (base per : Z) (sbi : f2fs_sb_info) (n : Z) (l : list Z * list Z * list Z) : list Z * list Z * list Z :=
  let '(s, b, t) := l in
  let k i j := i + base + j * NR_CURSEG_TYPE in
  (for_range 0 per (fun i l => for_range 0 n (fun j l => l.[i + j * per <- curseg_segno sbi (k i j)]) l) s,
   for_range 0 per (fun i l => for_range 0 n (fun j l => l.[i + j * per <- curseg_blkoff sbi (k i j)]) l) b,
   for_range 0 per (fun i l => for_range 0 n (fun j l => l.[k i j <- u8 (curseg_alloc_type sbi (k i j))]) l) t).

Lemma save_nodes_eq sbi n s b t c :
  for_range 0 NR_CURSEG_NODE_TYPE (fun i c => for_range 0 n (save_node_log sbi i) c) (with_node_logs s b t c)
  = let '(s, b, t) := store_logs CURSEG_HOT_NODE NR_CURSEG_NODE_TYPE sbi n (s, b, t) in with_node_logs s b t c.
Proof.
  rewrite (for_range_hom (fun '(s, b, t) => with_node_logs s b t c) _
    (fun i '(s, b, t) =>
      (for_range 0 n (fun j l => l.[i + j * NR_CURSEG_NODE_TYPE <- curseg_segno sbi (i + CURSEG_HOT_NODE + j * NR_CURSEG_TYPE)]) s,
       for_range 0 n (fun j l => l.[i + j * NR_CURSEG_NODE_TYPE <- curseg_blkoff sbi (i + CURSEG_HOT_NODE + j * NR_CURSEG_TYPE)]) b,
       for_range 0 n (fun j l => l.[i + CURSEG_HOT_NODE + j * NR_CURSEG_TYPE <- u8 (curseg_alloc_type sbi (i + CURSEG_HOT_NODE + j * NR_CURSEG_TYPE))]) t))
    0 NR_CURSEG_NODE_TYPE (s, b, t)); [rewrite for_range_triple; reflexivity|].
  intros i [[s1 b1] t1].
  rewrite (for_range_hom (fun '(s, b, t) => with_node_logs s b t c) (save_node_log sbi i)
    (fun j '(s, b, t) => (s.[i + j * NR_CURSEG_NODE_TYPE <- curseg_segno sbi (i + CURSEG_HOT_NODE + j * NR_CURSEG_TYPE)],
       b.[i + j * NR_CURSEG_NODE_TYPE <- curseg_blkoff sbi (i + CURSEG_HOT_NODE + j * NR_CURSEG_TYPE)],
       t.[i + CURSEG_HOT_NODE + j * NR_CURSEG_TYPE <- u8 (curseg_alloc_type sbi (i + CURSEG_HOT_NODE + j * NR_CURSEG_TYPE))]))
    0 n (s1, b1, t1)); [rewrite for_range_triple; reflexivity|].
  intros j [[s2 b2] t2]; reflexivity.
Qed.

Lemma save_datas_eq sbi n s b t c :
  for_range 0 NR_CURSEG_DATA_TYPE (fun i c => for_range 0 n (save_data_log sbi i) c) (with_data_logs s b t c)
  = let '(s, b, t) := store_logs CURSEG_HOT_DATA NR_CURSEG_DATA_TYPE sbi n (s, b, t) in with_data_logs s b t c.
Proof.
  rewrite (for_range_hom (fun '(s, b, t) => with_data_logs s b t c) _
    (fun i '(s, b, t) =>
      (for_range 0 n (fun j l => l.[i + j * NR_CURSEG_DATA_TYPE <- curseg_segno sbi (i + CURSEG_HOT_DATA + j * NR_CURSEG_TYPE)]) s,
       for_range 0 n (fun j l => l.[i + j * NR_CURSEG_DATA_TYPE <- curseg_blkoff sbi (i + CURSEG_HOT_DATA + j * NR_CURSEG_TYPE)]) b,
       for_range 0 n (fun j l => l.[i + CURSEG_HOT_DATA + j * NR_CURSEG_TYPE <- u8 (curseg_alloc_type sbi (i + CURSEG_HOT_DATA + j * NR_CURSEG_TYPE))]) t))
    0 NR_CURSEG_DATA_TYPE (s, b, t)); [rewrite for_range_triple; reflexivity|].
  intros i [[s1 b1] t1].
  rewrite (for_range_hom (fun '(s, b, t) => with_data_logs s b t c) (save_data_log sbi i)
    (fun j '(s, b, t) => (s.[i + j * NR_CURSEG_DATA_TYPE <- curseg_segno sbi (i + CURSEG_HOT_DATA + j * NR_CURSEG_TYPE)],
       b.[i + j * NR_CURSEG_DATA_TYPE <- curseg_blkoff sbi (i + CURSEG_HOT_DATA + j * NR_CURSEG_TYPE)],
       t.[i + CURSEG_HOT_DATA + j * NR_CURSEG_TYPE <- u8 (curseg_alloc_type sbi (i + CURSEG_HOT_DATA + j * NR_CURSEG_TYPE))]))
    0 n (s1, b1, t1)); [rewrite for_range_triple; reflexivity|].
  intros j [[s2 b2] t2]; reflexivity.
Qed.

(** What a kind's arrays hold afterwards. *)
Lemma store_logs_ok base sbi n s b t :
  base = 0 \/ base = 3 -> 0 < n <= MAX_EXTEND_LOGS + 1 ->
  zlen s = 8 + MAX_EXTEND_LOGS * 3 -> zlen b = 8 + MAX_EXTEND_LOGS * 3 -> zlen t = 16 + MAX_EXTEND_LOGS * 6 ->
  let '(s', b', t') := store_logs base 3 sbi n (s, b, t) in
  zlen s' = zlen s /\ zlen b' = zlen b /\ zlen t' = zlen t /\
  (forall i j, 0 <= i < 3 -> 0 <= j < n ->
     s'.[i + j * 3] = curseg_segno sbi (i + base + j * 6) /\ b'.[i + j * 3] = curseg_blkoff sbi (i + base + j * 6) /\
     t'.[i + base + j * 6] = u8 (curseg_alloc_type sbi (i + base + j * 6))) /\
  (forall k, (forall i j, 0 <= i < 3 -> 0 <= j < n -> i + base + j * 6 <> k) -> t'.[k] = t.[k]).
Proof.
  change MAX_EXTEND_LOGS with 63; intros Hb Hn L1 L2 L3; unfold store_logs; change NR_CURSEG_TYPE with 6.
  destruct (nested_store s (fun i j => i + j * 3) (fun i j => curseg_segno sbi (i + base + j * 6)) 3 n) as (S1 & S2 & _); try lia; try (intros; lia).
  destruct (nested_store b (fun i j => i + j * 3) (fun i j => curseg_blkoff sbi (i + base + j * 6)) 3 n) as (B1 & B2 & _); try lia; try (intros; lia).
  destruct (nested_store t (fun i j => i + base + j * 6) (fun i j => u8 (curseg_alloc_type sbi (i + base + j * 6))) 3 n) as (T1 & T2 & T3); try lia; try (intros; lia).
  split; [exact S1|split; [exact B1|split; [exact T1|split; [|exact T3]]]].
  intros i j Hi Hj; split; [apply S2; assumption|split; [apply B2; assumption|apply T2; assumption]].
Qed.

Record saved (sbi : f2fs_sb_info) (c : f2fs_checkpoint) : Prop := {
  sv_wf : ckpt_wf c;
  sv_node : forall i j, 0 <= i < 3 -> 0 <= j < nr_mlog (geo sbi) ->
    (cur_node_segno c).[i + j * 3] = curseg_segno sbi (i + 3 + j * 6) /\
    (cur_node_blkoff c).[i + j * 3] = curseg_blkoff sbi (i + 3 + j * 6);
  sv_data : forall i j, 0 <= i < 3 -> 0 <= j < nr_mlog (geo sbi) ->
    (cur_data_segno c).[i + j * 3] = curseg_segno sbi (i + j * 6) /\
    (cur_data_blkoff c).[i + j * 3] = curseg_blkoff sbi (i + j * 6);
  sv_type : forall k, 0 <= k < 6 * nr_mlog (geo sbi) -> (ck_alloc_type c).[k] = u8 (curseg_alloc_type sbi k);
}.

Lemma save_logs_ok sbi c :
  ckpt_wf c -> 0 < nr_mlog (geo sbi) <= MAX_EXTEND_LOGS + 1 -> saved sbi (save_logs sbi c).
Proof.
  intros [W1 W2 W3 W4 W5] Hn; unfold save_logs; cbv zeta; set (n := nr_mlog (geo sbi)) in *.
  pose proof (save_nodes_eq sbi n (cur_node_segno c) (cur_node_blkoff c) (ck_alloc_type c) c) as E1.
  replace (with_node_logs (cur_node_segno c) (cur_node_blkoff c) (ck_alloc_type c) c) with c in E1 by (destruct c; reflexivity).
  rewrite E1; clear E1.
  pose proof (store_logs_ok 3 sbi n _ _ _ (or_intror eq_refl) Hn W1 W2 W5) as N.
  change (store_logs CURSEG_HOT_NODE NR_CURSEG_NODE_TYPE) with (store_logs 3 3).
  destruct (store_logs 3 3 sbi n _) as [[s1 b1] t1]; destruct N as (N1 & N2 & N3 & N4 & N5).
  set (c1 := with_node_logs s1 b1 t1 c).
  pose proof (save_datas_eq sbi n (cur_data_segno c1) (cur_data_blkoff c1) (ck_alloc_type c1) c1) as E2.
  replace (with_data_logs (cur_data_segno c1) (cur_data_blkoff c1) (ck_alloc_type c1) c1) with c1 in E2 by reflexivity.
  rewrite E2; clear E2; change (ck_alloc_type c1) with t1.
  change (cur_data_segno c1) with (cur_data_segno c); change (cur_data_blkoff c1) with (cur_data_blkoff c).
  pose proof (store_logs_ok 0 sbi n _ _ _ (or_introl eq_refl) Hn W3 W4 ltac:(rewrite N3; exact W5)) as D.
  change (store_logs CURSEG_HOT_DATA NR_CURSEG_DATA_TYPE) with (store_logs 0 3).
  destruct (store_logs 0 3 sbi n _) as [[s2 b2] t2]; destruct D as (D1 & D2 & D3 & D4 & D5).
  constructor; fold n.
  - constructor; cbn; congruence.
  - intros i j Hi Hj; destruct (N4 i j Hi Hj) as (A & B & _); auto.
  - intros i j Hi Hj; destruct (D4 i j Hi Hj) as (A & B & _); rewrite Z.add_0_r in *; auto.
  - intros k Hk; cbn [ck_alloc_type with_data_logs]; destruct (Z_lt_ge_dec (k mod 6) 3) as [Hd|Hd].
    + destruct (D4 (k mod 6) (k / 6) ltac:(lia) ltac:(lia)) as (_ & _ & E).
      replace (k mod 6 + 0 + k / 6 * 6) with k in E by lia; exact E.
    + rewrite D5 by (intros; lia); destruct (N4 (k mod 6 - 3) (k / 6) ltac:(lia) ltac:(lia)) as (_ & _ & E).
      replace (k mod 6 - 3 + 3 + k / 6 * 6) with k in E by lia; exact E.
Qed.

(** * The pages of the pack *)

Definition log_sum (sbi : f2fs_sb_info) (type mlog : Z) : meta_block := MSum (sum_blk (CURSEG_I sbi (log_of type mlog))).

Lemma normal_pages sbi a type mlog m b :
  type = CURSEG_HOT_DATA \/ type = CURSEG_HOT_NODE -> 0 <= a -> a + 3 < 2 ^ 32 ->
  write_normal_summaries_mlog sbi a type mlog m !! b
  = if (a <=? b) && (b <? a + 3) then Some (log_sum sbi (type + (b - a)) mlog) else m !! b.
Proof.
  intros Ht Ha Htop; unfold write_normal_summaries_mlog.
  assert (E : (if IS_DATASEG type then type + NR_CURSEG_DATA_TYPE else type + NR_CURSEG_NODE_TYPE) = type + 3)
    by (destruct (IS_DATASEG type); reflexivity); rewrite E; clear E.
  match goal with |- for_range type _ ?f m !! b = _ =>
    cut (for_range type (type + 3) f m !! b
      = if (a <=? b) && (b <? a + (type + 3 - type)) then Some (log_sum sbi (type + (b - a)) mlog) else m !! b) end.
  { intros ->; replace (a + (type + 3 - type)) with (a + 3) by lia; reflexivity. }
  apply (for_range_ind (fun i u => u !! b = if (a <=? b) && (b <? a + (i - type)) then Some (log_sum sbi (type + (b - a)) mlog) else m !! b));
    [lia| |].
  - destruct (Z.leb_spec a b), (Z.ltb_spec b (a + (type - type))); cbn [andb]; try reflexivity; lia.
  - intros i u Hi Hu; unfold update_meta_page; rewrite u32_small by lia.
    destruct (Z.eq_dec (a + (i - type)) b) as [E|E].
    + rewrite E, lookup_insert_eq, (proj2 (Z.leb_le a b)), (proj2 (Z.ltb_lt b _)) by lia; cbn [andb].
      replace (type + (b - a)) with i by lia; reflexivity.
    + rewrite lookup_insert_ne, Hu by exact E.
      destruct (Z.leb_spec a b), (Z.ltb_spec b (a + (i - type))), (Z.ltb_spec b (a + (i + 1 - type))); cbn [andb]; try reflexivity; lia.
Qed.

(** The summaries of the logs after the first six, from [a] on; [w] pages per multi-log. *)
Lemma mlog_pages sbi remain n a m :
  let w := if (remain : bool) then 6 else 3 in
  0 <= a -> 1 <= n -> a + w * (n - 1) < 2 ^ 32 ->
  let '(a', m') := for_range 1 n (fun i '(a, m) =>
      let m := write_normal_summaries_mlog sbi a CURSEG_HOT_DATA i m in
      let a := u32 (a + NR_CURSEG_DATA_TYPE) in
      if remain then (u32 (a + NR_CURSEG_NODE_TYPE), write_normal_summaries_mlog sbi a CURSEG_HOT_NODE i m)
      else (a, m)) (a, m) in
  a' = a + w * (n - 1) /\ (forall b, b < a -> m' !! b = m !! b) /\
  forall i t, 1 <= i < n -> 0 <= t < w -> m' !! (a + w * (i - 1) + t) = Some (log_sum sbi t i).
Proof.
  intros w Ha Hn Htop.
  match goal with |- let '(_, _) := for_range 1 n ?f (a, m) in _ =>
    cut (let '(a', m') := for_range 1 n f (a, m) in a' = a + w * (n - 1) /\ (forall b, b < a -> m' !! b = m !! b) /\
      forall i t, 1 <= i < n -> 0 <= t < w -> m' !! (a + w * (i - 1) + t) = Some (log_sum sbi t i)); [auto|] end.
  apply (for_range_ind (fun k r => let '(a', m') := r in a' = a + w * (k - 1) /\ (forall b, b < a -> m' !! b = m !! b) /\
      forall i t, 1 <= i < k -> 0 <= t < w -> m' !! (a + w * (i - 1) + t) = Some (log_sum sbi t i))); [lia| |].
  - split; [lia|split; [auto|intros; lia]].
  - intros k [a1 m1] Hk (E & H1 & H2); change NR_CURSEG_DATA_TYPE with 3; change NR_CURSEG_NODE_TYPE with 3.
    assert (Hw : a1 + w <= a + w * (n - 1)) by (unfold w in *; destruct remain; nia).
    assert (Ha1 : a <= a1) by (unfold w in *; destruct remain; nia).
    assert (Hold : forall i t, 1 <= i < k -> 0 <= t < w -> a + w * (i - 1) + t < a1) by (unfold w in *; destruct remain; nia).
    destruct remain; unfold w in *; rewrite ?(u32_small (a1 + 3)) by lia; rewrite ?(u32_small (a1 + 3 + 3)) by lia.
    + split; [lia|split].
      * intros b Hb; rewrite !normal_pages by (auto; lia).
        rewrite (proj2 (Z.leb_gt (a1 + 3) b)), (proj2 (Z.leb_gt a1 b)) by lia; apply H1; exact Hb.
      * intros i t Hi Ht2; rewrite !normal_pages by (auto; lia); destruct (Z.eq_dec i k) as [->|Hne].
        -- replace (a + 6 * (k - 1) + t) with (a1 + t) by lia.
           destruct (Z.leb_spec (a1 + 3) (a1 + t)), (Z.ltb_spec (a1 + t) (a1 + 3 + 3)), (Z.leb_spec a1 (a1 + t)), (Z.ltb_spec (a1 + t) (a1 + 3));
             cbn [andb]; try lia; do 2 f_equal; unfold CURSEG_HOT_NODE, CURSEG_HOT_DATA; lia.
        -- specialize (Hold i t ltac:(lia) Ht2).
           rewrite (proj2 (Z.leb_gt (a1 + 3) _)), (proj2 (Z.leb_gt a1 _)) by lia; apply H2; lia.
    + split; [lia|split].
      * intros b Hb; rewrite normal_pages by (auto; lia); rewrite (proj2 (Z.leb_gt a1 b)) by lia; apply H1; exact Hb.
      * intros i t Hi Ht2; rewrite normal_pages by (auto; lia); destruct (Z.eq_dec i k) as [->|Hne].
        -- replace (a + 3 * (k - 1) + t) with (a1 + t) by lia.
           rewrite (proj2 (Z.leb_le a1 _)), (proj2 (Z.ltb_lt _ (a1 + 3))) by lia; cbn [andb].
           do 2 f_equal; unfold CURSEG_HOT_DATA; lia.
        -- specialize (Hold i t ltac:(lia) Ht2); rewrite (proj2 (Z.leb_gt a1 _)) by lia; apply H2; lia.
Qed.

(** * The checkpoint block *)

Lemma set_flag_same b f c : f <> 0 -> is_set_ckpt_flags (set_flag_if b f c) f = b.
Proof.
  intros Hf; unfold set_flag_if, is_set_ckpt_flags, set_ckpt_flags, clear_ckpt_flags; destruct b; cbn [ckpt_flags with_ckpt_flags].
  - replace (Z.land (Z.lor (ckpt_flags c) f) f) with f; [rewrite (proj2 (Z.eqb_neq f 0) Hf); reflexivity|].
    apply Z.bits_inj'; intros n Hn; rewrite Z.land_spec, Z.lor_spec; destruct (Z.testbit f n); rewrite ?orb_true_r, ?andb_false_r; reflexivity.
  - replace (Z.land (Z.ldiff (ckpt_flags c) f) f) with 0; [reflexivity|].
    apply Z.bits_inj'; intros n Hn; rewrite Z.land_spec, Z.ldiff_spec, Z.bits_0; destruct (Z.testbit f n); rewrite ?andb_false_r; reflexivity.
Qed.

Lemma set_flag_other b f f' c : Z.land f f' = 0 -> is_set_ckpt_flags (set_flag_if b f c) f' = is_set_ckpt_flags c f'.
Proof.
  intros Hd; assert (Hn : forall n, 0 <= n -> Z.testbit f n = true -> Z.testbit f' n = false).
  { intros n Hn H; destruct (Z.testbit f' n) eqn:E; [|reflexivity].
    assert (Z.testbit (Z.land f f') n = true) by (rewrite Z.land_spec, H, E; reflexivity).
    rewrite Hd, Z.bits_0 in *; discriminate. }
  unfold set_flag_if, is_set_ckpt_flags, set_ckpt_flags, clear_ckpt_flags; destruct b; cbn [ckpt_flags with_ckpt_flags]; do 2 f_equal;
    apply Z.bits_inj'; intros n Hp; rewrite !Z.land_spec, ?Z.lor_spec, ?Z.ldiff_spec; specialize (Hn n Hp);
    destruct (Z.testbit f n), (Z.testbit (ckpt_flags c) n); cbn; try reflexivity; rewrite ?Hn by reflexivity; reflexivity.
Qed.

Lemma set_flag_fields b f c :
  checkpoint_ver (set_flag_if b f c) = checkpoint_ver c /\
  cp_pack_total_block_count (set_flag_if b f c) = cp_pack_total_block_count c /\
  cp_pack_start_sum (set_flag_if b f c) = cp_pack_start_sum c.
Proof. destruct b; auto. Qed.

Lemma set_flag_saved sbi b f c : saved sbi c -> saved sbi (set_flag_if b f c).
Proof. intros [[] ? ? ?]; destruct b; constructor; auto; constructor; auto. Qed.

Lemma npages_ext sbi c c' b :
  (forall i, 0 <= i < 3 -> (ck_alloc_type c').[i] = (ck_alloc_type c).[i] /\ (cur_data_blkoff c').[i] = (cur_data_blkoff c).[i]) ->
  npages_for_summary_flush sbi c' b = npages_for_summary_flush sbi c b.
Proof.
  intros H; unfold npages_for_summary_flush.
  change (for_range CURSEG_HOT_DATA (CURSEG_COLD_DATA + 1) ?f 0) with (f 2 (f 1 (f 0 0))); cbv beta.
  destruct (H 0 ltac:(lia)) as [-> ->], (H 1 ltac:(lia)) as [-> ->], (H 2 ltac:(lia)) as [-> ->]; reflexivity.
Qed.

Record filled (rs : raw_super) (sbi : f2fs_sb_info) (x : cp_inputs) (reason ver : Z) (c : f2fs_checkpoint) : Prop := {
  fi_saved : saved sbi c;
  fi_ver : checkpoint_ver c = ver;
  fi_start : cp_pack_start_sum c = u32 (1 + cp_payload rs + u32 (GET_ORPHAN_BLOCKS (orphan_num x)));
  fi_total : cp_pack_total_block_count c = u32 (2 + cp_payload rs + npages_for_summary_flush sbi c false
    + u32 (GET_ORPHAN_BLOCKS (orphan_num x))
    + (if __remain_node_summaries reason then 3 + 6 * (nr_mlog (geo sbi) - 1) else 3 * (nr_mlog (geo sbi) - 1)));
  fi_compact : is_set_ckpt_flags c CP_COMPACT_SUM_FLAG = (npages_for_summary_flush sbi c false <? 3);
  fi_nodes : __exist_node_summaries c = __remain_node_summaries reason;
  fi_orphan : is_set_ckpt_flags c CP_ORPHAN_PRESENT_FLAG = negb (orphan_num x =? 0);
  fi_bitmap : ck_sit_bitmap c = sit_bitmap (sit_i sbi) /\ ck_nat_bitmap c = in_nat_bitmap x;
}.

Lemma save_logs_ver sbi c : checkpoint_ver (save_logs sbi c) = checkpoint_ver c.
Proof.
  unfold save_logs; cbv zeta; apply (for_range_inv (fun c' => checkpoint_ver c' = checkpoint_ver c)).
  - apply (for_range_inv (fun c' => checkpoint_ver c' = checkpoint_ver c)); [reflexivity|]; intros i t _ Ht.
    apply (for_range_inv (fun c' => checkpoint_ver c' = checkpoint_ver c)); auto.
  - intros i t _ Ht; apply (for_range_inv (fun c' => checkpoint_ver c' = checkpoint_ver c)); auto.
Qed.

(** The number of summary blocks depends on the logs only. *)
Lemma npages_saved sbi c c' b : 0 < nr_mlog (geo sbi) -> saved sbi c -> saved sbi c' ->
  npages_for_summary_flush sbi c' b = npages_for_summary_flush sbi c b.
Proof.
  intros Hn S2 S8; apply npages_ext; intros i Hi; assert (Hi6 : 0 <= i < 6 * nr_mlog (geo sbi)) by lia.
  rewrite (sv_type _ _ S8 i Hi6), (sv_type _ _ S2 i Hi6); split; [reflexivity|].
  destruct (sv_data _ _ S8 i 0 Hi ltac:(lia)) as [_ A]; destruct (sv_data _ _ S2 i 0 Hi ltac:(lia)) as [_ B].
  rewrite Z.mul_0_l, Z.add_0_r in A, B; congruence.
Qed.

(** The flags that [fill_checkpoint] sets last. *)
Definition mark_reason (sbi : f2fs_sb_info) (x : cp_inputs) (reason : Z) (c : f2fs_checkpoint) : f2fs_checkpoint :=
  let c := set_flag_if (reason =? CP_UMOUNT) CP_UMOUNT_FLAG c in
  let c := set_flag_if (reason =? CP_FASTBOOT) CP_FASTBOOT_FLAG c in
  let c := set_flag_if (negb (orphan_num x =? 0)) CP_ORPHAN_PRESENT_FLAG c in
  if is_sbi_flag_set sbi SBI_NEED_FSCK then set_ckpt_flags c CP_FSCK_FLAG else c.

Lemma mark_reason_frame sbi x reason c (c' := mark_reason sbi x reason c) :
  (saved sbi c -> saved sbi c') /\ checkpoint_ver c' = checkpoint_ver c /\
  cp_pack_total_block_count c' = cp_pack_total_block_count c /\ cp_pack_start_sum c' = cp_pack_start_sum c.
Proof.
  split; [|unfold c', mark_reason, set_flag_if; destruct (reason =? CP_UMOUNT), (reason =? CP_FASTBOOT), (orphan_num x =? 0), (is_sbi_flag_set _ _); repeat split].
  intros S; unfold c', mark_reason; cbv zeta.
  destruct (is_sbi_flag_set _ _); [apply (set_flag_saved sbi true)|]; repeat apply set_flag_saved; exact S.
Qed.

Lemma mark_reason_flags sbi x reason c (c' := mark_reason sbi x reason c) :
  is_set_ckpt_flags c' CP_COMPACT_SUM_FLAG = is_set_ckpt_flags c CP_COMPACT_SUM_FLAG /\
  __exist_node_summaries c' = __remain_node_summaries reason /\
  is_set_ckpt_flags c' CP_ORPHAN_PRESENT_FLAG = negb (orphan_num x =? 0).
Proof.
  unfold c', mark_reason; clear c'; cbv zeta; set (c7 := set_flag_if _ CP_ORPHAN_PRESENT_FLAG _); set (c8 := if is_sbi_flag_set sbi SBI_NEED_FSCK then _ else c7).
  assert (Hfl : forall f, Z.land CP_FSCK_FLAG f = 0 -> is_set_ckpt_flags c8 f = is_set_ckpt_flags c7 f)
    by (intros f Hf; unfold c8; destruct (is_sbi_flag_set _ _); [apply (set_flag_other true); exact Hf|reflexivity]).
  unfold __exist_node_summaries, __remain_node_summaries; rewrite !Hfl by reflexivity; unfold c7.
  split; [rewrite !set_flag_other by reflexivity; reflexivity|split; [|apply set_flag_same; discriminate]].
  rewrite !(set_flag_other _ CP_ORPHAN_PRESENT_FLAG) by reflexivity; rewrite (set_flag_same _ CP_FASTBOOT_FLAG) by discriminate.
  rewrite set_flag_other by reflexivity; rewrite set_flag_same by discriminate; reflexivity.
Qed.

Lemma fill_ok rs sbi x reason c :
  ckpt_wf c -> 0 < nr_mlog (geo sbi) <= MAX_EXTEND_LOGS + 1 ->
  filled rs sbi x reason (checkpoint_ver c) (fill_checkpoint rs sbi x reason c).
Proof.
  intros Hw Hn; unfold fill_checkpoint; cbv zeta.
  set (c1 := save_logs sbi (with_counts _ _ _ c)).
  assert (S1 : saved sbi c1) by (apply save_logs_ok; [destruct Hw; constructor; assumption|exact Hn]).
  assert (V1 : checkpoint_ver c1 = checkpoint_ver c) by (unfold c1; rewrite save_logs_ver; reflexivity).
  set (c2 := with_nodes _ _ _ c1).
  assert (S2 : saved sbi c2) by (destruct S1 as [[] ? ? ?]; constructor; auto; constructor; auto).
  set (D := npages_for_summary_flush sbi c2 false).
  set (c3 := set_flag_if (D <? NR_CURSEG_DATA_TYPE) CP_COMPACT_SUM_FLAG c2); set (c4 := with_layout _ _ c3).
  assert (S4 : saved sbi c4).
  { assert (S3 : saved sbi c3) by (apply set_flag_saved; exact S2).
    destruct S3 as [[] ? ? ?]; constructor; auto; constructor; auto. }
  fold (mark_reason sbi x reason c4).
  destruct (mark_reason_frame sbi x reason c4) as (S8 & F1 & F2 & F3); specialize (S8 S4).
  destruct (mark_reason_flags sbi x reason c4) as (L1 & L2 & L3); set (c8 := mark_reason sbi x reason c4) in *.
  assert (S9 : saved sbi (with_bitmaps (sit_bitmap (sit_i sbi)) (in_nat_bitmap x) c8))
    by (destruct S8 as [[] ? ? ?]; constructor; auto; constructor; auto).
  assert (HD := npages_saved sbi c2 _ false (proj1 Hn) S2 S9); fold D in HD.
  constructor; rewrite ?HD; try assumption.
  - change (checkpoint_ver c8 = checkpoint_ver c); rewrite F1, <- V1; unfold c4, c3; cbn; destruct (_ <? _); reflexivity.
  - change (is_set_ckpt_flags c8 CP_COMPACT_SUM_FLAG = (D <? 3)); rewrite L1.
    change (is_set_ckpt_flags c3 CP_COMPACT_SUM_FLAG = (D <? 3)); apply set_flag_same; discriminate.
  - split; reflexivity.
Qed.

(** * The whole pack *)

Lemma payload_pages c n a m :
  0 <= a -> 0 <= n -> a + n < 2 ^ 32 ->
  let '(a', m') := for_range 1 (1 + n) (fun i '(a, m) => (u32 (a + 1), update_meta_page (MPayload c i) a m)) (a, m) in
  a' = a + n /\ forall b, b < a -> m' !! b = m !! b.
Proof.
  intros Ha Hn Htop.
  match goal with |- let '(_, _) := for_range 1 _ ?f (a, m) in _ =>
    cut (let '(a', m') := for_range 1 (1 + n) f (a, m) in a' = a + (1 + n - 1) /\ forall b, b < a -> m' !! b = m !! b) end.
  { destruct (for_range _ _ _ _) as [a' m']; intros [E H]; split; [lia|exact H]. }
  apply (for_range_ind (fun i r => let '(a', m') := r in a' = a + (i - 1) /\ forall b, b < a -> m' !! b = m !! b)); [lia|split; [lia|auto]|].
  intros i [a1 m1] Hi [E H]; split; [rewrite u32_small; lia|].
  intros b Hb; unfold update_meta_page; rewrite lookup_insert_ne by lia; apply H; exact Hb.
Qed.

Definition pack_extra (remain : bool) (n : Z) : Z := if remain then 3 + 6 * (n - 1) else 3 * (n - 1).

(** The pack ends below the end of the address space. *)
Definition pack_fits (rs : raw_super) (sbi : f2fs_sb_info) (x : cp_inputs) (reason : Z) (c : f2fs_checkpoint) : Prop :=
  0 <= cp_payload rs /\ 0 <= __start_cp_addr (geo sbi) rs c /\ 0 < nr_mlog (geo sbi) <= MAX_EXTEND_LOGS + 1 /\
  __start_cp_addr (geo sbi) rs c + 2 + cp_payload rs + npages_for_summary_flush sbi c false
    + GET_ORPHAN_BLOCKS (orphan_num x) + pack_extra (__remain_node_summaries reason) (nr_mlog (geo sbi)) < 2 ^ 32.

Lemma npages_range sbi c b : 1 <= npages_for_summary_flush sbi c b <= 3.
Proof. unfold npages_for_summary_flush; cbv zeta; case_ifs; lia. Qed.

Section Pack.
Variables (rs : raw_super) (sbi : f2fs_sb_info) (x : cp_inputs) (reason ver : Z) (c : f2fs_checkpoint) (m : meta).
Variables (n O D start sums : Z) (remain : bool).
Hypothesis En : nr_mlog (geo sbi) = n.
Hypothesis Er : __remain_node_summaries reason = remain.
Hypothesis EO : GET_ORPHAN_BLOCKS (orphan_num x) = O.
Hypothesis ED : npages_for_summary_flush sbi c false = D.
Hypothesis Es : __start_cp_addr (geo sbi) rs c = start.
Hypothesis Esum : sums = start + 1 + cp_payload rs + O.
Hypothesis Hfit : pack_fits rs sbi x reason c.
Hypothesis Hc : filled rs sbi x reason ver c.

Lemma pack_numbers :
  0 <= cp_payload rs /\ 0 <= start /\ 0 < n <= MAX_EXTEND_LOGS + 1 /\ 0 <= O /\ 1 <= D <= 3 /\
  start + 2 + cp_payload rs + D + O + pack_extra remain n < 2 ^ 32 /\ 0 <= pack_extra remain n /\
  u32 O = O /\ cp_pack_start_sum c = 1 + cp_payload rs + O /\
  cp_pack_total_block_count c = 2 + cp_payload rs + D + O + pack_extra remain n.
Proof.
  destruct Hfit as (F1 & F2 & F3 & F4); rewrite En, Er, EO, ED, Es in *.
  assert (HO : 0 <= O) by (rewrite <- EO; unfold GET_ORPHAN_BLOCKS, orphan_num, F2FS_ORPHANS_PER_BLOCK; lia).
  assert (HD : 1 <= D <= 3) by (rewrite <- ED; apply npages_range).
  assert (He : 0 <= pack_extra remain n) by (unfold pack_extra; destruct remain; lia).
  assert (E : u32 O = O) by (apply u32_small; lia).
  rewrite (fi_start _ _ _ _ _ _ Hc), (fi_total _ _ _ _ _ _ Hc), EO, ED, Er, En, E; fold (pack_extra remain n).
  rewrite !u32_small by lia; repeat split; try assumption; lia.
Qed.

Lemma write_pack_pages :
  let '(a, m') := write_pack rs sbi x reason c m in
  a = start + cp_pack_total_block_count c - 1 /\ m' !! a = Some (MCkpt c) /\
  (exists m1, forall b, sums <= b < sums + D -> m' !! b = write_data_summaries sbi c sums m1 !! b) /\
  (remain = true -> forall t, 0 <= t < 3 -> m' !! (sums + D + t) = Some (log_sum sbi (3 + t) 0)) /\
  (forall i t, 1 <= i < n -> 0 <= t < (if remain then 6 else 3) ->
     m' !! (sums + D + (if remain then 3 + 6 * (i - 1) else 3 * (i - 1)) + t) = Some (log_sum sbi t i)).
Proof.
  destruct pack_numbers as (F1 & F2 & F3 & HO & HD & F4 & He & N1 & N2 & N3).
  unfold write_pack; rewrite EO, N1, ED, Es, En, Er; unfold __cp_payload.
  rewrite (u32_small (start + 1)) by lia.
  match goal with |- context [for_range 1 _ ?f (start + 1, ?m0)] =>
    pose proof (payload_pages c (cp_payload rs) (start + 1) m0 ltac:(lia) F1 ltac:(lia)) as Hp;
    destruct (for_range 1 (1 + cp_payload rs) f (start + 1, m0)) as [a1 m1] end.
  destruct Hp as [-> Hp].
  set (orph := if negb (orphan_num x =? 0) then _ else _).
  assert (Ho : exists m2, orph = (sums, m2)).
  { unfold orph; destruct (Z.eqb_spec (orphan_num x) 0) as [E|E]; cbn [negb].
    - exists m1; f_equal; rewrite E in EO; change (GET_ORPHAN_BLOCKS 0) with 0 in EO; lia.
    - eexists; f_equal; rewrite u32_small; lia. }
  destruct Ho as [m2 ->].
  set (m3 := write_data_summaries sbi c sums m2); rewrite (u32_small (sums + D)) by lia.
  set (nodes := if remain then _ else _).
  assert (Hnd : exists m4, nodes = (sums + D + (if remain then 3 else 0), m4) /\
    (forall b, b < sums + D -> m4 !! b = m3 !! b) /\
    (remain = true -> forall t, 0 <= t < 3 -> m4 !! (sums + D + t) = Some (log_sum sbi (3 + t) 0))).
  { unfold nodes, write_node_summaries, write_normal_summaries; unfold pack_extra in F4; destruct remain.
    - eexists; split; [rewrite u32_small by (unfold NR_CURSEG_NODE_TYPE; lia); reflexivity|].
      split; [intros b Hb|intros _ t Ht]; rewrite normal_pages by (auto; lia).
      + rewrite (proj2 (Z.leb_gt (sums + D) b)) by lia; reflexivity.
      + rewrite (proj2 (Z.leb_le (sums + D) _)), (proj2 (Z.ltb_lt _ (sums + D + 3))) by lia; cbn [andb].
        do 2 f_equal; unfold CURSEG_HOT_NODE; lia.
    - exists m3; rewrite Z.add_0_r; split; [reflexivity|split; [auto|discriminate]]. }
  destruct Hnd as (m4 & -> & Hn1 & Hn2).
  set (A0 := sums + D + (if remain then 3 else 0)).
  pose proof (mlog_pages sbi remain n A0 m4) as Hm; cbv zeta in Hm.
  assert (Hend : A0 + (if remain then 6 else 3) * (n - 1) = start + cp_pack_total_block_count c - 1)
    by (rewrite N3; unfold A0, pack_extra; destruct remain; lia).
  specialize (Hm ltac:(unfold A0; destruct remain; lia) ltac:(lia) ltac:(rewrite Hend, N3; lia)).
  match goal with |- context [for_range 1 n ?f (A0, m4)] => destruct (for_range 1 n f (A0, m4)) as [a5 m5] end.
  destruct Hm as (-> & Hm1 & Hm2); rewrite Hend.
  assert (Hlow : forall b, b < start + cp_pack_total_block_count c - 1 ->
    update_meta_page (MCkpt c) (start + cp_pack_total_block_count c - 1) m5 !! b = m5 !! b)
    by (intros b Hb; unfold update_meta_page; apply lookup_insert_ne; lia).
  split; [reflexivity|split; [unfold update_meta_page; apply lookup_insert_eq|split; [|split]]].
  - exists m2; fold m3; intros b Hb; rewrite Hlow, Hm1, Hn1; [reflexivity|lia|unfold A0; destruct remain; lia|].
    rewrite <- Hend; unfold A0; destruct remain; lia.
  - intros Hr t Ht; rewrite Hlow, Hm1, Hn2; auto.
    + unfold A0; rewrite Hr; lia.
    + rewrite <- Hend; unfold A0; rewrite Hr; lia.
  - intros i t Hi Ht; rewrite Hlow by (rewrite <- Hend; unfold A0; destruct remain; nia).
    rewrite <- (Hm2 i t Hi Ht); f_equal; unfold A0; destruct remain; lia.
Qed.
End Pack.

(** * Placing a log *)

Lemma sum_blk_eta c : with_sum_blk (sum_blk c) c = c.
Proof. destruct c; reflexivity. Qed.

Lemma entries_eta b : with_sb_entries (sb_entries b) b = b.
Proof. destruct b; reflexivity. Qed.

Lemma reset_footer_keeps type b :
  sb_entries (reset_footer type b) = sb_entries b /\ journal_of (reset_footer type b) = journal_of b.
Proof. unfold reset_footer; destruct (IS_DATASEG type), (IS_NODESEG type); auto. Qed.

(** The steps shared by the two readers: the segment, the reset, the mode and the offset. *)
Definition place_log (type mlog segno off mode : Z) (sum : f2fs_summary_block) (sbi : f2fs_sb_info) : f2fs_sb_info :=
  let k := log_of type mlog in
  let sbi := set_curseg k (with_next_segno segno (with_sum_blk sum (CURSEG_I sbi k))) sbi in
  let sbi := reset_curseg_mlog type mlog false sbi in
  set_curseg k (with_next_blkoff off (with_alloc_type mode (CURSEG_I sbi k))) sbi.

(** What the readers do not touch. *)
Record read_frame (s t : f2fs_sb_info) : Prop := {
  rf_geo : geo t = geo s;
  rf_ssa : ssa t = ssa s;
  rf_len : zlen (curseg_array t) = zlen (curseg_array s);
}.

Lemma read_frame_refl s : read_frame s s.
Proof. constructor; reflexivity. Qed.

Lemma read_frame_trans s t u : read_frame s t -> read_frame t u -> read_frame s u.
Proof. intros [] []; constructor; congruence. Qed.

Lemma read_frame_set k c s : read_frame s (set_curseg k c s).
Proof. constructor; try reflexivity; apply zlen_aset. Qed.

Lemma place_log_ok type mlog segno off mode sum s :
  0 <= log_of type mlog < zlen (curseg_array s) ->
  read_frame s (place_log type mlog segno off mode sum s) /\
  forall j, CURSEG_I (place_log type mlog segno off mode sum s) j =
    if log_of type mlog =? j
    then mk_curseg (reset_footer type sum) mode segno off (GET_ZONENO_FROM_SEGNO (geo s) segno) NULL_SEGNO
    else CURSEG_I s j.
Proof.
  intros Hk; unfold place_log, reset_curseg_mlog; cbv zeta; set (k := log_of type mlog) in *; split.
  - constructor; try reflexivity; cbn; rewrite !zlen_aset; reflexivity.
  - intros j; set (s1 := set_curseg k (with_next_segno segno (with_sum_blk sum (CURSEG_I s k))) s).
    assert (E1 : CURSEG_I s1 k = with_next_segno segno (with_sum_blk sum (CURSEG_I s k)))
      by (unfold s1; rewrite curseg_get, Z.eqb_refl by exact Hk; reflexivity).
    rewrite E1; set (c2 := mk_curseg _ _ _ _ _ _).
    set (s3 := with_sit_i _ _).
    assert (E3 : forall i, CURSEG_I s3 i = if k =? i then c2 else CURSEG_I s i).
    { intros i; change (CURSEG_I s3 i) with (CURSEG_I (set_curseg k c2 s1) i).
      rewrite curseg_get by (unfold s1; cbn; rewrite zlen_aset; exact Hk).
      destruct (Z.eqb_spec k i) as [|Hne]; [reflexivity|].
      unfold s1; rewrite curseg_get, (proj2 (Z.eqb_neq k i) Hne) by exact Hk; reflexivity. }
    rewrite curseg_get by (cbn; rewrite !zlen_aset; exact Hk); rewrite !E3, Z.eqb_refl.
    destruct (Z.eqb_spec k j); reflexivity.
Qed.

(** * Compacted summaries *)

(** Where the [q]-th entry goes: page and byte offset. *)
Definition cpage (q : Z) : Z := if q <? 439 then 0 else 1 + (q - 439) / 584.
Definition coff (q : Z) : Z := if q <? 439 then 1014 + 7 * q else 7 * ((q - 439) mod 584).

Lemma cpos_next q : 0 <= q ->
  if coff q + 7 + 7 <=? 4091 then cpage (q + 1) = cpage q /\ coff (q + 1) = coff q + 7
  else cpage (q + 1) = cpage q + 1 /\ coff (q + 1) = 0.
Proof.
  intros Hq; unfold cpage, coff.
  destruct (Z.ltb_spec q 439), (Z.ltb_spec (q + 1) 439); case_ifs; lia.
Qed.

Lemma cpos_inj q r : 0 <= q -> 0 <= r -> cpage q = cpage r -> coff q = coff r -> q = r.
Proof. unfold cpage, coff; intros Hq Hr; destruct (Z.ltb_spec q 439), (Z.ltb_spec r 439); lia. Qed.

Lemma cpos_mono q r : 0 <= q <= r -> 0 <= cpage q <= cpage r.
Proof. unfold cpage; intros Hq; destruct (Z.ltb_spec q 439), (Z.ltb_spec r 439); lia. Qed.

Section Compact.
Variables (a : Z) (ent : Z -> f2fs_summary) (nat sit : sum_journal) (total : Z).
Hypothesis Ha : 0 <= a.
Hypothesis Htop : a + cpage total + 1 < 2 ^ 32.

Definition compacted (q : Z) (m : meta) : Prop :=
  cp_nat (get_compact m a) = nat /\ cp_sit (get_compact m a) = sit /\
  forall r, 0 <= r < q -> cp_sums (get_compact m (a + cpage r)) !! coff r = Some (ent r).

Record cw_inv (q : Z) (w : compact_writer) : Prop := {
  cwi_pos : match cw_page w with
            | Some p => p = a + cpage q /\ cw_written w = coff q /\ cw_blkaddr w = a + cpage q + 1
            | None => cw_blkaddr w = a + cpage q /\ coff q = 0
            end;
  cwi_data : compacted q (cw_meta w);
}.

Lemma get_put b b' off s m :
  get_compact (put_summary b off s m) b' =
  if b' =? b then mk_compact (cp_nat (get_compact m b)) (cp_sit (get_compact m b)) (<[off := s]> (cp_sums (get_compact m b)))
  else get_compact m b'.
Proof.
  unfold put_summary, get_compact at 1; destruct (Z.eqb_spec b' b) as [->|]; [rewrite lookup_insert_eq; reflexivity|].
  rewrite lookup_insert_ne by auto; reflexivity.
Qed.

Lemma write_compact_ok q w :
  0 <= q < total -> cw_inv q w -> cw_inv (q + 1) (write_compact_entry (ent q) w).
Proof.
  intros Hq [Hp (D1 & D2 & D3)]; pose proof (cpos_mono q total ltac:(lia)) as Hm; pose proof (cpos_next q ltac:(lia)) as Hn.
  assert (Hw1 : exists w1, (match cw_page w with Some _ => w
      | None => mk_cw (cw_meta w) (u32 (cw_blkaddr w + 1)) (Some (cw_blkaddr w)) 0 end) = w1 /\
    cw_page w1 = Some (a + cpage q) /\ cw_written w1 = coff q /\ cw_blkaddr w1 = a + cpage q + 1 /\ cw_meta w1 = cw_meta w).
  { destruct (cw_page w) as [p|] eqn:Ep.
    - destruct Hp as (-> & E1 & E2); exists w; auto.
    - destruct Hp as (E1 & E2); eexists; split; [reflexivity|]; cbn; rewrite E1, E2, u32_small by lia; auto. }
  destruct Hw1 as (w1 & E & W1 & W2 & W3 & W4); unfold write_compact_entry; rewrite E, W1, W2, W3, W4; clear E.
  change SUMMARY_SIZE with 7; change (PAGE_CACHE_SIZE - SUM_FOOTER_SIZE) with 4091.
  constructor; cbn [cw_page cw_blkaddr cw_written cw_meta].
  - destruct (coff q + 7 + 7 <=? 4091); destruct Hn as [-> ->]; [auto|split; [lia|reflexivity]].
  - unfold compacted; rewrite get_put; destruct (Z.eqb_spec a (a + cpage q)) as [Ea|Ea].
    + rewrite <- Ea; cbn [cp_nat cp_sit]; split; [exact D1|split; [exact D2|]].
      intros r Hr; rewrite get_put; destruct (Z.eqb_spec (a + cpage r) a) as [Er|Er].
      * cbn [cp_sums]; destruct (Z.eq_dec r q) as [->|Hne]; [apply lookup_insert_eq|].
        rewrite lookup_insert_ne by (intros E; apply Hne; apply cpos_inj; lia).
        specialize (D3 r ltac:(lia)); rewrite Er in D3; exact D3.
      * apply D3; destruct (Z.eq_dec r q) as [->|]; lia.
    + split; [exact D1|split; [exact D2|]].
      intros r Hr; rewrite get_put; destruct (Z.eqb_spec (a + cpage r) (a + cpage q)) as [Er|Er].
      * cbn [cp_sums]; destruct (Z.eq_dec r q) as [->|Hne]; [apply lookup_insert_eq|].
        rewrite lookup_insert_ne by (intros E; apply Hne; apply cpos_inj; lia).
        specialize (D3 r ltac:(lia)); rewrite Er in D3; exact D3.
      * apply D3; destruct (Z.eq_dec r q) as [->|]; lia.
Qed.

(** A run of entries. *)
Lemma write_compact_run base n (e : Z -> f2fs_summary) w :
  0 <= base -> 0 <= n -> base + n <= total -> (forall j, 0 <= j < n -> e j = ent (base + j)) ->
  cw_inv base w -> cw_inv (base + n) (for_range 0 n (fun j => write_compact_entry (e j)) w).
Proof.
  intros Hb Hn Ht He Hw; apply (for_range_ind (fun j => cw_inv (base + j))); [lia|rewrite Z.add_0_r; exact Hw|].
  intros j t Hj Hi; rewrite He by exact Hj; replace (base + (j + 1)) with (base + j + 1) by lia.
  apply write_compact_ok; [lia|exact Hi].
Qed.
(** The reader follows the writer. *)
Record cr_inv (q : Z) (r : compact_reader) : Prop := {
  cri_page : cr_page r = a + cpage q;
  cri_start : cr_start r = a + cpage q + 1;
  cri_off : cr_offset r = coff q;
}.

Lemma read_entry_ok m i j q r :
  compacted total m -> 0 <= q < total -> cr_inv q r -> 0 <= i < zlen (curseg_array (cr_sbi r)) ->
  let r' := read_compact_entry m i j r in
  cr_inv (q + 1) r' /\ read_frame (cr_sbi r) (cr_sbi r') /\
  forall k, CURSEG_I (cr_sbi r') k =
    if i =? k then let c := CURSEG_I (cr_sbi r) i in
      with_sum_blk (with_sb_entries ((sb_entries (sum_blk c)).[j <- ent q]) (sum_blk c)) c
    else CURSEG_I (cr_sbi r) k.
Proof.
  intros (_ & _ & D3) Hq [R1 R2 R3] Hi; cbv zeta; unfold read_compact_entry.
  rewrite R1, R2, R3, (D3 q Hq); cbn [default id].
  pose proof (cpos_next q ltac:(lia)) as Hn; pose proof (cpos_mono (q + 1) total ltac:(lia)) as Hm.
  change SUMMARY_SIZE with 7; change (PAGE_CACHE_SIZE - SUM_FOOTER_SIZE) with 4091.
  split; [|split].
  - destruct (coff q + 7 + 7 <=? 4091); destruct Hn as [N1 N2]; constructor; cbn; rewrite ?N1, ?N2; try lia.
    rewrite u32_small by lia; lia.
  - case_ifs; apply read_frame_set.
  - intros k; destruct (coff q + 7 + 7 <=? 4091); cbn [cr_sbi]; rewrite curseg_get by exact Hi; reflexivity.
Qed.

Lemma read_run_ok m i base n r :
  compacted total m -> 0 <= base -> 0 <= n -> base + n <= total -> cr_inv base r ->
  0 <= i < zlen (curseg_array (cr_sbi r)) -> n <= zlen (sb_entries (sum_blk (CURSEG_I (cr_sbi r) i))) ->
  let r' := for_range 0 n (read_compact_entry m i) r in
  cr_inv (base + n) r' /\ read_frame (cr_sbi r) (cr_sbi r') /\
  (forall k, k <> i -> CURSEG_I (cr_sbi r') k = CURSEG_I (cr_sbi r) k) /\
  exists es, CURSEG_I (cr_sbi r') i =
    with_sum_blk (with_sb_entries es (sum_blk (CURSEG_I (cr_sbi r) i))) (CURSEG_I (cr_sbi r) i) /\
    zlen es = zlen (sb_entries (sum_blk (CURSEG_I (cr_sbi r) i))) /\ forall j, 0 <= j < n -> es.[j] = ent (base + j).
Proof.
  intros Hm Hb Hn Ht Hr Hi Hz; cbv zeta; set (c0 := CURSEG_I (cr_sbi r) i) in *.
  apply (for_range_ind (fun j r' => cr_inv (base + j) r' /\ read_frame (cr_sbi r) (cr_sbi r') /\
    (forall k, k <> i -> CURSEG_I (cr_sbi r') k = CURSEG_I (cr_sbi r) k) /\
    exists es, CURSEG_I (cr_sbi r') i = with_sum_blk (with_sb_entries es (sum_blk c0)) c0 /\
      zlen es = zlen (sb_entries (sum_blk c0)) /\ forall j', 0 <= j' < j -> es.[j'] = ent (base + j'))); [lia| |].
  - rewrite Z.add_0_r; split; [exact Hr|split; [apply read_frame_refl|split; [auto|]]].
    exists (sb_entries (sum_blk c0)); split; [rewrite entries_eta, sum_blk_eta; reflexivity|split; [reflexivity|intros; lia]].
  - intros j t Hj (I1 & I2 & I3 & es & I4 & I5 & I6).
    assert (Hi' : 0 <= i < zlen (curseg_array (cr_sbi t))) by (rewrite (rf_len _ _ I2); exact Hi).
    destruct (read_entry_ok m i j (base + j) t Hm ltac:(lia) I1 Hi') as (J1 & J2 & J3); cbv zeta in J3.
    split; [replace (base + (j + 1)) with (base + j + 1) by lia; exact J1|].
    split; [exact (read_frame_trans _ _ _ I2 J2)|split].
    + intros k Hk; rewrite J3, (proj2 (Z.eqb_neq i k)) by auto; apply I3; exact Hk.
    + exists (es.[j <- ent (base + j)]); rewrite J3, Z.eqb_refl, I4; split; [reflexivity|split; [rewrite zlen_aset; exact I5|]].
      intros j' Hj'; rewrite aget_aset by lia; destruct (Z.eqb_spec j j') as [->|]; [reflexivity|apply I6; lia].
Qed.

Lemma read_log_ok m (c : f2fs_checkpoint) i base n r :
  compacted total m -> 0 <= base -> 0 <= n -> base + n <= total -> cr_inv base r ->
  0 <= i < zlen (curseg_array (cr_sbi r)) -> n <= zlen (sb_entries (sum_blk (CURSEG_I (cr_sbi r) i))) ->
  n = (if (ck_alloc_type c).[i] =? SSR then blocks_per_seg (geo (cr_sbi r)) else (cur_data_blkoff c).[i]) ->
  let r' := read_compact_log m c i r in
  cr_inv (base + n) r' /\ read_frame (cr_sbi r) (cr_sbi r') /\
  (forall k, k <> i -> CURSEG_I (cr_sbi r') k = CURSEG_I (cr_sbi r) k) /\
  let l := CURSEG_I (cr_sbi r') i in
  cs_segno l = (cur_data_segno c).[i] /\ next_blkoff l = (cur_data_blkoff c).[i] /\
  alloc_type l = (ck_alloc_type c).[i] /\
  journal_of (sum_blk l) = journal_of (sum_blk (CURSEG_I (cr_sbi r) i)) /\
  forall j, 0 <= j < n -> (sb_entries (sum_blk l)).[j] = ent (base + j).
Proof.
  intros Hm Hb Hn Ht [R1 R2 R3] Hi Hz En; cbv zeta; unfold read_compact_log.
  set (c0 := CURSEG_I (cr_sbi r) i) in *.
  assert (El : log_of i 0 = i) by (unfold log_of; lia).
  assert (Ep : set_curseg i (with_next_segno ((cur_data_segno c).[i]) c0) (cr_sbi r) =
    set_curseg (log_of i 0) (with_next_segno ((cur_data_segno c).[i]) (with_sum_blk (sum_blk c0) (CURSEG_I (cr_sbi r) (log_of i 0)))) (cr_sbi r)).
  { rewrite El; fold c0; rewrite sum_blk_eta; reflexivity. }
  rewrite Ep; clear Ep.
  set (s3 := set_curseg i (with_next_blkoff _ _) _).
  assert (E3 : s3 = place_log i 0 ((cur_data_segno c).[i]) ((cur_data_blkoff c).[i]) ((ck_alloc_type c).[i]) (sum_blk c0) (cr_sbi r))
    by (unfold s3, place_log; rewrite El; reflexivity).
  destruct (place_log_ok i 0 ((cur_data_segno c).[i]) ((cur_data_blkoff c).[i]) ((ck_alloc_type c).[i]) (sum_blk c0) (cr_sbi r))
    as [P1 P2]; [rewrite El; exact Hi|].
  rewrite <- E3, El in *; clearbody s3; clear E3.
  pose proof (P2 i) as P3; rewrite Z.eqb_refl in P3.
  rewrite (rf_geo _ _ P1), <- En.
  destruct (read_run_ok m i base n (mk_cr s3 (cr_page r) (cr_start r) (cr_offset r)) Hm Hb Hn Ht) as (I1 & I2 & I3 & es & I4 & I5 & I6).
  - constructor; assumption.
  - cbn [cr_sbi]; rewrite (rf_len _ _ P1); exact Hi.
  - cbn [cr_sbi]; rewrite P3; cbn [sum_blk]; rewrite (proj1 (reset_footer_keeps i _)); exact Hz.
  - cbn [cr_sbi] in *; split; [exact I1|split; [exact (read_frame_trans _ _ _ P1 I2)|split]].
    + intros k Hk; rewrite I3, P2, (proj2 (Z.eqb_neq i k)) by auto; reflexivity.
    + rewrite I4, P3; cbn; repeat split; auto; apply (proj2 (reset_footer_keeps i _)).
Qed.
End Compact.

Lemma for_range_three {S} (f : Z -> S -> S) s : for_range 0 3 f s = f 2 (f 1 (f 0 s)).
Proof. reflexivity. Qed.

(** The entries of the three data logs, one after the other. *)
Definition data_ent (sbi : f2fs_sb_info) (n0 n1 q : Z) : f2fs_summary :=
  let e i := sb_entries (sum_blk (CURSEG_I sbi i)) in
  if q <? n0 then (e 0).[q] else if q <? n0 + n1 then (e 1).[q - n0] else (e 2).[q - n0 - n1].

Definition data_base (n0 n1 i : Z) : Z := if i =? 0 then 0 else if i =? 1 then n0 else n0 + n1.

Lemma data_ent_at sbi n0 n1 n2 i j :
  0 <= n0 -> 0 <= n1 -> 0 <= i < 3 -> 0 <= j < (if i =? 0 then n0 else if i =? 1 then n1 else n2) ->
  data_ent sbi n0 n1 (data_base n0 n1 i + j) = (sb_entries (sum_blk (CURSEG_I sbi i))).[j].
Proof.
  intros H0 H1 Hi Hj; unfold data_ent, data_base.
  destruct (Z.eqb_spec i 0) as [->|]; [rewrite (proj2 (Z.ltb_lt (0 + j) n0)) by lia; f_equal; lia|].
  destruct (Z.eqb_spec i 1) as [->|].
  - rewrite (proj2 (Z.ltb_ge (n0 + j) n0)), (proj2 (Z.ltb_lt (n0 + j) (n0 + n1))) by lia; f_equal; lia.
  - replace i with 2 by lia; rewrite (proj2 (Z.ltb_ge (n0 + n1 + j) n0)), (proj2 (Z.ltb_ge (n0 + n1 + j) (n0 + n1))) by lia; f_equal; lia.
Qed.

Lemma npages_compact sbi c n0 n1 n2 :
  compact_blkoff sbi c 0 = n0 -> compact_blkoff sbi c 1 = n1 -> compact_blkoff sbi c 2 = n2 ->
  0 <= n0 -> 0 <= n1 -> 0 <= n2 ->
  npages_for_summary_flush sbi c false < 3 ->
  cpage (n0 + n1 + n2) <= npages_for_summary_flush sbi c false /\
  forall q, 0 <= q < n0 + n1 + n2 -> cpage q < npages_for_summary_flush sbi c false.
Proof.
  unfold compact_blkoff; intros E0 E1 E2 P0 P1 P2; unfold npages_for_summary_flush.
  set (v := for_range _ _ _ _).
  assert (Ev : v = n0 + n1 + n2).
  { unfold v; rewrite <- E0, <- E1, <- E2; change (for_range CURSEG_HOT_DATA (CURSEG_COLD_DATA + 1)) with (@for_range Z 0 3).
    rewrite for_range_three; destruct ((ck_alloc_type c).[0] =? SSR), ((ck_alloc_type c).[1] =? SSR), ((ck_alloc_type c).[2] =? SSR); lia. }
  rewrite Ev; change ((PAGE_CACHE_SIZE - 2 * SUM_JOURNAL_SIZE - SUM_FOOTER_SIZE) / SUMMARY_SIZE) with 439.
  change ((PAGE_CACHE_SIZE - SUM_FOOTER_SIZE) / SUMMARY_SIZE) with 584.
  set (N := n0 + n1 + n2) in *; unfold cpage.
  destruct (Z.leb_spec N 439), (Z.leb_spec (N - 439) 584); intros; try lia.
  - split; [destruct (Z.ltb_spec N 439); lia|intros q Hq; destruct (Z.ltb_spec q 439); lia].
  - split; [destruct (Z.ltb_spec N 439); lia|intros q Hq; destruct (Z.ltb_spec q 439); lia].
Qed.

Lemma write_compacted_ok sbi c a m n0 n1 n2 :
  compact_blkoff sbi c 0 = n0 -> compact_blkoff sbi c 1 = n1 -> compact_blkoff sbi c 2 = n2 ->
  0 <= n0 -> 0 <= n1 -> 0 <= n2 -> 0 <= a -> a + cpage (n0 + n1 + n2) + 1 < 2 ^ 32 ->
  compacted a (data_ent sbi n0 n1) (journal_of (sum_blk (CURSEG_I sbi 0))) (journal_of (sum_blk (CURSEG_I sbi 2)))
    (n0 + n1 + n2) (write_compacted_summaries sbi c a m).
Proof.
  intros E0 E1 E2 P0 P1 P2 Ha Ht; unfold write_compacted_summaries; cbv zeta.
  set (nat := journal_of _); set (sit := journal_of _); set (ent := data_ent sbi n0 n1).
  pose proof (cpos_mono 0 (n0 + n1 + n2) ltac:(lia)) as Hm.
  set (w0 := mk_cw _ _ _ _).
  assert (I0 : cw_inv a ent nat sit 0 w0).
  { constructor; unfold w0; cbn [cw_page cw_written cw_blkaddr cw_meta].
    - change (cpage 0) with 0 in *; rewrite u32_small by lia; repeat split; lia.
    - unfold compacted, get_compact; rewrite lookup_insert_eq; repeat split; intros; lia. }
  change (for_range CURSEG_HOT_DATA (CURSEG_COLD_DATA + 1)) with (@for_range compact_writer 0 3).
  rewrite for_range_three, E0, E1, E2.
  assert (He : forall i j, 0 <= i < 3 -> 0 <= j < (if i =? 0 then n0 else if i =? 1 then n1 else n2) ->
    (sb_entries (sum_blk (CURSEG_I sbi i))).[j] = ent (data_base n0 n1 i + j))
    by (intros i j Hi Hj; symmetry; apply (data_ent_at sbi n0 n1 n2); assumption).
  assert (I1 := write_compact_run a ent nat sit (n0 + n1 + n2) Ha Ht 0 n0 _ w0 ltac:(lia) P0 ltac:(lia) (fun j Hj => He 0 j ltac:(lia) Hj) I0).
  assert (I2 := write_compact_run a ent nat sit (n0 + n1 + n2) Ha Ht n0 n1 _ _ P0 P1 ltac:(lia) (fun j Hj => He 1 j ltac:(lia) Hj) I1).
  assert (I3 := write_compact_run a ent nat sit (n0 + n1 + n2) Ha Ht (n0 + n1) n2 _ _ ltac:(lia) P2 ltac:(lia) (fun j Hj => He 2 j ltac:(lia) Hj) I2).
  exact (cwi_data _ _ _ _ _ _ I3).
Qed.

(** A log as the checkpoint block describes it. *)
Definition log_placed (l : curseg_info) (segno off mode : Z) : Prop :=
  cs_segno l = segno /\ next_blkoff l = off /\ alloc_type l = mode.

Definition compact_log_ok (c : f2fs_checkpoint) (ent : Z -> f2fs_summary) (base n i : Z) (l : curseg_info) : Prop :=
  log_placed l ((cur_data_segno c).[i]) ((cur_data_blkoff c).[i]) ((ck_alloc_type c).[i]) /\
  forall j, 0 <= j < n -> (sb_entries (sum_blk l)).[j] = ent (base + j).

Lemma set_journal_ok k j s :
  0 <= k < zlen (curseg_array s) ->
  read_frame s (set_journal k j s) /\
  journal_of (sum_blk (CURSEG_I (set_journal k j s) k)) = j /\
  (forall i, i <> k -> CURSEG_I (set_journal k j s) i = CURSEG_I s i) /\
  (forall i, sb_entries (sum_blk (CURSEG_I (set_journal k j s) i)) = sb_entries (sum_blk (CURSEG_I s i))).
Proof.
  intros Hk; unfold set_journal; cbv zeta; split; [apply read_frame_set|split; [|split]].
  - rewrite curseg_get, Z.eqb_refl by exact Hk; destruct j; reflexivity.
  - intros i Hi; rewrite curseg_get, (proj2 (Z.eqb_neq k i)) by auto; reflexivity.
  - intros i; rewrite curseg_get by exact Hk; destruct (Z.eqb_spec k i) as [->|]; reflexivity.
Qed.

Lemma read_compacted_ok rs c m s a ent nat sit n0 n1 n2 :
  start_sum_block (geo s) rs c 0 = a -> 0 <= a -> a + cpage (n0 + n1 + n2) + 1 < 2 ^ 32 ->
  compacted a ent nat sit (n0 + n1 + n2) m ->
  (forall i, 0 <= i < 3 -> (if i =? 0 then n0 else if i =? 1 then n1 else n2) =
     if (ck_alloc_type c).[i] =? SSR then blocks_per_seg (geo s) else (cur_data_blkoff c).[i]) ->
  0 <= n0 <= 512 -> 0 <= n1 <= 512 -> 0 <= n2 <= 512 -> 3 <= zlen (curseg_array s) ->
  (forall i, 0 <= i < 3 -> zlen (sb_entries (sum_blk (CURSEG_I s i))) = 512) ->
  let s' := read_compacted_summaries rs c m s in
  read_frame s s' /\
  compact_log_ok c ent 0 n0 0 (CURSEG_I s' 0) /\ compact_log_ok c ent n0 n1 1 (CURSEG_I s' 1) /\
  compact_log_ok c ent (n0 + n1) n2 2 (CURSEG_I s' 2) /\
  journal_of (sum_blk (CURSEG_I s' 0)) = nat /\ journal_of (sum_blk (CURSEG_I s' 2)) = sit.
Proof.
  intros Ea Ha Ht Hc Hn P0 P1 P2 Hz He; cbv zeta; unfold read_compacted_summaries; rewrite Ea.
  rewrite (proj1 Hc), (proj1 (proj2 Hc)); change CURSEG_HOT_DATA with 0; change CURSEG_COLD_DATA with 2.
  destruct (set_journal_ok 0 nat s) as (A1 & A2 & A3 & A4); [lia|].
  set (s1 := set_journal 0 nat s) in *.
  destruct (set_journal_ok 2 sit s1) as (B1 & B2 & B3 & B4); [rewrite (rf_len _ _ A1); lia|].
  set (s2 := set_journal 2 sit s1) in *; clearbody s1 s2.
  pose proof (read_frame_trans _ _ _ A1 B1) as F0.
  assert (He2 : forall i, 0 <= i < 3 -> zlen (sb_entries (sum_blk (CURSEG_I s2 i))) = 512)
    by (intros i Hi; rewrite B4, A4; apply He; exact Hi).
  change (for_range 0 (2 + 1)) with (@for_range compact_reader 0 3); rewrite for_range_three.
  set (r0 := mk_cr s2 a (u32 (a + 1)) (2 * SUM_JOURNAL_SIZE)).
  pose proof (cpos_mono 0 (n0 + n1 + n2) ltac:(lia)) as Hm.
  assert (I0 : cr_inv a 0 r0) by (constructor; cbn [cr_page cr_start cr_offset r0]; change (cpage 0) with 0 in *;
    rewrite ?u32_small by lia; try lia; reflexivity).
  destruct (read_log_ok a ent nat sit (n0 + n1 + n2) Ha Ht m c 0 0 n0 r0 Hc) as (I1 & F1 & O1 & S1 & S2 & S3 & S4 & S5); try lia; auto.
  { cbn; rewrite (rf_len _ _ F0); lia. } { cbn; rewrite He2; lia. } { cbn; rewrite (rf_geo _ _ F0); apply (Hn 0); lia. }
  set (r1 := read_compact_log m c 0 r0) in *; clearbody r1; cbn [cr_sbi r0] in F1, O1, S4.
  pose proof (read_frame_trans _ _ _ F0 F1) as F01.
  destruct (read_log_ok a ent nat sit (n0 + n1 + n2) Ha Ht m c 1 n0 n1 r1 Hc) as (I2 & F2 & O2 & T1 & T2 & T3 & T4 & T5); try lia; auto.
  { rewrite (rf_len _ _ F01); lia. } { rewrite O1, He2; lia. } { rewrite (rf_geo _ _ F01); apply (Hn 1); lia. }
  set (r2 := read_compact_log m c 1 r1) in *; clearbody r2.
  pose proof (read_frame_trans _ _ _ F01 F2) as F02.
  destruct (read_log_ok a ent nat sit (n0 + n1 + n2) Ha Ht m c 2 (n0 + n1) n2 r2 Hc) as (I3 & F3 & O3 & U1 & U2 & U3 & U4 & U5); try lia; auto.
  { rewrite (rf_len _ _ F02); lia. } { rewrite O2, O1, He2; lia. } { rewrite (rf_geo _ _ F02); apply (Hn 2); lia. }
  set (r3 := read_compact_log m c 2 r2) in *; clearbody r3.
  split; [exact (read_frame_trans _ _ _ F02 F3)|].
  rewrite (O3 0), (O3 1), (O2 0) by lia; unfold compact_log_ok, log_placed.
  rewrite S4, U4, (O2 2), (O1 2), B2, (B3 0), A2 by lia; auto 20.
Qed.

(** * Normal summaries *)

Section Normal.
Variables (node_nid : Z -> Z) (rs : raw_super) (c : f2fs_checkpoint) (m : meta).

Definition normal_segno (type mlog : Z) : Z :=
  if IS_DATASEG type then (cur_data_segno c).[3 * mlog + type] else (cur_node_segno c).[3 * mlog + type - 3].

Definition normal_blkoff (type mlog : Z) : Z :=
  if IS_DATASEG type then (cur_data_blkoff c).[3 * mlog + type] else (cur_node_blkoff c).[3 * mlog + type - 3].

Definition normal_sum (s : f2fs_sb_info) (type mlog : Z) : f2fs_summary_block :=
  let g := geo s in
  let exist := __exist_node_summaries c in
  let segno := normal_segno type mlog in
  if IS_DATASEG type then
    get_sum m (sum_blk_addr g rs c ((if exist then 6 else 3) * (nr_mlog g - mlog)) type)
  else if exist then
    clear_node_entries g (get_sum m (sum_blk_addr g rs c (3 + 6 * (nr_mlog g - mlog - 1)) (type - 3)))
  else restore_node_summary node_nid g segno (get_sum_page s segno).

Definition normal_log (s : f2fs_sb_info) (type mlog : Z) : curseg_info :=
  mk_curseg (reset_footer type (normal_sum s type mlog)) ((ck_alloc_type c).[type]) (normal_segno type mlog)
    (normal_blkoff type mlog) (GET_ZONENO_FROM_SEGNO (geo s) (normal_segno type mlog)) NULL_SEGNO.

Lemma read_normal_eq type mlog s :
  0 <= type < 6 ->
  read_normal_summaries node_nid rs c m type mlog s =
  place_log type mlog (normal_segno type mlog) (normal_blkoff type mlog) ((ck_alloc_type c).[type])
    (normal_sum s type mlog) s.
Proof.
  intros Ht; unfold read_normal_summaries, normal_sum, normal_segno, normal_blkoff, place_log; cbv zeta.
  assert (E : IS_NODESEG type = negb (IS_DATASEG type)) by (unfold IS_NODESEG, IS_DATASEG, CURSEG_COLD_DATA, CURSEG_COLD_NODE, CURSEG_HOT_NODE; lia).
  rewrite E; destruct (IS_DATASEG type); cbn [negb]; destruct (__exist_node_summaries c); reflexivity.
Qed.

Lemma normal_log_frame s t type mlog : read_frame s t -> normal_log t type mlog = normal_log s type mlog.
Proof. intros [E1 E2 _]; unfold normal_log, normal_sum, get_sum_page; rewrite E1, E2; reflexivity. Qed.

Lemma read_types_ok lo mlog s :
  0 <= lo <= 6 -> 0 <= mlog -> 6 * (mlog + 1) <= zlen (curseg_array s) ->
  let s' := for_range lo 6 (fun t => read_normal_summaries node_nid rs c m t mlog) s in
  read_frame s s' /\
  (forall t, lo <= t < 6 -> CURSEG_I s' (log_of t mlog) = normal_log s t mlog) /\
  (forall k, ~ (log_of lo mlog <= k < log_of 6 mlog) -> CURSEG_I s' k = CURSEG_I s k).
Proof.
  intros Hlo Hm Hz; cbv zeta; unfold log_of; change NR_CURSEG_TYPE with 6.
  apply (for_range_ind (fun b s' => read_frame s s' /\
    (forall t, lo <= t < b -> CURSEG_I s' (t + mlog * 6) = normal_log s t mlog) /\
    (forall k, ~ (lo + mlog * 6 <= k < b + mlog * 6) -> CURSEG_I s' k = CURSEG_I s k))); [lia| |].
  - split; [apply read_frame_refl|split; [intros; lia|auto]].
  - intros b u Hb (I1 & I2 & I3); rewrite read_normal_eq by lia.
    destruct (place_log_ok b mlog (normal_segno b mlog) (normal_blkoff b mlog) ((ck_alloc_type c).[b]) (normal_sum u b mlog) u)
      as [P1 P2]; [unfold log_of; change NR_CURSEG_TYPE with 6; rewrite (rf_len _ _ I1); lia|]; unfold log_of in P2; change NR_CURSEG_TYPE with 6 in P2.
    split; [exact (read_frame_trans _ _ _ I1 P1)|split].
    + intros t Ht; rewrite P2; destruct (Z.eqb_spec (b + mlog * 6) (t + mlog * 6)) as [E|E].
      * replace t with b by lia; rewrite <- (normal_log_frame s u b mlog I1); reflexivity.
      * apply I2; lia.
    + intros k Hk; rewrite P2, (proj2 (Z.eqb_neq (b + mlog * 6) k)) by lia; apply I3; lia.
Qed.

Lemma restore_ok s :
  0 < nr_mlog (geo s) -> zlen (curseg_array s) = 6 * nr_mlog (geo s) ->
  let compact := is_set_ckpt_flags c CP_COMPACT_SUM_FLAG in
  let s' := restore_curseg_summaries node_nid rs c m s in
  let s1 := if compact then read_compacted_summaries rs c m s else s in
  read_frame s s1 ->
  read_frame s s' /\
  (forall t i, 0 <= t < 6 -> 0 <= i < nr_mlog (geo s) -> (compact = true -> i = 0 -> 3 <= t) ->
     CURSEG_I s' (log_of t i) = normal_log s t i) /\
  (compact = true -> forall k, 0 <= k < 3 -> CURSEG_I s' k = CURSEG_I s1 k).
Proof.
  intros Hn Hz; cbv zeta; unfold restore_curseg_summaries; cbv zeta.
  set (compact := is_set_ckpt_flags c CP_COMPACT_SUM_FLAG).
  set (s1 := if compact then _ else s); set (lo := if compact then CURSEG_HOT_NODE else CURSEG_HOT_DATA).
  intros F1; change (CURSEG_COLD_NODE + 1) with 6; change CURSEG_HOT_DATA with 0 at 1.
  assert (Hlo : 0 <= lo <= 6 /\ (compact = true -> lo = 3) /\ (compact = false -> lo = 0))
    by (unfold lo, CURSEG_HOT_NODE, CURSEG_HOT_DATA; destruct compact; repeat split; intros; try discriminate; lia).
  destruct Hlo as (L1 & L2 & L3).
  destruct (read_types_ok lo 0 s1 L1 ltac:(lia) ltac:(rewrite (rf_len _ _ F1); lia)) as (G1 & G2 & G3).
  set (s2 := for_range lo 6 _ s1) in *; clearbody s2.
  pose proof (read_frame_trans _ _ _ F1 G1) as F2; rewrite (rf_geo _ _ F2).
  set (f := fun i sbi => for_range 0 6 _ sbi).
  assert (HL : read_frame s2 (for_range 1 (nr_mlog (geo s)) f s2) /\
    (forall t i, 0 <= t < 6 -> 1 <= i < nr_mlog (geo s) -> CURSEG_I (for_range 1 (nr_mlog (geo s)) f s2) (log_of t i) = normal_log s t i) /\
    (forall k, 0 <= k < 6 -> CURSEG_I (for_range 1 (nr_mlog (geo s)) f s2) k = CURSEG_I s2 k)).
  { apply (for_range_ind (fun b u => read_frame s2 u /\
      (forall t i, 0 <= t < 6 -> 1 <= i < b -> CURSEG_I u (log_of t i) = normal_log s t i) /\
      (forall k, 0 <= k < 6 -> CURSEG_I u k = CURSEG_I s2 k))); [lia|split; [apply read_frame_refl|split; [intros; lia|auto]]|].
    intros b u Hb (U1 & U2 & U3); pose proof (read_frame_trans _ _ _ F2 U1) as U4.
    destruct (read_types_ok 0 b u ltac:(lia) ltac:(lia) ltac:(rewrite (rf_len _ _ U4); lia)) as (V1 & V2 & V3).
    unfold f; split; [exact (read_frame_trans _ _ _ U1 V1)|split].
    - intros t i Ht Hi; destruct (Z.eq_dec i b) as [->|]; [rewrite V2 by exact Ht; apply normal_log_frame; exact U4|].
      rewrite V3 by (unfold log_of; change NR_CURSEG_TYPE with 6; lia); apply U2; lia.
    - intros k Hk; rewrite V3 by (unfold log_of; change NR_CURSEG_TYPE with 6; lia); apply U3; exact Hk. }
  destruct HL as (H1 & H2 & H3); split; [exact (read_frame_trans _ _ _ F2 H1)|split].
  - intros t i Ht Hi Hc; destruct (Z.eq_dec i 0) as [->|]; [|apply H2; lia].
    rewrite H3 by (unfold log_of; change NR_CURSEG_TYPE with 6; lia).
    rewrite G2 by (destruct compact; [rewrite L2 by reflexivity; specialize (Hc eq_refl eq_refl)|rewrite L3 by reflexivity]; lia).
    apply normal_log_frame; exact F1.
  - intros Hc k Hk; rewrite H3, G3; [reflexivity|rewrite (L2 Hc); unfold log_of; change NR_CURSEG_TYPE with 6; lia|lia].
Qed.
End Normal.

(** * The round trip *)

(** Summary blocks have their 512 entries. *)
Record sums_wf (sbi : f2fs_sb_info) : Prop := {
  su_log : forall k, 0 <= k < nr_logs sbi -> zlen (sb_entries (sum_blk (CURSEG_I sbi k))) = 512;
  su_ssa : forall b s, ssa sbi !! b = Some s -> zlen (sb_entries s) = 512;
}.

(** What of the logs of [sbi] is found again in [s]. *)
Record logs_restored (node_nid : Z -> Z) (remain : bool) (sbi s : f2fs_sb_info) : Prop := {
  lr_pos : forall t i, 0 <= t < 6 -> 0 <= i < nr_mlog (geo sbi) ->
    curseg_segno s (log_of t i) = curseg_segno sbi (log_of t i) /\
    curseg_blkoff s (log_of t i) = curseg_blkoff sbi (log_of t i);
  lr_mode : forall t i, 0 <= t < 6 -> 0 <= i < nr_mlog (geo sbi) ->
    curseg_alloc_type s (log_of t i) = curseg_alloc_type sbi t;
  lr_data : forall t i j, 0 <= t < 3 -> 0 <= i < nr_mlog (geo sbi) -> 0 <= j < 512 ->
    j < curseg_blkoff sbi (log_of t i) \/ curseg_alloc_type sbi (log_of t i) = SSR ->
    (sb_entries (sum_blk (CURSEG_I s (log_of t i)))).[j] = (sb_entries (sum_blk (CURSEG_I sbi (log_of t i)))).[j];
  lr_node : forall t i j, 3 <= t < 6 -> 0 <= i < nr_mlog (geo sbi) -> 0 <= j < 512 ->
    sm_nid ((sb_entries (sum_blk (CURSEG_I s (log_of t i)))).[j]) =
    if remain then sm_nid ((sb_entries (sum_blk (CURSEG_I sbi (log_of t i)))).[j])
    else node_nid (START_BLOCK (geo sbi) (curseg_segno sbi (log_of t i)) + j);
  lr_nat : journal_of (sum_blk (CURSEG_I s CURSEG_HOT_DATA)) = journal_of (sum_blk (CURSEG_I sbi CURSEG_HOT_DATA));
  lr_sit : journal_of (sum_blk (CURSEG_I s CURSEG_COLD_DATA)) = journal_of (sum_blk (CURSEG_I sbi CURSEG_COLD_DATA));
}.

Lemma clear_nodes_ok g b j :
  geo_wf g -> zlen (sb_entries b) = 512 -> 0 <= j < 512 ->
  sm_nid ((sb_entries (clear_node_entries g b)).[j]) = sm_nid ((sb_entries b).[j]).
Proof.
  intros Hg Hz Hj; unfold clear_node_entries; rewrite blocks_per_seg_512 by exact Hg; cbn [sb_entries with_sb_entries].
  apply (for_range_inv (fun l => zlen l = 512 /\ sm_nid (l.[j]) = sm_nid ((sb_entries b).[j]))); [auto|].
  intros i t Hi [T1 T2]; split; [rewrite zlen_aset; exact T1|].
  rewrite aget_aset by lia; destruct (Z.eqb_spec i j) as [->|]; exact T2.
Qed.

Lemma restore_nodes_ok nid g segno b j :
  geo_wf g -> 0 <= segno < main_segments g -> zlen (sb_entries b) = 512 -> 0 <= j < 512 ->
  sm_nid ((sb_entries (restore_node_summary nid g segno b)).[j]) = nid (START_BLOCK g segno + j).
Proof.
  intros Hg Hs Hz Hj; unfold restore_node_summary; rewrite blocks_per_seg_512 by exact Hg; cbn [sb_entries with_sb_entries].
  rewrite START_BLOCK_val by assumption.
  assert (H : forall n, 0 <= n <= 512 -> let l := for_range 0 n (fun i l => l.[i <- mk_summary (nid (u32 (main_blkaddr g + segno * 512 + i))) 0 0]) (sb_entries b) in
    zlen l = 512 /\ forall j, 0 <= j < n -> sm_nid (l.[j]) = nid (main_blkaddr g + segno * 512 + j)).
  { intros n Hn; cbv zeta; apply (for_range_ind (fun n l => zlen l = 512 /\ forall j, 0 <= j < n -> sm_nid (l.[j]) = nid (main_blkaddr g + segno * 512 + j)));
      [lia|split; [exact Hz|intros; lia]|].
    intros i t Hi [T1 T2]; split; [rewrite zlen_aset; exact T1|].
    intros j' Hj'; rewrite aget_aset by lia; destruct (Z.eqb_spec i j') as [->|]; [|apply T2; lia].
    cbn; rewrite u32_small; [reflexivity|]; destruct Hg; lia. }
  apply H; lia.
Qed.

Section Trip.
Variables (node_nid : Z -> Z) (rs : raw_super) (sbi s0 : f2fs_sb_info) (x : cp_inputs) (reason ver : Z) (c : f2fs_checkpoint) (m : meta).
Hypothesis Hi : sm_wf sbi.
Hypothesis Hs : sums_wf sbi.
Hypothesis Hg0 : geo s0 = geo sbi.
Hypothesis Hssa : ssa s0 = ssa sbi.
Hypothesis Hfit : pack_fits rs sbi x reason c.
Hypothesis Hc : filled rs sbi x reason ver c.

Let g := geo sbi.
Let n := nr_mlog g.
Let remain := __remain_node_summaries reason.
Let O := GET_ORPHAN_BLOCKS (orphan_num x).
Let D := npages_for_summary_flush sbi c false.
Let start := __start_cp_addr g rs c.
Let sums := start + 1 + cp_payload rs + O.
Let m' := snd (write_pack rs sbi x reason c m).

Lemma trip_pages :
  fst (write_pack rs sbi x reason c m) = start + cp_pack_total_block_count c - 1 /\
  m' !! fst (write_pack rs sbi x reason c m) = Some (MCkpt c) /\
  (exists m1, forall b, sums <= b < sums + D -> m' !! b = write_data_summaries sbi c sums m1 !! b) /\
  (remain = true -> forall t, 0 <= t < 3 -> m' !! (sums + D + t) = Some (log_sum sbi (3 + t) 0)) /\
  (forall i t, 1 <= i < n -> 0 <= t < (if remain then 6 else 3) ->
     m' !! (sums + D + (if remain then 3 + 6 * (i - 1) else 3 * (i - 1)) + t) = Some (log_sum sbi t i)).
Proof.
  pose proof (write_pack_pages rs sbi x reason ver c m n O D start sums remain eq_refl eq_refl eq_refl eq_refl eq_refl eq_refl Hfit Hc) as H.
  unfold m'; destruct (write_pack rs sbi x reason c m) as [a mm]; cbn [fst snd].
  destruct H as (H1 & H2 & H3); split; [exact H1|split; [exact H2|exact H3]].
Qed.

Lemma trip_numbers :
  0 <= sums /\ 0 < n <= MAX_EXTEND_LOGS + 1 /\ 1 <= D <= 3 /\ sums + D + 1 + pack_extra remain n < 2 ^ 32 /\ 0 <= pack_extra remain n /\
  start_sum_block g rs c 0 = sums /\ start + cp_pack_total_block_count c = sums + D + 1 + pack_extra remain n.
Proof.
  destruct (pack_numbers rs sbi x reason ver c n O D start remain eq_refl eq_refl eq_refl eq_refl eq_refl Hfit Hc)
    as (F1 & F2 & F3 & HO & HD & F4 & He & N1 & N2 & N3).
  assert (B : 0 <= sums) by (unfold sums; lia).
  split; [exact B|split; [exact F3|split; [exact HD|split; [unfold sums; lia|split; [exact He|split]]]]].
  - unfold start_sum_block; fold start; rewrite N2, u32_small; unfold sums; lia.
  - rewrite N3; unfold sums; lia.
Qed.

Lemma trip_position t i :
  0 <= t < 6 -> 0 <= i < n ->
  normal_segno c t i = curseg_segno sbi (log_of t i) /\ normal_blkoff c t i = curseg_blkoff sbi (log_of t i).
Proof.
  intros Ht Hn; unfold normal_segno, normal_blkoff, log_of; change NR_CURSEG_TYPE with 6.
  destruct (fi_saved _ _ _ _ _ _ Hc) as [_ Sn Sd _]; fold g n in Sn, Sd.
  unfold IS_DATASEG; change CURSEG_COLD_DATA with 2; destruct (Z.leb_spec t 2).
  - destruct (Sd t i ltac:(lia) Hn) as [<- <-]; split; f_equal; lia.
  - destruct (Sn (t - 3) i ltac:(lia) Hn) as [E1 E2]; replace (t + i * 6) with (t - 3 + 3 + i * 6) by lia.
    rewrite <- E1, <- E2; split; f_equal; lia.
Qed.

Lemma trip_mode k : 0 <= k < 6 * n -> (ck_alloc_type c).[k] = curseg_alloc_type sbi k.
Proof using Hi Hc.
  clear node_nid; intros Hk; destruct (fi_saved _ _ _ _ _ _ Hc) as [_ _ _ St]; rewrite St by exact Hk.
  destruct (lg_mode _ _ _ (si_log _ _ _ Hi k ltac:(unfold nr_logs; fold g n; lia))) as [E|E];
    unfold curseg_alloc_type; rewrite E; reflexivity.
Qed.

Lemma trip_log_sum t i :
  0 <= t < 6 -> 0 <= i < n -> (t < 3 -> i = 0 -> D = 3) -> (3 <= t -> remain = true) ->
  get_sum m' (if IS_DATASEG t then sum_blk_addr g rs c ((if remain then 6 else 3) * (n - i)) t
              else sum_blk_addr g rs c (3 + 6 * (n - i - 1)) (t - 3)) = sum_blk (CURSEG_I sbi (log_of t i)).
Proof.
  intros Ht Hn HD3 Hr; destruct trip_numbers as (B1 & B2 & B3 & B4 & B5 & B6 & B7).
  destruct trip_pages as (_ & _ & (m1 & P3) & P4 & P5).
  unfold sum_blk_addr; fold start; rewrite !B7; unfold IS_DATASEG; change CURSEG_COLD_DATA with 2.
  unfold get_sum; cut (m' !! (if t <=? 2 then u32 (sums + D + 1 + pack_extra remain n - ((if remain then 6 else 3) * (n - i) + 1) + t)
    else u32 (sums + D + 1 + pack_extra remain n - (3 + 6 * (n - i - 1) + 1) + (t - 3))) = Some (log_sum sbi t i)).
  { destruct (t <=? 2); intros ->; reflexivity. }
  unfold pack_extra in *; destruct (Z.leb_spec t 2).
  - destruct (Z.eq_dec i 0) as [->|Hne].
    + rewrite u32_small by (destruct remain; lia).
      replace (sums + D + 1 + _ - _ + t) with (sums + t) by (destruct remain; lia).
      rewrite P3 by lia; unfold write_data_summaries; rewrite (fi_compact _ _ _ _ _ _ Hc); fold D.
      rewrite (proj2 (Z.ltb_ge D 3)) by lia; unfold write_normal_summaries; change CURSEG_HOT_DATA with 0.
      rewrite normal_pages by (auto; lia); rewrite (proj2 (Z.leb_le sums _)), (proj2 (Z.ltb_lt (sums + t) (sums + 3))) by lia; cbn [andb].
      do 2 f_equal; lia.
    + rewrite u32_small by (destruct remain; lia); rewrite <- (P5 i t) by (destruct remain; lia).
      f_equal; destruct remain; lia.
  - specialize (Hr ltac:(lia)); rewrite Hr in *; rewrite u32_small by lia.
    destruct (Z.eq_dec i 0) as [->|Hne].
    + replace (sums + D + 1 + _ - _ + (t - 3)) with (sums + D + (t - 3)) by lia; rewrite P4 by (auto; lia).
      do 2 f_equal; lia.
    + rewrite <- (P5 i t) by lia; f_equal; lia.
Qed.

(** The logs read one block each. *)
Lemma trip_normal t i :
  0 <= t < 6 -> 0 <= i < n -> (t < 3 -> i = 0 -> D = 3) ->
  let l := normal_log node_nid rs c m' s0 t i in
  log_placed l (curseg_segno sbi (log_of t i)) (curseg_blkoff sbi (log_of t i)) (curseg_alloc_type sbi t) /\
  (t < 3 -> sb_entries (sum_blk l) = sb_entries (sum_blk (CURSEG_I sbi (log_of t i))) /\
            journal_of (sum_blk l) = journal_of (sum_blk (CURSEG_I sbi (log_of t i)))) /\
  (3 <= t -> forall j, 0 <= j < 512 -> sm_nid ((sb_entries (sum_blk l)).[j]) =
     if remain then sm_nid ((sb_entries (sum_blk (CURSEG_I sbi (log_of t i)))).[j])
     else node_nid (START_BLOCK g (curseg_segno sbi (log_of t i)) + j)).
Proof.
  intros Ht Hn HD; cbv zeta; destruct (trip_position t i Ht Hn) as [E1 E2].
  assert (Hk : 0 <= log_of t i < nr_logs sbi) by (unfold log_of, nr_logs; change NR_CURSEG_TYPE with 6; fold g n; nia).
  pose proof (fi_nodes _ _ _ _ _ _ Hc) as Hx; fold remain in Hx.
  unfold normal_log, log_placed; cbn [cs_segno next_blkoff alloc_type sum_blk]; rewrite E1, E2, (trip_mode t) by nia.
  split; [auto|]; rewrite !(proj1 (reset_footer_keeps t _)), !(proj2 (reset_footer_keeps t _)).
  unfold normal_sum; rewrite Hg0, Hx, E1; fold g n; cbv zeta; pose proof (trip_log_sum t i Ht Hn HD) as Hl.
  unfold IS_DATASEG in *; change CURSEG_COLD_DATA with 2 in *; destruct (Z.leb_spec t 2); split; intros; try lia.
  - rewrite Hl by lia; auto.
  - destruct remain.
    + rewrite Hl by auto; apply clear_nodes_ok; auto; [apply (si_geo _ _ _ Hi)|apply Hs; exact Hk].
    + apply restore_nodes_ok; auto; [apply (si_geo _ _ _ Hi)|exact (lg_seg _ _ _ (si_log _ _ _ Hi _ Hk))|].
      unfold get_sum_page; rewrite Hssa; destruct (ssa sbi !! _) eqn:E; [exact (su_ssa _ Hs _ _ E)|reflexivity].
Qed.

Lemma compacted_ext a ent nat sit q k m1 m2 :
  (forall r, 0 <= r < q -> cpage r < k) -> 0 < k -> (forall b, a <= b < a + k -> m2 !! b = m1 !! b) ->
  compacted a ent nat sit q m1 -> compacted a ent nat sit q m2.
Proof.
  intros Hq Hk He (C1 & C2 & C3).
  assert (E : forall b, a <= b < a + k -> get_compact m2 b = get_compact m1 b) by (intros b Hb; unfold get_compact; rewrite He by exact Hb; reflexivity).
  split; [rewrite E by lia; exact C1|split; [rewrite E by lia; exact C2|]].
  intros r Hr; pose proof (cpos_mono 0 r ltac:(lia)) as Hm; change (cpage 0) with 0 in Hm.
  specialize (Hq r Hr); rewrite E by lia; apply C3; exact Hr.
Qed.

Definition trip_n (t : Z) : Z := if curseg_alloc_type sbi t =? SSR then 512 else curseg_blkoff sbi t.

Lemma trip_n_range t : 0 <= t < 6 -> compact_blkoff sbi c t = trip_n t /\ 0 <= trip_n t <= 512.
Proof.
  intros Ht; destruct trip_numbers as (_ & B2 & _).
  pose proof (si_cursor _ _ _ Hi t ltac:(unfold nr_logs; fold g n; lia) ltac:(set_solver)) as [Hu _ _].
  unfold compact_blkoff, trip_n; rewrite (trip_mode t) by lia; rewrite blocks_per_seg_512 by apply (si_geo _ _ _ Hi).
  split; [reflexivity|]; unfold curseg_blkoff; destruct (_ =? _); lia.
Qed.

Lemma trip_compact (s : f2fs_sb_info) :
  D < 3 -> geo s = geo sbi -> 3 <= zlen (curseg_array s) ->
  (forall i, 0 <= i < 3 -> zlen (sb_entries (sum_blk (CURSEG_I s i))) = 512) ->
  let s' := read_compacted_summaries rs c m' s in
  read_frame s s' /\
  (forall t, 0 <= t < 3 ->
     log_placed (CURSEG_I s' t) (curseg_segno sbi t) (curseg_blkoff sbi t) (curseg_alloc_type sbi t) /\
     forall j, 0 <= j < trip_n t -> (sb_entries (sum_blk (CURSEG_I s' t))).[j] = (sb_entries (sum_blk (CURSEG_I sbi t))).[j]) /\
  journal_of (sum_blk (CURSEG_I s' 0)) = journal_of (sum_blk (CURSEG_I sbi 0)) /\
  journal_of (sum_blk (CURSEG_I s' 2)) = journal_of (sum_blk (CURSEG_I sbi 2)).
Proof.
  intros HD Hg Hz He; cbv zeta; destruct trip_numbers as (B1 & B2 & B3 & B4 & B5 & B6 & B7).
  destruct (trip_n_range 0 ltac:(lia)) as [E0 N0], (trip_n_range 1 ltac:(lia)) as [E1 N1], (trip_n_range 2 ltac:(lia)) as [E2 N2].
  destruct (npages_compact sbi c _ _ _ E0 E1 E2) as [K1 K2]; try lia; fold D in K1, K2.
  set (T := trip_n 0 + trip_n 1 + trip_n 2) in *.
  assert (Ht : sums + cpage T + 1 < 2 ^ 32) by lia.
  destruct trip_pages as (_ & _ & (m1 & P3) & _ & _).
  pose proof (write_compacted_ok sbi c sums m1 _ _ _ E0 E1 E2 ltac:(lia) ltac:(lia) ltac:(lia) B1 Ht) as W.
  assert (W' := compacted_ext _ _ _ _ T D _ m' K2 ltac:(lia)
    ltac:(intros b Hb; rewrite P3 by exact Hb; unfold write_data_summaries; rewrite (fi_compact _ _ _ _ _ _ Hc);
          fold D; rewrite (proj2 (Z.ltb_lt D 3) HD); reflexivity) W).
  assert (Hpos : forall t, 0 <= t < 3 -> (cur_data_segno c).[t] = curseg_segno sbi t /\ (cur_data_blkoff c).[t] = curseg_blkoff sbi t).
  { intros t Ht3; destruct (fi_saved _ _ _ _ _ _ Hc) as [_ _ Sd _].
    destruct (Sd t 0 Ht3 ltac:(fold g n; lia)) as [X Y]; rewrite Z.mul_0_l, !Z.add_0_r in X, Y; auto. }
  destruct (read_compacted_ok rs c m' s sums _ _ _ (trip_n 0) (trip_n 1) (trip_n 2) ltac:(rewrite Hg; exact B6) B1 Ht W') as (R1 & R2 & R3 & R4 & R5 & R6);
    try lia; auto.
  { intros i Hi3; rewrite (trip_mode i) by lia; rewrite Hg, blocks_per_seg_512 by apply (si_geo _ _ _ Hi).
    rewrite (proj2 (Hpos i Hi3)); fold (trip_n i).
    destruct (Z.eqb_spec i 0) as [->|]; [reflexivity|]; destruct (Z.eqb_spec i 1) as [->|]; [reflexivity|]; replace i with 2 by lia; reflexivity. }
  split; [exact R1|split; [|split; [exact R5|exact R6]]].
  intros t Ht3; destruct (Hpos t Ht3) as [X Y]; rewrite <- X, <- Y, <- (trip_mode t) by lia.
  assert (Hcase : compact_log_ok c (data_ent sbi (trip_n 0) (trip_n 1)) (data_base (trip_n 0) (trip_n 1) t) (trip_n t) t (CURSEG_I (read_compacted_summaries rs c m' s) t))
    by (assert (t = 0 \/ t = 1 \/ t = 2) as [-> | [-> | ->]] by lia; assumption).
  destruct Hcase as [G1 G2]; split; [exact G1|]; intros j Hj; rewrite G2 by exact Hj.
  apply (data_ent_at sbi _ _ (trip_n 2)); try lia.
  destruct (Z.eqb_spec t 0) as [->|]; [exact Hj|]; destruct (Z.eqb_spec t 1) as [->|]; [exact Hj|]; replace t with 2 in Hj by lia; exact Hj.
Qed.

(** The state in which the mount starts to read the logs. *)
Definition blank_logs : f2fs_sb_info :=
  with_curseg_array (replicate (Z.to_nat (NR_CURSEG_TYPE * n)) (mk_curseg inhabitant 0 NULL_SEGNO 0 0 0)) s0.

Lemma blank_len : zlen (curseg_array blank_logs) = 6 * n.
Proof. destruct trip_numbers as (_ & B2 & _); cbn; unfold zlen; rewrite length_replicate; change NR_CURSEG_TYPE with 6; lia. Qed.

Lemma blank_compact (s' := read_compacted_summaries rs c m' blank_logs) : D < 3 ->
  read_frame blank_logs s' /\
  (forall t, 0 <= t < 3 ->
     log_placed (CURSEG_I s' t) (curseg_segno sbi t) (curseg_blkoff sbi t) (curseg_alloc_type sbi t) /\
     forall j, 0 <= j < trip_n t -> (sb_entries (sum_blk (CURSEG_I s' t))).[j] = (sb_entries (sum_blk (CURSEG_I sbi t))).[j]) /\
  journal_of (sum_blk (CURSEG_I s' 0)) = journal_of (sum_blk (CURSEG_I sbi 0)) /\
  journal_of (sum_blk (CURSEG_I s' 2)) = journal_of (sum_blk (CURSEG_I sbi 2)).
Proof.
  destruct trip_numbers as (_ & B2 & _); intros HD; apply trip_compact; [exact HD|exact Hg0|rewrite blank_len; lia|].
  intros i Hi3; unfold CURSEG_I, blank_logs; cbn [curseg_array with_curseg_array].
  rewrite aget_replicate by (change NR_CURSEG_TYPE with 6; lia); reflexivity.
Qed.

(** Every log is read from its own block, or from the compacted summaries. *)
Lemma trip_source t i (s' := build_curseg node_nid rs c m' s0) : 0 <= t < 6 -> 0 <= i < n ->
  (CURSEG_I s' (log_of t i) = normal_log node_nid rs c m' s0 t i /\ (t < 3 -> i = 0 -> D = 3)) \/
  (D < 3 /\ i = 0 /\ t < 3 /\ CURSEG_I s' t = CURSEG_I (read_compacted_summaries rs c m' blank_logs) t).
Proof.
  intros Ht Hti; destruct trip_numbers as (B1 & B2 & B3 & _); unfold s', build_curseg; clear s'; rewrite Hg0; fold g n; fold blank_logs.
  assert (Hgs : geo blank_logs = geo sbi) by exact Hg0.
  assert (Hfc : is_set_ckpt_flags c CP_COMPACT_SUM_FLAG = (D <? 3)) by apply (fi_compact _ _ _ _ _ _ Hc).
  assert (Hfr : read_frame blank_logs (if is_set_ckpt_flags c CP_COMPACT_SUM_FLAG then read_compacted_summaries rs c m' blank_logs else blank_logs)).
  { rewrite Hfc; destruct (Z.ltb_spec D 3) as [HD|]; [apply (blank_compact HD)|apply read_frame_refl]. }
  destruct (restore_ok node_nid rs c m' blank_logs ltac:(rewrite Hgs; exact (proj1 B2)) ltac:(rewrite blank_len, Hgs; reflexivity) Hfr) as (_ & R2 & R3).
  rewrite Hfc, Hgs in *; fold g n in R2; set (s' := restore_curseg_summaries node_nid rs c m' blank_logs) in *; clearbody s'.
  assert (Hnl : forall t i, normal_log node_nid rs c m' blank_logs t i = normal_log node_nid rs c m' s0 t i)
    by (intros; unfold normal_log, normal_sum, get_sum_page; reflexivity).
  destruct (Z.ltb_spec D 3) as [HD|HD].
  - destruct (Z.eq_dec i 0) as [->|Hne]; [destruct (Z.lt_ge_cases t 3)|].
    + right; rewrite R3 by (auto; lia); auto.
    + left; rewrite R2, Hnl by (auto; lia); split; [reflexivity|lia].
    + left; rewrite R2, Hnl by (auto; lia); split; [reflexivity|lia].
  - left; rewrite R2, Hnl by (auto; discriminate); split; [reflexivity|lia].
Qed.

Lemma trip_restored : logs_restored node_nid remain sbi (build_curseg node_nid rs c m' s0).
Proof.
  destruct trip_numbers as (B1 & B2 & B3 & _); pose proof trip_source as Hall; cbv zeta in Hall.
  set (s' := build_curseg node_nid rs c m' s0) in *; clearbody s'.
  assert (Hl0 : forall t, log_of t 0 = t) by (intros; unfold log_of; lia).
  assert (Hat : forall t i, 0 <= t < 6 -> 0 <= i < n ->
    log_placed (CURSEG_I s' (log_of t i)) (curseg_segno sbi (log_of t i)) (curseg_blkoff sbi (log_of t i)) (curseg_alloc_type sbi t)).
  { intros t i Ht Hti; destruct (Hall t i Ht Hti) as [[-> HD]|(HD & -> & Ht3 & E)]; [apply trip_normal; assumption|].
    rewrite !Hl0, E; destruct (blank_compact HD) as (_ & X & _); apply X; lia. }
  constructor; fold g n.
  - intros t i Ht Hti; destruct (Hat t i Ht Hti) as (E1 & E2 & _); auto.
  - intros t i Ht Hti; apply (Hat t i Ht Hti).
  - intros t i j Ht Hti Hj Hv; destruct (Hall t i ltac:(lia) Hti) as [[-> HD]|(HD & -> & Ht3 & E)].
    + destruct (trip_normal t i ltac:(lia) Hti HD) as (_ & X & _); rewrite (proj1 (X (proj2 Ht))); reflexivity.
    + rewrite !Hl0 in *; rewrite E; destruct (blank_compact HD) as (_ & X & _).
      apply (proj2 (X t Ht)); unfold trip_n; destruct (Z.eqb_spec (curseg_alloc_type sbi t) SSR); [exact Hj|]; destruct Hv; [lia|contradiction].
  - intros t i j Ht Hti Hj; destruct (Hall t i ltac:(lia) Hti) as [[-> HD]|(HD & -> & Ht3 & E)]; [|lia].
    apply (trip_normal t i ltac:(lia) Hti HD); lia.
  - change CURSEG_HOT_DATA with 0; destruct (Hall 0 0 ltac:(lia) ltac:(lia)) as [[E HD]|(HD & _ & _ & E)]; rewrite ?Hl0 in *; rewrite E.
    + destruct (trip_normal 0 0 ltac:(lia) ltac:(lia) HD) as (_ & X & _); apply (X ltac:(lia)).
    + apply (blank_compact HD).
  - change CURSEG_COLD_DATA with 2; destruct (Hall 2 0 ltac:(lia) ltac:(lia)) as [[E HD]|(HD & _ & _ & E)]; rewrite ?Hl0 in *; rewrite E.
    + destruct (trip_normal 2 0 ltac:(lia) ltac:(lia) HD) as (_ & X & _); apply (X ltac:(lia)).
    + apply (blank_compact HD).
Qed.
End Trip.

(** The pack stays below the end of the address space. *)
Definition pack_room (rs : raw_super) (sbi : f2fs_sb_info) (x : cp_inputs) : Prop :=
  0 <= cp_payload rs /\ 0 <= cp_blkaddr rs /\
  cp_blkaddr rs + 520 + cp_payload rs + GET_ORPHAN_BLOCKS (orphan_num x) + 6 * nr_mlog (geo sbi) < 2 ^ 32.

Lemma pack_room_fits rs sbi x reason c : sm_wf sbi -> pack_room rs sbi x -> pack_fits rs sbi x reason c.
Proof.
  intros Hi (R1 & R2 & R3); pose proof (si_geo _ _ _ Hi) as Hg; pose proof (gw_mlog _ Hg) as Hn.
  assert (HO : 0 <= GET_ORPHAN_BLOCKS (orphan_num x)) by (unfold GET_ORPHAN_BLOCKS, orphan_num, F2FS_ORPHANS_PER_BLOCK; lia).
  pose proof (npages_range sbi c false).
  assert (0 <= __start_cp_addr (geo sbi) rs c <= cp_blkaddr rs + 512).
  { unfold __start_cp_addr; rewrite blocks_per_seg_512 by exact Hg; destruct (_ =? 0); [rewrite u32_small by lia|]; lia. }
  unfold pack_fits, pack_extra; destruct (__remain_node_summaries reason); lia.
Qed.

(** C4: the checkpoint pack restores the logs.  From a well-formed segment manager, let
    [fill_checkpoint] complete the checkpoint block and [write_pack] write the pack.
    The closing copy of the checkpoint block is the last block of the pack, and a
    mount that reads the pack back with [build_curseg] finds every log of every
    mlog in its segment and at its offset, the summaries of the data blocks (compacted or
    not), the node numbers (from the pack after an unmount, from the node footers
    otherwise) and both journals.  The mode of a log is the mode of the first
    mlog's log of that type. *)
Theorem checkpoint_logs_round_trip (node_nid : Z -> Z) (rs : raw_super) (sbi s0 : f2fs_sb_info) (x : cp_inputs)
  (reason : Z) (c : f2fs_checkpoint) (m : meta)
  (Hi : sm_wf sbi) (Hs : sums_wf sbi) (Hw : ckpt_wf c) (Hr : pack_room rs sbi x)
  (Hg : geo s0 = geo sbi) (Ha : ssa s0 = ssa sbi) :
  let c' := fill_checkpoint rs sbi x reason c in
  let '(last, m') := write_pack rs sbi x reason c' m in
  last = __start_cp_addr (geo sbi) rs c' + cp_pack_total_block_count c' - 1 /\
  m' !! last = Some (MCkpt c') /\
  logs_restored node_nid (__remain_node_summaries reason) sbi (build_curseg node_nid rs c' m' s0).
Proof.
  intros c'; pose proof (pack_room_fits rs sbi x reason c' Hi Hr) as Hfit.
  pose proof (fill_ok rs sbi x reason c Hw (gw_mlog _ (si_geo _ _ _ Hi))) as Hc; fold c' in Hc.
  pose proof (trip_pages rs sbi x reason _ c' m Hfit Hc) as (P1 & P2 & _).
  pose proof (trip_restored node_nid rs sbi s0 x reason _ c' m Hi Hs Hg Ha Hfit Hc) as P3.
  destruct (write_pack rs sbi x reason c' m) as [last m']; auto.
Qed.

(** C37: the mode of the logs of the other mlogs is lost.  When such a log recycles a
    segment with live blocks behind its position while the first mlog's log of the
    same type writes sequentially, the checkpoint block records the mode, yet the
    log comes back in sequential mode: the invariant that lets it take the next
    block without looking no longer holds. *)
Theorem extra_log_mode_lost (node_nid : Z -> Z) (rs : raw_super) (sbi s0 : f2fs_sb_info) (x : cp_inputs)
  (reason : Z) (c : f2fs_checkpoint) (m : meta) (t i off : Z)
  (Hi : sm_wf sbi) (Hs : sums_wf sbi) (Hw : ckpt_wf c) (Hr : pack_room rs sbi x)
  (Hg : geo s0 = geo sbi) (Ha : ssa s0 = ssa sbi)
  (Ht : 0 <= t < 6) (Hmlog : 0 <= i < nr_mlog (geo sbi))
  (Hlfs : curseg_alloc_type sbi t = LFS) (Hssr : curseg_alloc_type sbi (log_of t i) = SSR)
  (Hoff : curseg_blkoff sbi (log_of t i) < off < 512)
  (Hlive : pinned (entry_of sbi (curseg_segno sbi (log_of t i))) off = true) :
  let c' := fill_checkpoint rs sbi x reason c in
  let s := build_curseg node_nid rs c' (snd (write_pack rs sbi x reason c' m)) s0 in
  (ck_alloc_type c').[log_of t i] = SSR /\ curseg_alloc_type s (log_of t i) = LFS /\
  ~ cursor_wf (CURSEG_I s (log_of t i)) (entry_of sbi (curseg_segno s (log_of t i))).
Proof.
  intros c'; pose proof (pack_room_fits rs sbi x reason c' Hi Hr) as Hfit.
  pose proof (fill_ok rs sbi x reason c Hw (gw_mlog _ (si_geo _ _ _ Hi))) as Hc; fold c' in Hc.
  pose proof (trip_restored node_nid rs sbi s0 x reason _ c' m Hi Hs Hg Ha Hfit Hc) as P3; cbv zeta.
  set (s := build_curseg _ _ _ _ _) in *; clearbody s.
  destruct (lr_pos _ _ _ _ P3 t i Ht Hmlog) as [E1 E2]; pose proof (lr_mode _ _ _ _ P3 t i Ht Hmlog) as E3.
  assert (Hk : 0 <= log_of t i < 6 * nr_mlog (geo sbi)) by (unfold log_of; change NR_CURSEG_TYPE with 6; nia).
  split; [erewrite trip_mode; [exact Hssr|exact Hi|exact Hc|exact Hk]|split; [congruence|]].
  intros [_ _ Hcu]; specialize (Hcu ltac:(unfold curseg_alloc_type in *; congruence) off); rewrite E1, Hlive in Hcu.
  discriminate Hcu; unfold curseg_blkoff in *; lia.
Qed.

(** An example: the warm data log of the second mlog recycles a segment whose
    second block is in use. *)
Definition log_ex : Z := log_of CURSEG_WARM_DATA 1.
Definition with_log_pos (mode off : Z) (sbi : f2fs_sb_info) : f2fs_sb_info :=
  set_curseg log_ex (with_next_blkoff off (with_alloc_type mode (CURSEG_I sbi log_ex))) sbi.
Definition sbi_mid : f2fs_sb_info := snd (allocate_data_block NULL_ADDR sum_ex CURSEG_WARM_DATA (with_log_pos LFS 1 sbi_mnt)).
Definition sbi_hole : f2fs_sb_info := with_log_pos SSR 0 sbi_mid.

Lemma with_log_pos_wf mode off sbi :
  sm_wf sbi -> 0 <= log_ex < nr_logs sbi -> mode = LFS \/ mode = SSR -> 0 <= off < 512 ->
  pinned (entry_of sbi (curseg_segno sbi log_ex)) off = false ->
  (mode = LFS -> forall o, off <= o < 512 -> pinned (entry_of sbi (curseg_segno sbi log_ex)) o = false) ->
  sm_wf (with_log_pos mode off sbi).
Proof.
  intros Hi Hk Hm Ho Hp Hl; apply (set_log_inv [] []); auto.
  intros _; constructor; assumption.
Qed.

Lemma sbi_mnt_log : CURSEG_I sbi_mnt log_ex = mk_curseg inhabitant LFS 14 0 3 NULL_SEGNO /\ entry_of sbi_mnt 14 = inhabitant /\
  nr_logs sbi_mnt = 12.
Proof. vm_compute; auto. Qed.

Lemma sbi_mnt_pos_wf : sm_wf (with_log_pos LFS 1 sbi_mnt).
Proof.
  destruct sbi_mnt_log as (E1 & E2 & E3).
  apply with_log_pos_wf; unfold curseg_segno; rewrite ?E1, ?E3; cbn [cs_segno]; rewrite ?E2;
    [exact sbi_mnt_wf|vm_compute; split; congruence|auto|lia|apply empty_pinned; lia|].
  intros _ o Ho; apply empty_pinned; lia.
Qed.

Lemma sbi_mid_wf : sm_wf sbi_mid.
Proof.
  pose proof (allocate_ok (with_log_pos LFS 1 sbi_mnt) NULL_ADDR CURSEG_WARM_DATA sum_ex sbi_mnt_pos_wf
    ltac:(left; vm_compute; split; congruence) ltac:(vm_compute; reflexivity) (or_introl eq_refl)) as H.
  unfold sbi_mid; destruct (allocate_data_block _ _ _ _) as [[a b] s]; apply H.
Qed.

Lemma sbi_mid_facts : nr_logs sbi_mid = 12 /\ curseg_segno sbi_mid log_ex = 14 /\
  pinned (entry_of sbi_mid 14) 0 = false /\ pinned (entry_of sbi_mid 14) 1 = true.
Proof. vm_compute; auto. Qed.

Lemma sbi_hole_wf : sm_wf sbi_hole.
Proof.
  destruct sbi_mid_facts as (E1 & E2 & E3 & E4).
  apply with_log_pos_wf; rewrite ?E1, ?E2; [exact sbi_mid_wf|vm_compute; split; congruence|auto|lia|exact E3|discriminate].
Qed.

Lemma sbi_hole_facts : nr_mlog (geo sbi_hole) = 2 /\ ssa sbi_hole = ∅ /\ curseg_alloc_type sbi_hole CURSEG_WARM_DATA = LFS /\
  curseg_alloc_type sbi_hole log_ex = SSR /\ curseg_blkoff sbi_hole log_ex = 0 /\
  pinned (entry_of sbi_hole (curseg_segno sbi_hole log_ex)) 1 = true /\
  forallb (fun k => zlen (sb_entries (sum_blk (CURSEG_I sbi_hole k))) =? 512) (zseq 0 12) = true.
Proof. vm_compute; auto 10. Qed.

Lemma sbi_hole_sums : sums_wf sbi_hole.
Proof.
  destruct sbi_hole_facts as (E1 & E2 & _ & _ & _ & _ & E7); constructor.
  - intros k Hk; unfold nr_logs in Hk; rewrite E1 in Hk.
    apply Z.eqb_eq; apply (proj1 (forallb_forall _ _) E7); apply list_elem_of_In, elem_of_zseq; lia.
  - intros b s Hb; rewrite E2, lookup_empty in Hb; discriminate.
Qed.

Definition rs_ex : raw_super := mk_super 512 0.
Definition cpi_ex : cp_inputs := mk_cpi 0 1 0 0 4 [] (init_ino_entry_info 0 4 512 0).
Definition ckpt_ex : f2fs_checkpoint :=
  let a n := replicate (Z.to_nat n) 0 in
  mk_ckpt 5 0 0 (a (8 + MAX_EXTEND_LOGS * 3)) (a (8 + MAX_EXTEND_LOGS * 3)) (a (8 + MAX_EXTEND_LOGS * 3))
    (a (8 + MAX_EXTEND_LOGS * 3)) 0 0 0 0 0 0 0 (a (16 + MAX_EXTEND_LOGS * 6)) [] [].

Lemma ckpt_ex_wf : ckpt_wf ckpt_ex.
Proof. constructor; reflexivity. Qed.

Lemma pack_room_ex : pack_room rs_ex sbi_hole cpi_ex.
Proof. unfold pack_room; rewrite (proj1 sbi_hole_facts); vm_compute; repeat split; congruence. Qed.

Lemma checkpoint_logs_round_trip_witness :
  let c' := fill_checkpoint rs_ex sbi_hole cpi_ex CP_UMOUNT ckpt_ex in
  let '(last, m') := write_pack rs_ex sbi_hole cpi_ex CP_UMOUNT c' ∅ in
  last = __start_cp_addr (geo sbi_hole) rs_ex c' + cp_pack_total_block_count c' - 1 /\
  m' !! last = Some (MCkpt c') /\
  logs_restored id (__remain_node_summaries CP_UMOUNT) sbi_hole (build_curseg id rs_ex c' m' sbi_hole).
Proof.
  pose proof (checkpoint_logs_round_trip id rs_ex sbi_hole sbi_hole cpi_ex CP_UMOUNT ckpt_ex ∅ sbi_hole_wf sbi_hole_sums ckpt_ex_wf
    pack_room_ex (eq_refl (geo sbi_hole)) (eq_refl (ssa sbi_hole))) as H.
  exact H.
Defined.

Lemma extra_log_mode_lost_witness :
  let c' := fill_checkpoint rs_ex sbi_hole cpi_ex CP_SYNC ckpt_ex in
  let s := build_curseg id rs_ex c' (snd (write_pack rs_ex sbi_hole cpi_ex CP_SYNC c' ∅)) sbi_hole in
  (ck_alloc_type c').[(log_of CURSEG_WARM_DATA 1)] = SSR /\ curseg_alloc_type s (log_of CURSEG_WARM_DATA 1) = LFS /\
  ~ cursor_wf (CURSEG_I s (log_of CURSEG_WARM_DATA 1)) (entry_of sbi_hole (curseg_segno s (log_of CURSEG_WARM_DATA 1))).
Proof.
  destruct sbi_hole_facts as (E1 & _ & E3 & E4 & E5 & E6 & _).
  assert (Hb : curseg_blkoff sbi_hole log_ex < 1 < 512) by (rewrite E5; lia).
  assert (Ht : 0 <= CURSEG_WARM_DATA < 6) by (vm_compute; split; congruence).
  assert (Hm : 0 <= 1 < nr_mlog (geo sbi_hole)) by (rewrite E1; lia).
  pose proof (extra_log_mode_lost id rs_ex sbi_hole sbi_hole cpi_ex CP_SYNC ckpt_ex ∅ CURSEG_WARM_DATA 1 1 sbi_hole_wf
    sbi_hole_sums ckpt_ex_wf pack_room_ex (eq_refl (geo sbi_hole)) (eq_refl (ssa sbi_hole)) Ht Hm E3 E4 Hb E6) as H.
  exact H.
Defined.
