(* ===== verification/CkptSelect.v ===== *)
(** Which of the two checkpoint packs a mount uses (src/Max/checkpoint.c:
    validate_checkpoint, get_valid_checkpoint), and what that means for a crash while a
    new pack is being written. *)

From Stdlib Require Import ZArith Lia Bool.
From stdpp Require Import base numbers list gmap.
From S2P Require Import Prelude Layout Bitops SmState FreeSegmap Sit DirtySeg Victim Curseg SegMgr Alloc Discard SitFlush InoEntry Ckpt CkptRound.

#[local] Open Scope Z_scope.
#[local] Ltac Zify.zify_post_hook ::= Z.to_euclidean_division_equations.

(** * Definitions *)

(** Is version [a] newer than [b], as a signed 64-bit difference? *)
Definition ver_after (a b : Z) : bool :=
  let d := u64 (a - b) in (0 <? d) && (d <? 2 ^ 63).

(** The two checkpoint blocks of the pack at [cp_addr] have to carry valid checksums and
    the same version.  A block that is not [MCkpt] fails the checksum. *)
Definition validate_checkpoint (m : meta) (cp_addr : Z) : option f2fs_checkpoint :=
  match m !! cp_addr with
  | Some (MCkpt cp1) =>
      let pre_version := cur_cp_version cp1 in
      match m !! u32 (cp_addr + u32 (cp_pack_total_block_count cp1 - 1)) with
      | Some (MCkpt cp2) => if cur_cp_version cp2 =? pre_version then Some cp1 else None
      | _ => None
      end
  | _ => None
  end.

(** The checkpoint block and the payload blocks of the pack in use; [None] is -EINVAL. *)
Definition get_valid_checkpoint (g : geometry) (rs : raw_super) (m : meta)
    : option (f2fs_checkpoint * list (option meta_block)) :=
  let cp_blks := 1 + __cp_payload rs in
  let second := cp_blkaddr rs + Z.shiftl 1 (log_blocks_per_seg g) in
  let cp1 := validate_checkpoint m (cp_blkaddr rs) in
  let cp2 := validate_checkpoint m second in
  let cur :=
    match cp1, cp2 with
    | Some c1, Some c2 => if ver_after (cur_cp_version c2) (cur_cp_version c1) then Some (c2, second) else Some (c1, cp_blkaddr rs)
    | Some c1, None => Some (c1, cp_blkaddr rs)
    | None, Some c2 => Some (c2, second)
    | None, None => None
    end in
  match cur with
  | Some (c, cp_blk_no) => Some (c, map (fun i => m !! u32 (cp_blk_no + i)) (zseq 1 (Z.to_nat (cp_blks - 1))))
  | None => None
  end.

(** * What the writer leaves *)

(** Every checkpoint block is the new one or was there before. *)
Definition only_new (c : f2fs_checkpoint) (m0 m : meta) : Prop :=
  forall a w, m !! a = Some (MCkpt w) -> w = c \/ m0 !! a = Some (MCkpt w).

Lemma only_new_insert c m0 m a b : only_new c m0 m -> (forall w, b = MCkpt w -> w = c) -> only_new c m0 (<[a := b]> m).
Proof.
  intros H Hb a' w; destruct (Z.eq_dec a a') as [<- | Hne]; [rewrite lookup_insert_eq; intros [= E]; left; exact (Hb w E)|].
  rewrite lookup_insert_ne by exact Hne; apply H.
Qed.

#[local] Ltac new_block := apply only_new_insert; [assumption | intros ? [=]; congruence].

Lemma only_new_compact c m0 sbi a m : only_new c m0 m -> only_new c m0 (write_compacted_summaries sbi c a m).
Proof.
  intros H; unfold write_compacted_summaries; cbv zeta; apply (for_range_inv (fun w => only_new c m0 (cw_meta w))); [cbn; new_block|].
  intros i w _ Hw; apply (for_range_inv (fun w => only_new c m0 (cw_meta w))); [exact Hw|].
  intros j w1 _ Hw1; destruct w1 as [mm bb [p|] wr]; unfold write_compact_entry, put_summary; cbn in *; new_block.
Qed.

Lemma only_new_normal c m0 sbi a t g m : only_new c m0 m -> only_new c m0 (write_normal_summaries_mlog sbi a t g m).
Proof. intros H; apply (for_range_inv (fun m => only_new c m0 m)); [exact H|]; intros i m1 _ H1; unfold update_meta_page; new_block. Qed.

Lemma write_pack_only_new rs sbi x reason c m : only_new c m (snd (write_pack rs sbi x reason c m)).
Proof.
  unfold write_pack; cbv zeta.
  assert (H0 : only_new c m (update_meta_page (MCkpt c) (__start_cp_addr (geo sbi) rs c) m)).
  { apply only_new_insert; [intros a w E; right; exact E | intros w [= <-]; reflexivity]. }
  set (m0 := update_meta_page _ _ m) in *; clearbody m0; set (f := fun (i : Z) '(a, m) => _).
  assert (H1 : only_new c m (snd (for_range 1 (1 + __cp_payload rs) f (u32 (__start_cp_addr (geo sbi) rs c + 1), m0)))).
  { apply (for_range_inv (fun r => only_new c m (snd r))); [exact H0|]; intros i [a m1] _ Hm; unfold f, update_meta_page; cbn [snd] in *; new_block. }
  destruct (for_range 1 (1 + __cp_payload rs) f _) as [a1 m1]; cbn [snd] in H1.
  set (r2 := if negb (orphan_num x =? 0) then _ else (a1, m1)).
  assert (H2 : only_new c m (snd r2)).
  { unfold r2; destruct (negb _); cbn [snd]; [|exact H1]; intros a w; rewrite lookup_union_Some_raw, lookup_fmap_Some.
    intros [(b & [=] & _) | [_ E]]; apply H1; exact E. }
  destruct r2 as [a2 m2]; cbn [snd] in H2.
  assert (H3 : only_new c m (write_data_summaries sbi c a2 m2)).
  { unfold write_data_summaries; destruct (is_set_ckpt_flags _ _); [apply only_new_compact | apply only_new_normal]; exact H2. }
  set (m3 := write_data_summaries _ _ _ _) in *; clearbody m3; set (r4 := if __remain_node_summaries reason then _ else _).
  assert (H4 : only_new c m (snd r4)) by (unfold r4; destruct (__remain_node_summaries reason); cbn [snd]; [apply only_new_normal|]; exact H3).
  destruct r4 as [a4 m4]; cbn [snd] in H4; set (h := fun (i : Z) '(a, m) => _).
  assert (H5 : only_new c m (snd (for_range 1 (nr_mlog (geo sbi)) h (a4, m4)))).
  { apply (for_range_inv (fun r => only_new c m (snd r))); [exact H4|]; intros i [a m5] _ Hm; unfold h; cbn [snd] in Hm.
    destruct (__remain_node_summaries reason); cbn [snd]; repeat apply only_new_normal; exact Hm. }
  destruct (for_range 1 (nr_mlog (geo sbi)) h (a4, m4)) as [a5 m5]; cbn [snd] in *; unfold update_meta_page.
  apply only_new_insert; [exact H5 | intros w [= <-]; reflexivity].
Qed.

(** * The commit point *)

Section Commit.
Variables (rs : raw_super) (sbi : f2fs_sb_info) (x : cp_inputs) (reason : Z).
Variables (c c_old : f2fs_checkpoint) (m m' : meta).

Let g := geo sbi.
Let v := cur_cp_version c_old.
Let start := __start_cp_addr g rs c.
Let mn := snd (write_pack rs sbi x reason c m).
Let last_blk := fst (write_pack rs sbi x reason c m).

(** Where the packs are: two segments of the address space. *)
Hypothesis Hgeo : geo_wf g.
Hypothesis Hcp : 0 <= cp_blkaddr rs /\ cp_blkaddr rs + 1024 < 2 ^ 32.

(** The new checkpoint follows the one in use. *)
Hypothesis Hver : cur_cp_version c = v + 1 /\ 0 < v < 2 ^ 62.
Hypothesis Hlast : last_blk = start + cp_pack_total_block_count c - 1.
Hypothesis Htotal : 2 <= cp_pack_total_block_count c <= 512.

(** The pack in use is complete; what is left of older packs where the new one goes is
    older. *)
Hypothesis Hold : validate_checkpoint m (__start_cp_addr g rs c_old) = Some c_old /\ 1 <= cp_pack_total_block_count c_old <= 512.
Hypothesis Hstale : forall a w, start <= a < start + 512 -> m !! a = Some (MCkpt w) ->
  0 <= cur_cp_version w < v /\ 1 <= cp_pack_total_block_count w <= 512.

(** A crash leaves each block of the new pack unwritten, written or torn, and every other
    block as it was. *)
Hypothesis Hcrash : forall a, m' !! a = m !! a \/ (start <= a <= last_blk /\ (m' !! a = mn !! a \/ m' !! a = None)).

Lemma pack_places : (start = cp_blkaddr rs /\ __start_cp_addr g rs c_old = cp_blkaddr rs + 512) \/
  (start = cp_blkaddr rs + 512 /\ __start_cp_addr g rs c_old = cp_blkaddr rs).
Proof.
  unfold start, __start_cp_addr; rewrite (blocks_per_seg_512 g Hgeo); destruct Hver as [-> _]; fold v.
  rewrite !(Z.land_ones _ 1) by lia; change (2 ^ 1) with 2; rewrite (u32_small (cp_blkaddr rs + 512)) by lia.
  destruct (v mod 2 =? 0) eqn:E1, ((v + 1) mod 2 =? 0) eqn:E2; bool_cases; [lia | left; auto | right; auto | lia].
Qed.

Lemma old_pack_kept : validate_checkpoint m' (__start_cp_addr g rs c_old) = Some c_old.
Proof.
  destruct Hold as [HV HT]; pose proof pack_places as HP; pose proof Hlast as El.
  assert (Hsame : forall a, __start_cp_addr g rs c_old <= a < __start_cp_addr g rs c_old + 512 -> m' !! a = m !! a).
  { intros a Ha; destruct (Hcrash a) as [E | [Hr _]]; [exact E | lia]. }
  revert HV; set (s := __start_cp_addr g rs c_old) in *; unfold validate_checkpoint; rewrite (Hsame s) by lia.
  destruct (m !! s) as [[c1 | | | |]|] eqn:E1; try discriminate; intros HV.
  destruct (m !! u32 (s + u32 (cp_pack_total_block_count c1 - 1))) as [[c2 | | | |]|] eqn:E2; try discriminate.
  destruct (cur_cp_version c2 =? cur_cp_version c1) eqn:E3; [|discriminate]; injection HV as ->.
  rewrite (u32_small (cp_pack_total_block_count c_old - 1)), u32_small in E2 by lia.
  rewrite (u32_small (cp_pack_total_block_count c_old - 1)), u32_small by lia.
  rewrite (Hsame (s + (cp_pack_total_block_count c_old - 1))), E2, E3 by lia; reflexivity.
Qed.

(** A checkpoint block where the new pack goes is old, or the new one. *)
Lemma crash_block a w : start <= a < start + 512 -> m' !! a = Some (MCkpt w) ->
  w = c \/ (0 <= cur_cp_version w < v /\ 1 <= cp_pack_total_block_count w <= 512).
Proof.
  intros Ha E; destruct (Hcrash a) as [E' | [_ [E' | E']]]; [right; apply (Hstale a w Ha); congruence | | congruence].
  rewrite E' in E; destruct (write_pack_only_new rs sbi x reason c m a w E) as [-> | E0]; [left; reflexivity | right; exact (Hstale a w Ha E0)].
Qed.

(** The new pack counts when its first and its last block are there. *)
Lemma new_pack_valid : m' !! start = Some (MCkpt c) -> m' !! last_blk = Some (MCkpt c) -> validate_checkpoint m' start = Some c.
Proof.
  intros E1 E2; pose proof pack_places; pose proof Hlast as El; unfold validate_checkpoint; rewrite E1.
  rewrite (u32_small (cp_pack_total_block_count c - 1)), u32_small by lia.
  replace (start + (cp_pack_total_block_count c - 1)) with last_blk by lia; rewrite E2, Z.eqb_refl; reflexivity.
Qed.

Lemma new_pack_incomplete : ~ (m' !! start = Some (MCkpt c) /\ m' !! last_blk = Some (MCkpt c)) ->
  validate_checkpoint m' start = None \/ exists w, validate_checkpoint m' start = Some w /\ 0 <= cur_cp_version w < v.
Proof.
  intros Hnot; pose proof pack_places; pose proof Hlast as El; destruct Hver as [Ev Hv]; unfold validate_checkpoint.
  destruct (m' !! start) as [[w | | | |]|] eqn:E1; auto.
  assert (HT : 1 <= cp_pack_total_block_count w <= 512) by (destruct (crash_block start w ltac:(lia) E1) as [-> | [_ HT]]; lia).
  rewrite (u32_small (cp_pack_total_block_count w - 1)), u32_small by lia.
  destruct (m' !! (start + (cp_pack_total_block_count w - 1))) as [[w2 | | | |]|] eqn:E2; auto.
  destruct (cur_cp_version w2 =? cur_cp_version w) eqn:E3; bool_cases; auto; right; exists w; split; [reflexivity|].
  destruct (crash_block start w ltac:(lia) E1) as [-> | [Hw _]]; [exfalso | exact Hw].
  destruct (crash_block (start + (cp_pack_total_block_count c - 1)) w2 ltac:(lia) E2) as [-> | [Hw _]]; [|lia].
  apply Hnot; split; [reflexivity|]; replace last_blk with (start + (cp_pack_total_block_count c - 1)) by lia; exact E2.
Qed.

Lemma newer a b : 0 <= b < a -> a < 2 ^ 62 + 2 -> ver_after a b = true /\ ver_after b a = false.
Proof. intros; unfold ver_after; cbv zeta; unfold u64; split; [apply andb_true_iff | apply andb_false_iff; right]; rewrite ?Z.ltb_lt, ?Z.ltb_ge; lia. Qed.

(** The mount takes the newer of two valid packs. *)
Lemma mount_picks c1 c2 s1 s2 : (s1 = cp_blkaddr rs /\ s2 = cp_blkaddr rs + 512) \/ (s1 = cp_blkaddr rs + 512 /\ s2 = cp_blkaddr rs) ->
  validate_checkpoint m' s1 = Some c1 ->
  (validate_checkpoint m' s2 = None \/ exists w, validate_checkpoint m' s2 = Some w /\ 0 <= cur_cp_version w < cur_cp_version c1) ->
  cur_cp_version c1 < 2 ^ 62 + 2 -> c2 = c1 ->
  exists payload, get_valid_checkpoint g rs m' = Some (c2, payload).
Proof.
  intros Hs V1 V2 Hr ->; unfold get_valid_checkpoint; rewrite (gw_log _ Hgeo); change (Z.shiftl 1 9) with 512.
  destruct Hs as [[-> ->] | [-> ->]]; rewrite V1; destruct V2 as [-> | (w & -> & Hw)]; cbn; try (eexists; reflexivity);
    destruct (newer (cur_cp_version c1) (cur_cp_version w) Hw Hr) as [E1 E2]; rewrite ?E1, ?E2; eexists; reflexivity.
Qed.

Lemma commit_point :
  (m' !! start = Some (MCkpt c) /\ m' !! last_blk = Some (MCkpt c) -> exists payload, get_valid_checkpoint g rs m' = Some (c, payload)) /\
  (~ (m' !! start = Some (MCkpt c) /\ m' !! last_blk = Some (MCkpt c)) -> exists payload, get_valid_checkpoint g rs m' = Some (c_old, payload)).
Proof.
  destruct Hver as [Ev Hv]; pose proof pack_places as HP; split; [intros [E1 E2] | intros Hnot].
  - apply (mount_picks c c start (__start_cp_addr g rs c_old)); [exact HP | exact (new_pack_valid E1 E2) | | lia | reflexivity].
    right; exists c_old; split; [exact old_pack_kept | fold v; lia].
  - apply (mount_picks c_old c_old (__start_cp_addr g rs c_old) start); [tauto | exact old_pack_kept | exact (new_pack_incomplete Hnot) | fold v; lia | reflexivity].
Qed.

End Commit.

(** What a crash can leave of a pack between [first] and [last]: each of its blocks is as
    before, written or torn. *)
Definition crash_image (first last_blk : Z) (m mn m' : meta) : Prop :=
  forall a, m' !! a = m !! a \/ (first <= a <= last_blk /\ (m' !! a = mn !! a \/ m' !! a = None)).

(** The checkpoint blocks in a segment are older than version [v]. *)
Definition older_blocks (first v : Z) (m : meta) : Prop :=
  forall a w, first <= a < first + 512 -> m !! a = Some (MCkpt w) ->
    0 <= cur_cp_version w < v /\ 1 <= cp_pack_total_block_count w <= 512.

(** C5: The commit point of a checkpoint.  Whatever a crash leaves of the new pack, the
    next mount finds a checkpoint: the new one when the first and the last block of its
    pack are on disk, and the previous one, whose pack is untouched, otherwise.  The
    blocks in between (payload, orphans, summaries) do not matter for the choice: the
    pack is written with one flush, so that a mount can take the new checkpoint although
    they are missing. *)
Theorem checkpoint_commit_point (rs : raw_super) (sbi : f2fs_sb_info) (x : cp_inputs) (reason : Z)
  (c0 c_old : f2fs_checkpoint) (m m' : meta)
  (Hi : sm_wf sbi) (Hw : ckpt_wf c0) (Hr : pack_room rs sbi x)
  (Hcp : 0 <= cp_blkaddr rs /\ cp_blkaddr rs + 1024 < 2 ^ 32)
  (Hver : cur_cp_version c0 = cur_cp_version c_old + 1 /\ 0 < cur_cp_version c_old < 2 ^ 62)
  (Htotal : cp_pack_total_block_count (fill_checkpoint rs sbi x reason c0) <= 512)
  (Hold : validate_checkpoint m (__start_cp_addr (geo sbi) rs c_old) = Some c_old /\
          1 <= cp_pack_total_block_count c_old <= 512)
  (Hstale : older_blocks (__start_cp_addr (geo sbi) rs (fill_checkpoint rs sbi x reason c0)) (cur_cp_version c_old) m)
  (Hcrash : crash_image (__start_cp_addr (geo sbi) rs (fill_checkpoint rs sbi x reason c0))
              (fst (write_pack rs sbi x reason (fill_checkpoint rs sbi x reason c0) m)) m
              (snd (write_pack rs sbi x reason (fill_checkpoint rs sbi x reason c0) m)) m') :
  let c := fill_checkpoint rs sbi x reason c0 in
  let first := __start_cp_addr (geo sbi) rs c in
  let last_blk := fst (write_pack rs sbi x reason c m) in
  (m' !! first = Some (MCkpt c) /\ m' !! last_blk = Some (MCkpt c) ->
   exists payload, get_valid_checkpoint (geo sbi) rs m' = Some (c, payload)) /\
  (~ (m' !! first = Some (MCkpt c) /\ m' !! last_blk = Some (MCkpt c)) ->
   exists payload, get_valid_checkpoint (geo sbi) rs m' = Some (c_old, payload)).
Proof.
  intros c first last_blk; pose proof (pack_room_fits rs sbi x reason c Hi Hr) as Hfit.
  pose proof (fill_ok rs sbi x reason c0 Hw (gw_mlog _ (si_geo _ _ _ Hi))) as Hc; fold c in Hc, Htotal, Hstale, Hcrash.
  destruct (trip_pages rs sbi x reason _ c m Hfit Hc) as (P1 & _).
  destruct (pack_numbers rs sbi x reason _ c _ _ _ _ _ eq_refl eq_refl eq_refl eq_refl eq_refl Hfit Hc) as (? & ? & ? & ? & ? & ? & ? & _ & _ & HT).
  apply (commit_point rs sbi x reason c c_old m m'); [exact (si_geo _ _ _ Hi) | exact Hcp | | exact P1 | lia | exact Hold | exact Hstale | exact Hcrash].
  unfold cur_cp_version in *; rewrite (fi_ver _ _ _ _ _ _ Hc); exact Hver.
Qed.

(** The previous checkpoint, at the second segment, and the new one, of which only the
    first and the last block have reached the disk. *)
Definition c_old_ex : f2fs_checkpoint := with_layout 2 1 (with_version 4 ckpt_ex).
Definition c_new_ex : f2fs_checkpoint := fill_checkpoint rs_ex sbi_hole cpi_ex CP_SYNC ckpt_ex.
Definition m_old_ex : meta := <[1024 := MCkpt c_old_ex]> {[1025 := MCkpt c_old_ex]}.
Definition m_torn_ex : meta := <[512 := MCkpt c_new_ex]> (<[517 := MCkpt c_new_ex]> m_old_ex).

Lemma torn_image : crash_image 512 517 m_old_ex (snd (write_pack rs_ex sbi_hole cpi_ex CP_SYNC c_new_ex m_old_ex)) m_torn_ex.
Proof.
  intros a; destruct (Z.eq_dec a 512) as [-> | H1]; [right; split; [lia | left; vm_compute; reflexivity]|].
  destruct (Z.eq_dec a 517) as [-> | H2]; [right; split; [lia | left; vm_compute; reflexivity]|].
  left; unfold m_torn_ex; rewrite !lookup_insert_ne by congruence; reflexivity.
Qed.

Lemma old_ex_older : older_blocks 512 4 m_old_ex.
Proof.
  intros a w Ha E; unfold m_old_ex in E; rewrite lookup_insert_ne, lookup_singleton_ne in E by lia; discriminate.
Qed.

Lemma checkpoint_commit_point_witness :
  exists payload, get_valid_checkpoint (geo sbi_hole) rs_ex m_torn_ex = Some (c_new_ex, payload).
Proof.
  apply (checkpoint_commit_point rs_ex sbi_hole cpi_ex CP_SYNC ckpt_ex c_old_ex m_old_ex m_torn_ex sbi_hole_wf ckpt_ex_wf pack_room_ex);
    [split; vm_compute; congruence | split; [reflexivity | split; reflexivity] | vm_compute; congruence
    | split; [vm_compute; reflexivity | split; vm_compute; congruence] | exact old_ex_older | exact torn_image | split; vm_compute; reflexivity].
Defined.
