(* ===== verification/Nat.v ===== *)
(** The node address table: the per-core cache of node addresses, the journal in the
    hot data log's summary and the NAT blocks (src/Max/node.c, src/Max/node.h,
    struct f2fs_nm_info in src/Max/f2fs.h). *)

From Stdlib Require Import ZArith Lia Bool.
From stdpp Require Import base numbers list gmap.
From S2P Require Import Prelude Layout Bitops SmState SitFlush.

#[local] Open Scope Z_scope.
#[local] Ltac Zify.zify_post_hook ::= Z.to_euclidean_division_equations.

(** * Definitions *)

(** ** Entries of the cache *)

Record node_info := mk_ni {
  ni_nid : Z;
  ni_ino : Z;
  ni_blk_addr : Z;
  ni_version : Z;
  ni_flag : Z;
}.

Definition with_ni_flag (v : Z) (n : node_info) : node_info :=
  mk_ni (ni_nid n) (ni_ino n) (ni_blk_addr n) (ni_version n) v.
Definition with_ni_version (v : Z) (n : node_info) : node_info :=
  mk_ni (ni_nid n) (ni_ino n) (ni_blk_addr n) v (ni_flag n).
Definition nat_set_blkaddr (n : node_info) (v : Z) : node_info :=
  mk_ni (ni_nid n) (ni_ino n) v (ni_version n) (ni_flag n).

Definition IS_CHECKPOINTED : Z := 0.
Definition HAS_FSYNCED_INODE : Z := 1.
Definition HAS_LAST_FSYNC : Z := 2.
Definition IS_DIRTY : Z := 3.

Definition set_nat_flag (ne : node_info) (type : Z) (set : bool) : node_info :=
  let mask := u8 (Z.shiftl 1 type) in
  with_ni_flag (if set then Z.lor (ni_flag ne) mask else Z.ldiff (ni_flag ne) mask) ne.

Definition get_nat_flag (ne : node_info) (type : Z) : bool :=
  negb (Z.land (ni_flag ne) (u8 (Z.shiftl 1 type)) =? 0).

Definition nat_reset_flag (ne : node_info) : node_info :=
  set_nat_flag (set_nat_flag (set_nat_flag ne IS_CHECKPOINTED true) HAS_FSYNCED_INODE false) HAS_LAST_FSYNC true.

(** The flag of [dst] stays. *)
Definition copy_node_info (dst src : node_info) : node_info :=
  mk_ni (ni_nid src) (ni_ino src) (ni_blk_addr src) (ni_version src) (ni_flag dst).

Definition node_info_from_raw_nat (ni : node_info) (raw : f2fs_nat_entry) : node_info :=
  mk_ni (ni_nid ni) (ne_ino raw) (ne_block_addr raw) (ne_version raw) (ni_flag ni).

Definition raw_nat_from_node_info (ni : node_info) : f2fs_nat_entry :=
  mk_nat_entry (ni_version ni) (ni_ino ni) (ni_blk_addr ni).

Definition inc_node_version (v : Z) : Z := u8 (v + 1).

Definition START_NID (nid : Z) : Z := nid / NAT_ENTRY_PER_BLOCK * NAT_ENTRY_PER_BLOCK.
Definition NAT_BLOCK_OFFSET (start_nid : Z) : Z := start_nid / NAT_ENTRY_PER_BLOCK.

(** ** The state *)

(** The list of a set holds node ids in place of the linked entries. *)
Record nat_entry_set := mk_nes {
  nes_set : Z;
  nes_list : list Z;
  nes_cnt : Z;
}.

(** What one core's index selects in the arrays of [f2fs_nm_info]. *)
Record nat_tree := mk_tree {
  nat_root : gmap Z node_info;
  nat_entries : list Z;
  nat_set_root : gmap Z nat_entry_set;
  percore_nat_cnt : Z;
  percore_dirty_nat_cnt : Z;
}.

#[export] Instance inhabited_node_info : Inhabited node_info := populate (mk_ni 0 0 0 0 0).
#[export] Instance inhabited_nat_tree : Inhabited nat_tree := populate (mk_tree ∅ [] ∅ 0 0).

Definition with_root v t := mk_tree v (nat_entries t) (nat_set_root t) (percore_nat_cnt t) (percore_dirty_nat_cnt t).
Definition with_entries v t := mk_tree (nat_root t) v (nat_set_root t) (percore_nat_cnt t) (percore_dirty_nat_cnt t).
Definition with_sets v t := mk_tree (nat_root t) (nat_entries t) v (percore_nat_cnt t) (percore_dirty_nat_cnt t).
Definition with_nat_cnt v t := mk_tree (nat_root t) (nat_entries t) (nat_set_root t) v (percore_dirty_nat_cnt t).
Definition with_dirty_cnt v t := mk_tree (nat_root t) (nat_entries t) (nat_set_root t) (percore_nat_cnt t) v.

(** The free node ids of one core: the states of the ids and their order. *)
Record nid_list := mk_nid_list {
  free_nid_root : gmap Z Z;
  free_nid_list : list Z;
  percore_fcnt : Z;
}.

#[export] Instance inhabited_nid_list : Inhabited nid_list := populate (mk_nid_list ∅ [] 0).

(** [f2fs_nm_info], with the summary block of the hot data log, the NAT blocks on disk
    and in the meta page cache, and whether a consistency check failed. *)
Record nm_info := mk_nm {
  nm_log_bps : Z;
  nat_blkaddr : Z;
  max_nid : Z;
  available_nids : Z;
  next_scan_nid : Z;
  nm_avail_ram : Z;
  ram_thresh : Z;
  nat_trees : list nat_tree;
  nat_bitmap : list Z;
  nid_lists : list nid_list;
  nid_chunk : Z;
  next_allocator : Z;
  nat_sum : f2fs_summary_block;
  nat_pages : gmap Z (list f2fs_nat_entry);
  nm_bug : bool;
}.

Definition with_trees v n := mk_nm (nm_log_bps n) (nat_blkaddr n) (max_nid n) (available_nids n) (next_scan_nid n)
  (nm_avail_ram n) (ram_thresh n) v (nat_bitmap n) (nid_lists n) (nid_chunk n) (next_allocator n) (nat_sum n) (nat_pages n) (nm_bug n).
Definition with_nat_bitmap v n := mk_nm (nm_log_bps n) (nat_blkaddr n) (max_nid n) (available_nids n) (next_scan_nid n)
  (nm_avail_ram n) (ram_thresh n) (nat_trees n) v (nid_lists n) (nid_chunk n) (next_allocator n) (nat_sum n) (nat_pages n) (nm_bug n).
Definition with_nid_lists v n := mk_nm (nm_log_bps n) (nat_blkaddr n) (max_nid n) (available_nids n) (next_scan_nid n)
  (nm_avail_ram n) (ram_thresh n) (nat_trees n) (nat_bitmap n) v (nid_chunk n) (next_allocator n) (nat_sum n) (nat_pages n) (nm_bug n).
Definition with_next_allocator v n := mk_nm (nm_log_bps n) (nat_blkaddr n) (max_nid n) (available_nids n) (next_scan_nid n)
  (nm_avail_ram n) (ram_thresh n) (nat_trees n) (nat_bitmap n) (nid_lists n) (nid_chunk n) v (nat_sum n) (nat_pages n) (nm_bug n).
Definition with_nat_sum v n := mk_nm (nm_log_bps n) (nat_blkaddr n) (max_nid n) (available_nids n) (next_scan_nid n)
  (nm_avail_ram n) (ram_thresh n) (nat_trees n) (nat_bitmap n) (nid_lists n) (nid_chunk n) (next_allocator n) v (nat_pages n) (nm_bug n).
Definition with_nat_pages v n := mk_nm (nm_log_bps n) (nat_blkaddr n) (max_nid n) (available_nids n) (next_scan_nid n)
  (nm_avail_ram n) (ram_thresh n) (nat_trees n) (nat_bitmap n) (nid_lists n) (nid_chunk n) (next_allocator n) (nat_sum n) v (nm_bug n).
Definition with_nm_bug v n := mk_nm (nm_log_bps n) (nat_blkaddr n) (max_nid n) (available_nids n) (next_scan_nid n)
  (nm_avail_ram n) (ram_thresh n) (nat_trees n) (nat_bitmap n) (nid_lists n) (nid_chunk n) (next_allocator n) (nat_sum n) (nat_pages n) v.

Definition bug_on (b : bool) (n : nm_info) : nm_info := if b then with_nm_bug true n else n.

Definition nat_tree_cnt (n : nm_info) : Z := zlen (nat_trees n).
Definition TREE_IDX (nid : Z) (n : nm_info) : Z := nid mod nat_tree_cnt n.
Definition tree_of (n : nm_info) (nid : Z) : nat_tree := (nat_trees n).[TREE_IDX nid n].
Definition set_tree (nid : Z) (t : nat_tree) (n : nm_info) : nm_info :=
  with_trees ((nat_trees n).[TREE_IDX nid n <- t]) n.

(** ** The cache *)

Definition __lookup_nat_cache (n : nm_info) (nid : Z) : option node_info := nat_root (tree_of n nid) !! nid.

(** Unlinking an entry from the list it is on. *)
Definition remove_id (nid : Z) (l : list Z) : list Z := filter (fun x => x <> nid) l.
Definition unlink_set (nid : Z) (s : nat_entry_set) : nat_entry_set :=
  mk_nes (nes_set s) (remove_id nid (nes_list s)) (nes_cnt s).
Definition unlink (nid : Z) (t : nat_tree) : nat_tree :=
  with_entries (remove_id nid (nat_entries t)) (with_sets (unlink_set nid <$> nat_set_root t) t).

Definition put_entry (nid : Z) (e : node_info) (n : nm_info) : nm_info :=
  let t := tree_of n nid in set_tree nid (with_root (<[nid := e]> (nat_root t)) t) n.

Definition __del_from_nat_cache (nid : Z) (n : nm_info) : nm_info :=
  let t := unlink nid (tree_of n nid) in
  set_tree nid (with_nat_cnt (u32 (percore_nat_cnt t - 1)) (with_root (delete nid (nat_root t)) t)) n.

Definition __set_nat_cache_dirty (nid : Z) (n : nm_info) : nm_info :=
  match __lookup_nat_cache n nid with
  | None => n
  | Some ne =>
      if get_nat_flag ne IS_DIRTY then n
      else
        let t := tree_of n nid in
        let set := NAT_BLOCK_OFFSET nid in
        let t := match nat_set_root t !! set with
                 | Some _ => t
                 | None => with_sets (<[set := mk_nes set [] 0]> (nat_set_root t)) t
                 end in
        let t := unlink nid t in
        let head := default (mk_nes set [] 0) (nat_set_root t !! set) in
        let t := with_sets (<[set := mk_nes set (nes_list head ++ [nid]) (u32 (nes_cnt head + 1))]> (nat_set_root t)) t in
        let t := with_dirty_cnt (u32 (percore_dirty_nat_cnt t + 1)) t in
        set_tree nid (with_root (<[nid := set_nat_flag ne IS_DIRTY true]> (nat_root t)) t) n
  end.

Definition __clear_nat_cache_dirty (nid : Z) (n : nm_info) : nm_info :=
  match __lookup_nat_cache n nid with
  | None => n
  | Some ne =>
      let t := tree_of n nid in
      let set := NAT_BLOCK_OFFSET nid in
      match nat_set_root t !! set with
      | None => n
      | Some _ =>
          let t := unlink nid t in
          let t := with_entries (nat_entries t ++ [nid]) t in
          let head := default (mk_nes set [] 0) (nat_set_root t !! set) in
          let t := with_sets (<[set := mk_nes set (nes_list head) (u32 (nes_cnt head - 1))]> (nat_set_root t)) t in
          let t := with_dirty_cnt (u32 (percore_dirty_nat_cnt t - 1)) t in
          set_tree nid (with_root (<[nid := set_nat_flag ne IS_DIRTY false]> (nat_root t)) t) n
      end
  end.

Definition need_dentry_mark (n : nm_info) (nid : Z) : bool :=
  match __lookup_nat_cache n nid with
  | Some e => negb (get_nat_flag e IS_CHECKPOINTED) && negb (get_nat_flag e HAS_FSYNCED_INODE)
  | None => false
  end.

Definition is_checkpointed_node (n : nm_info) (nid : Z) : bool :=
  match __lookup_nat_cache n nid with
  | Some e => get_nat_flag e IS_CHECKPOINTED
  | None => true
  end.

Definition need_inode_block_update (n : nm_info) (ino : Z) : bool :=
  match __lookup_nat_cache n ino with
  | Some e => negb (get_nat_flag e HAS_LAST_FSYNC &&
                    (get_nat_flag e IS_CHECKPOINTED || get_nat_flag e HAS_FSYNCED_INODE))
  | None => true
  end.

Definition new_nat_entry (nid : Z) : node_info := nat_reset_flag (mk_ni nid 0 0 0 0).

Definition grab_nat_entry (nid : Z) (n : nm_info) : nm_info :=
  let t := tree_of n nid in
  let t := with_root (<[nid := new_nat_entry nid]> (nat_root t)) t in
  let t := with_entries (nat_entries t ++ [nid]) t in
  set_tree nid (with_nat_cnt (u32 (percore_nat_cnt t + 1)) t) n.

Definition cache_nat_entry (nid : Z) (ne : f2fs_nat_entry) (n : nm_info) : nm_info :=
  match __lookup_nat_cache n nid with
  | Some _ => n
  | None =>
      let n := grab_nat_entry nid n in
      put_entry nid (node_info_from_raw_nat (new_nat_entry nid) ne) n
  end.

(** The cached entry at the start of [set_node_addr]: a new one, or the old one
    initialised again when the node id is reused. *)
Definition address_entry (ni : node_info) (new_blkaddr : Z) (n : nm_info) : node_info * nm_info :=
  match __lookup_nat_cache n (ni_nid ni) with
  | None =>
      (copy_node_info (new_nat_entry (ni_nid ni)) ni,
       bug_on (ni_blk_addr ni =? NEW_ADDR) (grab_nat_entry (ni_nid ni) n))
  | Some e =>
      if new_blkaddr =? NEW_ADDR
      then (copy_node_info e ni, bug_on (negb (ni_blk_addr ni =? NULL_ADDR)) n)
      else (e, n)
  end.

(** The sanity checks of [set_node_addr]. *)
Definition address_sane (e ni : node_info) (new_blkaddr : Z) : bool :=
  let a := ni_blk_addr e in
  (a =? ni_blk_addr ni) &&
  negb ((a =? NULL_ADDR) && (new_blkaddr =? NULL_ADDR)) &&
  negb ((a =? NEW_ADDR) && (new_blkaddr =? NEW_ADDR)) &&
  negb (negb (a =? NEW_ADDR) && negb (a =? NULL_ADDR) && (new_blkaddr =? NEW_ADDR)).

(** The entry with its new address and version. *)
Definition readdress (e : node_info) (new_blkaddr : Z) : node_info :=
  let e := if negb (ni_blk_addr e =? NEW_ADDR) && (new_blkaddr =? NULL_ADDR)
           then with_ni_version (inc_node_version (ni_version e)) e else e in
  let e := nat_set_blkaddr e new_blkaddr in
  if (new_blkaddr =? NEW_ADDR) || (new_blkaddr =? NULL_ADDR) then set_nat_flag e IS_CHECKPOINTED false else e.

(** The fsync mark of the inode's entry, when that entry is still cached. *)
Definition mark_fsync (ni : node_info) (fsync_done : bool) (n : nm_info) : nm_info :=
  match __lookup_nat_cache n (ni_ino ni) with
  | None => n
  | Some e =>
      let e := if fsync_done && (ni_nid ni =? ni_ino ni) then set_nat_flag e HAS_FSYNCED_INODE true else e in
      put_entry (ni_ino ni) (set_nat_flag e HAS_LAST_FSYNC fsync_done) n
  end.

Definition set_node_addr (ni : node_info) (new_blkaddr : Z) (fsync_done : bool) (n : nm_info) : nm_info :=
  let '(e, n) := address_entry ni new_blkaddr n in
  let n := bug_on (negb (address_sane e ni new_blkaddr)) n in
  let n := put_entry (ni_nid ni) (readdress e new_blkaddr) n in
  let n := __set_nat_cache_dirty (ni_nid ni) n in
  mark_fsync ni fsync_done n.

(** ** NAT blocks *)

Definition nm_blocks_per_seg (n : nm_info) : Z := Z.shiftl 1 (nm_log_bps n).

Definition current_nat_addr (n : nm_info) (start : Z) : Z :=
  let block_off := NAT_BLOCK_OFFSET start in
  let seg_off := Z.shiftr block_off (nm_log_bps n) in
  let block_addr := u64 (u32 (nat_blkaddr n + Z.shiftl (Z.shiftl seg_off (nm_log_bps n)) 1)
                         + Z.land block_off (Z.shiftl 1 (nm_log_bps n) - 1)) in
  if f2fs_test_bit block_off (nat_bitmap n) then u64 (block_addr + nm_blocks_per_seg n) else block_addr.

Definition next_nat_addr (n : nm_info) (block_addr : Z) : Z :=
  let block_addr := u64 (block_addr - nat_blkaddr n) in
  let block_addr := if negb (Z.shiftr block_addr (nm_log_bps n) mod 2 =? 0)
                    then u64 (block_addr - nm_blocks_per_seg n) else u64 (block_addr + nm_blocks_per_seg n) in
  u64 (block_addr + nat_blkaddr n).

Definition set_to_next_nat (start_nid : Z) (n : nm_info) : nm_info :=
  with_nat_bitmap (f2fs_change_bit (NAT_BLOCK_OFFSET start_nid) (nat_bitmap n)) n.

Definition zero_nat_block : list f2fs_nat_entry := replicate (Z.to_nat NAT_ENTRY_PER_BLOCK) inhabitant.
Definition nat_page (n : nm_info) (addr : Z) : list f2fs_nat_entry := default zero_nat_block (nat_pages n !! addr).

Definition get_current_nat_page (n : nm_info) (nid : Z) : list f2fs_nat_entry := nat_page n (current_nat_addr n nid).

(** The address of the other copy, made equal to the current one. *)
Definition get_next_nat_page (nid : Z) (n : nm_info) : Z * nm_info :=
  let src_off := current_nat_addr n nid in
  let dst_off := next_nat_addr n src_off in
  let n := with_nat_pages (<[dst_off := nat_page n src_off]> (nat_pages n)) n in
  (dst_off, set_to_next_nat nid n).

(** ** Reading an address *)

Definition get_node_info (nid : Z) (n : nm_info) : node_info * nm_info :=
  let ni := mk_ni nid 0 0 0 0 in
  match __lookup_nat_cache n nid with
  | Some e => (mk_ni nid (ni_ino e) (ni_blk_addr e) (ni_version e) 0, n)
  | None =>
      let i := fst (lookup_journal_in_cursum (nat_sum n) NAT_JOURNAL nid false) in
      let ne := if 0 <=? i then nj_ne ((sb_nat_j (nat_sum n)).[i])
                else (get_current_nat_page n (START_NID nid)).[nid - START_NID nid] in
      (node_info_from_raw_nat ni ne, cache_nat_entry nid ne n)
  end.

(** ** Shrinking the cache *)

Definition FREE_NIDS : Z := 0.
Definition NAT_ENTRIES : Z := 1.
Definition sizeof_free_nid : Z := 24.
Definition sizeof_nat_entry : Z := 32.

Definition sum_up_fcnt (n : nm_info) : Z :=
  for_range 0 (zlen (nid_lists n)) (fun i count => u32 (count + percore_fcnt ((nid_lists n).[i]))) 0.

Definition sum_up_nats (n : nm_info) : Z :=
  for_range 0 (nat_tree_cnt n) (fun i count => u32 (count + percore_nat_cnt ((nat_trees n).[i]))) 0.

(** The two kinds of memory the node manager asks for. *)
Definition available_free_memory (n : nm_info) (type : Z) : bool :=
  let limit := Z.shiftr (u64 (nm_avail_ram n * ram_thresh n) / 100) 2 in
  if type =? FREE_NIDS
  then Z.shiftr (u64 (sum_up_fcnt n * sizeof_free_nid)) PAGE_CACHE_SHIFT <? limit
  else if type =? NAT_ENTRIES
  then Z.shiftr (u64 (sum_up_nats n * sizeof_nat_entry)) PAGE_CACHE_SHIFT <? limit
  else false.

(** The inner loop of [try_to_free_nats]: at most [k] entries of tree [i]. *)
Fixpoint shrink_tree (k : nat) (i : Z) (s : nm_info * Z) : nm_info * Z :=
  match k with
  | O => s
  | S k =>
      match nat_entries ((nat_trees (fst s)).[i]) with
      | [] => s
      | nid :: _ => shrink_tree k i (__del_from_nat_cache nid (fst s), snd s - 1)
      end
  end.

Definition try_to_free_nats (nr_shrink : Z) (n : nm_info) : Z * nm_info :=
  if available_free_memory n NAT_ENTRIES then (0, n)
  else
    let cnt := nat_tree_cnt n in
    let '(n, nr) := for_range 0 cnt (fun i s => shrink_tree (Z.to_nat (Z.quot (snd s) (cnt - i))) i s) (n, nr_shrink) in
    (nr, n).

(** * Properties *)

(** ** Flags *)

Lemma nat_mask t : 0 <= t < 8 -> u8 (Z.shiftl 1 t) = 2 ^ t.
Proof. intros Ht; assert (t = 0 \/ t = 1 \/ t = 2 \/ t = 3 \/ t = 4 \/ t = 5 \/ t = 6 \/ t = 7) as H by lia.
  repeat destruct H as [-> | H]; subst; reflexivity. Qed.

Lemma get_nat_flag_bit e t : 0 <= t < 8 -> get_nat_flag e t = Z.testbit (ni_flag e) t.
Proof.
  intros Ht; unfold get_nat_flag; rewrite nat_mask by exact Ht.
  destruct (Z.testbit (ni_flag e) t) eqn:E.
  - rewrite (proj2 (Z.eqb_neq _ 0)); [reflexivity|]; intros H0.
    assert (H : Z.testbit (Z.land (ni_flag e) (2 ^ t)) t = true) by (rewrite Z.land_spec, E, Z.pow2_bits_true by lia; reflexivity).
    rewrite H0, Z.bits_0 in H; discriminate.
  - rewrite (proj2 (Z.eqb_eq _ 0)); [reflexivity|]; apply Z.bits_inj'; intros i Hi; rewrite Z.land_spec, Z.bits_0.
    destruct (Z.eq_dec i t) as [->|Hne]; [rewrite E; reflexivity|rewrite Z.pow2_bits_false by lia; apply andb_false_r].
Qed.

Lemma get_set_flag e t b t' : 0 <= t < 8 -> 0 <= t' < 8 ->
  get_nat_flag (set_nat_flag e t b) t' = if t =? t' then b else get_nat_flag e t'.
Proof.
  intros Ht Ht'; rewrite !get_nat_flag_bit by exact Ht'; unfold set_nat_flag; rewrite nat_mask by exact Ht; cbn [ni_flag with_ni_flag].
  destruct b; rewrite ?Z.lor_spec, ?Z.ldiff_spec; destruct (Z.eqb_spec t t') as [->|Hne].
  - rewrite Z.pow2_bits_true by lia; apply orb_true_r.
  - rewrite Z.pow2_bits_false by lia; apply orb_false_r.
  - rewrite Z.pow2_bits_true by lia; apply andb_false_r.
  - rewrite Z.pow2_bits_false by lia; apply andb_true_r.
Qed.

(** The part of an entry that goes to disk. *)
Lemma raw_set_flag e t b : raw_nat_from_node_info (set_nat_flag e t b) = raw_nat_from_node_info e.
Proof. reflexivity. Qed.

Lemma raw_reset_flag e : raw_nat_from_node_info (nat_reset_flag e) = raw_nat_from_node_info e.
Proof. reflexivity. Qed.

Lemma raw_of_raw e r : raw_nat_from_node_info (node_info_from_raw_nat e r) = r.
Proof. destruct r; reflexivity. Qed.

Lemma dirty_reset e : get_nat_flag (nat_reset_flag e) IS_DIRTY = get_nat_flag e IS_DIRTY.
Proof. unfold nat_reset_flag; rewrite !get_set_flag by (vm_compute; split; congruence); reflexivity. Qed.

Lemma dirty_set e : get_nat_flag (set_nat_flag e IS_DIRTY true) IS_DIRTY = true.
Proof. rewrite get_set_flag by (vm_compute; split; congruence); reflexivity. Qed.

Lemma dirty_unset e : get_nat_flag (set_nat_flag e IS_DIRTY false) IS_DIRTY = false.
Proof. rewrite get_set_flag by (vm_compute; split; congruence); reflexivity. Qed.

(** ** Lists of ids *)

Lemma elem_remove_id x nid l : x ∈ remove_id nid l <-> x <> nid /\ x ∈ l.
Proof. unfold remove_id; rewrite list_elem_of_filter; tauto. Qed.

Lemma remove_id_nodup nid l : NoDup l -> NoDup (remove_id nid l).
Proof. intros H; apply NoDup_filter; exact H. Qed.

Lemma remove_id_out nid l : nid ∉ l -> remove_id nid l = l.
Proof.
  induction l as [|x l IH]; intros Hn; [reflexivity|]; unfold remove_id in *; rewrite filter_cons.
  rewrite decide_True by (intros ->; apply Hn; left); f_equal; apply IH; intros H; apply Hn; right; exact H.
Qed.

Lemma remove_id_len nid l : NoDup l -> nid ∈ l -> zlen (remove_id nid l) = zlen l - 1.
Proof.
  induction l as [|x l IH]; intros Hd Hin; [inversion Hin|]; apply NoDup_cons in Hd; destruct Hd as [Hx Hd].
  unfold remove_id; rewrite filter_cons; destruct (decide (x <> nid)) as [Hne|He].
  - apply elem_of_cons in Hin; destruct Hin as [E|Hin]; [congruence|].
    fold (remove_id nid l); unfold zlen in *; cbn [length]; specialize (IH Hd Hin); lia.
  - assert (x = nid) as -> by (destruct (Z.eq_dec x nid); [assumption|contradiction]).
    fold (remove_id nid l); rewrite remove_id_out by exact Hx; unfold zlen; cbn [length]; lia.
Qed.

(** ** One tree *)

Definition is_dirty (e : node_info) : bool := get_nat_flag e IS_DIRTY.
Definition dirty_ids (t : nat_tree) : gset Z := dom (filter (fun kv => is_dirty kv.2 = true) (nat_root t)).

(** Tree [c] of [cnt]: the clean entries are on its list and the dirty ones in the set
    of their NAT block; the counters are exact. *)
Record tree_wf (top cnt c : Z) (t : nat_tree) : Prop := {
  tw_key : forall nid e, nat_root t !! nid = Some e -> ni_nid e = nid /\ nid mod cnt = c /\ 0 <= nid < top;
  tw_clean : forall nid, nid ∈ nat_entries t <-> exists e, nat_root t !! nid = Some e /\ is_dirty e = false;
  tw_nodup : NoDup (nat_entries t);
  tw_set : forall k s, nat_set_root t !! k = Some s -> nes_set s = k /\ NoDup (nes_list s) /\ nes_cnt s = zlen (nes_list s);
  tw_home : forall k s nid, nat_set_root t !! k = Some s -> nid ∈ nes_list s ->
    NAT_BLOCK_OFFSET nid = k /\ exists e, nat_root t !! nid = Some e /\ is_dirty e = true;
  tw_dirty : forall nid e, nat_root t !! nid = Some e -> is_dirty e = true ->
    exists s, nat_set_root t !! NAT_BLOCK_OFFSET nid = Some s /\ nid ∈ nes_list s;
  tw_cnt : percore_nat_cnt t = Z.of_nat (size (nat_root t));
  tw_dcnt : percore_dirty_nat_cnt t = Z.of_nat (size (dirty_ids t));
  tw_pos : forall k s, nat_set_root t !! k = Some s -> 0 <= k /\ k * NAT_ENTRY_PER_BLOCK < top;
}.

Lemma elem_dirty_ids t nid : nid ∈ dirty_ids t <-> exists e, nat_root t !! nid = Some e /\ is_dirty e = true.
Proof.
  unfold dirty_ids; rewrite elem_of_dom; split.
  - intros [e He]; apply map_lookup_filter_Some in He; exists e; exact He.
  - intros [e He]; exists e; apply map_lookup_filter_Some; exact He.
Qed.

Lemma tree_empty top cnt c : tree_wf top cnt c (mk_tree ∅ [] ∅ 0 0).
Proof.
  constructor; cbn [nat_root nat_entries nat_set_root percore_nat_cnt percore_dirty_nat_cnt].
  - intros nid e H; rewrite lookup_empty in H; discriminate.
  - intros nid; rewrite elem_of_nil; split; [tauto|intros (e & H & _); rewrite lookup_empty in H; discriminate].
  - constructor.
  - intros k s H; rewrite lookup_empty in H; discriminate.
  - intros k s nid H; rewrite lookup_empty in H; discriminate.
  - intros nid e H; rewrite lookup_empty in H; discriminate.
  - reflexivity.
  - reflexivity.
  - intros k s H; rewrite lookup_empty in H; discriminate.
Qed.

Lemma zseq_nodup lo k : NoDup (zseq lo k).
Proof.
  induction k as [|k IH]; [constructor|]; rewrite zseq_snoc; apply NoDup_app; split; [exact IH|split].
  - intros x Hx Hy; apply elem_of_zseq in Hx; apply list_elem_of_singleton in Hy; lia.
  - apply NoDup_singleton.
Qed.

(** Keys below [top] bound the number of entries. *)
Lemma keys_size {A} (m : gmap Z A) top : 0 <= top -> (forall k a, m !! k = Some a -> 0 <= k < top) -> Z.of_nat (size m) <= top.
Proof.
  intros Ht H; rewrite <- size_dom.
  assert (Hsub : dom m ⊆ list_to_set (C := gset Z) (zseq 0 (Z.to_nat top))).
  { intros k Hk; apply elem_of_dom in Hk; destruct Hk as [a Ha]; apply elem_of_list_to_set, elem_of_zseq; specialize (H _ _ Ha); lia. }
  apply subseteq_size in Hsub; rewrite size_list_to_set in Hsub by apply zseq_nodup.
  rewrite zseq_length in Hsub; lia.
Qed.

Lemma tree_size top cnt c t : 0 <= top -> tree_wf top cnt c t -> Z.of_nat (size (nat_root t)) <= top /\ Z.of_nat (size (dirty_ids t)) <= top.
Proof.
  intros Ht Hw.
  assert (Hk : Z.of_nat (size (nat_root t)) <= top) by (apply keys_size; [exact Ht|intros k e He; apply (tw_key _ _ _ _ Hw _ _ He)]).
  split; [exact Hk|].
  assert (Hd : dirty_ids t ⊆ dom (nat_root t)) by (intros x Hx; apply elem_dirty_ids in Hx; destruct Hx as (e & He & _); apply elem_of_dom; exists e; exact He).
  apply subseteq_size in Hd; rewrite size_dom in Hd; lia.
Qed.

Lemma unlink_sets_out nid t :
  (forall k s, nat_set_root t !! k = Some s -> nid ∉ nes_list s) -> unlink_set nid <$> nat_set_root t = nat_set_root t.
Proof.
  intros H; apply map_eq; intros k; rewrite lookup_fmap; destruct (nat_set_root t !! k) as [s|] eqn:E; [|reflexivity].
  cbn; f_equal; unfold unlink_set; rewrite remove_id_out by (eapply H; exact E); destruct s; reflexivity.
Qed.

(** The effect of the operations on a well-formed tree. *)
Definition t_add (nid : Z) (e : node_info) (t : nat_tree) : nat_tree :=
  mk_tree (<[nid := e]> (nat_root t)) (nat_entries t ++ [nid]) (nat_set_root t) (percore_nat_cnt t + 1) (percore_dirty_nat_cnt t).

Definition t_put (nid : Z) (e : node_info) (t : nat_tree) : nat_tree := with_root (<[nid := e]> (nat_root t)) t.

Definition t_del (nid : Z) (t : nat_tree) : nat_tree :=
  mk_tree (delete nid (nat_root t)) (remove_id nid (nat_entries t)) (nat_set_root t) (percore_nat_cnt t - 1) (percore_dirty_nat_cnt t).

Definition set_at (t : nat_tree) (k : Z) : nat_entry_set := default (mk_nes k [] 0) (nat_set_root t !! k).

Definition t_dirty (nid : Z) (e : node_info) (t : nat_tree) : nat_tree :=
  let k := NAT_BLOCK_OFFSET nid in
  let h := set_at t k in
  mk_tree (<[nid := e]> (nat_root t)) (remove_id nid (nat_entries t))
    (<[k := mk_nes k (nes_list h ++ [nid]) (nes_cnt h + 1)]> (nat_set_root t)) (percore_nat_cnt t) (percore_dirty_nat_cnt t + 1).

Definition t_clean (nid : Z) (e : node_info) (t : nat_tree) : nat_tree :=
  let k := NAT_BLOCK_OFFSET nid in
  let h := set_at t k in
  mk_tree (<[nid := e]> (nat_root t)) (nat_entries t ++ [nid])
    (<[k := mk_nes k (remove_id nid (nes_list h)) (nes_cnt h - 1)]> (nat_set_root t)) (percore_nat_cnt t) (percore_dirty_nat_cnt t - 1).

Definition t_drop (k : Z) (t : nat_tree) : nat_tree := with_sets (delete k (nat_set_root t)) t.

Lemma dirty_ids_root t t' : nat_root t = nat_root t' -> dirty_ids t = dirty_ids t'.
Proof. unfold dirty_ids; intros ->; reflexivity. Qed.

Lemma dirty_ids_put nid e t :
  dirty_ids (t_put nid e t) = if is_dirty e then {[nid]} ∪ dirty_ids t else dirty_ids t ∖ {[nid]}.
Proof.
  apply set_eq; intros x; rewrite elem_dirty_ids; cbn [nat_root t_put with_root].
  destruct (Z.eq_dec x nid) as [->|Hne].
  - rewrite lookup_insert_eq; destruct (is_dirty e) eqn:E.
    + rewrite elem_of_union, elem_of_singleton; split; [auto|]; intros _; exists e; auto.
    + rewrite elem_of_difference, elem_of_singleton; split; [intros (e' & H & H'); congruence|tauto].
  - rewrite lookup_insert_ne by congruence; rewrite <- elem_dirty_ids.
    destruct (is_dirty e); [rewrite elem_of_union, elem_of_singleton|rewrite elem_of_difference, elem_of_singleton]; tauto.
Qed.

Section Tree.
Variables (top cnt c : Z) (t : nat_tree).
Hypothesis Hw : tree_wf top cnt c t.

Lemma set_at_ok k : nes_set (set_at t k) = k /\ NoDup (nes_list (set_at t k)) /\ nes_cnt (set_at t k) = zlen (nes_list (set_at t k)).
Proof.
  unfold set_at; destruct (nat_set_root t !! k) as [s|] eqn:E; cbn [default]; [exact (tw_set _ _ _ _ Hw _ _ E)|].
  repeat split; [constructor].
Qed.

Lemma set_at_elem nid k : nid ∈ nes_list (set_at t k) -> NAT_BLOCK_OFFSET nid = k /\ exists e, nat_root t !! nid = Some e /\ is_dirty e = true.
Proof.
  unfold set_at; destruct (nat_set_root t !! k) as [s|] eqn:E; cbn [default]; [apply (tw_home _ _ _ _ Hw _ _ _ E)|].
  intros H; inversion H.
Qed.

Lemma set_at_len k : zlen (nes_list (set_at t k)) <= Z.of_nat (size (dirty_ids t)).
Proof.
  destruct (set_at_ok k) as (_ & S2 & _).
  assert (Hs : list_to_set (C := gset Z) (nes_list (set_at t k)) ⊆ dirty_ids t)
    by (intros x Hx; apply elem_of_list_to_set in Hx; apply elem_dirty_ids; apply (set_at_elem x k Hx)).
  apply subseteq_size in Hs; rewrite size_list_to_set in Hs by exact S2; unfold zlen; lia.
Qed.

Lemma t_add_wf nid e :
  nat_root t !! nid = None -> is_dirty e = false -> ni_nid e = nid -> nid mod cnt = c -> 0 <= nid < top ->
  tree_wf top cnt c (t_add nid e t).
Proof.
  intros Hn Hd He Hc Hr; destruct Hw as [K1 K2 K3 K4 K5 K6 K7 K8 K9].
  constructor; cbn [t_add nat_root nat_entries nat_set_root percore_nat_cnt percore_dirty_nat_cnt].
  - intros x e' Hx; destruct (Z.eq_dec x nid) as [->|Hne]; [rewrite lookup_insert_eq in Hx|rewrite lookup_insert_ne in Hx by congruence; auto].
    injection Hx as <-; auto.
  - intros x; rewrite elem_of_app, list_elem_of_singleton, K2; destruct (Z.eq_dec x nid) as [->|Hne].
    + rewrite lookup_insert_eq; split; [intros _; exists e; auto|auto].
    + rewrite lookup_insert_ne by congruence; split; [intros [H|H]; [exact H|contradiction]|auto].
  - apply NoDup_app; split; [exact K3|split; [|apply NoDup_singleton]].
    intros x Hx Hy; apply list_elem_of_singleton in Hy; subst x; apply K2 in Hx; destruct Hx as (e' & Hx & _); congruence.
  - exact K4.
  - intros k s x Hs Hx; destruct (K5 k s x Hs Hx) as (E1 & e' & E2 & E3); split; [exact E1|exists e'].
    rewrite lookup_insert_ne by congruence; auto.
  - intros x e' Hx Hxd; destruct (Z.eq_dec x nid) as [->|Hne]; [rewrite lookup_insert_eq in Hx; congruence|].
    rewrite lookup_insert_ne in Hx by congruence; eapply K6; eauto.
  - rewrite map_size_insert_None by exact Hn; lia.
  - rewrite (dirty_ids_root _ (t_put nid e t)), dirty_ids_put, Hd by reflexivity.
    replace (dirty_ids t ∖ {[nid]}) with (dirty_ids t); [exact K8|].
    apply set_eq; intros x; rewrite elem_of_difference, elem_of_singleton; split; [|tauto]; intros Hx; split; [exact Hx|].
    intros ->; apply elem_dirty_ids in Hx; destruct Hx as (e' & Hx & _); congruence.
  - exact K9.
Qed.

Lemma t_put_wf nid e old :
  nat_root t !! nid = Some old -> is_dirty e = is_dirty old -> ni_nid e = nid -> tree_wf top cnt c (t_put nid e t).
Proof.
  intros Ho Hd He; destruct Hw as [K1 K2 K3 K4 K5 K6 K7 K8 K9].
  assert (Hl : forall x b, (exists e', (<[nid := e]> (nat_root t)) !! x = Some e' /\ is_dirty e' = b) <-> exists e', nat_root t !! x = Some e' /\ is_dirty e' = b).
  { intros x b; destruct (Z.eq_dec x nid) as [->|Hne]; [|rewrite lookup_insert_ne by congruence; reflexivity].
    rewrite lookup_insert_eq; split; intros (e' & H & H'); [exists old|exists e]; split; congruence. }
  constructor; cbn [t_put with_root nat_root nat_entries nat_set_root percore_nat_cnt percore_dirty_nat_cnt]; auto.
  - intros x e' Hx; destruct (Z.eq_dec x nid) as [->|Hne]; [rewrite lookup_insert_eq in Hx|rewrite lookup_insert_ne in Hx by congruence; auto].
    injection Hx as <-; split; [exact He|apply (K1 nid old Ho)].
  - intros x; rewrite K2, Hl; reflexivity.
  - intros k s x Hs Hx; rewrite Hl; apply (K5 k s x Hs Hx).
  - intros x e' Hx Hxd; destruct (proj1 (Hl x true)) as (e2 & X1 & X2); [exists e'; auto|]; eapply K6; eauto.
  - rewrite map_size_insert_Some by (exists old; exact Ho); exact K7.
  - rewrite K8; do 2 f_equal.
    apply set_eq; intros x; rewrite !elem_dirty_ids; symmetry; apply (Hl x true).
Qed.

Lemma t_del_wf nid old :
  nat_root t !! nid = Some old -> is_dirty old = false -> tree_wf top cnt c (t_del nid t).
Proof.
  intros Ho Hd; destruct Hw as [K1 K2 K3 K4 K5 K6 K7 K8 K9].
  assert (Hn : forall x, nat_root (t_del nid t) !! x = if Z.eq_dec x nid then None else nat_root t !! x).
  { intros x; cbn [t_del nat_root]; destruct (Z.eq_dec x nid) as [->|]; [apply lookup_delete_eq|apply lookup_delete_ne; congruence]. }
  constructor; cbn [t_del nat_entries nat_set_root percore_nat_cnt percore_dirty_nat_cnt]; try rewrite Hn.
  - intros x e' Hx; rewrite Hn in Hx; destruct (Z.eq_dec x nid); [discriminate|auto].
  - intros x; rewrite elem_remove_id, K2, Hn; destruct (Z.eq_dec x nid) as [->|]; [|tauto].
    split; [tauto|intros (e' & H & _); discriminate].
  - apply remove_id_nodup; exact K3.
  - exact K4.
  - intros k s x Hs Hx; destruct (K5 k s x Hs Hx) as (E1 & e' & E2 & E3); split; [exact E1|exists e'].
    rewrite Hn; destruct (Z.eq_dec x nid) as [->|]; [congruence|auto].
  - intros x e' Hx Hxd; rewrite Hn in Hx; destruct (Z.eq_dec x nid); [discriminate|eapply K6; eauto].
  - change (nat_root (t_del nid t)) with (delete nid (nat_root t)); rewrite map_size_delete, Ho.
    assert (size (nat_root t) <> 0%nat) by (intros E; apply map_size_empty_inv in E; rewrite E, lookup_empty in Ho; discriminate); lia.
  - rewrite K8; do 2 f_equal; apply set_eq; intros x; rewrite !elem_dirty_ids; setoid_rewrite Hn.
    destruct (Z.eq_dec x nid) as [->|]; [|reflexivity]; split; [intros (e' & H & H'); congruence|intros (e' & H & _); discriminate].
  - exact K9.
Qed.

Lemma t_dirty_wf nid e old :
  nat_root t !! nid = Some old -> is_dirty old = false -> is_dirty e = true -> ni_nid e = nid ->
  tree_wf top cnt c (t_dirty nid e t).
Proof.
  intros Ho Hd Hde He; destruct Hw as [K1 K2 K3 K4 K5 K6 K7 K8 K9].
  destruct (set_at_ok (NAT_BLOCK_OFFSET nid)) as (S1 & S2 & S3); pose proof (set_at_elem nid (NAT_BLOCK_OFFSET nid)) as S4.
  set (k0 := NAT_BLOCK_OFFSET nid) in *; set (h := set_at t k0) in *.
  assert (Hout : nid ∉ nes_list h) by (intros H; destruct (S4 H) as (_ & e' & H1 & H2); congruence).
  constructor; cbn [t_dirty nat_root nat_entries nat_set_root percore_nat_cnt percore_dirty_nat_cnt]; fold k0 h.
  - intros x e' Hx; destruct (Z.eq_dec x nid) as [->|Hne]; [rewrite lookup_insert_eq in Hx|rewrite lookup_insert_ne in Hx by congruence; auto].
    injection Hx as <-; split; [exact He|apply (K1 nid old Ho)].
  - intros x; rewrite elem_remove_id, K2; destruct (Z.eq_dec x nid) as [->|Hne].
    + rewrite lookup_insert_eq; split; [tauto|intros (e' & H & H'); congruence].
    + rewrite lookup_insert_ne by congruence; tauto.
  - apply remove_id_nodup; exact K3.
  - intros k s Hs; destruct (Z.eq_dec k k0) as [->|Hne]; [rewrite lookup_insert_eq in Hs|rewrite lookup_insert_ne in Hs by congruence; auto].
    injection Hs as <-; cbn; split; [reflexivity|split].
    + apply NoDup_app; split; [exact S2|split; [|apply NoDup_singleton]]; intros x Hx Hy; apply list_elem_of_singleton in Hy; congruence.
    + unfold zlen in *; rewrite length_app; cbn; lia.
  - intros k s x Hs Hx.
    assert (Hbase : x <> nid -> NAT_BLOCK_OFFSET x = k /\ exists e', nat_root t !! x = Some e' /\ is_dirty e' = true).
    { intros Hne; destruct (Z.eq_dec k k0) as [->|Hk]; [rewrite lookup_insert_eq in Hs|rewrite lookup_insert_ne in Hs by congruence; eapply K5; eauto].
      injection Hs as <-; cbn in Hx; apply elem_of_app in Hx; destruct Hx as [Hx|Hx]; [apply set_at_elem; exact Hx|apply list_elem_of_singleton in Hx; contradiction]. }
    destruct (Z.eq_dec x nid) as [->|Hne].
    + rewrite lookup_insert_eq; split; [|exists e; auto].
      destruct (Z.eq_dec k k0) as [->|Hk]; [reflexivity|rewrite lookup_insert_ne in Hs by congruence].
      destruct (K5 k s nid Hs Hx) as (_ & e' & H1 & H2); congruence.
    + rewrite lookup_insert_ne by congruence; apply Hbase; exact Hne.
  - intros x e' Hx Hxd; destruct (Z.eq_dec x nid) as [->|Hne].
    + exists (mk_nes k0 (nes_list h ++ [nid]) (nes_cnt h + 1)); split; [apply lookup_insert_eq|cbn; apply elem_of_app; right; apply list_elem_of_singleton; reflexivity].
    + rewrite lookup_insert_ne in Hx by congruence; destruct (K6 x e' Hx Hxd) as (s & X1 & X2).
      destruct (Z.eq_dec (NAT_BLOCK_OFFSET x) k0) as [E|E]; [|exists s; rewrite lookup_insert_ne by congruence; auto].
      rewrite E in *; eexists; split; [apply lookup_insert_eq|cbn; apply elem_of_app; left].
      unfold h, set_at; rewrite X1; exact X2.
  - rewrite map_size_insert_Some by (exists old; exact Ho); exact K7.
  - rewrite (dirty_ids_root _ (t_put nid e t)), dirty_ids_put, Hde by reflexivity.
    rewrite size_union, size_singleton, K8; [lia|].
    intros x Hx Hy; apply elem_of_singleton in Hx; subst x; apply elem_dirty_ids in Hy; destruct Hy as (e' & H1 & H2); congruence.
  - intros k s Hs; destruct (Z.eq_dec k k0) as [->|Hne]; [|rewrite lookup_insert_ne in Hs by congruence; eapply K9; exact Hs].
    destruct (K1 nid old Ho) as (_ & _ & Hr); unfold k0, NAT_BLOCK_OFFSET; change NAT_ENTRY_PER_BLOCK with 455; lia.
Qed.

Lemma t_clean_wf nid e old :
  nat_root t !! nid = Some old -> is_dirty old = true -> is_dirty e = false -> ni_nid e = nid ->
  tree_wf top cnt c (t_clean nid e t).
Proof.
  intros Ho Hd Hde He; destruct Hw as [K1 K2 K3 K4 K5 K6 K7 K8 K9].
  destruct (set_at_ok (NAT_BLOCK_OFFSET nid)) as (S1 & S2 & S3).
  destruct (K6 nid old Ho Hd) as (s0 & Es0 & Hin0).
  set (k0 := NAT_BLOCK_OFFSET nid) in *.
  assert (Eh : set_at t k0 = s0) by (unfold set_at; rewrite Es0; reflexivity); rewrite Eh in *.
  constructor; cbn [t_clean nat_root nat_entries nat_set_root percore_nat_cnt percore_dirty_nat_cnt]; fold k0; rewrite ?Eh.
  - intros x e' Hx; destruct (Z.eq_dec x nid) as [->|Hne]; [rewrite lookup_insert_eq in Hx|rewrite lookup_insert_ne in Hx by congruence; auto].
    injection Hx as <-; split; [exact He|apply (K1 nid old Ho)].
  - intros x; rewrite elem_of_app, list_elem_of_singleton, K2; destruct (Z.eq_dec x nid) as [->|Hne].
    + rewrite lookup_insert_eq; split; [intros _; exists e; auto|auto].
    + rewrite lookup_insert_ne by congruence; tauto.
  - apply NoDup_app; split; [exact K3|split; [|apply NoDup_singleton]].
    intros x Hx Hy; apply list_elem_of_singleton in Hy; subst x; apply K2 in Hx; destruct Hx as (e' & H1 & H2); congruence.
  - intros k s Hs; destruct (Z.eq_dec k k0) as [->|Hne]; [rewrite lookup_insert_eq in Hs|rewrite lookup_insert_ne in Hs by congruence; auto].
    injection Hs as <-; cbn; split; [reflexivity|split; [apply remove_id_nodup; exact S2|]].
    rewrite remove_id_len by assumption; lia.
  - intros k s x Hs Hx; destruct (Z.eq_dec x nid) as [->|Hne].
    + destruct (Z.eq_dec k k0) as [->|Hk].
      * rewrite lookup_insert_eq in Hs; injection Hs as <-; cbn in Hx; apply elem_remove_id in Hx; tauto.
      * rewrite lookup_insert_ne in Hs by congruence; destruct (K5 k s nid Hs Hx) as [E _]; exfalso; apply Hk; symmetry; exact E.
    + rewrite lookup_insert_ne by congruence; destruct (Z.eq_dec k k0) as [->|Hk].
      * rewrite lookup_insert_eq in Hs; injection Hs as <-; cbn in Hx; apply elem_remove_id in Hx; eapply K5; [exact Es0|tauto].
      * rewrite lookup_insert_ne in Hs by congruence; eapply K5; eauto.
  - intros x e' Hx Hxd; destruct (Z.eq_dec x nid) as [->|Hne]; [rewrite lookup_insert_eq in Hx; congruence|].
    rewrite lookup_insert_ne in Hx by congruence; destruct (K6 x e' Hx Hxd) as (s & X1 & X2).
    destruct (Z.eq_dec (NAT_BLOCK_OFFSET x) k0) as [E|E]; [|exists s; rewrite lookup_insert_ne by congruence; auto].
    rewrite E in *; eexists; split; [apply lookup_insert_eq|cbn; apply elem_remove_id]; split; [exact Hne|replace s0 with s by congruence; exact X2].
  - rewrite map_size_insert_Some by (exists old; exact Ho); exact K7.
  - rewrite (dirty_ids_root _ (t_put nid e t)), dirty_ids_put, Hde by reflexivity.
    assert (Hin : nid ∈ dirty_ids t) by (apply elem_dirty_ids; exists old; auto).
    rewrite size_difference, size_singleton, K8 by (intros x Hx; apply elem_of_singleton in Hx; subst x; exact Hin).
    assert (size (dirty_ids t) <> 0%nat) by (intros E; apply size_empty_inv in E; apply (E nid) in Hin; apply elem_of_empty in Hin; exact Hin); lia.
  - intros k s Hs; destruct (Z.eq_dec k k0) as [->|Hne]; [apply (K9 _ _ Es0)|rewrite lookup_insert_ne in Hs by congruence; eapply K9; exact Hs].
Qed.

Lemma t_drop_wf k : nes_list (set_at t k) = [] -> tree_wf top cnt c (t_drop k t).
Proof.
  intros He; destruct Hw as [K1 K2 K3 K4 K5 K6 K7 K8 K9].
  assert (Hn : forall x s, nat_set_root (t_drop k t) !! x = Some s -> nat_set_root t !! x = Some s).
  { intros x s; cbn [t_drop with_sets nat_set_root]; destruct (Z.eq_dec x k) as [->|]; [rewrite lookup_delete_eq; discriminate|rewrite lookup_delete_ne by congruence; auto]. }
  constructor; try assumption.
  - intros x s Hs; apply K4, Hn; exact Hs.
  - intros x s y Hs Hy; eapply K5; [apply Hn; exact Hs|exact Hy].
  - intros x e Hx Hd; destruct (K6 x e Hx Hd) as (s & X1 & X2); exists s; split; [|exact X2].
    cbn [t_drop with_sets nat_set_root]; rewrite lookup_delete_ne; [exact X1|]; intros E.
    unfold set_at in He; rewrite E, X1 in He; cbn in He; rewrite He in X2; inversion X2.
  - intros x s Hs; eapply K9, Hn; exact Hs.
Qed.
End Tree.

(** ** The table *)

(** What the disk says of a node id: the journal first, then the NAT block. *)
Definition raw_view (n : nm_info) (nid : Z) : f2fs_nat_entry :=
  let i := fst (lookup_journal_in_cursum (nat_sum n) NAT_JOURNAL nid false) in
  if 0 <=? i then nj_ne ((sb_nat_j (nat_sum n)).[i])
  else (get_current_nat_page n (START_NID nid)).[nid - START_NID nid].

(** The table the file system works with. *)
Definition nat_info (n : nm_info) (nid : Z) : f2fs_nat_entry :=
  match __lookup_nat_cache n nid with
  | Some e => raw_nat_from_node_info e
  | None => raw_view n nid
  end.

Record nat_geo (n : nm_info) : Prop := {
  ng_log : nm_log_bps n = 9;
  ng_cnt : 0 < nat_tree_cnt n;
  ng_top : 0 <= max_nid n < 2 ^ 32;
  ng_bits : max_nid n <= NAT_ENTRY_PER_BLOCK * (8 * zlen (nat_bitmap n));
  ng_base : 0 <= nat_blkaddr n;
  ng_room : nat_blkaddr n + 1024 * (max_nid n / NAT_ENTRY_PER_BLOCK / 512 + 1) + 1024 < 2 ^ 32;
}.

Record journal_wf (top : Z) (sum : f2fs_summary_block) : Prop := {
  jw_cnt : 0 <= nats_in_cursum sum <= NAT_JOURNAL_ENTRIES;
  jw_len : zlen (sb_nat_j sum) = NAT_JOURNAL_ENTRIES;
  jw_inj : forall i j, 0 <= i < nats_in_cursum sum -> 0 <= j < nats_in_cursum sum ->
    nj_nid ((sb_nat_j sum).[i]) = nj_nid ((sb_nat_j sum).[j]) -> i = j;
  jw_range : forall i, 0 <= i < nats_in_cursum sum -> 0 <= nj_nid ((sb_nat_j sum).[i]) < top;
}.

(** A whole NAT block; addresses that only exist in memory are not written. *)
Definition page_ok (p : list f2fs_nat_entry) : Prop :=
  zlen p = NAT_ENTRY_PER_BLOCK /\ Forall (fun e => ne_block_addr e <> NEW_ADDR) p.

(** The cached entry of [exc] may disagree with the disk although it is not marked: the
    states inside [set_node_addr]. *)
Record nm_inv (exc : option Z) (n : nm_info) : Prop := {
  nw_geo : nat_geo n;
  nw_tree : forall i, 0 <= i < nat_tree_cnt n -> tree_wf (max_nid n) (nat_tree_cnt n) i ((nat_trees n).[i]);
  nw_jnl : journal_wf (max_nid n) (nat_sum n);
  nw_pages : forall a p, nat_pages n !! a = Some p -> page_ok p;
  nw_new : forall nid, 0 <= nid < max_nid n -> ne_block_addr (raw_view n nid) <> NEW_ADDR;
  nw_agree : forall nid e, exc <> Some nid -> __lookup_nat_cache n nid = Some e -> is_dirty e = false ->
    raw_nat_from_node_info e = raw_view n nid;
}.

Arguments nw_geo {exc n}.
Arguments nw_tree {exc n}.
Arguments nw_jnl {exc n}.
Arguments nw_pages {exc n}.
Arguments nw_new {exc n}.
Arguments nw_agree {exc n}.

Definition nm_wf (n : nm_info) : Prop := nm_inv None n.

(** *** Addresses of NAT blocks *)

Definition nat_addr (n : nm_info) (blk : Z) (bit : bool) : Z :=
  nat_blkaddr n + blk / 512 * 1024 + blk mod 512 + (if bit then 512 else 0).

Lemma nat_block_range n nid : nat_geo n -> 0 <= nid < max_nid n ->
  0 <= NAT_BLOCK_OFFSET nid < 8 * zlen (nat_bitmap n) /\ NAT_BLOCK_OFFSET nid <= max_nid n / NAT_ENTRY_PER_BLOCK.
Proof. intros [] Hn; unfold NAT_BLOCK_OFFSET in *; change NAT_ENTRY_PER_BLOCK with 455 in *; lia. Qed.

Lemma current_nat_addr_val n nid : nat_geo n -> 0 <= nid < max_nid n ->
  current_nat_addr n nid = nat_addr n (NAT_BLOCK_OFFSET nid) (f2fs_test_bit (NAT_BLOCK_OFFSET nid) (nat_bitmap n)).
Proof.
  intros Hg Hn; destruct (nat_block_range n nid Hg Hn) as [Hb Hb2]; destruct Hg as [G1 G2 G3 G4 G5 G6].
  set (M := max_nid n / NAT_ENTRY_PER_BLOCK) in *; clearbody M.
  unfold current_nat_addr, nm_blocks_per_seg, nat_addr; rewrite G1.
  set (b := NAT_BLOCK_OFFSET nid) in *.
  rewrite !shiftl9, shiftr9, Z.shiftl_mul_pow2 by lia; change (2 ^ 1) with 2.
  change (1 * 512 - 1) with (Z.ones 9); rewrite Z.land_ones by lia; change (2 ^ 9) with 512; change (1 * 512) with 512.
  unfold u64; rewrite (u32_small (nat_blkaddr n + b / 512 * 512 * 2)) by lia.
  assert (0 <= b / 512 <= M / 512) by lia; assert (0 <= b mod 512 < 512) by lia.
  set (q := b / 512) in *; set (r := b mod 512) in *; set (M5 := M / 512) in *; clearbody q r M5.
  destruct (f2fs_test_bit b (nat_bitmap n)); rewrite !Z.mod_small; lia.
Qed.

Lemma next_nat_addr_val n blk bit : nat_geo n -> 0 <= blk <= max_nid n / NAT_ENTRY_PER_BLOCK ->
  next_nat_addr n (nat_addr n blk bit) = nat_addr n blk (negb bit).
Proof.
  intros [G1 G2 G3 G4 G5 G6] Hb; set (M := max_nid n / NAT_ENTRY_PER_BLOCK) in *; clearbody M.
  unfold next_nat_addr, nm_blocks_per_seg, nat_addr; rewrite G1.
  rewrite shiftl9; unfold u64; set (x := nat_blkaddr n + blk / 512 * 1024 + blk mod 512 + (if bit then 512 else 0) - nat_blkaddr n).
  assert (Hx : x = blk / 512 * 1024 + blk mod 512 + (if bit then 512 else 0)) by (unfold x; lia).
  rewrite (Z.mod_small x) by (destruct bit; lia); rewrite shiftr9.
  assert (Hp : x / 512 mod 2 = if bit then 1 else 0) by (rewrite Hx; destruct bit; lia).
  clearbody x; assert (0 <= blk / 512 <= M / 512) by lia; assert (0 <= blk mod 512 < 512) by lia.
  set (q := blk / 512) in *; set (r := blk mod 512) in *; set (M5 := M / 512) in *; clearbody q r M5.
  rewrite Hp; destruct bit; cbn [negb Z.eqb Pos.eqb]; rewrite !Z.mod_small; lia.
Qed.

Lemma nat_addr_inj n b1 t1 b2 t2 : 0 <= b1 -> 0 <= b2 -> nat_addr n b1 t1 = nat_addr n b2 t2 -> b1 = b2 /\ t1 = t2.
Proof. unfold nat_addr; intros H1 H2 E; destruct t1, t2; split; try reflexivity; lia. Qed.

(** *** Replacing a tree *)

Section SetTree.
Variables (n : nm_info).
Hypothesis Hg : nat_geo n.

Lemma tree_idx_range nid : 0 <= TREE_IDX nid n < nat_tree_cnt n.
Proof. unfold TREE_IDX; pose proof (ng_cnt _ Hg); apply Z.mod_pos_bound; lia. Qed.

Lemma set_tree_cnt nid t : nat_tree_cnt (set_tree nid t n) = nat_tree_cnt n.
Proof. unfold nat_tree_cnt, set_tree; cbn; apply zlen_aset. Qed.

Lemma set_tree_idx nid t x : TREE_IDX x (set_tree nid t n) = TREE_IDX x n.
Proof. unfold TREE_IDX; rewrite set_tree_cnt; reflexivity. Qed.

Lemma set_tree_get nid t i : (nat_trees (set_tree nid t n)).[i] = if TREE_IDX nid n =? i then t else (nat_trees n).[i].
Proof. unfold set_tree; cbn [nat_trees with_trees]; apply aget_aset, tree_idx_range. Qed.

Lemma set_tree_of nid t : tree_of (set_tree nid t n) nid = t.
Proof. unfold tree_of; rewrite set_tree_idx, set_tree_get, Z.eqb_refl; reflexivity. Qed.

Lemma set_tree_twice nid t1 t2 : set_tree nid t2 (set_tree nid t1 n) = set_tree nid t2 n.
Proof.
  unfold set_tree at 1; rewrite set_tree_idx; unfold set_tree; cbn [nat_trees with_trees]; unfold with_trees; cbn; f_equal.
  unfold aset; case_ifs; [apply list_insert_insert_eq|reflexivity].
Qed.

Lemma lookup_set_tree nid t x :
  (forall y, y <> nid -> nat_root t !! y = nat_root (tree_of n nid) !! y) ->
  __lookup_nat_cache (set_tree nid t n) x = if x =? nid then nat_root t !! nid else __lookup_nat_cache n x.
Proof.
  intros Ht; unfold __lookup_nat_cache, tree_of; rewrite set_tree_idx, set_tree_get.
  destruct (Z.eqb_spec x nid) as [->|Hne]; [rewrite Z.eqb_refl; reflexivity|].
  destruct (Z.eqb_spec (TREE_IDX nid n) (TREE_IDX x n)) as [E|E]; [|reflexivity].
  rewrite Ht by exact Hne; unfold tree_of; rewrite E; reflexivity.
Qed.

Lemma set_tree_geo nid t : nat_geo (set_tree nid t n).
Proof. destruct Hg; constructor; try assumption; rewrite set_tree_cnt; assumption. Qed.

Lemma set_tree_view nid t x : raw_view (set_tree nid t n) x = raw_view n x.
Proof. reflexivity. Qed.
End SetTree.

Lemma set_tree_wf exc exc' n nid t :
  nm_inv exc n -> (forall x, exc = Some x -> x = nid \/ exc' = Some x) ->
  tree_wf (max_nid n) (nat_tree_cnt n) (TREE_IDX nid n) t ->
  (forall y, y <> nid -> nat_root t !! y = nat_root (tree_of n nid) !! y) ->
  (exc' = Some nid \/ forall e, nat_root t !! nid = Some e -> is_dirty e = false -> raw_nat_from_node_info e = raw_view n nid) ->
  nm_inv exc' (set_tree nid t n).
Proof.
  intros [W1 W2 W3 W4 W6 W5] Hx Ht Hr Ha; constructor.
  - apply set_tree_geo; exact W1.
  - intros i Hi; rewrite set_tree_cnt in *; rewrite set_tree_get by exact W1.
    destruct (Z.eqb_spec (TREE_IDX nid n) i) as [<-|]; [exact Ht|apply W2; exact Hi].
  - exact W3.
  - exact W4.
  - exact W6.
  - intros x e Hne; rewrite lookup_set_tree by assumption; rewrite set_tree_view.
    destruct (Z.eqb_spec x nid) as [->|Hxn]; [destruct Ha as [Ha|Ha]; [contradiction|apply Ha]|].
    apply W5; intros E; destruct (Hx x E); congruence.
Qed.

Section Ops.
Variables (exc exc' : option Z) (n : nm_info) (nid : Z).
Hypothesis Hw : nm_inv exc n.
Hypothesis Hx : forall x, exc = Some x -> x = nid \/ exc' = Some x.
Hypothesis Hn : 0 <= nid < max_nid n.

Let t := tree_of n nid.
Let Hg := nw_geo Hw.

Lemma own_tree_wf : tree_wf (max_nid n) (nat_tree_cnt n) (TREE_IDX nid n) t.
Proof. apply (nw_tree Hw), tree_idx_range; exact Hg. Qed.

Lemma own_tree_size : Z.of_nat (size (nat_root t)) < 2 ^ 32 /\ Z.of_nat (size (dirty_ids t)) < 2 ^ 32.
Proof. pose proof (ng_top _ Hg); pose proof (tree_size _ _ _ _ (proj1 (ng_top _ Hg)) own_tree_wf); lia. Qed.

Lemma put_entry_eq e : put_entry nid e n = set_tree nid (t_put nid e t) n.
Proof. reflexivity. Qed.

(** Adding an entry that is not cached: there is room for the count, as the key is new. *)
Lemma add_entry_eq e : nat_root t !! nid = None -> put_entry nid e (grab_nat_entry nid n) = set_tree nid (t_add nid e t) n.
Proof.
  intros Hnone; unfold put_entry, grab_nat_entry; rewrite set_tree_of, set_tree_twice by exact Hg; fold t; f_equal.
  unfold t_add; cbn [with_root with_entries with_nat_cnt nat_root nat_entries nat_set_root percore_nat_cnt percore_dirty_nat_cnt].
  rewrite insert_insert_eq; f_equal; pose proof own_tree_wf as Ht; rewrite (tw_cnt _ _ _ _ Ht), u32_small; [reflexivity|].
  pose proof (t_add_wf _ _ _ _ Ht nid (new_nat_entry nid) Hnone eq_refl eq_refl eq_refl Hn) as Ht'.
  pose proof (ng_top _ Hg); pose proof (tree_size _ _ _ _ (proj1 (ng_top _ Hg)) Ht') as [Hs _]; cbn [t_add nat_root] in Hs.
  rewrite map_size_insert_None in Hs by exact Hnone; pose proof own_tree_size; split; [lia|].
  destruct (Z.eq_dec (Z.of_nat (S (size (nat_root t)))) (2 ^ 32)); lia.
Qed.

Lemma del_entry_eq old : nat_root t !! nid = Some old -> is_dirty old = false -> __del_from_nat_cache nid n = set_tree nid (t_del nid t) n.
Proof.
  intros Ho Hd; unfold __del_from_nat_cache; fold t; f_equal; unfold unlink, t_del.
  cbn [with_root with_entries with_sets with_nat_cnt nat_root nat_entries nat_set_root percore_nat_cnt percore_dirty_nat_cnt].
  pose proof own_tree_wf as Ht; rewrite unlink_sets_out.
  - f_equal; rewrite (tw_cnt _ _ _ _ Ht), u32_small; [reflexivity|]; pose proof own_tree_size.
    assert (size (nat_root t) <> 0%nat) by (intros E; apply map_size_empty_inv in E; rewrite E, lookup_empty in Ho; discriminate); lia.
  - intros k s Hs Hin; destruct (tw_home _ _ _ _ Ht _ _ _ Hs Hin) as (_ & e & E1 & E2); congruence.
Qed.

Lemma set_dirty_eq old : nat_root t !! nid = Some old -> is_dirty old = false ->
  __set_nat_cache_dirty nid n = set_tree nid (t_dirty nid (set_nat_flag old IS_DIRTY true) t) n.
Proof.
  intros Ho Hd; unfold __set_nat_cache_dirty, __lookup_nat_cache; fold t; rewrite Ho; unfold is_dirty in Hd; rewrite Hd.
  f_equal; pose proof own_tree_wf as Ht; set (k := NAT_BLOCK_OFFSET nid).
  set (t1 := match nat_set_root t !! k with Some _ => t | None => _ end).
  assert (E1 : nat_root t1 = nat_root t /\ nat_entries t1 = nat_entries t /\ percore_nat_cnt t1 = percore_nat_cnt t /\
    percore_dirty_nat_cnt t1 = percore_dirty_nat_cnt t /\ nat_set_root t1 !! k = Some (set_at t k) /\
    forall x, x <> k -> nat_set_root t1 !! x = nat_set_root t !! x).
  { unfold t1, set_at; destruct (nat_set_root t !! k) eqn:E; cbn; repeat split; auto; [apply lookup_insert_eq|intros; apply lookup_insert_ne; congruence]. }
  clearbody t1; destruct E1 as (A1 & A2 & A3 & A4 & A5 & A6).
  assert (Hout : forall x s, nat_set_root t1 !! x = Some s -> nid ∉ nes_list s).
  { intros x s Hs Hin; assert (Hin' : nid ∈ nes_list (set_at t x)).
    { destruct (Z.eq_dec x k) as [->|Hne]; [rewrite A5 in Hs; injection Hs as <-; exact Hin|].
      rewrite A6 in Hs by exact Hne; unfold set_at; rewrite Hs; exact Hin. }
    destruct (set_at_elem _ _ _ _ Ht nid x Hin') as (_ & e & X1 & X2); unfold is_dirty in *; congruence. }
  unfold t_dirty; fold k; cbv zeta.
  unfold unlink; cbn [with_root with_entries with_sets with_dirty_cnt nat_root nat_entries nat_set_root percore_nat_cnt percore_dirty_nat_cnt].
  rewrite unlink_sets_out by exact Hout; unfold with_root, with_entries, with_sets, with_dirty_cnt.
  cbn [nat_root nat_entries nat_set_root percore_nat_cnt percore_dirty_nat_cnt].
  rewrite A1, A2, A3, A4, A5; cbn [default id]; f_equal.
  - apply map_eq; intros x; destruct (Z.eq_dec x k) as [->|Hne]; [rewrite !lookup_insert_eq|rewrite !lookup_insert_ne by congruence; apply A6; exact Hne].
    do 2 f_equal; destruct (set_at_ok _ _ _ _ Ht k) as (_ & _ & E); rewrite u32_small; [reflexivity|].
    pose proof (t_dirty_wf _ _ _ _ Ht nid (set_nat_flag old IS_DIRTY true) old Ho Hd (dirty_set old) (proj1 (tw_key _ _ _ _ Ht _ _ Ho))) as Ht'.
    pose proof (set_at_len _ _ _ _ Ht' k) as Hl; unfold set_at in Hl; cbn [t_dirty nat_set_root] in Hl; fold k in Hl.
    rewrite lookup_insert_eq in Hl; cbn [default id nes_list] in Hl; unfold zlen in *; rewrite length_app in Hl; cbn [length] in Hl.
    pose proof (ng_top _ Hg); pose proof (tree_size _ _ _ _ (proj1 (ng_top _ Hg)) Ht') as [_ Hd2]; lia.
  - rewrite (tw_dcnt _ _ _ _ Ht), u32_small; [reflexivity|].
    pose proof (t_dirty_wf _ _ _ _ Ht nid (set_nat_flag old IS_DIRTY true) old Ho Hd (dirty_set old) (proj1 (tw_key _ _ _ _ Ht _ _ Ho))) as Ht'.
    pose proof (tw_dcnt _ _ _ _ Ht') as E; cbn [t_dirty percore_dirty_nat_cnt] in E; rewrite (tw_dcnt _ _ _ _ Ht) in E.
    pose proof (ng_top _ Hg); pose proof (tree_size _ _ _ _ (proj1 (ng_top _ Hg)) Ht') as [_ Hd2]; lia.
Qed.

Lemma clear_dirty_eq old : nat_root t !! nid = Some old -> is_dirty old = true ->
  __clear_nat_cache_dirty nid n = set_tree nid (t_clean nid (set_nat_flag old IS_DIRTY false) t) n.
Proof.
  intros Ho Hd; unfold __clear_nat_cache_dirty, __lookup_nat_cache; fold t; rewrite Ho; pose proof own_tree_wf as Ht.
  destruct (tw_dirty _ _ _ _ Ht _ _ Ho Hd) as (s0 & Es & Hin); set (k := NAT_BLOCK_OFFSET nid) in *; rewrite Es.
  assert (Eh : set_at t k = s0) by (unfold set_at; rewrite Es; reflexivity).
  f_equal; unfold t_clean, unlink; fold k; cbv zeta; rewrite Eh; unfold with_root, with_entries, with_sets, with_dirty_cnt.
  cbn [nat_root nat_entries nat_set_root percore_nat_cnt percore_dirty_nat_cnt].
  rewrite lookup_fmap, Es; cbn [fmap option_fmap option_map default id unlink_set nes_list nes_cnt nes_set].
  destruct (tw_set _ _ _ _ Ht _ _ Es) as (S1 & S2 & S3).
  f_equal.
  - rewrite remove_id_out; [reflexivity|]; intros H; apply (tw_clean _ _ _ _ Ht) in H; destruct H as (e & X1 & X2); congruence.
  - apply map_eq; intros x; destruct (Z.eq_dec x k) as [->|Hne].
    + rewrite !lookup_insert_eq; do 2 f_equal; rewrite u32_small; [reflexivity|]; rewrite S3.
      pose proof (set_at_len _ _ _ _ Ht k) as Hl; rewrite Eh in Hl; pose proof own_tree_size.
      assert (nes_list s0 <> []) by (intros E; rewrite E in Hin; inversion Hin).
      assert (0 < zlen (nes_list s0)) by (destruct (nes_list s0); [contradiction|unfold zlen; cbn; lia]); lia.
    + rewrite !lookup_insert_ne by congruence; rewrite lookup_fmap; destruct (nat_set_root t !! x) as [s|] eqn:E; [|reflexivity].
      cbn; f_equal; unfold unlink_set; rewrite remove_id_out; [destruct s; reflexivity|].
      intros H; destruct (tw_home _ _ _ _ Ht _ _ _ E H) as [X _]; apply Hne; symmetry; exact X.
  - rewrite (tw_dcnt _ _ _ _ Ht), u32_small; [reflexivity|]; pose proof own_tree_size.
    assert (Hi : nid ∈ dirty_ids t) by (apply elem_dirty_ids; exists old; auto).
    assert (size (dirty_ids t) <> 0%nat) by (intros E; apply size_empty_inv in E; apply (E nid) in Hi; apply elem_of_empty in Hi; exact Hi); lia.
Qed.

(** The cache after each operation; the table on disk is the same. *)
Lemma put_entry_ok e old :
  __lookup_nat_cache n nid = Some old -> is_dirty e = is_dirty old -> ni_nid e = nid ->
  (exc' = Some nid \/ (is_dirty e = false -> raw_nat_from_node_info e = raw_view n nid)) ->
  nm_inv exc' (put_entry nid e n) /\
  forall x, __lookup_nat_cache (put_entry nid e n) x = if x =? nid then Some e else __lookup_nat_cache n x.
Proof.
  intros Ho Hd He Ha; rewrite put_entry_eq.
  assert (Hr : forall y, y <> nid -> nat_root (t_put nid e t) !! y = nat_root t !! y) by (intros y Hy; cbn; apply lookup_insert_ne; congruence).
  split.
  - apply (set_tree_wf exc); auto; [apply (t_put_wf _ _ _ _ own_tree_wf nid e old Ho Hd He)|].
    destruct Ha as [Ha|Ha]; [left; exact Ha|right].
    intros e' He'; cbn in He'; rewrite lookup_insert_eq in He'; injection He' as <-; exact Ha.
  - intros x; rewrite lookup_set_tree by assumption; cbn; rewrite lookup_insert_eq; reflexivity.
Qed.

Lemma nat_add_entry_ok e :
  __lookup_nat_cache n nid = None -> is_dirty e = false -> ni_nid e = nid ->
  exc' = Some nid \/ raw_nat_from_node_info e = raw_view n nid ->
  nm_inv exc' (put_entry nid e (grab_nat_entry nid n)) /\
  forall x, __lookup_nat_cache (put_entry nid e (grab_nat_entry nid n)) x = if x =? nid then Some e else __lookup_nat_cache n x.
Proof.
  intros Ho Hd He Ha; rewrite add_entry_eq by exact Ho.
  assert (Hr : forall y, y <> nid -> nat_root (t_add nid e t) !! y = nat_root t !! y) by (intros y Hy; cbn; apply lookup_insert_ne; congruence).
  split.
  - apply (set_tree_wf exc); auto; [apply (t_add_wf _ _ _ _ own_tree_wf nid e Ho Hd He eq_refl Hn)|].
    destruct Ha as [Ha|Ha]; [left; exact Ha|right].
    intros e' He'; cbn in He'; rewrite lookup_insert_eq in He'; injection He' as <-; auto.
  - intros x; rewrite lookup_set_tree by assumption; cbn; rewrite lookup_insert_eq; reflexivity.
Qed.

Lemma del_entry_ok old :
  __lookup_nat_cache n nid = Some old -> is_dirty old = false ->
  nm_inv exc' (__del_from_nat_cache nid n) /\
  forall x, __lookup_nat_cache (__del_from_nat_cache nid n) x = if x =? nid then None else __lookup_nat_cache n x.
Proof.
  intros Ho Hd; rewrite (del_entry_eq old Ho Hd).
  assert (Hr : forall y, y <> nid -> nat_root (t_del nid t) !! y = nat_root t !! y) by (intros y Hy; cbn; apply lookup_delete_ne; congruence).
  split.
  - apply (set_tree_wf exc); auto; [apply (t_del_wf _ _ _ _ own_tree_wf nid old Ho Hd)|right].
    intros e' He'; cbn in He'; rewrite lookup_delete_eq in He'; discriminate.
  - intros x; rewrite lookup_set_tree by assumption; cbn; rewrite lookup_delete_eq; reflexivity.
Qed.

Lemma set_dirty_ok old :
  __lookup_nat_cache n nid = Some old ->
  exists e, nm_inv exc' (__set_nat_cache_dirty nid n) /\ is_dirty e = true /\ raw_nat_from_node_info e = raw_nat_from_node_info old /\ ni_nid e = ni_nid old /\
  forall x, __lookup_nat_cache (__set_nat_cache_dirty nid n) x = if x =? nid then Some e else __lookup_nat_cache n x.
Proof.
  intros Ho; destruct (is_dirty old) eqn:Hd.
  - exists old; unfold __set_nat_cache_dirty; rewrite Ho; unfold is_dirty in Hd; rewrite Hd; split; [|repeat split; auto].
    + destruct Hw as [W1 W2 W3 W4 W6 W5]; constructor; auto; intros x e' Hne He' Hc; apply W5; auto.
      intros E; destruct (Hx x E) as [->|]; [unfold is_dirty in Hc; congruence|contradiction].
    + intros x; destruct (Z.eqb_spec x nid) as [->|]; [exact Ho|reflexivity].
  - rewrite (set_dirty_eq old Ho Hd); set (e := set_nat_flag old IS_DIRTY true).
    assert (Hr : forall y, y <> nid -> nat_root (t_dirty nid e t) !! y = nat_root t !! y) by (intros y Hy; cbn; apply lookup_insert_ne; congruence).
    exists e; split; [|repeat split; [apply dirty_set|]].
    + apply (set_tree_wf exc); auto.
      * apply (t_dirty_wf _ _ _ _ own_tree_wf nid e old Ho Hd (dirty_set old)); apply (tw_key _ _ _ _ own_tree_wf _ _ Ho).
      * right; intros e' He' Hc; cbn in He'; rewrite lookup_insert_eq in He'; injection He' as <-; pose proof (dirty_set old); unfold is_dirty, e in Hc; congruence.
    + intros x; rewrite lookup_set_tree by assumption; cbn; rewrite lookup_insert_eq; reflexivity.
Qed.
End Ops.

Lemma cached_key exc n nid e : nm_inv exc n -> __lookup_nat_cache n nid = Some e -> ni_nid e = nid /\ 0 <= nid < max_nid n.
Proof.
  intros Hw He; pose proof (nw_tree Hw _ (tree_idx_range n (nw_geo Hw) nid)) as Ht.
  destruct (tw_key _ _ _ _ Ht nid e He) as (E1 & _ & E2); auto.
Qed.

Lemma clear_dirty_ok n nid old :
  nm_wf n -> __lookup_nat_cache n nid = Some old -> is_dirty old = true -> raw_nat_from_node_info old = raw_view n nid ->
  nm_wf (__clear_nat_cache_dirty nid n) /\
  forall x, __lookup_nat_cache (__clear_nat_cache_dirty nid n) x =
    if x =? nid then Some (set_nat_flag old IS_DIRTY false) else __lookup_nat_cache n x.
Proof.
  intros Hw Ho Hd Ha; destruct (cached_key None n nid old Hw Ho) as [Hk Hn].
  rewrite (clear_dirty_eq None n nid Hw Hn old Ho Hd); set (e := set_nat_flag old IS_DIRTY false).
  pose proof (own_tree_wf None n nid Hw) as Ht.
  assert (Hr : forall y, y <> nid -> nat_root (t_clean nid e (tree_of n nid)) !! y = nat_root (tree_of n nid) !! y) by (intros y Hy; cbn; apply lookup_insert_ne; congruence).
  split.
  - apply (set_tree_wf None); auto; [apply (t_clean_wf _ _ _ _ Ht nid e old Ho Hd (dirty_unset old) Hk)|right].
    intros e' He'; cbn in He'; rewrite lookup_insert_eq in He'; injection He' as <-; intros _; exact Ha.
  - intros x; rewrite lookup_set_tree by (try assumption; apply (nw_geo Hw)); cbn; rewrite lookup_insert_eq; reflexivity.
Qed.

(** *** Reading and shrinking leave the table alone *)

Definition dirty_nid (n : nm_info) (nid : Z) : Prop := exists e, __lookup_nat_cache n nid = Some e /\ is_dirty e = true.

(** [n'] has other cached entries than [n], and the same table. *)
Record same_table (n n' : nm_info) : Prop := {
  st_cache : exists T, n' = with_trees T n;
  st_cnt : nat_tree_cnt n' = nat_tree_cnt n;
  st_wf : nm_wf n';
  st_info : forall x, nat_info n' x = nat_info n x;
  st_dirty : forall x, dirty_nid n' x <-> dirty_nid n x;
}.

Lemma same_table_refl n : nm_wf n -> same_table n n.
Proof. intros Hw; constructor; auto; try tauto; exists (nat_trees n); destruct n; reflexivity. Qed.

Lemma same_table_trans n1 n2 n3 : same_table n1 n2 -> same_table n2 n3 -> same_table n1 n3.
Proof.
  intros [[T1 E1] C1 W1 I1 D1] [[T2 E2] C2 W2 I2 D2]; constructor.
  - exists T2; rewrite E2, E1; reflexivity.
  - congruence.
  - exact W2.
  - intros x; rewrite I2; apply I1.
  - intros x; rewrite D2, D1; reflexivity.
Qed.

Lemma table_view n T : forall x, raw_view (with_trees T n) x = raw_view n x.
Proof. reflexivity. Qed.

Lemma add_clean_same n nid :
  nm_wf n -> 0 <= nid < max_nid n -> __lookup_nat_cache n nid = None ->
  same_table n (put_entry nid (node_info_from_raw_nat (new_nat_entry nid) (raw_view n nid)) (grab_nat_entry nid n)).
Proof.
  intros Hw Hn Ho; set (e := node_info_from_raw_nat _ _).
  destruct (nat_add_entry_ok None None n nid Hw ltac:(auto) Hn e Ho eq_refl eq_refl (or_intror (raw_of_raw _ _))) as [A1 A2].
  assert (Hc : is_dirty e = false) by reflexivity.
  rewrite (add_entry_eq None n nid Hw Hn e Ho) in *; constructor; auto.
  - eexists; reflexivity.
  - apply set_tree_cnt.
  - intros x; unfold nat_info; rewrite A2; destruct (Z.eqb_spec x nid) as [->|]; [|reflexivity].
    rewrite Ho; apply raw_of_raw.
  - intros x; unfold dirty_nid; rewrite A2; destruct (Z.eqb_spec x nid) as [->|]; [|reflexivity]; rewrite Ho; split; intros (e' & H & H'); congruence.
Qed.

Lemma get_node_info_ok n nid :
  nm_wf n -> 0 <= nid < max_nid n ->
  let '(ni, n') := get_node_info nid n in
  ni_nid ni = nid /\ raw_nat_from_node_info ni = nat_info n nid /\ same_table n n'.
Proof.
  intros Hw Hn; unfold get_node_info; destruct (__lookup_nat_cache n nid) as [e|] eqn:E.
  - split; [reflexivity|split; [unfold nat_info; rewrite E; reflexivity|apply same_table_refl; exact Hw]].
  - fold (raw_view n nid); split; [reflexivity|split; [rewrite raw_of_raw; unfold nat_info; rewrite E; reflexivity|]].
    unfold cache_nat_entry; rewrite E; apply add_clean_same; assumption.
Qed.

Lemma shrink_one n nid :
  nm_wf n -> nid ∈ nat_entries (tree_of n nid) -> same_table n (__del_from_nat_cache nid n) /\ __lookup_nat_cache n nid <> None.
Proof.
  intros Hw Hin; pose proof (own_tree_wf None n nid Hw) as Ht; apply (tw_clean _ _ _ _ Ht) in Hin; destruct Hin as (e & He & Hc).
  fold (__lookup_nat_cache n nid) in He; destruct (cached_key None n nid e Hw He) as [_ Hn].
  destruct (del_entry_ok None None n nid Hw ltac:(auto) Hn e He Hc) as [A1 A2].
  split; [|congruence]; rewrite (del_entry_eq None n nid Hw Hn e He Hc) in *; constructor; auto.
  - eexists; reflexivity.
  - apply set_tree_cnt.
  - intros x; unfold nat_info; rewrite A2; destruct (Z.eqb_spec x nid) as [->|]; [|reflexivity].
    rewrite He, set_tree_view; symmetry; apply (nw_agree Hw _ _ ltac:(discriminate) He Hc).
  - intros x; unfold dirty_nid; rewrite A2; destruct (Z.eqb_spec x nid) as [->|]; [|reflexivity]; rewrite He; split; intros (e' & H & H'); congruence.
Qed.

Lemma shrink_tree_ok k i n nr :
  nm_wf n -> 0 <= i < nat_tree_cnt n -> same_table n (fst (shrink_tree k i (n, nr))).
Proof.
  revert n nr; induction k as [|k IH]; intros n nr Hw Hi; [apply same_table_refl; exact Hw|]; cbn [shrink_tree fst snd].
  destruct (nat_entries ((nat_trees n).[i])) as [|nid r] eqn:E; [apply same_table_refl; exact Hw|].
  assert (Hin : nid ∈ nat_entries ((nat_trees n).[i])) by (rewrite E; left).
  assert (Ei : TREE_IDX nid n = i).
  { pose proof (nw_tree Hw i Hi) as Ht; apply (tw_clean _ _ _ _ Ht) in Hin; destruct Hin as (e & He & _); apply (tw_key _ _ _ _ Ht _ _ He). }
  destruct (shrink_one n nid Hw ltac:(unfold tree_of; rewrite Ei; exact Hin)) as [S1 _].
  eapply same_table_trans; [exact S1|]; apply IH; [apply (st_wf _ _ S1)|rewrite (st_cnt _ _ S1); exact Hi].
Qed.

Lemma try_to_free_nats_ok n nr : nm_wf n -> same_table n (snd (try_to_free_nats nr n)).
Proof.
  intros Hw; unfold try_to_free_nats; destruct (available_free_memory n NAT_ENTRIES); [apply same_table_refl; exact Hw|].
  set (f := fun i s => _); assert (H : same_table n (fst (for_range 0 (nat_tree_cnt n) f (n, nr)))).
  { apply (for_range_inv (fun s => same_table n (fst s))); [apply same_table_refl; exact Hw|].
    intros i [m r] Hi Hm; cbn [fst] in Hm; unfold f; cbn [snd]; eapply same_table_trans; [exact Hm|].
    apply shrink_tree_ok; [apply (st_wf _ _ Hm)|rewrite (st_cnt _ _ Hm); lia]. }
  destruct (for_range 0 (nat_tree_cnt n) f (n, nr)) as [m r]; exact H.
Qed.

(** *** Changing an address *)

Definition new_address (old : f2fs_nat_entry) (ino addr : Z) : f2fs_nat_entry :=
  mk_nat_entry (if negb (ne_block_addr old =? NEW_ADDR) && (addr =? NULL_ADDR)
                then inc_node_version (ne_version old) else ne_version old) ino addr.

(** What the callers of [set_node_addr] provide: the entry as [get_node_info] gave it
    (with another owner only for a new node) and one of the legal transitions. *)
Record addr_change (n : nm_info) (ni : node_info) (addr : Z) : Prop := {
  ac_nid : 0 <= ni_nid ni < max_nid n;
  ac_blk : ni_blk_addr ni = ne_block_addr (nat_info n (ni_nid ni));
  ac_ver : ni_version ni = ne_version (nat_info n (ni_nid ni));
  ac_ino : addr <> NEW_ADDR -> ni_ino ni = ne_ino (nat_info n (ni_nid ni));
  ac_new : addr = NEW_ADDR -> ne_block_addr (nat_info n (ni_nid ni)) = NULL_ADDR;
  ac_free : addr = NULL_ADDR -> ne_block_addr (nat_info n (ni_nid ni)) <> NULL_ADDR;
}.

Lemma readdress_facts e a :
  is_dirty (readdress e a) = is_dirty e /\ ni_nid (readdress e a) = ni_nid e /\
  raw_nat_from_node_info (readdress e a) = new_address (raw_nat_from_node_info e) (ni_ino e) a.
Proof.
  unfold readdress, new_address; cbn [ne_block_addr ne_version raw_nat_from_node_info].
  destruct (negb (ni_blk_addr e =? NEW_ADDR) && (a =? NULL_ADDR)), ((a =? NEW_ADDR) || (a =? NULL_ADDR)); repeat split;
    unfold is_dirty; try (rewrite get_set_flag by (vm_compute; split; congruence)); reflexivity.
Qed.

Lemma mark_fsync_ok n ni b : nm_wf n -> same_table n (mark_fsync ni b n).
Proof.
  intros Hw; unfold mark_fsync; destruct (__lookup_nat_cache n (ni_ino ni)) as [e|] eqn:E; [|apply same_table_refl; exact Hw].
  set (ino := ni_ino ni) in *; destruct (cached_key None n ino e Hw E) as [Hk Hn].
  set (e1 := if b && _ then _ else e).
  assert (E1 : is_dirty e1 = is_dirty e /\ raw_nat_from_node_info e1 = raw_nat_from_node_info e /\ ni_nid e1 = ni_nid e).
  { unfold e1; destruct (b && _); repeat split; unfold is_dirty; rewrite get_set_flag by (vm_compute; split; congruence); reflexivity. }
  set (e2 := set_nat_flag e1 HAS_LAST_FSYNC b).
  assert (E2 : is_dirty e2 = is_dirty e /\ raw_nat_from_node_info e2 = raw_nat_from_node_info e /\ ni_nid e2 = ni_nid e).
  { destruct E1 as (X1 & X2 & X3); unfold e2; repeat split; auto; unfold is_dirty in *; rewrite get_set_flag by (vm_compute; split; congruence); exact X1. }
  clearbody e2; clear e1 E1; destruct E2 as (X1 & X2 & X3).
  destruct (put_entry_ok None None n ino Hw ltac:(auto) e2 e E X1 ltac:(congruence)) as [A1 A2].
  { right; intros Hc; rewrite X2; apply (nw_agree Hw ino e ltac:(discriminate) E); congruence. }
  constructor; auto.
  - eexists; reflexivity.
  - apply set_tree_cnt.
  - intros x; unfold nat_info; rewrite A2; destruct (Z.eqb_spec x ino) as [->|]; [rewrite E; exact X2|reflexivity].
  - intros x; unfold dirty_nid; rewrite A2; destruct (Z.eqb_spec x ino) as [->|]; [|reflexivity]; rewrite E.
    split; intros (e' & H & H'); injection H as <-; [exists e|exists e2]; split; congruence.
Qed.

Lemma bug_off n : bug_on false n = n.
Proof. reflexivity. Qed.

(** The entry [set_node_addr] changes, and the table with the entry in it. *)
Definition old_entry (n : nm_info) (ni : node_info) (addr : Z) : node_info :=
  match __lookup_nat_cache n (ni_nid ni) with
  | Some e => if addr =? NEW_ADDR then copy_node_info e ni else e
  | None => copy_node_info (new_nat_entry (ni_nid ni)) ni
  end.

Definition entered (n : nm_info) (nid : Z) : nm_info :=
  match __lookup_nat_cache n nid with Some e => n | None => grab_nat_entry nid n end.

Lemma address_entry_eq n ni addr : nm_wf n -> addr_change n ni addr ->
  address_entry ni addr n = (old_entry n ni addr, entered n (ni_nid ni)).
Proof.
  intros Hw [C1 C2 C3 C4 C5 C6]; set (nid := ni_nid ni) in *.
  unfold address_entry, old_entry, entered; fold nid; destruct (__lookup_nat_cache n nid) as [e|] eqn:E.
  - destruct (Z.eqb_spec addr NEW_ADDR) as [->|]; [|reflexivity].
    rewrite C2, (C5 eq_refl); reflexivity.
  - rewrite C2; unfold nat_info; rewrite E, (proj2 (Z.eqb_neq _ _) (nw_new Hw nid C1)); reflexivity.
Qed.

Lemma old_entry_raw n ni addr (nid := ni_nid ni) : addr_change n ni addr ->
  raw_nat_from_node_info (old_entry n ni addr) = mk_nat_entry (ne_version (nat_info n nid)) (ni_ino ni) (ne_block_addr (nat_info n nid)) /\
  ni_ino (old_entry n ni addr) = ni_ino ni.
Proof.
  intros [C1 C2 C3 C4 C5 C6]; fold nid in C1, C2, C3, C4, C5, C6.
  unfold old_entry; fold nid; destruct (__lookup_nat_cache n nid) as [e|] eqn:E.
  - destruct (Z.eqb_spec addr NEW_ADDR) as [->|Hne]; [rewrite <- C2, <- C3; auto|].
    rewrite (C4 Hne); unfold nat_info; rewrite E; auto.
  - rewrite <- C2, <- C3; auto.
Qed.

Lemma old_entry_sane n ni addr : addr_change n ni addr -> address_sane (old_entry n ni addr) ni addr = true.
Proof.
  intros Hc; destruct (old_entry_raw n ni addr Hc) as [Hr1 _]; destruct Hc as [C1 C2 C3 C4 C5 C6].
  set (nid := ni_nid ni) in *; set (e' := old_entry n ni addr) in *.
  unfold address_sane; assert (Eb : ni_blk_addr e' = ne_block_addr (nat_info n nid)) by (injection Hr1; auto).
  rewrite Eb, C2, Z.eqb_refl; set (a := ne_block_addr (nat_info n nid)) in *; cbn [andb].
  destruct (Z.eqb_spec addr NULL_ADDR) as [->|]; [rewrite (proj2 (Z.eqb_neq a NULL_ADDR) (C6 eq_refl)); cbn; rewrite !andb_false_r; reflexivity|].
  rewrite andb_false_r; destruct (Z.eqb_spec addr NEW_ADDR) as [->|]; [|rewrite !andb_false_r; reflexivity].
  rewrite (C5 eq_refl); reflexivity.
Qed.

Lemma readdressed_ok n ni addr (nid := ni_nid ni) : nm_wf n -> addr_change n ni addr ->
  let e := readdress (old_entry n ni addr) addr in
  let n3 := put_entry nid e (entered n nid) in
  nm_inv (Some nid) n3 /\ (exists T, n3 = with_trees T n) /\ nat_tree_cnt n3 = nat_tree_cnt n /\
  forall x, __lookup_nat_cache n3 x = if x =? nid then Some e else __lookup_nat_cache n x.
Proof.
  intros Hw [C1 _ _ _ _ _]; cbv zeta; fold nid in C1; destruct (readdress_facts (old_entry n ni addr) addr) as (R1 & R2 & _).
  set (e := readdress (old_entry n ni addr) addr) in *; unfold old_entry in R1, R2; fold nid in R1, R2; unfold entered.
  destruct (__lookup_nat_cache n nid) as [e0|] eqn:E.
  - assert (Hd : is_dirty e = is_dirty e0) by (rewrite R1; destruct (addr =? NEW_ADDR); reflexivity).
    assert (Hi : ni_nid e = nid) by (rewrite R2; destruct (cached_key None n nid e0 Hw E) as [X _]; destruct (addr =? NEW_ADDR); [reflexivity|exact X]).
    destruct (put_entry_ok None (Some nid) n nid Hw ltac:(discriminate) e e0 E Hd Hi (or_introl eq_refl)) as [A1 A2].
    split; [exact A1|split; [eexists; reflexivity|split; [apply set_tree_cnt|exact A2]]].
  - destruct (nat_add_entry_ok None (Some nid) n nid Hw ltac:(discriminate) C1 e E R1 R2 (or_introl eq_refl)) as [A1 A2].
    split; [exact A1|split; [eexists; reflexivity|split; [|exact A2]]].
    rewrite (add_entry_eq None n nid Hw C1 e E); apply set_tree_cnt.
Qed.

Lemma set_node_addr_ok n ni addr b :
  nm_wf n -> addr_change n ni addr ->
  let nid := ni_nid ni in
  let n' := set_node_addr ni addr b n in
  nm_wf n' /\ (exists T, n' = with_trees T n) /\ nat_tree_cnt n' = nat_tree_cnt n /\
  (forall x, nat_info n' x = if x =? nid then new_address (nat_info n nid) (ni_ino ni) addr else nat_info n x) /\
  (forall x, dirty_nid n' x <-> x = nid \/ dirty_nid n x).
Proof.
  intros Hw Hc; cbv zeta; unfold set_node_addr; rewrite (address_entry_eq n ni addr Hw Hc), (old_entry_sane n ni addr Hc); cbn [negb]; rewrite bug_off.
  destruct (old_entry_raw n ni addr Hc) as [Hr1 Hr2]; destruct (readdressed_ok n ni addr Hw Hc) as (A1 & [T3 A2] & A3 & A4).
  destruct Hc as [C1 _ _ _ _ _]; set (nid := ni_nid ni) in *; set (e' := old_entry n ni addr) in *.
  destruct (readdress_facts e' addr) as (R1 & R2 & R3); set (e := readdress e' addr) in *.
  set (n3 := put_entry nid e (entered n nid)) in *; clearbody n3.
  assert (Hm3 : max_nid n3 = max_nid n) by (rewrite A2; reflexivity).
  assert (E3 : __lookup_nat_cache n3 nid = Some e) by (rewrite A4, Z.eqb_refl; reflexivity).
  destruct (set_dirty_ok (Some nid) None n3 nid A1 ltac:(intros x X; left; congruence) ltac:(rewrite Hm3; exact C1) e E3) as (e4 & B1 & B2 & B3 & B4 & B5).
  assert (Hn4 : (exists T, __set_nat_cache_dirty nid n3 = with_trees T n) /\ nat_tree_cnt (__set_nat_cache_dirty nid n3) = nat_tree_cnt n).
  { unfold __set_nat_cache_dirty; rewrite E3; destruct (get_nat_flag e IS_DIRTY); [split; [exists T3; exact A2|exact A3]|].
    split; [rewrite A2; eexists; reflexivity|rewrite set_tree_cnt; exact A3]. }
  destruct Hn4 as [[T4 D1] D2]; set (n4 := __set_nat_cache_dirty nid n3) in *; clearbody n4.
  pose proof (mark_fsync_ok n4 ni b B1) as [[T5 F1] F2 F3 F4 F5].
  split; [exact F3|split; [exists T5; rewrite F1, D1; reflexivity|split; [congruence|split]]].
  - intros x; rewrite F4; unfold nat_info at 1; rewrite B5; destruct (Z.eqb_spec x nid) as [->|Hne].
    + rewrite B3, R3, Hr1, Hr2; reflexivity.
    + rewrite A4, (proj2 (Z.eqb_neq x nid) Hne); unfold nat_info; destruct (__lookup_nat_cache n x); [reflexivity|].
      rewrite D1; reflexivity.
  - intros x; rewrite F5; unfold dirty_nid; rewrite B5; destruct (Z.eqb_spec x nid) as [->|Hne].
    + split; [auto|]; intros _; exists e4; auto.
    + rewrite A4, (proj2 (Z.eqb_neq x nid) Hne); tauto.
Qed.
