(* ===== verification/FreeNid.v ===== *)
(** The free node ids, kept in one list per core, and their allocation
    (src/Max/node.c: add_free_nid to alloc_nid_failed, init_node_manager). *)

From Stdlib Require Import ZArith Lia Bool.
From stdpp Require Import base numbers list gmap.
From S2P Require Import Prelude Layout Bitops SmState SitFlush Nat.

#[local] Open Scope Z_scope.
#[local] Ltac Zify.zify_post_hook ::= Z.to_euclidean_division_equations.

(** * Definitions *)

Definition NID_NEW : Z := 0.
Definition NID_ALLOC : Z := 1.

Definition nid_list_count (n : nm_info) : Z := zlen (nid_lists n).
Definition LIST_IDX (nid : Z) (n : nm_info) : Z := nid / nid_chunk n.
Definition list_of (n : nm_info) (nid : Z) : nid_list := (nid_lists n).[LIST_IDX nid n].
Definition set_list (k : Z) (l : nid_list) (n : nm_info) : nm_info := with_nid_lists ((nid_lists n).[k <- l]) n.

Definition __lookup_free_nid_list (n : nm_info) (nid : Z) : option Z := free_nid_root (list_of n nid) !! nid.

Definition __del_from_free_nid_list (nid : Z) (n : nm_info) : nm_info :=
  let l := list_of n nid in
  set_list (LIST_IDX nid n)
    (mk_nid_list (delete nid (free_nid_root l)) (remove_id nid (free_nid_list l)) (percore_fcnt l)) n.

(** The result is -1 without memory, 1 when the id was added, 0 otherwise; slab
    allocation and [radix_tree_preload] succeed. *)
Definition add_free_nid (nid : Z) (build : bool) (n : nm_info) : Z * nm_info :=
  if negb (available_free_memory n FREE_NIDS) then (-1, n)
  else if nid =? 0 then (0, n)
  else
    let allocated := build &&
      match __lookup_nat_cache n nid with
      | Some ne => negb (get_nat_flag ne IS_CHECKPOINTED) || negb (ni_blk_addr ne =? NULL_ADDR)
      | None => false
      end in
    if allocated then (0, n)
    else
      let l := list_of n nid in
      match free_nid_root l !! nid with
      | Some _ => (0, n)
      | None =>
          (1, set_list (LIST_IDX nid n)
                (mk_nid_list (<[nid := NID_NEW]> (free_nid_root l)) (free_nid_list l ++ [nid])
                             (u32 (percore_fcnt l + 1))) n)
      end.

Definition with_fcnt (v : Z) (l : nid_list) : nid_list := mk_nid_list (free_nid_root l) (free_nid_list l) v.
Definition add_fcnt (k d : Z) (n : nm_info) : nm_info :=
  let l := (nid_lists n).[k] in set_list k (with_fcnt (u32 (percore_fcnt l + d)) l) n.

Definition remove_free_nid (nid : Z) (n : nm_info) : nm_info :=
  match __lookup_free_nid_list n nid with
  | Some st => if st =? NID_NEW
               then add_fcnt (LIST_IDX nid n) (-1) (__del_from_free_nid_list nid n) else n
  | None => n
  end.

(** The loop of [scan_nat_page], from entry [i] on; [k] entries are left. *)
Fixpoint scan_nat_loop (k : nat) (page : list f2fs_nat_entry) (i start_nid : Z) (n : nm_info) : nm_info :=
  match k with
  | O => n
  | S k =>
      if max_nid n <=? start_nid then n
      else
        let blk_addr := ne_block_addr (page.[i]) in
        let n := bug_on (blk_addr =? NEW_ADDR) n in
        if blk_addr =? NULL_ADDR then
          let '(r, n) := add_free_nid start_nid true n in
          if r <? 0 then n else scan_nat_loop k page (i + 1) (u32 (start_nid + 1)) n
        else scan_nat_loop k page (i + 1) (u32 (start_nid + 1)) n
  end.

Definition scan_nat_page (page : list f2fs_nat_entry) (start_nid : Z) (n : nm_info) : nm_info :=
  let i := start_nid mod NAT_ENTRY_PER_BLOCK in
  scan_nat_loop (Z.to_nat (NAT_ENTRY_PER_BLOCK - i)) page i start_nid n.

(** One page of the scan and the id to go on with. *)
Definition scan_step (s : Z * nm_info) : Z * nm_info :=
  let '(nid, n) := s in
  let n := scan_nat_page (get_current_nat_page n nid) nid n in
  let nid := u32 (nid + (NAT_ENTRY_PER_BLOCK - nid mod NAT_ENTRY_PER_BLOCK)) in
  (if max_nid n <=? nid then NAT_ENTRY_PER_BLOCK else nid, n).

(** The journal's entries: an address adds the id or takes it away. *)
Definition scan_journal (n : nm_info) : nm_info :=
  let sum := nat_sum n in
  for_range 0 (nats_in_cursum sum) (fun i n =>
    let nid := nj_nid ((sb_nat_j sum).[i]) in
    if ne_block_addr (nj_ne ((sb_nat_j sum).[i])) =? NULL_ADDR
    then snd (add_free_nid nid true n) else remove_free_nid nid n) n.

(** The readahead loop leaves [blkno] at the end, which [is_valid_blkaddr] allows for
    every block of the NAT; the scan makes [blkno - start + 1] steps. *)
Definition build_all_free_nids (n : nm_info) : nm_info :=
  let start := NAT_BLOCK_OFFSET (next_scan_nid n) in
  let blkno := Z.max start (NAT_BLOCK_OFFSET (max_nid n)) in
  let '(_, n) := for_range 0 (blkno - start + 1) (fun _ => scan_step) (next_scan_nid n, n) in
  scan_journal n.

Definition build_free_nids (n : nm_info) : nm_info := scan_journal n.

(** The first id in state NID_NEW. *)
Fixpoint first_new (root : gmap Z Z) (l : list Z) : option Z :=
  match l with
  | [] => None
  | nid :: r => if default NID_ALLOC (root !! nid) =? NID_NEW then Some nid else first_new root r
  end.

(** One round of [alloc_nid], up to [goto retry]: the result when it returns, with the
    id, or the state to retry from.  No other thread holds [build_lock].  Without an
    id in state NID_NEW the check fails, and the source goes on with the list head. *)
Definition alloc_nid_round (valid_nodes : Z) (n : nm_info) : option (option Z) * nm_info :=
  if u32 (available_nids n - 1) <? valid_nodes then (Some None, n)
  else
    let n := with_next_allocator (s32 (next_allocator n + 1)) n in
    let list_id := Z.rem (next_allocator n) (nid_list_count n) in
    let l := (nid_lists n).[list_id] in
    if negb (percore_fcnt l =? 0) then
      match first_new (free_nid_root l) (free_nid_list l) with
      | None => (Some None, with_nm_bug true n)
      | Some nid =>
          (Some (Some nid),
           set_list list_id
             (mk_nid_list (<[nid := NID_ALLOC]> (free_nid_root l)) (free_nid_list l) (u32 (percore_fcnt l - 1))) n)
      end
    else (None, build_free_nids n).

(** [None] when [fuel] rounds do not suffice. *)
Fixpoint alloc_nid (fuel : nat) (valid_nodes : Z) (n : nm_info) : option (option Z * nm_info) :=
  match fuel with
  | O => None
  | S fuel =>
      match alloc_nid_round valid_nodes n with
      | (Some r, n) => Some (r, n)
      | (None, n) => alloc_nid fuel valid_nodes n
      end
  end.

Definition alloc_nid_done (nid : Z) (n : nm_info) : nm_info :=
  let bad := match __lookup_free_nid_list n nid with Some st => negb (st =? NID_ALLOC) | None => true end in
  __del_from_free_nid_list nid (bug_on bad n).

Definition alloc_nid_failed (nid : Z) (n : nm_info) : nm_info :=
  if nid =? 0 then n
  else
    let bad := match __lookup_free_nid_list n nid with Some st => negb (st =? NID_ALLOC) | None => true end in
    let n := bug_on bad n in
    if negb (available_free_memory n FREE_NIDS) then __del_from_free_nid_list nid n
    else
      let l := list_of n nid in
      set_list (LIST_IDX nid n)
        (mk_nid_list (<[nid := NID_NEW]> (free_nid_root l)) (free_nid_list l) (u32 (percore_fcnt l + 1))) n.

Definition DEF_RAM_THRESHOLD : Z := 10.

(** The macro F2FS_RESERVED_NODE_NUM has no outer parentheses: subtracting it also
    subtracts its last term.  Allocations succeed. *)
Definition init_node_manager (log_bps blkaddr segment_count_nat next_free avail_ram nr_file_cell num_online_cpus : Z)
  (version_bitmap : list Z) (sum : f2fs_summary_block) (pages : gmap Z (list f2fs_nat_entry)) : nm_info :=
  let nat_segs := Z.shiftr segment_count_nat 1 in
  let nat_blocks := u32 (Z.shiftl nat_segs log_bps) in
  let max := u32 (NAT_ENTRY_PER_BLOCK * nat_blocks) in
  let list_cnt := num_online_cpus in
  let trees := if 0 <? nr_file_cell then nr_file_cell else num_online_cpus in
  mk_nm log_bps blkaddr max (u32 (max - PAGE_CACHE_SIZE / sizeof_f2fs_nat_entry - 1)) next_free avail_ram DEF_RAM_THRESHOLD
    (replicate (Z.to_nat trees) (mk_tree ∅ [] ∅ 0 0)) version_bitmap
    (replicate (Z.to_nat list_cnt) (mk_nid_list ∅ [] 0)) (u32 (max + 1) / list_cnt + 1)
    (u32 (next_free - 1) mod list_cnt) sum pages false.

Definition build_node_manager (log_bps blkaddr segment_count_nat next_free avail_ram nr_file_cell num_online_cpus : Z)
  (version_bitmap : list Z) (sum : f2fs_summary_block) (pages : gmap Z (list f2fs_nat_entry)) : nm_info :=
  build_all_free_nids (init_node_manager log_bps blkaddr segment_count_nat next_free avail_ram nr_file_cell
    num_online_cpus version_bitmap sum pages).

Definition next_free_nid : Z := NAT_ENTRY_PER_BLOCK.
