(* ===== verification/NidLists.v ===== *)
(** The lists of free node ids: their invariant, and what every operation does to the
    state of an id (src/Max/node.c: add_free_nid to alloc_nid_failed). *)

From Stdlib Require Import ZArith Lia Bool.
From stdpp Require Import base numbers list gmap.
From S2P Require Import Prelude Layout Bitops SmState SitFlush Nat FreeNid.

#[local] Open Scope Z_scope.
#[local] Ltac Zify.zify_post_hook ::= Z.to_euclidean_division_equations.

(** ** One list *)

(** The number of ids that can be allocated. *)
Definition new_cnt (root : gmap Z Z) : Z := Z.of_nat (size (filter (fun kv => kv.2 = NID_NEW) root)).

Lemma new_cnt_delete root x : new_cnt (delete x root) = new_cnt root - b2z (bool_decide (root !! x = Some NID_NEW)).
Proof.
  unfold new_cnt; rewrite map_filter_delete; set (F := filter _ root).
  assert (HF : F !! x = Some NID_NEW <-> root !! x = Some NID_NEW).
  { unfold F; rewrite map_lookup_filter_Some; cbn; tauto. }
  destruct (bool_decide_reflect (root !! x = Some NID_NEW)) as [E|E]; cbn [b2z].
  - rewrite map_size_delete, (proj2 HF E).
    assert (size F <> 0%nat) by (intros H; apply map_size_empty_inv in H; rewrite H, lookup_empty in HF; destruct HF as [_ HF]; specialize (HF E); discriminate).
    lia.
  - rewrite delete_id; [lia|]; destruct (F !! x) as [st|] eqn:Ex; [|reflexivity].
    exfalso; unfold F in Ex; apply map_lookup_filter_Some in Ex; cbn in Ex; destruct Ex as [Ex ->]; contradiction.
Qed.

Lemma new_cnt_insert root x st : new_cnt (<[x := st]> root) = new_cnt root - b2z (bool_decide (root !! x = Some NID_NEW)) + b2z (st =? NID_NEW).
Proof.
  rewrite <- new_cnt_delete; unfold new_cnt; rewrite map_filter_insert; cbn [snd].
  destruct (decide (st = NID_NEW)) as [->|Hne].
  - rewrite Z.eqb_refl; cbn [b2z]; rewrite map_filter_delete, <- insert_delete_eq, map_size_insert_None by apply lookup_delete_eq; lia.
  - rewrite (proj2 (Z.eqb_neq _ _) Hne); cbn [b2z]; lia.
Qed.

Section Lists.
Variables (top chunk : Z).

(** List [k]: the ids of its chunk, each once, with an exact count of those that can be
    allocated. *)
Record list_wf (k : Z) (l : nid_list) : Prop := {
  lw_list : forall x, x ∈ free_nid_list l <-> is_Some (free_nid_root l !! x);
  lw_nodup : NoDup (free_nid_list l);
  lw_key : forall x st, free_nid_root l !! x = Some st -> 0 < x < top /\ x / chunk = k /\ (st = NID_NEW \/ st = NID_ALLOC);
  lw_cnt : percore_fcnt l = new_cnt (free_nid_root l);
}.

Lemma list_empty_wf k : list_wf k (mk_nid_list ∅ [] 0).
Proof.
  constructor; cbn [free_nid_root free_nid_list percore_fcnt].
  - intros x; rewrite lookup_empty, elem_of_nil; split; [tauto|intros [s H]; discriminate].
  - constructor.
  - intros x st H; rewrite lookup_empty in H; discriminate.
  - reflexivity.
Qed.

Lemma list_cnt_range k l : 0 <= top -> list_wf k l -> 0 <= new_cnt (free_nid_root l) <= top.
Proof.
  intros Ht Hl; split; [unfold new_cnt; lia|]; apply keys_size; [exact Ht|].
  intros x st H; apply map_lookup_filter_Some in H; destruct H as [H _]; pose proof (lw_key _ _ Hl x st H); lia.
Qed.

(** The list after the state of [x] becomes [o]. *)
Definition edit (x : Z) (o : option Z) (l : nid_list) : nid_list :=
  let r := match o with Some st => <[x := st]> (free_nid_root l) | None => delete x (free_nid_root l) end in
  let q := match o, free_nid_root l !! x with
           | Some _, Some _ => free_nid_list l
           | Some _, None => free_nid_list l ++ [x]
           | None, _ => remove_id x (free_nid_list l)
           end in
  mk_nid_list r q (new_cnt r).

Lemma edit_wf k l x o :
  list_wf k l -> 0 < x < top -> x / chunk = k -> (forall st, o = Some st -> st = NID_NEW \/ st = NID_ALLOC) -> list_wf k (edit x o l).
Proof.
  intros [W1 W2 W3 W4] Hx Hk Ho; constructor; cbn [edit free_nid_root free_nid_list percore_fcnt].
  - intros y; destruct o as [st|].
    + destruct (Z.eq_dec y x) as [->|Hne].
      * rewrite lookup_insert_eq; split; [eauto|intros _]; destruct (free_nid_root l !! x) eqn:E; [apply W1; rewrite E; eauto|].
        apply elem_of_app; right; apply list_elem_of_singleton; reflexivity.
      * rewrite lookup_insert_ne by congruence; rewrite <- W1; destruct (free_nid_root l !! x); [reflexivity|].
        rewrite elem_of_app, list_elem_of_singleton; split; [intros [H|H]; [exact H|contradiction]|auto].
    + rewrite elem_remove_id, W1; destruct (Z.eq_dec y x) as [->|Hne].
      * rewrite lookup_delete_eq; split; [tauto|intros [s H]; discriminate].
      * rewrite lookup_delete_ne by congruence; tauto.
  - destruct o as [st|]; [|apply remove_id_nodup; exact W2].
    destruct (free_nid_root l !! x) eqn:E; [exact W2|]; apply NoDup_app; split; [exact W2|split; [|apply NoDup_singleton]].
    intros y Hy Hy'; apply list_elem_of_singleton in Hy'; subst y; apply W1 in Hy; rewrite E in Hy; destruct Hy; discriminate.
  - intros y s Hy; destruct (Z.eq_dec y x) as [->|Hne].
    + destruct o as [st|]; [rewrite lookup_insert_eq in Hy; injection Hy as ->|rewrite lookup_delete_eq in Hy; discriminate].
      split; [exact Hx|split; [exact Hk|apply Ho; reflexivity]].
    + apply W3; destruct o; [rewrite lookup_insert_ne in Hy by congruence|rewrite lookup_delete_ne in Hy by congruence]; exact Hy.
  - reflexivity.
Qed.

Lemma edit_root x o l y : free_nid_root (edit x o l) !! y = if y =? x then o else free_nid_root l !! y.
Proof.
  cbn [edit free_nid_root]; destruct (Z.eqb_spec y x) as [->|Hne]; destruct o;
    rewrite ?lookup_insert_eq, ?lookup_delete_eq, ?lookup_insert_ne, ?lookup_delete_ne by congruence; reflexivity.
Qed.
End Lists.

(** ** All lists *)

Record lists_wf (n : nm_info) : Prop := {
  ls_top : 0 <= max_nid n < 2 ^ 32;
  ls_chunk : 0 < nid_chunk n;
  ls_cover : forall x, 0 <= x < max_nid n -> x / nid_chunk n < nid_list_count n;
  ls_some : 0 < nid_list_count n;
  ls_list : forall k, 0 <= k < nid_list_count n -> list_wf (max_nid n) (nid_chunk n) k ((nid_lists n).[k]);
}.

(** The state of an id: none, or NID_NEW or NID_ALLOC. *)
Definition fstate (n : nm_info) (x : Z) : option Z := free_nid_root (list_of n x) !! x.

Lemma list_idx_range n x : lists_wf n -> 0 <= x < max_nid n -> 0 <= LIST_IDX x n < nid_list_count n.
Proof.
  intros Hl Hx; unfold LIST_IDX; split; [|apply ls_cover; assumption].
  apply Z.div_pos; [lia|apply ls_chunk; exact Hl].
Qed.

(** Only the lists differ. *)
Definition lists_only (n n' : nm_info) : Prop := exists L, n' = with_nid_lists L n.

Lemma lists_only_refl n : lists_only n n.
Proof. exists (nid_lists n); destruct n; reflexivity. Qed.

Lemma lists_only_trans n1 n2 n3 : lists_only n1 n2 -> lists_only n2 n3 -> lists_only n1 n3.
Proof. intros [L1 ->] [L2 ->]; exists L2; reflexivity. Qed.

(** The state of [x] becomes [o], nothing else changes. *)
Record edited (n n' : nm_info) (x : Z) (o : option Z) : Prop := {
  ed_only : lists_only n n';
  ed_wf : lists_wf n';
  ed_state : forall y, 0 <= y < max_nid n -> fstate n' y = if y =? x then o else fstate n y;
}.

Lemma edit_ok n x o :
  lists_wf n -> 0 < x < max_nid n -> (forall st, o = Some st -> st = NID_NEW \/ st = NID_ALLOC) ->
  edited n (set_list (LIST_IDX x n) (edit x o (list_of n x)) n) x o.
Proof.
  intros Hl Hx Ho; pose proof (list_idx_range n x Hl ltac:(lia)) as Hk.
  assert (Hget : forall j, (nid_lists (set_list (LIST_IDX x n) (edit x o (list_of n x)) n)).[j] =
    if LIST_IDX x n =? j then edit x o (list_of n x) else (nid_lists n).[j]).
  { intros j; unfold set_list; cbn [nid_lists with_nid_lists]; apply aget_aset; exact Hk. }
  constructor.
  - eexists; reflexivity.
  - destruct Hl as [H1 H2 H3 H4 H5].
    assert (Hc : nid_list_count (set_list (LIST_IDX x n) (edit x o (list_of n x)) n) = nid_list_count n) by (unfold nid_list_count, set_list; cbn; apply zlen_aset).
    constructor; try assumption; rewrite Hc; try assumption.
    intros k Hk'; rewrite Hget; destruct (Z.eqb_spec (LIST_IDX x n) k) as [<-|]; [|apply H5; exact Hk'].
    apply edit_wf; [apply H5; exact Hk|exact Hx|reflexivity|exact Ho].
  - intros y Hy; unfold fstate; set (l := list_of n x) in *; unfold list_of; rewrite Hget.
    change (LIST_IDX y (set_list (LIST_IDX x n) (edit x o l) n)) with (LIST_IDX y n).
    destruct (Z.eqb_spec (LIST_IDX x n) (LIST_IDX y n)) as [E|E].
    + rewrite edit_root; destruct (y =? x); [reflexivity|]; unfold l, list_of; rewrite E; reflexivity.
    + destruct (Z.eqb_spec y x) as [->|]; [contradiction|reflexivity].
Qed.

Lemma state_key n x st : lists_wf n -> 0 <= x < max_nid n -> fstate n x = Some st -> 0 < x < max_nid n /\ (st = NID_NEW \/ st = NID_ALLOC).
Proof.
  intros Hl Hx H; destruct (lw_key _ _ _ _ (ls_list _ Hl _ (list_idx_range n x Hl Hx)) x st H) as (A & _ & B); auto.
Qed.

Lemma own_cnt n x : lists_wf n -> 0 <= x < max_nid n ->
  percore_fcnt (list_of n x) = new_cnt (free_nid_root (list_of n x)) /\ 0 <= new_cnt (free_nid_root (list_of n x)) <= max_nid n.
Proof.
  intros Hl Hx; pose proof (ls_list _ Hl _ (list_idx_range n x Hl Hx)) as H; fold (list_of n x) in H.
  split; [apply H|eapply list_cnt_range; [apply Hl|exact H]].
Qed.

Lemma edit_bounds n x o : lists_wf n -> 0 < x < max_nid n -> (forall st, o = Some st -> st = NID_NEW \/ st = NID_ALLOC) ->
  0 <= new_cnt (free_nid_root (edit x o (list_of n x))) < 2 ^ 32.
Proof.
  intros Hl Hx Ho; pose proof (ls_list _ Hl _ (list_idx_range n x Hl ltac:(lia))) as H; fold (list_of n x) in H.
  pose proof (list_cnt_range _ _ _ _ (proj1 (ls_top _ Hl)) (edit_wf _ _ _ _ x o H Hx eq_refl Ho)); pose proof (ls_top _ Hl); lia.
Qed.

(** ** The operations *)

Definition add_refused (n : nm_info) (x : Z) (build : bool) : bool :=
  negb (available_free_memory n FREE_NIDS) || (x =? 0) ||
  (build && match __lookup_nat_cache n x with
            | Some ne => negb (get_nat_flag ne IS_CHECKPOINTED) || negb (ni_blk_addr ne =? NULL_ADDR)
            | None => false
            end) || bool_decide (is_Some (fstate n x)).

Lemma add_free_nid_ok n x build : lists_wf n -> 0 <= x < max_nid n ->
  if add_refused n x build then snd (add_free_nid x build n) = n
  else edited n (snd (add_free_nid x build n)) x (Some NID_NEW) /\ fstate n x = None.
Proof.
  intros Hl Hx; unfold add_refused, add_free_nid; destruct (available_free_memory n FREE_NIDS); cbn [negb orb]; [|reflexivity].
  destruct (Z.eqb_spec x 0) as [->|Hx0]; cbn [orb]; [reflexivity|].
  destruct (build && _); cbn [orb]; [reflexivity|].
  unfold fstate; destruct (free_nid_root (list_of n x) !! x) as [st|] eqn:E; cbn [orb snd].
  - rewrite bool_decide_eq_true_2 by eauto; reflexivity.
  - rewrite bool_decide_eq_false_2 by (intros [s H]; discriminate); split; [|reflexivity].
    assert (Ho : forall st, Some NID_NEW = Some st -> st = NID_NEW \/ st = NID_ALLOC) by (intros st H; injection H as <-; auto).
    pose proof (edit_ok n x (Some NID_NEW) Hl ltac:(lia) Ho) as H; pose proof (edit_bounds n x (Some NID_NEW) Hl ltac:(lia) Ho) as Hb.
    destruct (own_cnt n x Hl Hx) as [Ec _].
    match goal with |- edited _ ?m _ _ => replace m with (set_list (LIST_IDX x n) (edit x (Some NID_NEW) (list_of n x)) n); [exact H|] end.
    f_equal; unfold edit in Hb |- *; rewrite E; cbn [free_nid_root] in Hb; f_equal; rewrite Ec.
    rewrite new_cnt_insert, E, bool_decide_eq_false_2, Z.eqb_refl in Hb |- * by discriminate; cbn [b2z] in *.
    rewrite u32_small by lia; lia.
Qed.

Lemma del_free_nid_ok n x : lists_wf n -> 0 < x < max_nid n ->
  fstate n x = Some NID_ALLOC -> edited n (__del_from_free_nid_list x n) x None.
Proof.
  intros Hl Hx E; pose proof (edit_ok n x None Hl Hx ltac:(discriminate)) as H; destruct (own_cnt n x Hl ltac:(lia)) as [Ec _].
  unfold __del_from_free_nid_list; cbv zeta; unfold fstate in E.
  match goal with |- edited _ ?m _ _ => replace m with (set_list (LIST_IDX x n) (edit x None (list_of n x)) n); [exact H|] end.
  f_equal; unfold edit; f_equal; rewrite Ec, new_cnt_delete, E, bool_decide_eq_false_2 by discriminate; cbn [b2z]; lia.
Qed.

Lemma remove_free_nid_ok n x : lists_wf n -> 0 <= x < max_nid n ->
  if bool_decide (fstate n x = Some NID_NEW) then edited n (remove_free_nid x n) x None else remove_free_nid x n = n.
Proof.
  intros Hl Hx; unfold remove_free_nid, __lookup_free_nid_list; fold (fstate n x); destruct (fstate n x) as [st|] eqn:E.
  2: { rewrite bool_decide_eq_false_2 by discriminate; reflexivity. }
  destruct (Z.eqb_spec st NID_NEW) as [->|Hne].
  2: { rewrite bool_decide_eq_false_2 by congruence; reflexivity. }
  rewrite bool_decide_eq_true_2 by reflexivity; destruct (state_key n x _ Hl Hx E) as [Hx1 _].
  pose proof (edit_ok n x None Hl Hx1 ltac:(discriminate)) as H; pose proof (edit_bounds n x None Hl Hx1 ltac:(discriminate)) as Hb.
  destruct (own_cnt n x Hl Hx) as [Ec _]; pose proof (list_idx_range n x Hl Hx) as Hk.
  match goal with |- edited _ ?m _ _ => replace m with (set_list (LIST_IDX x n) (edit x None (list_of n x)) n); [exact H|] end.
  unfold add_fcnt, __del_from_free_nid_list, set_list; cbn [nid_lists with_nid_lists]; rewrite aget_aset by exact Hk; rewrite Z.eqb_refl.
  cbn [with_fcnt free_nid_root free_nid_list percore_fcnt]; unfold aset; rewrite !(proj2 (Z.leb_le 0 _)) by lia; rewrite list_insert_insert_eq.
  unfold with_nid_lists; cbn; do 2 f_equal; unfold edit in Hb |- *; f_equal; cbn [free_nid_root] in Hb.
  unfold with_fcnt; cbn [free_nid_root free_nid_list percore_fcnt]; f_equal; unfold fstate in E.
  rewrite Ec, new_cnt_delete, E, bool_decide_eq_true_2 in * by reflexivity; cbn [b2z] in *; symmetry; apply u32_small; lia.
Qed.

(** ** Allocation *)

Lemma first_new_spec root l :
  match first_new root l with
  | Some x => x ∈ l /\ root !! x = Some NID_NEW
  | None => forall x, x ∈ l -> root !! x <> Some NID_NEW
  end.
Proof.
  induction l as [|a l IH]; cbn [first_new]; [intros x H; inversion H|].
  destruct (Z.eqb_spec (default NID_ALLOC (root !! a)) NID_NEW) as [E|E].
  - split; [left|]; destruct (root !! a); cbn in E; [congruence|discriminate].
  - destruct (first_new root l); [destruct IH; split; [right|]; assumption|].
    intros x Hx; apply elem_of_cons in Hx; destruct Hx as [->|Hx]; [intros H; rewrite H in E; apply E; reflexivity|apply IH; exact Hx].
Qed.

Lemma new_cnt_zero root : new_cnt root = 0 <-> forall x, root !! x <> Some NID_NEW.
Proof.
  unfold new_cnt; split.
  - intros H x Hx; assert (E : filter (fun kv : Z * Z => kv.2 = NID_NEW) root = ∅) by (apply map_size_empty_inv; lia).
    assert (X : filter (fun kv : Z * Z => kv.2 = NID_NEW) root !! x = Some NID_NEW) by (apply map_lookup_filter_Some; auto).
    rewrite E, lookup_empty in X; discriminate.
  - intros H; replace (filter (fun kv : Z * Z => kv.2 = NID_NEW) root) with (∅ : gmap Z Z); [reflexivity|].
    apply map_eq; intros x; rewrite lookup_empty; destruct (filter _ root !! x) as [st|] eqn:E; [|reflexivity].
    apply map_lookup_filter_Some in E; destruct E as [E Hst]; cbn in Hst; subst st; exfalso; apply (H x E).
Qed.

(** The list the next round looks at. *)
Definition next_list (n : nm_info) : Z := (next_allocator n + 1) mod nid_list_count n.

Definition list_has_new (n : nm_info) (k : Z) : Prop := exists x, 0 <= x < max_nid n /\ LIST_IDX x n = k /\ fstate n x = Some NID_NEW.

Definition stepped (n : nm_info) : nm_info := with_next_allocator (next_allocator n + 1) n.

Lemma alloc_round_ok n valid :
  lists_wf n -> 0 <= next_allocator n < 2 ^ 31 - 1 ->
  if u32 (available_nids n - 1) <? valid then alloc_nid_round valid n = (Some None, n)
  else
    (exists x n', alloc_nid_round valid n = (Some (Some x), n') /\ 0 < x < max_nid n /\ LIST_IDX x n = next_list n /\ fstate n x = Some NID_NEW /\
       edited (stepped n) n' x (Some NID_ALLOC)) \/
    (~ list_has_new n (next_list n) /\ alloc_nid_round valid n = (None, build_free_nids (stepped n))).
Proof.
  intros Hl Ha; unfold alloc_nid_round; destruct (u32 (available_nids n - 1) <? valid); [reflexivity|]; cbv zeta.
  assert (Es : s32 (next_allocator n + 1) = next_allocator n + 1) by (unfold s32; rewrite u32_small, (proj2 (Z.ltb_lt _ _)) by lia; reflexivity); rewrite Es; fold (stepped n).
  pose proof (ls_some _ Hl) as Hc.
  assert (Er : Z.rem (next_allocator (stepped n)) (nid_list_count (stepped n)) = next_list n).
  { unfold next_list; change (next_allocator (stepped n)) with (next_allocator n + 1); change (nid_list_count (stepped n)) with (nid_list_count n).
    apply Z.rem_mod_nonneg; lia. }
  rewrite Er; set (k := next_list n) in *; assert (Hk : 0 <= k < nid_list_count n) by (apply Z.mod_pos_bound; lia).
  change (nid_lists (stepped n)) with (nid_lists n); pose proof (ls_list _ Hl k Hk) as Wk; set (l := (nid_lists n).[k]) in *.
  assert (Hls : lists_wf (stepped n)) by (destruct Hl; constructor; assumption).
  destruct (Z.eqb_spec (percore_fcnt l) 0) as [E0|E0]; cbn [negb].
  - right; split; [|reflexivity]; intros (x & Hx & Ex & Hs); rewrite (lw_cnt _ _ _ _ Wk) in E0.
    unfold fstate, list_of in Hs; rewrite Ex in Hs; apply (proj1 (new_cnt_zero _) E0 x Hs).
  - left; pose proof (first_new_spec (free_nid_root l) (free_nid_list l)) as H; destruct (first_new _ _) as [x|].
    + destruct H as [H1 H2]; destruct (lw_key _ _ _ _ Wk x _ H2) as (K1 & K2 & _).
      assert (Ei : LIST_IDX x n = k) by exact K2.
      assert (El : list_of (stepped n) x = l) by (unfold list_of; change (LIST_IDX x (stepped n)) with (LIST_IDX x n); rewrite Ei; reflexivity).
      assert (Ho : forall st, Some NID_ALLOC = Some st -> st = NID_NEW \/ st = NID_ALLOC) by (intros st X; injection X as <-; auto).
      pose proof (edit_ok (stepped n) x (Some NID_ALLOC) Hls K1 Ho) as He; pose proof (edit_bounds (stepped n) x (Some NID_ALLOC) Hls K1 Ho) as Hb.
      rewrite El in He, Hb; eexists x, _; split; [reflexivity|split; [exact K1|split; [exact Ei|split; [unfold fstate, list_of; rewrite Ei; exact H2|]]]].
      match goal with |- edited _ ?m _ _ => replace m with (set_list (LIST_IDX x (stepped n)) (edit x (Some NID_ALLOC) l) (stepped n)); [exact He|] end.
      change (LIST_IDX x (stepped n)) with (LIST_IDX x n); rewrite Ei; f_equal; unfold edit in Hb |- *; rewrite H2; cbn [free_nid_root] in Hb.
      f_equal; rewrite (lw_cnt _ _ _ _ Wk), new_cnt_insert, H2, bool_decide_eq_true_2 in * by reflexivity.
      change (NID_ALLOC =? NID_NEW) with false in *; cbn [b2z] in *; symmetry; rewrite u32_small by lia; lia.
    + exfalso; apply E0; rewrite (lw_cnt _ _ _ _ Wk); apply new_cnt_zero; intros x Hx; apply (H x); [|exact Hx].
      apply (lw_list _ _ _ _ Wk); eauto.
Qed.

Lemma alloc_done_ok n x : lists_wf n -> 0 < x < max_nid n -> fstate n x = Some NID_ALLOC -> edited n (alloc_nid_done x n) x None.
Proof.
  intros Hl Hx E; unfold alloc_nid_done, __lookup_free_nid_list; fold (fstate n x); rewrite E; cbv zeta; apply del_free_nid_ok; assumption.
Qed.

(** An id that is given back can be allocated again, or leaves the lists when memory is
    short. *)
Lemma alloc_failed_ok n x : lists_wf n -> 0 < x < max_nid n -> fstate n x = Some NID_ALLOC ->
  edited n (alloc_nid_failed x n) x (if available_free_memory n FREE_NIDS then Some NID_NEW else None).
Proof.
  intros Hl Hx E; unfold alloc_nid_failed, __lookup_free_nid_list; fold (fstate n x); rewrite E, (proj2 (Z.eqb_neq x 0)) by lia.
  change (negb (NID_ALLOC =? NID_ALLOC)) with false; cbv zeta; cbn [bug_on].
  destruct (available_free_memory n FREE_NIDS); cbn [negb]; [|apply del_free_nid_ok; assumption].
  assert (Ho : forall st, Some NID_NEW = Some st -> st = NID_NEW \/ st = NID_ALLOC) by (intros st H; injection H as <-; auto).
  pose proof (edit_ok n x (Some NID_NEW) Hl Hx Ho) as H; pose proof (edit_bounds n x (Some NID_NEW) Hl Hx Ho) as Hb.
  destruct (own_cnt n x Hl ltac:(lia)) as [Ec _]; unfold fstate in E.
  match goal with |- edited _ ?m _ _ => replace m with (set_list (LIST_IDX x n) (edit x (Some NID_NEW) (list_of n x)) n); [exact H|] end.
  f_equal; unfold edit in Hb |- *; rewrite E; cbn [free_nid_root] in Hb; f_equal.
  rewrite Ec, new_cnt_insert, E, bool_decide_eq_false_2, Z.eqb_refl in * by discriminate; cbn [b2z] in *; symmetry; rewrite u32_small by lia; lia.
Qed.

(** ** Side effects of other operations *)

Lemma add_free_frame nid b n : exists L, snd (add_free_nid nid b n) = with_nid_lists L n.
Proof.
  unfold add_free_nid; destruct (negb _); [exists (nid_lists n); destruct n; reflexivity|].
  destruct (nid =? 0); [exists (nid_lists n); destruct n; reflexivity|].
  destruct (b && _); [exists (nid_lists n); destruct n; reflexivity|].
  destruct (free_nid_root _ !! nid); [exists (nid_lists n); destruct n; reflexivity|eexists; reflexivity].
Qed.

(** The lists keep their states, apart from ids without an address that are added. *)
Definition lists_grow (n n' : nm_info) : Prop :=
  lists_wf n -> lists_wf n' /\
  forall y, 0 <= y < max_nid n ->
    fstate n' y = fstate n y \/ (fstate n y = None /\ fstate n' y = Some NID_NEW /\ ne_block_addr (nat_info n y) = NULL_ADDR).

Lemma lists_same n n' : nid_lists n' = nid_lists n -> nid_chunk n' = nid_chunk n -> max_nid n' = max_nid n -> lists_grow n n'.
Proof.
  intros E1 E2 E3 [H1 H2 H3 H4 H5]; split.
  - constructor; unfold nid_list_count in *; rewrite ?E1, ?E2, ?E3; assumption.
  - intros y _; left; unfold fstate, list_of, LIST_IDX; rewrite E1, E2; reflexivity.
Qed.

Lemma lists_grow_trans n1 n2 n3 : max_nid n2 = max_nid n1 -> (forall y, 0 <= y < max_nid n1 -> nat_info n2 y = nat_info n1 y) ->
  lists_grow n1 n2 -> lists_grow n2 n3 -> lists_grow n1 n3.
Proof.
  intros Et Ei G1 G2 H1; destruct (G1 H1) as [H2 S1]; destruct (G2 H2) as [H3 S2]; split; [exact H3|].
  intros y Hy; specialize (S1 y Hy); specialize (S2 y ltac:(rewrite Et; exact Hy)); rewrite (Ei y Hy) in S2.
  destruct S1 as [S1|(S1 & S1' & S1'')], S2 as [S2|(S2 & S2' & S2'')].
  - left; congruence.
  - right; split; [congruence|auto].
  - right; split; [exact S1|split; [congruence|exact S1'']].
  - congruence.
Qed.

Lemma lists_grow_add n x b : 0 <= x < max_nid n -> ne_block_addr (nat_info n x) = NULL_ADDR -> lists_grow n (snd (add_free_nid x b n)).
Proof.
  intros Hx Ha H; pose proof (add_free_nid_ok n x b H Hx) as A; destruct (add_refused n x b).
  - rewrite A; auto.
  - destruct A as [[_ A1 A2] A3]; split; [exact A1|]; intros y Hy; rewrite A2 by exact Hy; destruct (Z.eqb_spec y x) as [->|]; auto.
Qed.
