(* ===== verification/NatFlush.v ===== *)
(** Writing the dirty node addresses back at a checkpoint: to the journal when all
    entries of a NAT block fit in, to the other copy of the block otherwise
    (src/Max/node.c: remove_nats_in_journal, flush_nat_entries_per_core). *)

From Stdlib Require Import ZArith Lia Bool.
From stdpp Require Import base numbers list gmap sorting.
From S2P Require Import Prelude Keys Layout Bitops SmState SitFlush Nat FreeNid NidLists.

#[local] Open Scope Z_scope.
#[local] Ltac Zify.zify_post_hook ::= Z.to_euclidean_division_equations.

(** * Definitions *)

Definition with_nat_j (v : list nat_journal_entry) (b : f2fs_summary_block) : f2fs_summary_block :=
  mk_sum_block (sb_entries b) (sb_n_jnl b) v (sb_sit_j b) (sb_entry_type b).

(** One entry of the journal becomes a dirty cached entry. *)
Definition unjournal_nat (sum : f2fs_summary_block) (i : Z) (n : nm_info) : nm_info :=
  let nid := nj_nid ((sb_nat_j sum).[i]) in
  let raw_ne := nj_ne ((sb_nat_j sum).[i]) in
  let n := match __lookup_nat_cache n nid with
           | Some _ => n
           | None => put_entry nid (node_info_from_raw_nat (new_nat_entry nid) raw_ne) (grab_nat_entry nid n)
           end in
  __set_nat_cache_dirty nid n.

Definition remove_nats_in_journal (n : nm_info) : nm_info :=
  let sum := nat_sum n in
  let n := for_range 0 (nats_in_cursum sum) (unjournal_nat sum) n in
  with_nat_sum (snd (update_nats_in_cursum (nat_sum n) (- nats_in_cursum sum))) n.

(** ** Collecting the sets of one NAT block from all trees *)

Definition SETVEC_SIZE : Z := 32.

(** [radix_tree_gang_lookup]: up to [nr] sets of tree [i] from number [start] on, in
    ascending order. *)
Definition __gang_lookup_nat_set (n : nm_info) (i start nr : Z) : list Z :=
  gang_lookup (nat_set_root ((nat_trees n).[i])) start (Z.to_nat nr).

(** [per_core_sets_pack]: the trees whose set of number [pk_set_id] is in the pack. *)
Record per_core_sets_pack := mk_pack {
  pk_trees : list Z;
  pk_set_id : Z;
  pk_cnt : Z;
}.

Definition set_cnt (n : nm_info) (i set : Z) : Z := nes_cnt (default (mk_nes set [] 0) (nat_set_root ((nat_trees n).[i]) !! set)).

(** A pack is put in front of the first one that is not smaller. *)
Fixpoint insert_pack (p : per_core_sets_pack) (head : list per_core_sets_pack) : list per_core_sets_pack :=
  match head with
  | [] => [p]
  | cur :: r => if pk_cnt p <=? pk_cnt cur then p :: cur :: r else cur :: insert_pack p r
  end.

(** The loop that looks for the pack of the set: the packs before it, the pack and the
    packs behind it. *)
Fixpoint find_pack (set : Z) (head : list per_core_sets_pack) :
  option (list per_core_sets_pack * per_core_sets_pack * list per_core_sets_pack) :=
  match head with
  | [] => None
  | cur :: r =>
      if pk_set_id cur =? set then Some ([], cur, r)
      else match find_pack set r with Some (a, p, b) => Some (cur :: a, p, b) | None => None end
  end.

Definition __adjust_nat_entry_set_per_core (i set cnt max : Z) (head : list per_core_sets_pack) :
  list per_core_sets_pack :=
  match find_pack set head with
  | Some (before, cur, behind) =>
      let cur := mk_pack (pk_trees cur ++ [i]) set (u32 (pk_cnt cur + cnt)) in
      if max <=? pk_cnt cur then before ++ behind ++ [cur] else before ++ cur :: behind
  | None =>
      let p := mk_pack [i] set cnt in
      if (max <=? cnt) || bool_decide (head = []) then head ++ [p] else insert_pack p head
  end.

(** The [while] loop over the sets of tree [i]; at most [fuel] lookups. *)
Fixpoint collect_sets (fuel : nat) (n : nm_info) (i max set_idx : Z) (head : list per_core_sets_pack) :
  list per_core_sets_pack :=
  match fuel with
  | O => head
  | S fuel =>
      let found := __gang_lookup_nat_set n i set_idx SETVEC_SIZE in
      match last found with
      | None => head
      | Some l =>
          collect_sets fuel n i max (l + 1)
            (foldl (fun head s => __adjust_nat_entry_set_per_core i s (set_cnt n i s) max head) head found)
      end
  end.

Definition collect_packs (n : nm_info) : list per_core_sets_pack :=
  for_range 0 (nat_tree_cnt n) (fun i =>
    collect_sets (S (size (nat_set_root ((nat_trees n).[i])))) n i (MAX_NAT_JENTRIES (nat_sum n)) 0) [].

(** ** Writing a pack *)

(** One entry: [dst] is the NAT block's page when the pack does not go to the journal. *)
Definition flush_nat_entry (dst : option Z) (start_nid nid : Z) (n : nm_info) : nm_info :=
  match __lookup_nat_cache n nid with
  | None => n
  | Some ne =>
      if ni_blk_addr ne =? NEW_ADDR then n
      else
        let raw := raw_nat_from_node_info ne in
        let n := match dst with
                 | None =>
                     let '(offset, sum) := lookup_journal_in_cursum (nat_sum n) NAT_JOURNAL nid true in
                     bug_on (offset <? 0) (with_nat_sum (with_nat_j ((sb_nat_j sum).[offset <- mk_nat_jnl nid raw]) sum) n)
                 | Some a =>
                     with_nat_pages (<[a := (nat_page n a).[nid - start_nid <- raw]]> (nat_pages n)) n
                 end in
        let n := put_entry nid (nat_reset_flag ne) n in
        let n := __clear_nat_cache_dirty nid n in
        if ni_blk_addr ne =? NULL_ADDR then snd (add_free_nid nid false n) else n
  end.

Definition set_list_of (n : nm_info) (i set : Z) : list Z :=
  match nat_set_root ((nat_trees n).[i]) !! set with Some s => nes_list s | None => [] end.

Definition drop_set (set i : Z) (n : nm_info) : nm_info :=
  let t := (nat_trees n).[i] in
  with_trees ((nat_trees n).[i <- with_sets (delete set (nat_set_root t)) t]) n.

Definition __flush_nat_entry_set_per_core (sets : per_core_sets_pack) (n : nm_info) : nm_info :=
  let start_nid := u32 (pk_set_id sets * NAT_ENTRY_PER_BLOCK) in
  let '(dst, n) := if __has_cursum_space (nat_sum n) (pk_cnt sets) NAT_JOURNAL then (None, n)
                   else let '(a, n) := get_next_nat_page start_nid n in (Some a, n) in
  let n := foldl (fun n i => foldl (fun n nid => flush_nat_entry dst start_nid nid n) n (set_list_of n i (pk_set_id sets)))
                 n (pk_trees sets) in
  for_range 0 (nat_tree_cnt n) (drop_set (pk_set_id sets)) n.

Definition sum_up_dirty (n : nm_info) : Z :=
  for_range 0 (nat_tree_cnt n) (fun i count => u32 (count + percore_dirty_nat_cnt ((nat_trees n).[i]))) 0.

Definition flush_nat_entries_per_core (n : nm_info) : nm_info :=
  let dirty := sum_up_dirty n in
  if dirty =? 0 then n
  else
    let n := if negb (__has_cursum_space (nat_sum n) dirty NAT_JOURNAL) then remove_nats_in_journal n else n in
    let sets := collect_packs n in
    let n := foldl (fun n s => __flush_nat_entry_set_per_core s n) n sets in
    for_range 0 (nat_tree_cnt n) (fun i n => bug_on (negb (percore_dirty_nat_cnt ((nat_trees n).[i]) =? 0)) n) n.

(** * Properties *)

(** ** The journal *)

Definition jslot (sum : f2fs_summary_block) (nid : Z) : Z :=
  find_next (fun i => nj_nid ((sb_nat_j sum).[i]) =? nid) (nats_in_cursum sum) 0.

(** The journal's entry for a node id. *)
Definition jlook (sum : f2fs_summary_block) (nid : Z) : option f2fs_nat_entry :=
  if jslot sum nid <? nats_in_cursum sum then Some (nj_ne ((sb_nat_j sum).[jslot sum nid])) else None.

Definition page_view (n : nm_info) (nid : Z) : f2fs_nat_entry := (get_current_nat_page n (START_NID nid)).[nid - START_NID nid].

Lemma jslot_spec top sum nid : journal_wf top sum ->
  0 <= jslot sum nid <= nats_in_cursum sum /\
  (jslot sum nid < nats_in_cursum sum -> nj_nid ((sb_nat_j sum).[jslot sum nid]) = nid) /\
  (jslot sum nid = nats_in_cursum sum -> forall i, 0 <= i < nats_in_cursum sum -> nj_nid ((sb_nat_j sum).[i]) <> nid).
Proof.
  intros [J1 _ _ _]; unfold jslot; destruct (find_next_spec (fun i => nj_nid ((sb_nat_j sum).[i]) =? nid) (nats_in_cursum sum) 0) as (A & B & C); [lia|].
  split; [exact A|split].
  - intros H; apply Z.eqb_eq; apply B; exact H.
  - intros E i Hi; apply Z.eqb_neq; apply C; lia.
Qed.

Lemma jslot_unique top sum nid i : journal_wf top sum -> 0 <= i < nats_in_cursum sum -> nj_nid ((sb_nat_j sum).[i]) = nid -> jslot sum nid = i.
Proof.
  intros Hj Hi E; destruct (jslot_spec top sum nid Hj) as (A & B & C).
  destruct (Z.eq_dec (jslot sum nid) (nats_in_cursum sum)) as [X|X]; [exfalso; apply (C X i Hi E)|].
  apply (jw_inj _ _ Hj); [lia|exact Hi|rewrite E; apply B; lia].
Qed.

Lemma jlook_at top sum i : journal_wf top sum -> 0 <= i < nats_in_cursum sum ->
  jlook sum (nj_nid ((sb_nat_j sum).[i])) = Some (nj_ne ((sb_nat_j sum).[i])).
Proof.
  intros Hj Hi; unfold jlook; rewrite (jslot_unique top sum _ i Hj Hi eq_refl), (proj2 (Z.ltb_lt i _)) by lia; reflexivity.
Qed.

Lemma jlook_none top sum nid : journal_wf top sum ->
  jlook sum nid = None <-> forall i, 0 <= i < nats_in_cursum sum -> nj_nid ((sb_nat_j sum).[i]) <> nid.
Proof.
  intros Hj; unfold jlook; destruct (jslot_spec top sum nid Hj) as (A & B & C); split.
  - destruct (Z.ltb_spec (jslot sum nid) (nats_in_cursum sum)); [discriminate|]; intros _; apply C; lia.
  - intros H; destruct (Z.ltb_spec (jslot sum nid) (nats_in_cursum sum)) as [Hlt|]; [|reflexivity].
    exfalso; apply (H (jslot sum nid)); [lia|apply B; exact Hlt].
Qed.

Lemma raw_view_eq n nid : journal_wf (max_nid n) (nat_sum n) ->
  raw_view n nid = match jlook (nat_sum n) nid with Some r => r | None => page_view n nid end.
Proof.
  intros Hj; unfold raw_view, lookup_journal_in_cursum; change (NAT_JOURNAL =? NAT_JOURNAL) with true; cbv iota zeta.
  fold (jslot (nat_sum n) nid); unfold jlook; destruct (jslot_spec _ _ nid Hj) as (A & _ & _).
  destruct (Z.ltb_spec (jslot (nat_sum n) nid) (nats_in_cursum (nat_sum n))); cbn [fst andb].
  - rewrite (proj2 (Z.leb_le 0 _)) by lia; reflexivity.
  - reflexivity.
Qed.

(** Writing an entry to the journal. *)
Definition jput (nid : Z) (raw : f2fs_nat_entry) (sum : f2fs_summary_block) : Z * f2fs_summary_block :=
  let '(offset, sum) := lookup_journal_in_cursum sum NAT_JOURNAL nid true in
  (offset, with_nat_j ((sb_nat_j sum).[offset <- mk_nat_jnl nid raw]) sum).

Lemma jput_ok top sum nid raw :
  journal_wf top sum -> 0 <= nid < top -> nats_in_cursum sum < NAT_JOURNAL_ENTRIES \/ jlook sum nid <> None ->
  let '(off, sum') := jput nid raw sum in
  0 <= off /\ journal_wf top sum' /\ nats_in_cursum sum <= nats_in_cursum sum' <= nats_in_cursum sum + 1 /\
  forall x, jlook sum' x = if x =? nid then Some raw else jlook sum x.
Proof.
  intros Hj Hn Hroom; destruct (Hj) as [J1 J2 J3 J4]; change NAT_JOURNAL_ENTRIES with 38 in *.
  unfold jput, lookup_journal_in_cursum; change (NAT_JOURNAL =? NAT_JOURNAL) with true; cbv iota zeta; change NAT_JOURNAL_ENTRIES with 38; fold (jslot sum nid).
  set (c := nats_in_cursum sum) in *; destruct (jslot_spec top sum nid Hj) as (A & B & C); fold c in A, B, C.
  set (s := jslot sum nid) in *.
  assert (Hcase : exists c', (if s <? c then (s, sum) else if true && (c <? 38) then update_nats_in_cursum sum 1 else (-1, sum)) = (s, with_n_jnl c' sum)
    /\ c <= c' <= c + 1 /\ s < c' <= 38 /\ (c' = c \/ s = c)).
  { destruct (Z.ltb_spec s c) as [Hs|Hs].
    - exists c; split; [f_equal; destruct sum; reflexivity|lia].
    - assert (s = c) by lia; assert (Hlt : c < 38).
      { destruct Hroom as [|Hj']; [assumption|]; exfalso; apply Hj'; unfold jlook; fold s c; rewrite (proj2 (Z.ltb_ge s c)) by lia; reflexivity. }
      rewrite (proj2 (Z.ltb_lt c 38) Hlt); cbn [andb]; exists (c + 1); unfold update_nats_in_cursum; fold c.
      unfold u16; rewrite Z.mod_small by lia; split; [f_equal; lia|lia]. }
  destruct Hcase as (c' & -> & Hc1 & Hc2 & Hc3).
  set (sum' := with_nat_j _ _).
  assert (En : nats_in_cursum sum' = c') by reflexivity.
  assert (Eg : forall i, 0 <= i < 38 -> (sb_nat_j sum').[i] = if s =? i then mk_nat_jnl nid raw else (sb_nat_j sum).[i]).
  { intros i Hi; unfold sum'; cbn [sb_nat_j with_nat_j with_n_jnl]; apply aget_aset; lia. }
  assert (Hold : forall i, 0 <= i < c' -> i <> s -> i < c /\ nj_nid ((sb_nat_j sum).[i]) <> nid).
  { intros i Hi Hne; split; [lia|]; intros E; apply Hne.
    destruct (Z.eq_dec s c) as [Hsc|Hsc]; [exfalso; apply (C Hsc i); [lia|exact E]|].
    apply J3; [lia|lia|rewrite E; symmetry; apply B; lia]. }
  assert (Hwf : journal_wf top sum').
  { constructor; rewrite ?En; change NAT_JOURNAL_ENTRIES with 38.
    - lia.
    - unfold sum'; cbn [sb_nat_j with_nat_j with_n_jnl]; rewrite zlen_aset; exact J2.
    - intros i j Hi Hj'; rewrite !Eg by lia; destruct (Z.eqb_spec s i) as [<-|Hsi], (Z.eqb_spec s j) as [<-|Hsj]; cbn [nj_nid]; intros E; auto.
      + exfalso; apply (proj2 (Hold j Hj' ltac:(congruence))); symmetry; exact E.
      + exfalso; apply (proj2 (Hold i Hi ltac:(congruence))); exact E.
      + apply J3; [destruct (Hold i Hi ltac:(congruence)); lia|destruct (Hold j Hj' ltac:(congruence)); lia|exact E].
    - intros i Hi; rewrite Eg by lia; destruct (Z.eqb_spec s i) as [<-|Hsi]; [exact Hn|apply J4; destruct (Hold i Hi ltac:(congruence)); lia]. }
  split; [lia|split; [exact Hwf|split; [lia|]]].
  intros x; destruct (Z.eqb_spec x nid) as [->|Hx].
  - assert (X : nj_nid ((sb_nat_j sum').[s]) = nid) by (rewrite Eg, Z.eqb_refl by lia; reflexivity).
    rewrite <- X at 1; rewrite (jlook_at top) by (auto; lia); rewrite Eg, Z.eqb_refl by lia; reflexivity.
  - destruct (jlook sum x) as [r|] eqn:Ex.
    + unfold jlook in Ex; destruct (jslot_spec top sum x Hj) as (A' & B' & _); fold c in A', B', Ex.
      destruct (Z.ltb_spec (jslot sum x) c) as [Hlt|]; [|discriminate]; injection Ex as <-.
      specialize (B' Hlt); assert (Hne : s <> jslot sum x).
      { intros E; apply Hx; rewrite <- B', <- E; apply B; lia. }
      assert (X : nj_nid ((sb_nat_j sum').[jslot sum x]) = x) by (rewrite Eg, (proj2 (Z.eqb_neq s _) Hne) by lia; exact B').
      rewrite <- X at 1; rewrite (jlook_at top) by (auto; lia); rewrite Eg, (proj2 (Z.eqb_neq s _) Hne) by lia; reflexivity.
    + apply (jlook_none top); [exact Hwf|]; intros i Hi; rewrite En in Hi; rewrite Eg by lia.
      destruct (Z.eqb_spec s i) as [<-|Hsi]; [cbn; congruence|].
      apply (proj1 (jlook_none top sum x Hj) Ex); destruct (Hold i Hi ltac:(congruence)); fold c; lia.
Qed.

(** ** NAT blocks *)

Lemma start_nid_facts nid : 0 <= nid -> NAT_BLOCK_OFFSET (START_NID nid) = NAT_BLOCK_OFFSET nid /\ 0 <= START_NID nid <= nid /\
  nid - START_NID nid = nid mod NAT_ENTRY_PER_BLOCK.
Proof. intros Hn; unfold NAT_BLOCK_OFFSET, START_NID; change NAT_ENTRY_PER_BLOCK with 455; lia. Qed.

Definition nat_bit (n : nm_info) (blk : Z) : bool := f2fs_test_bit blk (nat_bitmap n).

Lemma page_view_eq n nid : nat_geo n -> 0 <= nid < max_nid n ->
  page_view n nid = (nat_page n (nat_addr n (NAT_BLOCK_OFFSET nid) (nat_bit n (NAT_BLOCK_OFFSET nid)))).[nid mod NAT_ENTRY_PER_BLOCK].
Proof.
  intros Hg Hn; destruct (start_nid_facts nid ltac:(lia)) as (E1 & E2 & E3).
  unfold page_view, get_current_nat_page; rewrite current_nat_addr_val, E1, E3 by (auto; lia); reflexivity.
Qed.

Lemma nat_page_ok n a : (forall a p, nat_pages n !! a = Some p -> page_ok p) -> page_ok (nat_page n a).
Proof.
  intros H; unfold nat_page; destruct (nat_pages n !! a) eqn:E; [eapply H; exact E|split; [reflexivity|]].
  apply Forall_replicate; discriminate.
Qed.

(** Changes of the disk that a dirty entry covers keep the invariant. *)
Lemma disk_write_wf n n' nid raw :
  nm_wf n -> dirty_nid n nid -> ne_block_addr raw <> NEW_ADDR ->
  nat_trees n' = nat_trees n -> max_nid n' = max_nid n -> nat_geo n' ->
  journal_wf (max_nid n) (nat_sum n') -> (forall a p, nat_pages n' !! a = Some p -> page_ok p) ->
  (forall x, 0 <= x < max_nid n -> raw_view n' x = if x =? nid then raw else raw_view n x) -> nm_wf n'.
Proof.
  intros Hw (e0 & E0 & D0) Hb Ht Hm Hg Hj Hp Hv.
  assert (Hc : forall x, __lookup_nat_cache n' x = __lookup_nat_cache n x)
    by (intros; unfold __lookup_nat_cache, tree_of, TREE_IDX, nat_tree_cnt; rewrite Ht; reflexivity).
  constructor; auto.
  - unfold nat_tree_cnt; rewrite Ht, Hm; apply (nw_tree Hw).
  - rewrite Hm; exact Hj.
  - intros x Hx; rewrite Hm in Hx; rewrite Hv by exact Hx; destruct (Z.eqb_spec x nid); [exact Hb|apply (nw_new Hw); exact Hx].
  - intros x e _; rewrite Hc; intros He Hd; destruct (cached_key None n x e Hw He) as [_ Hx].
    rewrite Hv by exact Hx; destruct (Z.eqb_spec x nid) as [->|]; [congruence|apply (nw_agree Hw x e); auto; discriminate].
Qed.

Lemma same_cache n n' x : nat_trees n' = nat_trees n -> __lookup_nat_cache n' x = __lookup_nat_cache n x.
Proof. intros Ht; unfold __lookup_nat_cache, tree_of, TREE_IDX, nat_tree_cnt; rewrite Ht; reflexivity. Qed.

(** The other copy of a block takes over. *)
Lemma nat_get_next_ok n nid :
  nm_wf n -> 0 <= nid < max_nid n ->
  let k := NAT_BLOCK_OFFSET nid in
  let '(a, n') := get_next_nat_page nid n in
  a = nat_addr n k (negb (nat_bit n k)) /\ nm_wf n' /\
  n' = with_nat_bitmap (nat_bitmap n') (with_nat_pages (<[a := nat_page n (nat_addr n k (nat_bit n k))]> (nat_pages n)) n) /\
  zlen (nat_bitmap n') = zlen (nat_bitmap n) /\
  (forall j, 0 <= j -> nat_bit n' j = if j =? k then negb (nat_bit n j) else nat_bit n j) /\
  (forall x, 0 <= x < max_nid n -> raw_view n' x = raw_view n x).
Proof.
  intros Hw Hn k; pose proof (nw_geo Hw) as Hg; destruct (nat_block_range n nid Hg Hn) as [Hb Hb2]; fold k in Hb, Hb2.
  unfold get_next_nat_page; cbv zeta; rewrite (current_nat_addr_val n nid Hg Hn); fold k; fold (nat_bit n k).
  rewrite next_nat_addr_val by (auto; lia); set (a := nat_addr n k (negb (nat_bit n k))).
  set (n' := set_to_next_nat _ _).
  assert (Hbit : forall j, 0 <= j -> nat_bit n' j = if j =? k then negb (nat_bit n j) else nat_bit n j).
  { intros j Hj; unfold nat_bit, n', set_to_next_nat; cbn [nat_bitmap with_nat_bitmap with_nat_pages]; fold k.
    rewrite f2fs_test_bit_change by lia; destruct (j =? k); [apply xorb_true_l|apply xorb_false_l]. }
  assert (Hlen : zlen (nat_bitmap n') = zlen (nat_bitmap n)) by (unfold n', set_to_next_nat; cbn; apply zlen_f2fs_change).
  assert (Hg' : nat_geo n') by (destruct Hg; constructor; auto; rewrite Hlen; auto).
  assert (Hpg : forall b, nat_page n' b = if b =? a then nat_page n (nat_addr n k (nat_bit n k)) else nat_page n b).
  { intros b; unfold nat_page, n', set_to_next_nat; cbn [nat_pages with_nat_bitmap with_nat_pages].
    destruct (Z.eqb_spec b a) as [->|]; [rewrite lookup_insert_eq; reflexivity|rewrite lookup_insert_ne by congruence; reflexivity]. }
  assert (Hpv : forall x, 0 <= x < max_nid n -> page_view n' x = page_view n x).
  { intros x Hx; destruct (nat_block_range n x Hg Hx) as [Hx2 _].
    rewrite (page_view_eq n') by auto; rewrite (page_view_eq n) by auto; rewrite Hbit by lia.
    change (nat_addr n' (NAT_BLOCK_OFFSET x)) with (nat_addr n (NAT_BLOCK_OFFSET x)); rewrite Hpg.
    destruct (Z.eqb_spec (NAT_BLOCK_OFFSET x) k) as [->|Hne]; [rewrite Z.eqb_refl; reflexivity|].
    rewrite (proj2 (Z.eqb_neq _ a)); [reflexivity|]; unfold a; intros E; apply Hne; eapply nat_addr_inj; [| |exact E]; lia. }
  assert (Hv : forall x, 0 <= x < max_nid n -> raw_view n' x = raw_view n x).
  { intros x Hx; rewrite (raw_view_eq n') by exact (nw_jnl Hw); rewrite (raw_view_eq n) by exact (nw_jnl Hw).
    change (nat_sum n') with (nat_sum n); destruct (jlook (nat_sum n) x); [reflexivity|apply Hpv; exact Hx]. }
  split; [reflexivity|split; [|split; [reflexivity|split; [exact Hlen|split; [exact Hbit|exact Hv]]]]].
  constructor; auto.
  - exact (nw_tree Hw).
  - exact (nw_jnl Hw).
  - intros b p; unfold n', set_to_next_nat; cbn [nat_pages with_nat_bitmap with_nat_pages]; destruct (Z.eq_dec b a) as [->|Hne].
    + rewrite lookup_insert_eq; intros E; injection E as <-; apply nat_page_ok; exact (nw_pages Hw).
    + rewrite lookup_insert_ne by congruence; apply (nw_pages Hw).
  - intros x Hx; change (max_nid n') with (max_nid n) in Hx; rewrite Hv by exact Hx; apply (nw_new Hw); exact Hx.
  - intros x e _ He Hd; change (__lookup_nat_cache n' x) with (__lookup_nat_cache n x) in He.
    destruct (cached_key None n x e Hw He) as [_ Hx]; rewrite Hv by exact Hx; apply (nw_agree Hw x e); auto; discriminate.
Qed.

(** ** One entry *)

Lemma lists_inv exc n L : nm_inv exc n -> nm_inv exc (with_nid_lists L n).
Proof. intros [W1 W2 W3 W4 W5 W6]; constructor; auto; destruct W1; constructor; auto. Qed.

(** Where an entry may go. *)
Definition dst_ok (n : nm_info) (dst : option Z) (nid : Z) : Prop :=
  match dst with
  | None => nats_in_cursum (nat_sum n) < NAT_JOURNAL_ENTRIES \/ jlook (nat_sum n) nid <> None
  | Some a => a = nat_addr n (NAT_BLOCK_OFFSET nid) (nat_bit n (NAT_BLOCK_OFFSET nid)) /\ jlook (nat_sum n) nid = None
  end.

(** What the flush of some entries changes. *)
Record nat_frame (n n' : nm_info) : Prop := {
  ff_log : nm_log_bps n' = nm_log_bps n;
  ff_base : nat_blkaddr n' = nat_blkaddr n;
  ff_top : max_nid n' = max_nid n;
  ff_cnt : nat_tree_cnt n' = nat_tree_cnt n;
  ff_bug : nm_bug n' = nm_bug n;
  ff_wf : nm_wf n';
  ff_info : forall x, 0 <= x < max_nid n -> nat_info n' x = nat_info n x;
  ff_lists : lists_grow n n';
}.

Lemma nat_frame_refl n : nm_wf n -> nat_frame n n.
Proof. intros Hw; constructor; auto; apply lists_same; reflexivity. Qed.

Lemma nat_frame_trans n1 n2 n3 : nat_frame n1 n2 -> nat_frame n2 n3 -> nat_frame n1 n3.
Proof.
  intros [A1 A2 A3 A4 A5 A6 A7 A8] [B1 B2 B3 B4 B5 B6 B7 B8]; constructor; try congruence; auto.
  - intros x Hx; rewrite B7 by (rewrite A3; exact Hx); apply A7; exact Hx.
  - eapply lists_grow_trans; eassumption.
Qed.

Lemma write_entry_ok n nid ne dst :
  nm_wf n -> __lookup_nat_cache n nid = Some ne -> is_dirty ne = true -> ni_blk_addr ne <> NEW_ADDR -> dst_ok n dst nid ->
  let raw := raw_nat_from_node_info ne in
  let n' := match dst with
            | None => bug_on (fst (jput nid raw (nat_sum n)) <? 0) (with_nat_sum (snd (jput nid raw (nat_sum n))) n)
            | Some a => with_nat_pages (<[a := (nat_page n a).[nid - START_NID nid <- raw]]> (nat_pages n)) n
            end in
  nm_wf n' /\ raw_view n' nid = raw /\ nat_trees n' = nat_trees n /\ nm_bug n' = nm_bug n /\ nat_bitmap n' = nat_bitmap n /\
  (exists s p, n' = with_nat_sum s (with_nat_pages p n)) /\
  (forall x, 0 <= x < max_nid n -> raw_view n' x = if x =? nid then raw else raw_view n x) /\
  (forall x, x <> nid -> jlook (nat_sum n') x = jlook (nat_sum n) x) /\
  match dst with
  | None => nat_pages n' = nat_pages n /\ nats_in_cursum (nat_sum n') <= nats_in_cursum (nat_sum n) + 1
  | Some a => nat_sum n' = nat_sum n /\ forall b, b <> a -> nat_pages n' !! b = nat_pages n !! b
  end.
Proof.
  intros Hw He Hd Hb Hdst raw; cbv zeta; destruct (cached_key None n nid ne Hw He) as [Hk Hn].
  assert (Hdn : dirty_nid n nid) by (exists ne; auto); pose proof (nw_geo Hw) as Hg.
  destruct dst as [a|].
  - destruct Hdst as [Ha Hj]; set (n' := with_nat_pages _ n).
    destruct (start_nid_facts nid ltac:(lia)) as (S1 & S2 & S3).
    assert (Hi : 0 <= nid - START_NID nid < zlen (nat_page n a)).
    { rewrite (proj1 (nat_page_ok n a (nw_pages Hw))), S3; change NAT_ENTRY_PER_BLOCK with 455; lia. }
    assert (Hpg : forall b, nat_page n' b = if b =? a then (nat_page n a).[nid - START_NID nid <- raw] else nat_page n b).
    { intros b; unfold nat_page at 1; cbn [nat_pages n' with_nat_pages]; destruct (Z.eqb_spec b a) as [->|]; [rewrite lookup_insert_eq; reflexivity|].
      rewrite lookup_insert_ne by congruence; reflexivity. }
    assert (Hg' : nat_geo n') by (destruct Hg; constructor; auto).
    assert (Hv : forall x, 0 <= x < max_nid n -> raw_view n' x = if x =? nid then raw else raw_view n x).
    { intros x Hx; rewrite (raw_view_eq n') by exact (nw_jnl Hw); rewrite (raw_view_eq n) by exact (nw_jnl Hw).
      change (nat_sum n') with (nat_sum n); destruct (nat_block_range n x Hg Hx) as [Hx2 _]; destruct (nat_block_range n nid Hg Hn) as [Hn2 _].
      assert (Ep : page_view n' x = if x =? nid then raw else page_view n x).
      { rewrite (page_view_eq n') by auto; rewrite (page_view_eq n) by auto.
        change (nat_addr n' (NAT_BLOCK_OFFSET x) (nat_bit n' (NAT_BLOCK_OFFSET x))) with (nat_addr n (NAT_BLOCK_OFFSET x) (nat_bit n (NAT_BLOCK_OFFSET x))).
        rewrite Hpg; destruct (Z.eqb_spec (nat_addr n (NAT_BLOCK_OFFSET x) (nat_bit n (NAT_BLOCK_OFFSET x))) a) as [E|E].
        - assert (Eb : NAT_BLOCK_OFFSET x = NAT_BLOCK_OFFSET nid) by (rewrite Ha in E; eapply nat_addr_inj; [| |exact E]; lia).
          rewrite aget_aset by exact Hi; rewrite S3; destruct (Z.eqb_spec x nid) as [->|Hne]; [rewrite Z.eqb_refl; reflexivity|].
          rewrite (proj2 (Z.eqb_neq _ _)), E; [reflexivity|]; intros E'; apply Hne.
          unfold NAT_BLOCK_OFFSET in Eb; change NAT_ENTRY_PER_BLOCK with 455 in *; lia.
        - destruct (Z.eqb_spec x nid) as [->|]; [exfalso; apply E; symmetry; exact Ha|reflexivity]. }
      destruct (Z.eqb_spec x nid) as [->|]; [rewrite Hj; exact Ep|rewrite Ep; reflexivity]. }
    split; [apply (disk_write_wf n n' nid raw); auto; [exact (nw_jnl Hw)|]|].
    + intros b p; cbn [nat_pages n' with_nat_pages]; destruct (Z.eq_dec b a) as [->|Hne].
      * rewrite lookup_insert_eq; intros E; injection E as <-; destruct (nat_page_ok n a (nw_pages Hw)) as [X1 X2].
        split; [rewrite zlen_aset; exact X1|apply Forall_aset; [exact X2|exact Hb]].
      * rewrite lookup_insert_ne by congruence; apply (nw_pages Hw).
    + split; [rewrite Hv, Z.eqb_refl by exact Hn; reflexivity|]; do 3 (split; [reflexivity|]).
      split; [exists (nat_sum n), (<[a := (nat_page n a).[nid - START_NID nid <- raw]]> (nat_pages n)); unfold n'; destruct n; reflexivity|].
      split; [exact Hv|split; [auto|split; [reflexivity|]]]; intros b Hb'; cbn; apply lookup_insert_ne; congruence.
  - pose proof (jput_ok (max_nid n) (nat_sum n) nid raw (nw_jnl Hw) Hn Hdst) as Hj.
    destruct (jput nid raw (nat_sum n)) as [off sum']; destruct Hj as (J1 & J2 & J3 & J4); cbn [fst snd].
    rewrite (proj2 (Z.ltb_ge off 0)) by lia; rewrite bug_off; set (n' := with_nat_sum sum' n).
    assert (Hg' : nat_geo n') by (destruct Hg; constructor; auto).
    assert (Hv : forall x, 0 <= x < max_nid n -> raw_view n' x = if x =? nid then raw else raw_view n x).
    { intros x Hx; rewrite (raw_view_eq n') by exact J2; rewrite (raw_view_eq n) by exact (nw_jnl Hw).
      change (nat_sum n') with sum'; rewrite J4; destruct (Z.eqb_spec x nid) as [->|]; [reflexivity|].
      destruct (jlook (nat_sum n) x); reflexivity. }
    split; [apply (disk_write_wf n n' nid raw); auto; exact (nw_pages Hw)|].
    split; [rewrite Hv, Z.eqb_refl by exact Hn; reflexivity|]; do 3 (split; [reflexivity|]).
    split; [exists sum', (nat_pages n); unfold n'; destruct n; reflexivity|split; [exact Hv|split; [|split; [reflexivity|cbn; lia]]]].
    intros x Hx; cbn; rewrite J4, (proj2 (Z.eqb_neq x nid) Hx); reflexivity.
Qed.

Lemma set_list_clean n nid e i k :
  nm_wf n -> dirty_nid n nid -> 0 <= i < nat_tree_cnt n ->
  set_list_of (set_tree nid (t_clean nid e (tree_of n nid)) n) i k = remove_id nid (set_list_of n i k).
Proof.
  intros Hw (e0 & E0 & D0) Hi; unfold set_list_of; rewrite set_tree_get by exact (nw_geo Hw).
  pose proof (nw_tree Hw i Hi) as Ht; destruct (Z.eqb_spec (TREE_IDX nid n) i) as [Ei|Ei].
  - unfold tree_of; rewrite Ei; set (t := (nat_trees n).[i]) in *; cbn [t_clean nat_set_root].
    assert (E0' : nat_root t !! nid = Some e0) by (unfold t; rewrite <- Ei; exact E0).
    destruct (tw_dirty _ _ _ _ Ht nid e0 E0' D0) as (s & Es & Hin).
    destruct (Z.eq_dec k (NAT_BLOCK_OFFSET nid)) as [->|Hne].
    + rewrite lookup_insert_eq, Es; unfold set_at; rewrite Es; reflexivity.
    + rewrite lookup_insert_ne by congruence; destruct (nat_set_root t !! k) as [s'|] eqn:E; [|reflexivity].
      rewrite remove_id_out; [reflexivity|]; intros H; destruct (tw_home _ _ _ _ Ht _ _ _ E H) as [X _]; congruence.
  - destruct (nat_set_root ((nat_trees n).[i]) !! k) as [s'|] eqn:E; [|reflexivity].
    rewrite remove_id_out; [reflexivity|]; intros H; destruct (tw_home _ _ _ _ Ht _ _ _ E H) as (_ & e' & X & _).
    apply Ei; destruct (tw_key _ _ _ _ Ht _ _ X) as (_ & X' & _); exact X'.
Qed.

Lemma set_list_trees n n' i k : nat_trees n' = nat_trees n -> set_list_of n' i k = set_list_of n i k.
Proof. unfold set_list_of; intros ->; reflexivity. Qed.

(** A written entry [ne] becomes clean. *)
Lemma clean_entry_ok n nid ne (n' := __clear_nat_cache_dirty nid (put_entry nid (nat_reset_flag ne) n)) :
  nm_wf n -> __lookup_nat_cache n nid = Some ne -> is_dirty ne = true -> raw_view n nid = raw_nat_from_node_info ne ->
  nm_wf n' /\ (exists T, n' = with_trees T n) /\ nat_tree_cnt n' = nat_tree_cnt n /\
  (forall x, __lookup_nat_cache n' x =
     if x =? nid then Some (set_nat_flag (nat_reset_flag ne) IS_DIRTY false) else __lookup_nat_cache n x) /\
  (forall i k, 0 <= i < nat_tree_cnt n -> set_list_of n' i k = remove_id nid (set_list_of n i k)).
Proof.
  intros W1 He Hd V1; destruct (cached_key None n nid ne W1 He) as [Hk Hn].
  destruct (put_entry_ok None None n nid W1 ltac:(auto) (nat_reset_flag ne) ne) as [W2 C2].
  { exact He. } { apply dirty_reset. } { exact Hk. } { right; intros Hcl; unfold is_dirty in *; rewrite dirty_reset in Hcl; congruence. }
  assert (Ecnt : nat_tree_cnt (put_entry nid (nat_reset_flag ne) n) = nat_tree_cnt n) by (rewrite put_entry_eq; apply set_tree_cnt).
  assert (Hsl : forall i k, set_list_of (put_entry nid (nat_reset_flag ne) n) i k = set_list_of n i k).
  { intros i k; rewrite put_entry_eq; unfold set_list_of; rewrite set_tree_get by exact (nw_geo W1).
    destruct (Z.eqb_spec (TREE_IDX nid n) i) as [Ei|]; [|reflexivity].
    cbn [t_put with_root nat_set_root]; unfold tree_of; rewrite Ei; reflexivity. }
  unfold n'; clear n'; set (n2 := put_entry nid (nat_reset_flag ne) n) in *.
  assert (Hc2 : __lookup_nat_cache n2 nid = Some (nat_reset_flag ne)) by (rewrite C2, Z.eqb_refl; reflexivity).
  assert (Hd2 : is_dirty (nat_reset_flag ne) = true) by (unfold is_dirty in *; rewrite dirty_reset; exact Hd).
  assert (Hv2 : raw_view n2 nid = raw_nat_from_node_info ne) by exact V1.
  destruct (clear_dirty_ok n2 nid (nat_reset_flag ne) W2 Hc2 Hd2 ltac:(rewrite Hv2; reflexivity)) as [W3 C3].
  pose proof (clear_dirty_eq None n2 nid W2 Hn (nat_reset_flag ne) Hc2 Hd2) as E3.
  split; [exact W3|split; [rewrite E3; eexists; reflexivity|split; [rewrite E3, set_tree_cnt; exact Ecnt|split]]].
  - intros x; rewrite C3; destruct (Z.eqb_spec x nid) as [|Hne]; [reflexivity|]; rewrite C2, (proj2 (Z.eqb_neq x nid) Hne); reflexivity.
  - intros i k Hi; rewrite E3, set_list_clean, Hsl; [reflexivity|exact W2|exists (nat_reset_flag ne); auto|rewrite Ecnt; exact Hi].
Qed.

(** The id of a freed node goes to the free lists. *)
Lemma release_nid_ok n nid a : 0 <= nid < max_nid n -> ne_block_addr (nat_info n nid) = a ->
  let n' := if a =? NULL_ADDR then snd (add_free_nid nid false n) else n in
  (exists L, n' = with_nid_lists L n) /\ lists_grow n n'.
Proof.
  intros Hn Ha; cbv zeta; destruct (Z.eqb_spec a NULL_ADDR) as [Eb|Eb]; split.
  - apply add_free_frame.
  - apply lists_grow_add; [exact Hn|congruence].
  - exists (nid_lists n); destruct n; reflexivity.
  - apply lists_same; reflexivity.
Qed.

Lemma flush_entry_ok n nid ne dst :
  nm_wf n -> __lookup_nat_cache n nid = Some ne -> is_dirty ne = true -> ni_blk_addr ne <> NEW_ADDR -> dst_ok n dst nid ->
  let n' := flush_nat_entry dst (START_NID nid) nid n in
  nat_frame n n' /\ nat_bitmap n' = nat_bitmap n /\
  raw_view n' nid = nat_info n nid /\
  (forall x, 0 <= x < max_nid n -> x <> nid -> raw_view n' x = raw_view n x) /\
  (forall x, dirty_nid n' x <-> dirty_nid n x /\ x <> nid) /\
  (forall x, x <> nid -> jlook (nat_sum n') x = jlook (nat_sum n) x) /\
  (forall i k, 0 <= i < nat_tree_cnt n -> set_list_of n' i k = remove_id nid (set_list_of n i k)) /\
  match dst with
  | None => nat_pages n' = nat_pages n /\ nats_in_cursum (nat_sum n') <= nats_in_cursum (nat_sum n) + 1
  | Some a => nat_sum n' = nat_sum n /\ forall b, b <> a -> nat_pages n' !! b = nat_pages n !! b
  end.
Proof.
  intros Hw He Hd Hb Hdst; cbv zeta; destruct (cached_key None n nid ne Hw He) as [Hk Hn].
  pose proof (write_entry_ok n nid ne dst Hw He Hd Hb Hdst) as H1; cbv zeta in H1.
  unfold flush_nat_entry; rewrite He, (proj2 (Z.eqb_neq _ _) Hb).
  set (n1 := match dst with None => _ | Some a => _ end) in H1.
  match goal with |- context [put_entry nid (nat_reset_flag ne) ?m] => assert (Em : m = n1) end.
  { unfold n1; destruct dst; [reflexivity|]; unfold jput; destruct (lookup_journal_in_cursum _ _ _ _); reflexivity. }
  rewrite Em; clear Em; clearbody n1; destruct H1 as (W1 & V1 & T1 & B1 & M1 & (s1 & p1 & E1) & V2 & J1 & D1).
  assert (Hc1 : forall x, __lookup_nat_cache n1 x = __lookup_nat_cache n x) by (intros; apply same_cache; exact T1).
  destruct (clean_entry_ok n1 nid ne W1 ltac:(rewrite Hc1; exact He) Hd V1) as (W3 & [T3 E3] & N3 & C3 & S3).
  set (n3 := __clear_nat_cache_dirty _ _) in *.
  assert (Hcnt : nat_tree_cnt n1 = nat_tree_cnt n) by (unfold nat_tree_cnt; rewrite T1; reflexivity).
  assert (M3 : max_nid n3 = max_nid n) by (rewrite E3; change (max_nid n1 = max_nid n); rewrite E1; reflexivity).
  destruct (release_nid_ok n3 nid (ni_blk_addr ne)) as [[L E4] G4];
    [rewrite M3; exact Hn|unfold nat_info; rewrite C3, Z.eqb_refl; reflexivity|].
  set (n4 := if ni_blk_addr ne =? NULL_ADDR then _ else n3) in *; clearbody n4; subst n4.
  assert (Hraw : forall x, raw_view (with_nid_lists L n3) x = raw_view n1 x) by (intros; rewrite E3; reflexivity).
  assert (Hinfo : forall x, 0 <= x < max_nid n -> nat_info n3 x = nat_info n x).
  { intros x Hx; unfold nat_info; rewrite C3; change (raw_view n3 x) with (raw_view (with_nid_lists L n3) x); rewrite Hraw.
    destruct (Z.eqb_spec x nid) as [->|Hne]; [rewrite He; reflexivity|].
    rewrite Hc1, V2 by exact Hx; rewrite (proj2 (Z.eqb_neq x nid) Hne); reflexivity. }
  assert (Hsum : nat_sum (with_nid_lists L n3) = nat_sum n1 /\ nat_pages (with_nid_lists L n3) = nat_pages n1) by (rewrite E3; auto).
  destruct Hsum as [Es Ep]; rewrite Es, Ep.
  split; [|split; [rewrite E3; exact M1|split; [|split; [|split; [|split; [exact J1|split; [|exact D1]]]]]]].
  - constructor; try exact M3; try exact Hinfo.
    + rewrite E3; change (nm_log_bps n1 = nm_log_bps n); rewrite E1; reflexivity.
    + rewrite E3; change (nat_blkaddr n1 = nat_blkaddr n); rewrite E1; reflexivity.
    + change (nat_tree_cnt n3 = nat_tree_cnt n); congruence.
    + rewrite E3; exact B1.
    + apply lists_inv; exact W3.
    + apply (lists_grow_trans n n3); [exact M3|exact Hinfo| |exact G4].
      apply lists_same; [| |exact M3]; rewrite E3; change (nid_lists n1 = nid_lists n) || change (nid_chunk n1 = nid_chunk n); rewrite E1; reflexivity.
  - rewrite Hraw, V1; unfold nat_info; rewrite He; reflexivity.
  - intros x Hx Hne; rewrite Hraw, V2 by exact Hx; rewrite (proj2 (Z.eqb_neq x nid) Hne); reflexivity.
  - intros x; unfold dirty_nid; change (__lookup_nat_cache (with_nid_lists L n3) x) with (__lookup_nat_cache n3 x); rewrite C3.
    destruct (Z.eqb_spec x nid) as [->|Hne]; [|rewrite Hc1; tauto].
    split; [|tauto]; intros (e' & H & H'); injection H as <-; unfold is_dirty in H'; rewrite dirty_unset in H'; discriminate.
  - intros i k Hi; change (set_list_of (with_nid_lists L n3) i k) with (set_list_of n3 i k).
    rewrite S3 by (rewrite Hcnt; exact Hi); f_equal; apply set_list_trees; exact T1.
Qed.

(** ** The sets of a tree, in order *)

Definition set_keys (n : nm_info) (i : Z) : list Z := sorted_keys (nat_set_root ((nat_trees n).[i])).

Lemma set_keys_elem n i k : k ∈ set_keys n i <-> is_Some (nat_set_root ((nat_trees n).[i]) !! k).
Proof. apply sorted_keys_elem. Qed.

Lemma set_keys_nodup n i : NoDup (set_keys n i).
Proof. apply sorted_keys_nodup. Qed.

Lemma set_keys_size n i : length (set_keys n i) = size (nat_set_root ((nat_trees n).[i])).
Proof. apply sorted_keys_size. Qed.

(** The lookups of 32 sets at a time meet every set once, in order. *)
Lemma collect_sets_eq fuel n i max s head :
  Nat.lt (length (filter (fun k => s <= k) (set_keys n i))) fuel ->
  collect_sets fuel n i max s head =
  foldl (fun head k => __adjust_nat_entry_set_per_core i k (set_cnt n i k) max head) head (filter (fun k => s <= k) (set_keys n i)).
Proof.
  revert s head; induction fuel as [|fuel IH]; intros s head Hf; [lia|]; cbn [collect_sets]; unfold set_keys, __gang_lookup_nat_set in *.
  destruct (last (gang_lookup _ s _)) as [l|] eqn:El; [|rewrite (gang_none _ _ (Z.to_nat SETVEC_SIZE) ltac:(apply Nat.lt_0_succ) El); reflexivity].
  destruct (gang_rest _ _ _ _ El) as [E Hlt]; rewrite IH by lia; rewrite E, foldl_app; reflexivity.
Qed.

(** ** The packs *)

Definition zsum (l : list Z) : Z := foldr Z.add 0 l.

Lemma zsum_app l1 l2 : zsum (l1 ++ l2) = zsum l1 + zsum l2.
Proof. unfold zsum; induction l1 as [|x l IH]; cbn; lia. Qed.

Lemma zsum_perm l1 l2 : l1 ≡ₚ l2 -> zsum l1 = zsum l2.
Proof. intros H; unfold zsum; induction H; cbn; lia. Qed.

Lemma zsum_nonneg l : (forall x, x ∈ l -> 0 <= x) -> 0 <= zsum l.
Proof. unfold zsum; induction l as [|x l IH]; intros H; cbn; [lia|]; pose proof (H x ltac:(left)); assert (0 <= foldr Z.add 0 l) by (apply IH; intros y Hy; apply H; right; exact Hy); lia. Qed.

Lemma find_pack_spec k head :
  match find_pack k head with
  | Some (a, p, b) => head = a ++ p :: b /\ pk_set_id p = k
  | None => k ∉ (pk_set_id <$> head)
  end.
Proof.
  induction head as [|c head IH]; cbn [find_pack]; [intros H; inversion H|].
  destruct (Z.eqb_spec (pk_set_id c) k) as [E|E]; [auto|].
  destruct (find_pack k head) as [[[a p] b]|]; [destruct IH as [-> IH]; auto|].
  rewrite fmap_cons; intros H; apply elem_of_cons in H; destruct H as [H|H]; [congruence|contradiction].
Qed.

Lemma insert_pack_perm p head : insert_pack p head ≡ₚ p :: head.
Proof.
  induction head as [|c head IH]; cbn; [reflexivity|]; destruct (_ <=? _); [reflexivity|].
  rewrite IH; apply perm_swap.
Qed.

Lemma nat_adjust_perm i k cnt max head :
  (exists a p b, head = a ++ p :: b /\ pk_set_id p = k /\
     __adjust_nat_entry_set_per_core i k cnt max head ≡ₚ (mk_pack (pk_trees p ++ [i]) k (u32 (pk_cnt p + cnt)) :: a ++ b)) \/
  ((k ∉ (pk_set_id <$> head)) /\ __adjust_nat_entry_set_per_core i k cnt max head ≡ₚ (mk_pack [i] k cnt :: head)).
Proof.
  unfold __adjust_nat_entry_set_per_core; pose proof (find_pack_spec k head) as H; destruct (find_pack k head) as [[[a p] b]|].
  - left; exists a, p, b; destruct H as [H1 H2]; split; [exact H1|split; [exact H2|]].
    cbn [pk_cnt]; destruct (_ <=? _).
    + rewrite app_assoc; rewrite Permutation_app_comm; reflexivity.
    + symmetry; apply Permutation_middle.
  - right; split; [exact H|]; destruct (_ || _); [rewrite Permutation_app_comm; reflexivity|apply insert_pack_perm].
Qed.

Section Packs.
Variables (n : nm_info).

Definition pair_cnt (p : Z * Z) : Z := set_cnt n p.1 p.2.
Definition pack_sum (q : per_core_sets_pack) : Z := zsum ((fun i => set_cnt n i (pk_set_id q)) <$> pk_trees q).

Record packs_inv (P : list (Z * Z)) (head : list per_core_sets_pack) : Prop := {
  pi_ids : NoDup (pk_set_id <$> head);
  pi_some : forall q, q ∈ head -> pk_trees q <> [];
  pi_trees : forall q, q ∈ head -> NoDup (pk_trees q) /\ (forall i, i ∈ pk_trees q <-> (i, pk_set_id q) ∈ P);
  pi_cnt : forall q, q ∈ head -> pk_cnt q = pack_sum q;
  pi_all : forall i k, (i, k) ∈ P -> k ∈ (pk_set_id <$> head);
  pi_sum : zsum (pk_cnt <$> head) = zsum (pair_cnt <$> P);
}.

Lemma packs_perm P h1 h2 : h1 ≡ₚ h2 -> packs_inv P h1 -> packs_inv P h2.
Proof.
  intros Hp [I1 I0 I2 I3 I4 I5]; constructor.
  - rewrite <- Hp; exact I1.
  - intros q Hq; apply I0; rewrite Hp; exact Hq.
  - intros q Hq; apply I2; rewrite Hp; exact Hq.
  - intros q Hq; apply I3; rewrite Hp; exact Hq.
  - intros i k H; rewrite <- Hp; eapply I4; exact H.
  - rewrite <- I5; apply zsum_perm; rewrite Hp; reflexivity.
Qed.

Lemma pairs_snoc (P : list (Z * Z)) (i k j l : Z) : (j, l) ∈ P ++ [(i, k)] <-> (j, l) ∈ P \/ (j = i /\ l = k).
Proof.
  rewrite elem_of_app, list_elem_of_singleton; split; (intros [H|H]; [auto|right]); [injection H; auto|destruct H; subst; reflexivity].
Qed.

Lemma pair_cnt_snoc P i k : zsum (pair_cnt <$> P ++ [(i, k)]) = zsum (pair_cnt <$> P) + set_cnt n i k.
Proof. rewrite fmap_app, zsum_app; unfold zsum at 2; cbn; unfold pair_cnt; cbn; lia. Qed.

(** The block has a pack already, which the set joins. *)
Lemma pack_join_ok P head i k a p b :
  packs_inv P head -> (i, k) ∉ P -> (forall p, p ∈ P -> 0 <= pair_cnt p) -> 0 <= set_cnt n i k ->
  zsum (pair_cnt <$> P) + set_cnt n i k < 2 ^ 32 -> head = a ++ p :: b -> pk_set_id p = k ->
  packs_inv (P ++ [(i, k)]) (mk_pack (pk_trees p ++ [i]) k (u32 (pk_cnt p + set_cnt n i k)) :: a ++ b).
Proof.
  intros [I1 I0 I2 I3 I4 I5] Hn Hpos Hc Hs Eh Ep; pose proof (pairs_snoc P i k) as HP; pose proof (pair_cnt_snoc P i k) as Esum.
  set (p' := mk_pack (pk_trees p ++ [i]) k (u32 (pk_cnt p + set_cnt n i k))).
  assert (Hp : p ∈ head) by (rewrite Eh; apply elem_of_app; right; left).
  assert (Hids : pk_set_id <$> head ≡ₚ pk_set_id <$> p' :: a ++ b).
  { rewrite Eh, fmap_app; cbn [fmap list_fmap]; rewrite fmap_app, <- Permutation_middle, Ep; reflexivity. }
  assert (Hab : forall q, q ∈ a ++ b -> q ∈ head /\ pk_set_id q <> k).
  { intros q Hq; split; [rewrite Eh; apply elem_of_app in Hq; apply elem_of_app; destruct Hq; [auto|right; right; assumption]|].
    intros E; rewrite Hids in I1; cbn [fmap list_fmap] in I1; apply NoDup_cons in I1; apply (proj1 I1).
    apply list_elem_of_fmap; exists q; split; [symmetry; exact E|exact Hq]. }
  assert (Hcp : 0 <= pk_cnt p /\ pk_cnt p + zsum (pk_cnt <$> a ++ b) = zsum (pair_cnt <$> P) /\ 0 <= zsum (pk_cnt <$> a ++ b)).
  { assert (Hq0 : forall q, q ∈ head -> 0 <= pk_cnt q).
    { intros q Hq; rewrite (I3 q Hq); apply zsum_nonneg; intros y Hy; apply list_elem_of_fmap in Hy; destruct Hy as (j & -> & Hj).
      apply (Hpos (j, pk_set_id q)); apply (I2 q Hq); exact Hj. }
    split; [apply Hq0; exact Hp|split].
    - rewrite <- I5, Eh, !fmap_app; cbn [fmap list_fmap]; rewrite !zsum_app; unfold zsum; cbn; lia.
    - apply zsum_nonneg; intros y Hy; apply list_elem_of_fmap in Hy; destruct Hy as (q & -> & Hq); apply Hq0; apply Hab; exact Hq. }
  destruct Hcp as (C1 & C2 & C3); assert (Hu : u32 (pk_cnt p + set_cnt n i k) = pk_cnt p + set_cnt n i k) by (apply u32_small; lia).
  destruct (I2 p Hp) as [T1 T2]; rewrite Ep in T2.
  constructor.
  + rewrite <- Hids; exact I1.
  + intros q Hq; apply elem_of_cons in Hq; destruct Hq as [->|Hq]; [|apply I0; apply Hab; exact Hq].
    cbn [p' pk_trees]; destruct (pk_trees p); discriminate.
  + intros q Hq; apply elem_of_cons in Hq; destruct Hq as [->|Hq].
    * cbn [p' pk_trees pk_set_id]; split.
      { apply NoDup_app; split; [exact T1|split; [|apply NoDup_singleton]]; intros j Hj Hj'; apply list_elem_of_singleton in Hj'; subst j.
        apply Hn; apply T2; exact Hj. }
      intros j; rewrite elem_of_app, list_elem_of_singleton, HP, T2; tauto.
    * destruct (Hab q Hq) as [Hqh Hqk]; destruct (I2 q Hqh) as [U1 U2]; split; [exact U1|].
      intros j; rewrite U2, HP; split; [auto|intros [H|[_ H]]; [exact H|contradiction]].
  + intros q Hq; apply elem_of_cons in Hq; destruct Hq as [->|Hq]; [|apply I3; apply Hab; exact Hq].
    unfold pack_sum; cbn [p' pk_cnt pk_trees pk_set_id]; rewrite Hu, fmap_app, zsum_app, (I3 p Hp); unfold pack_sum; rewrite Ep.
    unfold zsum at 3; cbn; lia.
  + intros j l H; rewrite <- Hids; apply HP in H; destruct H as [H|[-> ->]]; [eapply I4; exact H|].
    apply list_elem_of_fmap; exists p; auto.
  + rewrite Esum, <- C2; cbn [fmap list_fmap]; unfold zsum at 1; cbn [foldr]; fold (zsum (pk_cnt <$> a ++ b)); cbn [p' pk_cnt]; rewrite Hu; lia.
Qed.

(** The set is the first of its block. *)
Lemma pack_new_ok P head i k :
  packs_inv P head -> (k ∉ (pk_set_id <$> head)) ->
  packs_inv (P ++ [(i, k)]) (mk_pack [i] k (set_cnt n i k) :: head).
Proof.
  intros [I1 I0 I2 I3 I4 I5] Hk; pose proof (pairs_snoc P i k) as HP; pose proof (pair_cnt_snoc P i k) as Esum.
  constructor.
  + cbn; constructor; assumption.
  + intros q Hq; apply elem_of_cons in Hq; destruct Hq as [->|Hq]; [discriminate|apply I0; exact Hq].
  + intros q Hq; apply elem_of_cons in Hq; destruct Hq as [->|Hq].
    * cbn [pk_trees pk_set_id]; split; [apply NoDup_singleton|]; intros j; rewrite list_elem_of_singleton, HP.
      split; [intros ->; auto|intros [H|[H _]]; [|exact H]]; exfalso; apply Hk; eapply I4; exact H.
    * destruct (I2 q Hq) as [U1 U2]; split; [exact U1|]; intros j; rewrite U2, HP.
      split; [auto|intros [H|[_ H]]; [exact H|]]; exfalso; apply Hk; apply list_elem_of_fmap; exists q; auto.
  + intros q Hq; apply elem_of_cons in Hq; destruct Hq as [->|Hq]; [|apply I3; exact Hq].
    unfold pack_sum, zsum; cbn; lia.
  + intros j l H; cbn; apply HP in H; destruct H as [H|[-> ->]]; [right; eapply I4; exact H|left].
  + rewrite Esum, <- I5; cbn; unfold zsum; cbn; lia.
Qed.

Lemma adjust_ok P head i k max :
  packs_inv P head -> (i, k) ∉ P -> (forall p, p ∈ P -> 0 <= pair_cnt p) -> 0 <= set_cnt n i k ->
  zsum (pair_cnt <$> P) + set_cnt n i k < 2 ^ 32 ->
  packs_inv (P ++ [(i, k)]) (__adjust_nat_entry_set_per_core i k (set_cnt n i k) max head).
Proof.
  intros HI Hn Hpos Hc Hs.
  destruct (nat_adjust_perm i k (set_cnt n i k) max head) as [(a & p & b & Eh & Ep & Hperm)|[Hk Hperm]]; eapply packs_perm; try (symmetry; exact Hperm).
  - eapply pack_join_ok; eassumption.
  - apply pack_new_ok; assumption.
Qed.
End Packs.
