(* ===== verification/NatSync.v ===== *)
(** The flush of the dirty node addresses as a whole: it loses no address, leaves the
    copies of the NAT blocks that the last checkpoint uses alone, and clears every
    dirty mark (src/Max/node.c: flush_nat_entries_per_core). *)

From Stdlib Require Import ZArith Lia Bool.
From stdpp Require Import base numbers list gmap sorting.
From S2P Require Import Prelude Keys Layout Bitops SmState SitFlush Nat FreeNid NidLists NatFlush.

#[local] Open Scope Z_scope.
#[local] Ltac Zify.zify_post_hook ::= Z.to_euclidean_division_equations.

(** ** The entries of one block *)

(** Where the entries [l] of block [k] may go. *)
Definition dst_room (n : nm_info) (dst : option Z) (k : Z) (l : list Z) : Prop :=
  match dst with
  | None => nats_in_cursum (nat_sum n) + zlen l <= NAT_JOURNAL_ENTRIES
  | Some a => a = nat_addr n k (nat_bit n k) /\ forall x, x ∈ l -> jlook (nat_sum n) x = None
  end.

(** Dirty entries of block [k] with an address that can be written. *)
Definition flushable (n : nm_info) (k : Z) (l : list Z) : Prop :=
  NoDup l /\ forall x, x ∈ l -> dirty_nid n x /\ NAT_BLOCK_OFFSET x = k /\ ne_block_addr (nat_info n x) <> NEW_ADDR.

(** What the flush of the entries [l] to [dst] does. *)
Record flushed (n n' : nm_info) (dst : option Z) (l : list Z) : Prop := {
  fl_frame : nat_frame n n';
  fl_bits : nat_bitmap n' = nat_bitmap n;
  fl_view : forall x, 0 <= x < max_nid n -> raw_view n' x = if decide (x ∈ l) then nat_info n x else raw_view n x;
  fl_dirty : forall x, dirty_nid n' x <-> dirty_nid n x /\ x ∉ l;
  fl_jnl : forall x, x ∉ l -> jlook (nat_sum n') x = jlook (nat_sum n) x;
  fl_sets : forall i k, 0 <= i < nat_tree_cnt n -> set_list_of n' i k = filter (fun x => x ∉ l) (set_list_of n i k);
  fl_disk : match dst with
            | None => nat_pages n' = nat_pages n /\ nats_in_cursum (nat_sum n') <= nats_in_cursum (nat_sum n) + zlen l
            | Some a => nat_sum n' = nat_sum n /\ forall b, b <> a -> nat_pages n' !! b = nat_pages n !! b
            end;
}.

Lemma filter_all (P : Z -> Prop) `{!forall x, Decision (P x)} (l : list Z) : (forall x, x ∈ l -> P x) -> filter P l = l.
Proof. intros Hl; apply (filter_sorted_split P [] l); [intros x Hx; inversion Hx|exact Hl]. Qed.

Lemma flushed_nil n dst : nm_wf n -> flushed n n dst [].
Proof.
  intros Hw; constructor; auto using nat_frame_refl.
  - intros x; split; [intros H; split; [exact H|apply not_elem_of_nil]|tauto].
  - intros i k _; symmetry; apply filter_all; intros x _; apply not_elem_of_nil.
  - destruct dst; [auto|]; unfold zlen; cbn; split; [reflexivity|lia].
Qed.

Lemma flushed_app n1 n2 n3 dst l1 l2 : flushed n1 n2 dst l1 -> flushed n2 n3 dst l2 -> flushed n1 n3 dst (l1 ++ l2).
Proof.
  intros [A1 A2 A3 A4 A5 A6 A7] [B1 B2 B3 B4 B5 B6 B7]; constructor.
  - eapply nat_frame_trans; eassumption.
  - congruence.
  - intros x Hx; rewrite B3 by (rewrite (ff_top _ _ A1); exact Hx); rewrite A3, (ff_info _ _ A1) by exact Hx.
    destruct (decide (x ∈ l2)) as [H2|H2], (decide (x ∈ l1)) as [H1|H1], (decide (x ∈ l1 ++ l2)) as [H|H];
      rewrite ?elem_of_app in H; try reflexivity; tauto.
  - intros x; rewrite B4, A4, elem_of_app; tauto.
  - intros x; rewrite elem_of_app; intros H; rewrite B5, A5 by tauto; reflexivity.
  - intros i k Hi; rewrite B6 by (rewrite (ff_cnt _ _ A1); exact Hi); rewrite A6 by exact Hi.
    rewrite list_filter_filter; apply list_filter_iff; intros x; rewrite elem_of_app; tauto.
  - destruct dst; destruct A7 as [A7 A8], B7 as [B7 B8].
    + split; [congruence|]; intros b Hb; rewrite B8, A8 by exact Hb; reflexivity.
    + split; [congruence|]; unfold zlen in *; rewrite length_app; lia.
Qed.

Lemma flush_one_ok n k nid dst :
  nm_wf n -> flushable n k [nid] -> dst_room n dst k [nid] -> flushed n (flush_nat_entry dst (k * NAT_ENTRY_PER_BLOCK) nid n) dst [nid].
Proof.
  intros Hw [_ Hf] Hr; destruct (Hf nid ltac:(left)) as ((ne & He & Hd) & Hk & Ha).
  destruct (cached_key None n nid ne Hw He) as [_ Hn].
  assert (Hdst : dst_ok n dst nid).
  { unfold dst_ok, dst_room in *; rewrite Hk; destruct dst; [destruct Hr as [Hr Hj]; split; [exact Hr|apply Hj; left]|].
    left; unfold zlen in Hr; cbn in Hr; lia. }
  unfold nat_info in Ha; rewrite He in Ha; cbn in Ha.
  pose proof (flush_entry_ok n nid ne dst Hw He Hd Ha Hdst) as H; cbv zeta in H.
  unfold START_NID in H; fold (NAT_BLOCK_OFFSET nid) in H; rewrite Hk in H.
  destruct H as (F1 & F2 & F3 & F4 & F5 & F6 & F7 & F8); constructor; auto.
  - intros x Hx; destruct (decide (x ∈ [nid])) as [H|H]; rewrite list_elem_of_singleton in H; [subst x; exact F3|apply F4; assumption].
  - intros x; rewrite F5, list_elem_of_singleton; reflexivity.
  - intros x; rewrite list_elem_of_singleton; apply F6.
  - intros i j Hi; rewrite F7 by exact Hi; apply list_filter_iff; intros x; rewrite list_elem_of_singleton; reflexivity.
Qed.

Lemma flushable_step n n' dst k l1 l2 : flushed n n' dst l1 -> nm_wf n -> flushable n k (l1 ++ l2) -> flushable n' k l2.
Proof.
  intros F Hw [Hd H]; apply NoDup_app in Hd; destruct Hd as (_ & Hd & Hd2); split; [exact Hd2|].
  intros x Hx; destruct (H x ltac:(apply elem_of_app; auto)) as (X1 & X2 & X3).
  split; [apply (fl_dirty _ _ _ _ F); split; [exact X1|]; intros H1; exact (Hd x H1 Hx)|split; [exact X2|]].
  destruct X1 as (e & He & _); rewrite (ff_info _ _ (fl_frame _ _ _ _ F)); [exact X3|apply (cached_key None n x e Hw He)].
Qed.

Lemma dst_room_step n n' dst k l1 l2 : flushed n n' dst l1 -> NoDup (l1 ++ l2) -> dst_room n dst k (l1 ++ l2) -> dst_room n' dst k l2.
Proof.
  intros F Hd H; apply NoDup_app in Hd; destruct Hd as (_ & Hd & _); unfold dst_room in *; pose proof (fl_disk _ _ _ _ F) as D; destruct dst as [a|].
  - destruct H as [-> H]; split.
    + unfold nat_addr, nat_bit; rewrite (ff_base _ _ (fl_frame _ _ _ _ F)), (fl_bits _ _ _ _ F); reflexivity.
    + intros x Hx; rewrite (fl_jnl _ _ _ _ F) by (intros H1; exact (Hd x H1 Hx)); apply H, elem_of_app; auto.
  - unfold zlen in *; rewrite length_app in H; lia.
Qed.

Lemma flush_list_ok l n k dst :
  nm_wf n -> flushable n k l -> dst_room n dst k l ->
  flushed n (foldl (fun n nid => flush_nat_entry dst (k * NAT_ENTRY_PER_BLOCK) nid n) n l) dst l.
Proof.
  revert n; induction l as [|x l IH]; intros n Hw Hf Hr; [apply flushed_nil; exact Hw|]; cbn [foldl].
  change (x :: l) with ([x] ++ l) in *; set (n' := flush_nat_entry dst _ x n).
  assert (F : flushed n n' dst [x]).
  { apply flush_one_ok; [exact Hw| |].
    - destruct Hf as [Hd Hf]; split; [apply NoDup_singleton|]; intros y Hy; apply Hf, elem_of_app; auto.
    - unfold dst_room in *; destruct dst; [destruct Hr as [Hr Hj]; split; [exact Hr|intros y Hy; apply Hj, elem_of_app; auto]|].
      unfold zlen in *; rewrite length_app in Hr; cbn [length] in *; lia. }
  eapply flushed_app; [exact F|apply IH].
  - exact (ff_wf _ _ (fl_frame _ _ _ _ F)).
  - eapply flushable_step; eassumption.
  - eapply dst_room_step; [exact F|apply Hf|exact Hr].
Qed.

(** ** The entries of a pack *)

Definition pack_list (n : nm_info) (k : Z) (trees : list Z) : list Z := concat ((fun i => set_list_of n i k) <$> trees).

Lemma set_list_elem n i k x : nm_wf n -> 0 <= i < nat_tree_cnt n ->
  x ∈ set_list_of n i k <-> dirty_nid n x /\ TREE_IDX x n = i /\ NAT_BLOCK_OFFSET x = k.
Proof.
  intros Hw Hi; pose proof (nw_tree Hw i Hi) as Ht; unfold set_list_of; split.
  - destruct (nat_set_root _ !! k) as [s|] eqn:E; [|intros H; inversion H]; intros H.
    destruct (tw_home _ _ _ _ Ht _ _ _ E H) as (Hb & e & He & Hd); destruct (tw_key _ _ _ _ Ht _ _ He) as (_ & Hm & _).
    split; [|auto]; exists e; split; [|exact Hd]; unfold __lookup_nat_cache, tree_of, TREE_IDX; rewrite Hm; exact He.
  - intros ((e & He & Hd) & Hm & Hb); unfold __lookup_nat_cache, tree_of in He; rewrite Hm in He.
    destruct (tw_dirty _ _ _ _ Ht _ _ He Hd) as (s & Es & Hin); rewrite Hb in Es; rewrite Es; exact Hin.
Qed.

Lemma set_list_ok n i k : nm_wf n -> 0 <= i < nat_tree_cnt n -> NoDup (set_list_of n i k) /\ set_cnt n i k = zlen (set_list_of n i k).
Proof.
  intros Hw Hi; pose proof (nw_tree Hw i Hi) as Ht; unfold set_list_of, set_cnt.
  destruct (nat_set_root _ !! k) as [s|] eqn:E; cbn [default]; [apply (tw_set _ _ _ _ Ht _ _ E)|split; [constructor|reflexivity]].
Qed.

Lemma pack_list_elem n k trees x : x ∈ pack_list n k trees <-> exists i, i ∈ trees /\ x ∈ set_list_of n i k.
Proof.
  unfold pack_list; rewrite list_elem_of_In, in_concat; split.
  - intros (l & H1 & H2); apply list_elem_of_In, list_elem_of_fmap in H1; destruct H1 as (i & -> & Hi).
    exists i; split; [exact Hi|apply list_elem_of_In; exact H2].
  - intros (i & H1 & H2); exists (set_list_of n i k); rewrite <- !list_elem_of_In; split; [|exact H2].
    apply list_elem_of_fmap; exists i; auto.
Qed.

Lemma pack_flushable n k trees :
  nm_wf n -> NoDup trees -> (forall i, i ∈ trees -> 0 <= i < nat_tree_cnt n) ->
  (forall x, dirty_nid n x -> ne_block_addr (nat_info n x) <> NEW_ADDR) ->
  flushable n k (pack_list n k trees).
Proof.
  intros Hw Hd Hr Hn; split.
  - induction trees as [|i r IH]; [constructor|]; apply NoDup_cons in Hd; destruct Hd as [Hi Hd].
    change (NoDup (set_list_of n i k ++ pack_list n k r)); apply NoDup_app; split; [apply set_list_ok; [exact Hw|apply Hr; left]|split].
    + intros x Hx Hx'; apply pack_list_elem in Hx'; destruct Hx' as (j & Hj & Hx').
      apply set_list_elem in Hx; [|exact Hw|apply Hr; left]; apply set_list_elem in Hx'; [|exact Hw|apply Hr; right; exact Hj].
      destruct Hx as (_ & E1 & _), Hx' as (_ & E2 & _); apply Hi; congruence.
    + apply IH; [exact Hd|]; intros j Hj; apply Hr; right; exact Hj.
  - intros x Hx; apply pack_list_elem in Hx; destruct Hx as (i & Hi & Hx); apply set_list_elem in Hx; [|exact Hw|apply Hr; exact Hi].
    destruct Hx as (X1 & _ & X2); auto.
Qed.

Lemma pack_list_len n k trees : nm_wf n -> (forall i, i ∈ trees -> 0 <= i < nat_tree_cnt n) ->
  zlen (pack_list n k trees) = zsum ((fun i => set_cnt n i k) <$> trees).
Proof.
  intros Hw; induction trees as [|i r IH]; intros Hr; [reflexivity|].
  change (pack_list n k (i :: r)) with (set_list_of n i k ++ pack_list n k r); rewrite fmap_cons; unfold zsum; cbn [foldr]; fold (zsum ((fun i => set_cnt n i k) <$> r)).
  rewrite <- IH by (intros j Hj; apply Hr; right; exact Hj); rewrite (proj2 (set_list_ok n i k Hw (Hr i ltac:(left)))).
  unfold zlen; rewrite length_app; lia.
Qed.

Lemma flush_trees_ok trees n k dst :
  nm_wf n -> (forall i, i ∈ trees -> 0 <= i < nat_tree_cnt n) -> flushable n k (pack_list n k trees) -> dst_room n dst k (pack_list n k trees) ->
  flushed n (foldl (fun n i => foldl (fun n nid => flush_nat_entry dst (k * NAT_ENTRY_PER_BLOCK) nid n) n (set_list_of n i k)) n trees)
    dst (pack_list n k trees).
Proof.
  revert n; induction trees as [|i r IH]; intros n Hw Hi Hf Hr; [apply flushed_nil; exact Hw|]; cbn [foldl].
  change (pack_list n k (i :: r)) with (set_list_of n i k ++ pack_list n k r) in *; set (l1 := set_list_of n i k) in *.
  set (n' := foldl _ n l1).
  assert (F : flushed n n' dst l1).
  { apply flush_list_ok; [exact Hw| |].
    - destruct Hf as [Hd Hf]; apply NoDup_app in Hd; split; [tauto|]; intros y Hy; apply Hf, elem_of_app; auto.
    - unfold dst_room in *; destruct dst; [destruct Hr as [Hr Hj]; split; [exact Hr|intros y Hy; apply Hj, elem_of_app; auto]|].
      unfold zlen in *; rewrite length_app in Hr; lia. }
  assert (El : pack_list n k r = pack_list n' k r).
  { unfold pack_list; f_equal; apply list_fmap_ext; intros _ j Hj%list_elem_of_lookup_2.
    rewrite (fl_sets _ _ _ _ F) by (apply Hi; right; exact Hj); symmetry; apply filter_all; intros x Hx Hx1.
    destruct Hf as [Hd _]; apply NoDup_app in Hd; apply (proj1 (proj2 Hd) x Hx1), pack_list_elem; exists j; auto. }
  eapply flushed_app; [exact F|]; rewrite El; apply IH.
  - exact (ff_wf _ _ (fl_frame _ _ _ _ F)).
  - intros j Hj; rewrite (ff_cnt _ _ (fl_frame _ _ _ _ F)); apply Hi; right; exact Hj.
  - rewrite <- El; eapply flushable_step; eassumption.
  - rewrite <- El; eapply dst_room_step; [exact F|apply Hf|exact Hr].
Qed.

(** Deleting the empty sets of a block. *)
Lemma drop_sets_ok n k :
  nm_wf n -> (forall i, 0 <= i < nat_tree_cnt n -> set_list_of n i k = []) ->
  let n' := for_range 0 (nat_tree_cnt n) (drop_set k) n in
  (exists T, n' = with_trees T n) /\ nat_frame n n' /\
  (forall x, __lookup_nat_cache n' x = __lookup_nat_cache n x) /\
  (forall i, 0 <= i < nat_tree_cnt n -> nat_set_root ((nat_trees n').[i]) = delete k (nat_set_root ((nat_trees n).[i]))).
Proof.
  intros Hw He; cbv zeta; pose proof (ng_cnt _ (nw_geo Hw)) as Hc.
  set (I := fun j m => exists T, m = with_trees T n /\ zlen T = nat_tree_cnt n /\
    forall i, 0 <= i < nat_tree_cnt n -> T.[i] = if i <? j then t_drop k ((nat_trees n).[i]) else (nat_trees n).[i]).
  assert (HI : I (nat_tree_cnt n) (for_range 0 (nat_tree_cnt n) (drop_set k) n)).
  { apply for_range_ind; [lia| |].
    - exists (nat_trees n); split; [destruct n; reflexivity|split; [reflexivity|]]; intros i Hi.
      rewrite (proj2 (Z.ltb_ge i 0)) by lia; reflexivity.
    - intros j m Hj (T & -> & HT & H); exists (T.[j <- t_drop k (T.[j])]); split; [reflexivity|split; [rewrite zlen_aset; exact HT|]].
      intros i Hi; rewrite aget_aset by (rewrite HT; lia); destruct (Z.eqb_spec j i) as [<-|Hne].
      + rewrite (proj2 (Z.ltb_lt j (j + 1))), H, (proj2 (Z.ltb_ge j j)) by lia; reflexivity.
      + rewrite H by exact Hi; destruct (Z.ltb_spec i j), (Z.ltb_spec i (j + 1)); try reflexivity; lia. }
  destruct HI as (T & -> & HT & H).
  assert (H' : forall i, 0 <= i < nat_tree_cnt n -> T.[i] = t_drop k ((nat_trees n).[i]))
    by (intros i Hi; rewrite H, (proj2 (Z.ltb_lt i _)) by lia; reflexivity).
  assert (Hl : forall x, __lookup_nat_cache (with_trees T n) x = __lookup_nat_cache n x).
  { intros x; unfold __lookup_nat_cache, tree_of, TREE_IDX, nat_tree_cnt; cbn [nat_trees with_trees]; rewrite HT.
    fold (nat_tree_cnt n); fold (TREE_IDX x n); rewrite H' by (apply tree_idx_range; exact (nw_geo Hw)); reflexivity. }
  assert (Hw' : nm_wf (with_trees T n)).
  { constructor.
    - destruct (nw_geo Hw); constructor; auto; unfold nat_tree_cnt; cbn [nat_trees with_trees]; rewrite HT; assumption.
    - unfold nat_tree_cnt at 1 2; cbn [nat_trees with_trees max_nid]; rewrite HT; intros i Hi; rewrite H' by exact Hi.
      apply t_drop_wf; [apply (nw_tree Hw); exact Hi|]; specialize (He i Hi); unfold set_list_of in He; unfold set_at.
      destruct (nat_set_root _ !! k); [exact He|reflexivity].
    - exact (nw_jnl Hw).
    - exact (nw_pages Hw).
    - exact (nw_new Hw).
    - intros x e Hx; rewrite Hl; apply (nw_agree Hw x e Hx). }
  split; [exists T; reflexivity|split; [|split; [exact Hl|intros i Hi; cbn [nat_trees with_trees]; rewrite H' by exact Hi; reflexivity]]].
  constructor; auto.
  - intros x Hx; unfold nat_info; rewrite Hl; reflexivity.
  - apply lists_same; reflexivity.
Qed.

(** ** One pack *)

Record pack_ok (n : nm_info) (q : per_core_sets_pack) : Prop := {
  po_nodup : NoDup (pk_trees q);
  po_range : forall i, i ∈ pk_trees q -> 0 <= i < nat_tree_cnt n;
  po_cover : forall i, 0 <= i < nat_tree_cnt n -> i ∉ pk_trees q -> set_list_of n i (pk_set_id q) = [];
  po_block : 0 <= pk_set_id q /\ pk_set_id q * NAT_ENTRY_PER_BLOCK < max_nid n;
  po_cnt : pk_cnt q = zlen (pack_list n (pk_set_id q) (pk_trees q));
}.

(** What writing pack [q] does. *)
Record pack_done (n n' : nm_info) (q : per_core_sets_pack) : Prop := {
  pd_frame : nat_frame n n';
  pd_dirty : forall x, dirty_nid n' x <-> dirty_nid n x /\ NAT_BLOCK_OFFSET x <> pk_set_id q;
  pd_jnl : forall x, NAT_BLOCK_OFFSET x <> pk_set_id q -> jlook (nat_sum n') x = jlook (nat_sum n) x;
  pd_sets : forall i k, 0 <= i < nat_tree_cnt n -> k <> pk_set_id q -> set_list_of n' i k = set_list_of n i k;
  pd_len : zlen (nat_bitmap n') = zlen (nat_bitmap n);
  pd_bits : forall k, 0 <= k -> k <> pk_set_id q -> nat_bit n' k = nat_bit n k;
  pd_pages : forall a, a <> nat_addr n (pk_set_id q) (negb (nat_bit n (pk_set_id q))) -> nat_pages n' !! a = nat_pages n !! a;
  pd_room : nats_in_cursum (nat_sum n) + pk_cnt q <= NAT_JOURNAL_ENTRIES ->
    nats_in_cursum (nat_sum n') <= nats_in_cursum (nat_sum n) + pk_cnt q;
}.

Lemma nat_block_start k top : 0 <= k -> k * NAT_ENTRY_PER_BLOCK < top -> top < 2 ^ 32 ->
  u32 (k * NAT_ENTRY_PER_BLOCK) = k * NAT_ENTRY_PER_BLOCK /\ 0 <= k * NAT_ENTRY_PER_BLOCK /\ NAT_BLOCK_OFFSET (k * NAT_ENTRY_PER_BLOCK) = k.
Proof.
  intros H1 H2 H3; change NAT_ENTRY_PER_BLOCK with 455 in *; split; [apply u32_small; lia|split; [lia|]].
  unfold NAT_BLOCK_OFFSET; change NAT_ENTRY_PER_BLOCK with 455; lia.
Qed.

(** The state in which the entries of a pack are written, and where to. *)
Definition pack_dst (q : per_core_sets_pack) (n : nm_info) : option Z * nm_info :=
  if __has_cursum_space (nat_sum n) (pk_cnt q) NAT_JOURNAL then (None, n)
  else let '(a, n) := get_next_nat_page (u32 (pk_set_id q * NAT_ENTRY_PER_BLOCK)) n in (Some a, n).

Lemma has_nat_space sum c : __has_cursum_space sum c NAT_JOURNAL = (nats_in_cursum sum + c <=? NAT_JOURNAL_ENTRIES).
Proof.
  unfold __has_cursum_space, MAX_NAT_JENTRIES; rewrite Z.eqb_refl.
  destruct (Z.leb_spec c (NAT_JOURNAL_ENTRIES - nats_in_cursum sum)), (Z.leb_spec (nats_in_cursum sum + c) NAT_JOURNAL_ENTRIES); try reflexivity; lia.
Qed.

Lemma pack_dst_ok n q :
  nm_wf n -> pack_ok n q -> (nats_in_cursum (nat_sum n) + pk_cnt q <= NAT_JOURNAL_ENTRIES \/
    forall x, NAT_BLOCK_OFFSET x = pk_set_id q -> jlook (nat_sum n) x = None) ->
  let l := pack_list n (pk_set_id q) (pk_trees q) in
  let '(dst, n') := pack_dst q n in
  nat_frame n n' /\ nat_trees n' = nat_trees n /\ nat_sum n' = nat_sum n /\
  (forall x, x ∈ l -> NAT_BLOCK_OFFSET x = pk_set_id q) /\ dst_room n' dst (pk_set_id q) l /\
  zlen (nat_bitmap n') = zlen (nat_bitmap n) /\
  (forall k, 0 <= k -> k <> pk_set_id q -> nat_bit n' k = nat_bit n k) /\
  (forall a, a <> nat_addr n (pk_set_id q) (negb (nat_bit n (pk_set_id q))) -> nat_pages n' !! a = nat_pages n !! a) /\
  match dst with
  | None => nats_in_cursum (nat_sum n) + pk_cnt q <= NAT_JOURNAL_ENTRIES
  | Some a => a = nat_addr n (pk_set_id q) (negb (nat_bit n (pk_set_id q))) /\ NAT_JOURNAL_ENTRIES < nats_in_cursum (nat_sum n) + pk_cnt q
  end.
Proof.
  intros Hw [P1 P2 P3 [P4 P4'] P5] Hj l; unfold pack_dst; rewrite has_nat_space.
  assert (Hl : forall x, x ∈ l -> NAT_BLOCK_OFFSET x = pk_set_id q).
  { intros x Hx; apply pack_list_elem in Hx; destruct Hx as (i & Hi & Hx); apply set_list_elem in Hx; [tauto|exact Hw|apply P2; exact Hi]. }
  destruct (Z.leb_spec (nats_in_cursum (nat_sum n) + pk_cnt q) NAT_JOURNAL_ENTRIES) as [Hs|Hs].
  - split; [apply nat_frame_refl; exact Hw|]; do 2 (split; [reflexivity|]); split; [exact Hl|split; [unfold dst_room, l; lia|auto]].
  - destruct Hj as [Hj|Hj]; [lia|].
    destruct (nat_block_start (pk_set_id q) (max_nid n) P4 P4' (proj2 (ng_top _ (nw_geo Hw)))) as (E1 & E2 & E3); rewrite E1.
    pose proof (nat_get_next_ok n (pk_set_id q * NAT_ENTRY_PER_BLOCK) Hw ltac:(lia)) as H; cbv zeta in H.
    destruct (get_next_nat_page _ n) as [a n']; rewrite E3 in H; destruct H as (Ea & Hw' & En & El & Eb & Ev).
    assert (Ft : nat_frame n n').
    { constructor; try (rewrite En; reflexivity); [exact Hw'| |apply lists_same; rewrite En; reflexivity].
      intros x Hx; unfold nat_info; rewrite (same_cache n n') by (rewrite En; reflexivity); rewrite Ev by exact Hx; reflexivity. }
    split; [exact Ft|split; [rewrite En; reflexivity|split; [rewrite En; reflexivity|split; [exact Hl|split; [|split; [exact El|split; [|split]]]]]]].
    + split; [|intros x Hx; rewrite En; cbn [nat_sum with_nat_bitmap with_nat_pages]; apply Hj, Hl; exact Hx].
      rewrite Eb, Z.eqb_refl, Ea by lia; unfold nat_addr; rewrite (ff_base _ _ Ft); reflexivity.
    + intros k Hk Hne; rewrite Eb, (proj2 (Z.eqb_neq _ _) Hne) by exact Hk; reflexivity.
    + intros b Hb; rewrite En; cbn [nat_pages with_nat_bitmap with_nat_pages]; apply lookup_insert_ne; congruence.
    + auto.
Qed.

Lemma flush_pack_eq q n : 0 <= pk_set_id q -> pk_set_id q * NAT_ENTRY_PER_BLOCK < max_nid n -> max_nid n < 2 ^ 32 ->
  __flush_nat_entry_set_per_core q n =
  let '(dst, n) := pack_dst q n in
  let n := foldl (fun n i => foldl (fun n nid => flush_nat_entry dst (pk_set_id q * NAT_ENTRY_PER_BLOCK) nid n) n (set_list_of n i (pk_set_id q)))
                 n (pk_trees q) in
  for_range 0 (nat_tree_cnt n) (drop_set (pk_set_id q)) n.
Proof.
  intros H1 H2 H3; destruct (nat_block_start (pk_set_id q) (max_nid n) H1 H2 H3) as (E1 & _ & _).
  unfold __flush_nat_entry_set_per_core; cbv zeta; fold (pack_dst q n); destruct (pack_dst q n) as [dst n']; rewrite E1; reflexivity.
Qed.

Definition no_new (n : nm_info) : Prop := forall x, dirty_nid n x -> ne_block_addr (nat_info n x) <> NEW_ADDR.

Lemma dirty_range n x : nm_wf n -> dirty_nid n x -> 0 <= x < max_nid n.
Proof. intros Hw (e & He & _); apply (cached_key None n x e Hw He). Qed.

Lemma dirty_trees n n' x : nat_trees n' = nat_trees n -> dirty_nid n' x <-> dirty_nid n x.
Proof. intros H; unfold dirty_nid; rewrite (same_cache n n' x H); reflexivity. Qed.

Lemma flush_pack_ok n q :
  nm_wf n -> no_new n -> pack_ok n q -> (nats_in_cursum (nat_sum n) + pk_cnt q <= NAT_JOURNAL_ENTRIES \/
    forall x, NAT_BLOCK_OFFSET x = pk_set_id q -> jlook (nat_sum n) x = None) ->
  pack_done n (__flush_nat_entry_set_per_core q n) q.
Proof.
  intros Hw Hnn Hq Hj; destruct (Hq) as [P1 P2 P3 [P4 P4'] P5].
  pose proof (pack_dst_ok n q Hw Hq Hj) as HD; cbv zeta in HD.
  rewrite (flush_pack_eq q n P4 P4' (proj2 (ng_top _ (nw_geo Hw)))); destruct (pack_dst q n) as [dst n1].
  destruct HD as (F1 & T1 & S1 & Hl & Hr & L1 & B1 & G1 & D1); set (k := pk_set_id q) in *; set (l := pack_list n k (pk_trees q)) in *.
  assert (El : l = pack_list n1 k (pk_trees q)) by (unfold l, pack_list; f_equal; apply list_fmap_ext; intros; symmetry; apply set_list_trees; exact T1).
  assert (Hnn1 : no_new n1).
  { intros x Hx; apply (dirty_trees n n1 x T1) in Hx; rewrite (ff_info _ _ F1) by (apply dirty_range; assumption); apply Hnn; exact Hx. }
  pose proof (flush_trees_ok (pk_trees q) n1 k dst (ff_wf _ _ F1)) as F2; rewrite <- El in F2.
  cbv zeta; set (n2 := foldl _ n1 _) in *.
  assert (Hc1 : nat_tree_cnt n1 = nat_tree_cnt n) by exact (ff_cnt _ _ F1).
  assert (Hr1 : forall i, i ∈ pk_trees q -> 0 <= i < nat_tree_cnt n1) by (rewrite Hc1; exact P2).
  specialize (F2 Hr1 ltac:(rewrite El; apply pack_flushable; auto; exact (ff_wf _ _ F1)) Hr).
  assert (Fr : nat_frame n n2) by (eapply nat_frame_trans; [exact F1|exact (fl_frame _ _ _ _ F2)]).
  assert (Hd2 : forall x, dirty_nid n2 x <-> dirty_nid n x /\ NAT_BLOCK_OFFSET x <> k).
  { intros x; rewrite (fl_dirty _ _ _ _ F2), (dirty_trees n n1 x T1); split; intros [H1 H2]; (split; [exact H1|]).
    - intros E; apply H2, pack_list_elem; exists (TREE_IDX x n); pose proof (tree_idx_range n (nw_geo Hw) x) as Hi.
      assert (Hx : x ∈ set_list_of n (TREE_IDX x n) k) by (apply set_list_elem; auto).
      destruct (decide (TREE_IDX x n ∈ pk_trees q)) as [Hin|Hout]; [auto|rewrite (P3 _ Hi Hout) in Hx; inversion Hx].
    - intros Hx; apply H2, Hl; exact Hx. }
  destruct (drop_sets_ok n2 k (ff_wf _ _ Fr)) as ((T & E3) & F3 & C3 & R3).
  { intros i Hi; destruct (set_list_of n2 i k) as [|x r] eqn:E; [reflexivity|exfalso].
    assert (Hx : x ∈ set_list_of n2 i k) by (rewrite E; left); apply set_list_elem in Hx; [|exact (ff_wf _ _ Fr)|exact Hi].
    destruct Hx as (Hx & _ & Hb); apply Hd2 in Hx; tauto. }
  set (n3 := for_range 0 (nat_tree_cnt n2) (drop_set k) n2) in *.
  assert (Es : nat_sum n3 = nat_sum n2 /\ nat_pages n3 = nat_pages n2 /\ nat_bitmap n3 = nat_bitmap n2) by (rewrite E3; auto).
  destruct Es as (E4 & E5 & E6); pose proof (fl_bits _ _ _ _ F2) as E7; pose proof (fl_disk _ _ _ _ F2) as D2.
  constructor; rewrite ?E4, ?E5, ?E6; fold k.
  - eapply nat_frame_trans; eassumption.
  - intros x; unfold dirty_nid; rewrite C3; apply Hd2.
  - intros x Hx; rewrite (fl_jnl _ _ _ _ F2), S1; [reflexivity|]; intros H; apply Hx, Hl; exact H.
  - intros i j Hi Hne; unfold set_list_of at 1; rewrite R3 by (rewrite (ff_cnt _ _ Fr); exact Hi); rewrite lookup_delete_ne by congruence.
    change (set_list_of n2 i j = set_list_of n i j); rewrite (fl_sets _ _ _ _ F2) by (rewrite Hc1; exact Hi).
    rewrite (set_list_trees n n1) by exact T1; apply filter_all; intros x Hx Hx'; apply Hne; rewrite <- (Hl x Hx').
    apply set_list_elem in Hx; [symmetry; tauto|exact Hw|exact Hi].
  - rewrite E7; exact L1.
  - intros j Hj0 Hne; unfold nat_bit; rewrite E6, E7; apply B1; assumption.
  - intros a Ha; destruct dst as [a0|].
    + destruct D1 as [-> _]; rewrite (proj2 D2) by exact Ha; apply G1; exact Ha.
    + rewrite (proj1 D2); apply G1; exact Ha.
  - intros Hs; destruct dst as [a0|]; [lia|]; rewrite <- S1, P5; apply D2.
Qed.

(** ** All packs *)

(** Between two packs: [n0] is the state before the first one, [qs] are left. *)
Record packs_left (n0 n : nm_info) (qs : list per_core_sets_pack) : Prop := {
  pl_frame : nat_frame n0 n;
  pl_new : no_new n;
  pl_dirty : forall x, dirty_nid n x -> NAT_BLOCK_OFFSET x ∈ pk_set_id <$> qs;
  pl_packs : forall q, q ∈ qs -> pack_ok n q;
  pl_ids : NoDup (pk_set_id <$> qs);
  pl_jnl : nats_in_cursum (nat_sum n) + zsum (pk_cnt <$> qs) <= NAT_JOURNAL_ENTRIES \/
    forall x, NAT_BLOCK_OFFSET x ∈ pk_set_id <$> qs -> jlook (nat_sum n) x = None;
  pl_bits : forall q, q ∈ qs -> nat_bit n (pk_set_id q) = nat_bit n0 (pk_set_id q);
  pl_len : zlen (nat_bitmap n) = zlen (nat_bitmap n0);
  pl_old : forall k, 0 <= k -> nat_pages n !! nat_addr n0 k (nat_bit n0 k) = nat_pages n0 !! nat_addr n0 k (nat_bit n0 k);
}.

Lemma pack_ok_step n n' q q' : nm_wf n -> pack_done n n' q -> pack_ok n q' -> pk_set_id q' <> pk_set_id q -> pack_ok n' q'.
Proof.
  intros Hw D [P1 P2 P3 P4 P5] Hne; pose proof (pd_frame _ _ _ D) as F; constructor.
  - exact P1.
  - rewrite (ff_cnt _ _ F); exact P2.
  - rewrite (ff_cnt _ _ F); intros i Hi Ht; rewrite (pd_sets _ _ _ D) by assumption; apply P3; assumption.
  - rewrite (ff_top _ _ F); exact P4.
  - rewrite P5; f_equal; unfold pack_list; f_equal; apply list_fmap_ext; intros _ i Hi%list_elem_of_lookup_2.
    symmetry; apply (pd_sets _ _ _ D); [apply P2; exact Hi|exact Hne].
Qed.

Lemma pack_cnt_nonneg n q : pack_ok n q -> 0 <= pk_cnt q.
Proof. intros H; rewrite (po_cnt _ _ H); unfold zlen; lia. Qed.

Lemma packs_step n0 n q qs : packs_left n0 n (q :: qs) -> packs_left n0 (__flush_nat_entry_set_per_core q n) qs.
Proof.
  intros [L1 L2 L3 L4 L5 L6 L7 L8 L9]; pose proof (ff_wf _ _ L1) as Hw; pose proof (L4 q ltac:(left)) as Hq.
  assert (Hqs : forall q', q' ∈ qs -> pk_set_id q' <> pk_set_id q).
  { intros q' Hq' E; cbn in L5; apply NoDup_cons in L5; apply (proj1 L5), list_elem_of_fmap; exists q'; auto. }
  assert (Hsum : 0 <= zsum (pk_cnt <$> qs)).
  { apply zsum_nonneg; intros y Hy; apply list_elem_of_fmap in Hy; destruct Hy as (q' & -> & Hq'); apply (pack_cnt_nonneg n), L4; right; exact Hq'. }
  rewrite fmap_cons in L6; unfold zsum in L6; cbn [foldr] in L6; fold (zsum (pk_cnt <$> qs)) in L6.
  assert (D : pack_done n (__flush_nat_entry_set_per_core q n) q).
  { apply flush_pack_ok; auto; destruct L6 as [L6|L6]; [left; lia|right; intros x Hx; apply L6; rewrite fmap_cons, Hx; left]. }
  set (n' := __flush_nat_entry_set_per_core q n) in *; pose proof (pd_frame _ _ _ D) as F.
  constructor.
  - eapply nat_frame_trans; eassumption.
  - intros x Hx; apply (pd_dirty _ _ _ D) in Hx; destruct Hx as [Hx _].
    rewrite (ff_info _ _ F) by (apply dirty_range; assumption); apply L2; exact Hx.
  - intros x Hx; apply (pd_dirty _ _ _ D) in Hx; destruct Hx as [Hx Hne]; specialize (L3 x Hx); rewrite fmap_cons in L3.
    apply elem_of_cons in L3; destruct L3 as [H|H]; [contradiction|exact H].
  - intros q' Hq'; apply (pack_ok_step n n' q q'); auto; apply L4; right; exact Hq'.
  - cbn in L5; apply NoDup_cons in L5; tauto.
  - destruct L6 as [L6|L6].
    + left; pose proof (pd_room _ _ _ D ltac:(lia)); lia.
    + right; intros x Hx; rewrite (pd_jnl _ _ _ D); [apply L6; rewrite fmap_cons; right; exact Hx|].
      intros E; apply list_elem_of_fmap in Hx; destruct Hx as (q' & E' & Hq'); apply (Hqs q' Hq'); congruence.
  - intros q' Hq'; rewrite (pd_bits _ _ _ D) by (try (apply Hqs; exact Hq'); apply (po_block _ _ (L4 q' ltac:(right; exact Hq')))).
    apply L7; right; exact Hq'.
  - rewrite (pd_len _ _ _ D); exact L8.
  - intros k Hk; rewrite (pd_pages _ _ _ D); [apply L9; exact Hk|].
    assert (Ha : forall j b, nat_addr n j b = nat_addr n0 j b) by (intros; unfold nat_addr; rewrite (ff_base _ _ L1); reflexivity).
    rewrite Ha, (L7 q ltac:(left)); intros E; apply nat_addr_inj in E; [|exact Hk|apply (po_block _ _ Hq)].
    destruct E as [-> E]; destruct (nat_bit n0 (pk_set_id q)); discriminate.
Qed.

Lemma packs_all n0 qs n : packs_left n0 n qs -> packs_left n0 (foldl (fun n s => __flush_nat_entry_set_per_core s n) n qs) [].
Proof. revert n; induction qs as [|q qs IH]; intros n H; [exact H|]; cbn [foldl]; apply IH, packs_step; exact H. Qed.

(** ** The packs hold all dirty entries *)

Definition pairs (n : nm_info) : list (Z * Z) :=
  zseq 0 (Z.to_nat (nat_tree_cnt n)) ≫= fun i => pair i <$> set_keys n i.

Definition all_dirty (n : nm_info) : list Z := pairs n ≫= fun p => set_list_of n p.1 p.2.

Lemma pairs_elem n i k : (i, k) ∈ pairs n <-> 0 <= i < nat_tree_cnt n /\ is_Some (nat_set_root ((nat_trees n).[i]) !! k).
Proof.
  unfold pairs; rewrite list_elem_of_bind; split.
  - intros (j & H1 & H2); apply list_elem_of_fmap in H1; destruct H1 as (k' & E & H1); injection E as <- <-.
    apply elem_of_zseq in H2; apply set_keys_elem in H1; split; [unfold nat_tree_cnt, zlen in *; lia|exact H1].
  - intros [H1 H2]; exists i; split; [apply list_elem_of_fmap; exists k; rewrite set_keys_elem; auto|apply elem_of_zseq; lia].
Qed.

Lemma pairs_nodup n : NoDup (pairs n).
Proof.
  unfold pairs; apply NoDup_bind.
  - intros i j p _ _ H1 H2; apply list_elem_of_fmap in H1, H2; destruct H1 as (a & -> & _), H2 as (b & E & _); congruence.
  - intros i _; apply NoDup_fmap_2; [intros a b E; congruence|apply set_keys_nodup].
  - apply zseq_nodup.
Qed.

Lemma all_dirty_elem n x : nm_wf n -> x ∈ all_dirty n <-> dirty_nid n x.
Proof.
  intros Hw; unfold all_dirty; rewrite list_elem_of_bind; split.
  - intros ([i k] & H1 & H2); apply pairs_elem in H2; apply (set_list_elem n i k x Hw (proj1 H2)) in H1; tauto.
  - intros Hx; exists (TREE_IDX x n, NAT_BLOCK_OFFSET x); pose proof (tree_idx_range n (nw_geo Hw) x) as Hi.
    assert (H : x ∈ set_list_of n (TREE_IDX x n) (NAT_BLOCK_OFFSET x)) by (apply set_list_elem; auto).
    split; [exact H|apply pairs_elem; split; [exact Hi|]]; unfold set_list_of in H; destruct (nat_set_root _ !! _); [eauto|inversion H].
Qed.

Lemma all_dirty_nodup n : nm_wf n -> NoDup (all_dirty n).
Proof.
  intros Hw; unfold all_dirty; apply NoDup_bind.
  - intros [i k] [j m] x H1 H2 X1 X2; apply pairs_elem in H1, H2; apply set_list_elem in X1, X2; try tauto; cbn [fst snd] in *.
    destruct X1 as (_ & <- & <-), X2 as (_ & <- & <-); reflexivity.
  - intros [i k] H; apply pairs_elem in H; apply set_list_ok; tauto.
  - apply pairs_nodup.
Qed.

Lemma zsum_bind {A B} (f : A -> list B) (g : B -> Z) l : zsum (g <$> (l ≫= f)) = zsum ((fun x => zsum (g <$> f x)) <$> l).
Proof. induction l as [|x l IH]; [reflexivity|]; rewrite bind_cons, fmap_app, zsum_app, IH; reflexivity. Qed.

Lemma zlen_bind {A} (f : A -> list Z) l : zlen (l ≫= f) = zsum ((fun x => zlen (f x)) <$> l).
Proof.
  induction l as [|x l IH]; [reflexivity|]; rewrite bind_cons, fmap_cons; unfold zsum; cbn [foldr]; fold (zsum ((fun x => zlen (f x)) <$> l)).
  rewrite <- IH; unfold zlen; rewrite length_app; lia.
Qed.

Lemma zsum_ext {A} (f g : A -> Z) l : (forall x, x ∈ l -> f x = g x) -> zsum (f <$> l) = zsum (g <$> l).
Proof. intros H; f_equal; apply list_fmap_ext; intros _ x Hx%list_elem_of_lookup_2; apply H; exact Hx. Qed.

Lemma pairs_total n : nm_wf n -> zsum (pair_cnt n <$> pairs n) = zlen (all_dirty n) /\ zlen (all_dirty n) <= max_nid n.
Proof.
  intros Hw; split.
  - unfold all_dirty; rewrite zlen_bind; apply zsum_ext; intros [i k] H; apply pairs_elem in H; apply set_list_ok; tauto.
  - pose proof (ng_top _ (nw_geo Hw)) as Ht.
    assert (Hs : list_to_set (C := gset Z) (all_dirty n) ⊆ list_to_set (zseq 0 (Z.to_nat (max_nid n)))).
    { intros x Hx; apply elem_of_list_to_set in Hx; apply all_dirty_elem in Hx; [|exact Hw].
      apply elem_of_list_to_set, elem_of_zseq; pose proof (dirty_range n x Hw Hx); lia. }
    apply subseteq_size in Hs; rewrite !size_list_to_set in Hs by (apply zseq_nodup || apply all_dirty_nodup; exact Hw).
    rewrite zseq_length in Hs; unfold zlen; lia.
Qed.

Lemma tree_dirty_sum n i : nm_wf n -> 0 <= i < nat_tree_cnt n ->
  zsum (pair_cnt n <$> (pair i <$> set_keys n i)) = percore_dirty_nat_cnt ((nat_trees n).[i]).
Proof.
  intros Hw Hi; pose proof (nw_tree Hw i Hi) as Ht; rewrite (tw_dcnt _ _ _ _ Ht), <- list_fmap_compose.
  transitivity (zlen (set_keys n i ≫= set_list_of n i)).
  - rewrite zlen_bind; apply zsum_ext; intros k _; apply set_list_ok; assumption.
  - assert (Hd : NoDup (set_keys n i ≫= set_list_of n i)).
    { apply NoDup_bind; [|intros; apply set_list_ok; assumption|apply set_keys_nodup].
      intros k m x _ _ X1 X2; apply set_list_elem in X1, X2; auto; destruct X1 as (_ & _ & <-), X2 as (_ & _ & <-); reflexivity. }
    unfold zlen; rewrite <- (size_list_to_set (C := gset Z)) by exact Hd; do 2 f_equal; apply set_eq; intros x.
    rewrite elem_of_list_to_set, list_elem_of_bind, elem_dirty_ids; split.
    + intros (k & H1 & _); unfold set_list_of in H1; destruct (nat_set_root _ !! k) eqn:E; [|inversion H1].
      apply (tw_home _ _ _ _ Ht _ _ _ E H1).
    + intros (e & He & Hx); destruct (tw_dirty _ _ _ _ Ht _ _ He Hx) as (s & Es & Hin).
      exists (NAT_BLOCK_OFFSET x); unfold set_list_of; rewrite Es; split; [exact Hin|apply set_keys_elem; eauto].
Qed.

Lemma zsum_snoc l x : zsum (l ++ [x]) = zsum l + x.
Proof. rewrite zsum_app; unfold zsum at 2; cbn; lia. Qed.

(** A sum of counters that fits into 32 bits. *)
Lemma sum_loop (c : Z -> Z) m :
  0 <= m -> (forall i, 0 <= i < m -> 0 <= c i) -> zsum (c <$> zseq 0 (Z.to_nat m)) < 2 ^ 32 ->
  for_range 0 m (fun i count => u32 (count + c i)) 0 = zsum (c <$> zseq 0 (Z.to_nat m)).
Proof.
  intros Hm Hpos Hle.
  assert (Es : forall i, 0 <= i -> zsum (c <$> zseq 0 (Z.to_nat (i + 1))) = zsum (c <$> zseq 0 (Z.to_nat i)) + c i).
  { intros i Hi; replace (Z.to_nat (i + 1)) with (S (Z.to_nat i)) by lia; rewrite zseq_snoc, fmap_app; cbn [fmap list_fmap]; rewrite zsum_snoc.
    do 2 f_equal; lia. }
  assert (Hb : forall j k, 0 <= j -> j + Z.of_nat k <= m -> zsum (c <$> zseq 0 (Z.to_nat j)) <= zsum (c <$> zseq 0 (Z.to_nat (j + Z.of_nat k)))).
  { intros j k Hj; induction k as [|k IH]; intros Hk; [rewrite Z.add_0_r; lia|].
    specialize (IH ltac:(lia)); replace (j + Z.of_nat (S k)) with (j + Z.of_nat k + 1) by lia; rewrite Es by lia; pose proof (Hpos (j + Z.of_nat k) ltac:(lia)); lia. }
  apply (for_range_ind (fun j s => s = zsum (c <$> zseq 0 (Z.to_nat j)))); [lia|reflexivity|].
  intros i s Hi ->; rewrite Es by lia; apply u32_small; rewrite <- Es by lia; split.
  - apply zsum_nonneg; intros y Hy; apply list_elem_of_fmap in Hy; destruct Hy as (j & -> & Hj); apply elem_of_zseq in Hj; apply Hpos; lia.
  - specialize (Hb (i + 1) (Z.to_nat (m - i - 1)) ltac:(lia) ltac:(lia)); replace (i + 1 + Z.of_nat (Z.to_nat (m - i - 1))) with m in Hb by lia; lia.
Qed.

Lemma sum_up_dirty_eq n : nm_wf n -> sum_up_dirty n = zlen (all_dirty n).
Proof.
  intros Hw; pose proof (ng_cnt _ (nw_geo Hw)) as Hc; pose proof (ng_top _ (nw_geo Hw)) as Ht.
  set (c := fun i => percore_dirty_nat_cnt ((nat_trees n).[i])).
  assert (Htot : zlen (all_dirty n) = zsum (c <$> zseq 0 (Z.to_nat (nat_tree_cnt n)))).
  { rewrite <- (proj1 (pairs_total n Hw)); unfold pairs; rewrite zsum_bind; apply zsum_ext; intros i Hi; apply elem_of_zseq in Hi.
    apply tree_dirty_sum; [exact Hw|lia]. }
  pose proof (proj2 (pairs_total n Hw)) as Hle; rewrite Htot in *; apply (sum_loop c); [lia| |eapply Z.le_lt_trans; [exact Hle|apply Ht]].
  intros i Hi; unfold c; rewrite (tw_dcnt _ _ _ _ (nw_tree Hw i Hi)); lia.
Qed.

Definition adjust_pair (n : nm_info) (max : Z) (head : list per_core_sets_pack) (p : Z * Z) : list per_core_sets_pack :=
  __adjust_nat_entry_set_per_core p.1 p.2 (set_cnt n p.1 p.2) max head.

Lemma collect_packs_eq n : nm_wf n -> collect_packs n = foldl (adjust_pair n (MAX_NAT_JENTRIES (nat_sum n))) [] (pairs n).
Proof.
  intros Hw; pose proof (ng_cnt _ (nw_geo Hw)) as Hc; unfold collect_packs, pairs; set (max := MAX_NAT_JENTRIES (nat_sum n)).
  apply (for_range_ind (fun j h => h = foldl (adjust_pair n max) [] (zseq 0 (Z.to_nat j) ≫= fun i => pair i <$> set_keys n i))); [lia|reflexivity|].
  intros i h Hi ->; replace (Z.to_nat (i + 1)) with (S (Z.to_nat i)) by lia.
  rewrite zseq_snoc, bind_app, foldl_app; cbn [mbind list_bind]; rewrite app_nil_r; replace (0 + Z.of_nat (Z.to_nat i)) with i by lia.
  set (h := foldl _ _ _); clearbody h.
  assert (Ef : filter (fun k => 0 <= k) (set_keys n i) = set_keys n i).
  { apply filter_all; intros k Hk; apply set_keys_elem in Hk; destruct Hk as [s Hs]; apply (tw_pos _ _ _ _ (nw_tree Hw i Hi) _ _ Hs). }
  rewrite collect_sets_eq, Ef; [|rewrite Ef, set_keys_size; apply Nat.lt_succ_diag_r].
  clear Ef; generalize h; induction (set_keys n i) as [|k l IH]; intros h'; [reflexivity|]; cbn [foldl fmap list_fmap]; apply IH.
Qed.

Lemma adjust_all n max P2 P1 head :
  nm_wf n -> pairs n = P1 ++ P2 -> packs_inv n P1 head -> packs_inv n (pairs n) (foldl (adjust_pair n max) head P2).
Proof.
  intros Hw; revert P1 head; induction P2 as [|[i k] P2 IH]; intros P1 head E H; cbn [foldl]; [rewrite E, app_nil_r; exact H|].
  destruct (pairs_total n Hw) as [T1 T2]; pose proof (ng_top _ (nw_geo Hw)) as Ht.
  assert (Hpos : forall p, p ∈ pairs n -> 0 <= pair_cnt n p).
  { intros [j m] Hp; apply pairs_elem in Hp; unfold pair_cnt; cbn [fst snd]; rewrite (proj2 (set_list_ok n j m Hw (proj1 Hp))); unfold zlen; lia. }
  assert (Hp : (i, k) ∈ pairs n) by (rewrite E; apply elem_of_app; right; left).
  apply (IH (P1 ++ [(i, k)])); [rewrite <- app_assoc; exact E|].
  unfold adjust_pair; cbn [fst snd]; apply adjust_ok.
  - exact H.
  - pose proof (pairs_nodup n) as Hd; rewrite E in Hd; apply NoDup_app in Hd; intros X; apply (proj1 (proj2 Hd) _ X); left.
  - intros p X; apply Hpos; rewrite E; apply elem_of_app; auto.
  - apply (Hpos _ Hp).
  - change (set_cnt n i k) with (pair_cnt n (i, k)).
    rewrite E, fmap_app, fmap_cons, zsum_app in T1; unfold zsum at 2 in T1; cbn [foldr] in T1; fold (zsum (pair_cnt n <$> P2)) in T1.
    assert (0 <= zsum (pair_cnt n <$> P2)); [|lia].
    apply zsum_nonneg; intros y Hy; apply list_elem_of_fmap in Hy; destruct Hy as (p & -> & Hy); apply Hpos; rewrite E; apply elem_of_app; right; right; exact Hy.
Qed.

Lemma collect_packs_ok n : nm_wf n ->
  let qs := collect_packs n in
  NoDup (pk_set_id <$> qs) /\ (forall q, q ∈ qs -> pack_ok n q) /\
  (forall x, dirty_nid n x -> NAT_BLOCK_OFFSET x ∈ pk_set_id <$> qs) /\ zsum (pk_cnt <$> qs) = sum_up_dirty n.
Proof.
  intros Hw; cbv zeta; rewrite collect_packs_eq by exact Hw.
  assert (H : packs_inv n (pairs n) (foldl (adjust_pair n (MAX_NAT_JENTRIES (nat_sum n))) [] (pairs n))).
  { apply (adjust_all n _ (pairs n) []); [exact Hw|reflexivity|constructor; try (intros; set_solver)].
    constructor. }
  set (qs := foldl _ _ _) in *; clearbody qs; destruct H as [I1 I0 I2 I3 I4 I5].
  split; [exact I1|split; [|split]].
  - intros q Hq; destruct (I2 q Hq) as [T1 T2].
    assert (Hr : forall i, i ∈ pk_trees q -> 0 <= i < nat_tree_cnt n) by (intros i Hi; apply T2, pairs_elem in Hi; tauto).
    assert (Hk : exists i, i ∈ pk_trees q).
    { pose proof (I0 q Hq) as H0; destruct (pk_trees q) as [|i r]; [contradiction|exists i; left]. }
    constructor; auto.
    + intros i Hi Hout; unfold set_list_of; destruct (nat_set_root _ !! _) as [s|] eqn:Es; [|reflexivity].
      exfalso; apply Hout, T2, pairs_elem; eauto.
    + destruct Hk as [i Hi]; apply T2, pairs_elem in Hi; destruct Hi as [Hi [s Hs]]; apply (tw_pos _ _ _ _ (nw_tree Hw i Hi) _ _ Hs).
    + rewrite (I3 q Hq), pack_list_len by auto; reflexivity.
  - intros x Hx; apply (all_dirty_elem n x Hw) in Hx; unfold all_dirty in Hx; apply list_elem_of_bind in Hx; destruct Hx as ([i k] & H1 & H2).
    pose proof (I4 i k H2) as H; apply pairs_elem in H2; apply set_list_elem in H1; [|exact Hw|tauto]; cbn [fst snd] in H1; destruct H1 as (_ & _ & ->); exact H.
  - rewrite I5, sum_up_dirty_eq by exact Hw; apply pairs_total; exact Hw.
Qed.

(** ** Emptying the journal *)

Lemma clean_info n x : nm_wf n -> ~ dirty_nid n x -> nat_info n x = raw_view n x.
Proof.
  intros Hw Hd; unfold nat_info; destruct (__lookup_nat_cache n x) as [e|] eqn:E; [|reflexivity].
  apply (nw_agree Hw x e); [discriminate|exact E|]; destruct (is_dirty e) eqn:D; [|reflexivity]; exfalso; apply Hd; exists e; auto.
Qed.

(** [n'] is [n] with more entries cached or marked dirty. *)
Record more_dirty (n n' : nm_info) (new : Z -> Prop) : Prop := {
  md_trees : exists T, n' = with_trees T n;
  md_cnt : nat_tree_cnt n' = nat_tree_cnt n;
  md_wf : nm_wf n';
  md_info : forall x, nat_info n' x = nat_info n x;
  md_dirty : forall x, dirty_nid n' x <-> dirty_nid n x \/ new x;
}.

Lemma mark_dirty_ok n nid e :
  nm_wf n -> __lookup_nat_cache n nid = Some e -> more_dirty n (__set_nat_cache_dirty nid n) (eq nid).
Proof.
  intros Hw He; destruct (cached_key None n nid e Hw He) as [_ Hn].
  destruct (set_dirty_ok None None n nid Hw ltac:(auto) Hn e He) as (e' & W' & D' & R' & _ & C').
  assert (Et : exists T, __set_nat_cache_dirty nid n = with_trees T n).
  { unfold __set_nat_cache_dirty; rewrite He; destruct (get_nat_flag e IS_DIRTY); [exists (nat_trees n); destruct n; reflexivity|eexists; reflexivity]. }
  constructor; [exact Et| |exact W'| |].
  - unfold __set_nat_cache_dirty; rewrite He; destruct (get_nat_flag e IS_DIRTY); [reflexivity|apply set_tree_cnt].
  - intros x; unfold nat_info; rewrite C'; destruct (Z.eqb_spec x nid) as [->|]; [rewrite He; exact R'|destruct Et as [T ->]; reflexivity].
  - intros x; unfold dirty_nid; rewrite C'; destruct (Z.eqb_spec x nid) as [->|Hne].
    + split; [auto|intros _; exists e'; auto].
    + split; [auto|intros [H|H]; [exact H|congruence]].
Qed.

Lemma nat_unjournal_ok n i :
  nm_wf n -> 0 <= i < nats_in_cursum (nat_sum n) ->
  more_dirty n (unjournal_nat (nat_sum n) i n) (eq (nj_nid ((sb_nat_j (nat_sum n)).[i]))).
Proof.
  intros Hw Hi; unfold unjournal_nat; cbv zeta; set (nid := nj_nid _).
  destruct (__lookup_nat_cache n nid) as [e|] eqn:E; [apply (mark_dirty_ok n nid e Hw E)|].
  assert (Er : nj_ne ((sb_nat_j (nat_sum n)).[i]) = raw_view n nid).
  { rewrite raw_view_eq by exact (nw_jnl Hw); unfold nid; rewrite (jlook_at (max_nid n)) by (auto; exact (nw_jnl Hw)); reflexivity. }
  rewrite Er; pose proof (jw_range _ _ (nw_jnl Hw) i Hi) as Hn; fold nid in Hn.
  pose proof (add_clean_same n nid Hw Hn E) as [[T1 E1] C1 W1 I1 D1].
  set (n1 := put_entry _ _ _) in *.
  destruct (__lookup_nat_cache n1 nid) as [e1|] eqn:Ee.
  - destruct (mark_dirty_ok n1 nid e1 W1 Ee) as [[T2 E2] C2 W2 I2 D2]; constructor; [|congruence|exact W2| |].
    + exists T2; rewrite E2, E1; reflexivity.
    + intros x; rewrite I2; apply I1.
    + intros x; rewrite D2, D1; reflexivity.
  - exfalso; destruct (nat_add_entry_ok None None n nid Hw ltac:(auto) Hn (node_info_from_raw_nat (new_nat_entry nid) (raw_view n nid)) E eq_refl eq_refl (or_intror (raw_of_raw _ _))) as [_ A2].
    unfold n1 in Ee; rewrite A2, Z.eqb_refl in Ee; discriminate.
Qed.

Lemma unjournal_all_ok n :
  nm_wf n -> more_dirty n (for_range 0 (nats_in_cursum (nat_sum n)) (unjournal_nat (nat_sum n)) n)
    (fun x => exists i, 0 <= i < nats_in_cursum (nat_sum n) /\ nj_nid ((sb_nat_j (nat_sum n)).[i]) = x).
Proof.
  intros Hw; pose proof (jw_cnt _ _ (nw_jnl Hw)) as Hc; set (c := nats_in_cursum (nat_sum n)) in *.
  apply (for_range_ind (fun j m => more_dirty n m (fun x => exists i, 0 <= i < j /\ nj_nid ((sb_nat_j (nat_sum n)).[i]) = x))); [lia| |].
  - constructor; auto; [exists (nat_trees n); destruct n; reflexivity|].
    intros x; split; [auto|intros [H|(i & Hi & _)]; [exact H|lia]].
  - intros j m Hj [[T1 E1] C1 W1 I1 D1].
    assert (Es : nat_sum n = nat_sum m) by (rewrite E1; reflexivity).
    pose proof (nat_unjournal_ok m j W1) as H; rewrite <- Es in H; specialize (H Hj); destruct H as [[T2 E2] C2 W2 I2 D2].
    constructor; [exists T2; rewrite E2, E1; reflexivity|congruence|exact W2|intros x; rewrite I2; apply I1|].
    intros x; rewrite D2, D1; split.
    + intros [[H|(i & Hi & E)]|<-]; [auto|right; exists i; split; [lia|exact E]|right; exists j; split; [lia|reflexivity]].
    + intros [H|(i & Hi & <-)]; [auto|]; destruct (Z.eq_dec i j) as [->|]; [auto|left; right; exists i; split; [lia|reflexivity]].
Qed.

Lemma remove_nats_ok n :
  nm_wf n ->
  let n' := remove_nats_in_journal n in
  nat_frame n n' /\ nat_bitmap n' = nat_bitmap n /\ nat_pages n' = nat_pages n /\ (forall x, jlook (nat_sum n') x = None) /\
  (forall x, dirty_nid n x -> dirty_nid n' x) /\ (no_new n -> no_new n').
Proof.
  intros Hw; cbv zeta; unfold remove_nats_in_journal; cbv zeta.
  destruct (unjournal_all_ok n Hw) as [[T1 E1] C1 W1 I1 D1]; set (m := for_range _ _ _ n) in *.
  assert (Es : nat_sum m = nat_sum n) by (rewrite E1; reflexivity); rewrite Es.
  set (sum' := snd (update_nats_in_cursum (nat_sum n) (- nats_in_cursum (nat_sum n)))).
  assert (Ec : nats_in_cursum sum' = 0) by (unfold sum', update_nats_in_cursum; cbn [snd nats_in_cursum sb_n_jnl with_n_jnl]; rewrite Z.add_opp_diag_r; reflexivity).
  assert (Hj : journal_wf (max_nid n) sum').
  { destruct (nw_jnl Hw) as [J1 J2 J3 J4]; constructor; rewrite ?Ec; change NAT_JOURNAL_ENTRIES with 38 in *; try (intros; lia); exact J2. }
  assert (Hlk : forall x, jlook sum' x = None) by (intros x; apply (jlook_none (max_nid n)); [exact Hj|rewrite Ec; intros i Hi; lia]).
  assert (Em : max_nid m = max_nid n) by (rewrite E1; reflexivity).
  set (n' := with_nat_sum sum' m).
  assert (Hpv : forall x, page_view n' x = page_view m x) by reflexivity.
  assert (Hc : forall x, __lookup_nat_cache n' x = __lookup_nat_cache m x) by reflexivity.
  assert (Hclean : forall x, ~ dirty_nid m x -> raw_view n' x = raw_view m x).
  { intros x Hx; rewrite (raw_view_eq n') by (change (max_nid n') with (max_nid m); rewrite Em; exact Hj); rewrite (raw_view_eq m) by exact (nw_jnl W1).
    change (nat_sum n') with sum'; rewrite Hlk, Hpv, Es; rewrite (proj2 (jlook_none (max_nid n) (nat_sum n) x (nw_jnl Hw))); [reflexivity|].
    intros i Hi E; apply Hx, D1; right; exists i; auto. }
  assert (Hw' : nm_wf n').
  { constructor.
    - destruct (nw_geo W1); constructor; auto.
    - exact (nw_tree W1).
    - change (max_nid n') with (max_nid m); rewrite Em; exact Hj.
    - exact (nw_pages W1).
    - intros x Hx; change (max_nid n') with (max_nid m) in Hx; rewrite (raw_view_eq n') by (change (max_nid n') with (max_nid m); rewrite Em; exact Hj).
      change (nat_sum n') with sum'; rewrite Hlk, Hpv, page_view_eq by (auto; exact (nw_geo W1)).
      destruct (nat_page_ok m (nat_addr m (NAT_BLOCK_OFFSET x) (nat_bit m (NAT_BLOCK_OFFSET x))) (nw_pages W1)) as [Q1 Q2].
      apply (aget_Forall (fun e => ne_block_addr e <> NEW_ADDR) _ _ Q2); rewrite Q1; change NAT_ENTRY_PER_BLOCK with 455; lia.
    - intros x e Hx He Hd; rewrite Hc in He; rewrite Hclean; [apply (nw_agree W1 x e Hx He Hd)|]; intros (e' & He' & Hd'); congruence. }
  assert (F : nat_frame n n').
  { constructor; try (unfold n'; rewrite E1; reflexivity); [exact C1|exact Hw'| |apply lists_same; unfold n'; rewrite E1; reflexivity].
    intros x Hx; rewrite <- I1; destruct (__lookup_nat_cache m x) as [e|] eqn:E; [unfold nat_info; rewrite Hc, E; reflexivity|].
    unfold nat_info; rewrite Hc, E; apply Hclean; intros (e & He & _); congruence. }
  split; [exact F|split; [unfold n'; rewrite E1; reflexivity|split; [unfold n'; rewrite E1; reflexivity|split; [exact Hlk|split]]]].
  - intros x Hx; apply (D1 x); auto.
  - intros Hnn x Hx; pose proof (dirty_range n' x Hw' Hx) as Hr; change (max_nid n') with (max_nid m) in Hr; rewrite Em in Hr.
    rewrite (ff_info _ _ F) by exact Hr; destruct (__lookup_nat_cache n x) as [e|] eqn:E.
    + destruct (is_dirty e) eqn:D; [apply Hnn; exists e; auto|].
      rewrite clean_info; [apply (nw_new Hw); exact Hr|exact Hw|intros (e' & He' & Hd'); congruence].
    + rewrite clean_info; [apply (nw_new Hw); exact Hr|exact Hw|intros (e' & He' & Hd'); congruence].
Qed.

(** ** The whole flush *)

(** The alarms at the end of the flush stay off. *)
Lemma bug_sweep_off n m (f : Z -> bool) : (forall i, 0 <= i < m -> f i = false) -> for_range 0 m (fun i n => bug_on (f i) n) n = n.
Proof.
  intros H; apply (for_range_inv (fun x => x = n)); [reflexivity|]; intros i t Hi ->; rewrite H by exact Hi; reflexivity.
Qed.

Record flush_done (n n' : nm_info) : Prop := {
  fd_frame : nat_frame n n';
  fd_clean : forall x, ~ dirty_nid n' x;
  fd_len : zlen (nat_bitmap n') = zlen (nat_bitmap n);
  fd_old : forall k, 0 <= k -> nat_pages n' !! nat_addr n k (nat_bit n k) = nat_pages n !! nat_addr n k (nat_bit n k);
}.

Lemma sweep_reads_self n : for_range 0 (nat_tree_cnt n) (fun i n => bug_on (negb (percore_dirty_nat_cnt ((nat_trees n).[i]) =? 0)) n) n =
  for_range 0 (nat_tree_cnt n) (fun i m => bug_on (negb (percore_dirty_nat_cnt ((nat_trees n).[i]) =? 0)) m) n.
Proof.
  destruct (Z_le_gt_dec 0 (nat_tree_cnt n)) as [H|H]; [|rewrite !for_range_nil by lia; reflexivity].
  assert (G : forall j, 0 <= j -> nat_trees (for_range 0 j (fun i m => bug_on (negb (percore_dirty_nat_cnt ((nat_trees n).[i]) =? 0)) m) n) = nat_trees n).
  { intros j Hj; apply (for_range_inv (fun m => nat_trees m = nat_trees n)); [reflexivity|]; intros i t _ E; unfold bug_on; destruct (negb _); exact E. }
  apply (for_range_ind (fun j m => m = for_range 0 j (fun i m => bug_on (negb (percore_dirty_nat_cnt ((nat_trees n).[i]) =? 0)) m) n)); [exact H|reflexivity|].
  intros i t Hi ->; rewrite for_range_last by lia; rewrite G by lia; reflexivity.
Qed.

Lemma no_dirty_cnt n : nm_wf n -> (forall x, ~ dirty_nid n x) -> forall i, 0 <= i < nat_tree_cnt n -> percore_dirty_nat_cnt ((nat_trees n).[i]) = 0.
Proof.
  intros Hw Hd i Hi; pose proof (nw_tree Hw i Hi) as Ht; rewrite (tw_dcnt _ _ _ _ Ht).
  replace (dirty_ids ((nat_trees n).[i])) with (∅ : gset Z); [reflexivity|]; apply set_eq; intros x; split; [set_solver|].
  intros Hx; exfalso; apply elem_dirty_ids in Hx; destruct Hx as (e & He & De); destruct (tw_key _ _ _ _ Ht _ _ He) as (_ & Hm & _).
  apply (Hd x); exists e; split; [|exact De]; unfold __lookup_nat_cache, tree_of, TREE_IDX; rewrite Hm; exact He.
Qed.

Lemma flush_nat_ok n : nm_wf n -> no_new n -> flush_done n (flush_nat_entries_per_core n).
Proof.
  intros Hw Hnn; unfold flush_nat_entries_per_core; cbv zeta; rewrite has_nat_space.
  destruct (Z.eqb_spec (sum_up_dirty n) 0) as [E0|E0].
  { constructor; auto using nat_frame_refl; intros x Hx; apply (all_dirty_elem n x Hw) in Hx.
    rewrite sum_up_dirty_eq in E0 by exact Hw; destruct (all_dirty n); [inversion Hx|unfold zlen in E0; cbn in E0; lia]. }
  set (n1 := if negb _ then remove_nats_in_journal n else n).
  assert (H1 : nat_frame n n1 /\ nat_bitmap n1 = nat_bitmap n /\ nat_pages n1 = nat_pages n /\ no_new n1 /\
    (nats_in_cursum (nat_sum n1) + sum_up_dirty n1 <= NAT_JOURNAL_ENTRIES \/ forall x, jlook (nat_sum n1) x = None)).
  { unfold n1; destruct (Z.leb_spec (nats_in_cursum (nat_sum n) + sum_up_dirty n) NAT_JOURNAL_ENTRIES) as [Hs|Hs]; cbn [negb].
    - split; [apply nat_frame_refl; exact Hw|auto].
    - destruct (remove_nats_ok n Hw) as (R1 & R2 & R3 & R4 & _ & R6); split; [exact R1|auto]. }
  clearbody n1; destruct H1 as (F1 & B1 & P1 & N1 & J1); pose proof (ff_wf _ _ F1) as Hw1.
  destruct (collect_packs_ok n1 Hw1) as (K1 & K2 & K3 & K4).
  assert (L0 : packs_left n n1 (collect_packs n1)).
  { constructor; auto.
    - destruct J1 as [J1|J1]; [left; rewrite K4; exact J1|right; auto].
    - intros q Hq; unfold nat_bit; rewrite B1; reflexivity.
    - rewrite B1; reflexivity.
    - intros k Hk; rewrite P1; reflexivity. }
  pose proof (packs_all n (collect_packs n1) n1 L0) as L; set (n2 := foldl _ n1 _) in *; destruct L as [L1 L2 L3 _ _ _ _ L8 L9].
  assert (Hclean : forall x, ~ dirty_nid n2 x) by (intros x Hx; specialize (L3 x Hx); inversion L3).
  rewrite sweep_reads_self, (bug_sweep_off n2 _ (fun i => negb (percore_dirty_nat_cnt ((nat_trees n2).[i]) =? 0)))
    by (intros i Hi; rewrite (no_dirty_cnt n2 (ff_wf _ _ L1) Hclean i Hi); reflexivity).
  constructor; auto.
Qed.

(** *** Crashes *)

(** What a mount from the checkpoint of [n] reads, with the blocks [disk]. *)
Definition on_disk (n : nm_info) (disk : gmap Z (list f2fs_nat_entry)) : nm_info := with_nat_pages disk n.

Lemma old_view n disk x :
  nm_wf n -> 0 <= x < max_nid n ->
  (forall k, 0 <= k -> disk !! nat_addr n k (nat_bit n k) = nat_pages n !! nat_addr n k (nat_bit n k)) ->
  raw_view (on_disk n disk) x = raw_view n x.
Proof.
  intros Hw Hx H; pose proof (nw_geo Hw) as Hg.
  assert (Hg' : nat_geo (on_disk n disk)) by (destruct Hg; constructor; auto).
  rewrite (raw_view_eq (on_disk n disk)) by exact (nw_jnl Hw); rewrite (raw_view_eq n) by exact (nw_jnl Hw).
  change (nat_sum (on_disk n disk)) with (nat_sum n); destruct (jlook (nat_sum n) x); [reflexivity|].
  rewrite (page_view_eq (on_disk n disk)) by auto; rewrite (page_view_eq n) by auto.
  f_equal; unfold nat_page, on_disk; cbn [nat_pages with_nat_pages].
  change (nat_addr (with_nat_pages disk n)) with (nat_addr n); change (nat_bit (with_nat_pages disk n)) with (nat_bit n).
  rewrite H; [reflexivity|]; destruct (nat_block_range n x Hg Hx); lia.
Qed.
