(* ===== verification/NidScan.v ===== *)
(** What the scans for free node ids find: at mount the NAT blocks and the journal,
    later the journal alone (src/Max/node.c: scan_nat_page, build_all_free_nids,
    build_free_nids). *)

From Stdlib Require Import ZArith Lia Bool.
From stdpp Require Import base numbers list gmap.
From S2P Require Import Prelude Keys Layout Bitops SmState SitFlush Nat FreeNid NidLists NatFlush NatSync.

#[local] Open Scope Z_scope.
#[local] Ltac Zify.zify_post_hook ::= Z.to_euclidean_division_equations.

(** ** The effect of a scan *)

(** Some ids of [add] become available, some of [rem] are taken away. *)
Record scanned (n n' : nm_info) (add rem : Z -> Prop) : Prop := {
  sc_only : lists_only n n';
  sc_wf : lists_wf n';
  sc_state : forall y, 0 <= y < max_nid n ->
    fstate n' y = fstate n y \/
    (fstate n y = None /\ fstate n' y = Some NID_NEW /\ add y) \/
    (fstate n y = Some NID_NEW /\ fstate n' y = None /\ rem y);
}.

Lemma scanned_refl n add rem : lists_wf n -> scanned n n add rem.
Proof. intros H; constructor; auto using lists_only_refl. Qed.

Lemma scanned_trans n1 n2 n3 add rem : scanned n1 n2 add rem -> scanned n2 n3 add rem -> scanned n1 n3 add rem.
Proof.
  intros [A1 A2 A3] [B1 B2 B3]; constructor; [eapply lists_only_trans; eassumption|exact B2|].
  intros y Hy; specialize (A3 y Hy); destruct A1 as [L ->]; specialize (B3 y Hy).
  destruct A3 as [A|[(A & A' & X)|(A & A' & X)]], B3 as [B|[(B & B' & Y)|(B & B' & Y)]]; try congruence.
  - left; congruence.
  - right; left; split; [congruence|auto].
  - right; right; split; [congruence|auto].
  - right; left; split; [exact A|split; [congruence|exact X]].
  - left; congruence.
  - right; right; split; [exact A|split; [congruence|exact X]].
  - left; congruence.
Qed.

Lemma scanned_weaken n n' (a1 r1 a2 r2 : Z -> Prop) : (forall y, 0 <= y < max_nid n -> a1 y -> a2 y) -> (forall y, 0 <= y < max_nid n -> r1 y -> r2 y) ->
  scanned n n' a1 r1 -> scanned n n' a2 r2.
Proof.
  intros Ha Hr [A1 A2 A3]; constructor; auto; intros y Hy; destruct (A3 y Hy) as [H|[(H1 & H2 & H3)|(H1 & H2 & H3)]]; auto 6.
Qed.

(** The cache says that the id is in use, or not yet free on disk. *)
Definition cached_alloc (n : nm_info) (x : Z) : bool :=
  match __lookup_nat_cache n x with
  | Some ne => negb (get_nat_flag ne IS_CHECKPOINTED) || negb (ni_blk_addr ne =? NULL_ADDR)
  | None => false
  end.

Lemma add_scanned n x : lists_wf n -> 0 <= x < max_nid n ->
  scanned n (snd (add_free_nid x true n)) (fun y => y = x /\ cached_alloc n y = false) (fun _ => False) /\
  (available_free_memory n FREE_NIDS = true -> cached_alloc n x = false -> x <> 0 -> is_Some (fstate (snd (add_free_nid x true n)) x)).
Proof.
  intros Hl Hx; pose proof (add_free_nid_ok n x true Hl Hx) as H; unfold add_refused in H; cbn [andb] in H; fold (cached_alloc n x) in H.
  destruct (negb _ || (x =? 0) || cached_alloc n x || bool_decide (is_Some (fstate n x))) eqn:E.
  - rewrite H; split; [apply scanned_refl; exact Hl|]; intros Hm Hc H0; rewrite Hm, Hc, (proj2 (Z.eqb_neq x 0) H0) in E; cbn in E.
    apply bool_decide_eq_true in E; exact E.
  - rewrite !orb_false_iff in E; destruct E as [[[_ _] E] _]; destruct H as [[H1 H2 H3] H4]; split.
    + constructor; auto; intros y Hy; rewrite H3 by exact Hy; destruct (Z.eqb_spec y x) as [->|]; [right; left; auto|auto].
    + intros _ _ _; rewrite H3, Z.eqb_refl by exact Hx; eauto.
Qed.

Lemma remove_scanned n x : lists_wf n -> 0 <= x < max_nid n ->
  scanned n (remove_free_nid x n) (fun _ => False) (eq x) /\ fstate (remove_free_nid x n) x <> Some NID_NEW.
Proof.
  intros Hl Hx; pose proof (remove_free_nid_ok n x Hl Hx) as H; destruct (bool_decide_reflect (fstate n x = Some NID_NEW)) as [E|E].
  - destruct H as [H1 H2 H3]; split; [|rewrite H3, Z.eqb_refl by exact Hx; discriminate].
    constructor; auto; intros y Hy; rewrite H3 by exact Hy; destruct (Z.eqb_spec y x) as [->|]; [right; right; auto|auto].
  - rewrite H; split; [apply scanned_refl; exact Hl|exact E].
Qed.

(** ** Memory *)

(** The limit on memory allows for all ids. *)
Definition mem_ok (n : nm_info) : Prop :=
  Z.shiftr (max_nid n * sizeof_free_nid) PAGE_CACHE_SHIFT < Z.shiftr (u64 (nm_avail_ram n * ram_thresh n) / 100) 2.

Definition new_list (n : nm_info) (k : Z) : list Z :=
  elements (dom (filter (fun kv : Z * Z => kv.2 = NID_NEW) (free_nid_root ((nid_lists n).[k])))).

Lemma new_list_ok n k : lists_wf n -> 0 <= k < nid_list_count n ->
  zlen (new_list n k) = percore_fcnt ((nid_lists n).[k]) /\ forall x, x ∈ new_list n k -> 0 <= x < max_nid n /\ LIST_IDX x n = k.
Proof.
  intros Hl Hk; pose proof (ls_list _ Hl k Hk) as Wk; split.
  - rewrite (lw_cnt _ _ _ _ Wk); unfold zlen, new_list, new_cnt; rewrite <- size_dom; reflexivity.
  - intros x Hx; unfold new_list in Hx; apply elem_of_elements, elem_of_dom in Hx; destruct Hx as [st Hx]; apply map_lookup_filter_Some in Hx; destruct Hx as [Hx _].
    destruct (lw_key _ _ _ _ Wk x st Hx) as (K1 & K2 & _); split; [lia|exact K2].
Qed.

Lemma sum_up_fcnt_le n : lists_wf n -> 0 <= sum_up_fcnt n <= max_nid n.
Proof.
  intros Hl; pose proof (ls_some _ Hl) as Hc; pose proof (ls_top _ Hl) as Ht.
  set (all := zseq 0 (Z.to_nat (nid_list_count n)) ≫= new_list n).
  assert (Hin : forall k, k ∈ zseq 0 (Z.to_nat (nid_list_count n)) -> 0 <= k < nid_list_count n) by (intros k H; apply elem_of_zseq in H; lia).
  assert (Hnd : NoDup all).
  { unfold all; apply NoDup_bind; [|intros k _; apply NoDup_elements|apply zseq_nodup].
    intros j k x Hj Hk X1 X2; apply (proj2 (new_list_ok n j Hl (Hin j Hj))) in X1; apply (proj2 (new_list_ok n k Hl (Hin k Hk))) in X2.
    destruct X1 as [_ <-], X2 as [_ <-]; reflexivity. }
  assert (Hlen : zlen all <= max_nid n).
  { assert (Hs : list_to_set (C := gset Z) all ⊆ list_to_set (zseq 0 (Z.to_nat (max_nid n)))).
    { intros x Hx; apply elem_of_list_to_set in Hx; unfold all in Hx; apply list_elem_of_bind in Hx; destruct Hx as (k & X & Hk).
      apply (proj2 (new_list_ok n k Hl (Hin k Hk))) in X; apply elem_of_list_to_set, elem_of_zseq; lia. }
    apply subseteq_size in Hs; rewrite !size_list_to_set in Hs by (apply zseq_nodup || exact Hnd); rewrite zseq_length in Hs; unfold zlen; lia. }
  assert (Et : zlen all = zsum ((fun k => percore_fcnt ((nid_lists n).[k])) <$> zseq 0 (Z.to_nat (nid_list_count n)))).
  { unfold all; rewrite zlen_bind; apply zsum_ext; intros k Hk; apply (new_list_ok n k Hl (Hin k Hk)). }
  unfold sum_up_fcnt; fold (nid_list_count n); rewrite (sum_loop (fun k => percore_fcnt ((nid_lists n).[k]))).
  - rewrite <- Et; unfold zlen; unfold zlen in Hlen; lia.
  - lia.
  - intros k Hk; rewrite (lw_cnt _ _ _ _ (ls_list _ Hl k Hk)); unfold new_cnt; lia.
  - rewrite <- Et; lia.
Qed.

Lemma mem_enough n : lists_wf n -> mem_ok n -> available_free_memory n FREE_NIDS = true.
Proof.
  intros Hl Hm; pose proof (sum_up_fcnt_le n Hl) as Hs; pose proof (ls_top _ Hl) as Ht; unfold mem_ok in Hm.
  unfold available_free_memory; cbv zeta; rewrite Z.eqb_refl; apply Z.ltb_lt; eapply Z.le_lt_trans; [|exact Hm].
  change sizeof_free_nid with 24; unfold u64 at 1; rewrite Z.mod_small by lia.
  change PAGE_CACHE_SHIFT with 12; rewrite !Z.shiftr_div_pow2 by lia; apply Z.div_le_mono; lia.
Qed.

Lemma mem_ok_only n n' : lists_only n n' -> mem_ok n -> mem_ok n'.
Proof. intros [L ->] H; exact H. Qed.

(** ** The journal *)

Definition jnull (n : nm_info) (y : Z) : Prop := exists r, jlook (nat_sum n) y = Some r /\ ne_block_addr r = NULL_ADDR.
Definition jused (n : nm_info) (y : Z) : Prop := exists r, jlook (nat_sum n) y = Some r /\ ne_block_addr r <> NULL_ADDR.

Lemma scan_journal_ok n :
  journal_wf (max_nid n) (nat_sum n) -> lists_wf n ->
  scanned n (scan_journal n) (fun y => jnull n y /\ cached_alloc n y = false) (jused n) /\
  (forall y, jused n y -> fstate (scan_journal n) y <> Some NID_NEW) /\
  (mem_ok n -> forall y, y <> 0 -> jnull n y -> cached_alloc n y = false -> is_Some (fstate (scan_journal n) y)).
Proof.
  intros Hj Hl; pose proof (jw_cnt _ _ Hj) as Hc; unfold scan_journal; cbv zeta; set (sum := nat_sum n) in *; set (c := nats_in_cursum sum) in *.
  set (f := fun i m => _).
  assert (H : (fun j m => scanned n m (fun y => jnull n y /\ cached_alloc n y = false) (jused n) /\
    (forall i, 0 <= i < j -> ne_block_addr (nj_ne ((sb_nat_j sum).[i])) <> NULL_ADDR -> fstate m (nj_nid ((sb_nat_j sum).[i])) <> Some NID_NEW) /\
    (mem_ok n -> forall i, 0 <= i < j -> ne_block_addr (nj_ne ((sb_nat_j sum).[i])) = NULL_ADDR -> nj_nid ((sb_nat_j sum).[i]) <> 0 ->
      cached_alloc n (nj_nid ((sb_nat_j sum).[i])) = false -> is_Some (fstate m (nj_nid ((sb_nat_j sum).[i]))))) c (for_range 0 c f n)).
  { apply for_range_ind; [lia|split; [apply scanned_refl; exact Hl|split; [intros i Hi; lia|intros _ i Hi; lia]]|].
    intros j m Hjr (S1 & S2 & S5); pose proof (sc_wf _ _ _ _ S1) as Hm; pose proof (jw_range _ _ Hj j Hjr) as Hx.
    pose proof (jlook_at (max_nid n) sum j Hj Hjr) as Ej; unfold f; set (x := nj_nid ((sb_nat_j sum).[j])) in *.
    destruct (sc_only _ _ _ _ S1) as [L EL].
    assert (Hx' : 0 <= x < max_nid m) by (rewrite EL; exact Hx).
    assert (Hne : forall i, 0 <= i < j -> nj_nid ((sb_nat_j sum).[i]) <> x) by (intros i Hi E; apply (jw_inj _ _ Hj) in E; lia).
    set (m' := if _ =? NULL_ADDR then _ else _).
    assert (S : scanned m m' (fun y => y = x /\ jnull n x /\ cached_alloc n y = false) (fun y => y = x /\ jused n x) /\
      (ne_block_addr (nj_ne ((sb_nat_j sum).[j])) <> NULL_ADDR -> fstate m' x <> Some NID_NEW) /\
      (mem_ok n -> ne_block_addr (nj_ne ((sb_nat_j sum).[j])) = NULL_ADDR -> x <> 0 -> cached_alloc n x = false -> is_Some (fstate m' x))).
    { unfold m'; destruct (Z.eqb_spec (ne_block_addr (nj_ne ((sb_nat_j sum).[j]))) NULL_ADDR) as [E|E].
      - destruct (add_scanned m x Hm Hx') as [R1 R2]; split; [|split; [contradiction|]].
        2: { intros Hmem _ H0 Hca; apply R2; [|rewrite EL; exact Hca|exact H0]. apply mem_enough; [exact Hm|]; rewrite EL; exact Hmem. }
        eapply scanned_weaken; [| |exact R1]; [|tauto]; intros y _ [-> Hca]; split; [reflexivity|split; [eexists; split; [exact Ej|exact E]|]]; rewrite EL in Hca; exact Hca.
      - destruct (remove_scanned m x Hm Hx') as [R1 R2]; split; [|split; [intros _; exact R2|contradiction]].
        eapply scanned_weaken; [| |exact R1]; [tauto|]; intros y _ <-; split; [reflexivity|eexists; split; [exact Ej|exact E]]. }
    destruct S as (S3 & S4 & S6); split; [|split].
    - eapply scanned_trans; [exact S1|]; eapply scanned_weaken; [| |exact S3]; [intros y _ (-> & H1 & H2); auto|intros y _ [-> H1]; exact H1].
    - intros i Hi Hu; destruct (Z.eq_dec i j) as [->|Hij]; [apply S4; exact Hu|].
      pose proof (jw_range _ _ Hj i ltac:(lia)) as Hxi; destruct (sc_state _ _ _ _ S3 _ ltac:(rewrite EL; exact Hxi)) as [E|[(_ & _ & E & _)|(_ & E & _)]].
      + rewrite E; apply S2; [lia|exact Hu].
      + exfalso; apply (Hne i); [lia|exact E].
      + rewrite E; discriminate.
    - intros Hmem i Hi Hu H0 Hca; destruct (Z.eq_dec i j) as [->|Hij]; [apply S6; auto|].
      pose proof (jw_range _ _ Hj i ltac:(lia)) as Hxi; destruct (S5 Hmem i ltac:(lia) Hu H0 Hca) as [st Hst].
      destruct (sc_state _ _ _ _ S3 _ ltac:(rewrite EL; exact Hxi)) as [E|[(E & _)|(_ & _ & E & _)]].
      + rewrite E, Hst; eauto.
      + congruence.
      + exfalso; apply (Hne i); [lia|exact E]. }
  destruct H as (H1 & H2 & H3); split; [exact H1|].
  assert (Hlk : forall y r, jlook sum y = Some r -> exists i, 0 <= i < c /\ nj_nid ((sb_nat_j sum).[i]) = y /\ nj_ne ((sb_nat_j sum).[i]) = r).
  { intros y r E; unfold jlook in E; destruct (jslot_spec _ _ y Hj) as (B1 & B2 & _); fold sum c in B1, B2, E.
    destruct (Z.ltb_spec (jslot sum y) c) as [Hlt|]; [|discriminate]; injection E as <-; exists (jslot sum y); auto with lia. }
  split.
  - intros y (r & E & Hr); destruct (Hlk y r E) as (i & Hi & <- & <-); apply H2; assumption.
  - intros Hmem y H0 (r & E & Hr) Hca; destruct (Hlk y r E) as (i & Hi & <- & <-); apply H3; assumption.
Qed.

(** ** The pages *)

Lemma add_result x n : (fst (add_free_nid x true n) <? 0) = negb (available_free_memory n FREE_NIDS).
Proof.
  unfold add_free_nid; destruct (available_free_memory n FREE_NIDS); cbn [negb]; [|reflexivity].
  destruct (x =? 0); [reflexivity|]; destruct (true && _); [reflexivity|]; destruct (free_nid_root _ !! x); reflexivity.
Qed.

Lemma scan_loop_ok k page i start n :
  lists_wf n -> page_ok page -> 0 <= i -> i + Z.of_nat k <= NAT_ENTRY_PER_BLOCK -> 0 <= start -> start + Z.of_nat k <= 2 ^ 32 ->
  let n' := scan_nat_loop k page i start n in
  let free := fun y => start <= y < start + Z.of_nat k /\ ne_block_addr (page.[i + (y - start)]) = NULL_ADDR /\ cached_alloc n y = false in
  scanned n n' free (fun _ => False) /\ (mem_ok n -> forall y, 0 < y < max_nid n -> free y -> is_Some (fstate n' y)).
Proof.
  revert i start n; induction k as [|k IH]; intros i start n Hl Hp Hi Hik Hs Hsk; cbv zeta; cbn [scan_nat_loop].
  { split; [apply scanned_refl; exact Hl|]; intros _ y Hy [H _]; lia. }
  destruct (Z.leb_spec (max_nid n) start) as [Hend|Hend].
  { split; [apply scanned_refl; exact Hl|]; intros _ y Hy [H _]; lia. }
  assert (Hnew : ne_block_addr (page.[i]) <> NEW_ADDR).
  { apply (aget_Forall (fun e => ne_block_addr e <> NEW_ADDR) page i (proj2 Hp)); rewrite (proj1 Hp); lia. }
  rewrite (proj2 (Z.eqb_neq _ _) Hnew), bug_off.
  (* one entry, then the rest *)
  assert (Hrest : forall m, lists_only n m -> scanned n m (fun y => y = start /\ ne_block_addr (page.[i]) = NULL_ADDR /\ cached_alloc n y = false) (fun _ => False) ->
    (mem_ok n -> ne_block_addr (page.[i]) = NULL_ADDR -> cached_alloc n start = false -> start <> 0 -> is_Some (fstate m start)) ->
    let n' := scan_nat_loop k page (i + 1) (u32 (start + 1)) m in
    let free := fun y => start <= y < start + Z.of_nat (S k) /\ ne_block_addr (page.[i + (y - start)]) = NULL_ADDR /\ cached_alloc n y = false in
    scanned n n' free (fun _ => False) /\ (mem_ok n -> forall y, 0 < y < max_nid n -> free y -> is_Some (fstate n' y))).
  { intros m [L EL] S1 C1; cbv zeta.
    assert (Eu : k = O \/ u32 (start + 1) = start + 1) by (destruct k; [auto|right; apply u32_small; lia]).
    destruct Eu as [->|Eu].
    - cbn [scan_nat_loop]; split.
      + eapply scanned_weaken; [| |exact S1]; [|tauto]; intros y _ (-> & H1 & H2); rewrite Z.sub_diag, Z.add_0_r; split; [lia|auto].
      + intros Hm y Hy (H1 & H2 & H3); assert (y = start) as -> by lia; rewrite Z.sub_diag, Z.add_0_r in H2; apply C1; auto; lia.
    - rewrite Eu; destruct (IH (i + 1) (start + 1) m (sc_wf _ _ _ _ S1) Hp ltac:(lia) ltac:(lia) ltac:(lia) ltac:(lia)) as [S2 C2].
      assert (Hca : forall y, cached_alloc m y = cached_alloc n y) by (intros y; rewrite EL; reflexivity).
      assert (Hmx : max_nid m = max_nid n) by (rewrite EL; reflexivity).
      split.
      + eapply scanned_trans; (eapply scanned_weaken; [| |eassumption]); try tauto.
        * intros y _ (-> & H1 & H2); rewrite Z.sub_diag, Z.add_0_r; split; [lia|auto].
        * intros y _ (H1 & H2 & H3); rewrite Hca in H3; replace (i + (y - start)) with (i + 1 + (y - (start + 1))) by lia; split; [lia|auto].
      + intros Hm y Hy (H1 & H2 & H3); destruct (Z.eq_dec y start) as [->|Hne].
        * rewrite Z.sub_diag, Z.add_0_r in H2; pose proof (C1 Hm H2 H3 ltac:(lia)) as [st Hst].
          destruct (sc_state _ _ _ _ S2 start ltac:(rewrite Hmx; lia)) as [->|[(E & _)|(_ & _ & [])]]; [eauto|congruence].
        * apply C2; [apply (mem_ok_only n m); [exists L; exact EL|exact Hm]|rewrite Hmx; exact Hy|].
          rewrite Hca; replace (i + 1 + (y - (start + 1))) with (i + (y - start)) by lia; split; [lia|auto]. }
  destruct (Z.eqb_spec (ne_block_addr (page.[i])) NULL_ADDR) as [E|E].
  - destruct (add_scanned n start Hl ltac:(lia)) as [S1 C1].
    pose proof (add_result start n) as Er; destruct (add_free_nid start true n) as [r m]; cbn [fst snd] in *; rewrite Er.
    destruct (available_free_memory n FREE_NIDS) eqn:Em; cbn [negb].
    + apply Hrest; [exact (sc_only _ _ _ _ S1)| |intros _ _ Hc H0; apply C1; auto].
      eapply scanned_weaken; [| |exact S1]; [|tauto]; intros y _ [-> H]; auto.
    + split; [|intros Hm; exfalso; pose proof (mem_enough n Hl Hm); congruence].
      eapply scanned_weaken; [| |exact S1]; [|tauto]; intros y _ [-> H]; rewrite Z.sub_diag, Z.add_0_r; split; [lia|auto].
  - apply Hrest; [apply lists_only_refl|apply scanned_refl; exact Hl|contradiction].
Qed.

Definition page_free (n : nm_info) (y : Z) : Prop := ne_block_addr (page_view n y) = NULL_ADDR /\ cached_alloc n y = false.

Lemma block_pages n x y : nat_geo n -> 0 <= x < max_nid n -> 0 <= y < max_nid n -> NAT_BLOCK_OFFSET y = NAT_BLOCK_OFFSET x ->
  page_view n y = (get_current_nat_page n x).[y mod NAT_ENTRY_PER_BLOCK].
Proof.
  intros Hg Hx Hy E; rewrite page_view_eq by assumption; unfold get_current_nat_page.
  rewrite current_nat_addr_val by assumption; rewrite E; reflexivity.
Qed.

Lemma scan_block_ok n nid :
  nm_wf n -> lists_wf n -> max_nid n mod NAT_ENTRY_PER_BLOCK = 0 -> 0 <= nid < max_nid n ->
  let n' := scan_nat_page (get_current_nat_page n nid) nid n in
  let free := fun y => nid <= y < START_NID nid + NAT_ENTRY_PER_BLOCK /\ page_free n y in
  scanned n n' free (fun _ => False) /\ (mem_ok n -> forall y, 0 < y < max_nid n -> free y -> is_Some (fstate n' y)).
Proof.
  intros Hw Hl Hd Hn; cbv zeta; pose proof (ng_top _ (nw_geo Hw)) as Ht.
  set (page := get_current_nat_page n nid).
  assert (Hp : page_ok page) by (unfold page, get_current_nat_page; apply nat_page_ok; exact (nw_pages Hw)).
  set (i := nid mod NAT_ENTRY_PER_BLOCK); assert (Hi : 0 <= i < 455 /\ START_NID nid = nid - i /\ START_NID nid + 455 <= max_nid n).
  { unfold i, START_NID; change NAT_ENTRY_PER_BLOCK with 455 in *; lia. }
  pose proof (scan_loop_ok (Z.to_nat (NAT_ENTRY_PER_BLOCK - i)) page i nid n Hl Hp ltac:(lia)) as H.
  change NAT_ENTRY_PER_BLOCK with 455 in *; specialize (H ltac:(lia) ltac:(lia) ltac:(lia)); cbv zeta in H.
  assert (Hfree : forall y, 0 <= y < max_nid n -> (nid <= y < nid + Z.of_nat (Z.to_nat (455 - i)) /\ ne_block_addr (page.[i + (y - nid)]) = NULL_ADDR /\ cached_alloc n y = false) <->
    (nid <= y < START_NID nid + 455 /\ page_free n y)).
  { intros y Hy; split.
    - intros (H1 & H2 & H3); split; [lia|split; [|exact H3]].
      assert (Eb : NAT_BLOCK_OFFSET y = NAT_BLOCK_OFFSET nid) by (unfold NAT_BLOCK_OFFSET; change NAT_ENTRY_PER_BLOCK with 455; unfold i in *; lia).
      rewrite (block_pages n nid y (nw_geo Hw) Hn Hy Eb); fold page; replace (y mod NAT_ENTRY_PER_BLOCK) with (i + (y - nid)); [exact H2|].
      unfold NAT_BLOCK_OFFSET in Eb; change NAT_ENTRY_PER_BLOCK with 455 in *; unfold i; lia.
    - intros (H1 & H2 & H3); assert (Eb : NAT_BLOCK_OFFSET y = NAT_BLOCK_OFFSET nid) by (unfold NAT_BLOCK_OFFSET; change NAT_ENTRY_PER_BLOCK with 455; unfold i in *; lia).
      rewrite (block_pages n nid y (nw_geo Hw) Hn Hy Eb) in H2; fold page in H2; replace (y mod NAT_ENTRY_PER_BLOCK) with (i + (y - nid)) in H2; [split; [lia|auto]|].
      unfold NAT_BLOCK_OFFSET in Eb; change NAT_ENTRY_PER_BLOCK with 455 in *; unfold i; lia. }
  destruct H as [H1 H2]; unfold scan_nat_page; fold i; change NAT_ENTRY_PER_BLOCK with 455; split.
  - eapply scanned_weaken; [| |exact H1]; [|tauto]; intros y Hy H; apply Hfree; assumption.
  - intros Hm y Hy H; apply H2; [exact Hm|exact Hy|]; apply Hfree; [lia|exact H].
Qed.

Lemma only_lists_wf n n' : lists_only n n' -> nm_wf n -> nm_wf n'.
Proof. intros [L ->]; apply lists_inv. Qed.

(** The pages from the one of [next_scan_nid] to the last. *)
Lemma scan_pages_ok n m :
  nm_wf n -> lists_wf n -> max_nid n mod NAT_ENTRY_PER_BLOCK = 0 -> NAT_ENTRY_PER_BLOCK < max_nid n -> 0 <= next_scan_nid n < max_nid n -> 0 <= m ->
  let s := next_scan_nid n in
  let '(_, n') := for_range 0 m (fun _ => scan_step) (s, n) in
  scanned n n' (page_free n) (fun _ => False) /\
  (mem_ok n -> forall y, 0 < y < max_nid n -> s <= y < (s / NAT_ENTRY_PER_BLOCK + m) * NAT_ENTRY_PER_BLOCK -> page_free n y -> is_Some (fstate n' y)).
Proof.
  intros Hw Hl Hd Hbig Hs Hm; cbv zeta; set (s := next_scan_nid n) in *; set (b := s / NAT_ENTRY_PER_BLOCK).
  set (I := fun j (st : Z * nm_info) => let '(nid, n') := st in
    scanned n n' (page_free n) (fun _ => False) /\
    (mem_ok n -> forall y, 0 < y < max_nid n -> s <= y < (b + j) * NAT_ENTRY_PER_BLOCK -> page_free n y -> is_Some (fstate n' y)) /\
    0 <= nid < max_nid n /\ (nid = (b + j) * NAT_ENTRY_PER_BLOCK \/ (j = 0 /\ nid = s) \/ max_nid n <= (b + j) * NAT_ENTRY_PER_BLOCK)).
  assert (H : I m (for_range 0 m (fun _ => scan_step) (s, n))).
  2: { destruct (for_range 0 m _ _) as [nid n']; destruct H as (H1 & H2 & _); auto. }
  apply for_range_ind; [exact Hm| |].
  - split; [apply scanned_refl; exact Hl|split; [|split; [exact Hs|auto]]].
    intros _ y Hy H; exfalso; unfold b in H; change NAT_ENTRY_PER_BLOCK with 455 in *; lia.
  - intros j [nid m'] Hj (S1 & C1 & R1 & P1); unfold I, scan_step.
    destruct (sc_only _ _ _ _ S1) as [L EL].
    pose proof (only_lists_wf n m' (sc_only _ _ _ _ S1) Hw) as Hw'.
    assert (Hmx : max_nid m' = max_nid n) by (rewrite EL; reflexivity).
    assert (Hpf : forall y, page_free m' y <-> page_free n y) by (intros y; rewrite EL; reflexivity).
    pose proof (scan_block_ok m' nid Hw' (sc_wf _ _ _ _ S1)) as H; rewrite Hmx in H; specialize (H Hd R1); cbv zeta in H.
    set (m'' := scan_nat_page _ nid m') in *; destruct H as [S2 C2].
    assert (Hmx' : max_nid m'' = max_nid n) by (destruct (sc_only _ _ _ _ S2) as [L' ->]; exact Hmx); rewrite Hmx'.
    pose proof (ng_top _ (nw_geo Hw)) as Ht.
    assert (Hnext : u32 (nid + (NAT_ENTRY_PER_BLOCK - nid mod NAT_ENTRY_PER_BLOCK)) = START_NID nid + NAT_ENTRY_PER_BLOCK /\ START_NID nid + NAT_ENTRY_PER_BLOCK <= max_nid n).
    { unfold START_NID; change NAT_ENTRY_PER_BLOCK with 455 in *; split; [rewrite u32_small by lia; lia|lia]. }
    destruct Hnext as [-> Hnext].
    split; [|split; [|split]].
    + eapply scanned_trans; [exact S1|]; eapply scanned_weaken; [| |exact S2]; [|tauto]; intros y _ [_ H]; apply Hpf; exact H.
    + intros Hmem y Hy Hr Hf; destruct (Z_lt_ge_dec y ((b + j) * NAT_ENTRY_PER_BLOCK)) as [Hlt|Hge].
      * destruct (C1 Hmem y Hy ltac:(lia) Hf) as [st Hst].
        destruct (sc_state _ _ _ _ S2 y ltac:(rewrite Hmx; lia)) as [->|[(E & _)|(_ & _ & [])]]; [eauto|congruence].
      * apply C2; [apply (mem_ok_only n m'); [exists L; exact EL|exact Hmem]|exact Hy|]; split; [|apply Hpf; exact Hf].
        unfold b, START_NID in *; change NAT_ENTRY_PER_BLOCK with 455 in *.
        destruct P1 as [P1|[[-> P1]|P1]]; [|rewrite P1|]; lia.
    + destruct (Z.leb_spec (max_nid n) (START_NID nid + NAT_ENTRY_PER_BLOCK)); [change NAT_ENTRY_PER_BLOCK with 455 in *; lia|].
      unfold START_NID in *; change NAT_ENTRY_PER_BLOCK with 455 in *; lia.
    + destruct (Z.leb_spec (max_nid n) (START_NID nid + NAT_ENTRY_PER_BLOCK)) as [Hle|Hgt].
      * right; right; unfold b, START_NID in *; change NAT_ENTRY_PER_BLOCK with 455 in *; destruct P1 as [P1|[[-> P1]|P1]]; [|rewrite P1 in *|]; lia.
      * unfold b, START_NID in *; change NAT_ENTRY_PER_BLOCK with 455 in *; destruct P1 as [P1|[[-> P1]|P1]].
        { left; lia. } { left; rewrite P1; lia. } { right; right; lia. }
Qed.

Lemma build_all_ok n :
  nm_wf n -> lists_wf n -> max_nid n mod NAT_ENTRY_PER_BLOCK = 0 -> NAT_ENTRY_PER_BLOCK < max_nid n -> 0 <= next_scan_nid n < max_nid n ->
  (forall x, 0 <= x < max_nid n -> fstate n x = None) ->
  let n' := build_all_free_nids n in
  lists_only n n' /\ lists_wf n' /\
  (forall x, 0 <= x < max_nid n -> fstate n' x = None \/
     (fstate n' x = Some NID_NEW /\ ne_block_addr (raw_view n x) = NULL_ADDR /\ cached_alloc n x = false)) /\
  (mem_ok n -> forall x, 0 < x < max_nid n -> next_scan_nid n <= x -> ne_block_addr (raw_view n x) = NULL_ADDR -> cached_alloc n x = false ->
     fstate n' x = Some NID_NEW).
Proof.
  intros Hw Hl Hd Hbig Hs Hnone; cbv zeta; unfold build_all_free_nids; cbv zeta.
  set (start := NAT_BLOCK_OFFSET (next_scan_nid n)); set (blkno := Z.max start (NAT_BLOCK_OFFSET (max_nid n))).
  pose proof (scan_pages_ok n (blkno - start + 1) Hw Hl Hd Hbig Hs ltac:(lia)) as H; cbv zeta in H.
  destruct (for_range 0 (blkno - start + 1) _ _) as [nid m]; destruct H as [S1 C1].
  assert (Hcov : forall y, y < max_nid n -> y < (next_scan_nid n / NAT_ENTRY_PER_BLOCK + (blkno - start + 1)) * NAT_ENTRY_PER_BLOCK).
  { intros y Hy; unfold blkno, start, NAT_BLOCK_OFFSET; change NAT_ENTRY_PER_BLOCK with 455 in *; lia. }
  destruct (sc_only _ _ _ _ S1) as [L EL].
  assert (Hjm : journal_wf (max_nid m) (nat_sum m)) by (rewrite EL; exact (nw_jnl Hw)).
  destruct (scan_journal_ok m Hjm (sc_wf _ _ _ _ S1)) as (S2 & U2 & C2).
  assert (Hmx : max_nid m = max_nid n) by (rewrite EL; reflexivity).
  assert (Hca : forall y, cached_alloc m y = cached_alloc n y) by (intros y; rewrite EL; reflexivity).
  assert (Hjl : forall y, jlook (nat_sum m) y = jlook (nat_sum n) y) by (intros y; rewrite EL; reflexivity).
  split; [eapply lists_only_trans; [exact (sc_only _ _ _ _ S1)|exact (sc_only _ _ _ _ S2)]|split; [exact (sc_wf _ _ _ _ S2)|split]].
  - intros x Hx; pose proof (sc_state _ _ _ _ S1 x Hx) as A; rewrite (Hnone x Hx) in A.
    pose proof (sc_state _ _ _ _ S2 x ltac:(rewrite Hmx; exact Hx)) as B.
    rewrite (raw_view_eq n x (nw_jnl Hw)); destruct (jlook (nat_sum n) x) as [r|] eqn:E.
    + destruct (Z.eq_dec (ne_block_addr r) NULL_ADDR) as [Hr|Hr].
      * destruct B as [B|[(B1 & B2 & B3)|(B1 & B2 & _)]]; [|right; destruct B3 as [_ B3]; rewrite Hca in B3; auto|auto].
        destruct A as [A|[(_ & A2 & A3)|(A1 & _)]]; [left; congruence| |discriminate].
        right; split; [congruence|split; [exact Hr|apply A3]].
      * left; assert (Hu : fstate (scan_journal m) x <> Some NID_NEW) by (apply U2; exists r; rewrite Hjl; auto).
        destruct B as [B|[(B1 & B2 & B3)|(B1 & B2 & _)]]; [|contradiction|exact B2].
        destruct A as [A|[(_ & A2 & A3)|(A1 & _)]]; [congruence|exfalso; apply Hu; congruence|discriminate].
    + destruct B as [B|[(_ & _ & (r & Er & _) & _)|(_ & _ & (r & Er & _))]]; [|rewrite Hjl in Er; congruence|rewrite Hjl in Er; congruence].
      destruct A as [A|[(_ & A2 & A3)|(A1 & _)]]; [left; congruence| |discriminate].
      right; split; [congruence|split; apply A3].
  - intros Hmem x Hx Hsx Hr Hc; rewrite (raw_view_eq n x (nw_jnl Hw)) in Hr.
    assert (HS : is_Some (fstate (scan_journal m) x)).
    { destruct (jlook (nat_sum n) x) as [r|] eqn:E.
      - apply C2; [apply (mem_ok_only n m); [exists L; exact EL|exact Hmem]|lia|exists r; rewrite Hjl; auto|rewrite Hca; exact Hc].
      - destruct (C1 Hmem x Hx ltac:(split; [exact Hsx|apply Hcov; lia]) (conj Hr Hc)) as [st Hst].
        destruct (sc_state _ _ _ _ S2 x ltac:(rewrite Hmx; lia)) as [->|[(_ & -> & _)|(_ & _ & (r & Er & _))]]; [eauto|eauto|rewrite Hjl in Er; congruence]. }
    destruct HS as [st Hst]; rewrite Hst; f_equal.
    pose proof (sc_state _ _ _ _ S1 x ltac:(lia)) as A; rewrite (Hnone x ltac:(lia)) in A; pose proof (sc_state _ _ _ _ S2 x ltac:(rewrite Hmx; lia)) as B.
    destruct B as [B|[(B1 & B2 & B3)|(B1 & B2 & _)]]; [|congruence|congruence].
    destruct A as [A|[(_ & A2 & A3)|(A1 & _)]]; congruence.
Qed.
