(* ===== verification/NatTable.v ===== *)
(** The node address table and the allocation of node ids as one component: an abstract
    specification with the current table, the table of the last checkpoint and the ids
    that are handed out, and the proof that the cache, the journal, the two copies of
    each NAT block and the lists of free ids (src/Max/node.c) refine it. *)

From Stdlib Require Import ZArith Lia Bool.
From stdpp Require Import base numbers list gmap.
From S2P Require Import Prelude Keys Layout Bitops SmState SitFlush Nat FreeNid NidLists NatFlush NatSync NidScan.

#[local] Open Scope Z_scope.
#[local] Ltac Zify.zify_post_hook ::= Z.to_euclidean_division_equations.

(** * The specification *)

(** The address of every node id now and at the last checkpoint, and the ids that an
    operation in progress holds. *)
Record table := mk_table {
  cur : Z -> f2fs_nat_entry;
  ckp : Z -> f2fs_nat_entry;
  pend : Z -> bool;
}.

Definition unused (t : Z -> f2fs_nat_entry) (x : Z) : Prop := ne_block_addr (t x) = NULL_ADDR.

Inductive table_op :=
| OpAlloc (r : option Z)
| OpSettle (x : Z)
| OpSet (x ino addr : Z)
| OpGet (x : Z) (e : f2fs_nat_entry)
| OpQuiet
| OpSync
| OpCrash.

(** An allocated id is used neither now nor at the checkpoint, and nobody else holds it. *)
Definition table_step (top : Z) (o : table_op) (s t : table) : Prop :=
  match o with
  | OpAlloc None | OpQuiet => forall y, 0 <= y < top -> cur t y = cur s y /\ ckp t y = ckp s y /\ pend t y = pend s y
  | OpAlloc (Some x) =>
      0 < x < top /\ unused (cur s) x /\ unused (ckp s) x /\ pend s x = false /\
      forall y, 0 <= y < top -> cur t y = cur s y /\ ckp t y = ckp s y /\ pend t y = (y =? x) || pend s y
  | OpSettle x =>
      pend s x = true /\
      forall y, 0 <= y < top -> cur t y = cur s y /\ ckp t y = ckp s y /\ pend t y = negb (y =? x) && pend s y
  | OpSet x ino addr =>
      0 <= x < top /\
      forall y, 0 <= y < top -> cur t y = (if y =? x then new_address (cur s x) ino addr else cur s y) /\ ckp t y = ckp s y /\ pend t y = pend s y
  | OpGet x e =>
      e = cur s x /\ forall y, 0 <= y < top -> cur t y = cur s y /\ ckp t y = ckp s y /\ pend t y = pend s y
  | OpSync => forall y, 0 <= y < top -> cur t y = cur s y /\ ckp t y = cur s y /\ pend t y = pend s y
  | OpCrash => forall y, 0 <= y < top -> cur t y = ckp s y /\ ckp t y = ckp s y /\ pend t y = false
  end.

Inductive table_run (top : Z) (s : table) : list table_op -> table -> Prop :=
| trun_nil : table_run top s [] s
| trun_snoc os o t u : table_run top s os t -> table_step top o t u -> table_run top s (os ++ [o]) u.

(** * The implementation *)

(** What a mount finds: the superblock's geometry, and the bitmap, journal and blocks
    that were on disk. *)
Record mountable (blkaddr segs next_free cpus : Z) (bitmap : list Z) (sum : f2fs_summary_block)
  (pages : gmap Z (list f2fs_nat_entry)) : Prop := {
  mt_base : 0 <= blkaddr;
  mt_segs : 2 <= segs /\ 455 * (512 * (segs / 2)) < 2 ^ 32 /\ blkaddr + 1024 * (segs / 2 + 2) < 2 ^ 32;
  mt_cpus : 0 < cpus < 2 ^ 16;
  mt_next : 0 <= next_free < 455 * (512 * (segs / 2));
  mt_bits : 512 * (segs / 2) <= 8 * zlen bitmap;
  mt_jnl : journal_wf (455 * (512 * (segs / 2))) sum;
  mt_jold : forall i, 0 <= i < nats_in_cursum sum -> ne_block_addr (nj_ne ((sb_nat_j sum).[i])) <> NEW_ADDR;
  mt_pages : forall a p, pages !! a = Some p -> page_ok p;
}.

(** A crash leaves the blocks as they were, or, in the middle of a flush, some of the
    blocks that the flush writes with any contents. *)
Definition crash_disk (n : nm_info) (disk : gmap Z (list f2fs_nat_entry)) : Prop :=
  disk = nat_pages n \/
  (no_new n /\ (forall a p, disk !! a = Some p -> page_ok p) /\
   forall a, nat_pages (flush_nat_entries_per_core n) !! a = nat_pages n !! a -> disk !! a = nat_pages n !! a).

(** Callers allocate an id before they give it an address, and return it without one. *)
Inductive nm_step (n : nm_info) : table_op -> nm_info -> Prop :=
| nm_alloc fuel valid r n' :
    0 <= next_allocator n -> next_allocator n + Z.of_nat fuel < 2 ^ 31 ->
    alloc_nid fuel valid n = Some (r, n') -> nm_step n (OpAlloc r) n'
| nm_done x :
    0 <= x < max_nid n -> fstate n x = Some NID_ALLOC -> nm_step n (OpSettle x) (alloc_nid_done x n)
| nm_failed x :
    0 <= x < max_nid n -> fstate n x = Some NID_ALLOC -> unused (nat_info n) x -> unused (raw_view n) x ->
    nm_step n (OpSettle x) (alloc_nid_failed x n)
| nm_set ni addr fsync :
    addr_change n ni addr -> (unused (nat_info n) (ni_nid ni) -> fstate n (ni_nid ni) = Some NID_ALLOC) ->
    nm_step n (OpSet (ni_nid ni) (ni_ino ni) addr) (set_node_addr ni addr fsync n)
| nm_get x ni n' :
    0 <= x < max_nid n -> get_node_info x n = (ni, n') -> nm_step n (OpGet x (raw_nat_from_node_info ni)) n'
| nm_shrink nr : nm_step n OpQuiet (snd (try_to_free_nats nr n))
| nm_flush : no_new n -> nm_step n OpSync (flush_nat_entries_per_core n)
| nm_crash disk segs next_free ram cells cpus :
    crash_disk n disk -> mountable (nat_blkaddr n) segs next_free cpus (nat_bitmap n) (nat_sum n) disk ->
    max_nid n = 455 * (512 * (segs / 2)) ->
    nm_step n OpCrash (build_node_manager 9 (nat_blkaddr n) segs next_free ram cells cpus (nat_bitmap n) (nat_sum n) disk).

Inductive nm_run (n : nm_info) : list table_op -> nm_info -> Prop :=
| nrun_nil : nm_run n [] n
| nrun_snoc os o m u : nm_run n os m -> nm_step m o u -> nm_run n (os ++ [o]) u.

Definition abs (n : nm_info) : table :=
  mk_table (nat_info n) (raw_view n) (fun x => bool_decide (fstate n x = Some NID_ALLOC)).

(** Ids that can be allocated are unused, now and at the checkpoint. *)
Definition free_ok (n : nm_info) : Prop :=
  forall x, 0 <= x < max_nid n -> fstate n x = Some NID_NEW -> unused (nat_info n) x /\ unused (raw_view n) x.

Record table_ok (n : nm_info) : Prop := {
  tk_wf : nm_wf n;
  tk_lists : lists_wf n;
  tk_free : free_ok n;
}.

(** * Properties *)

(** ** Allocation *)

Lemma cached_free n y : nm_wf n -> cached_alloc n y = false -> unused (raw_view n) y -> unused (nat_info n) y.
Proof.
  unfold cached_alloc, unused, nat_info; intros Hw; destruct (__lookup_nat_cache n y) as [e|]; [|auto].
  intros H _; apply orb_false_iff in H; destruct H as [_ H]; apply negb_false_iff, Z.eqb_eq in H; exact H.
Qed.

(** The table is the same when only the lists change. *)
Lemma only_same n n' : lists_only n n' ->
  max_nid n' = max_nid n /\ nm_bug n' = nm_bug n /\ (forall x, nat_info n' x = nat_info n x) /\ (forall x, raw_view n' x = raw_view n x).
Proof. intros [L ->]; auto. Qed.

Lemma edited_ok n n' x o :
  table_ok n -> edited n n' x o -> (o = Some NID_NEW -> unused (nat_info n) x /\ unused (raw_view n) x) -> table_ok n'.
Proof.
  intros [W1 W2 W3] [E1 E2 E3] Ho; destruct (only_same n n' E1) as (M & _ & I & R); constructor; [eapply only_lists_wf; eassumption|exact E2|].
  intros y Hy; rewrite M in Hy; rewrite E3 by exact Hy; unfold unused; rewrite I, R; destruct (Z.eqb_spec y x) as [->|]; [exact Ho|apply W3; exact Hy].
Qed.

(** The journal is read again: nothing that is available or held changes. *)
Lemma build_free_ok n : table_ok n ->
  let n' := build_free_nids n in
  table_ok n' /\ lists_only n n' /\
  forall x, 0 <= x < max_nid n -> fstate n' x = fstate n x \/ (fstate n x = None /\ fstate n' x = Some NID_NEW /\ jnull n x).
Proof.
  intros [W1 W2 W3]; cbv zeta; unfold build_free_nids; destruct (scan_journal_ok n (nw_jnl W1) W2) as ([S1 S2 S3] & _ & _).
  destruct (only_same _ _ S1) as (M & _ & I & R).
  assert (Hst : forall x, 0 <= x < max_nid n -> fstate (scan_journal n) x = fstate n x \/
    (fstate n x = None /\ fstate (scan_journal n) x = Some NID_NEW /\ jnull n x /\ cached_alloc n x = false)).
  { intros x Hx; destruct (S3 x Hx) as [H|[(H1 & H2 & H3)|(H1 & _ & (r & Er & Hr))]]; [auto|right; tauto|].
    exfalso; apply Hr; destruct (W3 x Hx H1) as [_ H]; unfold unused in H; rewrite raw_view_eq, Er in H by exact (nw_jnl W1); exact H. }
  split; [constructor|split; [exact S1|]].
  - eapply only_lists_wf; eassumption.
  - exact S2.
  - intros x Hx; rewrite M in Hx; unfold unused; rewrite I, R; intros Hnew; destruct (Hst x Hx) as [E|(_ & _ & (r & Er & Hr) & Hc)]; [apply W3; congruence|].
    assert (Hu : unused (raw_view n) x) by (unfold unused; rewrite raw_view_eq, Er by exact (nw_jnl W1); exact Hr).
    split; [apply cached_free; assumption|exact Hu].
  - intros x Hx; destruct (Hst x Hx) as [E|(H1 & H2 & H3 & _)]; auto.
Qed.

Lemma stepped_ok n : table_ok n -> table_ok (stepped n).
Proof.
  intros [W1 W2 W3]; constructor.
  - destruct W1 as [V1 V2 V3 V4 V5 V6]; constructor; auto; destruct V1; constructor; auto.
  - destruct W2; constructor; assumption.
  - exact W3.
Qed.

(** The states that a failed round leaves behind. *)
Definition round_frame (n n' : nm_info) : Prop :=
  table_ok n' /\ (exists a L, n' = with_next_allocator a (with_nid_lists L n)) /\
  forall x, 0 <= x < max_nid n -> fstate n' x = fstate n x \/ (fstate n x = None /\ fstate n' x = Some NID_NEW).

Lemma round_frame_trans n1 n2 n3 : round_frame n1 n2 -> round_frame n2 n3 -> round_frame n1 n3.
Proof.
  intros (_ & (a1 & L1 & ->) & S1) (T3 & (a2 & L2 & E2) & S2); split; [exact T3|split; [exists a2, L2; rewrite E2; reflexivity|]].
  intros x Hx; specialize (S1 x Hx); specialize (S2 x Hx).
  destruct S1 as [S1|[S1 S1']], S2 as [S2|[S2 S2']]; [left|right; split|right; split|]; congruence.
Qed.

Lemma failed_round_ok n valid n' :
  table_ok n -> 0 <= next_allocator n < 2 ^ 31 - 1 -> alloc_nid_round valid n = (None, n') ->
  ~ list_has_new n (next_list n) /\ next_allocator n' = next_allocator n + 1 /\ round_frame n n'.
Proof.
  intros Hk Ha E; pose proof (alloc_round_ok n valid (tk_lists _ Hk) Ha) as H.
  destruct (_ <? valid); [congruence|]; destruct H as [(x & m & H & _)|[H1 H2]]; [congruence|].
  rewrite H2 in E; injection E as <-; destruct (build_free_ok (stepped n) (stepped_ok n Hk)) as (B1 & [L B2] & B3).
  split; [exact H1|split; [rewrite B2; reflexivity|split; [exact B1|split]]].
  - exists (next_allocator n + 1), L; rewrite B2; reflexivity.
  - intros x Hx; destruct (B3 x Hx) as [E|(E1 & E2 & _)]; auto.
Qed.

(** An allocation takes an available id and nothing else. *)
Lemma alloc_nid_ok fuel valid n r n' :
  table_ok n -> 0 <= next_allocator n -> next_allocator n + Z.of_nat fuel < 2 ^ 31 -> alloc_nid fuel valid n = Some (r, n') ->
  exists m, round_frame n m /\
    match r with
    | None => n' = m
    | Some x => 0 < x < max_nid n /\ fstate m x = Some NID_NEW /\ edited (stepped m) n' x (Some NID_ALLOC)
    end.
Proof.
  revert n; induction fuel as [|fuel IH]; intros n Hk Ha Hb E; cbn [alloc_nid] in E; [discriminate|].
  destruct (alloc_nid_round valid n) as [[r1|] n1] eqn:E1.
  - injection E as -> ->; exists n; split; [split; [exact Hk|split; [exists (next_allocator n), (nid_lists n); destruct n; reflexivity|auto]]|].
    pose proof (alloc_round_ok n valid (tk_lists _ Hk) ltac:(lia)) as H; rewrite E1 in H; destruct (_ <? valid); [injection H as -> ->; reflexivity|].
    destruct H as [(x & m & H & H1 & _ & H2 & H3)|[_ H]]; [injection H as -> ->; auto|discriminate].
  - destruct (failed_round_ok n valid n1 Hk ltac:(lia) E1) as (_ & A1 & F1); destruct (F1) as (T1 & (a & L & EL) & _).
    destruct (IH n1 T1 ltac:(lia) ltac:(lia) E) as (m & F2 & H); exists m; split; [eapply round_frame_trans; eassumption|].
    destruct r; [|exact H]; replace (max_nid n1) with (max_nid n) in H by (rewrite EL; reflexivity); exact H.
Qed.

(** ** Mounting *)

Lemma raw_view_fields n m x :
  nm_log_bps m = nm_log_bps n -> nat_blkaddr m = nat_blkaddr n -> nat_bitmap m = nat_bitmap n -> nat_sum m = nat_sum n -> nat_pages m = nat_pages n ->
  raw_view m x = raw_view n x.
Proof.
  intros E1 E2 E3 E4 E5; unfold raw_view, get_current_nat_page, nat_page, current_nat_addr, nm_blocks_per_seg.
  rewrite E1, E2, E3, E4, E5; reflexivity.
Qed.

Section Mount.
Variables (blkaddr segs next_free ram cells cpus : Z) (bitmap : list Z) (sum : f2fs_summary_block) (pages : gmap Z (list f2fs_nat_entry)).
Hypothesis Hm : mountable blkaddr segs next_free cpus bitmap sum pages.

Let n0 := init_node_manager 9 blkaddr segs next_free ram cells cpus bitmap sum pages.
Let top := 455 * (512 * (segs / 2)).

Lemma mount_top : max_nid n0 = top.
Proof.
  destruct (mt_segs _ _ _ _ _ _ _ Hm) as (H1 & H2 & _); unfold n0, init_node_manager; cbn [max_nid].
  rewrite Z.shiftr_div_pow2, Z.shiftl_mul_pow2 by lia; change (2 ^ 1) with 2; change (2 ^ 9) with 512.
  rewrite (u32_small (segs / 2 * 512)) by lia; change NAT_ENTRY_PER_BLOCK with 455; rewrite u32_small by lia; unfold top; lia.
Qed.

Lemma mount_trees : 0 < nat_tree_cnt n0 /\ forall i, 0 <= i < nat_tree_cnt n0 -> (nat_trees n0).[i] = mk_tree ∅ [] ∅ 0 0.
Proof.
  pose proof (mt_cpus _ _ _ _ _ _ _ Hm) as Hc; unfold nat_tree_cnt, n0, init_node_manager; cbn [nat_trees].
  set (c := if 0 <? cells then cells else cpus); assert (0 < c) by (unfold c; destruct (Z.ltb_spec 0 cells); lia).
  unfold zlen; rewrite length_replicate; split; [lia|]; intros i Hi; apply aget_replicate; unfold zlen in *; lia.
Qed.

Lemma mount_cache x : __lookup_nat_cache n0 x = None.
Proof.
  destruct mount_trees as [H1 H2]; unfold __lookup_nat_cache, tree_of, TREE_IDX.
  rewrite H2 by (apply Z.mod_pos_bound; exact H1); apply lookup_empty.
Qed.

Lemma mount_geo : nat_geo n0.
Proof.
  pose proof mount_top as Et; destruct (mt_segs _ _ _ _ _ _ _ Hm) as (H1 & H2 & H3); pose proof (mt_bits _ _ _ _ _ _ _ Hm) as Hb.
  constructor; rewrite ?Et.
  - reflexivity.
  - apply mount_trees.
  - unfold top; lia.
  - unfold n0, init_node_manager; cbn [nat_bitmap]; change NAT_ENTRY_PER_BLOCK with 455; unfold top; lia.
  - exact (mt_base _ _ _ _ _ _ _ Hm).
  - unfold n0, init_node_manager; cbn [nat_blkaddr]; change NAT_ENTRY_PER_BLOCK with 455; unfold top.
    assert (455 * (512 * (segs / 2)) / 455 / 512 = segs / 2) by lia; lia.
Qed.

Lemma nat_mount_wf : nm_wf n0.
Proof.
  pose proof mount_geo as Hg; pose proof mount_top as Et.
  assert (Hj : journal_wf (max_nid n0) (nat_sum n0)) by (rewrite Et; exact (mt_jnl _ _ _ _ _ _ _ Hm)).
  constructor; auto.
  - intros i Hi; rewrite (proj2 mount_trees i Hi); apply tree_empty.
  - exact (mt_pages _ _ _ _ _ _ _ Hm).
  - intros x Hx; rewrite raw_view_eq by exact Hj; destruct (jlook (nat_sum n0) x) as [r|] eqn:E.
    + unfold jlook in E; destruct (jslot_spec _ _ x Hj) as (B1 & _); destruct (Z.ltb_spec (jslot (nat_sum n0) x) (nats_in_cursum (nat_sum n0))); [|discriminate].
      injection E as <-; apply (mt_jold _ _ _ _ _ _ _ Hm); change sum with (nat_sum n0); lia.
    + rewrite page_view_eq by assumption.
      destruct (nat_page_ok n0 (nat_addr n0 (NAT_BLOCK_OFFSET x) (nat_bit n0 (NAT_BLOCK_OFFSET x))) (mt_pages _ _ _ _ _ _ _ Hm)) as [Q1 Q2].
      apply (aget_Forall (fun e => ne_block_addr e <> NEW_ADDR) _ _ Q2); rewrite Q1; change NAT_ENTRY_PER_BLOCK with 455; lia.
  - intros x e _ He; rewrite mount_cache in He; discriminate.
Qed.

Lemma mount_lists : lists_wf n0 /\ forall x, 0 <= x < max_nid n0 -> fstate n0 x = None.
Proof.
  pose proof (mt_cpus _ _ _ _ _ _ _ Hm) as Hc; pose proof mount_top as Et; destruct (mt_segs _ _ _ _ _ _ _ Hm) as (H1 & H2 & _).
  assert (Ec : nid_list_count n0 = cpus) by (unfold nid_list_count, n0, init_node_manager, zlen; cbn [nid_lists]; rewrite length_replicate; lia).
  assert (El : forall k, 0 <= k < cpus -> (nid_lists n0).[k] = mk_nid_list ∅ [] 0).
  { intros k Hk; unfold n0, init_node_manager; cbn [nid_lists]; apply aget_replicate; unfold zlen; lia. }
  assert (Ek : nid_chunk n0 = u32 (top + 1) / cpus + 1).
  { rewrite <- Et; reflexivity. }
  assert (Hk : 0 < nid_chunk n0 /\ forall x, 0 <= x < top -> x / nid_chunk n0 < cpus).
  { rewrite Ek; set (q := u32 (top + 1) / cpus).
    assert (Hu : u32 (top + 1) = top + 1) by (apply u32_small; unfold top; lia).
    assert (Hq : 0 <= q /\ cpus * q <= top + 1 < cpus * q + cpus) by (unfold q; rewrite Hu; unfold top; split; [apply Z.div_pos; lia|pose proof (Z.mul_div_le (455 * (512 * (segs / 2)) + 1) cpus); pose proof (Z.mul_succ_div_gt (455 * (512 * (segs / 2)) + 1) cpus); lia]).
    clearbody q; split; [lia|]; intros x Hx; apply Z.div_lt_upper_bound; [lia|nia]. }
  split.
  - constructor; rewrite ?Ec, ?Et.
    + unfold top; lia.
    + apply Hk.
    + apply Hk.
    + lia.
    + intros k Hk'; rewrite El by exact Hk'; apply list_empty_wf.
  - intros x Hx; rewrite Et in Hx; unfold fstate, list_of, LIST_IDX; rewrite El; [apply lookup_empty|].
    split; [apply Z.div_pos; lia|apply Hk; exact Hx].
Qed.

Lemma mount_ok :
  let n := build_node_manager 9 blkaddr segs next_free ram cells cpus bitmap sum pages in
  table_ok n /\ max_nid n = top /\ nm_bug n = false /\
  (forall x, nat_info n x = raw_view n0 x /\ raw_view n x = raw_view n0 x) /\
  (forall x, 0 <= x < top -> fstate n x = None \/ (fstate n x = Some NID_NEW /\ unused (raw_view n0) x)) /\
  (mem_ok n0 -> forall x, 0 < x < top -> next_free <= x -> unused (raw_view n0) x -> fstate n x = Some NID_NEW).
Proof.
  cbv zeta; unfold build_node_manager; fold n0; pose proof mount_top as Et; destruct mount_lists as [Hl Hnone].
  destruct (mt_segs _ _ _ _ _ _ _ Hm) as (H1 & H2 & _).
  destruct (build_all_ok n0 nat_mount_wf Hl) as (B1 & B2 & B3 & B4); auto.
  { rewrite Et; unfold top; change NAT_ENTRY_PER_BLOCK with 455; lia. }
  { rewrite Et; unfold top; change NAT_ENTRY_PER_BLOCK with 455; lia. }
  { rewrite Et; exact (mt_next _ _ _ _ _ _ _ Hm). }
  destruct (only_same _ _ B1) as (M & Bg & I & R); rewrite Et in *.
  assert (Hinfo : forall x, nat_info n0 x = raw_view n0 x) by (intros x; unfold nat_info; rewrite mount_cache; reflexivity).
  assert (Hca : forall x, cached_alloc n0 x = false) by (intros x; unfold cached_alloc; rewrite mount_cache; reflexivity).
  split; [constructor; [eapply only_lists_wf; [exact B1|exact nat_mount_wf]|exact B2|]|].
  - intros x Hx Hs; rewrite M in Hx; unfold unused; rewrite I, R, Hinfo; destruct (B3 x Hx) as [E|(_ & E & _)]; [congruence|auto].
  - split; [exact M|split; [rewrite Bg; reflexivity|split; [|split]]].
    + intros x; rewrite I, R, Hinfo; auto.
    + intros x Hx; destruct (B3 x Hx) as [E|(E1 & E2 & _)]; auto.
    + intros Hmem x Hx Hs Hu; apply B4; auto.
Qed.
End Mount.

(** ** The steps *)

Definition step_ok (n : nm_info) (o : table_op) (m : nm_info) : Prop :=
  table_ok m /\ max_nid m = max_nid n /\ (nm_bug n = false -> nm_bug m = false) /\ table_step (max_nid n) o (abs n) (abs m).

Lemma pend_new n y : fstate n y = Some NID_NEW -> bool_decide (fstate n y = Some NID_ALLOC) = false.
Proof. intros ->; reflexivity. Qed.

Lemma same_pend n m y : fstate m y = fstate n y \/ (fstate n y = None /\ fstate m y = Some NID_NEW) ->
  bool_decide (fstate m y = Some NID_ALLOC) = bool_decide (fstate n y = Some NID_ALLOC).
Proof. intros [->|[-> ->]]; reflexivity. Qed.

Lemma alloc_step_ok n fuel valid r n' :
  table_ok n -> 0 <= next_allocator n -> next_allocator n + Z.of_nat fuel < 2 ^ 31 ->
  alloc_nid fuel valid n = Some (r, n') -> step_ok n (OpAlloc r) n'.
Proof.
  intros Hk Ha Hb E; destruct (alloc_nid_ok fuel valid n r n' Hk Ha Hb E) as (m & (T & (a & L & Em) & S) & H).
  assert (Hsame : max_nid m = max_nid n /\ nm_bug m = nm_bug n /\ (forall y, nat_info m y = nat_info n y) /\ (forall y, raw_view m y = raw_view n y)) by (rewrite Em; auto).
  destruct Hsame as (M & B & I & R); destruct r as [x|].
  - destruct H as (Hx & Hnew & He); destruct (tk_free _ T x ltac:(rewrite M; lia) Hnew) as [U1 U2].
    destruct (only_same _ _ (ed_only _ _ _ _ He)) as (M' & B' & I' & R').
    split; [eapply edited_ok; [apply stepped_ok; exact T|exact He|discriminate]|split; [rewrite M'; exact M|split; [intros Hf; rewrite B'; change (nm_bug (stepped m)) with (nm_bug m); congruence|]]].
    split; [exact Hx|split; [|split; [|split]]].
    + unfold unused in *; cbn [abs cur]; rewrite <- I; exact U1.
    + unfold unused in *; cbn [abs ckp]; rewrite <- R; exact U2.
    + cbn [abs pend]; destruct (S x ltac:(lia)) as [E'|[E' _]]; [apply pend_new; congruence|rewrite E'; reflexivity].
    + intros y Hy; cbn [abs cur ckp pend]; rewrite I', R'; split; [apply I|split; [apply R|]].
      rewrite (ed_state _ _ _ _ He) by (change (max_nid (stepped m)) with (max_nid m); rewrite M; exact Hy).
      destruct (Z.eqb_spec y x) as [->|]; cbn [orb]; [apply bool_decide_eq_true; reflexivity|apply (same_pend n m y (S y Hy))].
  - subst n'; split; [exact T|split; [exact M|split; [congruence|]]].
    intros y Hy; cbn [abs cur ckp pend]; split; [apply I|split; [apply R|apply (same_pend n m y (S y Hy))]].
Qed.

Lemma settle_step_ok n n' x o :
  table_ok n -> 0 <= x < max_nid n -> fstate n x = Some NID_ALLOC -> edited n n' x o -> o <> Some NID_ALLOC ->
  (o = Some NID_NEW -> unused (nat_info n) x /\ unused (raw_view n) x) -> step_ok n (OpSettle x) n'.
Proof.
  intros Hk Hx Ha He Ho Hu; destruct (only_same _ _ (ed_only _ _ _ _ He)) as (M & B & I & R).
  split; [eapply edited_ok; eassumption|split; [exact M|split; [congruence|split; [cbn [abs pend]; apply bool_decide_eq_true; exact Ha|]]]].
  intros y Hy; cbn [abs cur ckp pend]; split; [apply I|split; [apply R|]]; rewrite (ed_state _ _ _ _ He) by exact Hy.
  destruct (Z.eqb_spec y x) as [->|]; cbn [negb andb]; [apply bool_decide_eq_false; exact Ho|reflexivity].
Qed.

(** Operations on the cache alone. *)
Lemma cache_lists n m T : m = with_trees T n -> (lists_wf n -> lists_wf m) /\ (forall y, fstate m y = fstate n y) /\
  (forall y, raw_view m y = raw_view n y) /\ max_nid m = max_nid n /\ nm_bug m = nm_bug n.
Proof. intros ->; split; [intros []; constructor; assumption|auto]. Qed.

Lemma same_table_step n m : table_ok n -> same_table n m ->
  table_ok m /\ max_nid m = max_nid n /\ (nm_bug n = false -> nm_bug m = false) /\
  forall y, 0 <= y < max_nid n -> cur (abs m) y = cur (abs n) y /\ ckp (abs m) y = ckp (abs n) y /\ pend (abs m) y = pend (abs n) y.
Proof.
  intros [W1 W2 W3] [[T E] C W I D]; destruct (cache_lists n m T E) as (L & F & R & M & B).
  split; [constructor; auto|split; [exact M|split; [congruence|]]].
  - intros x Hx; rewrite M in Hx; rewrite F; unfold unused; rewrite I, R; apply W3; exact Hx.
  - intros y Hy; cbn [abs cur ckp pend]; rewrite I, R, F; auto.
Qed.

Lemma set_step_ok n ni addr fsync :
  table_ok n -> addr_change n ni addr -> (unused (nat_info n) (ni_nid ni) -> fstate n (ni_nid ni) = Some NID_ALLOC) ->
  step_ok n (OpSet (ni_nid ni) (ni_ino ni) addr) (set_node_addr ni addr fsync n).
Proof.
  intros [W1 W2 W3] Hc Hu; destruct (set_node_addr_ok n ni addr fsync W1 Hc) as (S1 & [T S2] & S3 & S4 & _).
  destruct (cache_lists n _ T S2) as (L & F & R & M & B); set (m := set_node_addr ni addr fsync n) in *.
  split; [constructor; auto|split; [exact M|split; [congruence|split; [exact (ac_nid _ _ _ Hc)|]]]].
  - intros x Hx Hs; rewrite M in Hx; rewrite F in Hs; destruct (W3 x Hx Hs) as [U1 U2]; unfold unused; rewrite R, S4; split; [|exact U2].
    destruct (Z.eqb_spec x (ni_nid ni)) as [->|]; [|exact U1]; exfalso; specialize (Hu U1); rewrite Hu in Hs; discriminate.
  - intros y Hy; cbn [abs cur ckp pend]; rewrite S4, R, F; auto.
Qed.

Lemma flush_step_ok n : table_ok n -> no_new n -> step_ok n OpSync (flush_nat_entries_per_core n).
Proof.
  intros [W1 W2 W3] Hn; destruct (flush_nat_ok n W1 Hn) as [F C _ _]; set (m := flush_nat_entries_per_core n) in *.
  destruct (ff_lists _ _ F W2) as [L S]; pose proof (ff_top _ _ F) as M.
  assert (R : forall y, 0 <= y < max_nid n -> raw_view m y = nat_info n y).
  { intros y Hy; rewrite <- (ff_info _ _ F y Hy); symmetry; apply clean_info; [exact (ff_wf _ _ F)|apply C]. }
  split; [constructor; [exact (ff_wf _ _ F)|exact L|]|split; [exact M|split; [rewrite (ff_bug _ _ F); auto|]]].
  - intros x Hx Hs; rewrite M in Hx; unfold unused; rewrite R, (ff_info _ _ F) by exact Hx.
    destruct (S x Hx) as [E|(_ & _ & E)]; [|auto]; rewrite E in Hs; destruct (W3 x Hx Hs); auto.
  - intros y Hy; cbn [abs cur ckp pend]; split; [apply (ff_info _ _ F); exact Hy|split; [apply R; exact Hy|]].
    apply same_pend; destruct (S y Hy) as [E|(E1 & E2 & _)]; auto.
Qed.

Lemma crash_view n disk x : nm_wf n -> crash_disk n disk -> 0 <= x < max_nid n -> raw_view (on_disk n disk) x = raw_view n x.
Proof.
  intros Hw [->|(Hn & _ & Hd)] Hx; [destruct n; reflexivity|]; apply old_view; [exact Hw|exact Hx|].
  intros k Hk; apply Hd; apply (fd_old _ _ (flush_nat_ok n Hw Hn)); exact Hk.
Qed.

Lemma nm_step_ok n o m : table_ok n -> nm_step n o m -> step_ok n o m.
Proof.
  intros Hk Hs; destruct Hs as [fuel valid r n' Ha Hb E|x Hx Hf|x Hx Hf Hu1 Hu2|ni addr fsync Hc Hu|x ni n' Hx E|nr|Hn|disk segs next_free ram cells cpus Hd Hm Et].
  - eapply alloc_step_ok; eassumption.
  - destruct (state_key n x _ (tk_lists _ Hk) Hx Hf) as [Hx1 _].
    eapply settle_step_ok; [exact Hk|exact Hx|exact Hf|apply alloc_done_ok; auto; apply Hk|discriminate|discriminate].
  - destruct (state_key n x _ (tk_lists _ Hk) Hx Hf) as [Hx1 _].
    eapply settle_step_ok; [exact Hk|exact Hx|exact Hf|apply alloc_failed_ok; auto; apply Hk| |auto].
    destruct (available_free_memory n FREE_NIDS); discriminate.
  - apply set_step_ok; assumption.
  - pose proof (get_node_info_ok n x (tk_wf _ Hk) Hx) as H; rewrite E in H; destruct H as (_ & H1 & H2).
    destruct (same_table_step n n' Hk H2) as (A1 & A2 & A3 & A4); split; [exact A1|split; [exact A2|split; [exact A3|split; [exact H1|exact A4]]]].
  - destruct (same_table_step n _ Hk (try_to_free_nats_ok n nr (tk_wf _ Hk))) as (A1 & A2 & A3 & A4).
    split; [exact A1|split; [exact A2|split; [exact A3|exact A4]]].
  - apply flush_step_ok; assumption.
  - destruct (mount_ok _ _ _ ram cells _ _ _ _ Hm) as (M1 & M2 & M3 & M4 & M5 & _); rewrite <- Et in *.
    split; [exact M1|split; [exact M2|split; [auto|]]]; intros y Hy; cbn [abs cur ckp pend]; destruct (M4 y) as [-> ->].
    rewrite (raw_view_fields (on_disk n disk)) by (try reflexivity; symmetry; apply (ng_log _ (nw_geo (tk_wf _ Hk)))).
    rewrite (crash_view n disk y (tk_wf _ Hk) Hd Hy); split; [reflexivity|split; [reflexivity|]].
    apply bool_decide_eq_false; destruct (M5 y Hy) as [->|[-> _]]; discriminate.
Qed.

Lemma nm_run_ok n os m :
  table_ok n -> nm_run n os m ->
  table_run (max_nid n) (abs n) os (abs m) /\ table_ok m /\ max_nid m = max_nid n /\ (nm_bug n = false -> nm_bug m = false).
Proof.
  intros Hk H; induction H as [|os o m u H (IH1 & IH2 & IH3 & IH4) Hs]; [split; [constructor|auto]|].
  destruct (nm_step_ok m o u IH2 Hs) as (A1 & A2 & A3 & A4); rewrite IH3 in *.
  split; [econstructor; eassumption|split; [exact A1|split; [exact A2|auto]]].
Qed.

(** C2: The node manager refines the table specification.  Along every sequence of id
    allocations, address changes and reads, cache shrinks, checkpoint flushes and
    crashes (also in the middle of a flush, with any mixture of old, new and torn
    contents in the blocks the flush writes), the specification can make the same
    steps: a read returns the address set last, an allocated id is used neither now nor
    in the last checkpoint and held by nobody else, a checkpoint makes the current
    addresses durable, and a crash brings exactly those back.  The invariant holds
    again and no consistency check fails. *)
Theorem node_table_refinement n os m :
  table_ok n -> nm_run n os m ->
  table_run (max_nid n) (abs n) os (abs m) /\ table_ok m /\ max_nid m = max_nid n /\ (nm_bug n = false -> nm_bug m = false).
Proof. apply nm_run_ok. Qed.

(** ** Progress *)

Lemma count_add x b n : nid_list_count (snd (add_free_nid x b n)) = nid_list_count n.
Proof.
  unfold add_free_nid; destruct (negb _); [reflexivity|]; destruct (x =? 0); [reflexivity|]; destruct (b && _); [reflexivity|].
  destruct (free_nid_root _ !! x); [reflexivity|]; unfold nid_list_count, set_list; cbn [snd nid_lists with_nid_lists]; apply zlen_aset.
Qed.

Lemma count_remove x n : nid_list_count (remove_free_nid x n) = nid_list_count n.
Proof.
  unfold remove_free_nid; destruct (__lookup_free_nid_list n x); [|reflexivity]; destruct (_ =? NID_NEW); [|reflexivity].
  unfold add_fcnt, __del_from_free_nid_list, set_list, nid_list_count; cbn [nid_lists with_nid_lists]; rewrite !zlen_aset; reflexivity.
Qed.

Lemma count_scan n : nid_list_count (build_free_nids n) = nid_list_count n.
Proof.
  unfold build_free_nids, scan_journal; cbv zeta; apply (for_range_inv (fun m => nid_list_count m = nid_list_count n)); [reflexivity|].
  intros i m _ E; destruct (_ =? NULL_ADDR); [rewrite count_add|rewrite count_remove]; exact E.
Qed.

Lemma alloc_reaches d n valid x :
  table_ok n -> 0 <= x < max_nid n -> fstate n x = Some NID_NEW -> 0 <= next_allocator n -> next_allocator n + Z.of_nat d + 1 < 2 ^ 31 ->
  (u32 (available_nids n - 1) <? valid) = false -> LIST_IDX x n = (next_allocator n + 1 + Z.of_nat d) mod nid_list_count n ->
  exists y n', alloc_nid (S d) valid n = Some (Some y, n').
Proof.
  revert n; induction d as [|d IH]; intros n Hk Hx Hs Ha Hb Hv Hi; cbn [alloc_nid];
    pose proof (alloc_round_ok n valid (tk_lists _ Hk) ltac:(lia)) as H; rewrite Hv in H;
    destruct H as [(y & n' & -> & _)|[H1 H2]]; [eauto| |eauto|].
  - exfalso; apply H1; exists x; split; [exact Hx|split; [|exact Hs]]; rewrite Hi; unfold next_list; f_equal; lia.
  - destruct (failed_round_ok n valid _ Hk ltac:(lia) H2) as (_ & A & T & (a & L & EL) & S); rewrite H2.
    set (m := build_free_nids (stepped n)) in *.
    assert (Ec : nid_list_count m = nid_list_count n) by (unfold m; rewrite count_scan; reflexivity).
    apply (IH m T).
    + rewrite EL; exact Hx.
    + destruct (S x Hx) as [E|[E _]]; congruence.
    + lia.
    + lia.
    + rewrite EL; exact Hv.
    + rewrite Ec, A; change (LIST_IDX x m) with (x / nid_chunk m); rewrite EL; change (x / _) with (LIST_IDX x n); rewrite Hi; f_equal; lia.
Qed.

(** C35: An allocation succeeds within one round over the lists when some list holds an
    available id and the node count is below the limit. *)
Theorem alloc_nid_progress n valid x :
  table_ok n -> 0 <= x < max_nid n -> fstate n x = Some NID_NEW ->
  0 <= next_allocator n -> next_allocator n + nid_list_count n < 2 ^ 31 -> (u32 (available_nids n - 1) <? valid) = false ->
  exists d y n', Z.of_nat d <= nid_list_count n /\ alloc_nid d valid n = Some (Some y, n') /\ unused (nat_info n) y /\ unused (raw_view n) y.
Proof.
  intros Hk Hx Hs Ha Hb Hv; pose proof (ls_some _ (tk_lists _ Hk)) as Hc; pose proof (list_idx_range n x (tk_lists _ Hk) Hx) as Hi.
  set (c := nid_list_count n) in *; set (d := (LIST_IDX x n - (next_allocator n + 1)) mod c).
  assert (Hd : 0 <= d < c) by (apply Z.mod_pos_bound; exact Hc).
  assert (Hm : LIST_IDX x n = (next_allocator n + 1 + d) mod c).
  { unfold d; rewrite Zplus_mod_idemp_r; replace (next_allocator n + 1 + (LIST_IDX x n - (next_allocator n + 1))) with (LIST_IDX x n) by lia.
    symmetry; apply Z.mod_small; exact Hi. }
  destruct (alloc_reaches (Z.to_nat d) n valid x Hk Hx Hs Ha) as (y & n' & E); [lia|exact Hv|rewrite Z2Nat.id by lia; exact Hm|].
  exists (S (Z.to_nat d)), y, n'; split; [lia|split; [exact E|]].
  destruct (alloc_step_ok n (S (Z.to_nat d)) valid _ n' Hk Ha ltac:(lia) E) as (_ & _ & _ & _ & U1 & U2 & _); auto.
Qed.

(** Nothing to allocate, and nothing in the journal that could become available. *)
Definition starved (n : nm_info) : Prop :=
  forall x, 0 <= x < max_nid n -> fstate n x <> Some NID_NEW /\ ~ jnull n x.


(** C34: A mount makes exactly the unused ids from [next_free_nid] on available, when
    memory suffices: each can be allocated, and no id that has an address in the journal
    or the current copy of its NAT block. *)
Theorem mount_finds_free_ids blkaddr segs next_free ram cells cpus bitmap sum pages x :
  mountable blkaddr segs next_free cpus bitmap sum pages ->
  let n0 := init_node_manager 9 blkaddr segs next_free ram cells cpus bitmap sum pages in
  let n := build_node_manager 9 blkaddr segs next_free ram cells cpus bitmap sum pages in
  mem_ok n0 -> 0 < x < max_nid n0 -> next_free <= x ->
  table_ok n /\ (fstate n x = Some NID_NEW <-> unused (raw_view n) x) /\ raw_view n x = raw_view n0 x.
Proof.
  intros Hm n0 n Hmem Hx Hn; destruct (mount_ok _ _ _ ram cells _ _ _ _ Hm) as (M1 & M2 & M3 & M4 & M5 & M6); fold n n0 in M1, M4, M5, M6.
  unfold n0 in Hx; rewrite (mount_top _ _ _ ram cells _ _ _ _ Hm) in Hx; destruct (M4 x) as [_ E].
  split; [exact M1|split; [|exact E]]; unfold unused; rewrite E; split; [|intros Hu; apply M6; auto].
  intros Hf; destruct (M5 x ltac:(lia)) as [H|[_ H]]; [congruence|exact H].
Qed.

(** * Examples *)

Definition sum_ex : f2fs_summary_block :=
  mk_sum_block [] 0 (replicate (Z.to_nat NAT_JOURNAL_ENTRIES) inhabitant) [] 0.

(** A NAT of one pair of segments with all ids unused, and memory for some of them. *)
Definition nm_ex : nm_info := build_node_manager 9 1000 2 455 40 0 2 (replicate 64 0) sum_ex ∅.

Lemma mountable_ex disk : (forall a p, disk !! a = Some p -> page_ok p) -> mountable 1000 2 455 2 (replicate 64 0) sum_ex disk.
Proof.
  intros Hd; assert (E : nats_in_cursum sum_ex = 0) by reflexivity.
  constructor; rewrite ?E; auto; try (intros; lia); try (vm_compute; repeat split; congruence).
  constructor; rewrite ?E; try (intros; lia); try reflexivity; vm_compute; split; congruence.
Qed.

Lemma mountable_again n : nm_wf n -> max_nid n = 232960 -> nat_blkaddr n = 1000 -> nat_bitmap n = replicate 64 0 ->
  (forall i, 0 <= i < nats_in_cursum (nat_sum n) -> ne_block_addr (nj_ne ((sb_nat_j (nat_sum n)).[i])) <> NEW_ADDR) ->
  mountable (nat_blkaddr n) 2 455 2 (nat_bitmap n) (nat_sum n) (nat_pages n).
Proof.
  intros W Hm Hb Hbits Hj; destruct (mountable_ex (nat_pages n) (nw_pages W)) as [T1 T2 T3 T4 T5 T6 T7 T8]; rewrite Hb, Hbits; constructor; try assumption.
  change (455 * (512 * (2 / 2))) with 232960; rewrite <- Hm; exact (nw_jnl W).
Qed.

Lemma nm_ex_ok : table_ok nm_ex /\ max_nid nm_ex = 232960 /\ nm_bug nm_ex = false.
Proof.
  destruct (mount_ok _ _ _ 40 0 _ _ _ _ (mountable_ex ∅ ltac:(intros a p H; rewrite lookup_empty in H; discriminate))) as (H1 & H2 & H3 & _).
  unfold nm_ex; split; [exact H1|split; [exact H2|exact H3]].
Qed.

Definition ex_alloc : nm_info := match alloc_nid 2 0 nm_ex with Some (_, n) => n | None => nm_ex end.
Definition ex_new : nm_info := set_node_addr (mk_ni 455 455 0 0 0) NEW_ADDR false ex_alloc.
Definition ex_written : nm_info := set_node_addr (mk_ni 455 455 NEW_ADDR 0 0) 5000 false ex_new.
Definition ex_done : nm_info := alloc_nid_done 455 ex_written.

Lemma ex_alloc_eq : alloc_nid 2 0 nm_ex = Some (Some 455, ex_alloc).
Proof.
  assert (H : fst <$> alloc_nid 2 0 nm_ex = Some (Some 455)) by (vm_compute; reflexivity).
  unfold ex_alloc; destruct (alloc_nid 2 0 nm_ex) as [[r n]|]; [cbn in H; congruence|discriminate].
Qed.

(** The path from the mount to the written node. *)
Lemma ex_facts :
  (fstate ex_alloc 455 = Some NID_ALLOC /\ nat_info ex_alloc 455 = mk_nat_entry 0 0 0) /\
  nat_info ex_new 455 = mk_nat_entry 0 455 NEW_ADDR /\ fstate ex_written 455 = Some NID_ALLOC /\ max_nid ex_written = 232960 /\
  all_dirty ex_done = [455] /\ ne_block_addr (nat_info ex_done 455) = 5000.
Proof. vm_compute; repeat split. Qed.

Lemma ex_set_ok n ni addr : max_nid n = 232960 -> ni_nid ni = 455 -> ni_ino ni = 455 ->
  raw_nat_from_node_info ni = nat_info n 455 \/ addr = NEW_ADDR -> ni_blk_addr ni = ne_block_addr (nat_info n 455) -> ni_version ni = ne_version (nat_info n 455) ->
  (addr = NEW_ADDR -> ne_block_addr (nat_info n 455) = NULL_ADDR) -> addr <> NULL_ADDR -> addr_change n ni addr.
Proof.
  intros Ht Hn Hi Hr Hb Hv Ha H0; constructor; rewrite ?Hn; try assumption; [lia| |contradiction].
  intros Hne; destruct Hr as [Hr|]; [|contradiction]; rewrite Hi, <- Hr; exact (eq_sym Hi) || (rewrite <- Hi; reflexivity).
Qed.

Lemma ex_run : nm_run nm_ex [OpAlloc (Some 455); OpSet 455 455 NEW_ADDR; OpSet 455 455 5000; OpSettle 455; OpSync] (flush_nat_entries_per_core ex_done).
Proof.
  destruct ex_facts as ((F1 & F2) & F3 & F4 & F5 & F6 & F7); destruct nm_ex_ok as (K0 & M0 & _).
  assert (R1 : nm_run nm_ex ([] ++ [OpAlloc (Some 455)]) ex_alloc).
  { eapply nrun_snoc; [constructor|]; apply (nm_alloc nm_ex 2 0); [vm_compute; congruence|vm_compute; reflexivity|exact ex_alloc_eq]. }
  assert (M1 : max_nid ex_alloc = 232960) by (vm_compute; reflexivity).
  assert (R2 : nm_run nm_ex (([] ++ [OpAlloc (Some 455)]) ++ [OpSet 455 455 NEW_ADDR]) ex_new).
  { eapply nrun_snoc; [exact R1|]; apply (nm_set ex_alloc (mk_ni 455 455 0 0 0)); [apply ex_set_ok|]; cbn [ni_nid ni_ino ni_blk_addr ni_version]; rewrite ?F2; auto; discriminate. }
  assert (M2 : max_nid ex_new = 232960) by (vm_compute; reflexivity).
  assert (R3 : nm_run nm_ex ((([] ++ [OpAlloc (Some 455)]) ++ [OpSet 455 455 NEW_ADDR]) ++ [OpSet 455 455 5000]) ex_written).
  { eapply nrun_snoc; [exact R2|]; apply (nm_set ex_new (mk_ni 455 455 NEW_ADDR 0 0)); [|unfold unused; cbn [ni_nid]; rewrite F3; intros X; discriminate X].
    apply ex_set_ok; cbn [ni_nid ni_ino ni_blk_addr ni_version]; rewrite ?F3; [exact M2|reflexivity|reflexivity|left; reflexivity|reflexivity|reflexivity|discriminate|discriminate]. }
  assert (R4 : nm_run nm_ex (((([] ++ [OpAlloc (Some 455)]) ++ [OpSet 455 455 NEW_ADDR]) ++ [OpSet 455 455 5000]) ++ [OpSettle 455]) ex_done).
  { eapply nrun_snoc; [exact R3|]; apply nm_done; [rewrite F5; lia|exact F4]. }
  change [OpAlloc (Some 455); OpSet 455 455 NEW_ADDR; OpSet 455 455 5000; OpSettle 455; OpSync] with
    (((((([] ++ [OpAlloc (Some 455)]) ++ [OpSet 455 455 NEW_ADDR]) ++ [OpSet 455 455 5000]) ++ [OpSettle 455])) ++ [OpSync]).
  eapply nrun_snoc; [exact R4|]; apply nm_flush; intros x Hx; destruct (nm_run_ok _ _ _ K0 R4) as (_ & [W _ _] & _).
  apply (all_dirty_elem ex_done x W) in Hx; rewrite F6 in Hx; apply list_elem_of_singleton in Hx; subst x; rewrite F7; discriminate.
Qed.

Lemma ex_flushed : nat_bitmap (flush_nat_entries_per_core ex_done) = replicate 64 0 /\ nats_in_cursum (nat_sum (flush_nat_entries_per_core ex_done)) = 1 /\
  (sb_nat_j (nat_sum (flush_nat_entries_per_core ex_done))).[0] = mk_nat_jnl 455 (mk_nat_entry 0 455 5000) /\ nat_blkaddr (flush_nat_entries_per_core ex_done) = 1000.
Proof. vm_compute; repeat split. Qed.

(** The journal keeps the address, and a crash brings it back. *)
Lemma node_table_refinement_witness :
  exists m, table_run 232960 (abs nm_ex) [OpAlloc (Some 455); OpSet 455 455 NEW_ADDR; OpSet 455 455 5000; OpSettle 455; OpSync; OpCrash] (abs m) /\
    table_ok m /\ nm_bug m = false.
Proof.
  destruct nm_ex_ok as (K0 & M0 & B0); destruct ex_flushed as (F1 & F2 & F3 & F4).
  destruct (nm_run_ok _ _ _ K0 ex_run) as (_ & [W _ _] & Hm & _); set (n := flush_nat_entries_per_core ex_done) in *.
  assert (Hmt : mountable (nat_blkaddr n) 2 455 2 (nat_bitmap n) (nat_sum n) (nat_pages n)).
  { apply mountable_again; [exact W|rewrite Hm; exact M0|exact F4|exact F1|].
    rewrite F2; intros i Hi; replace i with 0 by lia; rewrite F3; discriminate. }
  exists (build_node_manager 9 (nat_blkaddr n) 2 455 40 0 2 (nat_bitmap n) (nat_sum n) (nat_pages n)).
  pose proof (node_table_refinement nm_ex _ _ K0 (nrun_snoc _ _ _ _ _ ex_run
    (nm_crash n (nat_pages n) 2 455 40 0 2 (or_introl eq_refl) Hmt ltac:(rewrite Hm, M0; reflexivity)))) as (R1 & R2 & _ & R3).
  rewrite M0 in R1; split; [exact R1|split; [exact R2|apply R3; exact B0]].
Defined.

Lemma alloc_nid_progress_witness :
  exists d y n', Z.of_nat d <= 2 /\ alloc_nid d 0 nm_ex = Some (Some y, n') /\ unused (nat_info nm_ex) y /\ unused (raw_view nm_ex) y.
Proof.
  apply (alloc_nid_progress nm_ex 0 455).
  - apply nm_ex_ok.
  - rewrite (proj1 (proj2 nm_ex_ok)); lia.
  - vm_compute; reflexivity.
  - vm_compute; congruence.
  - vm_compute; reflexivity.
  - vm_compute; reflexivity.
Defined.

(** Without memory the mount finds nothing, and every later allocation hangs. *)
Definition nm_starved : nm_info := build_node_manager 9 1000 2 455 0 0 2 (replicate 64 0) sum_ex ∅.

Lemma nm_starved_ok : table_ok nm_starved.
Proof.
  destruct (mount_ok _ _ _ 0 0 _ _ _ _ (mountable_ex ∅ ltac:(intros a p H; rewrite lookup_empty in H; discriminate))) as (H1 & _).
  unfold nm_starved; exact H1.
Qed.

Lemma nm_starved_facts : nid_lists nm_starved = [mk_nid_list ∅ [] 0; mk_nid_list ∅ [] 0] /\ nat_sum nm_starved = sum_ex /\
  next_allocator nm_starved = 0 /\ (u32 (available_nids nm_starved - 1) <? 0) = false /\ unused (raw_view nm_starved) 455.
Proof. vm_compute; repeat split. Qed.

Lemma nm_starved_starved : starved nm_starved.
Proof.
  destruct nm_starved_facts as (F1 & F2 & _); intros x Hx; split.
  - unfold fstate, list_of; rewrite F1.
    assert (Hl : forall k, free_nid_root ([mk_nid_list ∅ [] 0; mk_nid_list ∅ [] 0].[k]) = ∅).
    { intros k; unfold aget; destruct (0 <=? k); [|reflexivity]; destruct (Z.to_nat k) as [|[|m]]; reflexivity. }
    rewrite Hl, lookup_empty; discriminate.
  - intros (r & E & _); rewrite F2 in E; discriminate.
Qed.


Lemma mount_finds_free_ids_witness :
  let n := build_node_manager 9 1000 2 455 100000 0 2 (replicate 64 0) sum_ex ∅ in
  table_ok n /\ fstate n 455 = Some NID_NEW.
Proof.
  intros n; pose proof (mount_finds_free_ids 1000 2 455 100000 0 2 (replicate 64 0) sum_ex ∅ 455
    (mountable_ex ∅ ltac:(intros a p H; rewrite lookup_empty in H; discriminate))) as H; cbv zeta in H; fold n in H.
  destruct H as (H1 & H2 & H3).
  - vm_compute; reflexivity.
  - vm_compute; split; reflexivity.
  - lia.
  - split; [exact H1|apply H2]; unfold unused; rewrite H3; vm_compute; reflexivity.
Defined.
