(* ===== verification/Rps.v ===== *)
(** The reader pass-through semaphore (src/Max/rps.c): readers count on their own core
    while there is no writer, and on a shared counter otherwise.  A transition system
    with one step per access to shared memory, for any number of threads and cores, and
    the proof of mutual exclusion, of wake-ups and of the absence of deadlocks. *)

From Stdlib Require Import ZArith Lia Bool.
From stdpp Require Import base numbers list.
From S2P Require Import Prelude.

#[local] Open Scope Z_scope.
#[local] Ltac Zify.zify_post_hook ::= Z.to_euclidean_division_equations.

(** * Definitions *)

(** [struct rps]; the rw_semaphore is the number of its readers and whether a writer has
    it.  The counters are C ints, kept modulo 2^32. *)
Record rps := mk_rps {
  highway_cnt : list Z;
  lowway_cnt : Z;
  writers_cnt : Z;
  sem_readers : Z;
  sem_writer : bool;
}.

Definition with_highway v r := mk_rps v (lowway_cnt r) (writers_cnt r) (sem_readers r) (sem_writer r).
Definition with_lowway v r := mk_rps (highway_cnt r) v (writers_cnt r) (sem_readers r) (sem_writer r).
Definition with_writers v r := mk_rps (highway_cnt r) (lowway_cnt r) v (sem_readers r) (sem_writer r).
Definition with_sem n b r := mk_rps (highway_cnt r) (lowway_cnt r) (writers_cnt r) n b.

(** [alloc_percpu] gives one zeroed counter for each possible core, or NULL; on NULL the
    function returns before it sets up anything. *)
Definition __rps_init_rwsem (percpu : option (list Z)) : option rps :=
  match percpu with
  | None => None
  | Some cnt => Some (mk_rps cnt 0 0 0 false)
  end.

(** The callers of [go_highway]: [rps_down_read], [rps_down_read_try_lock] and
    [rps_up_read]. *)
Inductive way := Down | Try | Up.

(** Where a thread is.  [HwCheck] and [HwAdd] run with preemption disabled on a core;
    [WGrace] and [WGrace2] wait in [synchronize_sched_expedited] for the sections that
    were open when it was called.  A reader may take the inner semaphore whenever no
    writer has it, so the steps include those of every queueing discipline. *)
Inductive pc :=
| Idle
| HwCheck (k : way) (cpu : Z)
| HwAdd (k : way) (cpu : Z)
| LowSem
| TrySem
| LowInc
| LowUp
| Reading
| LowDec
| WEnter
| WGrace (open : list (nat * nat))
| WSem
| WClear (cpu sum : Z)
| WZero (cpu sum : Z)
| WWait
| WSleep
| Writing
| WLeave
| WGrace2 (open : list (nat * nat))
| WDec.

(** A thread counts the preemption-disabled sections it has left. *)
Abbreviation thread := (pc * nat)%type.

Record sys := mk_sys {
  sem : rps;
  threads : list thread;
}.

Definition go_val (k : way) : Z := match k with Up => -1 | _ => 1 end.
Definition after_highway (k : way) : pc := match k with Up => Idle | _ => Reading end.
Definition after_miss (k : way) : pc := match k with Down => LowSem | Try => TrySem | Up => LowDec end.

Definition in_section (p : pc) : bool := match p with HwCheck _ _ | HwAdd _ _ => true | _ => false end.

(** The sections that are open. *)
Definition sections (l : list thread) : list (nat * nat) :=
  omap (fun x => if in_section x.2.1 then Some (x.1, x.2.2) else None) (imap pair l).

(** Every one of them was left. *)
Definition elapsed (open : list (nat * nat)) (l : list thread) : Prop :=
  forall t e, (t, e) ∈ open -> exists p e', l !! t = Some (p, e') /\ e' <> e.

Definition wake (x : thread) : thread := match x.1 with WSleep => (WWait, x.2) | _ => x end.
Definition wake_up_all (l : list thread) : list thread := wake <$> l.

(** The step of thread [t] from program point [p] in its [e]-th section. *)
Inductive step_at (s : sys) (t e : nat) : pc -> sys -> Prop :=
| st_down k c : (k = Down \/ k = Try) -> 0 <= c < zlen (highway_cnt (sem s)) ->
    step_at s t e Idle (mk_sys (sem s) (<[t := (HwCheck k c, e)]> (threads s)))
| st_up c : 0 <= c < zlen (highway_cnt (sem s)) ->
    step_at s t e Reading (mk_sys (sem s) (<[t := (HwCheck Up c, e)]> (threads s)))
| st_check k c : writers_cnt (sem s) = 0 ->
    step_at s t e (HwCheck k c) (mk_sys (sem s) (<[t := (HwAdd k c, e)]> (threads s)))
| st_miss k c : writers_cnt (sem s) <> 0 ->
    step_at s t e (HwCheck k c) (mk_sys (sem s) (<[t := (after_miss k, S e)]> (threads s)))
| st_add k c :
    step_at s t e (HwAdd k c)
      (mk_sys (with_highway ((highway_cnt (sem s)).[c <- u32 ((highway_cnt (sem s)).[c] + go_val k)]) (sem s))
              (<[t := (after_highway k, S e)]> (threads s)))
| st_low_sem p : (p = LowSem \/ p = TrySem) -> sem_writer (sem s) = false ->
    step_at s t e p (mk_sys (with_sem (sem_readers (sem s) + 1) false (sem s)) (<[t := (LowInc, e)]> (threads s)))
| st_try_fails : step_at s t e TrySem (mk_sys (sem s) (<[t := (Idle, e)]> (threads s)))
| st_low_inc :
    step_at s t e LowInc (mk_sys (with_lowway (u32 (lowway_cnt (sem s) + 1)) (sem s)) (<[t := (LowUp, e)]> (threads s)))
| st_low_up :
    step_at s t e LowUp (mk_sys (with_sem (sem_readers (sem s) - 1) (sem_writer (sem s)) (sem s)) (<[t := (Reading, e)]> (threads s)))
| st_low_dec : u32 (lowway_cnt (sem s) - 1) <> 0 ->
    step_at s t e LowDec (mk_sys (with_lowway (u32 (lowway_cnt (sem s) - 1)) (sem s)) (<[t := (Idle, e)]> (threads s)))
| st_low_wake : u32 (lowway_cnt (sem s) - 1) = 0 ->
    step_at s t e LowDec (mk_sys (with_lowway 0 (sem s)) (wake_up_all (<[t := (Idle, e)]> (threads s))))
| st_enter :
    step_at s t e Idle (mk_sys (with_writers (u32 (writers_cnt (sem s) + 1)) (sem s)) (<[t := (WEnter, e)]> (threads s)))
| st_sync : step_at s t e WEnter (mk_sys (sem s) (<[t := (WGrace (sections (threads s)), e)]> (threads s)))
| st_grace open : elapsed open (threads s) ->
    step_at s t e (WGrace open) (mk_sys (sem s) (<[t := (WSem, e)]> (threads s)))
| st_down_write : sem_writer (sem s) = false -> sem_readers (sem s) = 0 ->
    step_at s t e WSem (mk_sys (with_sem 0 true (sem s)) (<[t := (WClear 0 0, e)]> (threads s)))
| st_read_cpu c sum : c < zlen (highway_cnt (sem s)) ->
    step_at s t e (WClear c sum) (mk_sys (sem s) (<[t := (WZero c (u32 (sum + (highway_cnt (sem s)).[c])), e)]> (threads s)))
| st_zero_cpu c sum :
    step_at s t e (WZero c sum)
      (mk_sys (with_highway ((highway_cnt (sem s)).[c <- 0]) (sem s)) (<[t := (WClear (c + 1) sum, e)]> (threads s)))
| st_add_sum c sum : zlen (highway_cnt (sem s)) <= c ->
    step_at s t e (WClear c sum)
      (mk_sys (with_lowway (u32 (lowway_cnt (sem s) + sum)) (sem s)) (<[t := (WWait, e)]> (threads s)))
| st_go : lowway_cnt (sem s) = 0 -> step_at s t e WWait (mk_sys (sem s) (<[t := (Writing, e)]> (threads s)))
| st_sleep : lowway_cnt (sem s) <> 0 -> step_at s t e WWait (mk_sys (sem s) (<[t := (WSleep, e)]> (threads s)))
| st_up_write :
    step_at s t e Writing (mk_sys (with_sem (sem_readers (sem s)) false (sem s)) (<[t := (WLeave, e)]> (threads s)))
| st_sync2 : step_at s t e WLeave (mk_sys (sem s) (<[t := (WGrace2 (sections (threads s)), e)]> (threads s)))
| st_grace2 open : elapsed open (threads s) ->
    step_at s t e (WGrace2 open) (mk_sys (sem s) (<[t := (WDec, e)]> (threads s)))
| st_leave :
    step_at s t e WDec (mk_sys (with_writers (u32 (writers_cnt (sem s) - 1)) (sem s)) (<[t := (Idle, e)]> (threads s))).

Definition step (s : sys) (t : nat) (s' : sys) : Prop := exists p e, threads s !! t = Some (p, e) /\ step_at s t e p s'.

Inductive reachable (cpus n : nat) : sys -> Prop :=
| reach_init r : __rps_init_rwsem (Some (replicate cpus 0)) = Some r -> reachable cpus n (mk_sys r (replicate n (Idle, O)))
| reach_step s t s' : reachable cpus n s -> step s t s' -> reachable cpus n s'.

(** * Properties *)

(** ** Sums over the threads and the cores *)

Definition total (f : pc -> Z) (l : list thread) : Z := foldr (fun x a => f x.1 + a) 0 l.
Definition zsum (l : list Z) : Z := foldr Z.add 0 l.

Lemma total_insert f l t x y : l !! t = Some x -> total f (<[t := y]> l) = total f l - f x.1 + f y.1.
Proof.
  revert t; induction l as [|z l IH]; intros [|t] H; [discriminate|discriminate|injection H as ->; cbn; lia|].
  cbn in H; change (f z.1 + total f (<[t := y]> l) = f z.1 + total f l - f x.1 + f y.1); rewrite (IH t H); lia.
Qed.

Lemma total_ext f g l : (forall t x, l !! t = Some x -> f x.1 = g x.1) -> total f l = total g l.
Proof.
  intros H; induction l as [|z l IH]; [reflexivity|]; cbn; fold (total f l); fold (total g l).
  rewrite (H O z eq_refl), IH; [reflexivity|]; intros t x Hx; apply (H (S t) x Hx).
Qed.

Lemma total_wake f l : f WSleep = f WWait -> total f (wake_up_all l) = total f l.
Proof.
  intros E; induction l as [|[p e] l IH]; [reflexivity|].
  change (f (wake (p, e)).1 + total f (wake_up_all l) = f p + total f l); rewrite IH; f_equal; destruct p; auto.
Qed.

Lemma total_replicate f n e : f Idle = 0 -> total f (replicate n (Idle, e)) = 0.
Proof. intros E; induction n as [|n IH]; [reflexivity|]; cbn; fold (total f (replicate n (Idle, e))); rewrite E, IH; reflexivity. Qed.

Lemma total_bounds f l : (forall p, 0 <= f p <= 1) -> 0 <= total f l <= Z.of_nat (length l).
Proof. intros H; induction l as [|[p e] l IH]; cbn; [lia|]; fold (total f l); specialize (H p); lia. Qed.

Lemma total_member f l t x : (forall p, 0 <= f p <= 1) -> l !! t = Some x -> f x.1 <= total f l.
Proof.
  intros H; revert t; induction l as [|z l IH]; intros [|t] E; try discriminate; cbn in E |- *; fold (total f l).
  - injection E as ->; pose proof (total_bounds f l H); lia.
  - specialize (IH t E); specialize (H z.1); lia.
Qed.

Lemma total_two f l t t' x x' : (forall p, 0 <= f p <= 1) -> f Idle = 0 -> t <> t' -> l !! t = Some x -> l !! t' = Some x' ->
  f x.1 + f x'.1 <= total f l.
Proof.
  intros H E0 Hne Hx Hx'; pose proof (total_insert f l t x (Idle, O) Hx) as E; cbn [fst] in E; rewrite E0 in E.
  assert (Hx2 : <[t := (Idle, O)]> l !! t' = Some x') by (rewrite list_lookup_insert_ne by exact Hne; exact Hx').
  pose proof (total_member f _ t' x' H Hx2); lia.
Qed.

Lemma total_pos f l : (forall p, 0 <= f p) -> 0 < total f l -> exists t x, l !! t = Some x /\ 0 < f x.1.
Proof.
  intros H; induction l as [|z l IH]; cbn; [lia|]; fold (total f l); intros Hp.
  destruct (Z_lt_ge_dec 0 (f z.1)) as [Hz|Hz]; [exists O, z; auto|].
  destruct IH as (t & x & Hx & Hf); [specialize (H z.1); lia|exists (S t), x; auto].
Qed.

Lemma zsum_aset l c v : 0 <= c < zlen l -> zsum (l.[c <- v]) = zsum l - l.[c] + v.
Proof.
  intros Hc; unfold aset, aget; rewrite (proj2 (Z.leb_le 0 c)) by lia; unfold zlen in Hc.
  assert (Hn : (Z.to_nat c < length l)%nat) by lia; revert Hn; generalize (Z.to_nat c); clear.
  induction l as [|x l IH]; intros [|i] H; cbn [length] in H; [lia|lia|cbn; lia|].
  change (x + zsum (<[i := v]> l) = x + zsum l - l !!! i + v); rewrite IH by lia; lia.
Qed.

Lemma zsum_zero l : (forall i, 0 <= i < zlen l -> l.[i] = 0) -> zsum l = 0.
Proof.
  induction l as [|x l IH]; intros H; [reflexivity|]; cbn; fold (zsum l).
  assert (Hx : x = 0) by (apply (H 0); unfold zlen; cbn; lia).
  rewrite IH; [lia|]; intros i Hi; specialize (H (i + 1) ltac:(unfold zlen in *; cbn [length]; lia)).
  unfold aget in *; rewrite (proj2 (Z.leb_le 0 i)) by lia; rewrite (proj2 (Z.leb_le 0 (i + 1))) in H by lia.
  replace (Z.to_nat (i + 1)) with (S (Z.to_nat i)) in H by lia; exact H.
Qed.

(** ** The invariant *)

(** A reader that is counted, from the increment of a counter to the decrement. *)
Definition counted (p : pc) : Z :=
  match p with LowUp | Reading | HwCheck Up _ | HwAdd Up _ | LowDec => 1 | _ => 0 end.
(** A writer between the increment and the decrement of [writers_cnt]. *)
Definition writer (p : pc) : Z :=
  match p with
  | WEnter | WGrace _ | WSem | WClear _ _ | WZero _ _ | WWait | WSleep | Writing | WLeave | WGrace2 _ | WDec => 1
  | _ => 0
  end.
Definition sem_reader (p : pc) : Z := match p with LowInc | LowUp => 1 | _ => 0 end.
Definition sem_owner (p : pc) : Z :=
  match p with WClear _ _ | WZero _ _ | WWait | WSleep | Writing => 1 | _ => 0 end.
(** What a writer has collected and not yet added to the shared counter. *)
Definition flight (hw : list Z) (p : pc) : Z :=
  match p with WClear _ sum => sum | WZero c sum => sum - hw.[c] | _ => 0 end.

Definition cleared (hw : list Z) (c : Z) : Prop := forall i, 0 <= i < c -> hw.[i] = 0.

(** What a thread knows at its program point. *)
Definition local_ok (r : rps) (readers : Z) (p : pc) : Prop :=
  let n := zlen (highway_cnt r) in
  match p with
  | HwCheck _ c | HwAdd _ c => 0 <= c < n
  | WClear c _ => 0 <= c <= n /\ cleared (highway_cnt r) c
  | WZero c _ => 0 <= c < n /\ cleared (highway_cnt r) c
  | WWait => cleared (highway_cnt r) n
  | WSleep => cleared (highway_cnt r) n /\ lowway_cnt r <> 0
  | Writing => cleared (highway_cnt r) n /\ readers = 0
  | _ => True
  end.

(** A thread that saw no writer, in its section [e], and another thread. *)
Definition quiet_ok (t e : nat) (p : pc) : Prop :=
  match p with
  | WGrace open => (t, e) ∈ open
  | WSem | WClear _ _ | WZero _ _ | WWait | WSleep | Writing | WLeave | WGrace2 _ | WDec => False
  | _ => True
  end.

Definition open_of (p : pc) : list (nat * nat) := match p with WGrace o | WGrace2 o => o | _ => [] end.

Record inv (s : sys) : Prop := {
  iv_len : Z.of_nat (length (threads s)) < 2 ^ 31;
  iv_low : 0 <= lowway_cnt (sem s) < 2 ^ 32;
  iv_sum : exists k, zsum (highway_cnt (sem s)) + lowway_cnt (sem s) + total (flight (highway_cnt (sem s))) (threads s)
    = total counted (threads s) + k * 2 ^ 32;
  iv_writers : writers_cnt (sem s) = total writer (threads s);
  iv_readers : sem_readers (sem s) = total sem_reader (threads s);
  iv_owner : b2z (sem_writer (sem s)) = total sem_owner (threads s);
  iv_excl : sem_writer (sem s) = true -> sem_readers (sem s) = 0;
  iv_local : forall t p e, threads s !! t = Some (p, e) -> local_ok (sem s) (total counted (threads s)) p;
  iv_quiet : forall t k c e t' p' e', threads s !! t = Some (HwAdd k c, e) -> threads s !! t' = Some (p', e') -> quiet_ok t e p';
  iv_open : forall t p e t' e', threads s !! t = Some (p, e) -> (t', e') ∈ open_of p ->
    exists p1 e1, threads s !! t' = Some (p1, e1) /\ (e' <= e1)%nat /\ (e1 = e' -> in_section p1 = true);
}.

Lemma counted_01 p : 0 <= counted p <= 1.
Proof. destruct p as [|[]| [] | | | | | | | | | | | | | | | | |]; cbn; lia. Qed.
Lemma writer_01 p : 0 <= writer p <= 1.
Proof. destruct p; cbn; lia. Qed.
Lemma sem_reader_01 p : 0 <= sem_reader p <= 1.
Proof. destruct p; cbn; lia. Qed.
Lemma sem_owner_01 p : 0 <= sem_owner p <= 1.
Proof. destruct p; cbn; lia. Qed.

Lemma sections_elem l t e : (t, e) ∈ sections l <-> exists p, l !! t = Some (p, e) /\ in_section p = true.
Proof.
  unfold sections; rewrite list_elem_of_omap; split.
  - intros ([i [p e']] & Hin & E); cbn in E; destruct (in_section p) eqn:Ep; [injection E as -> ->|discriminate].
    apply list_elem_of_lookup in Hin; destruct Hin as [j Hj]; rewrite list_lookup_imap in Hj.
    destruct (l !! j) as [y|] eqn:Ey; [cbn in Hj; injection Hj as -> ->; eauto|discriminate].
  - intros (p & Hp & Ep); exists (t, (p, e)); split; [|cbn; rewrite Ep; reflexivity].
    apply list_elem_of_lookup; exists t.
    transitivity (pair t <$> (l !! t)); [apply list_lookup_imap|rewrite Hp; reflexivity].
Qed.

(** No thread owns the semaphore. *)
Lemma no_owner s t p e : inv s -> sem_writer (sem s) = false -> threads s !! t = Some (p, e) -> sem_owner p = 0.
Proof.
  intros Hi Hw Ht; pose proof (iv_owner _ Hi) as E; rewrite Hw in E; cbn in E.
  pose proof (total_member sem_owner _ _ _ sem_owner_01 Ht); pose proof (sem_owner_01 p); cbn in *; lia.
Qed.

Lemma owner_unique s t p e t' p' e' : inv s -> threads s !! t = Some (p, e) -> threads s !! t' = Some (p', e') ->
  sem_owner p = 1 -> sem_owner p' = 1 -> t = t'.
Proof.
  intros Hi Ht Ht' H H'; destruct (decide (t = t')) as [|Hne]; [assumption|exfalso].
  pose proof (total_two sem_owner _ _ _ _ _ sem_owner_01 eq_refl Hne Ht Ht') as Hs; cbn in Hs.
  pose proof (iv_owner _ Hi) as E; destruct (sem_writer (sem s)); cbn in E; lia.
Qed.

(** The rule for one thread's step. *)
Section Update.
Variables (s : sys) (t : nat) (p p' : pc) (e e' : nat) (r' : rps).
Hypothesis Hi : inv s.
Hypothesis Ht : threads s !! t = Some (p, e).

Let l' := <[t := (p', e')]> (threads s).
Let s' := mk_sys r' l'.

Lemma get_new t1 : l' !! t1 = if decide (t1 = t) then Some (p', e') else threads s !! t1.
Proof.
  unfold l'; destruct (decide (t1 = t)) as [->|Hne]; [apply list_lookup_insert_eq; eapply lookup_lt_Some; exact Ht|].
  apply list_lookup_insert_ne; congruence.
Qed.

Lemma inv_update k
  (Hlow : 0 <= lowway_cnt r' < 2 ^ 32)
  (Hsum : zsum (highway_cnt r') + lowway_cnt r' + (total (flight (highway_cnt r')) (threads s) - flight (highway_cnt r') p + flight (highway_cnt r') p')
    - counted p' + counted p = zsum (highway_cnt (sem s)) + lowway_cnt (sem s) + total (flight (highway_cnt (sem s))) (threads s) + k * 2 ^ 32)
  (Hwr : writers_cnt r' = writers_cnt (sem s) - writer p + writer p')
  (Hrd : sem_readers r' = sem_readers (sem s) - sem_reader p + sem_reader p')
  (Hown : b2z (sem_writer r') = b2z (sem_writer (sem s)) - sem_owner p + sem_owner p')
  (Hex : sem_writer r' = true -> sem_readers r' = 0)
  (Hothers : forall t1 p1 e1, t1 <> t -> threads s !! t1 = Some (p1, e1) -> local_ok (sem s) (total counted (threads s)) p1 ->
     local_ok r' (total counted (threads s) - counted p + counted p') p1)
  (Hme : local_ok r' (total counted (threads s) - counted p + counted p') p')
  (Hep : (e' = S e /\ in_section p' = false) \/ (e' = e /\ (in_section p = true -> in_section p' = true)))
  (Hadd : forall k c, p' = HwAdd k c -> (exists k' c', p = HwAdd k' c') \/ total writer (threads s) = 0)
  (Hq : forall t1 k c e1, t1 <> t -> threads s !! t1 = Some (HwAdd k c, e1) -> quiet_ok t1 e1 p')
  (Hopen : open_of p' = [] \/ open_of p' = open_of p \/ (open_of p' = sections (threads s) /\ in_section p = false)) : inv s'.
Proof.
  assert (Hc : total counted l' = total counted (threads s) - counted p + counted p') by (unfold l'; erewrite total_insert by exact Ht; reflexivity).
  constructor; cbn [sem threads s'].
  - unfold l'; rewrite length_insert; exact (iv_len _ Hi).
  - exact Hlow.
  - destruct (iv_sum _ Hi) as [k0 E]; exists (k0 + k); rewrite Hc.
    unfold l'; erewrite total_insert by exact Ht; cbn [fst]; lia.
  - rewrite Hwr, (iv_writers _ Hi); unfold l'; erewrite total_insert by exact Ht; reflexivity.
  - rewrite Hrd, (iv_readers _ Hi); unfold l'; erewrite total_insert by exact Ht; reflexivity.
  - rewrite Hown, (iv_owner _ Hi); unfold l'; erewrite total_insert by exact Ht; reflexivity.
  - exact Hex.
  - intros t1 p1 e1; rewrite get_new, Hc; destruct (decide (t1 = t)) as [->|Hne]; intros E; [injection E as <- <-; exact Hme|].
    apply (Hothers t1 p1 e1 Hne E), (iv_local _ Hi t1 p1 e1 E).
  - intros t1 k1 c1 e1 t2 p2 e2; rewrite !get_new; destruct (decide (t1 = t)) as [->|Hne1], (decide (t2 = t)) as [->|Hne2]; intros E1 E2.
    + injection E1 as Ep1 _; injection E2 as Ep2 _; rewrite <- Ep2, Ep1; exact I.
    + injection E1 as Ep <-; destruct (Hadd _ _ Ep) as [(k' & c' & Ep0)|H0].
      * destruct Hep as [[_ Hs]|[-> _]]; [rewrite Ep in Hs; discriminate|]; pose proof Ht as Ht0; rewrite Ep0 in Ht0; apply (iv_quiet _ Hi t k' c' e t2 p2 e2 Ht0 E2).
      * pose proof (total_member writer _ _ _ writer_01 E2); pose proof (writer_01 p2); destruct p2; cbn in *; try exact I; lia.
    + injection E2 as <- <-; apply (Hq t1 k1 c1 e1 Hne1 E1).
    + apply (iv_quiet _ Hi t1 k1 c1 e1 t2 p2 e2 E1 E2).
  - assert (Hold : forall o, (exists t1 p1 e1, threads s !! t1 = Some (p1, e1) /\ open_of p1 = o) \/ (o = sections (threads s) /\ in_section p = false) ->
      forall t2 e2, (t2, e2) ∈ o -> exists p1 e1, l' !! t2 = Some (p1, e1) /\ (e2 <= e1)%nat /\ (e1 = e2 -> in_section p1 = true)).
    { intros o Ho t2 e2 Hin.
      assert (H : exists p1 e1, threads s !! t2 = Some (p1, e1) /\ (e2 <= e1)%nat /\ (e1 = e2 -> in_section p1 = true)).
      { destruct Ho as [(t1 & p1 & e1 & E1 & <-)|[-> Hs]]; [apply (iv_open _ Hi t1 p1 e1 t2 e2 E1 Hin)|].
        apply sections_elem in Hin; destruct Hin as (p1 & E1 & Es); exists p1, e2; auto. }
      destruct H as (p1 & e1 & E1 & Hle & Hsec); rewrite get_new; destruct (decide (t2 = t)) as [->|Hne]; [|exists p1, e1; auto].
      rewrite Ht in E1; injection E1 as <- <-; exists p', e'; split; [reflexivity|].
      destruct Hep as [[-> _]|[-> Hs]]; [split; [lia|lia]|split; [exact Hle|intros E; apply Hs, Hsec; exact E]]. }
    intros t1 p1 e1 t2 e2; rewrite get_new; destruct (decide (t1 = t)) as [->|Hne]; intros E1 Hin.
    + injection E1 as <- <-; apply (Hold (open_of p')); [|exact Hin].
      destruct Hopen as [Ho|[Ho|[Ho1 Ho2]]]; [rewrite Ho in Hin; inversion Hin|left; exists t, p, e; auto|auto].
    + apply (Hold (open_of p1)); [left; exists t1, p1, e1; auto|exact Hin].
Qed.
End Update.

(** ** Every step keeps the invariant *)

Lemma local_nonowner r r' n n' p : sem_owner p = 0 -> zlen (highway_cnt r') = zlen (highway_cnt r) -> local_ok r n p -> local_ok r' n' p.
Proof. intros Ho E; unfold local_ok; rewrite E; destruct p; cbn in *; auto; lia. Qed.

Lemma local_same r r' n p : highway_cnt r' = highway_cnt r -> lowway_cnt r' = lowway_cnt r -> local_ok r n p -> local_ok r' n p.
Proof. unfold local_ok; intros -> ->; auto. Qed.

(** Steps that change neither the highway nor the count of readers. *)
Lemma quiet_step s t p p' e e' r' :
  inv s -> threads s !! t = Some (p, e) ->
  highway_cnt r' = highway_cnt (sem s) -> lowway_cnt r' = lowway_cnt (sem s) ->
  counted p' = counted p -> flight (highway_cnt (sem s)) p' = flight (highway_cnt (sem s)) p ->
  writers_cnt r' = writers_cnt (sem s) - writer p + writer p' ->
  sem_readers r' = sem_readers (sem s) - sem_reader p + sem_reader p' ->
  b2z (sem_writer r') = b2z (sem_writer (sem s)) - sem_owner p + sem_owner p' ->
  (sem_writer r' = true -> sem_readers r' = 0) ->
  local_ok (sem s) (total counted (threads s)) p' ->
  ((e' = S e /\ in_section p' = false) \/ (e' = e /\ (in_section p = true -> in_section p' = true))) ->
  (forall k c, p' = HwAdd k c -> (exists k' c', p = HwAdd k' c') \/ total writer (threads s) = 0) ->
  (forall t1 k c e1, t1 <> t -> threads s !! t1 = Some (HwAdd k c, e1) -> quiet_ok t1 e1 p') ->
  (open_of p' = [] \/ open_of p' = open_of p \/ (open_of p' = sections (threads s) /\ in_section p = false)) ->
  inv (mk_sys r' (<[t := (p', e')]> (threads s))).
Proof.
  intros Hi Ht Eh El Ec Ef Hw Hr Ho Hx Hl He Ha Hq Hop; apply (inv_update s t p p' e e' r' Hi Ht 0); auto.
  - rewrite El; exact (iv_low _ Hi).
  - rewrite Eh, El, Ec, Ef; lia.
  - intros t1 p1 e1 _ _ H; rewrite Ec; replace (total counted (threads s) - counted p + counted p) with (total counted (threads s)) by lia.
    eapply local_same; eassumption.
  - rewrite Ec; replace (total counted (threads s) - counted p + counted p) with (total counted (threads s)) by lia; eapply local_same; eassumption.
Qed.

Ltac quiet_case Hi Ht p' := eapply (quiet_step _ _ _ p' _ _ _ Hi Ht); cbn; try exact (iv_excl _ Hi); try reflexivity; try lia; try discriminate; auto.

Lemma grace_over s t open e t1 k c e1 :
  inv s -> threads s !! t = Some (WGrace open, e) -> elapsed open (threads s) -> threads s !! t1 <> Some (HwAdd k c, e1).
Proof.
  intros Hi Ht He H; pose proof (iv_quiet _ Hi t1 k c e1 t _ e H Ht) as Hin; cbn in Hin.
  destruct (He t1 e1 Hin) as (p1 & e2 & E & Hne); rewrite H in E; injection E as _ E; congruence.
Qed.

Lemma total_zero f l : (forall t x, l !! t = Some x -> f x.1 = 0) -> total f l = 0.
Proof. intros H; rewrite (total_ext f (fun _ => 0) l H); induction l as [|z l IH]; [reflexivity|]; apply IH; intros t x Hx; apply (H (S t) x Hx). Qed.

(** Once the highway is cleared, the shared counter is the number of readers. *)
Lemma lowway_readers s t p e : inv s -> threads s !! t = Some (p, e) -> (p = WWait \/ p = WSleep \/ p = Writing) ->
  lowway_cnt (sem s) = total counted (threads s).
Proof.
  intros Hi Ht Hp; destruct (iv_sum _ Hi) as [k E].
  assert (Ho : sem_owner p = 1 /\ cleared (highway_cnt (sem s)) (zlen (highway_cnt (sem s)))).
  { pose proof (iv_local _ Hi t p e Ht) as Hl; destruct Hp as [-> |[-> | ->]]; cbn in Hl; [auto|destruct Hl; auto|destruct Hl; auto]. }
  destruct Ho as [Ho Hc]; rewrite (zsum_zero _ Hc) in E.
  rewrite (total_zero (flight (highway_cnt (sem s)))) in E.
  - pose proof (iv_low _ Hi); pose proof (total_bounds counted (threads s) counted_01); pose proof (iv_len _ Hi); lia.
  - intros t1 [p1 e1] H1; destruct (decide (t1 = t)) as [->|Hne]; [rewrite Ht in H1; injection H1 as <- <-; destruct Hp as [-> |[-> | ->]]; reflexivity|].
    destruct (Z.eq_dec (sem_owner p1) 1) as [E1|E1]; [exfalso; apply Hne; eapply owner_unique; eauto|destruct p1; cbn in *; lia || reflexivity].
Qed.

Lemma inv_local_steps s t e p s' : inv s -> threads s !! t = Some (p, e) -> step_at s t e p s' ->
  match p with
  | HwAdd _ _ | LowInc | LowDec | WClear _ _ | WZero _ _ | WSem => True
  | _ => inv s'
  end.
Proof.
  intros Hi Ht Hs; pose proof (iv_local _ Hi t p e Ht) as Hl; destruct Hs; try exact I.
  - quiet_case Hi Ht (HwCheck k c); destruct H as [-> | ->]; reflexivity.
  - quiet_case Hi Ht (HwCheck Up c).
  - quiet_case Hi Ht (HwAdd k c); intros k1 c1 _; right; rewrite <- (iv_writers _ Hi); exact H.
  - destruct k; [quiet_case Hi Ht LowSem|quiet_case Hi Ht TrySem|quiet_case Hi Ht LowDec].
  - destruct H as [-> | ->]; quiet_case Hi Ht LowInc; rewrite H0; reflexivity.
  - quiet_case Hi Ht Idle.
  - quiet_case Hi Ht Reading; intros Hw; pose proof (iv_excl _ Hi Hw); pose proof (iv_readers _ Hi).
    pose proof (total_member sem_reader _ _ _ sem_reader_01 Ht); cbn in *; lia.
  - quiet_case Hi Ht WEnter.
    pose proof (iv_writers _ Hi); pose proof (total_bounds writer (threads s) writer_01); pose proof (iv_len _ Hi); rewrite u32_small; lia.
  - quiet_case Hi Ht (WGrace (sections (threads s))).
    intros t1 k c e1 _ E; apply sections_elem; eauto.
  - quiet_case Hi Ht WSem; intros t1 k c e1 _ E; apply (grace_over s t open e t1 k c e1 Hi Ht H E).
  - quiet_case Hi Ht Writing.
    + split; [exact Hl|]; rewrite <- (lowway_readers s t WWait e Hi Ht); auto.
    + intros t1 k c e1 _ E; exact (iv_quiet _ Hi t1 k c e1 t _ e E Ht).
  - quiet_case Hi Ht WSleep; intros t1 k c e1 _ E; exact (iv_quiet _ Hi t1 k c e1 t _ e E Ht).
  - quiet_case Hi Ht WLeave.
    + pose proof (iv_owner _ Hi); pose proof (total_member sem_owner _ _ _ sem_owner_01 Ht); destruct (sem_writer (sem s)); cbn in *; lia.
    + intros t1 k c e1 _ E; exact (iv_quiet _ Hi t1 k c e1 t _ e E Ht).
  - quiet_case Hi Ht (WGrace2 (sections (threads s))); intros t1 k c e1 _ E; exact (iv_quiet _ Hi t1 k c e1 t _ e E Ht).
  - quiet_case Hi Ht WDec; intros t1 k c e1 _ E; exact (iv_quiet _ Hi t1 k c e1 t _ e E Ht).
  - quiet_case Hi Ht Idle.
    pose proof (iv_writers _ Hi); pose proof (total_bounds writer (threads s) writer_01); pose proof (iv_len _ Hi).
    pose proof (total_member writer _ _ _ writer_01 Ht); cbn in *; rewrite u32_small; lia.
Qed.

(** The other threads when nobody owns the semaphore. *)
Lemma others_free s t r' n' : inv s -> zlen (highway_cnt r') = zlen (highway_cnt (sem s)) ->
  (forall t1 p1 e1, t1 <> t -> threads s !! t1 = Some (p1, e1) -> sem_owner p1 = 0) ->
  forall t1 p1 e1, t1 <> t -> threads s !! t1 = Some (p1, e1) -> local_ok (sem s) (total counted (threads s)) p1 -> local_ok r' n' p1.
Proof. intros Hi E Ho t1 p1 e1 Hne H1 Hl; eapply local_nonowner; [eapply Ho; eassumption|exact E|exact Hl]. Qed.

Lemma add_no_owner s t k c e t1 p1 e1 : inv s -> threads s !! t = Some (HwAdd k c, e) -> threads s !! t1 = Some (p1, e1) -> sem_owner p1 = 0.
Proof. intros Hi Ht H1; pose proof (iv_quiet _ Hi t k c e t1 p1 e1 Ht H1) as Hq; destruct p1; cbn in *; tauto || reflexivity. Qed.

Lemma inv_add s t e k c : inv s -> threads s !! t = Some (HwAdd k c, e) ->
  inv (mk_sys (with_highway ((highway_cnt (sem s)).[c <- u32 ((highway_cnt (sem s)).[c] + go_val k)]) (sem s)) (<[t := (after_highway k, S e)]> (threads s))).
Proof.
  intros Hi Ht; pose proof (iv_local _ Hi t _ e Ht) as Hc; cbn in Hc; set (hw := highway_cnt (sem s)) in *; set (hw' := hw.[c <- _]).
  assert (Hf : total (flight hw') (threads s) = total (flight hw) (threads s)).
  { apply total_ext; intros t1 [p1 e1] H1; pose proof (add_no_owner s t k c e t1 p1 e1 Hi Ht H1); destruct p1; cbn in *; lia || reflexivity. }
  assert (Hlen : zlen hw' = zlen hw) by apply zlen_aset.
  apply (inv_update s t (HwAdd k c) (after_highway k) e (S e) _ Hi Ht (- ((hw.[c] + go_val k) / 2 ^ 32))); cbn [highway_cnt lowway_cnt writers_cnt sem_readers sem_writer with_highway].
  - exact (iv_low _ Hi).
  - rewrite Hf; unfold hw'; rewrite zsum_aset by exact Hc; destruct k; cbn [after_highway counted flight go_val]; fold hw; unfold u32; lia.
  - destruct k; cbn; lia.
  - destruct k; cbn; lia.
  - destruct k; cbn; lia.
  - exact (iv_excl _ Hi).
  - apply others_free; [exact Hi|exact Hlen|intros t1 p1 e1 _ H1; eapply add_no_owner; eassumption].
  - destruct k; exact I.
  - left; split; [reflexivity|destruct k; reflexivity].
  - intros k1 c1 E; destruct k; discriminate.
  - intros; destruct k; exact I.
  - left; destruct k; reflexivity.
Qed.

Lemma inv_low_inc s t e : inv s -> threads s !! t = Some (LowInc, e) ->
  inv (mk_sys (with_lowway (u32 (lowway_cnt (sem s) + 1)) (sem s)) (<[t := (LowUp, e)]> (threads s))).
Proof.
  intros Hi Ht.
  assert (Hw : sem_writer (sem s) = false).
  { destruct (sem_writer (sem s)) eqn:E; [exfalso|reflexivity]; pose proof (iv_excl _ Hi E); pose proof (iv_readers _ Hi).
    pose proof (total_member sem_reader _ _ _ sem_reader_01 Ht); cbn in *; lia. }
  apply (inv_update s t LowInc LowUp e e _ Hi Ht (- ((lowway_cnt (sem s) + 1) / 2 ^ 32))); cbn; auto; try lia.
  - unfold u32, zsum; lia.
  - unfold u32, zsum; lia.
  - intros E; congruence.
  - apply others_free; [exact Hi|reflexivity|intros t1 p1 e1 _ H1; eapply no_owner; eassumption].
  - discriminate.
Qed.

(** One counted reader less. *)
Lemma inv_low_dec s t e : inv s -> threads s !! t = Some (LowDec, e) ->
  (u32 (lowway_cnt (sem s) - 1) = 0 -> forall t1 e1, threads s !! t1 <> Some (WSleep, e1)) ->
  inv (mk_sys (with_lowway (u32 (lowway_cnt (sem s) - 1)) (sem s)) (<[t := (Idle, e)]> (threads s))).
Proof.
  intros Hi Ht Hz.
  apply (inv_update s t LowDec Idle e e _ Hi Ht (- ((lowway_cnt (sem s) - 1) / 2 ^ 32))); cbn; auto; try lia.
  - unfold u32, zsum; lia.
  - unfold u32, zsum; lia.
  - exact (iv_excl _ Hi).
  - intros t1 p1 e1 Hne H1 Hl; destruct p1; cbn in *; auto.
    + destruct Hl as [Hl _]; split; [exact Hl|]; intros E; apply (Hz E t1 e1 H1).
    + destruct Hl as [Hl Hr]; split; [exact Hl|]; pose proof (total_member counted _ _ _ counted_01 Ht); cbn in *; lia.
  - discriminate.
Qed.

Lemma inv_wake s : inv s -> inv (mk_sys (sem s) (wake_up_all (threads s))).
Proof.
  intros Hi; unfold wake_up_all.
  assert (Hg : forall t p e, (wake <$> threads s) !! t = Some (p, e) -> exists p0, threads s !! t = Some (p0, e) /\ (p = p0 \/ (p0 = WSleep /\ p = WWait))).
  { intros t p e H; rewrite list_lookup_fmap in H; destruct (threads s !! t) as [[p0 e0]|]; [|discriminate]; cbn in H.
    destruct p0; cbn in H; injection H as <- <-; eauto. }
  assert (Hb : forall t p e, threads s !! t = Some (p, e) -> exists p1, (wake <$> threads s) !! t = Some (p1, e) /\ (p1 = p \/ (p = WSleep /\ p1 = WWait))).
  { intros t p e H; rewrite list_lookup_fmap, H; destruct p; cbn; eauto. }
  constructor; cbn [sem threads].
  - rewrite length_fmap; exact (iv_len _ Hi).
  - exact (iv_low _ Hi).
  - rewrite !total_wake by reflexivity; exact (iv_sum _ Hi).
  - rewrite total_wake by reflexivity; exact (iv_writers _ Hi).
  - rewrite total_wake by reflexivity; exact (iv_readers _ Hi).
  - rewrite total_wake by reflexivity; exact (iv_owner _ Hi).
  - exact (iv_excl _ Hi).
  - rewrite total_wake by reflexivity; intros t p e H; destruct (Hg t p e H) as (p0 & H0 & [-> |[-> ->]]); [apply (iv_local _ Hi t p0 e H0)|].
    apply (iv_local _ Hi t WSleep e H0).
  - intros t k c e t' p' e' H H'; destruct (Hg _ _ _ H) as (p0 & H0 & [<- |[_ E]]); [|discriminate].
    destruct (Hg _ _ _ H') as (p1 & H1 & [-> |[-> ->]]); exact (iv_quiet _ Hi t k c e t' _ e' H0 H1).
  - intros t p e t' e' H Hin; destruct (Hg _ _ _ H) as (p0 & H0 & E).
    assert (Hin' : (t', e') ∈ open_of p0) by (destruct E as [-> |[-> ->]]; exact Hin).
    destruct (iv_open _ Hi t p0 e t' e' H0 Hin') as (p1 & e1 & H1 & Hle & Hs); destruct (Hb _ _ _ H1) as (p2 & H2 & E2).
    exists p2, e1; split; [exact H2|split; [exact Hle|]]; intros X; specialize (Hs X); destruct E2 as [-> |[-> ->]]; [exact Hs|discriminate].
Qed.

Lemma inv_low_wake s t e : inv s -> threads s !! t = Some (LowDec, e) -> u32 (lowway_cnt (sem s) - 1) = 0 ->
  inv (mk_sys (with_lowway 0 (sem s)) (wake_up_all (<[t := (Idle, e)]> (threads s)))).
Proof.
  intros Hi Ht E0; pose proof (inv_wake s Hi) as Hi'; rewrite <- E0.
  assert (Et : wake_up_all (<[t := (Idle, e)]> (threads s)) = <[t := (Idle, e)]> (wake_up_all (threads s))) by (unfold wake_up_all; rewrite list_fmap_insert; reflexivity).
  rewrite Et; apply (inv_low_dec _ t e Hi'); cbn [threads].
  - unfold wake_up_all; rewrite list_lookup_fmap, Ht; reflexivity.
  - intros _ t1 e1 H; unfold wake_up_all in H; rewrite list_lookup_fmap in H; destruct (threads s !! t1) as [[p0 e0]|]; [|discriminate].
    destruct p0; cbn in H; discriminate.
Qed.

Lemma inv_down_write s t e : inv s -> threads s !! t = Some (WSem, e) -> sem_writer (sem s) = false -> sem_readers (sem s) = 0 ->
  inv (mk_sys (with_sem 0 true (sem s)) (<[t := (WClear 0 0, e)]> (threads s))).
Proof.
  intros Hi Ht Hw Hr; apply (quiet_step s t WSem (WClear 0 0) e e _ Hi Ht); cbn; auto; try lia; try discriminate.
  - rewrite Hw; reflexivity.
  - split; [unfold zlen; lia|intros i Hx; lia].
  - intros t1 k c e1 _ E; exact (iv_quiet _ Hi t1 k c e1 t _ e E Ht).
Qed.

Lemma inv_read_cpu s t e c sum : inv s -> threads s !! t = Some (WClear c sum, e) -> c < zlen (highway_cnt (sem s)) ->
  inv (mk_sys (sem s) (<[t := (WZero c (u32 (sum + (highway_cnt (sem s)).[c])), e)]> (threads s))).
Proof.
  intros Hi Ht Hc; pose proof (iv_local _ Hi t _ e Ht) as [[Hc0 _] Hcl]; set (x := (highway_cnt (sem s)).[c]).
  apply (inv_update s t (WClear c sum) (WZero c (u32 (sum + x))) e e _ Hi Ht (- ((sum + x) / 2 ^ 32))); cbn; auto; try lia; try discriminate.
  - exact (iv_low _ Hi).
  - fold x; unfold u32, zsum; lia.
  - exact (iv_excl _ Hi).
  - intros t1 p1 e1 _ _ Hl; replace (total counted (threads s) - 0 + 0) with (total counted (threads s)) by lia; exact Hl.
  - intros t1 k c1 e1 _ E; exact (iv_quiet _ Hi t1 k c1 e1 t _ e E Ht).
Qed.

Lemma others_not_owner s t p e t1 p1 e1 : inv s -> threads s !! t = Some (p, e) -> sem_owner p = 1 -> t1 <> t -> threads s !! t1 = Some (p1, e1) -> sem_owner p1 = 0.
Proof.
  intros Hi Ht Ho Hne H1; destruct (Z.eq_dec (sem_owner p1) 1) as [E|E]; [exfalso; apply Hne; eapply owner_unique; eauto|].
  pose proof (sem_owner_01 p1); lia.
Qed.

Lemma inv_zero_cpu s t e c sum : inv s -> threads s !! t = Some (WZero c sum, e) ->
  inv (mk_sys (with_highway ((highway_cnt (sem s)).[c <- 0]) (sem s)) (<[t := (WClear (c + 1) sum, e)]> (threads s))).
Proof.
  intros Hi Ht; pose proof (iv_local _ Hi t _ e Ht) as [Hc Hcl]; set (hw := highway_cnt (sem s)) in *; set (hw' := hw.[c <- 0]).
  assert (Hlen : zlen hw' = zlen hw) by apply zlen_aset.
  assert (Hget : forall i, hw'.[i] = if c =? i then 0 else hw.[i]) by (intros i; apply aget_aset; exact Hc).
  assert (Hf : total (flight hw') (threads s) - flight hw' (WZero c sum) = total (flight hw) (threads s) - flight hw (WZero c sum)).
  { pose proof (total_insert (flight hw') _ t _ (Idle, e) Ht) as E1; pose proof (total_insert (flight hw) _ t _ (Idle, e) Ht) as E2.
    rewrite (total_ext (flight hw') (flight hw)) in E1; [cbn [fst] in E1, E2; cbn [flight] in *; lia|].
    intros t1 [p1 e1] H1; destruct (decide (t1 = t)) as [->|Hne].
    - rewrite list_lookup_insert_eq in H1 by (eapply lookup_lt_Some; exact Ht); injection H1 as <- <-; reflexivity.
    - rewrite list_lookup_insert_ne in H1 by congruence; pose proof (others_not_owner s t _ e t1 p1 e1 Hi Ht eq_refl Hne H1); destruct p1; cbn in *; lia || reflexivity. }
  apply (inv_update s t (WZero c sum) (WClear (c + 1) sum) e e _ Hi Ht 0);
    cbn [highway_cnt lowway_cnt writers_cnt sem_readers sem_writer with_highway writer sem_reader sem_owner counted in_section open_of quiet_ok]; auto; try lia; try discriminate.
  - exact (iv_low _ Hi).
  - rewrite Hf; unfold hw'; rewrite zsum_aset by exact Hc; cbn [flight]; fold hw; lia.
  - exact (iv_excl _ Hi).
  - apply others_free; [exact Hi|exact Hlen|intros t1 p1 e1 Hne H1; exact (others_not_owner s t _ e t1 p1 e1 Hi Ht eq_refl Hne H1)].
  - cbn; fold hw hw'; rewrite Hlen; split; [lia|]; intros i Hx; rewrite Hget; destruct (Z.eqb_spec c i); [reflexivity|apply Hcl; lia].
  - intros t1 k c1 e1 _ E; exact (iv_quiet _ Hi t1 k c1 e1 t _ e E Ht).
Qed.

Lemma inv_add_sum s t e c sum : inv s -> threads s !! t = Some (WClear c sum, e) -> zlen (highway_cnt (sem s)) <= c ->
  inv (mk_sys (with_lowway (u32 (lowway_cnt (sem s) + sum)) (sem s)) (<[t := (WWait, e)]> (threads s))).
Proof.
  intros Hi Ht Hc; pose proof (iv_local _ Hi t _ e Ht) as [Hc0 Hcl].
  apply (inv_update s t (WClear c sum) WWait e e _ Hi Ht (- ((lowway_cnt (sem s) + sum) / 2 ^ 32))); cbn; auto; try lia; try discriminate.
  - unfold u32, zsum; lia.
  - unfold u32, zsum; lia.
  - exact (iv_excl _ Hi).
  - apply others_free; [exact Hi|reflexivity|intros t1 p1 e1 Hne H1; exact (others_not_owner s t _ e t1 p1 e1 Hi Ht eq_refl Hne H1)].
  - intros i Hx; apply Hcl; lia.
  - intros t1 k c1 e1 _ E; exact (iv_quiet _ Hi t1 k c1 e1 t _ e E Ht).
Qed.

Lemma inv_step s t s' : inv s -> step s t s' -> inv s'.
Proof.
  intros Hi (p & e & Ht & Hs); pose proof (inv_local_steps s t e p s' Hi Ht Hs) as H.
  destruct Hs; try exact H.
  - apply inv_add; assumption.
  - destruct H0 as [-> | ->]; exact H.
  - apply inv_low_inc; assumption.
  - apply inv_low_dec; [assumption|assumption|contradiction].
  - apply inv_low_wake; assumption.
  - apply inv_down_write; assumption.
  - apply inv_read_cpu; assumption.
  - apply inv_zero_cpu; assumption.
  - eapply inv_add_sum; eassumption.
Qed.

Lemma inv_init cpus n r : Z.of_nat n < 2 ^ 31 -> __rps_init_rwsem (Some (replicate cpus 0)) = Some r -> inv (mk_sys r (replicate n (Idle, O))).
Proof.
  intros Hn E; injection E as <-; assert (Hl : forall t p e, replicate n (Idle, O) !! t = Some (p, e) -> p = Idle /\ e = O) by (intros t p e H; apply lookup_replicate in H; destruct H as [H _]; injection H; auto).
  constructor; cbn [sem threads highway_cnt lowway_cnt writers_cnt sem_readers sem_writer]; rewrite ?total_replicate by reflexivity; try reflexivity.
  - rewrite length_replicate; exact Hn.
  - lia.
  - exists 0; rewrite zsum_zero; [lia|]; intros i Hx; apply aget_replicate; unfold zlen in Hx; rewrite length_replicate in Hx; exact Hx.
  - intros t p e H; destruct (Hl t p e H) as [-> _]; exact I.
  - intros t k c e t' p' e' H; destruct (Hl _ _ _ H); discriminate.
  - intros t p e t' e' H; destruct (Hl _ _ _ H) as [-> _]; intros Hin; inversion Hin.
Qed.

Lemma reachable_inv cpus n s : Z.of_nat n < 2 ^ 31 -> reachable cpus n s -> inv s.
Proof. intros Hn H; induction H; [eapply inv_init; eassumption|eapply inv_step; eassumption]. Qed.

Lemma reachable_cpus cpus n s : reachable cpus n s -> zlen (highway_cnt (sem s)) = Z.of_nat cpus.
Proof.
  intros H; induction H as [r E|s t s' _ IH (p & e & _ & Hs)]; [injection E as <-; cbn; unfold zlen; rewrite length_replicate; reflexivity|].
  destruct Hs; cbn; rewrite ?zlen_aset; exact IH.
Qed.

(** ** Exclusion and progress *)

(** C17: mutual exclusion of the semaphore, for every number of cores, every number of
    threads below 2^31 and every interleaving of their atomic steps: while one thread is
    past [rps_down_write], no other thread is counted as a reader, whichever way it
    entered and whichever way it is about to leave, and no other thread is past
    [rps_down_write]. *)
Theorem rps_mutual_exclusion cpus n s t e t' p e' :
  Z.of_nat n < 2 ^ 31 -> reachable cpus n s ->
  threads s !! t = Some (Writing, e) -> threads s !! t' = Some (p, e') -> t' <> t ->
  counted p = 0 /\ p <> Writing /\ p <> Reading.
Proof.
  intros Hn Hr Ht Ht' Hne; pose proof (reachable_inv cpus n s Hn Hr) as Hi.
  assert (Hc : counted p = 0).
  { pose proof (iv_local _ Hi t Writing e Ht) as [_ H0]; pose proof (total_member counted _ _ _ counted_01 Ht'); pose proof (counted_01 p); cbn in *; lia. }
  split; [exact Hc|split; intros ->; [|discriminate]].
  pose proof (others_not_owner s t Writing e t' Writing e' Hi Ht eq_refl Hne Ht'); discriminate.
Qed.

(** A thread that can run, among those inside the semaphore. *)
Definition can_run (s : sys) : Prop := exists t p e s', threads s !! t = Some (p, e) /\ p <> Idle /\ step_at s t e p s'.

Ltac runs H := eexists _, _, _, _; split; [exact H|split; [discriminate|
  first [ apply st_check; assumption | apply st_miss; assumption | apply st_add | apply st_try_fails | apply st_low_inc | apply st_low_up
        | apply st_low_wake; assumption | apply st_low_dec; assumption | apply st_sync | apply st_grace; assumption
        | apply st_down_write; assumption | apply st_read_cpu; assumption | apply st_zero_cpu | apply st_go; assumption
        | apply st_sleep; assumption | apply st_up_write | apply st_sync2 | apply st_grace2; assumption | apply st_leave
        | apply st_low_sem; [auto|assumption] ]]].

Lemma section_runs s t p e : threads s !! t = Some (p, e) -> in_section p = true -> can_run s.
Proof. intros H Hp; destruct p; try discriminate; [destruct (Z.eq_dec (writers_cnt (sem s)) 0); runs H|runs H]. Qed.

Lemma reader_runs s t p e : 0 < zlen (highway_cnt (sem s)) -> threads s !! t = Some (p, e) -> 0 < counted p -> can_run s.
Proof.
  intros Hz H Hp; destruct p; cbn in Hp; try lia; try (eapply section_runs; [exact H|reflexivity]).
  - runs H.
  - eexists _, _, _, _; split; [exact H|split; [discriminate|apply (st_up s t e 0); lia]].
  - destruct (Z.eq_dec (u32 (lowway_cnt (sem s) - 1)) 0); runs H.
Qed.

Lemma sleeper_waits s t e : inv s -> threads s !! t = Some (WSleep, e) -> exists t' p' e', threads s !! t' = Some (p', e') /\ 0 < counted p'.
Proof.
  intros Hi H; pose proof (iv_local _ Hi t _ e H) as [_ Hl]; rewrite (lowway_readers s t WSleep e Hi H) in Hl by auto.
  pose proof (total_bounds counted (threads s) counted_01) as Hb.
  destruct (total_pos counted (threads s)) as (t' & [p' e'] & H' & Hp); [intros q; apply counted_01|lia|eauto].
Qed.

Lemma owner_runs s t p e : inv s -> 0 < zlen (highway_cnt (sem s)) -> threads s !! t = Some (p, e) -> 0 < sem_owner p -> can_run s.
Proof.
  intros Hi Hz H Hp; destruct p; cbn in Hp; try lia.
  - destruct (Z_lt_ge_dec cpu (zlen (highway_cnt (sem s)))); [runs H|].
    eexists _, _, _, _; split; [exact H|split; [discriminate|apply st_add_sum; lia]].
  - runs H.
  - destruct (Z.eq_dec (lowway_cnt (sem s)) 0); runs H.
  - destruct (sleeper_waits s t e Hi H) as (t' & p' & e' & H' & Hc); eapply reader_runs; eassumption.
  - runs H.
Qed.

Lemma held_runs s : inv s -> 0 < zlen (highway_cnt (sem s)) -> sem_writer (sem s) = true -> can_run s.
Proof.
  intros Hi Hz Hw; pose proof (iv_owner _ Hi) as E; rewrite Hw in E; cbn in E.
  destruct (total_pos sem_owner (threads s)) as (t & [p e] & H & Hp); [intros q; apply sem_owner_01|lia|eapply owner_runs; eassumption].
Qed.

Lemma grace_runs s t p e : inv s -> threads s !! t = Some (p, e) -> elapsed (open_of p) (threads s) \/ can_run s.
Proof.
  intros Hi H; assert (Ho : forall t' e', (t', e') ∈ open_of p -> exists p1 e1, threads s !! t' = Some (p1, e1) /\ (e1 = e' -> in_section p1 = true)).
  { intros t' e' Hin; destruct (iv_open _ Hi t p e t' e' H Hin) as (p1 & e1 & H1 & _ & Hs); eauto. }
  revert Ho; generalize (open_of p); intros o; induction o as [|[t' e'] o IH]; intros Ho; [left; intros ? ? Hin; inversion Hin|].
  destruct IH as [IH|IH]; [intros; apply Ho; right; assumption| |right; exact IH].
  destruct (Ho t' e' ltac:(left)) as (p1 & e1 & H1 & Hs); destruct (Nat.eq_dec e1 e') as [->|Hne]; [right; eapply section_runs; eauto|left].
  intros t2 e2 Hin; apply elem_of_cons in Hin; destruct Hin as [E|Hin]; [injection E as -> ->; eauto|apply IH; exact Hin].
Qed.

Lemma inside_runs s t p e : inv s -> 0 < zlen (highway_cnt (sem s)) -> threads s !! t = Some (p, e) -> p <> Idle -> can_run s.
Proof.
  intros Hi Hz H Hp.
  destruct (Z_lt_ge_dec 0 (sem_owner p)) as [Ho|Ho]; [eapply owner_runs; eassumption|].
  destruct (Z_lt_ge_dec 0 (counted p)) as [Hc|Hc]; [eapply reader_runs; eassumption|].
  destruct p; cbn in *; try lia; try congruence; try (eapply section_runs; [exact H|reflexivity]); try (runs H; fail).
  - destruct (sem_writer (sem s)) eqn:Ew; [apply held_runs; assumption|runs H].
  - destruct (grace_runs s t _ e Hi H) as [He|He]; [runs H|exact He].
  - destruct (sem_writer (sem s)) eqn:Ew; [apply held_runs; assumption|].
    destruct (Z.eq_dec (sem_readers (sem s)) 0) as [Er|Er]; [runs H|]; pose proof (iv_readers _ Hi) as E; pose proof (total_bounds sem_reader (threads s) sem_reader_01).
    destruct (total_pos sem_reader (threads s)) as (t1 & [p1 e1] & H1 & Hr); [intros q; apply sem_reader_01|lia|].
    destruct p1; cbn in Hr; try lia; runs H1.
  - destruct (grace_runs s t _ e Hi H) as [He|He]; [runs H|exact He].
Qed.

(** C18: the semaphore never deadlocks: in every reachable state in which some thread is
    inside it (waiting for the counters, for the inner semaphore, for a grace period, or
    holding it), some thread that is inside it can take a step.  In particular a sleeping
    writer is never forgotten: [writers_wait_q] is woken by the reader that brings
    [lowway_cnt] to zero. *)
Theorem rps_deadlock_free cpus n s t p e :
  Z.of_nat n < 2 ^ 31 -> (0 < cpus)%nat -> reachable cpus n s ->
  threads s !! t = Some (p, e) -> p <> Idle -> can_run s.
Proof.
  intros Hn Hc Hr Ht Hp; apply (inside_runs s t p e (reachable_inv cpus n s Hn Hr)); [rewrite (reachable_cpus cpus n s Hr); lia|exact Ht|exact Hp].
Qed.


(** ** Runs *)

(** What a thread does next where the code leaves a choice: which operation it calls and
    the core it runs on, or that [down_read_trylock] fails. *)
Inductive choice := Read (k : way) (c : Z) | Write | Run | Fails.

Definition elapsedb (open : list (nat * nat)) (l : list thread) : bool :=
  forallb (fun x => match l !! x.1 with Some (_, e') => negb (Nat.eqb e' x.2) | None => false end) open.

(** The step as a function. *)
Definition next (s : sys) (t : nat) (ch : choice) : option sys :=
  let r := sem s in let n := zlen (highway_cnt r) in
  match threads s !! t with
  | None => None
  | Some (p, e) =>
    let to r' p' := Some (mk_sys r' (<[t := (p', e)]> (threads s))) in
    let out r' p' := Some (mk_sys r' (<[t := (p', S e)]> (threads s))) in
    match p, ch with
    | Idle, Read Up _ => None
    | Idle, Read k c => if (0 <=? c) && (c <? n) then to r (HwCheck k c) else None
    | Idle, Write => to (with_writers (u32 (writers_cnt r + 1)) r) WEnter
    | Reading, Read Up c => if (0 <=? c) && (c <? n) then to r (HwCheck Up c) else None
    | HwCheck k c, Run => if writers_cnt r =? 0 then to r (HwAdd k c) else out r (after_miss k)
    | HwAdd k c, Run => out (with_highway ((highway_cnt r).[c <- u32 ((highway_cnt r).[c] + go_val k)]) r) (after_highway k)
    | LowSem, Run | TrySem, Run => if sem_writer r then None else to (with_sem (sem_readers r + 1) false r) LowInc
    | TrySem, Fails => to r Idle
    | LowInc, Run => to (with_lowway (u32 (lowway_cnt r + 1)) r) LowUp
    | LowUp, Run => to (with_sem (sem_readers r - 1) (sem_writer r) r) Reading
    | LowDec, Run =>
      if u32 (lowway_cnt r - 1) =? 0 then Some (mk_sys (with_lowway 0 r) (wake_up_all (<[t := (Idle, e)]> (threads s))))
      else to (with_lowway (u32 (lowway_cnt r - 1)) r) Idle
    | WEnter, Run => to r (WGrace (sections (threads s)))
    | WGrace open, Run => if elapsedb open (threads s) then to r WSem else None
    | WSem, Run => if negb (sem_writer r) && (sem_readers r =? 0) then to (with_sem 0 true r) (WClear 0 0) else None
    | WClear c sum, Run =>
      if c <? n then to r (WZero c (u32 (sum + (highway_cnt r).[c]))) else to (with_lowway (u32 (lowway_cnt r + sum)) r) WWait
    | WZero c sum, Run => to (with_highway ((highway_cnt r).[c <- 0]) r) (WClear (c + 1) sum)
    | WWait, Run => if lowway_cnt r =? 0 then to r Writing else to r WSleep
    | Writing, Run => to (with_sem (sem_readers r) false r) WLeave
    | WLeave, Run => to r (WGrace2 (sections (threads s)))
    | WGrace2 open, Run => if elapsedb open (threads s) then to r WDec else None
    | WDec, Run => to (with_writers (u32 (writers_cnt r - 1)) r) Idle
    | _, _ => None
    end
  end.

Lemma elapsedb_ok open l : elapsedb open l = true -> elapsed open l.
Proof.
  intros H t e Hin; unfold elapsedb in H; rewrite forallb_forall in H; apply list_elem_of_In in Hin; specialize (H _ Hin); cbn in H.
  destruct (l !! t) as [[p e']|]; [|discriminate]; apply negb_true_iff, Nat.eqb_neq in H; eauto.
Qed.

#[local] Hint Constructors step_at : core.

Lemma next_step s t ch s' : next s t ch = Some s' -> step s t s'.
Proof.
  unfold next; destruct (threads s !! t) as [[p e]|] eqn:Ht; [|discriminate]; intros H; exists p, e; split; [exact Ht|].
  destruct p, ch as [[] ?| | |]; try discriminate;
    repeat match type of H with
    | (if ?b then _ else _) = _ => let E := fresh in destruct b eqn:E; try discriminate
    | (let _ := _ in _) = _ => cbn zeta in H
    end; injection H as <-;
    repeat match goal with
    | E : (_ && _) = true |- _ => apply andb_true_iff in E; destruct E
    | E : (_ <=? _) = true |- _ => apply Z.leb_le in E
    | E : (_ <? _) = true |- _ => apply Z.ltb_lt in E
    | E : (_ <? _) = false |- _ => apply Z.ltb_ge in E
    | E : (_ =? _) = true |- _ => apply Z.eqb_eq in E
    | E : (_ =? _) = false |- _ => apply Z.eqb_neq in E
    | E : negb _ = true |- _ => apply negb_true_iff in E
    | E : elapsedb _ _ = true |- _ => apply elapsedb_ok in E
    end; auto.
Qed.

Fixpoint run (s : sys) (l : list (nat * choice)) : option sys :=
  match l with
  | [] => Some s
  | (t, ch) :: l' => match next s t ch with Some s' => run s' l' | None => None end
  end.

Lemma run_reachable cpus n s l s' : reachable cpus n s -> run s l = Some s' -> reachable cpus n s'.
Proof.
  revert s; induction l as [|[t ch] l IH]; intros s Hr H; cbn in H; [injection H as <-; exact Hr|].
  destruct (next s t ch) as [s1|] eqn:E; [|discriminate]; apply (IH s1); [eapply reach_step; [exact Hr|eapply next_step; exact E]|exact H].
Qed.

(** Two cores.  Thread 1 reads through core 1; thread 0 comes to write and sleeps. *)
Definition ex_asleep : sys := mk_sys (mk_rps [0; 0] 1 1 0 true) [(WSleep, O); (Reading, 1%nat)].
Definition ex_to_sleep : list (nat * choice) :=
  [(1%nat, Read Down 1); (1%nat, Run); (0%nat, Write); (0%nat, Run); (1%nat, Run)] ++ replicate 8 (0%nat, Run).

Lemma ex_asleep_reachable : reachable 2 2 ex_asleep.
Proof. apply (run_reachable 2 2 _ ex_to_sleep _ (reach_init 2 2 _ eq_refl)); vm_compute; reflexivity. Qed.

(** The reader leaves on the other core, and the writer runs while thread 1 waits. *)
Definition ex_writing : sys := mk_sys (mk_rps [0; 0] 0 1 0 true) [(Writing, O); (LowSem, 3%nat)].
Definition ex_to_write : list (nat * choice) :=
  [(1%nat, Read Up 0); (1%nat, Run); (1%nat, Run); (0%nat, Run); (1%nat, Read Down 0); (1%nat, Run)].

Lemma ex_writing_reachable : reachable 2 2 ex_writing.
Proof. apply (run_reachable 2 2 _ ex_to_write _ ex_asleep_reachable); vm_compute; reflexivity. Qed.

Lemma rps_mutual_exclusion_witness :
  reachable 2 2 ex_writing /\ (counted LowSem = 0 /\ LowSem <> Writing /\ LowSem <> Reading).
Proof.
  split; [exact ex_writing_reachable|].
  apply (rps_mutual_exclusion 2 2 ex_writing 0 0 1 LowSem 3); [lia|exact ex_writing_reachable|reflexivity|reflexivity|discriminate].
Defined.

Lemma rps_deadlock_free_witness : can_run ex_asleep /\ can_run ex_writing.
Proof.
  split.
  - apply (rps_deadlock_free 2 2 ex_asleep 0 WSleep 0); [lia|lia|exact ex_asleep_reachable|reflexivity|discriminate].
  - apply (rps_deadlock_free 2 2 ex_writing 1 LowSem 3); [lia|lia|exact ex_writing_reachable|reflexivity|discriminate].
Defined.

