(* ===== verification/Extent.v ===== *)
(** Extents of a file and the cache of one extent in the inode (src/Max/f2fs.h: struct
    extent_info and its helpers; src/Max/data.c: lookup_extent_info,
    update_extent_info): the cached extent agrees with the file's block map after every
    sequence of updates. *)

From Stdlib Require Import ZArith Lia Bool.
From stdpp Require Import base numbers list.
From S2P Require Import Prelude Layout.

#[local] Open Scope Z_scope.
#[local] Ltac Zify.zify_post_hook ::= Z.to_euclidean_division_equations.

(** * Definitions *)

Definition F2FS_MIN_EXTENT_LEN : Z := 64.

(** [struct extent_info], three 32-bit fields; [struct f2fs_extent] on disk holds the
    same three numbers. *)
Record extent_info := mk_ei { ei_fofs : Z; ei_blk : Z; ei_len : Z }.

#[global] Instance extent_info_inhabited : Inhabited extent_info := populate (mk_ei 0 0 0).
#[global] Instance extent_info_eq_dec : EqDecision extent_info.
Proof. solve_decision. Defined.

Definition with_ei_len (v : Z) (e : extent_info) : extent_info := mk_ei (ei_fofs e) (ei_blk e) v.

Definition set_extent_info (fofs blk len : Z) : extent_info := mk_ei (u32 fofs) (u32 blk) (u32 len).

Definition __is_extent_same (e1 e2 : extent_info) : bool :=
  (ei_fofs e1 =? ei_fofs e2) && (ei_blk e1 =? ei_blk e2) && (ei_len e1 =? ei_len e2).

Definition __is_extent_mergeable (back front : extent_info) : bool :=
  (u32 (ei_fofs back + ei_len back) =? ei_fofs front) && (u32 (ei_blk back + ei_len back) =? ei_blk front).

Definition __is_back_mergeable (cur back : extent_info) : bool := __is_extent_mergeable back cur.
Definition __is_front_mergeable (cur front : extent_info) : bool := __is_extent_mergeable cur front.

(** What the extent caches use of [struct f2fs_inode_info]: the cached extent and the
    flag FI_NO_EXTENT. *)
Record ext_inode := mk_ext_inode { fi_ext : extent_info; fi_no_extent : bool }.

Definition get_extent_info (i_ext : extent_info) (fi : ext_inode) : ext_inode := mk_ext_inode i_ext (fi_no_extent fi).

(** [pgoff_t] has 64 bits, the fields of the extent and [block_t] have 32. *)
Definition lookup_extent_info (fi : ext_inode) (pgofs : Z) : option extent_info :=
  let ext := fi_ext fi in
  if ei_len ext =? 0 then None
  else
    let start_fofs := ei_fofs ext in
    let end_fofs := u32 (ei_fofs ext + ei_len ext - 1) in
    if (start_fofs <=? pgofs) && (pgofs <=? end_fofs) then Some ext else None.

(** The tail of [update_extent_info]: a short extent is dropped, and with it the cache. *)
Definition drop_if_short (need_update : bool) (fi : ext_inode) : bool * ext_inode :=
  if ei_len (fi_ext fi) <? F2FS_MIN_EXTENT_LEN then (true, mk_ext_inode (with_ei_len 0 (fi_ext fi)) true)
  else (need_update, fi).

Definition update_extent_info (fi : ext_inode) (fofs blkaddr : Z) : bool * ext_inode :=
  let ext := fi_ext fi in
  let start_fofs := ei_fofs ext in
  let end_fofs := u32 (ei_fofs ext + ei_len ext - 1) in
  let start_blkaddr := ei_blk ext in
  let end_blkaddr := u32 (ei_blk ext + ei_len ext - 1) in
  let with_ext e := mk_ext_inode e (fi_no_extent fi) in
  let ext := if (ei_len ext =? 1) && (fofs =? start_fofs) then with_ei_len 0 ext else ext in
  if ei_len ext =? 0 then
    (true, with_ext (if negb (blkaddr =? NULL_ADDR) then mk_ei (u32 fofs) blkaddr 1 else ext))
  else if (fofs =? u64 (start_fofs - 1)) && (blkaddr =? u32 (start_blkaddr - 1)) then
    (true, with_ext (mk_ei (u32 (ei_fofs ext - 1)) (u32 (ei_blk ext - 1)) (u32 (ei_len ext + 1))))
  else if (fofs =? u64 (end_fofs + 1)) && (blkaddr =? u32 (end_blkaddr + 1)) then
    (true, with_ext (with_ei_len (u32 (ei_len ext + 1)) ext))
  else if (1 <? ei_len ext) && (start_fofs <=? fofs) && (fofs <=? end_fofs) then
    drop_if_short true (with_ext
      (if u64 (end_fofs - fofs) <? Z.shiftr (ei_len ext) 1 then with_ei_len (u32 (fofs - start_fofs)) ext
       else mk_ei (u32 (fofs + 1)) (u32 (start_blkaddr + fofs - start_fofs + 1)) (u32 (ei_len ext - (fofs - start_fofs + 1)))))
  else drop_if_short false (with_ext ext).

(** The address [get_read_data_page] reads when the cache knows the page. *)
Definition cached_blkaddr (ei : extent_info) (index : Z) : Z := u32 (ei_blk ei + index - ei_fofs ei).

(** * Properties *)

(** ** Extents and block maps *)

(** An extent is a run of file pages at consecutive block addresses. *)
Definition covers (e : extent_info) (p : Z) : Prop := ei_fofs e <= p < ei_fofs e + ei_len e.
Definition maps (e : extent_info) (p : Z) : Z := ei_blk e + (p - ei_fofs e).

Record ei_wf (e : extent_info) : Prop := {
  ew_fofs : 0 <= ei_fofs e;
  ew_end : ei_fofs e + ei_len e < 2 ^ 32;
  ew_blk : 1 < ei_blk e;
  ew_blk_end : ei_blk e + ei_len e < 2 ^ 32;
}.

(** A page of a file and the address of its block, [NULL_ADDR] for a hole.  Block 0 and 1
    hold the superblock, and the last 32-bit number is [NEW_ADDR]. *)
Definition page_in_range (fofs blkaddr : Z) : Prop :=
  0 <= fofs < 2 ^ 32 - 1 /\ (blkaddr = NULL_ADDR \/ 1 < blkaddr < 2 ^ 32 - 1).

(** The file's block map and its update. *)
Definition set_page (m : Z -> Z) (fofs blkaddr : Z) : Z -> Z := fun p => if p =? fofs then blkaddr else m p.

(** The cached extent agrees with the map. *)
Definition coherent (m : Z -> Z) (e : extent_info) : Prop := forall p, covers e p -> m p = maps e p.

Definition fi_ok (m : Z -> Z) (fi : ext_inode) : Prop :=
  0 <= ei_len (fi_ext fi) /\ (0 < ei_len (fi_ext fi) -> ei_wf (fi_ext fi) /\ coherent m (fi_ext fi)).

Lemma lookup_info_covers m fi pgofs ei : fi_ok m fi -> lookup_extent_info fi pgofs = Some ei -> ei = fi_ext fi /\ ei_wf ei /\ covers ei pgofs.
Proof.
  intros [Hl Hw] H; unfold lookup_extent_info in H; destruct (Z.eqb_spec (ei_len (fi_ext fi)) 0) as [|Hne]; [discriminate|].
  destruct Hw as [[H1 H2 H3 H4] _]; [lia|]; unfold u32 in H; rewrite (Z.mod_small (_ + _ - 1)) in H by lia.
  destruct ((_ <=? pgofs) && (pgofs <=? _)) eqn:E; [injection H as <-|discriminate]; apply andb_true_iff in E; destruct E as [E1 E2].
  split; [reflexivity|split; [split; assumption|unfold covers; lia]].
Qed.

Lemma cached_blkaddr_maps e p : ei_wf e -> covers e p -> cached_blkaddr e p = maps e p.
Proof. intros [] Hc; unfold cached_blkaddr, maps, covers in *; rewrite u32_small; lia. Qed.

Lemma drop_ok m b fi : fi_ok m fi -> fi_ok m (snd (drop_if_short b fi)).
Proof. intros H; unfold drop_if_short; destruct (_ <? _); [split; cbn; lia|exact H]. Qed.

Lemma fi_ok_intro m e b : 0 <= ei_len e -> (0 < ei_len e -> ei_wf e) -> (forall p, covers e p -> m p = maps e p) -> fi_ok m (mk_ext_inode e b).
Proof. intros H0 Hw Hc; split; [exact H0|intros Hl; split; [apply Hw, Hl|exact Hc]]. Qed.

Lemma set_page_same m fofs b p : p = fofs -> set_page m fofs b p = b.
Proof. intros ->; unfold set_page; rewrite Z.eqb_refl; reflexivity. Qed.
Lemma set_page_other m fofs b p : p <> fofs -> set_page m fofs b p = m p.
Proof. intros H; unfold set_page; rewrite (proj2 (Z.eqb_neq p fofs) H); reflexivity. Qed.

(** The page outside the extent: nothing changes. *)
Lemma coherent_outside m e fofs b : coherent m e -> ~ covers e fofs -> coherent (set_page m fofs b) e.
Proof. intros Hc Hn p Hp; rewrite set_page_other; [apply Hc, Hp|intros ->; apply Hn, Hp]. Qed.

Lemma coherent_sub m e e' fofs b : coherent m e -> ~ covers e' fofs -> (forall p, covers e' p -> covers e p /\ maps e' p = maps e p) -> coherent (set_page m fofs b) e'.
Proof. intros Hc Hn Hs; refine (coherent_outside m e' fofs b _ Hn); intros p Hp; destruct (Hs p Hp) as [H1 ->]; apply Hc, H1. Qed.

Lemma update_info_ok m fi fofs blkaddr : fi_ok m fi -> page_in_range fofs blkaddr ->
  fi_ok (set_page m fofs blkaddr) (snd (update_extent_info fi fofs blkaddr)).
Proof.
  intros [Hl Hok] [Hf Hb]; unfold update_extent_info; set (e0 := fi_ext fi) in *; unfold NULL_ADDR in *.
  assert (Hhit : forall v, v = (if (ei_len e0 =? 1) && (fofs =? ei_fofs e0) then with_ei_len 0 e0 else e0) ->
    ei_len v = 0 \/ (v = e0 /\ 0 < ei_len e0 /\ (ei_len e0 = 1 -> fofs <> ei_fofs e0))).
  { intros v ->; destruct (Z.eqb_spec (ei_len e0) 1), (Z.eqb_spec fofs (ei_fofs e0)); cbn; destruct (Z.eq_dec (ei_len e0) 0); auto; right; repeat split; lia. }
  set (e := if (ei_len e0 =? 1) && _ then _ else _); destruct (Hhit e eq_refl) as [He|(He & Hpos & H1)].
  - rewrite He; cbn [Z.eqb snd]; destruct (Z.eqb_spec blkaddr 0) as [->|Hn]; cbn [negb].
    + apply fi_ok_intro; [lia|lia|intros p Hp; unfold covers in Hp; lia].
    + apply fi_ok_intro; cbn; [lia|intros _; constructor; cbn; unfold u32; lia|].
      unfold covers, maps; cbn; rewrite u32_small by lia; intros p Hp; rewrite set_page_same; lia.
  - clearbody e; subst e; clear Hhit; destruct (Hok Hpos) as [[W1 W2 W3 W4] Hc]; rewrite (proj2 (Z.eqb_neq (ei_len e0) 0)) by lia.
    unfold u32, u64 in *; rewrite !(Z.mod_small (_ + ei_len e0 - 1)) by lia; rewrite Z.shiftr_div_pow2 by lia.
    assert (Hsub : forall q, ei_wf q -> ~ covers q fofs -> (forall p, covers q p -> covers e0 p /\ maps q p = maps e0 p) -> 0 <= ei_len q ->
      forall b, fi_ok (set_page m fofs blkaddr) (mk_ext_inode q b)).
    { intros q Hq Hn Hs H0 b; apply fi_ok_intro; [exact H0|intros _; exact Hq|apply (coherent_sub m e0); assumption]. }
    destruct (_ && _) eqn:Efront; [|destruct ((fofs =? (_ + 1) mod _) && _) eqn:Eback; [|destruct (_ && _ && _) eqn:Esplit]];
      repeat match goal with E : (_ && _) = true |- _ => apply andb_true_iff in E; destruct E end;
      repeat match goal with E : (_ =? _) = true |- _ => apply Z.eqb_eq in E | E : (_ <=? _) = true |- _ => apply Z.leb_le in E | E : (_ <? _) = true |- _ => apply Z.ltb_lt in E end; cbn [snd].
    + apply fi_ok_intro; cbn [ei_len ei_fofs ei_blk]; [lia|intros _; constructor; cbn; lia|].
      unfold covers, maps; cbn; intros p Hp; destruct (Z.eq_dec p fofs) as [->|Hne]; [rewrite set_page_same; lia|rewrite set_page_other by exact Hne].
      rewrite (Hc p); unfold covers, maps; lia.
    + apply fi_ok_intro; cbn [with_ei_len ei_len ei_fofs ei_blk]; [lia|intros _; constructor; cbn; lia|].
      unfold covers, maps; cbn; intros p Hp; destruct (Z.eq_dec p fofs) as [->|Hne]; [rewrite set_page_same; lia|rewrite set_page_other by exact Hne].
      rewrite (Hc p); unfold covers, maps; lia.
    + apply drop_ok; destruct (Z.ltb_spec ((ei_fofs e0 + ei_len e0 - 1 - fofs) mod 2 ^ 64) (ei_len e0 / 2 ^ 1)) as [Hlt|Hge].
      * apply Hsub; unfold covers, maps; cbn; [constructor; cbn|..]; lia.
      * apply Hsub; unfold covers, maps; cbn; [constructor; cbn|..]; lia.
    + apply drop_ok, Hsub; [constructor; assumption| |auto|lia]; unfold covers; intros Hcv.
      destruct (Z.eq_dec (ei_len e0) 1); [specialize (H1 e); lia|].
      rewrite (proj2 (Z.ltb_lt 1 (ei_len e0))), (proj2 (Z.leb_le (ei_fofs e0) fofs)), (proj2 (Z.leb_le fofs _)) in Esplit by lia; discriminate.
Qed.
