(* ===== verification/ExtentTree.v ===== *)
(** The cache of extents of all files (src/Max/data.c: __attach_extent_node to
    f2fs_update_extent_cache): per inode a search tree of extent nodes, a global list of
    the nodes in the order of use, and the operations on them. *)

From Stdlib Require Import ZArith Lia Bool.
From stdpp Require Import base numbers list gmap sorting.
From S2P Require Import Prelude Keys Layout NodePath Extent.

#[local] Open Scope Z_scope.
#[local] Ltac Zify.zify_post_hook ::= Z.to_euclidean_division_equations.

(** * Definitions *)

(** ** State *)

(** A tree of extent nodes; a node is the number of its allocation. *)
Inductive rb := RB_NULL | rb_node (l : rb) (en : Z) (r : rb).

Fixpoint inorder (t : rb) : list Z :=
  match t with RB_NULL => [] | rb_node l en r => inorder l ++ en :: inorder r end.

Record extent_tree := mk_et {
  et_ino : Z;
  et_root : rb;
  cached_en : option Z;
  et_refcount : Z;
  et_count : Z;
}.

(** The extent fields of [struct f2fs_sb_info].  [ec_nodes] holds the extent nodes that
    are allocated; a node is on the global list when [extent_list] has it, and its own
    list head is empty otherwise. *)
Record ext_cache := mk_ec {
  ec_nodes : gmap Z extent_info;
  extent_tree_root : gmap Z extent_tree;
  extent_list : list Z;
  total_ext_tree : Z;
  total_ext_node : Z;
  ec_next : Z;
  ec_bug : bool;
}.

Definition with_root v t := mk_et (et_ino t) v (cached_en t) (et_refcount t) (et_count t).
Definition with_cached v t := mk_et (et_ino t) (et_root t) v (et_refcount t) (et_count t).
Definition with_refcount v t := mk_et (et_ino t) (et_root t) (cached_en t) v (et_count t).
Definition with_count v t := mk_et (et_ino t) (et_root t) (cached_en t) (et_refcount t) v.

Definition with_nodes_map v c := mk_ec v (extent_tree_root c) (extent_list c) (total_ext_tree c) (total_ext_node c) (ec_next c) (ec_bug c).
Definition with_trees v c := mk_ec (ec_nodes c) v (extent_list c) (total_ext_tree c) (total_ext_node c) (ec_next c) (ec_bug c).
Definition with_ext_list v c := mk_ec (ec_nodes c) (extent_tree_root c) v (total_ext_tree c) (total_ext_node c) (ec_next c) (ec_bug c).
Definition with_total_tree v c := mk_ec (ec_nodes c) (extent_tree_root c) (extent_list c) v (total_ext_node c) (ec_next c) (ec_bug c).
Definition with_total_node v c := mk_ec (ec_nodes c) (extent_tree_root c) (extent_list c) (total_ext_tree c) v (ec_next c) (ec_bug c).
Definition with_ec_next v c := mk_ec (ec_nodes c) (extent_tree_root c) (extent_list c) (total_ext_tree c) (total_ext_node c) v (ec_bug c).
Definition with_ec_bug v c := mk_ec (ec_nodes c) (extent_tree_root c) (extent_list c) (total_ext_tree c) (total_ext_node c) (ec_next c) v.

Definition ec_bug_on (b : bool) (c : ext_cache) : ext_cache := if b then with_ec_bug true c else c.

Definition init_extent_cache_info : ext_cache := mk_ec ∅ ∅ [] 0 0 0 false.

(** The extent of a node. *)
Definition node_ei (h : gmap Z extent_info) (en : Z) : extent_info := default inhabitant (h !! en).
Definition ei_of (c : ext_cache) (en : Z) : extent_info := node_ei (ec_nodes c) en.
Definition set_ei (en : Z) (e : extent_info) (c : ext_cache) : ext_cache := with_nodes_map (<[en := e]> (ec_nodes c)) c.

(** [kmem_cache_free] of an extent node. *)
Definition free_node (en : Z) (c : ext_cache) : ext_cache := with_nodes_map (delete en (ec_nodes c)) c.

(** [list_empty], [list_del], [list_add_tail] and [list_move_tail] on the global list. *)
Definition listed (c : ext_cache) (en : Z) : bool := bool_decide (en ∈ extent_list c).
Definition list_del (en : Z) (c : ext_cache) : ext_cache := with_ext_list (filter (fun x => x <> en) (extent_list c)) c.
Definition list_add_tail (en : Z) (c : ext_cache) : ext_cache := with_ext_list (extent_list c ++ [en]) c.
Definition list_move_tail (en : Z) (c : ext_cache) : ext_cache := list_add_tail en (list_del en c).

(** [rb_first], [rb_last], [rb_prev] and [rb_next]. *)
Definition rb_first (t : rb) : option Z := head (inorder t).
Definition rb_last (t : rb) : option Z := last (inorder t).
Fixpoint before (x : Z) (l : list Z) : option Z :=
  match l with
  | a :: (b :: _) as r => if b =? x then Some a else before x r
  | _ => None
  end.
Fixpoint after (x : Z) (l : list Z) : option Z :=
  match l with
  | a :: r => if a =? x then head r else after x r
  | [] => None
  end.
Definition rb_prev (t : rb) (en : Z) : option Z := before en (inorder t).
Definition rb_next (t : rb) (en : Z) : option Z := after en (inorder t).

(** What the kernel's search trees promise: linking a node recolours and rotates, erasing
    it takes it out, and neither changes the order of the other nodes. *)
Class KernelTrees (rb_insert_color rb_erase : Z -> rb -> rb) : Prop := {
  insert_color_inorder : forall n t, inorder (rb_insert_color n t) = inorder t;
  erase_inorder : forall n t, NoDup (inorder t) -> inorder (rb_erase n t) = filter (fun i => i <> n) (inorder t);
}.

Section Tree.

(** The kernel's balancing of search trees, and whether the n-th allocation of an extent
    node succeeds ([GFP_ATOMIC] may fail). *)
Variable rb_insert_color : Z -> rb -> rb.
Variable rb_erase : Z -> rb -> rb.
Variable alloc_ok : Z -> bool.

(** ** Nodes *)

(** [linked] is the tree with the new node linked at the place the search ended at. *)
Definition __attach_extent_node (ei : extent_info) (linked : rb) (et : extent_tree) (c : ext_cache) :
  option Z * extent_tree * ext_cache :=
  let en := ec_next c in
  let c := with_ec_next (en + 1) c in
  if negb (alloc_ok en) then (None, et, c)
  else
    let c := set_ei en ei c in
    let et := with_count (u32 (et_count et + 1)) (with_root (rb_insert_color en linked) et) in
    (Some en, et, with_total_node (s32 (total_ext_node c + 1)) c).

Definition __detach_extent_node (en : Z) (et : extent_tree) (c : ext_cache) : extent_tree * ext_cache :=
  let et := with_count (u32 (et_count et - 1)) (with_root (rb_erase en (et_root et)) et) in
  let c := with_total_node (s32 (total_ext_node c - 1)) c in
  (if bool_decide (cached_en et = Some en) then with_cached None et else et, c).

(** ** Trees *)

Definition __find_extent_tree (ino : Z) (c : ext_cache) : option extent_tree :=
  match extent_tree_root c !! ino with
  | None => None
  | Some et => Some (with_refcount (s32 (et_refcount et + 1)) et)
  end.

Definition __grab_extent_tree (ino : Z) (c : ext_cache) : extent_tree * ext_cache :=
  let '(et, c) :=
    match extent_tree_root c !! ino with
    | Some et => (et, c)
    | None => (mk_et ino RB_NULL None 0 0, with_total_tree (s32 (total_ext_tree c + 1)) c)
    end in
  (with_refcount (s32 (et_refcount et + 1)) et, c).

(** Puts the tree back and drops the reference. *)
Definition put_tree (et : extent_tree) (c : ext_cache) : ext_cache :=
  with_trees (<[et_ino et := with_refcount (s32 (et_refcount et - 1)) et]> (extent_tree_root c)) c.

(** The search down the tree. *)
Fixpoint search (h : gmap Z extent_info) (t : rb) (fofs : Z) : option Z :=
  match t with
  | RB_NULL => None
  | rb_node l en r =>
      let ei := node_ei h en in
      if fofs <? ei_fofs ei then search h l fofs
      else if u32 (ei_fofs ei + ei_len ei) <=? fofs then search h r fofs
      else Some en
  end.

Definition __lookup_extent_tree (c : ext_cache) (et : extent_tree) (fofs : Z) : option Z * extent_tree :=
  let down :=
    match search (ec_nodes c) (et_root et) fofs with
    | Some en => (Some en, with_cached (Some en) et)
    | None => (None, et)
    end in
  match cached_en et with
  | None => down
  | Some en =>
      let cei := ei_of c en in
      if (ei_fofs cei <=? fofs) && (fofs <? u32 (ei_fofs cei + ei_len cei)) then (Some en, et) else down
  end.

Definition __try_back_merge (en : Z) (et : extent_tree) (c : ext_cache) : option Z * extent_tree * ext_cache :=
  match rb_prev (et_root et) en with
  | None => (None, et, c)
  | Some prev =>
      let e := ei_of c en in
      let p := ei_of c prev in
      if __is_back_mergeable e p then
        let c := set_ei en (mk_ei (ei_fofs p) (ei_blk p) (u32 (ei_len e + ei_len p))) c in
        let '(et, c) := __detach_extent_node prev et c in
        (Some prev, et, c)
      else (None, et, c)
  end.

Definition __try_front_merge (en : Z) (et : extent_tree) (c : ext_cache) : option Z * extent_tree * ext_cache :=
  match rb_next (et_root et) en with
  | None => (None, et, c)
  | Some next =>
      let e := ei_of c en in
      let n := ei_of c next in
      if __is_front_mergeable e n then
        let c := set_ei en (with_ei_len (u32 (ei_len e + ei_len n)) e) c in
        let '(et, c) := __detach_extent_node next et c in
        (Some next, et, c)
      else (None, et, c)
  end.

(** Where the search of [__insert_extent_tree] ends: at a node the extent is merged to,
    at a place to link a new node to, or at a node that overlaps it, where the code would
    not get on. *)
Inductive walk := WFront (en : Z) | WBack (en : Z) | WLink (t : rb) | WOverlap.

Fixpoint insert_walk (h : gmap Z extent_info) (ei : extent_info) (new : Z) (t : rb) : walk :=
  match t with
  | RB_NULL => WLink (rb_node RB_NULL new RB_NULL)
  | rb_node l en r =>
      let e := node_ei h en in
      if ei_fofs ei <? ei_fofs e then
        if __is_front_mergeable ei e then WFront en
        else match insert_walk h ei new l with WLink l' => WLink (rb_node l' en r) | w => w end
      else if u32 (ei_fofs e + ei_len e) <=? ei_fofs ei then
        if __is_back_mergeable ei e then WBack en
        else match insert_walk h ei new r with WLink r' => WLink (rb_node l en r') | w => w end
      else WOverlap
  end.

(** [den] says whether the caller passed a place for the merged node. *)
Definition __insert_extent_tree (ei : extent_info) (den : bool) (et : extent_tree) (c : ext_cache) :
  option Z * option Z * extent_tree * ext_cache :=
  match insert_walk (ec_nodes c) ei (ec_next c) (et_root et) with
  | WFront en =>
      let c := ec_bug_on (negb den) c in
      let e := ei_of c en in
      let c := set_ei en (mk_ei (ei_fofs ei) (ei_blk ei) (u32 (ei_len e + ei_len ei))) c in
      let '(d, et, c) := __try_back_merge en et c in (Some en, d, et, c)
  | WBack en =>
      let c := ec_bug_on (negb den) c in
      let e := ei_of c en in
      let c := set_ei en (with_ei_len (u32 (ei_len e + ei_len ei)) e) c in
      let '(d, et, c) := __try_front_merge en et c in (Some en, d, et, c)
  | WLink t => let '(en, et, c) := __attach_extent_node ei t et c in (en, None, et, c)
  | WOverlap => (None, None, et, with_ec_bug true c)
  end.

Definition free_extent_node (free_all : bool) (s : extent_tree * ext_cache) (en : Z) : extent_tree * ext_cache :=
  let '(et, c) := s in
  let c := if free_all && listed c en then list_del en c else c in
  if free_all || negb (listed c en) then
    let '(et, c) := __detach_extent_node en et c in (et, free_node en c)
  else (et, c).

(** The loop takes the successor of a node before it frees the node: it visits the nodes
    of the tree in order. *)
Definition __free_extent_tree (free_all : bool) (et : extent_tree) (c : ext_cache) : Z * extent_tree * ext_cache :=
  let count := et_count et in
  let '(et, c) := foldl (free_extent_node free_all) (et, c) (inorder (et_root et)) in
  (u32 (count - et_count et), et, c).

(** ** Operations *)

Definition f2fs_init_extent_tree (ino : Z) (i_ext : extent_info) (c : ext_cache) : ext_cache :=
  if ei_len i_ext <? F2FS_MIN_EXTENT_LEN then c
  else
    let '(et, c) := __grab_extent_tree ino c in
    if negb (et_count et =? 0) then put_tree et c
    else
      let ei := set_extent_info (ei_fofs i_ext) (ei_blk i_ext) (ei_len i_ext) in
      let '(en, _, et, c) := __insert_extent_tree ei false et c in
      match en with
      | Some n => put_tree (with_cached (Some n) et) (list_add_tail n c)
      | None => put_tree et c
      end.

Definition f2fs_lookup_extent_tree (ino pgofs : Z) (c : ext_cache) : option extent_info * ext_cache :=
  match __find_extent_tree ino c with
  | None => (None, c)
  | Some et =>
      let '(en, et) := __lookup_extent_tree c et (u32 pgofs) in
      match en with
      | None => (None, put_tree et c)
      | Some n =>
          let ei := ei_of c n in
          let c := if listed c n then list_move_tail n c else c in
          (Some ei, put_tree et c)
      end
  end.

(** Splitting the extent that held the page: the left and the right part. *)
Definition insert_left (fofs : Z) (dei : extent_info) (et : extent_tree) (c : ext_cache) : option Z * extent_tree * ext_cache :=
  if (1 <? ei_len dei) && (F2FS_MIN_EXTENT_LEN <=? u64 (fofs - ei_fofs dei)) then
    let '(en1, _, et, c) := __insert_extent_tree (set_extent_info (ei_fofs dei) (ei_blk dei) (fofs - ei_fofs dei)) false et c in (en1, et, c)
  else (None, et, c).

Definition insert_right (fofs : Z) (dei : extent_info) (et : extent_tree) (c : ext_cache) : option Z * extent_tree * ext_cache :=
  let endofs := u32 (ei_fofs dei + ei_len dei - 1) in
  if (1 <? ei_len dei) && (F2FS_MIN_EXTENT_LEN <=? u64 (endofs - fofs)) then
    let '(en2, _, et, c) := __insert_extent_tree (set_extent_info (fofs + 1) (fofs - ei_fofs dei + ei_blk dei) (endofs - fofs)) false et c in (en2, et, c)
  else (None, et, c).

(** The global list after an update: the removed node leaves, the new ones go to its
    end. *)
Definition update_list (en en1 en2 en3 den : option Z) (c : ext_cache) : ext_cache :=
  let c := match en with Some n => if listed c n then list_del n c else c | None => c end in
  let c := match en1 with Some n => list_add_tail n c | None => c end in
  let c := match en2 with Some n => list_add_tail n c | None => c end in
  let c := match en3 with Some n => if listed c n then list_move_tail n c else list_add_tail n c | None => c end in
  match den with Some n => if listed c n then list_del n c else c | None => c end.

Definition free_opt (en : option Z) (c : ext_cache) : ext_cache := match en with Some n => free_node n c | None => c end.

Definition f2fs_update_extent_tree (ino fofs blkaddr : Z) (c : ext_cache) : ext_cache :=
  let '(et, c) := __grab_extent_tree ino c in
  let '(en, et) := __lookup_extent_tree c et (u32 fofs) in
  let '(en1, en2, et, c) :=
    match en with
    | None => (None, None, et, c)
    | Some n =>
        let dei := ei_of c n in
        let '(et, c) := __detach_extent_node n et c in
        let '(en1, et, c) := insert_left fofs dei et c in
        let '(en2, et, c) := insert_right fofs dei et c in (en1, en2, et, c)
    end in
  let '(en3, den, et, c) :=
    if negb (blkaddr =? 0) then __insert_extent_tree (set_extent_info fofs blkaddr 1) true et c
    else (None, None, et, c) in
  let c := update_list en en1 en2 en3 den c in
  put_tree et (free_opt den (free_opt en c)).

(** Returns whether the inode page has to be written.  [opt] is the mount option
    EXTENT_CACHE. *)
Definition f2fs_preserve_extent_tree (opt : bool) (ino : Z) (fi : ext_inode) (c : ext_cache) : bool * ext_inode * ext_cache :=
  let ext := fi_ext fi in
  let set e := mk_ext_inode e (fi_no_extent fi) in
  if negb opt then (false, fi, c)
  else match __find_extent_tree ino c with
  | None => if negb (ei_len ext =? 0) then (true, set (with_ei_len 0 ext), c) else (false, fi, c)
  | Some et =>
      let '(sync, fi) :=
        if negb (et_count et =? 0) then
          let en := match cached_en et with
                    | Some en => Some en
                    | None => match rb_first (et_root et) with Some n => Some n | None => rb_last (et_root et) end
                    end in
          let e := match en with Some n => ei_of c n | None => inhabitant end in
          if __is_extent_same ext e then (false, fi) else (true, set e)
        else if negb (ei_len ext =? 0) then (true, set (with_ei_len 0 ext)) else (false, fi) in
      (sync, fi, put_tree et c)
  end.

Definition EXT_TREE_VEC_SIZE : nat := 64.

(** The nodes that are off the global list leave the tree of [ino]. *)
Definition shrink_one_tree (c : ext_cache) (ino : Z) : ext_cache :=
  match __find_extent_tree ino c with
  | None => c
  | Some et => let '(_, et, c) := __free_extent_tree false et c in put_tree et c
  end.

Fixpoint shrink_loop (fuel : nat) (ino : Z) (c : ext_cache) : ext_cache :=
  match fuel with
  | O => c
  | S fuel =>
      let found := gang_lookup (extent_tree_root c) ino EXT_TREE_VEC_SIZE in
      match last found with
      | None => c
      | Some l => shrink_loop fuel (l + 1) (foldl shrink_one_tree c found)
      end
  end.

Definition drop_tree (c : ext_cache) (ino : Z) : ext_cache :=
  match extent_tree_root c !! ino with
  | None => c
  | Some et =>
      if (et_refcount et =? 0) && (et_count et =? 0)
      then with_total_tree (s32 (total_ext_tree c - 1)) (with_trees (delete ino (extent_tree_root c)) c)
      else c
  end.

(** [nr_shrink] is not negative; [memory] is [available_free_memory]. *)
Definition f2fs_shrink_extent_tree (opt : bool) (root_ino : Z) (nr_shrink : nat) (memory : bool) (c : ext_cache) : ext_cache :=
  if negb opt then c
  else if memory then c
  else
    let c := with_ext_list (drop nr_shrink (extent_list c)) c in
    let c := shrink_loop (S (size (extent_tree_root c))) root_ino c in
    foldl drop_tree c (filter (fun i => root_ino <= i) (sorted_keys (extent_tree_root c))).

Definition f2fs_destroy_extent_tree (opt : bool) (ino : Z) (c : ext_cache) : ext_cache :=
  if negb opt then c
  else match __find_extent_tree ino c with
  | None => c
  | Some et =>
      let '(_, et, c) := __free_extent_tree true et c in
      let c := put_tree et c in
      match extent_tree_root c !! ino with
      | None => c
      | Some et =>
          let c := ec_bug_on (negb (et_refcount et =? 0) || negb (et_count et =? 0)) c in
          with_total_tree (s32 (total_ext_tree c - 1)) (with_trees (delete ino (extent_tree_root c)) c)
      end
  end.

(** ** Both caches *)

Definition f2fs_init_extent_cache (opt : bool) (ino : Z) (i_ext : extent_info) (fi : ext_inode) (c : ext_cache) : ext_inode * ext_cache :=
  (get_extent_info i_ext fi, if opt then f2fs_init_extent_tree ino i_ext c else c).

Definition f2fs_lookup_extent_cache (opt : bool) (ino pgofs : Z) (fi : ext_inode) (c : ext_cache) : option extent_info * ext_cache :=
  if fi_no_extent fi then (None, c)
  else if opt then f2fs_lookup_extent_tree ino pgofs c
  else (lookup_extent_info fi pgofs, c).

(** [node_ofs] and [ofs_in_node] say where the dnode keeps the address.  Returns whether
    the inode page has to be brought up to date. *)
Definition f2fs_update_extent_cache (opt : bool) (ino node_ofs ofs_in_node blkaddr : Z) (inline_xattr : bool)
  (fi : ext_inode) (c : ext_cache) : bool * ext_inode * ext_cache :=
  let c := ec_bug_on (blkaddr =? NEW_ADDR) c in
  if fi_no_extent fi then (false, fi, c)
  else
    let fofs := start_bidx_of_node node_ofs inline_xattr + ofs_in_node in
    if opt then (false, fi, f2fs_update_extent_tree ino fofs blkaddr c)
    else let '(sync, fi) := update_extent_info fi fofs blkaddr in (sync, fi, c).

End Tree.
