(* ===== verification/ExtentInv.v ===== *)
(** The trees of the extent cache: the invariant of a tree, what the searches of
    src/Max/data.c find in it, and what changes of one node do to it. *)

From Stdlib Require Import ZArith Lia Bool.
From stdpp Require Import base numbers list gmap sorting.
From S2P Require Import Prelude Layout NodePath Extent ExtentTree.

#[local] Open Scope Z_scope.
#[local] Ltac Zify.zify_post_hook ::= Z.to_euclidean_division_equations.

(** * Trees *)

(** [i] lies in front of [j]. *)
Definition lt_ei (h : gmap Z extent_info) (i j : Z) : Prop :=
  ei_fofs (node_ei h i) + ei_len (node_ei h i) <= ei_fofs (node_ei h j).

(** A node that is allocated, with an extent. *)
Definition good_ei (e : extent_info) : Prop := 0 < ei_len e /\ ei_wf e.
Definition good_node (h : gmap Z extent_info) (i : Z) : Prop := exists e, h !! i = Some e /\ good_ei e.

(** The nodes of a tree, in order. *)
Record tree_ok (h : gmap Z extent_info) (ids : list Z) : Prop := {
  to_nodup : NoDup ids;
  to_good : forall i, i ∈ ids -> good_node h i;
  to_sorted : StronglySorted (lt_ei h) ids;
}.

(** No two extents of a tree continue each other. *)
Definition compact (h : gmap Z extent_info) (ids : list Z) : Prop :=
  forall i j, i ∈ ids -> j ∈ ids -> __is_extent_mergeable (node_ei h i) (node_ei h j) = false.

(** The page [p] is cached with address [a]. *)
Definition cached_at (h : gmap Z extent_info) (ids : list Z) (p a : Z) : Prop :=
  exists i, i ∈ ids /\ covers (node_ei h i) p /\ a = maps (node_ei h i) p.

Definition apart (e1 e2 : extent_info) : Prop := ei_fofs e1 + ei_len e1 <= ei_fofs e2 \/ ei_fofs e2 + ei_len e2 <= ei_fofs e1.

Lemma good_node_ei h i : good_node h i -> good_ei (node_ei h i).
Proof. intros (e & E & H); unfold node_ei; rewrite E; exact H. Qed.

Lemma mergeable_iff b f : good_ei b -> good_ei f ->
  __is_extent_mergeable b f = true <-> ei_fofs b + ei_len b = ei_fofs f /\ ei_blk b + ei_len b = ei_blk f.
Proof.
  intros [Hb []] [Hf []]; unfold __is_extent_mergeable; rewrite !u32_small by lia; rewrite andb_true_iff, !Z.eqb_eq; reflexivity.
Qed.

Lemma mergeable_false b f : good_ei b -> good_ei f ->
  __is_extent_mergeable b f = false <-> ~ (ei_fofs b + ei_len b = ei_fofs f /\ ei_blk b + ei_len b = ei_blk f).
Proof. intros Hb Hf; rewrite <- (mergeable_iff b f Hb Hf); destruct (__is_extent_mergeable b f); split; intros H; congruence. Qed.

Lemma sorted_apart h ids i j : tree_ok h ids -> i ∈ ids -> j ∈ ids -> i <> j -> lt_ei h i j \/ lt_ei h j i.
Proof.
  intros Ht Hi Hj Hne; pose proof (to_sorted _ _ Ht) as Hs; clear Ht; induction ids as [|x r IH]; [inversion Hi|].
  apply StronglySorted_cons in Hs; destruct Hs as [Hx Hs]; rewrite Forall_forall in Hx.
  apply elem_of_cons in Hi, Hj; destruct Hi as [->|Hi], Hj as [->|Hj]; [congruence|left; apply Hx, Hj|right; apply Hx, Hi|apply IH; assumption].
Qed.

Lemma cover_unique h ids i j p : tree_ok h ids -> i ∈ ids -> j ∈ ids -> covers (node_ei h i) p -> covers (node_ei h j) p -> i = j.
Proof.
  intros Ht Hi Hj Hc Hc'; destruct (Z.eq_dec i j) as [|Hne]; [assumption|exfalso].
  unfold covers in *; destruct (sorted_apart h ids i j Ht Hi Hj Hne) as [H|H]; unfold lt_ei in H; lia.
Qed.

Lemma node_ei_ext h h' i : h !! i = h' !! i -> node_ei h i = node_ei h' i.
Proof. unfold node_ei; intros ->; reflexivity. Qed.

Lemma sorted_ext h h' ids : (forall i, i ∈ ids -> node_ei h i = node_ei h' i) -> StronglySorted (lt_ei h) ids -> StronglySorted (lt_ei h') ids.
Proof.
  intros E; induction ids as [|x r IH]; intros Hs; [constructor|].
  apply StronglySorted_cons in Hs; destruct Hs as [Hx Hs]; apply StronglySorted_cons; split; [|apply IH; [intros; apply E; right; assumption|exact Hs]].
  rewrite Forall_forall in Hx |- *; intros j Hj; unfold lt_ei; rewrite <- (E x), <- (E j) by (constructor; assumption); apply Hx, Hj.
Qed.

Lemma tree_ok_frame h h' ids : (forall i, i ∈ ids -> h !! i = h' !! i) -> tree_ok h ids -> tree_ok h' ids.
Proof.
  intros E [H1 H2 H3]; constructor; [exact H1| |].
  - intros i Hi; destruct (H2 i Hi) as (e & Ee & He); exists e; rewrite <- (E i Hi); auto.
  - apply (sorted_ext h h'); [intros i Hi; apply node_ei_ext, E, Hi|exact H3].
Qed.

Lemma compact_frame h h' ids : (forall i, i ∈ ids -> h !! i = h' !! i) -> compact h ids -> compact h' ids.
Proof. intros E H i j Hi Hj; rewrite <- (node_ei_ext h h' i), <- (node_ei_ext h h' j) by auto; apply H; assumption. Qed.

Lemma cached_at_frame h h' ids p a : (forall i, i ∈ ids -> h !! i = h' !! i) -> cached_at h ids p a <-> cached_at h' ids p a.
Proof.
  intros E; split; intros (i & Hi & H); exists i; split; auto; [rewrite <- (node_ei_ext h h' i) by auto|rewrite (node_ei_ext h h' i) by auto]; exact H.
Qed.

Lemma sorted_filter h P `{!forall x, Decision (P x)} ids : StronglySorted (lt_ei h) ids -> StronglySorted (lt_ei h) (filter P ids).
Proof.
  induction ids as [|x r IH]; intros Hs; [constructor|]; apply StronglySorted_cons in Hs; destruct Hs as [Hx Hs].
  rewrite filter_cons; destruct (decide (P x)); [|apply IH, Hs]; apply StronglySorted_cons; split; [|apply IH, Hs].
  rewrite Forall_forall in Hx |- *; intros j Hj; apply list_elem_of_filter in Hj; apply Hx, Hj.
Qed.

Lemma tree_ok_filter h P `{!forall x, Decision (P x)} ids : tree_ok h ids -> tree_ok h (filter P ids).
Proof.
  intros [H1 H2 H3]; constructor; [apply NoDup_filter, H1|intros i Hi; apply list_elem_of_filter in Hi; apply H2, Hi|apply sorted_filter, H3].
Qed.

Lemma node_ei_insert h n e i : node_ei (<[n := e]> h) i = if decide (i = n) then e else node_ei h i.
Proof. unfold node_ei; destruct (decide (i = n)) as [->|Hne]; [rewrite lookup_insert_eq|rewrite lookup_insert_ne by congruence]; reflexivity. Qed.

(** One node gets another extent. *)
Lemma tree_ok_change h ids n e' : tree_ok h ids -> n ∈ ids -> good_ei e' ->
  (forall i, i ∈ ids -> i <> n -> lt_ei h i n -> ei_fofs (node_ei h i) + ei_len (node_ei h i) <= ei_fofs e') ->
  (forall i, i ∈ ids -> i <> n -> lt_ei h n i -> ei_fofs e' + ei_len e' <= ei_fofs (node_ei h i)) ->
  tree_ok (<[n := e']> h) ids.
Proof.
  intros [H1 H2 H3] Hn He Hl Hr; constructor; [exact H1| |].
  - intros i Hi; destruct (decide (i = n)) as [->|Hne]; [exists e'; rewrite lookup_insert_eq; auto|].
    destruct (H2 i Hi) as (e & E & Hg); exists e; rewrite lookup_insert_ne by congruence; auto.
  - clear H2 Hn; induction ids as [|x r IH]; [constructor|]; apply StronglySorted_cons in H3; destruct H3 as [Hx Hs].
    apply NoDup_cons in H1; destruct H1 as [Hnx Hnd]; apply StronglySorted_cons; split.
    + rewrite Forall_forall in Hx |- *; intros j Hj; specialize (Hx j Hj); unfold lt_ei; rewrite !node_ei_insert.
      destruct (decide (x = n)) as [->|Hx'], (decide (j = n)) as [->|Hj']; [contradiction|apply Hr; [right; exact Hj|congruence|exact Hx]|apply Hl; [left|congruence|exact Hx]|exact Hx].
    + apply IH; [exact Hnd|exact Hs|intros; apply Hl; auto; right; assumption|intros; apply Hr; auto; right; assumption].
Qed.

(** A new node between the others. *)
Lemma tree_ok_insert h l1 l2 n e : tree_ok h (l1 ++ l2) -> (n ∉ l1 ++ l2) -> good_ei e ->
  (forall i, i ∈ l1 -> ei_fofs (node_ei h i) + ei_len (node_ei h i) <= ei_fofs e) ->
  (forall i, i ∈ l2 -> ei_fofs e + ei_len e <= ei_fofs (node_ei h i)) ->
  tree_ok (<[n := e]> h) (l1 ++ n :: l2).
Proof.
  intros [H1 H2 H3] Hn He Hl Hr; pose proof Hn as Hn'; rewrite elem_of_app in Hn'.
  assert (Hold : forall i, i ∈ l1 ++ l2 -> h !! i = <[n := e]> h !! i) by (intros i Hi; rewrite lookup_insert_ne; [reflexivity|intros ->; auto]).
  constructor.
  - rewrite <- Permutation_middle; apply NoDup_cons; auto.
  - intros i Hi; rewrite <- Permutation_middle in Hi; apply elem_of_cons in Hi; destruct Hi as [->|Hi]; [exists e; rewrite lookup_insert_eq; auto|].
    destruct (H2 i Hi) as (q & E & Hg); exists q; rewrite <- Hold by exact Hi; auto.
  - pose proof (sorted_ext h _ _ (fun i Hi => node_ei_ext _ _ i (Hold i Hi)) H3) as Hs; rewrite StronglySorted_app in Hs |- *; destruct Hs as (Hx & Hs1 & Hs2).
    split; [|split; [exact Hs1|apply StronglySorted_cons; split; [|exact Hs2]]].
    + intros i j Hi Hj; apply elem_of_cons in Hj; destruct Hj as [->|Hj]; [|apply Hx; assumption].
      unfold lt_ei; rewrite !node_ei_insert; rewrite (decide_False (P := i = n)) by (intros ->; auto); rewrite decide_True by reflexivity; apply Hl, Hi.
    + rewrite Forall_forall; intros j Hj; unfold lt_ei; rewrite !node_ei_insert; rewrite decide_True by reflexivity; rewrite decide_False by (intros ->; auto); apply Hr, Hj.
Qed.

(** There are fewer nodes than pages. *)
Lemma tree_ok_length h ids lo : tree_ok h ids -> (forall i, i ∈ ids -> lo <= ei_fofs (node_ei h i)) -> lo < 2 ^ 32 -> lo + Z.of_nat (length ids) < 2 ^ 32.
Proof.
  intros [_ Hg Hs]; revert lo; induction ids as [|x r IH]; intros lo Hlo H0; cbn [length]; [lia|].
  apply StronglySorted_cons in Hs; destruct Hs as [Hx Hs]; rewrite Forall_forall in Hx.
  pose proof (Hlo x ltac:(left)) as Hx0; destruct (good_node_ei _ _ (Hg x ltac:(left))) as [Hp []].
  specialize (IH (fun i Hi => Hg i ltac:(right; exact Hi)) Hs (lo + 1)).
  enough (lo + 1 + Z.of_nat (length r) < 2 ^ 32) by lia; apply IH; [|lia].
  intros i Hi; specialize (Hx i Hi); unfold lt_ei in Hx; lia.
Qed.

(** ** What the searches find *)

Lemma tree_ok_parts h l en r : tree_ok h (inorder l ++ en :: inorder r) ->
  tree_ok h (inorder l) /\ tree_ok h (inorder r) /\ good_ei (node_ei h en) /\
  (forall i, i ∈ inorder l -> lt_ei h i en) /\ (forall i, i ∈ inorder r -> lt_ei h en i).
Proof.
  intros [H1 H2 H3]; apply NoDup_app in H1; destruct H1 as (Hl & _ & Hr); apply NoDup_cons in Hr; destruct Hr as [_ Hr].
  rewrite StronglySorted_app, StronglySorted_cons, Forall_forall in H3; destruct H3 as (Hx & Hs1 & Hx2 & Hs2).
  split; [constructor; auto; intros i Hi; apply H2; rewrite elem_of_app; auto|].
  split; [constructor; auto; intros i Hi; apply H2; rewrite elem_of_app, elem_of_cons; auto|].
  split; [apply good_node_ei, H2; rewrite elem_of_app, elem_of_cons; auto|].
  split; [intros i Hi; apply Hx; [exact Hi|left]|exact Hx2].
Qed.

Lemma search_ok h t fofs : tree_ok h (inorder t) ->
  match search h t fofs with
  | Some en => en ∈ inorder t /\ covers (node_ei h en) fofs
  | None => forall i, i ∈ inorder t -> ~ covers (node_ei h i) fofs
  end.
Proof.
  induction t as [|l IHl en r IHr]; cbn [inorder search]; intros Ht; [intros i Hi; inversion Hi|].
  destruct (tree_ok_parts h l en r Ht) as (Hl & Hr & [Hp []] & Hlt & Hgt); rewrite u32_small by lia.
  destruct (Z.ltb_spec fofs (ei_fofs (node_ei h en))) as [H|H]; [|destruct (Z.leb_spec (ei_fofs (node_ei h en) + ei_len (node_ei h en)) fofs) as [H'|H']].
  - specialize (IHl Hl); destruct (search h l fofs) as [n|]; [split; [apply elem_of_app; left|]; apply IHl|].
    intros i Hi Hc; rewrite elem_of_app, elem_of_cons in Hi; destruct Hi as [Hi|[->|Hi]]; [apply (IHl i Hi Hc)|unfold covers in Hc; lia|specialize (Hgt i Hi); unfold covers, lt_ei in *; lia].
  - specialize (IHr Hr); destruct (search h r fofs) as [n|]; [split; [apply elem_of_app; right; right|]; apply IHr|].
    intros i Hi Hc; rewrite elem_of_app, elem_of_cons in Hi; destruct Hi as [Hi|[->|Hi]]; [specialize (Hlt i Hi); unfold covers, lt_ei in *; lia|unfold covers in Hc; lia|apply (IHr i Hi Hc)].
  - split; [apply elem_of_app; right; left|unfold covers; lia].
Qed.

(** The place of a new extent. *)
Record fits (h : gmap Z extent_info) (ei : extent_info) (l1 l2 : list Z) : Prop := {
  ft_left : forall i, i ∈ l1 -> ei_fofs (node_ei h i) + ei_len (node_ei h i) <= ei_fofs ei;
  ft_right : forall i, i ∈ l2 -> ei_fofs ei + ei_len ei <= ei_fofs (node_ei h i);
}.

Definition loose (h : gmap Z extent_info) (ei : extent_info) (ids : list Z) : Prop :=
  forall i, i ∈ ids -> __is_extent_mergeable (node_ei h i) ei = false /\ __is_extent_mergeable ei (node_ei h i) = false.

Lemma walk_ok h ei new t : tree_ok h (inorder t) -> good_ei ei -> (forall i, i ∈ inorder t -> apart (node_ei h i) ei) ->
  match insert_walk h ei new t with
  | WFront en => en ∈ inorder t /\ __is_extent_mergeable ei (node_ei h en) = true
  | WBack en => en ∈ inorder t /\ __is_extent_mergeable (node_ei h en) ei = true
  | WLink t' => exists l1 l2, inorder t = l1 ++ l2 /\ inorder t' = l1 ++ new :: l2 /\ fits h ei l1 l2 /\ loose h ei (inorder t)
  | WOverlap => False
  end.
Proof.
  intros Ht Hei; pose proof Hei as [Hep Hew]; induction t as [|l IHl en r IHr]; cbn [inorder insert_walk]; intros Ha.
  { exists [], []; split; [reflexivity|split; [reflexivity|split; [split; intros i Hi; inversion Hi|intros i Hi; inversion Hi]]]. }
  destruct (tree_ok_parts h l en r Ht) as (Hl & Hr & Hen & Hlt & Hgt); pose proof Hen as [Hp []]; rewrite u32_small by lia.
  assert (Hae : apart (node_ei h en) ei) by (apply Ha; rewrite elem_of_app, elem_of_cons; auto).
  assert (Hgl : forall i, i ∈ inorder l -> good_ei (node_ei h i)) by (intros i Hi; apply good_node_ei, (to_good _ _ Hl), Hi).
  assert (Hgr : forall i, i ∈ inorder r -> good_ei (node_ei h i)) by (intros i Hi; apply good_node_ei, (to_good _ _ Hr), Hi).
  destruct (Z.ltb_spec (ei_fofs ei) (ei_fofs (node_ei h en))) as [H|H];
    [|destruct (Z.leb_spec (ei_fofs (node_ei h en) + ei_len (node_ei h en)) (ei_fofs ei)) as [H'|H']].
  - unfold __is_front_mergeable; destruct (__is_extent_mergeable ei (node_ei h en)) eqn:Em; [split; [apply elem_of_app; right; left|exact Em]|].
    specialize (IHl Hl ltac:(intros i Hi; apply Ha, elem_of_app; auto)); destruct (insert_walk h ei new l) as [n|n|t'|];
      [split; [apply elem_of_app; left|]; apply IHl..| |exact IHl].
    destruct IHl as (l1 & l2 & E & E' & [F1 F2] & Hlo); exists l1, (l2 ++ en :: inorder r); cbn [inorder]; rewrite E, E', <- !app_assoc.
    assert (Hbe : ei_fofs ei + ei_len ei <= ei_fofs (node_ei h en)) by (unfold apart in Hae; lia).
    split; [reflexivity|split; [reflexivity|split; [split; [exact F1|]|]]].
    + intros i Hi; rewrite elem_of_app, elem_of_cons in Hi; destruct Hi as [Hi|[->|Hi]]; [apply F2, Hi|exact Hbe|specialize (Hgt i Hi); unfold lt_ei in Hgt; lia].
    + rewrite app_assoc, <- E; intros i Hi; rewrite elem_of_app, elem_of_cons in Hi; destruct Hi as [Hi|[->|Hi]]; [apply Hlo, Hi|split; [|exact Em]|specialize (Hgt i Hi); specialize (Hgr i Hi); split];
        apply mergeable_false; auto; unfold lt_ei, good_ei in *; lia.
  - unfold __is_back_mergeable; destruct (__is_extent_mergeable (node_ei h en) ei) eqn:Em; [split; [apply elem_of_app; right; left|exact Em]|].
    specialize (IHr Hr ltac:(intros i Hi; apply Ha; rewrite elem_of_app, elem_of_cons; auto)); destruct (insert_walk h ei new r) as [n|n|t'|];
      [split; [rewrite elem_of_app, elem_of_cons; right; right|]; apply IHr..| |exact IHr].
    destruct IHr as (l1 & l2 & E & E' & [F1 F2] & Hlo); exists (inorder l ++ en :: l1), l2; cbn [inorder]; rewrite E, E', <- !app_assoc.
    split; [reflexivity|split; [reflexivity|split; [split; [|exact F2]|]]].
    + intros i Hi; rewrite elem_of_app, elem_of_cons in Hi; destruct Hi as [Hi|[->|Hi]]; [specialize (Hlt i Hi); unfold lt_ei in Hlt; lia|exact H'|apply F1, Hi].
    + change (en :: l1 ++ l2) with (en :: (l1 ++ l2)); rewrite <- E; intros i Hi; rewrite elem_of_app, elem_of_cons in Hi; destruct Hi as [Hi|[->|Hi]];
        [specialize (Hlt i Hi); specialize (Hgl i Hi); split|split; [exact Em|]|apply Hlo, Hi]; apply mergeable_false; auto; unfold lt_ei, good_ei in *; lia.
  - unfold apart in Hae; lia.
Qed.

(** ** Neighbours *)

Lemma before_none x a l : (x ∉ l) -> before x (a :: l) = None.
Proof.
  revert a; induction l as [|b l IH]; intros a Hn; [reflexivity|]; rewrite not_elem_of_cons in Hn.
  change (before x (a :: b :: l)) with (if b =? x then Some a else before x (b :: l)).
  rewrite (proj2 (Z.eqb_neq b x)) by (intros ->; tauto); apply IH; tauto.
Qed.

Lemma before_last x l1 l2 : (x ∉ l1) -> (x ∉ l2) -> before x (l1 ++ x :: l2) = last l1.
Proof.
  intros Hn Hn2; revert Hn; induction l1 as [|a l1 IH]; intros Hn; [apply before_none, Hn2|].
  destruct l1 as [|b l1]; [cbn; rewrite Z.eqb_refl; reflexivity|].
  rewrite not_elem_of_cons in Hn; destruct Hn as [_ Hn]; specialize (IH Hn); rewrite not_elem_of_cons in Hn.
  change (before x ((a :: b :: l1) ++ x :: l2)) with (if b =? x then Some a else before x ((b :: l1) ++ x :: l2)).
  rewrite (proj2 (Z.eqb_neq b x)) by (intros ->; tauto); rewrite IH; reflexivity.
Qed.

Lemma after_head x l1 l2 : (x ∉ l1) -> after x (l1 ++ x :: l2) = head l2.
Proof.
  induction l1 as [|a l1 IH]; intros Hn; cbn; [rewrite Z.eqb_refl; reflexivity|]; rewrite not_elem_of_cons in Hn.
  rewrite (proj2 (Z.eqb_neq a x)) by (intros ->; tauto); apply IH; tauto.
Qed.

Lemma split_at h ids n : tree_ok h ids -> n ∈ ids -> exists l1 l2, ids = l1 ++ n :: l2 /\ ((n ∉ l1) /\ (n ∉ l2)) /\
  (forall i, i ∈ l1 -> lt_ei h i n) /\ (forall i, i ∈ l2 -> lt_ei h n i).
Proof.
  intros [Hnd _ Hs] Hn; apply list_elem_of_split in Hn; destruct Hn as (l1 & l2 & ->); exists l1, l2; split; [reflexivity|].
  apply NoDup_app in Hnd; destruct Hnd as (_ & Hd & Hnd); apply NoDup_cons in Hnd; rewrite StronglySorted_app, StronglySorted_cons, Forall_forall in Hs; destruct Hs as (Hx & _ & Hx2 & _).
  split; [split; [intros Hi; apply (Hd n Hi); left|tauto]|split; [intros i Hi; apply Hx; [exact Hi|left]|exact Hx2]].
Qed.

(** The neighbour in front is the only node an extent can continue. *)
Lemma before_ok h ids n x : tree_ok h ids -> n ∈ ids -> before n ids = Some x -> x ∈ ids /\ x <> n /\ lt_ei h x n.
Proof.
  intros Ht Hn H; destruct (split_at h ids n Ht Hn) as (l1 & l2 & -> & [Hn1 Hn2] & Hl & _); rewrite before_last in H by assumption.
  apply last_Some in H; destruct H as [l ->]; assert (Hx : x ∈ l ++ [x]) by (apply elem_of_app; right; left).
  split; [rewrite elem_of_app; left; exact Hx|split; [intros ->; contradiction|apply Hl, Hx]].
Qed.

Lemma after_ok h ids n x : tree_ok h ids -> n ∈ ids -> after n ids = Some x -> x ∈ ids /\ x <> n /\ lt_ei h n x.
Proof.
  intros Ht Hn H; destruct (split_at h ids n Ht Hn) as (l1 & l2 & -> & [Hn1 Hn2] & _ & Hr); rewrite after_head in H by exact Hn1.
  destruct l2 as [|y l2]; [discriminate|]; injection H as ->; assert (Hx : x ∈ x :: l2) by left.
  split; [rewrite elem_of_app, elem_of_cons; auto|split; [|apply Hr, Hx]].
  intros ->; destruct Ht as [Hnd _ _]; apply NoDup_app in Hnd; destruct Hnd as (_ & _ & Hnd); apply NoDup_cons in Hnd; tauto.
Qed.

Lemma before_touching h ids n x : tree_ok h ids -> n ∈ ids -> x ∈ ids -> ei_fofs (node_ei h x) + ei_len (node_ei h x) = ei_fofs (node_ei h n) -> before n ids = Some x.
Proof.
  intros Ht Hn Hx E; destruct (split_at h ids n Ht Hn) as (l1 & l2 & Eids & [Hn1 Hn2] & Hl & Hr); rewrite Eids in Hx |- *; rewrite before_last by assumption.
  pose proof (good_node_ei _ _ (to_good _ _ Ht n Hn)) as [Hpn _].
  assert (Hgx : good_ei (node_ei h x)) by (apply good_node_ei, (to_good _ _ Ht); rewrite Eids; exact Hx); destruct Hgx as [Hpx _].
  rewrite elem_of_app, elem_of_cons in Hx; destruct Hx as [Hx|[->|Hx]]; [|lia|specialize (Hr x Hx); unfold lt_ei in Hr; lia].
  destruct (last l1) as [y|] eqn:El; [|apply last_None in El; subst; inversion Hx]; f_equal; apply last_Some in El; destruct El as [l ->].
  rewrite elem_of_app, list_elem_of_singleton in Hx; destruct Hx as [Hx| ->]; [exfalso|reflexivity].
  pose proof (to_sorted _ _ Ht) as Hs; rewrite Eids, !StronglySorted_app in Hs; destruct Hs as (_ & (Hxy & _) & _); specialize (Hxy x y Hx ltac:(left)).
  assert (Hy : y ∈ l ++ [y]) by (apply elem_of_app; right; left); specialize (Hl y Hy).
  assert (Hgy : good_ei (node_ei h y)) by (apply good_node_ei, (to_good _ _ Ht); rewrite Eids; apply elem_of_app; left; exact Hy); destruct Hgy as [Hpy _].
  unfold lt_ei in *; lia.
Qed.

Lemma after_touching h ids n x : tree_ok h ids -> n ∈ ids -> x ∈ ids -> ei_fofs (node_ei h n) + ei_len (node_ei h n) = ei_fofs (node_ei h x) -> after n ids = Some x.
Proof.
  intros Ht Hn Hx E; destruct (split_at h ids n Ht Hn) as (l1 & l2 & Eids & [Hn1 Hn2] & Hl & Hr); rewrite Eids in Hx |- *; rewrite after_head by exact Hn1.
  pose proof (good_node_ei _ _ (to_good _ _ Ht n Hn)) as [Hpn _].
  assert (Hgx : good_ei (node_ei h x)) by (apply good_node_ei, (to_good _ _ Ht); rewrite Eids; exact Hx); destruct Hgx as [Hpx _].
  rewrite elem_of_app, elem_of_cons in Hx; destruct Hx as [Hx|[->|Hx]]; [specialize (Hl x Hx); unfold lt_ei in Hl; lia|lia|].
  destruct l2 as [|y l2]; [inversion Hx|]; cbn; f_equal; apply elem_of_cons in Hx; destruct Hx as [->|Hx]; [reflexivity|exfalso].
  pose proof (to_sorted _ _ Ht) as Hs; rewrite Eids, StronglySorted_app, !StronglySorted_cons, !Forall_forall in Hs; destruct Hs as (_ & _ & _ & Hxy & _).
  specialize (Hxy x Hx); specialize (Hr y ltac:(left)).
  assert (Hgy : good_ei (node_ei h y)) by (apply good_node_ei, (to_good _ _ Ht); rewrite Eids, elem_of_app, !elem_of_cons; auto); destruct Hgy as [Hpy _].
  unfold lt_ei in *; lia.
Qed.

(** ** Joining extents *)

(** [e'] is [e1] followed by [e2]. *)
Definition joins (e1 e2 e' : extent_info) : Prop :=
  ei_fofs e' = ei_fofs e1 /\ ei_blk e' = ei_blk e1 /\ ei_len e' = ei_len e1 + ei_len e2 /\
  ei_fofs e1 + ei_len e1 = ei_fofs e2 /\ ei_blk e1 + ei_len e1 = ei_blk e2.

Lemma joins_good e1 e2 e' : joins e1 e2 e' -> good_ei e1 -> good_ei e2 -> good_ei e'.
Proof. intros (A & B & C & D & E) [H1 []] [H2 []]; split; [lia|constructor; lia]. Qed.

Lemma joins_covers e1 e2 e' p : joins e1 e2 e' -> good_ei e1 -> good_ei e2 -> covers e' p <-> covers e1 p \/ covers e2 p.
Proof. intros (A & B & C & D & E) [H1 _] [H2 _]; unfold covers; lia. Qed.

Lemma joins_maps e1 e2 e' p : joins e1 e2 e' -> maps e' p = maps e1 p /\ maps e' p = maps e2 p.
Proof. intros (A & B & C & D & E); unfold maps; lia. Qed.

(** The wrap-around of the code's lengths does not happen. *)
Lemma joins_u32 e1 e2 : good_ei e1 -> good_ei e2 -> __is_extent_mergeable e1 e2 = true ->
  joins e1 e2 (mk_ei (ei_fofs e1) (ei_blk e1) (u32 (ei_len e2 + ei_len e1))) /\
  joins e1 e2 (mk_ei (ei_fofs e1) (ei_blk e1) (u32 (ei_len e1 + ei_len e2))).
Proof.
  intros H1 H2 Hm; apply mergeable_iff in Hm; [|assumption|assumption]; destruct H1 as [? []], H2 as [? []], Hm; unfold joins; cbn; rewrite !u32_small by lia; lia.
Qed.

(** An extent that touches node [n] becomes part of it. *)
Lemma extend_node h ids n ei e' : tree_ok h ids -> n ∈ ids -> good_ei ei -> (forall i, i ∈ ids -> apart (node_ei h i) ei) ->
  (joins ei (node_ei h n) e' \/ joins (node_ei h n) ei e') ->
  tree_ok (<[n := e']> h) ids /\
  (forall p a, cached_at (<[n := e']> h) ids p a <-> cached_at h ids p a \/ (covers ei p /\ a = maps ei p)).
Proof.
  intros Ht Hn Hei Ha Hj; pose proof (good_node_ei _ _ (to_good _ _ Ht n Hn)) as Hgn.
  assert (He' : good_ei e') by (destruct Hj; eapply joins_good; eassumption).
  assert (Hc : forall p, covers e' p <-> covers ei p \/ covers (node_ei h n) p) by (intros p; destruct Hj as [Hj|Hj]; rewrite (joins_covers _ _ _ _ Hj) by assumption; tauto).
  assert (Hm : forall p, maps e' p = maps ei p /\ maps e' p = maps (node_ei h n) p) by (intros p; destruct Hj as [Hj|Hj]; destruct (joins_maps _ _ _ p Hj); auto).
  split.
  - apply tree_ok_change; [exact Ht|exact Hn|exact He'| |]; intros i Hi Hne Hlt; specialize (Ha i Hi); destruct Hj as [(A & B & C & D & E)|(A & B & C & D & E)];
      pose proof (good_node_ei _ _ (to_good _ _ Ht i Hi)) as [Hpi _]; destruct Hei as [Hpe _], Hgn as [Hpn _]; unfold lt_ei, apart in *; lia.
  - intros p a; split.
    + intros (i & Hi & Hci & ->); rewrite node_ei_insert in *; destruct (decide (i = n)) as [->|Hne]; [|left; exists i; auto].
      apply Hc in Hci; destruct Hci as [Hci|Hci]; [right; split; [exact Hci|apply Hm]|left; exists n; split; [exact Hn|split; [exact Hci|apply Hm]]].
    + intros [(i & Hi & Hci & ->)|[Hci ->]].
      * exists i; split; [exact Hi|]; rewrite node_ei_insert; destruct (decide (i = n)) as [->|Hne]; [|auto].
        split; [apply Hc; auto|symmetry; apply Hm].
      * exists n; split; [exact Hn|]; rewrite node_ei_insert, decide_True by reflexivity; split; [apply Hc; auto|symmetry; apply Hm].
Qed.

(** Node [x] becomes part of its neighbour [y] and leaves the tree. *)
Lemma absorb_node h ids x y e' : tree_ok h ids -> x ∈ ids -> y ∈ ids -> x <> y ->
  (joins (node_ei h x) (node_ei h y) e' \/ joins (node_ei h y) (node_ei h x) e') ->
  tree_ok (<[y := e']> h) (filter (fun i => i <> x) ids) /\
  (forall p a, cached_at (<[y := e']> h) (filter (fun i => i <> x) ids) p a <-> cached_at h ids p a).
Proof.
  intros Ht Hx Hy Hne Hj.
  assert (Hyf : y ∈ filter (fun i => i <> x) ids) by (apply list_elem_of_filter; split; [congruence|exact Hy]).
  destruct (extend_node h (filter (fun i => i <> x) ids) y (node_ei h x) e') as [H1 H2].
  - apply tree_ok_filter, Ht.
  - exact Hyf.
  - apply good_node_ei, (to_good _ _ Ht), Hx.
  - intros i Hi; apply list_elem_of_filter in Hi; destruct Hi as [Hix Hi].
    destruct (sorted_apart h ids i x Ht Hi Hx Hix); unfold apart, lt_ei in *; auto.
  - exact Hj.
  - split; [exact H1|]; intros p a; rewrite H2; split.
    + intros [(i & Hi & H)|[Hc ->]]; [apply list_elem_of_filter in Hi; exists i; tauto|exists x; auto].
    + intros (i & Hi & Hc & ->); destruct (Z.eq_dec i x) as [->|Hix]; [right; auto|left; exists i; rewrite list_elem_of_filter; auto].
Qed.

(** The only extents of the tree that continue each other, if any, are [x] and [y]. *)
Definition compact_but (h : gmap Z extent_info) (ids : list Z) (x y : Z) : Prop :=
  forall i j, i ∈ ids -> j ∈ ids -> __is_extent_mergeable (node_ei h i) (node_ei h j) = true -> i = x /\ j = y.

Lemma compact_iff h ids : compact h ids <-> forall i j, i ∈ ids -> j ∈ ids -> __is_extent_mergeable (node_ei h i) (node_ei h j) <> true.
Proof. unfold compact; split; intros H i j Hi Hj; specialize (H i j Hi Hj); [rewrite H; discriminate|apply not_true_is_false, H]. Qed.

Lemma not_self h ids i : tree_ok h ids -> i ∈ ids -> __is_extent_mergeable (node_ei h i) (node_ei h i) = false.
Proof. intros Ht Hi; pose proof (good_node_ei _ _ (to_good _ _ Ht i Hi)) as Hg; apply mergeable_false; auto; destruct Hg as [Hp _]; lia. Qed.

Lemma absorb_compact h ids x y e' : tree_ok h ids -> x ∈ ids -> y ∈ ids -> x <> y ->
  ((joins (node_ei h x) (node_ei h y) e' /\ compact_but h ids x y) \/ (joins (node_ei h y) (node_ei h x) e' /\ compact_but h ids y x)) ->
  compact (<[y := e']> h) (filter (fun i => i <> x) ids).
Proof.
  intros Ht Hx Hy Hne Hcase.
  assert (Hg : forall i, i ∈ ids -> good_ei (node_ei h i)) by (intros i Hi; apply good_node_ei, (to_good _ _ Ht), Hi).
  assert (He' : good_ei e') by (destruct Hcase as [[Hj _]|[Hj _]]; eapply joins_good; eauto).
  apply compact_iff; intros i j Hi Hj Hm; apply list_elem_of_filter in Hi, Hj; destruct Hi as [Hix Hi], Hj as [Hjx Hj].
  assert (Ht' : forall b f, b ∈ ids -> f ∈ ids -> ei_fofs (node_ei h b) + ei_len (node_ei h b) = ei_fofs (node_ei h f) /\ ei_blk (node_ei h b) + ei_len (node_ei h b) = ei_blk (node_ei h f) -> __is_extent_mergeable (node_ei h b) (node_ei h f) = true)
    by (intros b f Hb Hf; apply mergeable_iff; auto).
  rewrite !node_ei_insert in Hm; destruct (decide (i = y)) as [->|Hiy], (decide (j = y)) as [->|Hjy].
  - apply mergeable_iff in Hm; [|assumption..]; destruct He' as [Hp _]; lia.
  - apply mergeable_iff in Hm; [|auto..]; destruct Hcase as [[(A & B & C & D & E) Hc]|[(A & B & C & D & E) Hc]].
    + destruct (Hc y j Hy Hj); [apply Ht'; auto; lia|congruence].
    + destruct (Hc x j Hx Hj); [apply Ht'; auto; lia|congruence].
  - apply mergeable_iff in Hm; [|auto..]; destruct Hcase as [[(A & B & C & D & E) Hc]|[(A & B & C & D & E) Hc]].
    + destruct (Hc i x Hi Hx); [apply Ht'; auto; lia|congruence].
    + destruct (Hc i y Hi Hy); [apply Ht'; auto; lia|congruence].
  - destruct Hcase as [[_ Hc]|[_ Hc]]; destruct (Hc i j Hi Hj Hm); congruence.
Qed.

(** After an extent became part of [n], only the neighbour on that side can continue it. *)
Lemma extend_compact h ids n ei e' i j : tree_ok h ids -> compact h ids -> n ∈ ids -> good_ei ei -> (joins ei (node_ei h n) e' \/ joins (node_ei h n) ei e') ->
  i ∈ ids -> j ∈ ids -> __is_extent_mergeable (node_ei (<[n := e']> h) i) (node_ei (<[n := e']> h) j) = true ->
  (joins ei (node_ei h n) e' -> j = n /\ i <> n) /\ (joins (node_ei h n) ei e' -> i = n /\ j <> n).
Proof.
  intros Ht Hc Hn Hei Hj Hi Hjj Hm; pose proof (proj1 (compact_iff h ids) Hc) as Hc'.
  assert (Hg : forall k, k ∈ ids -> good_ei (node_ei h k)) by (intros k Hk; apply good_node_ei, (to_good _ _ Ht), Hk).
  assert (He' : good_ei e') by (destruct Hj; eapply joins_good; eauto); pose proof He' as [Hp' _].
  assert (Ht' : forall b f, b ∈ ids -> f ∈ ids -> ~ (ei_fofs (node_ei h b) + ei_len (node_ei h b) = ei_fofs (node_ei h f) /\ ei_blk (node_ei h b) + ei_len (node_ei h b) = ei_blk (node_ei h f)))
    by (intros b f Hb Hf E; apply (Hc' b f Hb Hf), mergeable_iff; auto).
  rewrite !node_ei_insert in Hm; destruct (decide (i = n)) as [->|Hin], (decide (j = n)) as [->|Hjn].
  - apply mergeable_iff in Hm; [lia|assumption..].
  - apply mergeable_iff in Hm; [|auto..]; split; [|auto]; intros (A & B & C & D & E); exfalso; apply (Ht' n j Hn Hjj); lia.
  - apply mergeable_iff in Hm; [|auto..]; split; [auto|]; intros (A & B & C & D & E); exfalso; apply (Ht' i n Hi Hn); lia.
  - exfalso; apply (Hc' i j Hi Hjj Hm).
Qed.
