(* ===== verification/ExtentCache.v ===== *)
(** The extent cache as a whole (src/Max/data.c): the invariant over all trees, the list
    of nodes and the counters, and the operations on a tree that is being changed. *)

From Stdlib Require Import ZArith Lia Bool.
From stdpp Require Import base numbers list gmap sorting.
From S2P Require Import Prelude Layout NodePath Extent ExtentTree ExtentInv.

#[local] Open Scope Z_scope.
#[local] Ltac Zify.zify_post_hook ::= Z.to_euclidean_division_equations.

Abbreviation ids et := (inorder (et_root et)).

(** * The invariant *)

Record tree_inv (h : gmap Z extent_info) (ino refs : Z) (et : extent_tree) : Prop := {
  ti_ino : et_ino et = ino;
  ti_refs : et_refcount et = refs;
  ti_tree : tree_ok h (ids et);
  ti_compact : compact h (ids et);
  ti_count : et_count et = Z.of_nat (length (ids et));
  ti_cached : forall n, cached_en et = Some n -> n ∈ ids et;
}.

(** The other trees. *)
Record others_ok (ino : Z) (h : gmap Z extent_info) (roots : gmap Z extent_tree) : Prop := {
  oo_inv : forall i et, i <> ino -> roots !! i = Some et -> tree_inv h i 0 et;
  oo_apart : forall i j et et' n, i <> ino -> j <> ino -> i <> j -> roots !! i = Some et -> roots !! j = Some et' -> n ∈ ids et -> (n ∉ ids et');
}.

(** [n] is a node of one of them. *)
Definition elsewhere (ino : Z) (roots : gmap Z extent_tree) (n : Z) : Prop := exists i et, i <> ino /\ roots !! i = Some et /\ n ∈ ids et.

(** An operation works on the tree of [ino], which has the nodes of [et] now.  The nodes
    [pend] have left the tree and are not freed yet, the nodes [fresh] are not on the
    list yet. *)
Record work (ino : Z) (pend fresh : list Z) (et : extent_tree) (c : ext_cache) : Prop := {
  wk_tree : tree_inv (ec_nodes c) ino 1 et;
  wk_others : others_ok ino (ec_nodes c) (extent_tree_root c);
  wk_apart : forall n, elsewhere ino (extent_tree_root c) n -> (n ∉ ids et) /\ (n ∉ pend);
  wk_pend : NoDup pend /\ (forall n, n ∈ pend -> is_Some (ec_nodes c !! n) /\ (n ∉ ids et));
  wk_all : forall n, is_Some (ec_nodes c !! n) -> n ∈ ids et \/ n ∈ pend \/ elsewhere ino (extent_tree_root c) n;
  wk_next : forall n, is_Some (ec_nodes c !! n) -> n < ec_next c;
  wk_fresh : NoDup fresh /\ (forall n, n ∈ fresh -> (n ∉ extent_list c));
  wk_list : NoDup (extent_list c) /\ (forall n, is_Some (ec_nodes c !! n) <-> n ∈ extent_list c \/ n ∈ fresh);
  wk_total : total_ext_node c = s32 (Z.of_nat (size (ec_nodes c)) - Z.of_nat (length pend));
  wk_trees : total_ext_tree c = s32 (Z.of_nat (size (<[ino := et]> (extent_tree_root c))));
  wk_bug : ec_bug c = false;
}.

(** Between operations: every allocated node is in exactly one tree and, but for the nodes
    [fresh], on the list, no pointer leads to a node that is not allocated, and the
    counters are exact. *)
Record cache_inv (fresh : list Z) (c : ext_cache) : Prop := {
  co_trees : forall i et, extent_tree_root c !! i = Some et -> tree_inv (ec_nodes c) i 0 et;
  co_apart : forall i j et et' n, i <> j -> extent_tree_root c !! i = Some et -> extent_tree_root c !! j = Some et' -> n ∈ ids et -> (n ∉ ids et');
  co_all : forall n, is_Some (ec_nodes c !! n) <-> exists i et, extent_tree_root c !! i = Some et /\ n ∈ ids et;
  co_next : forall n, is_Some (ec_nodes c !! n) -> n < ec_next c;
  co_fresh : NoDup fresh /\ (forall n, n ∈ fresh -> (n ∉ extent_list c));
  co_list : NoDup (extent_list c) /\ (forall n, is_Some (ec_nodes c !! n) <-> n ∈ extent_list c \/ n ∈ fresh);
  co_total : total_ext_node c = s32 (Z.of_nat (size (ec_nodes c)));
  co_tree_total : total_ext_tree c = s32 (Z.of_nat (size (extent_tree_root c)));
  co_bug : ec_bug c = false;
}.

Abbreviation cache_ok := (cache_inv []).

Lemma cache_listed c n : cache_ok c -> n ∈ extent_list c <-> is_Some (ec_nodes c !! n).
Proof. intros H; rewrite (proj2 (co_list _ _ H)); split; [auto|intros [X|X]; [exact X|inversion X]]. Qed.

Lemma s32_s32 x y : s32 (s32 x + y) = s32 (x + y).
Proof.
  assert (E : u32 (s32 x + y) = u32 (x + y)) by (unfold s32, u32; destruct (x mod 2 ^ 32 <? 2 ^ 31); lia).
  unfold s32 at 1 3; rewrite E; reflexivity.
Qed.

Lemma tree_inv_frame h h' i r et : (forall n, n ∈ ids et -> h !! n = h' !! n) -> tree_inv h i r et -> tree_inv h' i r et.
Proof. intros E []; constructor; auto; [eapply tree_ok_frame; eassumption|eapply compact_frame; eassumption]. Qed.

Lemma others_frame ino h h' roots : (forall n, elsewhere ino roots n -> h !! n = h' !! n) -> others_ok ino h roots -> others_ok ino h' roots.
Proof.
  intros E [H1 H2]; constructor; [|exact H2]; intros i et Hi Hr; apply (tree_inv_frame h); [|apply H1; assumption].
  intros n Hn; apply E; exists i, et; auto.
Qed.

Lemma in_tree_some h et i r n : tree_inv h i r et -> n ∈ ids et -> is_Some (h !! n).
Proof. intros [_ _ Ht _ _ _] Hn; destruct (to_good _ _ Ht n Hn) as (e & E & _); rewrite E; eauto. Qed.

Lemma elsewhere_some ino h roots n : others_ok ino h roots -> elsewhere ino roots n -> is_Some (h !! n).
Proof. intros [H _] (i & et & Hi & Hr & Hn); eapply in_tree_some; eauto. Qed.

Lemma size_same_dom {A B} (m : gmap Z A) (m' : gmap Z B) : (forall i, is_Some (m !! i) <-> is_Some (m' !! i)) -> size m = size m'.
Proof. intros H; rewrite <- !size_dom; f_equal; apply leibniz_equiv; intros i; rewrite !elem_of_dom; apply H. Qed.

(** * Changing the tree *)

(** Extents of the tree's nodes change, and the nodes [dead] leave the tree. *)
Lemma work_modify ino pend fresh et c et' c' dead :
  work ino pend fresh et c -> tree_inv (ec_nodes c') ino 1 et' ->
  (forall n, n ∈ ids et' <-> n ∈ ids et /\ (n ∉ dead)) -> NoDup dead -> (forall n, n ∈ dead -> n ∈ ids et) ->
  (forall n, (n ∉ ids et) -> ec_nodes c' !! n = ec_nodes c !! n) -> (forall n, is_Some (ec_nodes c' !! n) <-> is_Some (ec_nodes c !! n)) ->
  extent_tree_root c' = extent_tree_root c -> extent_list c' = extent_list c -> ec_next c' = ec_next c -> total_ext_tree c' = total_ext_tree c ->
  ec_bug c' = ec_bug c -> total_ext_node c' = s32 (total_ext_node c - Z.of_nat (length dead)) ->
  work ino (dead ++ pend) fresh et' c'.
Proof.
  intros [W1 W2 W3 W4 W5 W6 W7 W8 W9 W10 W11] Ht Hids Hd Hdin Hout Hdom Er El En Ett Eb Etn.
  assert (Helse : forall n, elsewhere ino (extent_tree_root c) n -> ec_nodes c !! n = ec_nodes c' !! n) by (intros n Hn; symmetry; apply Hout, W3, Hn).
  constructor; rewrite ?Er, ?El, ?En, ?Eb; auto.
  - eapply others_frame; eassumption.
  - intros n Hn; destruct (W3 n Hn) as [H1 H2]; rewrite Hids, elem_of_app; split; [tauto|]; intros [H|H]; [apply H1, Hdin, H|tauto].
  - destruct W4 as [Hp1 Hp2]; split; [apply NoDup_app; split; [exact Hd|split; [|exact Hp1]]; intros n Hn H; apply (Hp2 n H), Hdin, Hn|].
    intros n Hn; rewrite Hdom, Hids; apply elem_of_app in Hn; destruct Hn as [Hn|Hn]; [|split; [apply Hp2, Hn|]; intros [H _]; apply (Hp2 n Hn), H].
    split; [eapply in_tree_some; [exact W1|apply Hdin, Hn]|tauto].
  - intros n Hn; rewrite Hdom in Hn; rewrite Hids, elem_of_app; destruct (decide (n ∈ dead)); [auto|]; destruct (W5 n Hn) as [H|[H|H]]; auto.
  - intros n; rewrite Hdom; apply W6.
  - destruct W8 as [H1 H2]; split; [exact H1|]; intros n; rewrite Hdom; apply H2.
  - rewrite Etn, W9, (size_same_dom (ec_nodes c') (ec_nodes c) Hdom), length_app; unfold Z.sub at 1; rewrite s32_s32; f_equal; lia.
  - rewrite Ett, W10; f_equal; f_equal; apply size_same_dom; intros i; destruct (decide (i = ino)) as [->|Hne];
      [rewrite !lookup_insert_eq; split; intros; eauto|rewrite !lookup_insert_ne by congruence; reflexivity].
Qed.

(** A new node enters the tree. *)
Lemma work_attach ino pend fresh et c et' c' ei :
  work ino pend fresh et c -> tree_inv (ec_nodes c') ino 1 et' ->
  (forall n, n ∈ ids et' <-> n = ec_next c \/ n ∈ ids et) -> ec_nodes c' = <[ec_next c := ei]> (ec_nodes c) ->
  extent_tree_root c' = extent_tree_root c -> extent_list c' = extent_list c -> ec_next c' = ec_next c + 1 -> total_ext_tree c' = total_ext_tree c ->
  ec_bug c' = ec_bug c -> total_ext_node c' = s32 (total_ext_node c + 1) ->
  work ino pend (ec_next c :: fresh) et' c'.
Proof.
  intros [W1 W2 W3 W4 W5 W6 W7 W8 W9 W10 W11] Ht Hids Eh Er El En Ett Eb Etn.
  assert (Hnew : ec_nodes c !! ec_next c = None) by (destruct (ec_nodes c !! ec_next c) eqn:E; [specialize (W6 (ec_next c) ltac:(rewrite E; eauto)); lia|reflexivity]).
  assert (Hsome : forall n, is_Some (ec_nodes c' !! n) <-> n = ec_next c \/ is_Some (ec_nodes c !! n)).
  { intros n; rewrite Eh; destruct (decide (n = ec_next c)) as [->|Hne]; [rewrite lookup_insert_eq; split; eauto|rewrite lookup_insert_ne by congruence; tauto]. }
  assert (Hnn : ~ is_Some (ec_nodes c !! ec_next c)) by (rewrite Hnew; intros [? ?]; discriminate).
  constructor; rewrite ?Er, ?El, ?En, ?Eb; auto.
  - eapply others_frame; [|exact W2]; intros n Hn; rewrite Eh, lookup_insert_ne; [reflexivity|intros <-; apply Hnn; eapply elsewhere_some; eassumption].
  - intros n Hn; destruct (W3 n Hn) as [H1 H2]; rewrite Hids; split; [|exact H2]; intros [->|H]; [apply Hnn; eapply elsewhere_some; eassumption|tauto].
  - destruct W4 as [Hp1 Hp2]; split; [exact Hp1|]; intros n Hn; destruct (Hp2 n Hn) as [H1 H2]; rewrite Hsome, Hids; split; [auto|]; intros [->|H]; tauto.
  - intros n; rewrite Hsome, Hids; intros [->|Hn]; [auto|]; destruct (W5 n Hn) as [H|[H|H]]; auto.
  - intros n; rewrite Hsome; intros [->|Hn]; [lia|specialize (W6 n Hn); lia].
  - destruct W7 as [H1 H2], W8 as [H3 H4]; split; [apply NoDup_cons; split; [|exact H1]; intros H; apply Hnn, H4; auto|].
    intros n Hn; apply elem_of_cons in Hn; destruct Hn as [->|Hn]; [intros H; apply Hnn, H4; auto|apply H2, Hn].
  - destruct W8 as [H3 H4]; split; [exact H3|]; intros n; rewrite Hsome, elem_of_cons, H4; tauto.
  - rewrite Etn, W9, Eh, map_size_insert_None by exact Hnew; rewrite s32_s32; f_equal; lia.
  - rewrite Ett, W10; f_equal; f_equal; apply size_same_dom; intros i; destruct (decide (i = ino)) as [->|Hne];
      [rewrite !lookup_insert_eq; split; intros; eauto|rewrite !lookup_insert_ne by congruence; reflexivity].
Qed.

Lemma filter_out_length (n : Z) l : NoDup l -> n ∈ l -> Z.of_nat (length (filter (fun i => i <> n) l)) = Z.of_nat (length l) - 1.
Proof.
  intros Hnd Hn; apply list_elem_of_split in Hn; destruct Hn as (l1 & l2 & ->); apply NoDup_app in Hnd; destruct Hnd as (_ & Hd & Hnd); apply NoDup_cons in Hnd; destruct Hnd as [Hn2 _].
  assert (Hid : forall l : list Z, (n ∉ l) -> filter (fun i => i <> n) l = l).
  { induction l as [|x l IH]; intros H; [reflexivity|]; rewrite not_elem_of_cons in H; rewrite filter_cons, decide_True by (intros ->; tauto); f_equal; apply IH; tauto. }
  rewrite filter_app, filter_cons, decide_False by tauto; rewrite !Hid by (try assumption; intros H; apply (Hd n H); left); rewrite !length_app; cbn; lia.
Qed.

Section Kernel.

Context {rb_insert_color rb_erase : Z -> rb -> rb} {alloc_ok : Z -> bool} {kernel : KernelTrees rb_insert_color rb_erase}.

Abbreviation detach := (__detach_extent_node rb_erase).
Abbreviation insert := (__insert_extent_tree rb_insert_color rb_erase alloc_ok).

Lemma length_bound h et : tree_ok h (ids et) -> Z.of_nat (length (ids et)) < 2 ^ 32.
Proof. intros Ht; apply (tree_ok_length h _ 0 Ht); [|lia]; intros i Hi; destruct (good_node_ei _ _ (to_good _ _ Ht i Hi)) as [_ []]; lia. Qed.

(** Erasing a node, whatever happened to the extents. *)
Lemma detach_inv h h' ino r et c n : tree_inv h ino r et -> n ∈ ids et ->
  tree_ok h' (filter (fun i => i <> n) (ids et)) -> compact h' (filter (fun i => i <> n) (ids et)) ->
  ids (fst (detach n et c)) = filter (fun i => i <> n) (ids et) /\ tree_inv h' ino r (fst (detach n et c)).
Proof.
  intros [T1 T2 T3 T4 T5 T6] Hn Hok Hc; pose proof (to_nodup _ _ T3) as Hnd; pose proof (length_bound _ _ T3) as Hb.
  assert (Eids : ids (fst (detach n et c)) = filter (fun i => i <> n) (ids et)) by (unfold __detach_extent_node; cbn; destruct (bool_decide _); apply erase_inorder, Hnd).
  split; [exact Eids|]; constructor; rewrite ?Eids; auto; unfold __detach_extent_node; cbn.
  - destruct (bool_decide _); exact T1.
  - destruct (bool_decide _); exact T2.
  - rewrite filter_out_length by assumption.
    assert (Hl : 0 < Z.of_nat (length (ids et))) by (destruct (ids et); [inversion Hn|cbn; lia]).
    destruct (bool_decide _); cbn; rewrite u32_small; lia.
  - intros m Hm; destruct (bool_decide (cached_en et = Some n)) eqn:E; cbn in Hm; [discriminate|]; apply bool_decide_eq_false in E.
    apply list_elem_of_filter; split; [intros ->; congruence|apply T6, Hm].
Qed.

Lemma detach_cache n et c : snd (detach n et c) = with_total_node (s32 (total_ext_node c - 1)) c.
Proof. reflexivity. Qed.

Lemma work_detach ino pend fresh et c n : work ino pend fresh et c -> n ∈ ids et ->
  work ino (n :: pend) fresh (fst (detach n et c)) (snd (detach n et c)) /\ ids (fst (detach n et c)) = filter (fun i => i <> n) (ids et).
Proof.
  intros W Hn; pose proof (wk_tree _ _ _ _ _ W) as T.
  destruct (detach_inv (ec_nodes c) (ec_nodes c) ino 1 et c n T Hn) as [E T']; [apply tree_ok_filter, (ti_tree _ _ _ _ T)| |].
  { intros i j Hi Hj; apply list_elem_of_filter in Hi, Hj; apply (ti_compact _ _ _ _ T); tauto. }
  split; [|exact E]; apply (work_modify ino pend fresh et c _ _ [n] W); try reflexivity; [exact T'|..].
  - intros i; rewrite E, list_elem_of_filter, list_elem_of_singleton; tauto.
  - apply NoDup_singleton.
  - intros i Hi; apply list_elem_of_singleton in Hi; subst; exact Hn.
Qed.

(** What an insertion does. *)
Record inserted (ei : extent_info) (den : bool) (et : extent_tree) (c : ext_cache) (ino : Z) (pend fresh : list Z)
  (en d : option Z) (et' : extent_tree) (c' : ext_cache) : Prop := {
  is_work : work ino (match d with Some x => x :: pend | None => pend end)
              (match en with Some n => if decide (n ∈ ids et) then fresh else n :: fresh | None => fresh end) et' c';
  is_cached : forall p a, cached_at (ec_nodes c') (ids et') p a <-> cached_at (ec_nodes c) (ids et) p a \/ (is_Some en /\ covers ei p /\ a = maps ei p);
  is_none : en = None -> alloc_ok (ec_next c) = false;
  is_en : forall n, en = Some n -> n ∈ ids et';
  is_dead : forall x, d = Some x -> den = true /\ x ∈ ids et;
  is_list : extent_list c' = extent_list c;
  is_roots : extent_tree_root c' = extent_tree_root c;
  is_frame : forall n, (n ∉ ids et) -> is_Some (ec_nodes c !! n) -> ec_nodes c' !! n = ec_nodes c !! n;
  is_apart : den = false -> match en with
    | Some n => n = ec_next c /\ (forall i, i ∈ ids et' <-> i = n \/ i ∈ ids et) /\ ec_nodes c' = <[n := ei]> (ec_nodes c)
    | None => ids et' = ids et /\ ec_nodes c' = ec_nodes c
    end;
}.

Lemma work_skip ino pend fresh et c : work ino pend fresh et c -> work ino pend fresh et (with_ec_next (ec_next c + 1) c).
Proof. intros []; constructor; cbn; auto; intros n Hn; specialize (wk_next0 n Hn); lia. Qed.

Lemma insert_link ino pend fresh et c ei den t' :
  work ino pend fresh et c -> good_ei ei -> insert_walk (ec_nodes c) ei (ec_next c) (et_root et) = WLink t' ->
  (exists l1 l2, ids et = l1 ++ l2 /\ inorder t' = l1 ++ ec_next c :: l2 /\ fits (ec_nodes c) ei l1 l2 /\ loose (ec_nodes c) ei (ids et)) ->
  let '(en, d, et', c') := insert ei den et c in inserted ei den et c ino pend fresh en d et' c'.
Proof.
  intros W Hei Ew (l1 & l2 & E & E' & [F1 F2] & Hlo); unfold __insert_extent_tree, __attach_extent_node; rewrite Ew.
  pose proof (wk_tree _ _ _ _ _ W) as T; destruct (alloc_ok (ec_next c)) eqn:Ea; cbn [negb].
  2: { constructor; cbn; auto; try discriminate; [apply work_skip, W|intros p a; split; [auto|intros [H|[[? H] _]]; [exact H|discriminate]]]. }
  set (n := ec_next c) in *; set (et' := with_count _ _).
  assert (Hn : ~ is_Some (ec_nodes c !! n)) by (intros H; pose proof (wk_next _ _ _ _ _ W n H); unfold n in *; lia).
  assert (Hni : n ∉ l1 ++ l2) by (rewrite <- E; intros H; apply Hn; eapply in_tree_some; eassumption).
  assert (Eids : ids et' = l1 ++ n :: l2) by (unfold et'; cbn; rewrite insert_color_inorder; exact E').
  pose proof (ti_tree _ _ _ _ T) as Ht; pose proof Ht as Ht0; rewrite E in Ht0.
  pose proof (tree_ok_insert _ l1 l2 n ei Ht0 Hni Hei F1 F2) as Hok.
  assert (Hmem : forall i, i ∈ ids et' <-> i = n \/ i ∈ ids et) by (intros i; rewrite Eids, E, !elem_of_app, elem_of_cons; tauto).
  assert (Hold : forall i, i ∈ ids et -> node_ei (<[n := ei]> (ec_nodes c)) i = node_ei (ec_nodes c) i) by (intros i Hi; rewrite node_ei_insert, decide_False; [reflexivity|intros ->; apply Hni; rewrite <- E; exact Hi]).
  assert (T' : tree_inv (<[n := ei]> (ec_nodes c)) ino 1 et').
  { constructor; rewrite ?Eids; try apply T; [exact Hok| | |intros m Hm; rewrite <- Eids; apply Hmem; right; apply (ti_cached _ _ _ _ T), Hm].
    - intros i j Hi Hj; rewrite <- Eids, Hmem in Hi, Hj.
      assert (Hg : good_ei ei) by exact Hei.
      destruct Hi as [->|Hi], Hj as [->|Hj]; rewrite ?(Hold i Hi), ?(Hold j Hj), ?node_ei_insert, ?decide_True by reflexivity; [|apply Hlo, Hj|apply Hlo, Hi|apply (ti_compact _ _ _ _ T); assumption].
      apply mergeable_false; auto; destruct Hg as [Hp _]; lia.
    - unfold et'; cbn; rewrite (ti_count _ _ _ _ T), E, !length_app; cbn; pose proof (tree_ok_length _ _ 0 Hok) as Hb; rewrite length_app in Hb; cbn in Hb.
      rewrite u32_small; [lia|]; split; [lia|]; enough (0 + Z.of_nat (length l1 + S (length l2)) < 2 ^ 32) by lia; apply Hb; [|lia].
      intros i Hi; destruct (good_node_ei _ _ (to_good _ _ Hok i Hi)) as [_ []]; lia. }
  constructor; cbn [ec_nodes set_ei with_nodes_map with_total_node with_ec_next extent_list extent_tree_root]; auto; try discriminate.
  - rewrite decide_False by (rewrite E; exact Hni); apply (work_attach ino pend fresh et c et' _ ei W); cbn; auto.
  - intros p a; split.
    + intros (i & Hi & Hc & ->); apply Hmem in Hi; destruct Hi as [->|Hi]; [right; rewrite node_ei_insert, decide_True in * by reflexivity; eauto|].
      left; exists i; rewrite <- (Hold i Hi); auto.
    + intros [(i & Hi & Hc & ->)|(_ & Hc & ->)]; [exists i; rewrite Hmem, (Hold i Hi); auto|exists n; rewrite Hmem, node_ei_insert, decide_True by reflexivity; auto].
  - intros m Hm; injection Hm as <-; apply Hmem; auto.
  - intros m _ Hs; apply lookup_insert_ne; intros <-; contradiction.
Qed.

(** The extent became part of node [en], which may have absorbed the neighbour [d]. *)
Lemma inserted_merge ino pend fresh et c ei en d et' h' :
  work ino pend fresh et c -> en ∈ ids et -> tree_inv h' ino 1 et' ->
  (match d with Some x => x ∈ ids et /\ x <> en /\ ids et' = filter (fun i => i <> x) (ids et) | None => ids et' = ids et end) ->
  (forall n, n <> en -> h' !! n = ec_nodes c !! n) -> is_Some (h' !! en) ->
  (forall p a, cached_at h' (ids et') p a <-> cached_at (ec_nodes c) (ids et) p a \/ (covers ei p /\ a = maps ei p)) ->
  inserted ei true et c ino pend fresh (Some en) d et'
    (with_nodes_map h' (match d with Some _ => with_total_node (s32 (total_ext_node c - 1)) c | None => c end)).
Proof.
  intros W Hen T' Hd Hfr Hsome Hat; pose proof (wk_tree _ _ _ _ _ W) as T.
  assert (Hout : forall n, (n ∉ ids et) -> h' !! n = ec_nodes c !! n) by (intros n Hn; apply Hfr; intros ->; contradiction).
  assert (Hdom : forall n, is_Some (h' !! n) <-> is_Some (ec_nodes c !! n)).
  { intros n; destruct (Z.eq_dec n en) as [->|Hne]; [|rewrite Hfr by exact Hne; reflexivity]; split; [intros _; eapply in_tree_some; eassumption|auto]. }
  assert (Hmem : en ∈ ids et') by (destruct d as [x|]; [destruct Hd as (_ & Hne & ->); apply list_elem_of_filter; auto|rewrite Hd; exact Hen]).
  constructor; cbn; rewrite ?decide_True by exact Hen; auto; try discriminate.
  - destruct d as [x|].
    + destruct Hd as (Hx & Hne & E); apply (work_modify ino pend fresh et c _ _ [x] W); cbn; auto; [intros n; rewrite E, list_elem_of_filter, list_elem_of_singleton; tauto|apply NoDup_singleton|].
      intros n Hn; apply list_elem_of_singleton in Hn; subst; exact Hx.
    + apply (work_modify ino pend fresh et c _ _ [] W); cbn; auto; [intros n; rewrite Hd; split; [intros H; split; [exact H|intros X; inversion X]|tauto]|constructor|intros n Hn; inversion Hn|].
      rewrite (wk_total _ _ _ _ _ W); unfold Z.sub at 2; rewrite s32_s32; f_equal; lia.
  - intros p a; rewrite Hat; split; (intros [H|H]; [auto|right]); [split; [eauto|exact H]|tauto].
  - intros n E; injection E as <-; exact Hmem.
  - intros x ->; split; [reflexivity|apply Hd].
  - destruct d; reflexivity.
  - destruct d; reflexivity.
Qed.

Lemma insert_front ino pend fresh et c ei en :
  work ino pend fresh et c -> good_ei ei -> (forall i, i ∈ ids et -> apart (node_ei (ec_nodes c) i) ei) ->
  insert_walk (ec_nodes c) ei (ec_next c) (et_root et) = WFront en -> en ∈ ids et -> __is_extent_mergeable ei (node_ei (ec_nodes c) en) = true ->
  let '(n, d, et', c') := insert ei true et c in inserted ei true et c ino pend fresh n d et' c'.
Proof.
  intros W Hei Ha Ew Hen Hm; unfold __insert_extent_tree; rewrite Ew; cbn [ec_bug_on negb].
  pose proof (wk_tree _ _ _ _ _ W) as T; pose proof (ti_tree _ _ _ _ T) as Ht; pose proof (ti_compact _ _ _ _ T) as Hcp.
  set (h := ec_nodes c) in *; assert (Hgen : good_ei (node_ei h en)) by (apply good_node_ei, (to_good _ _ Ht), Hen).
  destruct (joins_u32 ei (node_ei h en) Hei Hgen Hm) as [Hj _]; fold (ei_of c en) in Hj; set (e' := mk_ei _ _ _) in *.
  destruct (extend_node h (ids et) en ei e' Ht Hen Hei Ha (or_introl Hj)) as [Hok Hat].
  pose proof (fun i j Hi Hjj Hmm => proj1 (extend_compact h (ids et) en ei e' i j Ht Hcp Hen Hei (or_introl Hj) Hi Hjj Hmm) Hj) as Hone.
  set (h1 := <[en := e']> h) in *; clearbody e'.
  assert (Hg1 : forall i, i ∈ ids et -> good_ei (node_ei h1 i)) by (intros i Hi; apply good_node_ei, (to_good _ _ Hok), Hi).
  assert (Hprev : forall i, i ∈ ids et -> __is_extent_mergeable (node_ei h1 i) (node_ei h1 en) = true -> before en (ids et) = Some i).
  { intros i Hi Hmi; apply (before_touching h1 _ _ _ Hok Hen Hi); apply mergeable_iff in Hmi; [tauto|apply Hg1, Hi|apply Hg1, Hen]. }
  assert (Hstay : (forall i, before en (ids et) = Some i -> __is_extent_mergeable (node_ei h1 i) (node_ei h1 en) = false) ->
    inserted ei true et c ino pend fresh (Some en) None et (set_ei en e' c)).
  { intros Hno; apply (inserted_merge ino pend fresh et c ei en None et h1 W Hen); auto.
    - destruct T; constructor; auto; apply compact_iff; intros i j Hi Hjj Hmm; destruct (Hone i j Hi Hjj Hmm) as [-> _].
      rewrite (Hno i (Hprev i Hi Hmm)) in Hmm; discriminate.
    - intros n Hn; unfold h1; apply lookup_insert_ne; congruence.
    - unfold h1; rewrite lookup_insert_eq; eauto. }
  unfold __try_back_merge, rb_prev; destruct (before en (ids et)) as [prev|] eqn:Eb; [|apply Hstay; discriminate].
  unfold __is_back_mergeable; change (ei_of (set_ei en e' c)) with (node_ei h1).
  destruct (__is_extent_mergeable (node_ei h1 prev) (node_ei h1 en)) eqn:Emm; [|apply Hstay; intros i E; injection E as <-; exact Emm]; clear Hstay.
  destruct (before_ok h1 _ _ _ Hok Hen Eb) as (Hpi & Hpne & _).
  destruct (joins_u32 _ _ (Hg1 prev Hpi) (Hg1 en Hen) Emm) as [Hj2 _]; set (e2 := mk_ei _ _ _) in *.
  destruct (absorb_node h1 (ids et) prev en e2 Hok Hpi Hen Hpne (or_introl Hj2)) as [Hok2 Hat2].
  assert (Hcp2 : compact (<[en := e2]> h1) (filter (fun i => i <> prev) (ids et))).
  { apply absorb_compact; auto; left; split; [exact Hj2|]; intros i j Hi Hjj Hmm; destruct (Hone i j Hi Hjj Hmm) as [-> _]; pose proof (Hprev i Hi Hmm); split; congruence. }
  destruct (detach_inv h (<[en := e2]> h1) ino 1 et (set_ei en e2 (set_ei en e' c)) prev T Hpi Hok2 Hcp2) as [Eids T2].
  destruct (detach prev et (set_ei en e2 (set_ei en e' c))) as [et2 c2] eqn:Ed; cbn [fst] in Eids, T2.
  pose proof (detach_cache prev et (set_ei en e2 (set_ei en e' c))) as Ec; rewrite Ed in Ec; cbn [snd] in Ec; rewrite Ec.
  apply (inserted_merge ino pend fresh et c ei en (Some prev) et2 (<[en := e2]> h1) W Hen T2); auto.
  - intros n Hn; unfold h1; rewrite !lookup_insert_ne by congruence; reflexivity.
  - rewrite lookup_insert_eq; eauto.
  - intros p a; rewrite Eids, Hat2; apply Hat.
Qed.

Lemma insert_back ino pend fresh et c ei en :
  work ino pend fresh et c -> good_ei ei -> (forall i, i ∈ ids et -> apart (node_ei (ec_nodes c) i) ei) ->
  insert_walk (ec_nodes c) ei (ec_next c) (et_root et) = WBack en -> en ∈ ids et -> __is_extent_mergeable (node_ei (ec_nodes c) en) ei = true ->
  let '(n, d, et', c') := insert ei true et c in inserted ei true et c ino pend fresh n d et' c'.
Proof.
  intros W Hei Ha Ew Hen Hm; unfold __insert_extent_tree; rewrite Ew; cbn [ec_bug_on negb].
  pose proof (wk_tree _ _ _ _ _ W) as T; pose proof (ti_tree _ _ _ _ T) as Ht; pose proof (ti_compact _ _ _ _ T) as Hcp.
  set (h := ec_nodes c) in *; assert (Hgen : good_ei (node_ei h en)) by (apply good_node_ei, (to_good _ _ Ht), Hen).
  destruct (joins_u32 (node_ei h en) ei Hgen Hei Hm) as [_ Hj]; fold (ei_of c en) in Hj; fold (with_ei_len (u32 (ei_len (ei_of c en) + ei_len ei)) (ei_of c en)) in Hj.
  set (e' := with_ei_len _ (ei_of c en)) in *.
  destruct (extend_node h (ids et) en ei e' Ht Hen Hei Ha (or_intror Hj)) as [Hok Hat].
  pose proof (fun i j Hi Hjj Hmm => proj2 (extend_compact h (ids et) en ei e' i j Ht Hcp Hen Hei (or_intror Hj) Hi Hjj Hmm) Hj) as Hone.
  set (h1 := <[en := e']> h) in *; clearbody e'.
  assert (Hg1 : forall i, i ∈ ids et -> good_ei (node_ei h1 i)) by (intros i Hi; apply good_node_ei, (to_good _ _ Hok), Hi).
  assert (Hnext : forall i, i ∈ ids et -> __is_extent_mergeable (node_ei h1 en) (node_ei h1 i) = true -> after en (ids et) = Some i).
  { intros i Hi Hmi; apply (after_touching h1 _ _ _ Hok Hen Hi); apply mergeable_iff in Hmi; [tauto|apply Hg1, Hen|apply Hg1, Hi]. }
  assert (Hstay : (forall i, after en (ids et) = Some i -> __is_extent_mergeable (node_ei h1 en) (node_ei h1 i) = false) ->
    inserted ei true et c ino pend fresh (Some en) None et (set_ei en e' c)).
  { intros Hno; apply (inserted_merge ino pend fresh et c ei en None et h1 W Hen); auto.
    - destruct T; constructor; auto; apply compact_iff; intros i j Hi Hjj Hmm; destruct (Hone i j Hi Hjj Hmm) as [-> _].
      rewrite (Hno j (Hnext j Hjj Hmm)) in Hmm; discriminate.
    - intros n Hn; unfold h1; apply lookup_insert_ne; congruence.
    - unfold h1; rewrite lookup_insert_eq; eauto. }
  unfold __try_front_merge, rb_next; destruct (after en (ids et)) as [nx|] eqn:Eb; [|apply Hstay; discriminate].
  unfold __is_front_mergeable; change (ei_of (set_ei en e' c)) with (node_ei h1).
  destruct (__is_extent_mergeable (node_ei h1 en) (node_ei h1 nx)) eqn:Emm; [|apply Hstay; intros i E; injection E as <-; exact Emm]; clear Hstay.
  destruct (after_ok h1 _ _ _ Hok Hen Eb) as (Hpi & Hpne & _).
  destruct (joins_u32 _ _ (Hg1 en Hen) (Hg1 nx Hpi) Emm) as [_ Hj2]; fold (with_ei_len (u32 (ei_len (node_ei h1 en) + ei_len (node_ei h1 nx))) (node_ei h1 en)) in Hj2.
  set (e2 := with_ei_len _ (node_ei h1 en)) in *.
  destruct (absorb_node h1 (ids et) nx en e2 Hok Hpi Hen Hpne (or_intror Hj2)) as [Hok2 Hat2].
  assert (Hcp2 : compact (<[en := e2]> h1) (filter (fun i => i <> nx) (ids et))).
  { apply absorb_compact; auto; right; split; [exact Hj2|]; intros i j Hi Hjj Hmm; destruct (Hone i j Hi Hjj Hmm) as [-> _]; pose proof (Hnext j Hjj Hmm); split; congruence. }
  destruct (detach_inv h (<[en := e2]> h1) ino 1 et (set_ei en e2 (set_ei en e' c)) nx T Hpi Hok2 Hcp2) as [Eids T2].
  destruct (detach nx et (set_ei en e2 (set_ei en e' c))) as [et2 c2] eqn:Ed; cbn [fst] in Eids, T2.
  pose proof (detach_cache nx et (set_ei en e2 (set_ei en e' c))) as Ec; rewrite Ed in Ec; cbn [snd] in Ec; rewrite Ec.
  apply (inserted_merge ino pend fresh et c ei en (Some nx) et2 (<[en := e2]> h1) W Hen T2); auto.
  - intros n Hn; unfold h1; rewrite !lookup_insert_ne by congruence; reflexivity.
  - rewrite lookup_insert_eq; eauto.
  - intros p a; rewrite Eids, Hat2; apply Hat.
Qed.

(** An extent apart from the others enters the tree; without a place for a merged node
    it must not continue any of them. *)
Lemma insert_ok ino pend fresh et c ei den :
  work ino pend fresh et c -> good_ei ei -> (forall i, i ∈ ids et -> apart (node_ei (ec_nodes c) i) ei) ->
  (den = false -> loose (ec_nodes c) ei (ids et)) ->
  let '(en, d, et', c') := insert ei den et c in inserted ei den et c ino pend fresh en d et' c'.
Proof.
  intros W Hei Ha Hlo; pose proof (walk_ok (ec_nodes c) ei (ec_next c) (et_root et) (ti_tree _ _ _ _ (wk_tree _ _ _ _ _ W)) Hei Ha) as Hw.
  destruct (insert_walk (ec_nodes c) ei (ec_next c) (et_root et)) as [en|en|t'|] eqn:Ew; [| |apply (insert_link _ _ _ _ _ _ _ t'); assumption|contradiction].
  - destruct Hw as [Hen Hm]; destruct den; [apply (insert_front _ _ _ _ _ _ en); assumption|destruct (Hlo eq_refl en Hen); congruence].
  - destruct Hw as [Hen Hm]; destruct den; [apply (insert_back _ _ _ _ _ _ en); assumption|destruct (Hlo eq_refl en Hen); congruence].
Qed.

End Kernel.

(** * Taking a tree and putting it back *)

Lemma lookup_tree_ok h ino r et c fofs : ec_nodes c = h -> tree_inv h ino r et ->
  let '(en, et') := __lookup_extent_tree c et fofs in
  tree_inv h ino r et' /\ ids et' = ids et /\
  match en with
  | Some n => n ∈ ids et /\ covers (node_ei h n) fofs
  | None => forall i, i ∈ ids et -> ~ covers (node_ei h i) fofs
  end.
Proof.
  intros <- T; pose proof (ti_tree _ _ _ _ T) as Ht; pose proof (search_ok (ec_nodes c) (et_root et) fofs Ht) as Hs.
  assert (Hdown : let '(en, et') := match search (ec_nodes c) (et_root et) fofs with Some en => (Some en, with_cached (Some en) et) | None => (None, et) end in
    tree_inv (ec_nodes c) ino r et' /\ ids et' = ids et /\ match en with Some n => n ∈ ids et /\ covers (node_ei (ec_nodes c) n) fofs | None => forall i, i ∈ ids et -> ~ covers (node_ei (ec_nodes c) i) fofs end).
  { destruct (search _ _ _) as [n|]; [|auto]; split; [|auto]; destruct T; constructor; auto; cbn; intros m E; injection E as <-; apply Hs. }
  unfold __lookup_extent_tree; destruct (cached_en et) as [n|] eqn:Ec; [|exact Hdown].
  destruct ((_ <=? fofs) && _) eqn:E; [|exact Hdown]; pose proof (ti_cached _ _ _ _ T n Ec) as Hn; split; [exact T|split; [reflexivity|split; [exact Hn|]]].
  unfold ei_of in E; destruct (good_node_ei _ _ (to_good _ _ Ht n Hn)) as [Hp []]; apply andb_true_iff in E; destruct E as [E1 E2].
  apply Z.leb_le in E1; apply Z.ltb_lt in E2; rewrite u32_small in E2 by (unfold covers in *; lia); unfold covers; lia.
Qed.

(** The nodes of a file's tree. *)
Definition nodes_of (c : ext_cache) (ino : Z) : list Z := match extent_tree_root c !! ino with Some et => ids et | None => [] end.

Lemma cache_others fresh c ino : cache_inv fresh c -> others_ok ino (ec_nodes c) (extent_tree_root c).
Proof. intros []; constructor; [intros i et _; apply co_trees0|intros i j et et' n _ _ Hne; apply co_apart0; exact Hne]. Qed.

Lemma tree_inv_refs h ino r r' et : tree_inv h ino r et -> tree_inv h ino r' (with_refcount r' et).
Proof. intros []; constructor; auto. Qed.

Lemma cache_work fresh c ino et : cache_inv fresh c -> tree_inv (ec_nodes c) ino 1 et -> ids et = nodes_of c ino ->
  forall t, t = s32 (Z.of_nat (size (<[ino := et]> (extent_tree_root c)))) -> work ino [] fresh et (with_total_tree t c).
Proof.
  intros H T E t Et; pose proof H as [C1 C2 C3 C4 Cf C5 C6 C7 C8].
  constructor; cbn; auto.
  - apply (cache_others fresh), H.
  - intros n (i & et' & Hne & Hr & Hn); split; [|intros X; inversion X]; rewrite E; unfold nodes_of; destruct (extent_tree_root c !! ino) as [et0|] eqn:E0; [|intros X; inversion X].
    eapply C2; [|exact Hr|exact E0|exact Hn]; exact Hne.
  - split; [constructor|intros n X; inversion X].
  - intros n Hn; apply C3 in Hn; destruct Hn as (i & et' & Hr & Hn); destruct (Z.eq_dec i ino) as [->|Hne]; [left; rewrite E; unfold nodes_of; rewrite Hr; exact Hn|right; right; exists i, et'; auto].
  - rewrite C6; f_equal; lia.
Qed.

Lemma empty_tree_inv h ino : tree_inv h ino 0 (mk_et ino RB_NULL None 0 0).
Proof.
  constructor; cbn; auto; [constructor; [constructor|intros i X; inversion X|constructor]|intros i j X; inversion X|discriminate].
Qed.

Lemma grab_tree_ok fresh c ino : cache_inv fresh c ->
  let '(et, c') := __grab_extent_tree ino c in
  work ino [] fresh et c' /\ ids et = nodes_of c ino /\ ec_nodes c' = ec_nodes c /\ extent_tree_root c' = extent_tree_root c /\ ec_next c' = ec_next c.
Proof.
  intros H; unfold __grab_extent_tree; destruct (extent_tree_root c !! ino) as [et|] eqn:E.
  - assert (En : ids et = nodes_of c ino) by (unfold nodes_of; rewrite E; reflexivity).
    split; [|auto]; pose proof (co_trees _ _ H ino et E) as T; rewrite (ti_refs _ _ _ _ T).
    pose proof (cache_work fresh c ino (with_refcount 1 et) H (tree_inv_refs _ _ _ _ _ T) En (total_ext_tree c)) as W.
    assert (Ec : with_total_tree (total_ext_tree c) c = c) by (destruct c; reflexivity); rewrite Ec in W; apply W.
    rewrite (co_tree_total _ _ H); f_equal; f_equal; apply size_same_dom; intros i; destruct (decide (i = ino)) as [->|Hne]; [rewrite lookup_insert_eq, E; split; eauto|rewrite lookup_insert_ne by congruence; reflexivity].
  - assert (En : [] = nodes_of c ino) by (unfold nodes_of; rewrite E; reflexivity).
    split; [|auto]; apply (cache_work fresh c ino (with_refcount 1 (mk_et ino RB_NULL None 0 0)) H (tree_inv_refs _ _ _ _ _ (empty_tree_inv _ _)) En).
    rewrite map_size_insert_None by exact E; rewrite (co_tree_total _ _ H), s32_s32; f_equal; lia.
Qed.

Lemma put_ok fresh ino et c : work ino [] fresh et c -> cache_inv fresh (put_tree et c).
Proof.
  intros [W1 W2 W3 W4 W5 W6 W7 W8 W9 W10 W11]; pose proof (ti_ino _ _ _ _ W1) as Ei; unfold put_tree; rewrite Ei, (ti_refs _ _ _ _ W1); change (s32 (1 - 1)) with 0.
  pose proof (tree_inv_refs _ _ _ 0 _ W1) as T; set (et' := with_refcount 0 et) in *; change (ids et) with (ids et') in *.
  constructor; cbn; auto.
  - intros i t; destruct (decide (i = ino)) as [->|Hne]; [rewrite lookup_insert_eq; intros E; injection E as <-; exact T|rewrite lookup_insert_ne by congruence; intros E; apply (oo_inv _ _ _ W2); assumption].
  - intros i j t t' n Hij; destruct (decide (i = ino)) as [->|Hi], (decide (j = ino)) as [->|Hj]; [congruence|..]; rewrite ?lookup_insert_eq, ?lookup_insert_ne by congruence; intros E E' Hn.
    + injection E as <-; intros Hn'; destruct (W3 n) as [X _]; [exists j, t'; auto|apply X, Hn].
    + injection E' as <-; destruct (W3 n) as [X _]; [exists i, t; auto|exact X].
    + apply (oo_apart _ _ _ W2 i j t t' n); assumption.
  - intros n; split.
    + intros Hn; destruct (W5 n Hn) as [H|[H|(i & t & Hi & Hr & H)]]; [exists ino, et'; rewrite lookup_insert_eq; auto|inversion H|exists i, t; rewrite lookup_insert_ne by congruence; auto].
    + intros (i & t & Hr & Hn); destruct (decide (i = ino)) as [->|Hi]; [rewrite lookup_insert_eq in Hr; injection Hr as <-; eapply in_tree_some; eassumption|].
      rewrite lookup_insert_ne in Hr by congruence; eapply elsewhere_some; [exact W2|exists i, t; auto].
  - rewrite W9; f_equal; cbn; lia.
  - rewrite W10; f_equal; f_equal; apply size_same_dom; intros i; destruct (decide (i = ino)) as [->|Hne]; [rewrite !lookup_insert_eq; split; eauto|rewrite !lookup_insert_ne by congruence; reflexivity].
Qed.

Lemma nodes_of_put et c ino : et_ino et = ino -> nodes_of (put_tree et c) ino = ids et.
Proof. intros <-; unfold nodes_of, put_tree; cbn; rewrite lookup_insert_eq; reflexivity. Qed.

Lemma nodes_of_put_other et c ino : et_ino et <> ino -> nodes_of (put_tree et c) ino = nodes_of c ino.
Proof. intros H; unfold nodes_of, put_tree; cbn; rewrite lookup_insert_ne by congruence; reflexivity. Qed.

