(* ===== verification/ExtentUpdate.v ===== *)
(** Updating a file's extents (src/Max/data.c, [f2fs_update_extent_tree]): which pages
    are cached afterwards, and with which address. *)

From Stdlib Require Import ZArith Lia Bool.
From stdpp Require Import base numbers list gmap sorting.
From S2P Require Import Prelude Layout NodePath Extent ExtentTree ExtentInv ExtentCache.

#[local] Open Scope Z_scope.
#[local] Ltac Zify.zify_post_hook ::= Z.to_euclidean_division_equations.

(** * Freeing nodes *)

Definition delete_all (l : list Z) (h : gmap Z extent_info) : gmap Z extent_info := foldr delete h l.

Lemma delete_all_lookup l h n : delete_all l h !! n = if decide (n ∈ l) then None else h !! n.
Proof.
  induction l as [|x l IH]; [reflexivity|]; cbn; destruct (decide (n = x)) as [->|Hne].
  - rewrite lookup_delete_eq, decide_True; [reflexivity|left].
  - rewrite lookup_delete_ne by congruence; fold (delete_all l h); rewrite IH; destruct (decide (n ∈ l)); [rewrite decide_True|rewrite decide_False]; auto; [right; assumption|rewrite elem_of_cons; tauto].
Qed.

Lemma delete_all_size l h : NoDup l -> (forall n, n ∈ l -> is_Some (h !! n)) -> Z.of_nat (size (delete_all l h)) = Z.of_nat (size h) - Z.of_nat (length l).
Proof.
  intros Hnd; revert h; induction Hnd as [|x l Hx Hnd IH]; intros h Hin; cbn; [lia|].
  assert (Hs : is_Some (delete_all l h !! x)) by (rewrite delete_all_lookup, decide_False by exact Hx; apply Hin; left).
  pose proof (map_size_delete_Some x (foldr delete h l) Hs) as E; fold (delete_all l h) in *; rewrite E.
  assert (H0 : size (delete_all l h) <> 0%nat) by (intros H; apply map_size_empty_inv in H; rewrite H, lookup_empty in Hs; destruct Hs; discriminate).
  specialize (IH h (fun n Hn => Hin n ltac:(right; exact Hn))); lia.
Qed.

(** The nodes that left the tree are freed, and the list has all the others but [fresh']. *)
Lemma work_free ino pend fresh et c l' fresh' : work ino pend fresh et c -> NoDup l' -> NoDup fresh' -> (forall n, n ∈ fresh' -> (n ∉ l')) ->
  (forall n, n ∈ l' \/ n ∈ fresh' <-> is_Some (ec_nodes c !! n) /\ (n ∉ pend)) ->
  work ino [] fresh' et (with_nodes_map (delete_all pend (ec_nodes c)) (with_ext_list l' c)).
Proof.
  intros [W1 W2 W3 W4 W5 W6 W7 W8 W9 W10 W11] Hnd Hnf Hdf Hl.
  assert (Hsome : forall n, is_Some (delete_all pend (ec_nodes c) !! n) <-> is_Some (ec_nodes c !! n) /\ (n ∉ pend)).
  { intros n; rewrite delete_all_lookup; destruct (decide (n ∈ pend)); split; try tauto; intros [? ?]; discriminate. }
  assert (Hsame : forall n, (n ∉ pend) -> ec_nodes c !! n = delete_all pend (ec_nodes c) !! n) by (intros n Hn; rewrite delete_all_lookup, decide_False by exact Hn; reflexivity).
  constructor; cbn; auto.
  - apply (tree_inv_frame (ec_nodes c)); [|exact W1]; intros n Hn; apply Hsame; intros X; apply (proj2 W4 n X), Hn.
  - apply (others_frame _ (ec_nodes c)); [|exact W2]; intros n Hn; apply Hsame, W3, Hn.
  - intros n Hn; split; [apply W3, Hn|intros X; inversion X].
  - split; [constructor|intros n X; inversion X].
  - intros n Hn; apply Hsome in Hn; destruct Hn as [Hn Hp]; destruct (W5 n Hn) as [H|[H|H]]; tauto.
  - intros n Hn; apply W6, Hsome, Hn.
  - split; [exact Hnd|]; intros n; rewrite Hsome, Hl; reflexivity.
  - rewrite W9, delete_all_size; [f_equal; lia|apply W4|intros n Hn; apply W4, Hn].
Qed.

Lemma work_same ino pend fresh et et' c : work ino pend fresh et c -> tree_inv (ec_nodes c) ino 1 et' -> ids et' = ids et -> work ino pend fresh et' c.
Proof.
  intros W T E; apply (work_modify ino pend fresh et c et' c [] W T); auto.
  - intros n; rewrite E; split; [intros H; split; [exact H|intros X; inversion X]|tauto].
  - constructor.
  - intros n X; inversion X.
  - rewrite (wk_total _ _ _ _ _ W) at 1 2; cbn; unfold Z.sub at 2; rewrite s32_s32; f_equal; lia.
Qed.

(** ** The global list *)

(** The list is [l] and has exactly the nodes that satisfy [S]. *)
Definition lists (c : ext_cache) (S : Z -> Prop) : Prop := NoDup (extent_list c) /\ forall n, n ∈ extent_list c <-> S n.

Lemma lists_ext c S T : (forall n, S n <-> T n) -> lists c S -> lists c T.
Proof. intros E [H1 H2]; split; [exact H1|]; intros n; rewrite H2; apply E. Qed.

Lemma del_lists c S n : lists c S -> lists (if listed c n then list_del n c else c) (fun i => S i /\ i <> n).
Proof.
  intros [H1 H2]; unfold listed; destruct (bool_decide _) eqn:E.
  - split; cbn; [apply NoDup_filter, H1|]; intros i; rewrite list_elem_of_filter, H2; tauto.
  - apply bool_decide_eq_false in E; split; [exact H1|]; intros i; rewrite H2; split; [intros H; split; [exact H|intros ->; apply E, H2, H]|tauto].
Qed.

Lemma add_lists c S n : lists c S -> ~ S n -> lists (list_add_tail n c) (fun i => S i \/ i = n).
Proof.
  intros [H1 H2] Hn; split; cbn.
  - apply NoDup_app; split; [exact H1|split; [|apply NoDup_singleton]]; intros i Hi X; apply list_elem_of_singleton in X; subst; apply Hn, H2, Hi.
  - intros i; rewrite elem_of_app, list_elem_of_singleton, H2; reflexivity.
Qed.

Lemma move_lists c S n : lists c S -> lists (if listed c n then list_move_tail n c else list_add_tail n c) (fun i => S i \/ i = n).
Proof.
  intros H; pose proof (del_lists c S n H) as Hd; unfold listed in *; destruct (bool_decide _) eqn:E.
  - apply (lists_ext _ (fun i => (S i /\ i <> n) \/ i = n)); [intros i; destruct (Z.eq_dec i n); tauto|].
    apply add_lists; [exact Hd|tauto].
  - apply add_lists; [exact H|]; apply bool_decide_eq_false in E; intros Hn; apply E, (proj2 H), Hn.
Qed.

Lemma update_list_lists c S en en1 en2 en3 den : lists c S ->
  (forall n, en1 = Some n -> ~ S n) -> (forall n, en2 = Some n -> ~ S n) -> (en1 <> None -> en1 <> en2) ->
  lists (update_list en en1 en2 en3 den c) (fun i => ((((S i /\ Some i <> en) \/ Some i = en1) \/ Some i = en2) \/ Some i = en3) /\ Some i <> den).
Proof.
  intros H N1 N2 N12; unfold update_list.
  set (c1 := match en with Some n => if listed c n then list_del n c else c | None => c end).
  assert (H1 : lists c1 (fun i => S i /\ Some i <> en)).
  { unfold c1; destruct en as [n|]; [apply (lists_ext _ (fun i => S i /\ i <> n)); [intros i; split; intros [A B]; split; congruence|apply del_lists, H]|].
    apply (lists_ext _ S); [intros i; split; [split; [assumption|discriminate]|tauto]|exact H]. }
  set (c2 := match en1 with Some n => list_add_tail n c1 | None => c1 end).
  assert (H2 : lists c2 (fun i => (S i /\ Some i <> en) \/ Some i = en1)).
  { unfold c2; destruct en1 as [n|]; [|apply (lists_ext _ (fun i => S i /\ Some i <> en)); [intros i; split; [auto|intros [X|X]; [exact X|discriminate]]|exact H1]].
    apply (lists_ext _ (fun i => (S i /\ Some i <> en) \/ i = n)); [intros i; split; (intros [X|X]; [auto|right; congruence])|].
    apply add_lists; [exact H1|]; intros [X _]; apply (N1 n eq_refl X). }
  set (c3 := match en2 with Some n => list_add_tail n c2 | None => c2 end).
  assert (H3 : lists c3 (fun i => ((S i /\ Some i <> en) \/ Some i = en1) \/ Some i = en2)).
  { unfold c3; destruct en2 as [n|]; [|apply (lists_ext _ (fun i => (S i /\ Some i <> en) \/ Some i = en1)); [intros i; split; [auto|intros [X|X]; [exact X|discriminate]]|exact H2]].
    apply (lists_ext _ (fun i => ((S i /\ Some i <> en) \/ Some i = en1) \/ i = n)); [intros i; split; (intros [X|X]; [auto|right; congruence])|].
    apply add_lists; [exact H2|]; intros [[X _]|X]; [apply (N2 n eq_refl X)|apply N12; congruence]. }
  set (c4 := match en3 with Some n => if listed c3 n then list_move_tail n c3 else list_add_tail n c3 | None => c3 end).
  assert (H4 : lists c4 (fun i => (((S i /\ Some i <> en) \/ Some i = en1) \/ Some i = en2) \/ Some i = en3)).
  { unfold c4; destruct en3 as [n|]; [|apply (lists_ext _ (fun i => ((S i /\ Some i <> en) \/ Some i = en1) \/ Some i = en2)); [intros i; split; [auto|intros [X|X]; [exact X|discriminate]]|exact H3]].
    apply (lists_ext _ (fun i => (((S i /\ Some i <> en) \/ Some i = en1) \/ Some i = en2) \/ i = n)); [intros i; split; (intros [X|X]; [auto|right; congruence])|].
    apply move_lists, H3. }
  destruct den as [n|]; [|apply (lists_ext _ (fun i => (((S i /\ Some i <> en) \/ Some i = en1) \/ Some i = en2) \/ Some i = en3)); [intros i; split; [split; [assumption|discriminate]|tauto]|exact H4]].
  eapply lists_ext; [|apply del_lists, H4]; intros i; cbn; split; intros [A B]; split; congruence.
Qed.

(** Only the list changes. *)
Lemma update_list_eq c en en1 en2 en3 den : exists l, update_list en en1 en2 en3 den c = with_ext_list l c.
Proof.
  assert (Hx : forall l l', with_ext_list l (with_ext_list l' c) = with_ext_list l c) by reflexivity.
  assert (H0 : exists l, c = with_ext_list l c) by (exists (extent_list c); destruct c; reflexivity).
  assert (Hd : forall c1 n, (exists l, c1 = with_ext_list l c) -> exists l, list_del n c1 = with_ext_list l c) by (intros c1 n [l ->]; eexists; reflexivity).
  assert (Ha : forall c1 n, (exists l, c1 = with_ext_list l c) -> exists l, list_add_tail n c1 = with_ext_list l c) by (intros c1 n [l ->]; eexists; reflexivity).
  unfold update_list, list_move_tail; destruct en, en1, en2, en3, den; repeat (match goal with |- context [if ?b then _ else _] => destruct b end); auto 8.
Qed.

(** * The parts of a split extent *)

(** A page of the file is cached with an address. *)
Definition cached (c : ext_cache) (ino p a : Z) : Prop := cached_at (ec_nodes c) (nodes_of c ino) p a.

(** No address is cached for two pages of the file. *)
Definition distinct (c : ext_cache) (ino : Z) : Prop := forall p q a, cached c ino p a -> cached c ino q a -> p = q.

Lemma tree_of c ino : cache_ok c -> tree_ok (ec_nodes c) (nodes_of c ino).
Proof.
  intros H; unfold nodes_of; destruct (extent_tree_root c !! ino) as [et|] eqn:E; [apply (ti_tree _ _ _ _ (co_trees _ _ H ino et E))|].
  constructor; [constructor|intros i X; inversion X|constructor].
Qed.

Lemma cached_delete c et l p a : (forall i, i ∈ ids et -> (i ∉ l)) -> cached_at (delete_all l (ec_nodes c)) (ids et) p a <-> cached_at (ec_nodes c) (ids et) p a.
Proof. intros H; apply cached_at_frame; intros i Hi; rewrite delete_all_lookup, decide_False by (apply H, Hi); reflexivity. Qed.

Definition left_part (fofs : Z) (dei : extent_info) : extent_info := set_extent_info (ei_fofs dei) (ei_blk dei) (fofs - ei_fofs dei).
Definition right_part (fofs : Z) (dei : extent_info) : extent_info :=
  set_extent_info (fofs + 1) (fofs - ei_fofs dei + ei_blk dei) (u32 (ei_fofs dei + ei_len dei - 1) - fofs).

(** Whether the parts are long enough to be kept. *)
Definition keeps_left (fofs : Z) (dei : extent_info) : Prop := F2FS_MIN_EXTENT_LEN <= fofs - ei_fofs dei.
Definition keeps_right (fofs : Z) (dei : extent_info) : Prop := F2FS_MIN_EXTENT_LEN <= ei_fofs dei + ei_len dei - 1 - fofs.

Lemma left_part_eq fofs dei : good_ei dei -> covers dei fofs ->
  left_part fofs dei = mk_ei (ei_fofs dei) (ei_blk dei) (fofs - ei_fofs dei).
Proof. intros [Hp []] Hc; unfold left_part, set_extent_info, covers in *; rewrite !u32_small by lia; reflexivity. Qed.

Lemma right_part_eq fofs dei : good_ei dei -> covers dei fofs ->
  right_part fofs dei = mk_ei (fofs + 1) (ei_blk dei + (fofs - ei_fofs dei)) (ei_fofs dei + ei_len dei - 1 - fofs).
Proof. intros [Hp []] Hc; unfold right_part, set_extent_info, covers in *; rewrite (u32_small (_ + _ - 1)) by lia; rewrite !u32_small by lia; f_equal; lia. Qed.

Section Update.

Context {rb_insert_color rb_erase : Z -> rb -> rb} {alloc_ok : Z -> bool} {kernel : KernelTrees rb_insert_color rb_erase}.

Abbreviation insert := (__insert_extent_tree rb_insert_color rb_erase alloc_ok).
Abbreviation detach := (__detach_extent_node rb_erase).

(** A part is put into the tree, if it is kept and there is memory. *)
Record parted (cond : Prop) (ei : extent_info) (ino : Z) (pend fresh : list Z) (et : extent_tree) (c : ext_cache)
  (en : option Z) (et' : extent_tree) (c' : ext_cache) : Prop := {
  pa_list : extent_list c' = extent_list c;
  pa_roots : extent_tree_root c' = extent_tree_root c;
  pa_work : work ino pend (match en with Some n => n :: fresh | None => fresh end) et' c';
  pa_none : en = None -> ids et' = ids et /\ ec_nodes c' = ec_nodes c /\ (cond -> alloc_ok (ec_next c) = false);
  pa_some : forall n, en = Some n -> cond /\ n = ec_next c /\ (forall i, i ∈ ids et' <-> i = n \/ i ∈ ids et) /\ ec_nodes c' = <[n := ei]> (ec_nodes c);
}.

Lemma parted_skip (cond : Prop) ei ino pend fresh et c : work ino pend fresh et c -> ~ cond -> parted cond ei ino pend fresh et c None et c.
Proof. intros W Hc; constructor; auto; [tauto|discriminate]. Qed.

Lemma insert_part (cond : Prop) ei ino pend fresh et c : work ino pend fresh et c -> good_ei ei -> cond ->
  (forall i, i ∈ ids et -> apart (node_ei (ec_nodes c) i) ei) -> loose (ec_nodes c) ei (ids et) ->
  let '(en, _, et', c') := insert ei false et c in parted cond ei ino pend fresh et c en et' c'.
Proof.
  intros W Hei Hc Ha Hlo; pose proof (insert_ok (alloc_ok := alloc_ok) ino pend fresh et c ei false W Hei Ha (fun _ => Hlo)) as H.
  destruct (insert ei false et c) as [[[en d] et'] c']; destruct H as [I1 I2 I3 I4 I5 I6 I7 I8 I9]; specialize (I9 eq_refl).
  assert (Hd : d = None) by (destruct d as [x|]; [destruct (I5 x eq_refl); discriminate|reflexivity]); subst d.
  constructor; auto.
  - destruct en as [n|]; [|exact I1]; destruct I9 as (-> & Hids & _); rewrite decide_False in I1; [exact I1|].
    intros Hn; pose proof (wk_next _ _ _ _ _ W (ec_next c) (in_tree_some _ _ _ _ _ (wk_tree _ _ _ _ _ W) Hn)); lia.
  - intros ->; destruct I9; auto.
  - intros n ->; destruct I9 as (A & B & C); auto.
Qed.

Lemma parted_old (cond : Prop) ei ino pend fresh et c en et' c' : parted cond ei ino pend fresh et c en et' c' -> work ino pend fresh et c ->
  forall i, i ∈ ids et' -> (i ∈ ids et /\ node_ei (ec_nodes c') i = node_ei (ec_nodes c) i) \/ (en = Some i /\ node_ei (ec_nodes c') i = ei).
Proof.
  intros [P1 P2 P3 P4 P5] W i Hi; destruct en as [n|].
  - destruct (P5 n eq_refl) as (_ & Hn & Hids & ->); apply Hids in Hi; rewrite node_ei_insert; destruct (decide (i = n)) as [->|Hne]; [auto|left; tauto].
  - destruct (P4 eq_refl) as (E & -> & _); rewrite E in Hi; auto.
Qed.

Lemma parted_cached (cond : Prop) ei ino pend fresh et c en et' c' : parted cond ei ino pend fresh et c en et' c' -> work ino pend fresh et c ->
  forall p a, cached_at (ec_nodes c') (ids et') p a <-> cached_at (ec_nodes c) (ids et) p a \/ (is_Some en /\ covers ei p /\ a = maps ei p).
Proof.
  intros P W p a; pose proof P as [P1 P2 P3 P4 P5]; split.
  - intros (i & Hi & Hc & ->); destruct (parted_old _ _ _ _ _ _ _ _ _ _ P W i Hi) as [[Hi' E]|[-> E]]; rewrite E in *; [left; exists i; auto|right; eauto].
  - destruct en as [n|]; [|destruct (P4 eq_refl) as (-> & -> & _); intros [H|[[? H] _]]; [exact H|discriminate]].
    destruct (P5 n eq_refl) as (_ & Hn & Hids & Eh).
    assert (Hnew : n ∉ ids et) by (subst n; intros X; pose proof (wk_next _ _ _ _ _ W (ec_next c) (in_tree_some _ _ _ _ _ (wk_tree _ _ _ _ _ W) X)); lia).
    intros [(i & Hi & Hc & ->)|(_ & Hc & ->)].
    + exists i; rewrite Hids, Eh, node_ei_insert, decide_False by (intros ->; contradiction); auto.
    + exists n; rewrite Hids, Eh, node_ei_insert, decide_True by reflexivity; auto.
Qed.

Lemma parted_frame (cond : Prop) ei ino pend fresh et c en et' c' n : parted cond ei ino pend fresh et c en et' c' -> work ino pend fresh et c ->
  elsewhere ino (extent_tree_root c) n -> ec_nodes c' !! n = ec_nodes c !! n.
Proof.
  intros [_ _ _ P4 P5] W Hn; destruct en as [m|]; [|destruct (P4 eq_refl) as (_ & -> & _); reflexivity].
  destruct (P5 m eq_refl) as (_ & -> & _ & ->); apply lookup_insert_ne; intros <-.
  pose proof (wk_next _ _ _ _ _ W _ (elsewhere_some _ _ _ _ (wk_others _ _ _ _ _ W) Hn)); lia.
Qed.

(** The extents that stay apart from the one that is split. *)
Definition beside (h : gmap Z extent_info) (l : list Z) (dei : extent_info) : Prop :=
  forall i, i ∈ l -> good_ei (node_ei h i) /\ apart (node_ei h i) dei /\ __is_extent_mergeable (node_ei h i) dei = false.

Lemma left_ok ino pend fresh et c fofs dei : work ino pend fresh et c -> good_ei dei -> covers dei fofs -> beside (ec_nodes c) (ids et) dei ->
  let '(en1, et1, c1) := insert_left rb_insert_color rb_erase alloc_ok fofs dei et c in
  parted (keeps_left fofs dei) (left_part fofs dei) ino pend fresh et c en1 et1 c1.
Proof.
  intros W Hg Hc Hb; unfold insert_left; fold (left_part fofs dei).
  pose proof Hg as [Hp []]; unfold covers in Hc; unfold u64; rewrite Z.mod_small by lia; unfold keeps_left, F2FS_MIN_EXTENT_LEN in *.
  destruct (Z.leb_spec 64 (fofs - ei_fofs dei)) as [H|H]; [|rewrite andb_false_r; apply parted_skip; [exact W|lia]].
  rewrite (proj2 (Z.ltb_lt 1 (ei_len dei))) by lia; cbn [andb].
  assert (Hl : good_ei (left_part fofs dei)) by (rewrite left_part_eq by assumption; split; cbn; [lia|constructor; cbn; lia]).
  pose proof (insert_part (64 <= fofs - ei_fofs dei) (left_part fofs dei) ino pend fresh et c W Hl H) as HP.
  destruct (insert _ false et c) as [[[en d] et'] c']; apply HP; rewrite left_part_eq by assumption.
  - intros i Hi; destruct (Hb i Hi) as (_ & Ha & _); unfold apart in *; cbn; lia.
  - rewrite left_part_eq in Hl by assumption; intros i Hi; destruct (Hb i Hi) as (Hgi & Ha & Hm); split; apply mergeable_false; auto; cbn.
    + apply mergeable_false in Hm; [|assumption..]; tauto.
    + unfold apart in Ha; destruct Hgi; lia.
Qed.

Lemma right_ok ino pend fresh et c fofs dei : work ino pend fresh et c -> good_ei dei -> covers dei fofs ->
  (forall i, i ∈ ids et -> good_ei (node_ei (ec_nodes c) i) /\ (node_ei (ec_nodes c) i = left_part fofs dei \/
    (apart (node_ei (ec_nodes c) i) dei /\ ei_blk (node_ei (ec_nodes c) i) <> ei_blk dei + ei_len dei - 1))) ->
  let '(en2, et2, c2) := insert_right rb_insert_color rb_erase alloc_ok fofs dei et c in
  parted (keeps_right fofs dei) (right_part fofs dei) ino pend fresh et c en2 et2 c2.
Proof.
  intros W Hg Hc Hb; unfold insert_right; fold (right_part fofs dei).
  pose proof Hg as [Hp []]; pose proof Hc as Hc'; unfold covers in Hc'; unfold u64; rewrite (u32_small (_ + _ - 1)) by lia; rewrite Z.mod_small by lia; unfold keeps_right, F2FS_MIN_EXTENT_LEN in *.
  rewrite left_part_eq in Hb by assumption.
  destruct (Z.leb_spec 64 (ei_fofs dei + ei_len dei - 1 - fofs)) as [H|H]; [|rewrite andb_false_r; apply parted_skip; [exact W|lia]].
  rewrite (proj2 (Z.ltb_lt 1 (ei_len dei))) by lia; cbn [andb].
  assert (Hl : good_ei (right_part fofs dei)) by (rewrite right_part_eq by assumption; split; cbn; [lia|constructor; cbn; lia]).
  pose proof (insert_part (64 <= ei_fofs dei + ei_len dei - 1 - fofs) (right_part fofs dei) ino pend fresh et c W Hl H) as HP.
  destruct (insert _ false et c) as [[[en d] et'] c']; apply HP; rewrite right_part_eq by assumption.
  - intros i Hi; destruct (Hb i Hi) as (_ & [->|[Ha _]]); unfold apart in *; cbn; lia.
  - rewrite right_part_eq in Hl by assumption; intros i Hi; destruct (Hb i Hi) as (Hgi & Hi'); split; apply mergeable_false; auto; cbn;
      destruct Hgi as [Hpi _]; destruct Hi' as [->|[Ha Hne]]; cbn in *; unfold apart in *; lia.
Qed.

(** * The update *)

(** The pages that are still cached after page [fofs] changed, as the code leaves them:
    the left part of the split extent keeps its addresses, the right part does not. *)
Definition kept (c : ext_cache) (ino fofs p a : Z) : Prop :=
  exists i, i ∈ nodes_of c ino /\ covers (ei_of c i) p /\
    ((~ covers (ei_of c i) fofs /\ a = maps (ei_of c i) p) \/
     (covers (ei_of c i) fofs /\ p < fofs /\ keeps_left fofs (ei_of c i) /\ a = maps (ei_of c i) p) \/
     (covers (ei_of c i) fofs /\ fofs < p /\ keeps_right fofs (ei_of c i) /\ a = maps (ei_of c i) p - 1)).

Record updated (ino fofs blkaddr : Z) (c c' : ext_cache) : Prop := {
  up_ok : cache_ok c';
  up_other : forall i, i <> ino -> nodes_of c' i = nodes_of c i /\ (forall p a, cached c' i p a <-> cached c i p a);
  up_cached : forall p a, cached c' ino p a -> (p = fofs /\ a = blkaddr /\ blkaddr <> NULL_ADDR) \/ kept c ino fofs p a;
  up_full : (forall k, alloc_ok k = true) -> forall p a, (p = fofs /\ a = blkaddr /\ blkaddr <> NULL_ADDR) \/ kept c ino fofs p a -> cached c' ino p a;
}.

(** After the extent of the page left the tree and its parts came in. *)
Record split_done (ino fofs : Z) (c : ext_cache) (en en1 en2 : option Z) (et' : extent_tree) (c' : ext_cache) : Prop := {
  sd_work : work ino (match en with Some n => [n] | None => [] end)
              (match en2 with Some n => [n] | None => [] end ++ match en1 with Some n => [n] | None => [] end) et' c';
  sd_list : extent_list c' = extent_list c;
  sd_roots : extent_tree_root c' = extent_tree_root c;
  sd_frame : forall n, elsewhere ino (extent_tree_root c) n -> ec_nodes c' !! n = ec_nodes c !! n;
  sd_free : forall i, i ∈ ids et' -> ~ covers (node_ei (ec_nodes c') i) fofs;
  sd_cached : forall p a, cached_at (ec_nodes c') (ids et') p a -> kept c ino fofs p a;
  sd_full : (forall k, alloc_ok k = true) -> forall p a, kept c ino fofs p a -> cached_at (ec_nodes c') (ids et') p a;
}.

(** In terms of the parts. *)
Lemma kept_parts c ino fofs n rest dei p a : tree_ok (ec_nodes c) (nodes_of c ino) -> n ∈ nodes_of c ino -> dei = node_ei (ec_nodes c) n -> covers dei fofs ->
  rest = filter (fun i => i <> n) (nodes_of c ino) ->
  kept c ino fofs p a <-> (cached_at (ec_nodes c) rest p a \/ (keeps_left fofs dei /\ covers (left_part fofs dei) p /\ a = maps (left_part fofs dei) p)) \/
    (keeps_right fofs dei /\ covers (right_part fofs dei) p /\ a = maps (right_part fofs dei) p).
Proof.
  intros Ht Hn -> Hc ->; pose proof (good_node_ei _ _ (to_good _ _ Ht n Hn)) as Hg; rewrite left_part_eq, right_part_eq by assumption.
  assert (Hone : forall i, i ∈ nodes_of c ino -> covers (node_ei (ec_nodes c) i) fofs -> i = n) by (intros i Hi Hci; apply (cover_unique _ _ i n fofs Ht); assumption).
  unfold covers at 1 2, maps at 1 2; cbn; unfold kept, ei_of; split.
  - intros (i & Hi & Hci & Hcase); destruct (Z.eq_dec i n) as [->|Hne].
    + unfold covers, maps, keeps_left, keeps_right in *; destruct Hcase as [[H _]|[(_ & Hlt & Hk & ->)|(_ & Hlt & Hk & ->)]]; [contradiction|left; right; lia|right; lia].
    + left; left; exists i; split; [apply list_elem_of_filter; auto|split; [exact Hci|]]; destruct Hcase as [[_ E]|[(H & _)|(H & _)]]; [exact E|exfalso; apply Hne, Hone; assumption..].
  - intros [[(i & Hi & Hci & ->)|(Hk & Hp & ->)]|(Hk & Hp & ->)].
    + apply list_elem_of_filter in Hi; destruct Hi as [Hne Hi]; exists i; split; [exact Hi|split; [exact Hci|left; split; [intros X; apply Hne, Hone; assumption|reflexivity]]].
    + exists n; split; [exact Hn|]; unfold covers, maps in *; split; [lia|right; left; repeat split; lia || assumption].
    + exists n; split; [exact Hn|]; unfold covers, maps in *; split; [lia|right; right; repeat split; lia || assumption].
Qed.

Lemma split_ok ino fofs c et c0 n : cache_ok c -> distinct c ino -> work ino [] [] et c0 -> ids et = nodes_of c ino -> ec_nodes c0 = ec_nodes c ->
  extent_list c0 = extent_list c -> extent_tree_root c0 = extent_tree_root c -> n ∈ ids et -> covers (ei_of c n) fofs ->
  let dei := ei_of c0 n in
  let '(et1, c1) := detach n et c0 in
  let '(en1, et2, c2) := insert_left rb_insert_color rb_erase alloc_ok fofs dei et1 c1 in
  let '(en2, et3, c3) := insert_right rb_insert_color rb_erase alloc_ok fofs dei et2 c2 in
  split_done ino fofs c (Some n) en1 en2 et3 c3.
Proof.
  intros Hok Hdist W Eids Eh El Er Hn Hc dei; unfold ei_of in Hc; pose proof (wk_tree _ _ _ _ _ W) as T; pose proof (ti_tree _ _ _ _ T) as Ht.
  assert (Edei : dei = node_ei (ec_nodes c) n) by (unfold dei, ei_of; rewrite Eh; reflexivity).
  assert (Hg : good_ei dei) by (unfold dei, ei_of; apply good_node_ei, (to_good _ _ Ht), Hn); rewrite <- Edei in Hc.
  destruct (work_detach (alloc_ok := alloc_ok) (kernel := kernel) ino [] [] et c0 n W Hn) as [W1 E1]; destruct (detach n et c0) as [et1 c1] eqn:Ed; cbn [fst snd] in W1, E1.
  assert (Ec1 : c1 = with_total_node (s32 (total_ext_node c0 - 1)) c0) by (pose proof (detach_cache (rb_erase := rb_erase) n et c0) as X; rewrite Ed in X; exact X).
  assert (Eh1 : ec_nodes c1 = ec_nodes c) by (rewrite Ec1; exact Eh).
  assert (Hb : beside (ec_nodes c1) (ids et1) dei).
  { rewrite Eh1; intros i Hi; rewrite E1 in Hi; apply list_elem_of_filter in Hi; destruct Hi as [Hin Hi]; rewrite <- Eh.
    split; [apply good_node_ei, (to_good _ _ Ht), Hi|]; unfold dei, ei_of; split; [|apply (ti_compact _ _ _ _ T); assumption].
    destruct (sorted_apart _ _ i n Ht Hi Hn Hin); unfold apart, lt_ei in *; auto. }
  pose proof (left_ok ino [n] [] et1 c1 fofs dei W1 Hg Hc Hb) as P1; destruct (insert_left _ _ _ fofs dei et1 c1) as [[en1 et2] c2].
  pose proof (pa_work _ _ _ _ _ _ _ _ _ _ P1) as W2.
  assert (Hlast : forall i, i ∈ ids et1 -> ei_blk (node_ei (ec_nodes c1) i) <> ei_blk dei + ei_len dei - 1).
  { intros i Hi E; pose proof Hi as Hi0; rewrite E1 in Hi; apply list_elem_of_filter in Hi; destruct Hi as [Hin Hi]; destruct (Hb i Hi0) as ([Hpi _] & Ha & _); destruct Hg as [Hp _]; rewrite Eh1 in *.
    assert (Ep : ei_fofs (node_ei (ec_nodes c) i) = ei_fofs dei + ei_len dei - 1); [|unfold apart in Ha; lia].
    apply (Hdist _ _ (ei_blk dei + ei_len dei - 1)); [exists i|exists n]; rewrite <- Eids; (split; [assumption|]); rewrite <- ?Edei; unfold covers, maps; lia. }
  pose proof (right_ok ino [n] _ et2 c2 fofs dei W2 Hg Hc) as P2; destruct (insert_right _ _ _ fofs dei et2 c2) as [[en2 et3] c3].
  specialize (P2 ltac:(intros i Hi; split; [apply good_node_ei, (to_good _ _ (ti_tree _ _ _ _ (wk_tree _ _ _ _ _ W2))), Hi|];
    destruct (parted_old _ _ _ _ _ _ _ _ _ _ P1 W1 i Hi) as [[Hi' ->]|[_ ->]]; [right; split; [apply Hb, Hi'|apply Hlast, Hi']|left; reflexivity])).
  pose proof (pa_work _ _ _ _ _ _ _ _ _ _ P2) as W3.
  assert (Hfull : forall p a, cached_at (ec_nodes c3) (ids et3) p a <->
    (cached_at (ec_nodes c) (ids et1) p a \/ (is_Some en1 /\ covers (left_part fofs dei) p /\ a = maps (left_part fofs dei) p)) \/ (is_Some en2 /\ covers (right_part fofs dei) p /\ a = maps (right_part fofs dei) p)).
  { intros p a; rewrite (parted_cached _ _ _ _ _ _ _ _ _ _ P2 W2), (parted_cached _ _ _ _ _ _ _ _ _ _ P1 W1), Eh1; reflexivity. }
  assert (Htc : tree_ok (ec_nodes c) (nodes_of c ino)) by (rewrite <- Eids, <- Eh; exact Ht).
  rewrite Eids in E1; rewrite Eids in Hn; pose proof (fun p a => kept_parts c ino fofs n (ids et1) dei p a Htc Hn Edei Hc E1) as Hkept.
  constructor.
  - destruct en2; exact W3.
  - rewrite (pa_list _ _ _ _ _ _ _ _ _ _ P2), (pa_list _ _ _ _ _ _ _ _ _ _ P1), Ec1; exact El.
  - rewrite (pa_roots _ _ _ _ _ _ _ _ _ _ P2), (pa_roots _ _ _ _ _ _ _ _ _ _ P1), Ec1; exact Er.
  - intros m Hm; rewrite <- Er in Hm; assert (Hm1 : elsewhere ino (extent_tree_root c1) m) by (rewrite Ec1; exact Hm).
    rewrite (parted_frame _ _ _ _ _ _ _ _ _ _ m P2 W2), (parted_frame _ _ _ _ _ _ _ _ _ _ m P1 W1 Hm1), Eh1; [reflexivity|].
    rewrite (pa_roots _ _ _ _ _ _ _ _ _ _ P1); exact Hm1.
  - intros i Hi Hci; assert (Hx : cached_at (ec_nodes c3) (ids et3) fofs (maps (node_ei (ec_nodes c3) i) fofs)) by (exists i; auto).
    apply Hfull in Hx; rewrite left_part_eq, right_part_eq in Hx by assumption; unfold covers in Hx at 1 2; cbn in Hx; destruct Hx as [[(j & Hj & Hcj & _)|Hx]|Hx]; [|lia|lia].
    rewrite E1 in Hj; apply list_elem_of_filter in Hj; destruct Hj as [Hne Hj]; apply Hne, (cover_unique _ _ j n fofs Htc); [exact Hj|exact Hn|exact Hcj|rewrite <- Edei; exact Hc].
  - intros p a; rewrite Hfull, Hkept; intros [[H|[[m ->] H]]|[[m ->] H]]; [auto|left; right; split; [apply (pa_some _ _ _ _ _ _ _ _ _ _ P1 m eq_refl)|exact H]|right; split; [apply (pa_some _ _ _ _ _ _ _ _ _ _ P2 m eq_refl)|exact H]].
  - intros Hal p a; rewrite Hfull, Hkept; intros [[H|[Hk H]]|[Hk H]]; [auto|left; right|right]; (split; [|exact H]).
    + destruct en1 as [m|]; [eauto|]; destruct (pa_none _ _ _ _ _ _ _ _ _ _ P1 eq_refl) as (_ & _ & X); specialize (X Hk); rewrite Hal in X; discriminate.
    + destruct en2 as [m|]; [eauto|]; destruct (pa_none _ _ _ _ _ _ _ _ _ _ P2 eq_refl) as (_ & _ & X); specialize (X Hk); rewrite Hal in X; discriminate.
Qed.

Lemma pend_elem (den en : option Z) n :
  n ∈ match den with Some x => [x] | None => [] end ++ match en with Some x => [x] | None => [] end <-> den = Some n \/ en = Some n.
Proof.
  rewrite elem_of_app; destruct den, en; rewrite ?list_elem_of_singleton, ?elem_of_nil; split; intros [H|H]; try contradiction; try discriminate; subst; try (injection H as <-); auto.
Qed.

(** Step 4 and 5 of the update: the list is brought up to date and the nodes that left
    the tree are freed. *)
Lemma finish_ok ino et c en en1 en2 en3 den fresh :
  work ino (match den with Some x => [x] | None => [] end ++ match en with Some n => [n] | None => [] end) fresh et c ->
  (forall n, en = Some n -> n ∈ extent_list c) -> (forall n, en3 = Some n -> n ∈ ids et) ->
  (forall n, en1 = Some n \/ en2 = Some n -> n ∈ fresh) -> (en1 <> None -> en1 <> en2) ->
  (forall n, n ∈ fresh -> en1 = Some n \/ en2 = Some n \/ en3 = Some n) ->
  let c' := free_opt den (free_opt en (update_list en en1 en2 en3 den c)) in
  work ino [] [] et c' /\ ec_nodes c' = delete_all (match den with Some x => [x] | None => [] end ++ match en with Some n => [n] | None => [] end) (ec_nodes c) /\ extent_tree_root c' = extent_tree_root c.
Proof.
  intros W Hen H3 H12 Hne Hfresh c'; set (pend := _ ++ _) in *.
  pose proof (update_list_lists c (fun i => i ∈ extent_list c) en en1 en2 en3 den) as HL.
  destruct (update_list_eq c en en1 en2 en3 den) as [l El]; unfold c'; rewrite El in HL |- *; clear c'.
  assert (Ec : free_opt den (free_opt en (with_ext_list l c)) = with_nodes_map (delete_all pend (ec_nodes c)) (with_ext_list l c)) by (destruct den, en; reflexivity).
  rewrite Ec; split; [|auto].
  pose proof (wk_fresh _ _ _ _ _ W) as [_ Hf]; pose proof (wk_list _ _ _ _ _ W) as [Hnd Hl]; pose proof (wk_pend _ _ _ _ _ W) as [_ Hp].
  destruct HL as [HL1 HL2]; [split; [exact Hnd|reflexivity]|intros n E; apply Hf, H12; auto|intros n E; apply Hf, H12; auto|exact Hne|].
  assert (Hpend : forall n, n ∈ pend <-> den = Some n \/ en = Some n) by (intros n; apply pend_elem).
  apply (work_free ino pend fresh); [exact W|exact HL1|constructor|intros n X; inversion X|].
  assert (Hnil : forall n, n ∈ l \/ n ∈ [] <-> n ∈ l) by (intros n; split; [intros [X|X]; [exact X|inversion X]|auto]).
  intros n; cbn in HL2; rewrite Hnil, HL2, Hl, Hpend; split.
  - intros [[[[[HnL Hx]|Hx]|Hx]|Hx] Hd].
    + split; [auto|intros [X|X]; congruence].
    + assert (Hn : n ∈ fresh) by (apply H12; auto); split; [auto|]; intros [X|X]; [congruence|apply (Hf n Hn), Hen, X].
    + assert (Hn : n ∈ fresh) by (apply H12; auto); split; [auto|]; intros [X|X]; [congruence|apply (Hf n Hn), Hen, X].
    + symmetry in Hx; pose proof (H3 n Hx) as Hn; split; [apply Hl; eapply in_tree_some; [apply W|exact Hn]|].
      intros X; apply (Hp n); [apply Hpend, X|exact Hn].
  - intros [[HnL|Hn] Hnp]; (split; [|intros X; apply Hnp; auto]); [left; left; left; split; [exact HnL|intros X; apply Hnp; auto]|].
    destruct (Hfresh n Hn) as [X|[X|X]]; auto.
Qed.

Lemma single_good fofs blkaddr : page_in_range fofs blkaddr -> blkaddr <> NULL_ADDR ->
  set_extent_info fofs blkaddr 1 = mk_ei fofs blkaddr 1 /\ good_ei (mk_ei fofs blkaddr 1).
Proof.
  unfold page_in_range, NULL_ADDR; intros [Hf Hb] Hn; unfold set_extent_info; rewrite !u32_small by lia.
  split; [reflexivity|split; cbn; [lia|constructor; cbn; lia]].
Qed.

(** Step 3: the page itself. *)
Lemma single_ok ino fofs blkaddr c en en1 en2 et c1 : page_in_range fofs blkaddr -> split_done ino fofs c en en1 en2 et c1 ->
  (forall n, en = Some n -> n ∈ extent_list c) ->
  let '(en3, den, et2, c2) := if negb (blkaddr =? 0) then insert (set_extent_info fofs blkaddr 1) true et c1 else (None, None, et, c1) in
  let c3 := free_opt den (free_opt en (update_list en en1 en2 en3 den c2)) in
  work ino [] [] et2 c3 /\ extent_tree_root c3 = extent_tree_root c /\ (forall n, elsewhere ino (extent_tree_root c) n -> ec_nodes c3 !! n = ec_nodes c !! n) /\
  (forall p a, cached_at (ec_nodes c3) (ids et2) p a <-> cached_at (ec_nodes c1) (ids et) p a \/ (is_Some en3 /\ p = fofs /\ a = blkaddr)) /\
  (en3 = None -> blkaddr = NULL_ADDR \/ alloc_ok (ec_next c1) = false) /\ (is_Some en3 -> blkaddr <> NULL_ADDR).
Proof.
  intros Hr [S1 S2 S3 Sf S4 S5 S6] Hen; unfold NULL_ADDR in *.
  assert (Hfr : forall n, (en1 = Some n \/ en2 = Some n) <-> n ∈ match en2 with Some n => [n] | None => [] end ++ match en1 with Some n => [n] | None => [] end).
  { intros n; rewrite pend_elem; tauto. }
  set (fr := match en2 with Some n => [n] | None => [] end ++ _) in *.
  assert (Hne : en1 <> None -> en1 <> en2).
  { intros Hx ->; destruct en2 as [n|]; [|congruence]; pose proof (proj1 (wk_fresh _ _ _ _ _ S1)) as Hnd; apply NoDup_cons in Hnd; destruct Hnd as [Hnd _]; apply Hnd; left. }
  destruct (Z.eqb_spec blkaddr 0) as [->|Hb]; cbn [negb].
  - destruct (finish_ok ino et c1 en en1 en2 None None fr S1) as (W & Eh & Er).
    + intros n E; rewrite S2; apply Hen, E.
    + discriminate.
    + intros n; apply Hfr.
    + exact Hne.
    + intros n Hn; apply Hfr in Hn; tauto.
    + split; [exact W|split; [rewrite Er; exact S3|split; [|split; [|split; [auto|intros [? ?]; discriminate]]]]].
      { intros n Hn; rewrite Eh, delete_all_lookup, decide_False; [apply Sf, Hn|apply (wk_apart _ _ _ _ _ S1); rewrite S3; exact Hn]. }
      intros p a; rewrite Eh, cached_delete; [split; [auto|intros [X|[[? X] _]]; [exact X|discriminate]]|].
      intros i Hi X; apply (proj2 (wk_pend _ _ _ _ _ S1) i X), Hi.
  - destruct (single_good fofs blkaddr Hr Hb) as [Es Hg]; rewrite Es.
    pose proof (insert_ok (alloc_ok := alloc_ok) ino _ _ et c1 (mk_ei fofs blkaddr 1) true S1 Hg) as HI.
    destruct (insert (mk_ei fofs blkaddr 1) true et c1) as [[[en3 den] et2] c2].
    destruct HI as [I1 I2 I3 I4 I5 I6 I7 I8 I9]; [|discriminate|].
    { intros i Hi; specialize (S4 i Hi); unfold covers, apart in *; cbn; lia. }
    set (fr' := match en3 with Some n => if decide (n ∈ ids et) then fr else n :: fr | None => fr end) in *.
    assert (Hfr' : forall n, n ∈ fr' -> n ∈ fr \/ en3 = Some n) by (intros n; unfold fr'; destruct en3 as [m|]; [|auto]; destruct (decide (m ∈ ids et)); [auto|]; rewrite elem_of_cons; intros [->|X]; auto).
    assert (Hsub : forall n, n ∈ fr -> n ∈ fr') by (intros n Hn; unfold fr'; destruct en3 as [m|]; [|exact Hn]; destruct (decide (m ∈ ids et)); [exact Hn|right; exact Hn]).
    assert (W0 : work ino (match den with Some x => [x] | None => [] end ++ match en with Some n => [n] | None => [] end) fr' et2 c2) by (destruct den; exact I1).
    destruct (finish_ok ino et2 c2 en en1 en2 en3 den fr' W0) as (W & Eh & Er).
    + intros n E; rewrite I6, S2; apply Hen, E.
    + exact I4.
    + intros n Hn; apply Hsub, Hfr, Hn.
    + exact Hne.
    + intros n Hn; destruct (Hfr' n Hn) as [X|X]; [apply Hfr in X; tauto|auto].
    + split; [exact W|split; [rewrite Er, I7; exact S3|split; [|split; [|split; [intros E; right; apply I3, E|auto]]]]].
      { intros n Hn; pose proof Hn as Hn'; rewrite <- S3 in Hn'; rewrite Eh, delete_all_lookup, decide_False by (apply (wk_apart _ _ _ _ _ W0); rewrite I7; exact Hn').
        rewrite I8; [apply Sf, Hn|apply (wk_apart _ _ _ _ _ S1), Hn'|eapply elsewhere_some; [apply S1|exact Hn']]. }
      intros p a; rewrite Eh, cached_delete; [|intros i Hi X; apply (proj2 (wk_pend _ _ _ _ _ W0) i X), Hi].
      rewrite I2; unfold covers, maps; cbn; split; (intros [X|(X & Y & Z)]; [auto|right; split; [exact X|lia]]).
Qed.

Lemma kept_none c ino fofs p a : (forall i, i ∈ nodes_of c ino -> ~ covers (ei_of c i) fofs) -> kept c ino fofs p a <-> cached c ino p a.
Proof.
  intros Hn; split.
  - intros (i & Hi & Hc & [[_ ->]|[[H _]|[H _]]]); [exists i; auto|destruct (Hn i Hi H)..].
  - intros (i & Hi & Hc & ->); exists i; split; [exact Hi|split; [exact Hc|left; split; [apply Hn, Hi|reflexivity]]].
Qed.

Lemma update_tree_ok ino fofs blkaddr c : cache_ok c -> distinct c ino -> page_in_range fofs blkaddr ->
  updated ino fofs blkaddr c (f2fs_update_extent_tree rb_insert_color rb_erase alloc_ok ino fofs blkaddr c).
Proof.
  intros Hok Hdist Hr; pose proof Hr as [Hf _]; unfold f2fs_update_extent_tree; rewrite (u32_small fofs) by lia.
  pose proof (grab_tree_ok [] c ino Hok) as HG; destruct (__grab_extent_tree ino c) as [et c0] eqn:Eg; destruct HG as (W & Eids & Eh & Er & En).
  assert (El : extent_list c0 = extent_list c) by (unfold __grab_extent_tree in Eg; destruct (extent_tree_root c !! ino); injection Eg as _ <-; reflexivity).
  pose proof (lookup_tree_ok (ec_nodes c0) ino 1 et c0 fofs eq_refl (wk_tree _ _ _ _ _ W)) as HLk.
  destruct (__lookup_extent_tree c0 et fofs) as [en et'] eqn:Elk; destruct HLk as (T' & Eids' & Hen).
  pose proof (work_same ino [] [] et et' c0 W T' Eids') as W'; rewrite Eids in Eids'; rewrite Eh, Eids in Hen.
  assert (HS : forall en1 en2 et1 c1, match en with
      | Some n => let dei := ei_of c0 n in let '(et, c) := detach n et' c0 in
          let '(en1, et, c) := insert_left rb_insert_color rb_erase alloc_ok fofs dei et c in
          let '(en2, et, c) := insert_right rb_insert_color rb_erase alloc_ok fofs dei et c in (en1, en2, et, c)
      | None => (None, None, et', c0)
      end = (en1, en2, et1, c1) -> split_done ino fofs c en en1 en2 et1 c1).
  { intros en1 en2 et1 c1; destruct en as [n|].
    - destruct Hen as [Hn Hc]; rewrite <- Eids' in Hn.
      pose proof (split_ok ino fofs c et' c0 n Hok Hdist W' Eids' Eh El Er Hn Hc) as HP; cbv zeta in HP |- *.
      destruct (detach n et' c0) as [e1 d1]; destruct (insert_left _ _ _ fofs _ e1 d1) as [[x1 e2] d2]; destruct (insert_right _ _ _ fofs _ e2 d2) as [[x2 e3] d3].
      intros E; injection E as <- <- <- <-; exact HP.
    - intros E; injection E as <- <- <- <-; constructor; cbn; auto.
      + intros n _; rewrite Eh; reflexivity.
      + rewrite Eh, Eids'; exact Hen.
      + rewrite Eh, Eids'; intros p a H; apply kept_none; [exact Hen|exact H].
      + rewrite Eh, Eids'; intros _ p a H; apply kept_none in H; [exact H|exact Hen]. }
  match goal with |- updated _ _ _ _ (match ?x with _ => _ end) => destruct x as [[[en1 en2] et1] c1] eqn:Ex end.
  specialize (HS en1 en2 et1 c1 eq_refl); clear Ex.
  assert (HL : forall n, en = Some n -> n ∈ extent_list c).
  { intros n ->; apply cache_listed, (co_all _ _ Hok); [exact Hok|]; destruct Hen as [Hn _]; unfold nodes_of in Hn; destruct (extent_tree_root c !! ino) as [t|] eqn:Et; [eauto|inversion Hn]. }
  pose proof (single_ok ino fofs blkaddr c en en1 en2 et1 c1 Hr HS HL) as H3.
  match type of H3 with match ?x with _ => _ end => destruct x as [[[en3 den] et2] c2] end; cbv zeta in H3.
  destruct H3 as (W3 & Er3 & Hf3 & Hc3 & Hnone & Hsome); set (c3 := free_opt den _) in *.
  pose proof (ti_ino _ _ _ _ (wk_tree _ _ _ _ _ W3)) as Ei2; pose proof (put_ok [] ino et2 c3 W3) as Hok'.
  pose proof HS as [_ _ _ _ _ S5 S6]; constructor.
  - exact Hok'.
  - intros i Hi; rewrite nodes_of_put_other by congruence; unfold nodes_of; rewrite Er3; split; [reflexivity|].
    intros p a; unfold cached; rewrite nodes_of_put_other by congruence; unfold nodes_of; rewrite Er3; cbn [put_tree with_trees ec_nodes]; fold (nodes_of c i).
    apply cached_at_frame; intros n Hn; apply Hf3; unfold nodes_of in Hn; destruct (extent_tree_root c !! i) as [t|] eqn:Et; [exists i, t; auto|inversion Hn].
  - intros p a; unfold cached; rewrite nodes_of_put by exact Ei2; cbn [put_tree with_trees ec_nodes]; rewrite Hc3; intros [H|(H1 & -> & ->)]; [right; apply S5, H|left; auto].
  - intros Hal p a; unfold cached; rewrite nodes_of_put by exact Ei2; cbn [put_tree with_trees ec_nodes]; rewrite Hc3; intros [(-> & -> & Hb)|H]; [right|left; apply S6; assumption].
    destruct en3 as [m|]; [eauto|]; destruct (Hnone eq_refl) as [X|X]; [contradiction|rewrite Hal in X; discriminate].
Qed.
End Update.
