(* ===== verification/ExtentOps.v ===== *)
(** The operations of the extent cache (src/Max/data.c): lookup, initialisation, update,
    shrinking and destruction keep its invariant; what a lookup returns; and the address
    the right part of a split extent gets. *)

From Stdlib Require Import ZArith Lia Bool.
From stdpp Require Import base numbers list gmap sorting.
From S2P Require Import Prelude Keys Layout NodePath Extent ExtentTree ExtentInv ExtentCache ExtentUpdate.

#[local] Open Scope Z_scope.
#[local] Ltac Zify.zify_post_hook ::= Z.to_euclidean_division_equations.

(** * Lookup *)

Lemma find_grab c ino et : __find_extent_tree ino c = Some et -> __grab_extent_tree ino c = (et, c).
Proof. unfold __find_extent_tree, __grab_extent_tree; destruct (extent_tree_root c !! ino); [intros E; injection E as <-; reflexivity|discriminate]. Qed.

Lemma find_none c ino : __find_extent_tree ino c = None -> nodes_of c ino = [].
Proof. unfold __find_extent_tree, nodes_of; destruct (extent_tree_root c !! ino); [discriminate|reflexivity]. Qed.

Lemma work_list ino fresh et c l' fresh' : work ino [] fresh et c -> NoDup l' -> NoDup fresh' -> (forall n, n ∈ fresh' -> (n ∉ l')) ->
  (forall n, n ∈ l' \/ n ∈ fresh' <-> n ∈ extent_list c \/ n ∈ fresh) -> work ino [] fresh' et (with_ext_list l' c).
Proof.
  intros W H1 H2 H3 H4; pose proof (work_free ino [] fresh et c l' fresh' W H1 H2 H3) as H; destruct c; apply H; clear H.
  intros n; rewrite H4, <- (proj2 (wk_list _ _ _ _ _ W)); split; [intros X; split; [exact X|intros Y; inversion Y]|tauto].
Qed.

(** Nothing that is cached changes. *)
Definition same_cached (c c' : ext_cache) : Prop := forall i p a, cached c' i p a <-> cached c i p a.

Lemma put_same c et c' ino : et_ino et = ino -> ids et = nodes_of c ino -> ec_nodes c' = ec_nodes c -> extent_tree_root c' = extent_tree_root c -> same_cached c (put_tree et c').
Proof.
  intros Ei E Eh Er i p a; unfold cached; cbn [put_tree with_trees ec_nodes]; rewrite Eh; destruct (Z.eq_dec i ino) as [->|Hne].
  - rewrite nodes_of_put by exact Ei; rewrite E; reflexivity.
  - rewrite nodes_of_put_other by congruence; unfold nodes_of; rewrite Er; reflexivity.
Qed.

Lemma lookup_ok c ino pgofs : cache_ok c -> 0 <= pgofs < 2 ^ 32 ->
  let '(r, c') := f2fs_lookup_extent_tree ino pgofs c in
  cache_ok c' /\ same_cached c c' /\
  match r with
  | Some ei => good_ei ei /\ covers ei pgofs /\ cached c ino pgofs (maps ei pgofs)
  | None => forall a, ~ cached c ino pgofs a
  end.
Proof.
  intros Hok Hp; unfold f2fs_lookup_extent_tree; destruct (__find_extent_tree ino c) as [et|] eqn:Ef.
  2: { split; [exact Hok|split; [intros i p a; reflexivity|]]; intros a (i & Hi & _); rewrite (find_none c ino Ef) in Hi; inversion Hi. }
  pose proof (grab_tree_ok [] c ino Hok) as HG; rewrite (find_grab c ino et Ef) in HG; destruct HG as (W & Eids & _ & _ & _).
  rewrite u32_small by lia; pose proof (lookup_tree_ok (ec_nodes c) ino 1 et c pgofs eq_refl (wk_tree _ _ _ _ _ W)) as HL.
  destruct (__lookup_extent_tree c et pgofs) as [en et']; destruct HL as (T' & Eids' & Hen).
  pose proof (work_same ino [] [] et et' c W T' Eids') as W'; pose proof (ti_ino _ _ _ _ T') as Ei; rewrite Eids in Eids'; rewrite Eids in Hen.
  destruct en as [n|].
  - destruct Hen as [Hn Hc]; split; [|split].
    + apply (put_ok [] ino); unfold listed; destruct (bool_decide (n ∈ extent_list c)) eqn:El; [|exact W'].
      apply bool_decide_eq_true in El; pose proof (proj1 (wk_list _ _ _ _ _ W')) as Hnd; apply (work_list ino [] et' c); [exact W'| |constructor|intros m X; inversion X|].
      * cbn; apply NoDup_app; split; [apply NoDup_filter, Hnd|split; [|apply NoDup_singleton]]; intros m Hm X; apply list_elem_of_singleton in X; subst m; apply list_elem_of_filter in Hm; tauto.
      * intros m; cbn; rewrite elem_of_app, list_elem_of_filter, list_elem_of_singleton; destruct (Z.eq_dec m n) as [->|Hne]; tauto.
    + apply (put_same _ _ _ ino); auto; destruct (listed c n); reflexivity.
    + pose proof (good_node_ei _ _ (to_good _ _ (tree_of c ino Hok) n Hn)) as Hg; split; [exact Hg|split; [exact Hc|exists n; auto]].
  - split; [apply (put_ok [] ino), W'|split; [apply (put_same _ _ _ ino); auto|]]; intros a (i & Hi & Hc & _); apply (Hen i Hi Hc).
Qed.

Section Ops.

Context (rb_insert_color rb_erase : Z -> rb -> rb) (alloc_ok : Z -> bool) {kernel : KernelTrees rb_insert_color rb_erase}.

Abbreviation insert := (__insert_extent_tree rb_insert_color rb_erase alloc_ok).
Abbreviation detach := (__detach_extent_node rb_erase).

(** * Initialisation from the inode *)

Lemma init_ok c ino i_ext : cache_ok c -> (F2FS_MIN_EXTENT_LEN <= ei_len i_ext -> good_ei i_ext) ->
  let c' := f2fs_init_extent_tree rb_insert_color rb_erase alloc_ok ino i_ext c in
  cache_ok c' /\ (forall i p a, i <> ino -> cached c' i p a <-> cached c i p a) /\
  (forall p a, cached c' ino p a -> cached c ino p a \/ (nodes_of c ino = [] /\ covers i_ext p /\ a = maps i_ext p)).
Proof.
  intros Hok Hext; unfold f2fs_init_extent_tree; destruct (Z.ltb_spec (ei_len i_ext) F2FS_MIN_EXTENT_LEN) as [H|H]; [cbn; split; [exact Hok|split; [reflexivity|auto]]|].
  specialize (Hext ltac:(lia)); pose proof Hext as [Hp []]; pose proof (grab_tree_ok [] c ino Hok) as HG; destruct (__grab_extent_tree ino c) as [et c0] eqn:Eg; destruct HG as (W & Eids & Eh & Er & En).
  pose proof (wk_tree _ _ _ _ _ W) as T; pose proof (ti_count _ _ _ _ T) as Ec; pose proof (ti_ino _ _ _ _ T) as Ei.
  destruct (Z.eqb_spec (et_count et) 0) as [E0|E0]; cbn [negb].
  2: { pose proof (put_same c et c0 ino Ei Eids Eh Er) as Hs; split; [apply (put_ok [] ino), W|split; [intros i p a _; apply Hs|intros p a Hc; left; apply Hs, Hc]]. }
  assert (Hnil : ids et = []) by (destruct (ids et); [reflexivity|cbn in Ec; lia]).
  assert (Es : set_extent_info (ei_fofs i_ext) (ei_blk i_ext) (ei_len i_ext) = i_ext) by (unfold set_extent_info; rewrite !u32_small by lia; destruct i_ext; reflexivity); rewrite Es.
  pose proof (insert_ok (alloc_ok := alloc_ok) ino [] [] et c0 i_ext false W Hext) as HI; destruct (insert i_ext false et c0) as [[[en d] et'] c1].
  destruct HI as [I1 I2 I3 I4 I5 I6 I7 I8 I9]; [rewrite Hnil; intros i X; inversion X|intros _; rewrite Hnil; intros i X; inversion X|].
  assert (Hd : d = None) by (destruct d as [x|]; [destruct (I5 x eq_refl); discriminate|reflexivity]); subst d.
  assert (Hcached : forall p a, cached_at (ec_nodes c1) (ids et') p a -> cached c ino p a \/ (nodes_of c ino = [] /\ covers i_ext p /\ a = maps i_ext p)).
  { intros p a Hc; apply I2 in Hc; destruct Hc as [Hc|(_ & Hc)]; [left; unfold cached; rewrite <- Eids, <- Eh; exact Hc|right; rewrite <- Eids; auto]. }
  pose proof (ti_ino _ _ _ _ (wk_tree _ _ _ _ _ I1)) as Ei'.
  assert (Hother : forall et2 c2, et_ino et2 = ino -> ec_nodes c2 = ec_nodes c1 -> extent_tree_root c2 = extent_tree_root c1 -> forall i p a, i <> ino -> cached (put_tree et2 c2) i p a <-> cached c i p a).
  { intros et2 c2 E1 E2 E3 i p a Hne; unfold cached; rewrite nodes_of_put_other by congruence; unfold nodes_of; rewrite E3, I7, Er; cbn [put_tree with_trees ec_nodes]; rewrite E2; fold (nodes_of c i).
    apply cached_at_frame; intros n Hn; unfold nodes_of in Hn; destruct (extent_tree_root c !! i) as [t|] eqn:Et; [|inversion Hn].
    rewrite <- Eh; symmetry; symmetry; apply I8; [rewrite Hnil; intros X; inversion X|rewrite Eh; eapply in_tree_some; [apply (co_trees _ _ Hok i t Et)|exact Hn]]. }
  destruct en as [n|]; [|split; [apply (put_ok [] ino), I1|split; [apply Hother; auto|intros p a; unfold cached; rewrite nodes_of_put by exact Ei'; apply Hcached]]].
  rewrite decide_False in I1 by (rewrite Hnil; intros X; inversion X).
  assert (W2 : work ino [] [n] (with_cached (Some n) et') c1).
  { apply (work_same ino [] [n] et'); [exact I1| |reflexivity]; pose proof (wk_tree _ _ _ _ _ I1) as [T1 T2 T3 T4 T5 T6]; constructor; auto; cbn; intros m E; injection E as <-; apply I4; reflexivity. }
  split; [|split; [apply Hother; auto|intros p a; unfold cached; rewrite nodes_of_put by exact Ei'; apply Hcached]].
  apply (put_ok [] ino), (work_list ino [n]); [exact W2| |constructor|intros m X; inversion X|].
  - apply NoDup_app; split; [apply (wk_list _ _ _ _ _ W2)|split; [|apply NoDup_singleton]]; intros m Hm X; apply list_elem_of_singleton in X; subst m.
    apply (proj2 (wk_fresh _ _ _ _ _ W2) n); [left|exact Hm].
  - intros m; cbn; rewrite elem_of_app, elem_of_nil; tauto.
Qed.

(** * Freeing nodes *)

(** The nodes [gone] left the tree of [ino] and were freed. *)
Record freed (ino : Z) (gone fresh : list Z) (et : extent_tree) (c : ext_cache) (et' : extent_tree) (c' : ext_cache) : Prop := {
  fd_work : work ino [] (filter (fun n => n ∉ gone) fresh) et' c';
  fd_ids : forall n, n ∈ ids et' <-> n ∈ ids et /\ (n ∉ gone);
  fd_gone : forall n, n ∈ gone -> n ∈ ids et;
  fd_nodes : forall n, ec_nodes c' !! n = if decide (n ∈ gone) then None else ec_nodes c !! n;
  fd_list : forall n, n ∈ extent_list c' <-> n ∈ extent_list c /\ (n ∉ gone);
  fd_roots : extent_tree_root c' = extent_tree_root c;
}.

Lemma freed_none ino fresh et c : work ino [] fresh et c -> freed ino [] fresh et c et c.
Proof.
  intros W; assert (Hn : forall n : Z, n ∉ []) by (intros n X; inversion X).
  assert (Ef : filter (fun n => n ∉ []) fresh = fresh) by (clear W; induction fresh as [|x r IH]; [reflexivity|]; rewrite filter_cons, decide_True by apply Hn; f_equal; exact IH).
  constructor; rewrite ?Ef; auto; try (intros n; split; [intros X; split; [exact X|apply Hn]|tauto]).
  intros n X; inversion X.
Qed.

Lemma freed_trans ino g1 g2 fresh et c et1 c1 et2 c2 : freed ino g1 fresh et c et1 c1 -> freed ino g2 (filter (fun n => n ∉ g1) fresh) et1 c1 et2 c2 -> freed ino (g2 ++ g1) fresh et c et2 c2.
Proof.
  intros [A1 A2 A3 A4 A5 A6] [B1 B2 B3 B4 B5 B6].
  assert (Hap : forall n : Z, n ∉ g2 ++ g1 <-> (n ∉ g1) /\ (n ∉ g2)) by (intros n; rewrite elem_of_app; tauto).
  constructor.
  - assert (E : filter (fun n => n ∉ g2 ++ g1) fresh = filter (fun n => n ∉ g2) (filter (fun n => n ∉ g1) fresh)); [|rewrite E; exact B1].
    clear - Hap; induction fresh as [|x r IH]; [reflexivity|]; rewrite !filter_cons; specialize (Hap x); destruct (decide (x ∉ g2 ++ g1)) as [H|H], (decide (x ∉ g1)) as [H1|H1]; rewrite ?filter_cons.
    + rewrite decide_True by tauto; f_equal; exact IH.
    + tauto.
    + rewrite decide_False by tauto; exact IH.
    + exact IH.
  - intros n; rewrite B2, A2, Hap; tauto.
  - intros n Hn; apply elem_of_app in Hn; destruct Hn as [Hn|Hn]; [apply A2, B3, Hn|apply A3, Hn].
  - intros n; rewrite B4; destruct (decide (n ∈ g2)) as [H2|H2], (decide (n ∈ g2 ++ g1)) as [H|H]; rewrite elem_of_app in H; try tauto; rewrite A4; [rewrite decide_True by tauto; reflexivity|rewrite decide_False by tauto; reflexivity].
  - intros n; rewrite B5, A5, Hap; tauto.
  - rewrite B6; exact A6.
Qed.

(** One node is detached and freed; the list [l'] no longer has it. *)
Lemma free_one ino fresh et c n l' : work ino [] fresh et c -> n ∈ ids et -> NoDup l' -> (forall m, m ∈ l' <-> m ∈ extent_list c /\ m <> n) ->
  let '(et', c') := detach n et (with_ext_list l' c) in freed ino [n] fresh et c et' (free_node n c').
Proof.
  intros W Hn Hnd Hl; pose proof (wk_list _ _ _ _ _ W) as [_ HL]; pose proof (wk_fresh _ _ _ _ _ W) as [Hf1 Hf2].
  destruct (work_detach (alloc_ok := alloc_ok) (kernel := kernel) ino [] fresh et c n W Hn) as [W1 E1].
  pose proof (detach_cache (rb_erase := rb_erase) n et c) as Ec.
  assert (Ed : detach n et (with_ext_list l' c) = (fst (detach n et c), with_ext_list l' (snd (detach n et c)))) by reflexivity.
  rewrite Ed; rewrite Ec in *; clear Ed; set (et' := fst (detach n et c)) in *; set (c1 := with_total_node (s32 (total_ext_node c - 1)) c) in *.
  assert (Hnot : forall m : Z, m ∉ [n] <-> m <> n) by (intros m; rewrite list_elem_of_singleton; tauto).
  constructor.
  - apply (work_free ino [n] fresh et' c1); [exact W1|exact Hnd|apply NoDup_filter, Hf1|intros m Hm; apply list_elem_of_filter in Hm; rewrite Hl; intros [X _]; apply (Hf2 m); tauto|].
    intros m; rewrite list_elem_of_filter, Hl, Hnot; change (ec_nodes c1) with (ec_nodes c); rewrite HL; tauto.
  - intros m; rewrite E1, list_elem_of_filter, Hnot; tauto.
  - intros m Hm; apply list_elem_of_singleton in Hm; subst; exact Hn.
  - intros m; cbn [free_node with_nodes_map ec_nodes with_ext_list]; destruct (decide (m ∈ [n])) as [H|H]; [apply list_elem_of_singleton in H; subst; apply lookup_delete_eq|rewrite Hnot in H; apply lookup_delete_ne; congruence].
  - intros m; cbn; rewrite Hl, Hnot; reflexivity.
  - reflexivity.
Qed.

Lemma free_node_ok free_all ino fresh et c n : work ino [] fresh et c -> n ∈ ids et ->
  let '(et', c') := free_extent_node rb_erase free_all (et, c) n in
  freed ino (if free_all || negb (listed c n) then [n] else []) fresh et c et' c'.
Proof.
  intros W Hn; unfold free_extent_node; pose proof (proj1 (wk_list _ _ _ _ _ W)) as Hnd.
  assert (Hdel : let '(et', c') := detach n et (list_del n c) in freed ino [n] fresh et c et' (free_node n c')).
  { apply (free_one ino fresh et c n); [exact W|exact Hn|apply NoDup_filter, Hnd|intros m; rewrite list_elem_of_filter; tauto]. }
  assert (Hkeep : listed c n = false -> let '(et', c') := detach n et c in freed ino [n] fresh et c et' (free_node n c')).
  { intros E; pose proof (free_one ino fresh et c n (extent_list c) W Hn Hnd) as H; destruct c; apply H; intros m; unfold listed in E; apply bool_decide_eq_false in E; cbn in *.
    split; [intros Hm; split; [exact Hm|intros ->; contradiction]|tauto]. }
  destruct free_all; cbn [orb andb].
  - destruct (listed c n) eqn:E; [destruct (detach n et (list_del n c)); exact Hdel|destruct (detach n et c); exact (Hkeep eq_refl)].
  - destruct (listed c n) eqn:E; cbn [negb]; [apply freed_none, W|destruct (detach n et c); exact (Hkeep eq_refl)].
Qed.

(** All nodes of the tree that are off the list, or all of them. *)
Lemma free_loop free_all ino l fresh et c : work ino [] fresh et c -> NoDup l -> (forall n, n ∈ l -> n ∈ ids et) ->
  let '(et', c') := foldl (free_extent_node rb_erase free_all) (et, c) l in
  exists gone, freed ino gone fresh et c et' c' /\ (forall n, n ∈ gone <-> n ∈ l /\ (free_all = true \/ (n ∉ extent_list c))).
Proof.
  revert fresh et c; induction l as [|x l IH]; intros fresh et c W Hnd Hin; cbn [foldl]; [exists []; split; [apply freed_none, W|intros n; split; [intros X; inversion X|intros [X _]; inversion X]]|].
  apply NoDup_cons in Hnd; destruct Hnd as [Hx Hnd]; pose proof (free_node_ok free_all ino fresh et c x W (Hin x ltac:(left))) as H1.
  destruct (free_extent_node rb_erase free_all (et, c) x) as [et1 c1]; set (g1 := if free_all || negb (listed c x) then [x] else []) in *.
  assert (Hg1 : forall n, n ∈ g1 <-> n = x /\ (free_all = true \/ (n ∉ extent_list c))).
  { intros n; unfold g1, listed; destruct free_all; cbn; [rewrite list_elem_of_singleton; tauto|]; destruct (bool_decide (x ∈ extent_list c)) eqn:E; cbn.
    - apply bool_decide_eq_true in E; split; [intros X; inversion X|intros [-> [X|X]]; [discriminate|contradiction]].
    - apply bool_decide_eq_false in E; rewrite list_elem_of_singleton; split; [intros ->; auto|tauto]. }
  specialize (IH (filter (fun n => n ∉ g1) fresh) et1 c1 (fd_work _ _ _ _ _ _ _ H1) Hnd).
  destruct (foldl (free_extent_node rb_erase free_all) (et1, c1) l) as [et2 c2]; destruct IH as (g2 & H2 & Hg2).
  { intros n Hn; apply (fd_ids _ _ _ _ _ _ _ H1); split; [apply Hin; right; exact Hn|]; rewrite Hg1; intros [-> _]; contradiction. }
  exists (g2 ++ g1); split; [apply (freed_trans _ _ _ _ _ _ et1 c1); assumption|].
  intros n; rewrite elem_of_app, Hg2, Hg1, elem_of_cons, (fd_list _ _ _ _ _ _ _ H1), Hg1.
  destruct (Z.eq_dec n x) as [->|Hne]; tauto.
Qed.

(** What is cached afterwards was cached before. *)
Definition fewer_cached (c c' : ext_cache) : Prop := forall i p a, cached c' i p a -> cached c i p a.

Lemma freed_put ino gone fresh et c et' c' c0 : freed ino gone fresh et c et' c' -> work ino [] fresh et c -> ids et = nodes_of c0 ino -> ec_nodes c = ec_nodes c0 -> extent_tree_root c = extent_tree_root c0 ->
  cache_inv (filter (fun n => n ∉ gone) fresh) (put_tree et' c') /\ fewer_cached c0 (put_tree et' c') /\
  (forall n, n ∈ nodes_of (put_tree et' c') ino <-> n ∈ nodes_of c0 ino /\ (n ∉ gone)) /\
  (forall i, i <> ino -> nodes_of (put_tree et' c') i = nodes_of c0 i).
Proof.
  intros [F1 F2 F3 F4 F5 F6] W Eids Eh Er; pose proof (ti_ino _ _ _ _ (wk_tree _ _ _ _ _ F1)) as Ei.
  assert (Ho : forall i, i <> ino -> nodes_of (put_tree et' c') i = nodes_of c0 i) by (intros i Hne; rewrite nodes_of_put_other by congruence; unfold nodes_of; rewrite F6, Er; reflexivity).
  split; [apply (put_ok _ ino), F1|split; [|split; [intros n; rewrite nodes_of_put by exact Ei; rewrite F2, Eids; reflexivity|exact Ho]]].
  intros i p a (n & Hn & Hc & ->); unfold cached; cbn [put_tree with_trees ec_nodes] in *.
  assert (En : (n ∈ nodes_of c0 i) /\ (n ∉ gone)).
  { destruct (Z.eq_dec i ino) as [->|Hne]; [rewrite nodes_of_put, F2, Eids in Hn by exact Ei; exact Hn|]; rewrite Ho in Hn by exact Hne; split; [exact Hn|].
    intros X; apply F3 in X; unfold nodes_of in Hn; rewrite <- Er in Hn; destruct (extent_tree_root c !! i) as [t|] eqn:Et; [|inversion Hn].
    destruct (wk_apart _ _ _ _ _ W n) as [Y _]; [exists i, t; auto|apply Y, X]. }
  assert (E : node_ei (ec_nodes c') n = node_ei (ec_nodes c0) n) by (unfold node_ei; rewrite F4, decide_False by apply En; rewrite Eh; reflexivity).
  rewrite E in *; exists n; split; [apply En|auto].
Qed.

(** * Destroying the tree of an inode *)

Lemma drop_empty fresh c ino et : cache_inv fresh c -> extent_tree_root c !! ino = Some et -> ids et = [] ->
  let c' := with_total_tree (s32 (total_ext_tree c - 1)) (with_trees (delete ino (extent_tree_root c)) c) in
  cache_inv fresh c' /\ same_cached c c' /\ (forall i, nodes_of c' i = nodes_of c i).
Proof.
  intros [C1 C2 C3 C4 Cf C5 C6 C7 C8] Hr He c'.
  assert (Hl : forall i t, delete ino (extent_tree_root c) !! i = Some t -> extent_tree_root c !! i = Some t) by (intros i t H; apply lookup_delete_Some in H; tauto).
  assert (Hn : forall i, nodes_of c' i = nodes_of c i).
  { intros i; unfold nodes_of, c'; cbn; destruct (Z.eq_dec i ino) as [->|Hne]; [rewrite lookup_delete_eq, Hr; symmetry; exact He|rewrite lookup_delete_ne by congruence; reflexivity]. }
  split; [|split; [intros i p a; unfold cached; rewrite Hn; reflexivity|exact Hn]].
  constructor; cbn; auto.
  - intros i j t t' n Hij Hi Hj; apply (C2 i j); auto.
  - intros n; rewrite C3; split; intros (i & t & Hi & Hin); exists i, t; [|split; [apply Hl, Hi|exact Hin]].
    destruct (Z.eq_dec i ino) as [->|Hne]; [rewrite Hr in Hi; injection Hi as <-; rewrite He in Hin; inversion Hin|rewrite lookup_delete_ne by congruence; auto].
  - rewrite C7; unfold Z.sub at 1; rewrite s32_s32; f_equal.
    pose proof (map_size_delete_Some ino (extent_tree_root c) ltac:(rewrite Hr; eauto)) as E; rewrite E.
    assert (H0 : size (extent_tree_root c) <> 0%nat) by (intros H; apply map_size_empty_inv in H; rewrite H, lookup_empty in Hr; discriminate); lia.
Qed.

Lemma destroy_ok opt c ino : cache_ok c ->
  let c' := f2fs_destroy_extent_tree rb_erase opt ino c in
  cache_ok c' /\ fewer_cached c c' /\ (opt = true -> forall p a, ~ cached c' ino p a).
Proof.
  intros Hok; unfold f2fs_destroy_extent_tree; destruct opt; cbn [negb]; [|split; [exact Hok|split; [intros i p a H; exact H|discriminate]]].
  destruct (__find_extent_tree ino c) as [et|] eqn:Ef.
  2: { split; [exact Hok|split; [intros i p a H; exact H|]]; intros _ p a (i & Hi & _); rewrite (find_none c ino Ef) in Hi; inversion Hi. }
  pose proof (grab_tree_ok [] c ino Hok) as HG; rewrite (find_grab c ino et Ef) in HG; destruct HG as (W & Eids & _ & _ & _).
  pose proof (ti_tree _ _ _ _ (wk_tree _ _ _ _ _ W)) as Ht; unfold __free_extent_tree.
  pose proof (free_loop true ino (ids et) [] et c W (to_nodup _ _ Ht) (fun n H => H)) as HF.
  destruct (foldl (free_extent_node rb_erase true) (et, c) (ids et)) as [et' c1]; destruct HF as (gone & HF & Hg).
  destruct (freed_put ino gone [] et c et' c1 c HF W Eids eq_refl eq_refl) as (Hok1 & Hfew & Hids & Hother); cbn [filter] in Hok1.
  pose proof (ti_ino _ _ _ _ (wk_tree _ _ _ _ _ (fd_work _ _ _ _ _ _ _ HF))) as Ei.
  assert (Hnil : ids et' = []).
  { destruct (ids et') as [|x r] eqn:E; [reflexivity|exfalso]; assert (Hx : x ∈ ids et') by (rewrite E; left); apply (fd_ids _ _ _ _ _ _ _ HF) in Hx; destruct Hx as [Hx Hng]; apply Hng, Hg; auto. }
  assert (El : extent_tree_root (put_tree et' c1) !! ino = Some (with_refcount (s32 (et_refcount et' - 1)) et')) by (unfold put_tree; rewrite Ei; apply lookup_insert_eq); rewrite El.
  set (et2 := with_refcount _ et') in *; assert (T2 : tree_inv (ec_nodes (put_tree et' c1)) ino 0 et2) by (apply (co_trees _ _ Hok1), El).
  rewrite (ti_refs _ _ _ _ T2), (ti_count _ _ _ _ T2); change (ids et2) with (ids et'); rewrite Hnil; cbn [length Z.of_nat Z.eqb negb orb ec_bug_on].
  destruct (drop_empty [] (put_tree et' c1) ino et2 Hok1 El Hnil) as (Hok2 & Hs & Hn2).
  split; [exact Hok2|split; [intros i p a H; apply Hfew, Hs, H|]]; intros _ p a (i & Hi & _).
  rewrite Hn2, nodes_of_put, Hnil in Hi by exact Ei; inversion Hi.
Qed.

(** * Shrinking *)

(** Some nodes off the list were freed; [fresh'] of them are left. *)
Record shrunk (fresh : list Z) (c : ext_cache) (fresh' : list Z) (c' : ext_cache) : Prop := {
  sh_inv : cache_inv fresh' c';
  sh_fresh : forall n, n ∈ fresh' -> n ∈ fresh;
  sh_fewer : fewer_cached c c';
  sh_nodes : forall i n, n ∈ nodes_of c' i -> n ∈ nodes_of c i;
  sh_keys : sorted_keys (extent_tree_root c') = sorted_keys (extent_tree_root c);
  sh_list : extent_list c' = extent_list c;
}.

Lemma shrunk_refl fresh c : cache_inv fresh c -> shrunk fresh c fresh c.
Proof. intros H; constructor; auto; intros i p a X; exact X. Qed.

Lemma shrunk_trans f1 c1 f2 c2 f3 c3 : shrunk f1 c1 f2 c2 -> shrunk f2 c2 f3 c3 -> shrunk f1 c1 f3 c3.
Proof.
  intros [A1 A2 A3 A4 A5 A6] [B1 B2 B3 B4 B5 B6]; constructor; [exact B1|intros n H; apply A2, B2, H|intros i p a H; apply A3, B3, H|intros i n H; apply A4, B4, H|congruence|congruence].
Qed.

Lemma free_keeps_list et c l : extent_list (snd (foldl (free_extent_node rb_erase false) (et, c) l)) = extent_list c.
Proof.
  revert et c; induction l as [|x l IH]; intros et c; [reflexivity|]; cbn [foldl].
  destruct (free_extent_node rb_erase false (et, c) x) as [et1 c1] eqn:E; rewrite IH.
  unfold free_extent_node in E; cbn in E; destruct (negb (listed c x)); injection E as _ <-; reflexivity.
Qed.

Lemma sorted_keys_dom {A B} (m : gmap Z A) (m' : gmap Z B) : (forall i, is_Some (m !! i) <-> is_Some (m' !! i)) -> sorted_keys m = sorted_keys m'.
Proof. intros H; unfold sorted_keys; f_equal; f_equal; apply leibniz_equiv; intros i; rewrite !elem_of_dom; apply H. Qed.

Lemma shrink_one_ok fresh c ino : cache_inv fresh c ->
  exists fresh', shrunk fresh c fresh' (shrink_one_tree rb_erase c ino) /\ (forall n, n ∈ fresh' -> (n ∉ nodes_of (shrink_one_tree rb_erase c ino) ino)).
Proof.
  intros Hok; unfold shrink_one_tree; destruct (__find_extent_tree ino c) as [et|] eqn:Ef.
  2: { exists fresh; split; [apply shrunk_refl, Hok|]; intros n _; rewrite (find_none c ino Ef); intros X; inversion X. }
  pose proof (grab_tree_ok fresh c ino Hok) as HG; rewrite (find_grab c ino et Ef) in HG; destruct HG as (W & Eids & _ & _ & _).
  pose proof (ti_tree _ _ _ _ (wk_tree _ _ _ _ _ W)) as Ht; unfold __free_extent_tree.
  pose proof (free_loop false ino (ids et) fresh et c W (to_nodup _ _ Ht) (fun n H => H)) as HF; pose proof (free_keeps_list et c (ids et)) as Hlist.
  destruct (foldl (free_extent_node rb_erase false) (et, c) (ids et)) as [et' c1]; destruct HF as (gone & HF & Hg); cbn [snd] in Hlist.
  destruct (freed_put ino gone fresh et c et' c1 c HF W Eids eq_refl eq_refl) as (Hok1 & Hfew & Hids & Hother).
  pose proof (ti_ino _ _ _ _ (wk_tree _ _ _ _ _ (fd_work _ _ _ _ _ _ _ HF))) as Ei.
  exists (filter (fun n => n ∉ gone) fresh); split; [constructor; auto|].
  - intros n Hn; apply list_elem_of_filter in Hn; apply Hn.
  - intros i n Hn; destruct (Z.eq_dec i ino) as [->|Hne]; [apply Hids in Hn; apply Hn|rewrite Hother in Hn by exact Hne; exact Hn].
  - apply sorted_keys_dom; intros i; unfold put_tree; cbn; rewrite Ei, (fd_roots _ _ _ _ _ _ _ HF); destruct (Z.eq_dec i ino) as [->|Hne]; [|rewrite lookup_insert_ne by congruence; reflexivity].
    rewrite lookup_insert_eq; unfold __find_extent_tree in Ef; destruct (extent_tree_root c !! ino); [split; eauto|discriminate].
  - intros n Hn; apply list_elem_of_filter in Hn; destruct Hn as [Hng Hn]; rewrite Hids, <- Eids; intros [Hi _].
    apply Hng, Hg; split; [exact Hi|right; apply (proj2 (wk_fresh _ _ _ _ _ W) n Hn)].
Qed.

Lemma shrink_trees_ok fresh c l : cache_inv fresh c ->
  exists fresh', shrunk fresh c fresh' (foldl (shrink_one_tree rb_erase) c l) /\ (forall n k, n ∈ fresh' -> k ∈ l -> (n ∉ nodes_of (foldl (shrink_one_tree rb_erase) c l) k)).
Proof.
  revert fresh c; induction l as [|x l IH]; intros fresh c Hok; cbn [foldl]; [exists fresh; split; [apply shrunk_refl, Hok|intros n k _ X; inversion X]|].
  destruct (shrink_one_ok fresh c x Hok) as (f1 & H1 & Hx); destruct (IH f1 _ (sh_inv _ _ _ _ H1)) as (f2 & H2 & Hl); exists f2; split; [eapply shrunk_trans; eassumption|].
  intros n k Hn Hk; apply elem_of_cons in Hk; destruct Hk as [->|Hk]; [|apply Hl; assumption].
  intros X; apply (Hx n (sh_fresh _ _ _ _ H2 n Hn)), (sh_nodes _ _ _ _ H2), X.
Qed.

(** The loop meets every tree, 64 at a time. *)
Lemma shrink_loop_ok fuel ino fresh c : cache_inv fresh c -> Nat.lt (length (filter (fun k => ino <= k) (sorted_keys (extent_tree_root c)))) fuel ->
  exists fresh', shrunk fresh c fresh' (shrink_loop rb_erase fuel ino c) /\
    (forall n k, n ∈ fresh' -> k ∈ filter (fun k => ino <= k) (sorted_keys (extent_tree_root c)) -> (n ∉ nodes_of (shrink_loop rb_erase fuel ino c) k)).
Proof.
  revert ino fresh c; induction fuel as [|fuel IH]; intros ino fresh c Hok Hf; [lia|]; cbn [shrink_loop].
  destruct (last (gang_lookup (extent_tree_root c) ino EXT_TREE_VEC_SIZE)) as [l|] eqn:El.
  2: { rewrite (gang_none _ _ EXT_TREE_VEC_SIZE ltac:(apply Nat.lt_0_succ) El); exists fresh; split; [apply shrunk_refl, Hok|intros n k _ X; inversion X]. }
  destruct (gang_rest _ _ _ _ El) as [E Hlt]; set (found := gang_lookup _ _ _) in *; destruct (shrink_trees_ok fresh c found Hok) as (f1 & H1 & Hx).
  destruct (IH (l + 1) f1 _ (sh_inv _ _ _ _ H1)) as (f2 & H2 & Hl); [rewrite (sh_keys _ _ _ _ H1); lia|]; rewrite (sh_keys _ _ _ _ H1) in Hl.
  exists f2; split; [eapply shrunk_trans; eassumption|]; intros n k Hn Hk; rewrite E in Hk; apply elem_of_app in Hk; destruct Hk as [Hk|Hk]; [|apply Hl; assumption].
  intros X; apply (Hx n k (sh_fresh _ _ _ _ H2 n Hn) Hk), (sh_nodes _ _ _ _ H2), X.
Qed.

Lemma drop_tree_ok c ino : cache_ok c -> cache_ok (drop_tree c ino) /\ same_cached c (drop_tree c ino) /\ extent_list (drop_tree c ino) = extent_list c /\
  (forall i et, extent_tree_root (drop_tree c ino) !! i = Some et -> extent_tree_root c !! i = Some et /\ (i = ino -> ids et <> [])).
Proof.
  intros Hok; unfold drop_tree; destruct (extent_tree_root c !! ino) as [et|] eqn:E.
  2: { split; [exact Hok|split; [intros i p a; reflexivity|split; [reflexivity|]]]; intros i t Hi; split; [exact Hi|intros ->; congruence]. }
  pose proof (co_trees _ _ Hok ino et E) as T; rewrite (ti_refs _ _ _ _ T), (ti_count _ _ _ _ T); cbn [Z.eqb andb].
  destruct (Z.eqb_spec (Z.of_nat (length (ids et))) 0) as [H0|H0].
  - assert (Hnil : ids et = []) by (destruct (ids et); [reflexivity|cbn in H0; lia]).
    destruct (drop_empty [] c ino et Hok E Hnil) as (A & B & _); split; [exact A|split; [exact B|split; [reflexivity|]]].
    intros i t Hi; cbn in Hi; apply lookup_delete_Some in Hi; destruct Hi as [Hne Hi]; split; [exact Hi|intros ->; congruence].
  - split; [exact Hok|split; [intros i p a; reflexivity|split; [reflexivity|]]]; intros i t Hi; split; [exact Hi|intros ->; rewrite E in Hi; injection Hi as <-; intros X; rewrite X in H0; cbn in H0; lia].
Qed.

Lemma drop_trees_ok c l : cache_ok c -> let c' := foldl drop_tree c l in cache_ok c' /\ same_cached c c' /\ extent_list c' = extent_list c /\
  (forall i et, extent_tree_root c' !! i = Some et -> extent_tree_root c !! i = Some et /\ (i ∈ l -> ids et <> [])).
Proof.
  revert c; induction l as [|x l IH]; intros c Hok; cbn [foldl]; [split; [exact Hok|split; [intros i p a; reflexivity|split; [reflexivity|intros i et H; split; [exact H|intros X; inversion X]]]]|].
  destruct (drop_tree_ok c x Hok) as (A1 & A2 & A3 & A4); destruct (IH _ A1) as (B1 & B2 & B3 & B4); split; [exact B1|split; [intros i p a; rewrite (B2 i p a); apply A2|split; [congruence|]]].
  intros i et H; destruct (B4 i et H) as [H1 H2]; destruct (A4 i et H1) as [H3 H4]; split; [exact H3|]; intros Hi; apply elem_of_cons in Hi; destruct Hi as [->|Hi]; auto.
Qed.

(** Shrinking frees the [nr_shrink] nodes at the head of the list and the trees without
    nodes. *)
Lemma shrink_ok opt root_ino nr memory c : cache_ok c -> (forall i, nodes_of c i <> [] -> root_ino <= i) ->
  let c' := f2fs_shrink_extent_tree rb_erase opt root_ino nr memory c in
  cache_ok c' /\ fewer_cached c c' /\
  (opt = true -> memory = false -> extent_list c' = drop nr (extent_list c) /\ (forall i et, root_ino <= i -> extent_tree_root c' !! i = Some et -> ids et <> [])).
Proof.
  intros Hok Hroot; unfold f2fs_shrink_extent_tree; destruct opt; cbn [negb]; [|split; [exact Hok|split; [intros i p a H; exact H|discriminate]]].
  destruct memory; [split; [exact Hok|split; [intros i p a H; exact H|discriminate]]|].
  pose proof (co_list _ _ Hok) as [Hnd HL]; set (c1 := with_ext_list (drop nr (extent_list c)) c).
  assert (Hok1 : cache_inv (take nr (extent_list c)) c1).
  { pose proof (take_drop nr (extent_list c)) as Etd; pose proof Hnd as Hnd'; rewrite <- Etd in Hnd'; apply NoDup_app in Hnd'; destruct Hnd' as (N1 & N2 & N3).
    destruct Hok as [C1 C2 C3 C4 Cf C5 C6 C7 C8]; constructor; cbn; auto; split; [exact N3|].
    intros n; rewrite HL, elem_of_nil, <- Etd at 1; rewrite elem_of_app; tauto. }
  destruct (shrink_loop_ok (S (size (extent_tree_root c1))) root_ino _ c1 Hok1) as (f2 & H2 & Hn2).
  { rewrite <- sorted_keys_size; unfold lt; apply le_n_S; apply length_filter. }
  set (c2 := shrink_loop rb_erase _ root_ino c1) in *; pose proof (sh_inv _ _ _ _ H2) as Hok2.
  assert (Hf2 : f2 = []).
  { destruct f2 as [|n f2]; [reflexivity|exfalso]; assert (Hs : is_Some (ec_nodes c2 !! n)) by (apply (co_list _ _ Hok2); right; left).
    apply (co_all _ _ Hok2) in Hs; destruct Hs as (i & et & Hi & Hin); assert (Hnode : n ∈ nodes_of c2 i) by (unfold nodes_of; rewrite Hi; exact Hin).
    apply (Hn2 n i); [left| |exact Hnode]; apply list_elem_of_filter.
    assert (Hk : i ∈ sorted_keys (extent_tree_root c1)) by (rewrite <- (sh_keys _ _ _ _ H2); apply sorted_keys_elem; eauto).
    split; [|exact Hk]; apply Hroot; apply (sh_nodes _ _ _ _ H2) in Hnode; change (nodes_of c1 i) with (nodes_of c i) in Hnode; intros X; rewrite X in Hnode; inversion Hnode. }
  subst f2; destruct (drop_trees_ok c2 (filter (fun i => root_ino <= i) (sorted_keys (extent_tree_root c2))) Hok2) as (A & B & C & D).
  split; [exact A|split; [intros i p a X; apply B in X; apply (sh_fewer _ _ _ _ H2) in X; exact X|]]; intros _ _.
  split; [rewrite C, (sh_list _ _ _ _ H2); reflexivity|]; intros i et Hr Hi; destruct (D i et Hi) as [Hi2 Hne]; apply Hne, list_elem_of_filter.
  split; [exact Hr|apply sorted_keys_elem; eauto].
Qed.
End Ops.
