(* ===== verification/ExtentSpec.v ===== *)
(** What the extent caches promise and where they break it (src/Max/data.c): memory
    safety along every sequence of operations, lookups that return what is cached, and
    agreement with the file's block map, which the split of an extent in the tree does
    not keep. *)

From Stdlib Require Import ZArith Lia Bool.
From stdpp Require Import base numbers list gmap sorting.
From S2P Require Import Prelude Keys Layout NodePath Extent ExtentTree ExtentInv ExtentCache ExtentUpdate ExtentOps.

#[local] Open Scope Z_scope.
#[local] Ltac Zify.zify_post_hook ::= Z.to_euclidean_division_equations.

(** * Writing an extent back to the inode *)

Lemma extent_same_eq e1 e2 : __is_extent_same e1 e2 = true -> e1 = e2.
Proof.
  unfold __is_extent_same; rewrite !andb_true_iff, !Z.eqb_eq; destruct e1, e2; cbn; intros [[-> ->] ->]; reflexivity.
Qed.

Lemma preserve_ok ino fi c : cache_ok c ->
  let '(_, fi', c') := f2fs_preserve_extent_tree true ino fi c in
  cache_ok c' /\ same_cached c c' /\ (ei_len (fi_ext fi') = 0 \/ exists i, i ∈ nodes_of c ino /\ fi_ext fi' = ei_of c i).
Proof.
  intros Hok; unfold f2fs_preserve_extent_tree; cbn [negb]; destruct (__find_extent_tree ino c) as [et|] eqn:Ef.
  2: { destruct (Z.eqb_spec (ei_len (fi_ext fi)) 0) as [H|H]; cbn; (split; [exact Hok|split; [intros i p a; reflexivity|auto]]). }
  pose proof (grab_tree_ok [] c ino Hok) as HG; rewrite (find_grab c ino et Ef) in HG; destruct HG as (W & Eids & _ & _ & _).
  pose proof (wk_tree _ _ _ _ _ W) as T; pose proof (put_ok [] ino et c W) as Hok'; pose proof (put_same c et c ino (ti_ino _ _ _ _ T) Eids eq_refl eq_refl) as Hs.
  rewrite (ti_count _ _ _ _ T); destruct (Z.eqb_spec (Z.of_nat (length (ids et))) 0) as [H0|H0]; cbn [negb].
  { destruct (Z.eqb_spec (ei_len (fi_ext fi)) 0) as [H|H]; cbn; auto. }
  set (en := match cached_en et with Some en => Some en | None => _ end).
  assert (Hen : exists n, en = Some n /\ n ∈ ids et).
  { unfold en; destruct (cached_en et) as [n|] eqn:Ec; [exists n; split; [reflexivity|apply (ti_cached _ _ _ _ T), Ec]|].
    unfold rb_first; destruct (ids et) as [|x r]; [cbn in H0; lia|exists x; split; [reflexivity|left]]. }
  destruct Hen as (n & -> & Hn); rewrite Eids in Hn; destruct (__is_extent_same (fi_ext fi) (ei_of c n)) eqn:E; (split; [exact Hok'|split; [exact Hs|right; exists n; split; [exact Hn|]]]); [apply extent_same_eq, E|reflexivity].
Qed.

(** * Addresses stay distinct *)

Lemma tree_distinct_new c c' ino e : (forall p a, cached c' ino p a -> cached c ino p a \/ (nodes_of c ino = [] /\ covers e p /\ a = maps e p)) -> distinct c ino -> distinct c' ino.
Proof.
  intros H Hd p q a Hp Hq; apply H in Hp, Hq; destruct Hp as [Hp|(Hnil & Hp & Ep)], Hq as [Hq|(Hnil' & Hq & Eq)]; [eapply Hd; eassumption|..].
  - destruct Hp as (i & Hi & _); rewrite Hnil' in Hi; inversion Hi.
  - destruct Hq as (i & Hi & _); rewrite Hnil in Hi; inversion Hi.
  - unfold maps in *; lia.
Qed.

Lemma distinct_fewer c c' ino : fewer_cached c c' -> distinct c ino -> distinct c' ino.
Proof. intros H Hd p q a Hp Hq; eapply Hd; apply H; eassumption. Qed.

(** A page that is still cached has its own address or, in a right part, the address of
    the page in front. *)
Lemma kept_origin c ino fofs p a : cache_ok c -> kept c ino fofs p a ->
  exists q, cached c ino q a /\ (q = p \/ (q = p - 1 /\ fofs <= q)) /\ p <> fofs /\ (q = p -> q < fofs \/ ~ (exists i, i ∈ nodes_of c ino /\ covers (ei_of c i) fofs /\ covers (ei_of c i) q)).
Proof.
  intros Hok (i & Hi & Hc & [[Hn ->]|[(Hf & Hlt & _ & ->)|(Hf & Hlt & _ & ->)]]).
  - exists p; split; [exists i; auto|split; [auto|split; [intros ->; contradiction|]]]; intros _; right; intros (j & Hj & Hjf & Hjp).
    assert (j = i) by (apply (cover_unique _ _ j i p (tree_of c ino Hok)); assumption); subst; contradiction.
  - exists p; split; [exists i; auto|split; [auto|split; [lia|auto]]].
  - exists (p - 1); split; [exists i; split; [exact Hi|]; unfold covers, maps, ei_of in *; lia|split; [right; lia|split; [lia|lia]]].
Qed.

Lemma kept_distinct c ino fofs p q a : cache_ok c -> distinct c ino -> kept c ino fofs p a -> kept c ino fofs q a -> p = q.
Proof.
  intros Hok Hd Hp Hq; destruct Hp as (i & Hi & Hci & Hpi), Hq as (j & Hj & Hcj & Hqj).
  assert (Hone : forall x y, cached c ino x a -> cached c ino y a -> x = y) by (intros x y; apply Hd).
  assert (Hu : forall x, covers (ei_of c i) x -> covers (ei_of c j) x -> i = j) by (intros x; apply (cover_unique _ _ i j x (tree_of c ino Hok)); assumption).
  assert (Hat : forall k x, k ∈ nodes_of c ino -> covers (ei_of c k) x -> a = maps (ei_of c k) x -> cached c ino x a) by (intros k x Hk Hx E; exists k; auto).
  destruct Hpi as [[Hn ->]|[(Hf & Hlt & _ & ->)|(Hf & Hlt & _ & ->)]], Hqj as [[Hn' E]|[(Hf' & Hlt' & _ & E)|(Hf' & Hlt' & _ & E)]].
  - apply Hone; [apply (Hat i); auto|apply (Hat j); auto].
  - apply Hone; [apply (Hat i); auto|apply (Hat j); auto].
  - assert (p = q - 1) by (apply Hone; [apply (Hat i); auto|apply (Hat j); auto; unfold covers, maps in *; lia]).
    assert (i = j) by (apply (Hu p); [exact Hci|unfold covers in *; lia]); subst j; contradiction.
  - apply Hone; [apply (Hat i); auto|apply (Hat j); auto].
  - apply Hone; [apply (Hat i); auto|apply (Hat j); auto].
  - assert (i = j) by (apply (Hu fofs); assumption); subst j; unfold maps in *; lia.
  - assert (q = p - 1) by (apply Hone; [apply (Hat j); auto|apply (Hat i); auto; unfold covers, maps in *; lia]).
    assert (i = j) by (apply (Hu q); [unfold covers in *; lia|exact Hcj]); subst j; contradiction.
  - assert (i = j) by (apply (Hu fofs); assumption); subst j; unfold maps in *; lia.
  - assert (i = j) by (apply (Hu fofs); assumption); subst j; unfold maps in *; lia.
Qed.

(** A new address must not be cached yet. *)
Definition unused (c : ext_cache) (ino blkaddr : Z) : Prop := forall p, ~ cached c ino p blkaddr.

Lemma kept_address c ino fofs p a : cache_ok c -> kept c ino fofs p a -> exists q, cached c ino q a.
Proof. intros Hok H; destruct (kept_origin c ino fofs p a Hok H) as (q & Hq & _); eauto. Qed.

Lemma update_distinct alloc_ok c c' ino fofs blkaddr : cache_ok c -> (forall i, distinct c i) -> unused c ino blkaddr ->
  updated (alloc_ok := alloc_ok) ino fofs blkaddr c c' -> forall i, distinct c' i.
Proof.
  intros Hok Hd Hu [U1 U2 U3 _] i; destruct (Z.eq_dec i ino) as [->|Hne].
  - intros p q a Hp Hq; apply U3 in Hp, Hq; destruct Hp as [(-> & -> & _)|Hp], Hq as [(-> & E & _)|Hq]; [reflexivity|..].
    + destruct (kept_address _ _ _ _ _ Hok Hq) as [x Hx]; destruct (Hu x Hx).
    + subst a; destruct (kept_address _ _ _ _ _ Hok Hp) as [x Hx]; destruct (Hu x Hx).
    + apply (kept_distinct c ino fofs p q a Hok (Hd ino)); assumption.
  - intros p q a Hp Hq; apply (U2 i Hne) in Hp, Hq; eapply Hd; eassumption.
Qed.

(** * Sequences of operations *)

Lemma nonempty_cached c ino : cache_ok c -> nodes_of c ino <> [] <-> exists p a, cached c ino p a.
Proof.
  intros Hok; split.
  - intros Hn; destruct (nodes_of c ino) as [|i r] eqn:E; [congruence|]; assert (Hi : i ∈ nodes_of c ino) by (rewrite E; left).
    destruct (good_node_ei _ _ (to_good _ _ (tree_of c ino Hok) i Hi)) as [Hp _]; exists (ei_fofs (ei_of c i)), (maps (ei_of c i) (ei_fofs (ei_of c i))), i; split; [exact Hi|split; [|reflexivity]].
    unfold covers, ei_of; lia.
  - intros (p & a & i & Hi & _) E; rewrite E in Hi; inversion Hi.
Qed.

Record ext_ok (root_ino : Z) (c : ext_cache) : Prop := {
  eo_ok : cache_ok c;
  eo_distinct : forall ino, distinct c ino;
  eo_root : forall ino, nodes_of c ino <> [] -> root_ino <= ino;
}.

Lemma ext_ok_fewer root_ino c c' : ext_ok root_ino c -> cache_ok c' -> fewer_cached c c' -> ext_ok root_ino c'.
Proof.
  intros [H1 H2 H3] Hok Hf; constructor; [exact Hok|intros ino; eapply distinct_fewer; eauto|].
  intros ino Hn; apply nonempty_cached in Hn; [|exact Hok]; destruct Hn as (p & a & H); apply H3, nonempty_cached; [exact H1|exists p, a; apply Hf, H].
Qed.

Lemma same_fewer c c' : same_cached c c' -> fewer_cached c c'.
Proof. intros H i p a; apply H. Qed.

Section Steps.

Context (rb_insert_color rb_erase : Z -> rb -> rb) (alloc_ok : Z -> bool) {kernel : KernelTrees rb_insert_color rb_erase}.

Abbreviation init := (f2fs_init_extent_tree rb_insert_color rb_erase alloc_ok).
Abbreviation update := (f2fs_update_extent_tree rb_insert_color rb_erase alloc_ok).

(** The operations, on inodes from [root_ino] on.  An inode brings an extent of its disk
    block; a new block's address is not cached for another page of the file. *)
Inductive ext_step (root_ino : Z) (c : ext_cache) : ext_cache -> Prop :=
| es_init ino i_ext : root_ino <= ino -> (F2FS_MIN_EXTENT_LEN <= ei_len i_ext -> good_ei i_ext) -> ext_step root_ino c (init ino i_ext c)
| es_lookup ino pgofs : 0 <= pgofs < 2 ^ 32 -> ext_step root_ino c (snd (f2fs_lookup_extent_tree ino pgofs c))
| es_update ino fofs blkaddr : root_ino <= ino -> page_in_range fofs blkaddr -> unused c ino blkaddr -> ext_step root_ino c (update ino fofs blkaddr c)
| es_preserve ino fi : ext_step root_ino c (snd (f2fs_preserve_extent_tree true ino fi c))
| es_shrink nr memory : ext_step root_ino c (f2fs_shrink_extent_tree rb_erase true root_ino nr memory c)
| es_destroy ino : ext_step root_ino c (f2fs_destroy_extent_tree rb_erase true ino c).

Inductive ext_reach (root_ino : Z) : ext_cache -> Prop :=
| er_start : ext_reach root_ino init_extent_cache_info
| er_step c c' : ext_reach root_ino c -> ext_step root_ino c c' -> ext_reach root_ino c'.

Lemma ext_step_ok root_ino c c' : ext_ok root_ino c -> ext_step root_ino c c' -> ext_ok root_ino c'.
Proof.
  intros H Hs; pose proof H as [H1 H2 H3]; destruct Hs as [ino e Hr He|ino p Hp|ino fofs b Hr Hpr Hu|ino fi|nr memory|ino].
  - destruct (init_ok rb_insert_color rb_erase alloc_ok c ino e H1 He) as (A & B & C); set (c' := init ino e c) in *; constructor; [exact A| |].
    + intros i; destruct (Z.eq_dec i ino) as [->|Hne]; [eapply tree_distinct_new; [exact C|apply H2]|]; intros p q a Hp Hq; apply B in Hp, Hq; [eapply H2; eassumption|assumption..].
    + intros i Hn; destruct (Z.eq_dec i ino) as [->|Hne]; [exact Hr|]; apply nonempty_cached in Hn; [|exact A]; destruct Hn as (p & a & Hn); apply H3, nonempty_cached; [exact H1|exists p, a; apply B in Hn; assumption].
  - pose proof (lookup_ok c ino p H1 Hp) as HL; destruct (f2fs_lookup_extent_tree ino p c) as [r c']; destruct HL as (A & B & _); apply (ext_ok_fewer root_ino c); [exact H|exact A|apply same_fewer, B].
  - pose proof (update_tree_ok (alloc_ok := alloc_ok) (kernel := kernel) ino fofs b c H1 (H2 ino) Hpr) as HU; constructor; [apply HU|eapply update_distinct; eassumption|].
    intros i Hn; destruct (Z.eq_dec i ino) as [->|Hne]; [exact Hr|]; apply H3; destruct (up_other _ _ _ _ _ HU i Hne) as [E _]; rewrite <- E; exact Hn.
  - pose proof (preserve_ok ino fi c H1) as HP; destruct (f2fs_preserve_extent_tree true ino fi c) as [[s f] c']; destruct HP as (A & B & _); apply (ext_ok_fewer root_ino c); [exact H|exact A|apply same_fewer, B].
  - destruct (shrink_ok rb_insert_color rb_erase alloc_ok true root_ino nr memory c H1 H3) as (A & B & _); apply (ext_ok_fewer root_ino c); assumption.
  - destruct (destroy_ok rb_insert_color rb_erase alloc_ok true c ino H1) as (A & B & _); apply (ext_ok_fewer root_ino c); assumption.
Qed.

Lemma start_ok root_ino : ext_ok root_ino init_extent_cache_info.
Proof.
  assert (Hn : forall i, nodes_of init_extent_cache_info i = []) by reflexivity.
  constructor; [|intros ino p q a (i & Hi & _); inversion Hi|intros ino X; congruence].
  constructor; cbn; auto.
  - intros i et X; rewrite lookup_empty in X; discriminate.
  - intros i j et et' n _ X; rewrite lookup_empty in X; discriminate.
  - intros n; rewrite lookup_empty; split; [intros [? ?]; discriminate|intros (i & et & X & _); rewrite lookup_empty in X; discriminate].
  - intros n; rewrite lookup_empty; intros [? ?]; discriminate.
  - split; [constructor|intros n X; inversion X].
  - split; [constructor|]; intros n; rewrite lookup_empty; split; [intros [? ?]; discriminate|intros [X|X]; inversion X].
Qed.

Lemma reach_ok root_ino c : ext_reach root_ino c -> ext_ok root_ino c.
Proof. intros H; induction H; [apply start_ok|eapply ext_step_ok; eassumption]. Qed.
End Steps.

(** * The properties *)


(** C22: a lookup of the extent tree returns an extent exactly when the page is cached, and
    the address the reader computes from it is the cached one; it finds the same extent
    whatever the shape of the tree and the cached node. *)
Theorem extent_lookup_exact rb_insert_color rb_erase alloc_ok root_ino c ino pgofs a :
  KernelTrees rb_insert_color rb_erase -> ext_reach rb_insert_color rb_erase alloc_ok root_ino c -> 0 <= pgofs < 2 ^ 32 ->
  (exists ei, fst (f2fs_lookup_extent_tree ino pgofs c) = Some ei /\ cached_blkaddr ei pgofs = a) <-> cached c ino pgofs a.
Proof.
  intros kernel Hr Hp; pose proof (eo_ok _ _ (reach_ok rb_insert_color rb_erase alloc_ok root_ino c Hr)) as Hok; pose proof (lookup_ok c ino pgofs Hok Hp) as HL.
  destruct (f2fs_lookup_extent_tree ino pgofs c) as [[e|] c']; cbn [fst]; destruct HL as (_ & _ & HL).
  - destruct HL as ([H0 Hw] & Hc & Hcached); split.
    + intros (ei & E & <-); injection E as <-; rewrite cached_blkaddr_maps by assumption; exact Hcached.
    + intros (i & Hi & Hci & ->); exists e; split; [reflexivity|]; rewrite cached_blkaddr_maps by assumption.
      destruct Hcached as (j & Hj & Hcj & ->); rewrite (cover_unique _ _ i j pgofs (tree_of c ino Hok) Hi Hj Hci Hcj); reflexivity.
  - split; [intros (ei & E & _); discriminate|intros H; destruct (HL a H)].
Qed.

(** The cache agrees with the block map of the file. *)
Definition agrees (c : ext_cache) (ino : Z) (m : Z -> Z) : Prop := forall p a, cached c ino p a -> a = m p.

(** C20: [f2fs_update_extent_tree] keeps the cache in agreement with the file's block map
    exactly when the extent that held the page has fewer than 64 pages behind it.
    Otherwise the right part of the split extent is cached with the address of the page
    in front of each of its pages: every page [p] behind the updated one is then looked
    up with address [m p - 1]. *)
Theorem extent_update_agrees_iff rb_insert_color rb_erase alloc_ok root_ino c ino fofs blkaddr m :
  KernelTrees rb_insert_color rb_erase -> ext_reach rb_insert_color rb_erase alloc_ok root_ino c -> (forall k, alloc_ok k = true) ->
  page_in_range fofs blkaddr -> unused c ino blkaddr -> agrees c ino m ->
  let c' := f2fs_update_extent_tree rb_insert_color rb_erase alloc_ok ino fofs blkaddr c in
  (agrees c' ino (set_page m fofs blkaddr) <-> forall i, i ∈ nodes_of c ino -> covers (ei_of c i) fofs -> ~ keeps_right fofs (ei_of c i)) /\
  (forall i p, i ∈ nodes_of c ino -> covers (ei_of c i) fofs -> keeps_right fofs (ei_of c i) -> fofs < p < ei_fofs (ei_of c i) + ei_len (ei_of c i) ->
     cached c' ino p (m p - 1)).
Proof.
  intros kernel Hr Hal Hpr Hu Ha c'; destruct (reach_ok rb_insert_color rb_erase alloc_ok root_ino c Hr) as [Hok Hd _].
  pose proof (update_tree_ok (alloc_ok := alloc_ok) (kernel := kernel) ino fofs blkaddr c Hok (Hd ino) Hpr) as [_ _ U3 U4]; fold c' in U3, U4.
  assert (Hwrong : forall i p, i ∈ nodes_of c ino -> covers (ei_of c i) fofs -> keeps_right fofs (ei_of c i) -> fofs < p < ei_fofs (ei_of c i) + ei_len (ei_of c i) -> cached c' ino p (m p - 1)).
  { intros i p Hi Hc Hk Hp; apply U4; [exact Hal|]; right; assert (Hcp : covers (ei_of c i) p) by (unfold covers in *; lia).
    exists i; split; [exact Hi|split; [exact Hcp|right; right]]; split; [exact Hc|split; [lia|split; [exact Hk|]]]; f_equal; symmetry; apply Ha; exists i; auto. }
  split; [split|exact Hwrong].
  - intros Hag i Hi Hc Hk; unfold keeps_right, F2FS_MIN_EXTENT_LEN in Hk; pose proof (Hwrong i (fofs + 1) Hi Hc Hk ltac:(unfold covers in Hc; lia)) as Hw.
    apply Hag in Hw; rewrite set_page_other in Hw by lia; lia.
  - intros Hno p a Hc; apply U3 in Hc; destruct Hc as [(-> & -> & _)|(i & Hi & Hc & [[Hn ->]|[(Hf & Hlt & _ & ->)|(Hf & _ & Hk & _)]])].
    + rewrite set_page_same; reflexivity.
    + rewrite set_page_other by (intros ->; contradiction); apply Ha; exists i; auto.
    + rewrite set_page_other by lia; apply Ha; exists i; auto.
    + destruct (Hno i Hi Hf Hk).
Qed.

(** ** The cache of one extent *)

(** A file's updates without the option EXTENT_CACHE: the dnode's offset, the offset of
    the address in it, and the new address. *)
Definition update_one (inline_xattr : bool) (ino : Z) (s : ext_inode * (Z -> Z)) (op : Z * Z * Z) : ext_inode * (Z -> Z) :=
  let '(fi, m) := s in let '(node_ofs, ofs, blkaddr) := op in
  let '(_, fi', _) := f2fs_update_extent_cache (fun _ t => t) (fun _ t => t) (fun _ => true) false ino node_ofs ofs blkaddr inline_xattr fi init_extent_cache_info in
  (fi', set_page m (start_bidx_of_node node_ofs inline_xattr + ofs) blkaddr).

Definition op_in_range (inline_xattr : bool) (op : Z * Z * Z) : Prop :=
  let '(node_ofs, ofs, blkaddr) := op in page_in_range (start_bidx_of_node node_ofs inline_xattr + ofs) blkaddr.

Lemma update_one_ok inline_xattr ino fi m op : op_in_range inline_xattr op -> fi_no_extent fi = true \/ fi_ok m fi ->
  let '(fi', m') := update_one inline_xattr ino (fi, m) op in fi_no_extent fi' = true \/ fi_ok m' fi'.
Proof.
  destruct op as [[node_ofs ofs] b]; cbn [op_in_range]; intros Hr Hf; unfold update_one, f2fs_update_extent_cache.
  destruct (fi_no_extent fi) eqn:E; [auto|]; destruct Hf as [Hf|Hf]; [discriminate|].
  pose proof (update_info_ok m fi _ b Hf Hr) as H; destruct (update_extent_info fi _ b) as [s fi']; auto.
Qed.

(** C23: without the option EXTENT_CACHE the extent cached in the inode agrees with the
    file's block map: starting from the extent of the inode block, after every sequence
    of updates a lookup that succeeds gives the page's current address. *)
Theorem extent_info_sound inline_xattr ino i_ext fi m ops pgofs ei c :
  0 <= ei_len i_ext -> (0 < ei_len i_ext -> ei_wf i_ext /\ coherent m i_ext) -> Forall (op_in_range inline_xattr) ops ->
  let fi0 := fst (f2fs_init_extent_cache (fun _ t => t) (fun _ t => t) (fun _ => true) false ino i_ext fi c) in
  let s := foldl (update_one inline_xattr ino) (fi0, m) ops in
  fst (f2fs_lookup_extent_cache false ino pgofs (fst s) c) = Some ei -> cached_blkaddr ei pgofs = snd s pgofs.
Proof.
  intros Hl Hw Hops fi0.
  assert (H0 : fi_no_extent fi0 = true \/ fi_ok m fi0) by (right; split; assumption); clear Hw; revert H0; clearbody fi0; revert fi0 m; induction Hops as [|op ops Hop _ IH]; intros fi0 m H0; cbn [foldl]; cbv zeta; [cbn [fst snd]|].
  - unfold f2fs_lookup_extent_cache; destruct H0 as [->|H0]; [discriminate|]; destruct (fi_no_extent fi0); cbn [fst]; [discriminate|].
    intros H; destruct (lookup_info_covers m fi0 pgofs ei H0 H) as (-> & Hwf & Hc); rewrite cached_blkaddr_maps by assumption; symmetry; apply H0; [unfold covers in Hc; lia|exact Hc].
  - pose proof (update_one_ok inline_xattr ino fi0 m op Hop H0) as H1; destruct (update_one inline_xattr ino (fi0, m) op) as [fi1 m1]; apply IH, H1.
Qed.

(** * Instances *)

(** Search trees that are not balanced. *)
Fixpoint rb_join (l r : rb) : rb := match l with RB_NULL => r | rb_node a x b => rb_node a x (rb_join b r) end.

Fixpoint rb_remove (n : Z) (t : rb) : rb :=
  match t with
  | RB_NULL => RB_NULL
  | rb_node l x r => if x =? n then rb_join (rb_remove n l) (rb_remove n r) else rb_node (rb_remove n l) x (rb_remove n r)
  end.

Lemma rb_join_inorder l r : inorder (rb_join l r) = inorder l ++ inorder r.
Proof. induction l as [|a _ x b IH]; [reflexivity|]; cbn; rewrite IH, <- app_assoc; reflexivity. Qed.

#[global] Instance plain_trees : KernelTrees (fun _ t => t) rb_remove.
Proof.
  constructor; [reflexivity|]; intros n t _; induction t as [|l IHl x r IHr]; [reflexivity|]; cbn [rb_remove inorder]; rewrite filter_app, filter_cons.
  destruct (Z.eqb_spec x n) as [->|Hne]; [rewrite rb_join_inorder, IHl, IHr, decide_False by tauto; reflexivity|cbn [inorder]; rewrite IHl, IHr, decide_True by exact Hne; reflexivity].
Qed.

(** Inode 5 has 200 pages at blocks 1000 to 1199. *)
Definition ex_extent : extent_info := mk_ei 0 1000 200.
Definition ex_map (p : Z) : Z := if (0 <=? p) && (p <? 200) then 1000 + p else 0.
Definition ex_cache : ext_cache := f2fs_init_extent_tree (fun _ t => t) rb_remove (fun _ => true) 5 ex_extent init_extent_cache_info.
(** Page 50 is written to block 5000. *)
Definition ex_updated : ext_cache := f2fs_update_extent_tree (fun _ t => t) rb_remove (fun _ => true) 5 50 5000 ex_cache.

Lemma ex_cache_reach : ext_reach (fun _ t => t) rb_remove (fun _ => true) 3 ex_cache.
Proof.
  apply (er_step _ _ _ _ init_extent_cache_info); [apply er_start|apply es_init; [lia|intros _; split; [cbn; lia|constructor; cbn; lia]]].
Qed.

Lemma ex_nodes i : i ∈ nodes_of ex_cache 5 -> i = 0.
Proof. assert (E : nodes_of ex_cache 5 = [0]) by (vm_compute; reflexivity); rewrite E; apply list_elem_of_singleton. Qed.

Lemma ex_cached p a : cached ex_cache 5 p a -> 0 <= p < 200 /\ a = 1000 + p.
Proof.
  intros (i & Hi & Hc & ->); apply ex_nodes in Hi; subst i.
  assert (E : node_ei (ec_nodes ex_cache) 0 = ex_extent) by (vm_compute; reflexivity); rewrite E in *; unfold covers, maps, ex_extent in *; cbn in *; lia.
Qed.

Lemma ex_updated_reach : ext_reach (fun _ t => t) rb_remove (fun _ => true) 3 ex_updated.
Proof.
  apply (er_step _ _ _ _ ex_cache); [exact ex_cache_reach|apply es_update; [lia|unfold page_in_range; lia|]].
  intros p H; apply ex_cached in H; lia.
Qed.


Lemma extent_lookup_exact_witness :
  (exists ei, fst (f2fs_lookup_extent_tree 5 100 ex_updated) = Some ei /\ cached_blkaddr ei 100 = 1099) /\ cached ex_updated 5 100 1099.
Proof.
  assert (H : exists ei, fst (f2fs_lookup_extent_tree 5 100 ex_updated) = Some ei /\ cached_blkaddr ei 100 = 1099) by (exists (mk_ei 51 1050 149); split; vm_compute; reflexivity).
  split; [exact H|]; apply (extent_lookup_exact (fun _ t => t) rb_remove (fun _ => true) 3 ex_updated 5 100 1099 plain_trees ex_updated_reach); [lia|exact H].
Defined.

(** Page 100 is at block 1100 and is looked up at block 1099. *)
Lemma extent_update_agrees_iff_witness : agrees ex_cache 5 ex_map /\ ex_map 100 = 1100 /\ cached ex_updated 5 100 1099 /\ ~ agrees ex_updated 5 (set_page ex_map 50 5000).
Proof.
  assert (Ha : agrees ex_cache 5 ex_map).
  { intros p a H; apply ex_cached in H; destruct H as [Hp ->]; unfold ex_map; rewrite (proj2 (Z.leb_le 0 p)), (proj2 (Z.ltb_lt p 200)) by lia; reflexivity. }
  assert (E : ei_of ex_cache 0 = ex_extent) by (vm_compute; reflexivity); assert (H0 : 0 ∈ nodes_of ex_cache 5) by (vm_compute; left).
  destruct (extent_update_agrees_iff (fun _ t => t) rb_remove (fun _ => true) 3 ex_cache 5 50 5000 ex_map plain_trees ex_cache_reach) as [Hiff Hw].
  - reflexivity.
  - unfold page_in_range; lia.
  - intros p H; apply ex_cached in H; lia.
  - exact Ha.
  - split; [exact Ha|split; [reflexivity|split]].
    + apply (Hw 0 100 H0); rewrite E; unfold covers, keeps_right, F2FS_MIN_EXTENT_LEN, ex_extent; cbn; lia.
    + intros Hag; apply (proj1 Hiff Hag 0 H0); rewrite E; unfold covers, keeps_right, F2FS_MIN_EXTENT_LEN, ex_extent; cbn; lia.
Defined.

(** The same update with the cache of one extent, followed by a lookup of page 100. *)
Lemma extent_info_sound_witness :
  let s := foldl (update_one false 5) (mk_ext_inode ex_extent false, ex_map) [(0, 50, 5000)] in
  fst (f2fs_lookup_extent_cache false 5 100 (fst s) init_extent_cache_info) = Some (mk_ei 51 1051 149) /\ cached_blkaddr (mk_ei 51 1051 149) 100 = snd s 100.
Proof.
  assert (Hw : 0 < ei_len ex_extent -> ei_wf ex_extent /\ coherent ex_map ex_extent).
  { intros _; split; [constructor; cbn; lia|]; intros p Hp; unfold covers in Hp; cbn in Hp; unfold ex_map, maps; rewrite (proj2 (Z.leb_le 0 p)), (proj2 (Z.ltb_lt p 200)) by lia; unfold ex_extent; cbn [ei_blk ei_fofs andb]; lia. }
  assert (Hr : Forall (op_in_range false) [(0, 50, 5000)]) by (apply Forall_singleton; vm_compute; split; [split; [discriminate|reflexivity]|right; split; reflexivity]).
  intros s; assert (Hs : fst (f2fs_lookup_extent_cache false 5 100 (fst s) init_extent_cache_info) = Some (mk_ei 51 1051 149)) by (vm_compute; reflexivity).
  split; [exact Hs|exact (extent_info_sound false 5 ex_extent (mk_ext_inode ex_extent false) ex_map _ 100 _ init_extent_cache_info ltac:(cbn; lia) Hw Hr Hs)].
Defined.
