(* ===== verification/Hash.v ===== *)
(** The hash of a file name (src/Max/hash.c; is_dot_dotdot in src/Max/f2fs.h), which
    chooses the bucket of a directory entry. *)

From Stdlib Require Import ZArith Lia Bool.
From stdpp Require Import base numbers list.
From S2P Require Import Prelude.

#[local] Open Scope Z_scope.
#[local] Ltac Zify.zify_post_hook ::= Z.to_euclidean_division_equations.

(** * Definitions

    A name ([struct qstr]) is the list of its bytes. *)

Definition DOT : Z := 46.

Definition is_dot_dotdot (str : list Z) : bool :=
  if (zlen str =? 1) && (str.[0] =? DOT) then true
  else if (zlen str =? 2) && (str.[0] =? DOT) && (str.[1] =? DOT) then true
  else false.

(** One round of the loop of [TEA_transform]. *)
Definition tea_round (a b c d : Z) (st : Z * Z * Z) : Z * Z * Z :=
  let '(sum, b0, b1) := st in
  let sum := u32 (sum + 0x9E3779B9) in
  let b0 := u32 (b0 + Z.lxor (Z.lxor (u32 (u32 (Z.shiftl b1 4) + a)) (u32 (b1 + sum)))
                        (u32 (Z.shiftr b1 5 + b))) in
  let b1 := u32 (b1 + Z.lxor (Z.lxor (u32 (u32 (Z.shiftl b0 4) + c)) (u32 (b0 + sum)))
                        (u32 (Z.shiftr b0 5 + d))) in
  (sum, b0, b1).

Definition TEA_transform (buf inw : list Z) : list Z :=
  let '(_, b0, b1) :=
    for_range 0 16 (fun _ => tea_round (inw.[0]) (inw.[1]) (inw.[2]) (inw.[3]))
      (0, buf.[0], buf.[1]) in
  let buf := buf.[0 <- u32 (buf.[0] + b0)] in
  buf.[1 <- u32 (buf.[1] + b1)].

(** The bytes go into words of four; a short last word and the words left over are
    filled with the length.  [out] is what has been written through [buf]. *)
Definition str2hashbuf (msg : list Z) (len num : Z) : list Z :=
  let pad := Z.lor (u32 len) (u32 (Z.shiftl (u32 len) 8)) in
  let pad := Z.lor pad (u32 (Z.shiftl pad 16)) in
  let len := if num * 4 <? len then num * 4 else len in
  let '(val, out, num) :=
    for_range 0 len (fun i '(val, out, num) =>
      let val := if i mod 4 =? 0 then pad else val in
      let val := u32 (msg.[i] + u32 (Z.shiftl val 8)) in
      if i mod 4 =? 3 then (pad, out ++ [val], num - 1) else (val, out, num))
      (pad, [], num) in
  let num := num - 1 in
  let out := if 0 <=? num then out ++ [val] else out in
  out ++ replicate (Z.to_nat num) pad.

(** The loop over chunks of sixteen bytes. *)
Fixpoint hash_loop (fuel : nat) (p : list Z) (len : Z) (buf : list Z) : list Z :=
  match fuel with
  | O => buf
  | S fuel =>
      let buf := TEA_transform buf (str2hashbuf p len 4) in
      if len <=? 16 then buf else hash_loop fuel (drop 16 p) (len - 16) buf
  end.

Definition f2fs_dentry_hash (name : list Z) : Z :=
  if is_dot_dotdot name then 0
  else
    let buf := [0x67452301; 0xefcdab89; 0x98badcfe; 0x10325476] in
    let buf := hash_loop (S (length name)) name (zlen name) buf in
    u32 (Z.land (buf.[0]) (Z.lnot (Z.shiftl 1 63))).

(** * Properties *)

Lemma dentry_hash_range name : 0 <= f2fs_dentry_hash name < 2 ^ 32.
Proof. unfold f2fs_dentry_hash; destruct (is_dot_dotdot name); [lia | apply u32_range]. Qed.

(** The fuel is enough: the loop ends after one round per sixteen bytes, at most one per
    byte. *)
Lemma hash_loop_fuel fuel k p len buf :
  len <= 16 * Z.of_nat fuel -> hash_loop (S fuel + k) p len buf = hash_loop (S fuel) p len buf.
Proof.
  revert p len buf; induction fuel as [|fuel IH]; intros p len buf H.
  - change (S 0 + k)%nat with (S k); cbn [hash_loop]; rewrite (proj2 (Z.leb_le len 16)) by lia; reflexivity.
  - change (S (S fuel) + k)%nat with (S (S fuel + k)%nat); cbn [hash_loop Nat.add]; destruct (len <=? 16) eqn:E; [reflexivity|].
    apply (IH (drop 16 p) (len - 16)); lia.
Qed.

(** [str2hashbuf] writes [num] words, no matter how long the name is: the buffer of its
    caller is neither overrun nor left unset. *)
Lemma str2hashbuf_length msg len num : 0 <= len -> 0 <= num -> zlen (str2hashbuf msg len num) = num.
Proof.
  intros Hl Hn; unfold str2hashbuf; cbv zeta; set (pad := Z.lor _ (u32 (Z.shiftl _ 16))).
  set (len' := if num * 4 <? len then num * 4 else len).
  assert (Hl' : 0 <= len' <= num * 4) by (unfold len'; case_ifs; lia).
  set (f := fun (i : Z) '(val, out, num) => _).
  pose proof (for_range_ind (fun i '((val, out, n) : Z * list Z * Z) => zlen out = i / 4 /\ n = num - i / 4)
                0 len' f (pad, [], num)) as H.
  destruct (for_range 0 len' f (pad, [], num)) as [[val out] n].
  destruct H as [Ho ->]; [lia | split; [reflexivity | cbn; lia] | | ].
  { intros i [[v o] m] Hi [Ho ->]; unfold f; destruct (i mod 4 =? 3) eqn:E; bool_cases; unfold zlen in *;
      rewrite ?length_app; cbn [length]; split; lia. }
  unfold zlen in *; rewrite length_app, length_replicate; case_ifs; rewrite ?length_app; cbn [length]; lia.
Qed.
