(* ===== verification/Dentry.v ===== *)
(** Directory entry blocks (src/Max/dir.c, src/Max/max_fs.h: struct f2fs_dir_entry and
    f2fs_dentry_block): the search for an entry, the search for room, adding and removing
    an entry and listing the entries, each related to the list of entries the block
    holds. *)

From Stdlib Require Import ZArith Lia Bool.
From stdpp Require Import base numbers list sorting.
From S2P Require Import Prelude Layout Hash.

#[local] Open Scope Z_scope.
#[local] Ltac Zify.zify_post_hook ::= Z.to_euclidean_division_equations.

(** * Definitions *)

Definition F2FS_SLOT_LEN : Z := 8.
Definition F2FS_SLOT_LEN_BITS : Z := 3.
Definition F2FS_NAME_LEN : Z := 255.
Definition NR_DENTRY_IN_BLOCK : Z := 214.

Definition GET_DENTRY_SLOTS (x : Z) : Z := Z.shiftr (x + F2FS_SLOT_LEN - 1) F2FS_SLOT_LEN_BITS.

Record f2fs_dir_entry := mk_de { hash_code : Z; de_ino : Z; name_len : Z; file_type : Z }.

#[global] Instance f2fs_dir_entry_inhabited : Inhabited f2fs_dir_entry := populate (mk_de 0 0 0 0).

(** [filename[i][j]] is byte [F2FS_SLOT_LEN * i + j] of [filename]: a name starts in its
    entry's slot and runs on into the next ones. *)
Record f2fs_dentry_block := mk_blk {
  dentry_bitmap : Z;
  dentry : list f2fs_dir_entry;
  filename : list Z;
}.

(** A page of zeroes. *)
Definition zero_block : f2fs_dentry_block :=
  mk_blk 0 (replicate 214 (mk_de 0 0 0 0)) (replicate 1712 0).

(** [struct f2fs_filename]: the name on disk, and a hash that is not 0 only for names of
    encrypted directories. *)
Record f2fs_filename := mk_fname { disk_name : list Z; fname_hash : Z }.

(** File types: the type bits of a mode, the code in an entry, the code for user space. *)
Definition S_IFMT : Z := 61440.
Definition S_SHIFT : Z := 12.
Definition S_IFDIR : Z := 16384.
Definition F2FS_FT_DIR : Z := 2.
Definition F2FS_FT_MAX : Z := 8.
Definition DT_UNKNOWN : Z := 0.

Definition S_ISDIR (mode : Z) : bool := Z.land mode S_IFMT =? S_IFDIR.

Definition f2fs_filetype_table : list Z := [0; 8; 4; 2; 6; 1; 12; 10].

Definition f2fs_type_by_mode : list Z := [0; 5; 3; 0; 2; 0; 4; 0; 1; 0; 7; 0; 6; 0; 0].

Definition de_type (mode : Z) : Z := f2fs_type_by_mode.[Z.shiftr (Z.land mode S_IFMT) S_SHIFT].

Definition set_de_type (de : f2fs_dir_entry) (mode : Z) : f2fs_dir_entry :=
  mk_de (hash_code de) (de_ino de) (name_len de) (de_type mode).

(** The bytes [memcmp] compares and [memcpy] writes. *)
Definition slice (l : list Z) (off n : Z) : list Z := take (Z.to_nat n) (drop (Z.to_nat off) l).

Definition memcpy (l : list Z) (off : Z) (src : list Z) : list Z :=
  take (Z.to_nat off) l ++ src ++ drop (Z.to_nat off + length src) l.

Definition with_bitmap (m : Z) (b : f2fs_dentry_block) : f2fs_dentry_block :=
  mk_blk m (dentry b) (filename b).
Definition with_dentry (l : list f2fs_dir_entry) (b : f2fs_dentry_block) : f2fs_dentry_block :=
  mk_blk (dentry_bitmap b) l (filename b).
Definition with_filename (l : list Z) (b : f2fs_dentry_block) : f2fs_dentry_block :=
  mk_blk (dentry_bitmap b) (dentry b) l.

(** Does the entry at [bit_pos] carry the wanted name? *)
Definition de_matches (fname : f2fs_filename) (namehash : Z) (d : f2fs_dentry_block) (bit_pos : Z) : bool :=
  let de := (dentry d).[bit_pos] in
  let name := disk_name fname in
  if negb (fname_hash fname =? 0) then hash_code de =? fname_hash fname
  else (name_len de =? zlen name) && (hash_code de =? namehash) &&
       bool_decide (slice (filename d) (F2FS_SLOT_LEN * bit_pos) (zlen name) = name).

(** The loop of [find_target_dentry].  [bit_pos] is an unsigned long, so the comparison
    with the signed [max] is one of unsigned numbers.  The result is the slot of the
    entry, [*max_slots] and [d->max]. *)
Fixpoint find_target_loop (fuel : nat) (fname : f2fs_filename) (namehash : Z)
    (d : f2fs_dentry_block) (bit_pos max_len max_slots max : Z) : outcome (option Z * Z * Z) :=
  match fuel with
  | O => Spins
  | S fuel =>
      let widest := if max_slots <? max_len then max_len else max_slots in
      if bit_pos <? u64 max then
        if negb (test_bit bit_pos (dentry_bitmap d)) then
          find_target_loop fuel fname namehash d (bit_pos + 1) (max_len + 1) max_slots max
        else if de_matches fname namehash d bit_pos then Done (Some bit_pos, widest, max)
        else
          let len := name_len ((dentry d).[bit_pos]) in
          let max := if len =? 0 then -1 else max in
          find_target_loop fuel fname namehash d (bit_pos + GET_DENTRY_SLOTS len) 0 widest max
      else Done (None, widest, max)
  end.

(** The fuel: every round of the loop passes at least one slot. *)
Definition find_target_dentry (fname : f2fs_filename) (namehash : Z) (d : f2fs_dentry_block)
    : outcome (option Z * Z * Z) :=
  find_target_loop (S (Z.to_nat NR_DENTRY_IN_BLOCK)) fname namehash d 0 0 0 NR_DENTRY_IN_BLOCK.

(** The slot of the entry, [*max_slots], and whether [f2fs_bug_on(d.max < 0)] fires. *)
Definition find_in_block (d : f2fs_dentry_block) (fname : f2fs_filename) (namehash : Z)
    : outcome (option Z * Z * bool) :=
  '(de, max_slots, max) ← find_target_dentry fname namehash d;
  Done (de, max_slots, max <? 0).

Fixpoint room_loop (fuel : nat) (bitmap slots max_slots bit_start : Z) : outcome Z :=
  match fuel with
  | O => Spins
  | S fuel =>
      let zero_start := find_next_zero_bit bitmap max_slots bit_start in
      if max_slots <=? zero_start then Done max_slots
      else
        let zero_end := find_next_bit bitmap max_slots zero_start in
        if slots <=? zero_end - zero_start then Done zero_start
        else if max_slots <=? zero_end + 1 then Done max_slots
        else room_loop fuel bitmap slots max_slots (zero_end + 1)
  end.

Definition room_for_filename (bitmap slots max_slots : Z) : outcome Z :=
  room_loop (S (Z.to_nat max_slots)) bitmap slots max_slots 0.

Definition f2fs_update_dentry (ino mode : Z) (d : f2fs_dentry_block) (name : list Z)
    (name_hash bit_pos : Z) : f2fs_dentry_block :=
  let slots := GET_DENTRY_SLOTS (zlen name) in
  let de := mk_de name_hash ino (u16 (zlen name)) (file_type ((dentry d).[bit_pos])) in
  let d := with_filename (memcpy (filename d) (F2FS_SLOT_LEN * bit_pos) name) d in
  let d := with_dentry ((dentry d).[bit_pos <- set_de_type de mode]) d in
  with_bitmap (for_range 0 slots (fun i m => set_bit (bit_pos + i) m) (dentry_bitmap d)) d.

(** What [f2fs_delete_entry] does to the block: the bits are cleared, the rest stays. *)
Definition delete_slots (d : f2fs_dentry_block) (bit_pos : Z) : f2fs_dentry_block :=
  let slots := GET_DENTRY_SLOTS (name_len ((dentry d).[bit_pos])) in
  with_bitmap (for_range 0 slots (fun i m => clear_bit (bit_pos + i) m) (dentry_bitmap d)) d.

(** What [f2fs_set_link] does to the entry. *)
Definition set_link (d : f2fs_dentry_block) (bit_pos ino mode : Z) : f2fs_dentry_block :=
  let de := (dentry d).[bit_pos] in
  let de := mk_de (hash_code de) ino (name_len de) (file_type de) in
  with_dentry ((dentry d).[bit_pos <- set_de_type de mode]) d.

Definition do_make_empty_dir (ino mode pino pmode : Z) (d : f2fs_dentry_block) : f2fs_dentry_block :=
  let de := set_de_type (mk_de 0 ino 1 (file_type ((dentry d).[0]))) mode in
  let d := with_filename (memcpy (filename d) 0 [DOT]) (with_dentry ((dentry d).[0 <- de]) d) in
  let de := set_de_type (mk_de 0 pino 2 (file_type ((dentry d).[1]))) pmode in
  let d := with_filename (memcpy (filename d) F2FS_SLOT_LEN [DOT; DOT]) (with_dentry ((dentry d).[1 <- de]) d) in
  with_bitmap (set_bit 1 (set_bit 0 (dentry_bitmap d))) d.

(** [struct dir_context]: the position, what the callback has taken (name, inode number
    and type) and how many entries it will still take before it refuses one. *)
Record dir_context := mk_ctx { ctx_pos : Z; emitted : list (list Z * Z * Z); ctx_room : nat }.

Definition dir_emit (ctx : dir_context) (name : list Z) (ino d_type : Z) : bool * dir_context :=
  match ctx_room ctx with
  | O => (false, ctx)
  | S n => (true, mk_ctx (ctx_pos ctx) (emitted ctx ++ [(name, ino, d_type)]) n)
  end.

Definition with_pos (p : Z) (ctx : dir_context) : dir_context :=
  mk_ctx p (emitted ctx) (ctx_room ctx).

(** [true] in the result: the callback refused an entry. *)
Fixpoint fill_loop (fuel : nat) (ctx : dir_context) (d : f2fs_dentry_block) (start_pos bit_pos : Z)
    : outcome (bool * dir_context) :=
  match fuel with
  | O => Spins
  | S fuel =>
      if bit_pos <? NR_DENTRY_IN_BLOCK then
        let bit_pos := find_next_bit (dentry_bitmap d) NR_DENTRY_IN_BLOCK bit_pos in
        if NR_DENTRY_IN_BLOCK <=? bit_pos then Done (false, ctx)
        else
          let de := (dentry d).[bit_pos] in
          let d_type := if file_type de <? F2FS_FT_MAX then f2fs_filetype_table.[file_type de]
                        else DT_UNKNOWN in
          let '(ok, ctx) := dir_emit ctx (slice (filename d) (F2FS_SLOT_LEN * bit_pos) (name_len de))
                              (de_ino de) d_type in
          if ok then
            let bit_pos := bit_pos + GET_DENTRY_SLOTS (name_len de) in
            fill_loop fuel (with_pos (u32 (start_pos + bit_pos)) ctx) d start_pos bit_pos
          else Done (true, ctx)
      else Done (false, ctx)
  end.

Definition f2fs_fill_dentries (ctx : dir_context) (d : f2fs_dentry_block) (start_pos : Z)
    : outcome (bool * dir_context) :=
  fill_loop (S (Z.to_nat NR_DENTRY_IN_BLOCK)) ctx d start_pos (ctx_pos ctx mod NR_DENTRY_IN_BLOCK).

(** * The entries of a block *)

Record ent := mk_ent { e_pos : Z; e_name : list Z; e_hash : Z; e_ino : Z; e_type : Z }.

Definition e_slots (e : ent) : Z := GET_DENTRY_SLOTS (zlen (e_name e)).
Definition e_end (e : ent) : Z := e_pos e + e_slots e.

(** A name the VFS passes down. *)
Definition valid_name (name : list Z) : Prop := 1 <= zlen name <= F2FS_NAME_LEN.

(** [e] is stored in [d]. *)
Record stored (d : f2fs_dentry_block) (e : ent) : Prop := {
  st_name : valid_name (e_name e);
  st_pos : 0 <= e_pos e;
  st_end : e_end e <= NR_DENTRY_IN_BLOCK;
  st_de : (dentry d).[e_pos e] = mk_de (e_hash e) (e_ino e) (zlen (e_name e)) (e_type e);
  st_bytes : slice (filename d) (F2FS_SLOT_LEN * e_pos e) (zlen (e_name e)) = e_name e;
}.

(** [d] holds exactly the entries [l], in the order of their slots. *)
Record holds (d : f2fs_dentry_block) (l : list ent) : Prop := {
  h_dentry : zlen (dentry d) = NR_DENTRY_IN_BLOCK;
  h_filename : zlen (filename d) = F2FS_SLOT_LEN * NR_DENTRY_IN_BLOCK;
  h_stored : forall e, e ∈ l -> stored d e;
  h_sorted : StronglySorted (fun a b => e_end a <= e_pos b) l;
  h_bits : forall i, 0 <= i < NR_DENTRY_IN_BLOCK ->
    test_bit i (dentry_bitmap d) = true <-> exists e, e ∈ l /\ e_pos e <= i < e_end e;
}.

Lemma slots_bounds n : GET_DENTRY_SLOTS n = (n + 7) / 8.
Proof. unfold GET_DENTRY_SLOTS, F2FS_SLOT_LEN, F2FS_SLOT_LEN_BITS; rewrite Z.shiftr_div_pow2 by lia; change (2 ^ 3) with 8; f_equal; lia. Qed.

Lemma slots_valid name : valid_name name -> 1 <= GET_DENTRY_SLOTS (zlen name) <= 32.
Proof. intros [H1 H2]; rewrite slots_bounds; unfold F2FS_NAME_LEN in *; lia. Qed.

Lemma stored_range d e : stored d e -> 0 <= e_pos e < e_end e /\ e_end e <= 214 /\ 1 <= e_slots e <= 32.
Proof.
  intros []; pose proof (slots_valid _ st_name0); unfold e_end, e_slots, NR_DENTRY_IN_BLOCK in *; lia.
Qed.

(** [l] seen from slot [b], between two entries. *)
Record cut (l : list ent) (b : Z) (l1 l2 : list ent) : Prop := {
  cut_app : l = l1 ++ l2;
  cut_before : forall e, e ∈ l1 -> e_end e <= b;
  cut_after : forall e, e ∈ l2 -> b <= e_pos e;
}.

Lemma cut_start d l : holds d l -> cut l 0 [] l.
Proof. intros H; split; [reflexivity | intros e He; inversion He | intros e He; apply (h_stored _ _ H _ He)]. Qed.

Lemma cut_step d l b l1 e l2 : holds d l -> cut l b l1 (e :: l2) -> cut l (e_end e) (l1 ++ [e]) l2.
Proof.
  intros Hh [-> Hb Ha]; split; [rewrite <- app_assoc; reflexivity | |].
  - intros x [Hx | ->%list_elem_of_singleton]%elem_of_app; [|lia].
    pose proof (Hb x Hx); pose proof (Ha e ltac:(left)).
    pose proof (stored_range _ _ (h_stored _ _ Hh e ltac:(apply elem_of_app; right; left))); lia.
  - intros x Hx; pose proof (h_sorted _ _ Hh) as HS; apply StronglySorted_app in HS as (_ & _ & HS).
    apply StronglySorted_cons in HS as [HF _]; rewrite Forall_forall in HF; auto.
Qed.

(** A slot before the next entry is free. *)
Lemma cut_free d l b l1 l2 i : holds d l -> cut l b l1 l2 -> 0 <= b <= i -> i < NR_DENTRY_IN_BLOCK ->
  (forall e, e ∈ l2 -> i < e_pos e) -> test_bit i (dentry_bitmap d) = false.
Proof.
  intros Hh [-> Hb Ha] Hi Hm Hn; apply not_true_is_false; intros Ht.
  apply (h_bits _ _ Hh) in Ht as (e & [He|He]%elem_of_app & Hr); [|pose proof (Hn e He)|lia]; [pose proof (Hb e He)|]; lia.
Qed.

Lemma cut_head d l b l1 e l2 : holds d l -> cut l b l1 (e :: l2) ->
  (forall x, x ∈ e :: l2 -> e_pos e <= e_pos x).
Proof.
  intros Hh Hc x [-> | Hx]%elem_of_cons; [lia|].
  pose proof (cut_after _ _ _ _ (cut_step _ _ _ _ _ _ Hh Hc) x Hx).
  pose proof (stored_range _ _ (h_stored _ _ Hh e ltac:(rewrite (cut_app _ _ _ _ Hc); apply elem_of_app; right; left))); lia.
Qed.

(** At a slot between entries: either the next entry starts there or the slot is free. *)
Lemma cut_cases d l b l1 l2 : holds d l -> cut l b l1 l2 -> 0 <= b < NR_DENTRY_IN_BLOCK ->
  (exists e l2', l2 = e :: l2' /\ e_pos e = b /\ stored d e /\ test_bit b (dentry_bitmap d) = true) \/
  (test_bit b (dentry_bitmap d) = false /\ cut l (b + 1) l1 l2).
Proof.
  intros Hh Hc Hb.
  assert (Hcases : (exists e l2', l2 = e :: l2' /\ e_pos e = b) \/ forall x, x ∈ l2 -> b < e_pos x).
  { destruct l2 as [|e l2]; [right; intros x Hx; inversion Hx|].
    pose proof (cut_after _ _ _ _ Hc e ltac:(left)); destruct (decide (e_pos e = b)); [left; eauto | right].
    intros x Hx; pose proof (cut_head _ _ _ _ _ _ Hh Hc x Hx); lia. }
  destruct Hcases as [(e & l2' & -> & <-)|Hn]; [left | right].
  - assert (He : e ∈ l) by (rewrite (cut_app _ _ _ _ Hc); apply elem_of_app; right; left).
    pose proof (h_stored _ _ Hh e He) as Hs; pose proof (stored_range _ _ Hs).
    exists e, l2'; repeat split; [apply Hs.. | apply (h_bits _ _ Hh); [lia | exists e; split; [exact He | lia]]].
  - split; [apply (cut_free d l b l1 l2); auto; lia|].
    destruct Hc as [-> Hb' Ha]; split; [reflexivity | intros e He; specialize (Hb' e He); lia | intros e He; specialize (Hn e He); lia].
Qed.

(** * The search for an entry *)

(** The entry a search without a stored hash looks for. *)
Definition wanted (name : list Z) (namehash : Z) (e : ent) : bool :=
  bool_decide (e_name e = name) && (e_hash e =? namehash).

Lemma de_matches_stored d e name h : stored d e ->
  de_matches (mk_fname name 0) h d (e_pos e) = wanted name h e.
Proof.
  intros []; unfold de_matches, wanted; cbn [fname_hash disk_name negb Z.eqb]; rewrite st_de0; cbn [name_len hash_code].
  destruct (zlen (e_name e) =? zlen name) eqn:El; cbn [andb]; bool_cases.
  - rewrite <- El, st_bytes0; apply andb_comm.
  - symmetry; apply andb_false_iff; left; apply bool_decide_false; intros <-; lia.
Qed.

Lemma find_target_ok d l name h fuel b ml ms l1 l2 : holds d l -> cut l b l1 l2 ->
  0 <= b <= NR_DENTRY_IN_BLOCK -> NR_DENTRY_IN_BLOCK - b < Z.of_nat fuel ->
  exists ms', find_target_loop fuel (mk_fname name 0) h d b ml ms NR_DENTRY_IN_BLOCK
    = Done (e_pos <$> find (wanted name h) l2, ms', NR_DENTRY_IN_BLOCK).
Proof.
  intros Hh; revert b ml ms l1 l2; induction fuel as [|fuel IH]; intros b ml ms l1 l2 Hc Hb Hf; [lia|].
  cbn [find_target_loop]; change (u64 NR_DENTRY_IN_BLOCK) with 214; unfold NR_DENTRY_IN_BLOCK in *.
  destruct (b <? 214) eqn:E; bool_cases.
  2:{ destruct l2 as [|e l2]; [eexists; reflexivity|].
      pose proof (cut_after _ _ _ _ Hc e ltac:(left)).
      pose proof (stored_range _ _ (h_stored _ _ Hh e ltac:(rewrite (cut_app _ _ _ _ Hc); apply elem_of_app; right; left))); lia. }
  destruct (cut_cases _ _ _ _ _ Hh Hc) as [(e & l2' & -> & <- & Hs & ->)|[-> Hc']]; [unfold NR_DENTRY_IN_BLOCK; lia | |].
  - pose proof (stored_range _ _ Hs) as (Hp & He & Hsl).
    cbn [negb find]; rewrite (de_matches_stored _ _ _ _ Hs); destruct (wanted name h e); [eexists; reflexivity|].
    rewrite (st_de _ _ Hs); cbn [name_len]; destruct (st_name _ _ Hs) as [Hz _].
    rewrite (proj2 (Z.eqb_neq (zlen (e_name e)) 0)) by lia.
    apply (IH _ _ _ _ _ (cut_step _ _ _ _ _ _ Hh Hc)); unfold e_end, e_slots in *; lia.
  - cbn [negb]; apply (IH (b + 1) _ _ l1 l2); [exact Hc' | lia..].
Qed.

Lemma find_in_block_ok d l name h : holds d l ->
  exists ms, find_in_block d (mk_fname name 0) h = Done (e_pos <$> find (wanted name h) l, ms, false).
Proof.
  intros Hh; destruct (find_target_ok d l name h (S (Z.to_nat NR_DENTRY_IN_BLOCK)) 0 0 0 [] l Hh (cut_start _ _ Hh)) as [ms E];
    [unfold NR_DENTRY_IN_BLOCK; lia..|].
  exists ms; unfold find_in_block, find_target_dentry; rewrite E; reflexivity.
Qed.

(** An entry of length 0 stops the search from ending: [d->max] becomes -1, which is the
    largest number in the unsigned comparison, and the position does not move. *)
Lemma find_target_stuck fuel name h d p ml ms max :
  0 <= p < u64 max -> (max = -1 \/ max = NR_DENTRY_IN_BLOCK) -> name <> [] ->
  test_bit p (dentry_bitmap d) = true -> name_len ((dentry d).[p]) = 0 ->
  find_target_loop fuel (mk_fname name 0) h d p ml ms max = Spins.
Proof.
  intros Hp Hm Hn Hb Hz; revert ml ms max Hp Hm; induction fuel as [|fuel IH]; intros ml ms max Hp Hm; [reflexivity|].
  cbn [find_target_loop]; rewrite (proj2 (Z.ltb_lt p (u64 max))) by lia; rewrite Hb; cbn [negb].
  unfold de_matches at 1; cbn [fname_hash disk_name negb Z.eqb]; rewrite Hz.
  rewrite (proj2 (Z.eqb_neq 0 (zlen name))) by (unfold zlen; destruct name; [done | cbn; lia]).
  cbn [andb Z.eqb]; change (GET_DENTRY_SLOTS 0) with 0; rewrite Z.add_0_r; apply IH; [|left; reflexivity].
  change (u64 (-1)) with (2 ^ 64 - 1); destruct Hm as [-> | ->]; [exact Hp | change (u64 NR_DENTRY_IN_BLOCK) with 214 in Hp; lia].
Qed.



(** * The search for room *)

Definition free_run (bitmap p n : Z) : Prop := forall i, p <= i < p + n -> test_bit i bitmap = false.

Lemma room_loop_ok fuel m n max b : 1 <= n -> 0 <= b <= max -> max - b < Z.of_nat fuel ->
  (forall p, 0 <= p < b -> p + n <= max -> ~ free_run m p n) ->
  exists r, room_loop fuel m n max b = Done r /\
    (forall p, 0 <= p < r -> p + n <= max -> ~ free_run m p n) /\
    (r = max \/ (0 <= r /\ r + n <= max /\ free_run m r n)).
Proof.
  intros Hn; revert b; induction fuel as [|fuel IH]; intros b Hb Hf Hpre; [lia|]; cbn [room_loop].
  destruct (find_next_spec (fun i => negb (test_bit i m)) max b ltac:(lia)) as (Hr & Ht & Hff).
  fold (find_next_zero_bit m max b) in Hr, Ht, Hff; set (zs := find_next_zero_bit m max b) in *.
  assert (Hset : forall p, b <= p < zs -> ~ free_run m p n).
  { intros p Hp Hfr; specialize (Hff p Hp); rewrite (Hfr p ltac:(lia)) in Hff; discriminate. }
  destruct (max <=? zs) eqn:E1; bool_cases.
  { exists max; repeat split; [|left; reflexivity]; intros p Hp Hpn; destruct (Z.lt_ge_cases p b); [apply Hpre; lia | apply Hset; lia]. }
  destruct (find_next_spec (fun i => test_bit i m) max zs ltac:(lia)) as (Hr2 & Ht2 & Hff2).
  fold (find_next_bit m max zs) in Hr2, Ht2, Hff2; set (ze := find_next_bit m max zs) in *.
  destruct (n <=? ze - zs) eqn:E2; bool_cases.
  { exists zs; repeat split; [| right; repeat split; [lia | lia | intros i Hi; apply Hff2; lia]].
    intros p Hp Hpn; destruct (Z.lt_ge_cases p b); [apply Hpre; lia | apply Hset; lia]. }
  assert (Hnew : forall p, 0 <= p <= ze -> p + n <= max -> ~ free_run m p n).
  { intros p Hp Hpn; destruct (Z.lt_ge_cases p b); [apply Hpre; lia|]; destruct (Z.lt_ge_cases p zs); [apply Hset; lia|].
    intros Hfr; destruct (Z.lt_ge_cases ze max); [|lia]; rewrite (Hfr ze ltac:(lia)) in Ht2; specialize (Ht2 ltac:(lia)); discriminate. }
  destruct (max <=? ze + 1) eqn:E3; bool_cases.
  { exists max; repeat split; [|left; reflexivity]; intros p Hp Hpn; apply Hnew; lia. }
  apply IH; [lia | lia | intros p Hp; apply Hnew; lia].
Qed.

(** * Bytes and bits *)

Lemma zlen_memcpy l off src : 0 <= off -> off + zlen src <= zlen l -> zlen (memcpy l off src) = zlen l.
Proof. intros; unfold memcpy, zlen in *; rewrite !length_app, length_take, length_drop; lia. Qed.

Lemma slice_memcpy_eq l off src : 0 <= off <= zlen l -> slice (memcpy l off src) off (zlen src) = src.
Proof.
  intros H; unfold slice, memcpy, zlen in *; rewrite drop_app_length' by (rewrite length_take; lia).
  rewrite Nat2Z.id; apply take_app_length.
Qed.

Lemma slice_memcpy_ne l off src off' n : 0 <= off -> 0 <= off' -> 0 <= n -> off + zlen src <= zlen l ->
  off' + n <= off \/ off + zlen src <= off' -> slice (memcpy l off src) off' n = slice l off' n.
Proof.
  intros Ho Ho' Hn Hl [H | H]; unfold slice, memcpy, zlen in *.
  - rewrite drop_app_le by (rewrite length_take; lia); rewrite take_app_le by (rewrite length_drop, length_take; lia).
    rewrite skipn_firstn_comm, take_take; f_equal; lia.
  - rewrite drop_app_ge by (rewrite length_take; lia); rewrite length_take, drop_app_ge by lia.
    rewrite drop_drop; do 2 f_equal; lia.
Qed.

Lemma set_run n p m i : 0 <= n -> 0 <= p ->
  test_bit i (for_range 0 n (fun i m => set_bit (p + i) m) m) = ((p <=? i) && (i <? p + n)) || test_bit i m.
Proof.
  intros Hn Hp; apply (for_range_ind (fun k m' => test_bit i m' = ((p <=? i) && (i <? p + k)) || test_bit i m)); [lia | |].
  - destruct (p <=? i) eqn:E1, (i <? p + 0) eqn:E2; bool_cases; cbn; reflexivity || lia.
  - intros k t Hk E; destruct (Z.eq_dec i (p + k)) as [-> | Hne].
    + rewrite test_bit_set_eq by lia; rewrite (proj2 (Z.leb_le p (p + k))), (proj2 (Z.ltb_lt (p + k) (p + (k + 1)))) by lia; reflexivity.
    + rewrite test_bit_set_ne, E by lia; do 2 f_equal; destruct (i <? p + k) eqn:E1, (i <? p + (k + 1)) eqn:E2; bool_cases; lia.
Qed.

Lemma clear_run n p m i : 0 <= n -> 0 <= p ->
  test_bit i (for_range 0 n (fun i m => clear_bit (p + i) m) m) = negb ((p <=? i) && (i <? p + n)) && test_bit i m.
Proof.
  intros Hn Hp; apply (for_range_ind (fun k m' => test_bit i m' = negb ((p <=? i) && (i <? p + k)) && test_bit i m)); [lia | |].
  - destruct (p <=? i) eqn:E1, (i <? p + 0) eqn:E2; bool_cases; cbn; reflexivity || lia.
  - intros k t Hk E; destruct (Z.eq_dec i (p + k)) as [-> | Hne].
    + rewrite test_bit_clear_eq by lia; rewrite (proj2 (Z.leb_le p (p + k))), (proj2 (Z.ltb_lt (p + k) (p + (k + 1)))) by lia; reflexivity.
    + rewrite test_bit_clear_ne, E by lia; do 3 f_equal; destruct (i <? p + k) eqn:E1, (i <? p + (k + 1)) eqn:E2; bool_cases; lia.
Qed.
