(* ===== verification/DentryOps.v ===== *)
(** What the operations on a directory block do to the list of entries it holds: adding,
    removing and relinking an entry, the block of an empty directory, and the listing of
    the entries (src/Max/dir.c: f2fs_update_dentry, f2fs_delete_entry, f2fs_set_link,
    do_make_empty_dir, f2fs_fill_dentries). *)

From Stdlib Require Import ZArith Lia Bool.
From stdpp Require Import base numbers list sorting.
From S2P Require Import Prelude Layout Hash Dentry.

#[local] Open Scope Z_scope.
#[local] Ltac Zify.zify_post_hook ::= Z.to_euclidean_division_equations.

(** No entry of [l] runs across slot [b]. *)
Definition clean (l : list ent) (b : Z) : Prop := forall e, e ∈ l -> e_end e <= b \/ b <= e_pos e.

Lemma cut_at d l b : holds d l -> clean l b -> exists l1 l2, cut l b l1 l2.
Proof.
  intros Hh Hc; pose proof (h_sorted _ _ Hh) as HS; pose proof (h_stored _ _ Hh) as Hst; clear Hh.
  induction HS as [|e l HS IH HF]; [exists [], []; split; [reflexivity | intros e He; inversion He..]|].
  destruct (Hc e ltac:(left)) as [H | H].
  - destruct IH as (l1 & l2 & [-> H1 H2]); [intros x Hx; apply Hc; right; exact Hx | intros x Hx; apply Hst; right; exact Hx|].
    exists (e :: l1), l2; split; [reflexivity | | exact H2]; intros x [-> | Hx]%elem_of_cons; [exact H | auto].
  - exists [], (e :: l); split; [reflexivity | intros x Hx; inversion Hx|]; rewrite Forall_forall in HF.
    intros x [-> | Hx]%elem_of_cons; [exact H|]; specialize (HF x Hx); pose proof (stored_range _ _ (Hst e ltac:(left))); lia.
Qed.

(** A free run lies between two entries. *)
Lemma free_run_cut d l p n : holds d l -> 1 <= n -> 0 <= p -> p + n <= NR_DENTRY_IN_BLOCK ->
  free_run (dentry_bitmap d) p n ->
  exists l1 l2, cut l p l1 l2 /\ (forall e, e ∈ l2 -> p + n <= e_pos e).
Proof.
  intros Hh Hn Hp Hm Hf.
  assert (Hsep : forall e, e ∈ l -> e_end e <= p \/ p + n <= e_pos e).
  { intros e He; pose proof (stored_range _ _ (h_stored _ _ Hh e He)) as (Hr & He' & _).
    destruct (Z.le_gt_cases (e_end e) p); [left; assumption|]; destruct (Z.le_gt_cases (p + n) (e_pos e)); [right; assumption|].
    pose proof (Hf (Z.max p (e_pos e)) ltac:(lia)) as Hb.
    rewrite (proj2 (h_bits _ _ Hh (Z.max p (e_pos e)) ltac:(lia))) in Hb; [discriminate | exists e; split; [exact He | lia]]. }
  destruct (cut_at d l p Hh) as (l1 & l2 & Hc); [intros e He; destruct (Hsep e He); [left | right]; lia|].
  exists l1, l2; split; [exact Hc|]; intros e He; pose proof (cut_after _ _ _ _ Hc e He).
  assert (Hel : e ∈ l) by (rewrite (cut_app _ _ _ _ Hc); apply elem_of_app; right; exact He).
  destruct (Hsep e Hel); [|assumption]; pose proof (stored_range _ _ (h_stored _ _ Hh e Hel)); lia.
Qed.

Lemma sorted_middle (l1 l2 : list ent) e :
  StronglySorted (fun a b => e_end a <= e_pos b) (l1 ++ l2) ->
  (forall x, x ∈ l1 -> e_end x <= e_pos e) -> (forall x, x ∈ l2 -> e_end e <= e_pos x) ->
  StronglySorted (fun a b => e_end a <= e_pos b) (l1 ++ e :: l2).
Proof.
  intros (Hx & H1 & H2)%StronglySorted_app Hb Ha; apply StronglySorted_app; split; [|split; [exact H1|]].
  - intros x y Hxl [-> | Hy]%elem_of_cons; auto.
  - constructor; [exact H2 | apply Forall_forall; exact Ha].
Qed.

Lemma sorted_remove (l1 l2 : list ent) e :
  StronglySorted (fun a b => e_end a <= e_pos b) (l1 ++ e :: l2) ->
  StronglySorted (fun a b => e_end a <= e_pos b) (l1 ++ l2) /\
  (forall x, x ∈ l1 -> e_end x <= e_pos e) /\ (forall x, x ∈ l2 -> e_end e <= e_pos x).
Proof.
  intros (Hx & H1 & [HF H2]%StronglySorted_cons)%StronglySorted_app; rewrite Forall_forall in HF; split; [|split].
  - apply StronglySorted_app; split; [intros x y Hxl Hy; apply Hx; [exact Hxl | right; exact Hy] | split; assumption].
  - intros x Hxl; apply Hx; [exact Hxl | left].
  - exact HF.
Qed.

(** An entry apart from [e] is still there after a write to the slots of [e]. *)
Lemma stored_frame d d' e x : stored d x ->
  (e_end x <= e_pos e \/ e_end e <= e_pos x) -> 0 <= e_pos e < e_end e -> valid_name (e_name e) ->
  8 * e_end e <= zlen (filename d) ->
  (forall i, i <> e_pos e -> (dentry d').[i] = (dentry d).[i]) ->
  (filename d' = filename d \/ filename d' = memcpy (filename d) (F2FS_SLOT_LEN * e_pos e) (e_name e)) ->
  stored d' x.
Proof.
  intros Hs Hsep He Hv Hl Hd Hfn; pose proof (stored_range _ _ Hs) as (Hp & He' & _); destruct Hs as [Hv' Hp' Hend Hde Hby].
  split; [assumption.. | rewrite Hd by lia; exact Hde|].
  destruct Hfn as [-> | ->]; [exact Hby|].
  unfold e_end, e_slots, F2FS_SLOT_LEN, valid_name in *; rewrite !slots_bounds in *.
  rewrite slice_memcpy_ne by lia; exact Hby.
Qed.

Lemma update_dentry_ok d l l1 l2 ino mode name h p : holds d l -> valid_name name ->
  0 <= p -> p + GET_DENTRY_SLOTS (zlen name) <= NR_DENTRY_IN_BLOCK ->
  cut l p l1 l2 -> (forall e, e ∈ l2 -> p + GET_DENTRY_SLOTS (zlen name) <= e_pos e) ->
  holds (f2fs_update_dentry ino mode d name h p) (l1 ++ mk_ent p name h ino (de_type mode) :: l2).
Proof.
  intros Hh Hv Hp Hm Hc Ha; set (e := mk_ent p name h ino (de_type mode)); pose proof (slots_valid _ Hv) as Hs.
  destruct Hh as [Hd Hf Hst HS Hb]; destruct Hc as [-> H1 H2]; set (d' := f2fs_update_dentry ino mode d name h p).
  assert (Hlen : p < zlen (dentry d)) by (rewrite Hd; lia).
  assert (Hfl : F2FS_SLOT_LEN * p + zlen name <= zlen (filename d)).
  { rewrite Hf; rewrite !slots_bounds in *; unfold F2FS_SLOT_LEN, NR_DENTRY_IN_BLOCK in *; lia. }
  assert (Hu : u16 (zlen name) = zlen name) by (apply u16_small; unfold valid_name, F2FS_NAME_LEN in Hv; lia).
  split.
  - unfold d', f2fs_update_dentry; cbn; rewrite zlen_aset; exact Hd.
  - unfold d', f2fs_update_dentry; cbn [filename with_bitmap with_dentry with_filename].
    rewrite zlen_memcpy by (unfold F2FS_SLOT_LEN in *; lia); exact Hf.
  - intros x Hx; assert (Hx' : x = e \/ (x ∈ l1 ++ l2 /\ (e_end x <= e_pos e \/ e_end e <= e_pos x))).
    { rewrite elem_of_app, elem_of_cons in Hx; rewrite elem_of_app; destruct Hx as [Hx | [-> | Hx]]; [right | left; reflexivity | right].
      - split; [left; exact Hx | left; apply H1; exact Hx].
      - split; [right; exact Hx | right; apply (Ha x Hx)]. }
    destruct Hx' as [-> | [Hxl Hsep]].
    + split; [exact Hv | exact Hp | exact Hm | |]; cbn [e e_pos e_name e_hash e_ino e_type];
        unfold d', f2fs_update_dentry; cbn [filename dentry with_bitmap with_dentry with_filename].
      * rewrite aget_aset_eq by lia; unfold set_de_type; cbn; rewrite Hu; reflexivity.
      * apply slice_memcpy_eq; unfold F2FS_SLOT_LEN, valid_name in *; lia.
    + apply (stored_frame d d' e); [apply Hst; exact Hxl | exact Hsep | unfold e_end, e_slots; cbn; lia | exact Hv | | | right; reflexivity].
      * rewrite Hf; unfold e_end, e_slots, F2FS_SLOT_LEN; cbn; lia.
      * intros i Hi; unfold d', f2fs_update_dentry; cbn; apply aget_aset_ne; cbn in Hi; lia.
  - apply sorted_middle; [exact HS | exact H1 | exact Ha].
  - intros i Hi; unfold d', f2fs_update_dentry; cbn [dentry_bitmap with_bitmap with_dentry with_filename].
    rewrite set_run, orb_true_iff, andb_true_iff, Z.leb_le, Z.ltb_lt, (Hb i Hi) by lia; split.
    + intros [Hr | (x & Hx & Hr)]; [exists e; split; [apply elem_of_app; right; left | exact Hr]|].
      exists x; split; [rewrite elem_of_app, elem_of_cons; rewrite elem_of_app in Hx; tauto | exact Hr].
    + intros (x & Hx & Hr); rewrite elem_of_app, elem_of_cons in Hx; destruct Hx as [Hx | [-> | Hx]]; [right | left; exact Hr | right];
        exists x; rewrite elem_of_app; auto.
Qed.

Lemma delete_slots_ok d l1 e l2 : holds d (l1 ++ e :: l2) -> holds (delete_slots d (e_pos e)) (l1 ++ l2).
Proof.
  intros [Hd Hf Hst HS Hb]; pose proof (Hst e ltac:(apply elem_of_app; right; left)) as Hse; pose proof (stored_range _ _ Hse) as (Hp & He & Hs).
  destruct (sorted_remove _ _ _ HS) as (HS' & H1 & H2).
  unfold delete_slots; rewrite (st_de _ _ Hse); cbn [name_len]; fold (e_slots e); split; cbn [dentry filename dentry_bitmap with_bitmap].
  - exact Hd.
  - exact Hf.
  - intros x Hx; destruct (Hst x) as [? ? ? ? ?]; [rewrite elem_of_app, elem_of_cons; rewrite elem_of_app in Hx; tauto | split; assumption].
  - exact HS'.
  - intros i Hi; rewrite clear_run, andb_true_iff, negb_true_iff, andb_false_iff, Z.leb_gt, Z.ltb_ge, (Hb i Hi) by lia; unfold e_end in *; split.
    + intros [Hno (x & Hx & Hr)]; exists x; split; [|exact Hr]; rewrite elem_of_app, elem_of_cons in Hx; rewrite elem_of_app.
      destruct Hx as [Hx | [-> | Hx]]; [tauto | lia | tauto].
    + intros (x & Hx & Hr); rewrite elem_of_app in Hx; split.
      * destruct Hx as [Hx | Hx]; [specialize (H1 x Hx) | specialize (H2 x Hx)]; lia.
      * exists x; rewrite elem_of_app, elem_of_cons; tauto.
Qed.

(** A block is given up when its bitmap is empty. *)
Lemma next_bit_ok d l b l1 l2 : holds d l -> cut l b l1 l2 -> 0 <= b <= NR_DENTRY_IN_BLOCK ->
  find_next_bit (dentry_bitmap d) NR_DENTRY_IN_BLOCK b = match l2 with [] => NR_DENTRY_IN_BLOCK | e :: _ => e_pos e end.
Proof.
  intros Hh Hc Hb; unfold find_next_bit; destruct l2 as [|e l2]; apply find_next_unique.
  - lia.
  - lia.
  - lia.
  - intros j Hj; apply (cut_free d l b l1 []); auto; [lia | lia | intros x Hx; inversion Hx].
  - pose proof (cut_after _ _ _ _ Hc e ltac:(left)); lia.
  - pose proof (stored_range _ _ (h_stored _ _ Hh e ltac:(rewrite (cut_app _ _ _ _ Hc); apply elem_of_app; right; left))); unfold NR_DENTRY_IN_BLOCK; lia.
  - intros _; assert (He : e ∈ l) by (rewrite (cut_app _ _ _ _ Hc); apply elem_of_app; right; left).
    pose proof (stored_range _ _ (h_stored _ _ Hh e He)); apply (h_bits _ _ Hh); [unfold NR_DENTRY_IN_BLOCK; lia | exists e; split; [exact He | lia]].
  - intros j Hj; pose proof (stored_range _ _ (h_stored _ _ Hh e ltac:(rewrite (cut_app _ _ _ _ Hc); apply elem_of_app; right; left))).
    apply (cut_free d l b l1 (e :: l2)); auto; [lia | unfold NR_DENTRY_IN_BLOCK; lia|].
    intros x Hx; pose proof (cut_head _ _ _ _ _ _ Hh Hc x Hx); lia.
Qed.

Definition relink (e : ent) (ino mode : Z) : ent := mk_ent (e_pos e) (e_name e) (e_hash e) ino (de_type mode).

Lemma sorted_relink (l1 l2 : list ent) e ino mode :
  StronglySorted (fun a b => e_end a <= e_pos b) (l1 ++ e :: l2) ->
  StronglySorted (fun a b => e_end a <= e_pos b) (l1 ++ relink e ino mode :: l2).
Proof. intros H; destruct (sorted_remove _ _ _ H) as (HS & H1 & H2); apply sorted_middle; assumption. Qed.

Lemma set_link_ok d l1 e l2 ino mode : holds d (l1 ++ e :: l2) ->
  holds (set_link d (e_pos e) ino mode) (l1 ++ relink e ino mode :: l2).
Proof.
  intros [Hd Hf Hst HS Hb]; pose proof (Hst e ltac:(apply elem_of_app; right; left)) as Hse; pose proof (stored_range _ _ Hse) as (Hp & He & Hs).
  destruct (sorted_remove _ _ _ HS) as (HS' & H1 & H2).
  unfold set_link; rewrite (st_de _ _ Hse); cbn [hash_code name_len file_type]; split; cbn [dentry filename dentry_bitmap with_dentry].
  - rewrite zlen_aset; exact Hd.
  - exact Hf.
  - intros x Hx; rewrite elem_of_app, elem_of_cons in Hx.
    assert (Hx' : x = relink e ino mode \/ (x ∈ l1 ++ e :: l2 /\ (e_end x <= e_pos e \/ e_end e <= e_pos x))).
    { rewrite elem_of_app, elem_of_cons; destruct Hx as [Hx | [-> | Hx]]; [right; split; [tauto | left; auto] | tauto | right; split; [tauto | right; auto]]. }
    destruct Hx' as [-> | [Hxl Hsep]].
    + split; [apply Hse.. | | apply Hse]; cbn [relink e_pos e_name e_hash e_ino e_type]; cbn.
      rewrite aget_aset_eq by (rewrite Hd; unfold NR_DENTRY_IN_BLOCK; lia); reflexivity.
    + destruct (Hst x Hxl) as [Hv Hp' Hend Hde Hby]; split; [assumption.. | | assumption]; cbn.
      rewrite aget_aset_ne; [exact Hde | intros Heq; pose proof (stored_range _ _ (Hst x Hxl)); lia].
  - apply sorted_relink; exact HS.
  - intros i Hi; rewrite (Hb i Hi); split; intros (x & Hx & Hr); rewrite elem_of_app, elem_of_cons in Hx.
    + destruct Hx as [Hx | [-> | Hx]]; [exists x | exists (relink e ino mode) | exists x]; rewrite elem_of_app, elem_of_cons; auto.
    + destruct Hx as [Hx | [-> | Hx]]; [exists x | exists e | exists x]; rewrite elem_of_app, elem_of_cons; auto.
Qed.

Lemma zero_block_ok : holds zero_block [].
Proof.
  split; try reflexivity; [intros e He; inversion He | constructor|].
  intros i Hi; cbn [zero_block dentry_bitmap]; unfold test_bit; rewrite Z.bits_0; split; [discriminate | intros (e & He & _); inversion He].
Qed.

(** * The block of an empty directory *)

Definition dot (ino mode : Z) : ent := mk_ent 0 [DOT] 0 ino (de_type mode).
Definition dotdot (ino mode : Z) : ent := mk_ent 1 [DOT; DOT] 0 ino (de_type mode).

(** [do_make_empty_dir] adds the two entries to an empty block. *)
Lemma do_make_empty_dir_eq ino mode pino pmode :
  do_make_empty_dir ino mode pino pmode zero_block =
  f2fs_update_dentry pino pmode (f2fs_update_dentry ino mode zero_block [DOT] 0 0) [DOT; DOT] 0 1.
Proof. reflexivity. Qed.

Lemma empty_block_ok ino mode pino pmode :
  holds (do_make_empty_dir ino mode pino pmode zero_block) [dot ino mode; dotdot pino pmode].
Proof.
  rewrite do_make_empty_dir_eq.
  assert (H1 : holds (f2fs_update_dentry ino mode zero_block [DOT] 0 0) [dot ino mode]).
  { apply (update_dentry_ok zero_block [] [] []); [apply zero_block_ok | split; vm_compute; discriminate | lia | vm_compute; discriminate | |].
    - split; [reflexivity | intros e He; inversion He..].
    - intros e He; inversion He. }
  apply (update_dentry_ok _ [dot ino mode] [dot ino mode] []);
    [exact H1 | split; vm_compute; discriminate | lia | vm_compute; discriminate | |].
  - split; [reflexivity | intros e ->%list_elem_of_singleton; vm_compute; discriminate | intros e He; inversion He].
  - intros e He; inversion He.
Qed.

(** * Listing the entries *)

(** What the callback gets to see of an entry. *)
Definition shown (e : ent) : list Z * Z * Z :=
  (e_name e, e_ino e, if e_type e <? F2FS_FT_MAX then f2fs_filetype_table.[e_type e] else DT_UNKNOWN).

(** The position after the entries [q] of the block that starts at [start]. *)
Definition pos_after (p start : Z) (q : list ent) : Z :=
  match last q with None => p | Some e => u32 (start + e_end e) end.

Lemma pos_after_cons p start e q :
  pos_after (u32 (start + e_end e)) start q = pos_after p start (e :: q).
Proof. unfold pos_after; destruct q as [|x q]; [reflexivity|]; rewrite last_cons_cons; destruct (last (x :: q)) eqn:E; [reflexivity|]; apply last_None in E; discriminate. Qed.

(** The callback takes as many of the entries from slot [b] on as it has room for. *)
Lemma fill_loop_ok d l fuel ctx start b l1 l2 : holds d l -> cut l b l1 l2 ->
  0 <= b <= NR_DENTRY_IN_BLOCK -> NR_DENTRY_IN_BLOCK - b < Z.of_nat fuel ->
  fill_loop fuel ctx d start b =
  Done (negb (length l2 <=? ctx_room ctx)%nat,
        mk_ctx (pos_after (ctx_pos ctx) start (take (ctx_room ctx) l2))
               (emitted ctx ++ map shown (take (ctx_room ctx) l2)) (ctx_room ctx - length l2)).
Proof.
  intros Hh; revert ctx b l1 l2; induction fuel as [|fuel IH]; intros ctx b l1 l2 Hc Hb Hf; [lia|].
  assert (Hstop : l2 = [] -> Done (false, ctx) = Done (negb (length l2 <=? ctx_room ctx)%nat,
      mk_ctx (pos_after (ctx_pos ctx) start (take (ctx_room ctx) l2))
             (emitted ctx ++ map shown (take (ctx_room ctx) l2)) (ctx_room ctx - length l2))).
  { intros ->; destruct ctx as [p em k]; cbn [ctx_room ctx_pos emitted length Nat.leb negb]; rewrite take_nil, app_nil_r, Nat.sub_0_r; reflexivity. }
  cbn [fill_loop]; destruct (b <? NR_DENTRY_IN_BLOCK) eqn:E; bool_cases.
  2:{ apply Hstop; destruct l2 as [|e l2]; [reflexivity|]; pose proof (cut_after _ _ _ _ Hc e ltac:(left)).
      pose proof (stored_range _ _ (h_stored _ _ Hh e ltac:(rewrite (cut_app _ _ _ _ Hc); apply elem_of_app; right; left))); unfold NR_DENTRY_IN_BLOCK in *; lia. }
  rewrite (next_bit_ok d l b l1 l2 Hh Hc) by lia; destruct l2 as [|e l2]; [rewrite Z.leb_refl; apply Hstop; reflexivity|]; clear Hstop.
  pose proof (h_stored _ _ Hh e ltac:(rewrite (cut_app _ _ _ _ Hc); apply elem_of_app; right; left)) as Hs.
  pose proof (stored_range _ _ Hs) as (Hp & He & Hsl); pose proof (cut_after _ _ _ _ Hc e ltac:(left)).
  rewrite (proj2 (Z.leb_gt NR_DENTRY_IN_BLOCK (e_pos e))) by (unfold NR_DENTRY_IN_BLOCK; lia).
  rewrite (st_de _ _ Hs); cbn [name_len file_type de_ino]; rewrite (st_bytes _ _ Hs); unfold dir_emit.
  destruct ctx as [p em [|k]]; cbn [ctx_room ctx_pos emitted].
  - cbn [take map length Nat.leb negb]; rewrite app_nil_r; reflexivity.
  - fold (e_slots e); fold (e_end e); rewrite (IH _ _ _ _ (cut_step _ _ _ _ _ _ Hh Hc)) by (unfold NR_DENTRY_IN_BLOCK in *; lia).
    cbn [with_pos ctx_room ctx_pos emitted length Nat.leb Nat.sub firstn map]; rewrite <- app_assoc, (pos_after_cons p).
    reflexivity.
Qed.

Lemma fill_dentries_ok d l ctx start l1 l2 : holds d l -> cut l (ctx_pos ctx mod NR_DENTRY_IN_BLOCK) l1 l2 ->
  f2fs_fill_dentries ctx d start =
  Done (negb (length l2 <=? ctx_room ctx)%nat,
        mk_ctx (pos_after (ctx_pos ctx) start (take (ctx_room ctx) l2))
               (emitted ctx ++ map shown (take (ctx_room ctx) l2)) (ctx_room ctx - length l2)).
Proof. intros Hh Hc; unfold NR_DENTRY_IN_BLOCK in *; apply (fill_loop_ok d l _ _ _ _ l1 l2 Hh Hc); unfold NR_DENTRY_IN_BLOCK; lia. Qed.

(** The type shown for a file is the type in its mode. *)
Lemma shown_type mode : let t := Z.land mode S_IFMT in
  t ∈ [4096; 8192; 16384; 24576; 32768; 40960; 49152] ->
  de_type mode < F2FS_FT_MAX /\ f2fs_filetype_table.[de_type mode] = Z.shiftr t S_SHIFT.
Proof.
  intros t Ht; unfold de_type; fold t; rewrite !elem_of_cons, elem_of_nil in Ht.
  repeat destruct Ht as [-> | Ht]; [split; reflexivity.. | contradiction].
Qed.
