(* ===== verification/Dir.v ===== *)
(** Directories (src/Max/dir.c): entries are hashed to a bucket on each of a growing
    number of levels, and a bucket is a few blocks of the directory's file.  Lookup,
    creation and removal of entries, the test for an empty directory and readdir. *)

From Stdlib Require Import ZArith Lia Bool.
From stdpp Require Import base numbers list gmap.
From S2P Require Import Prelude Layout NodePath Hash Dentry.

#[local] Open Scope Z_scope.
#[local] Ltac Zify.zify_post_hook ::= Z.to_euclidean_division_equations.

(** * State

    What dir.c uses of a directory's inode: the size, the link count and the raw inode
    they are written to; the number of levels; the level hint [chash], [clevel]; the flag
    FI_UPDATE_DIR; the blocks of the file, where a hole has no entry.  [d_warned] is
    raised by [f2fs_bug_on].  The directory has no inline entries and is not encrypted. *)

Record raw_dir := mk_raw_dir { ri_size : Z; ri_links : Z; ri_current_depth : Z }.

Record dir_inode := mk_dir {
  i_size : Z;
  i_nlink : Z;
  i_current_depth : Z;
  i_dir_level : Z;
  chash : Z;
  clevel : Z;
  fi_update_dir : bool;
  has_inline_xattr : bool;
  pages : gmap Z f2fs_dentry_block;
  node_page : raw_dir;
  d_warned : bool;
}.

Definition with_size (v : Z) (d : dir_inode) : dir_inode :=
  mk_dir v (i_nlink d) (i_current_depth d) (i_dir_level d) (chash d) (clevel d) (fi_update_dir d)
    (has_inline_xattr d) (pages d) (node_page d) (d_warned d).
Definition with_nlink (v : Z) (d : dir_inode) : dir_inode :=
  mk_dir (i_size d) v (i_current_depth d) (i_dir_level d) (chash d) (clevel d) (fi_update_dir d)
    (has_inline_xattr d) (pages d) (node_page d) (d_warned d).
Definition with_depth (v : Z) (d : dir_inode) : dir_inode :=
  mk_dir (i_size d) (i_nlink d) v (i_dir_level d) (chash d) (clevel d) (fi_update_dir d)
    (has_inline_xattr d) (pages d) (node_page d) (d_warned d).
Definition with_hint (h l : Z) (d : dir_inode) : dir_inode :=
  mk_dir (i_size d) (i_nlink d) (i_current_depth d) (i_dir_level d) h l (fi_update_dir d)
    (has_inline_xattr d) (pages d) (node_page d) (d_warned d).
Definition with_flag (v : bool) (d : dir_inode) : dir_inode :=
  mk_dir (i_size d) (i_nlink d) (i_current_depth d) (i_dir_level d) (chash d) (clevel d) v
    (has_inline_xattr d) (pages d) (node_page d) (d_warned d).
Definition with_pages (v : gmap Z f2fs_dentry_block) (d : dir_inode) : dir_inode :=
  mk_dir (i_size d) (i_nlink d) (i_current_depth d) (i_dir_level d) (chash d) (clevel d) (fi_update_dir d)
    (has_inline_xattr d) v (node_page d) (d_warned d).
Definition with_node_page (v : raw_dir) (d : dir_inode) : dir_inode :=
  mk_dir (i_size d) (i_nlink d) (i_current_depth d) (i_dir_level d) (chash d) (clevel d) (fi_update_dir d)
    (has_inline_xattr d) (pages d) v (d_warned d).
Definition dir_warn (b : bool) (d : dir_inode) : dir_inode :=
  mk_dir (i_size d) (i_nlink d) (i_current_depth d) (i_dir_level d) (chash d) (clevel d) (fi_update_dir d)
    (has_inline_xattr d) (pages d) (node_page d) (d_warned d || b).

(** What the kernel below answers during one call: an error for reading a block and for
    allocating one; 0 is success. *)
Record faults := mk_faults { rd_err : Z -> Z; new_err : Z -> Z }.

Definition no_faults : faults := mk_faults (fun _ => 0) (fun _ => 0).

(** The inode an entry refers to, as far as its directory is concerned. *)
Record child := mk_child { c_mode : Z; c_new : bool }.

(** * Levels, buckets and blocks *)

Definition MAX_DIR_HASH_DEPTH : Z := 63.
Definition MAX_DIR_BUCKETS : Z := Z.shiftl 1 (MAX_DIR_HASH_DEPTH / 2 - 1).

Definition dir_blocks (d : dir_inode) : Z :=
  Z.shiftr (u64 (i_size d + 2 ^ PAGE_CACHE_SHIFT - 1)) PAGE_CACHE_SHIFT.

Definition dir_buckets (level dir_level : Z) : Z :=
  if u32 (level + dir_level) <? MAX_DIR_HASH_DEPTH / 2 then Z.shiftl 1 (u32 (level + dir_level))
  else MAX_DIR_BUCKETS.

Definition bucket_blocks (level : Z) : Z := if level <? MAX_DIR_HASH_DEPTH / 2 then 2 else 4.

(** The products are of unsigned ints, the sum is an unsigned long. *)
Definition dir_block_index (level dir_level idx : Z) : Z :=
  let bidx := for_range 0 level
    (fun i bidx => u64 (bidx + u32 (dir_buckets i dir_level * bucket_blocks i))) 0 in
  u64 (bidx + u32 (idx * bucket_blocks level)).

(** * Blocks of the directory *)

(** [find_data_page] and [get_lock_data_page]: a hole is an error; an index the node tree
    cannot map is a [BUG()] of [get_node_path]. *)
Definition find_data_page (io : faults) (d : dir_inode) (index : Z) : outcome (Z + f2fs_dentry_block) :=
  if negb (rd_err io index =? 0) then Done (inl (rd_err io index))
  else
    match pages d !! index with
    | Some blk => Done (inr blk)
    | None =>
        match get_node_path (has_inline_xattr d) index with
        | None => Bug
        | Some _ => Done (inl (- ENOENT))
        end
    end.

Definition get_lock_data_page := find_data_page.

Definition get_new_data_page (io : faults) (d : dir_inode) (index : Z)
    : outcome ((Z + f2fs_dentry_block) * dir_inode) :=
  if negb (new_err io index =? 0) then Done (inl (new_err io index), d)
  else
    match get_node_path (has_inline_xattr d) index with
    | None => Bug
    | Some _ =>
        let blk := default zero_block (pages d !! index) in
        let d := with_pages (<[index := blk]> (pages d)) d in
        let size := u64 (Z.shiftl (index + 1) PAGE_CACHE_SHIFT) in
        let d := if i_size d <? size then with_flag true (with_size size d) else d in
        Done (inr blk, d)
    end.

(** [update_inode_page] on the fields kept here. *)
Definition update_inode_page (d : dir_inode) : dir_inode :=
  with_node_page (mk_raw_dir (i_size d) (i_nlink d) (i_current_depth d)) d.

(** * Lookup *)

(** The place of an entry: the block of the file and the slot in it. *)
Abbreviation place := (Z * Z)%type.

(** The loop of [find_in_level] over the blocks of the bucket: the place of the entry,
    [room], and whether an alarm of [find_in_block] was raised. *)
Fixpoint level_loop (fuel : nat) (io : faults) (d : dir_inode) (fname : f2fs_filename)
    (namehash s bidx end_block : Z) (room warned : bool) : outcome (option place * bool * bool) :=
  match fuel with
  | O => Spins
  | S fuel =>
      if bidx <? end_block then
        page ← find_data_page io d bidx;
        match page with
        | inl _ => level_loop fuel io d fname namehash s (u32 (bidx + 1)) end_block true warned
        | inr blk =>
            '(de, max_slots, bug) ← find_in_block blk fname namehash;
            match de with
            | Some bit_pos => Done (Some (bidx, bit_pos), room, warned || bug)
            | None => level_loop fuel io d fname namehash s (u32 (bidx + 1)) end_block
                        (if s <=? max_slots then true else room) (warned || bug)
            end
        end
      else Done (None, room, warned)
  end.

Definition find_in_level (io : faults) (d : dir_inode) (level : Z) (fname : f2fs_filename)
    : outcome (option place * dir_inode) :=
  let name := disk_name fname in
  let s := GET_DENTRY_SLOTS (zlen name) in
  let namehash := f2fs_dentry_hash name in
  let d := dir_warn (MAX_DIR_HASH_DEPTH <? level) d in
  let nbucket := dir_buckets level (i_dir_level d) in
  let nblock := bucket_blocks level in
  let bidx := u32 (dir_block_index level (i_dir_level d) (namehash mod nbucket)) in
  let end_block := u32 (bidx + nblock) in
  '(de, room, bug) ← level_loop (S (Z.to_nat nblock)) io d fname namehash s bidx end_block false false;
  let d := dir_warn bug d in
  match de with
  | None => if room && negb (chash d =? namehash) then Done (None, with_hint namehash level d) else Done (None, d)
  | Some p => Done (Some p, d)
  end.

Fixpoint find_levels (fuel : nat) (io : faults) (d : dir_inode) (fname : f2fs_filename)
    (level max_depth : Z) : outcome (option place * dir_inode) :=
  match fuel with
  | O => Spins
  | S fuel =>
      if level <? max_depth then
        '(de, d) ← find_in_level io d level fname;
        match de with
        | Some p => Done (Some p, d)
        | None => find_levels fuel io d fname (level + 1) max_depth
        end
      else Done (None, d)
  end.

(** [f2fs_fname_setup_filename] of a build without encryption: the name itself, no hash. *)
Definition f2fs_fname_setup_filename (iname : list Z) : f2fs_filename := mk_fname iname 0.

Definition f2fs_find_entry (io : faults) (d : dir_inode) (child : list Z)
    : outcome (option place * dir_inode) :=
  let npages := dir_blocks d in
  let fname := f2fs_fname_setup_filename child in
  if npages =? 0 then Done (None, d)
  else
    let max_depth := i_current_depth d in
    find_levels (S (Z.to_nat max_depth)) io d fname 0 max_depth.

(** The entry [..], by its place. *)
Definition f2fs_parent_dir (io : faults) (d : dir_inode) : outcome (option place) :=
  page ← get_lock_data_page io d 0;
  match page with
  | inl _ => Done None
  | inr _ => Done (Some (0, 1))
  end.

Definition block_at (d : dir_inode) (b : Z) : f2fs_dentry_block := default zero_block (pages d !! b).

Definition f2fs_inode_by_name (io : faults) (d : dir_inode) (name : list Z) : outcome (Z * dir_inode) :=
  '(de, d) ← f2fs_find_entry io d name;
  match de with
  | Some (b, p) => Done (de_ino ((dentry (block_at d b)).[p]), d)
  | None => Done (0, d)
  end.

(** * Changing entries *)

Definition f2fs_set_link (d : dir_inode) (de : place) (ino mode : Z) : dir_inode :=
  let '(b, p) := de in with_pages (<[b := set_link (block_at d b) p ino mode]> (pages d)) d.

Definition update_parent_metadata (d : dir_inode) (inode : option child) (current_depth : Z) : dir_inode :=
  let d :=
    match inode with
    | Some c => if c_new c && S_ISDIR (c_mode c) then with_flag true (with_nlink (u32 (i_nlink d + 1)) d) else d
    | None => d
    end in
  if negb (i_current_depth d =? current_depth) then with_flag true (with_depth current_depth d) else d.

(** The loop of [__f2fs_add_link] over the blocks of a bucket: an error, the block and
    slot with room, or nothing. *)
Fixpoint bucket_loop (fuel : nat) (io : faults) (d : dir_inode) (slots block last : Z)
    : outcome ((Z + option place) * dir_inode) :=
  match fuel with
  | O => Spins
  | S fuel =>
      if block <=? last then
        '(page, d) ← get_new_data_page io d block;
        match page with
        | inl err => Done (inl err, d)
        | inr blk =>
            bit_pos ← room_for_filename (dentry_bitmap blk) slots NR_DENTRY_IN_BLOCK;
            if bit_pos <? NR_DENTRY_IN_BLOCK then Done (inr (Some (block, bit_pos)), d)
            else bucket_loop fuel io d slots (u64 (block + 1)) last
        end
      else Done (inr None, d)
  end.

(** The loop over the levels, from the label [start]: an error, or the place found and
    the new number of levels. *)
Fixpoint add_loop (fuel : nat) (io : faults) (d : dir_inode) (dentry_hash slots level current_depth : Z)
    : outcome ((Z + place * Z) * dir_inode) :=
  match fuel with
  | O => Spins
  | S fuel =>
      if current_depth =? MAX_DIR_HASH_DEPTH then Done (inl (- ENOSPC), d)
      else
        let current_depth := if level =? current_depth then u32 (current_depth + 1) else current_depth in
        let nbucket := dir_buckets level (i_dir_level d) in
        let nblock := bucket_blocks level in
        let bidx := dir_block_index level (i_dir_level d) (dentry_hash mod nbucket) in
        '(r, d) ← bucket_loop (S (Z.to_nat nblock)) io d slots bidx (u64 (bidx + nblock - 1));
        match r with
        | inl err => Done (inl err, d)
        | inr (Some p) => Done (inr (p, current_depth), d)
        | inr None => add_loop fuel io d dentry_hash slots (u32 (level + 1)) current_depth
        end
  end.

(** [meta] is what [init_inode_metadata] returns for the child: 0 or an error. *)
Definition __f2fs_add_link (io : faults) (meta : Z) (d : dir_inode) (name : list Z)
    (inode : option child) (ino mode : Z) : outcome (Z * dir_inode) :=
  let new_name := disk_name (f2fs_fname_setup_filename name) in
  let slots := GET_DENTRY_SLOTS (zlen new_name) in
  let dentry_hash := f2fs_dentry_hash new_name in
  let current_depth := i_current_depth d in
  let '(level, d) := if chash d =? dentry_hash then (clevel d, with_hint 0 (clevel d) d) else (0, d) in
  '(r, d) ← add_loop (S (S (Z.to_nat MAX_DIR_HASH_DEPTH))) io d dentry_hash slots level current_depth;
  match r with
  | inl err => Done (err, d)
  | inr ((block, bit_pos), current_depth) =>
      let failed := match inode with Some _ => negb (meta =? 0) | None => false end in
      let d :=
        if failed then d
        else
          let blk := f2fs_update_dentry ino mode (block_at d block) new_name dentry_hash bit_pos in
          update_parent_metadata (with_pages (<[block := blk]> (pages d)) d) inode current_depth in
      let d := if fi_update_dir d then with_flag false (update_inode_page d) else d in
      Done (if failed then meta else 0, d)
  end.

(** [f2fs_drop_nlink], on the directory. *)
Definition f2fs_drop_nlink (d : dir_inode) (inode : child) : dir_inode :=
  if S_ISDIR (c_mode inode) then update_inode_page (with_nlink (u32 (i_nlink d - 1)) d) else d.

(** A block without entries is cut out of the file. *)
Definition f2fs_delete_entry (d : dir_inode) (de : place) (inode : option child) : dir_inode :=
  let '(b, p) := de in
  let blk := delete_slots (block_at d b) p in
  let bit_pos := find_next_bit (dentry_bitmap blk) NR_DENTRY_IN_BLOCK 0 in
  let d := with_pages (<[b := blk]> (pages d)) d in
  let d := match inode with Some c => f2fs_drop_nlink d c | None => d end in
  if bit_pos =? NR_DENTRY_IN_BLOCK then with_pages (delete b (pages d)) d else d.

(** * Whole directories *)

Fixpoint empty_loop (fuel : nat) (io : faults) (d : dir_inode) (bidx nblock : Z) : outcome bool :=
  match fuel with
  | O => Spins
  | S fuel =>
      if bidx <? nblock then
        page ← get_lock_data_page io d bidx;
        match page with
        | inl err => if err =? - ENOENT then empty_loop fuel io d (bidx + 1) nblock else Done false
        | inr blk =>
            let bit_pos := if bidx =? 0 then 2 else 0 in
            let bit_pos := find_next_bit (dentry_bitmap blk) NR_DENTRY_IN_BLOCK bit_pos in
            if bit_pos <? NR_DENTRY_IN_BLOCK then Done false else empty_loop fuel io d (bidx + 1) nblock
        end
      else Done true
  end.

Definition f2fs_empty_dir (io : faults) (d : dir_inode) : outcome bool :=
  empty_loop (S (Z.to_nat (dir_blocks d))) io d 0 (dir_blocks d).

(** [n] is an unsigned int, and so are its products. *)
Fixpoint readdir_loop (fuel : nat) (io : faults) (d : dir_inode) (ctx : dir_context) (n npages : Z)
    : outcome dir_context :=
  match fuel with
  | O => Spins
  | S fuel =>
      if n <? npages then
        page ← get_lock_data_page io d n;
        match page with
        | inl _ => readdir_loop fuel io d ctx (u32 (n + 1)) npages
        | inr blk =>
            '(stop, ctx) ← f2fs_fill_dentries ctx blk (u32 (n * NR_DENTRY_IN_BLOCK));
            if stop : bool then Done ctx
            else readdir_loop fuel io d (with_pos (u32 ((n + 1) * NR_DENTRY_IN_BLOCK)) ctx) (u32 (n + 1)) npages
        end
      else Done ctx
  end.

Definition f2fs_readdir (io : faults) (d : dir_inode) (ctx : dir_context) : outcome dir_context :=
  let npages := dir_blocks d in
  let n := u32 (u64 (ctx_pos ctx) / NR_DENTRY_IN_BLOCK) in
  readdir_loop (S (Z.to_nat (npages - n))) io d ctx n npages.

(** A directory as [f2fs_new_inode] leaves it: one level, no blocks, two links to come. *)
Definition new_dir (dir_level : Z) (xattr : bool) : dir_inode :=
  mk_dir 0 1 1 dir_level 0 0 false xattr ∅ (mk_raw_dir 0 0 0) false.

Definition make_empty_dir (io : faults) (d : dir_inode) (ino mode pino pmode : Z)
    : outcome (Z * dir_inode) :=
  '(page, d) ← get_new_data_page io d 0;
  match page with
  | inl err => Done (err, d)
  | inr blk => Done (0, with_pages (<[0 := do_make_empty_dir ino mode pino pmode blk]> (pages d)) d)
  end.
