(* ===== verification/DirInv.v ===== *)
(** The invariant of a directory: what its blocks hold, where entries may be, and that
    the raw inode is up to date; with the geometry of levels and buckets. *)

From Stdlib Require Import ZArith Lia Bool.
From stdpp Require Import base numbers list gmap sorting.
From S2P Require Import Prelude Layout NodePath Hash Dentry DentryOps Dir.

#[local] Open Scope Z_scope.
#[local] Ltac Zify.zify_post_hook ::= Z.to_euclidean_division_equations.

(** * Levels and buckets *)

Definition level_blocks (dl i : Z) : Z := u32 (dir_buckets i dl * bucket_blocks i).

Lemma block_index_sum level dl idx : 0 <= level <= 64 -> 
  dir_block_index level dl idx = u64 (sum_below (level_blocks dl) level + u32 (idx * bucket_blocks level)) /\
  0 <= sum_below (level_blocks dl) level <= 2 ^ 32 * level.
Proof.
  intros Hl; assert (H : for_range 0 level (fun i bidx => u64 (bidx + u32 (dir_buckets i dl * bucket_blocks i))) 0
    = sum_below (level_blocks dl) level /\ 0 <= sum_below (level_blocks dl) level <= 2 ^ 32 * level).
  { apply (for_range_ind (fun k s => s = sum_below (level_blocks dl) k /\ 0 <= sum_below (level_blocks dl) k <= 2 ^ 32 * k)); [lia | rewrite sum_below_0 by lia; split; [reflexivity | lia] |].
    intros i t Hi [-> Hs]; rewrite sum_below_succ by lia; pose proof (u32_range (dir_buckets i dl * bucket_blocks i)).
    fold (level_blocks dl i) in *; split; [apply u64_small |]; lia. }
  unfold dir_block_index; destruct H as [-> Hr]; split; [reflexivity | exact Hr].
Qed.

Lemma dir_buckets_small level dl : 0 <= level -> 0 <= dl -> level + dl < 31 -> dir_buckets level dl = 2 ^ (level + dl).
Proof.
  intros; unfold dir_buckets; rewrite u32_small by lia; change (MAX_DIR_HASH_DEPTH / 2) with 31.
  rewrite (proj2 (Z.ltb_lt (level + dl) 31)) by lia; rewrite Z.shiftl_mul_pow2 by lia; lia.
Qed.

Lemma dir_buckets_pos level dl : 0 <= level <= 64 -> 0 <= dl < 256 -> 0 < dir_buckets level dl <= 2 ^ 30.
Proof.
  intros Hl Hd; destruct (Z.lt_ge_cases (level + dl) 31) as [H | H].
  - rewrite dir_buckets_small by lia; split; [apply Z.pow_pos_nonneg; lia | apply Z.pow_le_mono_r; lia].
  - unfold dir_buckets; rewrite u32_small by lia; change (MAX_DIR_HASH_DEPTH / 2) with 31.
    rewrite (proj2 (Z.ltb_ge (level + dl) 31)) by lia; change MAX_DIR_BUCKETS with (2 ^ 30); lia.
Qed.

Lemma level_blocks_small dl i : 0 <= i -> 0 <= dl -> i + dl <= 30 -> level_blocks dl i = 2 ^ (i + dl + 1).
Proof.
  intros; unfold level_blocks; rewrite dir_buckets_small by lia; unfold bucket_blocks; change (MAX_DIR_HASH_DEPTH / 2) with 31.
  rewrite (proj2 (Z.ltb_lt i 31)) by lia; rewrite (Z.pow_add_r 2 (i + dl) 1) by lia; apply u32_small.
  pose proof (Z.pow_le_mono_r 2 (i + dl) 30); lia.
Qed.

Lemma level_start dl level : 0 <= dl -> 0 <= level -> level + dl <= 31 ->
  sum_below (level_blocks dl) level = 2 ^ (level + dl + 1) - 2 ^ (dl + 1).
Proof.
  intros Hd; revert level; apply (below_ind (fun level => level + dl <= 31 -> sum_below (level_blocks dl) level = 2 ^ (level + dl + 1) - 2 ^ (dl + 1))).
  - intros _; rewrite sum_below_0 by lia; change (0 + dl + 1) with (0 + dl + 1); rewrite Z.add_0_l; lia.
  - intros i Hi IH Hle; rewrite sum_below_succ, IH, level_blocks_small by lia.
    replace (i + 1 + dl + 1) with (Z.succ (i + dl + 1)) by lia; rewrite Z.pow_succ_r by lia; lia.
Qed.

(** The blocks of the bucket of hash [h] on a level. *)
Definition bucket_start (dl level h : Z) : Z := dir_block_index level dl (h mod dir_buckets level dl).

Definition in_bucket (dl level h b : Z) : Prop :=
  bucket_start dl level h <= b < bucket_start dl level h + bucket_blocks level.

(** A bucket of a small level lies between the start of its level and that of the next. *)
Lemma bucket_small dl level h : 0 <= dl -> 0 <= level -> level + dl <= 30 ->
  2 ^ (level + dl + 1) - 2 ^ (dl + 1) <= bucket_start dl level h /\
  bucket_start dl level h + bucket_blocks level <= 2 ^ (level + dl + 2) - 2 ^ (dl + 1) /\ bucket_blocks level = 2.
Proof.
  intros Hd Hl Hle; unfold bucket_start; destruct (block_index_sum level dl (h mod dir_buckets level dl)) as [-> Hr]; [lia|].
  assert (Hb : bucket_blocks level = 2) by (unfold bucket_blocks; change (MAX_DIR_HASH_DEPTH / 2) with 31; rewrite (proj2 (Z.ltb_lt level 31)) by lia; reflexivity).
  rewrite Hb, dir_buckets_small, level_start in * by lia.
  assert (0 < 2 ^ (level + dl)) by (apply Z.pow_pos_nonneg; lia); pose proof (Z.mod_pos_bound h (2 ^ (level + dl)) ltac:(lia)) as Hm.
  pose proof (Z.pow_le_mono_r 2 (level + dl) 30 ltac:(lia) ltac:(lia)).
  set (m := h mod 2 ^ (level + dl)) in *; clearbody m.
  replace (level + dl + 2) with (Z.succ (Z.succ (level + dl))) by lia; replace (level + dl + 1) with (Z.succ (level + dl)) in * by lia.
  rewrite !Z.pow_succ_r in * by lia; rewrite (u32_small (m * 2)) by lia.
  assert (2 ^ (dl + 1) <= 2 * 2 ^ (level + dl)) by (rewrite <- Z.pow_succ_r by lia; apply Z.pow_le_mono_r; lia).
  rewrite u64_small by lia; lia.
Qed.

(** Levels the node tree cannot hold. *)
Lemma bucket_large dl level h : 0 <= dl -> 1 <= level <= 64 -> 31 <= level + dl < 2 ^ 31 ->
  2 ^ 31 <= bucket_start dl level h.
Proof.
  intros Hd Hl Hle; unfold bucket_start; destruct (block_index_sum level dl (h mod dir_buckets level dl)) as [-> Hr]; [lia|].
  assert (Hex : exists i, 0 <= i < level /\ i <= 30 /\ 30 <= i + dl < 2 ^ 31) by (exists (Z.min (level - 1) 30); lia).
  destruct Hex as (i & Hi0 & Hi1 & Hi2).
  assert (Hi : level_blocks dl i = 2 ^ 31).
  { unfold level_blocks, dir_buckets, bucket_blocks; rewrite (u32_small (i + dl)) by lia; change (MAX_DIR_HASH_DEPTH / 2) with 31.
    rewrite (proj2 (Z.ltb_lt i 31)) by lia; destruct (i + dl <? 31) eqn:E; bool_cases; [|reflexivity].
    replace (i + dl) with 30 by lia; reflexivity. }
  pose proof (sum_below_ge_term (level_blocks dl) level i) as Hge; rewrite Hi in Hge.
  pose proof (u32_range (h mod dir_buckets level dl * bucket_blocks level)).
  rewrite u64_small by lia; apply Z.le_trans with (sum_below (level_blocks dl) level); [|lia].
  apply Hge; [lia | intros j Hj; apply u32_range].
Qed.

Lemma max_blocks_range x : 2 ^ 29 < max_blocks x < 2 ^ 30.
Proof. destruct x; vm_compute; split; reflexivity. Qed.

(** Up to this level every bucket is inside the node tree. *)
Lemma bucket_mapped dl level h b x : 0 <= dl -> 0 <= level -> level + dl <= 27 -> in_bucket dl level h b ->
  0 <= b < max_blocks x.
Proof.
  intros Hd Hl Hle [H1 H2]; destruct (bucket_small dl level h Hd Hl ltac:(lia)) as (Ha & Hb & _); pose proof (max_blocks_range x).
  assert (2 ^ (dl + 1) <= 2 ^ (level + dl + 1)) by (apply Z.pow_le_mono_r; lia).
  assert (2 ^ (level + dl + 2) <= 2 ^ 29) by (apply Z.pow_le_mono_r; lia).
  assert (0 < 2 ^ (dl + 1)) by (apply Z.pow_pos_nonneg; lia); lia.
Qed.

(** Buckets of different levels share no block of the node tree. *)
Lemma buckets_disjoint dl l l' h h' b x : 0 <= dl < 256 -> 0 <= l < l' -> l' <= 64 ->
  in_bucket dl l h b -> in_bucket dl l' h' b -> max_blocks x <= b.
Proof.
  intros Hd Hl Hl' [H1 H2] [H3 H4]; pose proof (max_blocks_range x).
  destruct (Z.le_gt_cases (l' + dl) 30) as [Hs | Hg].
  - destruct (bucket_small dl l h ltac:(lia) ltac:(lia) ltac:(lia)) as (_ & Hb & _).
    destruct (bucket_small dl l' h' ltac:(lia) ltac:(lia) Hs) as (Ha & _ & _).
    assert (2 ^ (l + dl + 2) <= 2 ^ (l' + dl + 1)) by (apply Z.pow_le_mono_r; lia); lia.
  - pose proof (bucket_large dl l' h' ltac:(lia) ltac:(lia) ltac:(lia)); lia.
Qed.

Lemma bucket_start_nonneg dl level h : 0 <= bucket_start dl level h.
Proof. unfold bucket_start, dir_block_index; cbv zeta; unfold u64; lia. Qed.

(** * The invariant *)

(** The entries of the directory, block by block. *)
Abbreviation contents := (gmap Z (list ent)).

Definition has (G : contents) (b : Z) (e : ent) : Prop := exists l, G !! b = Some l /\ e ∈ l.

(** The raw inode is up to date, or the flag says that it has to be written. *)
Definition synced (d : dir_inode) : Prop :=
  fi_update_dir d = true \/ node_page d = mk_raw_dir (i_size d) (i_nlink d) (i_current_depth d).

Definition blocks_hold (P : gmap Z f2fs_dentry_block) (G : contents) : Prop :=
  forall b, match P !! b, G !! b with
            | Some blk, Some l => holds blk l
            | None, None => True
            | _, _ => False
            end.

Record dir_ok (d : dir_inode) (G : contents) : Prop := {
  o_pages : blocks_hold (pages d) G;
  o_range : forall b l, G !! b = Some l -> 0 <= b < max_blocks (has_inline_xattr d) /\ Z.shiftl (b + 1) 12 <= i_size d;
  o_size : exists k, 1 <= k <= max_blocks (has_inline_xattr d) /\ i_size d = Z.shiftl k 12;
  o_place : forall b e, has G b e -> e_hash e = f2fs_dentry_hash (e_name e) /\
    exists level, 0 <= level < i_current_depth d /\ in_bucket (i_dir_level d) level (e_hash e) b;
  o_unique : forall b e b' e', has G b e -> has G b' e' -> e_name e = e_name e' -> b = b' /\ e = e';
  o_depth : 1 <= i_current_depth d <= MAX_DIR_HASH_DEPTH;
  o_level : 0 <= i_dir_level d < 256;
  o_hint : 0 <= clevel d < i_current_depth d;
  o_synced : synced d;
  o_calm : d_warned d = false;
  o_dots : exists i t i' t' l, G !! 0 = Some (mk_ent 0 [DOT] 0 i t :: mk_ent 1 [DOT; DOT] 0 i' t' :: l);
}.

(** A lookup changes the hint only. *)
Definition hinted (d d' : dir_inode) : Prop :=
  d' = d \/ exists h l, d' = with_hint h l d /\ 0 <= l < i_current_depth d.

Lemma hinted_ok d d' G : dir_ok d G -> hinted d d' -> dir_ok d' G.
Proof. intros H [-> | (h & l & -> & Hl)]; [exact H|]; destruct H; split; assumption. Qed.

Lemma hinted_trans d d1 d2 : hinted d d1 -> hinted d1 d2 -> hinted d d2.
Proof.
  intros [-> | (h & l & -> & Hl)] [-> | (h' & l' & -> & Hl')]; [left; reflexivity | right | right | right]; eauto.
Qed.

Lemma dir_warn_false d : dir_warn false d = d.
Proof. destruct d; unfold dir_warn; cbn; rewrite orb_false_r; reflexivity. Qed.

Lemma o_block d G b blk : dir_ok d G -> pages d !! b = Some blk -> exists l, G !! b = Some l /\ holds blk l.
Proof. intros H E; pose proof (o_pages _ _ H b) as Hb; rewrite E in Hb; destruct (G !! b) as [l|]; [eauto | contradiction]. Qed.

Lemma o_hole d G b : dir_ok d G -> pages d !! b = None -> G !! b = None.
Proof. intros H E; pose proof (o_pages _ _ H b) as Hb; rewrite E in Hb; destruct (G !! b); [contradiction | reflexivity]. Qed.

Lemma block_at_holds d G b l : dir_ok d G -> G !! b = Some l -> pages d !! b = Some (block_at d b) /\ holds (block_at d b) l.
Proof.
  intros H E; pose proof (o_pages _ _ H b) as Hb; rewrite E in Hb; unfold block_at; destruct (pages d !! b); [split; [reflexivity | exact Hb] | contradiction].
Qed.

Lemma dir_blocks_ok d G : dir_ok d G -> 0 < dir_blocks d <= max_blocks (has_inline_xattr d) /\ i_size d = Z.shiftl (dir_blocks d) 12.
Proof.
  intros H; destruct (o_size _ _ H) as (k & Hk & E); pose proof (max_blocks_range (has_inline_xattr d)).
  assert (dir_blocks d = k) as ->; [|split; [lia | exact E]].
  unfold dir_blocks, PAGE_CACHE_SHIFT; rewrite E, Z.shiftl_mul_pow2, Z.shiftr_div_pow2 by lia.
  change (2 ^ 12) with 4096; rewrite u64_small by lia; lia.
Qed.

Lemma has_range d G b e : dir_ok d G -> has G b e -> 0 <= b < dir_blocks d.
Proof.
  intros H (l & E & _); destruct (o_range _ _ H b l E) as [Hb Hs]; destruct (dir_blocks_ok _ _ H) as [_ Es].
  rewrite Es, !Z.shiftl_mul_pow2 in Hs by lia; lia.
Qed.

(** * Lookup *)

Definition reads_fine (io : faults) : Prop := forall b, rd_err io b = 0.

(** An entry in a block that can be read. *)
Definition visible (io : faults) (G : contents) (b : Z) (e : ent) : Prop := has G b e /\ rd_err io b = 0.

(** No block in the range shows the name. *)
Definition absent (io : faults) (G : contents) (name : list Z) (lo hi : Z) : Prop :=
  forall b e, visible io G b e -> lo <= b < hi -> e_name e <> name.

Lemma level_loop_ok io d G fuel name s bidx end_block room : dir_ok d G ->
  0 <= bidx -> 0 <= end_block < 2 ^ 32 -> end_block - bidx < Z.of_nat fuel -> 0 < Z.of_nat fuel ->
  match level_loop fuel io d (mk_fname name 0) (f2fs_dentry_hash name) s bidx end_block room false with
  | Done (Some (b, p), _, w) => w = false /\ exists e, visible io G b e /\ e_pos e = p /\ e_name e = name
  | Done (None, _, w) => w = false /\ absent io G name bidx end_block
  | Bug => bidx < end_block /\ max_blocks (has_inline_xattr d) < end_block
  | Spins => False
  end.
Proof.
  intros Hok; revert bidx room; induction fuel as [|fuel IH]; intros bidx room Hb He Hf Hf0; [lia|]; cbn [level_loop].
  destruct (bidx <? end_block) eqn:E; bool_cases; [|split; [reflexivity | intros b e _ Hr; lia]].
  assert (Hnext : forall room', absent io G name bidx (bidx + 1) ->
    match level_loop fuel io d (mk_fname name 0) (f2fs_dentry_hash name) s (u32 (bidx + 1)) end_block room' false with
    | Done (Some (b, p), _, w) => w = false /\ exists e, visible io G b e /\ e_pos e = p /\ e_name e = name
    | Done (None, _, w) => w = false /\ absent io G name bidx end_block
    | Bug => bidx < end_block /\ max_blocks (has_inline_xattr d) < end_block
    | Spins => False
    end).
  { intros room' Ha; rewrite u32_small by lia; specialize (IH (bidx + 1) room' ltac:(lia) He ltac:(lia) ltac:(lia)).
    destruct (level_loop fuel io d _ _ s (bidx + 1) end_block room' false) as [[[[[b p]|] r] w] | |]; [exact IH | | lia | exact IH].
    destruct IH as [-> IH]; split; [reflexivity|]; intros b e Hh Hr; destruct (Z.eq_dec b bidx) as [-> | Hne]; [apply (Ha bidx e Hh); lia | apply (IH b e Hh); lia]. }
  unfold find_data_page; destruct (rd_err io bidx =? 0) eqn:Er; bool_cases; cbn [negb mbind outcome_bind].
  2:{ apply Hnext; intros b e [_ Hv] Hr; replace b with bidx in Hv by lia; contradiction. }
  destruct (pages d !! bidx) as [blk|] eqn:Ep.
  - destruct (o_block _ _ _ _ Hok Ep) as (l & EG & Hh); cbn [mbind outcome_bind].
    destruct (find_in_block_ok blk l name (f2fs_dentry_hash name) Hh) as [ms ->]; cbn [mbind outcome_bind].
    destruct (find (wanted name (f2fs_dentry_hash name)) l) as [e|] eqn:Ef; cbn [fmap option_fmap option_map orb].
    + apply find_some in Ef as [Hin Hw]; apply andb_true_iff in Hw as [Hn%bool_decide_eq_true _].
      split; [reflexivity|]; exists e; split; [split; [exists l; split; [exact EG | apply list_elem_of_In; exact Hin] | exact Er] | auto].
    + apply Hnext; intros b e [(l' & El & Hin) _] Hr Hn; replace b with bidx in El by lia; rewrite EG in El; injection El as <-.
      pose proof (find_none _ _ Ef e (proj1 (list_elem_of_In _ _) Hin)) as Hw.
      destruct (o_place _ _ Hok bidx e) as [Hh' _]; [exists l; auto|].
      unfold wanted in Hw; rewrite (bool_decide_true (e_name e = name)), Hh', Hn, Z.eqb_refl in Hw by exact Hn; discriminate.
  - destruct (get_node_path (has_inline_xattr d) bidx) eqn:Eg.
    + apply Hnext; intros b e [(l' & El & Hin) _] Hr; replace b with bidx in El by lia; rewrite (o_hole _ _ _ Hok Ep) in El; discriminate.
    + cbn; apply get_node_path_None in Eg; lia.
Qed.

Lemma bucket_blocks_cases level : bucket_blocks level = 2 \/ bucket_blocks level = 4.
Proof. unfold bucket_blocks; case_ifs; auto. Qed.

(** A block of the node tree is in the bucket in 32-bit arithmetic too. *)
Lemma in_bucket_u32 dl level h b x : in_bucket dl level h b -> b < max_blocks x ->
  u32 (bucket_start dl level h) <= b < u32 (u32 (bucket_start dl level h) + bucket_blocks level).
Proof.
  intros [H1 H2] Hb; pose proof (max_blocks_range x); pose proof (bucket_start_nonneg dl level h); destruct (bucket_blocks_cases level) as [E|E];
    rewrite E in *; rewrite (u32_small (bucket_start dl level h)) by lia; rewrite u32_small by lia; lia.
Qed.

Lemma find_in_level_ok io d G level name : dir_ok d G -> 0 <= level < i_current_depth d ->
  match find_in_level io d level (mk_fname name 0) with
  | Done (Some (b, p), d') => d' = d /\ exists e, visible io G b e /\ e_pos e = p /\ e_name e = name
  | Done (None, d') => hinted d d' /\
      forall b e, visible io G b e -> in_bucket (i_dir_level d) level (e_hash e) b -> e_name e <> name
  | Bug => 28 <= level + i_dir_level d
  | Spins => False
  end.
Proof.
  intros Hok Hl; unfold find_in_level; cbn [disk_name]; destruct (o_depth _ _ Hok) as [Hd1 Hd2].
  rewrite (proj2 (Z.ltb_ge MAX_DIR_HASH_DEPTH level)) by lia; rewrite dir_warn_false.
  set (h := f2fs_dentry_hash name); fold (bucket_start (i_dir_level d) level h).
  set (bs := u32 (bucket_start (i_dir_level d) level h)); set (eb := u32 (bs + bucket_blocks level)).
  pose proof (level_loop_ok io d G (S (Z.to_nat (bucket_blocks level))) name (GET_DENTRY_SLOTS (zlen name)) bs eb false Hok) as HL.
  pose proof (u32_range (bucket_start (i_dir_level d) level h)) as Hbs; fold bs in Hbs.
  assert (Heb : 0 <= eb < 2 ^ 32 /\ eb - bs <= bucket_blocks level).
  { pose proof (u32_range (bs + bucket_blocks level)); assert (eb <= bs + bucket_blocks level) by (apply Z.mod_le; destruct (bucket_blocks_cases level); lia).
    fold eb in H; lia. }
  specialize (HL ltac:(lia) ltac:(lia) ltac:(lia) ltac:(lia)); fold h in HL.
  destruct (level_loop _ io d _ h _ bs eb false false) as [[[[[b p]|] room] w] | |]; cbn [mbind outcome_bind].
  - destruct HL as [-> HL]; rewrite dir_warn_false; split; [reflexivity | exact HL].
  - destruct HL as [-> HL]; rewrite dir_warn_false.
    assert (Hab : forall b e, visible io G b e -> in_bucket (i_dir_level d) level (e_hash e) b -> e_name e <> name).
    { intros b e [Hh Hv] Hin Hn; destruct (o_place _ _ Hok b e Hh) as [Eh _]; rewrite Eh, Hn in Hin; fold h in Hin.
      destruct Hh as (l & El & Hel); destruct (o_range _ _ Hok b l El) as [Hr _].
      apply (HL b e); [split; [exists l; auto | exact Hv] | apply (in_bucket_u32 _ _ _ _ (has_inline_xattr d) Hin); lia | exact Hn]. }
    destruct (room && negb (chash d =? h)); split; try exact Hab; [right; exists h, level; auto | left; reflexivity].
  - destruct HL as [H1 H2]; destruct (Z.le_gt_cases 28 (level + i_dir_level d)) as [|Hg]; [assumption|exfalso].
    pose proof (o_level _ _ Hok); destruct (bucket_small (i_dir_level d) level h) as (Ha & Hb & Hbb); [lia..|].
    assert (Hin : in_bucket (i_dir_level d) level h (bucket_start (i_dir_level d) level h + 1)) by (split; lia).
    pose proof (bucket_mapped (i_dir_level d) level h _ (has_inline_xattr d) ltac:(lia) ltac:(lia) ltac:(lia) Hin) as Hm.
    pose proof (max_blocks_range (has_inline_xattr d)); pose proof (bucket_start_nonneg (i_dir_level d) level h).
    unfold eb, bs in H2; rewrite Hbb in H2; rewrite (u32_small (bucket_start _ _ _)), u32_small in H2 by lia; lia.
  - exact HL.
Qed.

Lemma find_levels_ok io d G fuel name level : dir_ok d G ->
  0 <= level -> i_current_depth d - level < Z.of_nat fuel -> 0 < Z.of_nat fuel ->
  (forall b e k, visible io G b e -> 0 <= k < level -> in_bucket (i_dir_level d) k (e_hash e) b -> e_name e <> name) ->
  match find_levels fuel io d (mk_fname name 0) level (i_current_depth d) with
  | Done (Some (b, p), d') => hinted d d' /\ exists e, visible io G b e /\ e_pos e = p /\ e_name e = name
  | Done (None, d') => hinted d d' /\ forall b e, visible io G b e -> e_name e <> name
  | Bug => 29 <= i_current_depth d + i_dir_level d
  | Spins => False
  end.
Proof.
  revert d level; induction fuel as [|fuel IH]; intros d level Hok Hl Hf Hf0 Hpre; [lia|]; cbn [find_levels].
  destruct (level <? i_current_depth d) eqn:E; bool_cases.
  - pose proof (find_in_level_ok io d G level name Hok ltac:(lia)) as HL.
    destruct (find_in_level io d level (mk_fname name 0)) as [[[[b p]|] d'] | |]; cbn [mbind outcome_bind]; [| |lia|exact HL].
    + destruct HL as [-> HL]; split; [left; reflexivity | exact HL].
    + destruct HL as [Hhint HL].
      assert (Hsame : i_current_depth d' = i_current_depth d /\ i_dir_level d' = i_dir_level d) by (destruct Hhint as [-> | (h & l & -> & _)]; auto).
      destruct Hsame as [Ed El]; specialize (IH d' (level + 1) (hinted_ok _ _ _ Hok Hhint)); rewrite Ed, El in IH.
      specialize (IH ltac:(lia) ltac:(lia) ltac:(lia)); lapply IH.
      2:{ intros b e k Hh Hk Hin; destruct (Z.eq_dec k level) as [-> | Hne]; [apply (HL b e Hh Hin) | apply (Hpre b e k Hh); [lia | exact Hin]]. }
      intros Hres; destruct (find_levels fuel io d' _ (level + 1) _) as [[[[b p]|] d''] | |]; [| |exact Hres|exact Hres];
        destruct Hres as [H1 H2]; (split; [exact (hinted_trans _ _ _ Hhint H1) | exact H2]).
  - split; [left; reflexivity|]; intros b e [Hh Hv] Hn; destruct (o_place _ _ Hok b e Hh) as (_ & k & Hk & Hin); apply (Hpre b e k (conj Hh Hv)); [lia | exact Hin | exact Hn].
Qed.

(** A lookup returns the place of the entry with the name, and nothing only when no block
    that can be read has it. *)
Lemma find_entry_ok io d G name : dir_ok d G ->
  match f2fs_find_entry io d name with
  | Done (Some (b, p), d') => hinted d d' /\ exists e, visible io G b e /\ e_pos e = p /\ e_name e = name
  | Done (None, d') => hinted d d' /\ forall b e, visible io G b e -> e_name e <> name
  | Bug => 29 <= i_current_depth d + i_dir_level d
  | Spins => False
  end.
Proof.
  intros Hok; unfold f2fs_find_entry, f2fs_fname_setup_filename; destruct (dir_blocks_ok _ _ Hok) as [Hb _].
  rewrite (proj2 (Z.eqb_neq (dir_blocks d) 0)) by lia; pose proof (o_depth _ _ Hok).
  apply find_levels_ok; [assumption.. | lia | lia | lia | intros; lia].
Qed.
