(* ===== verification/DirOps.v ===== *)
(** Adding, removing and relinking an entry of a directory keep its invariant and change
    exactly that entry (src/Max/dir.c: __f2fs_add_link, f2fs_delete_entry, f2fs_set_link,
    make_empty_dir). *)

From Stdlib Require Import ZArith Lia Bool.
From stdpp Require Import base numbers list gmap sorting.
From S2P Require Import Prelude Layout NodePath Hash Dentry DentryOps Dir DirInv.

#[local] Open Scope Z_scope.
#[local] Ltac Zify.zify_post_hook ::= Z.to_euclidean_division_equations.

Definition same_ents (G G' : contents) : Prop := forall b e, has G b e <-> has G' b e.

(** Empty blocks may come in, and the size with them. *)
Record grown (d d' : dir_inode) : Prop := {
  g_nlink : i_nlink d' = i_nlink d;
  g_depth : i_current_depth d' = i_current_depth d;
  g_level : i_dir_level d' = i_dir_level d;
  g_xattr : has_inline_xattr d' = has_inline_xattr d;
}.

Lemma grown_refl d : grown d d.
Proof. split; reflexivity. Qed.

Lemma grown_trans d d1 d2 : grown d d1 -> grown d1 d2 -> grown d d2.
Proof. intros [] []; split; congruence. Qed.

Lemma same_refl G : same_ents G G.
Proof. intros b e; reflexivity. Qed.

Lemma same_trans G G1 G2 : same_ents G G1 -> same_ents G1 G2 -> same_ents G G2.
Proof. intros H1 H2 b e; rewrite (H1 b e); apply H2. Qed.

(** * New blocks *)

Definition add_block (G : contents) (b : Z) : contents :=
  match G !! b with Some _ => G | None => <[b := []]> G end.

Lemma add_block_lookup G b b' : add_block G b !! b' = match G !! b' with Some l => Some l | None => if decide (b = b') then Some [] else None end.
Proof.
  unfold add_block; destruct (G !! b) as [l|] eqn:E; destruct (decide (b = b')) as [<- | Hne].
  - rewrite E; reflexivity.
  - destruct (G !! b'); reflexivity.
  - rewrite lookup_insert_eq, E; reflexivity.
  - rewrite lookup_insert_ne by exact Hne; destruct (G !! b'); reflexivity.
Qed.

Lemma add_block_same G b : same_ents G (add_block G b).
Proof.
  intros b' e; split; intros (l & E & Hl); exists l; (split; [|exact Hl]); rewrite add_block_lookup in *; [rewrite E; reflexivity|].
  destruct (G !! b') as [l'|]; [exact E|]; destruct (decide (b = b')); [injection E as <-; inversion Hl | discriminate].
Qed.

Lemma add_block_hold P G b : blocks_hold P G -> blocks_hold (<[b := default zero_block (P !! b)]> P) (add_block G b).
Proof.
  intros H b'; specialize (H b'); rewrite add_block_lookup; destruct (decide (b = b')) as [<- | Hne].
  - rewrite lookup_insert_eq; destruct (P !! b), (G !! b); cbn; try contradiction; [exact H | apply zero_block_ok].
  - rewrite lookup_insert_ne by exact Hne; destruct (P !! b'), (G !! b'); assumption.
Qed.

Lemma get_new_ok io d G b : dir_ok d G -> 0 <= b ->
  match get_new_data_page io d b with
  | Done (inl err, d') => d' = d /\ err <> 0
  | Done (inr blk, d') => dir_ok d' (add_block G b) /\ grown d d' /\ pages d' !! b = Some blk
  | Bug => max_blocks (has_inline_xattr d) <= b
  | Spins => False
  end.
Proof.
  intros Hok Hb; unfold get_new_data_page; destruct (new_err io b =? 0) eqn:En; cbn [negb]; bool_cases; [|split; [reflexivity | assumption]].
  destruct (get_node_path (has_inline_xattr d) b) eqn:Eg; [|apply get_node_path_None; assumption].
  assert (Hm : b < max_blocks (has_inline_xattr d)).
  { destruct (Z.lt_ge_cases b (max_blocks (has_inline_xattr d))); [assumption|]; apply get_node_path_None in H; [congruence | assumption]. }
  pose proof (max_blocks_range (has_inline_xattr d)); set (size := u64 _).
  assert (Es : size = Z.shiftl (b + 1) 12) by (unfold size, PAGE_CACHE_SHIFT; rewrite Z.shiftl_mul_pow2 by lia; apply u64_small; lia).
  set (d1 := with_pages _ d); set (d2 := if i_size d1 <? size then _ else d1).
  assert (Hsz : i_size d2 = Z.max (i_size d) size /\ grown d d2 /\ pages d2 = pages d1 /\ clevel d2 = clevel d /\ synced d2 /\ d_warned d2 = d_warned d).
  { unfold d2, d1; destruct (i_size (with_pages _ d) <? size) eqn:E; bool_cases; cbn in E |- *; (split; [lia|]); (split; [split; reflexivity|]);
      repeat split; [left; reflexivity | exact (o_synced _ _ Hok)]. }
  destruct Hsz as (Hsz & Hgr & Hpg & Hcl & Hsy & Hw); split; [|split; [exact Hgr | rewrite Hpg; apply lookup_insert_eq]].
  destruct Hgr as [Gn Gd Gl Gx]; split; rewrite ?Gd, ?Gl, ?Gx, ?Hcl, ?Hsz.
  - rewrite Hpg; apply add_block_hold, Hok.
  - intros b' l; rewrite add_block_lookup; destruct (G !! b') as [l'|] eqn:E.
    + intros _; destruct (o_range _ _ Hok b' l' E); lia.
    + destruct (decide (b = b')) as [<- | _]; [intros _; lia | discriminate].
  - destruct (o_size _ _ Hok) as (k & Hk & Ek); exists (Z.max k (b + 1)); split; [lia|]; rewrite Ek, Es, !Z.shiftl_mul_pow2 by lia; lia.
  - intros b' e Hh; apply add_block_same in Hh; exact (o_place _ _ Hok b' e Hh).
  - intros b1 e1 b2 e2 H1 H2; apply add_block_same in H1, H2; exact (o_unique _ _ Hok b1 e1 b2 e2 H1 H2).
  - exact (o_depth _ _ Hok).
  - exact (o_level _ _ Hok).
  - exact (o_hint _ _ Hok).
  - exact Hsy.
  - rewrite Hw; exact (o_calm _ _ Hok).
  - destruct (o_dots _ _ Hok) as (i & t & i' & t' & l & E); exists i, t, i', t', l; rewrite add_block_lookup, E; reflexivity.
Qed.

(** * The search for a place *)

(** A block of the directory without room for [slots] slots. *)
Definition no_room (d : dir_inode) (slots b : Z) : Prop :=
  exists blk, pages d !! b = Some blk /\
    forall p, 0 <= p -> p + slots <= NR_DENTRY_IN_BLOCK -> ~ free_run (dentry_bitmap blk) p slots.

(** Room for [slots] slots at a place. *)
Definition room_at (d : dir_inode) (slots : Z) (pl : place) : Prop :=
  exists blk, pages d !! fst pl = Some blk /\ 0 <= snd pl /\ snd pl + slots <= NR_DENTRY_IN_BLOCK /\
    free_run (dentry_bitmap blk) (snd pl) slots.

(** [room_for_filename] ends, and finds the first run that is long enough if there is one. *)
Lemma room_ok blk slots : 1 <= slots ->
  exists r, room_for_filename (dentry_bitmap blk) slots NR_DENTRY_IN_BLOCK = Done r /\
    (forall p, 0 <= p < r -> p + slots <= NR_DENTRY_IN_BLOCK -> ~ free_run (dentry_bitmap blk) p slots) /\
    (r = NR_DENTRY_IN_BLOCK \/ (0 <= r /\ r + slots <= NR_DENTRY_IN_BLOCK /\ free_run (dentry_bitmap blk) r slots)).
Proof. intros Hs; apply room_loop_ok; [exact Hs | unfold NR_DENTRY_IN_BLOCK; lia.. | intros; lia]. Qed.

Lemma get_new_keeps io d b b' blk d' : get_new_data_page io d b = Done (inr blk, d') -> b' <> b -> pages d' !! b' = pages d !! b'.
Proof.
  unfold get_new_data_page; destruct (negb _); [discriminate|]; destruct (get_node_path _ _); [|discriminate].
  intros [= <- <-] Hne; destruct (_ <? _); cbn; apply lookup_insert_ne; congruence.
Qed.

(** The blocks already there stay as they are. *)
Definition extends (d d' : dir_inode) : Prop := forall b blk, pages d !! b = Some blk -> pages d' !! b = Some blk.

Lemma get_new_extends io d b blk d' : get_new_data_page io d b = Done (inr blk, d') -> extends d d'.
Proof.
  intros E b' blk' Hb; destruct (Z.eq_dec b' b) as [-> | Hne]; [|rewrite (get_new_keeps _ _ _ _ _ _ E Hne); exact Hb].
  unfold get_new_data_page in E; destruct (negb _); [discriminate|]; destruct (get_node_path _ _); [|discriminate].
  injection E as <- <-; destruct (_ <? _); cbn; rewrite lookup_insert_eq, Hb; reflexivity.
Qed.

Lemma no_room_extends d d' slots b : extends d d' -> no_room d slots b -> no_room d' slots b.
Proof. intros He (blk & E & H); exists blk; split; [apply He; exact E | exact H]. Qed.

Lemma bucket_loop_ok io d G fuel slots b last : dir_ok d G -> 1 <= slots -> 0 <= b -> last < 2 ^ 63 ->
  last + 1 - b < Z.of_nat fuel -> 0 < Z.of_nat fuel ->
  match bucket_loop fuel io d slots b last with
  | Done (r, d') => (exists G', dir_ok d' G' /\ same_ents G G') /\ grown d d' /\ extends d d' /\
      match r with
      | inl err => err <> 0
      | inr (Some pl) => b <= fst pl <= last /\ room_at d' slots pl
      | inr None => forall b', b <= b' <= last -> no_room d' slots b'
      end
  | Bug => b <= last /\ max_blocks (has_inline_xattr d) <= last
  | Spins => False
  end.
Proof.
  revert d G b; induction fuel as [|fuel IH]; intros d G b Hok Hs Hb Hl Hf Hf0; [lia|]; cbn [bucket_loop].
  destruct (b <=? last) eqn:E; bool_cases.
  2:{ split; [exists G; split; [exact Hok | apply same_refl]|]; split; [apply grown_refl|]; split; [intros ? ? H; exact H | intros; lia]. }
  pose proof (get_new_ok io d G b Hok Hb) as HG; destruct (get_new_data_page io d b) as [[[err | blk] d1] | |] eqn:En; cbn [mbind outcome_bind]; [| |lia|exact HG].
  - destruct HG as [-> He]; split; [exists G; split; [exact Hok | apply same_refl]|]; split; [apply grown_refl|]; split; [intros ? ? H; exact H | exact He].
  - destruct HG as (Hok1 & Hg1 & Ep1); pose proof (get_new_extends _ _ _ _ _ En) as He1.
    destruct (room_ok blk slots Hs) as (r & -> & Hno & Hr); cbn [mbind outcome_bind].
    destruct (r <? NR_DENTRY_IN_BLOCK) eqn:Er; bool_cases.
    + split; [exists (add_block G b); split; [exact Hok1 | apply add_block_same]|]; split; [exact Hg1|]; split; [exact He1|].
      cbn [fst snd]; split; [lia|]; exists blk; destruct Hr as [Hr | Hr]; [lia|]; split; [exact Ep1 | exact Hr].
    + rewrite u64_small by lia; specialize (IH d1 (add_block G b) (b + 1) Hok1 Hs ltac:(lia) Hl ltac:(lia) ltac:(lia)).
      destruct (bucket_loop fuel io d1 slots (b + 1) last) as [[res d2] | |]; [|rewrite (g_xattr _ _ Hg1) in IH; lia | exact IH].
      destruct IH as ((G' & Hok2 & Hs2) & Hg2 & He2 & HR); split; [|split; [|split]].
      * exists G'; split; [exact Hok2 | exact (same_trans _ _ _ (add_block_same G b) Hs2)].
      * exact (grown_trans _ _ _ Hg1 Hg2).
      * intros b' blk' H; apply He2, He1, H.
      * destruct res as [err | [pl|]]; [exact HR | destruct HR as [HR1 HR2]; split; [lia | exact HR2]|].
        intros b' Hb'; destruct (Z.eq_dec b' b) as [-> | Hne]; [|apply HR; lia].
        apply (no_room_extends d1 d2 slots b He2); exists blk; split; [exact Ep1|].
        intros p Hp Hps; apply Hno; [destruct Hr as [-> | Hr]; lia | exact Hps].
Qed.

(** A level no entry has been put on yet has room. *)
Lemma fresh_level_room d G slots h : dir_ok d G -> 1 <= slots <= 32 ->
  no_room d slots (bucket_start (i_dir_level d) (i_current_depth d) h) -> False.
Proof.
  intros Hok Hs (blk & Ep & Hno); set (b := bucket_start _ _ h) in *; destruct (o_block _ _ _ _ Hok Ep) as (l & EG & Hh).
  assert (El : l = []).
  { destruct l as [|e l]; [reflexivity|exfalso]; destruct (o_place _ _ Hok b e) as (_ & k & Hk & Hin); [exists (e :: l); split; [exact EG | left]|].
    destruct (o_range _ _ Hok _ _ EG) as [Hr _]; pose proof (o_depth _ _ Hok) as Hd; unfold MAX_DIR_HASH_DEPTH in Hd.
    assert (Hin' : in_bucket (i_dir_level d) (i_current_depth d) h b) by (split; [lia | fold b; destruct (bucket_blocks_cases (i_current_depth d)); lia]).
    pose proof (buckets_disjoint _ _ _ _ _ _ (has_inline_xattr d) (o_level _ _ Hok) Hk ltac:(lia) Hin Hin'); lia. }
  subst l; apply (Hno 0); [lia | unfold NR_DENTRY_IN_BLOCK; lia|]; intros i Hi; apply not_true_is_false; intros Ht.
  apply (h_bits _ _ Hh) in Ht; [destruct Ht as (e & He & _); inversion He | unfold NR_DENTRY_IN_BLOCK; lia].
Qed.

(** The search ends with a place in a bucket of the hash on one of the levels, at most
    one level below those in use. *)
Lemma add_loop_ok io d G fuel h slots level : dir_ok d G -> 1 <= slots <= 32 ->
  0 <= level <= i_current_depth d -> i_current_depth d - level < Z.of_nat fuel -> 0 < Z.of_nat fuel ->
  match add_loop fuel io d h slots level (i_current_depth d) with
  | Done (r, d') => (exists G', dir_ok d' G' /\ same_ents G G') /\ grown d d' /\
      match r with
      | inl err => err <> 0
      | inr (pl, depth) => room_at d' slots pl /\ i_current_depth d <= depth <= MAX_DIR_HASH_DEPTH /\ depth <= i_current_depth d + 1 /\
          exists k, 0 <= k < depth /\ in_bucket (i_dir_level d) k h (fst pl)
      end
  | Bug => 28 <= i_current_depth d + i_dir_level d
  | Spins => False
  end.
Proof.
  revert d G level; induction fuel as [|fuel IH]; intros d G level Hok Hs Hl Hf Hf0; [lia|]; cbn [add_loop].
  pose proof (o_depth _ _ Hok) as Hd; pose proof (o_level _ _ Hok) as Hdl; unfold MAX_DIR_HASH_DEPTH in *.
  destruct (i_current_depth d =? 63) eqn:E; bool_cases.
  { split; [exists G; split; [exact Hok | apply same_refl]|]; split; [apply grown_refl | vm_compute; discriminate]. }
  fold (bucket_start (i_dir_level d) level h); set (bs := bucket_start (i_dir_level d) level h); pose proof (bucket_start_nonneg (i_dir_level d) level h) as Hbs; fold bs in Hbs.
  assert (Hbs63 : bs < 2 ^ 40).
  { unfold bs, bucket_start; destruct (block_index_sum level (i_dir_level d) (h mod dir_buckets level (i_dir_level d))) as [-> Hr]; [lia|].
    pose proof (u32_range (h mod dir_buckets level (i_dir_level d) * bucket_blocks level)); rewrite u64_small by lia; lia. }
  assert (Hnb : 2 <= bucket_blocks level <= 4) by (destruct (bucket_blocks_cases level); lia).
  rewrite (u64_small (bs + bucket_blocks level - 1)) by lia.
  pose proof (bucket_loop_ok io d G (S (Z.to_nat (bucket_blocks level))) slots bs (bs + bucket_blocks level - 1) Hok ltac:(lia) Hbs ltac:(lia) ltac:(lia) ltac:(lia)) as HB.
  destruct (bucket_loop _ io d slots bs _) as [[r d1] | |]; cbn [mbind outcome_bind]; [| |exact HB].
  - destruct HB as ((G1 & Hok1 & Hs1) & Hg1 & _ & HR); destruct r as [err | [pl|]].
    + split; [exists G1; auto|]; split; assumption.
    + split; [exists G1; auto|]; split; [assumption|]; destruct HR as [HR1 HR2]; split; [exact HR2|].
      rewrite u32_small by lia; destruct (level =? i_current_depth d) eqn:El; bool_cases; (split; [lia|]); (split; [lia|]);
        exists level; (split; [lia|]); unfold in_bucket; fold bs; lia.
    + destruct (level =? i_current_depth d) eqn:El; bool_cases.
      * exfalso; apply (fresh_level_room d1 G1 slots h Hok1 Hs); destruct Hg1 as [_ -> -> _]; rewrite <- El; apply HR; fold bs; lia.
      * rewrite u32_small by lia; specialize (IH d1 G1 (level + 1) Hok1 Hs); destruct Hg1 as [Gn Gd Gl Gx]; rewrite Gd, Gl in IH.
        specialize (IH ltac:(lia) ltac:(lia) ltac:(lia)).
        destruct (add_loop fuel io d1 h slots (level + 1) (i_current_depth d)) as [[r d2] | |]; [|exact IH..].
        destruct IH as ((G2 & Hok2 & Hs2) & Hg2 & HR2); split; [exists G2; split; [exact Hok2 | exact (same_trans _ _ _ Hs1 Hs2)]|].
        split; [apply (grown_trans d d1 d2); [split; assumption | exact Hg2] | exact HR2].
  - destruct HB as [_ HB]; destruct (Z.le_gt_cases 28 (i_current_depth d + i_dir_level d)) as [|Hg]; [assumption|exfalso].
    pose proof (bucket_mapped (i_dir_level d) level h (bs + bucket_blocks level - 1) (has_inline_xattr d) ltac:(lia) ltac:(lia) ltac:(lia)) as Hm.
    unfold in_bucket in Hm; fold bs in Hm; specialize (Hm ltac:(lia)); lia.
Qed.

(** * One block changes *)

Lemma has_insert G b l b' e : has (<[b := l]> G) b' e <-> (b' = b /\ e ∈ l) \/ (b' <> b /\ has G b' e).
Proof.
  unfold has; destruct (Z.eq_dec b' b) as [-> | Hne].
  - rewrite lookup_insert_eq; split; [intros (x & [= <-] & H); auto | intros [[_ H] | [H _]]; [eauto | contradiction]].
  - rewrite lookup_insert_ne by congruence; split; [auto | intros [[H _] | [_ H]]; [contradiction | exact H]].
Qed.

Lemma blocks_hold_insert P G b blk l : blocks_hold P G -> holds blk l -> blocks_hold (<[b := blk]> P) (<[b := l]> G).
Proof.
  intros H Hh b'; destruct (Z.eq_dec b' b) as [-> | Hne]; [rewrite !lookup_insert_eq; exact Hh | rewrite !lookup_insert_ne by congruence; apply H].
Qed.

(** The entries [.] and [..] stay at the head of the first block when something is added. *)
Lemma dots_insert d l l1 l2 p n a b r : holds d l -> cut l p l1 l2 -> (forall e, e ∈ l2 -> p + n <= e_pos e) ->
  1 <= n -> 0 <= p -> l = a :: b :: r -> e_pos a = 0 -> e_end a = 1 -> e_pos b = 1 -> exists r', l1 = a :: b :: r'.
Proof.
  intros Hh Hc Ha Hn Hp El Ea Ee Eb; pose proof (cut_app _ _ _ _ Hc) as E; rewrite El in E; destruct l1 as [|x l1]; cbn in E.
  - subst l2; specialize (Ha a ltac:(left)); lia.
  - injection E as <- E; destruct l1 as [|y l1]; cbn in E; [|injection E as <- _; eauto].
    subst l2; specialize (Ha b ltac:(left)); pose proof (cut_before _ _ _ _ Hc a ltac:(left)); lia.
Qed.

(** A new entry in a free run of a block of its bucket. *)
Lemma insert_entry_ok d G d' pl name ino mode h : dir_ok d G -> valid_name name -> h = f2fs_dentry_hash name ->
  (forall b e, has G b e -> e_name e <> name) -> room_at d (GET_DENTRY_SLOTS (zlen name)) pl ->
  pages d' = <[fst pl := f2fs_update_dentry ino mode (block_at d (fst pl)) name h (snd pl)]> (pages d) ->
  i_size d' = i_size d -> has_inline_xattr d' = has_inline_xattr d -> i_dir_level d' = i_dir_level d ->
  i_current_depth d <= i_current_depth d' <= MAX_DIR_HASH_DEPTH ->
  (exists k, 0 <= k < i_current_depth d' /\ in_bucket (i_dir_level d) k h (fst pl)) ->
  0 <= clevel d' < i_current_depth d' -> synced d' -> d_warned d' = false ->
  let e := mk_ent (snd pl) name h ino (de_type mode) in
  exists G', dir_ok d' G' /\ forall b' e', has G' b' e' <-> has G b' e' \/ (b' = fst pl /\ e' = e).
Proof.
  intros Hok Hv Eh Habs (blk & Ep & Hp & Hps & Hfree) Epg Es Ex Edl Hd Hlev Hcl Hsy Hw e.
  destruct pl as [b p]; cbn [fst snd] in *; destruct (o_block _ _ _ _ Hok Ep) as (l & EG & Hh); pose proof (slots_valid _ Hv) as Hs.
  destruct (free_run_cut blk l p (GET_DENTRY_SLOTS (zlen name)) Hh ltac:(lia) Hp Hps Hfree) as (l1 & l2 & Hc & Ha).
  assert (Eb : block_at d b = blk) by (unfold block_at; rewrite Ep; reflexivity); rewrite Eb in Epg.
  pose proof (update_dentry_ok blk l l1 l2 ino mode name h p Hh Hv Hp Hps Hc Ha) as Hh'; fold e in Hh'.
  assert (Hhas : forall b' e', has (<[b := l1 ++ e :: l2]> G) b' e' <-> has G b' e' \/ (b' = b /\ e' = e)).
  { intros b' e'; rewrite has_insert, elem_of_app, elem_of_cons; unfold has at 2; destruct (Z.eq_dec b' b) as [-> | Hne].
    - rewrite EG; rewrite (cut_app _ _ _ _ Hc); split.
      + intros [[_ [H | [H | H]]] | [H _]]; [left | right | left | contradiction]; [|auto|]; eexists; (split; [reflexivity | apply elem_of_app; auto]).
      + intros [(x & [= <-] & H) | [_ ->]]; left; (split; [reflexivity|]); [apply elem_of_app in H; tauto | auto].
    - split; [intros [[H _] | [_ H]]; [contradiction | left; exact H] | intros [H | [H _]]; [right; auto | contradiction]]. }
  exists (<[b := l1 ++ e :: l2]> G); split; [|exact Hhas].
  split; rewrite ?Es, ?Ex, ?Edl; [| | exact (o_size _ _ Hok) | | | lia | exact (o_level _ _ Hok) | exact Hcl | exact Hsy | exact Hw |].
  - rewrite Epg; apply blocks_hold_insert; [apply Hok | exact Hh'].
  - intros b' l' E; destruct (Z.eq_dec b' b) as [-> | Hne]; [apply (o_range _ _ Hok b l EG)|].
    rewrite lookup_insert_ne in E by congruence; apply (o_range _ _ Hok b' l' E).
  - intros b' e' [H | [-> ->]]%Hhas; [|cbn [e e_hash e_name]; split; [exact Eh | exact Hlev]].
    destruct (o_place _ _ Hok b' e' H) as (Hx & k & Hk & Hin); split; [exact Hx | exists k; split; [lia | exact Hin]].
  - intros b1 e1 b2 e2 [H1 | [-> ->]]%Hhas [H2 | [-> ->]]%Hhas Hn; [exact (o_unique _ _ Hok b1 e1 b2 e2 H1 H2 Hn) | | |auto].
    + destruct (Habs b1 e1 H1); exact Hn.
    + destruct (Habs b2 e2 H2); symmetry; exact Hn.
  - destruct (o_dots _ _ Hok) as (i & t & i' & t' & r & Ed); destruct (Z.eq_dec b 0) as [-> | Hne].
    + rewrite EG in Ed; injection Ed as El.
      destruct (dots_insert blk l l1 l2 p (GET_DENTRY_SLOTS (zlen name)) _ _ r Hh Hc Ha ltac:(lia) Hp El eq_refl eq_refl eq_refl) as (r' & ->).
      exists i, t, i', t', (r' ++ e :: l2); apply lookup_insert_eq.
    + exists i, t, i', t', r; rewrite lookup_insert_ne by congruence; exact Ed.
Qed.

(** * Adding an entry *)

Lemma parent_metadata_fields d c depth : let d' := update_parent_metadata d c depth in
  pages d' = pages d /\ i_size d' = i_size d /\ has_inline_xattr d' = has_inline_xattr d /\ i_dir_level d' = i_dir_level d /\
  i_current_depth d' = depth /\ clevel d' = clevel d /\ d_warned d' = d_warned d /\ (synced d -> synced d').
Proof.
  unfold update_parent_metadata; set (d1 := match c with Some c => _ | None => d end).
  assert (H1 : pages d1 = pages d /\ i_size d1 = i_size d /\ has_inline_xattr d1 = has_inline_xattr d /\ i_dir_level d1 = i_dir_level d /\
    i_current_depth d1 = i_current_depth d /\ clevel d1 = clevel d /\ d_warned d1 = d_warned d /\ (synced d -> synced d1)).
  { unfold d1; destruct c as [c|]; [destruct (c_new c && S_ISDIR (c_mode c))|]; repeat split; intros; try assumption; left; reflexivity. }
  destruct H1 as (? & ? & ? & ? & Ed & ? & ? & ?); destruct (i_current_depth d1 =? depth) eqn:E; bool_cases; cbn [negb]; cbv zeta.
  - repeat split; auto.
  - repeat split; cbn; auto; intros; left; reflexivity.
Qed.

Lemma flush_flag_ok d G : dir_ok d G -> let d' := if fi_update_dir d then with_flag false (update_inode_page d) else d in
  dir_ok d' G /\ node_page d' = mk_raw_dir (i_size d') (i_nlink d') (i_current_depth d') /\
  i_current_depth d' = i_current_depth d /\ i_dir_level d' = i_dir_level d /\ has_inline_xattr d' = has_inline_xattr d.
Proof.
  intros Hok; destruct (fi_update_dir d) eqn:E; cbv zeta.
  - split; [|repeat split]; destruct Hok; split; try assumption; right; reflexivity.
  - split; [exact Hok|]; destruct (o_synced _ _ Hok) as [H | H]; [congruence|]; split; [exact H | repeat split].
Qed.

Lemma add_link_ok io meta d G name c ino mode : dir_ok d G -> valid_name name ->
  (forall b e, has G b e -> e_name e <> name) ->
  match __f2fs_add_link io meta d name c ino mode with
  | Done (err, d') => i_dir_level d' = i_dir_level d /\ i_current_depth d' <= i_current_depth d + 1 /\
      if decide (err = 0)
      then node_page d' = mk_raw_dir (i_size d') (i_nlink d') (i_current_depth d') /\
           exists G' b e, dir_ok d' G' /\ e_name e = name /\ e_ino e = ino /\ e_type e = de_type mode /\
             forall b' e', has G' b' e' <-> has G b' e' \/ (b' = b /\ e' = e)
      else exists G', dir_ok d' G' /\ same_ents G G'
  | Bug => 28 <= i_current_depth d + i_dir_level d
  | Spins => False
  end.
Proof.
  intros Hok Hv Habs; unfold __f2fs_add_link, f2fs_fname_setup_filename; cbn [disk_name].
  set (h := f2fs_dentry_hash name); set (slots := GET_DENTRY_SLOTS (zlen name)); pose proof (slots_valid _ Hv) as Hs; fold slots in Hs.
  set (st := if chash d =? h then (clevel d, with_hint 0 (clevel d) d) else (0, d)).
  pose proof (o_hint _ _ Hok) as Hhint; pose proof (o_depth _ _ Hok) as Hd.
  assert (Hst : hinted d (snd st) /\ 0 <= fst st < i_current_depth d).
  { unfold st; destruct (chash d =? h); cbn [fst snd]; [split; [right; eauto | exact Hhint] | split; [left; reflexivity | lia]]. }
  destruct st as [level d0]; cbn [fst snd] in Hst; destruct Hst as [Hh0 Hl]; pose proof (hinted_ok _ _ _ Hok Hh0) as Hok0.
  assert (Ef : i_current_depth d0 = i_current_depth d /\ i_dir_level d0 = i_dir_level d) by (destruct Hh0 as [-> | (? & ? & -> & _)]; auto).
  destruct Ef as [Ed El]; rewrite <- Ed, <- El in *.
  pose proof (add_loop_ok io d0 G (S (S (Z.to_nat MAX_DIR_HASH_DEPTH))) h slots level Hok0 Hs ltac:(lia)) as HA.
  specialize (HA ltac:(unfold MAX_DIR_HASH_DEPTH in *; lia) ltac:(lia)).
  destruct (add_loop _ io d0 h slots level _) as [[r d1] | |]; cbn [mbind outcome_bind]; [|exact HA..].
  destruct HA as ((G1 & Hok1 & Hs1) & [Gn Gd Gl Gx] & HR).
  assert (Habs1 : forall b e, has G1 b e -> e_name e <> name) by (intros b e H; apply (Habs b e), Hs1, H).
  destruct r as [err | [pl depth]]; [rewrite Gl, Gd; split; [reflexivity|]; split; [lia|]; rewrite decide_False by exact HR; eauto|].
  destruct pl as [block bit_pos]; destruct HR as (Hroom & Hdep & Hdep1 & Hk).
  set (failed := match c with Some _ => negb (meta =? 0) | None => false end).
  set (d2 := if failed then d1 else _).
  assert (H2 : exists G2, dir_ok d2 G2 /\ i_dir_level d2 = i_dir_level d0 /\ i_current_depth d2 <= i_current_depth d0 + 1 /\
    if failed then same_ents G G2
    else forall b' e', has G2 b' e' <-> has G b' e' \/ (b' = block /\ e' = mk_ent bit_pos name h ino (de_type mode))).
  { unfold d2; destruct failed; [exists G1; rewrite Gl, Gd; split; [exact Hok1 | split; [reflexivity | split; [lia | exact Hs1]]]|].
    set (P2 := <[block := _]> (pages d1)).
    destruct (parent_metadata_fields (with_pages P2 d1) c depth) as (E1 & E2 & E3 & E4 & E5 & E6 & E7 & E8).
    destruct (insert_entry_ok d1 G1 (update_parent_metadata (with_pages P2 d1) c depth) (block, bit_pos) name ino mode h Hok1 Hv eq_refl Habs1 Hroom)
      as (G2 & Hok2 & Hhas); [exact E1 | exact E2 | exact E3 | exact E4 | rewrite E5, Gd; exact Hdep | | | | |].
    - rewrite E5, Gl; exact Hk.
    - rewrite E5, E6; pose proof (o_hint _ _ Hok1); cbn; lia.
    - apply E8; exact (o_synced _ _ Hok1).
    - rewrite E7; exact (o_calm _ _ Hok1).
    - exists G2; split; [exact Hok2|]; split; [rewrite E4; exact Gl|]; split; [lia|].
      intros b' e'; rewrite (Hhas b' e'), <- (Hs1 b' e'); reflexivity. }
  destruct H2 as (G2 & Hok2 & El2 & Ed2 & Hres); destruct (flush_flag_ok d2 G2 Hok2) as (Hok3 & Hnp & Ed3 & El3 & _).
  set (d3 := if fi_update_dir d2 then _ else d2) in *; cbv zeta in Hok3, Hnp, Ed3, El3; split; [congruence|]; split; [lia|].
  destruct failed eqn:Efl.
  - rewrite decide_False; [eauto|]; unfold failed in Efl; destruct c; [|discriminate]; apply negb_true_iff in Efl; bool_cases; assumption.
  - rewrite decide_True by reflexivity; split; [exact Hnp|].
    exists G2, block, (mk_ent bit_pos name h ino (de_type mode)); split; [exact Hok3|]; repeat split; exact Hres || apply Hres.
Qed.

(** * Changing the list of one block

    Entries are removed or relinked: whatever is left sits where it was. *)

Lemma reduce_ok d G d' G' : dir_ok d G -> blocks_hold (pages d') G' ->
  (forall b l, G' !! b = Some l -> exists l', G !! b = Some l') ->
  (forall b e', has G' b e' -> exists e, has G b e /\ e_name e' = e_name e /\ e_hash e' = e_hash e /\
     forall e1, has G' b e1 -> e_name e1 = e_name e' -> e1 = e') ->
  i_size d' = i_size d -> has_inline_xattr d' = has_inline_xattr d -> i_dir_level d' = i_dir_level d ->
  i_current_depth d' = i_current_depth d -> clevel d' = clevel d -> d_warned d' = d_warned d -> synced d' ->
  (exists i t i' t' l, G' !! 0 = Some (mk_ent 0 [DOT] 0 i t :: mk_ent 1 [DOT; DOT] 0 i' t' :: l)) ->
  dir_ok d' G'.
Proof.
  intros Hok Hp Hb He Es Ex El Ed Ec Ew Hsy Hdots; split; rewrite ?Es, ?Ex, ?El, ?Ed, ?Ec, ?Ew; try (apply Hok); try assumption.
  - intros b l E; destruct (Hb b l E) as (l' & E'); exact (o_range _ _ Hok b l' E').
  - intros b e' H; destruct (He b e' H) as (e & Hh & En & Eh & _); rewrite En, Eh; exact (o_place _ _ Hok b e Hh).
  - intros b1 e1 b2 e2 H1 H2 Hn; destruct (He b1 e1 H1) as (x1 & Hx1 & En1 & _ & U1); destruct (He b2 e2 H2) as (x2 & Hx2 & En2 & _ & _).
    destruct (o_unique _ _ Hok b1 x1 b2 x2 Hx1 Hx2 ltac:(congruence)) as [-> _]; split; [reflexivity|]; symmetry; apply U1; [exact H2 | congruence].
Qed.

Lemma has_split G b l1 e l2 : G !! b = Some (l1 ++ e :: l2) -> has G b e.
Proof. intros E; exists (l1 ++ e :: l2); split; [exact E | apply elem_of_app; right; left]. Qed.

(** An entry and its name determine each other. *)
Lemma has_name_inj d G b e b' e' : dir_ok d G -> has G b e -> has G b' e' -> e_name e = e_name e' <-> b = b' /\ e = e'.
Proof. intros Hok H H'; split; [exact (o_unique _ _ Hok b e b' e' H H') | intros [_ ->]; reflexivity]. Qed.

Lemma middle_notin (l1 l2 : list ent) e : StronglySorted (fun a b => e_end a <= e_pos b) (l1 ++ e :: l2) -> e_pos e < e_end e -> e ∉ l1 ++ l2.
Proof.
  intros (_ & H1 & H2)%sorted_remove He [H | H]%elem_of_app; [specialize (H1 e H) | specialize (H2 e H)]; lia.
Qed.

(** The two first entries stay when another one goes. *)
Lemma dots_remove (l1 l2 r : list ent) e a b : l1 ++ e :: l2 = a :: b :: r -> e <> a -> e <> b -> exists r', l1 ++ l2 = a :: b :: r'.
Proof.
  intros E Ha Hb; destruct l1 as [|x l1]; cbn in E; [injection E as -> _; congruence|]; injection E as -> E.
  destruct l1 as [|y l1]; cbn in E; [injection E as -> _; congruence|]; injection E as -> _; exists (l1 ++ l2); reflexivity.
Qed.

(** The list of a block, where a block without entries is a hole. *)
Definition put_list (G : contents) (b : Z) (l : list ent) : contents :=
  if bool_decide (l = []) then delete b G else <[b := l]> G.

Lemma put_list_ne G b l b' : b' <> b -> put_list G b l !! b' = G !! b'.
Proof. intros Hne; unfold put_list; destruct (bool_decide _); [apply lookup_delete_ne | apply lookup_insert_ne]; congruence. Qed.

Lemma has_put_list G b l b' e : has (put_list G b l) b' e <-> (b' = b /\ e ∈ l) \/ (b' <> b /\ has G b' e).
Proof.
  unfold put_list; destruct (bool_decide (l = [])) eqn:E; [|apply has_insert]; apply bool_decide_eq_true in E; subst l.
  unfold has; destruct (Z.eq_dec b' b) as [-> | Hne].
  - rewrite lookup_delete_eq; split; [intros (? & [=] & _) | intros [[_ H] | [H _]]; [inversion H | contradiction]].
  - rewrite lookup_delete_ne by congruence; split; [auto | intros [[H _] | [_ H]]; [contradiction | exact H]].
Qed.

(** Without [e] its block holds every entry of another name. *)
Lemma has_removed d G b l1 e l2 b' e' : dir_ok d G -> G !! b = Some (l1 ++ e :: l2) -> e ∉ l1 ++ l2 ->
  has (put_list G b (l1 ++ l2)) b' e' <-> has G b' e' /\ e_name e' <> e_name e.
Proof.
  intros Hok EG Hnotin; pose proof (has_split _ _ _ _ _ EG) as Hhas; rewrite has_put_list; split.
  - intros [[-> H] | [Hne H]].
    + assert (Hh1 : has G b e') by (exists (l1 ++ e :: l2); split; [exact EG | rewrite elem_of_app, elem_of_cons; rewrite elem_of_app in H; tauto]).
      split; [exact Hh1|]; intros Hn; apply (has_name_inj _ _ _ _ _ _ Hok Hh1 Hhas) in Hn as [_ ->]; contradiction.
    + split; [exact H|]; intros Hn; apply (has_name_inj _ _ _ _ _ _ Hok H Hhas) in Hn as [-> _]; contradiction.
  - intros [(l & E & Hl) Hn]; destruct (Z.eq_dec b' b) as [-> | Hne]; [left; split; [reflexivity|] | right; split; [exact Hne | exists l; auto]].
    rewrite EG in E; injection E as <-; rewrite elem_of_app, elem_of_cons in Hl; rewrite elem_of_app; destruct Hl as [Hl | [-> | Hl]]; tauto.
Qed.

(** The test that gives a block up is right. *)
Lemma empty_test_ok blk l : holds blk l ->
  (find_next_bit (dentry_bitmap blk) NR_DENTRY_IN_BLOCK 0 =? NR_DENTRY_IN_BLOCK) = bool_decide (l = []).
Proof.
  intros Hh; rewrite (next_bit_ok blk l 0 [] l Hh (cut_start _ _ Hh)) by (unfold NR_DENTRY_IN_BLOCK; lia).
  pose proof (h_stored _ _ Hh) as Hst; destruct l as [|x q]; [reflexivity|].
  rewrite bool_decide_false by discriminate; apply Z.eqb_neq; pose proof (stored_range _ _ (Hst x ltac:(left))); unfold NR_DENTRY_IN_BLOCK; lia.
Qed.

Lemma delete_fields d b blk c (gone : bool) : synced d ->
  let d1 := with_pages (<[b := blk]> (pages d)) d in
  let d2 := match c with Some c => f2fs_drop_nlink d1 c | None => d1 end in
  let d3 := if gone then with_pages (delete b (pages d2)) d2 else d2 in
  pages d3 = (if gone then delete b (pages d) else <[b := blk]> (pages d)) /\ i_size d3 = i_size d /\
  has_inline_xattr d3 = has_inline_xattr d /\ i_dir_level d3 = i_dir_level d /\
  i_current_depth d3 = i_current_depth d /\ clevel d3 = clevel d /\ d_warned d3 = d_warned d /\ synced d3.
Proof.
  intros Hsy; unfold f2fs_drop_nlink; destruct c as [c|]; [destruct (S_ISDIR (c_mode c))|]; destruct gone; cbn; repeat split; try exact Hsy; try apply delete_insert_eq; right; reflexivity.
Qed.

Lemma delete_entry_ok d G b e c : dir_ok d G -> has G b e -> is_dot_dotdot (e_name e) = false ->
  let d' := f2fs_delete_entry d (b, e_pos e) c in
  i_dir_level d' = i_dir_level d /\ i_current_depth d' = i_current_depth d /\
  exists G', dir_ok d' G' /\ forall b' e', has G' b' e' <-> has G b' e' /\ e_name e' <> e_name e.
Proof.
  intros Hok Hhas Hnd; destruct Hhas as (l & EG & Hin); destruct (block_at_holds _ _ _ _ Hok EG) as [Ep Hh].
  apply list_elem_of_split in Hin as (l1 & l2 & ->); pose proof (has_split _ _ _ _ _ EG) as Hhas.
  pose proof (delete_slots_ok _ _ _ _ Hh) as Hh'; unfold f2fs_delete_entry; set (blk := delete_slots (block_at d b) (e_pos e)) in *.
  rewrite (empty_test_ok blk (l1 ++ l2) Hh').
  destruct (delete_fields d b blk c (bool_decide (l1 ++ l2 = [])) (o_synced _ _ Hok)) as (Ep3 & Es3 & Ex3 & El3 & Ed3 & Ec3 & Ew3 & Sy3).
  cbv zeta in Ep3, Es3, Ex3, El3, Ed3, Ec3, Ew3, Sy3 |- *; set (d3 := if bool_decide (l1 ++ l2 = []) then _ else _) in *; clearbody d3.
  assert (Hnotin : e ∉ l1 ++ l2).
  { apply middle_notin; [apply Hh|]; pose proof (stored_range _ _ (h_stored _ _ Hh e ltac:(apply elem_of_app; right; left))); lia. }
  pose proof (fun b' e' => has_removed d G b l1 e l2 b' e' Hok EG Hnotin) as Hchar.
  split; [exact El3|]; split; [exact Ed3|]; exists (put_list G b (l1 ++ l2)); split; [|exact Hchar].
  apply (reduce_ok d G); try assumption.
  - rewrite Ep3; unfold put_list; destruct (bool_decide (l1 ++ l2 = [])); [|apply blocks_hold_insert; [apply Hok | exact Hh']].
    intros b'; destruct (Z.eq_dec b' b) as [-> | Hne]; [rewrite !lookup_delete_eq; exact I | rewrite !lookup_delete_ne by congruence; apply Hok].
  - intros b' l E; destruct (Z.eq_dec b' b) as [-> | Hne]; [eauto | rewrite put_list_ne in E by exact Hne; eauto].
  - intros b' e' H; apply Hchar in H as [H Hn]; exists e'; repeat split; [exact H|].
    intros e1 H1 Hn1; apply Hchar in H1 as [H1 _]; apply (o_unique _ _ Hok b' e1 b' e' H1 H Hn1).
  - destruct (o_dots _ _ Hok) as (i & t & i' & t' & r & E0); destruct (Z.eq_dec b 0) as [-> | Hne]; [|exists i, t, i', t', r; rewrite put_list_ne by congruence; exact E0].
    rewrite EG in E0; injection E0 as E0; destruct (dots_remove _ _ _ _ _ _ E0) as (r' & Er); [intros ->; discriminate Hnd.. |].
    unfold put_list; rewrite Er, bool_decide_false by discriminate; exists i, t, i', t', r'; apply lookup_insert_eq.
Qed.

(** * Relinking an entry *)

Lemma set_link_entry_ok d G b e ino mode : dir_ok d G -> has G b e ->
  let d' := f2fs_set_link d (b, e_pos e) ino mode in
  i_dir_level d' = i_dir_level d /\ i_current_depth d' = i_current_depth d /\
  exists G', dir_ok d' G' /\
    forall b' e', has G' b' e' <-> (has G b' e' /\ e_name e' <> e_name e) \/ (b' = b /\ e' = relink e ino mode).
Proof.
  intros Hok Hhas; destruct Hhas as (l & EG & Hin); destruct (block_at_holds _ _ _ _ Hok EG) as [Ep Hh].
  apply list_elem_of_split in Hin as (l1 & l2 & ->); pose proof (has_split _ _ _ _ _ EG) as Hhas.
  pose proof (set_link_ok _ _ _ _ ino mode Hh) as Hh'; unfold f2fs_set_link; split; [reflexivity|]; split; [reflexivity|].
  assert (Hnotin : e ∉ l1 ++ l2).
  { apply middle_notin; [apply Hh|]; pose proof (stored_range _ _ (h_stored _ _ Hh e ltac:(apply elem_of_app; right; left))); lia. }
  assert (Hchar : forall b' e', has (<[b := l1 ++ relink e ino mode :: l2]> G) b' e' <->
    (has G b' e' /\ e_name e' <> e_name e) \/ (b' = b /\ e' = relink e ino mode)).
  { intros b' e'; rewrite <- (has_removed d G b l1 e l2 b' e' Hok EG Hnotin), has_put_list, has_insert, !elem_of_app, elem_of_cons; tauto. }
  exists (<[b := l1 ++ relink e ino mode :: l2]> G); split; [|exact Hchar].
  apply (reduce_ok d G); try reflexivity; try assumption; try apply Hok.
  - apply blocks_hold_insert; [apply Hok | exact Hh'].
  - intros b' l E; destruct (Z.eq_dec b' b) as [-> | Hne]; [eauto | rewrite lookup_insert_ne in E by congruence; eauto].
  - intros b' e' [[H Hn] | [-> ->]]%Hchar; [exists e' | exists e]; (split; [assumption|]); (split; [reflexivity|]); (split; [reflexivity|]).
    + intros e1 [[H1 _] | [-> ->]]%Hchar Hn1; [apply (o_unique _ _ Hok b' e1 b' e' H1 H Hn1) | destruct Hn; symmetry; exact Hn1].
    + intros e1 [[H1 Hn'] | [_ ->]]%Hchar Hn1; [destruct Hn'; exact Hn1 | reflexivity].
  - destruct (o_dots _ _ Hok) as (i & t & i' & t' & r & E0); destruct (Z.eq_dec b 0) as [-> | Hne]; [|exists i, t, i', t', r; rewrite lookup_insert_ne by congruence; exact E0].
    rewrite lookup_insert_eq; rewrite EG in E0; injection E0 as E0; destruct l1 as [|x l1]; cbn in E0 |- *; [injection E0 as -> ->; eauto 10|].
    injection E0 as -> E0; destruct l1 as [|y l1]; cbn in E0 |- *; injection E0 as -> E0; eauto 10.
Qed.

(** * A new directory *)

Lemma make_empty_dir_ok io dl xattr ino mode pino pmode : 0 <= dl < 256 ->
  match make_empty_dir io (new_dir dl xattr) ino mode pino pmode with
  | Done (err, d) => if decide (err = 0)
      then i_dir_level d = dl /\ i_current_depth d = 1 /\ exists G, dir_ok d G /\
           forall b e, has G b e <-> b = 0 /\ (e = dot ino mode \/ e = dotdot pino pmode)
      else d = new_dir dl xattr
  | _ => False
  end.
Proof.
  intros Hdl; unfold make_empty_dir, get_new_data_page; cbn [new_dir has_inline_xattr].
  destruct (new_err io 0 =? 0) eqn:En; bool_cases; cbn [negb mbind outcome_bind]; [|rewrite decide_False by assumption; reflexivity].
  assert (Em : exists np, get_node_path xattr 0 = Some np) by (destruct xattr; eexists; reflexivity); destruct Em as [np ->].
  cbn [mbind outcome_bind]; rewrite decide_True by reflexivity; split; [reflexivity|]; split; [reflexivity|].
  exists {[0 := [dot ino mode; dotdot pino pmode]]}.
  assert (Hhas : forall b e, has {[0 := [dot ino mode; dotdot pino pmode]]} b e <-> b = 0 /\ (e = dot ino mode \/ e = dotdot pino pmode)).
  { intros b e; unfold has; split.
    - intros (l & [<- <-]%lookup_singleton_Some & Hl); rewrite !elem_of_cons, elem_of_nil in Hl; tauto.
    - intros [-> He]; eexists; split; [apply lookup_singleton_eq | rewrite !elem_of_cons; tauto]. }
  assert (Hstart : in_bucket dl 0 0 0).
  { unfold in_bucket, bucket_start; rewrite Z.mod_0_l by (pose proof (dir_buckets_pos 0 dl ltac:(lia) ltac:(lia)); lia).
    change (dir_block_index 0 dl 0) with 0; change (bucket_blocks 0) with 2; lia. }
  split; [|exact Hhas]; cbn [i_size i_nlink i_current_depth i_dir_level clevel fi_update_dir has_inline_xattr pages node_page d_warned with_pages with_flag with_size new_dir].
  change (0 <? u64 ((0 + 1) ≪ PAGE_CACHE_SHIFT)) with true; cbv iota; split; cbn [i_size i_nlink i_current_depth i_dir_level clevel fi_update_dir has_inline_xattr pages node_page d_warned with_pages with_flag with_size new_dir].
  - intros b; destruct (Z.eq_dec b 0) as [-> | Hne]; [rewrite !lookup_insert_eq; apply empty_block_ok|].
    rewrite !lookup_insert_ne, lookup_singleton_ne, lookup_empty by congruence; exact I.
  - intros b l [<- <-]%lookup_singleton_Some; pose proof (max_blocks_range xattr); split; [lia | vm_compute; discriminate].
  - exists 1; pose proof (max_blocks_range xattr); split; [lia | reflexivity].
  - intros b e [-> [-> | ->]]%Hhas; (split; [reflexivity | exists 0; split; [lia | exact Hstart]]).
  - intros b e b' e' [-> He]%Hhas [-> He']%Hhas Hn; split; [reflexivity|]; destruct He as [-> | ->], He' as [-> | ->]; reflexivity || discriminate.
  - unfold MAX_DIR_HASH_DEPTH; lia.
  - lia.
  - lia.
  - left; reflexivity.
  - reflexivity.
  - eexists _, _, _, _, []; apply lookup_singleton_eq.
Qed.
