(* ===== verification/DirSpec.v ===== *)
(** A directory is a map from names to inode numbers and types: along every sequence of
    lookups, creations, removals and renames the code of dir.c behaves like the map. *)

From Stdlib Require Import ZArith Lia Bool.
From stdpp Require Import base numbers list gmap sorting.
From S2P Require Import Prelude Layout NodePath Hash Dentry DentryOps Dir DirInv DirOps.

#[local] Open Scope Z_scope.
#[local] Ltac Zify.zify_post_hook ::= Z.to_euclidean_division_equations.

(** * The specification *)

Abbreviation names := (gmap (list Z) (Z * Z)).

Definition dots : gset (list Z) := {[ [DOT]; [DOT; DOT] ]}.

(** What the rest of the file system asks of a directory.  [Unlink] and [Relink] are a
    lookup followed by [f2fs_delete_entry] or [f2fs_set_link], as in namei.c; [Reparent]
    is [f2fs_parent_dir] followed by [f2fs_set_link]. *)
Inductive dir_op :=
| Lookup (name : list Z)
| Link (io : faults) (meta : Z) (name : list Z) (c : option child) (ino mode : Z)
| Unlink (name : list Z) (c : option child)
| Relink (name : list Z) (ino mode : Z)
| Reparent (ino mode : Z)
| IsEmpty.

(** What the VFS guarantees before it calls. *)
Definition allowed (m : names) (op : dir_op) : Prop :=
  match op with
  | Link _ _ name _ _ _ => valid_name name /\ m !! name = None
  | Unlink name _ => is_dot_dotdot name = false
  | _ => True
  end.

(** The answer and the new map. *)
Definition spec (m : names) (op : dir_op) (a : Z) (m' : names) : Prop :=
  match op with
  | Lookup name => a = default 0 (fst <$> m !! name) /\ m' = m
  | Link _ _ name _ ino mode => (a = 0 /\ m' = <[name := (ino, de_type mode)]> m) \/ (a <> 0 /\ m' = m)
  | Unlink name _ =>
      match m !! name with
      | Some _ => a = 0 /\ m' = delete name m
      | None => a = - ENOENT /\ m' = m
      end
  | Relink name ino mode =>
      match m !! name with
      | Some _ => a = 0 /\ m' = <[name := (ino, de_type mode)]> m
      | None => a = - ENOENT /\ m' = m
      end
  | Reparent ino mode => a = 0 /\ m' = <[[DOT; DOT] := (ino, de_type mode)]> m
  | IsEmpty => a = b2z (bool_decide (dom m = dots)) /\ m' = m
  end.

Fixpoint legal (m : names) (ops : list dir_op) : Prop :=
  match ops with
  | [] => True
  | op :: ops => allowed m op /\ forall a m', spec m op a m' -> legal m' ops
  end.

Inductive spec_run : names -> list dir_op -> list Z -> names -> Prop :=
| run_nil m : spec_run m [] [] m
| run_cons m op a m1 ops l m' : spec m op a m1 -> spec_run m1 ops l m' -> spec_run m (op :: ops) (a :: l) m'.

(** * The code *)

Definition exec (d : dir_inode) (op : dir_op) : outcome (Z * dir_inode) :=
  match op with
  | Lookup name => f2fs_inode_by_name no_faults d name
  | Link io meta name c ino mode => __f2fs_add_link io meta d name c ino mode
  | Unlink name c =>
      '(de, d) ← f2fs_find_entry no_faults d name;
      match de with
      | Some pl => Done (0, f2fs_delete_entry d pl c)
      | None => Done (- ENOENT, d)
      end
  | Relink name ino mode =>
      '(de, d) ← f2fs_find_entry no_faults d name;
      match de with
      | Some pl => Done (0, f2fs_set_link d pl ino mode)
      | None => Done (- ENOENT, d)
      end
  | Reparent ino mode =>
      de ← f2fs_parent_dir no_faults d;
      match de with
      | Some pl => Done (0, f2fs_set_link d pl ino mode)
      | None => Done (- ENOENT, d)
      end
  | IsEmpty => r ← f2fs_empty_dir no_faults d; Done (b2z r, d)
  end.

Fixpoint exec_all (d : dir_inode) (ops : list dir_op) : outcome (list Z * dir_inode) :=
  match ops with
  | [] => Done ([], d)
  | op :: ops =>
      '(a, d) ← exec d op;
      '(l, d) ← exec_all d ops;
      Done (a :: l, d)
  end.

(** * The relation *)

Definition abs (G : contents) (m : names) : Prop :=
  forall name v, m !! name = Some v <-> exists b e, has G b e /\ e_name e = name /\ (e_ino e, e_type e) = v.

Definition dir_rep (d : dir_inode) (m : names) : Prop := exists G, dir_ok d G /\ abs G m.

Lemma abs_same G G' m : abs G m -> same_ents G G' -> abs G' m.
Proof. intros H Hs name v; rewrite (H name v); split; intros (b & e & Hh & R); exists b, e; (split; [apply Hs, Hh | exact R]). Qed.

Lemma abs_has G m b e : abs G m -> has G b e -> m !! e_name e = Some (e_ino e, e_type e).
Proof. intros H Hh; apply H; eauto. Qed.

Lemma abs_None G m name : abs G m -> m !! name = None <-> forall b e, has G b e -> e_name e <> name.
Proof.
  intros H; split.
  - intros E b e Hh Hn; rewrite <- Hn, (abs_has _ _ _ _ H Hh) in E; discriminate.
  - intros Hno; destruct (m !! name) as [v|] eqn:E; [|reflexivity]; apply H in E as (b & e & Hh & Hn & _); destruct (Hno b e Hh Hn).
Qed.

(** One entry comes in, in place of the entries with its name. *)
Lemma abs_insert G G' m e b name v : abs G m -> e_name e = name -> (e_ino e, e_type e) = v ->
  (forall b' e', has G' b' e' <-> (has G b' e' /\ e_name e' <> name) \/ (b' = b /\ e' = e)) ->
  abs G' (<[name := v]> m).
Proof.
  intros H En Ev Hc name' v'; destruct (decide (name' = name)) as [-> | Hne].
  - rewrite lookup_insert_eq; split.
    + intros [= <-]; exists b, e; rewrite Hc; auto.
    + intros (b' & e' & [[Hh Hn] | [-> ->]]%Hc & Hn' & <-); [contradiction | rewrite Ev; reflexivity].
  - rewrite lookup_insert_ne by congruence; rewrite (H name' v'); split; intros (b' & e' & Hh & Hn & Hv).
    + exists b', e'; rewrite Hc; split; [left; split; [exact Hh | congruence] | auto].
    + apply Hc in Hh as [[Hh _] | [-> ->]]; [eauto | congruence].
Qed.

Lemma abs_delete G G' m name : abs G m ->
  (forall b' e', has G' b' e' <-> has G b' e' /\ e_name e' <> name) -> abs G' (delete name m).
Proof.
  intros H Hc name' v'; destruct (decide (name' = name)) as [-> | Hne].
  - rewrite lookup_delete_eq; split; [discriminate|]; intros (b' & e' & [_ Hn]%Hc & Hn' & _); contradiction.
  - rewrite lookup_delete_ne by congruence; rewrite (H name' v'); split; intros (b' & e' & Hh & Hn & Hv).
    + exists b', e'; rewrite Hc; split; [split; [exact Hh | congruence] | auto].
    + apply Hc in Hh as [Hh _]; eauto.
Qed.

(** * Emptiness *)

Lemma is_dot_dotdot_spec name : is_dot_dotdot name = true <-> name ∈ dots.
Proof.
  unfold dots; rewrite elem_of_union, !elem_of_singleton; unfold is_dot_dotdot, zlen; split; [|intros [-> | ->]; reflexivity].
  destruct name as [|a [|b [|c q]]]; cbn [length]; try discriminate.
  - change (Z.of_nat 1 =? 1) with true; change ([a].[0]) with a; destruct (a =? DOT) eqn:E; bool_cases; cbn; [subst; auto | discriminate].
  - change (Z.of_nat 2 =? 1) with false; change (Z.of_nat 2 =? 2) with true; change ([a; b].[0]) with a; change ([a; b].[1]) with b.
    destruct (a =? DOT) eqn:E1, (b =? DOT) eqn:E2; bool_cases; cbn; try discriminate; subst; auto.
  - rewrite (proj2 (Z.eqb_neq _ 1)), (proj2 (Z.eqb_neq _ 2)) by lia; discriminate.
Qed.

Lemma dots_present d G : dir_ok d G -> exists a a' l, G !! 0 = Some (a :: a' :: l) /\
  e_name a = [DOT] /\ e_name a' = [DOT; DOT] /\ e_pos a' = 1 /\ e_end a' = 2 /\ e_end a = 1.
Proof. intros H; destruct (o_dots _ _ H) as (i & t & i' & t' & l & E); eexists _, _, l; split; [exact E | repeat split]. Qed.

(** The entries [.] and [..] are in the first two slots of the first block, the others
    behind them or in other blocks. *)
Lemma dots_cut d G b blk l : dir_ok d G -> G !! b = Some l -> holds blk l ->
  exists l1 l2, cut l (if b =? 0 then 2 else 0) l1 l2 /\ (forall e, e ∈ l1 -> e_name e ∈ dots) /\ (forall e, e ∈ l2 -> e_name e ∉ dots).
Proof.
  intros Hok EG Hh; destruct (dots_present _ _ Hok) as (a & a' & q & E0 & Na & Na' & Pa' & Ea' & Ea).
  assert (Ha : has G 0 a /\ has G 0 a') by (split; exists (a :: a' :: q); (split; [exact E0|]); [left | right; left]).
  assert (Hdot : forall e, has G b e -> e_name e ∈ dots -> b = 0 /\ (e = a \/ e = a')).
  { intros e He Hd; unfold dots in Hd; rewrite elem_of_union, !elem_of_singleton in Hd; destruct Ha as [Ha Ha'].
    destruct Hd as [Hd | Hd]; [destruct (o_unique _ _ Hok b e 0 a He Ha) | destruct (o_unique _ _ Hok b e 0 a' He Ha')]; auto; congruence. }
  destruct (b =? 0) eqn:E1; bool_cases.
  - subst b; rewrite E0 in EG; injection EG as <-; exists [a; a'], q.
    pose proof (cut_step _ _ _ _ _ _ Hh (cut_start _ _ Hh)) as C1; pose proof (cut_step _ _ _ _ _ _ Hh C1) as C2; rewrite Ea' in C2; cbn in C2.
    split; [exact C2|]; split; [intros e; rewrite !elem_of_cons, elem_of_nil; unfold dots; intros [-> | [-> | []]]; apply elem_of_union; [left | right]; apply elem_of_singleton; assumption|].
    intros e He Hd; pose proof (cut_after _ _ _ _ C2 e He) as Hpos.
    destruct (Hdot e) as [_ [-> | ->]]; [exists (a :: a' :: q); split; [exact E0 | do 2 right; exact He] | exact Hd | | lia].
    pose proof (stored_range _ _ (h_stored _ _ Hh a ltac:(left))); lia.
  - exists [], l; split; [exact (cut_start _ _ Hh)|]; split; [intros e He; inversion He|].
    intros e He Hd; destruct (Hdot e) as [-> _]; [exists l; auto | exact Hd | congruence].
Qed.

Lemma empty_loop_ok d G fuel b : dir_ok d G -> 0 <= b -> dir_blocks d - b < Z.of_nat fuel -> 0 < Z.of_nat fuel ->
  exists r, empty_loop fuel no_faults d b (dir_blocks d) = Done r /\
    (r = true <-> forall b' e, has G b' e -> b <= b' -> e_name e ∈ dots).
Proof.
  intros Hok; revert b; induction fuel as [|fuel IH]; intros b Hb Hf Hf0; [lia|]; cbn [empty_loop].
  destruct (b <? dir_blocks d) eqn:E; bool_cases.
  2:{ exists true; split; [reflexivity|]; split; [|reflexivity]; intros _ b' e Hh Hb'; pose proof (has_range _ _ _ _ Hok Hh); lia. }
  specialize (IH (b + 1) ltac:(lia) ltac:(lia) ltac:(lia)); destruct (dir_blocks_ok _ _ Hok) as [Hm _].
  assert (Hskip : (forall e, has G b e -> e_name e ∈ dots) -> exists r, empty_loop fuel no_faults d (b + 1) (dir_blocks d) = Done r /\
    (r = true <-> forall b' e, has G b' e -> b <= b' -> e_name e ∈ dots)).
  { intros Hb0; destruct IH as (r & -> & Hr); exists r; split; [reflexivity|]; rewrite Hr; split; intros H b' e Hh Hb'.
    - destruct (Z.eq_dec b' b) as [-> | Hne]; [apply Hb0, Hh | apply (H b' e Hh); lia].
    - apply (H b' e Hh); lia. }
  unfold get_lock_data_page, find_data_page, no_faults; cbn [rd_err negb Z.eqb].
  destruct (pages d !! b) as [blk|] eqn:Ep; cbn [mbind outcome_bind].
  - destruct (o_block _ _ _ _ Hok Ep) as (l & EG & Hh).
    set (start := if b =? 0 then 2 else 0).
    destruct (dots_cut d G b blk l Hok EG Hh) as (l1 & l2 & Hc & H1 & H2); fold start in Hc.
    rewrite (next_bit_ok blk l start l1 l2 Hh Hc) by (unfold start, NR_DENTRY_IN_BLOCK; destruct (b =? 0); lia).
    destruct l2 as [|e l2].
    + rewrite Z.ltb_irrefl; apply Hskip; intros e (l' & El & He); rewrite EG in El; injection El as <-.
      apply H1; rewrite (cut_app _ _ _ _ Hc), app_nil_r in He; exact He.
    + assert (He : e ∈ l) by (rewrite (cut_app _ _ _ _ Hc); apply elem_of_app; right; left).
      pose proof (stored_range _ _ (h_stored _ _ Hh e He)); rewrite (proj2 (Z.ltb_lt (e_pos e) NR_DENTRY_IN_BLOCK)) by (unfold NR_DENTRY_IN_BLOCK; lia).
      exists false; split; [reflexivity|]; split; [discriminate|]; intros Hall; destruct (H2 e ltac:(left)); apply (Hall b e); [exists l; auto | lia].
  - destruct (get_node_path (has_inline_xattr d) b) eqn:Eg; [|apply get_node_path_None in Eg; lia].
    cbn [mbind outcome_bind]; rewrite Z.eqb_refl; apply Hskip; intros e (l' & El & _); rewrite (o_hole _ _ _ Hok Ep) in El; discriminate.
Qed.

Lemma empty_dir_ok d G m : dir_ok d G -> abs G m -> f2fs_empty_dir no_faults d = Done (bool_decide (dom m = dots)).
Proof.
  intros Hok Ha; destruct (dir_blocks_ok _ _ Hok) as [Hb _].
  destruct (empty_loop_ok d G (S (Z.to_nat (dir_blocks d))) 0 Hok) as (r & Er & Hr); [lia..|].
  unfold f2fs_empty_dir; rewrite Er; f_equal; apply eq_true_iff_eq; rewrite Hr, bool_decide_eq_true; split.
  - intros Hall; apply set_eq; intros name; rewrite elem_of_dom; split.
    + intros (v & Hv); apply Ha in Hv as (b & e & Hh & <- & _); apply (Hall b e Hh); apply (has_range _ _ _ _ Hok Hh).
    + destruct (dots_present _ _ Hok) as (a & a' & q & E0 & Na & Na' & _); unfold dots; rewrite elem_of_union, !elem_of_singleton.
      intros [-> | ->]; [rewrite <- Na | rewrite <- Na']; eexists; apply (abs_has G m 0); [exact Ha | | exact Ha |]; exists (a :: a' :: q); (split; [exact E0|]); [left | right; left].
  - intros Hd b e Hh _; rewrite <- Hd; apply elem_of_dom; eexists; exact (abs_has _ _ _ _ Ha Hh).
Qed.

(** * One operation *)

Definition is_link (op : dir_op) : bool := match op with Link _ _ _ _ _ _ => true | _ => false end.

(** What a step has to show. *)
Definition step_ok (d : dir_inode) (m : names) (op : dir_op) (r : outcome (Z * dir_inode)) : Prop :=
  match r with
  | Done (a, d') => (exists m', spec m op a m' /\ dir_rep d' m') /\ i_dir_level d' = i_dir_level d /\
      i_current_depth d' <= i_current_depth d + b2z (is_link op)
  | Bug => 28 <= i_current_depth d + i_dir_level d
  | Spins => False
  end.

Lemma hinted_fields d d' : hinted d d' -> i_dir_level d' = i_dir_level d /\ i_current_depth d' = i_current_depth d /\ pages d' = pages d.
Proof. intros [-> | (h & l & -> & _)]; auto. Qed.

(** The lookup at the start of an operation. *)
Lemma find_cases d G m name : dir_ok d G -> abs G m ->
  match f2fs_find_entry no_faults d name with
  | Done (Some (b, p), d') => hinted d d' /\ exists e, has G b e /\ e_pos e = p /\ e_name e = name /\ m !! name = Some (e_ino e, e_type e)
  | Done (None, d') => hinted d d' /\ m !! name = None
  | Bug => 28 <= i_current_depth d + i_dir_level d
  | Spins => False
  end.
Proof.
  intros Hok Ha; pose proof (find_entry_ok no_faults d G name Hok) as HF.
  destruct (f2fs_find_entry no_faults d name) as [[[[b p]|] d'] | |]; [| |lia|exact HF]; destruct HF as [Hh HF]; (split; [exact Hh|]).
  - destruct HF as (e & [He _] & Hp & <-); exists e; repeat split; [exact He | exact Hp | exact (abs_has _ _ _ _ Ha He)].
  - apply (abs_None G); [exact Ha|]; intros b e He; apply (HF b e); split; [exact He | reflexivity].
Qed.

Lemma lookup_step d G m name : dir_ok d G -> abs G m -> step_ok d m (Lookup name) (exec d (Lookup name)).
Proof.
  intros Hok Ha; cbn [exec]; unfold f2fs_inode_by_name, step_ok; pose proof (find_cases d G m name Hok Ha) as HF.
  destruct (f2fs_find_entry no_faults d name) as [[[[b p]|] d'] | |]; cbn [mbind outcome_bind]; [| |exact HF..]; destruct HF as [Hh HF];
    destruct (hinted_fields _ _ Hh) as (El & Ed & Epg); cbn [is_link b2z]; (split; [|split; [exact El | lia]]); exists m; (split; [|exists G; split; [exact (hinted_ok _ _ _ Hok Hh) | exact Ha]]).
  - destruct HF as (e & (l & EG & Hin) & <- & _ & Em); cbn [spec]; rewrite Em; cbn; split; [|reflexivity].
    destruct (block_at_holds _ _ _ _ Hok EG) as [_ Hb]; unfold block_at in *; rewrite Epg.
    rewrite (st_de _ _ (h_stored _ _ Hb e Hin)); reflexivity.
  - cbn [spec]; rewrite HF; split; reflexivity.
Qed.

Lemma link_step d G m io meta name c ino mode : dir_ok d G -> abs G m -> valid_name name -> m !! name = None ->
  step_ok d m (Link io meta name c ino mode) (exec d (Link io meta name c ino mode)).
Proof.
  intros Hok Ha Hv Hn; pose proof (proj1 (abs_None _ _ _ Ha) Hn) as Habs; cbn [exec].
  pose proof (add_link_ok io meta d G name c ino mode Hok Hv Habs) as HA; unfold step_ok.
  destruct (__f2fs_add_link io meta d name c ino mode) as [[a d'] | |]; [|exact HA..]; destruct HA as (El & Ed & HA).
  cbn [is_link b2z]; split; [|split; [exact El | exact Ed]]; destruct (decide (a = 0)) as [-> | Hne].
  - destruct HA as (_ & G' & b & e & Hok' & En & Ei & Et & Hc); exists (<[name := (ino, de_type mode)]> m).
    split; [left; auto|]; exists G'; split; [exact Hok'|]; apply (abs_insert G G' m e b); [exact Ha | exact En | congruence|].
    intros b' e'; rewrite Hc; split; [intros [H | H]; [left; split; [exact H | exact (Habs b' e' H)] | auto] | intros [[H _] | H]; auto].
  - destruct HA as (G' & Hok' & Hs); exists m; split; [right; auto|]; exists G'; split; [exact Hok' | exact (abs_same _ _ _ Ha Hs)].
Qed.

Lemma unlink_step d G m name c : dir_ok d G -> abs G m -> is_dot_dotdot name = false ->
  step_ok d m (Unlink name c) (exec d (Unlink name c)).
Proof.
  intros Hok Ha Hnd; cbn [exec]; unfold step_ok; pose proof (find_cases d G m name Hok Ha) as HF.
  destruct (f2fs_find_entry no_faults d name) as [[[[b p]|] d'] | |]; cbn [mbind outcome_bind]; [| |exact HF..]; destruct HF as [Hh HF];
    destruct (hinted_fields _ _ Hh) as (El & Ed & _); pose proof (hinted_ok _ _ _ Hok Hh) as Hok'; cbn [is_link b2z].
  - destruct HF as (e & Hhe & <- & <- & Em); destruct (delete_entry_ok d' G b e c Hok' Hhe Hnd) as (El' & Ed' & G' & Hok2 & Hc).
    split; [|split; [congruence | lia]]; exists (delete (e_name e) m); split; [cbn [spec]; rewrite Em; auto|].
    exists G'; split; [exact Hok2 | exact (abs_delete _ _ _ _ Ha Hc)].
  - split; [|split; [exact El | lia]]; exists m; split; [cbn [spec]; rewrite HF; auto | exists G; auto].
Qed.

Lemma set_link_rep d G m b e ino mode : dir_ok d G -> abs G m -> has G b e ->
  dir_rep (f2fs_set_link d (b, e_pos e) ino mode) (<[e_name e := (ino, de_type mode)]> m).
Proof.
  intros Hok Ha Hhe; destruct (set_link_entry_ok d G b e ino mode Hok Hhe) as (_ & _ & G' & Hok2 & Hc).
  exists G'; split; [exact Hok2|]; apply (abs_insert G G' m (relink e ino mode) b); [exact Ha | reflexivity | reflexivity | exact Hc].
Qed.

Lemma relink_step d G m name ino mode : dir_ok d G -> abs G m -> step_ok d m (Relink name ino mode) (exec d (Relink name ino mode)).
Proof.
  intros Hok Ha; cbn [exec]; unfold step_ok; pose proof (find_cases d G m name Hok Ha) as HF.
  destruct (f2fs_find_entry no_faults d name) as [[[[b p]|] d'] | |]; cbn [mbind outcome_bind]; [| |exact HF..]; destruct HF as [Hh HF];
    destruct (hinted_fields _ _ Hh) as (El & Ed & _); pose proof (hinted_ok _ _ _ Hok Hh) as Hok'; cbn [is_link b2z].
  - destruct HF as (e & Hhe & <- & <- & Em); split; [|split; [exact El | cbn; lia]].
    exists (<[e_name e := (ino, de_type mode)]> m); split; [cbn [spec]; rewrite Em; auto | exact (set_link_rep _ _ _ _ _ _ _ Hok' Ha Hhe)].
  - split; [|split; [exact El | lia]]; exists m; split; [cbn [spec]; rewrite HF; auto | exists G; auto].
Qed.

Lemma reparent_step d G m ino mode : dir_ok d G -> abs G m -> step_ok d m (Reparent ino mode) (exec d (Reparent ino mode)).
Proof.
  intros Hok Ha; destruct (dots_present _ _ Hok) as (a & a' & q & E0 & _ & Na' & Pa' & _); destruct (block_at_holds _ _ _ _ Hok E0) as [Ep _].
  cbn [exec]; unfold f2fs_parent_dir, get_lock_data_page, find_data_page, no_faults; cbn [rd_err negb Z.eqb]; rewrite Ep; cbn [mbind outcome_bind step_ok is_link b2z].
  split; [|split; [reflexivity | cbn; lia]]; eexists; split; [split; reflexivity|]; rewrite <- Pa', <- Na'.
  apply (set_link_rep d G m 0 a'); [exact Hok | exact Ha | exists (a :: a' :: q); split; [exact E0 | right; left]].
Qed.

Lemma dir_step d m op : dir_rep d m -> allowed m op -> step_ok d m op (exec d op).
Proof.
  intros (G & Hok & Ha) Hal; destruct op.
  - exact (lookup_step d G m name Hok Ha).
  - destruct Hal; apply (link_step d G m); assumption.
  - exact (unlink_step d G m name c Hok Ha Hal).
  - exact (relink_step d G m name ino mode Hok Ha).
  - exact (reparent_step d G m ino mode Hok Ha).
  - cbn [exec]; rewrite (empty_dir_ok d G m Hok Ha); cbn [mbind outcome_bind step_ok is_link b2z]; split; [|split; [reflexivity | lia]].
    exists m; split; [split; reflexivity | exists G; auto].
Qed.

Lemma dir_steps d m ops : dir_rep d m -> legal m ops ->
  match exec_all d ops with
  | Done (answers, d') => exists m', spec_run m ops answers m' /\ dir_rep d' m'
  | Bug => 28 <= i_current_depth d + Z.of_nat (length (filter is_link ops)) + i_dir_level d
  | Spins => False
  end.
Proof.
  revert d m; induction ops as [|op ops IH]; intros d m Hr Hl; [exists m; split; [constructor | exact Hr]|].
  destruct Hl as [Hal Hl]; pose proof (dir_step d m op Hr Hal) as HS; cbn [exec_all].
  assert (Hn : Z.of_nat (length (filter is_link (op :: ops))) = b2z (is_link op) + Z.of_nat (length (filter is_link ops))).
  { rewrite filter_cons; destruct (is_link op); [rewrite decide_True by exact I | rewrite decide_False by exact id]; cbn [b2z length]; lia. }
  rewrite Hn; pose proof (b2z_range (is_link op)); destruct (exec d op) as [[a d1] | |]; cbn [mbind outcome_bind step_ok] in *; [|lia|exact HS].
  destruct HS as ((m1 & Hsp & Hr1) & El & Ed); specialize (IH d1 m1 Hr1 (Hl a m1 Hsp)).
  destruct (exec_all d1 ops) as [[l d2] | |]; cbn [mbind outcome_bind]; [|lia|exact IH].
  destruct IH as (m' & Hrun & Hr2); exists m'; split; [econstructor; eassumption | exact Hr2].
Qed.

(** The names of a new directory. *)
Definition new_names (ino mode pino pmode : Z) : names :=
  <[[DOT] := (ino, de_type mode)]> {[ [DOT; DOT] := (pino, de_type pmode) ]}.

Lemma new_dir_rep io dl xattr ino mode pino pmode d : 0 <= dl < 256 ->
  make_empty_dir io (new_dir dl xattr) ino mode pino pmode = Done (0, d) ->
  dir_rep d (new_names ino mode pino pmode) /\ i_dir_level d = dl /\ i_current_depth d = 1.
Proof.
  intros Hdl E; pose proof (make_empty_dir_ok io dl xattr ino mode pino pmode Hdl) as H; rewrite E, decide_True in H by reflexivity.
  destruct H as (El & Ed & G & Hok & Hc); split; [|auto]; exists G; split; [exact Hok|]; intros name v; unfold new_names; split.
  - rewrite lookup_insert_Some, lookup_singleton_Some; intros [[<- <-] | [_ [<- <-]]]; [exists 0, (dot ino mode) | exists 0, (dotdot pino pmode)];
      (split; [apply Hc; auto | split; reflexivity]).
  - intros (b & e & [-> [-> | ->]]%Hc & <- & <-); [apply lookup_insert_eq|].
    rewrite lookup_insert_ne by discriminate; apply lookup_singleton_eq.
Qed.

(** C6: A directory is a map from names to inode numbers and types.  From the creation
    of a directory on, every sequence of lookups, creations (with any allocation errors),
    removals, renames and emptiness tests gives the answers of the map and leaves a
    directory that represents the map; every operation ends; and [BUG()] is out of reach
    while fewer than 27 levels can have been opened. *)
Theorem directory_refinement (io : faults) (dl : Z) (xattr : bool) (ino mode pino pmode : Z)
  (d : dir_inode) (ops : list dir_op) (Hdl : 0 <= dl < 256)
  (Hnew : make_empty_dir io (new_dir dl xattr) ino mode pino pmode = Done (0, d))
  (Hlegal : legal (new_names ino mode pino pmode) ops) :
  match exec_all d ops with
  | Done (answers, d') => exists m, spec_run (new_names ino mode pino pmode) ops answers m /\ dir_rep d' m
  | Bug => 27 <= Z.of_nat (length (filter is_link ops)) + dl
  | Spins => False
  end.
Proof.
  destruct (new_dir_rep _ _ _ _ _ _ _ _ Hdl Hnew) as (Hr & El & Ed); pose proof (dir_steps d _ ops Hr Hlegal) as H; rewrite El, Ed in H.
  destruct (exec_all d ops) as [[l d'] | |]; [exact H | lia | exact H].
Qed.

Definition dir_ex : dir_inode :=
  match make_empty_dir no_faults (new_dir 0 false) 3 16877 3 16877 with Done (_, d) => d | _ => new_dir 0 false end.

Definition ops_ex : list dir_op :=
  [Link no_faults 0 [97; 98] (Some (mk_child 33188 true)) 7 33188; Lookup [97; 98]; Unlink [97; 98] None; Lookup [97; 98]; IsEmpty].

Lemma directory_refinement_witness :
  match exec_all dir_ex ops_ex with
  | Done (answers, d') => answers = [0; 7; 0; 0; 1] /\
      exists m, spec_run (new_names 3 16877 3 16877) ops_ex answers m /\ dir_rep d' m
  | _ => False
  end.
Proof.
  assert (Hl : legal (new_names 3 16877 3 16877) ops_ex).
  { split; [split; [split; vm_compute; discriminate | reflexivity]|]; intros a m _; split; [exact I|]; intros; split; [reflexivity|]; intros; split; [exact I|]; intros; split; [exact I | intros; exact I]. }
  pose proof (directory_refinement no_faults 0 false 3 16877 3 16877 dir_ex ops_ex ltac:(lia) eq_refl Hl) as H.
  assert (Ea : exists d', exec_all dir_ex ops_ex = Done ([0; 7; 0; 0; 1], d')) by (eexists; vm_compute; reflexivity).
  destruct Ea as [d' Ea]; rewrite Ea in *; split; [reflexivity | exact H].
Defined.

(** * Errors *)

(** C30: A lookup turns read errors into absence: an existing name is found exactly when
    its block can be read, and otherwise the lookup says that there is no such name, so
    that the VFS goes on to create it a second time. *)
Theorem lookup_hides_read_errors (io : faults) (d : dir_inode) (G : contents) (b : Z) (e : ent)
  (Hok : dir_ok d G) (He : has G b e) :
  match f2fs_find_entry io d (e_name e) with
  | Done (Some pl, _) => pl = (b, e_pos e) /\ rd_err io b = 0
  | Done (None, _) => rd_err io b <> 0
  | Bug => 29 <= i_current_depth d + i_dir_level d
  | Spins => False
  end.
Proof.
  pose proof (find_entry_ok io d G (e_name e) Hok) as HF.
  destruct (f2fs_find_entry io d (e_name e)) as [[[[b' p]|] d'] | |]; [| |exact HF..]; destruct HF as [_ HF].
  - destruct HF as (e' & [He' Hv] & <- & Hn); destruct (o_unique _ _ Hok b' e' b e He' He Hn) as [-> ->]; auto.
  - intros Hv; apply (HF b e); [split; assumption | reflexivity].
Qed.

Lemma lookup_hides_read_errors_witness :
  match f2fs_find_entry (mk_faults (fun _ => -5) (fun _ => 0)) dir_ex [DOT] with
  | Done (Some pl, _) => pl = (0, 0) /\ -5 = 0
  | Done (None, _) => -5 <> 0
  | Bug => 29 <= 1 + 0
  | Spins => False
  end.
Proof.
  destruct (make_empty_dir_ok no_faults 0 false 3 16877 3 16877 ltac:(lia)) as (_ & _ & G & Hok & Hc).
  exact (lookup_hides_read_errors (mk_faults (fun _ => -5) (fun _ => 0)) dir_ex G 0 (dot 3 16877) Hok (proj2 (Hc 0 (dot 3 16877)) (conj eq_refl (or_introl eq_refl)))).
Defined.

(** A bucket without room is passed over. *)
Lemma full_bucket io d fuel slots b last : (forall b', new_err io b' = 0) -> 1 <= slots -> 0 <= b -> last < 2 ^ 63 ->
  last + 1 - b < Z.of_nat fuel -> 0 < Z.of_nat fuel ->
  (forall b', b <= b' <= last -> no_room d slots b' /\ b' < max_blocks (has_inline_xattr d)) ->
  exists d', bucket_loop fuel io d slots b last = Done (inr None, d') /\ grown d d' /\ pages d' = pages d.
Proof.
  intros Hio Hs; revert d b; induction fuel as [|fuel IH]; intros d b Hb Hl Hf Hf0 Hfull; [lia|]; cbn [bucket_loop].
  destruct (b <=? last) eqn:E; bool_cases; [|exists d; split; [reflexivity | split; [apply grown_refl | reflexivity]]].
  destruct (Hfull b ltac:(lia)) as [(blk & Ep & Hno) Hm]; unfold get_new_data_page; rewrite Hio; cbn [negb Z.eqb].
  destruct (get_node_path (has_inline_xattr d) b) eqn:Eg; [|apply get_node_path_None in Eg; lia].
  rewrite Ep; cbn [from_option id mbind outcome_bind]; rewrite insert_id by exact Ep.
  destruct (room_ok blk slots Hs) as (r & -> & _ & [-> | Hr]); cbn [mbind outcome_bind]; [|destruct (Hno r); lia || apply Hr].
  rewrite Z.ltb_irrefl, (u64_small (b + 1)) by lia; set (d1 := if i_size _ <? _ then _ else _).
  assert (H1 : grown d d1 /\ pages d1 = pages d) by (unfold d1; destruct (_ <? _); split; try reflexivity; split; reflexivity).
  destruct H1 as [Hg Epg]; destruct (IH d1 (b + 1)) as (d' & -> & Hg' & Ep'); [lia.. | |].
  - intros b' Hb'; destruct (Hfull b' ltac:(lia)) as [(blk' & E' & H') Hm']; unfold no_room; rewrite Epg, (g_xattr _ _ Hg); eauto.
  - exists d'; split; [reflexivity|]; split; [exact (grown_trans _ _ _ Hg Hg') | congruence].
Qed.

Lemma full_levels io d fuel h slots level : (forall b', new_err io b' = 0) -> 1 <= slots ->
  0 <= i_dir_level d <= 22 -> i_current_depth d + i_dir_level d = 29 -> 0 <= level <= i_current_depth d ->
  i_current_depth d - level < Z.of_nat fuel ->
  (forall k b, 0 <= k < i_current_depth d -> in_bucket (i_dir_level d) k h b -> no_room d slots b /\ b < max_blocks (has_inline_xattr d)) ->
  add_loop fuel io d h slots level (i_current_depth d) = Bug.
Proof.
  intros Hio Hs; revert d level; induction fuel as [|fuel IH]; intros d level Hdl Hd Hl Hf Hfull; [lia|]; cbn [add_loop].
  rewrite (proj2 (Z.eqb_neq (i_current_depth d) MAX_DIR_HASH_DEPTH)) by (unfold MAX_DIR_HASH_DEPTH; lia).
  fold (bucket_start (i_dir_level d) level h); destruct (bucket_small (i_dir_level d) level h) as (Ha & Hb & Hbb); [lia..|].
  pose proof (bucket_start_nonneg (i_dir_level d) level h) as Hn; set (bs := bucket_start _ level h) in *.
  assert (2 ^ (level + i_dir_level d + 2) <= 2 ^ 31) by (apply Z.pow_le_mono_r; lia).
  assert (0 < 2 ^ (i_dir_level d + 1) <= 2 ^ 23) by (split; [apply Z.pow_pos_nonneg; lia | apply Z.pow_le_mono_r; lia]).
  rewrite Hbb, (u64_small (bs + 2 - 1)) by lia.
  destruct (level =? i_current_depth d) eqn:El; bool_cases.
  - replace (level + i_dir_level d + 1) with 30 in Ha by lia; cbn [Z.to_nat bucket_loop]; rewrite (proj2 (Z.leb_le bs (bs + 2 - 1))) by lia.
    unfold get_new_data_page; rewrite Hio; cbn [negb Z.eqb]; rewrite (proj2 (get_node_path_None (has_inline_xattr d) bs Hn)); [reflexivity|].
    assert (max_blocks (has_inline_xattr d) <= 1057053439) by (destruct (has_inline_xattr d); vm_compute; discriminate); lia.
  - destruct (full_bucket io d (S (Z.to_nat 2)) slots bs (bs + 2 - 1) Hio Hs Hn) as (d' & -> & [Gn Gd Gl Gx] & Ep); [lia.. | |].
    + intros b' Hb'; apply (Hfull level b'); [lia | unfold in_bucket; fold bs; lia].
    + cbn [mbind outcome_bind]; rewrite u32_small, <- Gd by lia; apply IH; rewrite ?Gl, ?Gd; [lia.. |].
      intros k b Hk Hin; destruct (Hfull k b Hk Hin) as [(blk & E' & H') Hm]; unfold no_room; rewrite Ep, Gx; eauto.
Qed.


(** A directory of 29 levels whose buckets for the name [a] are full. *)
Definition full_block : f2fs_dentry_block := with_bitmap (Z.ones 214) zero_block.

Definition hash_a : Z := Eval vm_compute in f2fs_dentry_hash [97].

Definition full_ex : dir_inode :=
  with_pages (foldr (fun k m => let b := bucket_start 0 k hash_a in <[b := full_block]> (<[b + 1 := full_block]> m)) ∅ (zseq 0 29))
    (with_depth 29 (new_dir 0 false)).

Definition full_at (m : gmap Z f2fs_dentry_block) (b : Z) : bool :=
  match m !! b with Some blk => dentry_bitmap blk =? Z.ones 214 | None => false end.

Definition full_check (k : Z) : bool :=
  let b := bucket_start 0 k hash_a in
  full_at (pages full_ex) b && full_at (pages full_ex) (b + 1) && (b + 1 <? max_blocks false) && (bucket_blocks k =? 2).

Lemma full_check_ok k : 0 <= k < 29 -> full_check k = true.
Proof.
  intros Hk; assert (Hall : forallb full_check (zseq 0 29) = true) by (vm_compute; reflexivity).
  rewrite forallb_forall in Hall; apply Hall, list_elem_of_In, elem_of_zseq; lia.
Qed.

Lemma full_at_no_room d b : full_at (pages d) b = true -> no_room d 1 b.
Proof.
  unfold full_at; intros H; destruct (pages d !! b) as [blk|] eqn:Ep; [|discriminate]; apply Z.eqb_eq in H.
  exists blk; split; [exact Ep|]; intros p Hp Hps Hf; specialize (Hf p ltac:(lia)); rewrite H in Hf; unfold test_bit, NR_DENTRY_IN_BLOCK in *.
  rewrite Z.ones_spec_low in Hf by lia; discriminate.
Qed.

Lemma full_ex_bucket k b : 0 <= k < i_current_depth full_ex -> in_bucket (i_dir_level full_ex) k (f2fs_dentry_hash [97]) b ->
  no_room full_ex (GET_DENTRY_SLOTS (zlen [97])) b /\ b < max_blocks (has_inline_xattr full_ex).
Proof.
  replace (f2fs_dentry_hash [97]) with hash_a by (vm_compute; reflexivity).
  change (i_current_depth full_ex) with 29; change (i_dir_level full_ex) with 0; change (has_inline_xattr full_ex) with false.
  change (GET_DENTRY_SLOTS (zlen [97])) with 1; intros Hk [H1 H2]; pose proof (full_check_ok k Hk) as Hc; unfold full_check in Hc; cbv zeta in Hc.
  apply andb_prop in Hc as [Hc Hb%Z.eqb_eq]; apply andb_prop in Hc as [Hc Hm%Z.ltb_lt]; apply andb_prop in Hc as [E1 E2].
  rewrite Hb in H2; split; [|lia]; apply full_at_no_room.
  assert (b = bucket_start 0 k hash_a \/ b = bucket_start 0 k hash_a + 1) as [-> | ->] by lia; assumption.
Qed.

