(* ===== verification/DirList.v ===== *)
(** Listing a directory (src/Max/dir.c: f2fs_readdir): each entry is returned exactly
    once over any number of calls, unless the block of the saved position goes away. *)

From Stdlib Require Import ZArith Lia Bool.
From stdpp Require Import base numbers list gmap sorting.
From S2P Require Import Prelude Layout NodePath Hash Dentry DentryOps Dir DirInv DirOps DirSpec.

#[local] Open Scope Z_scope.
#[local] Ltac Zify.zify_post_hook ::= Z.to_euclidean_division_equations.

(** * What is left to list *)

(** The entries of the blocks from [n] on. *)
Definition list_from (G : contents) (n np : Z) : list ent :=
  concat (map (fun b => default [] (G !! b)) (zseq n (Z.to_nat (np - n)))).

(** Blocks that can be listed; a directory with its invariant is one such. *)
Record listable (d : dir_inode) (G : contents) : Prop := {
  ls_pages : blocks_hold (pages d) G;
  ls_range : forall b l, G !! b = Some l -> 0 <= b < dir_blocks d;
  ls_blocks : 0 <= dir_blocks d <= max_blocks (has_inline_xattr d);
  ls_pos : dir_blocks d * NR_DENTRY_IN_BLOCK < 2 ^ 32;
}.

(** The entries [r] remain at position [p]. *)
Definition at_pos (G : contents) (np p : Z) (r : list ent) : Prop :=
  0 <= p < 2 ^ 32 /\
  ((p mod 214 = 0 /\ r = list_from G (p / 214) np) \/
   exists l l1 l2, G !! (p / 214) = Some l /\ cut l (p mod 214) l1 l2 /\ r = l2 ++ list_from G (p / 214 + 1) np).

(** The same, for the loop about to look at block [n]. *)
Definition ready (G : contents) (np p n : Z) (r : list ent) : Prop :=
  (p mod 214 = 0 /\ r = list_from G n np) \/
  exists l l1 l2, G !! n = Some l /\ cut l (p mod 214) l1 l2 /\ r = l2 ++ list_from G (n + 1) np.

Lemma list_from_nil G n np : np <= n -> list_from G n np = [].
Proof. intros H; unfold list_from; replace (Z.to_nat (np - n)) with O by lia; reflexivity. Qed.

Lemma list_from_cons G n np : n < np -> list_from G n np = default [] (G !! n) ++ list_from G (n + 1) np.
Proof. intros H; unfold list_from; replace (Z.to_nat (np - n)) with (S (Z.to_nat (np - (n + 1)))) by lia; reflexivity. Qed.

Lemma elem_of_list_from G n np e : e ∈ list_from G n np <-> exists b, n <= b < np /\ has G b e.
Proof.
  unfold list_from; rewrite list_elem_of_In, in_concat; split.
  - intros (l & Hl & He); apply in_map_iff in Hl as (b & <- & Hb); apply list_elem_of_In, elem_of_zseq in Hb; exists b; split; [lia|].
    destruct (G !! b) as [l|] eqn:E; [exists l; split; [exact E | apply list_elem_of_In; exact He] | inversion He].
  - intros (b & Hb & l & E & He); exists l; split; [|apply list_elem_of_In; exact He].
    apply in_map_iff; exists b; rewrite E; split; [reflexivity | apply list_elem_of_In, elem_of_zseq; lia].
Qed.

Lemma cut_steps d l b l1 q l2 e : holds d l -> cut l b l1 (q ++ l2) -> last q = Some e -> cut l (e_end e) (l1 ++ q) l2.
Proof.
  intros Hh; revert b l1; induction q as [|x q IH]; intros b l1 Hc Hl; [discriminate|].
  pose proof (cut_step _ _ _ _ _ _ Hh Hc) as Hc1; destruct q as [|y q]; [injection Hl as <-; exact Hc1|].
  rewrite last_cons_cons in Hl; specialize (IH _ _ Hc1 Hl); rewrite <- app_assoc in IH; exact IH.
Qed.

Lemma take_last {A} (l : list A) k x : (0 < k)%nat -> last (take k (x :: l)) <> None.
Proof. destruct k; [lia|]; cbn [take]; intros _; destruct (take k l) eqn:E; [discriminate|]; rewrite last_cons; destruct (last (a :: l0)); discriminate. Qed.

(** Where the position is when the callback refuses an entry of block [n]. *)
Lemma refused_pos d G blk n p k l l1 l2 : listable d G -> holds blk l -> G !! n = Some l ->
  cut l (p mod 214) l1 l2 -> (k < length l2)%nat -> at_pos G (dir_blocks d) p (l2 ++ list_from G (n + 1) (dir_blocks d)) ->
  at_pos G (dir_blocks d) (pos_after p (u32 (n * NR_DENTRY_IN_BLOCK)) (take k l2)) (drop k (l2 ++ list_from G (n + 1) (dir_blocks d))).
Proof.
  intros Hls Hh EG Hc Hk Hat; destruct k as [|k].
  - rewrite !take_0, drop_0; exact Hat.
  - destruct l2 as [|x l2]; [cbn in Hk; lia|]; unfold pos_after; destruct (last (take (S k) (x :: l2))) as [e|] eqn:El; [|apply take_last in El; [contradiction | lia]].
    pose proof Hc as Hc'; rewrite <- (take_drop (S k) (x :: l2)) in Hc'; pose proof (cut_steps _ _ _ _ _ _ _ Hh Hc' El) as Hce.
    destruct (drop (S k) (x :: l2)) as [|y l3] eqn:Ed; [apply (f_equal length) in Ed; rewrite length_drop in Ed; cbn [length] in *; lia|].
    assert (He : e ∈ l).
    { rewrite (cut_app _ _ _ _ Hc), <- (take_drop (S k) (x :: l2)); apply last_Some in El as (q & ->); set_solver. }
    pose proof (stored_range _ _ (h_stored _ _ Hh e He)) as (Hp & He' & _).
    assert (Hy : e_end e < 214).
    { pose proof (cut_after _ _ _ _ Hce y ltac:(left)); assert (Hyl : y ∈ l) by (rewrite (cut_app _ _ _ _ Hce); apply elem_of_app; right; left).
      pose proof (stored_range _ _ (h_stored _ _ Hh y Hyl)); lia. }
    pose proof (ls_range _ _ Hls _ _ EG) as Hn; pose proof (ls_pos _ _ Hls) as Hpos; unfold NR_DENTRY_IN_BLOCK in *.
    rewrite (u32_small (n * 214)), u32_small by lia; split; [lia|]; right.
    replace ((n * 214 + e_end e) / 214) with n by lia; replace ((n * 214 + e_end e) mod 214) with (e_end e) by lia.
    exists l, (l1 ++ take (S k) (x :: l2)), (drop (S k) (x :: l2)); split; [exact EG|]; rewrite Ed; split; [exact Hce|].
    rewrite drop_app_le by (cbn [length] in *; lia); rewrite Ed; reflexivity.
Qed.

Lemma readdir_loop_ok io d G fuel ctx n r : reads_fine io -> listable d G -> 0 <= n ->
  dir_blocks d - n < Z.of_nat fuel -> 0 < Z.of_nat fuel -> ready G (dir_blocks d) (ctx_pos ctx) n r ->
  exists ctx', readdir_loop fuel io d ctx n (dir_blocks d) = Done ctx' /\
    emitted ctx' = emitted ctx ++ map shown (take (ctx_room ctx) r) /\
    (at_pos G (dir_blocks d) (ctx_pos ctx) r -> at_pos G (dir_blocks d) (ctx_pos ctx') (drop (ctx_room ctx) r)).
Proof.
  intros Hio Hls; revert ctx n r; induction fuel as [|fuel IH]; intros ctx n r Hn Hf Hf0 Hr; [lia|]; cbn [readdir_loop].
  set (np := dir_blocks d) in *; pose proof (ls_pos _ _ Hls) as Hpos; fold np in Hpos; unfold NR_DENTRY_IN_BLOCK in Hpos.
  destruct (n <? np) eqn:E; bool_cases.
  2:{ assert (r = []) as -> by (destruct Hr as [[_ ->] | (l & l1 & l2 & EG & _)]; [apply list_from_nil; lia | pose proof (ls_range _ _ Hls _ _ EG); lia]).
      exists ctx; split; [reflexivity|]; rewrite take_nil, drop_nil, app_nil_r; auto. }
  unfold get_lock_data_page, find_data_page; rewrite Hio; cbn [negb Z.eqb]; pose proof (ls_pages _ _ Hls n) as Hb; pose proof (ls_blocks _ _ Hls) as Hm; fold np in Hm.
  destruct (pages d !! n) as [blk|] eqn:Ep; destruct (G !! n) as [l|] eqn:EG; try contradiction; cbn [mbind outcome_bind].
  - assert (Hc : exists l1 l2, cut l (ctx_pos ctx mod 214) l1 l2 /\ r = l2 ++ list_from G (n + 1) np).
    { destruct Hr as [[Ha ->] | (l' & l1 & l2 & EG' & Hc & ->)]; [|rewrite EG in EG'; injection EG' as <-; eauto].
      rewrite Ha, (list_from_cons G n np), EG by lia; exists [], l; split; [exact (cut_start _ _ Hb) | reflexivity]. }
    destruct Hc as (l1 & l2 & Hc & ->); rewrite (fill_dentries_ok blk l ctx _ l1 l2 Hb Hc); cbn [mbind outcome_bind].
    destruct (length l2 <=? ctx_room ctx)%nat eqn:El; cbn [negb].
    + apply Nat.leb_le in El; rewrite (u32_small (n + 1)), (u32_small ((n + 1) * NR_DENTRY_IN_BLOCK)) by (unfold NR_DENTRY_IN_BLOCK; lia).
      rewrite (take_ge l2) by exact El; set (ctx1 := with_pos _ _).
      destruct (IH ctx1 (n + 1) (list_from G (n + 1) np)) as (ctx' & -> & Em & Hat); [lia | lia | lia | left; split; [cbn; unfold NR_DENTRY_IN_BLOCK; lia | reflexivity]|].
      exists ctx'; split; [reflexivity|]; cbn in Em; split.
      * rewrite Em, <- app_assoc, <- map_app, take_app, (take_ge l2) by exact El; reflexivity.
      * intros _; rewrite drop_app, (drop_ge l2), app_nil_l by exact El; apply Hat; cbn [ctx1 ctx_pos with_pos]; split; [unfold NR_DENTRY_IN_BLOCK; lia|].
        left; unfold NR_DENTRY_IN_BLOCK; split; [lia|]; f_equal; lia.
    + apply Nat.leb_gt in El; eexists; split; [reflexivity|]; cbn [emitted ctx_pos]; split; [rewrite take_app_le by lia; reflexivity|].
      apply (refused_pos d G blk n (ctx_pos ctx) (ctx_room ctx) l l1 l2 Hls Hb EG Hc El).
  - destruct (get_node_path (has_inline_xattr d) n) eqn:Eg; [|apply get_node_path_None in Eg; lia]; cbn [mbind outcome_bind].
    rewrite u32_small by lia; apply IH; [lia..|]; left; destruct Hr as [[Ha ->] | (l' & l1 & l2 & EG' & _)]; [|congruence].
    split; [exact Ha|]; rewrite (list_from_cons G n np), EG by lia; reflexivity.
Qed.

Lemma readdir_ok io d G ctx r : reads_fine io -> listable d G -> at_pos G (dir_blocks d) (ctx_pos ctx) r ->
  exists ctx', f2fs_readdir io d ctx = Done ctx' /\
    emitted ctx' = emitted ctx ++ map shown (take (ctx_room ctx) r) /\
    at_pos G (dir_blocks d) (ctx_pos ctx') (drop (ctx_room ctx) r).
Proof.
  intros Hio Hls Hat; destruct Hat as [Hp Hr] eqn:Eat; clear Eat; unfold f2fs_readdir.
  rewrite u64_small, u32_small by (unfold NR_DENTRY_IN_BLOCK; lia).
  destruct (readdir_loop_ok io d G (S (Z.to_nat (dir_blocks d - ctx_pos ctx / NR_DENTRY_IN_BLOCK))) ctx (ctx_pos ctx / NR_DENTRY_IN_BLOCK) r Hio Hls)
    as (ctx' & E & Em & Hat'); [unfold NR_DENTRY_IN_BLOCK; lia.. | exact Hr|].
  exists ctx'; split; [exact E|]; split; [exact Em | exact (Hat' Hat)].
Qed.

(** * Several calls

    Each call of readdir brings a new buffer; the position stays in the open file. *)

Fixpoint readdir_calls (io : faults) (d : dir_inode) (ctx : dir_context) (rooms : list nat) : outcome dir_context :=
  match rooms with
  | [] => Done ctx
  | k :: rooms => ctx ← f2fs_readdir io d (mk_ctx (ctx_pos ctx) (emitted ctx) k); readdir_calls io d ctx rooms
  end.

Lemma take_add {A} (k n : nat) (l : list A) : take (k + n) l = take k l ++ take n (drop k l).
Proof. revert l; induction k as [|k IH]; intros [|x l]; [reflexivity.. | rewrite !take_nil, drop_nil, take_nil; reflexivity | cbn; rewrite IH; reflexivity]. Qed.

Lemma readdir_calls_ok io d G rooms ctx r : reads_fine io -> listable d G -> at_pos G (dir_blocks d) (ctx_pos ctx) r ->
  exists ctx', readdir_calls io d ctx rooms = Done ctx' /\ emitted ctx' = emitted ctx ++ map shown (take (sum_list rooms) r).
Proof.
  intros Hio Hls; revert ctx r; induction rooms as [|k rooms IH]; intros ctx r Hat; cbn [readdir_calls sum_list sum_list_with].
  - exists ctx; split; [reflexivity|]; rewrite take_0, app_nil_r; reflexivity.
  - destruct (readdir_ok io d G (mk_ctx (ctx_pos ctx) (emitted ctx) k) r Hio Hls Hat) as (ctx1 & -> & Em & Hat1); cbn [mbind outcome_bind ctx_room emitted] in *.
    destruct (IH ctx1 (drop k r) Hat1) as (ctx' & -> & Em'); exists ctx'; split; [reflexivity|].
    rewrite Em', Em, <- app_assoc, <- map_app, <- take_add; reflexivity.
Qed.

(** * The whole directory *)

Lemma ok_listable d G : dir_ok d G -> dir_blocks d * NR_DENTRY_IN_BLOCK < 2 ^ 32 -> listable d G.
Proof.
  intros Hok Hp; destruct (dir_blocks_ok _ _ Hok) as [Hb Es]; split; [apply Hok | | lia | exact Hp].
  intros b l E; destruct (o_range _ _ Hok b l E) as [Hr Hs]; rewrite Es, !Z.shiftl_mul_pow2 in Hs by lia; lia.
Qed.

Lemma list_from_NoDup d G n np : dir_ok d G -> NoDup (list_from G n np).
Proof.
  intros Hok; remember (Z.to_nat (np - n)) as k eqn:Ek; revert n Ek; induction k as [|k IH]; intros n Ek; [rewrite list_from_nil by lia; constructor|].
  rewrite list_from_cons by lia; apply NoDup_app; split; [|split].
  - destruct (G !! n) as [l|] eqn:E; [|constructor]; destruct (block_at_holds _ _ _ _ Hok E) as [_ Hh]; cbn.
    pose proof (h_sorted _ _ Hh) as HS; pose proof (h_stored _ _ Hh) as Hst; clear Hh E; induction HS as [|e l HS IHl HF]; [constructor|].
    constructor; [|apply IHl; intros x Hx; apply Hst; right; exact Hx]; intros Hin; rewrite Forall_forall in HF; specialize (HF e Hin).
    pose proof (stored_range _ _ (Hst e ltac:(left))); lia.
  - intros e He (b & Hb & Hh)%elem_of_list_from; destruct (G !! n) as [l|] eqn:E; [|inversion He].
    destruct (o_unique _ _ Hok b e n e Hh) as [-> _]; [exists l; split; [exact E | exact He] | reflexivity | lia].
  - apply IH; lia.
Qed.

Definition entry_of (e : ent) : list Z * (Z * Z) := (e_name e, (e_ino e, e_type e)).

(** The listing holds each name of the map once. *)
Lemma listing_is_map d G m : dir_ok d G -> abs G m -> map entry_of (list_from G 0 (dir_blocks d)) ≡ₚ map_to_list m.
Proof.
  intros Hok Ha; apply NoDup_Permutation; [|apply NoDup_map_to_list|].
  - apply (NoDup_fmap_2_strong entry_of); [|exact (list_from_NoDup d G _ _ Hok)].
    intros x y (b & _ & Hx)%elem_of_list_from (b' & _ & Hy)%elem_of_list_from [= Hn _ _]; apply (o_unique _ _ Hok b x b' y Hx Hy Hn).
  - intros [name v]; rewrite elem_of_map_to_list, (Ha name v), list_elem_of_In, in_map_iff; split.
    + intros (e & [= <- <-] & (b & _ & Hh)%list_elem_of_In%elem_of_list_from); exists b, e; auto.
    + intros (b & e & Hh & <- & <-); exists e; split; [reflexivity|]; apply list_elem_of_In, elem_of_list_from; exists b; split; [exact (has_range _ _ _ _ Hok Hh) | exact Hh].
Qed.

(** What readdir shows of a name in the map. *)
Definition shown_name (x : list Z * (Z * Z)) : list Z * Z * Z :=
  (fst x, fst (snd x), if snd (snd x) <? F2FS_FT_MAX then f2fs_filetype_table.[snd (snd x)] else DT_UNKNOWN).



(** * A block goes away between two calls *)

Lemma readdir_holes io d G fuel ctx n f : reads_fine io -> listable d G -> 0 <= n <= f -> f <= dir_blocks d ->
  (forall b, n <= b < f -> G !! b = None) ->
  readdir_loop (Z.to_nat (f - n) + fuel) io d ctx n (dir_blocks d) = readdir_loop fuel io d ctx f (dir_blocks d).
Proof.
  intros Hio Hls; remember (Z.to_nat (f - n)) as k eqn:Ek; revert n Ek; induction k as [|k IH]; intros n Ek Hn Hf Hgap.
  - replace f with n by lia; reflexivity.
  - pose proof (ls_pos _ _ Hls) as Hpos; pose proof (ls_blocks _ _ Hls); unfold NR_DENTRY_IN_BLOCK in Hpos.
    cbn [Nat.add readdir_loop]; rewrite (proj2 (Z.ltb_lt n (dir_blocks d))) by lia.
    unfold get_lock_data_page at 1, find_data_page at 1; rewrite Hio; cbn [negb Z.eqb]; pose proof (ls_pages _ _ Hls n) as Hb; rewrite (Hgap n) in Hb by lia.
    destruct (pages d !! n); [contradiction|]; destruct (get_node_path (has_inline_xattr d) n) eqn:Eg; [|apply get_node_path_None in Eg; lia].
    cbn [mbind outcome_bind]; rewrite u32_small by lia; apply IH; [lia.. | intros b Hb'; apply Hgap; lia].
Qed.

(** C28: When the block of the saved position has been freed, as f2fs_delete_entry does with
    a block whose last entry goes, the next call of readdir applies the slot number of the
    saved position to the next block there is: the entries of that block in front of the
    slot ([l1]) are skipped, although they come after the position and were not listed. *)
Theorem readdir_skips_after_freed_block (d : dir_inode) (G : contents) (p f : Z) (l l1 l2 : list ent) (room : nat)
  (Hls : listable d G) (Hp : 0 <= p < 2 ^ 32) (Hf : p / NR_DENTRY_IN_BLOCK < f)
  (Hgap : forall b, p / NR_DENTRY_IN_BLOCK <= b < f -> G !! b = None)
  (Hnext : G !! f = Some l) (Hcut : cut l (p mod NR_DENTRY_IN_BLOCK) l1 l2) :
  exists ctx, f2fs_readdir no_faults d (mk_ctx p [] room) = Done ctx /\
    emitted ctx = map shown (take room (l2 ++ list_from G (f + 1) (dir_blocks d))) /\
    l1 ++ l2 ++ list_from G (f + 1) (dir_blocks d) = list_from G (p / NR_DENTRY_IN_BLOCK) (dir_blocks d).
Proof.
  pose proof (ls_range _ _ Hls _ _ Hnext) as Hfr; unfold NR_DENTRY_IN_BLOCK in *; set (n := p / 214) in *; assert (Hn : 0 <= n) by (unfold n; lia).
  assert (Hio : reads_fine no_faults) by (intros b; reflexivity).
  assert (Hlist : list_from G n (dir_blocks d) = list_from G f (dir_blocks d)).
  { clearbody n; assert (Hnf : n <= f) by lia; clear Hf; remember (Z.to_nat (f - n)) as k eqn:Ek; revert n Ek Hgap Hn Hnf; induction k as [|k IH]; intros n Ek Hgap Hn Hnf; [f_equal; lia|].
    rewrite list_from_cons, (Hgap n) by lia; apply IH; [lia | intros b Hb; apply Hgap; lia | lia | lia]. }
  unfold f2fs_readdir; cbn [ctx_pos]; rewrite (u64_small p) by lia; change (p / NR_DENTRY_IN_BLOCK) with n; rewrite (u32_small n) by (unfold n; lia).
  replace (S (Z.to_nat (dir_blocks d - n))) with (Z.to_nat (f - n) + S (Z.to_nat (dir_blocks d - f)))%nat by lia.
  rewrite (readdir_holes no_faults d G) by (auto; lia).
  destruct (readdir_loop_ok no_faults d G (S (Z.to_nat (dir_blocks d - f))) (mk_ctx p [] room) f (l2 ++ list_from G (f + 1) (dir_blocks d)) Hio Hls)
    as (ctx & E & Em & _); [lia.. | right; exists l, l1, l2; auto|].
  exists ctx; split; [exact E|]; split; [exact Em|]; rewrite Hlist, (list_from_cons G f), Hnext by lia; cbn [from_option id].
  rewrite (cut_app _ _ _ _ Hcut), <- app_assoc; reflexivity.
Qed.

(** The entry [b] in the first slot of block 4; the position is in block 2, behind an
    entry that has been removed since. *)
Definition b_ex : ent := mk_ent 0 [98] 2 9 1.

Definition hole_ex : dir_inode :=
  with_size 20480 (with_pages (<[0 := do_make_empty_dir 3 16877 3 16877 zero_block]> {[4 := f2fs_update_dentry 9 33188 zero_block [98] 2 0]}) (new_dir 2 false)).

Definition hole_contents : contents := <[0 := [dot 3 16877; dotdot 3 16877]]> {[4 := [b_ex]]}.

Lemma hole_listable : listable hole_ex hole_contents.
Proof.
  split.
  - intros b; unfold hole_ex, hole_contents; cbn [pages with_pages with_size]; destruct (Z.eq_dec b 0) as [-> | H0]; [rewrite !lookup_insert_eq; apply empty_block_ok|].
    rewrite !lookup_insert_ne by congruence; destruct (Z.eq_dec b 4) as [-> | H4]; [rewrite !lookup_singleton_eq | rewrite !lookup_singleton_ne by congruence; exact I].
    apply (update_dentry_ok zero_block [] [] []); [apply zero_block_ok | split; vm_compute; discriminate | lia | vm_compute; discriminate | |];
      [split; [reflexivity | intros e He; inversion He..] | intros e He; inversion He].
  - intros b l E; change (dir_blocks hole_ex) with 5; unfold hole_contents in E; apply lookup_insert_Some in E as [[<- _] | [_ E]]; [lia | apply lookup_singleton_Some in E as [<- _]; lia].
  - split; vm_compute; discriminate.
  - reflexivity.
Qed.

Lemma readdir_skips_after_freed_block_witness :
  exists ctx, f2fs_readdir no_faults hole_ex (mk_ctx 429 [] 100) = Done ctx /\ emitted ctx = [] /\
    [b_ex] ++ [] ++ list_from hole_contents 5 5 = list_from hole_contents 2 5.
Proof.
  apply (readdir_skips_after_freed_block hole_ex hole_contents 429 4 [b_ex] [b_ex] [] 100 hole_listable);
    [lia | reflexivity | | reflexivity | split; [reflexivity | intros e ->%list_elem_of_singleton; vm_compute; discriminate | intros e He; inversion He]].
  intros b Hb; change (429 / NR_DENTRY_IN_BLOCK) with 2 in Hb; assert (b = 2 \/ b = 3) as [-> | ->] by lia; reflexivity.
Defined.
