(* ===== verification/NodeTree.v ===== *)
(** The node tree of a file (src/Max/node.c, node.h, data.c, file.c): how the inode and its
    direct and indirect nodes map a block index to a block address, how nodes and blocks
    are added, and how a truncation removes them. *)

From Stdlib Require Import ZArith Lia Bool.
From stdpp Require Import base numbers list gmap.
From S2P Require Import Prelude Layout NodePath.

#[local] Open Scope Z_scope.
#[local] Ltac Zify.zify_post_hook ::= Z.to_euclidean_division_equations.

(** * State

    [ft_addr] and [ft_nid] are [i_addr] and [i_nid] of the inode's node page, [ft_pages]
    the other node pages by node id (the 1018 addresses or ids of a direct or indirect
    node).  [ft_freed] and [ft_gone] record what was handed to [invalidate_blocks]: the
    addresses of data blocks, and the ids of nodes.  [i_blocks] is 64 bits wide and counts
    fewer than 2^32 blocks, so it is kept as it is; [ft_bug] is raised by [f2fs_bug_on],
    also when [i_blocks] would go below zero. *)
Record ftree := mk_ft {
  ft_ino : Z;
  ft_inline_xattr : bool;
  ft_inline_data : bool;
  ft_addr : list Z;
  ft_nid : list Z;
  ft_pages : gmap Z (list Z);
  ft_blocks : Z;
  ft_freed : list Z;
  ft_gone : list Z;
  ft_bug : bool;
}.

Definition with_nodes (addr nid : list Z) (pages : gmap Z (list Z)) (t : ftree) : ftree :=
  mk_ft (ft_ino t) (ft_inline_xattr t) (ft_inline_data t) addr nid pages (ft_blocks t) (ft_freed t) (ft_gone t) (ft_bug t).

Definition with_tally (blocks : Z) (freed gone : list Z) (bug : bool) (t : ftree) : ftree :=
  mk_ft (ft_ino t) (ft_inline_xattr t) (ft_inline_data t) (ft_addr t) (ft_nid t) (ft_pages t) blocks freed gone bug.

(** What the rest of the system answers during a call: the error reading the page of a
    node ([0] is success), whether pages and blocks are left, the node ids [alloc_nid]
    hands out for the nodes of each level, the node pages that are in the page cache, and
    the number of node mappings (file cells). *)
Record tworld := mk_tw {
  tw_page_err : Z -> Z;
  tw_no_alloc : bool;
  tw_grab : Z -> bool;
  tw_node_room : Z -> bool;
  tw_block_room : bool;
  tw_nid : Z -> option Z;
  tw_cached : gset Z;
  tw_node_count : Z;
}.

(** * Node pages

    A node page is named by its id; [None] is the page of the inode. *)

Definition blkaddr_in_node (t : ftree) (node : option Z) : list Z :=
  match node with None => ft_addr t | Some nid => default [] (ft_pages t !! nid) end.

Definition datablock_addr (t : ftree) (node : option Z) (offset : Z) : Z := (blkaddr_in_node t node).[offset].

Definition get_nid (t : ftree) (p : option Z) (off : Z) : Z :=
  match p with
  | None => (ft_nid t).[off - NODE_DIR1_BLOCK]
  | Some n => (default [] (ft_pages t !! n)).[off]
  end.

Definition set_nid (p : option Z) (off nid : Z) (t : ftree) : ftree :=
  match p with
  | None => with_nodes (ft_addr t) ((ft_nid t).[off - NODE_DIR1_BLOCK <- nid]) (ft_pages t) t
  | Some n => with_nodes (ft_addr t) (ft_nid t) (<[n := (default [] (ft_pages t !! n)).[off <- nid]]> (ft_pages t)) t
  end.

Definition get_node_page (w : tworld) (t : ftree) (nid : Z) : Z + list Z :=
  if tw_page_err w nid <? 0 then inl (tw_page_err w nid)
  else match ft_pages t !! nid with None => inl (- ENOENT) | Some l => inr l end.

(** The error reading the page of the inode itself, which exists. *)
Definition inode_page_err (w : tworld) (t : ftree) : Z :=
  if tw_page_err w (ft_ino t) <? 0 then tw_page_err w (ft_ino t) else 0.

Definition new_page : list Z := replicate 1018 0.

#[global] Arguments new_page : simpl never.

(** A new page of zeroes; an id that already has a node fails the check of its address. *)
Definition new_node_page (w : tworld) (nid : Z) (t : ftree) : Z * ftree :=
  if tw_no_alloc w then (- EPERM, t)
  else if negb (tw_grab w nid) then (- ENOMEM, t)
  else if negb (tw_node_room w nid) then (- ENOSPC, t)
  else
    (0, with_tally (ft_blocks t + 1) (ft_freed t) (ft_gone t) (ft_bug t || bool_decide (is_Some (ft_pages t !! nid)))
          (with_nodes (ft_addr t) (ft_nid t) (<[nid := new_page]> (ft_pages t)) t)).

(** The read-ahead of the siblings leaves [nid] at the id of the last of them.  The page
    is then compared with the mapping of that id, and the lookup starts over with it when
    the two ids belong to different file cells. *)
Definition MAX_RA_NODE : Z := 128.

Definition ra_siblings (t : ftree) (parent : option Z) (start : Z) : list Z :=
  map (get_nid t parent) (zseq (start + 1) (Z.to_nat (Z.min (start + MAX_RA_NODE) NIDS_PER_BLOCK - (start + 1)))).

Definition ra_node_page (w : tworld) (t : ftree) (nid : Z) (cached : gset Z) : gset Z :=
  if nid =? 0 then cached else match get_node_page w t nid with inl _ => cached | inr _ => {[nid]} ∪ cached end.

Fixpoint ra_repeat (fuel : nat) (w : tworld) (t : ftree) (parent : option Z) (start nid : Z) (cached : gset Z)
    : outcome (Z + Z) :=
  match fuel with
  | O => Spins
  | S fuel =>
      match get_node_page w t nid with
      | inl err => Done (inl err)
      | inr _ =>
          if bool_decide (nid ∈ cached) then Done (inr nid)
          else
            let sibs := ra_siblings t parent start in
            let cached := fold_left (fun c n => ra_node_page w t n c) sibs ({[nid]} ∪ cached) in
            let nid' := List.last sibs nid in
            if nid mod tw_node_count w =? nid' mod tw_node_count w then Done (inr nid)
            else ra_repeat fuel w t parent start nid' cached
      end
  end.

(** The id of the page that is returned, or an error. *)
Definition get_node_page_ra (w : tworld) (t : ftree) (parent : option Z) (start : Z) : outcome (Z + Z) :=
  let nid := get_nid t parent start in
  if nid =? 0 then Done (inl (- ENOENT)) else ra_repeat 3 w t parent start nid (tw_cached w).

(** * Looking up and adding nodes *)

Inductive node_mode := ALLOC_NODE | LOOKUP_NODE | LOOKUP_NODE_RA.

(** [dn_page] is the page in which the entry at [dn_ofs] is; the fields that only carry
    locks and references are left out. *)
Record dnode_of_data := mk_dn { dn_nid : Z; dn_page : option Z; dn_ofs : Z; dn_addr : Z }.

(** One round of the loop over the levels: the page of node [nid], the child of [parent]
    at level [i]. *)
Definition dnode_level (w : tworld) (mode : node_mode) (offset : list Z) (level i : Z) (parent : option Z) (nid : Z)
    (t : ftree) : outcome ((Z + Z * Z) * ftree) :=
  match mode with
  | ALLOC_NODE =>
      if nid =? 0 then
        match tw_nid w i with
        | None => Done (inl (- ENOSPC), t)
        | Some n =>
            let '(err, t1) := new_node_page w n t in
            if err <? 0 then Done (inl err, t1) else Done (inr (n, n), set_nid parent (offset.[i - 1]) n t1)
        end
      else match get_node_page w t nid with inl err => Done (inl err, t) | inr _ => Done (inr (nid, nid), t) end
  | LOOKUP_NODE => match get_node_page w t nid with inl err => Done (inl err, t) | inr _ => Done (inr (nid, nid), t) end
  | LOOKUP_NODE_RA =>
      if (i =? level) && (1 <? level) then
        r ← get_node_page_ra w t parent (offset.[i - 1]);
        match r with inl err => Done (inl err, t) | inr page => Done (inr (nid, page), t) end
      else match get_node_page w t nid with inl err => Done (inl err, t) | inr _ => Done (inr (nid, nid), t) end
  end.

(** The loop; [n] levels are left. *)
Fixpoint dnode_levels (n : nat) (w : tworld) (mode : node_mode) (offset : list Z) (level i : Z) (parent : option Z)
    (nid : Z) (t : ftree) : outcome ((Z + Z * option Z) * ftree) :=
  match n with
  | O => Done (inr (nid, parent), t)
  | S n =>
      '(r, t) ← dnode_level w mode offset level i parent nid t;
      match r with
      | inl err => Done (inl err, t)
      | inr (id, page) =>
          if i <? level then dnode_levels n w mode offset level (i + 1) (Some page) (get_nid t (Some page) (offset.[i])) t
          else Done (inr (id, Some page), t)
      end
  end.

(** [have_ipage]: the caller holds the page of the inode. *)
Definition get_dnode_of_data (w : tworld) (have_ipage : bool) (index : Z) (mode : node_mode) (t : ftree)
    : outcome ((Z + dnode_of_data) * ftree) :=
  match get_node_path (ft_inline_xattr t) index with
  | None => Bug
  | Some path =>
      let level := np_level path in
      let offset := np_offset path in
      if negb have_ipage && (inode_page_err w t <? 0) then Done (inl (inode_page_err w t), t)
      else if ft_inline_data t && negb (index =? 0) then Done (inl (- ENOENT), t)
      else
        '(r, t) ← (if level =? 0 then Done (inr (ft_ino t, None), t)
                   else dnode_levels (Z.to_nat level) w mode offset level 1 None (get_nid t None (offset.[0])) t);
        match r with
        | inl err => Done (inl err, t)
        | inr (nid, page) => Done (inr (mk_dn nid page (offset.[level]) (datablock_addr t page (offset.[level]))), t)
        end
  end.

(** * Entries *)

Definition set_data_blkaddr (node : option Z) (ofs addr : Z) (t : ftree) : ftree :=
  match node with
  | None => with_nodes ((ft_addr t).[ofs <- addr]) (ft_nid t) (ft_pages t) t
  | Some n => with_nodes (ft_addr t) (ft_nid t) (<[n := (default [] (ft_pages t !! n)).[ofs <- addr]]> (ft_pages t)) t
  end.

(** [dec_valid_block_count] on the counter of the inode. *)
Definition dec_valid_block_count (count : Z) (t : ftree) : ftree :=
  with_tally (ft_blocks t - count) (ft_freed t) (ft_gone t) (ft_bug t || (ft_blocks t <? count)) t.

Definition inc_valid_block_count (w : tworld) (count : Z) (t : ftree) : bool * ftree :=
  if tw_block_room w then (true, with_tally (ft_blocks t + count) (ft_freed t) (ft_gone t) (ft_bug t) t)
  else (false, t).

Definition reserve_new_block (w : tworld) (dn : dnode_of_data) (t : ftree) : (Z * dnode_of_data) * ftree :=
  if tw_no_alloc w then (- EPERM, dn, t)
  else
    let '(ok, t) := inc_valid_block_count w 1 t in
    if negb ok then (- ENOSPC, dn, t)
    else (0, mk_dn (dn_nid dn) (dn_page dn) (dn_ofs dn) NEW_ADDR, set_data_blkaddr (dn_page dn) (dn_ofs dn) NEW_ADDR t).

Definition f2fs_reserve_block (w : tworld) (have_ipage : bool) (index : Z) (t : ftree)
    : outcome ((Z + dnode_of_data) * ftree) :=
  '(r, t) ← get_dnode_of_data w have_ipage index ALLOC_NODE t;
  match r with
  | inl err => Done (inl err, t)
  | inr dn =>
      if dn_addr dn =? NULL_ADDR then
        let '(err, dn, t) := reserve_new_block w dn t in
        Done (if err =? 0 then inr dn else inl err, t)
      else Done (inr dn, t)
  end.

(** Writing out page [index].  [enc_err] is the error of the encryption, [inplace] tells
    that an in-place update is wanted, and [new] is the address that [write_data_page] gets
    from [allocate_data_block]. *)
Definition do_write_data_page (w : tworld) (index enc_err : Z) (inplace : bool) (new : Z) (t : ftree) : outcome (Z * ftree) :=
  '(r, t) ← get_dnode_of_data w false index LOOKUP_NODE t;
  match r with
  | inl err => Done (err, t)
  | inr dn =>
      if dn_addr dn =? NULL_ADDR then Done (0, t)
      else if enc_err <? 0 then Done (enc_err, t)
      else if negb (dn_addr dn =? NEW_ADDR) && inplace then Done (0, t)
      else Done (0, set_data_blkaddr (dn_page dn) (dn_ofs dn) new t)
  end.

(** * Truncation *)

Definition ADDRS_PER_PAGE (t : ftree) (node : option Z) : Z :=
  match node with None => addrs_per_inode (ft_inline_xattr t) | Some _ => ADDRS_PER_BLOCK end.

(** The entries [ofs .. ofs + count - 1]; the number of blocks freed. *)
Definition truncate_data_blocks_range (node : option Z) (ofs count : Z) (t : ftree) : Z * ftree :=
  let '(nr_free, t) :=
    for_range ofs (ofs + count) (fun i '(nr_free, t) =>
      let blkaddr := datablock_addr t node i in
      if blkaddr =? NULL_ADDR then (nr_free, t)
      else
        let t := set_data_blkaddr node i NULL_ADDR t in
        (nr_free + 1, with_tally (ft_blocks t) (ft_freed t ++ [blkaddr]) (ft_gone t) (ft_bug t) t)) (0, t) in
  (nr_free, if nr_free =? 0 then t else dec_valid_block_count nr_free t).

Definition truncate_data_blocks (node : option Z) (t : ftree) : ftree :=
  snd (truncate_data_blocks_range node 0 ADDRS_PER_BLOCK t).

(** Frees a node other than the inode.  [ni.blk_addr] is the address of the node, which is
    [NULL_ADDR] when the id has none. *)
Definition truncate_node (nid : Z) (t : ftree) : ftree :=
  let gone_already := negb (bool_decide (is_Some (ft_pages t !! nid))) in
  if ft_blocks t =? 0 then
    with_tally 0 (ft_freed t) (ft_gone t) (ft_bug t || negb gone_already) t
  else
    with_tally (ft_blocks t - 1) (ft_freed t) (ft_gone t ++ [nid]) (ft_bug t || gone_already)
      (with_nodes (ft_addr t) (ft_nid t) (delete nid (ft_pages t)) t).

Definition truncate_dnode (w : tworld) (nid : Z) (t : ftree) : Z * ftree :=
  if nid =? 0 then (1, t)
  else
    match get_node_page w t nid with
    | inl err => (if err =? - ENOENT then 1 else err, t)
    | inr _ => (1, truncate_node nid (truncate_data_blocks (Some nid) t))
    end.

(** The nodes below the indirect node [nid] from its entry [ofs] on, and the node itself
    when [ofs] is 0. *)
Fixpoint truncate_nodes (depth : nat) (w : tworld) (nid nofs ofs : Z) (t : ftree) : Z * ftree :=
  if nid =? 0 then (NIDS_PER_BLOCK + 1, t)
  else
    match get_node_page w t nid with
    | inl err => (err, t)
    | inr _ =>
        let '(ret, (t, freed)) :=
          match depth with
          | S (S (S _) as depth') =>
              for_ok ofs NIDS_PER_BLOCK (fun i '(t, child_nofs) =>
                let child_nid := get_nid t (Some nid) i in
                if child_nid =? 0 then (0, (t, child_nofs + NIDS_PER_BLOCK + 1))
                else
                  let '(ret, t) := truncate_nodes depth' w child_nid child_nofs 0 t in
                  if ret =? NIDS_PER_BLOCK + 1 then (0, (set_nid (Some nid) i 0 t, child_nofs + ret))
                  else if (ret <? 0) && negb (ret =? - ENOENT) then (ret, (t, child_nofs))
                  else (0, (t, child_nofs)))
                (t, nofs + ofs * (NIDS_PER_BLOCK + 1) + 1)
          | _ =>
              for_ok ofs NIDS_PER_BLOCK (fun i '(t, freed) =>
                let child_nid := get_nid t (Some nid) i in
                if child_nid =? 0 then (0, (t, freed + 1))
                else
                  let '(ret, t) := truncate_dnode w child_nid t in
                  if ret <? 0 then (ret, (t, freed)) else (0, (set_nid (Some nid) i 0 t, freed + 1)))
                (t, 0)
          end in
        if ret <? 0 then (ret, t)
        else if ofs =? 0 then (freed + 1, truncate_node nid t)
        else (freed, t)
    end.

(** The pages of the indirect nodes on the path, from level [i] on; the id of the last. *)
Fixpoint partial_pages (n : nat) (w : tworld) (offset : list Z) (i nid : Z) (t : ftree) : Z + Z :=
  match get_node_page w t nid with
  | inl err => inl err
  | inr _ =>
      match n with
      | O => inr nid
      | S n => partial_pages n w offset (i + 1) (get_nid t (Some nid) (offset.[i + 1])) t
      end
  end.

(** The direct nodes from entry [offset[idx + 1]] of the last indirect node on.  The path is
    moved to the entry behind that node. *)
Definition truncate_partial_nodes (w : tworld) (offset : list Z) (depth : Z) (t : ftree) : Z * list Z * ftree :=
  let idx := depth - 2 in
  let nid0 := (ft_nid t).[offset.[0] - NODE_DIR1_BLOCK] in
  if nid0 =? 0 then (0, offset, t)
  else
    match partial_pages (Z.to_nat idx) w offset 0 nid0 t with
    | inl err => (err, offset, t)
    | inr page =>
        let '(ret, (t, err)) :=
          for_ok (offset.[idx + 1]) NIDS_PER_BLOCK (fun i '(t, err) =>
            let child_nid := get_nid t (Some page) i in
            if child_nid =? 0 then (0, (t, err))
            else
              let '(err, t) := truncate_dnode w child_nid t in
              if err <? 0 then (err, (t, err)) else (err, (set_nid (Some page) i 0 t, err))) (t, 0) in
        if ret <? 0 then (ret, offset, t)
        else
          let t := if offset.[idx + 1] =? 0 then truncate_node page t else t in
          (err, offset.[idx <- offset.[idx] + 1].[idx + 1 <- 0], t)
    end.

(** The [switch] over the entries of [i_nid]. *)
Definition truncate_entry (w : tworld) (offset0 offset1 nofs nid : Z) (t : ftree) : outcome (Z * ftree) :=
  if (offset0 =? NODE_DIR1_BLOCK) || (offset0 =? NODE_DIR2_BLOCK) then Done (truncate_dnode w nid t)
  else if (offset0 =? NODE_IND1_BLOCK) || (offset0 =? NODE_IND2_BLOCK) then Done (truncate_nodes 2 w nid nofs offset1 t)
  else if offset0 =? NODE_DIND_BLOCK then Done (truncate_nodes 3 w nid nofs offset1 t)
  else Bug.

(** The [while (cont)] loop over the entries of [i_nid] from [offset[0]] on. *)
Fixpoint truncate_inode_loop (fuel : nat) (w : tworld) (offset0 offset1 nofs : Z) (t : ftree) : outcome (Z * ftree) :=
  match fuel with
  | O => Spins
  | S fuel =>
      '(err, t) ← truncate_entry w offset0 offset1 nofs ((ft_nid t).[offset0 - NODE_DIR1_BLOCK]) t;
      if (err <? 0) && negb (err =? - ENOENT) then Done (err, t)
      else
        let t := if (offset1 =? 0) && negb ((ft_nid t).[offset0 - NODE_DIR1_BLOCK] =? 0)
                 then set_nid None offset0 0 t else t in
        if offset0 =? NODE_DIND_BLOCK then Done (err, t)
        else truncate_inode_loop fuel w (offset0 + 1) 0 (nofs + err) t
  end.

Definition truncate_inode_blocks (w : tworld) (from : Z) (t : ftree) : outcome (Z * ftree) :=
  match get_node_path (ft_inline_xattr t) from with
  | None => Bug
  | Some path =>
      let level := np_level path in
      let offset := np_offset path in
      let noffset := np_noffset path in
      if inode_page_err w t <? 0 then Done (inode_page_err w t, t)
      else
        let '(err, offset, nofs, t) :=
          if level <=? 1 then (0, offset, noffset.[1], t)
          else if offset.[level - 1] =? 0 then (0, offset, if level =? 2 then noffset.[1] else 5 + 2 * NIDS_PER_BLOCK, t)
          else
            let '(err, offset, t) := truncate_partial_nodes w offset level t in
            (err, offset, if level =? 2 then noffset.[1] + 1 + NIDS_PER_BLOCK else 5 + 2 * NIDS_PER_BLOCK, t) in
        if (err <? 0) && negb (err =? - ENOENT) then Done (err, t)
        else
          '(err, t) ← truncate_inode_loop 6 w (offset.[0]) (offset.[1]) nofs t;
          Done (if 0 <? err then 0 else err, t)
  end.

Definition F2FS_BYTES_TO_BLK (bytes : Z) : Z := Z.shiftr bytes F2FS_BLKSIZE_BITS.

(** Everything but the zeroing of the tail of the last page, which is the page cache's. *)
Definition truncate_blocks (w : tworld) (from : Z) (t : ftree) : outcome (Z * ftree) :=
  let free_from := F2FS_BYTES_TO_BLK (u64 (from + F2FS_BLKSIZE - 1)) in
  if inode_page_err w t <? 0 then Done (inode_page_err w t, t)
  else if ft_inline_data t then Done (0, t)
  else
    '(r, t) ← get_dnode_of_data w true free_from LOOKUP_NODE t;
    match r with
    | inl err => if err =? - ENOENT then truncate_inode_blocks w free_from t else Done (err, t)
    | inr dn =>
        let count := ADDRS_PER_PAGE t (dn_page dn) - dn_ofs dn in
        if negb (dn_ofs dn =? 0) || bool_decide (dn_page dn = None) then
          truncate_inode_blocks w (free_from + count) (snd (truncate_data_blocks_range (dn_page dn) (dn_ofs dn) count t))
        else truncate_inode_blocks w free_from t
    end.

(** The blocks [pg_start .. pg_end - 1] one by one. *)
Fixpoint truncate_hole_from (n : nat) (w : tworld) (index : Z) (t : ftree) : outcome (Z * ftree) :=
  match n with
  | O => Done (0, t)
  | S n =>
      '(r, t) ← get_dnode_of_data w false index LOOKUP_NODE t;
      match r with
      | inl err => if err =? - ENOENT then truncate_hole_from n w (index + 1) t else Done (err, t)
      | inr dn =>
          truncate_hole_from n w (index + 1)
            (if dn_addr dn =? NULL_ADDR then t else snd (truncate_data_blocks_range (dn_page dn) (dn_ofs dn) 1 t))
      end
  end.

Definition truncate_hole (w : tworld) (pg_start pg_end : Z) (t : ftree) : outcome (Z * ftree) :=
  truncate_hole_from (Z.to_nat (pg_end - pg_start)) w pg_start t.
