(* ===== verification/NodeTreeInv.v ===== *)
(** The invariant of a file's node tree: the nodes form the tree that [get_node_path]
    describes, every pointer to a node and every entry of a block is accounted for, and
    [i_blocks] counts both.  The primitive changes of the tree keep it. *)

From Stdlib Require Import ZArith Lia Bool.
From stdpp Require Import base numbers list gmap.
From S2P Require Import Prelude Layout NodePath NodeTree.

#[local] Open Scope Z_scope.
#[local] Ltac Zify.zify_post_hook ::= Z.to_euclidean_division_equations.

(** * The shape of the tree

    The direct nodes of a file are numbered in the order of the blocks they map: [ND k]
    maps the 1018 blocks behind [k * 1018] other blocks that are not in the inode.  The
    indirect node [NI m] has the direct nodes [2 + 1018 * m ..] and the double indirect
    node [NX] the indirect nodes [2 ..]. *)
Inductive tnode := ND (k : Z) | NI (m : Z) | NX.

#[global] Instance tnode_eq_dec : EqDecision tnode.
Proof. solve_decision. Defined.

#[global] Program Instance tnode_countable : Countable tnode :=
  inj_countable' (fun c => match c with ND k => inl k | NI m => inr (inl m) | NX => inr (inr tt) end)
    (fun s => match s with inl k => ND k | inr (inl m) => NI m | inr (inr _) => NX end) _.
Next Obligation. intros []; reflexivity. Qed.

Definition n_dnodes : Z := 2 + 1018 * 1020.

Definition tparent (c : tnode) : option tnode :=
  match c with
  | ND k => if k <? 2 then None else Some (NI ((k - 2) / 1018))
  | NI m => if m <? 2 then None else Some NX
  | NX => None
  end.

(** The index of the pointer to a node in [i_nid] or in the parent's page. *)
Definition tslot (c : tnode) : Z :=
  match c with
  | ND k => if k <? 2 then k else (k - 2) mod 1018
  | NI m => if m <? 2 then 2 + m else m - 2
  | NX => 4
  end.

Definition tvalid (c : tnode) : Prop :=
  match c with ND k => 0 <= k < n_dnodes | NI m => 0 <= m < 1020 | NX => True end.

(** The index of the first block that direct node [k] maps. *)
Definition dn_start (x : bool) (k : Z) : Z := addrs_per_inode x + 1018 * k.

(** A file with some blocks removed or changed. *)
Definition upd (f : Z -> Z) (i a : Z) : Z -> Z := fun j => if j =? i then a else f j.
Definition zero (f : Z -> Z) (a b : Z) : Z -> Z := fun j => if (a <=? j) && (j <? b) then 0 else f j.

Definition mapped (f : Z -> Z) (n : Z) : Z := count_below (fun i => negb (f i =? 0)) n.

(** The blocks a range of the file uses, in order. *)
Definition live (f : Z -> Z) (a b : Z) : list Z := List.filter (fun v => negb (v =? 0)) (map f (zseq a (Z.to_nat (b - a)))).

(** * The invariant *)

(** The pointer to node [c], and the value it should have: the id of [c], except for the
    one pointer [stale] that is being changed. *)
Definition ptr_at (t : ftree) (G : gmap tnode Z) (c : tnode) : Z :=
  match tparent c with
  | None => (ft_nid t).[tslot c]
  | Some p => match G !! p with Some n => (default [] (ft_pages t !! n)).[tslot c] | None => 0 end
  end.

Definition ptr_of (G : gmap tnode Z) (stale : option (tnode * Z)) (c : tnode) : Z :=
  match stale with
  | Some (c', v) => if decide (c = c') then v else default 0 (G !! c)
  | None => default 0 (G !! c)
  end.

Definition block_in (t : ftree) (G : gmap tnode Z) (k o : Z) : Z :=
  match G !! ND k with Some n => (default [] (ft_pages t !! n)).[o] | None => 0 end.

(** [rep b t G stale f]: the nodes of [t] are those of [G], it maps the blocks of the file
    [f], and [i_blocks] is [b] more than the nodes and blocks there are. *)
Record rep (b : Z) (t : ftree) (G : gmap tnode Z) (stale : option (tnode * Z)) (f : Z -> Z) : Prop := {
  r_addr : zlen (ft_addr t) = 923;
  r_nid : zlen (ft_nid t) = 5;
  r_page : forall c n, G !! c = Some n -> n <> 0 /\ zlen (default [] (ft_pages t !! n)) = 1018;
  r_ptr : forall c, tvalid c -> ptr_at t G c = ptr_of G stale c;
  r_inj : forall c c' n, G !! c = Some n -> G !! c' = Some n -> c = c';
  r_dom : forall n, is_Some (ft_pages t !! n) -> exists c, G !! c = Some n;
  r_closed : forall c n, G !! c = Some n -> tvalid c /\ forall p, tparent c = Some p -> is_Some (G !! p);
  r_inode : forall o, 0 <= o < addrs_per_inode (ft_inline_xattr t) -> f o = (ft_addr t).[o];
  r_data : forall k o, 0 <= k < n_dnodes -> 0 <= o < 1018 -> f (dn_start (ft_inline_xattr t) k + o) = block_in t G k o;
  r_blocks : ft_blocks t = b + Z.of_nat (size (ft_pages t)) + mapped f (max_blocks (ft_inline_xattr t));
  r_bug : ft_bug t = false;
}.

(** * Shape lemmas *)

Lemma parent_slot_inj c c' : tvalid c -> tvalid c' -> tparent c = tparent c' -> tslot c = tslot c' -> c = c'.
Proof.
  destruct c as [k | m |], c' as [k' | m' |]; cbn; unfold n_dnodes; intros V V'; repeat case_match; intros E S; bool_cases;
    try discriminate; try (injection E as E); try reflexivity; try f_equal; lia.
Qed.

Lemma slot_range c : tvalid c -> match tparent c with None => 0 <= tslot c < 5 | Some _ => 0 <= tslot c < 1018 end.
Proof. destruct c as [k | m |]; cbn; unfold n_dnodes; intros V; repeat case_match; bool_cases; try discriminate; lia. Qed.

Lemma parent_irrefl c : tparent c <> Some c.
Proof. destruct c; cbn; repeat case_match; congruence. Qed.

Lemma parent_indirect c p : tparent c = Some p -> match p with ND _ => False | _ => True end.
Proof. destruct c; cbn; repeat case_match; intros [=]; subst; exact I. Qed.

Lemma max_blocks_dn x : max_blocks x = dn_start x n_dnodes.
Proof. unfold max_blocks, dn_start, n_dnodes; destruct x; reflexivity. Qed.

Lemma fun_upd_same f i a : upd f i a i = a.
Proof. unfold upd; rewrite Z.eqb_refl; reflexivity. Qed.

Lemma upd_other f i a j : j <> i -> upd f i a j = f j.
Proof. intros; unfold upd; destruct (Z.eqb_spec j i); [contradiction | reflexivity]. Qed.

Lemma mapped_upd f i a n : 0 <= i < n -> mapped (upd f i a) n = mapped f n - b2z (negb (f i =? 0)) + b2z (negb (a =? 0)).
Proof.
  intros Hi; unfold mapped; rewrite (count_below_upd (fun i => negb (f i =? 0)) _ n i Hi), fun_upd_same; [reflexivity|].
  intros j _ Hj; rewrite upd_other by exact Hj; reflexivity.
Qed.

Lemma mapped_ext f g n : (forall i, 0 <= i < n -> f i = g i) -> mapped f n = mapped g n.
Proof. intros H; apply count_below_ext; intros i Hi; rewrite (H i Hi); reflexivity. Qed.

Lemma zero_in f a b j : a <= j < b -> zero f a b j = 0.
Proof. intros; unfold zero; case_ifs; bool_cases; [reflexivity | lia]. Qed.

Lemma zero_out f a b j : ~ (a <= j < b) -> zero f a b j = f j.
Proof. intros; unfold zero; case_ifs; bool_cases; [lia | reflexivity]. Qed.

Lemma live_nil f a b : b <= a -> live f a b = [].
Proof. intros; unfold live; replace (Z.to_nat (b - a)) with O by lia; reflexivity. Qed.

Lemma zseq_app a n m : zseq a (n + m) = zseq a n ++ zseq (a + Z.of_nat n) m.
Proof.
  revert a; induction n as [|n IH]; intros a; cbn [zseq app Nat.add]; [f_equal; lia|].
  rewrite IH; do 3 f_equal; lia.
Qed.

Lemma live_app f a b c : a <= b -> b <= c -> live f a c = live f a b ++ live f b c.
Proof.
  intros; unfold live; replace (Z.to_nat (c - a)) with (Z.to_nat (b - a) + Z.to_nat (c - b))%nat by lia.
  rewrite zseq_app, map_app, List.filter_app; replace (a + Z.of_nat (Z.to_nat (b - a))) with b by lia; reflexivity.
Qed.

Lemma live_one f a : live f a (a + 1) = if f a =? 0 then [] else [f a].
Proof. unfold live; replace (Z.to_nat (a + 1 - a)) with 1%nat by lia; cbn; destruct (f a =? 0); reflexivity. Qed.

Lemma live_snoc f a i : a <= i -> live f a (i + 1) = live f a i ++ (if f i =? 0 then [] else [f i]).
Proof. intros; rewrite (live_app f a i (i + 1)) by lia; rewrite live_one; reflexivity. Qed.

Lemma live_ext f g a b : (forall i, a <= i < b -> f i = g i) -> live f a b = live g a b.
Proof.
  intros H; unfold live; f_equal; apply map_ext_in; intros i Hi; apply list_elem_of_In, elem_of_zseq in Hi; apply H; lia.
Qed.

Lemma live_none f a b : (forall i, a <= i < b -> f i = 0) -> live f a b = [].
Proof.
  intros H; rewrite (live_ext f (fun _ => 0) a b H); unfold live; induction (zseq a _) as [|y l IH]; [reflexivity | exact IH].
Qed.

(** * Reading the tree *)

Lemma rep_ext b t G s f g : (forall i, 0 <= i < max_blocks (ft_inline_xattr t) -> f i = g i) -> rep b t G s f -> rep b t G s g.
Proof.
  intros H [A N P PT I D C IN DA B BG]; rewrite max_blocks_dn in H; unfold dn_start, n_dnodes in *.
  pose proof (addrs_per_inode_cases (ft_inline_xattr t)); constructor; auto.
  - intros o Ho; rewrite <- H by lia; apply IN; exact Ho.
  - intros k o Hk Ho; unfold dn_start; rewrite <- H by (unfold n_dnodes in *; lia); apply DA; assumption.
  - rewrite B, (mapped_ext f g); [reflexivity|]; intros i Hi; apply H; rewrite max_blocks_dn in Hi; exact Hi.
Qed.

(** An override that gives the pointer its right value is none. *)
Lemma rep_stale b t G c v f : v = default 0 (G !! c) -> rep b t G (Some (c, v)) f <-> rep b t G None f.
Proof.
  intros ->; split; intros [A N P PT I D C IN DA B BG]; constructor; auto; intros c' V; rewrite (PT c' V); cbn;
    destruct (decide (c' = c)) as [-> | _]; reflexivity.
Qed.

Lemma rep_lookup b t G s f c n : rep b t G s f -> G !! c = Some n -> exists l, ft_pages t !! n = Some l /\ zlen l = 1018.
Proof.
  intros R E; destruct (r_page _ _ _ _ _ R c n E) as [_ L]; destruct (ft_pages t !! n) as [l|]; [exists l; auto | discriminate L].
Qed.

(** Reading the page of a node of the tree. *)
Lemma rep_get_page b t G s f c n w : rep b t G s f -> G !! c = Some n ->
  (exists l, get_node_page w t n = inr l) \/ (get_node_page w t n = inl (tw_page_err w n) /\ tw_page_err w n < 0).
Proof.
  intros R E; destruct (rep_lookup _ _ _ _ _ c n R E) as (l & El & _); unfold get_node_page; rewrite El.
  destruct (Z.ltb_spec (tw_page_err w n) 0); [right; auto | left; exists l; reflexivity].
Qed.

Lemma rep_get_page_0 b t G s f w : rep b t G s f ->
  get_node_page w t 0 = inl (- ENOENT) \/ (get_node_page w t 0 = inl (tw_page_err w 0) /\ tw_page_err w 0 < 0).
Proof.
  intros R; unfold get_node_page; destruct (Z.ltb_spec (tw_page_err w 0) 0); [right; auto | left].
  destruct (ft_pages t !! 0) eqn:E; [|reflexivity].
  destruct (r_dom _ _ _ _ _ R 0 (mk_is_Some _ _ E)) as [c Ec]; destruct (r_page _ _ _ _ _ R c 0 Ec) as [[] _]; reflexivity.
Qed.

(** The page that holds the pointer to [c], as [get_nid] and [set_nid] name it. *)
Definition holder (G : gmap tnode Z) (c : tnode) (p : option Z) (off : Z) : Prop :=
  match tparent c with
  | None => p = None /\ off = tslot c + NODE_DIR1_BLOCK
  | Some q => exists n, G !! q = Some n /\ p = Some n /\ off = tslot c
  end.

Lemma rep_get_nid b t G s f c p off : rep b t G s f -> tvalid c -> holder G c p off -> get_nid t p off = ptr_of G s c.
Proof.
  intros R V H; rewrite <- (r_ptr _ _ _ _ _ R c V); unfold holder, ptr_at in *; destruct (tparent c) as [q|].
  - destruct H as (n & E & -> & ->); rewrite E; reflexivity.
  - destruct H as [-> ->]; unfold get_nid; f_equal; lia.
Qed.

(** * Changing the tree *)

(** The place of the entry of block [i]. *)
Definition at_index (x : bool) (G : gmap tnode Z) (i : Z) (node : option Z) (o : Z) : Prop :=
  (node = None /\ o = i /\ 0 <= i < addrs_per_inode x) \/
  exists k n, node = Some n /\ G !! ND k = Some n /\ 0 <= k < n_dnodes /\ 0 <= o < 1018 /\ i = dn_start x k + o.

Lemma at_index_range x G i node o : at_index x G i node o -> 0 <= i < max_blocks x.
Proof.
  rewrite max_blocks_dn; unfold dn_start; pose proof (addrs_per_inode_cases x).
  intros [(_ & _ & Hi) | (k & n & _ & _ & Hk & Ho & ->)]; unfold dn_start, n_dnodes in *; lia.
Qed.

Lemma rep_entry b t G s f i node o : rep b t G s f -> at_index (ft_inline_xattr t) G i node o -> datablock_addr t node o = f i.
Proof.
  intros R [(-> & -> & Hi) | (k & n & -> & E & Hk & Ho & ->)]; unfold datablock_addr, blkaddr_in_node.
  - rewrite (r_inode _ _ _ _ _ R) by exact Hi; reflexivity.
  - rewrite (r_data _ _ _ _ _ R) by assumption; unfold block_in; rewrite E; reflexivity.
Qed.

Lemma page_aset (P : gmap Z (list Z)) n l' n' : default [] (<[n := l']> P !! n') = if decide (n' = n) then l' else default [] (P !! n').
Proof. destruct (decide (n' = n)) as [-> | Hne]; [rewrite lookup_insert_eq | rewrite lookup_insert_ne by congruence]; reflexivity. Qed.

(** Replacing the page of a node by another of the same length changes neither the set of
    nodes nor the other pages. *)
Lemma pages_frame b t G s f c n l : rep b t G s f -> G !! c = Some n -> zlen l = 1018 ->
  (forall c' n', G !! c' = Some n' -> n' <> 0 /\ zlen (default [] (<[n := l]> (ft_pages t) !! n')) = 1018) /\
  (forall n', is_Some (<[n := l]> (ft_pages t) !! n') -> exists c', G !! c' = Some n') /\
  size (<[n := l]> (ft_pages t)) = size (ft_pages t).
Proof.
  intros R E L; destruct (rep_lookup _ _ _ _ _ c n R E) as (l0 & El & _); repeat split.
  - exact (proj1 (r_page _ _ _ _ _ R c' n' H)).
  - rewrite page_aset; destruct (decide (n' = n)); [exact L | exact (proj2 (r_page _ _ _ _ _ R c' n' H))].
  - intros n' [l' El']; destruct (Z.eq_dec n n') as [<- | Hne]; [exists c; exact E|].
    rewrite lookup_insert_ne in El' by exact Hne; exact (r_dom _ _ _ _ _ R n' (mk_is_Some _ _ El')).
  - apply map_size_insert_Some; exists l0; exact El.
Qed.

(** Writing an entry. *)
Lemma rep_set b t G s f i node o a : rep b t G s f -> at_index (ft_inline_xattr t) G i node o ->
  rep (b + b2z (negb (f i =? 0)) - b2z (negb (a =? 0))) (set_data_blkaddr node o a t) G s (upd f i a).
Proof.
  intros R HA; pose proof (at_index_range _ _ _ _ _ HA) as Hi; pose proof (addrs_per_inode_cases (ft_inline_xattr t)) as Hn.
  destruct HA as [(-> & -> & Hi') | (k & n & -> & E & Hk & Ho & ->)]; cbn [set_data_blkaddr].
  - destruct R as [A N P PT I D C IN DA B BG]; constructor; cbn; auto.
    + rewrite zlen_aset; exact A.
    + intros o Ho; unfold upd; destruct (Z.eqb_spec o i) as [-> | Hne]; [rewrite aget_aset_eq by lia; reflexivity|].
      rewrite aget_aset_ne by lia; apply IN; exact Ho.
    + intros k o Hk Ho; rewrite upd_other by (unfold dn_start; lia); apply DA; assumption.
    + rewrite mapped_upd by exact Hi; lia.
  - destruct (r_page _ _ _ _ _ R (ND k) n E) as [_ L].
    destruct (pages_frame b t G s f (ND k) n ((default [] (ft_pages t !! n)).[o <- a]) R E ltac:(rewrite zlen_aset; exact L)) as (P' & D' & S').
    destruct R as [A N P PT I D C IN DA B BG]; constructor; cbn; auto.
    + intros c V; rewrite <- (PT c V); unfold ptr_at; destruct (tparent c) as [p|] eqn:Ep; [|reflexivity].
      destruct (G !! p) as [np|] eqn:Enp; [|reflexivity]; cbn; rewrite page_aset; destruct (decide (np = n)) as [-> |]; [|reflexivity].
      rewrite (I p (ND k) n Enp E) in Ep; destruct (parent_indirect _ _ Ep).
    + intros o' Ho'; rewrite upd_other by (unfold dn_start; lia); apply IN; exact Ho'.
    + intros k' o' Hk' Ho'; unfold block_in; cbn; destruct (G !! ND k') as [n'|] eqn:E'.
      * rewrite page_aset; destruct (decide (n' = n)) as [-> | Hne].
        -- injection (I _ _ _ E' E) as ->; unfold upd; destruct (Z.eqb_spec (dn_start (ft_inline_xattr t) k + o') (dn_start (ft_inline_xattr t) k + o)) as [Eo | Eo].
           ++ replace o' with o by lia; rewrite aget_aset_eq by lia; reflexivity.
           ++ rewrite aget_aset_ne by lia; rewrite DA by assumption; unfold block_in; rewrite E; reflexivity.
        -- rewrite upd_other, DA by (try assumption; intros Eq; assert (k' = k) by (unfold dn_start in Eq; lia); congruence).
           unfold block_in; rewrite E'; reflexivity.
      * rewrite upd_other, DA by (try assumption; intros Eq; assert (k' = k) by (unfold dn_start in Eq; lia); congruence).
        unfold block_in; rewrite E'; reflexivity.
    + rewrite S', mapped_upd by exact Hi; lia.
Qed.

(** Changing the pointer to a node. *)
Lemma rep_ptr b t G c v v' f p off : rep b t G (Some (c, v)) f -> tvalid c -> holder G c p off ->
  rep b (set_nid p off v' t) G (Some (c, v')) f.
Proof.
  intros R V H; pose proof (slot_range c V) as Hs; unfold holder in H; destruct (tparent c) as [q|] eqn:Eq.
  - destruct H as (n & E & -> & ->); cbn [set_nid]; destruct (r_page _ _ _ _ _ R q n E) as [_ L].
    destruct (pages_frame b t G _ f q n ((default [] (ft_pages t !! n)).[tslot c <- v']) R E ltac:(rewrite zlen_aset; exact L)) as (P' & D' & S').
    destruct R as [A N P PT I D C IN DA B BG]; constructor; cbn; auto; [| |rewrite S'; exact B].
    + intros c' V'; specialize (PT c' V'); revert PT; unfold ptr_at; cbn.
      destruct (tparent c') as [q'|] eqn:Eq'; [|destruct (decide (c' = c)) as [-> |]; [congruence | auto]].
      destruct (G !! q') as [n'|] eqn:E'.
      * rewrite page_aset; destruct (decide (n' = n)) as [-> | Hne].
        -- pose proof (I _ _ _ E' E) as ->; destruct (decide (c' = c)) as [-> | Hc]; [intros _; apply aget_aset_eq; lia|].
           rewrite aget_aset_ne; [auto|]; intros Es; apply Hc, parent_slot_inj; auto; congruence.
        -- destruct (decide (c' = c)) as [-> |]; [congruence | auto].
      * destruct (decide (c' = c)) as [-> |]; [congruence | auto].
    + intros k o Hk Ho; rewrite DA by assumption; unfold block_in; cbn; destruct (G !! ND k) as [n'|] eqn:E'; [|reflexivity].
      rewrite page_aset; destruct (decide (n' = n)) as [-> |]; [|reflexivity].
      pose proof (I _ _ _ E' E) as <-; destruct (parent_indirect _ _ Eq).
  - destruct H as [-> ->]; cbn [set_nid]; destruct R as [A N P PT I D C IN DA B BG]; constructor; cbn; auto; [rewrite zlen_aset; exact N|].
    replace (tslot c + NODE_DIR1_BLOCK - NODE_DIR1_BLOCK) with (tslot c) by lia.
    intros c' V'; specialize (PT c' V'); revert PT; unfold ptr_at; cbn; destruct (tparent c') as [q'|] eqn:Eq'.
    + destruct (decide (c' = c)) as [-> |]; [congruence | auto].
    + destruct (decide (c' = c)) as [-> | Hc]; [intros _; apply aget_aset_eq; lia|].
      rewrite aget_aset_ne; [auto|]; intros Es; apply Hc, parent_slot_inj; auto; congruence.
Qed.

(** Freeing a node without children and without blocks. *)
Lemma rep_kill b t G c n f : rep b t G None f -> 0 <= b -> G !! c = Some n ->
  (forall c', tparent c' = Some c -> G !! c' = None) ->
  (forall k, c = ND k -> forall o, 0 <= o < 1018 -> f (dn_start (ft_inline_xattr t) k + o) = 0) ->
  rep b (truncate_node n t) (delete c G) (Some (c, n)) f /\
  ft_freed (truncate_node n t) = ft_freed t /\ ft_gone (truncate_node n t) = ft_gone t ++ [n].
Proof.
  intros R Hb E Hkids Hzero; destruct (rep_lookup _ _ _ _ _ c n R E) as (l & El & _).
  assert (Hsz : (size (delete n (ft_pages t)) = pred (size (ft_pages t)) /\ 0 < size (ft_pages t))%nat).
  { split; [apply map_size_delete_Some; exists l; exact El|].
    destruct (size (ft_pages t)) eqn:Es; [|lia]; apply map_size_empty_iff in Es; rewrite Es in El; discriminate. }
  destruct R as [A N P PT I D C IN DA B BG].
  pose proof (count_below_range (fun i => negb (f i =? 0)) (max_blocks (ft_inline_xattr t)) ltac:(destruct (ft_inline_xattr t); vm_compute; congruence)) as Hc.
  fold (mapped f (max_blocks (ft_inline_xattr t))) in Hc.
  unfold truncate_node; rewrite El, bool_decide_true by eauto; destruct (Z.eqb_spec (ft_blocks t) 0) as [E0 | _]; [lia|].
  assert (Hoth : forall c' n', delete c G !! c' = Some n' -> c' <> c /\ G !! c' = Some n' /\ n' <> n).
  { intros c' n' E'; apply lookup_delete_Some in E' as [Hne E']; repeat split; [congruence | exact E' | intros ->; apply Hne; eauto]. }
  split; [|auto]; constructor; cbn; auto.
  - intros c' n' E'; destruct (Hoth c' n' E') as (_ & E'' & Hne); rewrite lookup_delete_ne by congruence; exact (P c' n' E'').
  - intros c' V'; specialize (PT c' V'); revert PT; unfold ptr_at; cbn.
    assert (Hd : default 0 (G !! c') = if decide (c' = c) then n else default 0 (delete c G !! c')).
    { destruct (decide (c' = c)) as [-> | Hne]; [rewrite E; reflexivity | rewrite lookup_delete_ne by congruence; reflexivity]. }
    rewrite <- Hd; destruct (tparent c') as [q|] eqn:Eq; [|auto].
    destruct (decide (q = c)) as [-> | Hq]; [rewrite lookup_delete_eq, (Hkids c' Eq); reflexivity|].
    rewrite lookup_delete_ne by congruence; destruct (G !! q) as [nq|] eqn:Enq; [|auto].
    rewrite lookup_delete_ne; [auto|]; intros <-; apply Hq; eauto.
  - intros c1 c2 m E1 E2; apply (I c1 c2 m); apply Hoth; assumption.
  - intros m [lm Em]; apply lookup_delete_Some in Em as [Hne Em]; destruct (D m (mk_is_Some _ _ Em)) as [c' Ec'].
    exists c'; rewrite lookup_delete_ne; [exact Ec'|]; intros <-; congruence.
  - intros c' n' E'; destruct (Hoth c' n' E') as (_ & E'' & _); destruct (C c' n' E'') as [V Hp]; split; [exact V|].
    intros p Ep; rewrite lookup_delete_ne; [exact (Hp p Ep)|]; intros <-; rewrite (Hkids c' Ep) in E''; discriminate.
  - intros k o Hk Ho; unfold block_in; cbn; destruct (decide (c = ND k)) as [-> | Hne].
    + rewrite lookup_delete_eq; exact (Hzero k eq_refl o Ho).
    + rewrite DA by assumption; unfold block_in; rewrite lookup_delete_ne by congruence; destruct (G !! ND k) as [nk|] eqn:Ek; [|reflexivity].
      rewrite lookup_delete_ne; [reflexivity|]; intros <-; apply Hne; eauto.
  - lia.
  - rewrite BG; reflexivity.
Qed.

Lemma new_page_0 o : 0 <= o < 1018 -> new_page.[o] = 0.
Proof. intros; unfold new_page; apply (aget_replicate (A := Z)); lia. Qed.

(** Adding a node; the pointer to it is still to be set. *)
Lemma rep_grow b t G c n f w : rep b t G None f -> tvalid c -> G !! c = None -> (forall p, tparent c = Some p -> is_Some (G !! p)) ->
  n <> 0 -> ft_pages t !! n = None -> fst (new_node_page w n t) = 0 ->
  rep b (snd (new_node_page w n t)) (<[c := n]> G) (Some (c, 0)) f.
Proof.
  intros R V E Hpar Hn Hfresh; unfold new_node_page; destruct (tw_no_alloc w), (tw_grab w n), (tw_node_room w n); cbn [fst snd negb]; try discriminate.
  intros _; assert (Hnew : forall c', G !! c' <> Some n).
  { intros c' E'; destruct (rep_lookup _ _ _ _ _ c' n R E') as (l & El & _); congruence. }
  assert (Hkid : forall c', tparent c' = Some c -> G !! c' = None).
  { intros c' Ep; destruct (G !! c') eqn:E'; [|reflexivity]; destruct (r_closed _ _ _ _ _ R c' z E') as [_ Hp].
    destruct (Hp c Ep) as [? Ec]; congruence. }
  destruct R as [A N P PT I D C IN DA B BG]; rewrite Hfresh, bool_decide_false by (intros []; discriminate).
  constructor; cbn; auto.
  - intros c' n'; rewrite lookup_insert_Some; intros [[<- <-] | [Hne E']]; [split; [exact Hn | rewrite lookup_insert_eq; reflexivity]|].
    rewrite lookup_insert_ne by (intros <-; exact (Hnew c' E')); exact (P c' n' E').
  - intros c' V'; specialize (PT c' V'); revert PT; unfold ptr_at; cbn.
    assert (Hd : (if decide (c' = c) then 0 else default 0 (<[c := n]> G !! c')) = default 0 (G !! c')).
    { destruct (decide (c' = c)) as [-> | Hne]; [rewrite E; reflexivity | rewrite lookup_insert_ne by congruence; reflexivity]. }
    rewrite Hd; destruct (tparent c') as [q|] eqn:Eq; [|auto]; destruct (decide (q = c)) as [-> | Hq].
    + rewrite lookup_insert_eq, E, (Hkid c' Eq); cbn; rewrite lookup_insert_eq; intros _; cbn [default from_option].
      apply new_page_0; pose proof (slot_range c' V') as Hs; rewrite Eq in Hs; exact Hs.
    + rewrite lookup_insert_ne by congruence; destruct (G !! q) as [nq|] eqn:Enq; [|auto].
      rewrite lookup_insert_ne; [auto|]; intros <-; exact (Hnew q Enq).
  - intros c1 c2 m; rewrite !lookup_insert_Some; intros [[<- <-] | [H1 E1]] [[<- E2] | [H2 E2]]; try reflexivity; subst; try (exfalso; eapply Hnew; eassumption).
    exact (I c1 c2 m E1 E2).
  - intros m [lm Em]; apply lookup_insert_Some in Em as [[<- _] | [Hne Em]]; [exists c; apply lookup_insert_eq|].
    destruct (D m (mk_is_Some _ _ Em)) as [c' Ec']; exists c'; rewrite lookup_insert_ne; [exact Ec' | intros <-; congruence].
  - intros c' n'; rewrite lookup_insert_Some; intros H.
    assert (Hc : tvalid c' /\ forall p, tparent c' = Some p -> is_Some (G !! p)) by (destruct H as [[<- _] | [_ E']]; [auto | exact (C c' n' E')]).
    destruct Hc as [V' Hp]; split; [exact V'|]; intros p Ep; apply lookup_insert_is_Some'; right; exact (Hp p Ep).
  - intros k o Hk Ho; rewrite DA by assumption; unfold block_in; cbn; destruct (decide (c = ND k)) as [-> | Hne].
    + rewrite E, lookup_insert_eq, lookup_insert_eq; cbn [default from_option]; symmetry; apply new_page_0; exact Ho.
    + rewrite lookup_insert_ne by congruence; destruct (G !! ND k) as [nk|] eqn:Ek; [|reflexivity].
      rewrite lookup_insert_ne; [reflexivity|]; intros <-; exact (Hnew _ Ek).
  - rewrite map_size_insert_None by exact Hfresh; lia.
  - rewrite BG; reflexivity.
Qed.
