(* ===== verification/NodeTreeOps.v ===== *)
(** Looking up and adding the direct node of a block ([get_dnode_of_data]) and changing the
    entry of a block, on trees that satisfy the invariant. *)

From Stdlib Require Import ZArith Lia Bool.
From stdpp Require Import base numbers list gmap.
From S2P Require Import Prelude Layout NodePath NodeTree NodeTreeInv.

#[local] Open Scope Z_scope.
#[local] Ltac Zify.zify_post_hook ::= Z.to_euclidean_division_equations.

(** * Paths *)

(** The nodes from the inode to direct node [k]. *)
Definition chain (k : Z) : list tnode :=
  if k <? 2 then [ND k]
  else let m := (k - 2) / 1018 in if m <? 2 then [NI m; ND k] else [NX; NI m; ND k].

(** Each node of the list is the parent of the next. *)
Fixpoint linked (par : option tnode) (cs : list tnode) : Prop :=
  match cs with
  | [] => True
  | c :: cs => tparent c = par /\ tvalid c /\ linked (Some c) cs
  end.

Lemma chain_linked k : 0 <= k < n_dnodes -> linked None (chain k).
Proof.
  intros Hk; unfold chain; unfold n_dnodes in Hk; case_ifs; bool_cases; cbn; unfold n_dnodes; repeat split; try lia;
    repeat case_match; bool_cases; try reflexivity; lia.
Qed.

Lemma chain_short k : zlen (chain k) <= 3.
Proof. unfold chain; case_ifs; cbv; congruence. Qed.

Lemma chain_last k : exists cs, chain k = cs ++ [ND k].
Proof. unfold chain; case_ifs; [exists [] | eexists [_] | eexists [_; _]]; reflexivity. Qed.

(** The path of a block: the slots of the nodes on the way and the offset in the last. *)
Lemma path_chain x k o : 0 <= k < n_dnodes -> 0 <= o < 1018 ->
  exists p, get_node_path x (dn_start x k + o) = Some p /\ np_level p = zlen (chain k) /\
    np_offset p = match map tslot (chain k) with s :: l => (s + NODE_DIR1_BLOCK) :: l ++ [o] | [] => [] end.
Proof.
  intros Hk Ho; pose proof (addrs_per_inode_cases x) as Hn.
  destruct (get_node_path_cases x (dn_start x k + o)) as [[Hlt _] | (k' & o' & Ho' & Eb & Hc)].
  { rewrite max_blocks_dn; unfold dn_start, n_dnodes in *; lia. }
  { unfold dn_start in Hlt; lia. }
  assert (k' = k /\ o' = o) as [-> ->] by (unfold dn_start in Eb; lia).
  assert (Hd : forall i j, 0 <= j < 1018 -> (i * 1018 + j) / 1018 = i /\ (i * 1018 + j) mod 1018 = j) by (intros; lia).
  destruct Hc as [[-> ->] | [[-> ->] | [(i & Hi & -> & ->) | [(i & Hi & -> & ->) | (i & j & Hi & Hj & -> & ->)]]]];
    eexists; split; try reflexivity; unfold chain.
  - split; reflexivity.
  - split; reflexivity.
  - rewrite (proj2 (Z.ltb_ge _ _)) by lia; replace (2 + i - 2) with (0 * 1018 + i) by lia.
    destruct (Hd 0 i Hi) as [E1 E2]; rewrite E1; cbn; rewrite (proj2 (Z.ltb_ge (2 + i) 2)) by lia.
    replace (2 + i - 2) with (0 * 1018 + i) by lia; rewrite E2; split; reflexivity.
  - rewrite (proj2 (Z.ltb_ge _ _)) by lia; replace (1020 + i - 2) with (1 * 1018 + i) by lia.
    destruct (Hd 1 i Hi) as [E1 E2]; rewrite E1; cbn; rewrite (proj2 (Z.ltb_ge (1020 + i) 2)) by lia.
    replace (1020 + i - 2) with (1 * 1018 + i) by lia; rewrite E2; split; reflexivity.
  - rewrite (proj2 (Z.ltb_ge _ _)) by lia; replace (2038 + i * 1018 + j - 2) with ((2 + i) * 1018 + j) by lia.
    destruct (Hd (2 + i) j Hj) as [E1 E2]; rewrite E1, (proj2 (Z.ltb_ge (2 + i) 2)) by lia; cbn [map tslot].
    rewrite !(proj2 (Z.ltb_ge _ 2)) by lia; replace (2038 + i * 1018 + j - 2) with ((2 + i) * 1018 + j) by lia; rewrite E2.
    split; [reflexivity|]; cbn; repeat f_equal; lia.
Qed.

(** A block of the file is in the inode or in a direct node. *)
Lemma block_cases x i : 0 <= i < max_blocks x ->
  i < addrs_per_inode x \/ exists k o, 0 <= k < n_dnodes /\ 0 <= o < 1018 /\ i = dn_start x k + o.
Proof.
  rewrite max_blocks_dn; unfold dn_start, n_dnodes; intros Hi; destruct (Z.lt_ge_cases i (addrs_per_inode x)) as [|Hge]; [left; lia | right].
  exists ((i - addrs_per_inode x) / 1018), ((i - addrs_per_inode x) mod 1018); lia.
Qed.

(** * Looking up *)

(** The page that holds the pointers to the children of [par]. *)
Definition page_of (G : gmap tnode Z) (par : option tnode) (page : option Z) : Prop :=
  match par with None => page = None | Some q => exists n, G !! q = Some n /\ page = Some n end.

Lemma page_of_holder G c par page : tparent c = par -> page_of G par page ->
  holder G c page (match par with None => tslot c + NODE_DIR1_BLOCK | Some _ => tslot c end).
Proof. intros <-; unfold holder, page_of; destruct (tparent c); [intros (n & E & ->); exists n; auto | auto]. Qed.

(** A node of the tree has its whole path in the tree. *)
Lemma last_absent b t G s f c cs l : rep b t G s f -> (exists p, linked p cs) -> cs = c :: l -> G !! c = None ->
  match last cs with Some d => G !! d = None | None => True end.
Proof.
  intros R H ->; revert c H.
  induction l as [|d l IH]; intros c [p (E & V & HL)] Ec; [exact Ec|]; change (last (c :: d :: l)) with (last (d :: l)); apply IH; [eauto|].
  destruct (G !! d) as [n|] eqn:Ed; [|reflexivity]; destruct HL as (Ep & _); destruct (r_closed _ _ _ _ _ R d n Ed) as [_ Hp].
  destruct (Hp c Ep) as [? E']; congruence.
Qed.

Section Lookup.
Variables (w : tworld) (offset : list Z) (level : Z).
Hypothesis Herr : forall n, tw_page_err w n <> - ENOENT.

(** What a lookup of node [c] gives: its page, [-ENOENT] when there is none, or an error
    reading a page. *)
Definition found (G : gmap tnode Z) (c : option tnode) (r : Z + Z * option Z) : Prop :=
  match r with
  | inr (n, page) => exists d, c = Some d /\ G !! d = Some n /\ page = Some n
  | inl e => (e = - ENOENT /\ forall d, c = Some d -> G !! d = None) \/
             (e <> - ENOENT /\ e < 0 /\ exists n, tw_page_err w n = e)
  end.

(** The same for one level. *)
Definition level_found (G : gmap tnode Z) (c : tnode) (r : Z + Z * Z) : Prop :=
  match r with
  | inr (id, pg) => id = pg /\ G !! c = Some pg
  | inl e => (e = - ENOENT /\ G !! c = None) \/ (e <> - ENOENT /\ e < 0 /\ exists n, tw_page_err w n = e)
  end.

Lemma level_page b t G f c : rep b t G None f ->
  exists r, match get_node_page w t (default 0 (G !! c)) with
            | inl err => Done (inl err, t)
            | inr _ => Done (inr (default 0 (G !! c), default 0 (G !! c)), t)
            end = Done (r, t) /\ level_found G c r.
Proof.
  intros R; destruct (G !! c) as [n|] eqn:Ec; cbn [from_option id].
  - destruct (rep_get_page _ _ _ _ _ c n w R Ec) as [[l ->] | [-> He]]; eexists; (split; [reflexivity|]); [split; auto | right; eauto].
  - destruct (rep_get_page_0 _ _ _ _ _ w R) as [-> | [-> He]]; eexists; (split; [reflexivity|]); [left; auto | right; eauto].
Qed.

(** The walk, in a mode that looks nodes up. *)
Lemma levels_walk mode b t G f : rep b t G None f ->
  (forall c i par page, tparent c = par -> tvalid c -> page_of G par page ->
    offset.[i - 1] = (match par with None => tslot c + NODE_DIR1_BLOCK | Some _ => tslot c end) ->
    exists r, dnode_level w mode offset level i page (default 0 (G !! c)) t = Done (r, t) /\ level_found G c r) ->
  forall l c i par page, linked par (c :: l) -> page_of G par page -> level = i + zlen l ->
  (forall j d, l !! j = Some d -> offset.[i + Z.of_nat j] = tslot d) ->
  offset.[i - 1] = (match par with None => tslot c + NODE_DIR1_BLOCK | Some _ => tslot c end) ->
  exists r, dnode_levels (length (c :: l)) w mode offset level i page (default 0 (G !! c)) t = Done (r, t) /\ found G (last (c :: l)) r.
Proof.
  intros R Hlvl; induction l as [|d l IH]; intros c i par page HL HP Hlev Hoff Hoff0; pose proof HL as (Ep & V & HL'); cbn [length dnode_levels];
    destruct (Hlvl c i par page Ep V HP Hoff0) as (r & E & Hr); rewrite E; cbn [mbind outcome_bind]; destruct r as [e | [id pg]].
  - eexists; split; [reflexivity|]; destruct Hr as [[-> Hn] | Hr]; [left; split; [reflexivity | intros d [= <-]; exact Hn] | right; exact Hr].
  - destruct Hr as [-> Ec]; rewrite (proj2 (Z.ltb_ge i level)) by (unfold zlen in Hlev; cbn in Hlev; lia); eexists; split; [reflexivity | exists c; auto].
  - eexists; split; [reflexivity|]; destruct Hr as [[-> Hn] | Hr]; [left; split; [reflexivity|] | right; exact Hr].
    intros d' Ed'; pose proof (last_absent _ _ _ _ _ c (c :: d :: l) (d :: l) R (ex_intro _ par HL) eq_refl Hn) as Hl; rewrite Ed' in Hl; exact Hl.
  - destruct Hr as [-> Ec]; rewrite (proj2 (Z.ltb_lt i level)) by (unfold zlen in Hlev; cbn in Hlev; lia); pose proof HL' as (Ed & Vd & _).
    assert (HP' : page_of G (Some c) (Some pg)) by (exists pg; auto).
    assert (Eo : offset.[i] = tslot d) by (pose proof (Hoff O d eq_refl) as Eo; replace (i + Z.of_nat 0) with i in Eo by lia; exact Eo).
    replace (get_nid t (Some pg) (offset.[i])) with (default 0 (G !! d)).
    2:{ rewrite Eo; symmetry; apply (rep_get_nid _ _ _ _ _ d _ _ R Vd); exact (page_of_holder G d (Some c) (Some pg) Ed HP'). }
    apply (IH d (i + 1) (Some c) (Some pg) HL' HP'); [unfold zlen in *; cbn in Hlev; lia | | replace (i + 1 - 1) with i by lia; exact Eo].
    intros j d' Ej; replace (i + 1 + Z.of_nat j) with (i + Z.of_nat (S j)) by lia; exact (Hoff (S j) d' Ej).
Qed.

End Lookup.

(** What [get_dnode_of_data] tells about block [i]. *)
Definition dnode_found (w : tworld) (x : bool) (G : gmap tnode Z) (f : Z -> Z) (i : Z) (r : Z + dnode_of_data) : Prop :=
  match r with
  | inr dn => at_index x G i (dn_page dn) (dn_ofs dn) /\ dn_addr dn = f i
  | inl e => (e = - ENOENT /\ exists k o, 0 <= k < n_dnodes /\ 0 <= o < 1018 /\ i = dn_start x k + o /\ G !! ND k = None) \/
             (e <> - ENOENT /\ e < 0 /\ exists n, tw_page_err w n = e)
  end.

Lemma inode_page_err_cases w t : (inode_page_err w t = 0) \/ (inode_page_err w t < 0 /\ inode_page_err w t = tw_page_err w (ft_ino t)).
Proof. unfold inode_page_err; destruct (Z.ltb_spec (tw_page_err w (ft_ino t)) 0); auto. Qed.

Lemma chain_offsets k o s l : map tslot (chain k) = s :: l -> forall cs c, chain k = c :: cs ->
  (forall j d, cs !! j = Some d -> ((s + NODE_DIR1_BLOCK) :: l ++ [o]).[1 + Z.of_nat j] = tslot d) /\
  ((s + NODE_DIR1_BLOCK) :: l ++ [o]).[zlen (chain k)] = o /\ s = tslot c.
Proof.
  intros E cs c Ec; rewrite Ec in E; cbn in E; injection E as <- <-; repeat split.
  - intros j d Ej; unfold aget; rewrite (proj2 (Z.leb_le 0 _)) by lia; replace (Z.to_nat (1 + Z.of_nat j)) with (S j) by lia.
    cbn; apply list_lookup_total_correct; rewrite lookup_app_l by (rewrite length_map; apply lookup_lt_Some in Ej; exact Ej).
    rewrite list_lookup_fmap, Ej; reflexivity.
  - rewrite Ec; unfold aget, zlen; rewrite (proj2 (Z.leb_le 0 _)) by lia; rewrite Nat2Z.id; cbn [length].
    apply list_lookup_total_correct; change ((map tslot cs ++ [o]) !! length cs = Some o).
    rewrite lookup_app_r by (rewrite length_map; lia); rewrite length_map, Nat.sub_diag; reflexivity.
Qed.

Lemma last_chain k : last (chain k) = Some (ND k).
Proof. destruct (chain_last k) as [cs ->]; rewrite last_snoc; reflexivity. Qed.

Lemma chain_cons k : exists c cs, chain k = c :: cs.
Proof. unfold chain; case_ifs; eauto. Qed.

(** [get_dnode_of_data] for a block in the inode. *)
Lemma dnode_of_inode b t G f w have i mode : rep b t G None f -> ft_inline_data t = false -> 0 <= i < addrs_per_inode (ft_inline_xattr t) ->
  (forall n, tw_page_err w n <> - ENOENT) ->
  exists r, get_dnode_of_data w have i mode t = Done (r, t) /\ dnode_found w (ft_inline_xattr t) G f i r.
Proof.
  intros R Hin Hi Herr; unfold get_dnode_of_data.
  assert (Ep : get_node_path (ft_inline_xattr t) i = Some (mk_path 0 [i] [0])).
  { unfold get_node_path; rewrite (proj2 (Z.ltb_lt _ _)) by lia; reflexivity. }
  rewrite Ep, Hin; cbn [np_level np_offset andb]; destruct (negb have && (inode_page_err w t <? 0)) eqn:E0.
  - destruct (inode_page_err_cases w t) as [E | [He E]]; [rewrite E, andb_false_r in E0; discriminate|].
    eexists; split; [reflexivity | right]; rewrite E; repeat split; [apply Herr | lia | eauto].
  - eexists; split; [reflexivity|]; cbn [dnode_found dn_page dn_ofs dn_addr].
    assert (HA : at_index (ft_inline_xattr t) G i None i) by (left; auto with lia).
    split; [exact HA | exact (rep_entry _ _ _ _ _ _ _ _ R HA)].
Qed.

(** The walk of [get_dnode_of_data] along the path of direct node [k], behind the reading
    of the inode's page. *)
Lemma dnode_of_path b t G f w have mode k o : rep b t G None f -> ft_inline_data t = false -> 0 <= k < n_dnodes -> 0 <= o < 1018 ->
  exists c cs offset level, chain k = c :: cs /\ level = 1 + zlen cs /\ offset.[0] = tslot c + NODE_DIR1_BLOCK /\
   (forall j d, cs !! j = Some d -> offset.[1 + Z.of_nat j] = tslot d) /\
   get_dnode_of_data w have (dn_start (ft_inline_xattr t) k + o) mode t =
   if negb have && (inode_page_err w t <? 0) then Done (inl (inode_page_err w t), t)
   else '(r, t) ← dnode_levels (length (chain k)) w mode offset level 1 None (default 0 (G !! c)) t;
        match r with
        | inl err => Done (inl err, t)
        | inr (nid, page) => Done (inr (mk_dn nid page o (datablock_addr t page o)), t)
        end.
Proof.
  intros R Hin Hk Ho; destruct (path_chain (ft_inline_xattr t) k o Hk Ho) as (p & Ep & Elev & Eoff).
  destruct (chain_cons k) as (c & cs & Ec); destruct (map tslot (chain k)) as [|s l] eqn:Em; [rewrite Ec in Em; discriminate|].
  destruct (chain_offsets k o s l Em cs c Ec) as (Hoff & Hlast & ->); rewrite <- Eoff in Hoff, Hlast.
  assert (E0 : (np_offset p).[0] = tslot c + NODE_DIR1_BLOCK) by (rewrite Eoff; reflexivity).
  exists c, cs, (np_offset p), (np_level p); repeat split; [exact Ec | rewrite Elev, Ec; unfold zlen; cbn; lia | exact E0 | exact Hoff|].
  unfold get_dnode_of_data; rewrite Ep, Hin; cbn [andb]; destruct (negb have && (inode_page_err w t <? 0)); [reflexivity|].
  pose proof (chain_linked k Hk) as HL; rewrite Ec in HL; destruct HL as (Epar & Vc & _).
  rewrite (proj2 (Z.eqb_neq (np_level p) 0)) by (rewrite Elev, Ec; unfold zlen; cbn; lia).
  replace (get_nid t None ((np_offset p).[0])) with (default 0 (G !! c)).
  2:{ rewrite E0; symmetry; apply (rep_get_nid _ _ _ _ _ c _ _ R Vc); exact (page_of_holder G c None None Epar eq_refl). }
  replace (Z.to_nat (np_level p)) with (length (chain k)) by (rewrite Elev; unfold zlen; lia).
  rewrite Elev, Hlast; reflexivity.
Qed.

(** The modes that look nodes up: a level gives the node it is asked for. *)
Definition lookup_mode (w : tworld) (mode : node_mode) : Prop := mode = LOOKUP_NODE \/ (mode = LOOKUP_NODE_RA /\ tw_node_count w = 1).

(** With a single file cell the read-ahead compares equal mappings, and the lookup finds
    the node it was asked for. *)
Lemma ra_single w t parent start : tw_node_count w = 1 ->
  get_node_page_ra w t parent start =
  let nid := get_nid t parent start in
  Done (if nid =? 0 then inl (- ENOENT) else match get_node_page w t nid with inl e => inl e | inr _ => inr nid end).
Proof.
  intros H1; unfold get_node_page_ra; cbv zeta; destruct (get_nid t parent start =? 0); [reflexivity|]; cbn [ra_repeat].
  destruct (get_node_page w t (get_nid t parent start)); [reflexivity|]; case_match; [reflexivity|]; cbv zeta.
  rewrite H1, !Z.mod_1_r; reflexivity.
Qed.

Lemma level_lookup w mode offset level b t G f c i par page : lookup_mode w mode -> (forall n, tw_page_err w n <> - ENOENT) -> rep b t G None f ->
  tparent c = par -> tvalid c -> page_of G par page ->
  offset.[i - 1] = (match par with None => tslot c + NODE_DIR1_BLOCK | Some _ => tslot c end) ->
  exists r, dnode_level w mode offset level i page (default 0 (G !! c)) t = Done (r, t) /\ level_found w G c r.
Proof.
  intros Hmode Herr R Ep V HP Hoff; pose proof (level_page w Herr b t G f c R) as Hpage; destruct Hmode as [-> | [-> H1]]; cbn [dnode_level]; [exact Hpage|].
  destruct ((i =? level) && (1 <? level)); [|exact Hpage].
  rewrite ra_single by exact H1; cbv zeta; rewrite Hoff, (rep_get_nid _ _ _ _ _ c _ _ R V (page_of_holder G c par page Ep HP)); cbn [mbind outcome_bind ptr_of].
  destruct (G !! c) as [n|] eqn:Ec; cbn [from_option id] in *; [|eexists; split; [reflexivity | left; auto]].
  rewrite (proj2 (Z.eqb_neq n 0)) by exact (proj1 (r_page _ _ _ _ _ R c n Ec)); destruct (get_node_page w t n) as [e | l0]; cbn [mbind outcome_bind]; exact Hpage.
Qed.

(** A lookup finds the entry of a block, or the direct node is missing, or a page cannot be
    read. *)
Lemma dnode_lookup_mode b t G f w have i mode : lookup_mode w mode -> rep b t G None f -> ft_inline_data t = false -> 0 <= i < max_blocks (ft_inline_xattr t) ->
  (forall n, tw_page_err w n <> - ENOENT) ->
  exists r, get_dnode_of_data w have i mode t = Done (r, t) /\ dnode_found w (ft_inline_xattr t) G f i r.
Proof.
  intros Hmode R Hin Hi Herr; destruct (block_cases _ i Hi) as [Hlt | (k & o & Hk & Ho & ->)]; [apply (dnode_of_inode b); auto with lia|].
  destruct (dnode_of_path b t G f w have mode k o R Hin Hk Ho) as (c & cs & offset & level & Ec & -> & Hoff0 & Hoff & ->).
  destruct (negb have && (inode_page_err w t <? 0)) eqn:E0.
  { destruct (inode_page_err_cases w t) as [E | [He E]]; [rewrite E, andb_false_r in E0; discriminate|].
    eexists; split; [reflexivity | right]; rewrite E; repeat split; [apply Herr | lia | eauto]. }
  pose proof (chain_linked k Hk) as HL; rewrite Ec in HL |- *.
  destruct (levels_walk w offset (1 + zlen cs) mode b t G f R
    (fun c i par page => level_lookup w mode offset (1 + zlen cs) b t G f c i par page Hmode Herr R) cs c 1 None None HL eq_refl eq_refl Hoff Hoff0) as (r & -> & Hr).
  rewrite <- Ec, last_chain in Hr; cbn [mbind outcome_bind]; destruct r as [e | [n page]].
  - eexists; split; [reflexivity|]; destruct Hr as [[-> Hn] | Hr]; [left | right; exact Hr].
    split; [reflexivity|]; exists k, o; auto.
  - destruct Hr as (d & [= <-] & En & ->); eexists; split; [reflexivity|]; cbn [dnode_found dn_page dn_ofs dn_addr].
    assert (HA : at_index (ft_inline_xattr t) G (dn_start (ft_inline_xattr t) k + o) (Some n) o) by (right; exists k, n; auto 10).
    split; [exact HA | exact (rep_entry _ _ _ _ _ _ _ _ R HA)].
Qed.

Lemma dnode_lookup b t G f w have i : rep b t G None f -> ft_inline_data t = false -> 0 <= i < max_blocks (ft_inline_xattr t) ->
  (forall n, tw_page_err w n <> - ENOENT) ->
  exists r, get_dnode_of_data w have i LOOKUP_NODE t = Done (r, t) /\ dnode_found w (ft_inline_xattr t) G f i r.
Proof. apply dnode_lookup_mode; left; reflexivity. Qed.

(** * Adding nodes *)

(** What operations on the tree leave alone. *)
Definition same_file (t t' : ftree) : Prop :=
  ft_ino t' = ft_ino t /\ ft_inline_xattr t' = ft_inline_xattr t /\ ft_inline_data t' = ft_inline_data t.

Lemma same_file_refl t : same_file t t.
Proof. repeat split. Qed.

Lemma same_file_trans t1 t2 t3 : same_file t1 t2 -> same_file t2 t3 -> same_file t1 t3.
Proof. intros (A & B & C) (A' & B' & C'); repeat split; congruence. Qed.

Definition same_ledger (t t' : ftree) : Prop := same_file t t' /\ ft_freed t' = ft_freed t /\ ft_gone t' = ft_gone t.

Lemma set_nid_ledger p off n t : same_ledger t (set_nid p off n t).
Proof. destruct p; repeat split. Qed.

Lemma new_node_page_ledger w n t : same_ledger t (snd (new_node_page w n t)).
Proof. unfold new_node_page; case_ifs; repeat split. Qed.

Lemma same_ledger_trans t1 t2 t3 : same_ledger t1 t2 -> same_ledger t2 t3 -> same_ledger t1 t3.
Proof. intros (A & B & C) (A' & B' & C'); split; [eapply same_file_trans; eassumption | split; congruence]. Qed.

(** The ids handed out for the levels from [i] on are new and differ. *)
Definition fresh_from (w : tworld) (t : ftree) (i : Z) : Prop :=
  forall j n, i <= j -> tw_nid w j = Some n -> n <> 0 /\ ft_pages t !! n = None /\ forall j', i <= j' -> tw_nid w j' = Some n -> j' = j.

Lemma set_nid_fresh p off v t m : (forall n, p = Some n -> n <> m) -> ft_pages t !! m = None -> ft_pages (set_nid p off v t) !! m = None.
Proof. destruct p as [n|]; cbn; [|auto]; intros H E; rewrite lookup_insert_ne by exact (H n eq_refl); exact E. Qed.

Lemma new_node_page_fresh w n t m : n <> m -> ft_pages t !! m = None -> ft_pages (snd (new_node_page w n t)) !! m = None.
Proof. intros Hne E; unfold new_node_page; case_ifs; cbn; rewrite ?lookup_insert_ne by exact Hne; exact E. Qed.

(** Why adding a node or a block can fail. *)
Definition can_fail (w : tworld) : Prop :=
  (exists n, tw_page_err w n < 0) \/ (exists i, 1 <= i <= 3 /\ tw_nid w i = None) \/ tw_no_alloc w = true \/
  (exists n, tw_grab w n = false) \/ (exists n, tw_node_room w n = false) \/ tw_block_room w = false.

Lemma new_node_page_err w n t : fst (new_node_page w n t) = 0 \/ (fst (new_node_page w n t) < 0 /\ snd (new_node_page w n t) = t /\ can_fail w).
Proof.
  unfold new_node_page, can_fail, EPERM, ENOMEM, ENOSPC; destruct (tw_no_alloc w); [right; cbn; auto with lia|].
  destruct (tw_grab w n) eqn:E1; [|right; cbn; eauto 10 with lia]; destruct (tw_node_room w n) eqn:E2; [left; reflexivity | right; cbn; eauto 10 with lia].
Qed.

Section Alloc.
Variables (w : tworld) (offset : list Z) (level : Z).

(** The result of a walk that adds missing nodes. *)
Definition grown (b : Z) (t : ftree) (G : gmap tnode Z) (f : Z -> Z) (c : option tnode) (r : Z + Z * option Z) (t' : ftree) : Prop :=
  exists G', rep b t' G' None f /\ G ⊆ G' /\ same_ledger t t' /\
    match r with
    | inr (n, page) => exists d, c = Some d /\ G' !! d = Some n /\ page = Some n
    | inl e => e < 0 /\ can_fail w
    end.

(** One level: the node is there afterwards, or an error is returned. *)
Lemma level_alloc b t G f c i par page : rep b t G None f -> 1 <= i <= 3 -> tparent c = par -> tvalid c -> page_of G par page ->
  offset.[i - 1] = (match par with None => tslot c + NODE_DIR1_BLOCK | Some _ => tslot c end) -> fresh_from w t i ->
  exists r t', dnode_level w ALLOC_NODE offset level i page (default 0 (G !! c)) t = Done (r, t') /\ fresh_from w t' (i + 1) /\
    exists G', rep b t' G' None f /\ G ⊆ G' /\ same_ledger t t' /\
      match r with inl e => e < 0 /\ can_fail w | inr (id, pg) => id = pg /\ G' !! c = Some pg end.
Proof.
  intros R Hlev Epar V HP Hoff Hfr; assert (Hfr' : fresh_from w t (i + 1)).
  { intros j n Hj En; destruct (Hfr j n ltac:(lia) En) as (A & B & C); repeat split; [exact A | exact B|]; intros j' Hj'; apply C; lia. }
  assert (Hsame : forall P, P -> exists G', rep b t G' None f /\ G ⊆ G' /\ same_ledger t t /\ P).
  { intros P HPr; exists G; split; [exact R|]; split; [reflexivity|]; split; [repeat split | exact HPr]. }
  cbn [dnode_level]; destruct (G !! c) as [n|] eqn:Ec; cbn [from_option id].
  - rewrite (proj2 (Z.eqb_neq n 0)) by exact (proj1 (r_page _ _ _ _ _ R c n Ec)).
    destruct (rep_get_page _ _ _ _ _ c n w R Ec) as [[pg E] | [E He]]; rewrite E; eexists _, t; (split; [reflexivity|]); (split; [exact Hfr'|]).
    + exists G; split; [exact R|]; split; [reflexivity|]; split; [repeat split | auto].
    + apply Hsame; split; [exact He | left; eauto].
  - cbn [Z.eqb]; destruct (tw_nid w i) as [n|] eqn:En.
    2:{ eexists _, t; split; [reflexivity|]; split; [exact Hfr' | apply Hsame; split; [unfold ENOSPC; lia | right; left; eauto]]. }
    destruct (Hfr i n ltac:(lia) En) as (Hn & Hnew & Huniq); pose proof (new_node_page_ledger w n t) as HL.
    pose proof (new_node_page_err w n t) as Herr; pose proof (new_node_page_fresh w n t) as Hpg.
    pose proof (rep_grow b t G c n f w R V Ec) as R1; destruct (new_node_page w n t) as [err t1]; cbn [fst snd] in *.
    destruct Herr as [-> | (He & -> & Hcf)].
    2:{ rewrite (proj2 (Z.ltb_lt err 0)) by exact He; eexists _, t; split; [reflexivity|]; split; [exact Hfr' | apply Hsame; auto]. }
    assert (Hpar : forall p, tparent c = Some p -> is_Some (G !! p)).
    { intros p Ep; rewrite Ep in Epar; subst par; destruct HP as (np & Enp & _); eauto. }
    assert (HH : holder (<[c := n]> G) c page (offset.[i - 1])).
    { rewrite Hoff; apply page_of_holder; [exact Epar|]; destruct par as [q|]; [|exact HP]; destruct HP as (np & Enp & ->).
      exists np; split; [|reflexivity]; rewrite lookup_insert_ne; [exact Enp | intros <-; congruence]. }
    eexists _, _; split; [reflexivity|]; split.
    + intros j m Hj Em; destruct (Hfr' j m Hj Em) as (A & B & C); repeat split; [exact A | | exact C].
      apply set_nid_fresh; [|apply Hpg; [intros ->; specialize (Huniq j ltac:(lia) Em); lia | exact B]].
      intros np ->; destruct par as [q|]; [|discriminate HP]; destruct HP as (np' & Enp & [= <-]).
      intros ->; destruct (rep_lookup _ _ _ _ _ q m R Enp) as (l & El & _); congruence.
    + exists (<[c := n]> G); split; [|split; [apply insert_subseteq; exact Ec | split; [exact (same_ledger_trans _ _ _ HL (set_nid_ledger _ _ _ _)) | split; [reflexivity | apply lookup_insert_eq]]]].
      apply (rep_stale b _ _ c n); [rewrite lookup_insert_eq; reflexivity|].
      exact (rep_ptr b t1 _ c 0 n f page _ (R1 Hpar Hn Hnew eq_refl) V HH).
Qed.

Lemma levels_alloc b f : forall l c i par page t G, rep b t G None f -> 1 <= i -> level <= 3 -> linked par (c :: l) -> page_of G par page -> level = i + zlen l ->
  (forall j d, l !! j = Some d -> offset.[i + Z.of_nat j] = tslot d) ->
  offset.[i - 1] = (match par with None => tslot c + NODE_DIR1_BLOCK | Some _ => tslot c end) -> fresh_from w t i ->
  exists r t', dnode_levels (length (c :: l)) w ALLOC_NODE offset level i page (default 0 (G !! c)) t = Done (r, t') /\
    grown b t G f (last (c :: l)) r t'.
Proof.
  induction l as [|d l IH]; intros c i par page t G R Hi1 Hi3 (Ep & V & HL) HP Hlev Hoff Hoff0 Hfr; cbn [length dnode_levels];
    destruct (level_alloc b t G f c i par page R ltac:(unfold zlen in *; lia) Ep V HP Hoff0 Hfr) as (r & t1 & E1 & Hfr1 & G1 & R1 & HG1 & HL1 & Hr); rewrite E1; cbn [mbind outcome_bind];
    (destruct r as [e | [id pg]]; [exists (inl e), t1; split; [reflexivity|]; exists G1; auto|]); destruct Hr as [-> Ec1].
  - rewrite (proj2 (Z.ltb_ge i level)) by (unfold zlen in Hlev; cbn in Hlev; lia); eexists _, t1; split; [reflexivity|].
    exists G1; repeat (split; [assumption|]); exists c; auto.
  - rewrite (proj2 (Z.ltb_lt i level)) by (unfold zlen in Hlev; cbn in Hlev; lia); pose proof HL as (Ed & Vd & _).
    assert (HP' : page_of G1 (Some c) (Some pg)) by (exists pg; auto).
    assert (Eo : offset.[i] = tslot d) by (pose proof (Hoff O d eq_refl) as Eo; replace (i + Z.of_nat 0) with i in Eo by lia; exact Eo).
    replace (get_nid t1 (Some pg) (offset.[i])) with (default 0 (G1 !! d)).
    2:{ rewrite Eo; symmetry; apply (rep_get_nid _ _ _ _ _ d _ _ R1 Vd); exact (page_of_holder G1 d (Some c) (Some pg) Ed HP'). }
    destruct (IH d (i + 1) (Some c) (Some pg) t1 G1 R1 ltac:(lia) Hi3 HL HP') as (r & t2 & E2 & G2 & R2 & HG2 & HL2 & Hr2).
    + unfold zlen in *; cbn in Hlev; lia.
    + intros j d' Ej; replace (i + 1 + Z.of_nat j) with (i + Z.of_nat (S j)) by lia; exact (Hoff (S j) d' Ej).
    + replace (i + 1 - 1) with i by lia; exact Eo.
    + exact Hfr1.
    + exists r, t2; split; [exact E2|]; exists G2; split; [exact R2|]; split; [etrans; eassumption|]; split; [exact (same_ledger_trans _ _ _ HL1 HL2)|].
      exact Hr2.
Qed.

End Alloc.

(** With [ALLOC_NODE] the entry of the block exists afterwards, or an error is returned; in
    both cases the file is unchanged and no block or node is given back. *)
Lemma dnode_alloc b t G f w have i : rep b t G None f -> ft_inline_data t = false -> 0 <= i < max_blocks (ft_inline_xattr t) ->
  (forall n, tw_page_err w n <> - ENOENT) -> fresh_from w t 1 ->
  exists r t' G', get_dnode_of_data w have i ALLOC_NODE t = Done (r, t') /\ rep b t' G' None f /\ G ⊆ G' /\ same_ledger t t' /\
    match r with
    | inr dn => at_index (ft_inline_xattr t) G' i (dn_page dn) (dn_ofs dn) /\ dn_addr dn = f i
    | inl e => e < 0 /\ can_fail w
    end.
Proof.
  intros R Hin Hi Herr Hfr; destruct (block_cases _ i Hi) as [Hlt | (k & o & Hk & Ho & ->)].
  { destruct (dnode_of_inode b t G f w have i ALLOC_NODE R Hin ltac:(lia) Herr) as (r & E & Hr); exists r, t, G.
    split; [exact E|]; split; [exact R|]; split; [reflexivity|]; split; [repeat split|]; destruct r as [e | dn]; [|exact Hr].
    destruct Hr as [(_ & k & o & Hk & Ho & Ei & _) | (_ & He & n & En)]; [unfold dn_start in Ei; lia | split; [exact He | left; exists n; lia]]. }
  destruct (dnode_of_path b t G f w have ALLOC_NODE k o R Hin Hk Ho) as (c & cs & offset & level & Ec & Elev & Hoff0 & Hoff & ->).
  destruct (negb have && (inode_page_err w t <? 0)) eqn:E0.
  { exists (inl (inode_page_err w t)), t, G; split; [reflexivity|]; split; [exact R|]; split; [reflexivity|]; split; [repeat split|].
    destruct (inode_page_err_cases w t) as [E | [He Ew]]; [rewrite E, andb_false_r in E0; discriminate|].
    split; [exact He | left; exists (ft_ino t); lia]. }
  pose proof (chain_linked k Hk) as HL; rewrite Ec in HL |- *; pose proof (chain_short k) as Hlen; rewrite Ec in Hlen; unfold zlen in Hlen; cbn in Hlen.
  destruct (levels_alloc w offset level b f cs c 1 None None t G R ltac:(lia) ltac:(unfold zlen in *; lia) HL eq_refl Elev Hoff Hoff0 Hfr) as (r & t' & -> & G' & R' & HG & HLd & Hr).
  cbn [mbind outcome_bind]; destruct r as [e | [n page]]; [exists (inl e), t', G'; auto|].
  rewrite <- Ec, last_chain in Hr; destruct Hr as (d & [= <-] & En & ->).
  eexists _, t', G'; split; [reflexivity|]; repeat (split; [assumption|]); cbn [dn_page dn_ofs dn_addr]; destruct HLd as ((_ & Ex & _) & _).
  assert (HA : at_index (ft_inline_xattr t) G' (dn_start (ft_inline_xattr t) k + o) (Some n) o) by (right; exists k, n; auto 10).
  split; [exact HA|]; rewrite <- Ex in HA |- *; exact (rep_entry _ _ _ _ _ _ _ _ R' HA).
Qed.

(** * Entries *)

Lemma rep_tally b b' t G s f blocks freed gone bug : rep b t G s f -> bug = false -> blocks - ft_blocks t = b' - b ->
  rep b' (with_tally blocks freed gone bug t) G s f.
Proof. intros [A N P PT I D C IN DA B BG] -> E; constructor; cbn; auto; lia. Qed.

Lemma upd_id f i j : upd f i (f i) j = f j.
Proof. unfold upd; destruct (Z.eqb_spec j i); congruence. Qed.

(** A hole gets the address [NEW_ADDR]. *)
Lemma reserve_entry b t G f i node o : rep b t G None f -> at_index (ft_inline_xattr t) G i node o -> f i = 0 ->
  rep b (set_data_blkaddr node o NEW_ADDR (with_tally (ft_blocks t + 1) (ft_freed t) (ft_gone t) (ft_bug t) t)) G None (upd f i NEW_ADDR).
Proof.
  intros R HA E0; replace b with (b + 1 + b2z (negb (f i =? 0)) - b2z (negb (NEW_ADDR =? 0))) by (rewrite E0; change (NEW_ADDR =? 0) with false; cbn; lia).
  apply rep_set; [|exact HA]; apply (rep_tally b); [exact R | exact (r_bug _ _ _ _ _ R) | lia].
Qed.

(** [f2fs_reserve_block] reserves a hole and leaves other blocks alone. *)
Lemma reserve_ok b t G f w have i : rep b t G None f -> ft_inline_data t = false -> 0 <= i < max_blocks (ft_inline_xattr t) ->
  (forall n, tw_page_err w n <> - ENOENT) -> fresh_from w t 1 ->
  exists r t' G', f2fs_reserve_block w have i t = Done (r, t') /\ G ⊆ G' /\ same_ledger t t' /\
    match r with
    | inr dn => let a := if f i =? 0 then NEW_ADDR else f i in
        rep b t' G' None (upd f i a) /\ at_index (ft_inline_xattr t) G' i (dn_page dn) (dn_ofs dn) /\ dn_addr dn = a
    | inl e => e < 0 /\ can_fail w /\ rep b t' G' None f
    end.
Proof.
  intros R Hin Hi Herr Hfr; unfold f2fs_reserve_block.
  destruct (dnode_alloc b t G f w have i R Hin Hi Herr Hfr) as (r & t1 & G1 & -> & R1 & HG & HL & Hr); cbn [mbind outcome_bind].
  destruct r as [e | dn]; [exists (inl e), t1, G1; destruct Hr; auto 10|]; destruct Hr as [HA Ea]; rewrite Ea; unfold NULL_ADDR; destruct (f i =? 0) eqn:E0; bool_cases.
  2:{ exists (inr dn), t1, G1; repeat (split; [assumption || reflexivity|]).
      split; [apply (rep_ext b t1 G1 None f); [intros j _; rewrite upd_id; reflexivity | exact R1] | auto]. }
  unfold reserve_new_block, inc_valid_block_count; pose proof HL as ((_ & Ex & _) & _); rewrite <- Ex in HA.
  assert (Hfail : forall e, e < 0 -> can_fail w -> exists r t' G', Done (if e =? 0 then inr dn else inl e, t1) = Done (r, t') /\ G ⊆ G' /\ same_ledger t t' /\
    match r with
    | inr dn => rep b t' G' None (upd f i NEW_ADDR) /\ at_index (ft_inline_xattr t) G' i (dn_page dn) (dn_ofs dn) /\ dn_addr dn = NEW_ADDR
    | inl e => e < 0 /\ can_fail w /\ rep b t' G' None f
    end).
  { intros e He Hcf; exists (inl e), t1, G1; rewrite (proj2 (Z.eqb_neq e 0)) by lia; auto 10. }
  destruct (tw_no_alloc w) eqn:Ena; [apply (Hfail (- EPERM)); [unfold EPERM; lia | unfold can_fail; auto]|].
  destruct (tw_block_room w) eqn:Ebr; cbn [negb]; [|apply (Hfail (- ENOSPC)); [unfold ENOSPC; lia | unfold can_fail; auto 10]].
  eexists _, _, G1; split; [reflexivity|]; split; [exact HG|]; split; [|split; [|split]].
  - apply (same_ledger_trans _ _ _ HL); destruct (dn_page dn); repeat split.
  - apply reserve_entry; assumption.
  - cbn [dn_page dn_ofs]; rewrite <- Ex; exact HA.
  - reflexivity.
Qed.

(** Writing the address of a mapped block. *)
Lemma set_mapped_ok b t G f i node o a : rep b t G None f -> at_index (ft_inline_xattr t) G i node o -> f i <> 0 -> a <> 0 ->
  rep b (set_data_blkaddr node o a t) G None (upd f i a).
Proof.
  intros R HA H1 H2; pose proof (rep_set b t G None f i node o a R HA) as R'.
  rewrite (proj2 (Z.eqb_neq (f i) 0)), (proj2 (Z.eqb_neq a 0)) in R' by assumption; cbn [negb b2z] in R'.
  replace (b + 1 - 1) with b in R' by lia; exact R'.
Qed.

(** * Clearing a range of one node *)

Lemma set_data_ledger node o a t : same_ledger t (set_data_blkaddr node o a t).
Proof. destruct node; repeat split. Qed.

(** The entries of consecutive blocks in one node. *)
Definition at_range (x : bool) (G : gmap tnode Z) (i count : Z) (node : option Z) (o : Z) : Prop :=
  forall j, 0 <= j < count -> at_index x G (i + j) node (o + j).

Lemma truncate_range_ok b t G s f i count node o : rep b t G s f -> 0 <= b -> 0 <= count -> at_range (ft_inline_xattr t) G i count node o ->
  let t' := snd (truncate_data_blocks_range node o count t) in
  rep b t' G s (zero f i (i + count)) /\ same_file t t' /\ ft_gone t' = ft_gone t /\ ft_freed t' = ft_freed t ++ live f i (i + count).
Proof.
  intros R Hb Hc HA; unfold truncate_data_blocks_range; set (body := fun (j : Z) '(nr_free, t) => _).
  assert (HI : let r := for_range o (o + count) body (0, t) in 0 <= fst r /\ rep (b + fst r) (snd r) G s (zero f i (i + count)) /\ same_file t (snd r) /\
    ft_gone (snd r) = ft_gone t /\ ft_freed (snd r) = ft_freed t ++ live f i (i + count)).
  { cut ((fun j r => 0 <= fst r /\ rep (b + fst r) (snd r) G s (zero f i (i + (j - o))) /\ same_file t (snd r) /\
      ft_gone (snd r) = ft_gone t /\ ft_freed (snd r) = ft_freed t ++ live f i (i + (j - o))) (o + count) (for_range o (o + count) body (0, t))).
    { cbv beta; replace (o + count - o) with count by lia; auto. }
    apply for_range_ind; [lia | |].
    - cbn [fst snd]; replace (i + (o - o)) with i by lia; rewrite live_nil, app_nil_r, Z.add_0_r by lia; split; [lia|].
      split; [|repeat split]; apply (rep_ext b t G s f); [intros j _; rewrite zero_out by lia; reflexivity | exact R].
    - intros j [nr t1] Hj (Hnr & R1 & HF & Hg & Hfr); cbn [fst snd] in *; pose proof HF as (_ & Ex & _).
      specialize (HA (j - o) ltac:(lia)); replace (o + (j - o)) with j in HA by lia; rewrite <- Ex in HA.
      assert (Ej : datablock_addr t1 node j = f (i + (j - o))) by (rewrite (rep_entry _ _ _ _ _ _ _ _ R1 HA), zero_out by lia; reflexivity).
      replace (i + (j + 1 - o)) with (i + (j - o) + 1) by lia; rewrite live_snoc by lia; unfold body, NULL_ADDR; rewrite Ej; destruct (f (i + (j - o)) =? 0) eqn:E0; bool_cases; cbn [fst snd].
      + rewrite app_nil_r; repeat (split; [assumption|]); split; [|auto]; apply (rep_ext _ _ _ _ (zero f i (i + (j - o)))); [|exact R1].
        intros q _; unfold zero; case_ifs; bool_cases; try lia; replace q with (i + (j - o)) by lia; lia.
      + split; [lia|]; destruct (set_data_ledger node j 0 t1) as (HF2 & Hfr2 & Hg2); split; [|split; [exact (same_file_trans _ _ _ HF HF2) | split]].
        * pose proof (rep_set _ _ _ _ _ _ _ _ 0 R1 HA) as R2; rewrite zero_out in R2 by lia; rewrite (proj2 (Z.eqb_neq _ 0)) in R2 by exact E0; cbn in R2.
          apply (rep_tally (b + nr + 1)); [|exact (r_bug _ _ _ _ _ R2) | lia]; replace (b + nr + 1 - 0) with (b + nr + 1) in R2 by lia.
          revert R2; apply rep_ext; intros q _; unfold upd, zero; case_ifs; bool_cases; try lia; reflexivity.
        * cbn; congruence.
        * cbn; rewrite Hfr2, Hfr, app_assoc; reflexivity. }
  destruct (for_range o (o + count) body (0, t)) as [nr t1]; cbn [fst snd] in *; destruct HI as (Hnr & R1 & HF & Hg & Hfr).
  destruct (Z.eqb_spec nr 0) as [-> | Hne]; [rewrite Z.add_0_r in R1; auto|]; unfold dec_valid_block_count.
  split; [|split; [exact HF | auto]]; apply (rep_tally (b + nr)); [exact R1 | | lia].
  rewrite (r_bug _ _ _ _ _ R1), (r_blocks _ _ _ _ _ R1); apply Z.ltb_ge.
  pose proof (count_below_range (fun j => negb (zero f i (i + count) j =? 0)) (max_blocks (ft_inline_xattr t1)) ltac:(destruct (ft_inline_xattr t1); vm_compute; congruence)).
  unfold mapped; lia.
Qed.
