(* ===== verification/NodeTrunc.v ===== *)
(** Truncation of a file (node.c: truncate_node to truncate_inode_blocks; file.c:
    truncate_blocks, truncate_hole): the nodes behind the cut are freed in the order of the
    blocks they map, with those blocks, also when an error stops it on the way. *)

From Stdlib Require Import ZArith Lia Bool.
From stdpp Require Import base numbers list gmap.
From S2P Require Import Prelude Layout NodePath NodeTree NodeTreeInv NodeTreeOps.

#[local] Open Scope Z_scope.
#[local] Ltac Zify.zify_post_hook ::= Z.to_euclidean_division_equations.

(** * Progress of a truncation *)

(** [shed t t']: the node pages of [t'] are among those of [t], and the others have been
    given back. *)
Definition shed (t t' : ftree) : Prop :=
  (forall n, is_Some (ft_pages t' !! n) -> is_Some (ft_pages t !! n)) /\
  (forall n, n ∈ ft_gone t' <-> n ∈ ft_gone t \/ (is_Some (ft_pages t !! n) /\ ft_pages t' !! n = None)).

(** From [t] to [t'] the blocks of the direct nodes [a .. e - 1] of file [f] were freed. *)
Definition trunc_to (t t' : ftree) (f : Z -> Z) (a e : Z) : Prop :=
  same_file t t' /\ shed t t' /\
  ft_freed t' = ft_freed t ++ live f (dn_start (ft_inline_xattr t) a) (dn_start (ft_inline_xattr t) e).

(** [G'] is [G] without the nodes in [P]. *)
Definition cut (P : tnode -> bool) (G G' : gmap tnode Z) : Prop := forall c, G' !! c = if P c then None else G !! c.

Definition box (a e m0 m1 : Z) (x : bool) (c : tnode) : bool :=
  match c with ND k => (a <=? k) && (k <? e) | NI m => (m0 <=? m) && (m <? m1) | NX => x end.

Definition stage (b : Z) (t : ftree) (G : gmap tnode Z) (f : Z -> Z) (P : tnode -> bool) (s : option (tnode * Z)) (a e : Z) (t' : ftree) : Prop :=
  exists G', cut P G G' /\
    rep b t' G' s (zero f (dn_start (ft_inline_xattr t) a) (dn_start (ft_inline_xattr t) e)) /\ trunc_to t t' f a e.

(** An error stopped the truncation behind direct node [e - 1]. *)
Definition stopped (b : Z) (t : ftree) (G : gmap tnode Z) (f : Z -> Z) (a : Z) (t' : ftree) : Prop :=
  exists G' e, a <= e <= Z.max a n_dnodes /\ G' ⊆ G /\
    rep b t' G' None (zero f (dn_start (ft_inline_xattr t) a) (dn_start (ft_inline_xattr t) e)) /\ trunc_to t t' f a e.

Lemma shed_refl t : shed t t.
Proof. split; [auto|]; intros n; split; [auto|]; intros [H | [[] E]]; congruence. Qed.

Lemma shed_trans t1 t2 t3 : shed t1 t2 -> shed t2 t3 -> shed t1 t3.
Proof.
  intros [S1 G1] [S2 G2]; split; [auto|]; intros n; rewrite G2, G1; split.
  - intros [[H | [H E]] | [H E]]; [auto | right; split; [exact H|] | right; split; [apply S1; exact H | exact E]].
    destruct (ft_pages t3 !! n) eqn:E3; [|reflexivity]; destruct (S2 n (mk_is_Some _ _ E3)); congruence.
  - intros [H | [H E]]; [auto|]; destruct (ft_pages t2 !! n) eqn:E2; [right; split; [eauto | exact E] | auto].
Qed.

(** Changes that keep the set of node pages. *)
Lemma shed_same t t' : ft_gone t' = ft_gone t -> (forall n, is_Some (ft_pages t' !! n) <-> is_Some (ft_pages t !! n)) -> shed t t'.
Proof.
  intros E H; split; [intros n; apply H|]; intros n; rewrite E; split; [auto|]; intros [Hg | [Hs En]]; [exact Hg|].
  apply H in Hs; rewrite En in Hs; destruct Hs; discriminate.
Qed.

Lemma shed_rep b b' t t' G s s' f f' : rep b t G s f -> rep b' t' G s' f' -> ft_gone t' = ft_gone t -> shed t t'.
Proof.
  assert (H : forall b b' t t' s s' f f', rep b t G s f -> rep b' t' G s' f' -> forall n, is_Some (ft_pages t !! n) -> is_Some (ft_pages t' !! n)).
  { intros b1 b2 t1 t2 s1 s2 f1 f2 R1 R2 n Hn; destruct (r_dom _ _ _ _ _ R1 n Hn) as [c Ec].
    destruct (rep_lookup _ _ _ _ _ c n R2 Ec) as (l & -> & _); eauto. }
  intros R R' E; apply shed_same; [exact E|]; intros n; split; [exact (H _ _ _ _ _ _ _ _ R' R n) | exact (H _ _ _ _ _ _ _ _ R R' n)].
Qed.

Lemma trunc_to_refl t f a : trunc_to t t f a a.
Proof. split; [apply same_file_refl|]; split; [apply shed_refl|]; rewrite live_nil, app_nil_r by lia; reflexivity. Qed.

Lemma trunc_to_trans t1 t2 t3 f a e e' : a <= e -> e <= e' -> trunc_to t1 t2 f a e ->
  trunc_to t2 t3 (zero f (dn_start (ft_inline_xattr t1) a) (dn_start (ft_inline_xattr t1) e)) e e' -> trunc_to t1 t3 f a e'.
Proof.
  intros H1 H2 (F1 & S1 & L1) (F2 & S2 & L2); split; [exact (same_file_trans _ _ _ F1 F2)|]; split; [exact (shed_trans _ _ _ S1 S2)|].
  destruct F1 as (_ & Ex & _); rewrite Ex in L2; rewrite L2, L1, <- app_assoc; f_equal; symmetry.
  rewrite (live_app f _ (dn_start (ft_inline_xattr t1) e)) by (unfold dn_start; lia); f_equal; apply live_ext; intros i Hi.
  rewrite zero_out by lia; reflexivity.
Qed.

Lemma cut_trans P Q T G G1 G2 : cut P G G1 -> cut Q G1 G2 -> (forall c, T c = P c || Q c) -> cut T G G2.
Proof. intros H1 H2 HT c; rewrite (H2 c), (H1 c), (HT c); destruct (P c), (Q c); reflexivity. Qed.

Lemma cut_sub P G G' : cut P G G' -> G' ⊆ G.
Proof. intros H; apply map_subseteq_spec; intros c n; rewrite (H c); destruct (P c); [discriminate | auto]. Qed.

Lemma cut_none G : cut (box 0 0 0 0 false) G G.
Proof. intros [k | m |]; cbn; case_ifs; bool_cases; try lia; reflexivity. Qed.

Lemma cut_ext P Q G G' : (forall c, P c = Q c \/ G !! c = None) -> cut P G G' -> cut Q G G'.
Proof. intros H HC c; rewrite (HC c); destruct (H c) as [-> | ->]; [reflexivity | destruct (P c), (Q c); reflexivity]. Qed.

Lemma zero_zero f a e e' i : a <= e -> e <= e' -> zero (zero f a e) e e' i = zero f a e' i.
Proof. intros; unfold zero; case_ifs; bool_cases; try lia; reflexivity. Qed.

Lemma stage_same b t G f s a : rep b t G s f -> stage b t G f (box 0 0 0 0 false) s a a t.
Proof.
  intros R; exists G; split; [apply cut_none|]; split; [|apply trunc_to_refl].
  revert R; apply rep_ext; intros i _; rewrite zero_out by lia; reflexivity.
Qed.

(** One stage after another. *)
Lemma stage_next b t G f P Q T s a e e' t1 G1 t2 : cut P G G1 -> trunc_to t t1 f a e -> a <= e -> e <= e' ->
  stage b t1 G1 (zero f (dn_start (ft_inline_xattr t) a) (dn_start (ft_inline_xattr t) e)) Q s e e' t2 ->
  (forall c, T c = P c || Q c) -> stage b t G f T s a e' t2.
Proof.
  intros C1 T1 H1 H2 (G2 & C2 & R2 & T2) HT; exists G2; pose proof T1 as ((_ & Ex & _) & _).
  split; [exact (cut_trans _ _ _ _ _ _ C1 C2 HT)|]; split; [|exact (trunc_to_trans _ _ _ _ _ _ _ H1 H2 T1 T2)].
  rewrite Ex in R2; revert R2; apply rep_ext; intros i _; apply zero_zero; unfold dn_start; lia.
Qed.

Lemma stage_stopped b t G f P a e t1 : stage b t G f P None a e t1 -> a <= e <= n_dnodes -> stopped b t G f a t1.
Proof. intros (G1 & C1 & R1 & T1) He; exists G1, e; split; [lia|]; split; [exact (cut_sub _ _ _ C1) | auto]. Qed.

Lemma stop_next b t G f P a e t1 G1 t2 : cut P G G1 -> trunc_to t t1 f a e -> a <= e <= n_dnodes ->
  stopped b t1 G1 (zero f (dn_start (ft_inline_xattr t) a) (dn_start (ft_inline_xattr t) e)) e t2 -> stopped b t G f a t2.
Proof.
  intros C1 T1 He (G2 & e2 & He2 & S2 & R2 & T2); exists G2, e2; pose proof T1 as ((_ & Ex & _) & _).
  split; [lia|]; split; [etrans; [exact S2 | exact (cut_sub _ _ _ C1)]|]; split; [|apply (trunc_to_trans _ t1 _ _ _ e); auto; lia].
  rewrite Ex in R2; revert R2; apply rep_ext; intros i _; apply zero_zero; unfold dn_start; lia.
Qed.

#[local] Ltac boxes := intros [?k | ?m |]; cbn; unfold n_dnodes; apply eq_true_iff_eq; rewrite ?orb_true_iff, ?andb_true_iff, ?Z.leb_le, ?Z.ltb_lt; try (split; intros; lia); try tauto.

(** * Freeing one node *)

Lemma rep_blocks_pos b t G s f c n : rep b t G s f -> 0 <= b -> G !! c = Some n -> ft_blocks t <> 0.
Proof.
  intros R Hb E; destruct (rep_lookup _ _ _ _ _ c n R E) as (l & El & _); rewrite (r_blocks _ _ _ _ _ R).
  pose proof (count_below_range (fun i => negb (f i =? 0)) (max_blocks (ft_inline_xattr t)) ltac:(destruct (ft_inline_xattr t); vm_compute; congruence)).
  assert (0 < size (ft_pages t))%nat; [|unfold mapped; lia].
  destruct (size (ft_pages t)) eqn:Es; [|lia]; apply map_size_empty_iff in Es; rewrite Es in El; discriminate.
Qed.

Lemma truncate_node_shed b t G s f c n : rep b t G s f -> 0 <= b -> G !! c = Some n -> shed t (truncate_node n t) /\ same_file t (truncate_node n t).
Proof.
  intros R Hb E; unfold truncate_node; rewrite (proj2 (Z.eqb_neq _ 0)) by exact (rep_blocks_pos _ _ _ _ _ c n R Hb E); split; [|repeat split].
  destruct (rep_lookup _ _ _ _ _ c n R E) as (l & El & _); split; cbn; intros m.
  - intros [lm Em]; apply lookup_delete_Some in Em as [_ Em]; eauto.
  - rewrite elem_of_app, list_elem_of_singleton; destruct (Z.eq_dec n m) as [<- | Hne].
    + rewrite lookup_delete_eq; split; [intros _; right; eauto | auto].
    + rewrite lookup_delete_ne by exact Hne; split; [intros [H | ->]; [auto | contradiction] | intros [H | [[? Hs] Hn]]; [auto | congruence]].
Qed.

(** A node whose children and blocks are gone already. *)
Lemma kill_stage b t G f P c n k : rep b t G None f -> 0 <= b -> G !! c = Some n ->
  (forall c', tparent c' = Some c -> G !! c' = None) -> (forall k, c <> ND k) -> (forall c', P c' = true <-> c' = c) ->
  stage b t G f P (Some (c, n)) k k (truncate_node n t).
Proof.
  intros R Hb E Hk Hc HP; destruct (rep_kill b t G c n f R Hb E Hk ltac:(intros ? ->; destruct (Hc k0); reflexivity)) as (R1 & Hf & _).
  destruct (truncate_node_shed _ _ _ _ _ c n R Hb E) as [HS HF]; exists (delete c G); split; [|split; [|split; [exact HF | split; [exact HS|]]]].
  - intros c'; destruct (P c') eqn:Ep; [apply HP in Ep as ->; apply lookup_delete_eq|].
    apply lookup_delete_ne; intros <-; rewrite (proj2 (HP c) eq_refl) in Ep; discriminate.
  - revert R1; apply rep_ext; intros i _; rewrite zero_out by lia; reflexivity.
  - rewrite live_nil, app_nil_r by lia; exact Hf.
Qed.

(** A missing direct node maps no block. *)
Lemma absent_dnode b t G s f k i : rep b t G s f -> 0 <= k < n_dnodes -> G !! ND k = None ->
  dn_start (ft_inline_xattr t) k <= i < dn_start (ft_inline_xattr t) (k + 1) -> f i = 0.
Proof.
  intros R Hk E Hi; replace i with (dn_start (ft_inline_xattr t) k + (i - dn_start (ft_inline_xattr t) k)) by lia.
  rewrite (r_data _ _ _ _ _ R) by (unfold dn_start in *; lia); unfold block_in; rewrite E; reflexivity.
Qed.

Section Trunc.
Variable w : tworld.
Hypothesis Herr : forall n, tw_page_err w n <> - ENOENT.

(** An error of the call, which is an error reading a page. *)
Definition failed (ret : Z) : Prop := ret < 0 /\ ret <> - ENOENT /\ exists n, tw_page_err w n = ret.

Lemma failed_page n : tw_page_err w n < 0 -> failed (tw_page_err w n).
Proof. intros; split; [assumption | split; [apply Herr | eauto]]. Qed.

Lemma truncate_dnode_ok b t G f k : rep b t G None f -> 0 <= b -> 0 <= k < n_dnodes ->
  let nid := default 0 (G !! ND k) in
  let '(ret, t') := truncate_dnode w nid t in
  (ret = 1 /\ stage b t G f (box k (k + 1) 0 0 false) (Some (ND k, nid)) k (k + 1) t') \/ (failed ret /\ t' = t).
Proof.
  intros R Hb Hk; unfold truncate_dnode; destruct (G !! ND k) as [n|] eqn:E; cbn [from_option id].
  - rewrite (proj2 (Z.eqb_neq n 0)) by exact (proj1 (r_page _ _ _ _ _ R _ n E)).
    destruct (rep_get_page _ _ _ _ _ _ n w R E) as [[l ->] | [-> He]].
    2:{ right; split; [|reflexivity]; rewrite (proj2 (Z.eqb_neq _ _)) by apply Herr; apply failed_page; exact He. }
    left; split; [reflexivity|]; unfold truncate_data_blocks, ADDRS_PER_BLOCK; set (s := dn_start (ft_inline_xattr t) k).
    assert (HA : at_range (ft_inline_xattr t) G s 1018 (Some n) 0).
    { intros j Hj; right; exists k, n; repeat split; try lia; exact E. }
    destruct (truncate_range_ok b t G None f s 1018 (Some n) 0 R Hb ltac:(lia) HA) as (R1 & HF & Hg & Hfr).
    set (t1 := snd (truncate_data_blocks_range (Some n) 0 1018 t)) in *; clearbody t1; pose proof HF as (_ & Ex & _).
    destruct (rep_kill b t1 G (ND k) n _ R1 Hb E) as (R2 & Hf2 & _).
    { intros c' Ep; destruct (parent_indirect _ _ Ep). }
    { intros k' [= <-] o Ho; rewrite Ex; apply zero_in; fold s; lia. }
    destruct (truncate_node_shed _ _ _ _ _ _ n R1 Hb E) as [HS HF2]; exists (delete (ND k) G).
    replace (dn_start (ft_inline_xattr t) (k + 1)) with (s + 1018) by (unfold s, dn_start; lia); split; [|split; [exact R2|]].
    + intros [k' | m |]; cbn; try (rewrite lookup_delete_ne by discriminate; case_ifs; bool_cases; lia || reflexivity).
      case_ifs; bool_cases; [replace k' with k by lia; apply lookup_delete_eq | apply lookup_delete_ne; intros [= <-]; lia].
    + split; [exact (same_file_trans _ _ _ HF HF2)|]; split; [exact (shed_trans _ _ _ (shed_rep _ _ _ _ _ _ _ _ _ R R1 Hg) HS)|].
      rewrite Hf2, Hfr; do 2 f_equal; unfold s, dn_start; lia.
  - left; split; [reflexivity|]; exists G; split; [apply (cut_ext (box 0 0 0 0 false)); [|apply cut_none]|split; [|split; [apply same_file_refl | split; [apply shed_refl|]]]].
    + intros [k' | m |]; cbn; try (left; case_ifs; bool_cases; lia || reflexivity).
      destruct (Z.eq_dec k' k) as [-> |]; [right; exact E | left; case_ifs; bool_cases; lia || reflexivity].
    + apply rep_stale; [rewrite E; reflexivity|]; apply (rep_ext b t G None f); [|exact R]; intros i _; unfold zero; case_ifs; bool_cases; [|reflexivity].
      apply (absent_dnode b t G None f k); auto.
    + rewrite live_none, app_nil_r; [reflexivity|]; intros i Hi; exact (absent_dnode _ _ _ _ _ k i R Hk E Hi).
Qed.

(** Setting the pointer to a freed node to 0. *)
Lemma stage_clear b t G f P c v a e t' p off : stage b t G f P (Some (c, v)) a e t' -> tvalid c -> P c = true ->
  (forall G', cut P G G' -> holder G' c p off) -> stage b t G f P None a e (set_nid p off 0 t').
Proof.
  intros (G' & C & R & (F & S & L)) V Pc HH; exists G'; split; [exact C|]; destruct (set_nid_ledger p off 0 t') as (F2 & L2 & Hg2).
  pose proof (rep_ptr _ _ _ _ _ 0 _ _ _ R V (HH G' C)) as R'.
  split; [apply (rep_stale _ _ _ c 0); [rewrite (C c), Pc; reflexivity | exact R']|].
  split; [exact (same_file_trans _ _ _ F F2)|]; split; [exact (shed_trans _ _ _ S (shed_rep _ _ _ _ _ _ _ _ _ R R' Hg2)) | congruence].
Qed.

(** * Indirect nodes *)

Lemma child_of m i : 0 <= i < 1018 -> 0 <= m -> tparent (ND (2 + 1018 * m + i)) = Some (NI m) /\ tslot (ND (2 + 1018 * m + i)) = i.
Proof.
  intros; cbn; rewrite (proj2 (Z.ltb_ge _ 2)) by lia; replace ((2 + 1018 * m + i - 2) / 1018) with m by lia; split; [reflexivity | lia].
Qed.

(** What the loops over the entries of an indirect node do with entry [i]. *)
Lemma child_step b t G f m n i : rep b t G None f -> 0 <= b -> 0 <= m < 1020 -> G !! NI m = Some n -> 0 <= i < 1018 ->
  let k := 2 + 1018 * m + i in
  let child := get_nid t (Some n) i in
  (child = 0 /\ stage b t G f (box k (k + 1) 0 0 false) None k (k + 1) t) \/
  (child <> 0 /\ let '(ret, t') := truncate_dnode w child t in
    (ret = 1 /\ stage b t G f (box k (k + 1) 0 0 false) None k (k + 1) (set_nid (Some n) i 0 t')) \/ (failed ret /\ t' = t)).
Proof.
  intros R Hb Hm E Hi k child; destruct (child_of m i Hi ltac:(lia)) as [Ep Es]; fold k in Ep, Es.
  assert (Hk : 0 <= k < n_dnodes) by (unfold k, n_dnodes; lia).
  assert (Ec : child = default 0 (G !! ND k)).
  { apply (rep_get_nid _ _ _ _ _ (ND k) _ _ R Hk); unfold holder; rewrite Ep, Es; eauto. }
  pose proof (truncate_dnode_ok b t G f k R Hb Hk) as HT; cbv zeta in HT; rewrite <- Ec in HT.
  destruct (Z.eq_dec child 0) as [E0 | E0]; [left | right]; (split; [exact E0|]).
  - rewrite E0 in HT; destruct HT as [[_ (G' & C & R' & T)] | [[He _] _]].
    + exists G'; split; [exact C|]; split; [|exact T]; apply (rep_stale _ _ _ (ND k) 0); [|exact R'].
      rewrite (C (ND k)); cbn; rewrite (proj2 (Z.leb_le k k)), (proj2 (Z.ltb_lt k (k + 1))) by lia; reflexivity.
    + lia.
  - destruct (truncate_dnode w child t) as [ret t']; destruct HT as [[-> HT] | HT]; [left; split; [reflexivity|] | right; exact HT].
    apply (stage_clear _ _ _ _ _ _ _ _ _ _ _ _ HT Hk); [cbn; rewrite (proj2 (Z.leb_le k k)), (proj2 (Z.ltb_lt k (k + 1))) by lia; reflexivity|].
    intros G' C; unfold holder; rewrite Ep, Es; exists n; rewrite (C (NI m)); cbn; rewrite (proj2 (Z.ltb_ge m 0)), andb_false_r by lia; auto.
Qed.

(** The loops over the entries of an indirect node, in [truncate_nodes] and in
    [truncate_partial_nodes]; [J] is about what they count on the way. *)
Lemma child_loop_ok {X} (J : Z -> X -> Prop) (body : Z -> ftree * X -> Z * (ftree * X)) b t G f m n ofs x0 :
  rep b t G None f -> 0 <= b -> 0 <= m < 1020 -> G !! NI m = Some n -> 0 <= ofs <= 1018 -> J ofs x0 ->
  (forall i t x, J i x -> get_nid t (Some n) i = 0 -> exists x', body i (t, x) = (0, (t, x')) /\ J (i + 1) x') ->
  (forall i t x, J i x -> get_nid t (Some n) i <> 0 ->
    let '(ret, t1) := truncate_dnode w (get_nid t (Some n) i) t in
    if ret <? 0 then exists x', body i (t, x) = (ret, (t1, x'))
    else exists r x', 0 <= r /\ body i (t, x) = (r, (set_nid (Some n) i 0 t1, x')) /\ J (i + 1) x') ->
  let a := 2 + 1018 * m + ofs in
  let e := 2 + 1018 * (m + 1) in
  let '(ret, (t', x)) := for_ok ofs 1018 body (t, x0) in
  (ret = 0 /\ J 1018 x /\ stage b t G f (box a e 0 0 false) None a e t') \/ (failed ret /\ stopped b t G f a t').
Proof.
  intros R Hb Hm E Ho H0 Hskip Hdrop a e.
  pose proof (for_ok_ind (fun i '(t', x) => J i x /\ stage b t G f (box a (2 + 1018 * m + i) 0 0 false) None a (2 + 1018 * m + i) t')
    (fun ret '(t', _) => failed ret /\ stopped b t G f a t') ofs 1018 body (t, x0) ltac:(lia)) as HL.
  destruct (for_ok ofs 1018 body (t, x0)) as [ret [t' x]]; destruct HL as [(-> & HJ & HS) | (_ & HS)]; [| | left | right; exact HS].
  - split; [exact H0|]; destruct (stage_same b t G f None a R) as (G' & C & HS); exists G'; split; [|exact HS].
    revert C; apply cut_ext; intros c; left; revert c; boxes.
  - intros i [t1 y] Hi [HJ HS]; set (k := 2 + 1018 * m + i) in *; pose proof HS as (G1 & C1 & R1 & T1).
    assert (Hak : a <= k) by (unfold a, k; lia).
    assert (HE : G1 !! NI m = Some n) by (rewrite (C1 (NI m)); cbn; rewrite (proj2 (Z.ltb_ge m 0)), andb_false_r by lia; exact E).
    assert (Hstep : forall t2, stage b t1 G1 (zero f (dn_start (ft_inline_xattr t) a) (dn_start (ft_inline_xattr t) k)) (box k (k + 1) 0 0 false) None k (k + 1) t2 ->
      stage b t G f (box a (2 + 1018 * m + (i + 1)) 0 0 false) None a (2 + 1018 * m + (i + 1)) t2).
    { intros t2 H2; replace (2 + 1018 * m + (i + 1)) with (k + 1) by lia; apply (stage_next b t G f _ _ _ _ a k (k + 1) t1 G1 t2 C1 T1 Hak ltac:(lia) H2).
      unfold k, a; boxes. }
    destruct (child_step b t1 G1 _ m n i R1 Hb Hm HE ltac:(lia)) as [[Ec HC] | [Ec HC]].
    + destruct (Hskip i t1 y HJ Ec) as (y' & -> & HJ'); left; split; [lia|]; split; [exact HJ' | exact (Hstep _ HC)].
    + specialize (Hdrop i t1 y HJ Ec); destruct (truncate_dnode w (get_nid t1 (Some n) i) t1) as [r t2]; destruct HC as [[-> HC] | [Hf ->]].
      * destruct Hdrop as (r & y' & Hr & -> & HJ'); left; split; [exact Hr|]; split; [exact HJ' | exact (Hstep _ HC)].
      * destruct Hf as (He & Hf); rewrite (proj2 (Z.ltb_lt r 0)) in Hdrop by exact He; destruct Hdrop as (y' & ->); right; split; [exact He|].
        split; [split; assumption|]; apply (stage_stopped _ _ _ _ _ _ _ _ HS); unfold a, k, n_dnodes; lia.
  - split; [reflexivity|]; split; [exact HJ|]; unfold e; replace (2 + 1018 * (m + 1)) with (2 + 1018 * m + 1018) by lia; exact HS.
Qed.

(** Nothing is there. *)
Lemma absent_stage b t G f P a e : rep b t G None f -> 0 <= a <= e -> e <= n_dnodes -> (forall c, P c = true -> G !! c = None) ->
  (forall k, a <= k < e -> P (ND k) = true) -> stage b t G f P None a e t.
Proof.
  intros R Ha He HP HD; assert (Hz : forall i, dn_start (ft_inline_xattr t) a <= i < dn_start (ft_inline_xattr t) e -> f i = 0).
  { intros i Hi; set (k := (i - addrs_per_inode (ft_inline_xattr t)) / 1018); assert (Hk : a <= k < e) by (unfold dn_start, k in *; lia).
    apply (absent_dnode _ _ _ _ _ k i R); [lia | apply HP, HD; exact Hk | unfold dn_start, k in *; lia]. }
  exists G; split; [intros c; destruct (P c) eqn:Ec; [exact (HP c Ec) | reflexivity]|]; split.
  - apply (rep_ext b t G None f); [|exact R]; intros i _; unfold zero; case_ifs; bool_cases; [apply Hz; lia | reflexivity].
  - split; [apply same_file_refl|]; split; [apply shed_refl|]; rewrite live_none, app_nil_r; [reflexivity | exact Hz].
Qed.

Lemma absent_children b t G s f m k : rep b t G s f -> G !! NI m = None -> 0 <= m -> 2 + 1018 * m <= k < 2 + 1018 * (m + 1) -> G !! ND k = None.
Proof.
  intros R E Hm Hk; destruct (G !! ND k) as [n|] eqn:Ek; [|reflexivity]; destruct (r_closed _ _ _ _ _ R _ n Ek) as [_ Hp].
  destruct (child_of m (k - (2 + 1018 * m)) ltac:(lia) Hm) as [Ep _]; replace (2 + 1018 * m + (k - (2 + 1018 * m))) with k in Ep by lia.
  destruct (Hp _ Ep); congruence.
Qed.

(** [truncate_nodes] at an indirect node, from its entry [ofs] on. *)
Lemma truncate_indirect_ok b t G f m nofs ofs : rep b t G None f -> 0 <= b -> 0 <= m < 1020 -> 0 <= ofs <= 1018 ->
  let nid := default 0 (G !! NI m) in
  let a := 2 + 1018 * m + ofs in
  let e := 2 + 1018 * (m + 1) in
  let '(ret, t') := truncate_nodes 2 w nid nofs ofs t in
  (0 <= ret /\ (ofs = 0 -> ret = NIDS_PER_BLOCK + 1) /\
   stage b t G f (box a e m (if ofs =? 0 then m + 1 else m) false) (if ofs =? 0 then Some (NI m, nid) else None) a e t') \/
  (failed ret /\ stopped b t G f a t').
Proof.
  intros R Hb Hm Ho nid a e; cbn [truncate_nodes]; destruct (G !! NI m) as [n|] eqn:E; cbn [from_option id] in nid; subst nid.
  - rewrite (proj2 (Z.eqb_neq n 0)) by exact (proj1 (r_page _ _ _ _ _ R _ n E)).
    destruct (rep_get_page _ _ _ _ _ _ n w R E) as [[l ->] | [-> He]].
    2:{ right; split; [apply failed_page; exact He | exact (stage_stopped _ _ _ _ _ _ _ _ (stage_same _ _ _ _ _ a R) ltac:(unfold a, n_dnodes; lia))]. }
    change NIDS_PER_BLOCK with 1018; set (body := fun (i : Z) '(t, freed) => _).
    pose proof (child_loop_ok (fun i freed => freed = i - ofs) body b t G f m n ofs 0 R Hb Hm E Ho ltac:(lia)) as HL; cbv zeta in HL; fold a e in HL.
    destruct (for_ok ofs 1018 body (t, 0)) as [ret [t1 freed]]; destruct HL as [(-> & Hfr & HS) | [Hf HS]].
    + intros i t2 x -> Ec; exists (i - ofs + 1); split; [|lia]; unfold body; rewrite Ec; reflexivity.
    + intros i t2 x -> Ec; unfold body; rewrite (proj2 (Z.eqb_neq _ 0)) by exact Ec.
      destruct (truncate_dnode w (get_nid t2 (Some n) i) t2) as [r t3]; destruct (r <? 0); [eexists; reflexivity | exists 0, (i - ofs + 1); repeat split; lia].
    + change (0 <? 0) with false; cbv iota; destruct (Z.eqb_spec ofs 0) as [-> | Hne]; left.
      2:{ split; [lia|]; split; [lia|]; destruct HS as (G' & C & HS); exists G'; split; [|exact HS]; revert C; apply cut_ext; intros c; left; revert c; boxes. }
      split; [lia|]; split; [lia|]; pose proof HS as (G1 & C1 & R1 & T1).
      apply (stage_next b t G f _ (box 0 0 m (m + 1) false) _ _ a e e t1 G1 _ C1 T1 ltac:(unfold a, e; lia) ltac:(lia)).
      * apply kill_stage; [exact R1 | exact Hb | | | discriminate |].
        -- rewrite (C1 (NI m)); cbn; rewrite (proj2 (Z.ltb_ge m 0)), andb_false_r by lia; exact E.
        -- intros [k | m' |]; cbn; repeat case_match; intros [=]; bool_cases; rewrite (C1 (ND k)); cbn.
           rewrite (proj2 (Z.leb_le a k)), (proj2 (Z.ltb_lt k e)) by (unfold a, e; lia); reflexivity.
        -- intros [k | m' |]; cbn; rewrite ?andb_true_iff, ?Z.leb_le, ?Z.ltb_lt; split; intros Hc; try discriminate; try lia; [f_equal; lia|].
           injection Hc as ->; lia.
      * boxes.
    + destruct Hf as (He & Hf); rewrite (proj2 (Z.ltb_lt ret 0)) by exact He; right; split; [split; assumption | exact HS].
  - left; split; [unfold NIDS_PER_BLOCK; lia|]; split; [reflexivity|].
    assert (HS : stage b t G f (box a e m (if ofs =? 0 then m + 1 else m) false) None a e t).
    { apply absent_stage; [exact R | unfold a, e; lia | unfold e, n_dnodes; lia | |].
      - intros [k | m' |]; cbn; rewrite ?andb_true_iff, ?Z.leb_le, ?Z.ltb_lt; [| |discriminate].
        + intros Hk; apply (absent_children _ _ _ _ _ m k R E); unfold a, e in Hk; lia.
        + intros Hm'; replace m' with m; [exact E | destruct (ofs =? 0); lia].
      - intros k Hk; cbn; rewrite andb_true_iff, Z.leb_le, Z.ltb_lt; lia. }
    destruct (Z.eqb_spec ofs 0) as [-> |]; [|exact HS]; destruct HS as (G' & C & R' & T); exists G'; split; [exact C|]; split; [|exact T].
    apply rep_stale; [|exact R']; rewrite (C (NI m)); cbn; rewrite (proj2 (Z.leb_le m m)), (proj2 (Z.ltb_lt m (m + 1))) by lia; reflexivity.
Qed.

(** * The double indirect node *)

(** The body of the loop over the indirect nodes. *)
Definition dind_body (nid i : Z) : ftree * Z -> Z * (ftree * Z) := fun '(t, child_nofs) =>
  let child_nid := get_nid t (Some nid) i in
  if child_nid =? 0 then (0, (t, child_nofs + NIDS_PER_BLOCK + 1))
  else
    let '(ret, t) := truncate_nodes 2 w child_nid child_nofs 0 t in
    if ret =? NIDS_PER_BLOCK + 1 then (0, (set_nid (Some nid) i 0 t, child_nofs + ret))
    else if (ret <? 0) && negb (ret =? - ENOENT) then (ret, (t, child_nofs))
    else (0, (t, child_nofs)).

Lemma truncate_nodes_3 nid nofs ofs t : truncate_nodes 3 w nid nofs ofs t =
  if nid =? 0 then (NIDS_PER_BLOCK + 1, t)
  else
    match get_node_page w t nid with
    | inl err => (err, t)
    | inr _ =>
        let '(ret, (t, freed)) := for_ok ofs NIDS_PER_BLOCK (dind_body nid) (t, nofs + ofs * (NIDS_PER_BLOCK + 1) + 1) in
        if ret <? 0 then (ret, t) else if ofs =? 0 then (freed + 1, truncate_node nid t) else (freed, t)
    end.
Proof. reflexivity. Qed.

Lemma indirect_of i : 0 <= i -> tparent (NI (2 + i)) = Some NX /\ tslot (NI (2 + i)) = i.
Proof. intros; cbn; rewrite (proj2 (Z.ltb_ge _ 2)) by lia; split; [reflexivity | lia]. Qed.

(** One round of the loop. *)
Lemma dind_step b t G f n i x : rep b t G None f -> 0 <= b -> G !! NX = Some n -> 0 <= i < 1018 -> 0 <= x ->
  let k := 2038 + 1018 * i in
  let '(ret, (t', x')) := dind_body n i (t, x) in
  (ret = 0 /\ 0 <= x' /\ stage b t G f (box k (k + 1018) (2 + i) (3 + i) false) None k (k + 1018) t') \/
  (ret < 0 /\ failed ret /\ stopped b t G f k t').
Proof.
  intros R Hb E Hi Hx k; destruct (indirect_of i ltac:(lia)) as [Ep Es].
  assert (V : tvalid (NI (2 + i))) by (cbn; lia).
  assert (Ec : get_nid t (Some n) i = default 0 (G !! NI (2 + i))).
  { apply (rep_get_nid _ _ _ _ _ (NI (2 + i)) _ _ R V); unfold holder; rewrite Ep, Es; eauto. }
  pose proof (truncate_indirect_ok b t G f (2 + i) x 0 R Hb V ltac:(lia)) as HT; cbv zeta in HT; rewrite <- Ec in HT.
  replace (2 + 1018 * (2 + i) + 0) with k in HT by (unfold k; lia); replace (2 + 1018 * (2 + i + 1)) with (k + 1018) in HT by (unfold k; lia).
  replace (2 + i + 1) with (3 + i) in HT by lia; change (0 =? 0) with true in HT; cbv iota in HT; unfold dind_body.
  assert (HB : box k (k + 1018) (2 + i) (3 + i) false (NI (2 + i)) = true) by (cbn; apply andb_true_iff; rewrite Z.leb_le, Z.ltb_lt; lia).
  destruct (Z.eqb_spec (get_nid t (Some n) i) 0) as [E0 | E0].
  - left; split; [reflexivity|]; split; [unfold NIDS_PER_BLOCK; lia|]; rewrite E0 in HT; destruct HT as [(_ & _ & HS) | [[He _] _]]; [|unfold NIDS_PER_BLOCK in He; lia].
    destruct HS as (G' & C & R' & T); exists G'; split; [exact C|]; split; [|exact T]; apply (rep_stale _ _ _ (NI (2 + i)) 0); [|exact R'].
    rewrite (C (NI (2 + i))), HB; reflexivity.
  - destruct (truncate_nodes 2 w (get_nid t (Some n) i) x 0 t) as [ret t']; destruct HT as [(_ & Hret & HS) | [Hf HS]].
    + rewrite (Hret eq_refl), Z.eqb_refl; left; split; [reflexivity|]; split; [unfold NIDS_PER_BLOCK; lia|].
      apply (stage_clear _ _ _ _ _ _ _ _ _ _ _ _ HS V HB); intros G' C; unfold holder; rewrite Ep, Es; exists n; rewrite (C NX); auto.
    + destruct Hf as (He & Hn & Hf); rewrite (proj2 (Z.eqb_neq ret (NIDS_PER_BLOCK + 1))) by (unfold NIDS_PER_BLOCK; lia).
      rewrite (proj2 (Z.ltb_lt ret 0)), (proj2 (Z.eqb_neq ret _)) by assumption; right; split; [exact He|]; split; [split; auto | exact HS].
Qed.

Lemma truncate_dind_ok b t G f nofs ofs : rep b t G None f -> 0 <= b -> 0 <= nofs -> 0 <= ofs <= 1018 ->
  let nid := default 0 (G !! NX) in
  let a := 2038 + 1018 * ofs in
  let '(ret, t') := truncate_nodes 3 w nid nofs ofs t in
  (0 <= ret /\ stage b t G f (box a n_dnodes (2 + ofs) 1020 (ofs =? 0)) (if ofs =? 0 then Some (NX, nid) else None) a n_dnodes t') \/
  (failed ret /\ stopped b t G f a t').
Proof.
  intros R Hb Hn Ho nid a; rewrite truncate_nodes_3; destruct (G !! NX) as [n|] eqn:E; cbn [from_option id] in nid; subst nid.
  - rewrite (proj2 (Z.eqb_neq n 0)) by exact (proj1 (r_page _ _ _ _ _ R _ n E)).
    destruct (rep_get_page _ _ _ _ _ _ n w R E) as [[l ->] | [-> He]].
    2:{ right; split; [apply failed_page; exact He | exact (stage_stopped _ _ _ _ _ _ _ _ (stage_same _ _ _ _ _ a R) ltac:(unfold a, n_dnodes; lia))]. }
    change NIDS_PER_BLOCK with 1018.
    pose proof (for_ok_ind (fun i '(t', x) => 0 <= x /\ stage b t G f (box a (2038 + 1018 * i) (2 + ofs) (2 + i) false) None a (2038 + 1018 * i) t')
      (fun ret '(t', _) => failed ret /\ stopped b t G f a t') ofs 1018 (dind_body n) (t, nofs + ofs * (1018 + 1) + 1) ltac:(lia)) as HL.
    destruct (for_ok ofs 1018 (dind_body n) (t, nofs + ofs * (1018 + 1) + 1)) as [ret [t' x]]; destruct HL as [(-> & Hx & HS) | (He & Hf & HS)].
    + split; [lia|]; destruct (stage_same b t G f None a R) as (G' & C & HS); exists G'; split; [|exact HS].
      revert C; apply cut_ext; intros c; left; revert c; unfold a; boxes.
    + intros i [t1 y] Hi [Hy HS]; set (k := 2038 + 1018 * i) in *; pose proof HS as (G1 & C1 & R1 & T1).
      pose proof (dind_step b t1 G1 _ n i y R1 Hb ltac:(rewrite (C1 NX); exact E) ltac:(lia) Hy) as HD; cbv zeta in HD; fold k in HD.
      destruct (dind_body n i (t1, y)) as [r [t2 y']]; destruct HD as [(-> & Hy' & HD) | (Hr & Hf & HD)]; [left | right].
      * split; [lia|]; split; [exact Hy'|]; replace (2038 + 1018 * (i + 1)) with (k + 1018) by (unfold k; lia).
        apply (stage_next b t G f _ _ _ _ a k (k + 1018) t1 G1 t2 C1 T1 ltac:(unfold a, k; lia) ltac:(lia) HD); unfold a, k; boxes.
      * split; [exact Hr|]; split; [exact Hf|]; apply (stop_next b t G f _ a k t1 G1 t2 C1 T1 ltac:(unfold a, k, n_dnodes; lia) HD).
    + change (0 <? 0) with false; cbv iota; change (2038 + 1018 * 1018) with n_dnodes in HS; pose proof HS as (G1 & C1 & R1 & T1).
      destruct (Z.eqb_spec ofs 0) as [-> | Hne]; left; (split; [lia|]); [|exact HS].
      apply (stage_next b t G f _ (box 0 0 0 0 true) _ _ a n_dnodes n_dnodes t' G1 _ C1 T1 ltac:(unfold a, n_dnodes; lia) ltac:(lia)); [|boxes].
      apply kill_stage; [exact R1 | exact Hb | rewrite (C1 NX); exact E | | discriminate |].
      * intros [k | m |]; cbn; repeat case_match; intros [=]; bool_cases; destruct (G1 !! NI m) as [nm|] eqn:Em; [|reflexivity].
        destruct (r_closed _ _ _ _ _ R1 _ nm Em) as [V _]; cbn in V; rewrite (C1 (NI m)) in Em; cbn in Em.
        rewrite (proj2 (Z.leb_le _ m)), (proj2 (Z.ltb_lt m _)) in Em by lia; discriminate.
      * intros [k | m |]; cbn; rewrite ?andb_true_iff, ?Z.leb_le, ?Z.ltb_lt; split; intros Hc; try discriminate; try lia; reflexivity.
    + rewrite (proj2 (Z.ltb_lt ret 0)) by exact He; right; auto.
  - left; split; [unfold NIDS_PER_BLOCK; lia|].
    assert (HS : stage b t G f (box a n_dnodes (2 + ofs) 1020 (ofs =? 0)) None a n_dnodes t).
    { assert (HN : forall m, 2 <= m -> G !! NI m = None).
      { intros m Hm; destruct (G !! NI m) as [nm|] eqn:Em; [|reflexivity]; destruct (r_closed _ _ _ _ _ R _ nm Em) as [_ Hp].
        destruct (indirect_of (m - 2) ltac:(lia)) as [Ep _]; replace (2 + (m - 2)) with m in Ep by lia; destruct (Hp _ Ep); congruence. }
      apply absent_stage; [exact R | unfold a, n_dnodes; lia | lia | |].
      - intros [k | m' |]; cbn; rewrite ?andb_true_iff, ?Z.leb_le, ?Z.ltb_lt; [| |intros _; exact E].
        + intros Hk; apply (absent_children _ _ _ _ _ ((k - 2) / 1018) k R); [apply HN | |]; unfold a in Hk; lia.
        + intros Hm'; apply HN; lia.
      - intros k Hk; cbn; rewrite andb_true_iff, Z.leb_le, Z.ltb_lt; lia. }
    destruct (Z.eqb_spec ofs 0) as [-> |]; [|exact HS]; destruct HS as (G' & C & R' & T); exists G'; split; [exact C|]; split; [|exact T].
    apply rep_stale; [|exact R']; rewrite (C NX); reflexivity.
Qed.

(** * The whole tree *)

(** The entries of [i_nid], the number of the first direct node that is cut when the
    truncation reaches entry [d] with [o1] behind it, and the nodes an entry stands for. *)
Definition top (d : Z) : tnode := if d <? 2 then ND d else if d <? 4 then NI (d - 2) else NX.

Definition pos (d o1 : Z) : Z :=
  if d <? 2 then d else if d <? 4 then 2 + 1018 * (d - 2) + o1 else if d =? 4 then 2038 + 1018 * o1 else n_dnodes.

Definition entry_nodes (d o1 : Z) : tnode -> bool :=
  if d <? 2 then box d (d + 1) 0 0 false
  else if d <? 4 then box (pos d o1) (pos (d + 1) 0) (d - 2) (if o1 =? 0 then d - 1 else d - 2) false
  else box (pos d o1) n_dnodes (2 + o1) 1020 (o1 =? 0).

(** All nodes whose blocks are behind the first [k] direct nodes. *)
Definition beyond (k : Z) (c : tnode) : bool :=
  match c with
  | ND j => (k <=? j) && (j <? n_dnodes)
  | NI m => (k <=? 2 + 1018 * m) && (m <? 1020)
  | NX => k <=? 2038
  end.

Lemma top_valid d : 0 <= d <= 4 -> tvalid (top d) /\ tparent (top d) = None /\ tslot (top d) = d.
Proof.
  intros Hd; unfold top; case_ifs; bool_cases; cbn; unfold n_dnodes; repeat split; try lia;
    repeat case_match; bool_cases; try reflexivity; lia.
Qed.

Lemma entry_top d o1 : 0 <= d <= 4 -> o1 = 0 -> entry_nodes d o1 (top d) = true.
Proof.
  intros Hd ->; unfold entry_nodes, top; case_ifs; bool_cases; cbn; try reflexivity; apply andb_true_iff; rewrite Z.leb_le, Z.ltb_lt; lia.
Qed.

Lemma entry_ok b t G f d o1 nofs : rep b t G None f -> 0 <= b -> 0 <= nofs -> 0 <= d <= 4 -> 0 <= o1 <= 1018 ->
  (d < 2 -> o1 <> 0 -> G !! ND d = None) ->
  let nid := default 0 (G !! top d) in
  exists err t1, truncate_entry w (d + NODE_DIR1_BLOCK) o1 nofs nid t = Done (err, t1) /\
    ((0 <= err /\ stage b t G f (entry_nodes d o1) (if o1 =? 0 then Some (top d, nid) else None) (pos d o1) (pos (d + 1) 0) t1) \/
     (failed err /\ stopped b t G f (pos d o1) t1)).
Proof.
  intros R Hb Hn Hd Ho Habs nid; unfold truncate_entry.
  assert (Hc : d = 0 \/ d = 1 \/ d = 2 \/ d = 3 \/ d = 4) by lia.
  assert (Hdir : d < 2 -> exists err t1, Done (truncate_dnode w nid t) = Done (err, t1) /\
    ((0 <= err /\ stage b t G f (entry_nodes d o1) (if o1 =? 0 then Some (top d, nid) else None) (pos d o1) (pos (d + 1) 0) t1) \/
     (failed err /\ stopped b t G f (pos d o1) t1))).
  { intros Hd2; assert (Et : top d = ND d) by (unfold top; rewrite (proj2 (Z.ltb_lt d 2)) by lia; reflexivity).
    assert (Hk : 0 <= d < n_dnodes) by (unfold n_dnodes; lia).
    pose proof (truncate_dnode_ok b t G f d R Hb Hk) as HT; cbv zeta in HT; unfold nid; rewrite Et in *.
    destruct (truncate_dnode w (default 0 (G !! ND d)) t) as [ret t1]; exists ret, t1; split; [reflexivity|].
    assert (Ep : pos d o1 = d /\ pos (d + 1) 0 = d + 1 /\ entry_nodes d o1 = box d (d + 1) 0 0 false).
    { unfold pos, entry_nodes; rewrite (proj2 (Z.ltb_lt d 2)) by lia; repeat split; case_ifs; bool_cases; lia. }
    destruct Ep as (-> & -> & ->); destruct HT as [[-> HS] | [Hf ->]]; [left | right].
    - split; [lia|]; destruct (Z.eqb_spec o1 0) as [-> | Hne]; [exact HS|]; rewrite (Habs Hd2 Hne) in HS; destruct HS as (G' & C & R' & T).
      exists G'; split; [exact C|]; split; [|exact T]; apply (rep_stale _ _ _ (ND d) 0); [|exact R']; rewrite (C (ND d)); cbn.
      rewrite (proj2 (Z.leb_le d d)), (proj2 (Z.ltb_lt d (d + 1))) by lia; reflexivity.
    - split; [exact Hf|]; apply (stage_stopped _ _ _ _ _ _ _ _ (stage_same _ _ _ _ _ d R)); lia. }
  assert (Hind : 2 <= d < 4 -> exists err t1, Done (truncate_nodes 2 w nid nofs o1 t) = Done (err, t1) /\
    ((0 <= err /\ stage b t G f (entry_nodes d o1) (if o1 =? 0 then Some (top d, nid) else None) (pos d o1) (pos (d + 1) 0) t1) \/
     (failed err /\ stopped b t G f (pos d o1) t1))).
  { intros Hd2; assert (Et : top d = NI (d - 2)) by (unfold top; case_ifs; bool_cases; lia || reflexivity).
    pose proof (truncate_indirect_ok b t G f (d - 2) nofs o1 R Hb ltac:(lia) Ho) as HT; cbv zeta in HT; unfold nid; rewrite Et in *.
    assert (Ep : pos d o1 = 2 + 1018 * (d - 2) + o1 /\ pos (d + 1) 0 = 2 + 1018 * (d - 2 + 1)) by (unfold pos; split; case_ifs; bool_cases; lia).
    assert (Ee : entry_nodes d o1 = box (2 + 1018 * (d - 2) + o1) (2 + 1018 * (d - 2 + 1)) (d - 2) (if o1 =? 0 then d - 2 + 1 else d - 2) false).
    { unfold entry_nodes; destruct Ep as [-> ->]; replace (d - 2 + 1) with (d - 1) by lia; case_ifs; bool_cases; lia || reflexivity. }
    destruct Ep as [-> ->]; rewrite Ee; destruct (truncate_nodes 2 w (default 0 (G !! NI (d - 2))) nofs o1 t) as [ret t1]; exists ret, t1.
    split; [reflexivity|]; destruct HT as [(Hr & _ & HS) | HT]; [left; auto | right; exact HT]. }
  destruct Hc as [-> | [-> | [-> | [-> | ->]]]]; [exact (Hdir ltac:(lia)) | exact (Hdir ltac:(lia)) | exact (Hind ltac:(lia)) | exact (Hind ltac:(lia))|].
  pose proof (truncate_dind_ok b t G f nofs o1 R Hb Hn Ho) as HT; cbv zeta in HT; unfold nid; change (top 4) with NX.
  change (pos (4 + 1) 0) with n_dnodes; change (pos 4 o1) with (2038 + 1018 * o1); change (entry_nodes 4 o1) with (box (2038 + 1018 * o1) n_dnodes (2 + o1) 1020 (o1 =? 0)).
  change (exists err t1, Done (truncate_nodes 3 w (default 0 (G !! NX)) nofs o1 t) = Done (err, t1) /\
    ((0 <= err /\ stage b t G f (box (2038 + 1018 * o1) n_dnodes (2 + o1) 1020 (o1 =? 0)) (if o1 =? 0 then Some (NX, default 0 (G !! NX)) else None) (2038 + 1018 * o1) n_dnodes t1) \/
     (failed err /\ stopped b t G f (2038 + 1018 * o1) t1))).
  destruct (truncate_nodes 3 w (default 0 (G !! NX)) nofs o1 t) as [ret t1]; exists ret, t1; split; [reflexivity | exact HT].
Qed.

(** The entry of [i_nid] is cleared when its node is gone. *)
Lemma entry_cleared b t G f d o1 nid a e t1 : stage b t G f (entry_nodes d o1) (if o1 =? 0 then Some (top d, nid) else None) a e t1 -> 0 <= d <= 4 ->
  stage b t G f (entry_nodes d o1) None a e
    (if (o1 =? 0) && negb ((ft_nid t1).[d + NODE_DIR1_BLOCK - NODE_DIR1_BLOCK] =? 0) then set_nid None (d + NODE_DIR1_BLOCK) 0 t1 else t1).
Proof.
  intros HS Hd; destruct (Z.eqb_spec o1 0) as [E0 | _]; [|exact HS]; cbn [andb]; destruct (top_valid d Hd) as (V & Ep & Es).
  assert (HH : forall G', holder G' (top d) None (d + NODE_DIR1_BLOCK)) by (intros G'; unfold holder; rewrite Ep, Es; auto).
  destruct (Z.eqb_spec ((ft_nid t1).[d + NODE_DIR1_BLOCK - NODE_DIR1_BLOCK]) 0) as [Ez | _]; cbn [negb].
  - destruct HS as (G' & C & R' & T); exists G'; split; [exact C|]; split; [|exact T].
    change (get_nid t1 None (d + NODE_DIR1_BLOCK) = 0) in Ez; rewrite (rep_get_nid _ _ _ _ _ (top d) _ _ R' V (HH G')) in Ez; cbn in Ez.
    rewrite decide_True in Ez by reflexivity; subst nid; revert R'; apply rep_stale; rewrite (C (top d)), (entry_top d o1 Hd E0); reflexivity.
  - apply (stage_clear _ _ _ _ _ _ _ _ _ _ _ _ HS V (entry_top d o1 Hd E0)); intros G' _; apply HH.
Qed.

(** Arithmetic facts about membership in a [box] or [beyond]. *)
#[local] Ltac members := cbn [box beyond]; unfold n_dnodes; rewrite ?orb_true_iff, ?andb_true_iff, ?Z.leb_le, ?Z.ltb_lt, ?Z.eqb_eq; lia.

Lemma beyond_entry d o1 c : 0 <= d <= 4 -> 0 <= o1 <= 1018 -> tvalid c -> beyond (pos d o1) c = entry_nodes d o1 c || beyond (pos (d + 1) 0) c.
Proof.
  intros Hd Ho V; assert (Hc : d = 0 \/ d = 1 \/ d = 2 \/ d = 3 \/ d = 4) by lia; apply eq_true_iff_eq.
  destruct Hc as [-> | [-> | [-> | [-> | ->]]]].
  - change (beyond 0 c = true <-> box 0 1 0 0 false c || beyond 1 c = true); destruct c; cbn [tvalid] in V; members.
  - change (beyond 1 c = true <-> box 1 2 0 0 false c || beyond 2 c = true); destruct c; cbn [tvalid] in V; members.
  - change (beyond (2 + 1018 * 0 + o1) c = true <-> box (2 + 1018 * 0 + o1) 1020 0 (if o1 =? 0 then 1 else 0) false c || beyond 1020 c = true).
    destruct (Z.eqb_spec o1 0); destruct c; cbn [tvalid] in V; members.
  - change (beyond (2 + 1018 * 1 + o1) c = true <-> box (2 + 1018 * 1 + o1) 2038 1 (if o1 =? 0 then 2 else 1) false c || beyond 2038 c = true).
    destruct (Z.eqb_spec o1 0); destruct c; cbn [tvalid] in V; members.
  - change (beyond (2038 + 1018 * o1) c = true <-> box (2038 + 1018 * o1) n_dnodes (2 + o1) 1020 (o1 =? 0) c || beyond n_dnodes c = true).
    destruct c; cbn [tvalid] in V; members.
Qed.

Lemma beyond_none c : tvalid c -> beyond n_dnodes c = false.
Proof. destruct c as [k | m |]; cbn; unfold n_dnodes; intros V; case_ifs; bool_cases; try lia; reflexivity. Qed.

Lemma pos_mono d o1 : 0 <= d <= 4 -> 0 <= o1 <= 1018 -> 0 <= pos d o1 <= pos (d + 1) 0 /\ pos (d + 1) 0 <= n_dnodes.
Proof. intros; unfold pos, n_dnodes; case_ifs; bool_cases; lia. Qed.

(** Two predicates that agree on the nodes there can be. *)
Lemma stage_valid b t G s0 f P Q s a e t' : rep b t G s0 f -> (forall c, tvalid c -> P c = Q c) -> stage b t G f P s a e t' -> stage b t G f Q s a e t'.
Proof.
  intros R H (G' & C & HS); exists G'; split; [|exact HS]; revert C; apply cut_ext; intros c; destruct (G !! c) as [n|] eqn:E; [|auto].
  left; apply H; exact (proj1 (r_closed _ _ _ _ _ R c n E)).
Qed.

(** From entry [d] of [i_nid] on everything is cut. *)
Lemma inode_loop_ok b : 0 <= b -> forall fuel d o1 nofs t G f, rep b t G None f -> 0 <= nofs -> 0 <= d <= 4 -> 0 <= o1 <= 1018 -> 5 - d <= Z.of_nat fuel ->
  (d < 2 -> o1 <> 0 -> G !! ND d = None) ->
  exists err t', truncate_inode_loop fuel w (d + NODE_DIR1_BLOCK) o1 nofs t = Done (err, t') /\
    ((0 <= err /\ stage b t G f (beyond (pos d o1)) None (pos d o1) n_dnodes t') \/ (failed err /\ stopped b t G f (pos d o1) t')).
Proof.
  intros Hb; induction fuel as [|fuel IH]; intros d o1 nofs t G f R Hn Hd Ho Hfuel Habs; [lia|]; cbn [truncate_inode_loop].
  destruct (top_valid d Hd) as (V & Ep & Es); pose proof (pos_mono d o1 Hd Ho) as Hp.
  replace ((ft_nid t).[d + NODE_DIR1_BLOCK - NODE_DIR1_BLOCK]) with (default 0 (G !! top d)).
  2:{ symmetry; apply (rep_get_nid _ _ _ _ _ (top d) None (d + NODE_DIR1_BLOCK) R V); unfold holder; rewrite Ep, Es; auto. }
  destruct (entry_ok b t G f d o1 nofs R Hb Hn Hd Ho Habs) as (err & t1 & -> & HE); cbn [mbind outcome_bind]; destruct HE as [[He HE] | [Hf HE]].
  2:{ exists err, t1; destruct Hf as (He & Hne & Hf); rewrite (proj2 (Z.ltb_lt err 0)), (proj2 (Z.eqb_neq err _)) by assumption; split; [reflexivity|].
      right; split; [split; auto | exact HE]. }
  rewrite (proj2 (Z.ltb_ge err 0)) by exact He; cbn [andb]; pose proof (entry_cleared _ _ _ _ _ _ _ _ _ _ HE Hd) as HC.
  set (t2 := if (o1 =? 0) && _ then _ else t1) in *; clearbody t2; pose proof HC as (G2 & C2 & R2 & T2).
  destruct (Z.eqb_spec (d + NODE_DIR1_BLOCK) NODE_DIND_BLOCK) as [Ed | Ed].
  - assert (d = 4) as -> by (unfold NODE_DIND_BLOCK, NODE_DIR1_BLOCK in Ed; lia); exists err, t2; split; [reflexivity | left; split; [exact He|]].
    change (pos (4 + 1) 0) with n_dnodes in HC; revert HC; apply (stage_valid _ _ _ _ _ _ _ _ _ _ _ R); intros c Vc; rewrite beyond_entry by assumption.
    change (pos (4 + 1) 0) with n_dnodes; rewrite (beyond_none c Vc), orb_false_r; reflexivity.
  - assert (Hd' : 0 <= d + 1 <= 4) by (unfold NODE_DIND_BLOCK, NODE_DIR1_BLOCK in Ed; lia).
    replace (d + NODE_DIR1_BLOCK + 1) with (d + 1 + NODE_DIR1_BLOCK) by lia.
    destruct (IH (d + 1) 0 (nofs + err) t2 G2 _ R2 ltac:(lia) Hd' ltac:(lia) ltac:(lia) ltac:(lia)) as (err' & t3 & E3 & HR).
    exists err', t3; split; [exact E3|]; destruct HR as [[He' HR] | [Hf HR]]; [left; split; [exact He'|] | right; split; [exact Hf|]].
    + pose proof (stage_next b t G f _ _ (fun c => entry_nodes d o1 c || beyond (pos (d + 1) 0) c) _ (pos d o1) (pos (d + 1) 0) n_dnodes t2 G2 t3 C2 T2
        ltac:(lia) ltac:(lia) HR (fun c => eq_refl)) as HS.
      revert HS; apply (stage_valid _ _ _ _ _ _ _ _ _ _ _ R); intros c Vc; symmetry; apply beyond_entry; assumption.
    + exact (stop_next b t G f _ (pos d o1) (pos (d + 1) 0) t2 G2 t3 C2 T2 ltac:(lia) HR).
Qed.

End Trunc.
