(* ===== verification/FileTrunc.v ===== *)
(** Truncation of a file from a block on (node.c: truncate_partial_nodes,
    truncate_inode_blocks; file.c: truncate_blocks, truncate_hole), on trees that satisfy the
    invariant. *)

From Stdlib Require Import ZArith Lia Bool.
From stdpp Require Import base numbers list gmap.
From S2P Require Import Prelude Layout NodePath NodeTree NodeTreeInv NodeTreeOps NodeTrunc.

#[local] Open Scope Z_scope.
#[local] Ltac Zify.zify_post_hook ::= Z.to_euclidean_division_equations.

Section Trunc.
Variable w : tworld.
Hypothesis Herr : forall n, tw_page_err w n <> - ENOENT.

(** * The indirect node the cut goes through *)

(** The direct nodes from entry [j] of indirect node [m] on. *)
Lemma partial_loop_ok b t G f m n j : rep b t G None f -> 0 <= b -> 0 <= m < 1020 -> G !! NI m = Some n -> 0 < j < 1018 ->
  let a := 2 + 1018 * m + j in
  let e := 2 + 1018 * (m + 1) in
  let '(ret, (t', err)) :=
    for_ok j NIDS_PER_BLOCK (fun i '(t, err) =>
      let child_nid := get_nid t (Some n) i in
      if child_nid =? 0 then (0, (t, err))
      else
        let '(err, t) := truncate_dnode w child_nid t in
        if err <? 0 then (err, (t, err)) else (err, (set_nid (Some n) i 0 t, err))) (t, 0) in
  (ret = 0 /\ 0 <= err /\ stage b t G f (box a e 0 0 false) None a e t') \/ (failed w ret /\ stopped b t G f a t').
Proof.
  intros R Hb Hm E Hj a e; set (body := fun (i : Z) '(t, err) => _).
  apply (child_loop_ok w Herr (fun _ err => 0 <= err) body b t G f m n j 0 R Hb Hm E ltac:(lia) ltac:(lia)).
  - intros i t1 x Hx Ec; exists x; split; [unfold body; rewrite Ec; reflexivity | exact Hx].
  - intros i t1 x Hx Ec; unfold body; rewrite (proj2 (Z.eqb_neq _ 0)) by exact Ec.
    destruct (truncate_dnode w (get_nid t1 (Some n) i) t1) as [r t2]; destruct (Z.ltb_spec r 0); [eexists; reflexivity | exists r, r; auto].
Qed.

(** A path of two levels: the indirect node is an entry of [i_nid]. *)
Lemma partial_2_ok b t G f m i o : rep b t G None f -> 0 <= b -> 0 <= m < 2 -> 0 < i < 1018 ->
  let a := 2 + 1018 * m + i in
  let e := 2 + 1018 * (m + 1) in
  let '(err, offset, t') := truncate_partial_nodes w [2 + m + NODE_DIR1_BLOCK; i; o] 2 t in
  (0 <= err /\ offset = [2 + m + 1 + NODE_DIR1_BLOCK; 0; o] /\ stage b t G f (box a e 0 0 false) None a e t') \/
  (err = 0 /\ offset = [2 + m + NODE_DIR1_BLOCK; i; o] /\ t' = t) \/ (failed w err /\ stopped b t G f a t').
Proof.
  intros R Hb Hm Hi a e; unfold truncate_partial_nodes; change (2 - 2) with 0; cbv zeta.
  change (([2 + m + NODE_DIR1_BLOCK; i; o]).[0]) with (2 + m + NODE_DIR1_BLOCK); change (([2 + m + NODE_DIR1_BLOCK; i; o]).[0 + 1]) with i.
  assert (Ep : tparent (NI m) = None /\ tslot (NI m) = 2 + m) by (cbn; rewrite (proj2 (Z.ltb_lt m 2)) by lia; auto).
  destruct Ep as [Ep Es]; assert (V : tvalid (NI m)) by (cbn; lia).
  assert (En : (ft_nid t).[2 + m + NODE_DIR1_BLOCK - NODE_DIR1_BLOCK] = default 0 (G !! NI m)).
  { apply (rep_get_nid _ _ _ _ _ (NI m) None (2 + m + NODE_DIR1_BLOCK) R V); unfold holder; rewrite Ep, Es; auto. }
  rewrite En; destruct (G !! NI m) as [n|] eqn:E; cbn [from_option id]; [|right; left; auto].
  rewrite (proj2 (Z.eqb_neq n 0)) by exact (proj1 (r_page _ _ _ _ _ R _ n E)); change (Z.to_nat 0) with O; cbn [partial_pages].
  destruct (rep_get_page _ _ _ _ _ _ n w R E) as [[l ->] | [-> He]].
  2:{ right; right; split; [apply (failed_page w Herr); exact He|]; apply (stage_stopped _ _ _ _ _ _ _ _ (stage_same _ _ _ _ _ a R)); unfold a, n_dnodes; lia. }
  pose proof (partial_loop_ok b t G f m n i R Hb ltac:(lia) E Hi) as HL; cbv zeta in HL; fold a e in HL.
  destruct (for_ok i NIDS_PER_BLOCK _ (t, 0)) as [ret [t' err]]; destruct HL as [(-> & Hx & HS) | [Hf HS]].
  - change (0 <? 0) with false; cbv iota; rewrite (proj2 (Z.eqb_neq i 0)) by lia; left; split; [exact Hx|]; split; [|exact HS].
    replace (2 + m + 1 + NODE_DIR1_BLOCK) with (2 + m + NODE_DIR1_BLOCK + 1) by lia; reflexivity.
  - pose proof Hf as (He & _); rewrite (proj2 (Z.ltb_lt ret 0)) by exact He; right; right; auto.
Qed.

(** A path of three levels: entry [i] of the double indirect node. *)
Lemma partial_3_ok b t G f i j o : rep b t G None f -> 0 <= b -> 0 <= i < 1018 -> 0 < j < 1018 ->
  let a := 2038 + 1018 * i + j in
  let e := 2038 + 1018 * (i + 1) in
  let '(err, offset, t') := truncate_partial_nodes w [4 + NODE_DIR1_BLOCK; i; j; o] 3 t in
  (0 <= err /\ offset = [4 + NODE_DIR1_BLOCK; i + 1; 0; o] /\ stage b t G f (box a e 0 0 false) None a e t') \/
  ((err = 0 \/ err = - ENOENT) /\ offset = [4 + NODE_DIR1_BLOCK; i; j; o] /\ t' = t /\ G !! NI (2 + i) = None) \/
  (failed w err /\ stopped b t G f a t').
Proof.
  intros R Hb Hi Hj a e; unfold truncate_partial_nodes; change (3 - 2) with 1; cbv zeta.
  change (([4 + NODE_DIR1_BLOCK; i; j; o]).[0]) with (4 + NODE_DIR1_BLOCK); change (([4 + NODE_DIR1_BLOCK; i; j; o]).[1 + 1]) with j.
  assert (Hstop : stopped b t G f a t).
  { apply (stage_stopped _ _ _ _ _ _ _ _ (stage_same _ _ _ _ _ a R)); unfold a, n_dnodes; lia. }
  assert (En : (ft_nid t).[4 + NODE_DIR1_BLOCK - NODE_DIR1_BLOCK] = default 0 (G !! NX)).
  { apply (rep_get_nid _ _ _ _ _ NX None (4 + NODE_DIR1_BLOCK) R I); split; reflexivity. }
  destruct (indirect_of i ltac:(lia)) as [Ep Es]; assert (V : tvalid (NI (2 + i))) by (cbn; lia).
  rewrite En; destruct (G !! NX) as [x|] eqn:Ex; cbn [from_option id].
  2:{ right; left; repeat split; auto; destruct (G !! NI (2 + i)) as [n|] eqn:E; [|reflexivity].
      destruct (r_closed _ _ _ _ _ R _ n E) as [_ Hp]; destruct (Hp _ Ep); congruence. }
  rewrite (proj2 (Z.eqb_neq x 0)) by exact (proj1 (r_page _ _ _ _ _ R _ x Ex)); change (Z.to_nat 1) with 1%nat; cbn [partial_pages].
  destruct (rep_get_page _ _ _ _ _ _ x w R Ex) as [[l ->] | [-> He]]; [|right; right; split; [apply (failed_page w Herr); exact He | exact Hstop]].
  change (([4 + NODE_DIR1_BLOCK; i; j; o]).[0 + 1]) with i.
  assert (Ec : get_nid t (Some x) i = default 0 (G !! NI (2 + i))).
  { apply (rep_get_nid _ _ _ _ _ (NI (2 + i)) _ _ R V); unfold holder; rewrite Ep, Es; eauto. }
  rewrite Ec; destruct (G !! NI (2 + i)) as [n|] eqn:E; cbn [from_option id].
  2:{ destruct (rep_get_page_0 _ _ _ _ _ w R) as [-> | [-> He]]; [right; left; auto | right; right; split; [apply (failed_page w Herr); exact He | exact Hstop]]. }
  destruct (rep_get_page _ _ _ _ _ _ n w R E) as [[l' ->] | [-> He]]; [|right; right; split; [apply (failed_page w Herr); exact He | exact Hstop]].
  pose proof (partial_loop_ok b t G f (2 + i) n j R Hb ltac:(lia) E Hj) as HL; cbv zeta in HL.
  replace (2 + 1018 * (2 + i) + j) with a in HL by (unfold a; lia); replace (2 + 1018 * (2 + i + 1)) with e in HL by (unfold e; lia).
  destruct (for_ok j NIDS_PER_BLOCK _ (t, 0)) as [ret [t' err]]; destruct HL as [(-> & Hx & HS) | [Hf HS]].
  - change (0 <? 0) with false; cbv iota; rewrite (proj2 (Z.eqb_neq j 0)) by lia; left; split; [exact Hx|]; split; [reflexivity | exact HS].
  - pose proof Hf as (He & _); rewrite (proj2 (Z.ltb_lt ret 0)) by exact He; right; right; auto.
Qed.

(** * From a direct node on *)

(** The outcome of a truncation at direct node [k]: everything behind it is gone, or an
    error stopped it. *)
Definition cut_from (b : Z) (t : ftree) (G : gmap tnode Z) (f : Z -> Z) (k err : Z) (t' : ftree) : Prop :=
  (err = 0 /\ exists P, stage b t G f P None k n_dnodes t' /\ forall c, tvalid c -> beyond k c = true -> P c = true) \/
  (failed w err /\ stopped b t G f k t').

(** When the nodes in front of [k] are missing a truncation may begin at them. *)
Lemma cut_shift b t G f k k' P t' : stage b t G f P None k' n_dnodes t' -> k' <= k <= n_dnodes ->
  (forall i, dn_start (ft_inline_xattr t) k' <= i < dn_start (ft_inline_xattr t) k -> f i = 0) -> stage b t G f P None k n_dnodes t'.
Proof.
  intros (G' & C & R & (HF & HS & HL)) Hk Hz; exists G'; split; [exact C|]; split; [|split; [exact HF | split; [exact HS|]]].
  - revert R; apply rep_ext; intros i _; unfold zero; case_ifs; bool_cases; try reflexivity; try (unfold dn_start in *; lia); symmetry; apply Hz; lia.
  - rewrite HL, (live_app f _ (dn_start (ft_inline_xattr t) k)), (live_none f _ _ Hz) by (unfold dn_start; lia); reflexivity.
Qed.

Lemma stop_shift b t G f k k' t' : stopped b t G f k' t' -> k' <= k <= n_dnodes ->
  (forall i, dn_start (ft_inline_xattr t) k' <= i < dn_start (ft_inline_xattr t) k -> f i = 0) -> stopped b t G f k t'.
Proof.
  intros (G' & e & He & HG & R & (HF & HS & HL)) Hk Hz; exists G', (Z.max e k); split; [lia|]; split; [exact HG|]; split; [|split; [exact HF | split; [exact HS|]]].
  - revert R; apply rep_ext; intros i _; unfold zero; case_ifs; bool_cases; try reflexivity; try (unfold dn_start in *; lia); symmetry; apply Hz; unfold dn_start in *; lia.
  - rewrite HL; f_equal; destruct (Z.le_ge_cases e k).
    + rewrite Z.max_r, (live_nil f _ (dn_start _ k)) by lia; apply live_none; intros i Hi; apply Hz; unfold dn_start in *; lia.
    + rewrite Z.max_l, (live_app f _ (dn_start (ft_inline_xattr t) k)), (live_none f _ _ Hz) by (unfold dn_start; lia); reflexivity.
Qed.

(** The loop over [i_nid] as the rest of a truncation that is at entry [d]. *)
Lemma rest_ok b t G f P k d o1 nofs t1 : stage b t G f P None k (pos d o1) t1 -> k <= pos d o1 -> 0 <= b -> 0 <= nofs -> 0 <= d <= 4 -> 0 <= o1 <= 1018 ->
  (forall G1, cut P G G1 -> d < 2 -> o1 <> 0 -> G1 !! ND d = None) ->
  (forall c, tvalid c -> beyond k c = true -> P c || beyond (pos d o1) c = true) ->
  exists err t', ('(err, t) ← truncate_inode_loop 6 w (d + NODE_DIR1_BLOCK) o1 nofs t1; Done (if 0 <? err then 0 else err, t)) = Done (err, t') /\ cut_from b t G f k err t'.
Proof.
  intros HS Hk Hb Hn Hd Ho Habs HP; pose proof HS as (G1 & C1 & R1 & T1); pose proof (pos_mono d o1 Hd Ho) as Hp.
  destruct (inode_loop_ok w Herr b Hb 6 d o1 nofs t1 G1 _ R1 Hn Hd Ho ltac:(lia) (Habs G1 C1)) as (err & t' & -> & HR); cbn [mbind outcome_bind].
  eexists _, t'; split; [reflexivity|]; destruct HR as [[He HR] | [Hf HR]].
  - left; split; [destruct (Z.ltb_spec 0 err); lia|]; exists (fun c => P c || beyond (pos d o1) c); split; [|exact HP].
    exact (stage_next b t G f _ _ _ _ k (pos d o1) n_dnodes t1 G1 t' C1 T1 ltac:(lia) ltac:(lia) HR (fun c => eq_refl)).
  - right; pose proof Hf as (He & _); rewrite (proj2 (Z.ltb_ge 0 err)) by lia; split; [exact Hf|].
    exact (stop_next b t G f _ k (pos d o1) t1 G1 t' C1 T1 ltac:(lia) HR).
Qed.

(** The loop from the start of the truncation. *)
Lemma whole_ok b t G f k d o1 nofs : rep b t G None f -> pos d o1 <= k < n_dnodes -> 0 <= b -> 0 <= nofs -> 0 <= d <= 4 -> 0 <= o1 <= 1018 ->
  (d < 2 -> o1 <> 0 -> G !! ND d = None) ->
  (forall i, dn_start (ft_inline_xattr t) (pos d o1) <= i < dn_start (ft_inline_xattr t) k -> f i = 0) ->
  exists err t', ('(err, t) ← truncate_inode_loop 6 w (d + NODE_DIR1_BLOCK) o1 nofs t; Done (if 0 <? err then 0 else err, t)) = Done (err, t') /\ cut_from b t G f k err t'.
Proof.
  intros R Hk Hb Hn Hd Ho Habs Hz.
  destruct (rest_ok b t G f (box 0 0 0 0 false) (pos d o1) d o1 nofs t (stage_same _ _ _ _ _ _ R) ltac:(lia) Hb Hn Hd Ho) as (err & t' & E & HR).
  - intros G1 C1 H1 H2; rewrite (C1 (ND d)); destruct (box 0 0 0 0 false (ND d)); [reflexivity | exact (Habs H1 H2)].
  - intros c _ Hc; rewrite Hc, orb_true_r; reflexivity.
  - exists err, t'; split; [exact E|]; destruct HR as [(-> & P & HS & HP) | [Hf HS]]; [left | right].
    + split; [reflexivity|]; exists P; split; [apply (cut_shift _ _ _ _ _ _ _ _ HS); [lia | exact Hz]|].
      intros c Vc Hc; apply HP; [exact Vc|]; revert Hc; destruct c; cbn; rewrite ?andb_true_iff, ?Z.leb_le, ?Z.ltb_lt; lia.
    + split; [exact Hf|]; apply (stop_shift _ _ _ _ _ _ _ HS); [lia | exact Hz].
Qed.

(** The cut goes through indirect node [m]: first its direct nodes from [k] on, then the
    rest of the tree from entry [d] on. *)
Lemma behind_ok b t G f k e d o1 nofs t1 : stage b t G f (box k e 0 0 false) None k e t1 -> e = pos d o1 -> 0 <= b -> 0 <= nofs -> 2 <= d <= 4 -> 0 <= o1 <= 1018 ->
  e - 1018 < k <= e -> (exists m, e = 2 + 1018 * (m + 1)) -> 2 < k ->
  exists err t', ('(err, t) ← truncate_inode_loop 6 w (d + NODE_DIR1_BLOCK) o1 nofs t1; Done (if 0 <? err then 0 else err, t)) = Done (err, t') /\ cut_from b t G f k err t'.
Proof.
  intros HS -> Hb Hn Hd Ho Hk [m Em] Hk2; apply (rest_ok b t G f (box k (pos d o1) 0 0 false)); auto; try lia.
  intros c Vc; destruct c as [j | m' |]; cbn; unfold n_dnodes in *; rewrite ?orb_true_iff, ?andb_true_iff, ?Z.leb_le, ?Z.ltb_lt; rewrite Em in *; cbn in Vc; lia.
Qed.

(** What [truncate_inode_blocks] does behind the partial node. *)
Definition finish (r : Z * list Z * Z * ftree) : outcome (Z * ftree) :=
  let '(err, offset, nofs, t) := r in
  if (err <? 0) && negb (err =? - ENOENT) then Done (err, t)
  else '(err, t) ← truncate_inode_loop 6 w (offset.[0]) (offset.[1]) nofs t; Done (if 0 <? err then 0 else err, t).

Lemma finish_failed err offset nofs t : failed w err -> finish (err, offset, nofs, t) = Done (err, t).
Proof. intros (He & Hn & _); unfold finish; rewrite (proj2 (Z.ltb_lt err 0)), (proj2 (Z.eqb_neq err _)) by assumption; reflexivity. Qed.

Lemma cut_finish_ok err offset nofs t : 0 <= err \/ err = - ENOENT ->
  finish (err, offset, nofs, t) = ('(err, t) ← truncate_inode_loop 6 w (offset.[0]) (offset.[1]) nofs t; Done (if 0 <? err then 0 else err, t)).
Proof. intros [He | ->]; unfold finish; [rewrite (proj2 (Z.ltb_ge err 0)) by exact He|]; reflexivity. Qed.

Lemma level_2_ok b t G f m i o n1 n2 : rep b t G None f -> 0 <= b -> 0 <= m < 2 -> 0 <= i < 1018 -> 0 <= n1 -> 0 <= n2 ->
  exists err t', finish (if i =? 0 then (0, [2 + m + NODE_DIR1_BLOCK; i; o], n1, t)
    else let '(err, offset, t) := truncate_partial_nodes w [2 + m + NODE_DIR1_BLOCK; i; o] 2 t in (err, offset, n2, t)) = Done (err, t') /\
    cut_from b t G f (2 + 1018 * m + i) err t'.
Proof.
  intros R Hb Hm Hi H1 H2.
  assert (Hpos : pos (2 + m) i = 2 + 1018 * m + i /\ pos (2 + m + 1) 0 = 2 + 1018 * (m + 1)) by (unfold pos; case_ifs; bool_cases; lia).
  destruct Hpos as [Hp Hp'].
  assert (Hwhole : forall nofs, 0 <= nofs -> exists err t', ('(err, t) ← truncate_inode_loop 6 w (2 + m + NODE_DIR1_BLOCK) i nofs t; Done (if 0 <? err then 0 else err, t)) = Done (err, t') /\
    cut_from b t G f (2 + 1018 * m + i) err t').
  { intros nofs Hn; rewrite <- Hp; apply whole_ok; auto; rewrite ?Hp; unfold n_dnodes; try lia. }
  destruct (Z.eqb_spec i 0) as [E0 | Hne]; [rewrite cut_finish_ok by lia; exact (Hwhole n1 H1)|].
  pose proof (partial_2_ok b t G f m i o R Hb Hm ltac:(lia)) as HP; cbv zeta in HP.
  destruct (truncate_partial_nodes w [2 + m + NODE_DIR1_BLOCK; i; o] 2 t) as [[err offset] t1]; destruct HP as [(He & -> & HS) | [(-> & -> & ->) | [Hf HS]]].
  - rewrite cut_finish_ok by lia; apply (behind_ok b t G f _ _ (2 + m + 1) 0 n2 t1 HS); auto; try lia; exists m; lia.
  - rewrite cut_finish_ok by lia; exact (Hwhole n2 H2).
  - rewrite finish_failed by exact Hf; exists err, t1; split; [reflexivity | right; auto].
Qed.

Lemma level_3_ok b t G f i j o n1 n2 : rep b t G None f -> 0 <= b -> 0 <= i < 1018 -> 0 <= j < 1018 -> 0 <= n1 -> 0 <= n2 ->
  exists err t', finish (if j =? 0 then (0, [4 + NODE_DIR1_BLOCK; i; j; o], n1, t)
    else let '(err, offset, t) := truncate_partial_nodes w [4 + NODE_DIR1_BLOCK; i; j; o] 3 t in (err, offset, n2, t)) = Done (err, t') /\
    cut_from b t G f (2038 + 1018 * i + j) err t'.
Proof.
  intros R Hb Hi Hj H1 H2.
  assert (Hwhole : forall nofs, 0 <= nofs -> j = 0 \/ G !! NI (2 + i) = None ->
    exists err t', ('(err, t) ← truncate_inode_loop 6 w (4 + NODE_DIR1_BLOCK) i nofs t; Done (if 0 <? err then 0 else err, t)) = Done (err, t') /\
    cut_from b t G f (2038 + 1018 * i + j) err t').
  { intros nofs Hn Hc; apply whole_ok; auto; change (pos 4 i) with (2038 + 1018 * i); unfold n_dnodes; try lia.
    intros q Hq; destruct Hc as [-> | Hc]; [unfold dn_start in Hq; lia|]; set (k := (q - addrs_per_inode (ft_inline_xattr t)) / 1018).
    assert (Hk : 2 + 1018 * (2 + i) <= k < 2 + 1018 * (2 + i + 1)) by (unfold dn_start, k in *; lia).
    apply (absent_dnode _ _ _ _ _ k q R); [unfold n_dnodes; lia | exact (absent_children _ _ _ _ _ (2 + i) k R Hc ltac:(lia) Hk) | unfold dn_start, k in *; lia]. }
  destruct (Z.eqb_spec j 0) as [E0 | Hne]; [rewrite cut_finish_ok by lia; apply (Hwhole n1 H1); auto|].
  pose proof (partial_3_ok b t G f i j o R Hb Hi ltac:(lia)) as HP; cbv zeta in HP.
  destruct (truncate_partial_nodes w [4 + NODE_DIR1_BLOCK; i; j; o] 3 t) as [[err offset] t1]; destruct HP as [(He & -> & HS) | [(He & -> & -> & HN) | [Hf HS]]].
  - rewrite cut_finish_ok by lia; apply (behind_ok b t G f _ _ 4 (i + 1) n2 t1 HS); auto; try lia; exists (2 + i); lia.
  - rewrite cut_finish_ok by (destruct He as [-> | ->]; auto; lia); apply (Hwhole n2 H2); auto.
  - rewrite finish_failed by exact Hf; exists err, t1; split; [reflexivity | right; auto].
Qed.

Lemma inode_blocks_ok b t G f k o : rep b t G None f -> 0 <= b -> 0 <= k < n_dnodes -> 0 <= o < 1018 -> o = 0 \/ G !! ND k = None ->
  inode_page_err w t = 0 ->
  exists err t', truncate_inode_blocks w (dn_start (ft_inline_xattr t) k + o) t = Done (err, t') /\ cut_from b t G f k err t'.
Proof.
  intros R Hb Hk Ho Habs Hpage; unfold truncate_inode_blocks.
  destruct (get_node_path_cases (ft_inline_xattr t) (dn_start (ft_inline_xattr t) k + o)) as [[Hlt _] | (k' & o' & Ho' & Eb & Hc)].
  { rewrite max_blocks_dn; pose proof (addrs_per_inode_cases (ft_inline_xattr t)); unfold dn_start, n_dnodes in *; lia. }
  { unfold dn_start in Hlt; lia. }
  assert (k' = k /\ o' = o) as [-> ->] by (unfold dn_start in Eb; lia); clear Eb.
  assert (Hself : forall i, dn_start (ft_inline_xattr t) k <= i < dn_start (ft_inline_xattr t) k -> f i = 0) by (intros; lia).
  destruct Hc as [[-> ->] | [[-> ->] | [(i & Hi & -> & ->) | [(i & Hi & -> & ->) | (i & j & Hi & Hj & -> & ->)]]]];
    cbn [np_level np_offset np_noffset]; rewrite Hpage; change (0 <? 0) with false; cbv iota.
  - change (([924; o]).[0]) with (0 + NODE_DIR1_BLOCK); change (([924; o]).[1]) with o.
    apply (whole_ok b t G f 0 0 o); [exact R | cbn; lia | exact Hb | vm_compute; congruence | lia | lia | tauto | exact Hself].
  - change (([925; o]).[0]) with (1 + NODE_DIR1_BLOCK); change (([925; o]).[1]) with o.
    apply (whole_ok b t G f 1 1 o); [exact R | cbn; lia | exact Hb | vm_compute; congruence | lia | lia | tauto | exact Hself].
  - exact (level_2_ok b t G f 0 i o 3 1022 R Hb ltac:(lia) Hi ltac:(lia) ltac:(lia)).
  - replace (1020 + i) with (2 + 1018 * 1 + i) by lia; exact (level_2_ok b t G f 1 i o 1022 2041 R Hb ltac:(lia) Hi ltac:(lia) ltac:(lia)).
  - replace (2038 + i * 1018 + j) with (2038 + 1018 * i + j) by lia; exact (level_3_ok b t G f i j o 2041 2041 R Hb Hi Hj ltac:(lia) ltac:(lia)).
Qed.

(** * From a block on *)

(** The blocks [a .. e - 1] of file [f] were freed, and with them nodes. *)
Definition removed (t t' : ftree) (f : Z -> Z) (a e : Z) : Prop :=
  same_file t t' /\ shed t t' /\ ft_freed t' = ft_freed t ++ live f a e.

(** The first block below a node. *)
Definition node_first (x : bool) (c : tnode) : Z :=
  dn_start x (match c with ND k => k | NI m => 2 + 1018 * m | NX => 2038 end).

(** The outcome of a truncation at block [i]: the file ends there, and no node that maps
    only blocks behind it is left; or an error reading a page stopped it at a block [e],
    up to which the file is cut. *)
Definition truncated (b : Z) (t : ftree) (G : gmap tnode Z) (f : Z -> Z) (i err : Z) (t' : ftree) : Prop :=
  exists G', G' ⊆ G /\
   ((err = 0 /\ rep b t' G' None (zero f i (max_blocks (ft_inline_xattr t))) /\ removed t t' f i (max_blocks (ft_inline_xattr t)) /\
     forall c n, G' !! c = Some n -> node_first (ft_inline_xattr t) c < i) \/
    (failed w err /\ exists e, i <= e /\ rep b t' G' None (zero f i e) /\ removed t t' f i e)).

Lemma removed_trans t1 t2 t3 f a e e' : a <= e -> e <= e' -> removed t1 t2 f a e -> removed t2 t3 (zero f a e) e e' -> removed t1 t3 f a e'.
Proof.
  intros H1 H2 (F1 & S1 & L1) (F2 & S2 & L2); split; [exact (same_file_trans _ _ _ F1 F2)|]; split; [exact (shed_trans _ _ _ S1 S2)|].
  rewrite L2, L1, <- app_assoc; f_equal; symmetry; rewrite (live_app f a e e') by lia; f_equal; apply live_ext; intros i Hi.
  rewrite zero_out by lia; reflexivity.
Qed.

Lemma not_beyond x k c : tvalid c -> beyond k c = false -> node_first x c < dn_start x k.
Proof.
  intros V Hb; unfold node_first, dn_start; destruct c as [j | m |]; cbn in Hb, V; rewrite ?andb_false_iff, ?Z.leb_gt, ?Z.ltb_ge in Hb; unfold n_dnodes in *; lia.
Qed.

(** A truncation at the first block of a direct node, or inside one that is missing. *)
Lemma cut_truncated b t G f k i err t' : rep b t G None f -> cut_from b t G f k err t' -> 0 <= k < n_dnodes ->
  dn_start (ft_inline_xattr t) k <= i <= dn_start (ft_inline_xattr t) (k + 1) ->
  (forall j, dn_start (ft_inline_xattr t) k <= j < i -> f j = 0) -> truncated b t G f i err t'.
Proof.
  intros R HC Hk Hi Hz; destruct HC as [(-> & P & (G' & C & R' & (HF & HS & HL)) & HP) | [Hf (G' & e & He & HG & R' & (HF & HS & HL))]]; exists G'.
  - split; [exact (cut_sub _ _ _ C)|]; left; split; [reflexivity|]; rewrite max_blocks_dn; split; [|split; [split; [exact HF | split; [exact HS|]]|]].
    + revert R'; apply rep_ext; intros j _; unfold zero; case_ifs; bool_cases; try reflexivity; try lia; symmetry; apply Hz; lia.
    + rewrite HL, (live_app f _ i), (live_none f _ _ Hz) by (unfold dn_start, n_dnodes in *; lia); reflexivity.
    + intros c n Ec; rewrite (C c) in Ec; destruct (P c) eqn:Ep; [discriminate|]; destruct (r_closed _ _ _ _ _ R c n Ec) as [V _].
      assert (Hb : beyond k c = false) by (destruct (beyond k c) eqn:Eb; [rewrite (HP c V Eb) in Ep; discriminate | reflexivity]).
      pose proof (not_beyond (ft_inline_xattr t) k c V Hb); lia.
  - split; [exact HG|]; right; split; [exact Hf|]; exists (Z.max i (dn_start (ft_inline_xattr t) e)); split; [lia|]; split; [|split; [exact HF | split; [exact HS|]]].
    + revert R'; apply rep_ext; intros j _; unfold zero; case_ifs; bool_cases; try reflexivity; try lia; symmetry; apply Hz; lia.
    + rewrite HL; f_equal; destruct (Z.le_ge_cases i (dn_start (ft_inline_xattr t) e)).
      * rewrite Z.max_r, (live_app f _ i), (live_none f _ _ Hz) by lia; reflexivity.
      * rewrite Z.max_l, (live_nil f i) by lia; apply live_none; intros j Hj; apply Hz; lia.
Qed.

(** Clearing the tail of one node first. *)
Lemma tail_truncated b t G f i count node o err t1 t' : rep b t G None f -> 0 <= b -> 0 <= count -> at_range (ft_inline_xattr t) G i count node o ->
  t1 = snd (truncate_data_blocks_range node o count t) -> i + count <= max_blocks (ft_inline_xattr t) ->
  truncated b t1 G (zero f i (i + count)) (i + count) err t' ->
  (forall c, tvalid c -> node_first (ft_inline_xattr t) c < i + count -> node_first (ft_inline_xattr t) c < i) -> truncated b t G f i err t'.
Proof.
  intros R Hb Hc HA -> Hmax HT Hfirst; destruct (truncate_range_ok b t G None f i count node o R Hb Hc HA) as (R1 & HF & Hg & Hfr).
  set (t1 := snd _) in *; clearbody t1; pose proof HF as (_ & Ex & _); unfold truncated in *; rewrite Ex in HT; destruct HT as (G' & HG & HT); exists G'; split; [exact HG|].
  assert (H1 : removed t t1 f i (i + count)) by (split; [exact HF | split; [exact (shed_rep _ _ _ _ _ _ _ _ _ R R1 Hg) | exact Hfr]]).
  destruct HT as [(-> & R' & HR & HN) | (Hf & e & He & R' & HR)]; [left | right].
  - split; [reflexivity|]; split; [|split; [exact (removed_trans t t1 t' f i (i + count) _ ltac:(lia) Hmax H1 HR)|]].
    + revert R'; apply rep_ext; intros j _; apply zero_zero; lia.
    + intros c n Ec; apply Hfirst; [exact (proj1 (r_closed _ _ _ _ _ R' c n Ec)) | exact (HN c n Ec)].
  - split; [exact Hf|]; exists e; split; [lia|]; split; [|exact (removed_trans t t1 t' f i (i + count) e ltac:(lia) He H1 HR)].
    revert R'; apply rep_ext; intros j _; apply zero_zero; lia.
Qed.

(** The block [truncate_blocks] starts at: the first one behind [from] bytes. *)
Definition first_block (from : Z) : Z := F2FS_BYTES_TO_BLK (u64 (from + F2FS_BLKSIZE - 1)).

Lemma first_block_nonneg from : 0 <= first_block from.
Proof. unfold first_block, F2FS_BYTES_TO_BLK; apply Z.shiftr_nonneg; unfold u64; lia. Qed.

Lemma not_started b t G f i err : rep b t G None f -> failed w err -> truncated b t G f i err t.
Proof.
  intros R Hf; exists G; split; [reflexivity | right; split; [exact Hf|]]; exists i; split; [lia|]; split.
  - revert R; apply rep_ext; intros j _; rewrite zero_out by lia; reflexivity.
  - split; [apply same_file_refl | split; [apply shed_refl | rewrite live_nil, app_nil_r by lia; reflexivity]].
Qed.

(** The tail of node [node] and everything behind direct node [k - 1]. *)
Lemma tail_ok b t G f i count node o k : rep b t G None f -> 0 <= b -> 0 <= count -> at_range (ft_inline_xattr t) G i count node o ->
  i + count = dn_start (ft_inline_xattr t) k -> 0 <= k < n_dnodes -> inode_page_err w t = 0 ->
  (forall c, tvalid c -> node_first (ft_inline_xattr t) c < i + count -> node_first (ft_inline_xattr t) c < i) ->
  exists err t', truncate_inode_blocks w (i + count) (snd (truncate_data_blocks_range node o count t)) = Done (err, t') /\ truncated b t G f i err t'.
Proof.
  intros R Hb Hc HA Ei Hk Hpage Hfirst; destruct (truncate_range_ok b t G None f i count node o R Hb Hc HA) as (R1 & HF & _).
  set (t1 := snd _) in *; assert (Et : t1 = snd (truncate_data_blocks_range node o count t)) by reflexivity; clearbody t1; pose proof HF as (Eino & Ex & _).
  destruct (inode_blocks_ok b t1 G _ k 0 R1 Hb Hk ltac:(lia) ltac:(auto)) as (err & t' & E & HC).
  { unfold inode_page_err in *; rewrite Eino; exact Hpage. }
  rewrite Ex in E; rewrite Ei; replace (dn_start (ft_inline_xattr t) k) with (dn_start (ft_inline_xattr t) k + 0) by lia; exists err, t'; split; [exact E|].
  apply (tail_truncated b t G f i count node o err t1 t' R Hb Hc HA Et); [| |exact Hfirst].
  - rewrite Ei, max_blocks_dn; unfold dn_start; lia.
  - apply (cut_truncated b t1 G _ k); [exact R1 | exact HC | exact Hk | rewrite Ex, Ei; unfold dn_start; lia | rewrite Ex, Ei; intros; lia].
Qed.

Lemma truncate_blocks_ok b t G f from : rep b t G None f -> 0 <= b -> ft_inline_data t = false ->
  let i := first_block from in
  i < max_blocks (ft_inline_xattr t) -> G !! ND (n_dnodes - 1) = None \/ i <= dn_start (ft_inline_xattr t) (n_dnodes - 1) ->
  exists err t', truncate_blocks w from t = Done (err, t') /\ truncated b t G f i err t'.
Proof.
  intros R Hb Hin i Hi Hlast; unfold truncate_blocks; fold (first_block from); fold i; pose proof (first_block_nonneg from) as H0; fold i in H0.
  assert (Hpage : inode_page_err w t = 0 \/ failed w (inode_page_err w t)).
  { destruct (inode_page_err_cases w t) as [E | [He E]]; [auto | right; rewrite E in He |- *; exact (failed_page w Herr _ He)]. }
  destruct Hpage as [Hpage | Hf]; [rewrite Hpage; change (0 <? 0) with false; cbv iota|].
  2:{ pose proof Hf as (He & _); rewrite (proj2 (Z.ltb_lt _ 0)) by exact He; eexists _, t; split; [reflexivity | exact (not_started b t G f i _ R Hf)]. }
  rewrite Hin; destruct (dnode_lookup b t G f w true i R Hin ltac:(lia) Herr) as (r & -> & Hr); cbn [mbind outcome_bind]; destruct r as [e | dn].
  - destruct Hr as [(-> & k & o & Hk & Ho & Ei & EN) | (Hne & He & Hn)].
    2:{ rewrite (proj2 (Z.eqb_neq e _)) by exact Hne; eexists _, t; split; [reflexivity | apply not_started; [exact R | split; auto]]. }
    rewrite Z.eqb_refl, Ei; destruct (inode_blocks_ok b t G f k o R Hb Hk Ho (or_intror EN) Hpage) as (err & t' & E & HC); exists err, t'; split; [exact E|].
    apply (cut_truncated b t G f k); [exact R | exact HC | exact Hk | unfold dn_start; lia|].
    intros j Hj; apply (absent_dnode _ _ _ _ _ k j R Hk EN); unfold dn_start in *; lia.
  - destruct dn as [dnid page o addr]; destruct Hr as [HA _]; cbn [dn_page dn_ofs] in *; destruct HA as [(-> & -> & Hlt) | (k & n & -> & En & Hk & Ho & Ei)].
    + rewrite bool_decide_true, orb_true_r by reflexivity; cbn [ADDRS_PER_PAGE].
      apply (tail_ok b t G f i _ None i 0); auto; try (unfold dn_start, n_dnodes; lia); [intros j Hj; left; repeat split; lia|].
      intros c Vc; unfold node_first, dn_start; destruct c; cbn in Vc; lia.
    + rewrite bool_decide_false, orb_false_r by discriminate; cbn [ADDRS_PER_PAGE]; unfold ADDRS_PER_BLOCK; destruct (Z.eqb_spec o 0) as [-> | Hne]; cbn [negb].
      * rewrite Ei; destruct (inode_blocks_ok b t G f k 0 R Hb Hk Ho (or_introl eq_refl) Hpage) as (err & t' & E & HC); exists err, t'; split; [exact E|].
        apply (cut_truncated b t G f k); [exact R | exact HC | exact Hk | unfold dn_start; lia | intros; lia].
      * assert (Hk' : k <> n_dnodes - 1) by (intros ->; destruct Hlast; [congruence | lia]).
        apply (tail_ok b t G f i _ (Some n) o (k + 1)); auto; try (unfold dn_start in *; lia).
        -- intros j Hj; right; exists k, n; repeat split; auto; unfold dn_start in *; lia.
        -- intros c Vc; unfold node_first, dn_start in *; destruct c; cbn in Vc; lia.
Qed.

(** * Holes *)

Lemma removed_refl t f a : removed t t f a a.
Proof. split; [apply same_file_refl | split; [apply shed_refl | rewrite live_nil, app_nil_r by lia; reflexivity]]. Qed.

(** [truncate_hole] frees the blocks one by one and keeps the nodes. *)
Lemma hole_ok b G : 0 <= b -> forall n t f a, rep b t G None f -> ft_inline_data t = false -> 0 <= a -> a + Z.of_nat n <= max_blocks (ft_inline_xattr t) ->
  exists err t' x, truncate_hole_from n w a t = Done (err, t') /\ a <= x <= a + Z.of_nat n /\ rep b t' G None (zero f a x) /\ removed t t' f a x /\
    ((err = 0 /\ x = a + Z.of_nat n) \/ failed w err).
Proof.
  intros Hb; induction n as [|n IH]; intros t f a R Hin Ha Hmax; cbn [truncate_hole_from].
  { exists 0, t, a; split; [reflexivity|]; split; [lia|]; split; [|split; [apply removed_refl | left; lia]].
    revert R; apply rep_ext; intros j _; rewrite zero_out by lia; reflexivity. }
  assert (Hnext : forall t1, rep b t1 G None (zero f a (a + 1)) -> removed t t1 f a (a + 1) -> exists err t' x, truncate_hole_from n w (a + 1) t1 = Done (err, t') /\
    a <= x <= a + Z.of_nat (S n) /\ rep b t' G None (zero f a x) /\ removed t t' f a x /\ ((err = 0 /\ x = a + Z.of_nat (S n)) \/ failed w err)).
  { intros t1 R1 H1; pose proof H1 as ((_ & Ex & Ed) & _).
    destruct (IH t1 _ (a + 1) R1 ltac:(congruence) ltac:(lia) ltac:(rewrite Ex; lia)) as (err & t' & x & E & Hx & R' & HR & Herr').
    exists err, t', x; split; [exact E|]; split; [lia|]; split; [|split; [exact (removed_trans t t1 t' f a (a + 1) x ltac:(lia) ltac:(lia) H1 HR)|]].
    - revert R'; apply rep_ext; intros j _; apply zero_zero; lia.
    - destruct Herr' as [[-> ->] | Hf]; [left; lia | right; exact Hf]. }
  assert (Hskip : f a = 0 -> rep b t G None (zero f a (a + 1)) /\ removed t t f a (a + 1)).
  { intros E0; split; [apply (rep_ext b t G None f); [|exact R]; intros j _; unfold zero; case_ifs; bool_cases; [|reflexivity]; replace j with a by lia; exact E0|].
    split; [apply same_file_refl | split; [apply shed_refl | rewrite live_one, E0, app_nil_r; reflexivity]]. }
  destruct (dnode_lookup b t G f w false a R Hin ltac:(lia) Herr) as (r & -> & Hr); cbn [mbind outcome_bind]; destruct r as [e | dn].
  - destruct Hr as [(-> & k & o & Hk & Ho & Ei & EN) | (Hne & He & Hn)].
    + rewrite Z.eqb_refl; apply Hnext; apply Hskip; apply (absent_dnode _ _ _ _ _ k a R Hk EN); unfold dn_start in *; lia.
    + rewrite (proj2 (Z.eqb_neq e _)) by exact Hne; exists e, t, a; split; [reflexivity|]; split; [lia|]; split; [|split; [apply removed_refl | right; split; auto]].
      revert R; apply rep_ext; intros j _; rewrite zero_out by lia; reflexivity.
  - destruct Hr as [HA Ea]; rewrite Ea; unfold NULL_ADDR; destruct (Z.eqb_spec (f a) 0) as [E0 | _]; [apply Hnext; apply Hskip; exact E0|].
    assert (HR : at_range (ft_inline_xattr t) G a 1 (dn_page dn) (dn_ofs dn)) by (intros j Hj; replace j with 0 by lia; rewrite !Z.add_0_r; exact HA).
    destruct (truncate_range_ok b t G None f a 1 _ _ R Hb ltac:(lia) HR) as (R1 & HF & Hg & Hfr); apply Hnext; [exact R1|].
    split; [exact HF | split; [exact (shed_rep _ _ _ _ _ _ _ _ _ R R1 Hg) | exact Hfr]].
Qed.

(** * The end of the tree

    Behind the last block there is no path, and [get_node_path] does not return. *)

Lemma truncate_behind t from : inode_page_err w t = 0 -> ft_inline_data t = false -> max_blocks (ft_inline_xattr t) <= first_block from ->
  truncate_blocks w from t = Bug.
Proof.
  intros Hpage Hin Hi; unfold truncate_blocks; fold (first_block from); rewrite Hpage, Hin; change (0 <? 0) with false; cbv iota; unfold get_dnode_of_data.
  rewrite (proj2 (get_node_path_None _ _ (first_block_nonneg from)) Hi); reflexivity.
Qed.

(** The same happens when the cut is inside the last direct node, because the search goes
    on behind that node. *)
Lemma truncate_last b t G f from : rep b t G None f -> 0 <= b -> ft_inline_data t = false -> (forall n, 0 <= tw_page_err w n) ->
  is_Some (G !! ND (n_dnodes - 1)) -> dn_start (ft_inline_xattr t) (n_dnodes - 1) < first_block from < max_blocks (ft_inline_xattr t) ->
  truncate_blocks w from t = Bug.
Proof.
  intros R Hb Hin Hread [n En] Hi; unfold truncate_blocks; fold (first_block from); set (i := first_block from) in *.
  assert (Hpage : inode_page_err w t = 0) by (unfold inode_page_err; rewrite (proj2 (Z.ltb_ge _ 0)) by apply Hread; reflexivity).
  rewrite Hpage, Hin; change (0 <? 0) with false; cbv iota.
  assert (Hn : 0 <= dn_start (ft_inline_xattr t) (n_dnodes - 1)) by (pose proof (addrs_per_inode_cases (ft_inline_xattr t)); unfold dn_start, n_dnodes; lia).
  assert (Hkey : forall k o, 0 <= k < n_dnodes -> 0 <= o < 1018 -> i = dn_start (ft_inline_xattr t) k + o -> k = n_dnodes - 1 /\ o <> 0).
  { intros k o Hk Ho Ei; rewrite max_blocks_dn in Hi; unfold dn_start in *; lia. }
  destruct (dnode_lookup b t G f w true i R Hin ltac:(lia) Herr) as (r & -> & Hr); cbn [mbind outcome_bind]; destruct r as [e | dn].
  { exfalso; destruct Hr as [(_ & k & o & Hk & Ho & Ei & EN) | (_ & He & m & Em)]; [|specialize (Hread m); lia].
    destruct (Hkey k o Hk Ho Ei) as [-> _]; congruence. }
  destruct dn as [dnid page o addr]; destruct Hr as [HA _]; cbn [dn_page dn_ofs] in *; destruct HA as [(_ & _ & Hlt) | (k & n' & -> & En' & Hk & Ho & Ei)].
  { exfalso; unfold dn_start, n_dnodes in *; lia. }
  destruct (Hkey k o Hk Ho Ei) as [-> Hne]; rewrite (proj2 (Z.eqb_neq o 0)) by exact Hne; cbn [negb orb ADDRS_PER_PAGE].
  assert (HR : at_range (ft_inline_xattr t) G i (ADDRS_PER_BLOCK - o) (Some n') o).
  { intros j Hj; right; exists (n_dnodes - 1), n'; unfold ADDRS_PER_BLOCK in *; repeat split; auto; lia. }
  destruct (truncate_range_ok b t G None f i (ADDRS_PER_BLOCK - o) (Some n') o R Hb ltac:(unfold ADDRS_PER_BLOCK; lia) HR) as (_ & (_ & Ex & _) & _); unfold truncate_inode_blocks; rewrite Ex.
  rewrite (proj2 (get_node_path_None _ (i + (ADDRS_PER_BLOCK - o)) ltac:(unfold ADDRS_PER_BLOCK; lia))); [reflexivity|].
  rewrite max_blocks_dn; unfold ADDRS_PER_BLOCK, dn_start in *; lia.
Qed.

End Trunc.
