(* ===== verification/FileMap.v ===== *)
(** What the node tree of a file promises: a file is a map from block indexes to block
    addresses.  The operations of node.c, data.c and file.c refine the operations on such a
    map, and truncation gives back exactly what it removes. *)

From Stdlib Require Import ZArith Lia Bool.
From stdpp Require Import base numbers list gmap.
From S2P Require Import Prelude Layout NodePath NodeTree NodeTreeInv NodeTreeOps NodeTrunc FileTrunc.

#[local] Open Scope Z_scope.
#[local] Ltac Zify.zify_post_hook ::= Z.to_euclidean_division_equations.

(** * Files *)

(** The tree [t] represents the file [f]; [b] is the part of [i_blocks] that is not in the
    tree: the inode itself, and the node of the extended attributes if there is one. *)
Definition file_rep (b : Z) (t : ftree) (f : Z -> Z) : Prop :=
  0 <= b /\ ft_inline_data t = false /\ exists G, rep b t G None f.

(** A new file: the inode has no blocks and no nodes. *)
Definition new_file (ino : Z) (inline_xattr : bool) : ftree :=
  mk_ft ino inline_xattr false (replicate 923 0) (replicate 5 0) ∅ 1 [] [] false.

Lemma new_file_rep ino x : file_rep 1 (new_file ino x) (fun _ => 0).
Proof.
  split; [lia|]; split; [reflexivity|]; exists ∅; constructor; cbn [new_file ft_addr ft_nid ft_pages ft_inline_xattr ft_blocks ft_bug]; try reflexivity.
  - intros c n E; rewrite lookup_empty in E; discriminate.
  - intros c V; unfold ptr_at, ptr_of; rewrite lookup_empty; cbn [from_option]; pose proof (slot_range c V) as Hs; destruct (tparent c); [rewrite lookup_empty; reflexivity|].
    apply (aget_replicate (A := Z)); lia.
  - intros c c' n E; rewrite lookup_empty in E; discriminate.
  - intros n [l E]; rewrite lookup_empty in E; discriminate.
  - intros c n E; rewrite lookup_empty in E; discriminate.
  - intros o Ho; symmetry; apply (aget_replicate (A := Z)); pose proof (addrs_per_inode_cases x); lia.
  - unfold mapped; rewrite count_below_none by reflexivity; reflexivity.
Qed.

(** * Operations *)

Inductive fop :=
| FRead (index : Z)
| FReserve (index : Z)
| FWrite (index enc_err : Z) (inplace : bool) (new : Z)
| FTruncate (from : Z)
| FPunch (pg_start pg_end : Z).

(** A call returns the address of a block, or an error code that is 0 on success. *)
Inductive fres := RAddr (addr : Z) | RCode (err : Z).

Definition fexec (w : tworld) (op : fop) (t : ftree) : outcome (fres * ftree) :=
  match op with
  | FRead i => '(r, t) ← get_dnode_of_data w false i LOOKUP_NODE t; Done (match r with inl e => RCode e | inr dn => RAddr (dn_addr dn) end, t)
  | FReserve i => '(r, t) ← f2fs_reserve_block w false i t; Done (match r with inl e => RCode e | inr dn => RAddr (dn_addr dn) end, t)
  | FWrite i enc inplace new => '(e, t) ← do_write_data_page w i enc inplace new t; Done (RCode e, t)
  | FTruncate from => '(e, t) ← truncate_blocks w from t; Done (RCode e, t)
  | FPunch a e => '(e, t) ← truncate_hole w a e t; Done (RCode e, t)
  end.

Fixpoint frun (ops : list (tworld * fop)) (t : ftree) : outcome (list fres * ftree) :=
  match ops with
  | [] => Done ([], t)
  | (w, op) :: ops => '(r, t) ← fexec w op t; '(rs, t) ← frun ops t; Done (r :: rs, t)
  end.

(** * The specification

    [fspec w op f r f' freed]: on the file [f] the call may return [r], leave the file [f']
    and free the blocks [freed]. *)
Definition fspec (x : bool) (w : tworld) (op : fop) (f : Z -> Z) (r : fres) (f' : Z -> Z) (freed : list Z) : Prop :=
  match op with
  | FRead i => f' = f /\ freed = [] /\ (r = RAddr (f i) \/ (r = RCode (- ENOENT) /\ f i = 0) \/ exists e, r = RCode e /\ failed w e)
  | FReserve i => freed = [] /\
      ((let a := if f i =? 0 then NEW_ADDR else f i in r = RAddr a /\ f' = upd f i a) \/ (f' = f /\ can_fail w /\ exists e, r = RCode e /\ e < 0))
  | FWrite i enc inplace new => freed = [] /\
      ((r = RCode 0 /\ f' = (if (f i =? 0) || (negb (f i =? NEW_ADDR) && inplace) then f else upd f i new)) \/
       (f' = f /\ exists e, r = RCode e /\ ((e = - ENOENT /\ f i = 0) \/ failed w e \/ (e = enc /\ enc < 0))))
  | FTruncate from =>
      let i := first_block from in
      (r = RCode 0 /\ f' = zero f i (max_blocks x) /\ freed = live f i (max_blocks x)) \/
      (exists e y, r = RCode e /\ failed w e /\ i <= y /\ f' = zero f i y /\ freed = live f i y)
  | FPunch a e => exists y, a <= y <= e /\ f' = zero f a y /\ freed = live f a y /\ ((r = RCode 0 /\ y = e) \/ exists err, r = RCode err /\ failed w err)
  end.

Inductive fruns (x : bool) : list (tworld * fop) -> (Z -> Z) -> list fres -> (Z -> Z) -> list Z -> Prop :=
| fruns_nil f : fruns x [] f [] f []
| fruns_cons w op ops f r f1 l1 rs f2 l2 :
    fspec x w op f r f1 l1 -> fruns x ops f1 rs f2 l2 -> fruns x ((w, op) :: ops) f (r :: rs) f2 (l1 ++ l2).

(** What the rest of the system guarantees: a node of the tree has an address, and
    [alloc_nid] hands out ids that are not in use. *)
Definition world_ok (w : tworld) (t : ftree) : Prop := (forall n, tw_page_err w n <> - ENOENT) /\ fresh_from w t 1.

(** The arguments the callers pass: blocks below the limit of the file size, and addresses
    of blocks.  A cut inside the last direct node of the largest possible file is left out. *)
Definition op_ok (x : bool) (op : fop) : Prop :=
  match op with
  | FRead i | FReserve i => 0 <= i < max_blocks x
  | FWrite i _ _ new => 0 <= i < max_blocks x /\ new <> 0
  | FTruncate from => first_block from <= dn_start x (n_dnodes - 1)
  | FPunch a e => 0 <= a <= e /\ e <= max_blocks x
  end.

Fixpoint calls_ok (x : bool) (ops : list (tworld * fop)) (t : ftree) : Prop :=
  match ops with
  | [] => True
  | (w, op) :: ops => world_ok w t /\ op_ok x op /\ forall r t', fexec w op t = Done (r, t') -> calls_ok x ops t'
  end.

(** * Simulation *)

Lemma read_sim b t G f w i : rep b t G None f -> ft_inline_data t = false -> world_ok w t -> 0 <= i < max_blocks (ft_inline_xattr t) ->
  exists r, fexec w (FRead i) t = Done (r, t) /\ fspec (ft_inline_xattr t) w (FRead i) f r f [].
Proof.
  intros R Hin [Herr _] Hi; cbn [fexec fspec]; destruct (dnode_lookup b t G f w false i R Hin Hi Herr) as (r & -> & Hr); cbn [mbind outcome_bind].
  eexists; split; [reflexivity|]; split; [reflexivity|]; split; [reflexivity|]; destruct r as [e | dn]; [|left; destruct Hr as [_ ->]; reflexivity].
  right; destruct Hr as [(-> & k & o & Hk & Ho & -> & EN) | (Hn & He & Hx)]; [left | right; exists e; split; [reflexivity | split; auto]].
  split; [reflexivity|]; apply (absent_dnode _ _ _ _ _ k _ R Hk EN); unfold dn_start; lia.
Qed.

Lemma write_sim b t G f w i enc inplace new : rep b t G None f -> ft_inline_data t = false -> world_ok w t -> 0 <= i < max_blocks (ft_inline_xattr t) -> new <> 0 ->
  exists r t' f', fexec w (FWrite i enc inplace new) t = Done (r, t') /\ fspec (ft_inline_xattr t) w (FWrite i enc inplace new) f r f' [] /\
    rep b t' G None f' /\ same_ledger t t'.
Proof.
  intros R Hin [Herr _] Hi Hnew; cbn [fexec fspec]; unfold do_write_data_page.
  assert (Hsame : forall e, ((e = 0 /\ ((f i =? 0) || (negb (f i =? NEW_ADDR) && inplace)) = true) \/ (e = - ENOENT /\ f i = 0) \/ failed w e \/ (e = enc /\ enc < 0)) ->
    exists r t' f', Done (RCode e, t) = Done (r, t') /\ ([] = @nil Z /\ ((r = RCode 0 /\ f' = (if (f i =? 0) || (negb (f i =? NEW_ADDR) && inplace) then f else upd f i new)) \/
       (f' = f /\ exists e, r = RCode e /\ ((e = - ENOENT /\ f i = 0) \/ failed w e \/ (e = enc /\ enc < 0))))) /\ rep b t' G None f' /\ same_ledger t t').
  { intros e He; exists (RCode e), t, f; split; [reflexivity|]; split; [split; [reflexivity|] | split; [exact R | repeat split]].
    destruct He as [[-> ->] | He]; [left; auto | right; eauto]. }
  destruct (dnode_lookup b t G f w false i R Hin Hi Herr) as (r & -> & Hr); cbn [mbind outcome_bind]; destruct r as [e | dn].
  - apply Hsame; right; destruct Hr as [(-> & k & o & Hk & Ho & -> & EN) | (Hn & He & Hx)]; [left | right; left; split; auto].
    split; [reflexivity|]; apply (absent_dnode _ _ _ _ _ k _ R Hk EN); unfold dn_start; lia.
  - destruct Hr as [HA ->]; unfold NULL_ADDR; destruct (f i =? 0) eqn:E0; cbn [mbind outcome_bind]; [apply Hsame; left; auto|].
    destruct (Z.ltb_spec enc 0); cbn [mbind outcome_bind]; [apply Hsame; auto|].
    destruct (negb (f i =? NEW_ADDR) && inplace) eqn:E1; cbn [mbind outcome_bind]; [apply Hsame; left; auto|]; bool_cases.
    eexists _, _, (upd f i new); split; [reflexivity|]; split; [auto|]; split; [exact (set_mapped_ok b t G f i _ _ new R HA E0 Hnew) | apply set_data_ledger].
Qed.

Lemma op_sim b t f w op : file_rep b t f -> world_ok w t -> op_ok (ft_inline_xattr t) op ->
  exists r t' f' freed, fexec w op t = Done (r, t') /\ fspec (ft_inline_xattr t) w op f r f' freed /\ file_rep b t' f' /\ same_file t t' /\
    ft_freed t' = ft_freed t ++ freed.
Proof.
  intros (Hb & Hin & G & R) Hw Hop; pose proof Hw as [Herr Hfr]; pose proof (first_block_nonneg) as Hfb.
  assert (Hkeep : forall t' G' f', rep b t' G' None f' -> same_file t t' -> file_rep b t' f').
  { intros t' G' f' R' (_ & _ & Ed); split; [exact Hb | split; [congruence | eauto]]. }
  destruct op as [i | i | i enc inplace new | from | a e]; cbn [op_ok] in Hop.
  - destruct (read_sim b t G f w i R Hin Hw Hop) as (r & -> & HS); exists r, t, f, []; split; [reflexivity|]; split; [exact HS|].
    split; [exact (Hkeep _ _ _ R (same_file_refl t)) | split; [apply same_file_refl | rewrite app_nil_r; reflexivity]].
  - cbn [fexec fspec]; destruct (reserve_ok b t G f w false i R Hin Hop Herr Hfr) as (r & t' & G' & -> & _ & (HF & Hfd & _) & Hr); cbn [mbind outcome_bind].
    destruct r as [e | dn]; [destruct Hr as (He & Hcf & R') | destruct Hr as (R' & _ & ->)]; eexists _, t', _, []; (split; [reflexivity|]).
    + split; [split; [reflexivity | right; split; [reflexivity | split; [exact Hcf | eauto]]]|]; split; [exact (Hkeep _ _ _ R' HF) | split; [exact HF | rewrite app_nil_r; exact Hfd]].
    + split; [split; [reflexivity | left; split; reflexivity]|]; split; [exact (Hkeep _ _ _ R' HF) | split; [exact HF | rewrite app_nil_r; exact Hfd]].
  - destruct Hop as [Hi Hnew]; destruct (write_sim b t G f w i enc inplace new R Hin Hw Hi Hnew) as (r & t' & f' & -> & HS & R' & (HF & Hfd & _)).
    exists r, t', f', []; split; [reflexivity|]; split; [exact HS|]; split; [exact (Hkeep _ _ _ R' HF) | split; [exact HF | rewrite app_nil_r; exact Hfd]].
  - cbn [fexec fspec]; assert (Hmax : first_block from < max_blocks (ft_inline_xattr t)) by (rewrite max_blocks_dn; unfold dn_start in *; lia).
    destruct (truncate_blocks_ok w Herr b t G f from R Hb Hin Hmax (or_intror Hop)) as (err & t' & -> & G' & _ & HT); cbn [mbind outcome_bind].
    destruct HT as [(-> & R' & (HF & _ & Hfd) & _) | (Hf & y & Hy & R' & (HF & _ & Hfd))]; eexists _, t', _, _; (split; [reflexivity|]).
    + split; [left; split; [reflexivity | split; reflexivity]|]; split; [exact (Hkeep _ _ _ R' HF) | split; [exact HF | exact Hfd]].
    + split; [right; exists err, y; repeat (split; [reflexivity || assumption|]); reflexivity|]; split; [exact (Hkeep _ _ _ R' HF) | split; [exact HF | exact Hfd]].
  - cbn [fexec fspec]; destruct Hop as [Ha He]; unfold truncate_hole.
    destruct (hole_ok w Herr b G Hb (Z.to_nat (e - a)) t f a R Hin ltac:(lia) ltac:(lia)) as (err & t' & y & -> & Hy & R' & (HF & _ & Hfd) & Hr); cbn [mbind outcome_bind].
    eexists _, t', _, _; split; [reflexivity|]; split; [|split; [exact (Hkeep _ _ _ R' HF) | split; [exact HF | exact Hfd]]].
    exists y; split; [lia|]; split; [reflexivity|]; split; [reflexivity|]; destruct Hr as [[-> ->] | Hf]; [left; split; [reflexivity | lia] | right; eauto].
Qed.

Lemma run_sim b : forall ops t f, file_rep b t f -> calls_ok (ft_inline_xattr t) ops t ->
  exists rs t' f' freed, frun ops t = Done (rs, t') /\ fruns (ft_inline_xattr t) ops f rs f' freed /\ file_rep b t' f' /\ same_file t t' /\
    ft_freed t' = ft_freed t ++ freed.
Proof.
  induction ops as [|[w op] ops IH]; intros t f HR Hc; cbn [frun].
  { exists [], t, f, []; split; [reflexivity|]; split; [constructor|]; split; [exact HR|]; split; [apply same_file_refl | rewrite app_nil_r; reflexivity]. }
  destruct Hc as (Hw & Hop & Hrest); destruct (op_sim b t f w op HR Hw Hop) as (r & t1 & f1 & l1 & E & HS & HR1 & HF1 & Hfd1).
  specialize (Hrest r t1 E); rewrite E; cbn [mbind outcome_bind]; pose proof HF1 as (_ & Ex & _); rewrite <- Ex in Hrest.
  destruct (IH t1 f1 HR1 Hrest) as (rs & t2 & f2 & l2 & -> & HS2 & HR2 & HF2 & Hfd2); cbn [mbind outcome_bind]; rewrite Ex in HS2.
  exists (r :: rs), t2, f2, (l1 ++ l2); split; [reflexivity|]; split; [econstructor; eassumption|]; split; [exact HR2|].
  split; [exact (same_file_trans _ _ _ HF1 HF2) | rewrite Hfd2, Hfd1, app_assoc; reflexivity].
Qed.

(** What the invariant says of the counters. *)
Lemma file_rep_counts b t f : file_rep b t f ->
  ft_blocks t = b + Z.of_nat (size (ft_pages t)) + mapped f (max_blocks (ft_inline_xattr t)) /\ ft_bug t = false.
Proof. intros (_ & _ & G & R); split; [exact (r_blocks _ _ _ _ _ R) | exact (r_bug _ _ _ _ _ R)]. Qed.

(** * Theorems *)


(** A world without errors that hands out the ids 11, 12 and 13, and one without ids. *)
Definition world_ex (nid : Z -> option Z) : tworld := mk_tw (fun _ => 0) false (fun _ => true) (fun _ => true) true nid ∅ 4.

Definition nids_ex (i : Z) : option Z := if (1 <=? i) && (i <=? 3) then Some (10 + i) else None.

Lemma world_ex_none t : world_ok (world_ex (fun _ => None)) t.
Proof. split; [intros n; vm_compute; congruence | intros j n Hj En; discriminate]. Qed.

Lemma world_ex_new ino x : world_ok (world_ex nids_ex) (new_file ino x).
Proof.
  split; [intros n; vm_compute; congruence|]; intros j n Hj En; cbn in En; unfold nids_ex in *.
  destruct ((1 <=? j) && (j <=? 3)) eqn:E; [|discriminate]; injection En as <-; bool_cases; split; [lia|]; split; [apply lookup_empty|].
  intros j' Hj' E'; cbn in E'; unfold nids_ex in E'; destruct ((1 <=? j') && (j' <=? 3)); [injection E' as E'; lia | discriminate].
Qed.

Definition ops_ex : list (tworld * fop) :=
  [(world_ex nids_ex, FReserve 5000); (world_ex (fun _ => None), FWrite 5000 0 false 777); (world_ex (fun _ => None), FRead 5000);
   (world_ex (fun _ => None), FTruncate 4096)].


(** C12: Truncating a file to nothing gives everything back: no node is left, every block
    of the file is freed once and in order, the nodes that are handed back are those there
    were, and [i_blocks] is what it is without them. *)
Theorem truncate_all_frees_all (b : Z) (t : ftree) (f : Z -> Z) (w : tworld)
  (HR : file_rep b t f) (Hw : forall n, 0 <= tw_page_err w n) :
  exists t', truncate_blocks w 0 t = Done (0, t') /\ file_rep b t' (fun _ => 0) /\ ft_pages t' = ∅ /\ ft_blocks t' = b /\
    ft_freed t' = ft_freed t ++ live f 0 (max_blocks (ft_inline_xattr t)) /\
    (forall n, n ∈ ft_gone t' <-> n ∈ ft_gone t \/ is_Some (ft_pages t !! n)) /\ ft_bug t' = false.
Proof.
  destruct HR as (Hb & Hin & G & R); assert (Herr : forall n, tw_page_err w n <> - ENOENT) by (intros n; specialize (Hw n); unfold ENOENT; lia).
  assert (Hfirst : first_block 0 = 0) by reflexivity.
  destruct (truncate_blocks_ok w Herr b t G f 0 R Hb Hin) as (err & t' & E & G' & _ & HT).
  { rewrite Hfirst; destruct (ft_inline_xattr t); reflexivity. }
  { right; rewrite Hfirst; destruct (ft_inline_xattr t); vm_compute; congruence. }
  rewrite Hfirst in HT; destruct HT as [(-> & R' & ((HF1 & HF2 & HF3) & [Hs Hg] & Hfd) & HN) | ((He & _ & n & En) & _)]; [|specialize (Hw n); lia].
  assert (HP : ft_pages t' = ∅).
  { apply map_empty; intros n; destruct (ft_pages t' !! n) eqn:El; [|reflexivity]; destruct (r_dom _ _ _ _ _ R' n (mk_is_Some _ _ El)) as [c Ec].
    specialize (HN c n Ec); destruct (r_closed _ _ _ _ _ R' c n Ec) as [V _]; pose proof (addrs_per_inode_cases (ft_inline_xattr t)).
    unfold node_first, dn_start in HN; destruct c; cbn in V; lia. }
  assert (R0 : rep b t' G' None (fun _ => 0)).
  { revert R'; apply rep_ext; intros i Hi; apply zero_in; rewrite HF2 in Hi; exact Hi. }
  exists t'; split; [exact E|]; split; [split; [exact Hb | split; [congruence | eauto]]|]; split; [exact HP|]; split; [|split; [exact Hfd | split; [|exact (r_bug _ _ _ _ _ R')]]].
  - rewrite (r_blocks _ _ _ _ _ R0), HP; unfold mapped; rewrite count_below_none by reflexivity; rewrite map_size_empty; lia.
  - intros n; rewrite Hg, HP, lookup_empty; tauto.
Qed.

(** A file with one block, below an indirect node. *)
Definition file_ex : ftree :=
  match fexec (world_ex nids_ex) (FReserve 5000) (new_file 4 true) with Done (_, t) => t | _ => new_file 4 true end.

Lemma world_ex_sound : ~ can_fail (world_ex nids_ex).
Proof.
  intros [[n H] | [(i & Hi & H) | [H | [[n H] | [[n H] | H]]]]]; cbn in H; try discriminate.
  unfold nids_ex in H; rewrite (proj2 (Z.leb_le 1 i)), (proj2 (Z.leb_le i 3)) in H by lia; discriminate.
Qed.

(** Reserving a block of a new file succeeds in that world. *)
Lemma reserve_ex i : 0 <= i < max_blocks true -> exists r t, fexec (world_ex nids_ex) (FReserve i) (new_file 4 true) = Done (r, t) /\ file_rep 1 t (upd (fun _ => 0) i NEW_ADDR).
Proof.
  intros Hi; destruct (op_sim 1 (new_file 4 true) (fun _ => 0) (world_ex nids_ex) (FReserve i) (new_file_rep 4 true) (world_ex_new 4 true) Hi) as (r & t & f & l & E & HS & HR & _).
  exists r, t; split; [exact E|]; destruct HS as [_ [[_ ->] | (_ & Hcf & _)]]; [exact HR | destruct (world_ex_sound Hcf)].
Qed.

Lemma file_ex_rep : file_rep 1 file_ex (upd (fun _ => 0) 5000 NEW_ADDR).
Proof. destruct (reserve_ex 5000) as (r & t & E & HR); [vm_compute; split; congruence|]; unfold file_ex; rewrite E; exact HR. Qed.

Lemma truncate_all_frees_all_witness :
  exists t', truncate_blocks (world_ex nids_ex) 0 file_ex = Done (0, t') /\ file_rep 1 t' (fun _ => 0) /\ ft_pages t' = ∅ /\ ft_blocks t' = 1 /\
    ft_freed t' = ft_freed file_ex ++ live (upd (fun _ => 0) 5000 NEW_ADDR) 0 (max_blocks (ft_inline_xattr file_ex)) /\
    (forall n, n ∈ ft_gone t' <-> n ∈ ft_gone file_ex \/ is_Some (ft_pages file_ex !! n)) /\ ft_bug t' = false.
Proof. apply (truncate_all_frees_all 1 file_ex _ (world_ex nids_ex) file_ex_rep); intros n; cbn; lia. Defined.

(** C13: When [truncate_blocks] runs into [BUG()].  Let the node pages be readable.  The
    call does not return exactly when the cut is at or behind the last block the tree can
    map, or inside the last direct node when that node is there: [free_from] is then moved
    behind the end of the tree, for which there is no path.  The size limit of a file
    admits both. *)
Theorem truncate_bug_iff (b : Z) (t : ftree) (f : Z -> Z) (w : tworld) (from : Z)
  (HR : file_rep b t f) (Hw : forall n, 0 <= tw_page_err w n) :
  let x := ft_inline_xattr t in
  truncate_blocks w from t = Bug <->
  max_blocks x <= first_block from \/
  (max_blocks x - ADDRS_PER_BLOCK < first_block from /\
   exists dn, get_dnode_of_data w true (max_blocks x - 1) LOOKUP_NODE t = Done (inr dn, t)).
Proof.
  destruct HR as (Hb & Hin & G & R); cbv zeta; assert (Herr : forall n, tw_page_err w n <> - ENOENT) by (intros n; specialize (Hw n); unfold ENOENT; lia).
  assert (Hpage : inode_page_err w t = 0) by (unfold inode_page_err; rewrite (proj2 (Z.ltb_ge _ 0)) by apply Hw; reflexivity).
  assert (Hmax : max_blocks (ft_inline_xattr t) = dn_start (ft_inline_xattr t) (n_dnodes - 1) + 1018 /\ 0 <= dn_start (ft_inline_xattr t) (n_dnodes - 1)) by (rewrite max_blocks_dn; pose proof (addrs_per_inode_cases (ft_inline_xattr t)); unfold dn_start, n_dnodes; lia).
  assert (Hlook : (exists dn, get_dnode_of_data w true (max_blocks (ft_inline_xattr t) - 1) LOOKUP_NODE t = Done (inr dn, t)) <-> is_Some (G !! ND (n_dnodes - 1))).
  { destruct (dnode_lookup b t G f w true (max_blocks (ft_inline_xattr t) - 1) R Hin ltac:(lia) Herr) as (r & E & Hr); rewrite E; split.
    - intros [dn [= ->]]; destruct Hr as [[(_ & _ & Hlt) | (k & n & _ & En & Hk & Ho & Ei)] _]; [unfold dn_start, n_dnodes in *; lia|].
      replace (n_dnodes - 1) with k by (unfold dn_start in *; lia); eauto.
    - intros [n En]; destruct r as [e | dn]; [|eauto]; exfalso; destruct Hr as [(_ & k & o & Hk & Ho & Ei & EN) | (_ & He & m & Em)]; [|specialize (Hw m); lia].
      replace k with (n_dnodes - 1) in EN by (unfold dn_start in *; lia); congruence. }
  rewrite Hlook; unfold ADDRS_PER_BLOCK; split.
  - intros HB; destruct (Z.le_gt_cases (max_blocks (ft_inline_xattr t)) (first_block from)) as [|Hlt]; [left; assumption | right].
    destruct (Z.le_gt_cases (first_block from) (dn_start (ft_inline_xattr t) (n_dnodes - 1))) as [Hle | Hgt].
    + destruct (truncate_blocks_ok w Herr b t G f from R Hb Hin Hlt (or_intror Hle)) as (err & t' & E & _); congruence.
    + split; [lia|]; destruct (G !! ND (n_dnodes - 1)) eqn:EN; [eauto|].
      destruct (truncate_blocks_ok w Herr b t G f from R Hb Hin Hlt (or_introl EN)) as (err & t' & E & _); congruence.
  - intros [Hge | [Hgt HS]]; [exact (truncate_behind w t from Hpage Hin Hge)|].
    destruct (Z.le_gt_cases (max_blocks (ft_inline_xattr t)) (first_block from)) as [Hge | Hlt]; [exact (truncate_behind w t from Hpage Hin Hge)|].
    apply (truncate_last w Herr b t G f from R Hb Hin Hw HS); lia.
Qed.

(** A file with the last block the tree can map. *)
Definition last_ex : ftree :=
  match fexec (world_ex nids_ex) (FReserve (max_blocks true - 1)) (new_file 4 true) with Done (_, t) => t | _ => new_file 4 true end.

Lemma last_ex_rep : file_rep 1 last_ex (upd (fun _ => 0) (max_blocks true - 1) NEW_ADDR).
Proof. destruct (reserve_ex (max_blocks true - 1)) as (r & t & E & HR); [vm_compute; split; congruence|]; unfold last_ex; rewrite E; exact HR. Qed.

Lemma truncate_bug_iff_witness : truncate_blocks (world_ex nids_ex) ((max_blocks true - 1) * 4096) last_ex = Bug.
Proof.
  apply (truncate_bug_iff 1 last_ex _ (world_ex nids_ex) _ last_ex_rep); [intros n; cbn; lia|].
  right; split; [vm_compute; reflexivity | eexists; vm_compute; reflexivity].
Defined.
