(* ===== verification/ReadAhead.v ===== *)
(** Looking up a block with read-ahead of the sibling nodes (node.c: get_node_page_ra, the
    mode LOOKUP_NODE_RA of get_dnode_of_data). *)

From Stdlib Require Import ZArith Lia Bool.
From stdpp Require Import base numbers list gmap.
From S2P Require Import Prelude Layout NodePath NodeTree NodeTreeInv NodeTreeOps NodeTrunc FileTrunc FileMap.

#[local] Open Scope Z_scope.
#[local] Ltac Zify.zify_post_hook ::= Z.to_euclidean_division_equations.

Section Readable.
Variables (w : tworld) (b : Z) (t : ftree) (G : gmap tnode Z) (f : Z -> Z).
Hypothesis Hread : forall n, 0 <= tw_page_err w n.
Hypothesis R : rep b t G None f.
Hypothesis Hin : ft_inline_data t = false.

Lemma readable_page c n : G !! c = Some n -> exists l, get_node_page w t n = inr l.
Proof.
  intros E; destruct (rep_get_page _ _ _ _ _ c n w R E) as [H | [_ He]]; [exact H | specialize (Hread n); lia].
Qed.

Lemma page_0 : get_node_page w t 0 = inl (- ENOENT).
Proof. destruct (rep_get_page_0 _ _ _ _ _ w R) as [E | [_ He]]; [exact E | specialize (Hread 0); lia]. Qed.

Lemma inode_readable : inode_page_err w t = 0.
Proof. unfold inode_page_err; rewrite (proj2 (Z.ltb_ge _ 0)) by apply Hread; reflexivity. Qed.

(** The plain lookup, with the id of the node it finds. *)
Lemma lookup_node k o : 0 <= k < n_dnodes -> 0 <= o < 1018 ->
  get_dnode_of_data w true (dn_start (ft_inline_xattr t) k + o) LOOKUP_NODE t =
  Done (match G !! ND k with Some n => inr (mk_dn n (Some n) o (f (dn_start (ft_inline_xattr t) k + o))) | None => inl (- ENOENT) end, t).
Proof.
  intros Hk Ho; destruct (dnode_of_path b t G f w true LOOKUP_NODE k o R Hin Hk Ho) as (c & cs & offset & level & Ec & -> & Hoff0 & Hoff & ->); cbn [negb andb].
  pose proof (chain_linked k Hk) as HL; rewrite Ec in HL |- *; assert (Herr : forall n, tw_page_err w n <> - ENOENT) by (intros n; specialize (Hread n); unfold ENOENT; lia).
  destruct (levels_walk w offset (1 + zlen cs) LOOKUP_NODE b t G f R
    (fun c i par page => level_lookup w LOOKUP_NODE offset (1 + zlen cs) b t G f c i par page (or_introl eq_refl) Herr R) cs c 1 None None HL eq_refl eq_refl Hoff Hoff0) as (r & -> & Hr).
  rewrite <- Ec, last_chain in Hr; cbn [mbind outcome_bind]; destruct r as [e | [n page]].
  - destruct Hr as [[-> Hn] | (_ & He & m & Em)]; [rewrite (Hn _ eq_refl); reflexivity | specialize (Hread m); lia].
  - destruct Hr as (d & [= <-] & En & ->); rewrite En; do 4 f_equal.
    apply (rep_entry _ _ _ _ _ _ _ _ R); right; exists k, n; auto 10.
Qed.

(** The walk with read-ahead: the last page comes from [get_node_page_ra]. *)
Lemma levels_ra offset level n : forall l c i par page, linked par (c :: l) -> page_of G par page -> level = i + zlen l -> 1 < level ->
  (forall j d, l !! j = Some d -> offset.[i + Z.of_nat j] = tslot d) -> (forall d, d ∈ c :: l -> is_Some (G !! d)) ->
  last (c :: l) = Some (ND n) -> 2 <= n -> (l = [] -> exists m, par = Some m /\ offset.[i - 1] = tslot c) ->
  exists q pn, tparent (ND n) = Some q /\ G !! q = Some pn /\
  dnode_levels (length (c :: l)) w LOOKUP_NODE_RA offset level i page (default 0 (G !! c)) t =
    (r ← get_node_page_ra w t (Some pn) (tslot (ND n)); Done (match r with inl e => inl e | inr pg => inr (default 0 (G !! ND n), Some pg) end, t)).
Proof.
  induction l as [|d l IH]; intros c i par page HL HP Hlev Hl1 Hoff Hall Hlast Hn Hend; cbn [length dnode_levels dnode_level].
  - destruct (Hend eq_refl) as (q & -> & Eo); destruct HP as (pn & Epn & ->); injection Hlast as ->; destruct HL as (Ep & _); unfold zlen in Hlev; cbn in Hlev.
    exists q, pn; split; [exact Ep|]; split; [exact Epn|]; rewrite (proj2 (Z.eqb_eq i level)), (proj2 (Z.ltb_lt 1 level)) by lia; cbn [andb]; rewrite Eo.
    destruct (get_node_page_ra w t (Some pn) (tslot (ND n))) as [[e | pg] | |]; cbn [mbind outcome_bind]; try reflexivity.
    rewrite (proj2 (Z.ltb_ge i level)) by lia; reflexivity.
  - rewrite (proj2 (Z.eqb_neq i level)) by (unfold zlen in Hlev; cbn in Hlev; lia); cbn [andb].
    destruct (Hall c ltac:(constructor)) as [nc Ec]; rewrite Ec; cbn [from_option id]; destruct (readable_page c nc Ec) as [pg ->]; cbn [mbind outcome_bind].
    rewrite (proj2 (Z.ltb_lt i level)) by (unfold zlen in Hlev; cbn in Hlev; lia); destruct HL as (_ & _ & HL); pose proof HL as (Ep & Vd & _).
    assert (HP' : page_of G (Some c) (Some nc)) by (exists nc; auto).
    assert (Eo : offset.[i] = tslot d) by (pose proof (Hoff O d eq_refl) as Eo; replace (i + Z.of_nat 0) with i in Eo by lia; exact Eo).
    replace (get_nid t (Some nc) (offset.[i])) with (default 0 (G !! d)).
    2:{ rewrite Eo; symmetry; apply (rep_get_nid _ _ _ _ _ d _ _ R Vd); exact (page_of_holder G d (Some c) (Some nc) Ep HP'). }
    apply (IH d (i + 1) (Some c) (Some nc) HL HP'); [unfold zlen in *; cbn in Hlev; lia | exact Hl1 | | | exact Hlast | exact Hn |].
    + intros j d' Ej; replace (i + 1 + Z.of_nat j) with (i + Z.of_nat (S j)) by lia; exact (Hoff (S j) d' Ej).
    + intros d' Hd'; apply Hall; constructor; exact Hd'.
    + intros _; exists c; split; [reflexivity|]; replace (i + 1 - 1) with i by lia; exact Eo.
Qed.

(** A node of the tree has its path in the tree. *)
Lemma path_present k n : G !! ND k = Some n -> forall d, d ∈ chain k -> is_Some (G !! d).
Proof.
  intros E d Hd; destruct (r_closed _ _ _ _ _ R _ n E) as [V Hp]; revert Hd; unfold chain; cbn in Hp.
  destruct (k <? 2); [intros Hd; apply list_elem_of_singleton in Hd as ->; eauto|].
  destruct (Hp _ eq_refl) as [nm Em]; destruct (r_closed _ _ _ _ _ R _ nm Em) as [_ Hp']; cbn in Hp'.
  destruct ((k - 2) / 1018 <? 2); rewrite !elem_of_cons, elem_of_nil.
  - intros [-> | [-> | []]]; eauto.
  - intros [-> | [-> | [-> | []]]]; eauto.
Qed.

Lemma last_map_zseq {A} (g : Z -> A) a n d : List.last (map g (zseq a n)) d = match n with O => d | S m => g (a + Z.of_nat m) end.
Proof.
  revert a d; induction n as [|n IH]; intros a d; [reflexivity|]; cbn [zseq map List.last]; specialize (IH (a + 1) d); destruct n as [|n]; [cbn; f_equal; lia|].
  cbn [zseq map] in IH |- *; rewrite IH; f_equal; lia.
Qed.

Lemma fold_ra_in n sibs : forall c, (n ∈ c \/ n ∈ sibs) -> n <> 0 -> (exists l, get_node_page w t n = inr l) -> n ∈ fold_left (fun c m => ra_node_page w t m c) sibs c.
Proof.
  intros c H Hn Hl; revert c H; induction sibs as [|s sibs IH]; intros c H; cbn [fold_left]; [destruct H as [H | H]; [exact H | destruct (not_elem_of_nil _ H)]|].
  apply IH; rewrite elem_of_cons in H; destruct H as [H | [-> | H]]; [left | left | right; exact H]; unfold ra_node_page.
  - destruct (s =? 0); [exact H|]; destruct (get_node_page w t s); [exact H | apply elem_of_union_r; exact H].
  - rewrite (proj2 (Z.eqb_neq s 0)) by exact Hn; destruct Hl as [l ->]; apply elem_of_union_l, elem_of_singleton; reflexivity.
Qed.

(** How far the sibling is whose id the read-ahead leaves behind. *)
Definition ra_distance (k : Z) : Z := Z.min (MAX_RA_NODE - 1) (1017 - (k - 2) mod 1018).

(** The page [get_node_page_ra] gives for direct node [k] when it is not in the cache. *)
Lemma ra_page k n pm : 2 <= k < n_dnodes -> G !! ND k = Some n -> G !! NI ((k - 2) / 1018) = Some pm -> n ∉ tw_cached w ->
  get_node_page_ra w t (Some pm) ((k - 2) mod 1018) =
  Done (match G !! ND (k + ra_distance k) with
        | Some n' => inr (if n mod tw_node_count w =? n' mod tw_node_count w then n else n')
        | None => if n mod tw_node_count w =? 0 mod tw_node_count w then inr n else inl (- ENOENT)
        end).
Proof.
  intros Hk En Em Hc; set (m := (k - 2) / 1018) in *; set (j := (k - 2) mod 1018) in *.
  assert (Hm : 0 <= m < 1020 /\ 0 <= j < 1018 /\ k = 2 + 1018 * m + j) by (unfold m, j, n_dnodes in *; lia).
  assert (Hget : forall i, 0 <= i < 1018 -> get_nid t (Some pm) i = default 0 (G !! ND (2 + 1018 * m + i))).
  { intros i Hi; destruct (child_of m i Hi ltac:(lia)) as [Ep Es].
    apply (rep_get_nid _ _ _ _ _ (ND (2 + 1018 * m + i)) _ _ R); [cbn; unfold n_dnodes; lia | unfold holder; rewrite Ep, Es; eauto]. }
  destruct (r_page _ _ _ _ _ R _ n En) as [Hn _]; destruct Hm as (Hm & Hj & Ek); pose proof (Hget j Hj) as Ej; rewrite <- Ek, En in Ej; cbn [from_option id] in Ej.
  unfold get_node_page_ra; rewrite Ej, (proj2 (Z.eqb_neq n 0)) by exact Hn; cbn [ra_repeat].
  destruct (readable_page (ND k) n En) as [l ->]; rewrite bool_decide_false by exact Hc; cbv zeta.
  set (sibs := ra_siblings t (Some pm) j); set (d := ra_distance k).
  assert (Hd : d = Z.min 127 (1017 - j)) by reflexivity.
  assert (El : List.last sibs n = default 0 (G !! ND (k + d)) /\ (0 < d -> default 0 (G !! ND (k + d)) ∈ sibs)).
  { unfold sibs, ra_siblings, MAX_RA_NODE, NIDS_PER_BLOCK; rewrite last_map_zseq; destruct (Z.to_nat (Z.min (j + 128) 1018 - (j + 1))) as [|c] eqn:Ec.
    - replace (k + d) with k by lia; rewrite En; split; [reflexivity | lia].
    - replace (k + d) with (2 + 1018 * m + (j + d)) by lia; rewrite <- Hget by lia; replace (j + 1 + Z.of_nat c) with (j + d) by lia; split; [reflexivity|].
      intros Hd0; rewrite list_elem_of_fmap; exists (j + d); split; [reflexivity|]; apply elem_of_zseq; lia. }
  destruct El as [-> Hin']; destruct (G !! ND (k + d)) as [n'|] eqn:En'; cbn [from_option id] in *.
  - destruct (Z.eqb_spec (n mod tw_node_count w) (n' mod tw_node_count w)) as [Eq | Hne]; [reflexivity|].
    destruct (readable_page (ND (k + d)) n' En') as [l' El']; rewrite El', bool_decide_true; [reflexivity|].
    apply fold_ra_in; [right; apply Hin' | exact (proj1 (r_page _ _ _ _ _ R _ n' En')) | eauto].
    assert (d <> 0) by (intros E0; rewrite E0, Z.add_0_r, En in En'; congruence); lia.
  - destruct (Z.eqb_spec (n mod tw_node_count w) (0 mod tw_node_count w)); [reflexivity|]; rewrite page_0; reflexivity.
Qed.

(** The lookup with read-ahead of a block whose direct node is not in the cache. *)
Lemma lookup_ra k o n : 2 <= k < n_dnodes -> 0 <= o < 1018 -> G !! ND k = Some n -> n ∉ tw_cached w ->
  let k' := k + ra_distance k in
  get_dnode_of_data w true (dn_start (ft_inline_xattr t) k + o) LOOKUP_NODE_RA t =
  Done (match G !! ND k' with
        | Some n' => inr (if n mod tw_node_count w =? n' mod tw_node_count w then mk_dn n (Some n) o (f (dn_start (ft_inline_xattr t) k + o))
                          else mk_dn n (Some n') o (f (dn_start (ft_inline_xattr t) k' + o)))
        | None => if n mod tw_node_count w =? 0 mod tw_node_count w then inr (mk_dn n (Some n) o (f (dn_start (ft_inline_xattr t) k + o))) else inl (- ENOENT)
        end, t).
Proof.
  intros Hk Ho En Hc k'; assert (Hk0 : 0 <= k < n_dnodes) by lia.
  destruct (dnode_of_path b t G f w true LOOKUP_NODE_RA k o R Hin Hk0 Ho) as (c & cs & offset & level & Ec & -> & _ & Hoff & ->); cbn [negb andb].
  pose proof (chain_linked k Hk0) as HL; pose proof (path_present k n En) as HP; pose proof (last_chain k) as Hlast.
  assert (Hlen : cs <> []) by (intros ->; unfold chain in Ec; rewrite (proj2 (Z.ltb_ge k 2)) in Ec by lia; destruct ((k - 2) / 1018 <? 2); discriminate).
  rewrite Ec in HL, HP, Hlast |- *.
  destruct (levels_ra offset (1 + zlen cs) k cs c 1 None None HL eq_refl eq_refl) as (q & pm & Eq & Em & ->); [destruct cs; [contradiction | unfold zlen; cbn; lia] | exact Hoff | exact HP | exact Hlast | lia | intros ->; contradiction|].
  assert (Et : tparent (ND k) = Some (NI ((k - 2) / 1018)) /\ tslot (ND k) = (k - 2) mod 1018) by (cbn; rewrite (proj2 (Z.ltb_ge k 2)) by lia; auto).
  destruct Et as [Et Es]; rewrite Et in Eq; injection Eq as <-; rewrite Es, (ra_page k n pm Hk En Em Hc), En; cbn [from_option id].
  assert (Hent : forall k n, 0 <= k < n_dnodes -> G !! ND k = Some n -> datablock_addr t (Some n) o = f (dn_start (ft_inline_xattr t) k + o)).
  { intros k1 n1 Hk1 E1; apply (rep_entry _ _ _ _ _ _ _ _ R); right; exists k1, n1; auto 10. }
  fold k'; destruct (G !! ND k') as [n'|] eqn:En'.
  - destruct (n mod tw_node_count w =? n' mod tw_node_count w); cbn [mbind outcome_bind]; [rewrite (Hent k n Hk0 En) | rewrite (Hent k' n' (proj1 (r_closed _ _ _ _ _ R _ n' En')) En')]; reflexivity.
  - destruct (n mod tw_node_count w =? 0 mod tw_node_count w); cbn [mbind outcome_bind]; [rewrite (Hent k n Hk0 En)|]; reflexivity.
Qed.

End Readable.

(** C14: What a lookup with read-ahead returns.  Take a block behind the two direct nodes of
    the inode whose direct node is not in the page cache, and the block at the same place
    of the last sibling node that is read ahead.  When the two nodes are in different file
    cells, the lookup returns the address of the other block, or [-ENOENT] when that node
    does not exist; only when they are in the same cell it returns the address of the
    block. *)
Theorem readahead_returns_sibling (b : Z) (t : ftree) (f : Z -> Z) (w : tworld) (i : Z) (dn : dnode_of_data)
  (HR : file_rep b t f) (Hw : forall n, 0 <= tw_page_err w n)
  (Hi : dn_start (ft_inline_xattr t) 2 <= i < max_blocks (ft_inline_xattr t))
  (Hdn : get_dnode_of_data w true i LOOKUP_NODE t = Done (inr dn, t)) (Hc : dn_nid dn ∉ tw_cached w) :
  let i' := i + 1018 * ra_distance ((i - addrs_per_inode (ft_inline_xattr t)) / 1018) in
  dn_addr dn = f i /\
  match get_dnode_of_data w true i' LOOKUP_NODE t with
  | Done (inr dn', _) =>
      get_dnode_of_data w true i LOOKUP_NODE_RA t =
      Done (inr (if dn_nid dn mod tw_node_count w =? dn_nid dn' mod tw_node_count w then dn
                 else mk_dn (dn_nid dn) (dn_page dn') (dn_ofs dn) (f i')), t)
  | _ =>
      get_dnode_of_data w true i LOOKUP_NODE_RA t =
      Done (if dn_nid dn mod tw_node_count w =? 0 mod tw_node_count w then inr dn else inl (- ENOENT), t)
  end.
Proof.
  destruct HR as (Hb & Hin & G & R); set (k := (i - addrs_per_inode (ft_inline_xattr t)) / 1018); set (o := (i - addrs_per_inode (ft_inline_xattr t)) mod 1018).
  assert (Hk : 2 <= k < n_dnodes /\ 0 <= o < 1018 /\ i = dn_start (ft_inline_xattr t) k + o) by (rewrite max_blocks_dn in Hi; unfold k, o, dn_start, n_dnodes in *; lia).
  destruct Hk as (Hk & Ho & Ei); assert (Hk' : 0 <= k + ra_distance k < n_dnodes) by (unfold ra_distance, MAX_RA_NODE, n_dnodes in *; lia).
  intros i'; assert (Ei' : i' = dn_start (ft_inline_xattr t) (k + ra_distance k) + o) by (unfold i'; rewrite Ei; unfold dn_start; lia); rewrite Ei in Hdn.
  rewrite (lookup_node w b t G f Hw R Hin k o ltac:(lia) Ho) in Hdn; destruct (G !! ND k) as [n|] eqn:En; [|discriminate]; injection Hdn as <-; cbn [dn_nid dn_addr dn_ofs] in *.
  rewrite Ei', Ei; split; [reflexivity|]; rewrite (lookup_node w b t G f Hw R Hin (k + ra_distance k) o Hk' Ho), (lookup_ra w b t G f Hw R Hin k o n Hk Ho En Hc); cbv zeta.
  destruct (G !! ND (k + ra_distance k)) as [n'|]; reflexivity.
Qed.

(** Two blocks below the same indirect node, 127 direct nodes apart; their nodes have the
    ids 12 and 22, which are in different cells when there are four. *)
Definition nids2_ex (i : Z) : option Z := if i =? 2 then Some 22 else None.

Definition two_blocks : list (tworld * fop) :=
  [(world_ex nids_ex, FReserve 5000); (world_ex (fun _ => None), FWrite 5000 0 false 777);
   (world_ex nids2_ex, FReserve 134286); (world_ex (fun _ => None), FWrite 134286 0 false 888)].

Definition two_ex : ftree := match frun two_blocks (new_file 4 true) with Done (_, t) => t | _ => new_file 4 true end.

(** The pages of the file after the first two calls are 11 and 12. *)
Lemma two_blocks_fresh r1 t1 r2 t2 :
  fexec (world_ex nids_ex) (FReserve 5000) (new_file 4 true) = Done (r1, t1) ->
  fexec (world_ex (fun _ => None)) (FWrite 5000 0 false 777) t1 = Done (r2, t2) -> world_ok (world_ex nids2_ex) t2.
Proof.
  intros E1 E2; assert (H22 : ft_pages t2 !! 22 = None).
  { assert (H : match fexec (world_ex nids_ex) (FReserve 5000) (new_file 4 true) with
                | Done (_, t1) => match fexec (world_ex (fun _ => None)) (FWrite 5000 0 false 777) t1 with Done (_, t2) => ft_pages t2 !! 22 | _ => None end
                | _ => None end = None) by (vm_compute; reflexivity).
    rewrite E1, E2 in H; exact H. }
  split; [intros n; vm_compute; congruence|]; intros j n Hj En; cbn in En; unfold nids2_ex in *; destruct (Z.eqb_spec j 2) as [-> |]; [|discriminate].
  injection En as <-; split; [lia|]; split; [exact H22|]; intros j' _ E'; cbn in E'; unfold nids2_ex in E'; destruct (Z.eqb_spec j' 2); [assumption | discriminate].
Qed.

Lemma two_ex_rep : exists f, file_rep 1 two_ex f.
Proof.
  destruct (run_sim 1 two_blocks (new_file 4 true) _ (new_file_rep 4 true)) as (rs & t & f & freed & E & _ & HR & _).
  - split; [apply world_ex_new|]; split; [vm_compute; split; congruence|]; intros r1 t1 E1.
    split; [apply world_ex_none|]; split; [split; [vm_compute; split|]; congruence|]; intros r2 t2 E2.
    split; [exact (two_blocks_fresh r1 t1 r2 t2 E1 E2)|]; split; [vm_compute; split; congruence|]; intros _ t3 _.
    split; [apply world_ex_none|]; split; [split; [vm_compute; split|]; congruence|]; intros _ t4 _; exact I.
  - exists f; unfold two_ex; rewrite E; exact HR.
Qed.

Lemma readahead_returns_sibling_witness :
  get_dnode_of_data (world_ex nids_ex) true 5000 LOOKUP_NODE two_ex = Done (inr (mk_dn 12 (Some 12) 55 777), two_ex) /\
  exists f, f 5000 = 777 /\ get_dnode_of_data (world_ex nids_ex) true 5000 LOOKUP_NODE_RA two_ex = Done (inr (mk_dn 12 (Some 22) 55 (f 134286)), two_ex).
Proof.
  assert (E1 : get_dnode_of_data (world_ex nids_ex) true 5000 LOOKUP_NODE two_ex = Done (inr (mk_dn 12 (Some 12) 55 777), two_ex)) by (vm_compute; reflexivity).
  assert (E2 : get_dnode_of_data (world_ex nids_ex) true 134286 LOOKUP_NODE two_ex = Done (inr (mk_dn 22 (Some 22) 55 888), two_ex)) by (vm_compute; reflexivity).
  split; [exact E1|]; destruct two_ex_rep as [f HR]; exists f.
  destruct (readahead_returns_sibling 1 two_ex f (world_ex nids_ex) 5000 _ HR ltac:(intros n; cbn; lia) ltac:(vm_compute; split; congruence) E1 (not_elem_of_empty _)) as [Ea H].
  split; [symmetry; exact Ea|].
  change (5000 + 1018 * ra_distance ((5000 - addrs_per_inode (ft_inline_xattr two_ex)) / 1018)) with 134286 in H; rewrite E2 in H; exact H.
Defined.
