(* ===== verification/Collapse.v ===== *)
(** Removing a range of blocks from the middle of a file (src/Max/file.c:
    f2fs_do_collapse, f2fs_collapse_range): the blocks behind the range move to the front,
    one lookup, truncation and reservation after the other. *)

From Stdlib Require Import ZArith Lia Bool.
From stdpp Require Import base numbers list gmap.
From S2P Require Import Prelude Layout NodePath NodeTree NodeTreeInv NodeTreeOps NodeTrunc FileTrunc FileMap.

#[local] Open Scope Z_scope.
#[local] Ltac Zify.zify_post_hook ::= Z.to_euclidean_division_equations.

(** * Definitions *)

(** [f2fs_replace_block] on the entry of [dn]; the segment manager's part of it does not
    touch the tree. *)
Definition f2fs_replace_block (dn : dnode_of_data) (new_addr : Z) (t : ftree) : ftree :=
  set_data_blkaddr (dn_page dn) (dn_ofs dn) new_addr t.

(** The block at [pg_start] becomes [new_addr]. *)
Definition collapse_move (w : tworld) (pg_start new_addr : Z) (t : ftree) : outcome (Z * ftree) :=
  if inode_page_err w t <? 0 then Done (inode_page_err w t, t)
  else
    '(r, t) ← f2fs_reserve_block w true pg_start t;
    match r with
    | inl err => Done (err, t)
    | inr dn =>
        let old_addr := dn_addr dn in
        if negb (old_addr =? NEW_ADDR) && (new_addr =? NEW_ADDR) then
          Done (0, set_data_blkaddr (dn_page dn) (dn_ofs dn) new_addr
                     (with_tally (ft_blocks t) (ft_freed t ++ [old_addr]) (ft_gone t) (ft_bug t) t))
        else if negb (new_addr =? NEW_ADDR) then Done (0, f2fs_replace_block dn new_addr t)
        else Done (0, t)
    end.

(** The block at [pg_start] becomes a hole. *)
Definition collapse_drop (w : tworld) (pg_start : Z) (t : ftree) : outcome (Z * ftree) :=
  '(r, t) ← get_dnode_of_data w false pg_start LOOKUP_NODE_RA t;
  match r with
  | inl err => Done (if err =? - ENOENT then 0 else err, t)
  | inr dn => Done (0, if dn_addr dn =? NULL_ADDR then t else snd (truncate_data_blocks_range (dn_page dn) (dn_ofs dn) 1 t))
  end.

(** One round of the loop of [f2fs_do_collapse]. *)
Definition collapse_block (w : tworld) (pg_start pg_end : Z) (t : ftree) : outcome (Z * ftree) :=
  '(r, t) ← get_dnode_of_data w false pg_end LOOKUP_NODE_RA t;
  match r with
  | inl err => if err =? - ENOENT then collapse_drop w pg_start t else Done (err, t)
  | inr dn =>
      let new_addr := dn_addr dn in
      let t := snd (truncate_data_blocks_range (dn_page dn) (dn_ofs dn) 1 t) in
      if new_addr =? NULL_ADDR then collapse_drop w pg_start t else collapse_move w pg_start new_addr t
  end.

(** The rounds; [ws] is what the rest of the system answers in the round for a block. *)
Fixpoint collapse_from (n : nat) (ws : Z -> tworld) (pg_start pg_end : Z) (t : ftree) : outcome (Z * ftree) :=
  match n with
  | O => Done (0, t)
  | S n =>
      '(ret, t) ← collapse_block (ws pg_start) pg_start pg_end t;
      if ret =? 0 then collapse_from n ws (pg_start + 1) (pg_end + 1) t else Done (ret, t)
  end.

Definition f2fs_do_collapse (ws : Z -> tworld) (i_size pg_start pg_end : Z) (t : ftree) : outcome (Z * ftree) :=
  let nrpages := (i_size + F2FS_BLKSIZE - 1) / F2FS_BLKSIZE in
  collapse_from (Z.to_nat (nrpages - pg_end)) ws pg_start pg_end t.

(** [wb_err] is the error of writing out the dirty pages, [w] the world of the final
    truncation; the result has the new size of the file. *)
Definition f2fs_collapse_range (ws : Z -> tworld) (w : tworld) (is_reg : bool) (wb_err i_size offset len : Z) (t : ftree)
    : outcome (Z * Z * ftree) :=
  if negb is_reg then Done (- EINVAL, i_size, t)
  else if i_size <=? offset + len then Done (- EINVAL, i_size, t)
  else if negb (Z.land offset (F2FS_BLKSIZE - 1) =? 0) || negb (Z.land len (F2FS_BLKSIZE - 1) =? 0) then Done (- EINVAL, i_size, t)
  else
    let pg_start := Z.shiftr offset PAGE_CACHE_SHIFT in
    let pg_end := Z.shiftr (offset + len) PAGE_CACHE_SHIFT in
    if negb (wb_err =? 0) then Done (wb_err, i_size, t)
    else
      '(ret, t) ← f2fs_do_collapse ws i_size pg_start pg_end t;
      if negb (ret =? 0) then Done (ret, i_size, t)
      else
        let new_size := i_size - len in
        '(ret, t) ← truncate_blocks w new_size t;
        Done (ret, if ret =? 0 then new_size else i_size, t).


(** * One round *)

Lemma fresh_rep b b' t t' G s s' f f' w i : rep b t G s f -> rep b' t' G s' f' -> fresh_from w t i -> fresh_from w t' i.
Proof.
  intros R R' H j n Hj En; destruct (H j n Hj En) as (Hn & E & Hu); split; [exact Hn|]; split; [|exact Hu].
  destruct (ft_pages t' !! n) as [l|] eqn:El; [|reflexivity]; destruct (r_dom _ _ _ _ _ R' n (mk_is_Some _ _ El)) as [c Ec].
  destruct (rep_lookup _ _ _ _ _ c n R Ec) as (l0 & E0 & _); congruence.
Qed.

Lemma failed_can_fail w e : failed w e -> e < 0 /\ can_fail w.
Proof. intros (He & _ & n & En); split; [exact He | left; exists n; lia]. Qed.

(** What a step leaves: the file [f'] when it succeeds, some file otherwise. *)
Definition step_ok (b : Z) (w : tworld) (t : ftree) (f' : Z -> Z) (r : outcome (Z * ftree)) : Prop :=
  exists ret t' G' g, r = Done (ret, t') /\ rep b t' G' None g /\ same_file t t' /\ ((ret = 0 /\ g = f') \/ (ret < 0 /\ can_fail w)).

Lemma move_ok b t G f w s a : rep b t G None f -> ft_inline_data t = false -> world_ok w t -> 0 <= s < max_blocks (ft_inline_xattr t) -> a <> 0 ->
  step_ok b w t (upd f s a) (collapse_move w s a t).
Proof.
  intros R Hin [Herr Hfr] Hs Ha; unfold collapse_move, step_ok; destruct (inode_page_err_cases w t) as [E | [He E]].
  2:{ rewrite (proj2 (Z.ltb_lt _ 0)) by exact He; exists (inode_page_err w t), t, G, f; split; [reflexivity|]; split; [exact R|]; split; [apply same_file_refl|].
      right; split; [exact He | left; exists (ft_ino t); lia]. }
  rewrite E; change (0 <? 0) with false; cbv iota; destruct (reserve_ok b t G f w true s R Hin Hs Herr Hfr) as (r & t1 & G1 & -> & _ & (HF & _) & Hr); cbn [mbind outcome_bind].
  destruct r as [e | dn]; [destruct Hr as (He & Hcf & R1); exists e, t1, G1, f; auto 10|]; cbv zeta in Hr; set (old := if f s =? 0 then NEW_ADDR else f s) in *.
  destruct Hr as (R1 & HA & ->); pose proof HF as (_ & Ex & _); rewrite <- Ex in HA.
  assert (Hold : old <> 0) by (unfold old; destruct (Z.eqb_spec (f s) 0); [vm_compute; congruence | assumption]).
  assert (Hfin : forall t2, rep b t2 G1 None (upd f s old) -> ft_inline_xattr t2 = ft_inline_xattr t1 -> rep b (set_data_blkaddr (dn_page dn) (dn_ofs dn) a t2) G1 None (upd f s a)).
  { intros t2 R2 Ex2; apply (rep_ext _ _ _ _ (upd (upd f s old) s a)); [intros j _; unfold upd; destruct (j =? s); reflexivity|].
    apply set_mapped_ok; [exact R2 | rewrite Ex2; exact HA | rewrite fun_upd_same; exact Hold | exact Ha]. }
  destruct (negb (old =? NEW_ADDR) && (a =? NEW_ADDR)) eqn:E1; [|destruct (negb (a =? NEW_ADDR)) eqn:E2]; eexists 0, _, G1, (upd f s a); (split; [reflexivity|]).
  - split; [apply Hfin; [apply (rep_tally b); [exact R1 | exact (r_bug _ _ _ _ _ R1) | lia] | reflexivity]|]; split; [|auto].
    apply (same_file_trans _ _ _ HF); destruct (dn_page dn); repeat split.
  - split; [apply Hfin; [exact R1 | reflexivity]|]; split; [|auto]; apply (same_file_trans _ _ _ HF); unfold f2fs_replace_block; destruct (dn_page dn); repeat split.
  - split; [|auto]; replace a with old; [exact R1|]; destruct (Z.eqb_spec a NEW_ADDR) as [-> |]; [|discriminate E2].
    destruct (Z.eqb_spec old NEW_ADDR); [assumption | discriminate E1].
Qed.

Lemma collapse_drop_ok b t G f w s : rep b t G None f -> 0 <= b -> ft_inline_data t = false -> world_ok w t -> tw_node_count w = 1 -> 0 <= s < max_blocks (ft_inline_xattr t) ->
  step_ok b w t (upd f s 0) (collapse_drop w s t).
Proof.
  intros R Hb Hin [Herr _] H1 Hs; unfold collapse_drop, step_ok.
  assert (Hsame : f s = 0 -> rep b t G None (upd f s 0)).
  { intros E; apply (rep_ext b t G None f); [|exact R]; intros j _; unfold upd; destruct (Z.eqb_spec j s) as [-> |]; [exact E | reflexivity]. }
  destruct (dnode_lookup_mode b t G f w false s LOOKUP_NODE_RA (or_intror (conj eq_refl H1)) R Hin Hs Herr) as (r & -> & Hr); cbn [mbind outcome_bind]; destruct r as [e | dn].
  - destruct Hr as [(-> & k & o & Hk & Ho & -> & EN) | (Hn & He & Hx)].
    + rewrite Z.eqb_refl; exists 0, t, G, (upd f (dn_start (ft_inline_xattr t) k + o) 0); split; [reflexivity|]; split; [|split; [apply same_file_refl | auto]].
      apply Hsame, (absent_dnode _ _ _ _ _ k _ R Hk EN); unfold dn_start; lia.
    + rewrite (proj2 (Z.eqb_neq e _)) by exact Hn; exists e, t, G, f; split; [reflexivity|]; split; [exact R|]; split; [apply same_file_refl | right].
      apply failed_can_fail; split; auto.
  - destruct Hr as [HA ->]; unfold NULL_ADDR; destruct (Z.eqb_spec (f s) 0) as [E0 | _]; eexists 0, _, G, (upd f s 0); (split; [reflexivity|]).
    + split; [exact (Hsame E0) | split; [apply same_file_refl | auto]].
    + assert (HR : at_range (ft_inline_xattr t) G s 1 (dn_page dn) (dn_ofs dn)) by (intros j Hj; replace j with 0 by lia; rewrite !Z.add_0_r; exact HA).
      destruct (truncate_range_ok b t G None f s 1 _ _ R Hb ltac:(lia) HR) as (R1 & HF & _); split; [|split; [exact HF | auto]].
      revert R1; apply rep_ext; intros j _; unfold zero, upd; case_ifs; bool_cases; try lia; reflexivity.
Qed.

Lemma block_ok b t G f w s e : rep b t G None f -> 0 <= b -> ft_inline_data t = false -> world_ok w t -> tw_node_count w = 1 -> 0 <= s < e -> e < max_blocks (ft_inline_xattr t) ->
  step_ok b w t (upd (upd f e 0) s (f e)) (collapse_block w s e t).
Proof.
  intros R Hb Hin Hw H1 Hs He; pose proof Hw as [Herr Hfr]; unfold collapse_block.
  destruct (dnode_lookup_mode b t G f w false e LOOKUP_NODE_RA (or_intror (conj eq_refl H1)) R Hin ltac:(lia) Herr) as (r & -> & Hr); cbn [mbind outcome_bind]; destruct r as [err | dn].
  - destruct Hr as [(-> & k & o & Hk & Ho & Ei & EN) | (Hn & He' & Hx)].
    + rewrite Z.eqb_refl; assert (E0 : f e = 0) by (apply (absent_dnode _ _ _ _ _ k _ R Hk EN); unfold dn_start in *; lia).
      destruct (collapse_drop_ok b t G f w s R Hb Hin Hw H1 ltac:(lia)) as (ret & t' & G' & g & -> & R' & HF & HS); rewrite E0; exists ret, t', G'.
      destruct HS as [[-> ->] | HS]; [exists (upd (upd f e 0) s 0) | exists g; auto 10]; split; [reflexivity|]; split; [|auto].
      revert R'; apply rep_ext; intros j _; unfold upd; case_ifs; bool_cases; try lia; try reflexivity; subst; lia.
    + rewrite (proj2 (Z.eqb_neq err _)) by exact Hn; exists err, t, G, f; split; [reflexivity|]; split; [exact R|]; split; [apply same_file_refl | right].
      apply failed_can_fail; split; auto.
  - destruct Hr as [HA ->]; assert (HR : at_range (ft_inline_xattr t) G e 1 (dn_page dn) (dn_ofs dn)) by (intros j Hj; replace j with 0 by lia; rewrite !Z.add_0_r; exact HA).
    destruct (truncate_range_ok b t G None f e 1 _ _ R Hb ltac:(lia) HR) as (R1 & HF & _); set (t1 := snd _) in *; clearbody t1; pose proof HF as (_ & Ex & Ed).
    assert (R2 : rep b t1 G None (upd f e 0)) by (revert R1; apply rep_ext; intros j _; unfold zero, upd; case_ifs; bool_cases; try lia; reflexivity).
    assert (Hw1 : world_ok w t1) by (split; [exact Herr | exact (fresh_rep _ _ _ _ _ _ _ _ _ _ _ R R1 Hfr)]).
    assert (Hlift : forall r f', step_ok b w t1 f' r -> step_ok b w t f' r).
    { intros r f' (ret & t' & G' & g & E & R' & HF' & HS); exists ret, t', G', g; split; [exact E|]; split; [exact R'|]; split; [exact (same_file_trans _ _ _ HF HF') | exact HS]. }
    apply Hlift; unfold NULL_ADDR; destruct (Z.eqb_spec (f e) 0) as [E0 | Hne]; [rewrite E0; apply (collapse_drop_ok b t1 G); auto; try congruence; rewrite Ex; lia|].
    apply (move_ok b t1 G); auto; try congruence; rewrite Ex; lia.
Qed.

(** * The loop *)

(** [n] blocks from [e] on have moved to [s], and holes are left where they were. *)
Definition shifted (f : Z -> Z) (s e n : Z) : Z -> Z := fun j =>
  if (s <=? j) && (j <? s + n) then f (j + (e - s)) else if (e <=? j) && (j <? e + n) then 0 else f j.

(** In each round the rest of the system is as the file system expects, with one file
    cell. *)
Fixpoint rounds_ok (n : nat) (ws : Z -> tworld) (s e : Z) (t : ftree) : Prop :=
  match n with
  | O => True
  | S n => world_ok (ws s) t /\ tw_node_count (ws s) = 1 /\ forall t', collapse_block (ws s) s e t = Done (0, t') -> rounds_ok n ws (s + 1) (e + 1) t'
  end.

Lemma shifted_step f s e n j : 0 <= s < e -> 0 <= n -> shifted (upd (upd f e 0) s (f e)) (s + 1) (e + 1) n j = shifted f s e (n + 1) j.
Proof.
  intros; unfold shifted, upd; replace (e + 1 - (s + 1)) with (e - s) by lia; case_ifs; bool_cases; try lia; try reflexivity; f_equal; lia.
Qed.

Lemma collapse_from_ok b ws : 0 <= b -> forall n t G f s e, rep b t G None f -> ft_inline_data t = false -> 0 <= s < e -> e + Z.of_nat n <= max_blocks (ft_inline_xattr t) ->
  rounds_ok n ws s e t ->
  exists ret t' G' g, collapse_from n ws s e t = Done (ret, t') /\ rep b t' G' None g /\ same_file t t' /\
    ((ret = 0 /\ g = shifted f s e (Z.of_nat n)) \/ (ret < 0 /\ exists j, can_fail (ws j))).
Proof.
  intros Hb; induction n as [|n IH]; intros t G f s e R Hin Hs He Hr; cbn [collapse_from].
  { exists 0, t, G, (shifted f s e (Z.of_nat 0)); split; [reflexivity|]; split; [|split; [apply same_file_refl | auto]].
    revert R; apply rep_ext; intros j _; unfold shifted; case_ifs; bool_cases; try lia; reflexivity. }
  destruct Hr as (Hw & H1 & Hrest); destruct (block_ok b t G f (ws s) s e R Hb Hin Hw H1 Hs ltac:(lia)) as (ret & t1 & G1 & g & E & R1 & HF & HS); rewrite E; cbn [mbind outcome_bind].
  destruct HS as [[-> ->] | [Hret Hcf]]; [|rewrite (proj2 (Z.eqb_neq ret 0)) by lia; exists ret, t1, G1, g; eauto 10].
  change (0 =? 0) with true; cbv iota; pose proof HF as (_ & Ex & Ed).
  destruct (IH t1 G1 _ (s + 1) (e + 1) R1 ltac:(congruence) ltac:(lia) ltac:(rewrite Ex; lia) (Hrest t1 E)) as (ret & t2 & G2 & g & E2 & R2 & HF2 & HS); exists ret, t2, G2.
  destruct HS as [[-> ->] | HS]; [exists (shifted f s e (Z.of_nat (S n))) | exists g; split; [exact E2|]; split; [exact R2|]; split; [exact (same_file_trans _ _ _ HF HF2) | auto]].
  split; [exact E2|]; split; [|split; [exact (same_file_trans _ _ _ HF HF2) | auto]].
  revert R2; apply rep_ext; intros j _; rewrite shifted_step by lia; f_equal; lia.
Qed.

(** * Theorem *)

Lemma aligned_land n : Z.land n (F2FS_BLKSIZE - 1) = n mod 4096.
Proof. change (F2FS_BLKSIZE - 1) with (Z.ones 12); rewrite Z.land_ones by lia; reflexivity. Qed.

(** C15: Collapsing a range of a file.  With one file cell, the blocks in front of the range
    stay, those behind it move to its beginning, the size shrinks by the length of the
    range and nothing is mapped behind the new end; unless an error is returned, which has
    a cause in the page cache or the allocators.  The node tree stays well formed in all
    cases. *)
Theorem collapse_range_shifts (b : Z) (t : ftree) (f : Z -> Z) (ws : Z -> tworld) (w : tworld) (i_size offset len : Z)
  (HR : file_rep b t f) (Hoff : 0 <= offset) (Hlen : 0 < len) (Hend : offset + len < i_size)
  (Halign : offset mod 4096 = 0 /\ len mod 4096 = 0)
  (Hmax : i_size <= 4096 * dn_start (ft_inline_xattr t) (n_dnodes - 1))
  (Hw : forall n, tw_page_err w n <> - ENOENT)
  (Hws : rounds_ok (Z.to_nat ((i_size + 4095) / 4096 - (offset + len) / 4096)) ws (offset / 4096) ((offset + len) / 4096) t) :
  exists ret size t' f', f2fs_collapse_range ws w true 0 i_size offset len t = Done (ret, size, t') /\ file_rep b t' f' /\
    ((ret = 0 /\ size = i_size - len /\
      forall j, 0 <= j < max_blocks (ft_inline_xattr t) ->
        f' j = if j <? offset / 4096 then f j else if j <? (size + 4095) / 4096 then f (j + len / 4096) else 0) \/
     (ret < 0 /\ size = i_size /\ (can_fail w \/ exists j, can_fail (ws j)))).
Proof.
  destruct HR as (Hb & Hin & G & R), Halign as [Ha1 Ha2]; unfold f2fs_collapse_range, f2fs_do_collapse; cbn [negb].
  assert (Hd : dn_start (ft_inline_xattr t) (n_dnodes - 1) < 2 ^ 40 /\ dn_start (ft_inline_xattr t) (n_dnodes - 1) <= max_blocks (ft_inline_xattr t)).
  { rewrite max_blocks_dn; pose proof (addrs_per_inode_cases (ft_inline_xattr t)); unfold dn_start, n_dnodes; lia. }
  rewrite (proj2 (Z.leb_gt i_size (offset + len))), !aligned_land, Ha1, Ha2 by lia; change (negb (0 =? 0)) with false; cbn [orb]; cbv zeta; cbv iota.
  rewrite !Z.shiftr_div_pow2 by (unfold PAGE_CACHE_SHIFT; lia); change (2 ^ PAGE_CACHE_SHIFT) with 4096.
  replace (i_size + F2FS_BLKSIZE - 1) with (i_size + 4095) by (unfold F2FS_BLKSIZE; lia); change F2FS_BLKSIZE with 4096; set (n := (i_size + 4095) / 4096 - (offset + len) / 4096) in *.
  assert (Hn : 0 <= n) by (unfold n; lia).
  destruct (collapse_from_ok b ws Hb (Z.to_nat n) t G f (offset / 4096) ((offset + len) / 4096) R Hin ltac:(lia) ltac:(unfold n in *; lia) Hws) as (ret & t1 & G1 & g & -> & R1 & HF & HS); cbn [mbind outcome_bind].
  pose proof HF as (_ & Ex & Ed).
  destruct HS as [[-> ->] | [Hret Hcf]].
  2:{ rewrite (proj2 (Z.eqb_neq ret 0)) by lia; exists ret, i_size, t1, g; split; [reflexivity|]; split; [split; [exact Hb | split; [congruence | eauto]] | auto]. }
  change (negb (0 =? 0)) with false; cbv iota.
  assert (Hfb : first_block (i_size - len) = (i_size - len + 4095) / 4096).
  { unfold first_block, F2FS_BYTES_TO_BLK, F2FS_BLKSIZE_BITS, F2FS_BLKSIZE; rewrite u64_small by lia; rewrite Z.shiftr_div_pow2 by lia; f_equal; lia. }
  destruct (truncate_blocks_ok w Hw b t1 G1 _ (i_size - len) R1 Hb ltac:(congruence)) as (err & t2 & -> & G2 & _ & HT); [rewrite Hfb, Ex; lia | right; rewrite Hfb, Ex; lia|]; cbn [mbind outcome_bind].
  rewrite Hfb, Ex in HT; destruct HT as [(-> & R2 & ((_ & _ & Ed2) & _) & _) | (Hf & y & _ & R2 & ((_ & _ & Ed2) & _))]; [eexists 0, (i_size - len), t2, _ | eexists _, _, t2, _]; (split; [reflexivity|]).
  - split; [split; [exact Hb | split; [congruence | eauto]]|]; left; split; [reflexivity|]; split; [reflexivity|]; intros j Hj; rewrite Z2Nat.id by exact Hn.
    unfold zero, shifted; assert (Hnr : offset / 4096 + n = (i_size - len + 4095) / 4096 /\ (offset + len) / 4096 - offset / 4096 = len / 4096) by (unfold n; lia).
    destruct Hnr as [Hnr ->]; rewrite Hnr; case_ifs; bool_cases; try lia; reflexivity.
  - split; [split; [exact Hb | split; [congruence | eauto]]|]; right; destruct (failed_can_fail w err Hf) as [He Hcf].
    split; [exact He|]; split; [rewrite (proj2 (Z.eqb_neq err 0)) by lia; reflexivity | auto].
Qed.

(** A file of two blocks of which the second is mapped; the first is collapsed. *)
Definition cell_ex : tworld := mk_tw (fun _ => 0) false (fun _ => true) (fun _ => true) true (fun _ => None) ∅ 1.

Definition second_ex : ftree :=
  match fexec (world_ex nids_ex) (FReserve 1) (new_file 4 true) with Done (_, t) => t | _ => new_file 4 true end.

Lemma second_ex_rep : file_rep 1 second_ex (upd (fun _ => 0) 1 NEW_ADDR).
Proof. destruct (reserve_ex 1) as (r & t & E & HR); [vm_compute; split; congruence|]; unfold second_ex; rewrite E; exact HR. Qed.

Lemma collapse_range_shifts_witness :
  exists ret size t' f', f2fs_collapse_range (fun _ => cell_ex) cell_ex true 0 8192 0 4096 second_ex = Done (ret, size, t') /\ file_rep 1 t' f' /\
    ((ret = 0 /\ size = 8192 - 4096 /\
      forall j, 0 <= j < max_blocks (ft_inline_xattr second_ex) ->
        f' j = if j <? 0 / 4096 then upd (fun _ => 0) 1 NEW_ADDR j
               else if j <? (size + 4095) / 4096 then upd (fun _ => 0) 1 NEW_ADDR (j + 4096 / 4096) else 0) \/
     (ret < 0 /\ size = 8192 /\ (can_fail cell_ex \/ exists j : Z, can_fail cell_ex))).
Proof.
  apply (collapse_range_shifts 1 second_ex _ (fun _ => cell_ex) cell_ex 8192 0 4096 second_ex_rep); [lia | lia | lia | split; reflexivity | vm_compute; congruence | intros n; vm_compute; congruence|].
  split; [|split; [reflexivity | intros t' _; exact I]]; split; [intros n; vm_compute; congruence | intros j n Hj En; discriminate].
Defined.
