(* ===== verification/Recovery.v ===== *)
(** Roll-forward recovery (src/Max/recovery.c, inline.c, node.c): after a crash the mount
    follows the chain of node blocks written since the last checkpoint, notes the inodes
    that were fsynced, and enters the block addresses of their nodes into the files. *)

From Stdlib Require Import ZArith Lia Bool.
From stdpp Require Import base numbers list gmap.
From S2P Require Import Prelude Layout Bitops NodePath SmState Curseg NodeTree Collapse.

#[local] Open Scope Z_scope.

(** * The node log *)

(** A node block as the mount reads it: the footer, the block addresses ([i_addr] of an
    inode), and two bits of [i_inline]. *)
Record log_node := mk_ln {
  ln_footer : node_footer;
  ln_addr : list Z;
  ln_inline_xattr : bool;
  ln_inline_data : bool;
}.

Definition IS_INODE (p : log_node) : bool := nid_of_node (ln_footer p) =? ino_of_node (ln_footer p).

Definition is_fsync_dnode (p : log_node) : bool := is_node (ln_footer p) FSYNC_BIT_SHIFT.
Definition is_dent_dnode (p : log_node) : bool := is_node (ln_footer p) DENT_BIT_SHIFT.

(** [is_valid_blkaddr] for [META_POR]. *)
Definition is_valid_blkaddr (g : geometry) (blkaddr : Z) : bool :=
  negb ((MAX_BLKADDR g <=? blkaddr) || (blkaddr <? MAIN_BLKADDR g)).

(** The inode of an entry is named by its number. *)
Record fsync_inode_entry := mk_fe { fe_ino : Z; fe_blkaddr : Z; fe_last_dentry : Z; fe_last_inode : Z }.

Definition get_fsync_inode (head : list fsync_inode_entry) (ino : Z) : option fsync_inode_entry :=
  List.find (fun e => fe_ino e =? ino) head.

(** * Finding the fsynced inodes *)

(** The answers at a block of the log: the error of [recover_inode_page], whether there is
    memory for an entry, and the error of [f2fs_iget]. *)
Record por_world := mk_pw {
  pw_inode_page : Z -> Z;
  pw_memory : Z -> bool;
  pw_iget : Z -> Z;
}.

(** The stores into the entry of the inode. *)
Definition stamp (page : log_node) (blkaddr : Z) (e : fsync_inode_entry) : fsync_inode_entry :=
  if fe_ino e =? ino_of_node (ln_footer page) then
    mk_fe (fe_ino e) blkaddr
      (if IS_INODE page && is_dent_dnode page then blkaddr else fe_last_dentry e)
      (if IS_INODE page then blkaddr else fe_last_inode e)
  else e.

(** One round of [find_fsync_dnodes] on a node with the fsync mark. *)
Definition note_fsync (w : por_world) (page : log_node) (blkaddr : Z) (head : list fsync_inode_entry)
    : Z * list fsync_inode_entry :=
  let ino := ino_of_node (ln_footer page) in
  match get_fsync_inode head ino with
  | Some _ => (0, map (stamp page blkaddr) head)
  | None =>
      let err := if IS_INODE page && is_dent_dnode page then pw_inode_page w blkaddr else 0 in
      if negb (err =? 0) then (err, head)
      else if negb (pw_memory w blkaddr) then (- ENOMEM, head)
      else if pw_iget w blkaddr <? 0 then
        (if pw_iget w blkaddr =? - ENOENT then 0 else pw_iget w blkaddr, head)
      else (0, map (stamp page blkaddr) (head ++ [mk_fe ino 0 0 0]))
  end.

Fixpoint find_from (fuel : nat) (w : por_world) (g : geometry) (por : Z -> log_node) (cp_ver blkaddr : Z)
    (head : list fsync_inode_entry) : outcome (Z * list fsync_inode_entry) :=
  match fuel with
  | O => Spins
  | S fuel =>
      if negb (is_valid_blkaddr g blkaddr) then Done (0, head)
      else
        let page := por blkaddr in
        if negb (cp_ver =? cpver_of_node (ln_footer page)) then Done (0, head)
        else
          let '(err, head) := if is_fsync_dnode page then note_fsync w page blkaddr head else (0, head) in
          if negb (err =? 0) then Done (err, head)
          else find_from fuel w g por cp_ver (next_blkaddr_of_node (ln_footer page)) head
  end.

(** The chain starts at the next block of the warm node log; it has no more blocks than
    the main area, unless it returns to a block. *)
Definition chain_fuel (g : geometry) : nat := S (Z.to_nat (MAX_BLKADDR g - MAIN_BLKADDR g)).

Definition find_fsync_dnodes (w : por_world) (por : Z -> log_node) (cp_ver : Z) (sbi : f2fs_sb_info)
    (head : list fsync_inode_entry) : outcome (Z * list fsync_inode_entry) :=
  find_from (chain_fuel (geo sbi)) w (geo sbi) por cp_ver
    (NEXT_FREE_BLKADDR (geo sbi) (CURSEG_I sbi CURSEG_WARM_NODE)) head.

(** * Recovering one node *)

(** The files of the file system by inode number. *)
Abbreviation files := (gmap Z ftree).

(** The answers while one block of the log is replayed: those to the tree operations; for
    the entry [ofs] of the node, the node and the offset that the SIT and the summaries
    name as the owner of a block ([prev_summary]); the node offset and inode of a node page,
    or the error reading it; the error of [f2fs_iget]; and the error of [recover_dentry]. *)
Record rworld := mk_rw {
  rw_tree : tworld;
  rw_prev : Z -> Z -> option (Z * Z);
  rw_node : Z -> Z + Z * Z;
  rw_iget : Z -> Z;
  rw_dentry : Z;
}.

(** The owner of a block: nobody when the block is not valid; else the one in the summary of
    a data log, or in the summary block of the segment. *)
Definition prev_summary (sbi : f2fs_sb_info) (blkaddr : Z) : option (Z * Z) :=
  let segno := GET_SEGNO (geo sbi) blkaddr in
  let blkoff := GET_BLKOFF_FROM_SEG0 (geo sbi) blkaddr in
  if negb (f2fs_test_bit blkoff (cur_valid_map (get_seg_entry (sit_i sbi) segno))) then None
  else
    let sum :=
      match List.find (fun i => cs_segno (CURSEG_I sbi i) =? segno) [CURSEG_WARM_DATA; CURSEG_COLD_DATA] with
      | Some i => (sb_entries (sum_blk (CURSEG_I sbi i))).[blkoff]
      | None => (sb_entries (get_sum_page sbi segno)).[blkoff]
      end in
    Some (sm_nid sum, sm_ofs_in_node sum).

(** Clears the entry of [blkaddr] in a node of file [ino], if it is there. *)
Definition drop_index (ino : Z) (node : option Z) (ofs blkaddr : Z) (fs : files) : files :=
  match fs !! ino with
  | None => fs
  | Some t =>
      if datablock_addr t node ofs =? blkaddr then <[ino := snd (truncate_data_blocks_range node ofs 1 t)]> fs else fs
  end.

(** [prev] is the owner of [blkaddr]; [ino] and [dn] are the inode and the node that are
    being recovered. *)
Definition check_index_in_prev_nodes (w : rworld) (prev : option (Z * Z)) (blkaddr ino : Z) (dn : dnode_of_data) (fs : files)
    : outcome (Z * files) :=
  match prev with
  | None => Done (0, fs)
  | Some (nid, ofs_in_node) =>
      if ino =? nid then Done (0, drop_index ino None ofs_in_node blkaddr fs)
      else if dn_nid dn =? nid then Done (0, drop_index ino (dn_page dn) ofs_in_node blkaddr fs)
      else
        match rw_node w nid with
        | inl err => Done (err, fs)
        | inr (offset, owner) =>
            if negb (owner =? ino) && (rw_iget w owner <? 0) then Done (rw_iget w owner, fs)
            else
              match fs !! owner with
              | None => Done (- ENOENT, fs)
              | Some t =>
                  let bidx := start_bidx_of_node offset (ft_inline_xattr t) + ofs_in_node in
                  '(r, _) ← get_dnode_of_data (rw_tree w) false bidx LOOKUP_NODE t;
                  match r with
                  | inl _ => Done (0, fs)
                  | inr tdn => Done (0, drop_index owner (dn_page tdn) (dn_ofs tdn) blkaddr fs)
                  end
              end
        end
  end.

(** The entry at [ofs] of the node [dn] becomes the one in the log. *)
Definition recover_index (w : rworld) (g : geometry) (page : log_node) (ino : Z) (dn : dnode_of_data) (ofs : Z) (fs : files)
    : outcome (Z * files) :=
  match fs !! ino with
  | None => Done (- ENOENT, fs)
  | Some t =>
      let src := datablock_addr t (dn_page dn) ofs in
      let dest := (ln_addr page).[ofs] in
      if negb (src =? dest) && negb (dest =? NEW_ADDR) && negb (dest =? NULL_ADDR) && is_valid_blkaddr g dest then
        let dn := mk_dn (dn_nid dn) (dn_page dn) ofs (dn_addr dn) in
        let t :=
          if src =? NULL_ADDR then
            let '(err, _, t) := reserve_new_block (rw_tree w) dn t in
            with_tally (ft_blocks t) (ft_freed t) (ft_gone t) (ft_bug t || negb (err =? 0)) t
          else t in
        '(err, fs) ← check_index_in_prev_nodes w (rw_prev w ofs dest) dest ino dn (<[ino := t]> fs);
        if negb (err =? 0) then Done (err, fs)
        else Done (0, alter (f2fs_replace_block dn dest) ino fs)
      else Done (0, fs)
  end.

(** The entries [ofs .. ofs + n - 1]. *)
Fixpoint recover_indexes (n : nat) (w : rworld) (g : geometry) (page : log_node) (ino : Z) (dn : dnode_of_data) (ofs : Z)
    (fs : files) : outcome (Z * files) :=
  match n with
  | O => Done (0, fs)
  | S n =>
      '(err, fs) ← recover_index w g page ino dn ofs fs;
      if negb (err =? 0) then Done (err, fs) else recover_indexes n w g page ino dn (ofs + 1) fs
  end.

(** ** Inline attributes and data

    The words of [i_addr] behind the addresses hold inline attributes, those from the
    second one on the 872 words of inline data. *)

Definition with_inline (xattr data : bool) (addr : list Z) (t : ftree) : ftree :=
  mk_ft (ft_ino t) xattr data addr (ft_nid t) (ft_pages t) (ft_blocks t) (ft_freed t) (ft_gone t) (ft_bug t).

Definition copy_words (from n : Z) (src dst : list Z) : list Z :=
  for_range from (from + n) (fun i l => l.[i <- src.[i]]) dst.

Definition recover_inline_xattr (w : tworld) (page : log_node) (t : ftree) : outcome ftree :=
  if inode_page_err w t <? 0 then Bug
  else if negb (ln_inline_xattr page) then Done (with_inline false (ft_inline_data t) (ft_addr t) t)
  else
    let size := if ft_inline_xattr t then F2FS_INLINE_XATTR_ADDRS else 0 in
    Done (with_inline (ft_inline_xattr t) (ft_inline_data t)
            (copy_words (DEF_ADDRS_PER_INODE - F2FS_INLINE_XATTR_ADDRS) size (ln_addr page) (ft_addr t)) t).

(** Whether the node's data are inline data, which are then recovered. *)
Definition recover_inline_data (w : tworld) (page : log_node) (t : ftree) : outcome (bool * ftree) :=
  let process_inline (t : ftree) :=
    if inode_page_err w t <? 0 then Bug
    else Done (true, with_inline (ft_inline_xattr t) true (copy_words 1 872 (ln_addr page) (ft_addr t)) t) in
  let next := IS_INODE page && ln_inline_data page in
  if ft_inline_data t && next then process_inline t
  else if ft_inline_data t then
    if inode_page_err w t <? 0 then Bug
    else Done (false, with_inline (ft_inline_xattr t) false (copy_words 1 872 (replicate 923 0) (ft_addr t)) t)
  else if next then '(_, t) ← truncate_blocks w 0 t; process_inline t
  else Done (false, t).

(** The offset of the node that maps block [i], as its footer has it. *)
Definition node_offset (t : ftree) (i : Z) : Z :=
  match get_node_path (ft_inline_xattr t) i with Some p => dnode_of p | None => 0 end.

Definition do_recover_data (w : rworld) (g : geometry) (page : log_node) (ino : Z) (fs : files) : outcome (Z * files) :=
  match fs !! ino with
  | None => Done (- ENOENT, fs)
  | Some t =>
      let ofs := ofs_of_node (ln_footer page) in
      if negb (IS_INODE page) && f2fs_has_xattr_block ofs then Done (0, fs)
      else
        t ← (if IS_INODE page then recover_inline_xattr (rw_tree w) page t else Done t);
        '(inline, t) ← recover_inline_data (rw_tree w) page t;
        if (inline : bool) then Done (0, <[ino := t]> fs)
        else
          let start := start_bidx_of_node ofs (ft_inline_xattr t) in
          let count := if IS_INODE page then addrs_per_inode (ft_inline_xattr t) else ADDRS_PER_BLOCK in
          '(r, t) ← get_dnode_of_data (rw_tree w) false start ALLOC_NODE t;
          match r with
          | inl err => Done (err, <[ino := t]> fs)
          | inr dn =>
              let wrong := negb (ft_ino t =? ino_of_node (ln_footer page)) || negb (node_offset t start =? ofs) in
              let t := with_tally (ft_blocks t) (ft_freed t) (ft_gone t) (ft_bug t || wrong) t in
              recover_indexes (Z.to_nat count) w g page ino dn (dn_ofs dn) (<[ino := t]> fs)
          end
  end.

(** * Following the log *)

(** One round of [recover_data]: the node in block [blkaddr]. *)
Definition recover_node (w : rworld) (g : geometry) (page : log_node) (blkaddr : Z) (head : list fsync_inode_entry) (fs : files)
    : outcome (Z * (list fsync_inode_entry * files)) :=
  match get_fsync_inode head (ino_of_node (ln_footer page)) with
  | None => Done (0, (head, fs))
  | Some e =>
      let err := if fe_last_dentry e =? blkaddr then rw_dentry w else 0 in
      if negb (err =? 0) then Done (err, (head, fs))
      else
        '(err, fs) ← do_recover_data w g page (fe_ino e) fs;
        if negb (err =? 0) then Done (err, (head, fs))
        else
          Done (0, (if fe_blkaddr e =? blkaddr then List.filter (fun e' => negb (fe_ino e' =? fe_ino e)) head else head, fs))
  end.

Fixpoint recover_from (fuel : nat) (ws : Z -> rworld) (g : geometry) (por : Z -> log_node) (cp_ver blkaddr : Z)
    (head : list fsync_inode_entry) (fs : files) : outcome (Z * (list fsync_inode_entry * files)) :=
  match fuel with
  | O => Spins
  | S fuel =>
      if negb (is_valid_blkaddr g blkaddr) then Done (0, (head, fs))
      else
        let page := por blkaddr in
        if negb (cp_ver =? cpver_of_node (ln_footer page)) then Done (0, (head, fs))
        else
          '(err, (head, fs)) ← recover_node (ws blkaddr) g page blkaddr head fs;
          if negb (err =? 0) then Done (err, (head, fs))
          else recover_from fuel ws g por cp_ver (next_blkaddr_of_node (ln_footer page)) head fs
  end.

(** [ws] has the answers at each block of the log.  The segments that
    [allocate_new_segments] opens at the end do not concern the files. *)
Definition recover_data (ws : Z -> rworld) (por : Z -> log_node) (cp_ver : Z) (head : list fsync_inode_entry) (type : Z)
    (sbi : f2fs_sb_info) (fs : files) : outcome (Z * (list fsync_inode_entry * files)) :=
  recover_from (chain_fuel (geo sbi)) ws (geo sbi) por cp_ver (NEXT_FREE_BLKADDR (geo sbi) (CURSEG_I sbi type)) head fs.

(** The two passes of [recover_fsync_data]: the error, whether a checkpoint follows, and
    whether [f2fs_bug_on] finds an inode left over. *)
Definition recover_fsync_data (w : por_world) (ws : Z -> rworld) (por : Z -> log_node) (cp_ver : Z) (sbi : f2fs_sb_info)
    (fs : files) : outcome (Z * bool * bool * files) :=
  '(err, inode_list) ← find_fsync_dnodes w por cp_ver sbi [];
  if negb (err =? 0) then Done (err, false, false, fs)
  else if bool_decide (inode_list = []) then Done (0, false, false, fs)
  else
    '(err, (inode_list, fs)) ← recover_data ws por cp_ver inode_list CURSEG_WARM_NODE sbi fs;
    Done (err, (err =? 0), (err =? 0) && negb (bool_decide (inode_list = [])), fs).
