(* ===== verification/RecoverData.v ===== *)
(** What the recovery of one node of the log does to the files. *)

From Stdlib Require Import ZArith Lia Bool.
From stdpp Require Import base numbers list gmap.
From S2P Require Import Prelude Layout NodePath SmState NodeTree NodeTreeInv NodeTreeOps FileMap Collapse Recovery.

#[local] Open Scope Z_scope.
#[local] Ltac Zify.zify_post_hook ::= Z.to_euclidean_division_equations.

(** * The files *)

(** The block maps of all files, and a change of one of them. *)
Definition maps := Z -> Z -> Z.
Definition mset (F : maps) (ino : Z) (f : Z -> Z) : maps := fun i => if i =? ino then f else F i.

(** The tree of a file with the nodes [G] maps [f]. *)
Definition tree_rep (b : Z) (ino : Z) (x : bool) (t : ftree) (G : gmap tnode Z) (f : Z -> Z) : Prop :=
  ft_ino t = ino /\ ft_inline_xattr t = x /\ ft_inline_data t = false /\ 0 <= b /\ rep b t G None f.

Definition files_rep (b : Z -> Z) (X : Z -> bool) (fs : files) (Gs : Z -> gmap tnode Z) (F : maps) : Prop :=
  forall ino t, fs !! ino = Some t -> tree_rep (b ino) ino (X ino) t (Gs ino) (F ino).

Lemma tree_rep_file b ino x t t' G G' f f' : tree_rep b ino x t G f -> same_file t t' -> rep b t' G' None f' -> tree_rep b ino x t' G' f'.
Proof. intros (A & B & C & D & _) (A' & B' & C') R; split; [congruence|]; split; [congruence|]; split; [congruence|]; split; assumption. Qed.

Lemma files_rep_set b X fs Gs F ino t f : files_rep b X fs Gs F -> tree_rep (b ino) ino (X ino) t (Gs ino) f ->
  files_rep b X (<[ino := t]> fs) Gs (mset F ino f).
Proof.
  intros H Ht i u Eu; unfold mset; destruct (Z.eqb_spec i ino) as [-> | Hne].
  - rewrite lookup_insert_eq in Eu; injection Eu as <-; exact Ht.
  - rewrite lookup_insert_ne in Eu by congruence; exact (H i u Eu).
Qed.

(** The same files are there. *)
Definition same_dom (fs fs' : files) : Prop := forall i, is_Some (fs !! i) <-> is_Some (fs' !! i).

Lemma same_dom_refl fs : same_dom fs fs.
Proof. intros i; reflexivity. Qed.

Lemma same_dom_trans a b c : same_dom a b -> same_dom b c -> same_dom a c.
Proof. intros H H' i; etransitivity; [apply H | apply H']. Qed.

Lemma same_dom_set fs ino t : is_Some (fs !! ino) -> same_dom fs (<[ino := t]> fs).
Proof.
  intros H i; destruct (Z.eq_dec i ino) as [-> | Hne]; [rewrite lookup_insert_eq; split; eauto | rewrite lookup_insert_ne by congruence; reflexivity].
Qed.

(** * Taking a block from its previous owner *)

(** At most entries of [d] have been cleared. *)
Definition moved (d : Z) (F F' : maps) : Prop := forall i j, F' i j = F i j \/ (F i j = d /\ F' i j = 0).

Lemma moved_refl d F : moved d F F.
Proof. intros i j; auto. Qed.

Lemma drop_index_ok b X fs Gs F ino node ofs i d : files_rep b X fs Gs F -> d <> 0 ->
  (forall t, fs !! ino = Some t -> at_index (X ino) (Gs ino) i node ofs) ->
  exists F', files_rep b X (drop_index ino node ofs d fs) Gs F' /\ moved d F F' /\ same_dom fs (drop_index ino node ofs d fs).
Proof.
  intros HF Hd HA; unfold drop_index; destruct (fs !! ino) as [t|] eqn:Et; [|exists F; auto using moved_refl, same_dom_refl].
  specialize (HA t eq_refl); pose proof (HF ino t Et) as HT; pose proof HT as (_ & Ex & _ & Hb & R).
  rewrite <- Ex in HA; rewrite (rep_entry _ _ _ _ _ _ _ _ R HA); destruct (Z.eqb_spec (F ino i) d) as [E | _]; [|exists F; auto using moved_refl, same_dom_refl].
  assert (HR : at_range (ft_inline_xattr t) (Gs ino) i 1 node ofs) by (intros j Hj; replace j with 0 by lia; rewrite !Z.add_0_r; exact HA).
  destruct (truncate_range_ok _ _ _ _ _ i 1 _ _ R Hb ltac:(lia) HR) as (R1 & HS & _).
  exists (mset F ino (zero (F ino) i (i + 1))); split; [|split; [|apply same_dom_set; rewrite Et; eauto]].
  - apply files_rep_set; [exact HF|]; exact (tree_rep_file _ _ _ _ _ _ _ _ _ HT HS R1).
  - intros i' j; unfold mset; destruct (Z.eqb_spec i' ino) as [-> |]; [|auto].
    destruct (Z.eq_dec j i) as [-> | Hne]; [right; split; [exact E | apply zero_in; lia] | left; apply zero_out; lia].
Qed.

(** The owners that the summaries name are places a file can have. *)
Definition owner_ok (w : rworld) (X : Z -> bool) (ino : Z) (prev : option (Z * Z)) : Prop :=
  match prev with
  | None => True
  | Some (nid, ofs) =>
      0 <= ofs < (if nid =? ino then addrs_per_inode (X ino) else 1018) /\
      forall offset owner, rw_node w nid = inr (offset, owner) -> 0 <= start_bidx_of_node offset (X owner) + ofs < max_blocks (X owner)
  end.

(** The node that is being recovered, from the entry of block [start] on. *)
Definition node_at (x : bool) (G : gmap tnode Z) (ino start : Z) (dn : dnode_of_data) : Prop :=
  (dn_page dn = None /\ dn_nid dn = ino /\ start = 0) \/
  exists k n, dn_page dn = Some n /\ dn_nid dn = n /\ G !! ND k = Some n /\ 0 <= k < n_dnodes /\ start = dn_start x k.

Definition node_count (x : bool) (dn : dnode_of_data) : Z := match dn_page dn with None => addrs_per_inode x | Some _ => 1018 end.

Lemma node_at_index x G ino start dn o : node_at x G ino start dn -> 0 <= o < node_count x dn -> at_index x G (start + o) (dn_page dn) o.
Proof.
  unfold node_count; intros [(-> & _ & ->) | (k & n & -> & _ & E & Hk & ->)] Ho; [left; auto with lia | right; exists k, n; auto 10].
Qed.

(** The outcome of a check for the owner of [d]. *)
Definition checked (b : Z -> Z) (X : Z -> bool) (fs : files) (Gs : Z -> gmap tnode Z) (F : maps) (d : Z) (r : outcome (Z * files)) : Prop :=
  exists err fs' F', r = Done (err, fs') /\ files_rep b X fs' Gs F' /\ moved d F F' /\ same_dom fs fs'.

Lemma check_index_ok b X fs Gs F w prev d ino start dn : files_rep b X fs Gs F -> d <> 0 -> node_at (X ino) (Gs ino) ino start dn ->
  (forall n, tw_page_err (rw_tree w) n <> - ENOENT) -> owner_ok w X ino prev ->
  checked b X fs Gs F d (check_index_in_prev_nodes w prev d ino dn fs).
Proof.
  intros HF Hd Hn Herr Ho; unfold check_index_in_prev_nodes.
  assert (Hkeep : forall err, checked b X fs Gs F d (Done (err, fs)))
    by (intros err; exists err, fs, F; auto using moved_refl, same_dom_refl).
  assert (Hdrop : forall i p o j, (forall t, fs !! i = Some t -> at_index (X i) (Gs i) j p o) ->
    checked b X fs Gs F d (Done (0, drop_index i p o d fs))).
  { intros i p o j HA; destruct (drop_index_ok b X fs Gs F i p o j d HF Hd HA) as (F' & H1 & H2 & H3); unfold checked; eauto 10. }
  destruct prev as [[nid ofs]|]; [|apply Hkeep]; destruct Ho as [Ho Ho']; rewrite (Z.eqb_sym ino nid); destruct (Z.eqb_spec nid ino) as [-> | Hne].
  { apply (Hdrop _ _ _ ofs); intros t _; left; auto. }
  destruct (Z.eqb_spec (dn_nid dn) nid) as [E | _].
  { destruct Hn as [(_ & E' & _) | (k & n & Ep & En & EG & Hk & Es)]; [congruence|]; apply (Hdrop _ _ _ (start + ofs)); intros t _.
    rewrite Ep; right; exists k, n; subst start; auto 10. }
  destruct (rw_node w nid) as [err | [offset owner]] eqn:Ew; [apply Hkeep|]; specialize (Ho' offset owner eq_refl).
  destruct (negb (owner =? ino) && (rw_iget w owner <? 0)); [apply Hkeep|]; destruct (fs !! owner) as [t|] eqn:Et; [|apply Hkeep].
  pose proof (HF owner t Et) as (_ & Ex & Hin & _ & R); rewrite Ex.
  destruct (dnode_lookup _ t _ _ (rw_tree w) false _ R Hin ltac:(rewrite Ex; exact Ho') Herr) as (r & -> & Hr); cbn [mbind outcome_bind].
  destruct r as [e | tdn]; [apply Hkeep|]; destruct Hr as [HA _]; rewrite Ex in HA; apply (Hdrop _ _ _ _ (fun _ _ => HA)).
Qed.

(** * Recovering an entry *)

(** The addresses of the log that are entered into a file. *)
Definition wanted (g : geometry) (d : Z) : bool := negb (d =? NEW_ADDR) && negb (d =? NULL_ADDR) && is_valid_blkaddr g d.

(** Block [i] of file [ino] is [d], and nothing else changes but other entries of [d]. *)
Definition placed (d ino i : Z) (F F' : maps) : Prop :=
  F' ino i = d /\ forall i' j, ~ (i' = ino /\ j = i) -> F' i' j = F i' j \/ (F i' j = d /\ F' i' j = 0).

Lemma placed_refl ino i F : placed (F ino i) ino i F F.
Proof. split; auto. Qed.

Lemma alter_some (h : ftree -> ftree) (fs : files) ino t : fs !! ino = Some t -> alter h ino fs = <[ino := h t]> fs.
Proof.
  intros E; apply map_eq; intros i; destruct (Z.eq_dec i ino) as [-> | Hne].
  - rewrite lookup_alter_eq, lookup_insert_eq, E; reflexivity.
  - rewrite lookup_alter_ne, lookup_insert_ne by congruence; reflexivity.
Qed.

(** The answers that a replay of entry [ofs] can rely on: the summaries name places, and
    the room for the blocks of the log has been kept free. *)
Definition entry_world (w : rworld) (X : Z -> bool) (ino ofs d : Z) : Prop :=
  (forall n, tw_page_err (rw_tree w) n <> - ENOENT) /\ owner_ok w X ino (rw_prev w ofs d) /\
  tw_no_alloc (rw_tree w) = false /\ tw_block_room (rw_tree w) = true.

(** What the entries [lo .. hi - 1] of the node in [page] make of the files: the wanted
    ones are in place, and other entries have changed only where they had one of them. *)
Definition replayed (g : geometry) (page : log_node) (ino start lo hi : Z) (F F' : maps) : Prop :=
  (forall o, lo <= o < hi -> wanted g ((ln_addr page).[o]) = true -> F' ino (start + o) = (ln_addr page).[o]) /\
  (forall i j, ~ (i = ino /\ exists o, lo <= o < hi /\ j = start + o /\ wanted g ((ln_addr page).[o]) = true) ->
     F' i j = F i j \/ (F' i j = 0 /\ exists o, lo <= o < hi /\ wanted g ((ln_addr page).[o]) = true /\ F i j = (ln_addr page).[o])).

(** No block is twice in the node. *)
Definition distinct (g : geometry) (page : log_node) (count : Z) : Prop :=
  forall o o', 0 <= o < count -> 0 <= o' < count -> wanted g ((ln_addr page).[o]) = true -> (ln_addr page).[o] = (ln_addr page).[o'] -> o = o'.

Lemma replayed_nil g page ino start lo F : replayed g page ino start lo lo F F.
Proof. split; [intros; lia | auto]. Qed.

Lemma wanted_nonzero g d : wanted g d = true -> d <> 0.
Proof. unfold wanted, NULL_ADDR; intros H; bool_cases; assumption. Qed.

Lemma replayed_cons g page ino start count lo hi F F1 F' : distinct g page count -> 0 <= lo < hi -> hi <= count ->
  (if wanted g ((ln_addr page).[lo]) then placed ((ln_addr page).[lo]) ino (start + lo) F F1 else F1 = F) ->
  replayed g page ino start (lo + 1) hi F1 F' -> replayed g page ino start lo hi F F'.
Proof.
  intros HD Hlo Hhi H1 [P1 P2]; set (d := (ln_addr page).[lo]) in *; split.
  - intros o Ho Hw; destruct (Z.eq_dec o lo) as [-> | Hne]; [|apply P1; [lia | exact Hw]]; fold d in Hw; rewrite Hw in H1; destruct H1 as [E _]; fold d.
    destruct (P2 ino (start + lo)) as [E' | (_ & o & Ho' & Hw' & E')]; [|congruence|].
    + intros (_ & o & Ho' & Ej & _); lia.
    + exfalso; assert (lo = o) by (apply HD; [lia | lia | exact Hw | fold d; congruence]); lia.
  - intros i j Hij; assert (Hlo' : F1 i j = F i j \/ (F1 i j = 0 /\ wanted g d = true /\ F i j = d)).
    { destruct (wanted g d) eqn:Ew; [|left; congruence]; destruct H1 as [_ H1]; destruct (H1 i j) as [E | [E E']]; auto.
      intros [-> ->]; apply Hij; split; [reflexivity|]; exists lo; auto with lia. }
    destruct (P2 i j) as [E | (E & o & Ho & Hw & E')].
    + intros (-> & o & Ho & -> & Hw); apply Hij; split; [reflexivity|]; exists o; auto with lia.
    + rewrite E; destruct Hlo' as [E1 | (E1 & Ew & E2)]; [auto|]; right; split; [exact E1|]; exists lo; auto with lia.
    + right; split; [exact E|]; exists o; split; [lia|]; split; [exact Hw|]; destruct Hlo' as [E1 | (E1 & _)]; [congruence|].
      exfalso; apply (wanted_nonzero g _ Hw); congruence.
Qed.

Section Index.
Variables (b : Z -> Z) (X : Z -> bool) (Gs : Z -> gmap tnode Z) (w : rworld) (g : geometry) (page : log_node) (ino start : Z) (dn : dnode_of_data).
Hypothesis Hn : node_at (X ino) (Gs ino) ino start dn.

Lemma replace_ok fs F i ofs d : files_rep b X fs Gs F -> is_Some (fs !! ino) -> at_index (X ino) (Gs ino) i (dn_page dn) ofs -> F ino i <> 0 -> d <> 0 ->
  let fs' := alter (f2fs_replace_block (mk_dn (dn_nid dn) (dn_page dn) ofs (dn_addr dn)) d) ino fs in
  files_rep b X fs' Gs (mset F ino (upd (F ino) i d)) /\ same_dom fs fs'.
Proof.
  intros HF [t Et] HA H1 H2; cbv zeta; rewrite (alter_some _ _ _ _ Et); split; [|apply same_dom_set; eauto].
  pose proof (HF ino t Et) as HT; pose proof HT as (_ & Ex & _ & _ & R); rewrite <- Ex in HA.
  apply files_rep_set; [exact HF|]; apply (tree_rep_file _ _ _ _ _ _ _ _ _ HT); [unfold f2fs_replace_block; destruct (dn_page dn); repeat split|].
  apply set_mapped_ok; assumption.
Qed.

Lemma recover_index_ok fs F ofs : files_rep b X fs Gs F -> is_Some (fs !! ino) -> 0 <= ofs < node_count (X ino) dn ->
  let d := (ln_addr page).[ofs] in entry_world w X ino ofs d ->
  exists err fs' F', recover_index w g page ino dn ofs fs = Done (err, fs') /\ files_rep b X fs' Gs F' /\ same_dom fs fs' /\
    (err = 0 -> if wanted g d then placed d ino (start + ofs) F F' else F' = F).
Proof.
  intros HF [t Et] Ho; cbv zeta; set (d := (ln_addr page).[ofs]); intros (Herr & Hown & Ena & Ebr); unfold recover_index; rewrite Et; fold d.
  pose proof (HF ino t Et) as HT; pose proof HT as (_ & Ex & _ & _ & R); pose proof (node_at_index _ _ _ _ _ _ Hn Ho) as HA; set (i := start + ofs) in *.
  pose proof HA as HA0; rewrite <- Ex in HA0; rewrite (rep_entry _ _ _ _ _ _ _ _ R HA0).
  replace (negb (F ino i =? d) && negb (d =? NEW_ADDR) && negb (d =? NULL_ADDR) && is_valid_blkaddr g d) with (negb (F ino i =? d) && wanted g d)
    by (unfold wanted; rewrite !andb_assoc; reflexivity).
  destruct (Z.eqb_spec (F ino i) d) as [E | Hne]; cbn [negb andb].
  { exists 0, fs, F; split; [reflexivity|]; split; [exact HF|]; split; [apply same_dom_refl|]; intros _.
    destruct (wanted g d); [rewrite <- E; apply placed_refl | reflexivity]. }
  destruct (wanted g d) eqn:Ew; [|exists 0, fs, F; auto using same_dom_refl].
  unfold wanted in Ew; unfold NULL_ADDR in *; bool_cases; set (a := if F ino i =? 0 then NEW_ADDR else F ino i).
  set (t1 := if F ino i =? 0 then _ else t).
  assert (R1 : tree_rep (b ino) ino (X ino) t1 (Gs ino) (upd (F ino) i a)).
  { unfold t1, a; destruct (Z.eqb_spec (F ino i) 0) as [E0 | _].
    - unfold reserve_new_block, inc_valid_block_count; rewrite Ena, Ebr; cbn [negb Z.eqb dn_page dn_ofs orb].
      apply (tree_rep_file _ _ _ _ _ _ _ _ _ HT); [destruct (dn_page dn); repeat split|].
      apply (rep_tally (b ino)); [apply reserve_entry; assumption | | lia].
      rewrite orb_false_r; destruct (dn_page dn); exact (r_bug _ _ _ _ _ R).
    - apply (tree_rep_file _ _ _ _ _ _ _ _ _ HT); [apply same_file_refl|]; revert R; apply rep_ext; intros j _; rewrite upd_id; reflexivity. }
  clearbody t1; pose proof (files_rep_set _ _ _ _ _ _ _ _ HF R1) as HF1; set (F1 := mset F ino (upd (F ino) i a)) in *.
  set (dn' := mk_dn (dn_nid dn) (dn_page dn) ofs (dn_addr dn)).
  destruct (check_index_ok b X (<[ino := t1]> fs) Gs F1 w (rw_prev w ofs d) d ino start dn' HF1 ltac:(assumption) Hn Herr Hown) as (err & fs2 & F2 & -> & HF2 & HM & HD).
  cbn [mbind outcome_bind]; assert (Hdom : same_dom fs fs2) by (apply (same_dom_trans _ (<[ino := t1]> fs)); [apply same_dom_set; eauto | exact HD]).
  destruct (Z.eqb_spec err 0) as [-> | He]; cbn [negb]; [|exists err, fs2, F2; repeat (split; [assumption || reflexivity|]); intros; contradiction].
  assert (Ea : F1 ino i = a) by (unfold F1, mset; rewrite Z.eqb_refl; apply fun_upd_same).
  assert (Ha : a <> 0 /\ a <> d) by (unfold a; destruct (Z.eqb_spec (F ino i) 0); [split; [vm_compute; congruence | auto] | auto]).
  assert (E2 : F2 ino i = a) by (destruct (HM ino i) as [E | [E _]]; [congruence | exfalso; apply (proj2 Ha); congruence]).
  destruct (replace_ok fs2 F2 i ofs d HF2 ltac:(apply Hdom; eauto) HA ltac:(rewrite E2; apply Ha) ltac:(assumption)) as [HF3 HD3].
  exists 0; eexists _, _; split; [reflexivity|]; split; [exact HF3|]; split; [exact (same_dom_trans _ _ _ Hdom HD3)|]; intros _; split.
  - unfold mset; rewrite Z.eqb_refl; apply fun_upd_same.
  - intros i' j Hij; assert (E3 : mset F2 ino (upd (F2 ino) i d) i' j = F2 i' j /\ F1 i' j = F i' j).
    { unfold F1, mset; destruct (Z.eqb_spec i' ino) as [-> |]; [rewrite !upd_other by (intros ->; apply Hij; auto)|]; auto. }
    destruct E3 as [-> E3]; rewrite <- E3; exact (HM i' j).
Qed.

Lemma recover_indexes_ok n : forall fs F lo, files_rep b X fs Gs F -> is_Some (fs !! ino) -> 0 <= lo -> lo + Z.of_nat n <= node_count (X ino) dn ->
  distinct g page (node_count (X ino) dn) -> (forall o, 0 <= o < node_count (X ino) dn -> entry_world w X ino o ((ln_addr page).[o])) ->
  exists err fs' F', recover_indexes n w g page ino dn lo fs = Done (err, fs') /\ files_rep b X fs' Gs F' /\ same_dom fs fs' /\
    (err = 0 -> replayed g page ino start lo (lo + Z.of_nat n) F F').
Proof.
  induction n as [|n IH]; intros fs F lo HF Hin Hlo Hhi HD HW; cbn [recover_indexes].
  { exists 0, fs, F; split; [reflexivity|]; split; [exact HF|]; split; [apply same_dom_refl|]; intros _; rewrite Z.add_0_r; apply replayed_nil. }
  destruct (recover_index_ok fs F lo HF Hin ltac:(lia) (HW lo ltac:(lia))) as (err & fs1 & F1 & -> & HF1 & Hd1 & H1); cbn [mbind outcome_bind].
  destruct (Z.eqb_spec err 0) as [-> | He]; cbn [negb]; [|exists err, fs1, F1; repeat (split; [assumption || reflexivity|]); intros; contradiction].
  destruct (IH fs1 F1 (lo + 1) HF1 ltac:(apply Hd1; exact Hin) ltac:(lia) ltac:(lia) HD HW) as (err & fs' & F' & -> & HF' & Hd' & H').
  exists err, fs', F'; split; [reflexivity|]; split; [exact HF'|]; split; [exact (same_dom_trans _ _ _ Hd1 Hd')|]; intros He.
  replace (lo + Z.of_nat (S n)) with (lo + 1 + Z.of_nat n) by lia; exact (replayed_cons g page ino start (node_count (X ino) dn) lo (lo + 1 + Z.of_nat n) F F1 F' HD ltac:(lia) ltac:(lia) (H1 eq_refl) (H' He)).
Qed.

End Index.

(** * Recovering a node *)

(** The id in the result of a walk that adds nodes is that of the page. *)
Lemma levels_alloc_id w offset level n : forall i parent nid t r t', level = i + Z.of_nat n - 1 -> (0 < n)%nat ->
  dnode_levels n w ALLOC_NODE offset level i parent nid t = Done (inr r, t') -> snd r = Some (fst r).
Proof.
  assert (Hl : forall i parent nid t id page t', dnode_level w ALLOC_NODE offset level i parent nid t = Done (inr (id, page), t') -> id = page).
  { intros i parent nid t id page t'; cbn; destruct (nid =? 0).
    - destruct (tw_nid w i) as [m|]; [|discriminate]; destruct (new_node_page w m t) as [err t1]; destruct (err <? 0); [discriminate|]; intros [=]; congruence.
    - destruct (get_node_page w t nid); [discriminate|]; intros [=]; congruence. }
  induction n as [|n IH]; intros i parent nid t r t' Hlev Hn E; [lia|]; cbn [dnode_levels] in E.
  destruct (dnode_level w ALLOC_NODE offset level i parent nid t) as [[[e | [id page]] t1] | |] eqn:E1; cbn [mbind outcome_bind] in E; try discriminate E.
  pose proof (Hl _ _ _ _ _ _ _ E1) as <-; destruct (Z.ltb_spec i level); [apply (IH (i + 1) _ _ _ _ _ ltac:(lia) ltac:(lia) E) | injection E as <- _; reflexivity].
Qed.

Lemma dnode_alloc_id w have i t dn t' : 0 <= i < max_blocks (ft_inline_xattr t) -> get_dnode_of_data w have i ALLOC_NODE t = Done (inr dn, t') ->
  dn_nid dn = match dn_page dn with None => ft_ino t | Some n => n end.
Proof.
  intros Hi; unfold get_dnode_of_data; destruct (get_node_path (ft_inline_xattr t) i) as [p|] eqn:Ep; [|discriminate].
  destruct (negb have && _); [discriminate|]; destruct (ft_inline_data t && _); [discriminate|]; destruct (Z.eqb_spec (np_level p) 0) as [_ | Hl]; cbn [mbind outcome_bind].
  { intros [= <- _]; reflexivity. }
  assert (Hlev : 0 <= np_level p).
  { destruct (get_node_path_cases _ i Hi) as [[_ E] | (k & o & _ & _ & [[_ E] | [[_ E] | [(j & _ & _ & E) | [(j & _ & _ & E) | (j & j' & _ & _ & _ & E)]]]])];
      rewrite E in Ep; injection Ep as <-; cbn; lia. }
  destruct (dnode_levels _ _ _ _ _ _ _ _ _) as [[[e | r] t1] | |] eqn:E; cbn [mbind outcome_bind]; try discriminate.
  assert (Er : snd r = Some (fst r)) by (eapply levels_alloc_id; [| |exact E]; lia); destruct r as [id page]; cbn in Er; subst page.
  intros [= <- _]; reflexivity.
Qed.

(** The footer of the node whose first block is [start]. *)
Definition node_start (x : bool) (page : log_node) (start : Z) : Prop :=
  0 <= start < max_blocks x /\ exists p, get_node_path x start = Some p /\ ofs_of_node (ln_footer page) = dnode_of p /\
    ofs_in_dnode p = 0 /\ IS_INODE page = (np_level p =? 0).

Definition page_count (x : bool) (page : log_node) : Z := if IS_INODE page then addrs_per_inode x else 1018.

Lemma node_start_facts x page start : node_start x page start ->
  start_bidx_of_node (ofs_of_node (ln_footer page)) x = start /\ f2fs_has_xattr_block (ofs_of_node (ln_footer page)) = false.
Proof.
  intros (Hs & p & Ep & -> & Eo & _); destruct (get_node_path_dnode x start Hs) as (p' & Ep' & Eb & _ & Hd); assert (p' = p) as -> by congruence.
  split; [lia|]; apply Z.eqb_neq; change XATTR_NODE_OFFSET with 536870911; lia.
Qed.

Lemma node_start_at x page start G ino dn : node_start x page start -> at_index x G start (dn_page dn) (dn_ofs dn) ->
  dn_nid dn = match dn_page dn with None => ino | Some n => n end ->
  node_at x G ino start dn /\ dn_ofs dn = 0 /\ node_count x dn = page_count x page.
Proof.
  intros (Hs & p & Ep & _ & Eo & EI) HA En; unfold node_count, page_count; rewrite EI.
  destruct (get_node_path_cases x start Hs) as [[Hlt E] | (k & o & Ho & Es & E)]; cbv zeta in *.
  - rewrite E in Ep; injection Ep as <-; unfold ofs_in_dnode in Eo; cbn in Eo; change ([start].[0]) with start in Eo; subst start; cbn [np_level Z.eqb].
    destruct HA as [(Ep & Eofs & _) | (k & n & _ & _ & Hk & Ho & Es)]; [|unfold dn_start in Es; lia].
    rewrite Ep in En |- *; split; [left; auto | auto].
  - assert (Hp : ofs_in_dnode p = o /\ (np_level p =? 0) = false /\ 0 <= k).
    { destruct E as [[? E] | [[? E] | [(j & ? & ? & E) | [(j & ? & ? & E) | (j & j' & ? & ? & ? & E)]]]]; rewrite E in Ep; injection Ep as <-; (split; [reflexivity | split; [reflexivity | lia]]). }
    destruct Hp as (Eo' & -> & Hk); destruct HA as [(_ & _ & Hlt) | (k' & n & Ep' & EG & Hk' & Ho' & Es')]; [lia|].
    assert (dn_ofs dn = 0 /\ start = dn_start x k') as [E0 Est] by (unfold dn_start in *; lia).
    rewrite Ep' in En |- *; split; [right; exists k', n; auto | auto].
Qed.

(** Copying attributes leaves the addresses alone. *)
Lemma copy_words_keep from n src dst : 0 <= from -> 0 <= n ->
  zlen (copy_words from n src dst) = zlen dst /\ forall i, i < from -> (copy_words from n src dst).[i] = dst.[i].
Proof.
  intros Hf Hn; unfold copy_words; apply (for_range_inv (fun l => zlen l = zlen dst /\ forall i, i < from -> l.[i] = dst.[i])); [auto|].
  intros i l Hi [Hl He]; split; [rewrite zlen_aset; exact Hl|]; intros j Hj; rewrite aget_aset_ne by lia; apply He; exact Hj.
Qed.

Lemma rep_inline b t G s f addr : rep b t G s f -> zlen addr = 923 ->
  (forall o, 0 <= o < addrs_per_inode (ft_inline_xattr t) -> addr.[o] = (ft_addr t).[o]) ->
  rep b (with_inline (ft_inline_xattr t) (ft_inline_data t) addr t) G s f.
Proof. intros [A N P PT I D C IN DA B BG] Hl He; constructor; cbn; auto; intros o Ho; rewrite He by exact Ho; auto. Qed.

Lemma recover_xattr_ok b ino x t G f w page : tree_rep b ino x t G f -> ln_inline_xattr page = x -> 0 <= tw_page_err w ino ->
  exists t', recover_inline_xattr w page t = Done t' /\ tree_rep b ino x t' G f /\ ft_pages t' = ft_pages t.
Proof.
  intros HT Ep Hr; pose proof HT as (Ei & Ex & Hin & Hb & R); unfold recover_inline_xattr, inode_page_err; rewrite Ei.
  rewrite (proj2 (Z.ltb_ge (tw_page_err w ino) 0)) by exact Hr; change (0 <? 0) with false; cbv iota; rewrite Ep.
  assert (Hx : forall addr, zlen addr = 923 -> (forall o, 0 <= o < addrs_per_inode x -> addr.[o] = (ft_addr t).[o]) ->
    tree_rep b ino x (with_inline x (ft_inline_data t) addr t) G f).
  { intros addr Hl He; clear Ep; subst x; apply (tree_rep_file _ _ _ _ _ _ _ _ _ HT); [repeat split | apply rep_inline; assumption]. }
  destruct x; cbn [negb]; (eexists; split; [reflexivity|]; split; [|reflexivity]).
  - rewrite Ex; destruct (copy_words_keep 873 50 (ln_addr page) (ft_addr t)) as [Hl He]; [lia | lia|].
    apply Hx; [change (DEF_ADDRS_PER_INODE - F2FS_INLINE_XATTR_ADDRS) with 873; change F2FS_INLINE_XATTR_ADDRS with 50; rewrite Hl; exact (r_addr _ _ _ _ _ R)|].
    intros o Ho; apply He; change (addrs_per_inode true) with 873 in Ho; lia.
  - apply Hx; [exact (r_addr _ _ _ _ _ R) | reflexivity].
Qed.

(** What the replay of a block of the log can rely on, with the file [t] it belongs to. *)
Record page_world (w : rworld) (g : geometry) (X : Z -> bool) (page : log_node) (ino start : Z) (t : ftree) : Prop := {
  pg_start : node_start (X ino) page start;
  pg_ino : ino_of_node (ln_footer page) = ino;
  pg_inline : IS_INODE page = true -> ln_inline_data page = false /\ ln_inline_xattr page = X ino;
  pg_distinct : distinct g page (page_count (X ino) page);
  pg_readable : 0 <= tw_page_err (rw_tree w) ino;
  pg_fresh : fresh_from (rw_tree w) t 1;
  pg_entries : forall o, 0 <= o < page_count (X ino) page -> entry_world w X ino o ((ln_addr page).[o]);
}.

Definition gset_at (Gs : Z -> gmap tnode Z) (ino : Z) (G : gmap tnode Z) : Z -> gmap tnode Z := fun i => if i =? ino then G else Gs i.

Lemma files_rep_grow b X fs Gs F ino t G f : files_rep b X fs Gs F -> tree_rep (b ino) ino (X ino) t G f ->
  files_rep b X (<[ino := t]> fs) (gset_at Gs ino G) (mset F ino f).
Proof.
  intros H Ht i u Eu; unfold mset, gset_at; destruct (Z.eqb_spec i ino) as [-> | Hne].
  - rewrite lookup_insert_eq in Eu; injection Eu as <-; exact Ht.
  - rewrite lookup_insert_ne in Eu by congruence; exact (H i u Eu).
Qed.

Lemma mset_same F ino i j : mset F ino (F ino) i j = F i j.
Proof. unfold mset; destruct (Z.eqb_spec i ino) as [-> |]; reflexivity. Qed.

Lemma replayed_ext g page ino start lo hi F G F' : (forall i j, F i j = G i j) -> replayed g page ino start lo hi F F' -> replayed g page ino start lo hi G F'.
Proof. intros E [P1 P2]; split; [exact P1|]; intros i j H; rewrite <- E; apply P2; exact H. Qed.

(** The replay of a node: an error, or its entries are in place. *)
Lemma do_recover_ok b X fs Gs F w g page ino start t : files_rep b X fs Gs F -> fs !! ino = Some t -> page_world w g X page ino start t ->
  exists err fs' Gs' F', do_recover_data w g page ino fs = Done (err, fs') /\ files_rep b X fs' Gs' F' /\ same_dom fs fs' /\
    (err = 0 -> replayed g page ino start 0 (page_count (X ino) page) F F').
Proof.
  intros HF Et [Hst Hino Hinl Hdis Hrd Hfr Hent]; pose proof (HF ino t Et) as HT; unfold do_recover_data; rewrite Et.
  destruct (node_start_facts _ _ _ Hst) as [Eb Exa]; rewrite Exa, andb_false_r.
  assert (Hx : exists t1, (if IS_INODE page then recover_inline_xattr (rw_tree w) page t else Done t) = Done t1 /\
    tree_rep (b ino) ino (X ino) t1 (Gs ino) (F ino) /\ ft_pages t1 = ft_pages t).
  { destruct (IS_INODE page); [apply (recover_xattr_ok _ _ _ _ _ _ _ page HT); [apply Hinl; reflexivity | exact Hrd] | eauto]. }
  destruct Hx as (t1 & -> & HT1 & Ep1); cbn [mbind outcome_bind]; pose proof HT1 as (Ei1 & Ex1 & Hin1 & Hb & R1).
  unfold recover_inline_data; rewrite Hin1; cbn [andb].
  assert (En : IS_INODE page && ln_inline_data page = false) by (destruct (IS_INODE page); [apply Hinl; reflexivity | reflexivity]).
  rewrite En; cbn [mbind outcome_bind]; rewrite Ex1, Eb; pose proof Hst as (Hs & p & Epath & Eofs & _).
  assert (Hfr1 : fresh_from (rw_tree w) t1 1) by (intros j n Hj Ej; rewrite Ep1; exact (Hfr j n Hj Ej)).
  assert (Hc0 : 0 < page_count (X ino) page) by (unfold page_count; destruct (addrs_per_inode_cases (X ino)), (IS_INODE page); lia).
  assert (Herr : forall n, tw_page_err (rw_tree w) n <> - ENOENT) by apply (Hent 0 ltac:(lia)).
  destruct (dnode_alloc (b ino) t1 (Gs ino) (F ino) (rw_tree w) false start R1 Hin1 ltac:(rewrite Ex1; exact Hs) Herr Hfr1) as (r & t2 & G2 & E2 & R2 & _ & (HS & _) & Hr).
  pose proof (tree_rep_file _ _ _ _ _ _ _ _ _ HT1 HS R2) as HT2; pose proof HT2 as (Ei2 & Ex2 & _ & _).
  assert (Hdom : forall u, same_dom fs (<[ino := u]> fs)) by (intros u; apply same_dom_set; eauto).
  rewrite E2; cbn [mbind outcome_bind]; destruct r as [err | dn].
  { exists err; eexists _, _, _; split; [reflexivity|]; split; [exact (files_rep_grow _ _ _ _ _ _ _ _ _ HF HT2)|]; split; [apply Hdom | intros ->; lia]. }
  destruct Hr as [HA _]; rewrite Ex1 in HA; pose proof (dnode_alloc_id _ _ _ _ _ _ ltac:(rewrite Ex1; exact Hs) E2) as Eid; rewrite Ei1 in Eid.
  destruct (node_start_at _ _ _ _ ino dn Hst HA Eid) as (Hn & -> & Ecnt).
  unfold node_offset; rewrite Ei2, Hino, Ex2, Epath, Eofs, !Z.eqb_refl; cbn [negb orb].
  set (t3 := with_tally _ _ _ _ t2).
  assert (HT3 : tree_rep (b ino) ino (X ino) t3 G2 (F ino)).
  { apply (tree_rep_file _ _ _ _ _ _ _ _ _ HT2); [repeat split|]; apply (rep_tally (b ino)); [exact R2 | rewrite orb_false_r; exact (r_bug _ _ _ _ _ R2) | lia]. }
  assert (Hn' : node_at (X ino) (gset_at Gs ino G2 ino) ino start dn) by (unfold gset_at; rewrite Z.eqb_refl; exact Hn).
  change (if IS_INODE page then addrs_per_inode (X ino) else ADDRS_PER_BLOCK) with (page_count (X ino) page).
  destruct (recover_indexes_ok b X (gset_at Gs ino G2) w g page ino start dn Hn' (Z.to_nat (page_count (X ino) page)) (<[ino := t3]> fs) _ 0
    (files_rep_grow _ _ _ _ _ _ _ _ _ HF HT3) ltac:(rewrite lookup_insert_eq; eauto) ltac:(lia) ltac:(rewrite Ecnt, Z2Nat.id by lia; lia)
    ltac:(rewrite Ecnt; exact Hdis) ltac:(rewrite Ecnt; exact Hent)) as (err & fs' & F' & -> & HF' & Hd' & Hr').
  exists err, fs'; eexists _, F'; split; [reflexivity|]; split; [exact HF'|]; split; [exact (same_dom_trans _ _ _ (Hdom t3) Hd')|].
  intros He; specialize (Hr' He); rewrite Z.add_0_l, Z2Nat.id in Hr' by lia; revert Hr'; apply replayed_ext; intros; apply mset_same.
Qed.
