(* ===== verification/RecoverLog.v ===== *)
(** Roll-forward recovery along the chain of node blocks: when it ends, which inodes it
    finds, and which blocks the files have afterwards. *)

From Stdlib Require Import ZArith Lia Bool.
From stdpp Require Import base numbers list gmap.
From S2P Require Import Prelude Layout NodePath SmState NodeTree NodeTreeInv NodeTreeOps FileMap Collapse Recovery RecoverData.

#[local] Open Scope Z_scope.
#[local] Ltac Zify.zify_post_hook ::= Z.to_euclidean_division_equations.

(** * The chain *)

Section Chain.
Variables (g : geometry) (por : Z -> log_node) (cp_ver : Z).

(** The block has a node that was written after the checkpoint. *)
Definition in_log (a : Z) : bool := is_valid_blkaddr g a && (cp_ver =? cpver_of_node (ln_footer (por a))).

(** The blocks from [a] to the end of the chain. *)
Inductive log_chain : Z -> list Z -> Prop :=
| chain_end a : in_log a = false -> log_chain a []
| chain_next a l : in_log a = true -> log_chain (next_blkaddr_of_node (ln_footer (por a))) l -> log_chain a (a :: l).

Lemma chain_det a l : log_chain a l -> forall l', log_chain a l' -> l = l'.
Proof.
  induction 1 as [a H | a l H _ IH]; intros l' H'; inversion H' as [? E | ? ? E C]; subst; try congruence.
  rewrite (IH _ C); reflexivity.
Qed.

Lemma chain_suffix a p c s : log_chain a (p ++ c :: s) -> log_chain c (c :: s).
Proof.
  revert a; induction p as [|b p IH]; intros a H; inversion H as [| ? ? E C]; subst; [exact H | exact (IH _ C)].
Qed.

Lemma chain_nodup a l : log_chain a l -> NoDup l.
Proof.
  induction 1 as [a H | a l H C IH]; constructor; [|exact IH]; intros Hin; apply list_elem_of_split in Hin as (p & s & ->).
  pose proof (chain_suffix _ _ _ _ C) as C'; pose proof (chain_det _ _ (chain_next _ _ H C) _ C') as E.
  apply (f_equal length) in E; cbn in E; rewrite length_app in E; cbn in E; lia.
Qed.

Lemma chain_in_log a l : log_chain a l -> forall c, c ∈ l -> in_log c = true.
Proof. induction 1 as [| a l H _ IH]; intros c Hc; [inversion Hc|]; apply elem_of_cons in Hc; destruct Hc as [-> | Hc]; auto. Qed.

Lemma chain_short_enough a l : log_chain a l -> (length l < chain_fuel g)%nat.
Proof.
  intros C; unfold chain_fuel; apply Nat.lt_succ_r.
  assert (Hs : l ⊆+ seqZ (MAIN_BLKADDR g) (MAX_BLKADDR g - MAIN_BLKADDR g)).
  { apply NoDup_submseteq; [exact (chain_nodup a l C)|]; intros c Hc; apply elem_of_seqZ; apply (chain_in_log a l C) in Hc.
    unfold in_log, is_valid_blkaddr in Hc; bool_cases; lia. }
  apply submseteq_length in Hs; rewrite length_seqZ in Hs; exact Hs.
Qed.

(** * The first pass *)

(** The answers in the first pass let it go on; an inode may be missing. *)
Definition answers_ok (w : por_world) : Prop :=
  forall a, pw_inode_page w a = 0 /\ pw_memory w a = true /\ (pw_iget w a = - ENOENT \/ 0 <= pw_iget w a).

Definition noted (w : por_world) (head : list fsync_inode_entry) (a : Z) : list fsync_inode_entry :=
  if is_fsync_dnode (por a) then snd (note_fsync w (por a) a head) else head.

Lemma note_ok w a head : answers_ok w -> fst (note_fsync w (por a) a head) = 0.
Proof.
  intros Hw; destruct (Hw a) as (H1 & H2 & H3); unfold note_fsync; rewrite H1, H2.
  destruct (get_fsync_inode _ _); [reflexivity|]; replace (if IS_INODE (por a) && is_dent_dnode (por a) then 0 else 0) with 0 by (destruct (IS_INODE (por a) && is_dent_dnode (por a)); reflexivity); cbn [Z.eqb negb].
  destruct (Z.ltb_spec (pw_iget w a) 0); [|reflexivity]; destruct H3 as [-> |]; [reflexivity | lia].
Qed.

Lemma find_from_step w fuel a head : answers_ok w ->
  find_from (S fuel) w g por cp_ver a head =
  if in_log a then find_from fuel w g por cp_ver (next_blkaddr_of_node (ln_footer (por a))) (noted w head a) else Done (0, head).
Proof.
  intros Hw; unfold in_log; cbn [find_from]; destruct (is_valid_blkaddr g a); [|reflexivity]; destruct (cp_ver =? _); [|reflexivity]; cbn [negb andb].
  unfold noted; pose proof (note_ok w a head Hw) as E; destruct (is_fsync_dnode (por a)); [|reflexivity].
  destruct (note_fsync w (por a) a head) as [err h]; cbn in E; subst err; reflexivity.
Qed.

Lemma find_chain w a l : answers_ok w -> log_chain a l -> forall fuel head, (length l < fuel)%nat ->
  find_from fuel w g por cp_ver a head = Done (0, fold_left (noted w) l head).
Proof.
  intros Hw; induction 1 as [a H | a l H _ IH]; intros [|fuel] head Hf; cbn in Hf; try lia; rewrite find_from_step, H by exact Hw; [reflexivity|].
  apply IH; lia.
Qed.

Lemma find_ends w fuel : answers_ok w -> forall a head r, find_from fuel w g por cp_ver a head = Done r -> exists l, log_chain a l.
Proof.
  intros Hw; induction fuel as [|fuel IH]; intros a head r E; [discriminate|]; rewrite find_from_step in E by exact Hw.
  destruct (in_log a) eqn:Ea; [|exists []; constructor; exact Ea]; destruct (IH _ _ _ E) as [l C]; exists (a :: l); constructor; assumption.
Qed.

Lemma find_no_bug w fuel : answers_ok w -> forall a head, find_from fuel w g por cp_ver a head <> Bug.
Proof.
  intros Hw; induction fuel as [|fuel IH]; intros a head; [discriminate|]; rewrite find_from_step by exact Hw; destruct (in_log a); [apply IH | discriminate].
Qed.

(** * The entries *)

(** The last node of an inode with the fsync mark. *)
Definition fsync_of (ino a : Z) : bool := is_fsync_dnode (por a) && (ino_of_node (ln_footer (por a)) =? ino).

Fixpoint last_fsync (l : list Z) (ino : Z) : option Z :=
  match l with
  | [] => None
  | a :: l => match last_fsync l ino with Some b => Some b | None => if fsync_of ino a then Some a else None end
  end.

Lemma last_fsync_snoc l a ino : last_fsync (l ++ [a]) ino = if fsync_of ino a then Some a else last_fsync l ino.
Proof. induction l as [|b l IH]; cbn; [destruct (fsync_of ino a); reflexivity|]; rewrite IH; destruct (fsync_of ino a); reflexivity. Qed.

Record entries_ok (w : por_world) (l : list Z) (head : list fsync_inode_entry) : Prop := {
  eo_nodup : NoDup (map fe_ino head);
  eo_last : forall e, e ∈ head -> last_fsync l (fe_ino e) = Some (fe_blkaddr e);
  eo_all : forall a, a ∈ l -> is_fsync_dnode (por a) = true -> 0 <= pw_iget w a ->
    exists e, e ∈ head /\ fe_ino e = ino_of_node (ln_footer (por a));
}.

Lemma find_entry (head : list fsync_inode_entry) ino :
  match get_fsync_inode head ino with
  | Some e => e ∈ head /\ fe_ino e = ino
  | None => forall e, e ∈ head -> fe_ino e <> ino
  end.
Proof.
  unfold get_fsync_inode; destruct (List.find _ head) as [e|] eqn:E.
  - apply List.find_some in E; destruct E as [E1 E2]; split; [apply list_elem_of_In; exact E1 | apply Z.eqb_eq; exact E2].
  - intros e He; apply list_elem_of_In in He; pose proof (List.find_none _ _ E e He) as H; apply Z.eqb_neq; exact H.
Qed.

Lemma stamp_ino page a e : fe_ino (stamp page a e) = fe_ino e.
Proof. unfold stamp; destruct (_ =? _); reflexivity. Qed.

Lemma stamp_inos page a head : map fe_ino (map (stamp page a) head) = map fe_ino head.
Proof. rewrite map_map; apply map_ext; intros e; apply stamp_ino. Qed.

Lemma stamp_last l a e : is_fsync_dnode (por a) = true ->
  fe_ino e = ino_of_node (ln_footer (por a)) \/ last_fsync l (fe_ino e) = Some (fe_blkaddr e) ->
  last_fsync (l ++ [a]) (fe_ino (stamp (por a) a e)) = Some (fe_blkaddr (stamp (por a) a e)).
Proof.
  intros Hf He; rewrite stamp_ino, last_fsync_snoc; unfold fsync_of, stamp; rewrite Hf, (Z.eqb_sym _ (fe_ino e)); cbn [andb].
  destruct (Z.eqb_spec (fe_ino e) (ino_of_node (ln_footer (por a)))) as [| Hne]; [reflexivity | destruct He as [He | He]; [contradiction | exact He]].
Qed.

(** The entries after a stamp on the entries [h], which have those of [head]. *)
Lemma entries_stamp w l head h a : entries_ok w l head -> is_fsync_dnode (por a) = true -> NoDup (map fe_ino h) ->
  (forall e, e ∈ h -> e ∈ head \/ fe_ino e = ino_of_node (ln_footer (por a))) -> (forall e, e ∈ head -> e ∈ h) ->
  (exists e, e ∈ h /\ fe_ino e = ino_of_node (ln_footer (por a))) -> entries_ok w (l ++ [a]) (map (stamp (por a) a) h).
Proof.
  intros [_ Hl Ha] Hf Hnd Hh Hsub (e0 & He0 & Ei0).
  assert (Hin : forall e, e ∈ h -> stamp (por a) a e ∈ map (stamp (por a) a) h) by (intros e He; apply list_elem_of_fmap; eauto).
  constructor; [rewrite stamp_inos; exact Hnd | |].
  - intros e He; apply list_elem_of_fmap in He; destruct He as (e1 & -> & He1); apply stamp_last; [exact Hf|].
    destruct (Hh e1 He1) as [H | H]; [right; apply Hl; exact H | left; exact H].
  - intros c Hc Hfc Hi; apply elem_of_app in Hc; destruct Hc as [Hc | Hc].
    + destruct (Ha c Hc Hfc Hi) as (e & He & Ee); exists (stamp (por a) a e); rewrite stamp_ino; auto.
    + apply list_elem_of_singleton in Hc; subst c; exists (stamp (por a) a e0); rewrite stamp_ino; auto.
Qed.

Lemma entries_snoc w l head a : entries_ok w l head -> answers_ok w -> entries_ok w (l ++ [a]) (noted w head a).
Proof.
  intros HE Hw; unfold noted; destruct (is_fsync_dnode (por a)) eqn:Hf.
  2:{ destruct HE as [Hn Hl Ha]; constructor; [exact Hn | |].
      - intros e He; rewrite last_fsync_snoc; unfold fsync_of; rewrite Hf; apply Hl; exact He.
      - intros c Hc Hfc; apply elem_of_app in Hc; destruct Hc as [Hc | Hc]; [apply Ha; assumption | apply list_elem_of_singleton in Hc; congruence]. }
  destruct (Hw a) as (H1 & H2 & H3); unfold note_fsync; rewrite H1, H2; set (ino := ino_of_node (ln_footer (por a))).
  pose proof (find_entry head ino) as Hg; destruct (get_fsync_inode head ino) as [e|]; cbn [snd].
  { destruct Hg as [He Ee]; apply (entries_stamp w l head); auto; [exact (eo_nodup _ _ _ HE) | eauto]. }
  replace (if IS_INODE (por a) && is_dent_dnode (por a) then 0 else 0) with 0 by (destruct (IS_INODE (por a) && is_dent_dnode (por a)); reflexivity).
  cbn [Z.eqb negb]; destruct (Z.ltb_spec (pw_iget w a) 0) as [Hi | Hi]; cbn [snd].
  - destruct HE as [Hn Hl Ha]; constructor; [exact Hn | |].
    + intros e He; rewrite last_fsync_snoc; unfold fsync_of; rewrite Hf; fold ino; cbn [andb].
      destruct (Z.eqb_spec ino (fe_ino e)) as [E | _]; [exfalso; apply (Hg e He); congruence | apply Hl; exact He].
    + intros c Hc Hfc Hi'; apply elem_of_app in Hc; destruct Hc as [Hc | Hc]; [apply Ha; assumption | apply list_elem_of_singleton in Hc; subst c; lia].
  - apply (entries_stamp w l head); auto.
    + rewrite map_app; cbn [map]; apply NoDup_app; split; [exact (eo_nodup _ _ _ HE)|]; split; [|apply NoDup_singleton].
      intros i Hi' Hi''; apply list_elem_of_singleton in Hi''; subst i; apply list_elem_of_fmap in Hi'; destruct Hi' as (e & Ee & He); apply (Hg e He); symmetry; exact Ee.
    + intros e He; apply elem_of_app in He; destruct He as [He | He]; [auto | apply list_elem_of_singleton in He; subst e; right; reflexivity].
    + intros e He; apply elem_of_app; left; exact He.
    + exists (mk_fe ino 0 0 0); split; [apply elem_of_app; right; apply list_elem_of_singleton; reflexivity | reflexivity].
Qed.

Lemma entries_found w l : answers_ok w -> entries_ok w l (fold_left (noted w) l []).
Proof.
  intros Hw; induction l as [|a l IH] using rev_ind; [|rewrite fold_left_app; cbn; apply entries_snoc; assumption].
  constructor; [constructor | |]; intros ? H; inversion H.
Qed.
End Chain.

(** * The second pass *)

Section Replay.
Variables (g : geometry) (por : Z -> log_node) (cp_ver : Z) (b : Z -> Z) (X : Z -> bool) (ws : Z -> rworld).

Definition ino_at (a : Z) : Z := ino_of_node (ln_footer (por a)).
Definition start_at (a : Z) : Z := start_bidx_of_node (ofs_of_node (ln_footer (por a))) (X (ino_at a)).
Definition count_at (a : Z) : Z := page_count (X (ino_at a)) (por a).

(** What the replay relies on at each block, in the state it has reached then. *)
Fixpoint log_world (s : list Z) (head : list fsync_inode_entry) (fs : files) : Prop :=
  match s with
  | [] => True
  | a :: s =>
      (forall e t, get_fsync_inode head (ino_at a) = Some e -> fs !! ino_at a = Some t ->
         page_world (ws a) g X (por a) (ino_at a) (start_at a) t) /\
      forall head' fs', recover_node (ws a) g (por a) a head fs = Done (0, (head', fs')) -> log_world s head' fs'
  end.

(** The nodes that are replayed: those of an inode of [R] up to the last with the mark. *)
Definition replays_node (R s : list Z) (a : Z) : bool := bool_decide (ino_at a ∈ R) && bool_decide (is_Some (last_fsync por (a :: s) (ino_at a))).

Fixpoint replays (R s : list Z) (F F' : maps) : Prop :=
  match s with
  | [] => F' = F
  | a :: s =>
      if replays_node R s a then exists F1, replayed g (por a) (ino_at a) (start_at a) 0 (count_at a) F F1 /\ replays R s F1 F'
      else replays R s F F'
  end.

(** The entries for the rest [s] of the chain. *)
Record pending (R s : list Z) (head : list fsync_inode_entry) : Prop := {
  pe_nodup : NoDup (map fe_ino head);
  pe_last : forall e, e ∈ head -> last_fsync por s (fe_ino e) = Some (fe_blkaddr e);
  pe_in : forall e, e ∈ head -> fe_ino e ∈ R;
  pe_all : forall i, i ∈ R -> is_Some (last_fsync por s i) -> exists e, e ∈ head /\ fe_ino e = i;
}.

Lemma pending_nil R head : pending R [] head -> head = [].
Proof. intros [_ Hl _ _]; destruct head as [|e head]; [reflexivity|]; discriminate (Hl e ltac:(left)). Qed.

Lemma last_fsync_cons a s i : last_fsync por (a :: s) i = match last_fsync por s i with Some c => Some c | None => if fsync_of por i a then Some a else None end.
Proof. reflexivity. Qed.

Lemma last_fsync_in s i c : last_fsync por s i = Some c -> c ∈ s /\ fsync_of por i c = true.
Proof.
  induction s as [|a s IH]; [discriminate|]; rewrite last_fsync_cons; destruct (last_fsync por s i) as [d|].
  - intros [= ->]; destruct (IH eq_refl); split; [right; assumption | assumption].
  - destruct (fsync_of por i a) eqn:E; [|discriminate]; intros [= <-]; split; [left | exact E].
Qed.

(** The entry of another inode stays pending. *)
Lemma last_fsync_other a s i c : ino_at a <> i -> last_fsync por (a :: s) i = Some c -> last_fsync por s i = Some c.
Proof.
  intros Hne; rewrite last_fsync_cons; destruct (last_fsync por s i); [auto|]; unfold fsync_of; fold (ino_at a); rewrite (proj2 (Z.eqb_neq _ _) Hne), andb_false_r; discriminate.
Qed.

Lemma entry_unique (head : list fsync_inode_entry) e e' : NoDup (map fe_ino head) -> e ∈ head -> e' ∈ head -> fe_ino e = fe_ino e' -> e = e'.
Proof.
  induction head as [|h head IH]; intros Hn He He' E; [inversion He|]; cbn in Hn; apply NoDup_cons in Hn; destruct Hn as [Hh Hn].
  assert (Hc : forall d, d ∈ head -> fe_ino d <> fe_ino h) by (intros d Hd Ed; apply Hh; apply list_elem_of_fmap; exists d; auto).
  apply elem_of_cons in He; apply elem_of_cons in He'; destruct He as [-> | He], He' as [-> | He']; auto; exfalso; [apply (Hc e' He') | apply (Hc e He)]; congruence.
Qed.

(** [s] without its first block, which has entry [e] or no entry. *)
Lemma pending_skip R a s head : pending R (a :: s) head -> (forall e, e ∈ head -> fe_ino e <> ino_at a) ->
  pending R s head /\ replays_node R s a = false.
Proof.
  intros [Hn Hl Hi Ha] Hno; split; [constructor; auto|].
  - intros e He; apply (last_fsync_other a); [apply not_eq_sym, Hno; exact He | apply Hl; exact He].
  - intros i HR [c Ec]; apply Ha; [exact HR|]; rewrite last_fsync_cons, Ec; eauto.
  - unfold replays_node; apply andb_false_iff; destruct (decide (ino_at a ∈ R)) as [HR | HR]; [right | left; apply bool_decide_eq_false_2; exact HR].
    apply bool_decide_eq_false_2; intros Hs; destruct (Ha _ HR Hs) as (e & He & Ee); exact (Hno e He Ee).
Qed.

Lemma pending_step R a s head e : a ∉ s -> pending R (a :: s) head -> e ∈ head -> fe_ino e = ino_at a ->
  replays_node R s a = true /\ pending R s (if fe_blkaddr e =? a then List.filter (fun e' => negb (fe_ino e' =? fe_ino e)) head else head).
Proof.
  intros Has [Hn Hl Hi Ha] He Ee; split.
  { unfold replays_node; apply andb_true_iff; rewrite <- Ee; split; apply bool_decide_eq_true_2; [apply Hi; exact He | rewrite (Hl e He); eauto]. }
  pose proof (Hl e He) as Ec; rewrite last_fsync_cons in Ec; destruct (Z.eqb_spec (fe_blkaddr e) a) as [Ea | Hne].
  - assert (Es : last_fsync por s (fe_ino e) = None).
    { destruct (last_fsync por s (fe_ino e)) as [c|] eqn:E; [|reflexivity]; destruct (last_fsync_in _ _ _ E) as [Hc _]; congruence. }
    assert (Hin : forall e', e' ∈ List.filter (fun e' => negb (fe_ino e' =? fe_ino e)) head <-> e' ∈ head /\ fe_ino e' <> fe_ino e).
    { intros e'; rewrite !list_elem_of_In, List.filter_In, negb_true_iff, Z.eqb_neq; reflexivity. }
    constructor.
    + clear -Hn; induction head as [|h head IH]; [constructor|]; cbn in Hn |- *; apply NoDup_cons in Hn; destruct Hn as [Hh Hn].
      destruct (negb (fe_ino h =? fe_ino e)); [cbn; constructor; [|exact (IH Hn)] | exact (IH Hn)].
      intros H; apply Hh; apply list_elem_of_fmap in H; destruct H as (d & Ed & Hd); apply list_elem_of_fmap; exists d; split; [exact Ed|].
      apply list_elem_of_In in Hd; apply List.filter_In in Hd; apply list_elem_of_In, Hd.
    + intros e' H; apply Hin in H; destruct H as [H Hd]; apply (last_fsync_other a); [congruence | apply Hl; exact H].
    + intros e' H; apply Hin in H; apply Hi, H.
    + intros i HR [c E]; destruct (Ha i HR ltac:(rewrite last_fsync_cons, E; eauto)) as (e' & He' & Ei); exists e'; split; [|exact Ei].
      apply Hin; split; [exact He'|]; intros X0; congruence.
  - constructor; auto.
    + intros e' H; destruct (Z.eq_dec (fe_ino e') (ino_at a)) as [Ei | Hd]; [|apply (last_fsync_other a); [congruence | apply Hl; exact H]].
      assert (e' = e) as -> by (apply (entry_unique head); congruence); destruct (last_fsync por s (fe_ino e)); [exact Ec|].
      destruct (fsync_of por (fe_ino e) a); congruence.
    + intros i HR [c E]; apply Ha; [exact HR|]; rewrite last_fsync_cons, E; eauto.
Qed.

(** One block of the log. *)
Lemma recover_node_ok R a s head fs Gs F : a ∉ s -> pending R (a :: s) head -> files_rep b X fs Gs F -> (forall e, e ∈ head -> is_Some (fs !! fe_ino e)) ->
  (forall e t, get_fsync_inode head (ino_at a) = Some e -> fs !! ino_at a = Some t -> page_world (ws a) g X (por a) (ino_at a) (start_at a) t) ->
  exists err head' fs' Gs' F1, recover_node (ws a) g (por a) a head fs = Done (err, (head', fs')) /\ files_rep b X fs' Gs' F1 /\ same_dom fs fs' /\
    (err = 0 -> pending R s head' /\ (forall e, e ∈ head' -> e ∈ head) /\
       if replays_node R s a then replayed g (por a) (ino_at a) (start_at a) 0 (count_at a) F F1 else F1 = F).
Proof.
  intros Has HP HF Hdom HW; unfold recover_node; fold (ino_at a); pose proof (find_entry head (ino_at a)) as Hg; destruct (get_fsync_inode head (ino_at a)) as [e|].
  2:{ destruct (pending_skip R a s head HP Hg) as [HP' ->]; exists 0, head, fs, Gs, F; auto 10 using same_dom_refl. }
  destruct Hg as [He Ee]; destruct (pending_step R a s head e Has HP He Ee) as [-> HP']; destruct (Hdom e He) as [t Et]; rewrite Ee in Et |- *.
  destruct (Z.eqb_spec (if fe_last_dentry e =? a then rw_dentry (ws a) else 0) 0) as [_ | Hd]; cbn [negb].
  2:{ eexists _, head, fs, Gs, F; split; [reflexivity|]; split; [exact HF|]; split; [apply same_dom_refl | intros; contradiction]. }
  destruct (do_recover_ok b X fs Gs F (ws a) g (por a) (ino_at a) (start_at a) t HF Et (HW e t eq_refl Et)) as (err & fs' & Gs' & F' & -> & HF' & Hd' & Hr).
  cbn [mbind outcome_bind]; destruct (Z.eqb_spec err 0) as [-> | Hne]; cbn [negb].
  2:{ exists err, head, fs', Gs', F'; split; [reflexivity|]; split; [exact HF'|]; split; [exact Hd' | intros; contradiction]. }
  eexists 0, _, fs', Gs', F'; split; [reflexivity|]; split; [exact HF'|]; split; [exact Hd'|]; intros _; rewrite Ee in HP'; split; [exact HP'|]; split; [|exact (Hr eq_refl)].
  destruct (fe_blkaddr e =? a); [|auto]; intros e' H; apply list_elem_of_In in H; apply List.filter_In in H; apply list_elem_of_In, H.
Qed.

Lemma recover_from_step fuel a head fs :
  recover_from (S fuel) ws g por cp_ver a head fs =
  if in_log g por cp_ver a then
    '(err, (head, fs)) ← recover_node (ws a) g (por a) a head fs;
    if negb (err =? 0) then Done (err, (head, fs))
    else recover_from fuel ws g por cp_ver (next_blkaddr_of_node (ln_footer (por a))) head fs
  else Done (0, (head, fs)).
Proof. unfold in_log; cbn [recover_from]; destruct (is_valid_blkaddr g a); [|reflexivity]; destruct (cp_ver =? _); reflexivity. Qed.

(** The pass over the chain: an error, or the marked inodes are all replayed. *)
Lemma recover_chain R a s : log_chain g por cp_ver a s -> forall fuel head fs Gs F, (length s < fuel)%nat -> pending R s head ->
  files_rep b X fs Gs F -> (forall e, e ∈ head -> is_Some (fs !! fe_ino e)) -> log_world s head fs ->
  exists err head' fs' Gs' F', recover_from fuel ws g por cp_ver a head fs = Done (err, (head', fs')) /\ files_rep b X fs' Gs' F' /\ same_dom fs fs' /\
    (err = 0 -> head' = [] /\ replays R s F F').
Proof.
  induction 1 as [a H | a s H C IH]; intros [|fuel] head fs Gs F Hf HP HF Hdom HW; cbn in Hf; try lia; rewrite recover_from_step, H.
  { exists 0, head, fs, Gs, F; split; [reflexivity|]; split; [exact HF|]; split; [apply same_dom_refl|]; intros _; split; [exact (pending_nil R head HP) | reflexivity]. }
  pose proof (chain_nodup _ _ _ _ _ (chain_next _ _ _ _ _ H C)) as Hnd; apply NoDup_cons in Hnd; destruct HW as [HW1 HW2].
  destruct (recover_node_ok R a s head fs Gs F (proj1 Hnd) HP HF Hdom HW1) as (err & h1 & fs1 & Gs1 & F1 & E1 & HF1 & Hd1 & Hr1).
  rewrite E1; cbn [mbind outcome_bind]; destruct (Z.eqb_spec err 0) as [-> | Hne]; cbn [negb].
  2:{ exists err, h1, fs1, Gs1, F1; split; [reflexivity|]; split; [exact HF1|]; split; [exact Hd1 | intros; contradiction]. }
  destruct (Hr1 eq_refl) as (HP1 & Hsub & Hrep).
  destruct (IH fuel h1 fs1 Gs1 F1 ltac:(lia) HP1 HF1 ltac:(intros e He; apply Hd1, Hdom, Hsub; exact He) (HW2 _ _ E1)) as (err & h' & fs' & Gs' & F' & -> & HF' & Hd' & Hr').
  exists err, h', fs', Gs', F'; split; [reflexivity|]; split; [exact HF'|]; split; [exact (same_dom_trans _ _ _ Hd1 Hd')|]; intros He.
  destruct (Hr' He) as [-> Hs]; split; [reflexivity|]; cbn [replays]; destruct (replays_node R s a); [eauto | rewrite <- Hrep; exact Hs].
Qed.

End Replay.

(** * What becomes of one block *)

Section Block.
Variables (g : geometry) (por : Z -> log_node) (X : Z -> bool).

(** No node of [s] has a block for index [x] of [ino], or has block [d] anywhere. *)
Definition untouched (s : list Z) (ino x d : Z) : Prop :=
  forall a o, a ∈ s -> 0 <= o < count_at por X a -> wanted g ((ln_addr (por a)).[o]) = true ->
    ~ (ino_at por a = ino /\ start_at por X a + o = x) /\ (ln_addr (por a)).[o] <> d.

Lemma replays_keep R s ino x : forall F F', replays g por X R s F F' -> untouched s ino x (F ino x) -> F' ino x = F ino x.
Proof.
  induction s as [|a s IH]; intros F F' HR Hu; cbn [replays] in HR; [subst; reflexivity|].
  assert (Hu' : untouched s ino x (F ino x)) by (intros c o Hc; apply Hu; right; exact Hc).
  destruct (replays_node por R s a); [|exact (IH F F' HR Hu')]; destruct HR as (F1 & [_ HP] & HR).
  assert (E : F1 ino x = F ino x).
  { destruct (HP ino x) as [E | (_ & o & Ho & Hw & E)]; [|exact E|].
    - intros (-> & o & Ho & -> & Hw); apply (proj1 (Hu a o ltac:(left) Ho Hw)); auto.
    - exfalso; apply (proj2 (Hu a o ltac:(left) Ho Hw)); symmetry; exact E. }
  rewrite <- E; apply IH; [exact HR | rewrite E; exact Hu'].
Qed.

Lemma replays_set R p a s o : forall F F', replays g por X R (p ++ a :: s) F F' -> replays_node por R s a = true -> 0 <= o < count_at por X a ->
  let d := (ln_addr (por a)).[o] in wanted g d = true -> untouched s (ino_at por a) (start_at por X a + o) d -> F' (ino_at por a) (start_at por X a + o) = d.
Proof.
  induction p as [|c p IH]; intros F F' HR Hn Ho d Hw Hu; cbn [app replays] in HR.
  - rewrite Hn in HR; destruct HR as (F1 & [HP _] & HR); pose proof (HP o ltac:(lia) Hw) as E; fold d in E.
    rewrite <- E; apply (replays_keep R s); [exact HR | rewrite E; exact Hu].
  - destruct (replays_node por R (p ++ a :: s) c); [destruct HR as (F1 & _ & HR); exact (IH F1 F' HR Hn Ho Hw Hu) | exact (IH F F' HR Hn Ho Hw Hu)].
Qed.
End Block.
