(* ===== verification/Recover.v ===== *)
(** The properties of roll-forward recovery: it ends exactly when the chain of node blocks
    does; the blocks of a fsynced node are in the file again; blocks that were removed come
    back; and what was fsynced through another mlog than the first is lost. *)

From Stdlib Require Import ZArith Lia Bool.
From stdpp Require Import base numbers list gmap.
From S2P Require Import Prelude Layout Bitops NodePath SmState FreeSegmap Sit DirtySeg Curseg SegMgr Alloc.
From S2P Require Import NodeTree NodeTreeInv NodeTreeOps FileMap Collapse Recovery RecoverData RecoverLog.

#[local] Open Scope Z_scope.
#[local] Ltac Zify.zify_post_hook ::= Z.to_euclidean_division_equations.

(** The first block of the chain, and the entries of the first pass over it. *)
Definition log_start (sbi : f2fs_sb_info) : Z := NEXT_FREE_BLKADDR (geo sbi) (CURSEG_I sbi CURSEG_WARM_NODE).

Definition fsync_list (w : por_world) (por : Z -> log_node) (l : list Z) : list fsync_inode_entry := fold_left (noted por w) l [].

(** C11: When the first pass of recovery ends.  With no errors from memory and inodes it
    returns exactly when the chain of node blocks written since the checkpoint ends; then
    the list has the marked inodes of the chain.  When the chain returns to one of its
    blocks, the loop never ends. *)
Theorem find_fsync_dnodes_ends_iff (w : por_world) (por : Z -> log_node) (cp_ver : Z) (sbi : f2fs_sb_info)
  (Hw : answers_ok w) :
  match find_fsync_dnodes w por cp_ver sbi [] with
  | Done (err, head) => err = 0 /\ exists l, log_chain (geo sbi) por cp_ver (log_start sbi) l /\ entries_ok por w l head
  | Spins => (forall l, ~ log_chain (geo sbi) por cp_ver (log_start sbi) l) /\
             forall fuel, find_from fuel w (geo sbi) por cp_ver (log_start sbi) [] = Spins
  | Bug => False
  end.
Proof.
  unfold find_fsync_dnodes; fold (log_start sbi); destruct (find_from (chain_fuel (geo sbi)) _ _ _ _ _ _) as [[err head] | |] eqn:E.
  - destruct (find_ends _ _ _ _ _ Hw _ _ _ E) as [l C]; rewrite (find_chain _ _ _ _ _ _ Hw C) in E by exact (chain_short_enough _ _ _ _ _ C).
    injection E as <- <-; split; [reflexivity|]; exists l; split; [exact C | apply entries_found; exact Hw].
  - exact (find_no_bug _ _ _ _ _ Hw _ _ E).
  - assert (Hno : forall l, ~ log_chain (geo sbi) por cp_ver (log_start sbi) l).
    { intros l C; rewrite (find_chain _ _ _ _ _ _ Hw C) in E by exact (chain_short_enough _ _ _ _ _ C); discriminate. }
    split; [exact Hno|]; intros fuel; destruct (find_from fuel _ _ _ _ _ _) as [r | |] eqn:E'; [|destruct (find_no_bug _ _ _ _ _ Hw _ _ E') | reflexivity].
    destruct (find_ends _ _ _ _ _ Hw _ _ _ E') as [l C]; destruct (Hno l C).
Qed.

(** * The whole recovery *)

Lemma replays_none g por X s : forall F, replays g por X [] s F F.
Proof.
  induction s as [|a s IH]; intros F; cbn [replays]; [reflexivity|].
  replace (replays_node por [] s a) with false; [apply IH|]; unfold replays_node; rewrite bool_decide_eq_false_2; [reflexivity | apply not_elem_of_nil].
Qed.

Lemma entries_pending por w l : answers_ok w -> pending por (map fe_ino (fsync_list w por l)) l (fsync_list w por l).
Proof.
  intros Hw; destruct (entries_found por w l Hw) as [Hn Hl Ha]; fold (fsync_list w por l) in Hn, Hl, Ha; constructor; auto.
  - intros e He; apply list_elem_of_fmap; eauto.
  - intros i Hi _; apply list_elem_of_fmap in Hi; destruct Hi as (e & -> & He); eauto.
Qed.

Lemma last_fsync_some por l i c : c ∈ l -> fsync_of por i c = true -> is_Some (last_fsync por l i).
Proof.
  induction l as [|x l IH]; intros Hc Hf; [inversion Hc|]; rewrite last_fsync_cons; destruct (last_fsync por l i) eqn:El; [eauto|].
  apply elem_of_cons in Hc; destruct Hc as [-> | Hc]; [rewrite Hf; eauto | destruct (IH Hc Hf); congruence].
Qed.

(** Both passes over the chain [l]. *)
Lemma recover_fsync_ok w ws por cp_ver sbi fs b X Gs F l : answers_ok w -> log_chain (geo sbi) por cp_ver (log_start sbi) l -> files_rep b X fs Gs F ->
  (forall e, e ∈ fsync_list w por l -> is_Some (fs !! fe_ino e)) -> log_world (geo sbi) por X ws l (fsync_list w por l) fs ->
  exists err cp fs' Gs' F', recover_fsync_data w ws por cp_ver sbi fs = Done (err, cp, false, fs') /\ files_rep b X fs' Gs' F' /\ same_dom fs fs' /\
    (err = 0 -> replays (geo sbi) por X (map fe_ino (fsync_list w por l)) l F F' /\ cp = negb (bool_decide (fsync_list w por l = []))).
Proof.
  intros Hw C HF Hdom HW; unfold recover_fsync_data, find_fsync_dnodes; fold (log_start sbi); pose proof (chain_short_enough _ _ _ _ _ C) as Hfuel.
  rewrite (find_chain _ _ _ _ _ _ Hw C) by exact Hfuel; fold (fsync_list w por l); cbn [mbind outcome_bind Z.eqb negb].
  pose proof (entries_pending por w l Hw) as HP; destruct (bool_decide (fsync_list w por l = [])) eqn:E.
  { exists 0, false, fs, Gs, F; split; [reflexivity|]; split; [exact HF|]; split; [apply same_dom_refl|]; intros _; split; [|reflexivity].
    apply bool_decide_eq_true in E; rewrite E; apply replays_none. }
  unfold recover_data; fold (log_start sbi).
  destruct (recover_chain (geo sbi) por cp_ver b X ws _ _ _ C _ _ _ _ _ Hfuel HP HF Hdom HW) as (err & h & fs' & Gs' & F' & -> & HF' & Hd' & Hr).
  cbn [mbind outcome_bind]; exists err, (err =? 0), fs', Gs', F'; destruct (Z.eqb_spec err 0) as [-> | Hne].
  - destruct (Hr eq_refl) as [-> HR]; split; [reflexivity|]; auto.
  - split; [reflexivity|]; split; [exact HF'|]; split; [exact Hd' | intros; contradiction].
Qed.

(** * An example

    The inode of file 4 is the only node of the log; it has the fsync mark and the block
    2000 at index 3. *)

Definition addrs_ex : list Z := (replicate 923 0).[3 <- 2000].
#[global] Arguments addrs_ex : simpl never.

Definition por_ex (a : Z) : log_node :=
  if a =? 5632 then mk_ln (mk_footer 4 4 2 7 5633) addrs_ex true false else mk_ln (mk_footer 0 0 0 0 0) [] false false.

Definition pw_ex : por_world := mk_pw (fun _ => 0) (fun _ => true) (fun _ => 0).
Definition rw_ex : rworld := mk_rw (mk_tw (fun _ => 0) false (fun _ => true) (fun _ => true) true (fun _ => None) ∅ 1) (fun _ _ => None) (fun _ => inl (- ENOENT)) (fun _ => 0) 0.

Lemma pw_ex_ok : answers_ok pw_ex.
Proof. intros a; cbn; auto with lia. Qed.

Lemma chain_ex : log_chain (geo sbi_mnt) por_ex 7 (log_start sbi_mnt) [5632].
Proof.
  assert (E : log_start sbi_mnt = 5632) by (vm_compute; reflexivity); rewrite E.
  apply chain_next; [vm_compute; reflexivity | apply chain_end; vm_compute; reflexivity].
Qed.

Lemma wanted_ex o : 0 <= o < 873 -> wanted (geo sbi_mnt) (addrs_ex.[o]) = true -> o = 3.
Proof.
  intros Ho Hw; unfold addrs_ex in Hw; rewrite aget_aset in Hw by (unfold zlen; rewrite length_replicate; lia).
  destruct (Z.eqb_spec 3 o); [lia|]; rewrite aget_replicate in Hw by lia; vm_compute in Hw; discriminate.
Qed.

Lemma page_ex t : page_world rw_ex (geo sbi_mnt) (fun _ => true) (por_ex 5632) 4 0 t.
Proof.
  assert (Ec : page_count true (por_ex 5632) = 873) by (vm_compute; reflexivity); constructor; rewrite ?Ec.
  - split; [vm_compute; split; congruence|]; exists (mk_path 0 [0] [0]); repeat split.
  - reflexivity.
  - split; reflexivity.
  - intros o o' Ho Ho' H E; change (ln_addr (por_ex 5632)) with addrs_ex in *; pose proof (wanted_ex o Ho H); rewrite E in H; pose proof (wanted_ex o' Ho' H); lia.
  - cbn; lia.
  - intros j n _ E; discriminate E.
  - intros o _; split; [discriminate|]; split; [exact I|]; split; reflexivity.
Qed.

Lemma log_ex fs : log_world (geo sbi_mnt) por_ex (fun _ => true) (fun _ => rw_ex) [5632] (fsync_list pw_ex por_ex [5632]) fs.
Proof. split; [intros e t _ _; exact (page_ex t) | intros; exact I]. Qed.

(** The file: empty, or with the block 1600 at index 5. *)
Definition files_ex (t : ftree) : files := {[4 := t]}.
Definition block5_ex : ftree := set_data_blkaddr None 5 1600 (with_tally 2 [] [] false (new_file 4 true)).

Lemma dom_ex t e : e ∈ fsync_list pw_ex por_ex [5632] -> is_Some (files_ex t !! fe_ino e).
Proof. change (fsync_list pw_ex por_ex [5632]) with [mk_fe 4 5632 0 5632]; intros He; apply list_elem_of_singleton in He; subst e; unfold files_ex; cbn [fe_ino]; rewrite lookup_singleton_eq; eauto. Qed.

Definition errno (r : outcome (Z * bool * bool * files)) : Z := match r with Done (err, _, _, _) => err | _ => 1 end.

Lemma succeeds_ex : errno (recover_fsync_data pw_ex (fun _ => rw_ex) por_ex 7 sbi_mnt (files_ex (new_file 4 true))) = 0 /\
  errno (recover_fsync_data pw_ex (fun _ => rw_ex) por_ex 7 sbi_mnt (files_ex block5_ex)) = 0.
Proof. split; vm_compute; reflexivity. Qed.

Lemma files_ex_rep t f : file_rep 1 t f -> ft_ino t = 4 -> ft_inline_xattr t = true ->
  exists G, files_rep (fun _ => 1) (fun _ => true) (files_ex t) (fun _ => G) (fun _ => f).
Proof.
  intros (Hb & Hin & G & R) Ei Ex; exists G; intros ino u E; unfold files_ex in E; apply lookup_singleton_Some in E; destruct E as [<- <-].
  split; [exact Ei|]; split; [exact Ex|]; split; [exact Hin|]; split; [lia | exact R].
Qed.

Lemma block5_ex_rep : file_rep 1 block5_ex (upd (fun _ => 0) 5 1600).
Proof.
  destruct (new_file_rep 4 true) as (_ & Hin & G & R); split; [lia|]; split; [reflexivity|]; exists G.
  apply (rep_set 2 (with_tally 2 [] [] false (new_file 4 true)) G None (fun _ => 0) 5 None 5 1600); [|left; vm_compute; repeat split; congruence].
  apply (rep_tally 1); [exact R | reflexivity | reflexivity].
Qed.

(** C8: Blocks of a fsynced node come back.  Let the chain be [p ++ a :: s], where an inode
    that can be read has a node with the fsync mark at or behind [a].  When recovery
    succeeds, the file has the block that node [a] has at [o], unless a later node of the
    chain has a block for the same index or the same block.  A checkpoint follows, no
    inode is left over, and the node trees of all files are well formed, also when an error
    is returned. *)
Theorem fsync_blocks_recovered (w : por_world) (ws : Z -> rworld) (por : Z -> log_node) (cp_ver : Z) (sbi : f2fs_sb_info) (fs : files)
  (b : Z -> Z) (X : Z -> bool) (Gs : Z -> gmap tnode Z) (F : maps) (p : list Z) (a : Z) (s : list Z) (c o : Z) (d := (ln_addr (por a)).[o])
  (Hw : answers_ok w) (Hc : log_chain (geo sbi) por cp_ver (log_start sbi) (p ++ a :: s)) (HF : files_rep b X fs Gs F)
  (Hdom : forall e, e ∈ fsync_list w por (p ++ a :: s) -> is_Some (fs !! fe_ino e))
  (HW : log_world (geo sbi) por X ws (p ++ a :: s) (fsync_list w por (p ++ a :: s)) fs)
  (Hmark : c ∈ a :: s /\ fsync_of por (ino_at por a) c = true /\ 0 <= pw_iget w c)
  (Ho : 0 <= o < count_at por X a) (Hwanted : wanted (geo sbi) d = true)
  (Hlast : untouched (geo sbi) por X s (ino_at por a) (start_at por X a + o) d) :
  exists err cp fs' Gs' F', recover_fsync_data w ws por cp_ver sbi fs = Done (err, cp, false, fs') /\ files_rep b X fs' Gs' F' /\
    same_dom fs fs' /\ (err = 0 -> cp = true /\ F' (ino_at por a) (start_at por X a + o) = d).
Proof.
  destruct (recover_fsync_ok w ws por cp_ver sbi fs b X Gs F _ Hw Hc HF Hdom HW) as (err & cp & fs' & Gs' & F' & E & HF' & Hd & Hr).
  exists err, cp, fs', Gs', F'; split; [exact E|]; split; [exact HF'|]; split; [exact Hd|]; intros He; destruct (Hr He) as [HR ->].
  destruct Hmark as (Hcs & Hm & Hi); unfold fsync_of in Hm; apply andb_true_iff in Hm as [Hm Em]; apply Z.eqb_eq in Em.
  destruct (eo_all _ _ _ _ (entries_found por w (p ++ a :: s) Hw) c ltac:(apply elem_of_app; auto) Hm Hi) as (e & He' & Ee); fold (fsync_list w por (p ++ a :: s)) in He'.
  split; [apply negb_true_iff, bool_decide_eq_false_2; intros E0; rewrite E0 in He'; inversion He'|].
  eapply replays_set; [exact HR | | exact Ho | exact Hwanted | exact Hlast].
  unfold replays_node; apply andb_true_iff; split; apply bool_decide_eq_true_2; [apply list_elem_of_fmap; exists e; split; [congruence | exact He']|].
  apply (last_fsync_some _ _ _ c Hcs); unfold fsync_of; rewrite Hm, Em; apply Z.eqb_refl.
Qed.

Lemma fsync_blocks_recovered_witness : exists fs' Gs' F',
  recover_fsync_data pw_ex (fun _ => rw_ex) por_ex 7 sbi_mnt (files_ex (new_file 4 true)) = Done (0, true, false, fs') /\
  files_rep (fun _ => 1) (fun _ => true) fs' Gs' F' /\ F' 4 3 = 2000.
Proof.
  destruct (files_ex_rep (new_file 4 true) (fun _ => 0) (new_file_rep 4 true) eq_refl eq_refl) as [G HF].
  destruct (fsync_blocks_recovered pw_ex (fun _ => rw_ex) por_ex 7 sbi_mnt (files_ex (new_file 4 true)) (fun _ => 1) (fun _ => true) (fun _ => G) (fun _ _ => 0) [] 5632 [] 5632 3
    pw_ex_ok chain_ex HF) as (err & cp & fs' & Gs' & F' & E & HF' & _ & Hr).
  - intros e He; exact (dom_ex _ e He).
  - apply log_ex.
  - split; [left|]; split; [reflexivity | cbn; lia].
  - vm_compute; split; congruence.
  - vm_compute; reflexivity.
  - intros a o Ha; inversion Ha.
  - pose proof (proj1 succeeds_ex) as E0; rewrite E in E0; cbn [errno] in E0; subst err; destruct (Hr eq_refl) as [-> Ef].
    exists fs', Gs', F'; split; [exact E|]; split; [exact HF' | exact Ef].
Defined.



(** A chain whose node points to itself. *)
Definition loop_ex (a : Z) : log_node := mk_ln (mk_footer 4 4 2 7 5632) addrs_ex true false.

Lemma find_fsync_dnodes_ends_iff_witness :
  (exists l, log_chain (geo sbi_mnt) por_ex 7 (log_start sbi_mnt) l /\ entries_ok por_ex pw_ex l [mk_fe 4 5632 0 5632]) /\
  forall fuel, find_from fuel pw_ex (geo sbi_mnt) loop_ex 7 (log_start sbi_mnt) [] = Spins.
Proof.
  pose proof (find_fsync_dnodes_ends_iff pw_ex por_ex 7 sbi_mnt pw_ex_ok) as H1; pose proof (find_fsync_dnodes_ends_iff pw_ex loop_ex 7 sbi_mnt pw_ex_ok) as H2.
  assert (E1 : find_fsync_dnodes pw_ex por_ex 7 sbi_mnt [] = Done (0, [mk_fe 4 5632 0 5632])) by (vm_compute; reflexivity).
  assert (E2 : find_fsync_dnodes pw_ex loop_ex 7 sbi_mnt [] = Spins) by (vm_compute; reflexivity).
  rewrite E1 in H1; rewrite E2 in H2; split; [exact (proj2 H1) | exact (proj2 H2)].
Defined.

(** * Nodes in the other mlogs *)

Lemma refresh_cursegs old new sbi : curseg_array (refresh_sit_entry old new sbi) = curseg_array sbi /\ geo (refresh_sit_entry old new sbi) = geo sbi.
Proof.
  assert (Hu : forall a d s, curseg_array (update_sit_entry a d s) = curseg_array s /\ geo (update_sit_entry a d s) = geo s)
    by (intros a d s; split; apply (update_frame s a d)).
  assert (Hl : forall i s, curseg_array (locate_dirty_segment i s) = curseg_array s /\ geo (locate_dirty_segment i s) = geo s).
  { intros i s; unfold locate_dirty_segment, __locate_dirty_segment, __remove_dirty_segment; repeat case_match; split; reflexivity. }
  unfold refresh_sit_entry; split; [rewrite !(proj1 (Hl _ _)) | rewrite !(proj2 (Hl _ _))]; destruct (negb _); [rewrite !(proj1 (Hu _ _ _)) | rewrite !(proj1 (Hu _ _ _)) | rewrite !(proj2 (Hu _ _ _)) | rewrite !(proj2 (Hu _ _ _))]; reflexivity.
Qed.

Lemma curseg_other j k c s : j <> k -> CURSEG_I (set_curseg k c s) j = CURSEG_I s j.
Proof. intros H; unfold CURSEG_I, set_curseg; cbn; apply aget_aset_ne; congruence. Qed.

Lemma new_curseg_other type m b s j : j <> log_of type m -> CURSEG_I (new_curseg type m b s) j = CURSEG_I s j /\ geo (new_curseg type m b s) = geo s.
Proof.
  intros Hj; unfold new_curseg; destruct (get_new_segment _ _ _ _ _ _) as [[segno fi] bug]; split; [|unfold f2fs_bug_on; destruct bug; reflexivity]; rewrite curseg_other by exact Hj.
  unfold reset_curseg_mlog; cbv zeta; set (s1 := set_curseg _ (with_next_segno _ _) _).
  change (CURSEG_I (with_sit_i ?v ?x) j) with (CURSEG_I x j); rewrite curseg_other by exact Hj; unfold s1; rewrite curseg_other by exact Hj.
  unfold f2fs_bug_on; destruct bug; reflexivity.
Qed.

(** Writing a warm node moves one log only. *)
Lemma warm_node_frame old sum sbi j (m := u32 (s32 (next_mlog sbi + 1)) mod nr_mlog (geo sbi)) : j <> log_of CURSEG_WARM_NODE m ->
  let '(a, _, sbi') := allocate_data_block old sum CURSEG_WARM_NODE sbi in
  a = NEXT_FREE_BLKADDR (geo sbi) (CURSEG_I sbi (log_of CURSEG_WARM_NODE m)) /\ CURSEG_I sbi' j = CURSEG_I sbi j /\ geo sbi' = geo sbi.
Proof.
  intros Hj; unfold allocate_data_block; change (CURSEG_WARM_NODE =? CURSEG_DIRECT_IO) with false; cbv iota zeta; cbn [andb].
  set (sbi0 := with_next_mlog _ sbi); change (next_mlog sbi0) with (s32 (next_mlog sbi + 1)); change (geo sbi0) with (geo sbi); fold m.
  set (k := log_of CURSEG_WARM_NODE m) in *; split; [reflexivity|].
  set (s2 := set_curseg k _ _); set (s3 := if negb _ then _ else s2); set (new := NEXT_FREE_BLKADDR _ _).
  destruct (refresh_cursegs old new s3) as [Er ->]; unfold CURSEG_I at 1; rewrite Er; fold (CURSEG_I s3 j).
  assert (E2 : CURSEG_I s2 j = CURSEG_I sbi j) by (unfold s2, __add_sum_entry; rewrite !curseg_other by exact Hj; reflexivity).
  unfold s3; destruct (negb _); [|split; [exact E2 | reflexivity]]; unfold allocate_segment_by_default; change (CURSEG_WARM_NODE =? CURSEG_WARM_NODE) with true; cbv iota zeta.
  destruct (new_curseg_other CURSEG_WARM_NODE m false s2 j Hj) as [-> ->]; split; [exact E2 | reflexivity].
Qed.

(** C9: What is fsynced through another mlog is lost.  Take a node of a regular file that
    is written while the round robin has reached another mlog than the first.  The node
    goes to a block behind the cursor of that mlog, with the version of the checkpoint in
    its footer, and the warm node log of the first mlog stays where it is.  When the block
    at that cursor has no node of this checkpoint, recovery finds nothing and returns
    without a change, whatever is in the block that was written. *)
Theorem fsync_lost_in_other_mlog (active_logs cp_ver nid old : Z) (p : page_info) (sbi : f2fs_sb_info)
  (Hi : sm_wf sbi) (Ht : __get_segment_type active_logs p = (CURSEG_WARM_NODE, false))
  (Hm : u32 (s32 (next_mlog sbi + 1)) mod nr_mlog (geo sbi) <> 0) :
  let '(a, footer, sbi') := write_node_page active_logs cp_ver nid p old sbi in
  a <> log_start sbi /\ in_main (geo sbi) a /\ cpver_of_node footer = cp_ver /\ log_start sbi' = log_start sbi /\
  forall w ws por fs, cpver_of_node (ln_footer (por (log_start sbi))) <> cp_ver ->
    recover_fsync_data w ws por cp_ver sbi fs = Done (0, false, false, fs).
Proof.
  unfold write_node_page, do_write_page; rewrite Ht; cbn [f2fs_bug_on].
  pose proof (warm_node_frame old (set_summary nid 0 0) sbi CURSEG_WARM_NODE) as HF; set (m := u32 (s32 (next_mlog sbi + 1)) mod nr_mlog (geo sbi)) in *.
  pose proof (gw_mlog _ (si_geo _ _ _ Hi)) as Hn; assert (Hmr : 0 <= m < nr_mlog (geo sbi)) by (apply Z.mod_pos_bound; lia).
  assert (Hl : forall i, 0 <= i < nr_mlog (geo sbi) -> 0 <= log_of CURSEG_WARM_NODE i < nr_logs sbi) by (intros i Hi'; unfold log_of, nr_logs; change NR_CURSEG_TYPE with 6; unfold CURSEG_WARM_NODE; lia).
  assert (Hk : CURSEG_WARM_NODE <> log_of CURSEG_WARM_NODE m) by (unfold log_of; change NR_CURSEG_TYPE with 6; unfold CURSEG_WARM_NODE; lia).
  specialize (HF Hk); destruct (allocate_data_block old (set_summary nid 0 0) CURSEG_WARM_NODE sbi) as [[a next] sbi']; destruct HF as (Ea & Ec & Eg).
  destruct (next_free_ok [] [] sbi _ Hi (Hl m Hmr) ltac:(apply not_elem_of_nil)) as (A1 & A2 & _); rewrite <- Ea in A1, A2.
  destruct (next_free_ok [] [] sbi _ Hi (Hl 0 ltac:(lia)) ltac:(apply not_elem_of_nil)) as (_ & B2 & _); change (log_of CURSEG_WARM_NODE 0) with CURSEG_WARM_NODE in B2.
  split; [|split; [exact A1|split; [reflexivity|split; [unfold log_start; rewrite Ec, Eg; reflexivity|]]]].
  - intros E; apply Hk, (si_inj _ _ _ Hi _ _ (Hl 0 ltac:(lia)) (Hl m Hmr)); change (log_of CURSEG_WARM_NODE 0) with CURSEG_WARM_NODE.
    unfold log_start in E; rewrite <- A2, <- B2, E; reflexivity.
  - intros w ws por fs Hv; unfold recover_fsync_data, find_fsync_dnodes; fold (log_start sbi); unfold chain_fuel; cbn [find_from].
    destruct (is_valid_blkaddr _ _); [|reflexivity]; rewrite (proj2 (Z.eqb_neq cp_ver _)) by congruence; reflexivity.
Qed.

Lemma fsync_lost_in_other_mlog_witness :
  let p := mk_page false false false false (mk_footer 4 4 3 0 0) in
  let '(a, footer, sbi') := write_node_page 6 7 4 p NULL_ADDR sbi_mnt in
  a <> log_start sbi_mnt /\ in_main (geo sbi_mnt) a /\ cpver_of_node footer = 7 /\ log_start sbi' = log_start sbi_mnt /\
  forall w ws por fs, cpver_of_node (ln_footer (por (log_start sbi_mnt))) <> 7 ->
    recover_fsync_data w ws por 7 sbi_mnt fs = Done (0, false, false, fs).
Proof.
  apply (fsync_lost_in_other_mlog 6 7 4 NULL_ADDR (mk_page false false false false (mk_footer 4 4 3 0 0)) sbi_mnt sbi_mnt_wf); [vm_compute; reflexivity | vm_compute; congruence].
Defined.

(** The owner of a block in an open segment of another mlog is read from the summary block
    on disk, which has the entries of the segment's previous use: the summary of the log
    itself is not looked at. *)
Lemma prev_summary_other_mlog (sbi : f2fs_sb_info) (type m a : Z) : sm_wf sbi -> 0 <= type < 6 -> 0 < m < nr_mlog (geo sbi) ->
  GET_SEGNO (geo sbi) a = curseg_segno sbi (log_of type m) -> block_valid sbi a = true ->
  let e := (sb_entries (get_sum_page sbi (curseg_segno sbi (log_of type m)))).[GET_BLKOFF_FROM_SEG0 (geo sbi) a] in
  prev_summary sbi a = Some (sm_nid e, sm_ofs_in_node e).
Proof.
  intros Hi Ht Hm Hs Hv; cbv zeta; unfold prev_summary; change (f2fs_test_bit _ _) with (block_valid sbi a); rewrite Hv, Hs; cbn [negb].
  assert (Hne : forall j, 0 <= j < 6 -> (cs_segno (CURSEG_I sbi j) =? curseg_segno sbi (log_of type m)) = false).
  { intros j Hj; apply Z.eqb_neq; intros E; assert (Ej : j = log_of type m); [|revert Ej; unfold log_of; change NR_CURSEG_TYPE with 6; lia].
    apply (si_inj _ _ _ Hi); [unfold nr_logs; lia | unfold log_of, nr_logs; change NR_CURSEG_TYPE with 6; lia | exact E]. }
  cbn [List.find]; rewrite !Hne by (vm_compute; split; congruence); reflexivity.
Qed.
